(* ===== verification/_CoqProject ===== *)
-Q . S2P
Prelude.v
Malloc.v
Ringbuf.v
GcTable.v
Gc.v
GcHeap.v
GcMark.v
GcCollect.v
GcAlloc.v
GcSpec.v
MpObj.v
HashKeys.v
Map.v
MapSpec.v
SetTable.v
ObjSet.v
ObjDict.v
Unicode.v
Vstr.v
Hal.v
SmallInt.v
Parsenum.v
Token.v
Lexer.v
LexerStream.v
LexerText.v
LexerWords.v
LexerSpec.v
LexerTokens.v
Mpprint.v
MpprintSpec.v
StrPrint.v
LexerTrip.v
Sequence.v
Qstr.v
QstrSpec.v
Repl.v
Readline.v
ReadlineSpec.v
ObjDeque.v
ObjList.v
ListSpec.v
ListRefine.v
ListSort.v
ObjRange.v
ObjStr.v
StrSpec.v
StrSplit.v
StrReplace.v
StrStrip.v
Pystack.v
Grammar.v
ParseNode.v
Parser.v
ParserRef.v
ParserWf.v
ParserSafe.v
ParserLexer.v
ParserSpec.v
Bytecode.v
BytecodeNum.v
BytecodePrelude.v
BytecodeSpec.v
Scope.v
ScopeSpec.v
ScopeNumber.v
EmitBc.v
EmitMethods.v
EmitPass.v
EmitItems.v
EmitRun.v
EmitCode.v
EmitPrelude.v
EmitSpec.v
EmitRead.v
Args.v
ArgsRule.v
ArgsSpec.v
ArgsCall.v
