(* ===== verification/Prelude.v ===== *)
(** * MicroPython on the IPU: a verification library (root file)

    The repository builds MicroPython for one tile of a Graphcore IPU.  [src/libIPUpy/libIPUpy.c]
    is the concatenation of the interpreter's sources with the code of the port;
    [src/libIPUpy/micropython/] holds the same sources as separate files, which are cited here as
    [py/...] and [shared/...].  A host program copies Python source into the tile's memory, the
    interpreter lexes, parses and runs it, and its output goes to a buffer that the host reads.

    ** Conventions

    Every C function that is modelled is an executable function of the same name.  An [int] or a
    [size_t] is a [Z]; [wrap 32] and [swrap 32] write out unsigned and converting wrap-around, and a
    signed operation that could overflow is checked with [sint] (it is then undefined).  The port is
    ILP32 with tagged small integers of 31 bits, no long integers and no Unicode strings.  A fallible
    function returns an [outcome] (below): a value, an exception, undefined behaviour ([Undef]: a
    memory access outside an array, a failed [assert]), or, for a loop of the model, the end of its
    fuel.  Arrays are lists that are read and written with [rd], [wr], [memmove] and [memcpy_in], all
    of which are [Undef] out of bounds; a theorem that an operation returns therefore also says that
    it stays inside its buffers.  The fuel of each loop is computed from its input (the length of a
    table, the number of characters left, the depth of the sort), and the theorems show the result,
    so that it is enough.

    ** The parts, and the theorems about them

    - Memory.  [Malloc] is [m_malloc] and [m_realloc] ([py/malloc.c]) over an interface, the class
      [Allocator], that says which requests the heap grants: the clients are proved for every such
      heap, and a request that is refused is a [MemoryError] of the caller.  The predicate [oom] says of an operation
      that it ends well, or in a [MemoryError] on a heap that refuses some request.  [GcTable], [Gc] are the garbage collector ([py/gc.c], and [gc_collect] of the port): two
      bits per block, the mark stack of bounded size with its overflow, sweeping, allocation, freeing
      and resizing.  [GcHeap] holds the invariant of the table, [GcMark] and [GcCollect] the proof
      that exactly the blocks that are reachable from the roots survive, [GcAlloc] the chains, and
      [GcSpec] the theorems.  [Pystack] is the stack of temporary arrays ([py/pystack.c]).
    - Tables.  [MpObj] is the interface to Python objects (class [MpObjOps]: equality, hashes and type
      tests with their laws); equality and hashing of user types are code outside the containers.
      [HashKeys], [Map], [SetTable] are the open-addressed tables of [py/map.c]; [MapSpec] and
      [SetTable] show that lookups implement a finite map and a finite set, with the deleted slots,
      growth and fixed tables of the code, and when exactly a lookup runs out of memory: a map is then unchanged,
      but a set is left with the size of a table it does not have ([set_rehash_failed]).  [ObjSet] and [ObjDict]
      are the objects of [py/objset.c] and [py/objdict.c], every method on every branch, with the memory that the
      objects, their tables and the iterators take.
    - Sequences.  [Sequence] (indices, slices, comparison: [py/sequence.c], [py/objslice.c]),
      [ObjList] ([py/objlist.c]), with [ListSpec] and [ListRefine]: an abstract list of Python, with a
      simulation theorem for runs of operations; [ListSort] (quicksort with a key function and a
      comparison that may raise: a permutation however it ends, sorted when it returns, stack depth logarithmic); [ObjRange] ([py/objrange.c]) against Python's ranges; [ObjDeque]
      ([py/objdeque.c]), a circular array that refines a bounded queue.
    - Text.  [Unicode] (character classes, UTF-8 with its round trip), [Vstr] (growing buffers),
      [SmallInt] and [Parsenum] (integers and their literals), [Mpprint] and [MpprintSpec] (formatted
      output of [py/mpprint.c]: what the supported formats print, that the number of characters returned is the
      number sent, and that printing and parsing an integer are inverse), [StrPrint] ([str] and [repr] of strings).  [Qstr] is the
      interning of strings ([py/qstr.c]) on explicit chunks of memory; [QstrSpec] shows that indices
      and strings correspond one to one for ever, also after exceptions.
    - Strings.  [ObjStr] is [py/objstr.c]: the methods and operators of [str] and [bytes].  [StrSpec]
      (searching, joining), [StrSplit] (splitting by a definition that follows Python's documentation,
      and [sep.join(s.split(sep)) == s]), [StrReplace] (the second pass of [replace] writes exactly
      what the first measured), [StrStrip] (stripping, and the operators).
    - The lexer.  [Token] and [Lexer] are [py/lexer.c] over a memory reader.  [LexerStream] shows that
      the window of three characters is a view of the source with normalised line ends, [LexerText]
      and [LexerWords] the loops, [LexerSpec] the invariant of the lexer state; [LexerTokens] states
      that every call makes progress and keeps the invariant, that a source is lexed to its end with
      balanced indents and dedents, that the names and operators are the longest ones; [LexerTrip]
      that the printed form of every string, bytes object and small integer is lexed back to it.
    - The parser.  [Grammar] is [py/grammar.h] as data and the packed tables that [py/parse.c] makes of
      it; [ParseNode] the words of parse nodes ([py/parse.h]) and the nodes in memory; [Parser] the
      machine of [py/parse.c] with its stacks of rules and results and its chunks of memory, over an
      interface (class [TokenSource]) to the lexer.  [ParserRef] is a recursive parser and a
      simulation: the machine does what the recursive parser does.  [ParserWf] is the invariant of the
      parser with one lemma for each operation, [ParserSafe] an induction on the tokens left and the
      rank of a rule: the grammar is not left recursive, and what a rule reads the grammar derives.
      [ParserLexer] makes the lexer a [TokenSource] and is the start of [IPUpy_do_str] of the port;
      [ParserSpec] states that parsing ends with a finite tree typed by the grammar or one of six
      exceptions, with every chunk of memory accounted for.
    - The compiler's scopes.  [Scope] is [py/scope.c] with the declarations and the numbering of locals of
      [py/compile.c]: the scopes are a list, a pointer to a scope is its index.  [ScopeSpec] shows that
      closing over a name finds the variable that Python's rule gives (the nearest enclosing function that
      binds it), makes it a cell there and a free variable in every scope between; [ScopeNumber] that
      parameters, locals, cells and free variables get numbers of their own, the free ones in the order in
      which a closure is built.
    - The bytecode.  [Bytecode] has the encodings that the emitter and the virtual machine share
      ([py/bc.h], [py/bc.c], [py/bc0.h], with the writers of [py/emitbc.c] and the readers of [py/vm.c]).
      [BytecodeNum] and [BytecodePrelude] hold the lemmas on groups of seven bits and on the bits of the
      prelude; [BytecodeSpec] states that every number of 32 bits, signed or not, and every prelude is read
      as it was written, and which format table agrees with what the virtual machine reads.
    - The emitter.  [EmitBc], [EmitMethods] and [EmitPass] are [py/emitbc.c] with the constants of a module
      ([py/emit.h], [py/compile.c]) and the last three passes over the scopes.  What the compiler's walk
      over the tree calls is an input: a list of calls ([emit_call]), the same in every pass over a scope.
      [EmitItems] says what each call means: instructions with the change of the depth of the stack,
      labels.  [EmitRun] and [EmitCode] show the effect of one item and of a list, [EmitPrelude] the start and the
      end of a pass; [EmitSpec] composes the passes; [EmitRead] states that no assert fails, that the
      code fills exactly the memory that was measured, and that the virtual machine reads in it the
      prelude of the scope and the instructions that the calls mean, with jumps to their labels and
      constants that no later function overwrites.
    - Calls.  [Args] is [mp_setup_code_state] of [py/bc.c], which binds the arguments of a call to the locals of
      a function that was compiled to bytecode.  [ArgsRule] states Python's rule ([binding], [accepts]) and
      shows what each loop does to the array of locals; [ArgsSpec] states that a call is bound by the rule, or
      is a [TypeError] when it does not fit the parameters, or a [MemoryError] on a heap that refuses the tuple, the
      dictionary or a cell; and [ArgsCall] the same of every function
      that the emitter compiled, with the instructions of the function left to run.
    - The terminal.  [Ringbuf] ([py/ringbuf.h]), [Hal] (the output buffer and cursor control of the
      port), [Repl] ([py/repl.c]: completion of names from the table of interned strings, and whether the input goes
      on) and [Readline] ([shared/readline/readline.c]); [ReadlineSpec] shows that the screen, as a
      terminal would draw it, agrees with the edited line after every key.

    The files are listed in the order in which they depend on each other.  This file holds what all
    share: outcomes and their notation (scope [c_scope]), machine integers, arrays, the hint databases
    [lens] and [cmodel], and tactics.

    ** Bounds

    The heap of lists of objects is taken to be smaller than 256 MB ([heap_small]), strings shorter
    than 2 GB ([small]), a source file up to 32 MB; the heap of the parser gives
    no region of 64 MB or more; the tile has 624 KB.  A line under the editor is shorter than 745 columns ([roomy]: the
    longest completion has 255 characters, and [mp_hal_move_cursor_back] asserts less than 1000 columns), and the
    strings that can complete it are made of printable ASCII ([printable_names]).  A call has less than [2 ^ 28]
    keyword arguments.  The key function and the comparison of [sort] do not change the list that is sorted, and are
    functions of their arguments.  The items of the iterable that a set or dictionary method takes are a list: the
    iteration itself runs no user code.  Where the code leaves its
    meaning outside such bounds there is a lemma that shows how: a list or a string repeated so often
    that the product wraps ([list_multiply_wraps], [str_multiply_wraps]), [gc_realloc] of the 15
    largest sizes ([gc_realloc_wraps]), ranges over the whole of the small integers
    ([range_len_overflows]), more than 63 cells ([prelude_size_wide]), jumps over 32 KiB ([far_slabel]),
    more than 255 arguments ([call_operand_wide]), a set that cannot grow ([set_rehash_failed]).  The conditions under which a scope is emitted are the
    record [compilable]: counters of 16 bits, labels assigned once, a stack that is balanced.

    ** Not modelled

    The compiler's walk over the parse tree ([py/compile.c]), of which the emitter sees the calls, and the errors it
    reports; the execution of instructions ([py/vm.c]), which calls the runtime at every step; line numbers in the code, which the port does not build; types, function objects (their defaults are an input of [Args]) and generators, [str.format] and [%], tuples and arrays.  ([ObjStr] takes it as a parameter
    whether a string is interned.)  Floating point: the text that [mp_format_float] makes is a parameter of
    [Mpprint], the parsing of decimal numbers is a parameter of [Parser], which may raise [SyntaxError].
    Constant folding and [const] of the parser are not built in the port.  Printing of containers, [gc_info] and the
    dump routines only write text.  The file systems, the native code emitters, drivers and extension
    modules are third-party or not built in the port, and the host side is C++ against a library that
    is not part of the repository. *)

From stdpp Require Export base list numbers option tactics.
From Stdlib Require Export ZArith Lia.

#[global] Arguments Nat.div : simpl never.
#[global] Arguments Nat.modulo : simpl never.

(** ** Outcomes of C code

    A C routine modelled here ends in one of four ways.  [Ret] is a normal
    return, [Raise] a MicroPython exception (an [nlr_jump]), [Undef] an access
    the C standard leaves undefined (out of an array's bounds, a failed
    [assert]), and [OutOfFuel] is never a behaviour of the program: it only marks
    a model loop that was not given enough fuel, and each looping component
    proves that its fuel suffices. *)

Inductive exn : Type :=
| MemoryError | RuntimeError | ValueError | TypeError | IndexError
| KeyError | OverflowError | ZeroDivisionError | StopIteration | SyntaxError | IndentationError | NotImplementedError.

#[export] Instance exn_eq_dec : EqDecision exn.
Proof. solve_decision. Defined.

Inductive outcome (A : Type) : Type :=
| Ret (a : A)
| Raise (e : exn)
| Undef
| OutOfFuel.
Arguments Ret {A} a.
Arguments Raise {A} e.
Arguments Undef {A}.
Arguments OutOfFuel {A}.

#[export] Instance outcome_eq_dec `{EqDecision A} : EqDecision (outcome A).
Proof. solve_decision. Defined.

Definition obind {A B} (m : outcome A) (f : A -> outcome B) : outcome B :=
  match m with
  | Ret a => f a
  | Raise e => Raise e
  | Undef => Undef
  | OutOfFuel => OutOfFuel
  end.

Declare Scope c_scope.
Delimit Scope c_scope with c.
Notation "'let!' x := m 'in' k" := (obind m (fun x => k))
  (at level 10, x name, m at level 100, k at level 200) : c_scope.
Notation "'let!' ' p := m 'in' k" := (obind m (fun x => match x with p => k end))
  (at level 10, p pattern, m at level 100, k at level 200) : c_scope.
Open Scope c_scope.

Lemma obind_ret {A B} (m : outcome A) (f : A -> outcome B) a :
  m = Ret a -> obind m f = f a.
Proof. by intros ->. Qed.

Lemma bind_Ret {A} (m : outcome A) : (let! x := m in Ret x) = m.
Proof. by destruct m. Qed.

Lemma obind_assoc {A B C} (m : outcome A) (f : A -> outcome B) (g : B -> outcome C) :
  obind (obind m f) g = let! x := m in obind (f x) g.
Proof. by destruct m. Qed.

Lemma obind_ext {A B} (m : outcome A) (f g : A -> outcome B) : (forall x, f x = g x) -> obind m f = obind m g.
Proof. intros H. destruct m; cbn; auto. Qed.

Lemma obind_Ret_inv {A B} (m : outcome A) (f : A -> outcome B) b :
  obind m f = Ret b -> exists a, m = Ret a /\ f a = Ret b.
Proof. destruct m; simpl; intros; naive_solver. Qed.

Definition is_Ret {A} (m : outcome A) : Prop := exists a, m = Ret a.

(** ** Machine integers *)

(** Reduction modulo [2^w]: the value stored in a [w]-bit unsigned variable. *)
Definition wrap (w z : Z) : Z := (z mod 2 ^ w)%Z.

(** The value of a [w]-bit two's complement variable holding [z]. *)
Definition swrap (w z : Z) : Z := ((z + 2 ^ (w - 1)) mod 2 ^ w - 2 ^ (w - 1))%Z.

(** The value of a byte. *)
Definition byte (b : Z) : Prop := (0 <= b < 256)%Z.

Definition b2z (b : bool) : Z := if b then 1%Z else 0%Z.

Section MachineIntegers.
Local Open Scope Z_scope.

Lemma wrap_small w z : 0 <= z < 2 ^ w -> wrap w z = z.
Proof. intros. by apply Z.mod_small. Qed.

Lemma wrap_range w z : 0 <= w -> 0 <= wrap w z < 2 ^ w.
Proof. intros. apply Z.mod_pos_bound. by apply Z.pow_pos_nonneg. Qed.

Lemma swrap_small w z : - 2 ^ (w - 1) <= z < 2 ^ (w - 1) -> 0 < w -> swrap w z = z.
Proof.
  intros H Hw. unfold swrap.
  assert (2 ^ w = 2 * 2 ^ (w - 1)).
  { rewrite <- Z.pow_succ_r by lia. f_equal; lia. }
  rewrite Z.mod_small; lia.
Qed.

Lemma swrap_range w z : 0 < w -> - 2 ^ (w - 1) <= swrap w z < 2 ^ (w - 1).
Proof.
  intros Hw. unfold swrap.
  assert (2 ^ w = 2 * 2 ^ (w - 1)).
  { rewrite <- Z.pow_succ_r by lia. f_equal; lia. }
  pose proof (Z.mod_pos_bound (z + 2 ^ (w - 1)) (2 ^ w)).
  assert (0 < 2 ^ (w - 1)) by (apply Z.pow_pos_nonneg; lia). lia.
Qed.
Lemma land_mask x k : 0 <= k -> Z.land x (2 ^ k - 1) = x mod 2 ^ k.
Proof. intros. rewrite <- Z.land_ones, Z.ones_equiv by done. done. Qed.

Lemma land_shiftl_low hi lo k : 0 <= k -> 0 <= lo < 2 ^ k -> Z.land (Z.shiftl hi k) lo = 0.
Proof.
  intros Hk Hlo. apply Z.bits_inj'. intros i Hi. rewrite Z.land_spec, Z.bits_0.
  destruct (Z.lt_ge_cases i k).
  - by rewrite Z.shiftl_spec_low.
  - rewrite <- (Z.mod_small lo (2 ^ k)), Z.mod_pow2_bits_high by lia. apply andb_false_r.
Qed.

(** Concatenation of a high part and a [k]-bit low part with [|]. *)
Lemma lor_shiftl_low hi lo k : 0 <= k -> 0 <= lo < 2 ^ k ->
  Z.lor (Z.shiftl hi k) lo = hi * 2 ^ k + lo.
Proof.
  intros Hk Hlo. rewrite <- Z.add_nocarry_lor by (by apply land_shiftl_low).
  by rewrite Z.shiftl_mul_pow2.
Qed.
End MachineIntegers.

(** ** Arrays indexed by C integers *)

Section Arrays.
Context {A : Type}.
Implicit Types (l : list A) (i : Z).

(** [a[i]] and [a[i] = x] on an array of [length l] elements: undefined out of
    its bounds. *)
Definition rd l i : outcome A :=
  if (i <? 0)%Z then Undef
  else match l !! Z.to_nat i with Some x => Ret x | None => Undef end.

Definition wr l i (x : A) : outcome (list A) :=
  if (i <? 0)%Z then Undef
  else if (Z.to_nat i <? length l)%nat then Ret (<[Z.to_nat i := x]> l) else Undef.

Lemma rd_Ret l i x : (0 <= i)%Z -> l !! Z.to_nat i = Some x -> rd l i = Ret x.
Proof. intros Hi H. unfold rd. rewrite (proj2 (Z.ltb_ge _ _)) by lia. by rewrite H. Qed.

Lemma rd_in_bounds l i : (0 <= i < Z.of_nat (length l))%Z ->
  exists x, rd l i = Ret x /\ l !! Z.to_nat i = Some x.
Proof.
  intros Hi. destruct (lookup_lt_is_Some_2 l (Z.to_nat i)) as [x Hx]; [lia|].
  exists x. split; [|done]. apply rd_Ret; [lia|done].
Qed.

Lemma rd_inv l i x : rd l i = Ret x -> (0 <= i)%Z /\ l !! Z.to_nat i = Some x.
Proof.
  unfold rd. destruct (Z.ltb_spec i 0); [done|].
  destruct (l !! Z.to_nat i) eqn:E; [|done]. intros [= ->]. split; [lia|done].
Qed.

Lemma wr_Ret l i x : (0 <= i < Z.of_nat (length l))%Z ->
  wr l i x = Ret (<[Z.to_nat i := x]> l).
Proof.
  intros Hi. unfold wr. rewrite (proj2 (Z.ltb_ge _ _)) by lia.
  by rewrite (proj2 (Nat.ltb_lt _ _)) by lia.
Qed.

Lemma wr_inv l i x l' : wr l i x = Ret l' ->
  (0 <= i < Z.of_nat (length l))%Z /\ l' = <[Z.to_nat i := x]> l.
Proof.
  unfold wr. destruct (Z.ltb_spec i 0); [done|].
  destruct (Nat.ltb_spec (Z.to_nat i) (length l)); [|done]. intros [= <-]. split; [lia|done].
Qed.

(** [memmove(a + dst, a + src, n)] within one array, counted in elements. *)
Definition memmove l (dst src n : Z) : outcome (list A) :=
  if ((0 <=? dst) && (0 <=? src) && (0 <=? n)
      && (dst + n <=? Z.of_nat (length l)) && (src + n <=? Z.of_nat (length l)))%Z
  then Ret (take (Z.to_nat dst) l ++ take (Z.to_nat n) (drop (Z.to_nat src) l) ++ drop (Z.to_nat (dst + n)) l)
  else Undef.

(** [memcpy(a + dst, s, n)] of the [n] elements [s] of another array. *)
Definition memcpy_in l (dst : Z) (s : list A) : outcome (list A) :=
  if ((0 <=? dst) && (dst + Z.of_nat (length s) <=? Z.of_nat (length l)))%Z
  then Ret (take (Z.to_nat dst) l ++ s ++ drop (Z.to_nat dst + length s) l)
  else Undef.

Lemma memmove_Ret l dst src n :
  (0 <= dst)%Z -> (0 <= src)%Z -> (0 <= n)%Z ->
  (dst + n <= Z.of_nat (length l))%Z -> (src + n <= Z.of_nat (length l))%Z ->
  memmove l dst src n =
  Ret (take (Z.to_nat dst) l ++ take (Z.to_nat n) (drop (Z.to_nat src) l) ++ drop (Z.to_nat (dst + n)) l).
Proof. intros. unfold memmove. by rewrite !(proj2 (Z.leb_le _ _)) by done. Qed.

Lemma memcpy_in_Ret l dst s : (0 <= dst)%Z -> (dst + Z.of_nat (length s) <= Z.of_nat (length l))%Z ->
  memcpy_in l dst s = Ret (take (Z.to_nat dst) l ++ s ++ drop (Z.to_nat dst + length s) l).
Proof. intros. unfold memcpy_in. by rewrite !(proj2 (Z.leb_le _ _)) by done. Qed.

(** Copying over the middle of three parts. *)
Lemma memcpy_in_middle l1 l2 l3 s : length l2 = length s ->
  memcpy_in (l1 ++ l2 ++ l3) (Z.of_nat (length l1)) s = Ret (l1 ++ s ++ l3).
Proof.
  intros E. rewrite memcpy_in_Ret by (rewrite ?length_app; lia). rewrite Nat2Z.id, take_app_length.
  rewrite <- E, <- length_app, (app_assoc l1 l2 l3). by rewrite drop_app_length.
Qed.

Lemma memcpy_in_front l1 l2 s : length l1 = length s -> memcpy_in (l1 ++ l2) 0 s = Ret (s ++ l2).
Proof. exact (memcpy_in_middle [] l1 l2 s). Qed.

Lemma wr_middle l1 x l2 y :
  wr (l1 ++ x :: l2) (Z.of_nat (length l1)) y = Ret (l1 ++ y :: l2).
Proof.
  rewrite wr_Ret by (rewrite length_app; cbn [length]; lia). rewrite Nat2Z.id.
  by rewrite insert_app_r_alt, Nat.sub_diag by lia.
Qed.

Lemma rd_middle l1 x l2 : rd (l1 ++ x :: l2) (Z.of_nat (length l1)) = Ret x.
Proof. apply rd_Ret; [lia|]. by rewrite Nat2Z.id, lookup_app_r, Nat.sub_diag by lia. Qed.
End Arrays.

(** Lengths of lists, as linear arithmetic. *)
Create HintDb lens.
#[export] Hint Rewrite @length_app @length_take @length_drop @length_insert @length_replicate @length_nil
  @length_cons @length_map @length_reverse : lens.
Ltac lens := autorewrite with lens in *; lia.

(** Facts that side conditions of the models use over and over. *)
Create HintDb cmodel.
#[export] Hint Resolve wrap_range swrap_range rd_Ret wr_Ret : cmodel.
#[export] Hint Rewrite @wrap_small using lia : cmodel.

(** ** Tactics shared by the components *)

(** Case split on the innermost boolean comparison of the goal or a hypothesis. *)
Ltac bcase :=
  match goal with
  | |- context [(?a <? ?b)%Z] => destruct (Z.ltb_spec a b)
  | |- context [(?a <=? ?b)%Z] => destruct (Z.leb_spec a b)
  | |- context [(?a =? ?b)%Z] => destruct (Z.eqb_spec a b)
  | |- context [(?a <? ?b)%nat] => destruct (Nat.ltb_spec a b)
  | |- context [(?a <=? ?b)%nat] => destruct (Nat.leb_spec a b)
  | |- context [(?a =? ?b)%nat] => destruct (Nat.eqb_spec a b)
  end.

(** Linear arithmetic with division and remainder by constants. *)
Ltac zdiv := Z.to_euclidean_division_equations; lia.

(** Run a monadic prefix whose outcome is known. *)
Ltac orun := repeat (first [ rewrite obind_ret by eassumption | progress simpl obind ]).

(** Invert a chain of binds that returned. *)
Ltac oinvert :=
  repeat match goal with
  | H : obind _ _ = Ret _ |- _ => apply obind_Ret_inv in H as (? & ? & H)
  | H : Ret _ = Ret _ |- _ => injection H as H
  end.
