(* ===== verification/Malloc.v ===== *)
(** * Typed allocation ([py/malloc.c] and the [m_new] macros of [py/misc.h])

    Arrays of elements of [sz] bytes.  [m_renew_ok n] says whether the garbage collected heap can
    provide a region of [n] bytes ([m_malloc_fail] raises [MemoryError] otherwise) and [fresh] is
    the content of memory it has not initialised.  The byte count is a [size_t]: it wraps. *)

From S2P Require Import Prelude.
Local Open Scope Z_scope.

Class Allocator (A : Type) := { m_renew_ok : Z -> bool; fresh : A }.

Section Malloc.
Context {A : Type} {allocator : Allocator A}.

(** [m_malloc]: no memory, and no exception, for 0 bytes. *)
Definition m_malloc (sz bytes : Z) : outcome (list A) :=
  if bytes =? 0 then Ret []
  else if m_renew_ok bytes then Ret (replicate (Z.to_nat (bytes / sz)) fresh) else Raise MemoryError.

(** [m_realloc]: a region that shrinks stays where it is. *)
Definition m_realloc (sz : Z) (b : list A) (bytes : Z) : outcome (list A) :=
  let n := Z.to_nat (bytes / sz) in
  if bytes =? 0 then Ret []
  else if (n <=? length b)%nat then Ret (take n b)
  else if m_renew_ok bytes then Ret (b ++ replicate (n - length b) fresh) else Raise MemoryError.

(** [m_new(type, num)] and [m_renew(type, ptr, old_num, new_num)]. *)
Definition m_new (sz num : Z) : outcome (list A) := m_malloc sz (wrap 32 (sz * num)).
Definition m_renew (sz : Z) (b : list A) (num : Z) : outcome (list A) := m_realloc sz b (wrap 32 (sz * num)).

Lemma m_new_ok sz n : 0 < sz -> 0 < n -> sz * n < 2 ^ 32 ->
  m_new sz n = if m_renew_ok (sz * n) then Ret (replicate (Z.to_nat n) fresh) else Raise MemoryError.
Proof.
  intros Hsz Hn Hb. unfold m_new, m_malloc. rewrite wrap_small by nia.
  rewrite (proj2 (Z.eqb_neq _ 0)) by nia. by rewrite Z.mul_comm, Z.div_mul by lia.
Qed.

Lemma m_renew_grow sz b n : 0 < sz -> (length b < Z.to_nat n)%nat -> sz * n < 2 ^ 32 ->
  m_renew sz b n =
  if m_renew_ok (sz * n) then Ret (b ++ replicate (Z.to_nat n - length b) fresh) else Raise MemoryError.
Proof.
  intros Hsz Hn Hb. unfold m_renew, m_realloc. rewrite wrap_small by nia.
  rewrite (proj2 (Z.eqb_neq _ 0)) by nia. rewrite Z.mul_comm, Z.div_mul by lia.
  by rewrite (proj2 (Nat.leb_gt _ _)).
Qed.

Lemma m_renew_shrink sz b n : 0 < sz -> 0 < n -> (Z.to_nat n <= length b)%nat -> sz * n < 2 ^ 32 ->
  m_renew sz b n = Ret (take (Z.to_nat n) b).
Proof.
  intros Hsz Hn Hb Hs. unfold m_renew, m_realloc. rewrite wrap_small by nia.
  rewrite (proj2 (Z.eqb_neq _ 0)) by nia. rewrite Z.mul_comm, Z.div_mul by lia.
  by rewrite (proj2 (Nat.leb_le _ _)).
Qed.

(** A region that grows or stays keeps its content. *)
Lemma m_renew_cases sz b n : 0 < sz -> 0 < n -> (length b <= Z.to_nat n)%nat -> sz * n < 2 ^ 32 ->
  m_renew sz b n = Ret (b ++ replicate (Z.to_nat n - length b) fresh) \/ m_renew sz b n = Raise MemoryError.
Proof.
  intros Hsz Hn Hb Hs. destruct (Nat.eq_dec (length b) (Z.to_nat n)) as [E|E].
  - left. rewrite m_renew_shrink by lia. rewrite take_ge by lia. by rewrite E, Nat.sub_diag, app_nil_r.
  - rewrite m_renew_grow by lia. destruct (m_renew_ok _); auto.
Qed.

(** [m_new0(type, num)]: cleared elements, of any type. *)
Definition m_new0_of {B} (zero : B) (sz num : Z) : outcome (list B) :=
  let bytes := wrap 32 (sz * num) in
  if bytes =? 0 then Ret []
  else if m_renew_ok bytes then Ret (replicate (Z.to_nat (bytes / sz)) zero) else Raise MemoryError.

(** [m_new_obj(type)] and [m_new_obj_var(type, var_type, n)]: an object of [size] bytes, and [n] elements behind it. *)
Definition m_new_obj (size : Z) : outcome unit := if m_renew_ok size then Ret tt else Raise MemoryError.
Definition m_new_obj_var (size sz n : Z) : outcome unit := m_new_obj (wrap 32 (size + wrap 32 (sz * n))).

(** The heap gives [n] elements of [sz] bytes. *)
Definition gives (sz n : Z) : bool := (n =? 0) || m_renew_ok (sz * n).

Lemma m_new0_of_ok {B} (zero : B) sz n : 0 < sz -> 0 <= n -> sz * n < 2 ^ 32 ->
  m_new0_of zero sz n = if gives sz n then Ret (replicate (Z.to_nat n) zero) else Raise MemoryError.
Proof.
  intros Hsz Hn Hb. unfold m_new0_of, gives. rewrite wrap_small by nia. destruct (Z.eqb_spec n 0) as [->|H0].
  - by rewrite Z.mul_0_r.
  - rewrite (proj2 (Z.eqb_neq _ 0)) by nia. cbn [orb]. by rewrite Z.mul_comm, Z.div_mul by lia.
Qed.
End Malloc.

(** The heap is smaller than 256 MB. *)
Class SmallHeap (A : Type) `{!Allocator A} : Prop := small_heap : forall b, m_renew_ok (A := A) b = true -> b < 2 ^ 28.

(** The heap of [H] refuses some request. *)
Definition refuses (H : Type) `{!Allocator H} : Prop := exists n, m_renew_ok (A := H) n = false.

(** [r] returns a result as [P] says, or raises [MemoryError] on a heap that refuses some request. *)
Definition oom (H : Type) `{!Allocator H} {A} (r : outcome A) (P : A -> Prop) : Prop :=
  (r = Raise MemoryError /\ refuses H) \/ exists x, r = Ret x /\ P x.

Section Oom.
Context {H : Type} `{!Allocator H}.

Lemma gives_refuses sz n : gives sz n = false -> refuses H.
Proof. unfold gives. intros E%orb_false_iff. exists (sz * n). apply E. Qed.

Lemma oom_Ret {A} (x : A) (P : A -> Prop) : P x -> oom H (Ret x) P.
Proof. right. by exists x. Qed.

Lemma oom_Raise {A} (P : A -> Prop) : refuses H -> oom H (Raise MemoryError) P.
Proof. by left. Qed.

Lemma oom_bind {A B} (r : outcome A) (f : A -> outcome B) P (Q : B -> Prop) :
  oom H r P -> (forall x, P x -> oom H (f x) Q) -> oom H (obind r f) Q.
Proof. intros [[-> ?]|(x & -> & Hx)] Hf; [by left|by apply Hf]. Qed.

Lemma oom_mono {A} (r : outcome A) (P Q : A -> Prop) : (forall x, P x -> Q x) -> oom H r P -> oom H r Q.
Proof. intros HPQ [?|(x & -> & Hx)]; [by left|right]. exists x. auto. Qed.

Lemma m_new_obj_oom size : oom H (m_new_obj (A := H) size) (fun _ => True).
Proof. unfold m_new_obj. destruct (m_renew_ok size) eqn:E; [by apply oom_Ret|]. apply oom_Raise. by exists size. Qed.

Lemma m_new_obj_var_oom size sz n : oom H (m_new_obj_var (A := H) size sz n) (fun _ => True).
Proof. apply m_new_obj_oom. Qed.

Lemma m_new0_of_oom {B} (zero : B) sz n : 0 < sz -> 0 <= n -> sz * n < 2 ^ 32 ->
  oom H (m_new0_of (A := H) zero sz n) (fun l => l = replicate (Z.to_nat n) zero /\ gives (A := H) sz n = true).
Proof.
  intros Hsz Hn Hb. rewrite m_new0_of_ok by done. destruct (gives sz n) eqn:E; [by apply oom_Ret|].
  apply oom_Raise. by apply gives_refuses in E.
Qed.
End Oom.
