(* ===== verification/Ringbuf.v ===== *)
(** * The byte ring buffer of [py/ringbuf.h] and [py/ringbuf.c]

    [ringbuf_t] is a [Record] with the source's fields; the operations return
    the [int] result together with the new state.  The abstract state is the
    FIFO queue [contents]: the bytes from [iget] up to [iput], wrapping. *)

From S2P Require Import Prelude.
From stdpp Require Import list_numbers.
Local Open Scope Z_scope.

Module Ringbuf.

Record ringbuf_t := mk_ringbuf {
  buf : list Z;    (* uint8_t *buf *)
  size : Z;        (* uint16_t *)
  iget : Z;        (* uint16_t *)
  iput : Z         (* uint16_t *)
}.

Definition set_iget (r : ringbuf_t) (i : Z) : ringbuf_t :=
  mk_ringbuf (buf r) (size r) i (iput r).
Definition set_iput (r : ringbuf_t) (b : list Z) (i : Z) : ringbuf_t :=
  mk_ringbuf b (size r) (iget r) i.

(** [ringbuf_alloc(r, sz)]: [m_new] leaves the bytes of the fresh array unspecified. *)
Definition ringbuf_alloc (fresh : list Z) (sz : Z) : ringbuf_t :=
  mk_ringbuf fresh (wrap 16 sz) 0 0.

Definition ringbuf_get (r : ringbuf_t) : outcome (Z * ringbuf_t) :=
  if iget r =? iput r then Ret (-1, r) else
  let! v := rd (buf r) (iget r) in
  let i := wrap 16 (iget r + 1) in
  let i := if i >=? size r then 0 else i in
  Ret (v, set_iget r i).

Definition ringbuf_peek (r : ringbuf_t) : outcome Z :=
  if iget r =? iput r then Ret (-1) else rd (buf r) (iget r).

Definition ringbuf_put (r : ringbuf_t) (v : Z) : outcome (Z * ringbuf_t) :=
  let iput_new := iput r + 1 in
  let iput_new := if iput_new >=? size r then 0 else iput_new in
  if iput_new =? iget r then Ret (-1, r) else
  let! b := wr (buf r) (iput r) v in
  Ret (0, set_iput r b (wrap 16 iput_new)).

(** [%] is C's remainder, on an [int] left operand. *)
Definition ringbuf_free (r : ringbuf_t) : Z :=
  Z.rem (size r + iget r - iput r - 1) (size r).

Definition ringbuf_avail (r : ringbuf_t) : Z :=
  Z.rem (size r + iput r - iget r) (size r).

Definition ringbuf_peek16 (r : ringbuf_t) : outcome Z :=
  if iget r =? iput r then Ret (-1) else
  let iget_a := iget r + 1 in
  let iget_a := if iget_a =? size r then 0 else iget_a in
  if iget_a =? iput r then Ret (-1) else
  let! hi := rd (buf r) (iget r) in
  let! lo := rd (buf r) iget_a in
  Ret (Z.lor (Z.shiftl hi 8) lo).

Definition ringbuf_get16 (r : ringbuf_t) : outcome (Z * ringbuf_t) :=
  let! v := ringbuf_peek16 r in
  if v =? -1 then Ret (v, r) else
  let i := wrap 16 (iget r + 2) in
  let i := if i >=? size r then wrap 16 (i - size r) else i in
  Ret (v, set_iget r i).

Definition ringbuf_put16 (r : ringbuf_t) (v : Z) : outcome (Z * ringbuf_t) :=
  let iput_a := iput r + 1 in
  let iput_a := if iput_a =? size r then 0 else iput_a in
  if iput_a =? iget r then Ret (-1, r) else
  let iput_b := iput_a + 1 in
  let iput_b := if iput_b =? size r then 0 else iput_b in
  if iput_b =? iget r then Ret (-1, r) else
  let! b := wr (buf r) (iput r) (Z.land (Z.shiftr v 8) 255) in
  let! b := wr b iput_a (Z.land v 255) in
  Ret (0, set_iput r b (wrap 16 iput_b)).

(** ** The abstract queue *)

Definition slot (r : ringbuf_t) (k : nat) : nat :=
  Z.to_nat ((iget r + Z.of_nat k) mod size r).

Definition contents (r : ringbuf_t) : list Z :=
  (fun k => buf r !!! slot r k) <$> seq 0 (Z.to_nat (ringbuf_avail r)).

Record wf (r : ringbuf_t) : Prop := {
  wf_len : size r = Z.of_nat (length (buf r));
  wf_size : 0 < size r < 2 ^ 16;
  wf_iget : 0 <= iget r < size r;
  wf_iput : 0 <= iput r < size r;
  wf_bytes : Forall (fun b => 0 <= b < 256) (buf r)
}.

Lemma alloc_wf fresh sz :
  Z.of_nat (length fresh) = sz -> 0 < sz < 2 ^ 16 ->
  Forall (fun b => 0 <= b < 256) fresh ->
  wf (ringbuf_alloc fresh sz) /\ contents (ringbuf_alloc fresh sz) = [].
Proof.
  intros Hl Hs Hb. unfold ringbuf_alloc. rewrite wrap_small by lia. split.
  - constructor; simpl; try lia; done.
  - unfold contents, ringbuf_avail; simpl. rewrite Z.add_0_r, Z.sub_0_r.
    rewrite Z.rem_same by lia. done.
Qed.

Lemma avail_cases r : wf r ->
  ringbuf_avail r = if iget r <=? iput r then iput r - iget r else size r + iput r - iget r.
Proof.
  intros []. unfold ringbuf_avail. rewrite Z.rem_mod_nonneg by lia. bcase.
  - replace (size r + iput r - iget r) with ((iput r - iget r) + 1 * size r) by lia.
    rewrite Z.mod_add, Z.mod_small; lia.
  - apply Z.mod_small; lia.
Qed.

Lemma avail_lt r : wf r -> 0 <= ringbuf_avail r < size r.
Proof. intros W. rewrite avail_cases by done. destruct W. bcase; lia. Qed.

Lemma free_cases r : wf r ->
  ringbuf_free r = size r - 1 - ringbuf_avail r.
Proof.
  intros W. rewrite avail_cases by done. destruct W. unfold ringbuf_free.
  rewrite Z.rem_mod_nonneg by lia. bcase.
  - rewrite Z.mod_small; lia.
  - replace (size r + iget r - iput r - 1) with ((iget r - iput r - 1) + 1 * size r) by lia.
    rewrite Z.mod_add, Z.mod_small; lia.
Qed.

Lemma slot_cases r k : wf r -> Z.of_nat k < size r ->
  slot r k = Z.to_nat (if iget r + Z.of_nat k <? size r then iget r + Z.of_nat k
                       else iget r + Z.of_nat k - size r).
Proof.
  intros [] Hk. unfold slot. f_equal. bcase; [apply Z.mod_small; lia|].
  replace (iget r + Z.of_nat k) with ((iget r + Z.of_nat k - size r) + 1 * size r) by lia.
  rewrite Z.mod_add, Z.mod_small; lia.
Qed.

Lemma contents_length r : wf r -> Z.of_nat (length (contents r)) = ringbuf_avail r.
Proof.
  intros W. unfold contents. rewrite length_fmap, length_seq.
  rewrite avail_cases by done. destruct W. bcase; lia.
Qed.

Lemma contents_lookup r k : wf r -> Z.of_nat k < ringbuf_avail r ->
  contents r !! k = buf r !! slot r k.
Proof.
  intros W Hk. pose proof (avail_lt r W).
  unfold contents. rewrite list_lookup_fmap, lookup_seq_lt by lia. simpl.
  rewrite list_lookup_lookup_total_lt; [done|].
  rewrite slot_cases by (done || lia). destruct W. bcase; lia.
Qed.

(** Two queues of the same length with the same slots are equal. *)
Lemma contents_eq r l : wf r -> Z.of_nat (length l) = ringbuf_avail r ->
  (forall k, Z.of_nat k < ringbuf_avail r -> buf r !! slot r k = l !! k) -> contents r = l.
Proof.
  intros W Hl H. apply list_eq_same_length with (length l); [done| |].
  - pose proof (contents_length r W). lia.
  - intros k x y Hk Hx Hy. rewrite contents_lookup, H, Hy in Hx by (done || lia). congruence.
Qed.

Lemma byte_at r i x : wf r -> buf r !! i = Some x -> 0 <= x < 256.
Proof. intros W H. by apply (Forall_lookup_1 _ _ _ _ (wf_bytes _ W) H). Qed.

Ltac rb_arith W :=
  destruct W; repeat match goal with H : context [if _ then _ else _] |- _ => revert H end;
  repeat bcase; intros; lia.

(** ** One byte in, one byte out *)

Definition next (r : ringbuf_t) (i : Z) : Z := if i + 1 =? size r then 0 else i + 1.

(** Advancing [iget] by one drops the first byte of the queue. *)
Lemma advance_get r : wf r -> iget r <> iput r ->
  let r' := set_iget r (next r (iget r)) in
  wf r' /\ ringbuf_avail r' = ringbuf_avail r - 1 /\
  exists x, buf r !! Z.to_nat (iget r) = Some x /\ contents r = x :: contents r'.
Proof.
  intros W Hne r'.
  assert (W' : wf r') by (unfold r', next; destruct W; constructor; simpl; repeat bcase; try lia; done).
  assert (Ha : ringbuf_avail r' = ringbuf_avail r - 1).
  { rewrite !avail_cases by done. unfold r', next; simpl. rb_arith W. }
  split; [done|]. split; [done|].
  destruct (rd_in_bounds (buf r) (iget r)) as (x & _ & Hx); [destruct W; lia|].
  exists x. split; [done|]. apply contents_eq; [done|simpl; rewrite Nat2Z.inj_succ, contents_length by done; lia|].
  intros [|k] Hk.
  - simpl. rewrite slot_cases by (done || (destruct W; lia)).
    rewrite <- Hx. f_equal. f_equal. rb_arith W.
  - simpl. rewrite contents_lookup by (done || lia). f_equal.
    assert (Z.of_nat (S k) < size r) by (rewrite avail_cases in Hk by done; rb_arith W).
    rewrite !slot_cases by (done || (simpl; lia)). f_equal.
    unfold r', next; simpl. rb_arith W.
Qed.

(** Storing at [iput] and advancing it appends a byte, when the queue is not full. *)
Lemma advance_put r v : wf r -> next r (iput r) <> iget r -> 0 <= v < 256 ->
  let r' := set_iput r (<[Z.to_nat (iput r) := v]> (buf r)) (next r (iput r)) in
  wf r' /\ ringbuf_avail r' = ringbuf_avail r + 1 /\ contents r' = contents r ++ [v].
Proof.
  intros W Hne Hv r'.
  assert (W' : wf r').
  { unfold r'; destruct W; constructor; simpl; rewrite ?length_insert; try lia.
    - unfold next; bcase; lia.
    - by apply Forall_insert. }
  assert (Ha : ringbuf_avail r' = ringbuf_avail r + 1).
  { rewrite !avail_cases by done. unfold r', next in *; simpl. rb_arith W. }
  split; [done|]. split; [done|].
  assert (Hlt : ringbuf_avail r' < size r) by (rewrite avail_cases by done; destruct W'; bcase; simpl in *; lia).
  apply contents_eq; [done| |].
  - rewrite length_app, Nat2Z.inj_add, contents_length by done. simpl. lia.
  - intros k Hk.
    assert (Hs : slot r' k = slot r k) by done. rewrite Hs. unfold r'; simpl.
    pose proof (contents_length r W) as Hcl.
    destruct (decide (k = length (contents r))) as [->|Hk'].
    + rewrite lookup_app_r, Nat.sub_diag by lia. simpl.
      rewrite slot_cases by (done || lia).
      replace (Z.to_nat _) with (Z.to_nat (iput r)).
      * apply list_lookup_insert_eq. destruct W; lia.
      * f_equal. rewrite Hcl, avail_cases by done. rb_arith W.
    + rewrite lookup_app_l by lia. rewrite contents_lookup by (done || lia).
      apply list_lookup_insert_ne. rewrite slot_cases by (done || lia).
      rewrite avail_cases in Hcl by done. rb_arith W.
Qed.

Lemma full_iff r : wf r -> (next r (iput r) = iget r <-> ringbuf_free r = 0).
Proof.
  intros W. rewrite free_cases, avail_cases by done. unfold next. rb_arith W.
Qed.

(** ** The store operations *)

Lemma put_next r : wf r -> (if iput r + 1 >=? size r then 0 else iput r + 1) = next r (iput r).
Proof. intros W. unfold next. destruct W. rewrite Z.geb_leb. repeat bcase; lia. Qed.

Lemma next_range r i : wf r -> 0 <= i < size r -> 0 <= next r i < size r.
Proof. intros W Hi. unfold next. bcase; destruct W; lia. Qed.

Lemma ringbuf_put_ok r v : wf r -> 0 <= v < 256 -> ringbuf_free r <> 0 ->
  exists r', ringbuf_put r v = Ret (0, r') /\ wf r' /\ size r' = size r /\
             ringbuf_free r' = ringbuf_free r - 1 /\ contents r' = contents r ++ [v].
Proof.
  intros W Hv Hf. unfold ringbuf_put. rewrite put_next by done.
  pose proof (next_range r (iput r) W (wf_iput _ W)).
  destruct (Z.eqb_spec (next r (iput r)) (iget r)) as [E|E]; [by apply full_iff in E|].
  rewrite wr_Ret by (destruct W; lia). simpl. rewrite wrap_small by (destruct W; lia).
  destruct (advance_put r v W E Hv) as (W' & Ha & Hc).
  eexists. do 3 (split; [done|]). rewrite !free_cases by done. split; [|done]. simpl in *. lia.
Qed.

Lemma empty_iff r : wf r -> (iget r = iput r <-> contents r = []).
Proof.
  intros W. pose proof (contents_length r W) as H. rewrite avail_cases in H by done.
  split; intros E.
  - apply length_zero_iff_nil. revert H. destruct W. bcase; lia.
  - rewrite E in H. simpl in H. destruct W. revert H. bcase; lia.
Qed.

Lemma get_step r : wf r -> iget r <> iput r -> forall x, contents r !! 0%nat = Some x ->
  wf (set_iget r (next r (iget r))) /\ rd (buf r) (iget r) = Ret x /\ 0 <= x < 256 /\
  contents r = x :: contents (set_iget r (next r (iget r))).
Proof.
  intros W Hne x Hx. destruct (advance_get r W Hne) as (W' & _ & y & Hy & Hc).
  rewrite Hc in Hx. injection Hx as ->. split; [done|]. split; [|split; [by eapply byte_at|done]].
  apply rd_Ret; [destruct W; lia|done].
Qed.

(** ** The properties of the buffer *)

(** [ringbuf_put] and [ringbuf_get] implement a bounded FIFO queue.  A put on a full
    buffer ([ringbuf_free] is 0) returns -1 and changes nothing, otherwise it appends the
    byte; a get on the empty queue returns -1, otherwise it removes and returns the oldest
    byte.  Neither reads or writes outside the array and both keep the invariant. *)
Theorem ringbuf_fifo r v : wf r -> 0 <= v < 256 ->
  (if ringbuf_free r =? 0 then ringbuf_put r v = Ret (-1, r)
   else exists r', ringbuf_put r v = Ret (0, r') /\ wf r' /\ size r' = size r /\
        contents r' = contents r ++ [v]) /\
  match contents r with
  | [] => ringbuf_get r = Ret (-1, r)
  | x :: q => exists r', ringbuf_get r = Ret (x, r') /\ wf r' /\ size r' = size r /\
        contents r' = q
  end.
Proof.
  intros W Hv. split.
  - destruct (Z.eqb_spec (ringbuf_free r) 0) as [F|F].
    + unfold ringbuf_put. rewrite put_next by done. apply full_iff in F; [|done].
      by rewrite F, Z.eqb_refl.
    + destruct (ringbuf_put_ok r v W Hv F) as (r' & ? & ? & ? & ? & ?). eauto.
  - unfold ringbuf_get. destruct (contents r) as [|x q] eqn:Hc.
    + apply empty_iff in Hc; [|done]. by rewrite Hc, Z.eqb_refl.
    + assert (Hne : iget r <> iput r) by (intros E; apply empty_iff in E; [congruence|done]).
      rewrite (proj2 (Z.eqb_neq _ _) Hne).
      destruct (get_step r W Hne x) as (W' & Hr & _ & Hc'); [by rewrite Hc|].
      rewrite Hr. simpl. eexists. rewrite wrap_small by (destruct W; lia).
      replace (if iget r + 1 >=? size r then 0 else iget r + 1) with (next r (iget r))
        by (unfold next; destruct W; rewrite Z.geb_leb; repeat bcase; lia).
      split; [done|]. split; [done|]. split; [done|]. congruence.
Qed.

Lemma ringbuf_fifo_witness :
  let r := mk_ringbuf [1; 2; 3; 4] 4 3 1 in
  contents r = [4; 1] /\ contents (mk_ringbuf [1; 9; 3; 4] 4 3 2) = [4; 1; 9] /\
  exists r', ringbuf_put r 9 = Ret (0, r') /\ wf r' /\ size r' = size r /\ contents r' = [4; 1] ++ [9].
Proof.
  split; [reflexivity|]. split; [reflexivity|].
  refine (proj1 (ringbuf_fifo (mk_ringbuf [1; 2; 3; 4] 4 3 1) 9 _ _)); [|lia].
  constructor; simpl; try lia. repeat constructor; lia.
Defined.

Lemma ringbuf_put16_ok r v : wf r -> 0 <= v < 2 ^ 16 ->
  if ringbuf_free r <? 2 then ringbuf_put16 r v = Ret (-1, r)
  else exists r', ringbuf_put16 r v = Ret (0, r') /\ wf r' /\ size r' = size r /\
       contents r' = contents r ++ [v / 256; v mod 256].
Proof.
  intros W Hv. unfold ringbuf_put16.
  change (if iput r + 1 =? size r then 0 else iput r + 1) with (next r (iput r)).
  change (if next r (iput r) + 1 =? size r then 0 else next r (iput r) + 1)
    with (next r (next r (iput r))).
  pose proof (next_range r (iput r) W (wf_iput _ W)) as Hn.
  pose proof (next_range r _ W Hn) as Hnn.
  change 255 with (2 ^ 8 - 1). rewrite !land_mask, Z.shiftr_div_pow2 by lia.
  change (2 ^ 8) with 256. assert (Hvb : 0 <= v / 256 < 256) by zdiv.
  rewrite (Z.mod_small (v / 256)) by done.
  destruct (Z.eqb_spec (next r (iput r)) (iget r)) as [E|E].
  { apply full_iff in E; [|done]. by rewrite (proj2 (Z.ltb_lt _ _)) by lia. }
  destruct (advance_put r (v / 256) W E Hvb) as (W1 & Ha1 & Hc1).
  assert (Hf : (next r (next r (iput r)) = iget r) <-> ringbuf_free r < 2).
  { pose proof (full_iff _ W1) as F. rewrite free_cases in F |- * by done. simpl in F.
    pose proof (avail_lt r W). rewrite full_iff, free_cases in E by done. 
    change (next (set_iput r _ _) (next r (iput r))) with (next r (next r (iput r))) in F.
    rewrite F. lia. }
  destruct (Z.eqb_spec (next r (next r (iput r))) (iget r)) as [E2|E2];
    [rewrite (proj2 (Z.ltb_lt _ _)) by (by apply Hf); done|].
  rewrite (proj2 (Z.ltb_ge _ _)) by (rewrite <- Z.nlt_ge, <- Hf; done).
  destruct (advance_put _ (v mod 256) W1 E2 ltac:(apply Z.mod_pos_bound; lia)) as (W2 & _ & Hc2).
  rewrite wr_Ret by (destruct W; lia). simpl.
  rewrite wr_Ret by (rewrite length_insert; destruct W; lia). simpl.
  rewrite wrap_small by (destruct W; lia).
  eexists. split; [reflexivity|]. split; [exact W2|]. split; [done|].
  etransitivity; [exact Hc2|]. by rewrite Hc1, <- app_assoc.
Qed.

Lemma get16_next r : wf r -> size r <= 65534 ->
  (if wrap 16 (iget r + 2) >=? size r then wrap 16 (wrap 16 (iget r + 2) - size r)
   else wrap 16 (iget r + 2)) = (if iget r + 2 <? size r then iget r + 2 else iget r + 2 - size r).
Proof.
  intros W Hs. destruct W. rewrite !Z.geb_leb, (wrap_small 16 (iget r + 2)) by lia.
  repeat bcase; rewrite ?wrap_small; lia.
Qed.

Lemma peek16_ok r : wf r ->
  ringbuf_peek16 r = match contents r with hi :: lo :: _ => Ret (hi * 256 + lo) | _ => Ret (-1) end /\
  forall hi lo q, contents r = hi :: lo :: q ->
    0 <= hi < 256 /\ 0 <= lo < 256 /\ iget r <> iput r /\ next r (iget r) <> iput r.
Proof.
  intros W. unfold ringbuf_peek16.
  change (if iget r + 1 =? size r then 0 else iget r + 1) with (next r (iget r)).
  destruct (Z.eqb_spec (iget r) (iput r)) as [E|E].
  { apply empty_iff in E; [|done]. rewrite E. done. }
  destruct (contents r) as [|x q] eqn:Hc; [by apply empty_iff in Hc|].
  destruct (get_step r W E x) as (W1 & R1 & B1 & C1); [by rewrite Hc|]. rewrite Hc in C1.
  destruct (Z.eqb_spec (next r (iget r)) (iput r)) as [E2|E2].
  { apply (proj1 (empty_iff _ W1)) in E2. rewrite E2 in C1. simplify_eq/=. split; [done|naive_solver]. }
  destruct q as [|y q].
  { exfalso. apply E2. apply (proj2 (empty_iff _ W1)). by injection C1. }
  destruct (get_step _ W1 E2 y) as (_ & R2 & B2 & _); [by injection C1 as <-|]. simpl in R2.
  rewrite R1, R2. simpl. split; [|naive_solver].
  rewrite lor_shiftl_low by lia. done.
Qed.

Lemma ringbuf_get16_ok r : wf r -> size r <= 65534 ->
  match contents r with
  | hi :: lo :: q => exists r', ringbuf_get16 r = Ret (hi * 256 + lo, r') /\ wf r' /\
        size r' = size r /\ contents r' = q
  | _ => ringbuf_get16 r = Ret (-1, r)
  end.
Proof.
  intros W Hs. unfold ringbuf_get16. destruct (peek16_ok r W) as [-> Hb].
  destruct (contents r) as [|x [|y q]] eqn:Hc; [done|done|].
  destruct (Hb x y q eq_refl) as (B1 & B2 & E1 & E2). simpl.
  rewrite (proj2 (Z.eqb_neq _ _)) by lia. rewrite get16_next by done.
  destruct (get_step r W E1 x) as (W1 & _ & _ & C1); [by rewrite Hc|].
  rewrite Hc in C1. injection C1 as C1.
  destruct (get_step _ W1 E2 y) as (W2 & _ & _ & C2); [by rewrite <- C1|].
  rewrite <- C1 in C2. injection C2 as C2.
  eexists. split; [done|].
  replace (if _ <? _ then _ else _) with (next r (next r (iget r)))
    by (unfold next; destruct (Z.eqb_spec (iget r + 1) (size r)); destruct W; repeat bcase; lia).
  split; [done|]. split; [done|]. unfold set_iget in *; simpl in *.
  change (next (mk_ringbuf _ _ _ _)) with (next r) in C2. congruence.
Qed.

(** The 16-bit operations are big-endian two-byte transfers, all or nothing: with fewer
    than two free slots [ringbuf_put16] returns -1 and changes nothing, otherwise it appends
    the high byte then the low byte; with fewer than two bytes queued [ringbuf_get16]
    returns -1 and changes nothing, otherwise it removes two bytes and returns them as one
    number.  The buffer has at most 65534 bytes (see [ringbuf_get16_wraps]). *)
Theorem ringbuf_16bit r v : wf r -> size r <= 65534 -> 0 <= v < 2 ^ 16 ->
  (if ringbuf_free r <? 2 then ringbuf_put16 r v = Ret (-1, r)
   else exists r', ringbuf_put16 r v = Ret (0, r') /\ wf r' /\ size r' = size r /\
        contents r' = contents r ++ [v / 256; v mod 256]) /\
  match contents r with
  | hi :: lo :: q => exists r', ringbuf_get16 r = Ret (hi * 256 + lo, r') /\ wf r' /\
        size r' = size r /\ contents r' = q
  | _ => ringbuf_get16 r = Ret (-1, r)
  end.
Proof.
  intros W Hsz Hv. split.
  - by apply ringbuf_put16_ok.
  - by apply ringbuf_get16_ok.
Qed.

Lemma ringbuf_16bit_witness :
  let r := mk_ringbuf [1; 2; 3; 4] 4 3 1 in
  contents r = [4; 1] /\ exists r', ringbuf_get16 r = Ret (4 * 256 + 1, r') /\ wf r' /\
  size r' = size r /\ contents r' = [].
Proof.
  split; [reflexivity|].
  refine (proj2 (ringbuf_16bit (mk_ringbuf [1; 2; 3; 4] 4 3 1) 9 _ _ _)); [|simpl; lia|lia].
  constructor; simpl; try lia. repeat constructor; lia.
Defined.

(** [r->iget += 2] is computed in a [uint16_t]: on a buffer of 65535 bytes it wraps to 0 instead
    of to 1, so [ringbuf_get16] removes only one of the two bytes it returns. *)
Theorem ringbuf_get16_wraps r : wf r -> size r = 65535 -> iget r = 65534 ->
  2 <= ringbuf_avail r ->
  exists v r', ringbuf_get16 r = Ret (v, r') /\ ringbuf_avail r' = ringbuf_avail r - 1.
Proof.
  intros W Hs Hg Ha. unfold ringbuf_get16. destruct (peek16_ok r W) as [-> Hb].
  pose proof (contents_length r W) as Hl.
  destruct (contents r) as [|x [|y q]] eqn:Hc; [simpl in Hl; lia|simpl in Hl; lia|].
  destruct (Hb x y q eq_refl) as (B1 & B2 & E1 & E2). simpl.
  rewrite (proj2 (Z.eqb_neq _ _)) by lia. rewrite Hs, Hg. simpl.
  eexists _, _. split; [reflexivity|].
  destruct (get_step r W E1 x) as (W1 & _ & _ & C1); [by rewrite Hc|].
  unfold next in W1. rewrite Hs, Hg in W1. simpl in W1.
  rewrite avail_cases in Ha by done.
  rewrite !avail_cases by done. unfold set_iget; simpl.
  change (wrap 16 (65534 + 2)) with 0. rb_arith W.
Qed.

Lemma ringbuf_get16_wraps_witness :
  let r := mk_ringbuf (replicate 65535 7) 65535 65534 5 in
  exists v r', ringbuf_get16 r = Ret (v, r') /\ ringbuf_avail r' = ringbuf_avail r - 1.
Proof.
  apply ringbuf_get16_wraps; [|reflexivity|reflexivity|vm_compute; congruence].
  constructor; [| | | |apply Forall_replicate; lia]; vm_compute; intuition congruence.
Defined.

End Ringbuf.
