(* ===== verification/GcTable.v ===== *)
(** * The allocation table of the garbage collector ([py/gc.c], lines 50-84)

    The heap is an array of blocks; the allocation table holds two bits per block, four
    blocks to a byte.  This file models the macros that read and update the two-bit fields
    on the actual bytes, and shows that they behave as updates of one entry of an array of
    kinds ([kind_setter]). *)

From S2P Require Import Prelude.
From stdpp Require Import list_numbers.

Definition WORDS_PER_BLOCK : nat := 4.
Definition BYTES_PER_BLOCK : Z := 16.

Definition AT_FREE : Z := 0.
Definition AT_HEAD : Z := 1.
Definition AT_TAIL : Z := 2.
Definition AT_MARK : Z := 3.

Definition BLOCKS_PER_ATB : nat := 4.

Definition ATB_0_IS_FREE (a : Z) : bool := (Z.land a 0x03 =? 0)%Z.
Definition ATB_1_IS_FREE (a : Z) : bool := (Z.land a 0x0c =? 0)%Z.
Definition ATB_2_IS_FREE (a : Z) : bool := (Z.land a 0x30 =? 0)%Z.
Definition ATB_3_IS_FREE (a : Z) : bool := (Z.land a 0xc0 =? 0)%Z.

Definition BLOCK_SHIFT (block : nat) : Z :=
  2 * Z.land (Z.of_nat block) (Z.of_nat BLOCKS_PER_ATB - 1).

(** One byte of the table: the field read by [ATB_GET_KIND] and the assignments of the five
    update macros.  A byte is an [uint8_t], hence the [wrap 8] on what is stored. *)
Definition byte_kind (a s : Z) : Z := Z.land (Z.shiftr a s) 3.
Definition byte_to_free (a s : Z) : Z := wrap 8 (Z.land a (Z.lnot (Z.shiftl AT_MARK s))).
Definition byte_free_to_head (a s : Z) : Z := wrap 8 (Z.lor a (Z.shiftl AT_HEAD s)).
Definition byte_free_to_tail (a s : Z) : Z := wrap 8 (Z.lor a (Z.shiftl AT_TAIL s)).
Definition byte_head_to_mark (a s : Z) : Z := wrap 8 (Z.lor a (Z.shiftl AT_MARK s)).
Definition byte_mark_to_head (a s : Z) : Z := wrap 8 (Z.land a (Z.lnot (Z.shiftl AT_TAIL s))).

(** The table with the byte that follows it in memory: [gc.c] reads one entry past the last
    block when a chain ends at the end of the heap, and never writes there.  That the byte does not change is
    right when it is between the table and the pool, as it always is for the heap of the port
    ([port_heap_gap] of the file [GcHeap]); a region whose aligned size is a multiple of 65 bytes leaves nothing
    between them, and there the byte would be the first of the pool. *)
Record atb_t := mk_atb {
  bytes : list Z;
  after : Z
}.

Definition nblocks (t : atb_t) : nat := length (bytes t) * BLOCKS_PER_ATB.

Definition atb_byte (t : atb_t) (i : nat) : outcome Z :=
  if (i =? length (bytes t))%nat then Ret (after t) else rd (bytes t) (Z.of_nat i).

Definition ATB_GET_KIND (t : atb_t) (block : nat) : outcome Z :=
  let! a := atb_byte t (block / BLOCKS_PER_ATB) in
  Ret (byte_kind a (BLOCK_SHIFT block)).

Definition atb_update (f : Z -> Z -> Z) (t : atb_t) (block : nat) : outcome atb_t :=
  let i := Z.of_nat (block / BLOCKS_PER_ATB) in
  let! a := rd (bytes t) i in
  let! b := wr (bytes t) i (f a (BLOCK_SHIFT block)) in
  Ret (mk_atb b (after t)).

Definition ATB_ANY_TO_FREE := atb_update byte_to_free.
Definition ATB_FREE_TO_HEAD := atb_update byte_free_to_head.
Definition ATB_FREE_TO_TAIL := atb_update byte_free_to_tail.
Definition ATB_HEAD_TO_MARK := atb_update byte_head_to_mark.
Definition ATB_MARK_TO_HEAD := atb_update byte_mark_to_head.

(** ** The table as an array of kinds *)

Definition kind (t : atb_t) (b : nat) : Z :=
  byte_kind (match bytes t !! (b / 4)%nat with Some a => a | None => after t end) (BLOCK_SHIFT b).

Definition bytes_ok (t : atb_t) : Prop :=
  Forall (fun a => 0 <= a < 256)%Z (bytes t).

Lemma BLOCK_SHIFT_mod b : BLOCK_SHIFT b = (2 * Z.of_nat (b mod 4))%Z.
Proof.
  unfold BLOCK_SHIFT, BLOCKS_PER_ATB. change (Z.of_nat 4 - 1)%Z with (2 ^ 2 - 1)%Z.
  rewrite land_mask by lia. change (2 ^ 2)%Z with 4%Z. by rewrite Nat2Z.inj_mod.
Qed.

Lemma kind_range t b : (0 <= kind t b < 4)%Z.
Proof.
  unfold kind, byte_kind. change 3%Z with (2 ^ 2 - 1)%Z. rewrite land_mask by lia.
  apply Z.mod_pos_bound. done.
Qed.

Lemma get_kind t b : (b <= nblocks t)%nat -> ATB_GET_KIND t b = Ret (kind t b).
Proof.
  unfold nblocks, ATB_GET_KIND, atb_byte, kind, BLOCKS_PER_ATB. intros Hb.
  destruct (Nat.eqb_spec (b / 4) (length (bytes t))) as [E|Hne].
  - rewrite (lookup_ge_None_2 (bytes t) (b / 4)) by lia. done.
  - assert (b / 4 < length (bytes t))%nat by (apply Nat.le_neq; split; [|done];
      apply Nat.Div0.div_le_upper_bound; lia).
    destruct (rd_in_bounds (bytes t) (Z.of_nat (b / 4))) as (x & Hr & Hx); [lia|].
    rewrite Hr. simpl. rewrite Nat2Z.id in Hx. by rewrite Hx.
Qed.

(** Every byte operation acts on one two-bit field and leaves the other three alone; checked
    on all 256 bytes and all pairs of fields. *)
Definition check_fields (f : Z -> Z -> Z) (old new : Z) : bool :=
  forallb (fun a => forallb (fun s => forallb (fun s' =>
    implb (if (old =? 4)%Z then true else (byte_kind a (2 * s) =? old)%Z)
      ((byte_kind (f a (2 * s)) (2 * s') =? (if (s =? s')%Z then new else byte_kind a (2 * s')))%Z
       && (0 <=? f a (2 * s))%Z && (f a (2 * s) <? 256)%Z))
    (seqZ 0 4)) (seqZ 0 4)) (seqZ 0 256).

Lemma check_fields_sound f old new a s s' :
  check_fields f old new = true ->
  (0 <= a < 256)%Z -> (0 <= s < 4)%Z -> (0 <= s' < 4)%Z ->
  old = 4%Z \/ byte_kind a (2 * s) = old ->
  byte_kind (f a (2 * s)%Z) (2 * s') = (if (s =? s')%Z then new else byte_kind a (2 * s')) /\
  (0 <= f a (2 * s) < 256)%Z.
Proof.
  intros Hc Ha Hs Hs' Ho. unfold check_fields in Hc.
  assert (Hin : forall x n, (0 <= x < n)%Z -> In x (seqZ 0 n))
    by (intros; apply list_elem_of_In, elem_of_seqZ; lia).
  rewrite forallb_forall in Hc. specialize (Hc a (Hin _ _ Ha)). cbv beta in Hc.
  rewrite forallb_forall in Hc. specialize (Hc s (Hin _ _ Hs)). cbv beta in Hc.
  rewrite forallb_forall in Hc. specialize (Hc s' (Hin _ _ Hs')). cbv beta in Hc.
  assert ((if (old =? 4)%Z then true else (byte_kind a (2 * s) =? old)%Z) = true) as Hif.
  { destruct (Z.eqb_spec old 4); [done|]. destruct Ho; [done|by apply Z.eqb_eq]. }
  rewrite Hif in Hc. simpl in Hc. rewrite !andb_true_iff, Z.eqb_eq, Z.leb_le, Z.ltb_lt in Hc. lia.
Qed.

(** [f] sets the field of one block to [new], when that field is [old] (any kind if [old] is 4). *)
Definition kind_setter (f : atb_t -> nat -> outcome atb_t) (old new : Z) : Prop :=
  forall t b, bytes_ok t -> (b < nblocks t)%nat -> old = 4%Z \/ kind t b = old ->
  exists t', f t b = Ret t' /\ bytes_ok t' /\ length (bytes t') = length (bytes t) /\
    after t' = after t /\
    forall b', kind t' b' = if decide (b' = b) then new else kind t b'.

Lemma atb_update_setter f old new :
  check_fields f old new = true -> kind_setter (atb_update f) old new.
Proof.
  intros Hc t b Hok Hb Ho. unfold atb_update, nblocks, BLOCKS_PER_ATB in *.
  assert (Hlt : (b / 4 < length (bytes t))%nat) by (apply Nat.Div0.div_lt_upper_bound; lia).
  destruct (rd_in_bounds (bytes t) (Z.of_nat (b / 4))) as (a & Hr & Ha); [lia|].
  rewrite Hr. simpl. rewrite wr_Ret by lia. simpl. rewrite Nat2Z.id in *.
  assert (Hab : (0 <= a < 256)%Z) by (by eapply (Forall_lookup_1 _ _ _ _ Hok)).
  assert (Hk : kind t b = byte_kind a (BLOCK_SHIFT b)) by (unfold kind; by rewrite Ha).
  pose proof (fun s' H => check_fields_sound f old new a (Z.of_nat (b mod 4)) s' Hc Hab
    ltac:(pose proof (Nat.mod_upper_bound b 4); lia) H
    ltac:(rewrite <- BLOCK_SHIFT_mod, <- Hk; done)) as Hs.
  rewrite <- BLOCK_SHIFT_mod in Hs.
  eexists. split; [reflexivity|]. split; [|split; [|split]]; simpl.
  - apply Forall_insert; [done|]. apply (Hs 0%Z); lia.
  - apply length_insert.
  - done.
  - intros b'. unfold kind at 1; simpl.
    pose proof (Nat.mod_upper_bound b' 4). pose proof (Nat.div_mod_eq b' 4).
    pose proof (Nat.div_mod_eq b 4). pose proof (Nat.mod_upper_bound b 4).
    destruct (decide (b' / 4 = b / 4)%nat) as [E|E].
    + rewrite E, list_lookup_insert_eq by lia. rewrite (BLOCK_SHIFT_mod b').
      rewrite (proj1 (Hs (Z.of_nat (b' mod 4)) ltac:(lia))). rewrite <- (BLOCK_SHIFT_mod b').
      destruct (Z.eqb_spec (Z.of_nat (b mod 4)) (Z.of_nat (b' mod 4))); case_decide; try lia.
      unfold kind. by rewrite E, Ha.
    + rewrite list_lookup_insert_ne by done. case_decide; [congruence|done].
Qed.

Lemma any_to_free : kind_setter ATB_ANY_TO_FREE 4 AT_FREE.
Proof. apply atb_update_setter. vm_compute. reflexivity. Qed.
Lemma free_to_head : kind_setter ATB_FREE_TO_HEAD AT_FREE AT_HEAD.
Proof. apply atb_update_setter. vm_compute. reflexivity. Qed.
Lemma free_to_tail : kind_setter ATB_FREE_TO_TAIL AT_FREE AT_TAIL.
Proof. apply atb_update_setter. vm_compute. reflexivity. Qed.
Lemma head_to_mark : kind_setter ATB_HEAD_TO_MARK AT_HEAD AT_MARK.
Proof. apply atb_update_setter. vm_compute. reflexivity. Qed.
Lemma mark_to_head : kind_setter ATB_MARK_TO_HEAD AT_MARK AT_HEAD.
Proof. apply atb_update_setter. vm_compute. reflexivity. Qed.

(** The four tests of [gc_alloc] on a byte are the tests of its four fields. *)
Lemma is_free_kind t i a : bytes_ok t -> bytes t !! i = Some a ->
  ATB_0_IS_FREE a = (kind t (4 * i) =? AT_FREE)%Z /\
  ATB_1_IS_FREE a = (kind t (4 * i + 1) =? AT_FREE)%Z /\
  ATB_2_IS_FREE a = (kind t (4 * i + 2) =? AT_FREE)%Z /\
  ATB_3_IS_FREE a = (kind t (4 * i + 3) =? AT_FREE)%Z.
Proof.
  intros Hok Ha.
  assert (Hab : (0 <= a < 256)%Z) by (by eapply (Forall_lookup_1 _ _ _ _ Hok)).
  assert (Hk : forall j, (j < 4)%nat -> kind t (4 * i + j) = byte_kind a (2 * Z.of_nat j)).
  { intros j Hj. unfold kind. rewrite BLOCK_SHIFT_mod.
    replace ((4 * i + j) / 4)%nat with i by (apply Nat.div_unique with j; lia).
    replace ((4 * i + j) mod 4)%nat with j by (apply Nat.mod_unique with i; lia).
    by rewrite Ha. }
  rewrite <- (Nat.add_0_r (4 * i)) at 1. rewrite !Hk by lia.
  assert (forallb (fun a => (Bool.eqb (ATB_0_IS_FREE a) (byte_kind a 0 =? 0)
    && Bool.eqb (ATB_1_IS_FREE a) (byte_kind a 2 =? 0) && Bool.eqb (ATB_2_IS_FREE a) (byte_kind a 4 =? 0)
    && Bool.eqb (ATB_3_IS_FREE a) (byte_kind a 6 =? 0))%Z) (seqZ 0 256) = true) as Hc by (vm_compute; done).
  rewrite forallb_forall in Hc. specialize (Hc a ltac:(apply list_elem_of_In, elem_of_seqZ; lia)).
  rewrite !andb_true_iff, !Bool.eqb_true_iff in Hc. naive_solver.
Qed.
