(* ===== verification/Gc.v ===== *)
(** * The garbage-collected heap of [py/gc.c]: state and operations

    The configuration is the one of the port: no threads, no finalisers
    ([MICROPY_ENABLE_FINALISER] is 0), no allocation threshold, whole blocks cleared on
    allocation ([MICROPY_GC_CONSERVATIVE_CLEAR] is 1), 32-bit words.  The depth of the mark
    stack, [MICROPY_ALLOC_GC_STACK_SIZE], is a parameter. *)

From S2P Require Import Prelude GcTable.
From stdpp Require Import list_numbers.

(** [MP_STATE_MEM]: the allocation table, the pool seen as an array of words, and the
    allocator's variables. *)
Record gc_t := mk_gc {
  atb : atb_t;                   (* gc_alloc_table_start[0 .. gc_alloc_table_byte_len] *)
  pool : list Z;                 (* the words from gc_pool_start to gc_pool_end *)
  gc_pool_start : Z;
  gc_last_free_atb_index : nat;
  gc_stack_overflow : bool;
  gc_lock_depth : Z;
  gc_auto_collect_enabled : bool
}.

Definition gc_pool_end (g : gc_t) : Z := (gc_pool_start g + Z.of_nat (nblocks (atb g)) * BYTES_PER_BLOCK)%Z.

Definition set_atb (g : gc_t) (t : atb_t) : gc_t :=
  mk_gc t (pool g) (gc_pool_start g) (gc_last_free_atb_index g) (gc_stack_overflow g)
    (gc_lock_depth g) (gc_auto_collect_enabled g).
Definition set_pool (g : gc_t) (p : list Z) : gc_t :=
  mk_gc (atb g) p (gc_pool_start g) (gc_last_free_atb_index g) (gc_stack_overflow g)
    (gc_lock_depth g) (gc_auto_collect_enabled g).
Definition set_last_free (g : gc_t) (i : nat) : gc_t :=
  mk_gc (atb g) (pool g) (gc_pool_start g) i (gc_stack_overflow g)
    (gc_lock_depth g) (gc_auto_collect_enabled g).
Definition set_overflow (g : gc_t) (b : bool) : gc_t :=
  mk_gc (atb g) (pool g) (gc_pool_start g) (gc_last_free_atb_index g) b
    (gc_lock_depth g) (gc_auto_collect_enabled g).
Definition set_lock_depth (g : gc_t) (d : Z) : gc_t :=
  mk_gc (atb g) (pool g) (gc_pool_start g) (gc_last_free_atb_index g) (gc_stack_overflow g)
    d (gc_auto_collect_enabled g).

(** Update of the table through one of the ATB macros. *)
Definition with_atb (f : atb_t -> nat -> outcome atb_t) (g : gc_t) (block : nat) : outcome gc_t :=
  let! t := f (atb g) block in Ret (set_atb g t).

Definition VERIFY_PTR (g : gc_t) (ptr : Z) : bool :=
  (Z.land ptr (BYTES_PER_BLOCK - 1) =? 0)%Z && (gc_pool_start g <=? ptr)%Z && (ptr <? gc_pool_end g)%Z.

Definition BLOCK_FROM_PTR (g : gc_t) (ptr : Z) : nat := Z.to_nat ((ptr - gc_pool_start g) / BYTES_PER_BLOCK).
Definition PTR_FROM_BLOCK (g : gc_t) (block : nat) : Z := (Z.of_nat block * BYTES_PER_BLOCK + gc_pool_start g)%Z.

(** [memset(ptr, 0, n)] on [n] words of the pool starting at word [w]. *)
Definition zero_words (p : list Z) (w n : nat) : list Z :=
  take w p ++ replicate n 0%Z ++ drop (w + n) p.

(** [memcpy] of [n] words inside the pool. *)
Definition copy_words (p : list Z) (dst src n : nat) : list Z :=
  take dst p ++ take n (drop src p) ++ drop (dst + n) p.

(** ** Initialisation *)

(** Addresses are byte addresses; [start] and [fin] delimit the array given to [gc_init], [before] is
    what the table area and the pool hold before the call, and [gap] the byte that ends up
    following the table. *)
Definition gc_alloc_table_byte_len_of (start fin : Z) : Z :=
  ((fin - start) / (1 + 8 / 2 * BYTES_PER_BLOCK))%Z.

Definition gc_init (start fin : Z) (before : list Z) (gap : Z) : gc_t :=
  let fin := Z.land fin (Z.lnot (BYTES_PER_BLOCK - 1)) in
  let atb_len := gc_alloc_table_byte_len_of start fin in
  let gc_pool_block_len := (atb_len * Z.of_nat BLOCKS_PER_ATB)%Z in
  let pool_start := (fin - gc_pool_block_len * BYTES_PER_BLOCK)%Z in
  mk_gc (mk_atb (replicate (Z.to_nat atb_len) 0%Z) gap) before pool_start 0 false 0 true.

Definition gc_lock (g : gc_t) : gc_t := set_lock_depth g (gc_lock_depth g + 1).
Definition gc_unlock (g : gc_t) : gc_t := set_lock_depth g (gc_lock_depth g - 1).
Definition gc_is_locked (g : gc_t) : bool := negb (gc_lock_depth g =? 0)%Z.

(** ** Marking *)

(** [do { n += 1; } while (ATB_GET_KIND(block + n) == AT_TAIL)] *)
Fixpoint count_chain (fuel : nat) (g : gc_t) (block n : nat) : outcome nat :=
  match fuel with
  | O => OutOfFuel
  | S fuel =>
    let n := S n in
    let! k := ATB_GET_KIND (atb g) (block + n) in
    if (k =? AT_TAIL)%Z then count_chain fuel g block n else Ret n
  end.

Definition chain_len (g : gc_t) (block : nat) : outcome nat :=
  count_chain (S (nblocks (atb g))) g block 0.

Section Mark.
(** MICROPY_ALLOC_GC_STACK_SIZE *)
Context (gc_stack_size : nat).

(** The loop over the [n] words of a chain from word [w] on; [stack] is
    [gc_stack[0 .. sp)], its top first. *)
Fixpoint mark_children (n w : nat) (g : gc_t) (stack : list nat) : outcome (gc_t * list nat) :=
  match n with
  | O => Ret (g, stack)
  | S n =>
    let! ptr := rd (pool g) (Z.of_nat w) in
    if VERIFY_PTR g ptr then
      let childblock := BLOCK_FROM_PTR g ptr in
      let! k := ATB_GET_KIND (atb g) childblock in
      if (k =? AT_HEAD)%Z then
        let! g := with_atb ATB_HEAD_TO_MARK g childblock in
        if (length stack <? gc_stack_size)%nat
        then mark_children n (S w) g (childblock :: stack)
        else mark_children n (S w) (set_overflow g true) stack
      else mark_children n (S w) g stack
    else mark_children n (S w) g stack
  end.

Fixpoint mark_subtree_loop (fuel : nat) (g : gc_t) (block : nat) (stack : list nat) : outcome gc_t :=
  match fuel with
  | O => OutOfFuel
  | S fuel =>
    let! n_blocks := chain_len g block in
    let! '(g, stack) := mark_children (n_blocks * WORDS_PER_BLOCK) (block * WORDS_PER_BLOCK) g stack in
    match stack with
    | [] => Ret g
    | block :: stack => mark_subtree_loop fuel g block stack
    end
  end.

Definition gc_mark_subtree (g : gc_t) (block : nat) : outcome gc_t :=
  mark_subtree_loop (S (nblocks (atb g))) g block [].

(** The scan of the table in [gc_deal_with_stack_overflow], from [block] on. *)
Fixpoint remark_scan (n block : nat) (g : gc_t) : outcome gc_t :=
  match n with
  | O => Ret g
  | S n =>
    let! k := ATB_GET_KIND (atb g) block in
    if (k =? AT_MARK)%Z then
      let! g := gc_mark_subtree g block in remark_scan n (S block) g
    else remark_scan n (S block) g
  end.

Fixpoint deal_with_stack_overflow_loop (fuel : nat) (g : gc_t) : outcome gc_t :=
  match fuel with
  | O => OutOfFuel
  | S fuel =>
    if gc_stack_overflow g then
      let g := set_overflow g false in
      let! g := remark_scan (nblocks (atb g)) 0 g in
      deal_with_stack_overflow_loop fuel g
    else Ret g
  end.

Definition gc_deal_with_stack_overflow (g : gc_t) : outcome gc_t :=
  deal_with_stack_overflow_loop (S (S (nblocks (atb g)))) g.

(** [gc_collect_root(ptrs, len)] on the [len] words [ptrs]. *)
Fixpoint gc_collect_root (g : gc_t) (ptrs : list Z) : outcome gc_t :=
  match ptrs with
  | [] => Ret g
  | ptr :: ptrs =>
    if VERIFY_PTR g ptr then
      let block := BLOCK_FROM_PTR g ptr in
      let! k := ATB_GET_KIND (atb g) block in
      if (k =? AT_HEAD)%Z then
        let! g := with_atb ATB_HEAD_TO_MARK g block in
        let! g := gc_mark_subtree g block in
        gc_collect_root g ptrs
      else gc_collect_root g ptrs
    else gc_collect_root g ptrs
  end.

(** ** Sweeping *)

Fixpoint gc_sweep_loop (n block : nat) (free_tail : bool) (g : gc_t) : outcome gc_t :=
  match n with
  | O => Ret g
  | S n =>
    let! k := ATB_GET_KIND (atb g) block in
    if (k =? AT_HEAD)%Z then
      let! g := with_atb ATB_ANY_TO_FREE g block in
      gc_sweep_loop n (S block) true g
    else if (k =? AT_TAIL)%Z then
      if free_tail then
        let! g := with_atb ATB_ANY_TO_FREE g block in
        gc_sweep_loop n (S block) free_tail g
      else gc_sweep_loop n (S block) free_tail g
    else if (k =? AT_MARK)%Z then
      let! g := with_atb ATB_MARK_TO_HEAD g block in
      gc_sweep_loop n (S block) false g
    else gc_sweep_loop n (S block) free_tail g
  end.

Definition gc_sweep (g : gc_t) : outcome gc_t := gc_sweep_loop (nblocks (atb g)) 0 false g.

(** [mp_state_ctx] from [dict_locals] to [qstr_last_chunk], then the Python stack in use. *)
Definition gc_collect_start (g : gc_t) (state_ctx pystack : list Z) : outcome gc_t :=
  let g := set_lock_depth g (gc_lock_depth g + 1) in
  let g := set_overflow g false in
  let! g := gc_collect_root g state_ctx in
  gc_collect_root g pystack.

Definition gc_collect_end (g : gc_t) : outcome gc_t :=
  let! g := gc_deal_with_stack_overflow g in
  let! g := gc_sweep g in
  let g := set_last_free g 0 in
  Ret (set_lock_depth g (gc_lock_depth g - 1)).

Definition gc_sweep_all (g : gc_t) : outcome gc_t :=
  let g := set_lock_depth g (gc_lock_depth g + 1) in
  let g := set_overflow g false in
  gc_collect_end g.

(** The root words: [mp_state_ctx], the Python stack and the C stack of the tile. *)
Record roots_t := mk_roots {
  state_ctx : list Z;
  pystack : list Z;
  cstack : list Z
}.

(** The port's [gc_collect]. *)
Definition gc_collect (g : gc_t) (r : roots_t) : outcome gc_t :=
  let! g := gc_collect_start g (state_ctx r) (pystack r) in
  let! g := gc_collect_root g (cstack r) in
  gc_collect_end g.

(** ** Allocation *)

(** One [if (ATB_k_IS_FREE(a))] of the search: either the run is long enough, or the
    length of the run so far. *)
Definition try_block (is_free : bool) (n_blocks n_free : Z) : Z * bool :=
  if is_free then (n_free + 1, n_blocks <=? n_free + 1)%Z else (0%Z, false).

(** The search for [n_blocks] free blocks over the table bytes from index [i] on: the last
    block of the run and its length. *)
Fixpoint find_free (n i : nat) (t : atb_t) (n_blocks n_free : Z) : outcome (option (nat * Z)) :=
  match n with
  | O => Ret None
  | S n =>
    let! a := rd (bytes t) (Z.of_nat i) in
    let '(n_free, found) := try_block (ATB_0_IS_FREE a) n_blocks n_free in
    if found then Ret (Some (i * BLOCKS_PER_ATB + 0, n_free)%nat) else
    let '(n_free, found) := try_block (ATB_1_IS_FREE a) n_blocks n_free in
    if found then Ret (Some (i * BLOCKS_PER_ATB + 1, n_free)%nat) else
    let '(n_free, found) := try_block (ATB_2_IS_FREE a) n_blocks n_free in
    if found then Ret (Some (i * BLOCKS_PER_ATB + 2, n_free)%nat) else
    let '(n_free, found) := try_block (ATB_3_IS_FREE a) n_blocks n_free in
    if found then Ret (Some (i * BLOCKS_PER_ATB + 3, n_free)%nat) else
    find_free n (S i) t n_blocks n_free
  end.

Definition search_free (g : gc_t) (n_blocks : Z) : outcome (option (nat * Z)) :=
  let i := gc_last_free_atb_index g in
  find_free (length (bytes (atb g)) - i) i (atb g) n_blocks 0.

(** Marks blocks [bl], [bl + 1], ... as tails. *)
Fixpoint mark_tails (n bl : nat) (g : gc_t) : outcome gc_t :=
  match n with
  | O => Ret g
  | S n => let! g := with_atb ATB_FREE_TO_TAIL g bl in mark_tails n (S bl) g
  end.

(** [gc_alloc] from the label [found] on. *)
Definition alloc_found (g : gc_t) (i : nat) (n_free : Z) : outcome (Z * gc_t) :=
  let end_block := i in
  let start_block := Z.to_nat (Z.of_nat i - n_free + 1) in
  let g := if (n_free =? 1)%Z then set_last_free g ((i + 1) / BLOCKS_PER_ATB) else g in
  let! g := with_atb ATB_FREE_TO_HEAD g start_block in
  let! g := mark_tails (end_block - start_block) (start_block + 1) g in
  let ret_ptr := PTR_FROM_BLOCK g start_block in
  let n := (end_block - start_block + 1)%nat in
  Ret (ret_ptr, set_pool g (zero_words (pool g) (start_block * WORDS_PER_BLOCK) (n * WORDS_PER_BLOCK))).

(** The number of blocks for [n_bytes], computed with 32-bit [size_t] arithmetic. *)
Definition blocks_of_bytes (n_bytes : Z) : Z :=
  (Z.land (wrap 32 (n_bytes + BYTES_PER_BLOCK - 1)) (Z.lnot (BYTES_PER_BLOCK - 1)) / BYTES_PER_BLOCK)%Z.

(** A null pointer is 0. *)
Definition gc_alloc (g : gc_t) (r : roots_t) (n_bytes : Z) : outcome (Z * gc_t) :=
  let n_blocks := blocks_of_bytes n_bytes in
  if (n_blocks =? 0)%Z then Ret (0%Z, g) else
  if (0 <? gc_lock_depth g)%Z then Ret (0%Z, g) else
  let collected := negb (gc_auto_collect_enabled g) in
  let! o := search_free g n_blocks in
  match o with
  | Some (i, n_free) => alloc_found g i n_free
  | None =>
    if collected then Ret (0%Z, g) else
    let! g := gc_collect g r in
    let! o := search_free g n_blocks in
    match o with
    | Some (i, n_free) => alloc_found g i n_free
    | None => Ret (0%Z, g)
    end
  end.

(** ** Freeing and resizing *)

(** [do { ATB_ANY_TO_FREE(block); block += 1; } while (ATB_GET_KIND(block) == AT_TAIL)] *)
Fixpoint free_chain (fuel : nat) (g : gc_t) (block : nat) : outcome gc_t :=
  match fuel with
  | O => OutOfFuel
  | S fuel =>
    let! g := with_atb ATB_ANY_TO_FREE g block in
    let block := S block in
    let! k := ATB_GET_KIND (atb g) block in
    if (k =? AT_TAIL)%Z then free_chain fuel g block else Ret g
  end.

Definition gc_free (g : gc_t) (ptr : Z) : outcome gc_t :=
  if (0 <? gc_lock_depth g)%Z then Ret g else
  if (ptr =? 0)%Z then Ret g else
  if negb (VERIFY_PTR g ptr) then Undef else
  let block := BLOCK_FROM_PTR g ptr in
  let! k := ATB_GET_KIND (atb g) block in
  if negb (k =? AT_HEAD)%Z then Undef else
  let g := if (block / BLOCKS_PER_ATB <? gc_last_free_atb_index g)%nat
           then set_last_free g (block / BLOCKS_PER_ATB) else g in
  free_chain (S (nblocks (atb g))) g block.

Definition gc_nbytes (g : gc_t) (ptr : Z) : outcome Z :=
  if VERIFY_PTR g ptr then
    let block := BLOCK_FROM_PTR g ptr in
    let! k := ATB_GET_KIND (atb g) block in
    if (k =? AT_HEAD)%Z then
      let! n_blocks := chain_len g block in Ret (Z.of_nat n_blocks * BYTES_PER_BLOCK)%Z
    else Ret 0%Z
  else Ret 0%Z.

(** The count of the blocks of a chain and of the free blocks after it. *)
Fixpoint realloc_scan (n bl : nat) (g : gc_t) (n_blocks n_free new_blocks : Z) : outcome (Z * Z) :=
  match n with
  | O => Ret (n_blocks, n_free)
  | S n =>
    let! block_type := ATB_GET_KIND (atb g) bl in
    if (block_type =? AT_TAIL)%Z then realloc_scan n (S bl) g (n_blocks + 1) n_free new_blocks
    else if (block_type =? AT_FREE)%Z then
      let n_free := (n_free + 1)%Z in
      if (new_blocks <=? n_blocks + n_free)%Z then Ret (n_blocks, n_free)
      else realloc_scan n (S bl) g n_blocks n_free new_blocks
    else Ret (n_blocks, n_free)
  end.

(** [for (count = n; count > 0; bl++, count--) ATB_ANY_TO_FREE(bl);] *)
Fixpoint free_blocks (n bl : nat) (g : gc_t) : outcome gc_t :=
  match n with
  | O => Ret g
  | S n => let! g := with_atb ATB_ANY_TO_FREE g bl in free_blocks n (S bl) g
  end.

(** The tails added by an expansion in place; the [assert] checks that each block is free. *)
Fixpoint grow_tails (n bl : nat) (g : gc_t) : outcome gc_t :=
  match n with
  | O => Ret g
  | S n =>
    let! k := ATB_GET_KIND (atb g) bl in
    if negb (k =? AT_FREE)%Z then Undef else
    let! g := with_atb ATB_FREE_TO_TAIL g bl in grow_tails n (S bl) g
  end.

Definition gc_realloc (g : gc_t) (r : roots_t) (ptr_in n_bytes : Z) (allow_move : bool)
  : outcome (Z * gc_t) :=
  if (ptr_in =? 0)%Z then gc_alloc g r n_bytes else
  if (n_bytes =? 0)%Z then let! g := gc_free g ptr_in in Ret (0%Z, g) else
  if (0 <? gc_lock_depth g)%Z then Ret (0%Z, g) else
  if negb (VERIFY_PTR g ptr_in) then Undef else
  let block := BLOCK_FROM_PTR g ptr_in in
  let! k := ATB_GET_KIND (atb g) block in
  if negb (k =? AT_HEAD)%Z then Undef else
  let new_blocks := (wrap 32 (n_bytes + BYTES_PER_BLOCK - 1) / BYTES_PER_BLOCK)%Z in
  let max_block := nblocks (atb g) in
  let! '(n_blocks, n_free) :=
    realloc_scan (max_block - (block + 1)) (block + 1) g 1 0 new_blocks in
  if (new_blocks =? n_blocks)%Z then Ret (ptr_in, g) else
  if (new_blocks <? n_blocks)%Z then
    let! g := free_blocks (Z.to_nat (n_blocks - new_blocks)) (block + Z.to_nat new_blocks) g in
    let idx := ((block + Z.to_nat new_blocks) / BLOCKS_PER_ATB)%nat in
    Ret (ptr_in, if (idx <? gc_last_free_atb_index g)%nat then set_last_free g idx else g)
  else
  if (new_blocks <=? n_blocks + n_free)%Z then
    let! g := grow_tails (Z.to_nat (new_blocks - n_blocks)) (block + Z.to_nat n_blocks) g in
    Ret (ptr_in, set_pool g (zero_words (pool g) ((block + Z.to_nat n_blocks) * WORDS_PER_BLOCK)
                              (Z.to_nat (new_blocks - n_blocks) * WORDS_PER_BLOCK)))
  else
  if negb allow_move then Ret (0%Z, g) else
  let! '(ptr_out, g) := gc_alloc g r n_bytes in
  if (ptr_out =? 0)%Z then Ret (0%Z, g) else
  let g := set_pool g (copy_words (pool g) (BLOCK_FROM_PTR g ptr_out * WORDS_PER_BLOCK)
                         (block * WORDS_PER_BLOCK) (Z.to_nat n_blocks * WORDS_PER_BLOCK)) in
  let! g := gc_free g ptr_in in
  Ret (ptr_out, g).
End Mark.
