(* ===== verification/GcHeap.v ===== *)
(** * The heap invariant and the vocabulary of the collector's theorems

    Kinds of blocks, single-block updates of the table, chains, owners, and the well-formedness
    invariant [gc_wf] that [gc_init] establishes and every operation keeps. *)

From S2P Require Import Prelude GcTable Gc.
From stdpp Require Import list_numbers.

Definition kd (g : gc_t) (b : nat) : Z := kind (atb g) b.
Definition nb (g : gc_t) : nat := nblocks (atb g).

(** The parts of the state the table macros rely on. *)
Record heap_ok (g : gc_t) : Prop := {
  ok_bytes : bytes_ok (atb g);
  ok_pool : length (pool g) = (nb g * WORDS_PER_BLOCK)%nat;
  ok_gap : kd g (nb g) <> AT_TAIL;
  ok_start : (0 < gc_pool_start g)%Z;
  ok_align : (gc_pool_start g mod BYTES_PER_BLOCK = 0)%Z;
  (* a tail follows a block that is in use *)
  ok_chain : forall b, (b < nb g)%nat -> kd g b = AT_TAIL -> exists a, b = S a /\ kd g a <> AT_FREE
}.

(** [g'] is [g] with the kind of block [b] set to [k]. *)
Record upd (g : gc_t) (b : nat) (k : Z) (g' : gc_t) : Prop := {
  upd_rest : g' = set_atb g (atb g');
  upd_bytes : bytes_ok (atb g');
  upd_nb : nb g' = nb g;
  upd_kd : forall b', kd g' b' = if decide (b' = b) then k else kd g b'
}.

Lemma with_atb_upd f old new g b :
  kind_setter f old new -> bytes_ok (atb g) -> (b < nb g)%nat -> old = 4%Z \/ kd g b = old ->
  exists g', with_atb f g b = Ret g' /\ upd g b new g'.
Proof.
  intros Hf Hok Hb Ho. destruct (Hf (atb g) b Hok Hb Ho) as (t & Ht & Hok' & Hl & Ha & Hk).
  exists (set_atb g t). split; [unfold with_atb; by rewrite Ht|].
  constructor; try done. unfold nb, nblocks; simpl. by rewrite Hl.
Qed.

Lemma upd_eq g b k g' : upd g b k g' -> kd g' b = k.
Proof. intros H. rewrite (upd_kd _ _ _ _ H). by case_decide. Qed.

Lemma upd_ne g b k g' b' : upd g b k g' -> b' <> b -> kd g' b' = kd g b'.
Proof. intros H ?. rewrite (upd_kd _ _ _ _ H). by case_decide. Qed.

Lemma upd_pool g b k g' : upd g b k g' -> pool g' = pool g /\ gc_pool_start g' = gc_pool_start g /\
  gc_last_free_atb_index g' = gc_last_free_atb_index g /\ gc_stack_overflow g' = gc_stack_overflow g /\
  gc_lock_depth g' = gc_lock_depth g /\ gc_auto_collect_enabled g' = gc_auto_collect_enabled g.
Proof. intros H. rewrite (upd_rest _ _ _ _ H). done. Qed.

Lemma get_kd g b : (b <= nb g)%nat -> ATB_GET_KIND (atb g) b = Ret (kd g b).
Proof. apply get_kind. Qed.

Lemma kd_range g b : (0 <= kd g b < 4)%Z.
Proof. apply kind_range. Qed.

(** ** Pointers *)

Lemma VERIFY_PTR_block g p : heap_ok g -> VERIFY_PTR g p = true ->
  (BLOCK_FROM_PTR g p < nb g)%nat /\ PTR_FROM_BLOCK g (BLOCK_FROM_PTR g p) = p.
Proof.
  intros W. unfold VERIFY_PTR, BLOCK_FROM_PTR, PTR_FROM_BLOCK, gc_pool_end.
  change (nblocks (atb g)) with (nb g).
  rewrite !andb_true_iff, Z.eqb_eq, Z.leb_le, Z.ltb_lt.
  change (BYTES_PER_BLOCK - 1)%Z with (2 ^ 4 - 1)%Z. rewrite land_mask by lia.
  pose proof (ok_align _ W) as Ha. unfold BYTES_PER_BLOCK in *. change (2 ^ 4)%Z with 16%Z.
  intros [[Hm Hlo] Hhi]. split; zdiv.
Qed.

Lemma VERIFY_PTR_PTR_FROM_BLOCK g b : heap_ok g -> (b < nb g)%nat ->
  VERIFY_PTR g (PTR_FROM_BLOCK g b) = true /\ BLOCK_FROM_PTR g (PTR_FROM_BLOCK g b) = b /\
  PTR_FROM_BLOCK g b <> 0%Z.
Proof.
  intros W Hb. unfold VERIFY_PTR, BLOCK_FROM_PTR, PTR_FROM_BLOCK, gc_pool_end.
  change (nblocks (atb g)) with (nb g).
  rewrite !andb_true_iff, Z.eqb_eq, Z.leb_le, Z.ltb_lt.
  change (BYTES_PER_BLOCK - 1)%Z with (2 ^ 4 - 1)%Z. rewrite land_mask by lia.
  pose proof (ok_align _ W). pose proof (ok_start _ W).
  unfold BYTES_PER_BLOCK in *. change (2 ^ 4)%Z with 16%Z.
  repeat split; try lia; zdiv.
Qed.

(** ** Chains *)

(** Block [b] starts a chain of [n] blocks: [n - 1] tails follow it and no more. *)
Definition chain_of (g : gc_t) (b n : nat) : Prop :=
  (0 < n)%nat /\ (b + n <= nb g)%nat /\ (forall i, (0 < i < n)%nat -> kd g (b + i) = AT_TAIL) /\
  kd g (b + n) <> AT_TAIL.

Lemma chain_unique g b n m : chain_of g b n -> chain_of g b m -> n = m.
Proof.
  intros (Hn0 & _ & Hn & Hnt) (Hm0 & _ & Hm & Hmt).
  destruct (Nat.lt_trichotomy n m) as [|[|]]; [|done|].
  - by rewrite Hm in Hnt by lia.
  - by rewrite Hn in Hmt by lia.
Qed.

Lemma count_chain_ok fuel g b n :
  heap_ok g -> (b + n < nb g)%nat -> (forall i, (0 < i <= n)%nat -> kd g (b + i) = AT_TAIL) ->
  (nb g - (b + n) <= fuel)%nat ->
  exists m, count_chain fuel g b n = Ret m /\ chain_of g b m.
Proof.
  intros W. revert n. induction fuel as [|fuel IH]; intros n Hb Ht Hf; [lia|].
  cbn [count_chain]. rewrite get_kd by lia. simpl.
  destruct (Z.eqb_spec (kd g (b + S n)) AT_TAIL) as [E|E].
  - apply IH; [|intros i Hi|lia].
    + destruct (decide (b + S n = nb g)%nat) as [E2|]; [|lia].
      rewrite E2 in E. by destruct (ok_gap _ W).
    + destruct (decide (i = S n)) as [->|]; [done|]. apply Ht; lia.
  - exists (S n). split; [done|]. split; [lia|]. split; [lia|]. split; [|done].
    intros i Hi. apply Ht; lia.
Qed.

Lemma chain_len_ok g b : heap_ok g -> (b < nb g)%nat ->
  exists n, chain_len g b = Ret n /\ chain_of g b n.
Proof. intros W Hb. apply count_chain_ok; [done|lia|intros; lia|unfold nb; lia]. Qed.

(** The block that heads the chain [b] belongs to. *)
Definition owner (g : gc_t) (b h : nat) : Prop :=
  (h <= b)%nat /\ (kd g h = AT_HEAD \/ kd g h = AT_MARK) /\
  forall i, (h < i <= b)%nat -> kd g i = AT_TAIL.

Lemma kd_cases g b : kd g b = AT_FREE \/ kd g b = AT_HEAD \/ kd g b = AT_TAIL \/ kd g b = AT_MARK.
Proof. pose proof (kd_range g b). unfold AT_FREE, AT_HEAD, AT_TAIL, AT_MARK. lia. Qed.

Lemma owner_exists g b : heap_ok g -> (b < nb g)%nat -> kd g b <> AT_FREE -> exists h, owner g b h.
Proof.
  intros W. induction b as [b IH] using lt_wf_ind. intros Hb Hk.
  destruct (kd_cases g b) as [E|[E|[E|E]]]; [done| | |].
  - exists b. split; [lia|]. split; [auto|]. lia.
  - destruct (ok_chain _ W b Hb E) as (a & -> & Ha).
    destruct (IH a) as (h & Hle & Hh & Ht); [lia|lia|done|].
    exists h. split; [lia|]. split; [done|]. intros i Hi.
    destruct (decide (i = S a)) as [->|]; [done|apply Ht; lia].
  - exists b. split; [lia|]. split; [auto|]. lia.
Qed.

Lemma owner_unique g b h h' : owner g b h -> owner g b h' -> h = h'.
Proof.
  intros (Hle & Hk & Ht) (Hle' & Hk' & Ht').
  unfold AT_HEAD, AT_MARK, AT_TAIL in *.
  destruct (Nat.lt_trichotomy h h') as [|[|]]; [|done|].
  - rewrite Ht in Hk' by lia. lia.
  - rewrite Ht' in Hk by lia. lia.
Qed.

(** Contradictions between the kinds of a block. *)
Ltac kinds := unfold AT_FREE, AT_HEAD, AT_TAIL, AT_MARK in *; try lia; try congruence.

(** ** Counting blocks of a kind *)

Fixpoint count_kind (g : gc_t) (k : Z) (n : nat) : nat :=
  match n with
  | O => O
  | S n => (count_kind g k n + if decide (kd g n = k) then 1 else 0)%nat
  end.

Definition heads (g : gc_t) : nat := count_kind g AT_HEAD (nb g).

Lemma count_kind_le g k n : (count_kind g k n <= n)%nat.
Proof. induction n; simpl; [done|]. case_decide; lia. Qed.

Lemma count_kind_ext g g' k n : (forall b, kd g b = kd g' b) -> count_kind g k n = count_kind g' k n.
Proof. intros H. induction n; simpl; [done|]. by rewrite IHn, H. Qed.

Lemma count_kind_upd g b k g' c n : upd g b k g' -> kd g b = c -> k <> c ->
  (count_kind g c n = count_kind g' c n + (if decide (b < n) then 1 else 0))%nat.
Proof.
  intros U Hb Hk. induction n as [|n IH]; cbn [count_kind]; [rewrite decide_False by lia; done|].
  rewrite (upd_kd _ _ _ _ U n), IH. destruct (decide (n = b)) as [->|Hn].
  - rewrite (decide_True (P := kd g b = c)), (decide_False (P := k = c)) by done.
    rewrite decide_False, decide_True by lia. lia.
  - destruct (decide (b < n)%nat), (decide (b < S n)%nat); lia.
Qed.

(** ** The invariant of the allocator *)

Record gc_wf (g : gc_t) : Prop := {
  wf_ok :> heap_ok g;
  wf_nomark : forall b, (b < nb g)%nat -> kd g b <> AT_MARK;
  (* no free block lies before the place where the next search starts *)
  wf_last : forall b, (b < BLOCKS_PER_ATB * gc_last_free_atb_index g)%nat -> kd g b <> AT_FREE;
  wf_last_le : (gc_last_free_atb_index g <= length (bytes (atb g)))%nat
}.

(** ** [gc_init] *)

(** [gc_init] lays the heap out inside the region it is given: the table comes first, the pool
    is a whole number of aligned blocks ending at the aligned end of the region and does not
    overlap the table, less than 65 bytes lie unused between them, and the result is a
    well-formed empty heap with every block free and the collector unlocked. *)
Theorem gc_init_layout start fin before gap :
  (0 < start)%Z -> (start <= fin - 16)%Z -> (0 <= gap < 256)%Z -> byte_kind gap 0 <> AT_TAIL ->
  let g := gc_init start fin before gap in
  length before = (nb g * WORDS_PER_BLOCK)%nat ->
  gc_wf g /\ (forall b, (b < nb g)%nat -> kd g b = AT_FREE) /\ gc_lock_depth g = 0%Z /\
  gc_last_free_atb_index g = 0%nat /\
  let slack := (gc_pool_start g - (start + Z.of_nat (length (bytes (atb g)))))%Z in
  (0 <= slack < 65)%Z /\ gc_pool_end g = (fin / 16 * 16)%Z.
Proof.
  intros Hs Hf Hgap Hgk g Hb.
  set (e := (fin / 16 * 16)%Z).
  assert (He : Z.land fin (Z.lnot (BYTES_PER_BLOCK - 1)) = e).
  { change (BYTES_PER_BLOCK - 1)%Z with (Z.ones 4). rewrite <- Z.ldiff_land, Z.ldiff_ones_r by lia.
    rewrite Z.shiftl_mul_pow2, Z.shiftr_div_pow2 by lia. done. }
  set (n := ((e - start) / 65)%Z).
  assert (Hn : (0 <= n)%Z) by (apply Z.div_pos; [unfold e; zdiv|lia]).
  assert (Hg : g = mk_gc (mk_atb (replicate (Z.to_nat n) 0%Z) gap) before (e - n * 64)%Z 0 false 0 true).
  { unfold g, gc_init. rewrite He. unfold gc_alloc_table_byte_len_of.
    change (1 + 8 / 2 * BYTES_PER_BLOCK)%Z with 65%Z. fold n.
    unfold BYTES_PER_BLOCK, BLOCKS_PER_ATB. f_equal. lia. }
  clearbody g.
  assert (Hnb : nb g = (Z.to_nat n * 4)%nat).
  { rewrite Hg. unfold nb, nblocks; simpl. by rewrite length_replicate. }
  assert (Hkd : forall b, (b < nb g)%nat -> kd g b = AT_FREE).
  { intros b Hb'. unfold kd, kind. rewrite Hg; simpl. rewrite lookup_replicate_2.
    - unfold byte_kind. rewrite Z.shiftr_0_l. done.
    - rewrite Hnb in Hb'. apply Nat.Div0.div_lt_upper_bound. lia. }
  split; [|split; [exact Hkd|]].
  - constructor; [constructor| | |].
    + rewrite Hg. apply Forall_replicate. lia.
    + rewrite Hg in *. exact Hb.
    + unfold kd, kind. rewrite lookup_ge_None_2.
      * rewrite BLOCK_SHIFT_mod, Hnb, Nat.Div0.mod_mul. by rewrite Hg.
      * rewrite Hnb, Nat.div_mul, Hg by lia. simpl. by rewrite length_replicate.
    + rewrite Hg; simpl. unfold e, n in *. zdiv.
    + rewrite Hg; simpl. unfold BYTES_PER_BLOCK. unfold e. zdiv.
    + intros b Hb' Hk. by rewrite Hkd in Hk.
    + intros b Hb'. by rewrite Hkd.
    + rewrite Hg; simpl. lia.
    + rewrite Hg; simpl. lia.
  - rewrite Hg. unfold gc_pool_end, nblocks, BLOCKS_PER_ATB, BYTES_PER_BLOCK; simpl.
    rewrite length_replicate. do 2 (split; [done|]). unfold n. split; [zdiv|zdiv].
Qed.

(** The port gives [gc_init] an array of 250 KB: wherever it is, at least 15 bytes lie between the table and the pool, so that the
    byte after the table is not in the pool. *)
Lemma port_heap_gap start before gap : (0 < start)%Z ->
  let g := gc_init start (start + 250 * 1024) before gap in
  (15 <= gc_pool_start g - (start + Z.of_nat (length (bytes (atb g)))) <= 30)%Z.
Proof.
  intros Hs g. unfold g, gc_init, gc_alloc_table_byte_len_of. cbn [gc_pool_start atb bytes].
  change (BYTES_PER_BLOCK - 1)%Z with (Z.ones 4). rewrite <- Z.ldiff_land, Z.ldiff_ones_r by lia.
  rewrite Z.shiftl_mul_pow2, Z.shiftr_div_pow2, length_replicate by lia.
  change (1 + 8 / 2 * BYTES_PER_BLOCK)%Z with 65%Z. unfold BYTES_PER_BLOCK, BLOCKS_PER_ATB. change (2 ^ 4)%Z with 16%Z.
  change (Z.of_nat 4) with 4%Z.
  set (e := ((start + 250 * 1024) / 16 * 16)%Z).
  assert (He : (start + 256000 - 15 <= e <= start + 256000)%Z) by (unfold e; zdiv).
  clearbody e. zdiv.
Qed.

(** A region of 196 bytes at address 4: a table of two bytes and eight blocks. *)
Lemma gc_init_layout_witness :
  gc_pool_start (gc_init 4 200 (replicate 32 7%Z) 0) = 64%Z /\ gc_wf (gc_init 4 200 (replicate 32 7%Z) 0).
Proof.
  split; [reflexivity|].
  apply (gc_init_layout 4 200 (replicate 32 7%Z) 0); [lia|lia|lia|discriminate|reflexivity].
Defined.
