(* ===== verification/GcCollect.v ===== *)
(** * A collection keeps the reachable chains and frees every other one

    The proofs go from the roots ([gc_collect_root]) through the recovery from mark-stack
    overflow ([gc_deal_with_stack_overflow]) to the sweep and to the whole [gc_collect]. *)

From S2P Require Import Prelude GcTable Gc GcHeap GcMark.
From stdpp Require Import sets.

Section Collect.
Context (gc_stack_size : nat).

(** ** Roots *)

Definition all_closed (g : gc_t) : Prop :=
  forall b, (b < nb g)%nat -> kd g b = AT_MARK -> closed g b.

(** What marking maintains: nothing was dropped, or the overflow flag says so. *)
Definition mark_inv (g : gc_t) : Prop := gc_stack_overflow g = true \/ all_closed g.

Record rooted (ws : list Z) (g g' : gc_t) : Prop := {
  rt_ext : extends g g';
  rt_inv : mark_inv g';
  rt_done : forall w, w ∈ ws -> VERIFY_PTR g w = true -> kd g' (BLOCK_FROM_PTR g w) <> AT_HEAD;
  rt_sound : forall P, child_closed g P ->
    (forall w, w ∈ ws -> VERIFY_PTR g w = true -> kd g (BLOCK_FROM_PTR g w) = AT_HEAD ->
       P (BLOCK_FROM_PTR g w)) ->
    forall b, kd g' b = AT_MARK -> kd g b = AT_MARK \/ P b
}.

(** Marking from one more block: a marked block [b] whose children are not yet visited. *)
Lemma mark_inv_subtree g g1 g' b : mark_inv g -> extends g g1 ->
  (forall b', b' <> b -> kd g1 b' = kd g b') -> gc_stack_overflow g1 = gc_stack_overflow g ->
  marked_from [b] g1 g' -> mark_inv g'.
Proof.
  intros J E Hne Ho [E' Hc _ _]. destruct (gc_stack_overflow g') eqn:Ho'; [by left|right].
  destruct (Hc eq_refl) as [Ho1 Hm]. destruct J as [J|J]; [congruence|].
  intros b' Hb' Hk. rewrite (ext_nb _ _ E'), (ext_nb _ _ E) in Hb'.
  destruct (Hm b' Hk) as [[Hk1 Hnin]|]; [|done].
  rewrite Hne in Hk1 by (intros ->; apply Hnin; by left).
  apply (ext_closed _ _ _ E'), (ext_closed _ _ _ E). auto.
Qed.

Lemma rooted_skip w ws g g' :
  (VERIFY_PTR g w = true -> kd g (BLOCK_FROM_PTR g w) <> AT_HEAD) ->
  rooted ws g g' -> rooted (w :: ws) g g'.
Proof.
  intros Hw []. constructor; auto.
  - intros w' [->|Hw']%elem_of_cons Hv; [|auto]. rewrite (ext_nonhead _ _ _ rt_ext0); auto.
  - intros P HP Hin. apply rt_sound0; [done|]. intros w' Hw'. apply Hin. by right.
Qed.

Lemma gc_collect_root_ok ws g : heap_ok g -> mark_inv g ->
  exists g', gc_collect_root gc_stack_size g ws = Ret g' /\ rooted ws g g'.
Proof.
  revert g. induction ws as [|w ws IH]; intros g W J.
  { exists g. split; [done|]. constructor; [by apply extends_refl|done|set_solver|by left]. }
  cbn [gc_collect_root]. destruct (VERIFY_PTR g w) eqn:Hv.
  2:{ destruct (IH g W J) as (g' & He & R). exists g'. split; [done|]. apply rooted_skip; congruence. }
  destruct (VERIFY_PTR_block _ _ W Hv) as [Hb _]. set (b := BLOCK_FROM_PTR g w) in *.
  rewrite get_kd by lia. cbn [obind]. destruct (Z.eqb_spec (kd g b) AT_HEAD) as [Hk|Hk].
  2:{ destruct (IH g W J) as (g' & He & R). exists g'. split; [done|]. by apply rooted_skip. }
  destruct (mark_head g b W Hb Hk) as (g1 & -> & E1 & Hm & Hne & _ & Ho). cbn [obind].
  destruct (gc_mark_subtree_ok gc_stack_size g1 b) as (g2 & -> & M);
    [apply E1|by rewrite (ext_nb _ _ E1)|done|]. cbn [obind].
  pose proof (mark_inv_subtree _ _ _ _ J E1 Hne Ho M) as J2.
  pose proof (extends_trans _ _ _ E1 (mk_ext _ _ _ M)) as E2.
  destruct (IH g2) as (g' & He & R); [apply E2|done|]. exists g'. split; [done|].
  destruct R as [E3 J3 Hd Hs]. constructor; [by eapply extends_trans|done| |].
  - intros w' [->|Hw']%elem_of_cons Hv'.
    + rewrite (ext_mark _ _ _ E3); [done|]. by apply (ext_mark _ _ _ (mk_ext _ _ _ M)).
    + destruct (ext_VERIFY _ _ w' E2) as [E4 E5]. rewrite <- E5. apply Hd; [done|]. by rewrite E4.
  - intros P HP Hin b' Hb'.
    assert (HPb : P b) by (by apply (Hin w); [left| |]).
    destruct (Hs P) with b' as [H2|]; [by apply (ext_child_closed _ _ _ E2)| |done| |by right].
    + intros w' Hw' Hv' Hk'. destruct (ext_VERIFY _ _ w' E2) as [E4 E5]. rewrite E5 in *.
      apply Hin; [by right|by rewrite <- E4|].
      destruct (ext_kd _ _ E2 (BLOCK_FROM_PTR g w')) as [E6|[E6 _]]; congruence.
    + destruct (mk_sound _ _ _ M P) with b' as [H1|]; [by apply (ext_child_closed _ _ _ E1)| |done| |by right].
      * by intros b'' ->%list_elem_of_singleton.
      * destruct (decide (b' = b)) as [->|]; [by right|left]. by rewrite <- Hne.
Qed.

(** ** Recovery from overflow of the mark stack *)

Record rescanned (g g' : gc_t) : Prop := {
  rs_ext : extends g g';
  rs_sound : forall P, child_closed g P ->
    (forall b, (b < nb g)%nat -> kd g b = AT_MARK -> P b) ->
    forall b, (b < nb g)%nat -> kd g' b = AT_MARK -> P b;
  rs_progress : gc_stack_overflow g' = true -> gc_stack_overflow g = true \/ (heads g' < heads g)%nat
}.

Lemma rescanned_trans g1 g2 g3 : rescanned g1 g2 -> rescanned g2 g3 -> rescanned g1 g3.
Proof.
  intros [E1 S1 P1] [E2 S2 P2]. constructor; [by eapply extends_trans| |].
  - intros P HP Hm b Hb Hk. apply (S2 P); [by apply (ext_child_closed _ _ _ E1)| | |done];
      rewrite (ext_nb _ _ E1); [|done]. intros. by apply (S1 P).
  - intros H. destruct (P2 H) as [H2|]; [destruct (P1 H2); [by left|right]|right].
    + pose proof (ext_heads _ _ E2). lia.
    + pose proof (ext_heads _ _ E1). lia.
Qed.

Lemma remark_scan_ok n p g : heap_ok g -> (p + n)%nat = nb g ->
  (gc_stack_overflow g = true \/
   forall b, (b < nb g)%nat -> kd g b = AT_MARK -> closed g b \/ (p <= b)%nat) ->
  exists g', remark_scan gc_stack_size n p g = Ret g' /\ rescanned g g' /\ mark_inv g'.
Proof.
  revert p g. induction n as [|n IH]; intros p g W Hp J.
  { exists g. split; [done|]. split; [constructor; auto using extends_refl|].
    destruct J as [J|J]; [by left|right]. intros b Hb Hk. destruct (J b Hb Hk); [done|lia]. }
  cbn [remark_scan]. rewrite get_kd by lia. cbn [obind].
  destruct (Z.eqb_spec (kd g p) AT_MARK) as [Hk|Hk].
  - destruct (gc_mark_subtree_ok gc_stack_size g p W ltac:(lia) Hk) as (g1 & -> & M). cbn [obind].
    pose proof (mk_ext _ _ _ M) as E1.
    assert (R1 : rescanned g g1).
    { constructor; [done| |apply M]. intros P HP Hm b Hb Hkb.
      destruct (mk_sound _ _ _ M P HP) with b; auto. intros b' ->%list_elem_of_singleton. apply Hm; [lia|done]. }
    destruct (IH (S p) g1) as (g' & He & R & J').
    + apply E1.
    + rewrite (ext_nb _ _ E1). lia.
    + destruct (gc_stack_overflow g1) eqn:Ho; [by left|right].
      destruct (mk_closed _ _ _ M Ho) as [Ho0 Hm]. destruct J as [J|J]; [congruence|].
      intros b Hb Hkb. rewrite (ext_nb _ _ E1) in Hb.
      destruct (Hm b Hkb) as [[Hkb0 Hnin]|]; [|by left].
      destruct (J b Hb Hkb0); [left; by apply (ext_closed _ _ _ E1)|right].
      destruct (decide (b = p)) as [->|]; [destruct Hnin; by left|lia].
    + exists g'. split; [done|]. split; [by eapply rescanned_trans|done].
  - apply IH; [done|lia|]. destruct J as [J|J]; [by left|right].
    intros b Hb Hkb. destruct (J b Hb Hkb); [by left|right].
    destruct (decide (b = p)) as [->|]; [done|lia].
Qed.

Lemma deal_loop_ok fuel g : heap_ok g -> mark_inv g ->
  (heads g + (if gc_stack_overflow g then 1 else 0) < fuel)%nat ->
  exists g', deal_with_stack_overflow_loop gc_stack_size fuel g = Ret g' /\
    extends g g' /\ all_closed g' /\
    forall P, child_closed g P -> (forall b, (b < nb g)%nat -> kd g b = AT_MARK -> P b) ->
      forall b, (b < nb g)%nat -> kd g' b = AT_MARK -> P b.
Proof.
  revert g. induction fuel as [|fuel IH]; intros g W J Hf; [lia|].
  cbn [deal_with_stack_overflow_loop]. destruct (gc_stack_overflow g) eqn:Ho.
  2:{ exists g. destruct J as [J|J]; [congruence|]. auto using extends_refl. }
  pose proof (extends_overflow g false W) as E0. set (g0 := set_overflow g false) in *.
  change (nblocks (atb g0)) with (nb g0).
  destruct (remark_scan_ok (nb g0) 0 g0) as (g1 & -> & R & J1); [apply E0|done| |].
  { right. intros. right. lia. }
  cbn [obind]. destruct R as [E1 S1 P1].
  assert (Hh0 : heads g0 = heads g) by (by apply count_kind_ext).
  destruct (IH g1) as (g' & He & E2 & C2 & S2); [apply E1|done| |].
  { destruct (gc_stack_overflow g1) eqn:Ho1.
    - destruct (P1 eq_refl); [done|]. lia.
    - pose proof (ext_heads _ _ E1). lia. }
  exists g'. split; [done|]. pose proof (extends_trans _ _ _ E0 E1) as E01.
  split; [by eapply extends_trans|]. split; [done|].
  intros P HP Hm b Hb Hk. apply (S2 P); [by apply (ext_child_closed _ _ _ E01)| | |done];
    rewrite (ext_nb _ _ E01); [|done].
  apply (S1 P); [by apply (ext_child_closed _ _ _ E0)|done].
Qed.

Lemma gc_deal_with_stack_overflow_ok g : heap_ok g -> mark_inv g ->
  exists g', gc_deal_with_stack_overflow gc_stack_size g = Ret g' /\
    extends g g' /\ all_closed g' /\
    forall P, child_closed g P -> (forall b, (b < nb g)%nat -> kd g b = AT_MARK -> P b) ->
      forall b, (b < nb g)%nat -> kd g' b = AT_MARK -> P b.
Proof.
  intros W J. apply deal_loop_ok; [done..|].
  pose proof (count_kind_le g AT_HEAD (nb g)). unfold heads, nb in *. destruct (gc_stack_overflow g); lia.
Qed.

(** ** Sweeping *)

(** The kind of block [b] after the sweep of [g]. *)
Definition swept (g : gc_t) (b : nat) (k : Z) : Prop :=
  (kd g b = AT_MARK -> k = AT_HEAD) /\ (kd g b = AT_HEAD -> k = AT_FREE) /\
  (kd g b = AT_FREE -> k = AT_FREE) /\
  (kd g b = AT_TAIL -> forall h, owner g b h ->
     (kd g h = AT_MARK -> k = AT_TAIL) /\ (kd g h = AT_HEAD -> k = AT_FREE)).

(** The state of the sweep of [g0] before block [p] is visited. *)
Record sweeping (g0 : gc_t) (p : nat) (g : gc_t) : Prop := {
  sw_rest : g = set_atb g0 (atb g);
  sw_bytes : bytes_ok (atb g);
  sw_nb : nb g = nb g0;
  sw_todo : forall b, (p <= b)%nat -> kd g b = kd g0 b;
  sw_done : forall b, (b < p)%nat -> swept g0 b (kd g b)
}.

Lemma sweeping_step g0 p g k g' : sweeping g0 p g -> upd g p k g' -> swept g0 p k -> sweeping g0 (S p) g'.
Proof.
  intros [] U Hk. constructor.
  - rewrite (upd_rest _ _ _ _ U), sw_rest0. done.
  - apply U.
  - by rewrite (upd_nb _ _ _ _ U).
  - intros b Hb. rewrite (upd_ne _ _ _ _ _ U) by lia. apply sw_todo0. lia.
  - intros b Hb. rewrite (upd_kd _ _ _ _ U). case_decide; subst; [done|]. apply sw_done0. lia.
Qed.

Lemma sweeping_skip g0 p g : sweeping g0 p g -> swept g0 p (kd g p) -> sweeping g0 (S p) g.
Proof.
  intros [] Hk. constructor; auto.
  - intros b Hb. apply sw_todo0. lia.
  - intros b Hb. destruct (decide (b = p)) as [->|]; [done|]. apply sw_done0. lia.
Qed.

(** [free_tail] tells whether the chain that reaches block [p] from before is being freed. *)
Definition tail_flag (g0 : gc_t) (p : nat) (free_tail : bool) : Prop :=
  forall h, owner g0 p h -> (h < p)%nat -> free_tail = (kd g0 h =? AT_HEAD)%Z.

Lemma tail_flag_head g0 p k : kd g0 p = k -> k = AT_HEAD \/ k = AT_MARK ->
  tail_flag g0 (S p) (k =? AT_HEAD)%Z.
Proof.
  intros Hk Hc h (Hle & Hh & Ht) Hlt. destruct (decide (h = p)) as [->|]; [by rewrite Hk|].
  pose proof (Ht p ltac:(lia)). kinds.
Qed.

Lemma tail_flag_tail g0 p f : kd g0 p = AT_TAIL -> tail_flag g0 p f -> tail_flag g0 (S p) f.
Proof.
  intros Hk Hf h (Hle & Hh & Ht) Hlt. destruct (decide (h = p)) as [->|]; [kinds|].
  apply Hf; [|lia]. split; [lia|]. split; [done|]. intros i Hi. apply Ht. lia.
Qed.

Lemma tail_flag_free g0 p f : kd g0 p = AT_FREE -> tail_flag g0 (S p) f.
Proof.
  intros Hk h (Hle & Hh & Ht) Hlt. destruct (decide (h = p)) as [->|]; [kinds|].
  pose proof (Ht p ltac:(lia)). kinds.
Qed.

Lemma gc_sweep_loop_ok g0 n p f g : heap_ok g0 -> (p + n)%nat = nb g0 ->
  sweeping g0 p g -> tail_flag g0 p f ->
  exists g', gc_sweep_loop n p f g = Ret g' /\ sweeping g0 (nb g0) g'.
Proof.
  intros W. revert p f g. induction n as [|n IH]; intros p f g Hp S Hf.
  { exists g. rewrite <- Hp, Nat.add_0_r. done. }
  pose proof (sw_todo _ _ _ S p ltac:(done)) as Hkp. pose proof (sw_nb _ _ _ S) as Hnb.
  cbn [gc_sweep_loop]. rewrite get_kd by lia. cbn [obind].
  destruct (Z.eqb_spec (kd g p) AT_HEAD) as [E1|E1]; rewrite Hkp in E1.
  { destruct (with_atb_upd _ _ _ g p any_to_free) as (g1 & -> & U); [apply S|lia|by left|]. cbn [obind].
    apply IH; [lia| |].
    - eapply sweeping_step; [done..|]. repeat split; intros; kinds.
    - by apply (tail_flag_head _ _ AT_HEAD); auto. }
  destruct (Z.eqb_spec (kd g p) AT_TAIL) as [E2|E2]; rewrite Hkp in E2.
  { assert (Hown : forall h, owner g0 p h -> f = (kd g0 h =? AT_HEAD)%Z).
    { intros h Hh. apply Hf; [done|]. destruct Hh as (Hle & Hh & _).
      destruct (decide (h = p)) as [->|]; [kinds|lia]. }
    destruct f.
    - destruct (with_atb_upd _ _ _ g p any_to_free) as (g1 & -> & U); [apply S|lia|by left|]. cbn [obind].
      apply IH; [lia| |by apply tail_flag_tail].
      eapply sweeping_step; [done..|]. repeat split; intros; try kinds.
      specialize (Hown h ltac:(done)). revert Hown. rewrite H1. done.
    - apply IH; [lia| |by apply tail_flag_tail]. apply sweeping_skip; [done|]. rewrite Hkp.
      repeat split; intros; try kinds. specialize (Hown h ltac:(done)). revert Hown. rewrite H1. done. }
  destruct (Z.eqb_spec (kd g p) AT_MARK) as [E3|E3]; rewrite Hkp in E3.
  { destruct (with_atb_upd _ _ _ g p mark_to_head) as (g1 & -> & U); [apply S|lia|right; congruence|].
    cbn [obind]. apply IH; [lia| |].
    - eapply sweeping_step; [done..|]. repeat split; intros; kinds.
    - by apply (tail_flag_head _ _ AT_MARK); auto. }
  assert (E4 : kd g0 p = AT_FREE) by (destruct (kd_cases g0 p); tauto).
  apply IH; [lia| |by apply tail_flag_free]. apply sweeping_skip; [done|]. rewrite Hkp.
  repeat split; intros; kinds.
Qed.

Lemma gc_sweep_ok g : heap_ok g -> exists g', gc_sweep g = Ret g' /\ sweeping g (nb g) g'.
Proof.
  intros W. apply gc_sweep_loop_ok; [done|done| |].
  - constructor; try done; [by destruct g|apply W|lia].
  - intros h _ ?. lia.
Qed.

(** A swept heap is well formed and holds no mark. *)
Lemma swept_ok g g' : heap_ok g -> sweeping g (nb g) g' -> heap_ok g' /\
  (forall b, (b < nb g)%nat -> kd g' b <> AT_MARK).
Proof.
  intros W S. assert (Hnm : forall b, (b < nb g)%nat -> kd g' b <> AT_MARK).
  { intros b Hb. destruct (sw_done _ _ _ S b Hb) as (H1 & H2 & H3 & H4).
    destruct (kd_cases g b) as [E|[E|[E|E]]]; [rewrite H3|rewrite H2| |rewrite H1]; try done.
    destruct (owner_exists g b W Hb ltac:(kinds)) as (h & Hh). destruct (H4 E h Hh) as [H5 H6].
    destruct Hh as (_ & [Hh|Hh] & _); [rewrite H6|rewrite H5]; done. }
  split; [|done]. pose proof (sw_nb _ _ _ S) as Hnb. pose proof (sw_rest _ _ _ S) as Hr.
  constructor.
  - apply S.
  - rewrite Hnb, Hr. apply W.
  - rewrite Hnb, (sw_todo _ _ _ S) by done. apply W.
  - rewrite Hr. apply W.
  - rewrite Hr. apply W.
  - intros b Hb Hk. rewrite Hnb in Hb. destruct (sw_done _ _ _ S b Hb) as (H1 & H2 & H3 & H4).
    assert (E : kd g b = AT_TAIL).
    { destruct (kd_cases g b) as [E|[E|[E|E]]]; [rewrite H3 in Hk|rewrite H2 in Hk| |rewrite H1 in Hk]; kinds. }
    destruct (ok_chain _ W b Hb E) as (a & -> & Ha). exists a. split; [done|].
    destruct (owner_exists g (Datatypes.S a) W Hb ltac:(kinds)) as (h & Hh).
    destruct (H4 E h Hh) as [H5 H6].
    assert (Hm : kd g h = AT_MARK).
    { destruct Hh as (_ & [Hh|Hh] & _); [rewrite H6 in Hk by done; kinds|done]. }
    assert (Ho : owner g a h).
    { destruct Hh as (Hle & Hk' & Ht). split; [|split; [done|intros i Hi; apply Ht; lia]].
      destruct (decide (h = Datatypes.S a)) as [->|]; [kinds|lia]. }
    destruct (sw_done _ _ _ S a ltac:(lia)) as (A1 & A2 & A3 & A4).
    destruct (kd_cases g a) as [E'|[E'|[E'|E']]]; [done| | |rewrite A1; done].
    + destruct (decide (h = a)) as [->|]; [kinds|]. destruct Ho as (? & ? & Ht).
      rewrite Ht in E' by lia. kinds.
    + destruct (A4 E' h Ho) as [-> _]; done.
Qed.

(** ** The whole collection *)

Inductive reachable (g : gc_t) (r : roots_t) : nat -> Prop :=
| reach_root w : w ∈ state_ctx r ++ pystack r ++ cstack r -> VERIFY_PTR g w = true ->
    kd g (BLOCK_FROM_PTR g w) = AT_HEAD -> reachable g r (BLOCK_FROM_PTR g w)
| reach_child b c : reachable g r b -> child g b c -> reachable g r c.

(** A marked set that holds the roots and is closed holds every reachable block. *)
Lemma reachable_marked g r g' : extends g g' -> all_closed g' -> heap_ok g ->
  (forall b, (b < nb g)%nat -> kd g b <> AT_MARK) ->
  (forall w, w ∈ state_ctx r ++ pystack r ++ cstack r -> VERIFY_PTR g w = true ->
     kd g' (BLOCK_FROM_PTR g w) <> AT_HEAD) ->
  forall b, reachable g r b -> (b < nb g)%nat /\ kd g b = AT_HEAD /\ kd g' b = AT_MARK.
Proof.
  intros E C W Hnm Hr b. induction 1 as [w Hw Hv Hk|b c _ (Hb & _ & Hm) Hc].
  - destruct (VERIFY_PTR_block _ _ W Hv) as [Hb _]. split; [done|]. split; [done|].
    destruct (ext_kd _ _ E (BLOCK_FROM_PTR g w)) as [H|[_ H]]; [|done].
    destruct (Hr w Hw Hv). congruence.
  - assert (Hcb : (c < nb g)%nat).
    { destruct Hc as (_ & w & _ & _ & Hv & <- & _). by apply VERIFY_PTR_block. }
    split; [done|]. split.
    + destruct Hc as (_ & w & _ & _ & _ & _ & [?|Hx]); [done|]. by destruct (Hnm c).
    + apply (C b); [by rewrite (ext_nb _ _ E)|done|]. by apply (ext_child _ _ _ _ E).
Qed.

Lemma reachable_same g g0 r b : atb g0 = atb g -> pool g0 = pool g -> gc_pool_start g0 = gc_pool_start g ->
  reachable g r b -> reachable g0 r b.
Proof.
  intros Ha Hp Hs.
  assert (Hk : forall b, kd g0 b = kd g b) by (intros; unfold kd; by rewrite Ha).
  assert (Hn : nb g0 = nb g) by (unfold nb; by rewrite Ha).
  assert (Hv : forall w, VERIFY_PTR g0 w = VERIFY_PTR g w /\ BLOCK_FROM_PTR g0 w = BLOCK_FROM_PTR g w)
    by (intros w; unfold VERIFY_PTR, BLOCK_FROM_PTR, gc_pool_end; by rewrite Ha, Hs).
  induction 1 as [w Hw Hvw Hkw|b c _ IH Hc].
  - destruct (Hv w) as [V <-]. apply reach_root; [done|congruence|].
    destruct (Hv w) as [_ B]. by rewrite Hk, B.
  - apply (reach_child _ _ b); [done|]. destruct Hc as (n & w & (H1 & H2 & H3 & H4) & Hw & Hvw & Hb & Hkc).
    destruct (Hv w) as [V B]. exists n, w. rewrite V, B, Hk. unfold words in *. rewrite Hp.
    repeat split; try done; rewrite ?Hn, ?Hk; try done. intros i Hi. rewrite Hk. auto.
Qed.

(** What a collection of [g] with roots [r] produces. *)
Record collected (g : gc_t) (r : roots_t) (g' : gc_t) : Prop := {
  co_wf : gc_wf g';
  co_nb : nb g' = nb g;
  co_pool : pool g' = pool g;
  co_start : gc_pool_start g' = gc_pool_start g;
  co_lock : gc_lock_depth g' = gc_lock_depth g;
  co_auto : gc_auto_collect_enabled g' = gc_auto_collect_enabled g;
  co_last : gc_last_free_atb_index g' = 0%nat;
  co_kd : forall b, (b < nb g)%nat -> kd g' b = kd g b \/ kd g' b = AT_FREE;
  co_free : forall b, (b < nb g)%nat -> kd g b = AT_FREE -> kd g' b = AT_FREE;
  co_live : forall b h, (b < nb g)%nat -> owner g b h -> reachable g r h -> kd g' b = kd g b;
  co_dead : forall b h, (b < nb g)%nat -> owner g b h -> ~ reachable g r h -> kd g' b = AT_FREE
}.

Lemma gc_collect_ok g r : gc_wf g -> exists g', gc_collect gc_stack_size g r = Ret g' /\ collected g r g'.
Proof.
  intros [W Hnm Hlast Hle]. unfold gc_collect, gc_collect_start.
  set (g0 := set_overflow (set_lock_depth g (gc_lock_depth g + 1)) false).
  assert (W0 : heap_ok g0) by (destruct W; by constructor).
  assert (J0 : mark_inv g0) by (right; intros b Hb Hk; by destruct (Hnm b Hb)).
  destruct (gc_collect_root_ok (state_ctx r) g0 W0 J0) as (g1 & -> & [E1 J1 D1 S1]). cbn [obind].
  destruct (gc_collect_root_ok (pystack r) g1 (ext_ok _ _ E1) J1) as (g2 & -> & [E2 J2 D2 S2]). cbn [obind].
  destruct (gc_collect_root_ok (cstack r) g2 (ext_ok _ _ E2) J2) as (g3 & -> & [E3 J3 D3 S3]). cbn [obind].
  unfold gc_collect_end.
  destruct (gc_deal_with_stack_overflow_ok g3 (ext_ok _ _ E3) J3) as (g4 & -> & E4 & C4 & S4). cbn [obind].
  destruct (gc_sweep_ok g4 (ext_ok _ _ E4)) as (g5 & -> & Sw). cbn [obind].
  pose proof (extends_trans _ _ _ E1 E2) as E02. pose proof (extends_trans _ _ _ E02 E3) as E03.
  pose proof (extends_trans _ _ _ E03 E4) as E04.
  eexists. split; [reflexivity|]. set (g' := set_lock_depth _ _).
  assert (Hkd' : forall b, kd g' b = kd g5 b) by done.
  pose proof (ext_nb _ _ E04) as Hnb4. pose proof (sw_rest _ _ _ Sw) as Hr5.
  (* every root is marked at the end *)
  assert (Hroots : forall w, w ∈ state_ctx r ++ pystack r ++ cstack r -> VERIFY_PTR g0 w = true ->
     kd g4 (BLOCK_FROM_PTR g0 w) <> AT_HEAD).
  { intros w Hw Hv. destruct (ext_VERIFY _ _ w E1) as [V1 B1]. destruct (ext_VERIFY _ _ w E02) as [V2 B2].
    rewrite !elem_of_app in Hw. destruct Hw as [Hw|[Hw|Hw]].
    - pose proof (extends_trans _ _ _ E2 (extends_trans _ _ _ E3 E4)) as E.
      rewrite (ext_nonhead _ _ _ E); auto.
    - pose proof (extends_trans _ _ _ E3 E4) as E.
      rewrite <- B1, (ext_nonhead _ _ _ E); apply D2; congruence.
    - rewrite <- B2, (ext_nonhead _ _ _ E4); apply D3; congruence. }
  assert (Hcomplete : forall b, reachable g0 r b -> kd g4 b = AT_MARK).
  { intros b Hb. by destruct (reachable_marked g0 r g4 E04 C4 W0 Hnm Hroots b Hb) as (_ & _ & ?). }
  (* and nothing else is *)
  set (P := reachable g0 r).
  assert (HP : child_closed g0 P) by (intros b c; apply reach_child).
  assert (Hin : forall w ws, ws ⊆ state_ctx r ++ pystack r ++ cstack r -> w ∈ ws ->
     VERIFY_PTR g0 w = true -> kd g0 (BLOCK_FROM_PTR g0 w) = AT_HEAD -> P (BLOCK_FROM_PTR g0 w)).
  { intros w ws Hs Hw Hv Hk. apply reach_root; auto. }
  assert (Hback : forall gi w, extends g0 gi -> VERIFY_PTR gi w = true -> kd gi (BLOCK_FROM_PTR gi w) = AT_HEAD ->
     VERIFY_PTR g0 w = true /\ kd g0 (BLOCK_FROM_PTR g0 w) = AT_HEAD /\ BLOCK_FROM_PTR gi w = BLOCK_FROM_PTR g0 w).
  { intros gi w E Hv Hk. destruct (ext_VERIFY _ _ w E) as [V B]. rewrite V in Hv. rewrite B in *.
    destruct (ext_kd _ _ E (BLOCK_FROM_PTR g0 w)) as [|[]]; repeat split; congruence. }
  assert (Hsound : forall b, (b < nb g)%nat -> kd g4 b = AT_MARK -> P b).
  { intros b Hb. change (nb g) with (nb g0) in Hb. rewrite <- (ext_nb _ _ E03) in Hb.
    apply (S4 P); [by apply (ext_child_closed _ _ _ E03)| |done].
    intros b' Hb' Hk3. rewrite (ext_nb _ _ E03) in Hb'.
    destruct (S3 P) with b' as [Hk2|]; [by apply (ext_child_closed _ _ _ E02)| |done| |done].
    { intros w Hw Hv Hk. destruct (Hback g2 w E02 Hv Hk) as (? & ? & ->). apply (Hin w (cstack r)); set_solver. }
    destruct (S2 P) with b' as [Hk1|]; [by apply (ext_child_closed _ _ _ E1)| |done| |done].
    { intros w Hw Hv Hk. destruct (Hback g1 w E1 Hv Hk) as (? & ? & ->). apply (Hin w (pystack r)); set_solver. }
    destruct (S1 P HP) with b' as [Hk0|]; [|done| |done].
    { intros w Hw. apply (Hin w (state_ctx r)); set_solver. }
    by destruct (Hnm b' Hb'). }
  destruct (swept_ok g4 g5 (ext_ok _ _ E04) Sw) as [W5 Hnm5].
  assert (Hreach : forall b, reachable g r b <-> P b) by (intros; split; by apply reachable_same).
  assert (Hown4 : forall b h, owner g b h -> owner g4 b h).
  { intros b h (Hle' & Hh & Ht). split; [done|]. split.
    - destruct (ext_kd _ _ E04 h) as [->|[_ ->]]; auto.
    - intros i Hi. apply (ext_tail _ _ _ E04). by apply Ht. }
  assert (Hnb5 : nb g5 = nb g) by (rewrite (sw_nb _ _ _ Sw); exact Hnb4).
  constructor.
  - constructor; [destruct W5; by constructor|intros b Hb|intros b Hb; simpl in Hb; lia|simpl; lia].
    rewrite Hkd'. apply Hnm5. change (nb g5 = nb g) in Hnb5. rewrite Hnb4. change (nb g') with (nb g5) in Hb.
    rewrite Hnb5 in Hb. done.
  - exact Hnb5.
  - unfold g'; simpl. rewrite Hr5. simpl. apply (ext_pool _ _ E04).
  - unfold g'; simpl. rewrite Hr5. simpl. apply (ext_start _ _ E04).
  - unfold g'; simpl. rewrite Hr5. simpl. rewrite (ext_lock _ _ E04). simpl. lia.
  - unfold g'; simpl. rewrite Hr5. simpl. apply (ext_auto _ _ E04).
  - done.
  - intros b Hb. rewrite Hkd'. destruct (sw_done _ _ _ Sw b) as (H1 & H2 & H3 & H4); [by rewrite Hnb4|].
    destruct (kd_cases g4 b) as [E|[E|[E|E]]]; [right; by apply H3|right; by apply H2| |].
    + destruct (owner_exists g4 b (ext_ok _ _ E04)) as (h & Hh); [by rewrite Hnb4|kinds|].
      destruct (H4 E h Hh) as [H5 H6]. destruct Hh as (_ & [Hh|Hh] & _); [right; by apply H6|left].
      rewrite H5 by done. symmetry. by apply (ext_tail _ _ _ E04).
    + left. rewrite H1 by done. destruct (ext_kd _ _ E04 b) as [Hx|[Hx _]]; [|done].
      destruct (Hnm b Hb). change (kd g0 b = AT_MARK). congruence.
  - intros b Hb Hk. rewrite Hkd'. destruct (sw_done _ _ _ Sw b) as (_ & _ & H & _); [by rewrite Hnb4|].
    apply H. rewrite (ext_nonhead _ _ _ E04); [done|]. change (kd g b <> AT_HEAD). kinds.
  - intros b h Hb Ho Hl. rewrite Hkd'. apply Hreach in Hl. pose proof (Hcomplete h Hl) as Hm.
    destruct (sw_done _ _ _ Sw b) as (H1 & _ & _ & H4); [by rewrite Hnb4|].
    pose proof (Hown4 b h Ho) as Ho4. destruct Ho as (Hle' & Hh & Ht).
    destruct (decide (h = b)) as [->|].
    + rewrite H1 by done. destruct Hh as [->|Hx]; [done|]. by destruct (Hnm b Hb).
    + rewrite (Ht b) by lia. apply (H4 ltac:(apply (ext_tail _ _ _ E04); apply Ht; lia) h Ho4). done.
  - intros b h Hb Ho Hd. rewrite Hkd'. rewrite Hreach in Hd.
    destruct (sw_done _ _ _ Sw b) as (_ & H2 & _ & H4); [by rewrite Hnb4|].
    pose proof (Hown4 b h Ho) as Ho4. destruct Ho as (Hle' & Hh & Ht).
    assert (Hk4 : kd g4 h = AT_HEAD).
    { destruct Ho4 as (_ & [?|Hm] & _); [done|]. destruct Hd. apply Hsound; [lia|done]. }
    destruct (decide (h = b)) as [->|]; [by apply H2|].
    apply (H4 ltac:(apply (ext_tail _ _ _ E04); apply Ht; lia) h Ho4). done.
Qed.
End Collect.
