(* ===== verification/GcAlloc.v ===== *)
(** * Allocation, freeing and resizing of chains

    [gc_alloc] finds a run of free blocks if there is one and turns it into a zeroed chain;
    [gc_free] turns exactly one chain back into free blocks; [gc_realloc] resizes a chain in
    place or moves it with its contents.  All keep the heap invariant [gc_wf]. *)

From S2P Require Import Prelude GcTable Gc GcHeap GcMark GcCollect.
From stdpp Require Import sets list_numbers.

(** ** Updates of a range of blocks *)

Record rupd (g : gc_t) (lo n : nat) (k : Z) (g' : gc_t) : Prop := {
  ru_rest : g' = set_atb g (atb g');
  ru_bytes : bytes_ok (atb g');
  ru_nb : nb g' = nb g;
  ru_kd : forall b, kd g' b = if decide (lo <= b < lo + n)%nat then k else kd g b
}.

Lemma rupd_0 g lo k : bytes_ok (atb g) -> rupd g lo 0 k g.
Proof. constructor; try done; [by destruct g|]. intros b. rewrite decide_False by lia. done. Qed.

Lemma rupd_S g lo n k g1 g' : upd g lo k g1 -> rupd g1 (S lo) n k g' -> rupd g lo (S n) k g'.
Proof.
  intros U []. constructor; try done.
  - rewrite ru_rest0, (upd_rest _ _ _ _ U). done.
  - by rewrite ru_nb0, (upd_nb _ _ _ _ U).
  - intros b. rewrite ru_kd0, (upd_kd _ _ _ _ U).
    repeat case_decide; try done; lia.
Qed.

Lemma rupd_in g lo n k g' b : rupd g lo n k g' -> (lo <= b < lo + n)%nat -> kd g' b = k.
Proof. intros U ?. rewrite (ru_kd _ _ _ _ _ U). by rewrite decide_True. Qed.

Lemma rupd_out g lo n k g' b : rupd g lo n k g' -> ~ (lo <= b < lo + n)%nat -> kd g' b = kd g b.
Proof. intros U ?. rewrite (ru_kd _ _ _ _ _ U). by rewrite decide_False. Qed.

Lemma upd_rupd g lo k g1 : upd g lo k g1 -> rupd g lo 1 k g1.
Proof. intros U. eapply rupd_S; [done|]. apply rupd_0, U. Qed.

(** A run of [n] free blocks from [s] on. *)
Definition run (g : gc_t) (s n : nat) : Prop := forall i, (i < n)%nat -> kd g (s + i) = AT_FREE.

Lemma mark_tails_ok n bl g : bytes_ok (atb g) -> (bl + n <= nb g)%nat -> run g bl n ->
  exists g', mark_tails n bl g = Ret g' /\ rupd g bl n AT_TAIL g'.
Proof.
  revert bl g. induction n as [|n IH]; intros bl g Hok Hb Hr; [exists g; auto using rupd_0|].
  cbn [mark_tails].
  destruct (with_atb_upd _ _ _ g bl free_to_tail Hok) as (g1 & -> & U); [lia| |].
  { right. specialize (Hr 0%nat ltac:(lia)). by rewrite Nat.add_0_r in Hr. }
  cbn [obind]. destruct (IH (S bl) g1) as (g' & He & R); [apply U|rewrite (upd_nb _ _ _ _ U); lia| |].
  { intros i Hi. rewrite (upd_ne _ _ _ _ _ U) by lia. replace (S bl + i)%nat with (bl + S i)%nat by lia.
    apply Hr. lia. }
  exists g'. split; [done|]. by eapply rupd_S.
Qed.

Lemma grow_tails_ok n bl g : bytes_ok (atb g) -> (bl + n <= nb g)%nat -> run g bl n ->
  exists g', grow_tails n bl g = Ret g' /\ rupd g bl n AT_TAIL g'.
Proof.
  revert bl g. induction n as [|n IH]; intros bl g Hok Hb Hr; [exists g; auto using rupd_0|].
  assert (Hk : kd g bl = AT_FREE).
  { specialize (Hr 0%nat ltac:(lia)). by rewrite Nat.add_0_r in Hr. }
  cbn [grow_tails]. rewrite get_kd by lia. cbn [obind]. rewrite Hk. cbn [negb Z.eqb AT_FREE].
  destruct (with_atb_upd _ _ _ g bl free_to_tail Hok) as (g1 & -> & U); [lia|by right|].
  cbn [obind]. destruct (IH (S bl) g1) as (g' & He & R); [apply U|rewrite (upd_nb _ _ _ _ U); lia| |].
  { intros i Hi. rewrite (upd_ne _ _ _ _ _ U) by lia. replace (S bl + i)%nat with (bl + S i)%nat by lia.
    apply Hr. lia. }
  exists g'. split; [done|]. by eapply rupd_S.
Qed.

Lemma free_blocks_ok n bl g : bytes_ok (atb g) -> (bl + n <= nb g)%nat ->
  exists g', free_blocks n bl g = Ret g' /\ rupd g bl n AT_FREE g'.
Proof.
  revert bl g. induction n as [|n IH]; intros bl g Hok Hb; [exists g; auto using rupd_0|].
  cbn [free_blocks]. destruct (with_atb_upd _ _ _ g bl any_to_free Hok) as (g1 & -> & U); [lia|by left|].
  cbn [obind]. destruct (IH (S bl) g1) as (g' & He & R); [apply U|rewrite (upd_nb _ _ _ _ U); lia|].
  exists g'. split; [done|]. by eapply rupd_S.
Qed.

Lemma free_chain_ok fuel n b g : bytes_ok (atb g) -> (0 < n <= fuel)%nat -> (b + n <= nb g)%nat ->
  (forall i, (0 < i < n)%nat -> kd g (b + i) = AT_TAIL) -> kd g (b + n) <> AT_TAIL ->
  exists g', free_chain fuel g b = Ret g' /\ rupd g b n AT_FREE g'.
Proof.
  revert n b g. induction fuel as [|fuel IH]; intros n b g Hok Hn Hb Ht Hend; [lia|].
  cbn [free_chain]. destruct (with_atb_upd _ _ _ g b any_to_free Hok) as (g1 & -> & U); [lia|by left|].
  cbn [obind]. rewrite get_kd by (rewrite (upd_nb _ _ _ _ U); lia). cbn [obind].
  rewrite (upd_ne _ _ _ _ (S b) U) by lia.
  destruct n as [|[|n]]; [lia| |].
  - rewrite Nat.add_1_r in Hend. rewrite (proj2 (Z.eqb_neq _ _) Hend).
    exists g1. split; [done|]. by apply upd_rupd.
  - specialize (Ht 1%nat ltac:(lia)) as Ht1. rewrite Nat.add_1_r in Ht1. rewrite Ht1.
    cbn [Z.eqb Pos.eqb AT_TAIL].
    destruct (IH (S n) (S b) g1) as (g' & He & R); [apply U|lia|rewrite (upd_nb _ _ _ _ U); lia| | |].
    + intros i Hi. rewrite (upd_ne _ _ _ _ _ U) by lia. replace (S b + i)%nat with (b + S i)%nat by lia.
      apply Ht. lia.
    + rewrite (upd_ne _ _ _ _ _ U) by lia. by replace (S b + S n)%nat with (b + S (S n))%nat by lia.
    + exists g'. split; [done|]. by eapply rupd_S.
Qed.

(** ** The search for free blocks *)

(** Before block [p] is examined: the last [nf] blocks are free and no more than those, and no
    run of [n] blocks of [[lo, p)] was passed over. *)
Record searching (g : gc_t) (lo n p nf : nat) : Prop := {
  se_lo : (lo + nf <= p)%nat;
  se_lt : (nf < n)%nat;
  se_run : run g (p - nf) nf;
  se_max : (p - nf)%nat = lo \/ ((lo < p - nf)%nat /\ kd g (p - nf - 1) <> AT_FREE);
  se_none : forall s, (lo <= s)%nat -> (s + n <= p)%nat -> ~ run g s n
}.

Lemma searching_start g lo n : (0 < n)%nat -> searching g lo n lo 0.
Proof.
  intros Hn. constructor; try lia. intros i ?. lia.
Qed.

Definition found (g : gc_t) (lo n e : nat) : Prop :=
  (n <= e + 1)%nat /\ (lo <= e + 1 - n)%nat /\ run g (e + 1 - n) n /\
  forall s, (lo <= s)%nat -> (s < e + 1 - n)%nat -> ~ run g s n.

Lemma searching_step g lo n p nf nf' b : searching g lo n p nf ->
  try_block (kd g p =? AT_FREE)%Z (Z.of_nat n) (Z.of_nat nf) = (nf', b) ->
  if b then nf' = Z.of_nat n /\ found g lo n p
  else exists m, nf' = Z.of_nat m /\ searching g lo n (S p) m.
Proof.
  intros [Hlo Hlt Hrun Hmax Hnone]. unfold try_block.
  destruct (Z.eqb_spec (kd g p) AT_FREE) as [Hk|Hk]; intros [= <- <-].
  - assert (Hrun' : run g (p - nf) (S nf)).
    { intros i Hi. destruct (decide (i = nf)) as [->|]; [|apply Hrun; lia].
      by replace (p - nf + nf)%nat with p by lia. }
    destruct (Z.leb_spec (Z.of_nat n) (Z.of_nat nf + 1)) as [Hle|Hle].
    + assert (n = S nf) as -> by lia. split; [lia|]. split; [lia|]. split; [lia|]. split.
      * by replace (p + 1 - S nf)%nat with (p - nf)%nat by lia.
      * intros s Hs1 Hs2. apply Hnone; lia.
    + exists (S nf). split; [lia|]. constructor; try lia.
      * by replace (S p - S nf)%nat with (p - nf)%nat by lia.
      * destruct Hmax as [|[]]; [left; lia|right]. split; [lia|].
        by replace (S p - S nf - 1)%nat with (p - nf - 1)%nat by lia.
      * intros s Hs1 Hs2 Hr. destruct (decide (s + n <= p)%nat); [by apply (Hnone s)|].
        destruct Hmax as [|[? Hx]]; [lia|]. apply Hx.
        replace (p - nf - 1)%nat with (s + (p - nf - 1 - s))%nat by lia. apply Hr. lia.
  - exists 0%nat. split; [done|]. constructor; try lia; [intros i ?; lia| |].
    + right. split; [lia|]. by replace (S p - 0 - 1)%nat with p by lia.
    + intros s Hs1 Hs2 Hr. destruct (decide (s + n <= p)%nat); [by apply (Hnone s)|].
      apply Hk. replace p with (s + (p - s))%nat by lia. apply Hr. lia.
Qed.

Lemma find_free_ok m i g lo n nf : bytes_ok (atb g) -> (i + m = length (bytes (atb g)))%nat ->
  searching g lo n (4 * i) nf ->
  (exists e, find_free m i (atb g) (Z.of_nat n) (Z.of_nat nf) = Ret (Some (e, Z.of_nat n)) /\
     (e < nb g)%nat /\ found g lo n e) \/
  (find_free m i (atb g) (Z.of_nat n) (Z.of_nat nf) = Ret None /\
     forall s, (lo <= s)%nat -> (s + n <= nb g)%nat -> ~ run g s n).
Proof.
  intros Hok. revert i nf. induction m as [|m IH]; intros i nf Hm S0.
  { right. split; [done|]. intros s Hs1 Hs2. apply (se_none _ _ _ _ _ S0); [done|].
    unfold nb, nblocks, BLOCKS_PER_ATB in *. lia. }
  destruct (rd_in_bounds (bytes (atb g)) (Z.of_nat i)) as (a & Hr & Ha); [lia|].
  rewrite Nat2Z.id in Ha. destruct (is_free_kind _ _ _ Hok Ha) as (F0 & F1 & F2 & F3).
  fold (kd g (4 * i)) (kd g (4 * i + 1)) (kd g (4 * i + 2)) (kd g (4 * i + 3)) in *.
  assert (Hnb : (4 * i + 3 < nb g)%nat) by (unfold nb, nblocks, BLOCKS_PER_ATB; lia).
  cbn [find_free]. rewrite Hr. cbn [obind]. rewrite F0, F1, F2, F3. unfold BLOCKS_PER_ATB.
  rewrite (Nat.mul_comm i 4).
  destruct (try_block _ _ (Z.of_nat nf)) as [z0 b0] eqn:T0.
  pose proof (searching_step _ _ _ _ _ _ _ S0 T0) as S1. destruct b0.
  { destruct S1 as [-> S1]. left. exists (4 * i + 0)%nat. rewrite Nat.add_0_r. repeat split; try lia; apply S1. }
  destruct S1 as (n1 & -> & S1). replace (S (4 * i)) with (4 * i + 1)%nat in S1 by lia.
  destruct (try_block _ _ (Z.of_nat n1)) as [z1 b1] eqn:T1.
  pose proof (searching_step _ _ _ _ _ _ _ S1 T1) as S2. destruct b1.
  { destruct S2 as [-> S2]. left. exists (4 * i + 1)%nat. repeat split; try lia; apply S2. }
  destruct S2 as (n2 & -> & S2). replace (S (4 * i + 1)) with (4 * i + 2)%nat in S2 by lia.
  destruct (try_block _ _ (Z.of_nat n2)) as [z2 b2] eqn:T2.
  pose proof (searching_step _ _ _ _ _ _ _ S2 T2) as S3. destruct b2.
  { destruct S3 as [-> S3]. left. exists (4 * i + 2)%nat. repeat split; try lia; apply S3. }
  destruct S3 as (n3 & -> & S3). replace (S (4 * i + 2)) with (4 * i + 3)%nat in S3 by lia.
  destruct (try_block _ _ (Z.of_nat n3)) as [z3 b3] eqn:T3.
  pose proof (searching_step _ _ _ _ _ _ _ S3 T3) as S4. destruct b3.
  { destruct S4 as [-> S4]. left. exists (4 * i + 3)%nat. repeat split; try lia; apply S4. }
  destruct S4 as (n4 & -> & S4). replace (S (4 * i + 3)) with (4 * S i)%nat in S4 by lia.
  apply IH; [lia|done].
Qed.

(** A search from [gc_last_free_atb_index] misses no run of the heap. *)
Lemma search_free_ok g n : gc_wf g -> (0 < n)%nat ->
  (exists e, search_free g (Z.of_nat n) = Ret (Some (e, Z.of_nat n)) /\ (e < nb g)%nat /\
     (n <= e + 1)%nat /\ run g (e + 1 - n) n /\ (n = 1%nat -> forall b, (b < e)%nat -> kd g b <> AT_FREE)) \/
  (search_free g (Z.of_nat n) = Ret None /\ forall s, (s + n <= nb g)%nat -> ~ run g s n).
Proof.
  intros W Hn. unfold search_free.
  pose proof (wf_last_le _ W) as Hle. pose proof (wf_last _ W) as Hlast. unfold BLOCKS_PER_ATB in Hlast.
  set (i := gc_last_free_atb_index g) in *.
  destruct (find_free_ok (length (bytes (atb g)) - i) i g (4 * i) n 0 (ok_bytes _ W) ltac:(lia)
    (searching_start _ _ _ Hn)) as [(e & He & Hb & H1 & H2 & H3 & H4)|[He H]].
  - left. exists e. do 4 (split; [done|]). intros -> b Hbe.
    destruct (decide (b < 4 * i)%nat) as [|Hge]; [by apply Hlast|]. intros Hk.
    apply (H4 b); [lia|lia|]. intros j Hj. replace (b + j)%nat with b by lia. done.
  - right. split; [done|]. intros s Hs Hr. destruct (decide (s < 4 * i)%nat) as [Hlt|Hge].
    + apply (Hlast s Hlt). specialize (Hr 0%nat Hn). by rewrite Nat.add_0_r in Hr.
    + apply (H s); [lia|done|done].
Qed.

(** ** Contents of blocks *)

Definition block_words (p : list Z) (b : nat) : list Z :=
  take WORDS_PER_BLOCK (drop (b * WORDS_PER_BLOCK) p).

Lemma block_words_lookup p b j :
  block_words p b !! j = if decide (j < 4)%nat then p !! (b * 4 + j)%nat else None.
Proof.
  unfold block_words, WORDS_PER_BLOCK. case_decide.
  - by rewrite lookup_take_lt, lookup_drop by done.
  - by rewrite lookup_take_ge by lia.
Qed.

Lemma zero_words_length p w n : (w + n <= length p)%nat -> length (zero_words p w n) = length p.
Proof.
  intros. unfold zero_words. rewrite !length_app, length_take, length_replicate, length_drop. lia.
Qed.

Lemma zero_words_lookup p w n i : (w + n <= length p)%nat ->
  zero_words p w n !! i = if decide (w <= i < w + n)%nat then Some 0%Z else p !! i.
Proof.
  intros Hl. unfold zero_words. case_decide.
  - rewrite lookup_app_r, lookup_app_l, lookup_replicate_2; rewrite ?length_take, ?length_replicate; try lia. done.
  - destruct (decide (i < w)%nat).
    + rewrite lookup_app_l, lookup_take_lt; rewrite ?length_take; try lia. done.
    + rewrite !lookup_app_r, lookup_drop; rewrite ?length_take, ?length_replicate; try lia.
      f_equal. lia.
Qed.

Lemma zero_blocks p s n b : ((s + n) * 4 <= length p)%nat ->
  block_words (zero_words p (s * WORDS_PER_BLOCK) (n * WORDS_PER_BLOCK)) b =
  if decide (s <= b < s + n)%nat then replicate WORDS_PER_BLOCK 0%Z else block_words p b.
Proof.
  intros Hl. apply list_eq. intros j. rewrite block_words_lookup. unfold WORDS_PER_BLOCK.
  rewrite zero_words_lookup by lia.
  destruct (decide (s <= b < s + n)%nat).
  - case_decide; [|symmetry; apply lookup_ge_None_2; rewrite length_replicate; lia].
    rewrite decide_True by lia. by rewrite lookup_replicate_2.
  - rewrite block_words_lookup. case_decide; [|done]. by rewrite decide_False by lia.
Qed.

Lemma copy_words_lookup p dst src n i : (dst + n <= length p)%nat -> (src + n <= length p)%nat ->
  copy_words p dst src n !! i =
  if decide (dst <= i < dst + n)%nat then p !! (src + (i - dst))%nat else p !! i.
Proof.
  intros Hd Hs. unfold copy_words. case_decide.
  - rewrite lookup_app_r, lookup_app_l, lookup_take_lt, lookup_drop;
      rewrite ?length_take, ?length_drop; try lia. f_equal. lia.
  - destruct (decide (i < dst)%nat).
    + rewrite lookup_app_l, lookup_take_lt; rewrite ?length_take; try lia. done.
    + rewrite !lookup_app_r, lookup_drop; rewrite ?length_take, ?length_drop; try lia.
      f_equal. lia.
Qed.

Lemma copy_words_length p dst src n : (dst + n <= length p)%nat -> (src + n <= length p)%nat ->
  length (copy_words p dst src n) = length p.
Proof.
  intros. unfold copy_words. rewrite !length_app, !length_take, !length_drop. lia.
Qed.

Lemma copy_blocks p dst src n b : ((dst + n) * 4 <= length p)%nat -> ((src + n) * 4 <= length p)%nat ->
  block_words (copy_words p (dst * WORDS_PER_BLOCK) (src * WORDS_PER_BLOCK) (n * WORDS_PER_BLOCK)) b =
  if decide (dst <= b < dst + n)%nat then block_words p (src + (b - dst)) else block_words p b.
Proof.
  intros Hd Hs. apply list_eq. intros j. rewrite block_words_lookup. unfold WORDS_PER_BLOCK.
  rewrite copy_words_lookup by lia.
  destruct (decide (dst <= b < dst + n)%nat); rewrite block_words_lookup; (case_decide; [|done]).
  - rewrite decide_True by lia. f_equal. lia.
  - by rewrite decide_False by lia.
Qed.

(** ** [gc_alloc] *)

(** [g'] is [g] with the free blocks [s .. s + n - 1] turned into a zeroed chain. *)
Record allocated (g : gc_t) (s n : nat) (g' : gc_t) : Prop := {
  al_pos : (0 < n)%nat;
  al_bound : (s + n <= nb g)%nat;
  al_free : run g s n;
  al_wf : gc_wf g';
  al_nb : nb g' = nb g;
  al_start : gc_pool_start g' = gc_pool_start g;
  al_lock : gc_lock_depth g' = gc_lock_depth g;
  al_auto : gc_auto_collect_enabled g' = gc_auto_collect_enabled g;
  al_kd : forall b, kd g' b = if decide (b = s) then AT_HEAD
                              else if decide (s < b < s + n)%nat then AT_TAIL else kd g b;
  al_chain : chain_of g' s n;
  al_words : forall b, block_words (pool g') b =
    if decide (s <= b < s + n)%nat then replicate WORDS_PER_BLOCK 0%Z else block_words (pool g) b
}.

(** No tail follows a free block. *)
Lemma not_tail_after_free g b : heap_ok g -> (b < nb g)%nat -> kd g b = AT_FREE -> kd g (S b) <> AT_TAIL.
Proof.
  intros W Hb Hk Ht. destruct (decide (S b = nb g)) as [E|].
  - rewrite E in Ht. by apply (ok_gap _ W).
  - destruct (ok_chain _ W (S b) ltac:(lia) Ht) as (a & [= <-] & Hf). done.
Qed.

Lemma last_run_tail g s n : heap_ok g -> (0 < n)%nat -> (s + n <= nb g)%nat -> run g s n ->
  kd g (s + n) <> AT_TAIL.
Proof.
  intros W Hn Hb Hr. replace (s + n)%nat with (S (s + (n - 1))) by lia.
  apply not_tail_after_free; [done|lia|]. apply Hr. lia.
Qed.

Lemma alloc_found_ok g e n : gc_wf g -> (0 < n)%nat -> (e < nb g)%nat -> (n <= e + 1)%nat ->
  run g (e + 1 - n) n -> (n = 1%nat -> forall b, (b < e)%nat -> kd g b <> AT_FREE) ->
  exists g', alloc_found g e (Z.of_nat n) = Ret (PTR_FROM_BLOCK g (e + 1 - n), g') /\ allocated g (e + 1 - n) n g'.
Proof.
  intros W Hn He Hne Hr Hfirst. unfold alloc_found.
  replace (Z.to_nat (Z.of_nat e - Z.of_nat n + 1)) with (e + 1 - n)%nat by lia.
  set (s := (e + 1 - n)%nat) in *.
  set (g0 := if (Z.of_nat n =? 1)%Z then _ else g).
  assert (H0 : g0 = set_last_free g (if decide (n = 1%nat) then (e + 1) / 4 else gc_last_free_atb_index g)%nat).
  { unfold g0. destruct (Z.eqb_spec (Z.of_nat n) 1); case_decide; try lia; [done|by destruct g]. }
  clearbody g0. set (l := if decide (n = 1%nat) then _ else _) in *.
  assert (Hkd0 : forall b, kd g0 b = kd g b) by (intros; by rewrite H0).
  assert (Hnb0 : nb g0 = nb g) by (by rewrite H0).
  destruct (with_atb_upd _ _ _ g0 s free_to_head) as (g1 & -> & U).
  { rewrite H0. apply W. } { lia. }
  { right. rewrite Hkd0. specialize (Hr 0%nat Hn). by rewrite Nat.add_0_r in Hr. }
  cbn [obind]. replace (e - s)%nat with (n - 1)%nat by lia.
  destruct (mark_tails_ok (n - 1) (s + 1) g1) as (g2 & -> & R).
  { apply U. } { rewrite (upd_nb _ _ _ _ U). lia. }
  { intros i Hi. rewrite (upd_ne _ _ _ _ _ U), Hkd0 by lia.
    replace (s + 1 + i)%nat with (s + S i)%nat by lia. apply Hr. lia. }
  cbn [obind]. replace (n - 1 + 1)%nat with n by lia.
  assert (Hg2 : g2 = set_atb (set_last_free g l) (atb g2)).
  { rewrite (ru_rest _ _ _ _ _ R), (upd_rest _ _ _ _ U), H0. done. }
  assert (Hnb2 : nb g2 = nb g) by (rewrite (ru_nb _ _ _ _ _ R), (upd_nb _ _ _ _ U); done).
  assert (Hk2 : forall b, kd g2 b = if decide (b = s) then AT_HEAD
                              else if decide (s < b < s + n)%nat then AT_TAIL else kd g b).
  { intros b. rewrite (ru_kd _ _ _ _ _ R), (upd_kd _ _ _ _ U), Hkd0. repeat case_decide; try done; lia. }
  assert (Hpool : pool g2 = pool g) by (by rewrite Hg2).
  pose proof (ok_pool _ W) as Hlen. unfold WORDS_PER_BLOCK in Hlen.
  eexists. split; [f_equal; f_equal; rewrite Hg2; done|]. set (g' := set_pool g2 _).
  assert (Hkd' : forall b, kd g' b = kd g2 b) by done.
  assert (Hnb' : nb g' = nb g) by done.
  constructor; try done; try (unfold g'; simpl; rewrite Hg2; done); try lia.
  - constructor; [constructor| | |]; rewrite ?Hnb'.
    + apply R.
    + unfold g'; simpl. rewrite zero_words_length; rewrite Hpool; [apply W|].
      unfold WORDS_PER_BLOCK. lia.
    + rewrite Hkd', Hk2. rewrite !decide_False by lia. apply W.
    + unfold g'; simpl. rewrite Hg2. apply W.
    + unfold g'; simpl. rewrite Hg2. apply W.
    + intros b Hb. rewrite Hkd', Hk2. case_decide; [done|]. case_decide as Hin.
      * intros _. exists (b - 1)%nat. split; [lia|]. rewrite Hkd', Hk2.
        repeat case_decide; try done; lia.
      * intros Ht. destruct (ok_chain _ W b Hb Ht) as (a & -> & Ha). exists a. split; [done|].
        rewrite Hkd', Hk2. repeat case_decide; done.
    + intros b Hb. rewrite Hkd', Hk2. repeat case_decide; try done. by apply W.
    + assert (Hl : gc_last_free_atb_index g' = l) by (unfold g'; simpl; by rewrite Hg2).
      rewrite Hl. intros b Hb. rewrite Hkd', Hk2. repeat case_decide; try done.
      unfold l, BLOCKS_PER_ATB in Hb. case_decide as Hn1; [|by apply (wf_last _ W)].
      apply Hfirst; [done|]. pose proof (Nat.Div0.mul_div_le (e + 1) 4). lia.
    + change (bytes (atb g')) with (bytes (atb g2)).
      assert (length (bytes (atb g2)) = length (bytes (atb g))) as ->
        by (unfold nb, nblocks, BLOCKS_PER_ATB in Hnb2; lia).
      assert (Hl : gc_last_free_atb_index g' = l) by (unfold g'; simpl; by rewrite Hg2).
      rewrite Hl. unfold l. case_decide; [|apply W].
      unfold nb, nblocks, BLOCKS_PER_ATB in He. apply Nat.Div0.div_le_upper_bound. lia.
  - split; [done|]. split; [lia|]. split.
    + intros i Hi. rewrite Hkd', Hk2. rewrite decide_False, decide_True by lia. done.
    + rewrite Hkd', Hk2, !decide_False by lia. apply (last_run_tail g s n W); [done|lia|done].
  - intros b. unfold g'; simpl. rewrite zero_blocks by (rewrite Hpool; lia). by rewrite Hpool.
Qed.

Lemma blocks_of_bytes_val n : (0 <= n <= 2 ^ 32 - 16)%Z ->
  blocks_of_bytes n = ((n + 15) / 16)%Z /\ (wrap 32 (n + BYTES_PER_BLOCK - 1) / BYTES_PER_BLOCK = (n + 15) / 16)%Z.
Proof.
  intros Hn. unfold blocks_of_bytes, BYTES_PER_BLOCK.
  replace (n + 16 - 1)%Z with (n + 15)%Z by lia. rewrite wrap_small by lia. split; [|done].
  change (16 - 1)%Z with (Z.ones 4). rewrite <- Z.ldiff_land, Z.ldiff_ones_r by lia.
  rewrite Z.shiftl_mul_pow2, Z.shiftr_div_pow2 by lia. change (2 ^ 4)%Z with 16%Z.
  by rewrite Z.div_mul.
Qed.

Section Alloc.
Context (gc_stack_size : nat).

(** The heap [gc_alloc] searches last: [g] itself, or [g] after a collection. *)
Definition maybe_collected (g : gc_t) (r : roots_t) (g1 : gc_t) : Prop :=
  g1 = g \/ (gc_auto_collect_enabled g = true /\ collected g r g1).

Lemma gc_alloc_ok g r n_bytes : gc_wf g -> gc_lock_depth g = 0%Z -> (0 < n_bytes <= 2 ^ 32 - 16)%Z ->
  let n := Z.to_nat ((n_bytes + 15) / 16) in
  exists p g1 g', gc_alloc gc_stack_size g r n_bytes = Ret (p, g') /\ maybe_collected g r g1 /\
    ((exists s, p = PTR_FROM_BLOCK g1 s /\ p <> 0%Z /\ allocated g1 s n g') \/
     (p = 0%Z /\ g' = g1 /\ (forall s, (s + n <= nb g1)%nat -> ~ run g1 s n) /\
      (gc_auto_collect_enabled g = true -> collected g r g1))).
Proof.
  intros W Hl Hn n. unfold gc_alloc.
  destruct (blocks_of_bytes_val n_bytes ltac:(lia)) as [-> _].
  assert (Hn1 : (0 < (n_bytes + 15) / 16)%Z) by zdiv.
  rewrite (proj2 (Z.eqb_neq _ _)) by lia. rewrite Hl. cbn [Z.ltb Z.compare].
  rewrite <- (Z2Nat.id ((n_bytes + 15) / 16)) by lia. fold n.
  assert (Hfound : forall g1 e, gc_wf g1 -> (e < nb g1)%nat -> (n <= e + 1)%nat -> run g1 (e + 1 - n) n ->
     (n = 1%nat -> forall b, (b < e)%nat -> kd g1 b <> AT_FREE) ->
     exists p g', alloc_found g1 e (Z.of_nat n) = Ret (p, g') /\
       exists s, p = PTR_FROM_BLOCK g1 s /\ p <> 0%Z /\ allocated g1 s n g').
  { intros g1 e W1 He Hne Hr Hf. destruct (alloc_found_ok g1 e n W1 ltac:(lia) He Hne Hr Hf) as (g' & -> & A).
    eexists _, g'. split; [done|]. eexists. split; [done|]. split; [|done].
    apply VERIFY_PTR_PTR_FROM_BLOCK; [apply W1|lia]. }
  destruct (search_free_ok g n W ltac:(lia)) as [(e & -> & H1 & H2 & H3 & H4)|[-> H]]; cbn [obind].
  { destruct (Hfound g e W H1 H2 H3 H4) as (p & g' & -> & Hs). exists p, g, g'.
    split; [done|]. split; [by left|]. by left. }
  destruct (gc_auto_collect_enabled g) eqn:Ha; cbn [negb].
  2:{ exists 0%Z, g, g. split; [done|]. split; [by left|]. right. repeat split; try done; congruence. }
  destruct (gc_collect_ok gc_stack_size g r W) as (g1 & -> & C). cbn [obind].
  destruct (search_free_ok g1 n (co_wf _ _ _ C) ltac:(lia)) as [(e & -> & H1 & H2 & H3 & H4)|[-> H']]; cbn [obind].
  - destruct (Hfound g1 e (co_wf _ _ _ C) H1 H2 H3 H4) as (p & g' & -> & Hs). exists p, g1, g'.
    split; [done|]. split; [by right|]. by left.
  - exists 0%Z, g1, g1. split; [done|]. split; [by right|]. right. done.
Qed.

(** ** [gc_free] and [gc_nbytes] *)

(** Freeing a range that is a whole chain, or the end of one, keeps the invariant. *)
Lemma freed_wf g lo n g' : gc_wf g -> rupd g lo n AT_FREE g' -> (0 < n)%nat -> (lo + n <= nb g)%nat ->
  kd g (lo + n) <> AT_TAIL ->
  gc_wf (if (lo / BLOCKS_PER_ATB <? gc_last_free_atb_index g')%nat
         then set_last_free g' (lo / BLOCKS_PER_ATB) else g').
Proof.
  intros W R Hn Hb Hend. pose proof (ru_rest _ _ _ _ _ R) as Hr. pose proof (ru_nb _ _ _ _ _ R) as Hnb.
  set (g2 := if _ : bool then _ else _).
  assert (Hk : forall b, kd g2 b = kd g' b) by (intros; unfold g2; by destruct (_ <? _)%nat).
  assert (Hn2 : nb g2 = nb g') by (unfold g2; by destruct (_ <? _)%nat).
  assert (Hat : atb g2 = atb g') by (unfold g2; by destruct (_ <? _)%nat).
  assert (Hp : pool g2 = pool g) by (unfold g2; destruct (_ <? _)%nat; by rewrite Hr).
  assert (Hs : gc_pool_start g2 = gc_pool_start g) by (unfold g2; destruct (_ <? _)%nat; by rewrite Hr).
  assert (Hlast : (gc_last_free_atb_index g2 <= gc_last_free_atb_index g /\
    gc_last_free_atb_index g2 <= lo / BLOCKS_PER_ATB)%nat).
  { unfold g2. assert (gc_last_free_atb_index g' = gc_last_free_atb_index g) as E by (by rewrite Hr).
    rewrite E. destruct (Nat.ltb_spec (lo / BLOCKS_PER_ATB) (gc_last_free_atb_index g)); simpl; lia. }
  constructor; [constructor| | |]; rewrite ?Hn2, ?Hnb, ?Hp, ?Hs, ?Hat; try apply W.
  - apply R.
  - rewrite Hk, (rupd_out _ _ _ _ _ _ R) by lia. apply W.
  - intros b Hb'. rewrite Hk, (ru_kd _ _ _ _ _ R). case_decide; [done|]. intros Ht.
    destruct (ok_chain _ W b Hb' Ht) as (a & -> & Ha). exists a. split; [done|].
    rewrite Hk, (rupd_out _ _ _ _ _ _ R); [done|]. intros Hin.
    apply Hend. replace (lo + n)%nat with (S a) by lia. done.
  - intros b Hb'. rewrite Hk, (ru_kd _ _ _ _ _ R). case_decide; [done|]. by apply W.
  - intros b Hb'. unfold BLOCKS_PER_ATB in *. rewrite Hk, (rupd_out _ _ _ _ _ _ R).
    + apply (wf_last _ W). unfold BLOCKS_PER_ATB. lia.
    + pose proof (Nat.Div0.mul_div_le lo 4). lia.
  - pose proof (wf_last_le _ W). 
    assert (length (bytes (atb g')) = length (bytes (atb g))) as ->
      by (unfold nb, nblocks, BLOCKS_PER_ATB in Hnb; lia). lia.
Qed.

(** [g'] is [g] with the [n] blocks of the chain at [b] freed. *)
Record freed (g : gc_t) (b n : nat) (g' : gc_t) : Prop := {
  fr_wf : gc_wf g';
  fr_nb : nb g' = nb g;
  fr_pool : pool g' = pool g;
  fr_start : gc_pool_start g' = gc_pool_start g;
  fr_lock : gc_lock_depth g' = gc_lock_depth g;
  fr_kd : forall b', kd g' b' = if decide (b <= b' < b + n)%nat then AT_FREE else kd g b'
}.

Lemma gc_free_ok g b n : gc_wf g -> gc_lock_depth g = 0%Z -> (b < nb g)%nat -> kd g b = AT_HEAD ->
  chain_of g b n -> exists g', gc_free g (PTR_FROM_BLOCK g b) = Ret g' /\ freed g b n g'.
Proof.
  intros W Hl Hb Hk Hc. unfold gc_free. rewrite Hl. cbn [Z.ltb Z.compare].
  destruct (VERIFY_PTR_PTR_FROM_BLOCK g b (wf_ok _ W) Hb) as (Hv & Hbl & Hp).
  rewrite (proj2 (Z.eqb_neq _ _) Hp), Hv, Hbl. cbn [negb].
  rewrite get_kd by lia. cbn [obind]. rewrite Hk. cbn [negb Z.eqb Pos.eqb AT_HEAD].
  set (g0 := if _ : bool then _ else g).
  assert (Hk0 : forall b, kd g0 b = kd g b) by (intros; unfold g0; by destruct (_ <? _)%nat).
  assert (Ha0 : atb g0 = atb g) by (unfold g0; by destruct (_ <? _)%nat).
  destruct Hc as (Hn & Hbn & Ht & Hend).
  destruct (free_chain_ok (S (nblocks (atb g0))) n b g0) as (g' & He & R).
  { rewrite Ha0. apply W. } { rewrite Ha0. fold (nb g). lia. } { unfold nb. rewrite Ha0. done. }
  { intros i Hi. rewrite Hk0. auto. } { by rewrite Hk0. }
  exists g'. split; [done|].
  (* the index is lowered before the blocks are freed *)
  assert (R' : rupd g b n AT_FREE (set_last_free g' (gc_last_free_atb_index g))).
  { constructor.
    - rewrite (ru_rest _ _ _ _ _ R). unfold g0. destruct (_ <? _)%nat; by destruct g.
    - apply R.
    - unfold nb. simpl. pose proof (ru_nb _ _ _ _ _ R) as E. unfold nb in E. by rewrite Ha0 in E.
    - intros b'. etransitivity; [apply (ru_kd _ _ _ _ _ R)|]. by rewrite Hk0. }
  pose proof (freed_wf g b n _ W R' Hn Hbn Hend) as W'. cbn [gc_last_free_atb_index set_last_free] in W'.
  assert (Hg' : (if (b / BLOCKS_PER_ATB <? gc_last_free_atb_index g)%nat
          then set_last_free (set_last_free g' (gc_last_free_atb_index g)) (b / BLOCKS_PER_ATB)
          else set_last_free g' (gc_last_free_atb_index g)) = g').
  { rewrite (ru_rest _ _ _ _ _ R). unfold g0. destruct (_ <? _)%nat; by destruct g. }
  rewrite Hg' in W'. constructor; [done| | | | |].
  - apply R'.
  - rewrite (ru_rest _ _ _ _ _ R). unfold g0. by destruct (_ <? _)%nat.
  - rewrite (ru_rest _ _ _ _ _ R). unfold g0. by destruct (_ <? _)%nat.
  - rewrite (ru_rest _ _ _ _ _ R). unfold g0. by destruct (_ <? _)%nat.
  - apply R'.
Qed.

Lemma gc_nbytes_ok g b n : heap_ok g -> (b < nb g)%nat -> kd g b = AT_HEAD -> chain_of g b n ->
  gc_nbytes g (PTR_FROM_BLOCK g b) = Ret (Z.of_nat n * BYTES_PER_BLOCK)%Z.
Proof.
  intros W Hb Hk Hc. unfold gc_nbytes.
  destruct (VERIFY_PTR_PTR_FROM_BLOCK g b W Hb) as (-> & -> & _).
  rewrite get_kd by lia. cbn [obind]. rewrite Hk. cbn [Z.eqb Pos.eqb AT_HEAD].
  destruct (chain_len_ok g b W Hb) as (m & -> & Hm). cbn [obind].
  by rewrite (chain_unique _ _ _ _ Hm Hc).
Qed.

(** ** [gc_realloc] *)

(** The free blocks of a run end at [bl]: there the heap ends, or the block is in use. *)
Definition run_ends g (bl : nat) : Prop := bl = nb g \/ kd g bl <> AT_FREE.

(** The scan counts the chain, then free blocks until there are enough or the run ends. *)
Lemma realloc_scan_free m g bl n f new : heap_ok g -> (bl + m = nb g)%nat ->
  (0 < f)%Z -> (n + f < new)%Z -> (f <= Z.of_nat bl)%Z -> run g (bl - Z.to_nat f) (Z.to_nat f) ->
  exists f', realloc_scan m bl g n f new = Ret (n, f') /\ (f <= f')%Z /\
    (Z.of_nat bl + (f' - f) <= Z.of_nat (nb g))%Z /\ run g (bl - Z.to_nat f) (Z.to_nat f') /\
    ((n + f' < new)%Z -> run_ends g (bl + Z.to_nat (f' - f))).
Proof.
  intros W. revert bl f. induction m as [|m IH]; intros bl f Hm Hf Hnew Hbl Hr.
  { exists f. do 3 (split; [done || lia|]). split; [done|]. intros _. left. lia. }
  cbn [realloc_scan]. rewrite get_kd by lia. cbn [obind].
  assert (Hnt : kd g bl <> AT_TAIL).
  { replace bl with (S (bl - 1)) by lia. apply not_tail_after_free; [done|lia|].
    replace (bl - 1)%nat with (bl - Z.to_nat f + (Z.to_nat f - 1))%nat by lia. apply Hr. lia. }
  rewrite (proj2 (Z.eqb_neq _ _) Hnt).
  destruct (Z.eqb_spec (kd g bl) AT_FREE) as [Hk|Hk].
  2:{ exists f. do 3 (split; [done || lia|]). split; [done|]. intros _. right. by rewrite Z.sub_diag, Nat.add_0_r. }
  assert (Hr' : run g (bl - Z.to_nat f) (Z.to_nat (f + 1))).
  { intros i Hi. destruct (decide (i < Z.to_nat f)%nat); [by apply Hr|].
    by replace (bl - Z.to_nat f + i)%nat with bl by lia. }
  destruct (Z.leb_spec new (n + (f + 1))).
  { exists (f + 1)%Z. do 3 (split; [done || lia|]). split; [done|lia]. }
  destruct (IH (S bl) (f + 1)%Z) as (f' & He & H1 & H2 & H3 & H4); try lia.
  { by replace (S bl - Z.to_nat (f + 1))%nat with (bl - Z.to_nat f)%nat by lia. }
  exists f'. do 3 (split; [done || lia|]). split.
  - by replace (S bl - Z.to_nat (f + 1))%nat with (bl - Z.to_nat f)%nat in H3 by lia.
  - intros Hlt. by replace (bl + Z.to_nat (f' - f))%nat with (S bl + Z.to_nat (f' - (f + 1)))%nat by lia; apply H4.
Qed.

Lemma realloc_scan_ok m g b n k new : heap_ok g -> chain_of g b n -> (0 < k <= n)%nat ->
  (b + k + m = nb g)%nat ->
  exists f, realloc_scan m (b + k) g (Z.of_nat k) 0 new = Ret (Z.of_nat n, f) /\ (0 <= f)%Z /\
    (Z.of_nat (b + n) + f <= Z.of_nat (nb g))%Z /\ run g (b + n) (Z.to_nat f) /\
    ((Z.of_nat n + f < new)%Z -> run_ends g (b + n + Z.to_nat f)).
Proof.
  intros W Hc. pose proof Hc as (Hn & Hbn & Ht & Hend). revert k.
  induction m as [|m IH]; intros k Hk Hm.
  { assert (k = n) as -> by lia. exists 0%Z. do 3 (split; [done || lia|]). split; [intros i Hi; simpl in Hi; lia|].
    intros _. left. simpl. lia. }
  cbn [realloc_scan]. rewrite get_kd by lia. cbn [obind].
  destruct (decide (k = n)) as [->|Hkn].
  - rewrite (proj2 (Z.eqb_neq _ _) Hend). destruct (Z.eqb_spec (kd g (b + n)) AT_FREE) as [Hf|Hf].
    2:{ exists 0%Z. do 3 (split; [done || lia|]). split; [intros i Hi; simpl in Hi; lia|].
        intros _. right. simpl. by rewrite Nat.add_0_r. }
    assert (Hr : run g (b + n) 1).
    { intros i Hi. by replace (b + n + i)%nat with (b + n)%nat by lia. }
    destruct (Z.leb_spec new (Z.of_nat n + (0 + 1))).
    { exists 1%Z. do 3 (split; [done || lia|]). split; [done|lia]. }
    destruct (realloc_scan_free m g (S (b + n)) (Z.of_nat n) 1 new W) as (f' & He & H1 & H2 & H3 & H4); try lia.
    { by replace (S (b + n) - Z.to_nat 1)%nat with (b + n)%nat by lia. }
    exists f'. do 3 (split; [done || lia|]). split.
    + by replace (S (b + n) - Z.to_nat 1)%nat with (b + n)%nat in H3 by lia.
    + intros Hlt. replace (b + n + Z.to_nat f')%nat with (S (b + n) + Z.to_nat (f' - 1))%nat by lia. by apply H4.
  - rewrite (Ht k) by lia. cbn [Z.eqb Pos.eqb AT_TAIL].
    destruct (IH (S k)) as (f & He & H); try lia. exists f. split; [|done].
    rewrite <- He. f_equal; lia.
Qed.

(** [g'] is [g] with the chain at [b] cut from [n] to [m] blocks or grown in place from [n] to
    [m] blocks; the blocks it keeps hold what they held and the new ones are zeroed. *)
Record resized (g : gc_t) (b n m : nat) (g' : gc_t) : Prop := {
  rz_wf : gc_wf g';
  rz_nb : nb g' = nb g;
  rz_kd : forall b', kd g' b' =
    if decide (b + n <= b' < b + m)%nat then AT_TAIL
    else if decide (b + m <= b' < b + n)%nat then AT_FREE else kd g b';
  rz_words : forall b', block_words (pool g') b' =
    if decide (b + n <= b' < b + m)%nat then replicate WORDS_PER_BLOCK 0%Z else block_words (pool g) b'
}.

Lemma shrink_ok g b n m : gc_wf g -> chain_of g b n -> (0 < m < n)%nat -> kd g b = AT_HEAD ->
  exists g', free_blocks (n - m) (b + m) g = Ret g' /\
    resized g b n m (if ((b + m) / BLOCKS_PER_ATB <? gc_last_free_atb_index g')%nat
                     then set_last_free g' ((b + m) / BLOCKS_PER_ATB) else g').
Proof.
  intros W (Hn & Hbn & Ht & Hend) Hm Hk.
  destruct (free_blocks_ok (n - m) (b + m) g) as (g' & He & R); [apply W|lia|].
  exists g'. split; [done|].
  assert (Hend' : kd g (b + m + (n - m)) <> AT_TAIL) by (by replace (b + m + (n - m))%nat with (b + n)%nat by lia).
  pose proof (freed_wf g (b + m) (n - m) g' W R ltac:(lia) ltac:(lia) Hend') as W'.
  assert (Hpool : pool g' = pool g) by (by rewrite (ru_rest _ _ _ _ _ R)).
  constructor; [done| | |].
  - destruct (_ <? _)%nat; apply (ru_nb _ _ _ _ _ R).
  - intros b'. transitivity (kd g' b'); [by destruct (_ <? _)%nat|].
    rewrite (ru_kd _ _ _ _ _ R). rewrite (decide_False (P := (b + n <= b' < b + m)%nat)) by lia.
    repeat case_decide; try done; lia.
  - intros b'. rewrite decide_False by lia. destruct (_ <? _)%nat; simpl; by rewrite Hpool.
Qed.

Lemma grow_ok g b n m : gc_wf g -> chain_of g b n -> (n < m)%nat -> (b + m <= nb g)%nat ->
  kd g b = AT_HEAD -> run g (b + n) (m - n) ->
  exists g', grow_tails (m - n) (b + n) g = Ret g' /\
    resized g b n m (set_pool g' (zero_words (pool g') ((b + n) * WORDS_PER_BLOCK) ((m - n) * WORDS_PER_BLOCK))).
Proof.
  intros W (Hn & Hbn & Ht & Hend) Hm Hb Hk Hr.
  destruct (grow_tails_ok (m - n) (b + n) g) as (g' & He & R); [apply W|lia|done|].
  exists g'. split; [done|]. pose proof (ru_rest _ _ _ _ _ R) as Hrest.
  assert (Hpool : pool g' = pool g) by (by rewrite Hrest).
  pose proof (ok_pool _ W) as Hlen. unfold WORDS_PER_BLOCK in Hlen.
  set (g2 := set_pool g' _).
  assert (Hk2 : forall b', kd g2 b' = kd g' b') by done.
  assert (Hn2 : nb g2 = nb g) by (rewrite <- (ru_nb _ _ _ _ _ R); done).
  assert (Hl2 : gc_last_free_atb_index g2 = gc_last_free_atb_index g) by (unfold g2; by rewrite Hrest).
  constructor; try done.
  - constructor; [constructor| | |]; rewrite ?Hn2, ?Hl2.
    + apply R.
    + unfold g2; simpl. rewrite zero_words_length; rewrite Hpool; [apply W|]. unfold WORDS_PER_BLOCK. lia.
    + rewrite Hk2, (rupd_out _ _ _ _ _ _ R) by lia. apply W.
    + unfold g2; simpl. rewrite Hrest. apply W.
    + unfold g2; simpl. rewrite Hrest. apply W.
    + intros b' Hb'. rewrite Hk2, (ru_kd _ _ _ _ _ R). case_decide as Hin.
      * intros _. exists (b' - 1)%nat. split; [lia|]. rewrite Hk2, (ru_kd _ _ _ _ _ R).
        case_decide; [done|]. replace (b' - 1)%nat with (b + (n - 1))%nat by lia.
        destruct (decide (n = 1)%nat) as [->|]; [rewrite Nat.add_0_r, Hk; done|rewrite Ht by lia; done].
      * intros Htl. destruct (ok_chain _ W b' Hb' Htl) as (a & -> & Ha). exists a. split; [done|].
        rewrite Hk2, (ru_kd _ _ _ _ _ R). by case_decide.
    + intros b' Hb'. rewrite Hk2, (ru_kd _ _ _ _ _ R). case_decide; [done|]. by apply W.
    + intros b' Hb'. rewrite Hk2, (ru_kd _ _ _ _ _ R). case_decide; [done|]. by apply (wf_last _ W).
    + pose proof (wf_last_le _ W). change (bytes (atb g2)) with (bytes (atb g')).
      unfold nb, nblocks, BLOCKS_PER_ATB in Hn2. change (bytes (atb g2)) with (bytes (atb g')) in Hn2. lia.
  - intros b'. rewrite Hk2, (ru_kd _ _ _ _ _ R).
    rewrite (decide_False (P := (b + m <= b' < b + n)%nat)) by lia.
    repeat case_decide; try done; lia.
  - intros b'. unfold g2; simpl. rewrite zero_blocks by (rewrite Hpool; lia). rewrite Hpool.
    repeat case_decide; try done; lia.
Qed.

End Alloc.
