(* ===== verification/GcSpec.v ===== *)
(** * What the garbage-collected heap promises

    The properties of [gc_collect], [gc_alloc], [gc_free] and [gc_realloc], with the abstract
    reading of each result ([collected], [allocated], [freed], [resized]) taken from the files
    that prove them, and the behaviour of [gc_realloc] on sizes within 15 bytes of [2^32]. *)

From S2P Require Import Prelude GcTable Gc GcHeap GcMark GcCollect GcAlloc.
From stdpp Require Import sets list_numbers.

(** An executable check of the heap invariant, for concrete heaps. *)
Definition gc_wfb (g : gc_t) : bool :=
  forallb (fun a => (0 <=? a)%Z && (a <? 256)%Z) (bytes (atb g)) &&
  (length (pool g) =? nb g * WORDS_PER_BLOCK)%nat && negb (kd g (nb g) =? AT_TAIL)%Z &&
  (0 <? gc_pool_start g)%Z && (gc_pool_start g mod BYTES_PER_BLOCK =? 0)%Z &&
  forallb (fun b => implb (kd g b =? AT_TAIL)%Z
     (match b with O => false | S a => negb (kd g a =? AT_FREE)%Z end)) (seq 0 (nb g)) &&
  forallb (fun b => negb (kd g b =? AT_MARK)%Z) (seq 0 (nb g)) &&
  forallb (fun b => negb (kd g b =? AT_FREE)%Z) (seq 0 (BLOCKS_PER_ATB * gc_last_free_atb_index g)) &&
  (gc_last_free_atb_index g <=? length (bytes (atb g)))%nat.

Lemma gc_wfb_sound g : gc_wfb g = true -> gc_wf g.
Proof.
  unfold gc_wfb. rewrite !andb_true_iff, !forallb_forall, !Nat.eqb_eq, Nat.leb_le, !Z.ltb_lt, !Z.eqb_eq.
  intros ((((((((H1 & H2) & H3) & H4) & H5) & H6) & H7) & H8) & H9).
  assert (Hin : forall b n, (b < n)%nat -> In b (seq 0 n)) by (intros; apply in_seq; lia).
  constructor; [constructor| | |]; try done.
  - apply Forall_forall. intros a Ha%list_elem_of_In. specialize (H1 a Ha).
    rewrite andb_true_iff, Z.leb_le, Z.ltb_lt in H1. done.
  - by apply negb_true_iff, Z.eqb_neq in H3.
  - intros b Hb Hk. specialize (H6 b (Hin _ _ Hb)). rewrite Hk in H6. destruct b as [|a]; [done|].
    exists a. split; [done|]. simpl in H6. by apply negb_true_iff, Z.eqb_neq in H6.
  - intros b Hb. specialize (H7 b (Hin _ _ Hb)). by apply negb_true_iff, Z.eqb_neq in H7.
  - intros b Hb. specialize (H8 b (Hin _ _ Hb)). by apply negb_true_iff, Z.eqb_neq in H8.
Qed.

(** A heap of eight blocks at address 1600: a chain of two blocks at block 0 that points to
    block 3, block 2 in use and unreferenced, block 3 in use, blocks 4 to 7 free. *)
Definition sample_heap : gc_t :=
  mk_gc (mk_atb [Z.lor 1 (Z.lor (Z.shiftl 2 2) (Z.lor (Z.shiftl 1 4) (Z.shiftl 1 6))); 0%Z] 0)
    ([7; 8; 9; 1648; 0; 0; 0; 0; 1; 2; 3; 4; 5; 6; 7; 8]%Z ++ replicate 16 0%Z) 1600 0 false 0 true.

Definition sample_roots : roots_t := mk_roots [0; 1600]%Z [] [].

Lemma sample_heap_wf : gc_wf sample_heap.
Proof. apply gc_wfb_sound. vm_compute. reflexivity. Defined.

(** C1. [gc_collect] terminates, for any depth of the mark stack and however often it overflows, without
    leaving the heap, and is an exact collector: a chain whose head is reachable from the roots keeps all its
    blocks, every other chain becomes free, free blocks stay free, the contents of the
    pool are not touched, no mark survives and the invariant holds again. *)
Theorem gc_collect_exact gc_stack_size g r : gc_wf g ->
  exists g', gc_collect gc_stack_size g r = Ret g' /\ gc_wf g' /\ pool g' = pool g /\
    gc_lock_depth g' = gc_lock_depth g /\ gc_last_free_atb_index g' = 0%nat /\
    (forall b, (b < nb g)%nat -> kd g b = AT_FREE -> kd g' b = AT_FREE) /\
    (forall b h, (b < nb g)%nat -> owner g b h -> reachable g r h -> kd g' b = kd g b) /\
    (forall b h, (b < nb g)%nat -> owner g b h -> ~ reachable g r h -> kd g' b = AT_FREE).
Proof.
  intros W. destruct (gc_collect_ok gc_stack_size g r W) as (g' & He & []). exists g'.
  repeat (split; [done|]). done.
Qed.

Lemma gc_collect_exact_witness :
  (exists g', gc_collect 0 sample_heap sample_roots = Ret g' /\
     map (kd g') (seq 0 8) = [AT_HEAD; AT_TAIL; AT_FREE; AT_HEAD; AT_FREE; AT_FREE; AT_FREE; AT_FREE]) /\
  exists g', gc_collect 0 sample_heap sample_roots = Ret g' /\ gc_wf g' /\ pool g' = pool sample_heap /\
    gc_lock_depth g' = 0%Z /\ gc_last_free_atb_index g' = 0%nat /\
    (forall b, (b < nb sample_heap)%nat -> kd sample_heap b = AT_FREE -> kd g' b = AT_FREE) /\
    (forall b h, (b < nb sample_heap)%nat -> owner sample_heap b h ->
       reachable sample_heap sample_roots h -> kd g' b = kd sample_heap b) /\
    (forall b h, (b < nb sample_heap)%nat -> owner sample_heap b h ->
       ~ reachable sample_heap sample_roots h -> kd g' b = AT_FREE).
Proof.
  split; [eexists; vm_compute; split; reflexivity|].
  apply (gc_collect_exact 0 sample_heap sample_roots). exact sample_heap_wf.
Defined.

(** C20. An unlocked [gc_alloc] of a positive size below [2^32 - 15] terminates.  Either it returns a pointer to
    a chain of exactly the blocks needed, all free before, zeroed and headed by that pointer,
    with every other block and its contents untouched; or it returns null, and then, even after a
    collection when automatic collection is enabled, the heap has no run of free blocks that is long enough. *)
Theorem gc_alloc_spec gc_stack_size g r n_bytes :
  gc_wf g -> gc_lock_depth g = 0%Z -> (0 < n_bytes <= 2 ^ 32 - 16)%Z ->
  let n := Z.to_nat ((n_bytes + 15) / 16) in
  exists p g1 g', gc_alloc gc_stack_size g r n_bytes = Ret (p, g') /\ maybe_collected g r g1 /\
    ((exists s, p = PTR_FROM_BLOCK g1 s /\ p <> 0%Z /\ allocated g1 s n g') \/
     (p = 0%Z /\ g' = g1 /\ (forall s, (s + n <= nb g1)%nat -> ~ run g1 s n) /\
      (gc_auto_collect_enabled g = true -> collected g r g1))).
Proof. apply gc_alloc_ok. Qed.

Lemma gc_alloc_spec_witness :
  gc_alloc 4 sample_heap sample_roots 20 =
    Ret (1664%Z, set_pool (set_atb sample_heap (mk_atb [89; 9]%Z 0)) (pool sample_heap)) /\
  exists p g1 g', gc_alloc 4 sample_heap sample_roots 20 = Ret (p, g') /\ maybe_collected sample_heap sample_roots g1 /\
    ((exists s, p = PTR_FROM_BLOCK g1 s /\ p <> 0%Z /\ allocated g1 s 2 g') \/
     (p = 0%Z /\ g' = g1 /\ (forall s, (s + 2 <= nb g1)%nat -> ~ run g1 s 2) /\
      (true = true -> collected sample_heap sample_roots g1))).
Proof.
  split; [vm_compute; reflexivity|].
  apply (gc_alloc_spec 4 sample_heap sample_roots 20 sample_heap_wf eq_refl). lia.
Defined.

(** [gc_free] of the pointer to a chain of [n] blocks frees those [n] blocks and no others and keeps the
    invariant, so that a search for free blocks starts at or before them; [gc_nbytes] of the pointer
    is the size of the chain in bytes. *)
Theorem gc_free_spec g b n : gc_wf g -> gc_lock_depth g = 0%Z -> (b < nb g)%nat -> kd g b = AT_HEAD ->
  chain_of g b n ->
  gc_nbytes g (PTR_FROM_BLOCK g b) = Ret (Z.of_nat n * BYTES_PER_BLOCK)%Z /\
  exists g', gc_free g (PTR_FROM_BLOCK g b) = Ret g' /\ gc_wf g' /\ pool g' = pool g /\
    (gc_last_free_atb_index g' <= b / BLOCKS_PER_ATB)%nat /\
    forall b', kd g' b' = if decide (b <= b' < b + n)%nat then AT_FREE else kd g b'.
Proof.
  intros W Hl Hb Hk Hc. split; [by apply gc_nbytes_ok; [apply W|..]|].
  destruct (gc_free_ok g b n W Hl Hb Hk Hc) as (g' & He & [F1 F2 F3 F4 F5 F6]). exists g'.
  do 3 (split; [done|]). split; [|done]. apply Nat.div_le_lower_bound; [done|].
  destruct (Nat.le_gt_cases (BLOCKS_PER_ATB * gc_last_free_atb_index g') b) as [|Hlt]; [done|].
  destruct (wf_last _ F1 b Hlt). rewrite F6, decide_True; [done|]. destruct Hc. lia.
Qed.

Lemma gc_free_spec_witness :
  gc_nbytes sample_heap 1600 = Ret 32%Z /\ exists g', gc_free sample_heap 1600 = Ret g' /\ gc_wf g' /\
    pool g' = pool sample_heap /\ (gc_last_free_atb_index g' <= 0)%nat /\
    forall b', kd g' b' = if decide (0 <= b' < 2)%nat then AT_FREE else kd sample_heap b'.
Proof.
  apply (gc_free_spec sample_heap 0 2 sample_heap_wf); [reflexivity|vm_compute; lia|reflexivity|].
  split; [lia|]. split; [vm_compute; lia|]. split; [|vm_compute; congruence].
  intros i Hi. assert (i = 1%nat) as -> by lia. reflexivity.
Defined.

(** ** [gc_realloc] *)

(** A live chain survives a collection. *)
Lemma live_chain g r g1 b n : gc_wf g -> collected g r g1 -> (b < nb g)%nat -> kd g b = AT_HEAD ->
  reachable g r b -> chain_of g b n -> kd g1 b = AT_HEAD /\ chain_of g1 b n.
Proof.
  intros W C Hb Hk Hr (Hn & Hbn & Ht & Hend).
  assert (Hown : forall i, (i < n)%nat -> owner g (b + i) b).
  { intros i Hi. split; [lia|]. split; [by left|]. intros j Hj.
    replace j with (b + (j - b))%nat by lia. apply Ht. lia. }
  assert (Hsame : forall i, (i < n)%nat -> kd g1 (b + i) = kd g (b + i)).
  { intros i Hi. apply (co_live _ _ _ C _ b); [lia|by apply Hown|done]. }
  split; [rewrite <- (Nat.add_0_r b), Hsame, Nat.add_0_r by lia; done|].
  split; [done|]. split; [by rewrite (co_nb _ _ _ C)|]. split.
  - intros i Hi. rewrite Hsame by lia. by apply Ht.
  - destruct (decide (b + n = nb g)%nat) as [E|].
    + rewrite E, <- (co_nb _ _ _ C). apply (ok_gap _ (co_wf _ _ _ C)).
    + destruct (co_kd _ _ _ C (b + n)) as [->| ->]; [lia|done|done].
Qed.

(** Moving a chain: the new chain [s] of [m] blocks, the copy, and the release of the old one. *)
Lemma move_ok g1 g2 b n s m : gc_wf g1 -> (b < nb g1)%nat -> kd g1 b = AT_HEAD -> chain_of g1 b n ->
  (n < m)%nat -> gc_lock_depth g1 = 0%Z -> allocated g1 s m g2 ->
  exists g', gc_free (set_pool g2 (copy_words (pool g2) (s * WORDS_PER_BLOCK) (b * WORDS_PER_BLOCK)
                                     (n * WORDS_PER_BLOCK))) (PTR_FROM_BLOCK g1 b) = Ret g' /\
    gc_wf g' /\ chain_of g' s m /\ kd g' s = AT_HEAD /\
    (forall i, (i < n)%nat -> block_words (pool g') (s + i) = block_words (pool g1) (b + i) /\
                              kd g' (b + i) = AT_FREE) /\
    forall b', ~ (s <= b' < s + m)%nat -> ~ (b <= b' < b + n)%nat ->
      kd g' b' = kd g1 b' /\ block_words (pool g') b' = block_words (pool g1) b'.
Proof.
  intros W Hb Hk Hc Hnm Hl A. destruct Hc as (Hn & Hbn & Ht & Hend).
  assert (Hused : forall i, (i < n)%nat -> kd g1 (b + i) <> AT_FREE).
  { intros i Hi. destruct i; [rewrite Nat.add_0_r, Hk; done|rewrite Ht by lia; done]. }
  assert (Hdisj : (s + m <= b \/ b + n <= s)%nat).
  { destruct (decide (s + m <= b)%nat); [by left|]. destruct (decide (b + n <= s)%nat); [by right|].
    exfalso. destruct (decide (s <= b)%nat).
    - apply (Hused 0%nat Hn). rewrite Nat.add_0_r. replace b with (s + (b - s))%nat by lia.
      apply (al_free _ _ _ _ A). lia.
    - apply (Hused (s - b)%nat); [lia|]. replace (b + (s - b))%nat with (s + 0)%nat by lia.
      apply (al_free _ _ _ _ A). lia. }
  pose proof (al_bound _ _ _ _ A) as Hsm. pose proof (ok_pool _ (al_wf _ _ _ _ A)) as Hlen.
  rewrite (al_nb _ _ _ _ A) in Hlen. unfold WORDS_PER_BLOCK in Hlen.
  set (g3 := set_pool g2 _).
  assert (Hp3 : forall b', block_words (pool g3) b' = if decide (s <= b' < s + n)%nat
     then block_words (pool g2) (b + (b' - s)) else block_words (pool g2) b').
  { intros b'. unfold g3; simpl. apply copy_blocks; lia. }
  assert (W3 : gc_wf g3).
  { pose proof (al_wf _ _ _ _ A) as [[] ? ? ?]. constructor; [constructor|..]; try done.
    unfold g3; simpl. rewrite copy_words_length; unfold WORDS_PER_BLOCK in *; try lia.
    rewrite Hlen, <- (al_nb _ _ _ _ A). done. }
  assert (Hkd3 : forall i, (i <= n)%nat -> kd g3 (b + i) = kd g1 (b + i) \/ (i = n /\ kd g3 (b + i) = AT_HEAD)).
  { intros i Hi. change (kd g3 (b + i)) with (kd g2 (b + i)). rewrite (al_kd _ _ _ _ A).
    case_decide; [right; split; [lia|done]|left]. by rewrite decide_False by lia. }
  assert (Hptr : PTR_FROM_BLOCK g1 b = PTR_FROM_BLOCK g3 b).
  { unfold PTR_FROM_BLOCK. f_equal. symmetry. apply (al_start _ _ _ _ A). }
  rewrite Hptr. assert (Hnb3 : nb g3 = nb g1) by apply (al_nb _ _ _ _ A).
  destruct (gc_free_ok g3 b n W3) as (g' & -> & F).
  { transitivity (gc_lock_depth g1); [apply (al_lock _ _ _ _ A)|done]. } { lia. }
  { destruct (Hkd3 0%nat ltac:(lia)) as [E|[]]; [|lia]. rewrite Nat.add_0_r in E. congruence. }
  { split; [done|]. split; [lia|]. split.
    - intros i Hi. destruct (Hkd3 i ltac:(lia)) as [->|[]]; [by apply Ht|lia].
    - destruct (Hkd3 n ltac:(lia)) as [->|[_ ->]]; done. }
  exists g'. split; [done|]. destruct F as [F1 F2 F3 F4 F5 F6].
  assert (Hk' : forall b', ~ (b <= b' < b + n)%nat -> kd g' b' = kd g2 b').
  { intros b' Hb'. rewrite F6, decide_False by done. done. }
  destruct (al_chain _ _ _ _ A) as (C1 & C2 & C3 & C4).
  split; [done|]. split; [split; [done|split; [rewrite F2; exact C2|split]]|split; [|split]].
  - intros i Hi. rewrite Hk' by lia. by apply C3.
  - rewrite F6. case_decide; [done|]. exact C4.
  - rewrite Hk' by lia. rewrite (al_kd _ _ _ _ A). by rewrite decide_True.
  - intros i Hi. split.
    + rewrite F3, Hp3, decide_True by lia. rewrite (al_words _ _ _ _ A), decide_False by lia. f_equal. lia.
    + rewrite F6, decide_True by lia. done.
  - intros b' H1 H2. rewrite Hk' by done. rewrite F3, Hp3, decide_False by lia.
    rewrite (al_kd _ _ _ _ A), (al_words _ _ _ _ A). rewrite !decide_False by lia. done.
Qed.

(** The chain [b] of [n] blocks can have [m] blocks where it is: it is long enough, or the blocks behind it are free. *)
Definition fits_in_place (g : gc_t) (b n m : nat) : Prop :=
  (m <= n)%nat \/ ((b + m <= nb g)%nat /\ run g (b + n) (m - n)).

(** What [gc_realloc] of the chain [b] of [n] blocks to [m] blocks may return. *)
Definition realloc_post (g : gc_t) (r : roots_t) (b n m : nat) (allow_move : bool) (p : Z) (g' : gc_t) : Prop :=
  (* resized in place *)
  (fits_in_place g b n m /\ p = PTR_FROM_BLOCK g b /\ resized g b n m g') \/
  (* refused, the chain is still there *)
  (~ fits_in_place g b n m /\ p = 0%Z /\ gc_wf g' /\ kd g' b = AT_HEAD /\ chain_of g' b n /\ pool g' = pool g /\
   if allow_move
   then maybe_collected g r g' /\ (forall s, (s + m <= nb g')%nat -> ~ run g' s m) /\
        (gc_auto_collect_enabled g = true -> collected g r g')
   else g' = g) \/
  (* moved *)
  (~ fits_in_place g b n m /\ allow_move = true /\ exists s g1, p = PTR_FROM_BLOCK g s /\ p <> 0%Z /\ gc_wf g' /\
     maybe_collected g r g1 /\ (s + m <= nb g1)%nat /\ run g1 s m /\ chain_of g' s m /\ kd g' s = AT_HEAD /\
     (forall i, (i < n)%nat -> block_words (pool g') (s + i) = block_words (pool g) (b + i) /\
                               kd g' (b + i) = AT_FREE) /\
     forall b', ~ (s <= b' < s + m)%nat -> ~ (b <= b' < b + n)%nat ->
       kd g' b' = kd g1 b' /\ block_words (pool g') b' = block_words (pool g) b').

(** C21. An unlocked [gc_realloc] of a live chain to a positive size below [2^32 - 15] terminates and keeps the invariant.
    It resizes the chain in place (cutting it, or growing it over the blocks that follow, zeroed) exactly when it
    is long enough already or the blocks that are missing are free behind it.  Otherwise, if moving is allowed, it takes a
    fresh chain of blocks that were free, copies the contents and frees the old chain; or it returns null with the
    chain and its contents intact, because moving is not allowed or because no run of free blocks is long
    enough, even after a collection when automatic collection is enabled. *)
Theorem gc_realloc_spec gc_stack_size g r b n n_bytes allow_move :
  gc_wf g -> gc_lock_depth g = 0%Z -> (b < nb g)%nat -> kd g b = AT_HEAD -> chain_of g b n ->
  reachable g r b -> (0 < n_bytes <= 2 ^ 32 - 16)%Z ->
  exists p g', gc_realloc gc_stack_size g r (PTR_FROM_BLOCK g b) n_bytes allow_move = Ret (p, g') /\
    realloc_post g r b n (Z.to_nat ((n_bytes + 15) / 16)) allow_move p g'.
Proof.
  intros W Hl Hb Hk Hc Hlive Hnb. set (m := Z.to_nat _). unfold gc_realloc.
  destruct (VERIFY_PTR_PTR_FROM_BLOCK g b (wf_ok _ W) Hb) as (Hv & Hbl & Hp).
  rewrite (proj2 (Z.eqb_neq _ _) Hp), (proj2 (Z.eqb_neq n_bytes 0)) by lia.
  rewrite Hl, Hv, Hbl. cbn [Z.ltb Z.compare negb]. rewrite get_kd by lia. cbn [obind].
  rewrite Hk. cbn [negb Z.eqb Pos.eqb AT_HEAD].
  destruct (blocks_of_bytes_val n_bytes ltac:(lia)) as [_ ->].
  assert (Hm : ((n_bytes + 15) / 16)%Z = Z.of_nat m) by (unfold m; zdiv). rewrite Hm.
  assert (Hm0 : (0 < m)%nat) by (unfold m; zdiv).
  pose proof Hc as (Hn & Hbn & Ht & Hend). change (nblocks (atb g)) with (nb g).
  destruct (realloc_scan_ok (nb g - (b + 1)) g b n 1 (Z.of_nat m) (wf_ok _ W) Hc) as (f & Hscan & Hf & Hbf & Hr);
    [lia|lia|]. change (Z.of_nat 1) with 1%Z in Hscan. rewrite Hscan. cbn [obind].
  destruct Hr as [Hr Hends].
  assert (Hwords : forall g', fits_in_place g b n m -> resized g b n m g' ->
    realloc_post g r b n m allow_move (PTR_FROM_BLOCK g b) g') by (intros; by left).
  destruct (Z.eqb_spec (Z.of_nat m) (Z.of_nat n)) as [E|E].
  { exists (PTR_FROM_BLOCK g b), g. split; [done|]. apply Hwords; [left; lia|]. constructor; try done;
      intros b'; rewrite !decide_False by lia; done. }
  destruct (Z.ltb_spec (Z.of_nat m) (Z.of_nat n)).
  { replace (Z.to_nat (Z.of_nat n - Z.of_nat m)) with (n - m)%nat by lia. rewrite Nat2Z.id.
    destruct (shrink_ok g b n m W Hc ltac:(lia) Hk) as (g' & -> & R). cbn [obind].
    eexists _, _. split; [done|]. apply Hwords; [left; lia|done]. }
  destruct (Z.leb_spec (Z.of_nat m) (Z.of_nat n + f)).
  { replace (Z.to_nat (Z.of_nat m - Z.of_nat n)) with (m - n)%nat by lia. rewrite Nat2Z.id.
    destruct (grow_ok g b n m W Hc ltac:(lia) ltac:(lia) Hk) as (g' & -> & R).
    { intros i Hi. apply Hr. lia. }
    cbn [obind]. eexists _, _. split; [done|]. apply Hwords; [|done]. right. split; [lia|].
    intros i Hi. apply Hr. lia. }
  assert (Hno : ~ fits_in_place g b n m).
  { intros [?|[Hb2 Hrun]]; [lia|]. destruct (Hends ltac:(lia)) as [?|Hu]; [lia|]. apply Hu, Hrun. lia. }
  destruct allow_move; cbn [negb].
  2:{ exists 0%Z, g. split; [done|]. right. left. done. }
  destruct (gc_alloc_ok gc_stack_size g r n_bytes W Hl Hnb) as (p & g1 & g2 & -> & M & Ha). cbn [obind].
  fold m in Ha.
  assert (H1 : gc_wf g1 /\ kd g1 b = AT_HEAD /\ chain_of g1 b n /\ pool g1 = pool g /\ nb g1 = nb g /\
     gc_pool_start g1 = gc_pool_start g /\ gc_lock_depth g1 = 0%Z).
  { destruct M as [->|[_ C]]; [done|]. destruct (live_chain g r g1 b n W C Hb Hk Hlive Hc).
    
    do 6 (split; [first [done|apply C]|]). by rewrite (co_lock _ _ _ C). }
  destruct H1 as (W1 & Hk1 & Hc1 & Hp1 & Hnb1 & Hs1 & Hl1).
  destruct Ha as [(s & -> & Hnz & A)|(-> & -> & Hfull & Hcol)].
  2:{ exists 0%Z, g1. split; [done|]. right. left. done. }
  rewrite (proj2 (Z.eqb_neq _ _) Hnz).
  assert (Hblk : BLOCK_FROM_PTR g2 (PTR_FROM_BLOCK g1 s) = s).
  { unfold BLOCK_FROM_PTR, PTR_FROM_BLOCK. rewrite (al_start _ _ _ _ A).
    unfold BYTES_PER_BLOCK. zdiv. }
  rewrite Hblk, Nat2Z.id.
  assert (Hptr : PTR_FROM_BLOCK g b = PTR_FROM_BLOCK g1 b) by (unfold PTR_FROM_BLOCK; by rewrite Hs1).
  rewrite Hptr. destruct (move_ok g1 g2 b n s m W1) as (g' & -> & Hpost); try done; [lia..|]. cbn [obind].
  eexists _, g'. split; [done|]. right. right. split; [done|]. split; [done|].
  exists s, g1. pose proof (al_bound _ _ _ _ A). pose proof (al_free _ _ _ _ A). rewrite <- Hp1. destruct Hpost as (? & ? & ? & ? & ?).
  split; [unfold PTR_FROM_BLOCK; by rewrite Hs1|]. done.
Qed.

Lemma gc_realloc_spec_witness :
  exists p g', gc_realloc 4 sample_heap sample_roots 1600 40 true = Ret (p, g') /\
    realloc_post sample_heap sample_roots 0 2 3 true p g'.
Proof.
  apply (gc_realloc_spec 4 sample_heap sample_roots 0 2 40 true sample_heap_wf);
    [reflexivity|vm_compute; lia|reflexivity| | |lia].
  - split; [lia|]. split; [vm_compute; lia|]. split; [|vm_compute; congruence].
    intros i Hi. assert (i = 1%nat) as -> by lia. reflexivity.
  - apply (reach_root sample_heap sample_roots 1600); [|reflexivity|reflexivity].
    right. left.
Defined.

(** The rounding [n_bytes + BYTES_PER_BLOCK - 1] wraps in a 32-bit [size_t]: resizing a chain to one of the
    15 largest sizes frees all of its blocks, its head included, and reports success. *)
Theorem gc_realloc_wraps gc_stack_size g r b n n_bytes allow_move :
  gc_wf g -> gc_lock_depth g = 0%Z -> (b < nb g)%nat -> kd g b = AT_HEAD -> chain_of g b n ->
  (2 ^ 32 - 15 <= n_bytes < 2 ^ 32)%Z ->
  exists g', gc_realloc gc_stack_size g r (PTR_FROM_BLOCK g b) n_bytes allow_move =
      Ret (PTR_FROM_BLOCK g b, g') /\ PTR_FROM_BLOCK g b <> 0%Z /\
    forall i, (i < n)%nat -> kd g' (b + i) = AT_FREE.
Proof.
  intros W Hl Hb Hk Hc Hnb. unfold gc_realloc.
  destruct (VERIFY_PTR_PTR_FROM_BLOCK g b (wf_ok _ W) Hb) as (Hv & Hbl & Hp).
  rewrite (proj2 (Z.eqb_neq _ _) Hp), (proj2 (Z.eqb_neq n_bytes 0)) by lia.
  rewrite Hl, Hv, Hbl. cbn [Z.ltb Z.compare negb]. rewrite get_kd by lia. cbn [obind].
  rewrite Hk. cbn [negb Z.eqb Pos.eqb AT_HEAD].
  assert ((wrap 32 (n_bytes + BYTES_PER_BLOCK - 1) / BYTES_PER_BLOCK)%Z = 0%Z) as ->.
  { unfold wrap, BYTES_PER_BLOCK. zdiv. }
  pose proof Hc as (Hn & Hbn & Ht & Hend). change (nblocks (atb g)) with (nb g).
  destruct (realloc_scan_ok (nb g - (b + 1)) g b n 1 0 (wf_ok _ W) Hc) as (f & Hscan & Hf & Hbf & Hr & _);
    [lia|lia|]. change (Z.of_nat 1) with 1%Z in Hscan. rewrite Hscan. cbn [obind].
  rewrite (proj2 (Z.eqb_neq _ _)), (proj2 (Z.ltb_lt _ _)) by lia.
  rewrite Z.sub_0_r, Nat2Z.id, Nat.add_0_r.
  destruct (free_blocks_ok n b g) as (g' & -> & R); [apply W|lia|]. cbn [obind].
  eexists. split; [done|]. split; [done|]. intros i Hi.
  transitivity (kd g' (b + i)); [by destruct (_ <? _)%nat|]. apply (rupd_in _ _ _ _ _ _ R). lia.
Qed.

Lemma gc_realloc_wraps_witness :
  exists g', gc_realloc 4 sample_heap sample_roots 1600 4294967290 true = Ret (1600%Z, g') /\ 1600%Z <> 0%Z /\
    forall i, (i < 2)%nat -> kd g' (0 + i) = AT_FREE.
Proof.
  apply (gc_realloc_wraps 4 sample_heap sample_roots 0 2 4294967290 true sample_heap_wf);
    [reflexivity|vm_compute; lia|reflexivity| |lia].
  split; [lia|]. split; [vm_compute; lia|]. split; [|vm_compute; congruence].
  intros i Hi. assert (i = 1%nat) as -> by lia. reflexivity.
Defined.
