(* ===== verification/MpObj.v ===== *)
(** * Python objects as the containers see them

    Hash tables compare, hash and classify objects through [mp_obj_equal],
    [mp_unary_op(MP_UNARY_OP_HASH)], [mp_obj_is_qstr] and [mp_obj_is_type(_, &mp_type_str)],
    which dispatch on the objects' types (user classes included).  The containers are
    modelled against this interface; [MpObjLaws] is what they rely on. *)

From S2P Require Import Prelude Malloc.

Class MpObjOps (obj : Type) := {
  mp_obj_is_qstr : obj -> bool;          (* an interned string, compared by pointer *)
  mp_obj_is_str : obj -> bool;           (* a string that is not interned *)
  mp_obj_equal : obj -> obj -> bool;     (* == *)
  mp_hash : obj -> outcome Z             (* hash(), raising TypeError if unhashable *)
}.

Class MpObjLaws (obj : Type) `{MpObjOps obj} := {
  equal_refl : forall a, mp_obj_equal a a = true;
  equal_sym : forall a b, mp_obj_equal a b = true -> mp_obj_equal b a = true;
  equal_trans : forall a b c, mp_obj_equal a b = true -> mp_obj_equal b c = true -> mp_obj_equal a c = true;
  (* equal objects hash alike *)
  equal_hash : forall a b, mp_obj_equal a b = true -> mp_hash a = mp_hash b;
  (* interning makes equality of qstrs pointer equality *)
  qstr_equal : forall a b, mp_obj_is_qstr a = true -> mp_obj_is_qstr b = true ->
    mp_obj_equal a b = true -> a = b;
  (* only strings are equal to strings *)
  qstr_only_str : forall a b, mp_obj_is_qstr a = true -> mp_obj_equal a b = true ->
    mp_obj_is_qstr b = true \/ mp_obj_is_str b = true
}.

(** Objects whose [==] is an equivalence with this hash form a setoid; [mp_equiv] is its
    equality. *)
Definition mp_equiv `{MpObjOps obj} (a b : obj) : Prop := mp_obj_equal a b = true.

#[export] Instance mp_equiv_equivalence `{MpObjLaws obj} : Equivalence (mp_equiv (obj := obj)).
Proof.
  split.
  - intros a. apply equal_refl.
  - intros a b. apply equal_sym.
  - intros a b c. apply equal_trans.
Qed.

#[export] Instance mp_hash_proper `{MpObjLaws obj} : Proper (mp_equiv ==> eq) (mp_hash (obj := obj)).
Proof. intros a b. apply equal_hash. Qed.

#[export] Instance mp_obj_equal_proper `{MpObjLaws obj} :
  Proper (mp_equiv ==> mp_equiv ==> eq) (mp_obj_equal (obj := obj)).
Proof.
  intros a b Hab c d Hcd. unfold mp_equiv in *.
  destruct (mp_obj_equal a c) eqn:E, (mp_obj_equal b d) eqn:F; try done.
  - rewrite <- F. symmetry. apply (equal_trans _ c); [|done]. apply (equal_trans _ a); [by apply equal_sym|done].
  - rewrite <- E. apply (equal_trans _ d); [|by apply equal_sym]. by apply (equal_trans _ b).
Qed.

(** A small object universe for the witnesses: small integers, and strings that are interned
    or not, with equality by value, and unhashable lists. *)
Inductive sample_obj := Int (n : Z) | Qstr (n : Z) | Str (n : Z) | Lst (n : Z).

#[export] Instance sample_obj_eq_dec : EqDecision sample_obj.
Proof. solve_decision. Defined.

#[export] Instance sample_ops : MpObjOps sample_obj := {
  mp_obj_is_qstr o := match o with Qstr _ => true | _ => false end;
  mp_obj_is_str o := match o with Str _ => true | _ => false end;
  mp_obj_equal a b := match a, b with
    | Int m, Int n | Lst m, Lst n => (m =? n)%Z
    | (Qstr m | Str m), (Qstr n | Str n) => (m =? n)%Z
    | _, _ => false end;
  mp_hash o := match o with Int n => Ret (Z.abs n) | Qstr n | Str n => Ret (Z.abs n * 7)%Z
    | Lst _ => Raise TypeError end
}.

#[export] Instance sample_laws : MpObjLaws sample_obj.
Proof.
  split; simpl.
  - intros []; simpl; apply Z.eqb_refl.
  - intros [] []; simpl; rewrite ?Z.eqb_eq; congruence.
  - intros [] [] []; simpl; rewrite ?Z.eqb_eq; congruence.
  - intros [] []; simpl; rewrite ?Z.eqb_eq; congruence.
  - intros [] []; simpl; rewrite ?Z.eqb_eq; congruence.
  - intros [] []; simpl; auto.
Qed.

(** Their heap grants regions of up to a page. *)
#[export] Instance sample_heap : Allocator sample_obj := {| m_renew_ok n := (n <=? 4096)%Z; fresh := Int 170 |}.

#[export] Instance sample_small : SmallHeap sample_obj.
Proof. intros b Hb. apply Z.leb_le in Hb. lia. Qed.
