(* ===== verification/HashKeys.v ===== *)
(** * Open-addressed tables ([py/map.c], what maps and sets share)

    The slots' keys, the growth policy, and the invariant of linear probing: every key is
    reached from the slot its hash selects without crossing an empty slot.  [scan] is the
    probing loop on the keys alone; the loops of maps ([Map.v]) and of sets ([SetTable.v])
    follow it. *)

From S2P Require Import Prelude MpObj.

Inductive slot_key (obj : Type) : Type :=
| KNull            (* MP_OBJ_NULL: never used since the last rehash *)
| KSentinel        (* MP_OBJ_SENTINEL: deleted *)
| Key (o : obj).
Arguments KNull {obj}.
Arguments KSentinel {obj}.
Arguments Key {obj} o.

(** MP_MAP_LOOKUP and the rest of [mp_map_lookup_kind_t]. *)
Definition MP_MAP_LOOKUP : Z := 0.
Definition MP_MAP_LOOKUP_ADD_IF_NOT_FOUND : Z := 1.
Definition MP_MAP_LOOKUP_REMOVE_IF_FOUND : Z := 2.
Definition MP_MAP_LOOKUP_ADD_IF_NOT_FOUND_OR_REMOVE_IF_FOUND : Z := 3.

Definition hash_allocation_sizes : list nat := [
  0; 2; 4; 6; 8; 10; 12;
  17; 23; 29; 37; 47; 59; 73;
  97; 127; 167; 223; 293; 389; 521; 691; 919; 1223; 1627; 2161;
  3229; 4831; 7243; 10861; 16273; 24407; 36607; 54907]%nat.

Fixpoint first_size_ge (sizes : list nat) (x : nat) : nat :=
  match sizes with
  | [] => Nat.lor (x + x / 2) 1
  | s :: sizes => if (x <=? s)%nat then s else first_size_ge sizes x
  end.

Definition get_hash_alloc_greater_or_equal_to (x : nat) : nat := first_size_ge hash_allocation_sizes x.

Lemma nat_lor_1 x : Nat.lor x 1 = x \/ Nat.lor x 1 = (x + 1)%nat.
Proof.
  assert (H1 : forall n, Nat.testbit 1 (S n) = false) by (intros n; apply Nat.bits_0).
  destruct (Nat.testbit x 0) eqn:E; [left|right].
  - apply Nat.bits_inj. intros n. rewrite Nat.lor_spec. destruct n; [by rewrite E|]. by rewrite H1, orb_false_r.
  - rewrite Nat.add_nocarry_lxor.
    + apply Nat.bits_inj. intros n. rewrite Nat.lor_spec, Nat.lxor_spec.
      destruct n; [by rewrite E|]. rewrite H1. by destruct (Nat.testbit x (S n)).
    + apply Nat.bits_inj. intros n. rewrite Nat.land_spec, Nat.bits_0.
      destruct n; [by rewrite E|]. by rewrite H1, andb_false_r.
Qed.

Lemma nat_lor_1_ge x : (x <= Nat.lor x 1)%nat.
Proof. destruct (nat_lor_1 x); lia. Qed.

Lemma first_size_ge_ge sizes x : (x <= first_size_ge sizes x)%nat.
Proof.
  induction sizes as [|s sizes IH]; simpl.
  - pose proof (nat_lor_1_ge (x + x / 2)). lia.
  - by bcase.
Qed.

Lemma hash_alloc_ge x : (x <= get_hash_alloc_greater_or_equal_to x)%nat.
Proof. apply first_size_ge_ge. Qed.

Lemma first_size_ge_le sizes x : Forall (fun s => Z.of_nat s <= 65536)%Z sizes ->
  (Z.of_nat (first_size_ge sizes x) <= 2 * Z.of_nat x + 65536)%Z.
Proof.
  intros H. induction H as [|s sizes Hs _ IH]; simpl first_size_ge.
  - destruct (nat_lor_1 (x + x / 2)) as [-> | ->]; pose proof (Nat.Div0.div_le_upper_bound x 2 x); lia.
  - destruct (x <=? s)%nat; lia.
Qed.

(** A table does not grow to more than about twice its size. *)
Lemma hash_alloc_le x : (Z.of_nat (get_hash_alloc_greater_or_equal_to x) <= 2 * Z.of_nat x + 65536)%Z.
Proof.
  apply first_size_ge_le. unfold hash_allocation_sizes. repeat (apply list.Forall_cons; split; [by vm_compute|]). constructor.
Qed.

Section Keys.
Context {obj : Type} `{!EqDecision obj, !MpObjOps obj}.
Implicit Types (ks : list (slot_key obj)) (k : obj).

#[export] Instance slot_key_eq_dec : EqDecision (slot_key obj).
Proof. solve_decision. Defined.

Definition key_is_filled (k : slot_key obj) : bool :=
  match k with Key _ => true | _ => false end.

(** The number of keys a table holds. *)
Fixpoint filled ks : nat :=
  match ks with
  | [] => 0
  | k :: ks => (if key_is_filled k then 1 else 0) + filled ks
  end.

(** The slot a key's hash selects in a table of [a] slots. *)
Definition home (a : nat) (hash : Z) : nat := Z.to_nat (wrap 32 hash mod Z.of_nat a).

(** The [i]-th slot probed from [h]. *)
Definition path (a h i : nat) : nat := ((h + i) mod a)%nat.

Inductive scanned := Found (pos : nat) | Stop (avail_slot : option nat).

(** The probing loop on the keys: [n] slots are left to visit, the next one is [pos]. *)
Fixpoint scan (matches : obj -> bool) ks (n pos : nat) (avail_slot : option nat) : scanned :=
  match n with
  | O => Stop avail_slot
  | S n =>
    let next := ((pos + 1) mod length ks)%nat in
    match ks !! pos with
    | None => Stop avail_slot
    | Some KNull => Stop (Some (match avail_slot with Some a => a | None => pos end))
    | Some KSentinel => scan matches ks n next (match avail_slot with Some a => Some a | None => Some pos end)
    | Some (Key k) => if matches k then Found pos else scan matches ks n next avail_slot
    end
  end.

(** [p] is reached from [h] without crossing an empty slot. *)
Definition reach ks (h p : nat) : Prop :=
  exists j, (j < length ks)%nat /\ p = path (length ks) h j /\
    forall i, (i < j)%nat -> ks !! path (length ks) h i <> Some KNull.

Record keys_wf ks : Prop := {
  kw_hash : forall p k, ks !! p = Some (Key k) ->
    exists hash, mp_hash k = Ret hash /\ reach ks (home (length ks) hash) p;
  kw_uniq : forall p q k k', ks !! p = Some (Key k) -> ks !! q = Some (Key k') ->
    mp_obj_equal k k' = true -> p = q
}.

(** Some slot of [ks] holds a key equal to [index]. *)
Definition has_key ks (index : obj) : Prop :=
  exists p k, ks !! p = Some (Key k) /\ mp_obj_equal k index = true.

Lemma path_lt a h i : (0 < a)%nat -> (path a h i < a)%nat.
Proof. intros. apply Nat.mod_upper_bound. lia. Qed.

Lemma path_0 a h : (h < a)%nat -> path a h 0 = h.
Proof. intros. unfold path. rewrite Nat.add_0_r. by apply Nat.mod_small. Qed.

Lemma path_S a h i : (0 < a)%nat -> ((path a h i + 1) mod a)%nat = path a h (S i).
Proof.
  intros. unfold path. rewrite Nat.Div0.add_mod_idemp_l. f_equal. lia.
Qed.

Lemma path_inj a h i j : (i < a)%nat -> (j < a)%nat -> path a h i = path a h j -> i = j.
Proof.
  unfold path. intros Hi Hj E.
  pose proof (Nat.div_mod (h + i) a ltac:(lia)). pose proof (Nat.div_mod (h + j) a ltac:(lia)).
  pose proof (Nat.mod_upper_bound (h + i) a ltac:(lia)).
  assert (((h + i) / a)%nat = ((h + j) / a)%nat) by nia. nia.
Qed.

Lemma path_surj a h p : (p < a)%nat -> exists j, (j < a)%nat /\ path a h j = p.
Proof.
  intros Hp. exists ((p + a - h mod a) mod a)%nat.
  split; [apply Nat.mod_upper_bound; lia|]. unfold path.
  rewrite Nat.Div0.add_mod_idemp_r, <- Nat.Div0.add_mod_idemp_l.
  pose proof (Nat.mod_upper_bound h a ltac:(lia)).
  replace (h mod a + (p + a - h mod a))%nat with (p + 1 * a)%nat by lia.
  rewrite Nat.Div0.mod_add. by apply Nat.mod_small.
Qed.

Lemma home_lt a hash : (0 < a)%nat -> (home a hash < a)%nat.
Proof. intros. unfold home. pose proof (Z.mod_pos_bound (wrap 32 hash) (Z.of_nat a)). lia. Qed.

(** What a scan from slot [path a h i] with [i] slots behind it finds. *)
Definition scan_ok (matches : obj -> bool) ks (h : nat) (r : scanned) : Prop :=
  match r with
  | Found p => exists k, ks !! p = Some (Key k) /\ matches k = true
  | Stop o =>
    (forall p k, ks !! p = Some (Key k) -> reach ks h p -> matches k = false) /\
    match o with
    | Some p => (p < length ks)%nat /\ reach ks h p /\
                (exists s, ks !! p = Some s /\ key_is_filled s = false)
    | None => forall p s, ks !! p = Some s -> key_is_filled s = true
    end
  end.

Lemma scan_correct_from matches ks h n i avail :
  (i + n = length ks)%nat -> (h < length ks)%nat ->
  (forall j, (j < i)%nat -> exists s, ks !! path (length ks) h j = Some s /\ s <> KNull /\
     (forall k, s = Key k -> matches k = false) /\ (avail = None -> key_is_filled s = true)) ->
  (forall p, avail = Some p -> (p < length ks)%nat /\ reach ks h p /\
     exists s, ks !! p = Some s /\ key_is_filled s = false) ->
  scan_ok matches ks h (scan matches ks n (path (length ks) h i) avail).
Proof.
  revert i avail. induction n as [|n IH]; intros i avail Hn Hh Hprev Hav; cbn [scan].
  - split.
    + intros p k Hp (j & Hj & -> & _). destruct (Hprev j ltac:(lia)) as (s & Hs & _ & Hm & _).
      apply Hm. congruence.
    + destruct avail as [p|]; [by apply Hav|]. intros p s Hs.
      destruct (path_surj (length ks) h p) as (j & Hj & <-); [by eapply lookup_lt_Some|].
      destruct (Hprev j ltac:(lia)) as (s' & Hs' & _ & _ & Hf). simplify_eq. auto.
  - destruct (lookup_lt_is_Some_2 ks (path (length ks) h i)) as [s Hs]; [apply path_lt; lia|].
    rewrite Hs, path_S by lia.
    assert (Hreach : reach ks h (path (length ks) h i)).
    { exists i. split; [lia|]. split; [done|]. intros j Hj E.
      destruct (Hprev j Hj) as (s' & Hs' & Hne & _). congruence. }
    destruct s as [| |k].
    + split.
      * intros p k Hp (j & Hj & -> & Hcross). destruct (Nat.lt_ge_cases j i) as [Hji|Hji].
        -- destruct (Hprev j Hji) as (s' & Hs' & _ & Hm & _). apply Hm. congruence.
        -- assert (j = i \/ i < j)%nat as [->|Hlt] by lia; [congruence|].
           by destruct (Hcross i Hlt).
      * destruct avail as [p|]; [by apply Hav|].
        split; [apply path_lt; lia|]. split; [done|]. by exists KNull.
    + apply IH; [lia|done| |].
      * intros j Hj. destruct (decide (j = i)) as [->|Hne].
        -- exists KSentinel. repeat split; try done. by destruct avail.
        -- destruct (Hprev j ltac:(lia)) as (s' & ? & ? & ? & Hf). exists s'.
           repeat split; try done. by destruct avail.
      * intros p Hp. destruct avail as [p'|]; [by apply Hav|]. injection Hp as <-.
        split; [apply path_lt; lia|]. split; [done|]. by exists KSentinel.
    + destruct (matches k) eqn:Hm; [by exists k|].
      apply IH; [lia|done| |done].
      intros j Hj. destruct (decide (j = i)) as [->|Hne]; [|apply Hprev; lia].
      exists (Key k). repeat split; try done. intros k' [= <-]. done.
Qed.

Lemma scan_correct matches ks h : (h < length ks)%nat ->
  scan_ok matches ks h (scan matches ks (length ks) h None).
Proof.
  intros Hh. rewrite <- (path_0 (length ks) h) at 2 by done.
  apply scan_correct_from; try lia. intros p [=].
Qed.

Lemma filled_insert ks p s x : ks !! p = Some s ->
  (filled (<[p:=x]> ks) + (if key_is_filled s then 1 else 0) =
   filled ks + (if key_is_filled x then 1 else 0))%nat.
Proof.
  revert p. induction ks as [|k ks IH]; intros [|p] H; simpl in *; simplify_eq; [lia|].
  specialize (IH p H). lia.
Qed.

Lemma filled_replicate n : filled (replicate n KNull) = 0%nat.
Proof. by induction n. Qed.

Lemma filled_le ks : (filled ks <= length ks)%nat.
Proof. induction ks as [|[] ks IH]; simpl; lia. Qed.

Lemma filled_all ks : (forall p s, ks !! p = Some s -> key_is_filled s = true) -> filled ks = length ks.
Proof.
  induction ks as [|k ks IH]; intros H; [done|]. simpl. rewrite (H 0%nat k) by done.
  rewrite IH; [done|]. intros p s. apply (H (S p)).
Qed.

Lemma keys_wf_empty n : keys_wf (replicate n KNull).
Proof. split; intros; apply lookup_replicate in H as []; done. Qed.

Section Laws.
Context `{!MpObjLaws obj}.

Lemma key_reach ks index hash p k : keys_wf ks -> mp_hash index = Ret hash ->
  ks !! p = Some (Key k) -> mp_obj_equal k index = true -> reach ks (home (length ks) hash) p.
Proof.
  intros [Hh _] Hi Hp E. destruct (Hh p k Hp) as (hash' & Hk & Hr).
  rewrite (equal_hash _ _ E) in Hk. congruence.
Qed.

(** The scan decides membership, and stops where the key can be added. *)
Lemma scan_spec ks index hash matches :
  keys_wf ks -> mp_hash index = Ret hash -> (0 < length ks)%nat ->
  (forall p k, ks !! p = Some (Key k) -> matches k = mp_obj_equal k index) ->
  match scan matches ks (length ks) (home (length ks) hash) None with
  | Found p => exists k, ks !! p = Some (Key k) /\ mp_obj_equal k index = true
  | Stop o => ~ has_key ks index /\
    match o with
    | Some p => (p < length ks)%nat /\ reach ks (home (length ks) hash) p /\
                (exists s, ks !! p = Some s /\ key_is_filled s = false)
    | None => filled ks = length ks
    end
  end.
Proof.
  intros Hwf Hi Hlen Hm.
  pose proof (scan_correct matches ks (home (length ks) hash) (home_lt _ _ Hlen)) as H.
  destruct (scan _ _ _ _ _) as [p|o]; simpl in H.
  - destruct H as (k & Hp & Hk). exists k. by rewrite <- (Hm p).
  - destruct H as [Hno Ho]. split.
    + intros (p & k & Hp & E). rewrite <- (Hm p k Hp), (Hno p k Hp) in E; [done|].
      eapply key_reach; eauto. by rewrite <- (Hm p k Hp).
    + destruct o; [done|]. by apply filled_all.
Qed.

Lemma reach_add ks h p p' index : reach ks h p -> reach (<[p':=Key index]> ks) h p.
Proof.
  intros (j & Hj & -> & Hc). exists j. rewrite length_insert. split; [done|]. split; [done|].
  intros i Hi E. apply list_lookup_insert_Some in E as [(? & ? & ?)|[? E]]; [done|].
  by apply (Hc i Hi).
Qed.

Lemma keys_wf_add ks p index hash : keys_wf ks -> mp_hash index = Ret hash ->
  (p < length ks)%nat -> reach ks (home (length ks) hash) p -> ~ has_key ks index ->
  keys_wf (<[p:=Key index]> ks).
Proof.
  intros Hwf Hi Hp Hr Hno. split.
  - intros q k Hq. rewrite length_insert. apply list_lookup_insert_Some in Hq as [(<- & [= <-] & _)|[Hne Hq]].
    + exists hash. split; [done|]. by apply reach_add.
    + destruct (kw_hash _ Hwf q k Hq) as (h & Hh & Hr'). exists h. split; [done|]. by apply reach_add.
  - intros q q' k k' Hq Hq' E.
    apply list_lookup_insert_Some in Hq as [(<- & [= <-] & _)|[Hne Hq]];
      apply list_lookup_insert_Some in Hq' as [(<- & [= <-] & _)|[Hne' Hq']]; [done| | |].
    + destruct Hno. exists q', k'. split; [done|]. by apply equal_sym.
    + destruct Hno. by exists q, k.
    + eapply (kw_uniq _ Hwf); eauto.
Qed.

(** Deletion: the slot is emptied only when no probe sequence continues through it. *)
Definition deleted_key ks (p : nat) : slot_key obj :=
  match ks !! ((p + 1) mod length ks)%nat with Some KNull => KNull | _ => KSentinel end.

Lemma reach_remove ks h p q k kq : ks !! p = Some (Key k) -> ks !! q = Some (Key kq) -> q <> p ->
  reach ks h q -> reach (<[p:=deleted_key ks p]> ks) h q.
Proof.
  intros Hp Hq Hne (j & Hj & -> & Hc). exists j. rewrite length_insert. split; [done|]. split; [done|].
  intros i Hi E. apply list_lookup_insert_Some in E as [(Ep & E & Hlt)|[? E]]; [|by apply (Hc i Hi)].
  unfold deleted_key in E. rewrite Ep, path_S in E by lia.
  destruct (ks !! path (length ks) h (S i)) as [[| |]|] eqn:F; simplify_eq.
  destruct (decide (S i = j)) as [<-|]; [congruence|]. apply (Hc (S i)); [lia|done].
Qed.

Lemma deleted_key_unfilled ks p : key_is_filled (deleted_key ks p) = false.
Proof. unfold deleted_key. by destruct (ks !! _) as [[]|]. Qed.

Lemma keys_wf_remove ks p k : keys_wf ks -> ks !! p = Some (Key k) ->
  keys_wf (<[p:=deleted_key ks p]> ks).
Proof.
  intros Hwf Hp. pose proof (deleted_key_unfilled ks p) as Hd.
  assert (Hkeep : forall q kq, <[p:=deleted_key ks p]> ks !! q = Some (Key kq) ->
    q <> p /\ ks !! q = Some (Key kq)).
  { intros q kq Hq. apply list_lookup_insert_Some in Hq as [(<- & E & _)|[Hne Hq]]; [|auto].
    by rewrite E in Hd. }
  split.
  - intros q kq Hq. apply Hkeep in Hq as [Hne Hq]. destruct (kw_hash _ Hwf q kq Hq) as (h & Hh & Hr).
    exists h. split; [done|]. rewrite length_insert. by eapply reach_remove.
  - intros q q' kq kq' Hq Hq'. apply Hkeep in Hq as [_ Hq]. apply Hkeep in Hq' as [_ Hq'].
    eapply (kw_uniq _ Hwf); eauto.
Qed.
End Laws.
End Keys.
