(* ===== verification/Map.v ===== *)
(** * Hash maps ([py/map.c], the [mp_map_t] half)

    A table slot holds a key ([MP_OBJ_NULL], the deletion mark [MP_OBJ_SENTINEL] or an object)
    and a value; lookups return the position of a slot, through which the caller writes
    the value.  The port is built without the lookup cache and without ordered dictionaries
    ([MICROPY_OPT_MAP_LOOKUP_CACHE] and [MICROPY_PY_COLLECTIONS_ORDEREDDICT] are 0), so an ordered map
    is a fixed table. *)

From S2P Require Import Prelude Malloc MpObj HashKeys.

Section Map.
Context {obj : Type} `{!EqDecision obj, !MpObjOps obj, !Allocator obj}.

Record mp_map_elem_t := mk_elem {
  key : slot_key obj;
  value : option obj          (* None is MP_OBJ_NULL *)
}.

Record mp_map_t := mk_map {
  all_keys_are_qstrs : bool;
  is_fixed : bool;
  is_ordered : bool;
  used : nat;
  alloc : nat;
  table : list mp_map_elem_t
}.

Definition null_elem : mp_map_elem_t := mk_elem KNull None.

Definition with_table (m : mp_map_t) (t : list mp_map_elem_t) : mp_map_t :=
  mk_map (all_keys_are_qstrs m) (is_fixed m) (is_ordered m) (used m) (alloc m) t.
Definition with_used (m : mp_map_t) (u : nat) : mp_map_t :=
  mk_map (all_keys_are_qstrs m) (is_fixed m) (is_ordered m) u (alloc m) (table m).

(** An element is two pointers. *)
Definition mp_map_init (n : nat) : outcome mp_map_t :=
  if (n =? 0)%nat then Ret (mk_map true false false 0 0 [])
  else
    let! table := m_new0_of null_elem 8 (Z.of_nat n) in
    Ret (mk_map true false false 0 n table).

Definition mp_map_init_fixed_table (n : nat) (t : list mp_map_elem_t) : mp_map_t :=
  mk_map true true true n n t.

Definition mp_map_deinit (m : mp_map_t) : mp_map_t :=
  mk_map (all_keys_are_qstrs m) (is_fixed m) (is_ordered m) 0 0 (if is_fixed m then table m else []).

Definition mp_map_clear (m : mp_map_t) : mp_map_t :=
  mk_map true false (is_ordered m) 0 0 [].

Definition mp_map_slot_is_filled (m : mp_map_t) (pos : nat) : outcome bool :=
  if (alloc m <=? pos)%nat then Undef else
  let! e := rd (table m) (Z.of_nat pos) in Ret (key_is_filled (key e)).

(** [slot->key == index || (!compare_only_ptrs && mp_obj_equal(slot->key, index))] *)
Definition key_matches (compare_only_ptrs : bool) (k index : obj) : bool :=
  bool_decide (k = index) || (negb compare_only_ptrs && mp_obj_equal k index).

(** A write of the key and of MP_OBJ_NULL in the slot [pos], for a new element. *)
Definition add_at (m : mp_map_t) (pos : nat) (index : obj) : outcome (mp_map_t * option nat) :=
  let! t := wr (table m) (Z.of_nat pos) (mk_elem (Key index) None) in
  Ret (mk_map (if mp_obj_is_qstr index then all_keys_are_qstrs m else false)
         (is_fixed m) (is_ordered m) (used m + 1) (alloc m) t, Some pos).

(** The linear search in an ordered table. *)
Fixpoint ordered_search (n pos : nat) (compare_only_ptrs : bool) (t : list mp_map_elem_t) (index : obj)
  : outcome (option nat) :=
  match n with
  | O => Ret None
  | S n =>
    let! elem := rd t (Z.of_nat pos) in
    match key elem with
    | Key k => if key_matches compare_only_ptrs k index then Ret (Some pos)
               else ordered_search n (S pos) compare_only_ptrs t index
    | _ => ordered_search n (S pos) compare_only_ptrs t index
    end
  end.

Section Lookup.
(** [mp_map_rehash], which calls back [mp_map_lookup]. *)
Variable rehash : mp_map_t -> outcome mp_map_t.

(** The [for (;;)] loop of [mp_map_lookup]. *)
Fixpoint map_probe (fuel : nat) (m : mp_map_t) (index : obj) (lookup_kind : Z) (hash : Z)
    (compare_only_ptrs : bool) (pos start_pos : nat) (avail_slot : option nat)
  : outcome (mp_map_t * option nat) :=
  match fuel with
  | O => OutOfFuel
  | S fuel =>
    let! slot := rd (table m) (Z.of_nat pos) in
    (* the code after the if/else chain *)
    let continue_with avail_slot :=
      let pos := ((pos + 1) mod alloc m)%nat in
      if (pos =? start_pos)%nat then
        if (lookup_kind =? MP_MAP_LOOKUP_ADD_IF_NOT_FOUND)%Z then
          match avail_slot with
          | Some a => add_at m a index
          | None =>
            let! m := rehash m in
            let pos := home (alloc m) hash in
            map_probe fuel m index lookup_kind hash compare_only_ptrs pos pos avail_slot
          end
        else Ret (m, None)
      else map_probe fuel m index lookup_kind hash compare_only_ptrs pos start_pos avail_slot in
    match key slot with
    | KNull =>
      if (lookup_kind =? MP_MAP_LOOKUP_ADD_IF_NOT_FOUND)%Z
      then add_at m (match avail_slot with Some a => a | None => pos end) index
      else Ret (m, None)
    | KSentinel => continue_with (match avail_slot with Some a => Some a | None => Some pos end)
    | Key k =>
      if key_matches compare_only_ptrs k index then
        if (lookup_kind =? MP_MAP_LOOKUP_REMOVE_IF_FOUND)%Z then
          let m := with_used m (used m - 1) in
          let! next := rd (table m) (Z.of_nat ((pos + 1) mod alloc m)%nat) in
          let k' := match key next with KNull => KNull | _ => KSentinel end in
          let! t := wr (table m) (Z.of_nat pos) (mk_elem k' (value slot)) in
          Ret (with_table m t, Some pos)
        else Ret (m, Some pos)
      else continue_with avail_slot
    end
  end.

Definition map_lookup_body (m : mp_map_t) (index : obj) (lookup_kind : Z) : outcome (mp_map_t * option nat) :=
  if is_fixed m && negb (lookup_kind =? MP_MAP_LOOKUP)%Z then Undef else
  let compare_only_ptrs := all_keys_are_qstrs m in
  if compare_only_ptrs && negb (mp_obj_is_qstr index) && negb (mp_obj_is_str index)
     && negb (lookup_kind =? MP_MAP_LOOKUP_ADD_IF_NOT_FOUND)%Z
  then Ret (m, None) else
  let compare_only_ptrs :=
    if compare_only_ptrs && negb (mp_obj_is_qstr index) && mp_obj_is_str index then false
    else compare_only_ptrs in
  if is_ordered m then
    let! o := ordered_search (used m) 0 compare_only_ptrs (table m) index in Ret (m, o)
  else
  let go (m : mp_map_t) :=
    let! hash := mp_hash index in
    let pos := home (alloc m) hash in
    map_probe (alloc m + get_hash_alloc_greater_or_equal_to (alloc m + 1) + 1)
      m index lookup_kind hash compare_only_ptrs pos pos None in
  if (alloc m =? 0)%nat then
    if (lookup_kind =? MP_MAP_LOOKUP_ADD_IF_NOT_FOUND)%Z then let! m := rehash m in go m
    else Ret (m, None)
  else go m.
End Lookup.

(** The loop of [mp_map_rehash] over the old table; [lookup] is [mp_map_lookup]. *)
Fixpoint reinsert (lookup : mp_map_t -> obj -> Z -> outcome (mp_map_t * option nat))
    (old_table : list mp_map_elem_t) (m : mp_map_t) : outcome mp_map_t :=
  match old_table with
  | [] => Ret m
  | e :: old_table =>
    match key e with
    | Key k =>
      let! '(m, slot) := lookup m k MP_MAP_LOOKUP_ADD_IF_NOT_FOUND in
      match slot with
      | None => Undef
      | Some pos =>
        let! s := rd (table m) (Z.of_nat pos) in
        let! t := wr (table m) (Z.of_nat pos) (mk_elem (key s) (value e)) in
        reinsert lookup old_table (with_table m t)
      end
    | _ => reinsert lookup old_table m
    end
  end.

Definition map_rehash_with lookup (m : mp_map_t) : outcome mp_map_t :=
  let new_alloc := get_hash_alloc_greater_or_equal_to (alloc m + 1) in
  let! new_table := m_new0_of null_elem 8 (Z.of_nat new_alloc) in
  reinsert lookup (take (alloc m) (table m)) (mk_map true (is_fixed m) (is_ordered m) 0 new_alloc new_table).

(** [mp_map_lookup] and [mp_map_rehash] call each other; [depth] bounds the nesting. *)
Fixpoint map_lookup_depth (depth : nat) (m : mp_map_t) (index : obj) (lookup_kind : Z)
  : outcome (mp_map_t * option nat) :=
  map_lookup_body
    (fun m =>
       match depth with
       | O => OutOfFuel
       | S depth => map_rehash_with (map_lookup_depth depth) m
       end)
    m index lookup_kind.

(** One nested rehash is all that ever happens: see [lookup_spec]. *)
Definition mp_map_lookup : mp_map_t -> obj -> Z -> outcome (mp_map_t * option nat) := map_lookup_depth 1.

Definition mp_map_rehash : mp_map_t -> outcome mp_map_t := map_rehash_with mp_map_lookup.

(** ** The association a table represents *)

Definition keys (t : list mp_map_elem_t) : list (slot_key obj) := key <$> t.

Fixpoint assoc (t : list mp_map_elem_t) (index : obj) : option (option obj) :=
  match t with
  | [] => None
  | e :: t =>
    match key e with
    | Key k => if mp_obj_equal k index then Some (value e) else assoc t index
    | _ => assoc t index
    end
  end.

Record map_wf (m : mp_map_t) : Prop := {
  mw_hash_table : is_fixed m = false /\ is_ordered m = false;
  mw_length : length (table m) = alloc m;
  mw_used : used m = filled (keys (table m));
  mw_keys : keys_wf (keys (table m));
  mw_qstrs : all_keys_are_qstrs m = true ->
    forall p k, keys (table m) !! p = Some (Key k) -> mp_obj_is_qstr k = true;
  mw_small : (Z.of_nat (alloc m) < 2 ^ 25)%Z
}.

(** The heap has no room for the table that [m] would grow to. *)
Definition cannot_grow (m : mp_map_t) : Prop := gives 8 (Z.of_nat (get_hash_alloc_greater_or_equal_to (alloc m + 1))) = false.

(** A lookup that has to grow the table, and cannot. *)
Definition lookup_fails (m : mp_map_t) (index : obj) (lookup_kind : Z) : Prop :=
  lookup_kind = MP_MAP_LOOKUP_ADD_IF_NOT_FOUND /\ assoc (table m) index = None /\ used m = alloc m /\ cannot_grow m.

(** What a lookup of [index] returns and leaves behind. *)
Definition lookup_post (m : mp_map_t) (index : obj) (lookup_kind : Z)
    (m' : mp_map_t) (slot : option nat) : Prop :=
  map_wf m' /\
  (forall k, mp_obj_equal k index = false -> assoc (table m') k = assoc (table m) k) /\
  match assoc (table m) index with
  | Some v =>
    exists p k, slot = Some p /\ table m !! p = Some (mk_elem (Key k) v) /\ mp_obj_equal k index = true /\
    if (lookup_kind =? MP_MAP_LOOKUP_REMOVE_IF_FOUND)%Z
    then assoc (table m') index = None /\ S (used m') = used m /\
         (exists d, table m' !! p = Some (mk_elem d v) /\ key_is_filled d = false)
    else m' = m
  | None =>
    if (lookup_kind =? MP_MAP_LOOKUP_ADD_IF_NOT_FOUND)%Z
    then exists p, slot = Some p /\ table m' !! p = Some (mk_elem (Key index) None) /\ used m' = S (used m)
    else m' = m /\ slot = None
  end.
End Map.
Arguments mp_map_elem_t : clear implicits.
Arguments mp_map_t : clear implicits.

Section Proofs.
Context {obj : Type} `{!EqDecision obj, !MpObjOps obj, !MpObjLaws obj}.
Implicit Types (m : mp_map_t obj) (t : list (mp_map_elem_t obj)) (index k : obj).

Lemma keys_lookup t p s : keys t !! p = Some s <-> exists v, t !! p = Some (mk_elem s v).
Proof.
  unfold keys. rewrite list_lookup_fmap_Some. split.
  - intros ([k v] & -> & H). by exists v.
  - intros (v & H). by exists (mk_elem s v).
Qed.

Lemma assoc_None t index : ~ has_key (keys t) index -> assoc t index = None.
Proof.
  induction t as [|[[| |k] v] t IH]; intros H; simpl; [done| | |].
  3: { destruct (mp_obj_equal k index) eqn:E.
       - destruct H. by exists 0%nat, k. 
       - apply IH. intros (p & k' & ? & ?). apply H. by exists (S p), k'. }
  all: apply IH; intros (p & k' & ? & ?); apply H; by exists (S p), k'.
Qed.

Lemma assoc_inv t index v : assoc t index = Some v ->
  exists p k, t !! p = Some (mk_elem (Key k) v) /\ mp_obj_equal k index = true.
Proof.
  induction t as [|[[| |k] v'] t IH]; simpl; intros H; [done| | |].
  3: { destruct (mp_obj_equal k index) eqn:E.
       - simplify_eq. by exists 0%nat, k.
       - destruct (IH H) as (p & k' & ? & ?). by exists (S p), k'. }
  all: destruct (IH H) as (p & k' & ? & ?); by exists (S p), k'.
Qed.

Lemma assoc_Some t index p k v : keys_wf (keys t) ->
  t !! p = Some (mk_elem (Key k) v) -> mp_obj_equal k index = true -> assoc t index = Some v.
Proof.
  intros Hwf Hp E. destruct (assoc t index) as [v'|] eqn:Ea.
  - destruct (assoc_inv _ _ _ Ea) as (q & k' & Hq & E'). assert (p = q) as ->; [|congruence].
    eapply (kw_uniq _ Hwf p q k k'); try (apply keys_lookup; eauto).
    eapply equal_trans; [done|]. by apply equal_sym.
  - exfalso. revert Ea. revert p Hp. clear Hwf. induction t as [|[s v'] t IH]; intros [|p] Hp Ea; simplify_eq/=.
    + by rewrite E in Ea.
    + destruct s as [| |k']; [by eapply IH..|]. destruct (mp_obj_equal k' index); [done|]. by eapply IH.
Qed.

Lemma assoc_ext t t' index : keys_wf (keys t) -> keys_wf (keys t') ->
  (forall p k v, mp_obj_equal k index = true ->
     t !! p = Some (mk_elem (Key k) v) -> exists p', t' !! p' = Some (mk_elem (Key k) v)) ->
  (forall p k v, mp_obj_equal k index = true ->
     t' !! p = Some (mk_elem (Key k) v) -> exists p', t !! p' = Some (mk_elem (Key k) v)) ->
  assoc t index = assoc t' index.
Proof.
  intros Hwf Hwf' H H'. destruct (assoc t index) as [v|] eqn:E.
  - destruct (assoc_inv _ _ _ E) as (p & k & Hp & Ek). destruct (H _ _ _ Ek Hp) as (p' & Hp').
    symmetry. by eapply assoc_Some.
  - destruct (assoc t' index) as [v|] eqn:E'; [|done].
    destruct (assoc_inv _ _ _ E') as (p & k & Hp & Ek). destruct (H' _ _ _ Ek Hp) as (p' & Hp').
    rewrite <- E. by eapply assoc_Some.
Qed.

Lemma keys_insert t p e : keys (<[p:=e]> t) = <[p:=key e]> (keys t).
Proof. apply list_fmap_insert. Qed.

Lemma keys_length t : length (keys t) = length t.
Proof. apply length_fmap. Qed.

(** Writing the value of a filled slot. *)
Lemma assoc_update t p k v v' index : keys_wf (keys t) -> t !! p = Some (mk_elem (Key k) v) ->
  keys (<[p:=mk_elem (Key k) v']> t) = keys t /\
  assoc (<[p:=mk_elem (Key k) v']> t) index = if mp_obj_equal k index then Some v' else assoc t index.
Proof.
  intros Hwf Hp. assert (Hk : keys (<[p:=mk_elem (Key k) v']> t) = keys t).
  { rewrite keys_insert. apply list_insert_id. apply keys_lookup. by exists v. }
  split; [done|]. destruct (mp_obj_equal k index) eqn:E.
  - eapply (assoc_Some _ _ p); [by rewrite Hk| |done]. apply list_lookup_insert_eq. by eapply lookup_lt_Some.
  - apply assoc_ext; [by rewrite Hk|done| |]; intros q kq vq Eq Hq.
    + exists q. apply list_lookup_insert_Some in Hq as [(<- & [= <- <-] & _)|[? ?]]; [congruence|done].
    + exists q. rewrite list_lookup_insert_ne; [done|]. intros <-. congruence.
Qed.
End Proofs.
