(* ===== verification/MapSpec.v ===== *)
(** * Hash maps: what a lookup promises

    [mp_map_lookup] keeps the table well formed and implements lookup, insertion and removal
    of the association it represents, growing the table when it is full. *)

From S2P Require Import Prelude Malloc MpObj HashKeys Map.

Section Proofs.
Context {obj : Type} `{!EqDecision obj, !MpObjOps obj, !MpObjLaws obj, !Allocator obj, !SmallHeap obj}.
Implicit Types (m : mp_map_t obj) (t : list (mp_map_elem_t obj)) (index k : obj).

(** [match_ok c m index] : comparing with [key_matches c] decides equality with [index] on the
    keys of [m]. *)
Definition match_ok (c : bool) m index : Prop :=
  forall p k, keys (table m) !! p = Some (Key k) -> key_matches c k index = mp_obj_equal k index.

Lemma match_ok_intro m index c : map_wf m ->
  (c = true -> all_keys_are_qstrs m = true /\ (mp_obj_is_qstr index = true \/ mp_obj_is_str index = false)) ->
  match_ok c m index.
Proof.
  intros Hwf Hc p k Hp. unfold key_matches. destruct c; simpl.
  - rewrite orb_false_r. destruct Hc as [Hq Hi]; [done|].
    pose proof (mw_qstrs _ Hwf Hq p k Hp) as Hk.
    case_bool_decide as E; [subst; symmetry; apply equal_refl|].
    destruct (mp_obj_equal k index) eqn:F; [|done]. destruct E. apply qstr_equal; [done| |done].
    destruct (qstr_only_str _ _ Hk F), Hi; congruence.
  - case_bool_decide as E; [subst; simpl; symmetry; apply equal_refl|done].
Qed.

Lemma has_key_insert ks p index k : (p < length ks)%nat -> mp_obj_equal index k = false ->
  (exists s, ks !! p = Some s /\ key_is_filled s = false) ->
  has_key (<[p:=Key index]> ks) k <-> has_key ks k.
Proof.
  intros Hp E (s & Hs & Hf). split; intros (q & k' & Hq & E').
  - apply list_lookup_insert_Some in Hq as [(_ & [= <-] & _)|[? ?]]; [congruence|]. by exists q, k'.
  - exists q, k'. split; [|done]. rewrite list_lookup_insert_ne; [done|]. intros <-. by simplify_eq.
Qed.

Lemma add_at_ok m p index hash s : map_wf m -> mp_hash index = Ret hash ->
  (p < alloc m)%nat -> reach (keys (table m)) (home (alloc m) hash) p ->
  keys (table m) !! p = Some s -> key_is_filled s = false -> ~ has_key (keys (table m)) index ->
  exists m', add_at m p index = Ret (m', Some p) /\ map_wf m' /\ alloc m' = alloc m /\
    used m' = S (used m) /\ table m' = <[p:=mk_elem (Key index) None]> (table m) /\
    forall k, mp_obj_equal k index = false -> assoc (table m') k = assoc (table m) k.
Proof.
  intros Hwf Hi Hp Hr Hs Hf Hno. pose proof (mw_length _ Hwf) as Hl. unfold add_at.
  rewrite wr_Ret by lia. cbn [obind]. rewrite Nat2Z.id. eexists; split; [reflexivity|].
  assert (Hlk : (p < length (keys (table m)))%nat) by (rewrite keys_length; lia).
  assert (Hkwf : keys_wf (<[p:=Key index]> (keys (table m)))).
  { eapply keys_wf_add; eauto; [apply Hwf|]. by rewrite keys_length, Hl. }
  split_and!; cbn [table used alloc]; try done; try lia.
  - split; cbn [table used alloc all_keys_are_qstrs is_fixed is_ordered].
    + apply Hwf.
    + by rewrite length_insert.
    + rewrite (mw_used _ Hwf), keys_insert. cbn [key].
      pose proof (filled_insert _ _ _ (Key index) Hs) as E. rewrite Hf in E. simpl in E. lia.
    + by rewrite keys_insert.
    + intros Hq q k Hk. rewrite keys_insert in Hk. cbn [key] in Hk.
      destruct (mp_obj_is_qstr index) eqn:Ei; [|done].
      apply list_lookup_insert_Some in Hk as [(_ & [= <-] & _)|[_ Hk]]; [done|].
      by eapply (mw_qstrs _ Hwf).
    + apply Hwf.
  - intros k Ek. apply assoc_ext; [by rewrite keys_insert|apply Hwf| |]; intros q kq vq Eq Hq.
    + exists q. apply list_lookup_insert_Some in Hq as [(_ & [= <- _] & _)|[? ?]]; [|done].
      by rewrite (equal_sym _ _ Eq) in Ek.
    + exists q. rewrite list_lookup_insert_ne; [done|]. intros <-.
      assert (keys (table m) !! p = Some (Key kq)) by (apply keys_lookup; eauto). by simplify_eq.
Qed.

(** The branch of [map_probe] that deletes the element it found. *)
Definition remove_at m (pos : nat) (slot : mp_map_elem_t obj) : outcome (mp_map_t obj * option nat) :=
  let m := with_used m (used m - 1) in
  let! next := rd (table m) (Z.of_nat ((pos + 1) mod alloc m)%nat) in
  let k' := match key next with KNull => KNull | _ => KSentinel end in
  let! t := wr (table m) (Z.of_nat pos) (mk_elem k' (value slot)) in
  Ret (with_table m t, Some pos).

Lemma remove_at_ok m p k v : map_wf m -> table m !! p = Some (mk_elem (Key k) v) ->
  exists m', remove_at m p (mk_elem (Key k) v) = Ret (m', Some p) /\ map_wf m' /\
    alloc m' = alloc m /\ S (used m') = used m /\ (exists d, table m' !! p = Some (mk_elem d v) /\ key_is_filled d = false) /\
    forall k', assoc (table m') k' = if mp_obj_equal k' k then None else assoc (table m) k'.
Proof.
  intros Hwf Hp. pose proof (mw_length _ Hwf) as Hl.
  assert (Hlt : (p < alloc m)%nat) by (rewrite <- Hl; by eapply lookup_lt_Some).
  assert (Hk : keys (table m) !! p = Some (Key k)) by (apply keys_lookup; eauto).
  set (d := deleted_key (keys (table m)) p).
  assert (Hrm : remove_at m p (mk_elem (Key k) v) =
    Ret (with_table (with_used m (used m - 1)) (<[p:=mk_elem d v]> (table m)), Some p)).
  { unfold remove_at. cbn [with_used table alloc value].
    pose proof (Nat.mod_upper_bound (p + 1) (alloc m) ltac:(lia)).
    destruct (rd_in_bounds (table m) (Z.of_nat ((p + 1) mod alloc m)%nat)) as (e & He & Hle); [lia|].
    rewrite He. cbn [obind]. rewrite wr_Ret by lia. cbn [obind]. rewrite Nat2Z.id in *.
    do 3 f_equal. unfold d, deleted_key. rewrite keys_length, Hl. unfold keys.
    rewrite list_lookup_fmap, Hle. done. }
  exists (with_table (with_used m (used m - 1)) (<[p:=mk_elem d v]> (table m))). split; [done|].
  pose proof (deleted_key_unfilled (keys (table m)) p) as Hd. fold d in Hd.
  pose proof (filled_insert _ _ _ d Hk) as Hu. rewrite Hd in Hu. cbn [key_is_filled] in Hu.
  pose proof (keys_wf_remove _ _ _ (mw_keys _ Hwf) Hk) as Hkwf. fold d in Hkwf.
  split_and!; cbn [with_table with_used table used alloc]; try done.
  - split; cbn [with_table with_used table used alloc all_keys_are_qstrs is_fixed is_ordered].
    + apply Hwf.
    + by rewrite length_insert.
    + rewrite keys_insert, (mw_used _ Hwf). cbn [key]. lia.
    + by rewrite keys_insert.
    + intros Hq q kq Hkq. rewrite keys_insert in Hkq. cbn [key] in Hkq.
      apply list_lookup_insert_Some in Hkq as [(_ & E & _)|[_ Hkq]]; [by rewrite E in Hd|].
      by eapply (mw_qstrs _ Hwf).
    + apply Hwf.
  - rewrite (mw_used _ Hwf). lia.
  - exists d. split; [|done]. apply list_lookup_insert_eq. lia.
  - intros k'. destruct (mp_obj_equal k' k) eqn:E.
    + apply assoc_None. intros (q & kq & Hq & Eq). rewrite keys_insert in Hq. cbn [key] in Hq.
      apply list_lookup_insert_Some in Hq as [(_ & E' & _)|[Hne Hq]]; [by rewrite E' in Hd|].
      destruct Hne. eapply (kw_uniq _ (mw_keys _ Hwf)); eauto.
      apply equal_sym. by eapply equal_trans.
    + apply assoc_ext; [by rewrite keys_insert|apply Hwf| |]; intros q kq vq Eq Hq.
      * exists q. apply list_lookup_insert_Some in Hq as [(_ & [= E' _] & _)|[? ?]]; [by rewrite E' in Hd|done].
      * exists q. rewrite list_lookup_insert_ne; [done|]. intros <-.
        rewrite Hp in Hq. injection Hq as <- _. by rewrite (equal_sym _ _ Eq) in E.
Qed.

Section Probe.
Variable rehash : mp_map_t obj -> outcome (mp_map_t obj).

(** The probing loop is [scan] followed by the action for what it found. *)
Lemma map_probe_scan m index kind hash c n f i avail h :
  (1 <= n)%nat -> (i + n = alloc m)%nat -> (h < alloc m)%nat -> length (table m) = alloc m ->
  map_probe rehash (n + f) m index kind hash c (path (alloc m) h i) h avail =
  match scan (fun k => key_matches c k index) (keys (table m)) n (path (alloc m) h i) avail with
  | Found p =>
    let! slot := rd (table m) (Z.of_nat p) in
    if (kind =? MP_MAP_LOOKUP_REMOVE_IF_FOUND)%Z then remove_at m p slot else Ret (m, Some p)
  | Stop (Some p) =>
    if (kind =? MP_MAP_LOOKUP_ADD_IF_NOT_FOUND)%Z then add_at m p index else Ret (m, None)
  | Stop None =>
    if (kind =? MP_MAP_LOOKUP_ADD_IF_NOT_FOUND)%Z then
      let! m := rehash m in
      let pos := home (alloc m) hash in
      map_probe rehash f m index kind hash c pos pos None
    else Ret (m, None)
  end.
Proof.
  revert i avail. induction n as [|n IH]; intros i avail Hn Hin Hh Hl; [lia|].
  cbn [Nat.add map_probe scan]. rewrite keys_length, Hl.
  pose proof (path_lt (alloc m) h i ltac:(lia)) as Hplt.
  destruct (rd_in_bounds (table m) (Z.of_nat (path (alloc m) h i))) as (e & He & Hle); [lia|].
  rewrite Nat2Z.id in Hle. rewrite He. cbn [obind].
  assert (Hk : keys (table m) !! path (alloc m) h i = Some (key e)).
  { apply keys_lookup. exists (value e). by destruct e. }
  rewrite Hk, path_S by lia.
  assert (Hlast : (path (alloc m) h (S i) =? h)%nat = (n =? 0)%nat).
  { destruct (Nat.eqb_spec n 0) as [->|Hn0].
    - apply Nat.eqb_eq. unfold path. replace (h + S i)%nat with (h + 1 * alloc m)%nat by lia.
      rewrite Nat.Div0.mod_add. by apply Nat.mod_small.
    - apply Nat.eqb_neq. intros E. rewrite <- (path_0 (alloc m) h) in E at 2 by done.
      apply path_inj in E; lia. }
  destruct (key e) as [| |k] eqn:Ek.
  - destruct (kind =? _)%Z; [|done]. done.
  - rewrite Hlast. destruct n; [|by apply IH; lia].
    cbn [Nat.eqb scan]. destruct avail; done.
  - destruct (key_matches c k index) eqn:Em.
    + rewrite He. cbn [obind]. destruct (kind =? _)%Z; done.
    + rewrite Hlast. destruct n; [|by apply IH; lia].
      cbn [Nat.eqb scan]. destruct avail; done.
Qed.

(** A lookup that finds room, or need not add, ends within one pass. *)
Lemma map_probe_room m index kind hash c f :
  map_wf m -> mp_hash index = Ret hash -> (used m < alloc m)%nat -> match_ok c m index ->
  exists m' slot, map_probe rehash (alloc m + f) m index kind hash c (home (alloc m) hash) (home (alloc m) hash) None
      = Ret (m', slot) /\ lookup_post m index kind m' slot /\ alloc m' = alloc m /\
    (kind = MP_MAP_LOOKUP_ADD_IF_NOT_FOUND -> forall p k, keys (table m') !! p = Some (Key k) ->
       k = index \/ exists q, keys (table m) !! q = Some (Key k)).
Proof.
  intros Hwf Hi Hroom Hc. pose proof (mw_length _ Hwf) as Hl.
  pose proof (home_lt (alloc m) hash ltac:(lia)) as Hh.
  pose proof (map_probe_scan m index kind hash c (alloc m) f 0 None (home (alloc m) hash)
    ltac:(lia) ltac:(lia) Hh Hl) as Hp. rewrite path_0 in Hp by done. rewrite Hp. clear Hp.
  pose proof (scan_spec (keys (table m)) index hash (fun k => key_matches c k index) (mw_keys _ Hwf) Hi) as Hs.
  rewrite keys_length, Hl in Hs. specialize (Hs ltac:(lia) Hc).
  destruct (scan _ _ _ _ _) as [p|[p|]].
  - destruct Hs as (k & Hp & Ek). apply keys_lookup in Hp as (v & Hp).
    rewrite (rd_Ret _ (Z.of_nat p) (mk_elem (Key k) v)) by (rewrite ?Nat2Z.id; done || lia). cbn [obind].
    assert (Ha : assoc (table m) index = Some v) by (eapply assoc_Some; eauto; apply Hwf).
    destruct (kind =? MP_MAP_LOOKUP_REMOVE_IF_FOUND)%Z eqn:Ekind.
    + destruct (remove_at_ok m p k v Hwf Hp) as (m' & -> & Hwf' & Hal & Hu & Hd & Has).
      exists m', (Some p). split; [done|]. split; [|split; [done|]].
      * unfold lookup_post. rewrite Ha. split; [done|]. split.
        -- intros k' Ek'. rewrite Has. destruct (mp_obj_equal k' k) eqn:F; [|done].
           by rewrite (equal_trans _ _ _ F Ek) in Ek'.
        -- exists p, k. rewrite Ekind. split_and!; try done. by rewrite Has, (equal_sym _ _ Ek).
      * intros ->. done.
    + eexists _, _. split; [done|]. split; [|split; [done|eauto]].
      unfold lookup_post. rewrite Ha. split; [done|]. split; [done|]. exists p, k. by rewrite Ekind.
  - destruct Hs as (Hno & Hp & Hr & s & Hps & Hf).
    assert (Ha : assoc (table m) index = None) by by apply assoc_None.
    destruct (kind =? MP_MAP_LOOKUP_ADD_IF_NOT_FOUND)%Z eqn:Ekind.
    + destruct (add_at_ok m p index hash s Hwf Hi) as (m' & -> & Hwf' & Hal & Hu & Ht & Has); try done.
      exists m', (Some p). split; [done|]. split; [|split; [done|]].
      * unfold lookup_post. rewrite Ha, Ekind. split; [done|]. split; [done|]. exists p. split_and!; try done.
        rewrite Ht. apply list_lookup_insert_eq. lia.
      * intros _ q k Hq. rewrite Ht, keys_insert in Hq.
        apply list_lookup_insert_Some in Hq as [(_ & [= <-] & _)|[? ?]]; eauto.
    + eexists _, _. split; [done|]. split; [|split; [done|eauto]].
      unfold lookup_post. rewrite Ha, Ekind. done.
  - destruct Hs as [_ Hfull]. rewrite <- (mw_used _ Hwf) in Hfull. lia.
Qed.

(** What the lookup needs of [mp_map_rehash]. *)
Definition rehash_ok m : Prop := (cannot_grow m /\ rehash m = Raise MemoryError) \/
  ~ cannot_grow m /\ exists m', rehash m = Ret m' /\ map_wf m' /\
    alloc m' = get_hash_alloc_greater_or_equal_to (alloc m + 1) /\ used m' = used m /\
    (forall k, assoc (table m') k = assoc (table m) k) /\
    (forall p k, keys (table m') !! p = Some (Key k) -> exists q, keys (table m) !! q = Some (Key k)).

Lemma map_probe_full m index kind hash c :
  map_wf m -> mp_hash index = Ret hash -> (0 < alloc m)%nat -> used m = alloc m ->
  match_ok c m index -> rehash_ok m ->
  let r := map_probe rehash (alloc m + get_hash_alloc_greater_or_equal_to (alloc m + 1) + 1)
      m index kind hash c (home (alloc m) hash) (home (alloc m) hash) None in
  (lookup_fails m index kind /\ r = Raise MemoryError) \/ ~ lookup_fails m index kind /\ exists m' slot, r = Ret (m', slot) /\ lookup_post m index kind m' slot.
Proof.
  intros Hwf Hi Hpos Hu Hc Hre. cbv zeta. pose proof (mw_length _ Hwf) as Hl.
  pose proof (home_lt (alloc m) hash ltac:(lia)) as Hh. rewrite <- Nat.add_assoc.
  pose proof (map_probe_scan m index kind hash c (alloc m)
    (get_hash_alloc_greater_or_equal_to (alloc m + 1) + 1) 0 None (home (alloc m) hash)
    ltac:(lia) ltac:(lia) Hh Hl) as Hp. rewrite path_0 in Hp by done. rewrite Hp. clear Hp.
  pose proof (scan_spec (keys (table m)) index hash (fun k => key_matches c k index) (mw_keys _ Hwf) Hi) as Hs.
  rewrite keys_length, Hl in Hs. specialize (Hs Hpos Hc).
  destruct (scan _ _ _ _ _) as [p|[p|]].
  - destruct Hs as (k & Hp & Ek). apply keys_lookup in Hp as (v & Hp).
    rewrite (rd_Ret _ (Z.of_nat p) (mk_elem (Key k) v)) by (rewrite ?Nat2Z.id; done || lia). cbn [obind].
    assert (Ha : assoc (table m) index = Some v) by (eapply assoc_Some; eauto; apply Hwf).
    destruct (kind =? MP_MAP_LOOKUP_REMOVE_IF_FOUND)%Z eqn:Ekind.
    + destruct (remove_at_ok m p k v Hwf Hp) as (m' & -> & Hwf' & Hal & Hu' & Hd & Has).
      right. split; [intros (_ & E & _); congruence|]. exists m', (Some p). split; [done|].
      unfold lookup_post. rewrite Ha. split; [done|]. split.
      * intros k' Ek'. rewrite Has. destruct (mp_obj_equal k' k) eqn:F; [|done].
        by rewrite (equal_trans _ _ _ F Ek) in Ek'.
      * exists p, k. rewrite Ekind. split_and!; try done. by rewrite Has, (equal_sym _ _ Ek).
    + right. split; [intros (_ & E & _); congruence|]. eexists _, _. split; [done|]. unfold lookup_post. rewrite Ha.
      split; [done|]. split; [done|]. exists p, k. by rewrite Ekind.
  - exfalso. destruct Hs as (Hno & Hp & Hr & s & Hps & Hf).
    pose proof (filled_insert _ _ _ (Key index) Hps) as E. rewrite Hf in E. cbn [key_is_filled] in E.
    pose proof (filled_le (<[p:=Key index]> (keys (table m)))) as E'.
    rewrite length_insert, keys_length, Hl in E'. rewrite (mw_used _ Hwf) in Hu. lia.
  - destruct Hs as [Hno _].
    assert (Ha : assoc (table m) index = None) by by apply assoc_None.
    destruct (kind =? MP_MAP_LOOKUP_ADD_IF_NOT_FOUND)%Z eqn:Ekind.
    + apply Z.eqb_eq in Ekind as Ekind'. destruct Hre as [[Hg Hm1]|(Hg & m1 & Hm1 & Hwf1 & Hal1 & Hu1 & Has1 & Hk1)];
        rewrite Hm1; cbn [obind]; [left; by split|right; split; [by intros (_ & _ & _ & ?)|]]. rewrite <- Hal1.
      pose proof (hash_alloc_ge (alloc m + 1)).
      destruct (map_probe_room m1 index kind hash c 1 Hwf1 Hi) as (m' & slot & -> & Hpost & _); [lia| |].
      { intros p k Hp. destruct (Hk1 p k Hp) as (q & Hq). by eapply Hc. }
      exists m', slot. split; [done|]. destruct Hpost as (Hwf' & Hother & Hres).
      split; [done|]. split; [intros k Ek; by rewrite Hother, Has1|].
      rewrite Has1, Ha, Ekind, Hu1 in Hres. by rewrite Ha, Ekind.
    + right. split; [intros (-> & _); done|]. eexists _, _. split; [done|]. unfold lookup_post. rewrite Ha, Ekind. done.
Qed.

Lemma lookup_absent m index kind : map_wf m -> ~ has_key (keys (table m)) index ->
  (kind =? MP_MAP_LOOKUP_ADD_IF_NOT_FOUND)%Z = false -> lookup_post m index kind m None.
Proof.
  intros Hwf Hno Hk. unfold lookup_post. rewrite (assoc_None _ _ Hno), Hk. done.
Qed.

Lemma no_key_empty m index : map_wf m -> alloc m = 0%nat -> ~ has_key (keys (table m)) index.
Proof.
  intros Hwf E (p & k & Hp & _). apply lookup_lt_Some in Hp.
  rewrite keys_length, (mw_length _ Hwf) in Hp. lia.
Qed.

(** The comparison the lookup chose is right for the keys of the table. *)
Lemma body_match_ok m index : map_wf m ->
  match_ok (if all_keys_are_qstrs m && negb (mp_obj_is_qstr index) && mp_obj_is_str index
            then false else all_keys_are_qstrs m) m index.
Proof.
  intros Hwf. apply match_ok_intro; [done|].
  destruct (all_keys_are_qstrs m); simpl; [|done].
  destruct (mp_obj_is_qstr index); simpl; [by auto|]. destruct (mp_obj_is_str index); simpl; auto.
Qed.

(** The whole lookup, when there is room for one more key. *)
Lemma map_lookup_body_room m index kind hash :
  map_wf m -> mp_hash index = Ret hash -> (used m < alloc m)%nat ->
  exists m' slot, map_lookup_body rehash m index kind = Ret (m', slot) /\ lookup_post m index kind m' slot /\
    alloc m' = alloc m /\
    (kind = MP_MAP_LOOKUP_ADD_IF_NOT_FOUND -> forall p k, keys (table m') !! p = Some (Key k) ->
       k = index \/ exists q, keys (table m) !! q = Some (Key k)).
Proof.
  intros Hwf Hi Hroom. unfold map_lookup_body. destruct (mw_hash_table _ Hwf) as [-> ->]. cbn [andb].
  destruct (_ && negb (kind =? _)%Z) eqn:Hearly.
  - apply andb_true_iff in Hearly as [Hearly Hk]. apply andb_true_iff in Hearly as [Hearly Hs].
    apply andb_true_iff in Hearly as [Ha Hq]. rewrite !negb_true_iff in *.
    eexists _, _. split; [done|]. split; [|split; [done|eauto]].
    apply lookup_absent; [done| |done]. intros (p & k & Hp & E).
    pose proof (mw_qstrs _ Hwf Ha p k Hp) as Hkq. destruct (qstr_only_str _ _ Hkq E); congruence.
  - rewrite (proj2 (Nat.eqb_neq _ _)) by lia. rewrite Hi. cbn [obind].
    rewrite <- Nat.add_assoc. apply map_probe_room; [done..|]. by apply body_match_ok.
Qed.

Lemma map_lookup_body_ok m index kind hash :
  map_wf m -> mp_hash index = Ret hash -> rehash_ok m ->
  (lookup_fails m index kind /\ map_lookup_body rehash m index kind = Raise MemoryError) \/
  ~ lookup_fails m index kind /\ exists m' slot, map_lookup_body rehash m index kind = Ret (m', slot) /\ lookup_post m index kind m' slot.
Proof.
  intros Hwf Hi Hre. destruct (Nat.lt_ge_cases (used m) (alloc m)) as [Hroom|Hfull].
  { right. split; [intros (_ & _ & ? & _); lia|]. destruct (map_lookup_body_room m index kind hash Hwf Hi Hroom) as (m' & slot & ? & ? & _); eauto. }
  pose proof (filled_le (keys (table m))) as Hle.
  rewrite keys_length, (mw_length _ Hwf), <- (mw_used _ Hwf) in Hle.
  unfold map_lookup_body. destruct (mw_hash_table _ Hwf) as [-> ->]. cbn [andb].
  destruct (_ && negb (kind =? _)%Z) eqn:Hearly.
  - apply andb_true_iff in Hearly as [Hearly Hk]. apply andb_true_iff in Hearly as [Hearly Hs].
    apply andb_true_iff in Hearly as [Ha Hq]. rewrite !negb_true_iff in *.
    right. split; [intros (-> & _); done|]. eexists _, _. split; [done|].
    apply lookup_absent; [done| |done]. intros (p & k & Hp & E).
    pose proof (mw_qstrs _ Hwf Ha p k Hp) as Hkq. destruct (qstr_only_str _ _ Hkq E); congruence.
  - destruct (Nat.eqb_spec (alloc m) 0) as [E0|E0].
    + destruct (kind =? MP_MAP_LOOKUP_ADD_IF_NOT_FOUND)%Z eqn:Ekind.
      * pose proof (assoc_None _ _ (no_key_empty m index Hwf E0)) as Ha. apply Z.eqb_eq in Ekind as Ekind'.
        destruct Hre as [[Hg ->]|(Hg & m1 & -> & Hwf1 & Hal1 & Hu1 & Has1 & Hk1)]; cbn [obind]; [left; split_and!; try done; unfold lookup_fails; split_and!; try done; lia|right; split; [by intros (_ & _ & _ & ?)|]]. rewrite Hi. cbn [obind].
        pose proof (hash_alloc_ge (alloc m + 1)).
        rewrite <- Nat.add_assoc.
        edestruct (map_probe_room m1) as (m' & slot & -> & Hpost & _);
          [exact Hwf1|exact Hi|lia| |].
        { intros p k Hp. destruct (Hk1 p k Hp) as (q & Hq). by eapply (body_match_ok m index Hwf). }
        exists m', slot. split; [done|]. destruct Hpost as (Hwf' & Hother & Hres).
        split; [done|]. split; [intros k Ek; by rewrite Hother, Has1|].
        rewrite Has1, Ha, Ekind, Hu1 in Hres. by rewrite Ha, Ekind.
      * right. split; [intros (-> & _); done|]. eexists _, _. split; [done|]. apply lookup_absent; [done| |done]. by apply no_key_empty.
    + rewrite Hi. cbn [obind]. apply map_probe_full; try done; [lia|lia|]. by apply body_match_ok.
Qed.
End Probe.

(** ** Rehashing *)

Lemma gives_small n : (0 <= n)%Z -> gives (A := obj) 8 n = true -> (n < 2 ^ 25)%Z.
Proof.
  intros H0 Hg. unfold gives in Hg. apply orb_true_iff in Hg as [->%Z.eqb_eq|Hg]; [lia|]. apply small_heap in Hg. lia.
Qed.

Section Reinsert.
Variable lookup : mp_map_t obj -> obj -> Z -> outcome (mp_map_t obj * option nat).
Hypothesis lookup_room : forall m index hash,
  map_wf m -> mp_hash index = Ret hash -> (used m < alloc m)%nat ->
  exists m' slot, lookup m index MP_MAP_LOOKUP_ADD_IF_NOT_FOUND = Ret (m', slot) /\
    lookup_post m index MP_MAP_LOOKUP_ADD_IF_NOT_FOUND m' slot /\ alloc m' = alloc m /\
    (forall p k, keys (table m') !! p = Some (Key k) -> k = index \/ exists q, keys (table m) !! q = Some (Key k)).

Definition distinct_keys t : Prop :=
  (forall p k, keys t !! p = Some (Key k) -> exists hash, mp_hash k = Ret hash) /\
  forall p q k k', keys t !! p = Some (Key k) -> keys t !! q = Some (Key k') ->
    mp_obj_equal k k' = true -> p = q.

Lemma distinct_keys_tail e t : distinct_keys (e :: t) -> distinct_keys t /\
  forall k, key e = Key k -> ~ has_key (keys t) k.
Proof.
  intros [Hh Hu]. split; [split|].
  - intros p k Hp. by apply (Hh (S p)).
  - intros p q k k' Hp Hq E. specialize (Hu (S p) (S q) k k' Hp Hq E). lia.
  - intros k Hk (p & k' & Hp & E). specialize (Hu (S p) 0%nat k' k). simpl in Hu. rewrite Hk in Hu.
    specialize (Hu Hp eq_refl E). lia.
Qed.

Lemma reinsert_ok old m :
  map_wf m -> distinct_keys old -> (used m + filled (keys old) <= alloc m)%nat ->
  (forall p k, keys old !! p = Some (Key k) -> ~ has_key (keys (table m)) k) ->
  exists m', reinsert lookup old m = Ret m' /\ map_wf m' /\ alloc m' = alloc m /\
    used m' = (used m + filled (keys old))%nat /\
    (forall k, assoc (table m') k = match assoc old k with Some v => Some v | None => assoc (table m) k end) /\
    (forall p k, keys (table m') !! p = Some (Key k) ->
       (exists q, keys old !! q = Some (Key k)) \/ exists q, keys (table m) !! q = Some (Key k)).
Proof.
  revert m. induction old as [|[s v] old IH]; intros m Hwf Hd Hroom Hdis.
  { exists m. simpl. rewrite Nat.add_0_r. split_and!; eauto. }
  destruct (distinct_keys_tail _ _ Hd) as [Hd' Hno]. cbn [reinsert key].
  destruct s as [| |k0].
  1, 2: destruct (IH m Hwf Hd' Hroom) as (m' & ? & ? & ? & ? & ? & Hks);
    [intros p k Hp; by apply (Hdis (S p))|]; exists m'; split_and!; try done;
    intros p k Hp; destruct (Hks p k Hp) as [(q & Hq)|]; [left; by exists (S q)|by right].
  destruct (proj1 Hd 0%nat k0 eq_refl) as (hash & Hh0).
  assert (Hno0 : ~ has_key (keys (table m)) k0) by by apply (Hdis 0%nat).
  cbn [keys fmap list_fmap key filled key_is_filled] in Hroom.
  destruct (lookup_room m k0 hash Hwf Hh0) as (m1 & slot & -> & (Hwf1 & Hoth & Hres) & Hal1 & Hk1); [lia|].
  cbn [obind]. rewrite (assoc_None _ _ Hno0) in Hres.
  destruct Hres as (p & -> & Hp & Hu1).
  rewrite (rd_Ret _ (Z.of_nat p) (mk_elem (Key k0) None)) by (rewrite ?Nat2Z.id; done || lia). cbn [obind].
  rewrite wr_Ret by (apply lookup_lt_Some in Hp; lia). cbn [obind key value]. rewrite Nat2Z.id.
  set (m2 := with_table m1 _).
  assert (Hup : forall k, keys (table m2) = keys (table m1) /\
     assoc (table m2) k = if mp_obj_equal k0 k then Some v else assoc (table m1) k).
  { intros k. eapply assoc_update; [apply Hwf1|done]. }
  destruct (Hup k0) as [Hkeys2 _].
  assert (Hwf2 : map_wf m2).
  { destruct Hwf1 as [H1 H2 H3 H4 H5 H6]. split; try done.
    - cbn [m2 with_table table alloc]. by rewrite length_insert.
    - by rewrite Hkeys2.
    - by rewrite Hkeys2.
    - by rewrite Hkeys2. }
  destruct (IH m2 Hwf2 Hd') as (m' & Hre & Hwf' & Hal' & Hu' & Has' & Hks').
  { cbn [m2 with_table used alloc]. change (keys old) with (key <$> old). lia. }
  { intros q k Hq. rewrite Hkeys2. intros (r & k' & Hr & E). destruct (Hk1 r k' Hr) as [->|(q' & Hq')].
    - apply (Hno k0 eq_refl). exists q, k. split; [done|]. by apply equal_sym.
    - apply (Hdis (S q) k Hq). by exists q', k'. }
  exists m'. split_and!; try done.
  - by rewrite Hal'.
  - rewrite Hu'. cbn [m2 with_table used keys fmap list_fmap key filled key_is_filled].
    change (keys old) with (key <$> old). lia.
  - intros k. rewrite Has'. cbn [assoc key]. destruct (Hup k) as [_ ->].
    destruct (mp_obj_equal k0 k) eqn:E.
    + rewrite (assoc_None old k); [done|]. intros (q & k' & Hq & E').
      apply (Hno k0 eq_refl). exists q, k'. split; [done|]. eapply equal_trans; [done|]. by apply equal_sym.
    + destruct (assoc old k); [done|]. apply Hoth. destruct (mp_obj_equal k k0) eqn:F; [|done].
      by rewrite (equal_sym _ _ F) in E.
  - intros q k Hq. destruct (Hks' q k Hq) as [(r & Hr)|(r & Hr)]; [left; by exists (S r)|].
    rewrite Hkeys2 in Hr. destruct (Hk1 r k Hr) as [->|?]; [left; by exists 0%nat|by right].
Qed.

Lemma map_rehash_ok m : map_wf m -> rehash_ok (map_rehash_with lookup) m.
Proof.
  intros Hwf. unfold rehash_ok, map_rehash_with. pose proof (mw_length _ Hwf) as Hl.
  rewrite take_ge by lia. pose proof (mw_small _ Hwf) as Hsm. pose proof (hash_alloc_le (alloc m + 1)) as Hle0.
  rewrite m_new0_of_ok by lia. unfold cannot_grow. set (n := get_hash_alloc_greater_or_equal_to (alloc m + 1)) in *.
  destruct (gives 8 (Z.of_nat n)) eqn:Hg; [right; split; [done|]|by left]. cbn [obind]. rewrite Nat2Z.id.
  assert (Hn : (Z.of_nat n < 2 ^ 25)%Z) by (apply gives_small; [lia|exact Hg]).
  set (m0 := mk_map true (is_fixed m) (is_ordered m) 0 n (replicate n null_elem)).
  assert (Hk0 : keys (table m0) = replicate n KNull) by (unfold keys; cbn [m0 table]; by rewrite fmap_replicate).
  assert (Hno : forall k, ~ has_key (keys (table m0)) k).
  { intros k (p & k' & Hp & _). rewrite Hk0 in Hp. by apply lookup_replicate in Hp as []. }
  assert (Hwf0 : map_wf m0).
  { split; rewrite ?Hk0.
    - apply Hwf.
    - apply length_replicate.
    - by rewrite filled_replicate.
    - apply keys_wf_empty.
    - intros _ p k Hp. by apply lookup_replicate in Hp as [].
    - done. }
  destruct (reinsert_ok (table m) m0 Hwf0) as (m' & -> & Hwf' & Hal & Hu & Has & Hks).
  - split; [|apply Hwf]. intros p k Hp. destruct (kw_hash _ (mw_keys _ Hwf) p k Hp) as (h & ? & _). eauto.
  - cbn [m0 used alloc]. pose proof (filled_le (keys (table m))) as Hle.
    rewrite keys_length in Hle. pose proof (hash_alloc_ge (alloc m + 1)). unfold n. lia.
  - auto.
  - exists m'. split_and!; try done.
    + by rewrite Hu, (mw_used _ Hwf).
    + intros k. rewrite Has, (assoc_None _ _ (Hno k)). by destruct (assoc _ k).
    + intros p k Hp. destruct (Hks p k Hp) as [?|(q & Hq)]; [done|].
      rewrite Hk0 in Hq. by apply lookup_replicate in Hq as [].
Qed.
End Reinsert.

(** ** The theorems *)

Lemma mp_map_lookup_unfold m index kind :
  mp_map_lookup m index kind = map_lookup_body (map_rehash_with (map_lookup_depth 0)) m index kind.
Proof. reflexivity. Qed.

Lemma lookup_spec m index kind hash : map_wf m -> mp_hash index = Ret hash ->
  (lookup_fails m index kind /\ mp_map_lookup m index kind = Raise MemoryError) \/
  ~ lookup_fails m index kind /\ exists m' slot, mp_map_lookup m index kind = Ret (m', slot) /\ lookup_post m index kind m' slot.
Proof.
  intros Hwf Hi. rewrite mp_map_lookup_unfold. eapply map_lookup_body_ok; [done..|]. apply map_rehash_ok; [|done].
  intros m1 k1 h1 Hwf1 Hh1 Hroom1. cbn [map_lookup_depth].
  destruct (map_lookup_body_room (fun _ => OutOfFuel) m1 k1 MP_MAP_LOOKUP_ADD_IF_NOT_FOUND h1 Hwf1 Hh1 Hroom1)
    as (m' & slot & ? & ? & ? & ?). eauto 10.
Qed.
(** A lookup that does not add needs no memory. *)
Lemma find_spec m index kind hash : map_wf m -> mp_hash index = Ret hash -> kind <> MP_MAP_LOOKUP_ADD_IF_NOT_FOUND ->
  exists m' slot, mp_map_lookup m index kind = Ret (m', slot) /\ lookup_post m index kind m' slot.
Proof. intros Hwf Hi Hk. destruct (lookup_spec m index kind hash Hwf Hi) as [[[? _] _]|[_ ?]]; done. Qed.

Lemma add_spec m index hash : map_wf m -> mp_hash index = Ret hash ->
  oom obj (mp_map_lookup m index MP_MAP_LOOKUP_ADD_IF_NOT_FOUND) (fun '(m', slot) => lookup_post m index MP_MAP_LOOKUP_ADD_IF_NOT_FOUND m' slot).
Proof.
  intros Hwf Hi. destruct (lookup_spec m index MP_MAP_LOOKUP_ADD_IF_NOT_FOUND hash Hwf Hi) as [[(_ & _ & _ & Hg) ->]|(_ & m' & slot & -> & ?)]; [apply oom_Raise; by apply gives_refuses in Hg|].
  right. by exists (m', slot).
Qed.
End Proofs.

Section Theorems.
Context {obj : Type} `{!EqDecision obj, !MpObjOps obj, !MpObjLaws obj, !Allocator obj, !SmallHeap obj}.
Implicit Types (m : mp_map_t obj) (t : list (mp_map_elem_t obj)) (index k : obj).

(** A fresh table is well formed and empty. *)
Definition empty_map m : Prop := map_wf m /\ forall k, assoc (table m) k = None.

Lemma empty_map_0 : empty_map (mk_map true false false 0 0 []).
Proof. split; [|done]. split; try done; first [apply (keys_wf_empty 0)|by intros _ [|?] ?]. Qed.

Lemma mp_map_init_ok n : (Z.of_nat n < 2 ^ 28)%Z -> oom obj (mp_map_init n) empty_map.
Proof.
  intros Hn. unfold mp_map_init. destruct (Nat.eqb_spec n 0); [apply oom_Ret, empty_map_0|]. rewrite m_new0_of_ok by lia.
  destruct (gives 8 (Z.of_nat n)) eqn:Hg; [|apply oom_Raise; by apply gives_refuses in Hg]. apply oom_Ret. rewrite Nat2Z.id.
  set (m := mk_map true false false 0 n (replicate n null_elem)).
  assert (Hk : keys (table m) = replicate n KNull) by (unfold keys; cbn [m table]; by rewrite fmap_replicate).
  split.
  - split; rewrite ?Hk; try done.
    + apply length_replicate.
    + by rewrite filled_replicate.
    + apply keys_wf_empty.
    + intros _ p k Hp. by apply lookup_replicate in Hp as [].
    + apply (gives_small (obj := obj)); [cbn; lia|done].
  - intros k. apply assoc_None. intros (p & k' & Hp & _). rewrite Hk in Hp. by apply lookup_replicate in Hp as [].
Qed.

(** C2. [mp_map_lookup] on a well-formed hash table and a hashable index either raises [MemoryError], which happens
    exactly when the index has to be added, the table is full and the heap has no room for the larger one (the
    allocation comes before any change), or it returns (the nested rehash and the probing loop terminate), keeps the table
    well formed and every other association unchanged, and
    - finds the slot of an equal key if there is one (removing it under REMOVE_IF_FOUND,
      its value still readable in the returned slot);
    - otherwise adds the index with no value under ADD_IF_NOT_FOUND, growing the table if it is
      full, and returns no slot and changes nothing under the other kinds. *)
Theorem mp_map_lookup_spec m index lookup_kind hash :
  map_wf m -> mp_hash index = Ret hash ->
  (mp_map_lookup m index lookup_kind = Raise MemoryError <->
     lookup_kind = MP_MAP_LOOKUP_ADD_IF_NOT_FOUND /\ assoc (table m) index = None /\ used m = alloc m /\ cannot_grow m) /\
  (mp_map_lookup m index lookup_kind = Raise MemoryError \/
  exists m' slot, mp_map_lookup m index lookup_kind = Ret (m', slot) /\
    map_wf m' /\
    (forall k, mp_obj_equal k index = false -> assoc (table m') k = assoc (table m) k) /\
    match assoc (table m) index with
    | Some v =>
      exists p k, slot = Some p /\ table m !! p = Some (mk_elem (Key k) v) /\ mp_obj_equal k index = true /\
      if (lookup_kind =? MP_MAP_LOOKUP_REMOVE_IF_FOUND)%Z
      then assoc (table m') index = None /\ S (used m') = used m /\
           (exists d, table m' !! p = Some (mk_elem d v) /\ key_is_filled d = false)
      else m' = m
    | None =>
      if (lookup_kind =? MP_MAP_LOOKUP_ADD_IF_NOT_FOUND)%Z
      then exists p, slot = Some p /\ table m' !! p = Some (mk_elem (Key index) None) /\ used m' = S (used m)
      else m' = m /\ slot = None
    end).
Proof.
  intros Hwf Hi. destruct (lookup_spec m index lookup_kind hash Hwf Hi) as [[Hf Hr]|(Hf & m' & slot & Hr & Hp)].
  - split; [|by left]. by split; intros _.
  - split; [|right; by exists m', slot]. split; [by rewrite Hr|by intros ?; destruct Hf].
Qed.

(** [mp_map_rehash] keeps the association and the number of keys, and makes room. *)
Lemma mp_map_rehash_ok m : map_wf m -> (cannot_grow m /\ mp_map_rehash m = Raise MemoryError) \/
  exists m', mp_map_rehash m = Ret m' /\ map_wf m' /\
  (alloc m < alloc m')%nat /\ used m' = used m /\ forall k, assoc (table m') k = assoc (table m) k.
Proof.
  intros Hwf. destruct (map_rehash_ok (mp_map_lookup (obj := obj))) with (m := m) as [?|(_ & m' & ? & ? & Hal & ? & ? & _)]; [|done|by left|right].
  - intros m1 k1 h1 Hwf1 Hh1 Hroom1. unfold mp_map_lookup. cbn [map_lookup_depth].
    edestruct (map_lookup_body_room) as (m' & slot & E & ? & ? & ?); [exact Hwf1|exact Hh1|exact Hroom1|].
    rewrite E. eauto 10.
  - exists m'. split_and!; try done. rewrite Hal. pose proof (hash_alloc_ge (alloc m + 1)). lia.
Qed.

(** An unhashable index raises its error, whatever the kind, except when the answer is
    known without hashing: an empty table or a table of interned strings asked for another
    kind of object, and except when there is no memory for the first table. *)
Theorem mp_map_lookup_unhashable m index lookup_kind e :
  map_wf m -> mp_hash index = Raise e -> mp_obj_is_qstr index = false -> mp_obj_is_str index = false ->
  mp_map_lookup m index lookup_kind =
    (if negb (lookup_kind =? MP_MAP_LOOKUP_ADD_IF_NOT_FOUND)%Z && (all_keys_are_qstrs m || (alloc m =? 0)%nat)
    then Ret (m, None) else Raise e) \/
  alloc m = 0%nat /\ cannot_grow m /\ mp_map_lookup m index lookup_kind = Raise MemoryError.
Proof.
  intros Hwf Hi Hq Hs. rewrite mp_map_lookup_unfold. unfold map_lookup_body.
  destruct (mw_hash_table _ Hwf) as [-> ->]. rewrite Hi, Hq, Hs. cbn [andb negb obind].
  destruct (all_keys_are_qstrs m), (lookup_kind =? MP_MAP_LOOKUP_ADD_IF_NOT_FOUND)%Z eqn:Ek,
    (Nat.eqb_spec (alloc m) 0) as [E0|E0]; cbn [andb negb orb]; try (by left).
  all: destruct (map_rehash_ok (map_lookup_depth (obj := obj) 0)) with (m := m) as [[Hg Hm']|(_ & m' & Hm' & _)];
    [|done|right; by rewrite Hm'|left; by rewrite Hm'].
  all: intros m1 k1 h1 Hwf1 Hh1 Hroom1;
    edestruct (map_lookup_body_room (fun _ => OutOfFuel)) as (? & ? & Ex & ? & ? & ?);
      [exact Hwf1|exact Hh1|exact Hroom1|]; eauto 10.
Qed.

(** A read-only table of [(qstr, value)] pairs, as the port's modules and types have, is
    searched in order: the lookup returns the first slot whose key equals the index. *)
Theorem fixed_table_lookup_spec t index :
  (forall p e, t !! p = Some e -> exists k, key e = Key k /\ mp_obj_is_qstr k = true) ->
  exists slot, mp_map_lookup (mp_map_init_fixed_table (length t) t) index MP_MAP_LOOKUP
      = Ret (mp_map_init_fixed_table (length t) t, slot) /\
    match slot with
    | Some p => (exists k v, t !! p = Some (mk_elem (Key k) v) /\ mp_obj_equal k index = true) /\
        forall q k v, (q < p)%nat -> t !! q = Some (mk_elem (Key k) v) -> mp_obj_equal k index = false
    | None => forall q k v, t !! q = Some (mk_elem (Key k) v) -> mp_obj_equal k index = false
    end.
Proof.
  intros Hq. set (m := mp_map_init_fixed_table (length t) t).
  rewrite mp_map_lookup_unfold. unfold map_lookup_body.
  cbn [m mp_map_init_fixed_table is_fixed is_ordered all_keys_are_qstrs used table alloc andb].
  set (early := negb (mp_obj_is_qstr index) && negb (mp_obj_is_str index)).
  assert (Hearly : early = true -> forall q k v, t !! q = Some (mk_elem (Key k) v) -> mp_obj_equal k index = false).
  { intros He q k v Hqk. destruct (mp_obj_equal k index) eqn:E; [|done].
    destruct (Hq q _ Hqk) as (k' & [= <-] & Hkq). unfold early in He.
    destruct (qstr_only_str _ _ Hkq E) as [F|F]; rewrite F in He; simpl in He; [done|].
    by rewrite andb_false_r in He. }
  cbn [MP_MAP_LOOKUP negb Z.eqb MP_MAP_LOOKUP_ADD_IF_NOT_FOUND]. rewrite andb_true_r.
  destruct early eqn:Ee; [exists None; split; [done|by apply Hearly]|].
  set (c := if _ : bool then false else true).
  assert (Hc : forall q k v, t !! q = Some (mk_elem (Key k) v) -> key_matches c k index = mp_obj_equal k index).
  { intros q k v Hqk. destruct (Hq q _ Hqk) as (k' & [= <-] & Hkq). unfold key_matches.
    case_bool_decide as E; [subst; symmetry; apply equal_refl|].
    unfold c, early in *. destruct (mp_obj_is_qstr index) eqn:Fq; simpl in *.
    - destruct (mp_obj_equal k index) eqn:F; [|done]. destruct E. by apply qstr_equal.
    - destruct (mp_obj_is_str index); done. }
  enough (H : forall n i, (i + n = length t)%nat ->
    (forall q k v, (q < i)%nat -> t !! q = Some (mk_elem (Key k) v) -> mp_obj_equal k index = false) ->
    exists slot, ordered_search n i c t index = Ret slot /\
      match slot with
      | Some p => (exists k v, t !! p = Some (mk_elem (Key k) v) /\ mp_obj_equal k index = true) /\
          forall q k v, (q < p)%nat -> t !! q = Some (mk_elem (Key k) v) -> mp_obj_equal k index = false
      | None => forall q k v, t !! q = Some (mk_elem (Key k) v) -> mp_obj_equal k index = false
      end).
  { destruct (H (length t) 0%nat) as (slot & -> & ?); [lia|intros; lia|]. by exists slot. }
  induction n as [|n IH]; intros i Hi Hprev; cbn [ordered_search].
  - exists None. split; [done|]. intros q k v Hqk. eapply (Hprev q); [|done]. apply lookup_lt_Some in Hqk. lia.
  - destruct (rd_in_bounds t (Z.of_nat i)) as (e & He & Hle); [lia|]. rewrite Nat2Z.id in Hle.
    rewrite He. cbn [obind]. destruct (Hq i e Hle) as (k & Hk & _). rewrite Hk.
    assert (Hle' : t !! i = Some (mk_elem (Key k) (value e))) by (rewrite <- Hk; by destruct e).
    rewrite (Hc i k _ Hle'). destruct (mp_obj_equal k index) eqn:E.
    + exists (Some i). split; [done|]. split; [eauto|done].
    + apply IH; [lia|]. intros q k' v' Hlt Hqk. destruct (decide (q = i)) as [->|]; [congruence|].
      eapply (Hprev q); [lia|done].
Qed.
End Theorems.

(** ** Witnesses *)

Definition sample_map : mp_map_t sample_obj :=
  mk_map false false false 2 4
    [mk_elem (Key (Int 4)) (Some (Int 10)); mk_elem KSentinel None;
     mk_elem (Key (Int 8)) (Some (Int 11)); mk_elem KNull None].

Lemma sample_map_wf : map_wf sample_map.
Proof.
  split; try done.
  split.
  - intros [|[|[|[|p]]]] k [= <-].
    + exists 4%Z. split; [done|]. exists 0%nat. split_and!; [cbn; lia|done|lia].
    + exists 8%Z. split; [done|]. exists 2%nat. split_and!; [cbn; lia|done|].
      intros [|[|i]] Hi; [done|done|lia].
  - by intros [|[|[|[|p]]]] [|[|[|[|q]]]] k k' [= <-] [= <-].
Qed.

Lemma mp_map_lookup_spec_witness :
  exists m', mp_map_lookup sample_map (Int 12) MP_MAP_LOOKUP_ADD_IF_NOT_FOUND = Ret (m', Some 1%nat) /\
    used m' = 3%nat.
Proof.
  destruct (mp_map_lookup_spec sample_map (Int 12) MP_MAP_LOOKUP_ADD_IF_NOT_FOUND 12 sample_map_wf eq_refl)
    as [_ [E|(m' & slot & E & _ & _ & p & -> & _ & Hu)]]; [vm_compute in E; discriminate E|].
  exists m'. split; [|exact Hu]. rewrite E. vm_compute in E. injection E as _ <-. reflexivity.
Defined.

Lemma mp_map_lookup_unhashable_witness :
  mp_map_lookup sample_map (Lst 1) MP_MAP_LOOKUP = Raise TypeError.
Proof.
  destruct (mp_map_lookup_unhashable sample_map (Lst 1) MP_MAP_LOOKUP TypeError sample_map_wf eq_refl eq_refl eq_refl) as [H|[H _]];
    [exact H|discriminate H].
Defined.

Definition sample_globals : list (mp_map_elem_t sample_obj) :=
  [mk_elem (Key (Qstr 5)) (Some (Int 1)); mk_elem (Key (Qstr 3)) (Some (Int 2))].

Lemma fixed_table_lookup_spec_witness :
  exists m, mp_map_lookup (mp_map_init_fixed_table 2 sample_globals) (Str 3) MP_MAP_LOOKUP = Ret (m, Some 1%nat).
Proof.
  destruct (fixed_table_lookup_spec sample_globals (Str 3)) as (slot & E & _).
  - intros [|[|p]] e [= <-]; eexists; by split.
  - eexists. transitivity (Ret (mp_map_init_fixed_table 2 sample_globals, slot)); [exact E|].
    vm_compute in E. by injection E as <-.
Defined.
