(* ===== verification/SetTable.v ===== *)
(** * Set tables ([py/map.c], the [mp_set_t] half)

    A set is an open-addressed table of keys.  The lookup kinds are bits here: with
    [MP_MAP_LOOKUP_ADD_IF_NOT_FOUND_OR_REMOVE_IF_FOUND] a lookup toggles membership.

    [mp_set_rehash] changes the capacity and the count before it allocates the larger table
    ([set_rehash_resize]): when the heap refuses, the [MemoryError] leaves behind a set whose
    table is smaller than its capacity ([set_rehash_failed]). *)

From S2P Require Import Prelude Malloc MpObj HashKeys.

Section SetTable.
Context {obj : Type} `{!EqDecision obj, !MpObjOps obj, !Allocator obj}.

Record mp_set_t := mk_set { set_alloc : nat; set_used : nat; set_keys : list (slot_key obj) }.

(** An element is one pointer. *)
Definition mp_set_init (n : nat) : outcome mp_set_t :=
  let! table := m_new0_of KNull 4 (Z.of_nat n) in
  Ret (mk_set n 0 table).

Definition mp_set_slot_is_filled (s : mp_set_t) (pos : nat) : outcome bool :=
  let! k := rd (set_keys s) (Z.of_nat pos) in Ret (key_is_filled k).

Definition adds (lookup_kind : Z) : bool := negb (Z.land lookup_kind MP_MAP_LOOKUP_ADD_IF_NOT_FOUND =? 0)%Z.
Definition removes (lookup_kind : Z) : bool := negb (Z.land lookup_kind MP_MAP_LOOKUP_REMOVE_IF_FOUND =? 0)%Z.

(** [set->used++; *avail_slot = index;] *)
Definition put_at (s : mp_set_t) (pos : nat) (index : obj) : outcome (mp_set_t * option obj) :=
  let! t := wr (set_keys s) (Z.of_nat pos) (Key index) in
  Ret (mk_set (set_alloc s) (set_used s + 1) t, Some index).

(** The deletion of the element at [pos]. *)
Definition delete_at (s : mp_set_t) (pos : nat) : outcome mp_set_t :=
  let! next := rd (set_keys s) (Z.of_nat ((pos + 1) mod set_alloc s)%nat) in
  let! t := wr (set_keys s) (Z.of_nat pos) (match next with KNull => KNull | _ => KSentinel end) in
  Ret (mk_set (set_alloc s) (set_used s - 1) t).

Section Lookup.
(** [mp_set_rehash], which calls back [mp_set_lookup]. *)
Variable rehash : mp_set_t -> outcome mp_set_t.

Fixpoint set_probe (fuel : nat) (s : mp_set_t) (index : obj) (lookup_kind hash : Z)
    (pos start_pos : nat) (avail_slot : option nat) : outcome (mp_set_t * option obj) :=
  match fuel with
  | O => OutOfFuel
  | S fuel =>
    let! elem := rd (set_keys s) (Z.of_nat pos) in
    (* the code after the if/else chain *)
    let continue_with avail_slot :=
      let pos := ((pos + 1) mod set_alloc s)%nat in
      if (pos =? start_pos)%nat then
        if adds lookup_kind then
          match avail_slot with
          | Some a => put_at s a index
          | None =>
            let! s := rehash s in
            let pos := home (set_alloc s) hash in
            set_probe fuel s index lookup_kind hash pos pos avail_slot
          end
        else Ret (s, None)
      else set_probe fuel s index lookup_kind hash pos start_pos avail_slot in
    match elem with
    | KNull =>
      if adds lookup_kind
      then put_at s (match avail_slot with Some a => a | None => pos end) index
      else Ret (s, None)
    | KSentinel => continue_with (match avail_slot with Some a => Some a | None => Some pos end)
    | Key k =>
      if mp_obj_equal k index then
        if removes lookup_kind then let! s := delete_at s pos in Ret (s, Some k) else Ret (s, Some k)
      else continue_with avail_slot
    end
  end.

Definition set_lookup_body (s : mp_set_t) (index : obj) (lookup_kind : Z) : outcome (mp_set_t * option obj) :=
  let go (s : mp_set_t) :=
    let! hash := mp_hash index in
    let pos := home (set_alloc s) hash in
    set_probe (set_alloc s + get_hash_alloc_greater_or_equal_to (set_alloc s + 1) + 1)
      s index lookup_kind hash pos pos None in
  if (set_alloc s =? 0)%nat then
    if adds lookup_kind then let! s := rehash s in go s else Ret (s, None)
  else go s.
End Lookup.

(** The loop of [mp_set_rehash] over the old table. *)
Fixpoint set_reinsert (lookup : mp_set_t -> obj -> Z -> outcome (mp_set_t * option obj))
    (old_table : list (slot_key obj)) (s : mp_set_t) : outcome mp_set_t :=
  match old_table with
  | [] => Ret s
  | Key k :: old_table =>
    let! '(s, _) := lookup s k MP_MAP_LOOKUP_ADD_IF_NOT_FOUND in set_reinsert lookup old_table s
  | _ :: old_table => set_reinsert lookup old_table s
  end.

(** The assignments of [mp_set_rehash] to [set->alloc] and [set->used], which precede the allocation. *)
Definition set_rehash_resize (s : mp_set_t) : mp_set_t :=
  mk_set (get_hash_alloc_greater_or_equal_to (set_alloc s + 1)) 0 (set_keys s).

Definition set_rehash_with lookup (s : mp_set_t) : outcome mp_set_t :=
  let old_alloc := set_alloc s in
  let old_table := set_keys s in
  let s := set_rehash_resize s in
  let! table := m_new0_of KNull 4 (Z.of_nat (set_alloc s)) in
  set_reinsert lookup (take old_alloc old_table) (mk_set (set_alloc s) (set_used s) table).

(** As for maps, one nested rehash is all that ever happens. *)
Fixpoint set_lookup_depth (depth : nat) (s : mp_set_t) (index : obj) (lookup_kind : Z)
  : outcome (mp_set_t * option obj) :=
  set_lookup_body
    (fun s => match depth with O => OutOfFuel | S depth => set_rehash_with (set_lookup_depth depth) s end)
    s index lookup_kind.

Definition mp_set_lookup : mp_set_t -> obj -> Z -> outcome (mp_set_t * option obj) := set_lookup_depth 1.

Definition mp_set_rehash : mp_set_t -> outcome mp_set_t := set_rehash_with mp_set_lookup.

(** The loop of [mp_set_remove_first]; [n] slots are left from [pos] on. *)
Fixpoint remove_first_from (n pos : nat) (s : mp_set_t) : outcome (mp_set_t * option obj) :=
  match n with
  | O => Ret (s, None)
  | S n =>
    let! k := rd (set_keys s) (Z.of_nat pos) in
    match k with
    | Key elem => let! s := delete_at s pos in Ret (s, Some elem)
    | _ => remove_first_from n (S pos) s
    end
  end.

Definition mp_set_remove_first (s : mp_set_t) : outcome (mp_set_t * option obj) :=
  remove_first_from (set_alloc s) 0 s.

Definition mp_set_clear (s : mp_set_t) : mp_set_t := mk_set 0 0 [].

(** ** What a table represents *)

Record set_wf (s : mp_set_t) : Prop := {
  sw_length : length (set_keys s) = set_alloc s;
  sw_used : set_used s = filled (set_keys s);
  sw_keys : keys_wf (set_keys s);
  sw_small : (Z.of_nat (set_alloc s) < 2 ^ 26)%Z
}.

(** Membership up to [==]. *)
Definition mem (s : mp_set_t) (k : obj) : Prop := has_key (set_keys s) k.

(** A lookup that has to grow the table, when the heap has no room for the larger one. *)
Definition set_lookup_fails (s : mp_set_t) (index : obj) (lookup_kind : Z) : Prop :=
  adds lookup_kind = true /\ ~ mem s index /\ set_used s = set_alloc s /\
  gives 4 (Z.of_nat (get_hash_alloc_greater_or_equal_to (set_alloc s + 1))) = false.

(** What a lookup of [index] returns and leaves behind. *)
Definition set_post (s : mp_set_t) (index : obj) (lookup_kind : Z) (s' : mp_set_t) (r : option obj) : Prop :=
  set_wf s' /\
  (forall k, mp_obj_equal k index = false -> mem s' k <-> mem s k) /\
  (exists k, r = Some k /\ mem s index /\ mp_obj_equal k index = true /\
     (exists p, set_keys s !! p = Some (Key k)) /\
     if removes lookup_kind then ~ mem s' index /\ S (set_used s') = set_used s
     else s' = s)
  \/
  set_wf s' /\
  (forall k, mp_obj_equal k index = false -> mem s' k <-> mem s k) /\
  ~ mem s index /\
  (if adds lookup_kind then r = Some index /\ mem s' index /\ set_used s' = S (set_used s)
   else r = None /\ s' = s).
End SetTable.
Arguments mp_set_t : clear implicits.

Section Proofs.
Context {obj : Type} `{!EqDecision obj, !MpObjOps obj, !MpObjLaws obj, !Allocator obj, !SmallHeap obj}.
Implicit Types (s : mp_set_t obj) (index k : obj).

Lemma put_at_ok s p index hash x : set_wf s -> mp_hash index = Ret hash ->
  (p < set_alloc s)%nat -> reach (set_keys s) (home (set_alloc s) hash) p ->
  set_keys s !! p = Some x -> key_is_filled x = false -> ~ mem s index ->
  exists s', put_at s p index = Ret (s', Some index) /\ set_wf s' /\ set_alloc s' = set_alloc s /\
    set_used s' = S (set_used s) /\ set_keys s' = <[p:=Key index]> (set_keys s).
Proof.
  intros Hwf Hi Hp Hr Hs Hf Hno. pose proof (sw_length _ Hwf) as Hl. unfold put_at.
  rewrite wr_Ret by lia. cbn [obind]. rewrite Nat2Z.id. eexists; split; [reflexivity|].
  split_and!; cbn [set_keys set_used set_alloc]; try done; try lia.
  split; cbn [set_keys set_used set_alloc].
  - by rewrite length_insert.
  - rewrite (sw_used _ Hwf). pose proof (filled_insert _ _ _ (Key index) Hs) as E.
    rewrite Hf in E. simpl in E. lia.
  - eapply keys_wf_add; eauto; [apply Hwf|lia|by rewrite Hl].
  - apply Hwf.
Qed.

Lemma mem_put s s' p index x k : set_keys s' = <[p:=Key index]> (set_keys s) ->
  set_keys s !! p = Some x -> key_is_filled x = false ->
  mem s' k <-> mp_obj_equal index k = true \/ mem s k.
Proof.
  intros Hk Hp Hf. unfold mem. rewrite Hk. split.
  - intros (q & k' & Hq & E). apply list_lookup_insert_Some in Hq as [(_ & [= <-] & _)|[_ Hq]]; [by left|].
    right. by exists q, k'.
  - intros [E|(q & k' & Hq & E)].
    + exists p, index. split; [|done]. apply list_lookup_insert_eq. by eapply lookup_lt_Some.
    + exists q, k'. split; [|done]. rewrite list_lookup_insert_ne; [done|]. intros <-. by simplify_eq.
Qed.

Lemma delete_at_ok s p k : set_wf s -> set_keys s !! p = Some (Key k) ->
  exists s', delete_at s p = Ret s' /\ set_wf s' /\ set_alloc s' = set_alloc s /\
    S (set_used s') = set_used s /\ set_keys s' = <[p:=deleted_key (set_keys s) p]> (set_keys s) /\
    forall k', mem s' k' <-> mp_obj_equal k' k = false /\ mem s k'.
Proof.
  intros Hwf Hp. pose proof (sw_length _ Hwf) as Hl.
  assert (Hlt : (p < set_alloc s)%nat) by (rewrite <- Hl; by eapply lookup_lt_Some).
  pose proof (deleted_key_unfilled (set_keys s) p) as Hd.
  pose proof (filled_insert _ _ _ (deleted_key (set_keys s) p) Hp) as Hu. rewrite Hd in Hu. cbn [key_is_filled] in Hu.
  unfold delete_at. pose proof (Nat.mod_upper_bound (p + 1) (set_alloc s) ltac:(lia)).
  destruct (rd_in_bounds (set_keys s) (Z.of_nat ((p + 1) mod set_alloc s)%nat)) as (e & He & Hle); [lia|].
  rewrite He. cbn [obind]. rewrite wr_Ret by lia. cbn [obind]. rewrite Nat2Z.id in *.
  assert (Hdk : match e with KNull => KNull | _ => KSentinel end = deleted_key (set_keys s) p).
  { unfold deleted_key. by rewrite Hl, Hle. }
  rewrite Hdk. eexists; split; [reflexivity|]. split_and!; cbn [set_keys set_used set_alloc]; try done.
  - split; cbn [set_keys set_used set_alloc].
    + by rewrite length_insert.
    + rewrite (sw_used _ Hwf). lia.
    + eapply keys_wf_remove; [apply Hwf|done].
    + apply Hwf.
  - rewrite (sw_used _ Hwf). lia.
  - intros k'. unfold mem; cbn [set_keys]. split.
    + intros (q & kq & Hq & E). apply list_lookup_insert_Some in Hq as [(_ & F & _)|[Hne Hq]]; [by rewrite F in Hd|].
      split; [|by exists q, kq]. destruct (mp_obj_equal k' k) eqn:F; [|done]. destruct Hne.
      eapply (kw_uniq _ (sw_keys _ Hwf)); eauto. apply equal_sym. by eapply equal_trans.
    + intros (F & q & kq & Hq & E). exists q, kq. split; [|done]. rewrite list_lookup_insert_ne; [done|].
      intros <-. rewrite Hp in Hq. injection Hq as <-. by rewrite (equal_sym _ _ E) in F.
Qed.

Section Probe.
Variable rehash : mp_set_t obj -> outcome (mp_set_t obj).

Lemma set_probe_scan s index kind hash n f i avail h :
  (1 <= n)%nat -> (i + n = set_alloc s)%nat -> (h < set_alloc s)%nat -> length (set_keys s) = set_alloc s ->
  set_probe rehash (n + f) s index kind hash (path (set_alloc s) h i) h avail =
  match scan (fun k => mp_obj_equal k index) (set_keys s) n (path (set_alloc s) h i) avail with
  | Found p =>
    let! k := rd (set_keys s) (Z.of_nat p) in
    match k with
    | Key k => if removes kind then let! s := delete_at s p in Ret (s, Some k) else Ret (s, Some k)
    | _ => Undef
    end
  | Stop (Some p) => if adds kind then put_at s p index else Ret (s, None)
  | Stop None =>
    if adds kind then
      let! s := rehash s in
      let pos := home (set_alloc s) hash in
      set_probe rehash f s index kind hash pos pos None
    else Ret (s, None)
  end.
Proof.
  revert i avail. induction n as [|n IH]; intros i avail Hn Hin Hh Hl; [lia|].
  cbn [Nat.add set_probe scan]. rewrite Hl.
  pose proof (path_lt (set_alloc s) h i ltac:(lia)) as Hplt.
  destruct (rd_in_bounds (set_keys s) (Z.of_nat (path (set_alloc s) h i))) as (e & He & Hle); [lia|].
  rewrite Nat2Z.id in Hle. rewrite He, Hle. cbn [obind]. rewrite path_S by lia.
  assert (Hlast : (path (set_alloc s) h (S i) =? h)%nat = (n =? 0)%nat).
  { destruct (Nat.eqb_spec n 0) as [->|Hn0].
    - apply Nat.eqb_eq. unfold path. replace (h + S i)%nat with (h + 1 * set_alloc s)%nat by lia.
      rewrite Nat.Div0.mod_add. by apply Nat.mod_small.
    - apply Nat.eqb_neq. intros E. rewrite <- (path_0 (set_alloc s) h) in E at 2 by done.
      apply path_inj in E; lia. }
  destruct e as [| |k].
  - by destruct (adds kind).
  - rewrite Hlast. destruct n; [|by apply IH; lia]. cbn [Nat.eqb scan]. by destruct avail.
  - destruct (mp_obj_equal k index).
    + rewrite He. cbn [obind]. done.
    + rewrite Hlast. destruct n; [|by apply IH; lia]. cbn [Nat.eqb scan]. by destruct avail.
Qed.

Lemma set_found_ok s p k index kind : set_wf s -> set_keys s !! p = Some (Key k) ->
  mp_obj_equal k index = true ->
  exists s', (if removes kind then let! s := delete_at s p in Ret (s, Some k) else Ret (s, Some k)) = Ret (s', Some k) /\
    set_post s index kind s' (Some k) /\ set_alloc s' = set_alloc s.
Proof.
  intros Hwf Hp E. destruct (removes kind) eqn:Ekind.
  - destruct (delete_at_ok s p k Hwf Hp) as (s' & -> & Hwf' & Hal & Hu & _ & Hm). cbn [obind].
    exists s'. split; [done|]. split; [|done]. left. split; [done|]. split.
    + intros k' F. rewrite Hm. split; [tauto|]. split; [|done]. destruct (mp_obj_equal k' k) eqn:G; [|done].
      by rewrite (equal_trans _ _ _ G E) in F.
    + exists k. rewrite Ekind. split_and!; try done; [by exists p, k|by exists p|].
      rewrite Hm. intros [F _]. by rewrite (equal_sym _ _ E) in F.
  - exists s. split; [done|]. split; [|done]. left. split; [done|]. split; [done|].
    exists k. rewrite Ekind. split_and!; try done; [by exists p, k|by exists p].
Qed.

Lemma set_probe_room s index kind hash f :
  set_wf s -> mp_hash index = Ret hash -> (set_used s < set_alloc s)%nat ->
  exists s' r, set_probe rehash (set_alloc s + f) s index kind hash (home (set_alloc s) hash) (home (set_alloc s) hash) None
      = Ret (s', r) /\ set_post s index kind s' r /\ set_alloc s' = set_alloc s.
Proof.
  intros Hwf Hi Hroom. pose proof (sw_length _ Hwf) as Hl.
  pose proof (home_lt (set_alloc s) hash ltac:(lia)) as Hh.
  pose proof (set_probe_scan s index kind hash (set_alloc s) f 0 None (home (set_alloc s) hash)
    ltac:(lia) ltac:(lia) Hh Hl) as Hp. rewrite path_0 in Hp by done. rewrite Hp. clear Hp.
  pose proof (scan_spec (set_keys s) index hash (fun k => mp_obj_equal k index) (sw_keys _ Hwf) Hi) as Hs.
  rewrite Hl in Hs. specialize (Hs ltac:(lia) ltac:(done)).
  destruct (scan _ _ _ _ _) as [p|[p|]].
  - destruct Hs as (k & Hp & Ek). rewrite (rd_Ret _ (Z.of_nat p) (Key k)) by (rewrite ?Nat2Z.id; done || lia).
    cbn [obind]. destruct (set_found_ok s p k index kind Hwf Hp Ek) as (s' & -> & ? & ?). eauto.
  - destruct Hs as (Hno & Hp & Hr & x & Hps & Hf). destruct (adds kind) eqn:Ekind.
    + destruct (put_at_ok s p index hash x) as (s' & -> & Hwf' & Hal & Hu & Hk); try done.
      eexists _, _. split; [done|]. split; [|done]. right. split; [done|]. rewrite Ekind.
      pose proof (fun k => mem_put s s' p index x k Hk Hps Hf) as Hm. split_and!; try done.
      * intros k F. rewrite Hm. split; [|tauto]. intros [G|?]; [|done]. by rewrite (equal_sym _ _ G) in F.
      * apply Hm. left. apply equal_refl.
    + eexists _, _. split; [done|]. split; [|done]. right. by rewrite Ekind.
  - destruct Hs as [_ Hfull]. rewrite <- (sw_used _ Hwf) in Hfull. lia.
Qed.

Definition set_rehash_ok s : Prop :=
  let n := Z.of_nat (get_hash_alloc_greater_or_equal_to (set_alloc s + 1)) in
  (gives 4 n = false /\ rehash s = Raise MemoryError) \/
  gives 4 n = true /\ exists s', rehash s = Ret s' /\ set_wf s' /\
    set_alloc s' = get_hash_alloc_greater_or_equal_to (set_alloc s + 1) /\
    set_used s' = set_used s /\ (forall k, mem s' k <-> mem s k).

(** The outcome of a lookup after a rehash is its outcome on the table before. *)
Lemma set_post_rehash s s1 index kind s' r : adds kind = true -> ~ mem s index ->
  set_used s1 = set_used s -> (forall k, mem s1 k <-> mem s k) ->
  set_post s1 index kind s' r -> set_post s index kind s' r.
Proof.
  intros Ha Hno Hu Hm [(_ & _ & k & _ & Hmem & _)|(Hwf' & Hoth & Hno1 & Hres)].
  - by apply Hm in Hmem.
  - right. split; [done|]. split; [intros k E; by rewrite Hoth, Hm|]. split; [done|]. rewrite Ha in *. by rewrite <- Hu.
Qed.

Lemma set_lookup_body_room s index kind hash :
  set_wf s -> mp_hash index = Ret hash -> (set_used s < set_alloc s)%nat ->
  exists s' r, set_lookup_body rehash s index kind = Ret (s', r) /\ set_post s index kind s' r /\ set_alloc s' = set_alloc s.
Proof.
  intros Hwf Hi Hroom. unfold set_lookup_body. rewrite (proj2 (Nat.eqb_neq _ _)) by lia. rewrite Hi. cbn [obind].
  rewrite <- Nat.add_assoc. by apply set_probe_room.
Qed.

(** The end of a lookup that grew the table. *)
Lemma set_lookup_grown s s1 index kind hash f : adds kind = true -> ~ mem s index -> mp_hash index = Ret hash ->
  set_wf s1 -> (set_used s < set_alloc s1)%nat -> set_used s1 = set_used s -> (forall k, mem s1 k <-> mem s k) ->
  exists s' r, set_probe rehash (set_alloc s1 + f) s1 index kind hash (home (set_alloc s1) hash) (home (set_alloc s1) hash) None
    = Ret (s', r) /\ set_post s index kind s' r.
Proof.
  intros Ha Hno Hi Hwf1 Hr Hu Hm. destruct (set_probe_room s1 index kind hash f Hwf1 Hi) as (s' & r & -> & Hpost & _); [lia|].
  exists s', r. split; [done|]. by eapply set_post_rehash.
Qed.

Lemma set_lookup_body_ok s index kind hash :
  set_wf s -> mp_hash index = Ret hash -> set_rehash_ok s ->
  (set_lookup_fails s index kind /\ set_lookup_body rehash s index kind = Raise MemoryError) \/
  ~ set_lookup_fails s index kind /\
  exists s' r, set_lookup_body rehash s index kind = Ret (s', r) /\ set_post s index kind s' r.
Proof.
  intros Hwf Hi Hre. pose proof (sw_length _ Hwf) as Hl.
  destruct (Nat.lt_ge_cases (set_used s) (set_alloc s)) as [Hroom|Hfull].
  { right. split; [intros (_ & _ & ? & _); lia|].
    destruct (set_lookup_body_room s index kind hash Hwf Hi Hroom) as (s' & r & ? & ? & _). eauto. }
  pose proof (hash_alloc_ge (set_alloc s + 1)) as Hge.
  pose proof (filled_le (set_keys s)) as Hle. rewrite Hl, <- (sw_used _ Hwf) in Hle. unfold set_lookup_body.
  destruct (Nat.eqb_spec (set_alloc s) 0) as [E0|E0].
  - assert (Hno : ~ mem s index).
    { intros (p & k & Hp & _). apply lookup_lt_Some in Hp. lia. }
    destruct (adds kind) eqn:Ekind.
    + destruct Hre as [[Hg ->]|(Hg & s1 & -> & Hwf1 & Hal1 & Hu1 & Hm1)]; cbn [obind].
      { left. split; [|done]. split_and!; try done. lia. }
      right. split; [intros (_ & _ & _ & F); congruence|].
      rewrite Hi. cbn [obind]. rewrite <- Nat.add_assoc. apply (set_lookup_grown s); try done. lia.
    + right. split; [intros (F & _); congruence|].
      exists s, None. split; [done|]. right. by rewrite Ekind.
  - rewrite Hi. cbn [obind]. rewrite <- Nat.add_assoc.
    pose proof (home_lt (set_alloc s) hash ltac:(lia)) as Hh.
    pose proof (set_probe_scan s index kind hash (set_alloc s)
      (get_hash_alloc_greater_or_equal_to (set_alloc s + 1) + 1) 0 None (home (set_alloc s) hash)
      ltac:(lia) ltac:(lia) Hh Hl) as Hp. rewrite path_0 in Hp by done. rewrite Hp. clear Hp.
    pose proof (scan_spec (set_keys s) index hash (fun k => mp_obj_equal k index) (sw_keys _ Hwf) Hi) as Hs.
    rewrite Hl in Hs. specialize (Hs ltac:(lia) ltac:(done)).
    destruct (scan _ _ _ _ _) as [p|[p|]].
    + destruct Hs as (k & Hp & Ek). rewrite (rd_Ret _ (Z.of_nat p) (Key k)) by (rewrite ?Nat2Z.id; done || lia).
      cbn [obind]. destruct (set_found_ok s p k index kind Hwf Hp Ek) as (s' & -> & ? & ?).
      right. split; [intros (_ & F & _); apply F; by exists p, k|]. eauto.
    + exfalso. destruct Hs as (_ & _ & _ & x & Hps & Hf).
      pose proof (filled_insert _ _ _ (Key index) Hps) as E. rewrite Hf in E. cbn [key_is_filled] in E.
      pose proof (filled_le (<[p:=Key index]> (set_keys s))) as E'.
      rewrite length_insert, Hl in E'. pose proof (sw_used _ Hwf). lia.
    + destruct Hs as [Hno _]. destruct (adds kind) eqn:Ekind.
      * destruct Hre as [[Hg ->]|(Hg & s1 & -> & Hwf1 & Hal1 & Hu1 & Hm1)]; cbn [obind].
        { left. split; [|done]. split_and!; try done. lia. }
        right. split; [intros (_ & _ & _ & F); congruence|]. rewrite <- Hal1. apply (set_lookup_grown s); try done. lia.
      * right. split; [intros (F & _); congruence|].
        eexists _, _. split; [done|]. right. by rewrite Ekind.
Qed.
End Probe.

Section Reinsert.
Variable lookup : mp_set_t obj -> obj -> Z -> outcome (mp_set_t obj * option obj).
Hypothesis lookup_room : forall s index hash,
  set_wf s -> mp_hash index = Ret hash -> (set_used s < set_alloc s)%nat ->
  exists s' r, lookup s index MP_MAP_LOOKUP_ADD_IF_NOT_FOUND = Ret (s', r) /\
    set_post s index MP_MAP_LOOKUP_ADD_IF_NOT_FOUND s' r /\ set_alloc s' = set_alloc s.

Definition distinct (ks : list (slot_key obj)) : Prop :=
  (forall p k, ks !! p = Some (Key k) -> exists hash, mp_hash k = Ret hash) /\
  forall p q k k', ks !! p = Some (Key k) -> ks !! q = Some (Key k') ->
    mp_obj_equal k k' = true -> p = q.

Lemma distinct_tail x (ks : list (slot_key obj)) : distinct (x :: ks) -> distinct ks /\ forall k, x = Key k -> ~ has_key ks k.
Proof.
  intros [Hh Hu]. split; [split|].
  - intros p k Hp. by apply (Hh (S p)).
  - intros p q k k' Hp Hq E. specialize (Hu (S p) (S q) k k' Hp Hq E). lia.
  - intros k -> (p & k' & Hp & E). specialize (Hu (S p) 0%nat k' k Hp eq_refl E). lia.
Qed.

Lemma has_key_cons x (ks : list (slot_key obj)) k : has_key (x :: ks) k <->
  (exists k', x = Key k' /\ mp_obj_equal k' k = true) \/ has_key ks k.
Proof.
  split.
  - intros ([|p] & k' & Hp & E); [left; exists k'; by simplify_eq/=|right; by exists p, k'].
  - intros [(k' & -> & E)|(p & k' & Hp & E)]; [by exists 0%nat, k'|by exists (S p), k'].
Qed.

Lemma set_reinsert_ok old s :
  set_wf s -> distinct old -> (set_used s + filled old <= set_alloc s)%nat ->
  (forall p k, old !! p = Some (Key k) -> ~ mem s k) ->
  exists s', set_reinsert lookup old s = Ret s' /\ set_wf s' /\ set_alloc s' = set_alloc s /\
    set_used s' = (set_used s + filled old)%nat /\ (forall k, mem s' k <-> has_key old k \/ mem s k).
Proof.
  revert s. induction old as [|x old IH]; intros s Hwf Hd Hroom Hdis.
  { exists s. simpl. rewrite Nat.add_0_r. split_and!; try done. intros k. split; [by right|].
    intros [(p & k' & Hp & _)|?]; [by rewrite lookup_nil in Hp|done]. }
  destruct (distinct_tail _ _ Hd) as [Hd' Hno]. cbn [set_reinsert].
  destruct x as [| |k0].
  1, 2: destruct (IH s Hwf Hd' Hroom) as (s' & ? & ? & ? & ? & Hm);
    [intros p k Hp; by apply (Hdis (S p))|]; exists s'; split_and!; try done;
    intros k; rewrite Hm, has_key_cons; split; [tauto|intros [[(? & [=] & _)|?]|?]; auto].
  destruct (proj1 Hd 0%nat k0 eq_refl) as (hash & Hh0).
  assert (Hno0 : ~ mem s k0) by by apply (Hdis 0%nat).
  cbn [filled key_is_filled] in Hroom.
  destruct (lookup_room s k0 hash Hwf Hh0) as (s1 & r & -> & Hpost & Hal1); [lia|]. cbn [obind].
  destruct Hpost as [(_ & _ & k & _ & Hmem & _)|(Hwf1 & Hoth & _ & _ & Hmem & Hu1)]; [done|].
  destruct (IH s1 Hwf1 Hd') as (s' & Hre & Hwf' & Hal' & Hu' & Hm); [lia| |].
  { intros q k Hq Hin. destruct (mp_obj_equal k k0) eqn:E.
    - apply (Hno k0 eq_refl). by exists q, k.
    - rewrite Hoth in Hin by done. by apply (Hdis (S q) k Hq). }
  exists s'. split_and!; try done.
  - by rewrite Hal'.
  - rewrite Hu'. cbn [filled key_is_filled]. lia.
  - intros k. rewrite Hm, has_key_cons. destruct (mp_obj_equal k k0) eqn:E.
    + assert (mem s1 k).
      { destruct Hmem as (p & k' & Hp & E'). exists p, k'. split; [done|]. eapply equal_trans; [done|]. by apply equal_sym. }
      split; [|tauto]. intros _. left. left. exists k0. split; [done|]. by apply equal_sym.
    + rewrite Hoth by done. split; [tauto|]. intros [[(k' & [= ->] & E')|?]|?]; [|tauto..].
      by rewrite (equal_sym _ _ E') in E.
Qed.

Lemma empty_table_wf n : (Z.of_nat n < 2 ^ 26)%Z ->
  set_wf (mk_set n 0 (replicate n (KNull (obj := obj)))) /\ forall k : obj, ~ mem (mk_set n 0 (replicate n KNull)) k.
Proof.
  split.
  - split; cbn; [apply length_replicate|by rewrite filled_replicate|apply keys_wf_empty|done].
  - intros k (p & k' & Hp & _). by apply lookup_replicate in Hp as [].
Qed.

Lemma set_gives_small n : (0 <= n)%Z -> gives (A := obj) 4 n = true -> (n < 2 ^ 26)%Z.
Proof.
  intros H0 Hg. unfold gives in Hg. apply orb_true_iff in Hg as [->%Z.eqb_eq|Hg]; [lia|]. apply small_heap in Hg. lia.
Qed.

Lemma set_rehash_with_ok s : set_wf s -> set_rehash_ok (set_rehash_with lookup) s.
Proof.
  intros Hwf. unfold set_rehash_ok, set_rehash_with. pose proof (sw_length _ Hwf) as Hl.
  pose proof (sw_small _ Hwf). pose proof (hash_alloc_le (set_alloc s + 1)).
  rewrite take_ge by lia. cbn [set_rehash_resize set_alloc set_used]. rewrite m_new0_of_ok by lia.
  set (n := get_hash_alloc_greater_or_equal_to (set_alloc s + 1)) in *.
  destruct (gives 4 (Z.of_nat n)) eqn:Hg; [right; split; [done|]|by left]. cbn [obind]. rewrite Nat2Z.id.
  destruct (empty_table_wf n) as [Hwf0 Hno]; [apply set_gives_small; [lia|exact Hg]|].
  destruct (set_reinsert_ok (set_keys s) (mk_set n 0 (replicate n KNull)) Hwf0) as (s' & -> & Hwf' & Hal & Hu & Hm).
  - split; [|apply Hwf]. intros p k Hp. destruct (kw_hash _ (sw_keys _ Hwf) p k Hp) as (h & ? & _). eauto.
  - cbn [set_used set_alloc]. pose proof (filled_le (set_keys s)).
    pose proof (hash_alloc_ge (set_alloc s + 1)). unfold n. lia.
  - auto.
  - exists s'. split_and!; try done.
    + rewrite Hu. cbn [set_used]. by rewrite (sw_used _ Hwf).
    + intros k. rewrite Hm. split; [|tauto]. intros [?|?]; [done|]. by destruct (Hno k).
Qed.
End Reinsert.

(** [mp_set_lookup] on a well-formed set and a hashable index. *)
Lemma set_lookup_spec s index kind hash : set_wf s -> mp_hash index = Ret hash ->
  (set_lookup_fails s index kind /\ mp_set_lookup s index kind = Raise MemoryError) \/
  ~ set_lookup_fails s index kind /\ exists s' r, mp_set_lookup s index kind = Ret (s', r) /\ set_post s index kind s' r.
Proof.
  intros Hwf Hi.
  change (mp_set_lookup s index kind) with (set_lookup_body (set_rehash_with (set_lookup_depth 0)) s index kind).
  eapply set_lookup_body_ok; [done..|]. apply set_rehash_with_ok; [|done].
  intros s1 k1 h1 Hwf1 Hh1 Hroom1.
  destruct (set_lookup_body_room (fun _ => OutOfFuel) s1 k1 MP_MAP_LOOKUP_ADD_IF_NOT_FOUND h1 Hwf1 Hh1 Hroom1)
    as (s' & r & ? & ? & ?). eauto 10.
Qed.

(** A lookup that does not add needs no memory. *)
Lemma set_find_spec s index kind hash : set_wf s -> mp_hash index = Ret hash -> adds kind = false ->
  exists s' r, mp_set_lookup s index kind = Ret (s', r) /\ set_post s index kind s' r.
Proof. intros Hwf Hi Hk. destruct (set_lookup_spec s index kind hash Hwf Hi) as [[[? _] _]|[_ ?]]; [congruence|done]. Qed.

Lemma set_change_spec s index kind hash : set_wf s -> mp_hash index = Ret hash ->
  oom obj (mp_set_lookup s index kind) (fun '(s', r) => set_post s index kind s' r).
Proof.
  intros Hwf Hi. destruct (set_lookup_spec s index kind hash Hwf Hi) as [[(_ & _ & _ & Hg) ->]|(_ & s' & r & -> & ?)]; [apply oom_Raise; by apply gives_refuses in Hg|].
  right. by exists (s', r).
Qed.

(** A fresh table is well formed and empty. *)
Definition empty_set s : Prop := set_wf s /\ forall k : obj, ~ mem s k.

Lemma mp_set_init_0 : mp_set_init 0 = Ret (mk_set 0 0 []) /\ empty_set (mk_set 0 0 []).
Proof. split; [done|]. by apply (empty_table_wf 0). Qed.

Lemma mp_set_init_ok n : (Z.of_nat n < 2 ^ 28)%Z -> oom obj (mp_set_init n) empty_set.
Proof.
  intros Hn. unfold mp_set_init. rewrite m_new0_of_ok by lia. destruct (gives 4 (Z.of_nat n)) eqn:Hg; [|apply oom_Raise; by apply gives_refuses in Hg].
  cbn [obind]. rewrite Nat2Z.id. apply oom_Ret, empty_table_wf. apply set_gives_small; [lia|exact Hg].
Qed.

Lemma mp_set_clear_ok s : empty_set (mp_set_clear s).
Proof. by apply mp_set_init_0. Qed.

(** The keys from slot [pos] on, in slot order. *)
Definition elements (ks : list (slot_key obj)) : list obj :=
  omap (fun x => match x with Key k => Some k | _ => None end) ks.

Lemma elements_cons x ks :
  elements (x :: ks) = match x with Key k => k :: elements ks | _ => elements ks end.
Proof. by destruct x. Qed.

Lemma remove_first_from_ok n pos s : set_wf s -> (pos + n = set_alloc s)%nat ->
  match elements (drop pos (set_keys s)) with
  | [] => remove_first_from n pos s = Ret (s, None)
  | k :: _ => exists s', remove_first_from n pos s = Ret (s', Some k) /\ set_wf s' /\
      S (set_used s') = set_used s /\ forall k', mem s' k' <-> mp_obj_equal k' k = false /\ mem s k'
  end.
Proof.
  intros Hwf. pose proof (sw_length _ Hwf) as Hl. revert pos. induction n as [|n IH]; intros pos Hn; cbn [remove_first_from].
  - by rewrite drop_ge by lia.
  - destruct (rd_in_bounds (set_keys s) (Z.of_nat pos)) as (x & Hx & Hlx); [lia|]. rewrite Nat2Z.id in Hlx.
    rewrite Hx, (drop_S _ _ _ Hlx). cbn [obind]. specialize (IH (S pos) ltac:(lia)).
    destruct x as [| |k]; [exact IH..|].
    destruct (delete_at_ok s pos k Hwf Hlx) as (s' & -> & ? & ? & ? & ? & ?). cbn. eauto 10.
Qed.

Lemma elements_mem ks k : (exists k', k' ∈ elements ks /\ mp_obj_equal k' k = true) <-> has_key ks k.
Proof.
  split.
  - intros (k' & Hk' & E). apply list_elem_of_omap in Hk' as (x & Hx & Ex). destruct x; simplify_eq.
    apply list_elem_of_lookup in Hx as [p Hp]. by exists p, k'.
  - intros (p & k' & Hp & E). exists k'. split; [|done]. apply list_elem_of_omap. exists (Key k').
    split; [|done]. by eapply list_elem_of_lookup_2.
Qed.

Lemma elements_length ks : length (elements ks) = filled ks.
Proof. induction ks as [|[] ks IH]; simpl; auto. Qed.
End Proofs.

Section Theorems.
Context {obj : Type} `{!EqDecision obj, !MpObjOps obj, !MpObjLaws obj, !Allocator obj, !SmallHeap obj}.

(** C26. [mp_set_lookup] on a well-formed set and a hashable index either raises [MemoryError], which happens exactly
    when the index has to be added, the table is full and the heap has no room for the larger one (the receiver is then
    left as [set_rehash_resize], which [set_rehash_failed] is about), or it terminates, keeps the set well formed and the
    membership of every other object, and: if an equal element is present it is returned (and removed under the
    REMOVE bit); otherwise the index is added and returned under the ADD bit, and nothing is returned or changed
    without it.  With both bits it toggles the membership of the index. *)
Theorem mp_set_lookup_spec (s : mp_set_t obj) index lookup_kind hash :
  set_wf s -> mp_hash index = Ret hash ->
  (mp_set_lookup s index lookup_kind = Raise MemoryError <->
     adds lookup_kind = true /\ ~ mem s index /\ set_used s = set_alloc s /\
     gives 4 (Z.of_nat (get_hash_alloc_greater_or_equal_to (set_alloc s + 1))) = false) /\
  (mp_set_lookup s index lookup_kind = Raise MemoryError \/
   exists s' r, mp_set_lookup s index lookup_kind = Ret (s', r) /\ set_wf s' /\
    (forall k, mp_obj_equal k index = false -> mem s' k <-> mem s k) /\
    ((exists k, r = Some k /\ mem s index /\ mp_obj_equal k index = true /\
        if removes lookup_kind then ~ mem s' index /\ S (set_used s') = set_used s else s' = s) \/
     (~ mem s index /\
        if adds lookup_kind then r = Some index /\ mem s' index /\ set_used s' = S (set_used s)
        else r = None /\ s' = s))).
Proof.
  intros Hwf Hi. destruct (set_lookup_spec s index lookup_kind hash Hwf Hi) as [[Hf Hr]|(Hf & s' & r & E & Hpost)].
  - split; [|by left]. by split; intros _.
  - split; [split; [by rewrite E|by intros ?; destruct Hf]|]. right. exists s', r. split; [done|].
    destruct Hpost as [(? & ? & k & ? & ? & ? & _ & ?)|(? & ? & ? & ?)]; split_and!; try done; [left|by right].
    by exists k.
Qed.

(** What a refused [mp_set_rehash] leaves behind: the count says that the set is empty, all its elements are still in the
    table, and a later lookup whose home slot is in the missing part reads past its end. *)
Theorem set_rehash_failed (s : mp_set_t obj) index lookup_kind hash : set_wf s -> set_used s = set_alloc s ->
  let s' := set_rehash_resize s in
  set_used s' = 0%nat /\ set_keys s' = set_keys s /\ (length (set_keys s') < set_alloc s')%nat /\ ~ set_wf s' /\
  (mp_hash index = Ret hash -> (set_alloc s <= home (set_alloc s') hash)%nat -> mp_set_lookup s' index lookup_kind = Undef).
Proof.
  intros Hwf Hfull s'. pose proof (sw_length _ Hwf) as Hl. pose proof (hash_alloc_ge (set_alloc s + 1)) as Hge.
  assert (Hlt : (length (set_keys s') < set_alloc s')%nat) by (cbn [s' set_rehash_resize set_keys set_alloc]; lia).
  split_and!; try done.
  - intros [F _ _ _]. lia.
  - intros Hi Hh. change (mp_set_lookup s' index lookup_kind)
      with (set_lookup_body (set_rehash_with (set_lookup_depth 0)) s' index lookup_kind). unfold set_lookup_body.
    rewrite (proj2 (Nat.eqb_neq _ _)) by lia. rewrite Hi. cbn [obind]. rewrite Nat.add_1_r. cbn [set_probe].
    unfold rd. rewrite lookup_ge_None_2; [by case_match|]. cbn [s' set_rehash_resize set_keys] in *. lia.
Qed.

(** [mp_set_remove_first] takes out the element in the lowest filled slot, and reports an
    empty set without changing it. *)
Theorem mp_set_remove_first_spec (s : mp_set_t obj) : set_wf s ->
  match elements (set_keys s) with
  | [] => mp_set_remove_first s = Ret (s, None)
  | k :: _ => exists s', mp_set_remove_first s = Ret (s', Some k) /\ set_wf s' /\
      S (set_used s') = set_used s /\ forall k', mem s' k' <-> mp_obj_equal k' k = false /\ mem s k'
  end.
Proof. intros Hwf. by apply (remove_first_from_ok (set_alloc s) 0 s Hwf). Qed.
End Theorems.

Definition sample_set : mp_set_t sample_obj :=
  mk_set 4 3 [Key (Int 4); Key (Int 9); Key (Int 8); KNull].

Lemma sample_set_wf : set_wf sample_set.
Proof.
  split; try done. split.
  - intros [|[|[|[|p]]]] k [= <-].
    + exists 4%Z. split; [done|]. exists 0%nat. split_and!; [cbn; lia|done|lia].
    + exists 9%Z. split; [done|]. exists 0%nat. split_and!; [cbn; lia|done|lia].
    + exists 8%Z. split; [done|]. exists 2%nat. split_and!; [cbn; lia|done|].
      intros [|[|i]] Hi; [done|done|lia].
  - by intros [|[|[|[|p]]]] [|[|[|[|q]]]] k k' [= <-] [= <-].
Qed.

Lemma mp_set_lookup_spec_witness :
  exists s', mp_set_lookup sample_set (Int 8) MP_MAP_LOOKUP_ADD_IF_NOT_FOUND_OR_REMOVE_IF_FOUND = Ret (s', Some (Int 8))
    /\ set_wf s'.
Proof.
  destruct (mp_set_lookup_spec sample_set (Int 8) MP_MAP_LOOKUP_ADD_IF_NOT_FOUND_OR_REMOVE_IF_FOUND 8 sample_set_wf eq_refl)
    as [_ [E|(s' & r & E & Hwf & _)]]; [vm_compute in E; discriminate E|].
  exists s'. split; [|exact Hwf]. rewrite E. vm_compute in E. by injection E as _ <-.
Defined.

Lemma mp_set_remove_first_spec_witness :
  exists s', mp_set_remove_first sample_set = Ret (s', Some (Int 4)) /\ set_wf s' /\ set_used s' = 2%nat.
Proof.
  destruct (mp_set_remove_first_spec sample_set sample_set_wf) as (s' & E & Hwf & Hu & _).
  exists s'. split; [exact E|]. split; [exact Hwf|]. by injection Hu.
Defined.

Definition full_set : mp_set_t sample_obj := mk_set 2 2 [Key (Int 4); Key (Int 9)].

Lemma set_rehash_failed_witness :
  set_used (set_rehash_resize full_set) = 0%nat /\
  mp_set_lookup (set_rehash_resize full_set) (Int 2) MP_MAP_LOOKUP = Undef.
Proof.
  assert (Hwf : set_wf full_set).
  { split; try done. split.
    - intros [|[|p]] k [= <-]; eexists; (split; [reflexivity|]); exists 0%nat; split_and!; try done; cbn; lia.
    - by intros [|[|p]] [|[|q]] k k' [= <-] [= <-]. }
  destruct (set_rehash_failed full_set (Int 2) MP_MAP_LOOKUP 2 Hwf eq_refl) as (H & _ & _ & _ & Hu).
  split; [exact H|]. apply Hu; [reflexivity|]. vm_compute. lia.
Defined.
