(* ===== verification/ObjSet.v ===== *)
(** * Set objects ([py/objset.c])

    The methods and operators of Python sets over the tables of [SetTable.v].  The port has no
    frozenset, so the receiver of every method is a set.  The other operand is the receiver
    itself, another set, or any other iterable, given by the items its iterator yields.  Objects, tables
    and iterators are allocated: every method that needs one can raise [MemoryError]. *)

From stdpp Require Import sets.
From S2P Require Import Prelude Malloc MpObj HashKeys SetTable.

Section ObjSet.
Context {obj : Type} `{!EqDecision obj, !MpObjOps obj, !Allocator obj}.
Implicit Types (s : mp_set_t obj) (item : obj).

(** [iterator] says whether another iterable is its own iterator, as a generator is. *)
Inductive operand :=
| OSelf
| OSet (o : mp_set_t obj)
| OIter (iterator : bool) (items : list obj).

(** ** Iteration *)

(** The loop of [set_it_iternext] from slot [i], with [n] slots left. *)
Fixpoint set_it_from (n i : nat) s : outcome (option (obj * nat)) :=
  match n with
  | O => Ret None
  | S n =>
    let! k := rd (set_keys s) (Z.of_nat i) in
    match k with
    | Key item => Ret (Some (item, S i))
    | _ => set_it_from n (S i) s
    end
  end.

(** The next item and the iterator's new [cur]; [None] is [MP_OBJ_STOP_ITERATION]. *)
Definition set_it_iternext s (cur : nat) : outcome (option (obj * nat)) :=
  set_it_from (set_alloc s - cur) cur s.

Section Loops.
Context {St : Type} (get : St -> mp_set_t obj) (body : St -> obj -> outcome (St * bool)).

(** [while ((next = set_it_iternext(iter)) != MP_OBJ_STOP_ITERATION) body], where the body
    says whether to stop early. *)
Fixpoint for_each_set (fuel cur : nat) (st : St) : outcome (St * bool) :=
  match fuel with
  | O => OutOfFuel
  | S fuel =>
    let! next := set_it_iternext (get st) cur in
    match next with
    | None => Ret (st, false)
    | Some (item, cur) =>
      let! '(st, stop) := body st item in
      if stop then Ret (st, true) else for_each_set fuel cur st
    end
  end.

(** The same loop over the items of another iterable. *)
Fixpoint for_each_item (items : list obj) (st : St) : outcome (St * bool) :=
  match items with
  | [] => Ret (st, false)
  | item :: items =>
    let! '(st, stop) := body st item in
    if stop then Ret (st, true) else for_each_item items st
  end.
End Loops.

(** [mp_getiter(o, iter_buf)]: without a buffer from the caller the iterator of a native type takes four words
    of the heap. *)
Definition mp_getiter (o : operand) (iter_buf : bool) : outcome unit :=
  match o with
  | OIter true _ => Ret tt
  | _ => if iter_buf then Ret tt else m_new_obj (A := obj) 16
  end.

(** A loop over an operand; [get] is the receiver in the loop's state. *)
Definition for_each {St} (get : St -> mp_set_t obj) (o : operand) (iter_buf : bool)
    (body : St -> obj -> outcome (St * bool)) (st : St) : outcome (St * bool) :=
  let! _ := mp_getiter o iter_buf in
  match o with
  | OSelf => for_each_set get body (set_alloc (get st) + 1) 0 st
  | OSet other => for_each_set (fun _ => other) body (set_alloc other + 1) 0 st
  | OIter _ items => for_each_item body items st
  end.

(** A body that looks the item up in the receiver and goes on. *)
Definition lookup_each (kind : Z) s item : outcome (mp_set_t obj * bool) :=
  let! '(s, _) := mp_set_lookup s item kind in Ret (s, false).

(** ** Methods *)

(** The object is four words: its type and the [mp_set_t]. *)
Definition mp_obj_new_set (items : list obj) : outcome (mp_set_t obj) :=
  let! _ := m_new_obj (A := obj) 16 in
  let! s := mp_set_init (length items) in
  let! '(s, _) := for_each_item (lookup_each MP_MAP_LOOKUP_ADD_IF_NOT_FOUND) items s in
  Ret s.

Definition set_make_new (o : option operand) : outcome (mp_set_t obj) :=
  let! s := mp_obj_new_set [] in
  match o with
  | None => Ret s
  | Some o => let! '(s, _) := for_each id o false (lookup_each MP_MAP_LOOKUP_ADD_IF_NOT_FOUND) s in Ret s
  end.

Definition set_add s item : outcome (mp_set_t obj) :=
  let! '(s, _) := mp_set_lookup s item MP_MAP_LOOKUP_ADD_IF_NOT_FOUND in Ret s.

Definition set_clear s : mp_set_t obj := mp_set_clear s.

Definition set_copy s : outcome (mp_set_t obj) :=
  let! _ := m_new_obj (A := obj) 16 in
  let! other := mp_set_init (set_alloc s) in
  let! t := memcpy_in (set_keys other) 0 (take (set_alloc s) (set_keys s)) in
  Ret (mk_set (set_alloc other) (set_used s) t).

Definition set_discard s item : outcome (mp_set_t obj) :=
  let! '(s, _) := mp_set_lookup s item MP_MAP_LOOKUP_REMOVE_IF_FOUND in Ret s.

Definition set_remove s item : outcome (mp_set_t obj) :=
  let! '(s, r) := mp_set_lookup s item MP_MAP_LOOKUP_REMOVE_IF_FOUND in
  match r with None => Raise KeyError | Some _ => Ret s end.

Definition set_pop s : outcome (mp_set_t obj * obj) :=
  let! '(s, r) := mp_set_remove_first s in
  match r with None => Raise KeyError | Some o => Ret (s, o) end.

(** The loop of [set_diff_int] over the operands; [self] is the receiver (or its copy, which
    no operand is). *)
Fixpoint set_diff_loop (args : list operand) s : outcome (mp_set_t obj) :=
  match args with
  | [] => Ret s
  | OSelf :: args => set_diff_loop args (set_clear s)
  | other :: args =>
    let! '(s, _) := for_each id other false (lookup_each MP_MAP_LOOKUP_REMOVE_IF_FOUND) s in
    set_diff_loop args s
  end.

(** [self == other] compares with the copy when [update] is false: the receiver is then an
    operand like any other set. *)
Definition set_diff_int s (args : list operand) (update : bool) : outcome (mp_set_t obj) :=
  if update then set_diff_loop args s
  else
    let! self := set_copy s in
    set_diff_loop ((fun o => match o with OSelf => OSet s | o => o end) <$> args) self.

Definition set_diff s args := set_diff_int s args false.
Definition set_diff_update s args := set_diff_int s args true.

(** The loop of [set_intersect_int], which fills [out]; the receiver is only read. *)
Definition intersect_body s (out : mp_set_t obj) item : outcome (mp_set_t obj * bool) :=
  let! '(_, r) := mp_set_lookup s item MP_MAP_LOOKUP in
  match r with
  | Some _ => let! out := set_add out item in Ret (out, false)
  | None => Ret (out, false)
  end.

(** The set returned or, with [update], left in the receiver. *)
Definition set_intersect_int s (other : operand) (update : bool) : outcome (mp_set_t obj) :=
  match other with
  | OSelf => if update then Ret s else set_copy s
  | _ =>
    let! out := mp_obj_new_set [] in
    let! '(out, _) := for_each (fun _ => s) other false (intersect_body s) out in
    Ret out
  end.

Definition set_intersect s (other : operand) := set_intersect_int s other false.
Definition set_intersect_update s (other : operand) := set_intersect_int s other true.

Definition set_isdisjoint s (other : operand) : outcome bool :=
  let! '(_, found) := for_each (fun _ => s) other true
    (fun _ item => let! '(_, r) := mp_set_lookup s item MP_MAP_LOOKUP in
                   Ret (tt, match r with Some _ => true | None => false end)) tt in
  Ret (negb found).

(** [set_issubset_internal] on two sets. *)
Definition issubset_sets s (other : mp_set_t obj) (proper : bool) : outcome bool :=
  if proper && (set_used s =? set_used other)%nat then Ret false else
  let! '(_, missing) := for_each_set (fun _ => s)
    (fun _ item => let! '(_, r) := mp_set_lookup other item MP_MAP_LOOKUP in
                   Ret (tt, match r with Some _ => false | None => true end)) (set_alloc s + 1) 0 tt in
  Ret (negb missing).

(** An operand of [set_issubset_internal] as a set: one is made from any other iterable. *)
Definition as_set s (o : operand) : outcome (mp_set_t obj) :=
  match o with OSelf => Ret s | OSet o => Ret o | OIter _ _ => set_make_new (Some o) end.

Definition set_issubset s (other : operand) : outcome bool :=
  let! o := as_set s other in issubset_sets s o false.
Definition set_issubset_proper s (other : operand) : outcome bool :=
  let! o := as_set s other in issubset_sets s o true.
Definition set_issuperset s (other : operand) : outcome bool :=
  let! o := as_set s other in issubset_sets o s false.
Definition set_issuperset_proper s (other : operand) : outcome bool :=
  let! o := as_set s other in issubset_sets o s true.

Definition set_equal s (other : mp_set_t obj) : outcome bool :=
  if negb (set_used s =? set_used other)%nat then Ret false else set_issubset s (OSet other).

Definition set_symmetric_difference_update s (other : operand) : outcome (mp_set_t obj) :=
  let! '(s, _) := for_each id other false (lookup_each MP_MAP_LOOKUP_ADD_IF_NOT_FOUND_OR_REMOVE_IF_FOUND) s in Ret s.

Definition set_symmetric_difference s (other : operand) : outcome (mp_set_t obj) :=
  let! self_out := set_copy s in
  set_symmetric_difference_update self_out (match other with OSelf => OSet s | o => o end).

Definition set_update_int s (other : operand) : outcome (mp_set_t obj) :=
  let! '(s, _) := for_each id other false (lookup_each MP_MAP_LOOKUP_ADD_IF_NOT_FOUND) s in Ret s.

Fixpoint set_update s (args : list operand) : outcome (mp_set_t obj) :=
  match args with
  | [] => Ret s
  | o :: args => let! s := set_update_int s o in set_update s args
  end.

Definition set_union s (other : operand) : outcome (mp_set_t obj) :=
  let! self := set_copy s in
  set_update_int self (match other with OSelf => OSet s | o => o end).

(** The length, and truth as a length that is not 0. *)
Definition set_len s : nat := set_used s.
Definition set_bool s : bool := negb (set_used s =? 0)%nat.

(** ** Operators between two distinct sets *)

Inductive set_op := OpOr | OpXor | OpAnd | OpSub | OpInplaceOr | OpInplaceXor | OpInplaceAnd | OpInplaceSub
  | OpLess | OpMore | OpEqual | OpLessEqual | OpMoreEqual.

(** A new set, the left operand itself with its new value, or a truth value. *)
Inductive set_result := RSet (s : mp_set_t obj) | RSelf (lhs : mp_set_t obj) | RBool (b : bool).

Definition set_binary_op (op : set_op) (lhs rhs : mp_set_t obj) : outcome set_result :=
  match op with
  | OpOr => let! s := set_union lhs (OSet rhs) in Ret (RSet s)
  | OpXor => let! s := set_symmetric_difference lhs (OSet rhs) in Ret (RSet s)
  | OpAnd => let! s := set_intersect lhs (OSet rhs) in Ret (RSet s)
  | OpSub => let! s := set_diff lhs [OSet rhs] in Ret (RSet s)
  | OpInplaceOr => let! s := set_update lhs [OSet rhs] in Ret (RSelf s)
  | OpInplaceXor => let! s := set_symmetric_difference_update lhs (OSet rhs) in Ret (RSelf s)
  | OpInplaceAnd => let! s := set_intersect_int lhs (OSet rhs) true in Ret (RSelf s)
  | OpInplaceSub => let! s := set_diff_int lhs [OSet rhs] true in Ret (RSelf s)
  | OpLess => let! b := set_issubset_proper lhs (OSet rhs) in Ret (RBool b)
  | OpMore => let! b := set_issuperset_proper lhs (OSet rhs) in Ret (RBool b)
  | OpEqual => let! b := set_equal lhs rhs in Ret (RBool b)
  | OpLessEqual => let! b := set_issubset lhs (OSet rhs) in Ret (RBool b)
  | OpMoreEqual => let! b := set_issuperset lhs (OSet rhs) in Ret (RBool b)
  end.

(** [MP_BINARY_OP_CONTAINS], whose right operand is any object. *)
Definition set_contains s item : outcome bool :=
  let! '(_, r) := mp_set_lookup s item MP_MAP_LOOKUP in
  Ret (match r with Some _ => true | None => false end).

(** The operators that compare two sets. *)
Definition compares (op : set_op) : bool :=
  match op with OpLess | OpMore | OpEqual | OpLessEqual | OpMoreEqual => true | _ => false end.

(** ** Lists of items up to [==] *)

Definition mem_items (items : list obj) (k : obj) : Prop :=
  exists x, x ∈ items /\ mp_obj_equal x k = true.

Definition hashable (items : list obj) : Prop := forall x, x ∈ items -> exists h, mp_hash x = Ret h.

Inductive nodup_eq : list obj -> Prop :=
| nodup_eq_nil : nodup_eq []
| nodup_eq_cons x items : ~ mem_items items x -> nodup_eq items -> nodup_eq (x :: items).
End ObjSet.
Arguments operand : clear implicits.
Arguments set_result : clear implicits.

Section Proofs.
Context {obj : Type} `{!EqDecision obj, !MpObjOps obj, !MpObjLaws obj, !Allocator obj, !SmallHeap obj}.
Implicit Types (s o : mp_set_t obj) (x k : obj) (items : list obj).

Lemma mem_items_cons x items k : mem_items (x :: items) k <-> mp_obj_equal x k = true \/ mem_items items k.
Proof.
  unfold mem_items. split.
  - intros (y & Hy & E). apply elem_of_cons in Hy as [->|Hy]; [by left|right; eauto].
  - intros [E|(y & Hy & E)]; [exists x|exists y]; split; try done; set_solver.
Qed.

Lemma mem_items_nil k : ~ mem_items (obj := obj) [] k.
Proof. intros (x & Hx & _). by apply not_elem_of_nil in Hx. Qed.

Lemma mem_items_proper items a b : mp_obj_equal a b = true -> mem_items items a <-> mem_items items b.
Proof.
  intros E. split; intros (x & Hx & Ex); exists x; (split; [done|]); eapply equal_trans; try done.
  by apply equal_sym.
Qed.

Lemma mem_elements s k : mem_items (elements (set_keys s)) k <-> mem s k.
Proof. apply elements_mem. Qed.

Lemma elements_hashable s : set_wf s -> hashable (elements (set_keys s)).
Proof.
  intros Hwf x Hx. apply list_elem_of_omap in Hx as (y & Hy & Ey). destruct y; simplify_eq.
  apply list_elem_of_lookup in Hy as [p Hp]. destruct (kw_hash _ (sw_keys _ Hwf) p x Hp) as (h & ? & _). eauto.
Qed.

Lemma elements_nodup s : set_wf s -> nodup_eq (elements (set_keys s)).
Proof.
  intros Hwf. assert (Hd : distinct (set_keys s)).
  { split; [|apply Hwf]. intros p k Hp. destruct (kw_hash _ (sw_keys _ Hwf) p k Hp) as (h & ? & _). eauto. }
  clear Hwf. induction (set_keys s) as [|x ks IH]; [constructor|].
  destruct (distinct_tail _ _ Hd) as [Hd' Hno]. destruct x as [| |k]; simpl; [by apply IH..|].
  constructor; [|by apply IH]. intros Hin. apply (Hno k eq_refl). by apply elements_mem.
Qed.

(** ** Iterating over a set is iterating over its elements *)

Lemma set_it_iternext_elements s cur : set_wf s -> (cur <= set_alloc s)%nat ->
  match elements (drop cur (set_keys s)) with
  | [] => set_it_iternext s cur = Ret None
  | x :: items => exists cur', set_it_iternext s cur = Ret (Some (x, cur')) /\ (cur < cur' <= set_alloc s)%nat /\
      elements (drop cur' (set_keys s)) = items
  end.
Proof.
  intros Hwf Hcur. pose proof (sw_length _ Hwf) as Hl. unfold set_it_iternext.
  remember (set_alloc s - cur)%nat as n eqn:Hn. revert cur Hcur Hn.
  induction n as [|n IH]; intros cur Hcur Hn; cbn [set_it_from].
  - by rewrite drop_ge by lia.
  - destruct (rd_in_bounds (set_keys s) (Z.of_nat cur)) as (y & Hy & Hly); [lia|]. rewrite Nat2Z.id in Hly.
    rewrite Hy, (drop_S _ _ _ Hly). cbn [obind]. specialize (IH (S cur) ltac:(lia) ltac:(lia)).
    rewrite elements_cons. destruct y as [| |x].
    3: { exists (S cur). split_and!; try done; lia. }
    all: destruct (elements (drop (S cur) (set_keys s))) as [|z zs]; [done|];
      destruct IH as (cur' & ? & ? & ?); exists cur'; split_and!; try done; lia.
Qed.

Section Loops.
Context {St : Type} (body : St -> obj -> outcome (St * bool)).

(** Iterating over a set that the loop does not change visits its elements in slot order. *)
Lemma for_each_set_elements s fuel cur st : set_wf s -> (cur <= set_alloc s)%nat ->
  (set_alloc s - cur < fuel)%nat ->
  for_each_set (fun _ => s) body fuel cur st = for_each_item body (elements (drop cur (set_keys s))) st.
Proof.
  intros Hwf. revert cur st. induction fuel as [|fuel IH]; intros cur st Hcur Hf; [lia|]. cbn [for_each_set].
  pose proof (set_it_iternext_elements s cur Hwf Hcur) as H.
  destruct (elements (drop cur (set_keys s))) as [|x items].
  - by rewrite H.
  - destruct H as (cur' & -> & ? & <-). cbn [obind for_each_item].
    destruct (body st x) as [[st' []]| | |]; try done. cbn [obind]. apply IH; lia.
Qed.

(** A loop whose body never stops, by the items left. *)
Lemma for_each_item_inv (P : list obj -> St -> Prop) items st :
  P items st ->
  (forall x items st, P (x :: items) st -> oom obj (body st x) (fun '(st', stop) => stop = false /\ P items st')) ->
  oom obj (for_each_item body items st) (fun '(st', _) => P [] st').
Proof.
  intros H0 Hstep. revert st H0. induction items as [|x items IH]; intros st H0; [by apply oom_Ret|]. cbn [for_each_item].
  eapply oom_bind; [by apply Hstep|]. intros [st' stop] [-> H1]. by apply IH.
Qed.
End Loops.

(** ** What the loops compute *)

Lemma mem_proper s x k : mp_obj_equal x k = true -> mem s x <-> mem s k.
Proof.
  intros E. split; intros (p & y & Hp & Ey); exists p, y; (split; [done|]); eapply equal_trans; try done.
  by apply equal_sym.
Qed.

Lemma equal_false_sym x k : mp_obj_equal x k = false -> mp_obj_equal k x = false.
Proof. intros E. destruct (mp_obj_equal k x) eqn:F; [|done]. by rewrite (equal_sym _ _ F) in E. Qed.

(** The bits of a constant lookup kind. *)
Ltac kind_bits :=
  repeat match goal with
  | |- context [adds ?k] => let b := eval vm_compute in (adds k) in change (adds k) with b
  | |- context [removes ?k] => let b := eval vm_compute in (removes k) in change (removes k) with b
  end; cbv iota.

(** What a lookup does to the membership of any object. *)
Lemma set_post_mem s x kind s' r k : set_post s x kind s' r ->
  mem s' k <-> if mp_obj_equal x k
               then if adds kind then (if removes kind then ~ mem s x else True) else mem s x /\ removes kind = false
               else mem s k.
Proof.
  intros Hp. destruct (mp_obj_equal x k) eqn:E.
  - rewrite <- (mem_proper s' x k E).
    destruct Hp as [(_ & _ & y & _ & Hin & _ & _ & Hres)|(_ & _ & Hno & Hres)].
    + destruct (removes kind); [|subst s'; destruct (adds kind); tauto].
      destruct Hres as [? _], (adds kind); [tauto|]. split; [done|]. by intros [_ [=]].
    + destruct (adds kind); [|destruct Hres as [_ ->]; tauto]. destruct Hres as (_ & ? & _), (removes kind); tauto.
  - apply equal_false_sym in E. destruct Hp as [(_ & H & _)|(_ & H & _)]; by apply H.
Qed.

Lemma set_post_wf s x kind s' r : set_post s x kind s' r -> set_wf s'.
Proof. by intros [[? _]|[? _]]. Qed.

Lemma lookup_each_ok s x kind : set_wf s -> (exists h, mp_hash x = Ret h) ->
  oom obj (lookup_each kind s x) (fun '(s', stop) => stop = false /\ exists r, set_post s x kind s' r).
Proof.
  intros Hwf [h Hx]. unfold lookup_each. eapply oom_bind; [by apply (set_change_spec s x kind h)|].
  intros [s' r] Hp. apply oom_Ret. eauto.
Qed.

Lemma adding s items : set_wf s -> hashable items ->
  oom obj (for_each_item (lookup_each MP_MAP_LOOKUP_ADD_IF_NOT_FOUND) items s) (fun '(s', _) =>
    set_wf s' /\ forall k, mem s' k <-> mem s k \/ mem_items items k).
Proof.
  intros Hwf Hh.
  apply (oom_mono _ (fun '(s1, _) => set_wf s1 /\ hashable [] /\
    forall k, mem s1 k \/ mem_items [] k <-> mem s k \/ mem_items items k)).
  { intros [s1 ?] (? & _ & Hm). split; [done|]. intros k. rewrite <- Hm. pose proof (mem_items_nil k). tauto. }
  apply (for_each_item_inv _ (fun rest s1 => set_wf s1 /\ hashable rest /\
    forall k, mem s1 k \/ mem_items rest k <-> mem s k \/ mem_items items k)); [done|].
  intros x rest s1 (Hwf1 & Hh1 & Hm1).
  eapply oom_mono; [|apply lookup_each_ok; [done|apply Hh1; set_solver]].
  intros [s2 stop] (-> & r & Hp). split; [done|]. split; [by eapply set_post_wf|].
  split; [intros y Hy; apply Hh1; set_solver|].
  intros k. rewrite <- Hm1, mem_items_cons, (set_post_mem _ _ _ _ _ k Hp). kind_bits.
  destruct (mp_obj_equal x k); intuition congruence.
Qed.

Lemma removing s items : set_wf s -> hashable items ->
  oom obj (for_each_item (lookup_each MP_MAP_LOOKUP_REMOVE_IF_FOUND) items s) (fun '(s', _) =>
    set_wf s' /\ forall k, mem s' k <-> mem s k /\ ~ mem_items items k).
Proof.
  intros Hwf Hh.
  apply (oom_mono _ (fun '(s1, _) => set_wf s1 /\ hashable [] /\
    forall k, mem s1 k /\ ~ mem_items [] k <-> mem s k /\ ~ mem_items items k)).
  { intros [s1 ?] (? & _ & Hm). split; [done|]. intros k. rewrite <- Hm. pose proof (mem_items_nil k). tauto. }
  apply (for_each_item_inv _ (fun rest s1 => set_wf s1 /\ hashable rest /\
    forall k, mem s1 k /\ ~ mem_items rest k <-> mem s k /\ ~ mem_items items k)); [done|].
  intros x rest s1 (Hwf1 & Hh1 & Hm1).
  eapply oom_mono; [|apply lookup_each_ok; [done|apply Hh1; set_solver]].
  intros [s2 stop] (-> & r & Hp). split; [done|]. split; [by eapply set_post_wf|].
  split; [intros y Hy; apply Hh1; set_solver|].
  intros k. rewrite <- Hm1, mem_items_cons, (set_post_mem _ _ _ _ _ k Hp). kind_bits.
  destruct (mp_obj_equal x k); intuition congruence.
Qed.

(** Toggling the membership of distinct items. *)
Lemma toggling s items : set_wf s -> hashable items -> nodup_eq items ->
  oom obj (for_each_item (lookup_each MP_MAP_LOOKUP_ADD_IF_NOT_FOUND_OR_REMOVE_IF_FOUND) items s) (fun '(s', _) =>
    set_wf s' /\ forall k, mem s' k <-> (mem s k /\ ~ mem_items items k) \/ (~ mem s k /\ mem_items items k)).
Proof.
  revert s. induction items as [|x items IH]; intros s Hwf Hh Hd.
  { apply oom_Ret. split; [done|]. intros k. pose proof (mem_items_nil k). tauto. }
  inversion_clear Hd as [|? ? Hx Hd']. cbn [for_each_item].
  eapply oom_bind; [apply lookup_each_ok; [done|apply Hh; set_solver]|]. intros [s2 stop] (-> & r & Hp).
  eapply oom_mono; [|apply IH; [by eapply set_post_wf|intros y Hy; apply Hh; set_solver|done]].
  intros [s' ?] [Hwf' Hm]. split; [done|]. intros k.
  rewrite Hm, mem_items_cons, (set_post_mem _ _ _ _ _ k Hp). kind_bits.
  destruct (mp_obj_equal x k) eqn:E.
  - rewrite <- (mem_proper s x k E), <- (mem_items_proper items x k E). tauto.
  - intuition congruence.
Qed.

(** Looking up without changing. *)
Lemma lookup_only s x h : set_wf s -> mp_hash x = Ret h ->
  exists r, mp_set_lookup s x MP_MAP_LOOKUP = Ret (s, r) /\
    (match r with Some _ => mem s x | None => ~ mem s x end).
Proof.
  intros Hwf Hx. destruct (set_find_spec s x MP_MAP_LOOKUP h Hwf Hx eq_refl) as (s' & r & E & Hpost).
  destruct Hpost as [(_ & _ & y & -> & ? & _ & _ & ->)|(_ & _ & ? & -> & ->)]; eauto.
Qed.

Lemma intersecting s out items : set_wf s -> set_wf out -> hashable items ->
  oom obj (for_each_item (intersect_body s) items out) (fun '(out', _) => set_wf out' /\
    forall k, mem out' k <-> mem out k \/ (mem s k /\ mem_items items k)).
Proof.
  intros Hwf. revert out. induction items as [|x items IH]; intros out Hwfo Hh.
  { apply oom_Ret. split; [done|]. intros k. pose proof (mem_items_nil k). tauto. }
  destruct (Hh x) as [h Hx]; [set_solver|]. cbn [for_each_item]. unfold intersect_body at 1.
  destruct (lookup_only s x h Hwf Hx) as (r & -> & Hr). cbn [obind].
  assert (Hh' : hashable items) by (intros y Hy; apply Hh; set_solver).
  destruct r as [y|]; cbn [obind].
  - eapply oom_bind; [unfold set_add; eapply oom_bind; [eapply oom_bind; [by apply (set_change_spec out x _ h)|]|]|].
    + intros [o1 r1] Hp. apply (oom_Ret o1 (fun o1 => exists r, set_post out x MP_MAP_LOOKUP_ADD_IF_NOT_FOUND o1 r)). eauto.
    + intros o1 Hp. by apply (oom_Ret _ (fun '(o1, stop) => stop = false /\ exists r, set_post out x MP_MAP_LOOKUP_ADD_IF_NOT_FOUND o1 r)).
    + intros [o1 stop] (-> & r1 & Hp). eapply oom_mono; [|apply IH; [by eapply set_post_wf|done]].
      intros [out' ?] [Hwf' Hm]. split; [done|]. intros k.
      rewrite Hm, mem_items_cons, (set_post_mem _ _ _ _ _ k Hp). kind_bits.
      destruct (mp_obj_equal x k) eqn:E; [|intuition congruence]. rewrite <- (mem_proper s x k E). tauto.
  - eapply oom_mono; [|by apply IH]. intros [out' ?] [Hwf' Hm]. split; [done|]. intros k.
    rewrite Hm, mem_items_cons. destruct (mp_obj_equal x k) eqn:E; [|intuition congruence].
    rewrite <- (mem_proper s x k E). tauto.
Qed.

(** A search that stops at the first item with [test]. *)
Lemma searching s items (test : option obj -> bool) : set_wf s -> hashable items ->
  (forall r, test r = match r with Some _ => true | None => false end) \/
  (forall r, test r = match r with Some _ => false | None => true end) ->
  exists b, for_each_item (fun (_ : unit) x => let! '(_, r) := mp_set_lookup s x MP_MAP_LOOKUP in Ret (tt, test r)) items tt
    = Ret (tt, b) /\
    (b = false <-> forall x, x ∈ items -> if test (Some x) then ~ mem s x else mem s x).
Proof.
  intros Hwf Hh Ht. induction items as [|x items IH].
  { exists false. split; [done|]. split; [|done]. intros _ x Hx. by apply not_elem_of_nil in Hx. }
  destruct (Hh x) as [h Hx]; [set_solver|]. cbn [for_each_item].
  destruct (lookup_only s x h Hwf Hx) as (r & -> & Hr). cbn [obind].
  destruct IH as (b & E & Hb); [intros y Hy; apply Hh; set_solver|].
  destruct (test r) eqn:Etest.
  - exists true. split; [done|]. split; [done|]. intros Hall. specialize (Hall x ltac:(set_solver)).
    destruct Ht as [Ht|Ht]; rewrite Ht in Hall, Etest; by destruct r.
  - exists b. split; [done|]. rewrite Hb. split; intros Hall y Hy.
    + apply elem_of_cons in Hy as [->|Hy]; [|by apply Hall].
      destruct Ht as [Ht|Ht]; rewrite Ht in Etest |- *; by destruct r.
    + apply Hall. set_solver.
Qed.

Lemma for_each_OSet {St} (get : St -> mp_set_t obj) body (st : St) o Q : set_wf o ->
  oom obj (for_each_item body (elements (set_keys o)) st) Q -> oom obj (for_each get (OSet o) false body st) Q.
Proof.
  intros Hwf HQ. unfold for_each. cbn [mp_getiter]. eapply oom_bind; [apply m_new_obj_oom|]. intros _ _.
  rewrite for_each_set_elements by (done || lia). by rewrite drop_0.
Qed.

(** A new set object with an empty table. *)
Lemma mp_obj_new_set_nil : oom obj (mp_obj_new_set []) empty_set.
Proof.
  unfold mp_obj_new_set. eapply oom_bind; [apply m_new_obj_oom|]. intros _ _. cbn [length].
  destruct mp_set_init_0 as [-> He]. by apply oom_Ret.
Qed.

(** Copying keeps the table. *)
Lemma set_copy_ok s : set_wf s -> oom obj (set_copy s) (fun s' => s' = s).
Proof.
  intros Hwf. pose proof (sw_length _ Hwf) as Hl. pose proof (sw_small _ Hwf). unfold set_copy.
  eapply oom_bind; [apply m_new_obj_oom|]. intros _ _. unfold mp_set_init.
  eapply oom_bind; [eapply oom_bind; [apply m_new0_of_oom; lia|]|].
  - intros t [-> _]. rewrite Nat2Z.id. by apply (oom_Ret _ (fun s' => s' = mk_set (set_alloc s) 0 (replicate (set_alloc s) KNull))).
  - intros ? ->. cbn [set_alloc set_keys]. rewrite take_ge by lia.
    rewrite memcpy_in_Ret by (rewrite ?length_replicate; lia). cbn [obind]. apply oom_Ret.
    rewrite drop_ge by (rewrite ?length_replicate; lia). cbn. rewrite app_nil_r. by destruct s.
Qed.

(** ** Subsets *)

(** Taking one item of [items] out leaves every other one. *)
Lemma take_out items x : mem_items items x -> exists items', length items = S (length items') /\
  forall k, mem_items items k -> mp_obj_equal k x = true \/ mem_items items' k.
Proof.
  induction items as [|y items IH]; intros Hin; [by destruct (mem_items_nil x)|].
  apply mem_items_cons in Hin as [E|Hin].
  - exists items. split; [done|]. intros k Hk. apply mem_items_cons in Hk as [F|?]; [left|by right].
    eapply equal_trans; [by apply equal_sym|done].
  - destruct (IH Hin) as (items' & Hl & Hk). exists (y :: items'). split; [simpl; lia|].
    intros k Hk'. rewrite mem_items_cons. apply mem_items_cons in Hk' as [F|H']; [tauto|].
    destruct (Hk k H'); tauto.
Qed.

(** Distinct items included in a list that is not longer are all of it. *)
Lemma nodup_included a b : nodup_eq a -> (forall k, mem_items a k -> mem_items b k) ->
  (length a <= length b)%nat /\
  ((length b <= length a)%nat -> forall k, mem_items b k -> mem_items a k).
Proof.
  intros Hd. revert b. induction Hd as [|x a Hx Hd IH]; intros b Hsub.
  - split; [simpl; lia|]. intros Hl k Hk. destruct b; [done|]. simpl in Hl. lia.
  - destruct (take_out b x) as (b' & Hl & Hb').
    { apply Hsub, mem_items_cons. left. apply equal_refl. }
    destruct (IH b') as [Hle Hrev].
    { intros k Hk. destruct (Hb' k) as [E|?]; [apply Hsub, mem_items_cons; by right| |done].
      destruct Hx. by apply (mem_items_proper _ k x). }
    simpl. split; [lia|]. intros Hlen k Hk. rewrite mem_items_cons.
    destruct (Hb' k Hk) as [E|Hk']; [left; by apply equal_sym|right]. apply Hrev; [lia|done].
Qed.

Lemma subset_used s o : set_wf s -> set_wf o -> (forall k, mem s k -> mem o k) ->
  (set_used s <= set_used o)%nat /\ ((set_used o <= set_used s)%nat -> forall k, mem o k -> mem s k).
Proof.
  intros Hs Ho Hsub. rewrite (sw_used _ Hs), (sw_used _ Ho), <- !elements_length.
  destruct (nodup_included (elements (set_keys s)) (elements (set_keys o)) (elements_nodup s Hs)) as [H1 H2].
  - intros k. rewrite !mem_elements. apply Hsub.
  - split; [done|]. intros Hl k. rewrite <- !mem_elements. auto.
Qed.

Lemma issubset_sets_ok s o proper : set_wf s -> set_wf o ->
  exists b, issubset_sets s o proper = Ret b /\
    (b = true <-> (forall k, mem s k -> mem o k) /\ (proper = true -> ~ forall k, mem o k -> mem s k)).
Proof.
  intros Hs Ho. unfold issubset_sets.
  rewrite for_each_set_elements by (done || lia). rewrite drop_0.
  destruct (searching o (elements (set_keys s)) (fun r => match r with Some _ => false | None => true end) Ho
    (elements_hashable s Hs)) as (b & E & Hb); [by right|].
  assert (Hsub : b = false <-> forall k, mem s k -> mem o k).
  { rewrite Hb. split.
    - intros Hall k Hk. apply mem_elements in Hk as (x & Hx & Ex). destruct (Hall x Hx) as (p & y & Hp & Ey).
      exists p, y. split; [done|]. by eapply equal_trans.
    - intros Hall x Hx. apply Hall, mem_elements. exists x. split; [done|apply equal_refl]. }
  destruct (proper && (set_used s =? set_used o)%nat) eqn:Epr.
  - exists false. split; [done|]. split; [done|]. intros [Hin Hpr].
    apply andb_true_iff in Epr as [-> Eu]. apply Nat.eqb_eq in Eu. destruct (Hpr eq_refl).
    apply (subset_used s o); try done. lia.
  - rewrite E. cbn [obind]. exists (negb b). split; [done|]. rewrite negb_true_iff, Hsub.
    split; [|tauto]. intros Hin. split; [done|]. intros -> Hrev. simpl in Epr. apply Nat.eqb_neq in Epr.
    pose proof (proj1 (subset_used s o Hs Ho Hin)). pose proof (proj1 (subset_used o s Ho Hs Hrev)). lia.
Qed.
End Proofs.

Section Theorems.
Context {obj : Type} `{!EqDecision obj, !MpObjOps obj, !MpObjLaws obj, !Allocator obj, !SmallHeap obj}.
Implicit Types (s lhs rhs : mp_set_t obj) (k : obj).

(** ** The operators, one by one *)

Lemma set_update_int_ok s rhs : set_wf s -> set_wf rhs ->
  oom obj (set_update_int s (OSet rhs)) (fun s' => set_wf s' /\ forall k, mem s' k <-> mem s k \/ mem rhs k).
Proof.
  intros Hs Hr. unfold set_update_int.
  eapply oom_bind; [apply for_each_OSet; [done|]; apply adding; [done|by apply elements_hashable]|].
  intros [s' ?] [? Hm]. apply oom_Ret. split; [done|]. intros k. by rewrite Hm, mem_elements.
Qed.

Lemma set_symmetric_difference_update_ok s rhs : set_wf s -> set_wf rhs ->
  oom obj (set_symmetric_difference_update s (OSet rhs)) (fun s' => set_wf s' /\
    forall k, mem s' k <-> (mem s k /\ ~ mem rhs k) \/ (~ mem s k /\ mem rhs k)).
Proof.
  intros Hs Hr. unfold set_symmetric_difference_update.
  eapply oom_bind; [apply for_each_OSet; [done|]; apply toggling; [done|by apply elements_hashable|by apply elements_nodup]|].
  intros [s' ?] [? Hm]. apply oom_Ret. split; [done|]. intros k. by rewrite Hm, mem_elements.
Qed.

Lemma set_intersect_int_ok s rhs update : set_wf s -> set_wf rhs ->
  oom obj (set_intersect_int s (OSet rhs) update) (fun s' => set_wf s' /\ forall k, mem s' k <-> mem s k /\ mem rhs k).
Proof.
  intros Hs Hr. unfold set_intersect_int. eapply oom_bind; [apply mp_obj_new_set_nil|]. intros out [Hwfo Hno].
  eapply oom_bind; [apply for_each_OSet; [done|]; apply intersecting; [done..|by apply elements_hashable]|].
  intros [s' ?] [? Hm]. apply oom_Ret. split; [done|]. intros k. rewrite Hm, mem_elements. specialize (Hno k). tauto.
Qed.

Lemma set_diff_loop_ok s rhs : set_wf s -> set_wf rhs ->
  oom obj (set_diff_loop [OSet rhs] s) (fun s' => set_wf s' /\ forall k, mem s' k <-> mem s k /\ ~ mem rhs k).
Proof.
  intros Hs Hr. cbn [set_diff_loop].
  eapply oom_bind; [apply for_each_OSet; [done|]; apply removing; [done|by apply elements_hashable]|].
  intros [s' ?] [? Hm]. apply oom_Ret. split; [done|]. intros k. by rewrite Hm, mem_elements.
Qed.

Lemma set_equal_ok lhs rhs : set_wf lhs -> set_wf rhs ->
  exists b, set_equal lhs rhs = Ret b /\ (b = true <-> forall k, mem lhs k <-> mem rhs k).
Proof.
  intros Hl Hr. unfold set_equal, set_issubset. cbn [as_set obind].
  destruct (issubset_sets_ok lhs rhs false Hl Hr) as (b & -> & Hb).
  destruct (Nat.eqb_spec (set_used lhs) (set_used rhs)) as [Eq|Eq]; cbn [negb]; eexists; (split; [done|]).
  - rewrite Hb. split.
    + intros [Hin _] k. split; [apply Hin|]. apply (subset_used lhs rhs); try done. lia.
    + intros Heq. split; [intros k; apply Heq|done].
  - split; [done|]. intros Heq. destruct Eq. apply Nat.le_antisymm; apply subset_used; try done; intros k; apply Heq.
Qed.

(** [let! x := e in Ret (f x)] *)
Lemma oom_map {A B} (e : outcome A) (f : A -> B) P (Q : B -> Prop) :
  oom obj e P -> (forall x, P x -> Q (f x)) -> oom obj (let! x := e in Ret (f x)) Q.
Proof. intros He Hf. eapply oom_bind; [done|]. intros x Hx. by apply oom_Ret, Hf. Qed.

(** What an operator between [lhs] and [rhs] returns. *)
Definition binary_result (op : set_op) lhs rhs (r : set_result obj) : Prop :=
  match op, r with
  | OpOr, RSet s | OpInplaceOr, RSelf s => set_wf s /\ forall k, mem s k <-> mem lhs k \/ mem rhs k
  | OpXor, RSet s | OpInplaceXor, RSelf s => set_wf s /\ forall k, mem s k <-> (mem lhs k /\ ~ mem rhs k) \/ (~ mem lhs k /\ mem rhs k)
  | OpAnd, RSet s | OpInplaceAnd, RSelf s => set_wf s /\ forall k, mem s k <-> mem lhs k /\ mem rhs k
  | OpSub, RSet s | OpInplaceSub, RSelf s => set_wf s /\ forall k, mem s k <-> mem lhs k /\ ~ mem rhs k
  | OpLess, RBool b => b = true <-> (forall k, mem lhs k -> mem rhs k) /\ ~ forall k, mem rhs k -> mem lhs k
  | OpMore, RBool b => b = true <-> (forall k, mem rhs k -> mem lhs k) /\ ~ forall k, mem lhs k -> mem rhs k
  | OpEqual, RBool b => b = true <-> forall k, mem lhs k <-> mem rhs k
  | OpLessEqual, RBool b => b = true <-> forall k, mem lhs k -> mem rhs k
  | OpMoreEqual, RBool b => b = true <-> forall k, mem rhs k -> mem lhs k
  | _, _ => False
  end.

Lemma comparison_ok op lhs rhs : set_wf lhs -> set_wf rhs -> compares op = true ->
  exists r, set_binary_op op lhs rhs = Ret r /\ binary_result op lhs rhs r.
Proof.
  intros Hl Hr Hc.
  destruct (issubset_sets_ok lhs rhs true Hl Hr) as (b1 & E1 & H1), (issubset_sets_ok rhs lhs true Hr Hl) as (b2 & E2 & H2),
    (issubset_sets_ok lhs rhs false Hl Hr) as (b3 & E3 & H3), (issubset_sets_ok rhs lhs false Hr Hl) as (b4 & E4 & H4),
    (set_equal_ok lhs rhs Hl Hr) as (b5 & E5 & H5).
  destruct op; try done; cbn [set_binary_op]; unfold set_issubset_proper, set_issuperset_proper, set_issubset, set_issuperset;
    cbn [as_set obind]; rewrite ?E1, ?E2, ?E3, ?E4, ?E5; cbn [obind]; eexists; (split; [done|]); cbn [binary_result]; try done.
  - rewrite H1. tauto.
  - rewrite H2. tauto.
  - rewrite H3. intuition congruence.
  - rewrite H4. intuition congruence.
Qed.

(** C27. An operator between two sets computes the set algebra of memberships up to [==]: union, symmetric
    difference, intersection and difference, as a new well-formed set or in place, and the (proper) subset and superset
    tests and equality.  The tests never raise; the other operators allocate, and raise [MemoryError] only on a heap that
    refuses some request (the receiver of an operator in place may then be changed in part, see
    [set_rehash_failed]). *)
Theorem set_binary_op_spec op lhs rhs : set_wf lhs -> set_wf rhs ->
  (set_binary_op op lhs rhs = Raise MemoryError /\ compares op = false /\ exists n, m_renew_ok (A := obj) n = false) \/
  exists r, set_binary_op op lhs rhs = Ret r /\
  match op, r with
  | OpOr, RSet s | OpInplaceOr, RSelf s => set_wf s /\ forall k, mem s k <-> mem lhs k \/ mem rhs k
  | OpXor, RSet s | OpInplaceXor, RSelf s => set_wf s /\ forall k, mem s k <-> (mem lhs k /\ ~ mem rhs k) \/ (~ mem lhs k /\ mem rhs k)
  | OpAnd, RSet s | OpInplaceAnd, RSelf s => set_wf s /\ forall k, mem s k <-> mem lhs k /\ mem rhs k
  | OpSub, RSet s | OpInplaceSub, RSelf s => set_wf s /\ forall k, mem s k <-> mem lhs k /\ ~ mem rhs k
  | OpLess, RBool b => b = true <-> (forall k, mem lhs k -> mem rhs k) /\ ~ forall k, mem rhs k -> mem lhs k
  | OpMore, RBool b => b = true <-> (forall k, mem rhs k -> mem lhs k) /\ ~ forall k, mem lhs k -> mem rhs k
  | OpEqual, RBool b => b = true <-> forall k, mem lhs k <-> mem rhs k
  | OpLessEqual, RBool b => b = true <-> forall k, mem lhs k -> mem rhs k
  | OpMoreEqual, RBool b => b = true <-> forall k, mem rhs k -> mem lhs k
  | _, _ => False
  end.
Proof.
  intros Hl Hr. destruct (compares op) eqn:Hc; [right; by apply comparison_ok|].
  enough (oom obj (set_binary_op op lhs rhs) (binary_result op lhs rhs)) as [[? ?]|?]; [by left|by right|].
  destruct op; try done; cbn [set_binary_op].
  - eapply oom_map; [|by intros s Hs; exact Hs]. eapply oom_bind; [by apply set_copy_ok|]. intros ? ->. by apply set_update_int_ok.
  - eapply oom_map; [|by intros s Hs; exact Hs]. eapply oom_bind; [by apply set_copy_ok|]. intros ? ->.
    by apply set_symmetric_difference_update_ok.
  - eapply oom_map; [by apply set_intersect_int_ok|]. by intros s Hs.
  - eapply oom_map; [|by intros s Hs; exact Hs]. eapply oom_bind; [by apply set_copy_ok|]. intros ? ->. by apply set_diff_loop_ok.
  - eapply oom_map; [|by intros s Hs; exact Hs]. cbn [set_update]. eapply oom_map; [by apply set_update_int_ok|]. by intros s Hs.
  - eapply oom_map; [by apply set_symmetric_difference_update_ok|]. by intros s Hs.
  - eapply oom_map; [by apply set_intersect_int_ok|]. by intros s Hs.
  - eapply oom_map; [by apply set_diff_loop_ok|]. by intros s Hs.
Qed.
End Theorems.

Lemma set_binary_op_spec_witness :
  exists s, set_binary_op OpSub sample_set (mk_set 2 1 [KNull; Key (Int 9)]) = Ret (RSet s) /\ set_wf s /\ mem s (Int 8).
Proof.
  assert (Hwf : set_wf (mk_set 2 1 [KNull; Key (Int 9)])).
  { split; try done. split.
    - intros [|[|p]] k [= <-]. exists 9%Z. split; [done|]. exists 0%nat. split_and!; [cbn; lia|done|lia].
    - by intros [|[|p]] [|[|q]] k k' [= <-] [= <-]. }
  destruct (set_binary_op_spec OpSub sample_set (mk_set 2 1 [KNull; Key (Int 9)]) sample_set_wf Hwf)
    as [[E _]|(r & E & Hr)]; [vm_compute in E; discriminate E|].
  destruct r as [s| |]; [|destruct Hr|destruct Hr]. exists s. split; [exact E|]. destruct Hr as [Hs Hm]. split; [exact Hs|].
  apply Hm. split; [by exists 2%nat, (Int 8)|]. intros (p & k & Hp & F). by destruct p as [|[|p]]; simplify_eq/=.
Defined.

(** [set.symmetric_difference] toggles per item, so an item that an iterable yields twice is
    left out of the result, although it belongs to one operand only. *)
Lemma symmetric_difference_duplicates :
  exists s, set_symmetric_difference (obj := sample_obj) (mk_set 0 0 []) (OIter false [Int 2; Int 2]) = Ret s /\
    set_used s = 0%nat /\ ~ mem s (Int 2).
Proof.
  eexists. split; [vm_compute; reflexivity|]. split; [done|]. intros (p & k & Hp & E).
  by destruct p as [|[|p]].
Qed.
