(* ===== verification/ObjDict.v ===== *)
(** * Dictionary objects ([py/objdict.c])

    The methods and operators of Python dictionaries over the maps of [Map.v].  A slot that
    [mp_map_lookup] returns is written through with [set_value]. *)

From S2P Require Import Prelude Malloc MpObj HashKeys Map MapSpec SetTable ObjSet.

Section ObjDict.
Context {obj : Type} `{!EqDecision obj, !MpObjOps obj, !Allocator obj}.
(** [mp_const_none] *)
Variable none : obj.
Implicit Types (m self : mp_map_t obj).

(** [elem->value = value] *)
Definition set_value m (slot : option nat) (v : option obj) : outcome (mp_map_t obj) :=
  match slot with
  | None => Undef
  | Some pos =>
    let! s := rd (table m) (Z.of_nat pos) in
    let! t := wr (table m) (Z.of_nat pos) (mk_elem (key s) v) in
    Ret (with_table m t)
  end.

(** [elem->value] *)
Definition get_value m (pos : nat) : outcome (option obj) :=
  let! s := rd (table m) (Z.of_nat pos) in Ret (value s).

(** The loop of [dict_iter_next] from slot [i], with [n] slots left. *)
Fixpoint dict_iter_from (n i : nat) m : outcome (option nat) :=
  match n with
  | O => Ret None
  | S n =>
    let! filled := mp_map_slot_is_filled m i in
    if filled then Ret (Some i) else dict_iter_from n (S i) m
  end.

(** The next filled slot from [*cur] on; the new [*cur] is the slot after it. *)
Definition dict_iter_next m (cur : nat) : outcome (option nat) :=
  dict_iter_from (alloc m - cur) cur m.

Definition mp_ensure_not_fixed m : outcome unit := if is_fixed m then Raise TypeError else Ret tt.

(** The object has four words. *)
Definition mp_obj_new_dict (n : nat) : outcome (mp_map_t obj) := let! _ := m_new_obj (A := obj) 16 in mp_map_init n.

Definition dict_len m : nat := used m.
Definition dict_bool m : bool := negb (used m =? 0)%nat.

Definition dict_contains m (index : obj) : outcome bool :=
  let! '(_, slot) := mp_map_lookup m index MP_MAP_LOOKUP in
  Ret (match slot with Some _ => true | None => false end).

Definition mp_obj_dict_get m (index : obj) : outcome (option obj) :=
  let! '(_, slot) := mp_map_lookup m index MP_MAP_LOOKUP in
  match slot with
  | None => Raise KeyError
  | Some pos => get_value m pos
  end.

(** [dict_get_helper]; [default] is [args[2]] when there are three arguments. *)
Definition dict_get_helper self (index : obj) (default : option obj) (lookup_kind : Z)
  : outcome (mp_map_t obj * option obj) :=
  let! _ := if negb (lookup_kind =? MP_MAP_LOOKUP)%Z then mp_ensure_not_fixed self else Ret tt in
  let! '(self, elem) := mp_map_lookup self index lookup_kind in
  let! found := match elem with None => Ret None | Some pos => get_value self pos end in
  match found with
  | None =>
    let! value :=
      match default with
      | None => if (lookup_kind =? MP_MAP_LOOKUP_REMOVE_IF_FOUND)%Z then Raise KeyError else Ret none
      | Some d => Ret d
      end in
    if (lookup_kind =? MP_MAP_LOOKUP_ADD_IF_NOT_FOUND)%Z then
      let! self := set_value self elem (Some value) in Ret (self, Some value)
    else Ret (self, Some value)
  | Some value =>
    if (lookup_kind =? MP_MAP_LOOKUP_REMOVE_IF_FOUND)%Z then
      let! self := set_value self elem None in Ret (self, Some value)
    else Ret (self, Some value)
  end.

Definition dict_get self index default := dict_get_helper self index default MP_MAP_LOOKUP.
Definition dict_pop self index default := dict_get_helper self index default MP_MAP_LOOKUP_REMOVE_IF_FOUND.
Definition dict_setdefault self index default :=
  dict_get_helper self index default MP_MAP_LOOKUP_ADD_IF_NOT_FOUND.

Definition lookup_store self (k : obj) (v : option obj) : outcome (mp_map_t obj) :=
  let! '(self, slot) := mp_map_lookup self k MP_MAP_LOOKUP_ADD_IF_NOT_FOUND in set_value self slot v.

Definition mp_obj_dict_store self (k v : obj) : outcome (mp_map_t obj) :=
  let! _ := mp_ensure_not_fixed self in lookup_store self k (Some v).

Definition mp_obj_dict_delete self (k : obj) : outcome (mp_map_t obj) :=
  let! '(self, _) := dict_pop self k None in Ret self.

Inductive subscr := Delete | Load | Store (v : obj).

Definition dict_subscr self (index : obj) (op : subscr) : outcome (mp_map_t obj * option obj) :=
  match op with
  | Delete => let! self := mp_obj_dict_delete self index in Ret (self, Some none)
  | Load => let! v := mp_obj_dict_get self index in Ret (self, v)
  | Store v => let! self := mp_obj_dict_store self index v in Ret (self, Some none)
  end.

Definition dict_clear self : outcome (mp_map_t obj) :=
  let! _ := mp_ensure_not_fixed self in Ret (mp_map_clear self).

Definition mp_obj_dict_copy self : outcome (mp_map_t obj) :=
  let! other := mp_obj_new_dict (alloc self) in
  let! t := memcpy_in (table other) 0 (take (alloc self) (table self)) in
  Ret (mk_map (all_keys_are_qstrs self) false (is_ordered self) (used self) (alloc other) t).

(** [dict_popitem]: the item is marked deleted in its slot. *)
Definition dict_popitem self : outcome (mp_map_t obj * (slot_key obj * option obj)) :=
  let! _ := mp_ensure_not_fixed self in
  if (used self =? 0)%nat then Raise KeyError else
  let! next := dict_iter_next self 0 in
  match next with
  | None => Undef
  | Some pos =>
    let! e := rd (table self) (Z.of_nat pos) in
    let! t := wr (table self) (Z.of_nat pos) (mk_elem KSentinel None) in
    Ret (with_table (with_used self (used self - 1)) t, (key e, value e))
  end.

(** The loop of [dict_update] over another dictionary, from slot [cur]. *)
Fixpoint update_from_dict (fuel cur : nat) (other self : mp_map_t obj) : outcome (mp_map_t obj) :=
  match fuel with
  | O => OutOfFuel
  | S fuel =>
    let! next := dict_iter_next other cur in
    match next with
    | None => Ret self
    | Some pos =>
      let! e := rd (table other) (Z.of_nat pos) in
      match key e with
      | Key k => let! self := lookup_store self k (value e) in update_from_dict fuel (S pos) other self
      | _ => Undef
      end
    end
  end.

(** The loop of [dict_update] over an iterable, given by the iterables it yields; each needs an iterator. *)
Fixpoint update_from_pairs (items : list (bool * list obj)) self : outcome (mp_map_t obj) :=
  match items with
  | [] => Ret self
  | (iterator, inner) :: items =>
    let! _ := mp_getiter (OIter iterator inner) false in
    match inner with
    | [k; v] => let! self := lookup_store self k (Some v) in update_from_pairs items self
    | _ => Raise ValueError
    end
  end.

(** The loop of [dict_update] over the keyword arguments, from slot [i]. *)
Fixpoint update_from_kwargs (n i : nat) (kwargs self : mp_map_t obj) : outcome (mp_map_t obj) :=
  match n with
  | O => Ret self
  | S n =>
    let! filled := mp_map_slot_is_filled kwargs i in
    if filled then
      let! e := rd (table kwargs) (Z.of_nat i) in
      match key e with
      | Key k => let! self := lookup_store self k (value e) in update_from_kwargs n (S i) kwargs self
      | _ => Undef
      end
    else update_from_kwargs n (S i) kwargs self
  end.

Inductive update_arg := UNone | USelf | UDict (other : mp_map_t obj) | UIter (iterator : bool) (items : list (bool * list obj)).

Definition dict_update self (arg : update_arg) (kwargs : mp_map_t obj) : outcome (mp_map_t obj) :=
  let! _ := mp_ensure_not_fixed self in
  let! self :=
    match arg with
    | UNone | USelf => Ret self
    | UDict other => update_from_dict (alloc other + 1) 0 other self
    | UIter iterator items => let! _ := mp_getiter (OIter iterator []) false in update_from_pairs items self
    end in
  update_from_kwargs (alloc kwargs) 0 kwargs self.

Definition mp_obj_dict_make_new (arg : update_arg) (kwargs : mp_map_t obj) : outcome (mp_map_t obj) :=
  let! self := mp_obj_new_dict 0 in dict_update self arg kwargs.

(** The loop of the equality of two dictionaries. *)
Fixpoint dict_equal_loop (fuel cur : nat) m (rhs : mp_map_t obj) : outcome bool :=
  match fuel with
  | O => OutOfFuel
  | S fuel =>
    let! next := dict_iter_next m cur in
    match next with
    | None => Ret true
    | Some pos =>
      let! e := rd (table m) (Z.of_nat pos) in
      match key e with
      | Key k =>
        let! '(_, elem) := mp_map_lookup rhs k MP_MAP_LOOKUP in
        match elem with
        | None => Ret false
        | Some pos' =>
          let! v' := get_value rhs pos' in
          match value e, v' with
          | Some v, Some v' => if mp_obj_equal v v' then dict_equal_loop fuel (S pos) m rhs else Ret false
          | _, _ => Undef
          end
        end
      | _ => Undef
      end
    end
  end.

Definition dict_equal m (rhs : mp_map_t obj) : outcome bool :=
  if negb (used m =? used rhs)%nat then Ret false else dict_equal_loop (alloc m + 1) 0 m rhs.

Inductive view_kind := MP_DICT_VIEW_ITEMS | MP_DICT_VIEW_KEYS | MP_DICT_VIEW_VALUES.

Inductive view_item := VItem (k : slot_key obj) (v : option obj) | VKey (k : slot_key obj) | VValue (v : option obj).

Definition dict_view_it_iternext (kind : view_kind) m (cur : nat) : outcome (option (view_item * nat)) :=
  let! next := dict_iter_next m cur in
  match next with
  | None => Ret None
  | Some pos =>
    let! e := rd (table m) (Z.of_nat pos) in
    Ret (Some (match kind with
               | MP_DICT_VIEW_ITEMS => VItem (key e) (value e)
               | MP_DICT_VIEW_KEYS => VKey (key e)
               | MP_DICT_VIEW_VALUES => VValue (value e)
               end, S pos))
  end.

(** A dictionary: a hash table in which every key has a value. *)
Record dict_wf m : Prop := {
  dw_map : map_wf m;
  dw_values : forall p k v, table m !! p = Some (mk_elem (Key k) v) -> exists o, v = Some o
}.

(** The items a table holds, in slot order. *)
Definition items (t : list (mp_map_elem_t obj)) : list (obj * option obj) :=
  omap (fun e => match key e with Key k => Some (k, value e) | _ => None end) t.

End ObjDict.
Arguments update_arg : clear implicits.

Section Proofs.
Context {obj : Type} `{!EqDecision obj, !MpObjOps obj, !MpObjLaws obj, !Allocator obj, !SmallHeap obj}.
Implicit Types (m self : mp_map_t obj) (k : obj).

Lemma items_cons (e : mp_map_elem_t obj) t :
  items (e :: t) = match key e with Key k => (k, value e) :: items t | _ => items t end.
Proof. unfold items. simpl. by destruct (key e). Qed.

Lemma not_fixed m : map_wf m -> mp_ensure_not_fixed m = Ret tt.
Proof. intros Hwf. unfold mp_ensure_not_fixed. by destruct (mw_hash_table _ Hwf) as [-> _]. Qed.

Lemma get_value_ok m p s v : table m !! p = Some (mk_elem s v) -> get_value m p = Ret v.
Proof.
  intros Hp. unfold get_value. by rewrite (rd_Ret _ (Z.of_nat p) (mk_elem s v)) by (rewrite ?Nat2Z.id; done || lia).
Qed.

(** Writing the value of a filled slot keeps the table well formed. *)
Lemma set_value_ok m p k v v' : map_wf m -> table m !! p = Some (mk_elem (Key k) v) ->
  exists m', set_value m (Some p) v' = Ret m' /\ map_wf m' /\ used m' = used m /\
    table m' = <[p:=mk_elem (Key k) v']> (table m) /\
    forall k', assoc (table m') k' = if mp_obj_equal k k' then Some v' else assoc (table m) k'.
Proof.
  intros Hwf Hp. unfold set_value.
  rewrite (rd_Ret _ (Z.of_nat p) (mk_elem (Key k) v)) by (rewrite ?Nat2Z.id; done || lia). cbn [obind key].
  rewrite wr_Ret by (apply lookup_lt_Some in Hp; lia). cbn [obind]. rewrite Nat2Z.id.
  pose proof (fun k' => assoc_update (table m) p k v v' k' (mw_keys _ Hwf) Hp) as Hup.
  destruct (Hup k) as [Hk _].
  eexists; split; [reflexivity|]. split_and!; try done; [|intros k'; apply Hup].
  destruct Hwf as [H1 H2 H3 H4 H5 H6]. split; cbn [with_table table used alloc all_keys_are_qstrs is_fixed is_ordered];
    rewrite ?Hk; try done. by rewrite length_insert.
Qed.

(** A lookup followed by a write of the slot's value: [d[k] = v]. *)
Lemma lookup_store_ok self k v hash : dict_wf self -> mp_hash k = Ret hash ->
  oom obj (lookup_store self k (Some v)) (fun self' => dict_wf self' /\
    (forall k', assoc (table self') k' = if mp_obj_equal k k' then Some (Some v) else assoc (table self) k')).
Proof.
  intros [Hwf Hv] Hk. unfold lookup_store.
  apply (oom_bind _ _ _ _ (add_spec self k hash Hwf Hk)). intros [m1 slot] (Hwf1 & Hoth & Hres).
  assert (exists p k0 v0, slot = Some p /\ table m1 !! p = Some (mk_elem (Key k0) v0) /\ mp_obj_equal k0 k = true /\
    forall q kq vq, q <> p -> table m1 !! q = Some (mk_elem (Key kq) vq) -> exists o, vq = Some o)
    as (p & k0 & v0 & -> & Hp & E & Hvals).
  { destruct (assoc (table self) k) as [v0|] eqn:Ha.
    - destruct Hres as (p & k0 & -> & Hp & E & ->). exists p, k0, v0. split_and!; try done. eauto.
    - destruct Hres as (p & -> & Hp & Hu). exists p, k, None. split_and!; try done; [apply equal_refl|].
      intros q kq vq Hne Hq. destruct (mp_obj_equal kq k) eqn:F.
      + destruct Hne. eapply (kw_uniq _ (mw_keys _ Hwf1) q p kq k); try (apply keys_lookup; eauto). done.
      + assert (Ha' : assoc (table m1) kq = Some vq) by (eapply assoc_Some; eauto; [apply Hwf1|apply equal_refl]).
        rewrite Hoth in Ha' by done. destruct (assoc_inv _ _ _ Ha') as (r & kr & Hr & _). eauto. }
  destruct (set_value_ok m1 p k0 v0 (Some v) Hwf1 Hp) as (m' & -> & Hwf' & _ & Ht & Has).
  apply oom_Ret. split; [split; [done|]|].
  - intros q kq vq Hq. rewrite Ht in Hq. apply list_lookup_insert_Some in Hq as [(_ & [= _ <-] & _)|[Hne Hq]]; eauto.
  - intros k'. rewrite Has. destruct (mp_obj_equal k0 k') eqn:E0, (mp_obj_equal k k') eqn:E1; try done.
    + by rewrite (equal_trans _ _ _ (equal_sym _ _ E) E0) in E1.
    + by rewrite (equal_trans _ _ _ E E1) in E0.
    + apply Hoth. destruct (mp_obj_equal k' k) eqn:F; [|done]. by rewrite (equal_sym _ _ F) in E1.
Qed.

(** ** Iteration *)

Lemma slot_filled m p : map_wf m -> (p < alloc m)%nat ->
  exists e, table m !! p = Some e /\ mp_map_slot_is_filled m p = Ret (key_is_filled (key e)) /\
    rd (table m) (Z.of_nat p) = Ret e.
Proof.
  intros Hwf Hp. pose proof (mw_length _ Hwf) as Hl.
  destruct (rd_in_bounds (table m) (Z.of_nat p)) as (e & He & Hle); [lia|]. rewrite Nat2Z.id in Hle.
  exists e. split; [done|]. unfold mp_map_slot_is_filled. rewrite (proj2 (Nat.leb_gt _ _)) by lia. by rewrite He.
Qed.

Lemma dict_iter_next_items m cur : map_wf m -> (cur <= alloc m)%nat ->
  match items (drop cur (table m)) with
  | [] => dict_iter_next m cur = Ret None
  | (k, v) :: rest => exists p, dict_iter_next m cur = Ret (Some p) /\ (cur <= p < alloc m)%nat /\
      table m !! p = Some (mk_elem (Key k) v) /\ items (drop (S p) (table m)) = rest
  end.
Proof.
  intros Hwf Hcur. pose proof (mw_length _ Hwf) as Hl. unfold dict_iter_next.
  remember (alloc m - cur)%nat as n eqn:Hn. revert cur Hcur Hn.
  induction n as [|n IH]; intros cur Hcur Hn; cbn [dict_iter_from].
  - by rewrite drop_ge by lia.
  - destruct (slot_filled m cur Hwf ltac:(lia)) as (e & He & -> & _). cbn [obind].
    rewrite (drop_S _ _ _ He), items_cons. specialize (IH (S cur) ltac:(lia) ltac:(lia)).
    destruct (key e) as [| |k] eqn:Ek; cbn [key_is_filled].
    3: { exists cur. split_and!; try done; [lia|]. rewrite He. f_equal. destruct e; simpl in *. by subst. }
    all: destruct (items (drop (S cur) (table m))) as [|[z vz] zs]; [done|];
      destruct IH as (p & ? & ? & ? & ?); exists p; split_and!; try done; lia.
Qed.

Lemma items_lookup t k v : (k, v) ∈ items t <-> exists p, t !! p = Some (mk_elem (Key k) v).
Proof.
  unfold items. rewrite list_elem_of_omap. split.
  - intros ([s w] & Hin & E). destruct s; simplify_eq/=. by apply list_elem_of_lookup in Hin.
  - intros (p & Hp). exists (mk_elem (Key k) v). split; [by eapply list_elem_of_lookup_2|done].
Qed.

Lemma items_length (t : list (mp_map_elem_t obj)) : length (items t) = filled (keys t).
Proof. induction t as [|[[| |k] v] t IH]; simpl; auto. Qed.

(** Clearing the value of a slot that holds no key. *)
Lemma set_value_unfilled m p d v v' : map_wf m -> table m !! p = Some (mk_elem d v) -> key_is_filled d = false ->
  exists m', set_value m (Some p) v' = Ret m' /\ map_wf m' /\ used m' = used m /\
    table m' = <[p:=mk_elem d v']> (table m) /\ forall k', assoc (table m') k' = assoc (table m) k'.
Proof.
  intros Hwf Hp Hd. unfold set_value.
  rewrite (rd_Ret _ (Z.of_nat p) (mk_elem d v)) by (rewrite ?Nat2Z.id; done || lia). cbn [obind key].
  rewrite wr_Ret by (apply lookup_lt_Some in Hp; lia). cbn [obind]. rewrite Nat2Z.id.
  assert (Hk : keys (<[p:=mk_elem d v']> (table m)) = keys (table m)).
  { rewrite keys_insert. apply list_insert_id. apply keys_lookup. by exists v. }
  eexists; split; [reflexivity|]. split_and!; try done.
  - destruct Hwf as [H1 H2 H3 H4 H5 H6]. split; cbn [with_table table used alloc all_keys_are_qstrs is_fixed is_ordered];
      rewrite ?Hk; try done. by rewrite length_insert.
  - intros k'. cbn [with_table table]. apply assoc_ext; [rewrite Hk; apply Hwf|apply Hwf| |]; intros q kq vq Eq Hq.
    + exists q. by apply list_lookup_insert_Some in Hq as [(_ & [= -> _] & _)|[? ?]].
    + exists q. rewrite list_lookup_insert_ne; [done|]. intros <-. rewrite Hp in Hq. by injection Hq as -> _.
Qed.

(** [assoc] sees the value that the slot of an equal key holds. *)
Lemma dict_value self k v : dict_wf self -> assoc (table self) k = Some v -> exists o, v = Some o.
Proof. intros [Hwf Hv] Ha. destruct (assoc_inv _ _ _ Ha) as (p & k' & Hp & _). eauto. Qed.

(** A dictionary whose association is another's, possibly without a key, has values as well. *)
Lemma dict_wf_assoc self self' : dict_wf self -> map_wf self' ->
  (forall k v, assoc (table self') k = Some v -> assoc (table self) k = Some v \/ exists o, v = Some o) ->
  dict_wf self'.
Proof.
  intros Hd Hwf H. split; [done|]. intros p k v Hp.
  assert (Ha : assoc (table self') k = Some v) by (eapply assoc_Some; eauto; [apply Hwf|apply equal_refl]).
  destruct (H k v Ha) as [Ha'|?]; [|done]. by eapply dict_value.
Qed.

(** The pairs of the loop of [dict_update]. *)
Lemma update_from_dict_items fuel cur (other self : mp_map_t obj) : map_wf other ->
  (cur <= alloc other)%nat -> (alloc other - cur < fuel)%nat ->
  update_from_dict fuel cur other self =
  (fix go (l : list (obj * option obj)) self :=
    match l with
    | [] => Ret self
    | (k, v) :: l => let! self := lookup_store self k v in go l self
    end) (items (drop cur (table other))) self.
Proof.
  intros Hwf. revert cur self. induction fuel as [|fuel IH]; intros cur self Hcur Hf; [lia|]. cbn [update_from_dict].
  pose proof (dict_iter_next_items other cur Hwf Hcur) as H.
  destruct (items (drop cur (table other))) as [|[k v] rest].
  - by rewrite H.
  - destruct H as (p & -> & ? & Hp & <-). cbn [obind].
    rewrite (rd_Ret _ (Z.of_nat p) (mk_elem (Key k) v)) by (rewrite ?Nat2Z.id; done || lia). cbn [obind key value].
    destruct (lookup_store self k v) as [self1| | |]; try done. cbn [obind]. apply IH; lia.
Qed.

Definition update_spec (l : list (obj * option obj)) (a : option (option obj)) k : option (option obj) :=
  foldl (fun a '(k', v) => if mp_obj_equal k' k then Some v else a) a l.

Lemma update_items_ok (l : list (obj * option obj)) self : dict_wf self ->
  (forall k v, (k, v) ∈ l -> (exists h, mp_hash k = Ret h) /\ exists o, v = Some o) ->
  oom obj ((fix go (l : list (obj * option obj)) self :=
    match l with
    | [] => Ret self
    | (k, v) :: l => let! self := lookup_store self k v in go l self
    end) l self) (fun self' => dict_wf self' /\
    forall k, assoc (table self') k = update_spec l (assoc (table self) k) k).
Proof.
  revert self. induction l as [|[k v] l IH]; intros self Hd Hl; [by apply oom_Ret|].
  destruct (Hl k v (list_elem_of_here _ _)) as [[h Hh] [o ->]].
  apply (oom_bind _ _ _ _ (lookup_store_ok self k o h Hd Hh)). intros self1 [Hd1 Ha1].
  eapply oom_mono; [|apply (IH self1 Hd1)].
  - intros self' [Hd' Ha']. split; [done|]. intros k'. rewrite Ha', Ha1. done.
  - intros k' v' Hin. apply Hl. by apply list_elem_of_further.
Qed.

(** Folding over the items of a table is looking up in it. *)
Lemma update_spec_assoc (t : list (mp_map_elem_t obj)) a k : keys_wf (keys t) ->
  update_spec (items t) a k = match assoc t k with Some v => Some v | None => a end.
Proof.
  intros Hwf. assert (Hu : forall p q e e' k1 k2, t !! p = Some e -> t !! q = Some e' -> key e = Key k1 -> key e' = Key k2 ->
    mp_obj_equal k1 k2 = true -> p = q).
  { intros p q [s1 v1] [s2 v2] k1 k2 Hp Hq E1 E2 E. simpl in *. subst.
    eapply (kw_uniq _ Hwf p q k1 k2); try done; apply keys_lookup; eauto. }
  clear Hwf. revert a. induction t as [|e t IH]; intros a; [done|].
  assert (Hu' : forall p q e e' k1 k2, t !! p = Some e -> t !! q = Some e' -> key e = Key k1 -> key e' = Key k2 ->
    mp_obj_equal k1 k2 = true -> p = q).
  { intros p q e1 e2 k1 k2 Hp Hq E1 E2 E. specialize (Hu (S p) (S q) e1 e2 k1 k2 Hp Hq E1 E2 E). lia. }
  rewrite items_cons. simpl. destruct (key e) as [| |k0] eqn:Ek; [by apply IH..|].
  unfold update_spec. simpl. fold (update_spec (items t) (if mp_obj_equal k0 k then Some (value e) else a) k).
  rewrite (IH Hu'). destruct (mp_obj_equal k0 k) eqn:E; [|done].
  destruct (assoc t k) as [v|] eqn:Ha; [|done]. exfalso.
  destruct (assoc_inv _ _ _ Ha) as (q & k' & Hq & E').
  specialize (Hu 0%nat (S q) e (mk_elem (Key k') v) k0 k' eq_refl Hq Ek eq_refl).
  discriminate Hu. eapply equal_trans; [done|]. by apply equal_sym.
Qed.
End Proofs.

Section Theorems.
Context {obj : Type} `{!EqDecision obj, !MpObjOps obj, !MpObjLaws obj, !Allocator obj, !SmallHeap obj}.
Variable none : obj.
Implicit Types (m self : mp_map_t obj) (k : obj).

(** [d[k] = v] on a dictionary and a hashable key returns, unless there is no memory; afterwards every key equal to [k]
    maps to [v] and every other key to what it mapped to. *)
Theorem mp_obj_dict_store_spec self k v hash : dict_wf self -> mp_hash k = Ret hash ->
  oom obj (mp_obj_dict_store self k v) (fun self' => dict_wf self' /\
    forall k', assoc (table self') k' = if mp_obj_equal k k' then Some (Some v) else assoc (table self) k').
Proof.
  intros Hd Hk. unfold mp_obj_dict_store. rewrite not_fixed by apply Hd. by eapply lookup_store_ok.
Qed.

(** [get], [pop] and [setdefault]: a present key gives its value, which [pop] removes; an
    absent key gives the default, [None] or (for [pop]) [KeyError], and [setdefault] stores
    the default, if there is memory for it.  No other key is affected. *)
Theorem dict_get_helper_spec self k default kind hash : dict_wf self -> mp_hash k = Ret hash ->
  kind = MP_MAP_LOOKUP \/ kind = MP_MAP_LOOKUP_ADD_IF_NOT_FOUND \/ kind = MP_MAP_LOOKUP_REMOVE_IF_FOUND ->
  match assoc (table self) k with
  | Some v =>
    exists self', dict_get_helper none self k default kind = Ret (self', v) /\ dict_wf self' /\
      forall k', assoc (table self') k' =
        if (kind =? MP_MAP_LOOKUP_REMOVE_IF_FOUND)%Z && mp_obj_equal k k' then None else assoc (table self) k'
  | None =>
    match default, (kind =? MP_MAP_LOOKUP_REMOVE_IF_FOUND)%Z with
    | None, true => dict_get_helper none self k default kind = Raise KeyError
    | _, _ =>
      (kind = MP_MAP_LOOKUP_ADD_IF_NOT_FOUND /\ dict_get_helper none self k default kind = Raise MemoryError) \/
      exists self', dict_get_helper none self k default kind =
        Ret (self', Some (match default with Some d => d | None => none end)) /\ dict_wf self' /\
        forall k', assoc (table self') k' =
          if (kind =? MP_MAP_LOOKUP_ADD_IF_NOT_FOUND)%Z && mp_obj_equal k k'
          then Some (Some (match default with Some d => d | None => none end)) else assoc (table self) k'
    end
  end.
Proof.
  intros Hd Hk Hkind. pose proof (dw_map _ Hd) as Hwf. unfold dict_get_helper.
  rewrite not_fixed by done.
  assert ((if negb (kind =? MP_MAP_LOOKUP)%Z then Ret tt else Ret tt) = Ret tt) as -> by by destruct (negb _).
  cbn [obind]. destruct (lookup_spec self k kind hash Hwf Hk) as [[(-> & -> & _) ->]|(_ & m1 & slot & -> & Hwf1 & Hoth & Hres)]; cbn [obind].
  { by destruct default; left. }
  destruct (assoc (table self) k) as [v|] eqn:Ha.
  - destruct Hres as (p & k0 & -> & Hp & E & Hres). destruct (dw_values _ Hd p k0 v Hp) as [o ->].
    destruct (kind =? MP_MAP_LOOKUP_REMOVE_IF_FOUND)%Z eqn:Ekind; cbn [andb].
    + destruct Hres as (Hnone & Hu & d & Hpd & Hdf). rewrite (get_value_ok _ _ _ _ Hpd). cbn [obind].
      destruct (set_value_unfilled m1 p d (Some o) None Hwf1 Hpd Hdf) as (m2 & -> & Hwf2 & _ & _ & Ha2). cbn [obind].
      assert (Has : forall k', assoc (table m2) k' = if mp_obj_equal k k' then None else assoc (table self) k').
      { intros k'. rewrite Ha2. destruct (mp_obj_equal k k') eqn:E'.
        - destruct (assoc (table m1) k') as [w|] eqn:Hw; [|done]. exfalso.
          destruct (assoc_inv _ _ _ Hw) as (q & kq & Hq & Eq).
          assert (assoc (table m1) k = Some w); [|congruence].
          eapply assoc_Some; [apply Hwf1|done|]. eapply equal_trans; [done|]. by apply equal_sym.
        - apply Hoth. destruct (mp_obj_equal k' k) eqn:F; [|done]. by rewrite (equal_sym _ _ F) in E'. }
      exists m2. split; [done|]. split; [|done].
      eapply dict_wf_assoc; [done..|]. intros k' v'. rewrite Has. destruct (mp_obj_equal k k'); [done|auto].
    + subst m1. rewrite (get_value_ok _ _ _ _ Hp). cbn [obind]. eauto.
  - destruct (kind =? MP_MAP_LOOKUP_ADD_IF_NOT_FOUND)%Z eqn:Ekind.
    + destruct Hres as (p & -> & Hp & Hu). rewrite (get_value_ok _ _ _ _ Hp). cbn [obind].
      assert ((kind =? MP_MAP_LOOKUP_REMOVE_IF_FOUND)%Z = false) as ->.
      { apply Z.eqb_eq in Ekind. by subst kind. }
      set (d := match default with Some d => d | None => none end).
      assert ((match default with None => Ret none | Some d => Ret d end) = Ret d) as -> by by destruct default.
      cbn [obind]. destruct (set_value_ok m1 p k None (Some d) Hwf1 Hp) as (m2 & -> & Hwf2 & _ & _ & Ha2). cbn [obind].
      assert (Has : forall k', assoc (table m2) k' = if mp_obj_equal k k' then Some (Some d) else assoc (table self) k').
      { intros k'. rewrite Ha2. destruct (mp_obj_equal k k') eqn:E'; [done|].
        apply Hoth. destruct (mp_obj_equal k' k) eqn:F; [|done]. by rewrite (equal_sym _ _ F) in E'. }
      assert (Hd2 : dict_wf m2).
      { eapply dict_wf_assoc; [done..|]. intros k' v'. rewrite Has.
        destruct (mp_obj_equal k k'); [intros [= <-]; eauto|auto]. }
      destruct default; right; eauto.
    + destruct Hres as [-> ->]. cbn [obind andb].
      destruct default as [d|], (kind =? MP_MAP_LOOKUP_REMOVE_IF_FOUND)%Z; cbn [obind]; try (right; eauto; fail); eauto.
Qed.

(** Keyword arguments that are none change nothing. *)
Lemma update_no_kwargs (kwargs self : mp_map_t obj) i j : empty_map kwargs -> (i + j = alloc kwargs)%nat ->
  update_from_kwargs i j kwargs self = Ret self.
Proof.
  intros [Hwf0 Ha0]. revert j. induction i as [|i IH]; intros j Hij; [done|]. cbn [update_from_kwargs].
  destruct (slot_filled _ j Hwf0 ltac:(lia)) as ([s v] & He & -> & _). cbn [obind key].
  destruct s as [| |k]; [apply IH; lia..|]. exfalso.
  assert (assoc (table kwargs) k = Some v); [|by rewrite Ha0 in H].
  eapply assoc_Some; [apply Hwf0|done|apply equal_refl].
Qed.

(** [update] from another dictionary, without keyword arguments, overrides with its items, unless there is no memory. *)
Theorem dict_update_spec self other kwargs : dict_wf self -> dict_wf other -> empty_map kwargs ->
  oom obj (dict_update self (UDict other) kwargs) (fun self' => dict_wf self' /\
    forall k, assoc (table self') k =
      match assoc (table other) k with Some v => Some v | None => assoc (table self) k end).
Proof.
  intros Hd Ho Hkw. unfold dict_update. rewrite not_fixed by apply Hd. cbn [obind].
  rewrite update_from_dict_items by (apply Ho || lia). rewrite drop_0.
  eapply oom_bind; [apply (update_items_ok (items (table other)) self Hd)|].
  { intros k v Hin. apply items_lookup in Hin as (p & Hp). split; [|by eapply (dw_values _ Ho)].
    destruct (kw_hash _ (mw_keys _ (dw_map _ Ho)) p k) as (h & ? & _); [apply keys_lookup; eauto|eauto]. }
  intros self' [Hd' Ha']. rewrite update_no_kwargs by (done || lia). apply oom_Ret. split; [done|]. intros k.
  rewrite Ha'. apply update_spec_assoc. apply Ho.
Qed.

(** [copy] is a dictionary of its own with the same items, unless there is no memory. *)
Theorem mp_obj_dict_copy_spec self : dict_wf self ->
  oom obj (mp_obj_dict_copy self) (fun other => other = self /\ is_fixed other = false).
Proof.
  intros Hd. pose proof (dw_map _ Hd) as Hwf. pose proof (mw_small _ Hwf) as Hsm. pose proof (mw_length _ Hwf) as Hl. unfold mp_obj_dict_copy, mp_obj_new_dict.
  eapply oom_bind; [eapply oom_bind; [apply m_new_obj_oom|intros _ _]|].
  - instantiate (1 := fun m => alloc m = alloc self /\ length (table m) = alloc self).
    unfold mp_map_init. destruct (Nat.eqb_spec (alloc self) 0) as [->|]; [by apply oom_Ret|]. rewrite m_new0_of_ok by lia.
    destruct (gives _ _) eqn:Hg; [|apply oom_Raise; by apply gives_refuses in Hg]. apply oom_Ret. cbn [alloc table].
    rewrite length_replicate. lia.
  - intros m [Ha Ht]. rewrite take_ge by lia. rewrite memcpy_in_Ret by lia. cbn [obind]. apply oom_Ret. rewrite drop_ge by lia.
    cbn [Z.to_nat take app is_fixed]. split; [|done]. rewrite app_nil_r, Ha. destruct (mw_hash_table _ Hwf) as [Hf _]. destruct self. cbn in *. by rewrite Hf.
Qed.

(** [popitem] on a dictionary that is not empty removes and returns an item it held, and
    raises [KeyError] on an empty one. *)
Theorem dict_popitem_spec self : dict_wf self ->
  match items (table self) with
  | [] => dict_popitem self = Raise KeyError
  | (k, v) :: _ => exists self', dict_popitem self = Ret (self', (Key k, v)) /\ dict_wf self' /\
      S (used self') = used self /\
      forall k', assoc (table self') k' = if mp_obj_equal k k' then None else assoc (table self) k'
  end.
Proof.
  intros Hd. pose proof (dw_map _ Hd) as Hwf. unfold dict_popitem. rewrite not_fixed by done. cbn [obind].
  pose proof (dict_iter_next_items self 0 Hwf ltac:(lia)) as H. rewrite drop_0 in H.
  pose proof (items_length (table self)) as Hil. rewrite <- (mw_used _ Hwf) in Hil.
  destruct (items (table self)) as [|[k v] rest]; simpl in Hil.
  - by rewrite <- Hil.
  - rewrite <- Hil. cbn [Nat.eqb]. destruct H as (p & -> & ? & Hp & _). cbn [obind].
    rewrite (rd_Ret _ (Z.of_nat p) (mk_elem (Key k) v)) by (rewrite ?Nat2Z.id; done || lia). cbn [obind key value].
    rewrite wr_Ret by (rewrite (mw_length _ Hwf); lia). cbn [obind]. rewrite Nat2Z.id.
    set (m' := with_table _ _).
    assert (Hk : keys (table self) !! p = Some (Key k)) by (apply keys_lookup; eauto).
    assert (Hkeep : forall q kq, <[p:=KSentinel]> (keys (table self)) !! q = Some (Key kq) ->
      q <> p /\ keys (table self) !! q = Some (Key kq)).
    { intros q kq Hq. apply list_lookup_insert_Some in Hq as [(_ & [=] & _)|[? ?]]. auto. }
    assert (Hkwf : keys_wf (<[p:=KSentinel]> (keys (table self)))).
    { split.
      - intros q kq Hq. apply Hkeep in Hq as [Hne Hq]. destruct (kw_hash _ (mw_keys _ Hwf) q kq Hq) as (h & Hh & j & Hj & -> & Hc).
        exists h. split; [done|]. exists j. rewrite length_insert. split_and!; try done.
        intros i Hi E. apply list_lookup_insert_Some in E as [(_ & [=] & _)|[_ E]]. by apply (Hc i Hi).
      - intros q q' kq kq' Hq Hq'. apply Hkeep in Hq as [_ Hq], Hq' as [_ Hq']. by eapply (kw_uniq _ (mw_keys _ Hwf)). }
    assert (Hwf' : map_wf m').
    { split; cbn [m' with_table with_used table used alloc all_keys_are_qstrs is_fixed is_ordered]; rewrite ?keys_insert; cbn [key].
      - apply Hwf.
      - rewrite length_insert. apply Hwf.
      - pose proof (filled_insert _ _ _ KSentinel Hk) as E. simpl in E. rewrite (mw_used _ Hwf) in *. lia.
      - done.
      - intros Hq q kq Hqk. apply Hkeep in Hqk as [_ Hqk]. by eapply (mw_qstrs _ Hwf).
      - apply Hwf. }
    assert (Has : forall k', assoc (table m') k' = if mp_obj_equal k k' then None else assoc (table self) k').
    { intros k'. destruct (mp_obj_equal k k') eqn:E.
      - apply assoc_None. cbn [m' with_table with_used table]. rewrite keys_insert. cbn [key]. intros (q & kq & Hq & Eq).
        apply Hkeep in Hq as [Hne Hq]. destruct Hne. eapply (kw_uniq _ (mw_keys _ Hwf)); eauto.
        eapply equal_trans; [done|]. by apply equal_sym.
      - apply assoc_ext; [apply Hwf'|apply Hwf| |]; intros q kq vq Eq Hq.
        + exists q. by apply list_lookup_insert_Some in Hq as [(_ & [=] & _)|[? ?]].
        + exists q. cbn [m' with_table with_used table]. rewrite list_lookup_insert_ne; [done|].
          intros <-. rewrite Hp in Hq. injection Hq as <- _. congruence. }
    exists m'. split_and!; try done.
    + eapply dict_wf_assoc; [done..|]. intros k' v'. rewrite Has. destruct (mp_obj_equal k k'); [done|auto].
    + cbn [m' with_table with_used used]. lia.
Qed.

(** The loop of the equality: it looks every item up in the other dictionary. *)
Lemma dict_equal_loop_ok fuel cur m rhs : dict_wf m -> dict_wf rhs ->
  (cur <= alloc m)%nat -> (alloc m - cur < fuel)%nat ->
  exists b, dict_equal_loop fuel cur m rhs = Ret b /\
    (b = true <-> forall k v, (k, Some v) ∈ items (drop cur (table m)) ->
       exists v', assoc (table rhs) k = Some (Some v') /\ mp_obj_equal v v' = true).
Proof.
  intros Hm Hr. pose proof (dw_map _ Hm) as Hwm. revert cur.
  induction fuel as [|fuel IH]; intros cur Hcur Hf; [lia|]. cbn [dict_equal_loop].
  pose proof (dict_iter_next_items m cur Hwm Hcur) as H.
  destruct (items (drop cur (table m))) as [|[k v] rest].
  - rewrite H. cbn [obind]. exists true. split; [done|]. split; [|done]. intros _ k v Hin. by apply not_elem_of_nil in Hin.
  - destruct H as (p & -> & ? & Hp & Hrest). cbn [obind].
    rewrite (rd_Ret _ (Z.of_nat p) (mk_elem (Key k) v)) by (rewrite ?Nat2Z.id; done || lia). cbn [obind key value].
    destruct (kw_hash _ (mw_keys _ Hwm) p k) as (h & Hh & _); [apply keys_lookup; eauto|].
    destruct (dw_values _ Hm p k v Hp) as [o ->].
    destruct (find_spec rhs k MP_MAP_LOOKUP h (dw_map _ Hr) Hh ltac:(done)) as (m1 & slot & -> & _ & _ & Hres). cbn [obind].
    destruct (assoc (table rhs) k) as [v'|] eqn:Ha.
    + destruct Hres as (p' & k' & -> & Hp' & E & Heq). 
      destruct (dw_values _ Hr p' k' v' Hp') as [o' ->].
      rewrite (get_value_ok rhs p' _ _ Hp'). cbn [obind].
      destruct (mp_obj_equal o o') eqn:Eo.
      * destruct (IH (S p)) as (b & -> & Hb); [lia|lia|]. exists b. split; [done|]. rewrite Hb, Hrest.
        split; intros Hall k1 v1 Hin.
        -- apply elem_of_cons in Hin as [[= -> ->]|Hin]; eauto.
        -- apply Hall. by apply list_elem_of_further.
      * exists false. split; [done|]. split; [done|]. intros Hall.
        destruct (Hall k o (list_elem_of_here _ _)) as (v' & E1 & E2). congruence.
    + destruct Hres as [_ ->]. exists false. split; [done|]. split; [done|]. intros Hall.
      destruct (Hall k o (list_elem_of_here _ _)) as (v' & E1 & E2). congruence.
Qed.

Lemma assoc_has_key (t : list (mp_map_elem_t obj)) k : assoc t k = None <-> ~ has_key (keys t) k.
Proof.
  split; [|apply assoc_None]. intros Ha (p & k' & Hp & E). apply keys_lookup in Hp as (v & Hp).
  revert p Hp Ha. induction t as [|[s w] t IH]; intros [|p] Hp Ha; simplify_eq/=; [by rewrite E in Ha|].
  destruct s; [by eapply IH..|]. destruct (mp_obj_equal o k); [done|]. by eapply IH.
Qed.

(** Two dictionaries compare equal exactly when they have the same keys, with equal values:
    comparing the sizes and looking every item of one up in the other is enough. *)
Theorem dict_equal_spec m rhs : dict_wf m -> dict_wf rhs ->
  exists b, dict_equal m rhs = Ret b /\
    (b = true <-> forall k, match assoc (table m) k, assoc (table rhs) k with
       | Some (Some v), Some (Some v') => mp_obj_equal v v' = true
       | None, None => True
       | _, _ => False
       end).
Proof.
  intros Hm Hr. pose proof (dw_map _ Hm) as Hwm. pose proof (dw_map _ Hr) as Hwr. unfold dict_equal.
  pose proof (mw_small _ Hwm). pose proof (mw_small _ Hwr).
  set (sm := mk_set (alloc m) (used m) (keys (table m))). set (sr := mk_set (alloc rhs) (used rhs) (keys (table rhs))).
  assert (Hsm : set_wf sm) by (split; [cbn [sm set_keys set_alloc]; rewrite keys_length; apply Hwm|apply Hwm|apply Hwm|cbn [sm set_alloc]; lia]).
  assert (Hsr : set_wf sr) by (split; [cbn [sr set_keys set_alloc]; rewrite keys_length; apply Hwr|apply Hwr|apply Hwr|cbn [sr set_alloc]; lia]).
  assert (Hkey : forall k, assoc (table m) k = None <-> ~ mem sm k) by (intros; apply assoc_has_key).
  assert (Hkeyr : forall k, assoc (table rhs) k = None <-> ~ mem sr k) by (intros; apply assoc_has_key).
  assert (Hsame : (forall k, match assoc (table m) k, assoc (table rhs) k with
       | Some (Some v), Some (Some v') => mp_obj_equal v v' = true | None, None => True | _, _ => False end) ->
     forall k, mem sm k <-> mem sr k).
  { intros Hall k. specialize (Hall k). specialize (Hkey k). specialize (Hkeyr k).
    split; intros Hin; destruct (assoc (table m) k) as [[v|]|] eqn:E1, (assoc (table rhs) k) as [[v'|]|] eqn:E2; try done;
      try (by destruct (proj1 Hkey eq_refl)); try (by destruct (proj1 Hkeyr eq_refl)).
    - destruct (assoc_inv _ _ _ E2) as (p & k' & Hp & E). exists p, k'. split; [apply keys_lookup; eauto|done].
    - destruct (assoc_inv _ _ _ E1) as (p & k' & Hp & E). exists p, k'. split; [apply keys_lookup; eauto|done]. }
  destruct (Nat.eqb_spec (used m) (used rhs)) as [Eu|Eu]; cbn [negb].
  - destruct (dict_equal_loop_ok (alloc m + 1) 0 m rhs Hm Hr) as (b & -> & Hb); [lia|lia|]. rewrite drop_0 in Hb.
    exists b. split; [done|]. rewrite Hb. split.
    + intros Hall.
      assert (Hfwd : forall k v, assoc (table m) k = Some (Some v) ->
        exists v', assoc (table rhs) k = Some (Some v') /\ mp_obj_equal v v' = true).
      { intros k v Ha. destruct (assoc_inv _ _ _ Ha) as (p & k' & Hp & E).
        destruct (Hall k' v) as (v' & Ha' & Ev); [apply items_lookup; eauto|].
        exists v'. split; [|done]. destruct (assoc_inv _ _ _ Ha') as (q & k'' & Hq & E').
        eapply assoc_Some; [apply Hwr|done|]. by eapply equal_trans. }
      assert (Hsub : forall k, mem sm k -> mem sr k).
      { intros k Hin. destruct (assoc (table m) k) as [v|] eqn:Ha; [|by apply Hkey in Ha].
        destruct (dict_value m k v Hm Ha) as [o ->]. destruct (Hfwd k o Ha) as (v' & Ha' & _).
        destruct (assoc_inv _ _ _ Ha') as (q & k'' & Hq & E'). exists q, k''. split; [apply keys_lookup; eauto|done]. }
      assert (Hsup : forall k, mem sr k -> mem sm k).
      { apply (subset_used sm sr Hsm Hsr Hsub). cbn. lia. }
      intros k. destruct (assoc (table m) k) as [v|] eqn:Ha.
      * destruct (dict_value m k v Hm Ha) as [o ->]. destruct (Hfwd k o Ha) as (v' & -> & ?). done.
      * destruct (assoc (table rhs) k) as [v'|] eqn:Ha'; [|done]. apply Hkey in Ha. destruct Ha. apply Hsup.
        destruct (assoc_inv _ _ _ Ha') as (q & k'' & Hq & E'). exists q, k''. split; [apply keys_lookup; eauto|done].
    + intros Hall k v Hin. apply items_lookup in Hin as (p & Hp).
      assert (Ha : assoc (table m) k = Some (Some v)) by (eapply assoc_Some; eauto; [apply Hwm|apply equal_refl]).
      specialize (Hall k). rewrite Ha in Hall. destruct (assoc (table rhs) k) as [[v'|]|]; try done. eauto.
  - exists false. split; [done|]. split; [done|]. intros Hall. specialize (Hsame Hall). destruct Eu.
    apply Nat.le_antisymm.
    + apply (subset_used sm sr Hsm Hsr). intros k. apply Hsame.
    + apply (subset_used sr sm Hsr Hsm). intros k. apply Hsame.
Qed.
End Theorems.

(** ** Witnesses *)

Lemma sample_dict_wf : dict_wf sample_map.
Proof.
  split; [apply sample_map_wf|]. intros [|[|[|[|p]]]] k v [=]; subst; eauto.
Qed.

Lemma mp_obj_dict_store_spec_witness :
  exists d, mp_obj_dict_store sample_map (Int 8) (Int 12) = Ret d /\ assoc (table d) (Int 8) = Some (Some (Int 12)).
Proof.
  destruct (mp_obj_dict_store_spec sample_map (Int 8) (Int 12) 8 sample_dict_wf eq_refl) as [[E _]|(d & E & _ & Ha)]; [vm_compute in E; discriminate E|].
  exists d. split; [exact E|]. exact (Ha (Int 8)).
Defined.

Lemma dict_get_helper_spec_witness :
  exists d, dict_pop (Int 0) sample_map (Int 4) None = Ret (d, Some (Int 10)) /\ assoc (table d) (Int 4) = None.
Proof.
  destruct (dict_get_helper_spec (Int 0) sample_map (Int 4) None MP_MAP_LOOKUP_REMOVE_IF_FOUND 4 sample_dict_wf eq_refl
    (or_intror (or_intror eq_refl))) as (d & E & _ & Ha).
  exists d. split; [exact E|]. exact (Ha (Int 4)).
Defined.

Lemma dict_update_spec_witness :
  exists d, dict_update sample_map (UDict sample_map) (mk_map true false false 0 0 []) = Ret d /\ dict_wf d.
Proof.
  destruct (dict_update_spec sample_map sample_map _ sample_dict_wf sample_dict_wf empty_map_0) as [[E _]|(d & E & Hd & _)];
    [vm_compute in E; discriminate E|by exists d].
Defined.

Lemma mp_obj_dict_copy_spec_witness : mp_obj_dict_copy sample_map = Ret sample_map.
Proof.
  destruct (mp_obj_dict_copy_spec sample_map sample_dict_wf) as [[E _]|(d & E & -> & _)]; [vm_compute in E; discriminate E|exact E].
Defined.

Lemma dict_popitem_spec_witness :
  exists d, dict_popitem sample_map = Ret (d, (Key (Int 4), Some (Int 10))) /\ used d = 1%nat.
Proof.
  destruct (dict_popitem_spec sample_map sample_dict_wf) as (d & E & _ & Hu & _).
  exists d. split; [exact E|]. by injection Hu.
Defined.

Lemma dict_equal_spec_witness : dict_equal sample_map sample_map = Ret true.
Proof.
  destruct (dict_equal_spec sample_map sample_map sample_dict_wf sample_dict_wf) as (b & E & _).
  rewrite E. vm_compute in E. by injection E as <-.
Defined.
