(* ===== verification/Unicode.v ===== *)
(** * Characters and UTF-8 ([py/unicode.c], the encoder of [py/vstr.c])

    Bytes and code points are integers; a C string is a list of bytes that ends in a 0. *)

From S2P Require Import Prelude.
Local Open Scope Z_scope.

(** ** ASCII attributes *)

Definition FL_PRINT := 0x01.
Definition FL_SPACE := 0x02.
Definition FL_DIGIT := 0x04.
Definition FL_ALPHA := 0x08.
Definition FL_UPPER := 0x10.
Definition FL_LOWER := 0x20.
Definition FL_XDIGIT := 0x40.

Definition AT_PR := FL_PRINT.
Definition AT_SP := Z.lor FL_SPACE FL_PRINT.
Definition AT_DI := Z.lor (Z.lor FL_DIGIT FL_PRINT) FL_XDIGIT.
Definition AT_UP := Z.lor (Z.lor FL_UPPER FL_ALPHA) FL_PRINT.
Definition AT_LO := Z.lor (Z.lor FL_LOWER FL_ALPHA) FL_PRINT.
Definition AT_UX := Z.lor (Z.lor (Z.lor FL_UPPER FL_ALPHA) FL_PRINT) FL_XDIGIT.
Definition AT_LX := Z.lor (Z.lor (Z.lor FL_LOWER FL_ALPHA) FL_PRINT) FL_XDIGIT.

Definition attr : list Z := [
  0; 0; 0; 0; 0; 0; 0; 0;
  0; AT_SP; AT_SP; AT_SP; AT_SP; AT_SP; 0; 0;
  0; 0; 0; 0; 0; 0; 0; 0;
  0; 0; 0; 0; 0; 0; 0; 0;
  AT_SP; AT_PR; AT_PR; AT_PR; AT_PR; AT_PR; AT_PR; AT_PR;
  AT_PR; AT_PR; AT_PR; AT_PR; AT_PR; AT_PR; AT_PR; AT_PR;
  AT_DI; AT_DI; AT_DI; AT_DI; AT_DI; AT_DI; AT_DI; AT_DI;
  AT_DI; AT_DI; AT_PR; AT_PR; AT_PR; AT_PR; AT_PR; AT_PR;
  AT_PR; AT_UX; AT_UX; AT_UX; AT_UX; AT_UX; AT_UX; AT_UP;
  AT_UP; AT_UP; AT_UP; AT_UP; AT_UP; AT_UP; AT_UP; AT_UP;
  AT_UP; AT_UP; AT_UP; AT_UP; AT_UP; AT_UP; AT_UP; AT_UP;
  AT_UP; AT_UP; AT_UP; AT_PR; AT_PR; AT_PR; AT_PR; AT_PR;
  AT_PR; AT_LX; AT_LX; AT_LX; AT_LX; AT_LX; AT_LX; AT_LO;
  AT_LO; AT_LO; AT_LO; AT_LO; AT_LO; AT_LO; AT_LO; AT_LO;
  AT_LO; AT_LO; AT_LO; AT_LO; AT_LO; AT_LO; AT_LO; AT_LO;
  AT_LO; AT_LO; AT_LO; AT_PR; AT_PR; AT_PR; AT_PR; 0 ].

(** [c < 128 && (attr[c] & flags) != 0] for a [unichar], which is unsigned. *)
Definition has_attr (c flags : Z) : bool :=
  (c <? 128) && match attr !! Z.to_nat c with Some a => negb (Z.land a flags =? 0) | None => false end.

Definition unichar_isspace (c : Z) : bool := has_attr c FL_SPACE.
Definition unichar_isalpha (c : Z) : bool := has_attr c FL_ALPHA.
Definition unichar_isdigit (c : Z) : bool := has_attr c FL_DIGIT.
Definition unichar_isxdigit (c : Z) : bool := has_attr c FL_XDIGIT.
Definition unichar_isident (c : Z) : bool := (c <? 128) && (has_attr c (Z.lor FL_ALPHA FL_DIGIT) || (c =? 95)).
Definition unichar_isalnum (c : Z) : bool := has_attr c (Z.lor FL_ALPHA FL_DIGIT).
Definition unichar_isupper (c : Z) : bool := has_attr c FL_UPPER.
Definition unichar_islower (c : Z) : bool := has_attr c FL_LOWER.

Definition unichar_tolower (c : Z) : Z := if unichar_isupper c then wrap 32 (c + 0x20) else c.
Definition unichar_toupper (c : Z) : Z := if unichar_islower c then wrap 32 (c - 0x20) else c.

Definition unichar_xdigit_value (c : Z) : Z :=
  let n := wrap 32 (c - 48) in
  if 9 <? n then wrap 32 (Z.land n (Z.lnot (97 - 65)) - (65 - (57 + 1))) else n.

(** ** UTF-8 *)

Definition UTF8_IS_NONASCII (ch : Z) : bool := negb (Z.land ch 0x80 =? 0).
Definition UTF8_IS_CONT (ch : Z) : bool := Z.land ch 0xC0 =? 0x80.

(** The bytes [vstr_add_char] appends for the code point [c] where strings are Unicode ([MICROPY_PY_BUILTINS_STR_UNICODE], which
    the port leaves off: there it appends one byte, the [vstr_add_char] of the file [Vstr]); the [assert] is [Undef]. *)
Definition utf8_encode (c : Z) : outcome (list Z) :=
  if c <? 0x80 then Ret [wrap 8 c]
  else if c <? 0x800 then
    Ret [wrap 8 (Z.lor (Z.shiftr c 6) 0xC0); wrap 8 (Z.lor (Z.land c 0x3F) 0x80)]
  else if c <? 0x10000 then
    Ret [wrap 8 (Z.lor (Z.shiftr c 12) 0xE0); wrap 8 (Z.lor (Z.land (Z.shiftr c 6) 0x3F) 0x80);
         wrap 8 (Z.lor (Z.land c 0x3F) 0x80)]
  else if c <? 0x110000 then
    Ret [wrap 8 (Z.lor (Z.shiftr c 18) 0xF0); wrap 8 (Z.lor (Z.land (Z.shiftr c 12) 0x3F) 0x80);
         wrap 8 (Z.lor (Z.land (Z.shiftr c 6) 0x3F) 0x80); wrap 8 (Z.lor (Z.land c 0x3F) 0x80)]
  else Undef.

(** [for (mask = 0x40; ord & mask; mask >>= 1) ord &= ~mask;] *)
Fixpoint clear_lead (fuel : nat) (mask ord : Z) : outcome Z :=
  match fuel with
  | O => OutOfFuel
  | S fuel => if Z.land ord mask =? 0 then Ret ord
              else clear_lead fuel (Z.shiftr mask 1) (Z.land ord (Z.lnot mask))
  end.

(** [while (UTF8_IS_CONT( *s )) ord = (ord << 6) | ( *s++ & 0x3F);] *)
Fixpoint take_conts (s : list Z) (ord : Z) : outcome Z :=
  match s with
  | [] => Undef
  | b :: s => if UTF8_IS_CONT b then take_conts s (wrap 32 (Z.lor (Z.shiftl ord 6) (Z.land b 0x3F))) else Ret ord
  end.

Definition utf8_get_char (s : list Z) : outcome Z :=
  match s with
  | [] => Undef
  | ord :: s =>
    if negb (UTF8_IS_NONASCII ord) then Ret ord else
    let! ord := clear_lead 8 0x40 (Z.land ord 0x7F) in
    take_conts s ord
  end.

Fixpoint skip_conts (s : list Z) : outcome (list Z) :=
  match s with
  | [] => Undef
  | b :: s' => if UTF8_IS_CONT b then skip_conts s' else Ret s
  end.

Definition utf8_next_char (s : list Z) : outcome (list Z) :=
  match s with [] => Undef | _ :: s => skip_conts s end.

(** The bytes of the string before [ptr], walked from the last one. *)
Definition utf8_ptr_to_index (s : list Z) (ptr : nat) : Z :=
  foldr (fun b i => if UTF8_IS_CONT b then i else i + 1) 0 (take ptr s).

Fixpoint charlen_loop (s : list Z) (charlen : Z) : Z :=
  match s with
  | [] => charlen
  | b :: s => charlen_loop s (if negb (UTF8_IS_CONT b) then charlen + 1 else charlen)
  end.

Definition utf8_charlen (str : list Z) : Z := charlen_loop str 0.

(** The loop of [utf8_check]; [need] continuation bytes are expected. *)
Fixpoint check_loop (p : list Z) (need : Z) : bool :=
  match p with
  | [] => need =? 0
  | c :: p =>
    if negb (need =? 0) then
      if UTF8_IS_CONT c then check_loop p (need - 1) else false
    else if 0xc0 <=? c then
      if 0xf8 <=? c then false
      else check_loop p (Z.land (Z.shiftr 0xe5 (Z.land (Z.shiftr c 3) 0x6)) 3)
    else if 0x80 <=? c then false
    else check_loop p 0
  end.

Definition utf8_check (p : list Z) : bool := check_loop p 0.

(** ** Attributes *)

(** Deciding a property of all bytes below [n] by evaluation. *)
Lemma forall_below (P : Z -> bool) (n : nat) :
  forallb P (seqZ 0 (Z.of_nat n)) = true -> forall c, 0 <= c < Z.of_nat n -> P c = true.
Proof.
  intros H c Hc. rewrite forallb_forall in H. apply H. apply list_elem_of_In, elem_of_seqZ. lia.
Qed.

(** Evaluate a boolean on every byte the variable [c] can be. *)
Ltac by_evaluation c n :=
  match goal with |- ?b = true =>
    let b' := eval pattern c in b in
    match b' with ?P _ => apply (forall_below P n); [vm_compute; reflexivity|lia] end
  end.

Definition between (a c b : Z) : bool := (a <=? c) && (c <=? b).

(** The attribute table classifies exactly the ASCII letters, digits, hexadecimal digits and
    white space, and no other character; changing case is an involution on letters. *)
Theorem unichar_classes c : 0 <= c ->
  unichar_isspace c = (between 9 c 13 || (c =? 32)) /\
  unichar_isdigit c = between 48 c 57 /\
  unichar_isupper c = between 65 c 90 /\
  unichar_islower c = between 97 c 122 /\
  unichar_isalpha c = (between 65 c 90 || between 97 c 122) /\
  unichar_isxdigit c = (between 48 c 57 || between 65 c 70 || between 97 c 102) /\
  unichar_isident c = (between 65 c 90 || between 97 c 122 || between 48 c 57 || (c =? 95)) /\
  unichar_tolower c = (if between 65 c 90 then c + 32 else c) /\
  unichar_toupper c = (if between 97 c 122 then c - 32 else c) /\
  (unichar_isupper c = true -> unichar_toupper (unichar_tolower c) = c).
Proof.
  intros Hc. destruct (Z.lt_ge_cases c 128) as [Hlt|Hge].
  - split_and!.
    1-7: apply eqb_prop; by_evaluation c 128%nat.
    1, 2: apply Z.eqb_eq; by_evaluation c 128%nat.
    intros Hu. apply Z.eqb_eq.
    enough (negb (unichar_isupper c) || (unichar_toupper (unichar_tolower c) =? c) = true) as E by by rewrite Hu in E.
    by_evaluation c 128%nat.
  - unfold unichar_isspace, unichar_isdigit, unichar_isupper, unichar_islower, unichar_isalpha, unichar_isxdigit,
      unichar_isident, unichar_tolower, unichar_toupper, unichar_isupper, unichar_islower, has_attr, between.
    rewrite (proj2 (Z.ltb_ge c 128)) by lia. simpl.
    repeat split; try (symmetry; repeat rewrite ?orb_false_iff, ?andb_false_iff, ?Z.leb_gt, ?Z.eqb_neq; lia).
    all: destruct (Z.leb_spec c 90), (Z.leb_spec c 122); try lia; by rewrite andb_false_r.
Qed.

Lemma unichar_classes_witness : unichar_isxdigit 98 = true /\ unichar_toupper 98 = 66.
Proof.
  destruct (unichar_classes 98) as (_ & _ & _ & _ & _ & H & _ & _ & G & _); [lia|].
  split; [exact H|exact G].
Defined.

(** [unichar_xdigit_value] is the value of a hexadecimal digit. *)
Lemma unichar_xdigit_value_ok c : unichar_isxdigit c = true -> 0 <= c ->
  unichar_xdigit_value c = if between 48 c 57 then c - 48 else if between 65 c 70 then c - 55 else c - 87.
Proof.
  intros Hx Hc. assert (c < 128).
  { unfold unichar_isxdigit, has_attr in Hx. destruct (Z.ltb_spec c 128); [lia|done]. }
  apply Z.eqb_eq.
  enough (negb (unichar_isxdigit c) || (unichar_xdigit_value c =? if between 48 c 57 then c - 48
    else if between 65 c 70 then c - 55 else c - 87) = true) as E by by rewrite Hx in E.
  clear Hx. by_evaluation c 128%nat.
Qed.

(** ** The encoder *)

(** The six bits of a continuation byte. *)
Definition cont (x : Z) : Z := 0x80 + x mod 64.

Lemma mod64_range x : 0 <= x mod 64 < 64.
Proof. apply Z.mod_pos_bound. lia. Qed.

Lemma cont_byte x : wrap 8 (Z.lor (Z.land x 0x3F) 0x80) = cont x.
Proof.
  unfold cont. change 0x3F with (2 ^ 6 - 1). rewrite land_mask by lia. change (2 ^ 6) with 64.
  pose proof (mod64_range x). remember (x mod 64) as y. apply Z.eqb_eq. by_evaluation y 64%nat.
Qed.

Lemma cont_is_cont x : UTF8_IS_CONT (cont x) = true.
Proof. unfold cont. pose proof (mod64_range x). remember (x mod 64) as y. by_evaluation y 64%nat. Qed.

Lemma cont_bits x : Z.land (cont x) 0x3F = x mod 64.
Proof.
  unfold cont. pose proof (mod64_range x). remember (x mod 64) as y. apply Z.eqb_eq. by_evaluation y 64%nat.
Qed.

(** The bytes of a code point: a lead byte and its continuation bytes. *)
Definition utf8_bytes (c : Z) : list Z :=
  if c <? 0x80 then [c]
  else if c <? 0x800 then [0xC0 + c / 64; cont c]
  else if c <? 0x10000 then [0xE0 + c / 4096; cont (c / 64); cont c]
  else [0xF0 + c / 262144; cont (c / 4096); cont (c / 64); cont c].

Lemma utf8_encode_bytes c : 0 <= c < 0x110000 -> utf8_encode c = Ret (utf8_bytes c).
Proof.
  intros Hc. unfold utf8_encode, utf8_bytes. rewrite !cont_byte, !Z.shiftr_div_pow2 by lia.
  change (2 ^ 6) with 64; change (2 ^ 12) with 4096; change (2 ^ 18) with 262144.
  repeat case_match; rewrite ?Z.ltb_lt, ?Z.ltb_ge in *; try lia; repeat f_equal.
  - apply wrap_small. lia.
  - assert (0 <= c / 64 < 32) by zdiv. remember (c / 64) as y. apply Z.eqb_eq. by_evaluation y 32%nat.
  - assert (0 <= c / 4096 < 16) by zdiv. remember (c / 4096) as y. apply Z.eqb_eq. by_evaluation y 16%nat.
  - assert (0 <= c / 262144 < 5) by zdiv. remember (c / 262144) as y. apply Z.eqb_eq. by_evaluation y 5%nat.
Qed.

(** ** Decoding *)

(** Does a byte end a run of continuation bytes? *)
Definition starts (s : list Z) : Prop :=
  match s with [] => False | b :: _ => UTF8_IS_CONT b = false end.

Lemma take_conts_end s ord : starts s -> take_conts s ord = Ret ord.
Proof. destruct s as [|b s]; [done|]. simpl. by intros ->. Qed.

Lemma take_conts_cont x s ord : 0 <= ord < 2 ^ 26 ->
  take_conts (cont x :: s) ord = take_conts s (ord * 64 + x mod 64).
Proof.
  intros Ho. cbn [take_conts]. rewrite cont_is_cont, cont_bits. pose proof (mod64_range x).
  rewrite (lor_shiftl_low ord (x mod 64) 6) by lia. rewrite wrap_small; [done|].
  change (2 ^ 6) with 64. change (2 ^ 32) with (2 ^ 26 * 64). nia.
Qed.

Lemma skip_conts_cont x s : skip_conts (cont x :: s) = skip_conts s.
Proof. cbn [skip_conts]. by rewrite cont_is_cont. Qed.

Lemma skip_conts_end s : starts s -> skip_conts s = Ret s.
Proof. destruct s as [|b s]; [done|]. simpl. by intros ->. Qed.

Lemma seqZ_all (P : Z -> Prop) a n : Forall P (seqZ a n) -> forall y, a <= y < a + n -> P y.
Proof. intros H y Hy. rewrite Forall_forall in H. apply H. apply list_elem_of_In, elem_of_seqZ. lia. Qed.

(** The lead bytes, checked one by one. *)
Lemma lead2 y : 2 <= y < 32 -> UTF8_IS_NONASCII (0xC0 + y) = true /\ clear_lead 8 0x40 (Z.land (0xC0 + y) 0x7F) = Ret y
  /\ UTF8_IS_CONT (0xC0 + y) = false /\ (0xc0 <=? 0xC0 + y) = true /\ (0xf8 <=? 0xC0 + y) = false /\
  Z.land (Z.shiftr 0xe5 (Z.land (Z.shiftr (0xC0 + y) 3) 0x6)) 3 = 1.
Proof.
  intros Hy. pattern y. apply (seqZ_all _ 2 30); [by repeat constructor|lia].
Qed.

Lemma lead3 y : 0 <= y < 16 -> UTF8_IS_NONASCII (0xE0 + y) = true /\ clear_lead 8 0x40 (Z.land (0xE0 + y) 0x7F) = Ret y
  /\ UTF8_IS_CONT (0xE0 + y) = false /\ (0xc0 <=? 0xE0 + y) = true /\ (0xf8 <=? 0xE0 + y) = false /\
  Z.land (Z.shiftr 0xe5 (Z.land (Z.shiftr (0xE0 + y) 3) 0x6)) 3 = 2.
Proof.
  intros Hy. pattern y. apply (seqZ_all _ 0 16); [by repeat constructor|lia].
Qed.

Lemma lead4 y : 0 <= y < 5 -> UTF8_IS_NONASCII (0xF0 + y) = true /\ clear_lead 8 0x40 (Z.land (0xF0 + y) 0x7F) = Ret y
  /\ UTF8_IS_CONT (0xF0 + y) = false /\ (0xc0 <=? 0xF0 + y) = true /\ (0xf8 <=? 0xF0 + y) = false /\
  Z.land (Z.shiftr 0xe5 (Z.land (Z.shiftr (0xF0 + y) 3) 0x6)) 3 = 3.
Proof.
  intros Hy. pattern y. apply (seqZ_all _ 0 5); [by repeat constructor|lia].
Qed.

Lemma ascii y : 0 <= y < 128 -> UTF8_IS_NONASCII y = false /\ UTF8_IS_CONT y = false /\
  (0xc0 <=? y) = false /\ (0x80 <=? y) = false.
Proof.
  intros Hy. pattern y. apply (seqZ_all _ 0 128); [by repeat constructor|lia].
Qed.

(** A code point is its 6-bit groups. *)
Lemma groups c : c / 64 * 64 + c mod 64 = c /\ c / 4096 * 64 + (c / 64) mod 64 = c / 64 /\
  c / 262144 * 64 + (c / 4096) mod 64 = c / 4096.
Proof. zdiv. Qed.

Lemma utf8_decode_one c s : 0 <= c < 0x110000 -> starts s ->
  utf8_get_char (utf8_bytes c ++ s) = Ret c /\ utf8_next_char (utf8_bytes c ++ s) = Ret s.
Proof.
  intros Hc Hs. destruct (groups c) as (G1 & G2 & G3). unfold utf8_bytes.
  destruct (Z.ltb_spec c 0x80); [|destruct (Z.ltb_spec c 0x800); [|destruct (Z.ltb_spec c 0x10000)]]; cbn [app].
  - destruct (ascii c) as (A1 & A2 & _); [lia|]. cbn [utf8_get_char utf8_next_char]. rewrite A1. cbn [negb].
    split; [done|by apply skip_conts_end].
  - destruct (lead2 (c / 64)) as (A1 & A2 & _); [zdiv|]. cbn [utf8_get_char utf8_next_char]. rewrite A1, A2. cbn [negb obind].
    rewrite take_conts_cont, take_conts_end, skip_conts_cont, skip_conts_end by (done || zdiv). split; [f_equal; lia|done].
  - destruct (lead3 (c / 4096)) as (A1 & A2 & _); [zdiv|]. cbn [utf8_get_char utf8_next_char]. rewrite A1, A2. cbn [negb obind].
    rewrite take_conts_cont by zdiv. rewrite G2.
    rewrite take_conts_cont, take_conts_end, !skip_conts_cont, skip_conts_end by (done || zdiv). split; [f_equal; lia|done].
  - destruct (lead4 (c / 262144)) as (A1 & A2 & _); [zdiv|]. cbn [utf8_get_char utf8_next_char]. rewrite A1, A2. cbn [negb obind].
    rewrite take_conts_cont by zdiv. rewrite G3. rewrite take_conts_cont by zdiv. rewrite G2.
    rewrite take_conts_cont, take_conts_end, !skip_conts_cont, skip_conts_end by (done || zdiv). split; [f_equal; lia|done].
Qed.

Lemma utf8_bytes_starts c s : 0 <= c < 0x110000 -> starts (utf8_bytes c ++ s).
Proof.
  intros Hc. unfold utf8_bytes.
  destruct (Z.ltb_spec c 0x80); [|destruct (Z.ltb_spec c 0x800); [|destruct (Z.ltb_spec c 0x10000)]]; cbn [app starts].
  - apply ascii. lia.
  - apply lead2. zdiv.
  - apply lead3. zdiv.
  - apply lead4. zdiv.
Qed.

Lemma check_cont x p need : need <> 0 -> check_loop (cont x :: p) need = check_loop p (need - 1).
Proof. intros Hn. cbn [check_loop]. rewrite (proj2 (Z.eqb_neq _ _) Hn). cbn [negb]. by rewrite cont_is_cont. Qed.

Lemma utf8_check_one c p : 0 <= c < 0x110000 -> check_loop (utf8_bytes c ++ p) 0 = check_loop p 0.
Proof.
  intros Hc. unfold utf8_bytes.
  destruct (Z.ltb_spec c 0x80); [|destruct (Z.ltb_spec c 0x800); [|destruct (Z.ltb_spec c 0x10000)]]; cbn [app].
  - destruct (ascii c) as (_ & _ & A1 & A2); [lia|]. cbn [check_loop Z.eqb negb]. by rewrite A1, A2.
  - destruct (lead2 (c / 64)) as (_ & _ & _ & A1 & A2 & A3); [zdiv|].
    cbn [check_loop]. rewrite A1, A2, A3. cbn [Z.eqb negb]. by rewrite cont_is_cont.
  - destruct (lead3 (c / 4096)) as (_ & _ & _ & A1 & A2 & A3); [zdiv|].
    cbn [check_loop]. rewrite A1, A2, A3. cbn [Z.eqb negb]. rewrite !cont_is_cont. done.
  - destruct (lead4 (c / 262144)) as (_ & _ & _ & A1 & A2 & A3); [zdiv|].
    cbn [check_loop]. rewrite A1, A2, A3. cbn [Z.eqb negb]. rewrite !cont_is_cont. done.
Qed.

Lemma charlen_loop_one c p n : 0 <= c < 0x110000 -> charlen_loop (utf8_bytes c ++ p) n = charlen_loop p (n + 1).
Proof.
  intros Hc. unfold utf8_bytes.
  destruct (Z.ltb_spec c 0x80); [|destruct (Z.ltb_spec c 0x800); [|destruct (Z.ltb_spec c 0x10000)]]; cbn [app charlen_loop].
  - destruct (ascii c) as (_ & -> & _); [lia|]. done.
  - destruct (lead2 (c / 64)) as (_ & _ & -> & _); [zdiv|]. by rewrite !cont_is_cont.
  - destruct (lead3 (c / 4096)) as (_ & _ & -> & _); [zdiv|]. by rewrite !cont_is_cont.
  - destruct (lead4 (c / 262144)) as (_ & _ & -> & _); [zdiv|]. by rewrite !cont_is_cont.
Qed.

(** The string of a list of code points. *)
Fixpoint utf8_string (cs : list Z) : list Z :=
  match cs with [] => [] | c :: cs => utf8_bytes c ++ utf8_string cs end.

(** Decoding a C string character by character up to its terminating 0. *)
Fixpoint utf8_decode (fuel : nat) (s : list Z) : outcome (list Z) :=
  match fuel with
  | O => OutOfFuel
  | S fuel =>
    let! c := utf8_get_char s in
    if c =? 0 then Ret [] else
    let! s := utf8_next_char s in
    let! cs := utf8_decode fuel s in
    Ret (c :: cs)
  end.

(** C38. UTF-8 round trip: a string built with the [vstr_add_char] of Unicode strings from code points other than 0 is
    accepted by [utf8_check], has as many characters for [utf8_charlen] as it was built from, and
    reading it with [utf8_get_char] and [utf8_next_char] gives them back. *)
Theorem utf8_round_trip cs : Forall (fun c => 0 < c < 0x110000) cs ->
  Forall (fun c => utf8_encode c = Ret (utf8_bytes c)) cs /\
  utf8_decode (S (length cs)) (utf8_string cs ++ [0]) = Ret cs /\
  utf8_check (utf8_string cs) = true /\
  utf8_charlen (utf8_string cs) = Z.of_nat (length cs).
Proof.
  intros Hcs. split_and!.
  - eapply Forall_impl; [|exact Hcs]. intros c Hc. simpl in Hc. apply utf8_encode_bytes. lia.
  - induction Hcs as [|c cs Hc Hcs IH]; [done|]. cbn [utf8_string length].
    rewrite <- app_assoc. remember (S (length cs)) as fuel. cbn [utf8_decode].
    assert (Hst : starts (utf8_string cs ++ [0])).
    { destruct Hcs as [|c' cs' Hc' _]; [done|]. cbn [utf8_string]. rewrite <- app_assoc. apply utf8_bytes_starts. lia. }
    destruct (utf8_decode_one c (utf8_string cs ++ [0])) as [-> ->]; [lia|done|]. cbn [obind].
    rewrite (proj2 (Z.eqb_neq c 0)) by lia. subst fuel. by rewrite IH.
  - unfold utf8_check. induction Hcs as [|c cs Hc Hcs IH]; [done|]. cbn [utf8_string].
    rewrite utf8_check_one by lia. done.
  - unfold utf8_charlen. assert (H : forall n, charlen_loop (utf8_string cs) n = n + Z.of_nat (length cs)); [|by rewrite H].
    induction Hcs as [|c cs Hc Hcs IH]; intros n; [simpl; lia|]. cbn [utf8_string length].
    rewrite charlen_loop_one, IH by lia. lia.
Qed.

Lemma utf8_round_trip_witness :
  utf8_decode 5 (utf8_string [0x24; 0xA3; 0x20AC; 0x1F40D] ++ [0]) = Ret [0x24; 0xA3; 0x20AC; 0x1F40D].
Proof.
  destruct (utf8_round_trip [0x24; 0xA3; 0x20AC; 0x1F40D]) as (_ & H & _); [repeat constructor; lia|exact H].
Defined.
