(* ===== verification/Vstr.v ===== *)
(** * Variable strings ([py/vstr.c])

    A buffer of [alloc] bytes of which the first [len] are the string.  Sizes are 32-bit
    ([size_t] on the IPU). *)

From S2P Require Import Prelude Malloc.
Local Open Scope Z_scope.

Section Vstr.
Context {allocator : Allocator Z}.

Record vstr_t := mk_vstr { alloc : Z; len : Z; buf : list Z; fixed_buf : bool }.

Definition ROUND_ALLOC (a : Z) : Z := wrap 32 (Z.land a (0xFFFFFFFF - 7) + 8).

Definition vstr_init (n : Z) : outcome vstr_t :=
  let n := if n <? 1 then 1 else n in
  let! b := m_new 1 n in Ret (mk_vstr n 0 b false).

Definition vstr_init_len (n : Z) : outcome vstr_t :=
  let! v := vstr_init (wrap 32 (n + 1)) in Ret (mk_vstr (alloc v) n (buf v) (fixed_buf v)).

Definition vstr_init_fixed_buf (n : Z) (b : list Z) : vstr_t := mk_vstr n 0 b true.

Definition vstr_reset (v : vstr_t) : vstr_t := mk_vstr (alloc v) 0 (buf v) (fixed_buf v).
Definition vstr_str (v : vstr_t) : list Z := buf v.
Definition vstr_len (v : vstr_t) : Z := len v.

(** The string and the position of the added chunk. *)
Definition vstr_extend (v : vstr_t) (size : Z) : outcome (vstr_t * Z) :=
  if fixed_buf v then Raise RuntimeError else
  let new_alloc := wrap 32 (alloc v + size) in
  let! new_buf := m_renew 1 (buf v) new_alloc in
  Ret (mk_vstr new_alloc (len v) new_buf (fixed_buf v), alloc v).

Definition vstr_ensure_extra (v : vstr_t) (size : Z) : outcome vstr_t :=
  if alloc v <? wrap 32 (len v + size) then
    if fixed_buf v then Raise RuntimeError else
    let new_alloc := ROUND_ALLOC (wrap 32 (len v + size + 16)) in
    let! new_buf := m_renew 1 (buf v) new_alloc in
    Ret (mk_vstr new_alloc (len v) new_buf (fixed_buf v))
  else Ret v.

Definition vstr_hint_size (v : vstr_t) (size : Z) : outcome vstr_t := vstr_ensure_extra v size.

(** The string and the position of the added bytes. *)
Definition vstr_add_len (v : vstr_t) (n : Z) : outcome (vstr_t * Z) :=
  let! v := vstr_ensure_extra v n in
  Ret (mk_vstr (alloc v) (wrap 32 (len v + n)) (buf v) (fixed_buf v), len v).

Definition vstr_null_terminated_str (v : vstr_t) : outcome vstr_t :=
  let! v := if alloc v =? len v then let! '(v, _) := vstr_extend v 1 in Ret v else Ret v in
  let! b := wr (buf v) (len v) 0 in
  Ret (mk_vstr (alloc v) (len v) b (fixed_buf v)).

Definition vstr_add_byte (v : vstr_t) (b : Z) : outcome vstr_t :=
  let! '(v, p) := vstr_add_len v 1 in
  let! buf' := wr (buf v) p b in
  Ret (mk_vstr (alloc v) (len v) buf' (fixed_buf v)).

(** [vstr_add_char] without unicode strings, as in the port. *)
Definition vstr_add_char (v : vstr_t) (c : Z) : outcome vstr_t := vstr_add_byte v (wrap 8 c).

Definition vstr_add_strn (v : vstr_t) (str : list Z) : outcome vstr_t :=
  let! v := vstr_ensure_extra v (Z.of_nat (length str)) in
  let! b := memcpy_in (buf v) (len v) str in
  Ret (mk_vstr (alloc v) (wrap 32 (len v + Z.of_nat (length str))) b (fixed_buf v)).

(** The bytes before the terminator. *)
Fixpoint strlen (s : list Z) : outcome nat :=
  match s with
  | [] => Undef
  | b :: s => if b =? 0 then Ret 0%nat else let! n := strlen s in Ret (S n)
  end.

Definition vstr_add_str (v : vstr_t) (str : list Z) : outcome vstr_t :=
  let! n := strlen str in vstr_add_strn v (take n str).

(** The string and the position of the blank bytes. *)
Definition vstr_ins_blank_bytes (v : vstr_t) (byte_pos byte_len : Z) : outcome (vstr_t * Z) :=
  let l := len v in
  let byte_pos := if l <? byte_pos then l else byte_pos in
  let! v :=
    if 0 <? byte_len then
      let! v := vstr_ensure_extra v byte_len in
      let! b := memmove (buf v) (byte_pos + byte_len) byte_pos (l - byte_pos) in
      Ret (mk_vstr (alloc v) (wrap 32 (len v + byte_len)) b (fixed_buf v))
    else Ret v in
  Ret (v, byte_pos).

Definition vstr_ins_byte (v : vstr_t) (byte_pos b : Z) : outcome vstr_t :=
  let! '(v, p) := vstr_ins_blank_bytes v byte_pos 1 in
  let! buf' := wr (buf v) p b in
  Ret (mk_vstr (alloc v) (len v) buf' (fixed_buf v)).

Definition vstr_ins_char (v : vstr_t) (char_pos chr : Z) : outcome vstr_t := vstr_ins_byte v char_pos (wrap 8 chr).

Definition vstr_cut_tail_bytes (v : vstr_t) (n : Z) : vstr_t :=
  if len v <? n then mk_vstr (alloc v) 0 (buf v) (fixed_buf v)
  else mk_vstr (alloc v) (len v - n) (buf v) (fixed_buf v).

Definition vstr_cut_out_bytes (v : vstr_t) (byte_pos bytes_to_cut : Z) : outcome vstr_t :=
  if len v <=? byte_pos then Ret v
  else if len v <=? wrap 32 (byte_pos + bytes_to_cut) then
    Ret (mk_vstr (alloc v) byte_pos (buf v) (fixed_buf v))
  else
    let! b := memmove (buf v) byte_pos (byte_pos + bytes_to_cut) (len v - byte_pos - bytes_to_cut) in
    Ret (mk_vstr (alloc v) (len v - bytes_to_cut) b (fixed_buf v)).

Definition vstr_cut_head_bytes (v : vstr_t) (bytes_to_cut : Z) : outcome vstr_t :=
  vstr_cut_out_bytes v 0 bytes_to_cut.

(** ** What a vstr represents *)

Definition str (v : vstr_t) : list Z := take (Z.to_nat (len v)) (buf v).

Record wf (v : vstr_t) : Prop := {
  wf_len : 0 <= len v <= alloc v;
  wf_buf : Z.of_nat (length (buf v)) = alloc v;
  wf_alloc : alloc v <= 2 ^ 32 - 8
}.

Lemma str_length v : wf v -> length (str v) = Z.to_nat (len v).
Proof. intros [H1 H2 _]. unfold str. rewrite length_take. lia. Qed.

Lemma round_alloc a : 0 <= a < 2 ^ 32 - 8 -> a < ROUND_ALLOC a <= 2 ^ 32 - 8.
Proof.
  intros Ha. unfold ROUND_ALLOC.
  assert (Hl : Z.land a (0xFFFFFFFF - 7) = a - a mod 8).
  { assert (E : Z.land a 0xFFFFFFF8 = Z.shiftl (Z.shiftr a 3) 3).
    { apply Z.bits_inj'. intros i Hi. rewrite Z.land_spec.
      destruct (Z.lt_ge_cases i 3) as [H3|H3].
      - rewrite Z.shiftl_spec_low by lia. assert (i = 0 \/ i = 1 \/ i = 2) as [-> | [-> | ->]] by lia; apply andb_false_r.
      - rewrite Z.shiftl_spec, Z.shiftr_spec by lia. replace (i - 3 + 3) with i by lia.
        destruct (Z.lt_ge_cases i 32) as [H32|H32].
        + change 0xFFFFFFF8 with (Z.shiftl (Z.ones 29) 3). rewrite Z.shiftl_spec, Z.ones_spec_low by lia. apply andb_true_r.
        + rewrite <- (Z.mod_small a (2 ^ 32)) by lia. by rewrite Z.mod_pow2_bits_high by lia. }
    change (0xFFFFFFFF - 7) with 0xFFFFFFF8. rewrite E, Z.shiftl_mul_pow2, Z.shiftr_div_pow2 by lia.
    change (2 ^ 3) with 8. zdiv. }
  rewrite Hl. assert (0 <= a mod 8 < 8) by (apply Z.mod_pos_bound; lia). assert (a - a mod 8 + 8 <= 2 ^ 32 - 8) by zdiv.
  rewrite wrap_small by lia. lia.
Qed.

(** Room for [n] more bytes: the string is unchanged, and the failures are a fixed buffer that is
    too small and an allocation that fails. *)
Lemma ensure_extra_ok v n : wf v -> 0 <= n -> len v + n + 24 < 2 ^ 32 ->
  match vstr_ensure_extra v n with
  | Ret v' => wf v' /\ str v' = str v /\ len v' = len v /\ fixed_buf v' = fixed_buf v /\ len v + n <= alloc v' /\
              take (Z.to_nat (alloc v)) (buf v') = buf v
  | Raise RuntimeError => fixed_buf v = true /\ alloc v < len v + n
  | Raise MemoryError => fixed_buf v = false
  | _ => False
  end.
Proof.
  intros Hwf Hn Hs. pose proof (wf_len _ Hwf); pose proof (wf_buf _ Hwf); pose proof (wf_alloc _ Hwf). unfold vstr_ensure_extra.
  rewrite wrap_small by lia. destruct (Z.ltb_spec (alloc v) (len v + n)) as [Hlt|Hge].
  - destruct (fixed_buf v) eqn:Ef; [done|]. rewrite wrap_small by lia.
    destruct (round_alloc (len v + n + 16)) as [Ha Hb]; [lia|]. remember (ROUND_ALLOC (len v + n + 16)) as na.
    rewrite m_renew_grow by lia. destruct (m_renew_ok _); [|done]. cbn [obind].
    split_and!; cbn [alloc len buf fixed_buf]; try done; try lia.
    + split; cbn; [lia| |done]. rewrite length_app, length_replicate. lia.
    + unfold str; cbn. rewrite take_app_le by lia. done.
    + rewrite take_app_length'; [done|lia].
  - split_and!; try done. rewrite take_ge; [done|lia].
Qed.

(** A write at the end of the string appends to it. *)
Lemma take_splice (b : list Z) p s : (p <= length b)%nat ->
  take (p + length s) (take p b ++ s ++ drop (p + length s) b) = take p b ++ s.
Proof.
  intros Hp. rewrite take_app. rewrite length_take, Nat.min_l by done.
  replace (p + length s - p)%nat with (length s) by lia. rewrite take_app_length.
  f_equal. apply take_ge. rewrite length_take. lia.
Qed.

(** [vstr_add_strn] appends the bytes to the string; it fails only when the buffer is fixed and
    too small ([RuntimeError]) or the allocation fails ([MemoryError]). *)
Theorem vstr_add_strn_spec v s : wf v -> len v + Z.of_nat (length s) + 24 < 2 ^ 32 ->
  match vstr_add_strn v s with
  | Ret v' => wf v' /\ str v' = str v ++ s
  | Raise RuntimeError => fixed_buf v = true /\ alloc v < len v + Z.of_nat (length s)
  | Raise MemoryError => fixed_buf v = false
  | _ => False
  end.
Proof.
  intros Hwf Hs. unfold vstr_add_strn. pose proof (ensure_extra_ok v (Z.of_nat (length s)) Hwf ltac:(lia) Hs) as H.
  destruct (vstr_ensure_extra v _) as [v1|e| |]; cbn [obind]; try done.
  destruct H as (Hwf1 & Hstr & Hl & _ & Hroom & _). pose proof (wf_len _ Hwf1) as W1; pose proof (wf_buf _ Hwf1) as W2; pose proof (wf_alloc _ Hwf1) as W3.
  unfold memcpy_in. rewrite (proj2 (Z.leb_le 0 _)), (proj2 (Z.leb_le (len v1 + _) _)) by lia. cbn [andb obind].
  rewrite wrap_small by lia. split.
  - split; cbn [alloc len buf]; [lia| |done]. rewrite !length_app, length_take, length_drop. lia.
  - unfold str at 1. cbn [len buf]. rewrite Z2Nat.inj_add, Nat2Z.id by lia.
    rewrite take_splice by lia. fold (str v1). by rewrite Hstr.
Qed.

(** [vstr_add_byte] appends one byte. *)
Lemma vstr_add_byte_ok v b : wf v -> len v + 25 < 2 ^ 32 ->
  match vstr_add_byte v b with
  | Ret v' => wf v' /\ str v' = str v ++ [b] /\ len v' = len v + 1 /\ fixed_buf v' = fixed_buf v
  | Raise RuntimeError => fixed_buf v = true /\ alloc v < len v + 1
  | Raise MemoryError => fixed_buf v = false
  | _ => False
  end.
Proof.
  intros Hwf Hs. unfold vstr_add_byte, vstr_add_len. pose proof (ensure_extra_ok v 1 Hwf ltac:(lia) ltac:(lia)) as H.
  destruct (vstr_ensure_extra v 1) as [v1|e| |]; cbn [obind]; try done.
  destruct H as (Hwf1 & Hstr & Hl & Hf & Hroom & _).
  pose proof (wf_len _ Hwf1) as W1; pose proof (wf_buf _ Hwf1) as W2; pose proof (wf_alloc _ Hwf1) as W3. cbn [buf len alloc fixed_buf].
  rewrite wrap_small, wr_Ret by lia. cbn [obind]. split_and!; cbn [len fixed_buf]; [| |lia|done].
  - split; cbn [alloc len buf]; rewrite ?length_insert; lia.
  - rewrite <- Hstr. unfold str; cbn [buf len]. rewrite Z2Nat.inj_add by lia. change (Z.to_nat 1) with 1%nat.
    rewrite Nat.add_1_r, (take_S_r _ _ b) by (apply list_lookup_insert_eq; lia).
    by rewrite take_insert_ge by lia.
Qed.

(** [vstr_ins_byte] inserts the byte at the position, or at the end if it is beyond it. *)
Theorem vstr_ins_byte_spec v pos b : wf v -> 0 <= pos < 2 ^ 32 -> len v + 25 < 2 ^ 32 ->
  match vstr_ins_byte v pos b with
  | Ret v' => wf v' /\
      str v' = take (Z.to_nat (Z.min pos (len v))) (str v) ++ [b] ++ drop (Z.to_nat (Z.min pos (len v))) (str v)
  | Raise RuntimeError => fixed_buf v = true /\ alloc v < len v + 1
  | Raise MemoryError => fixed_buf v = false
  | _ => False
  end.
Proof.
  intros Hwf Hp Hs. unfold vstr_ins_byte, vstr_ins_blank_bytes. cbn [Z.ltb Z.compare].
  set (p := if len v <? pos then len v else pos).
  assert (Hpm : p = Z.min pos (len v)) by (unfold p; destruct (Z.ltb_spec (len v) pos); lia).
  rewrite <- Hpm. assert (Hpr : 0 <= p <= len v) by (pose proof (wf_len _ Hwf); lia). clearbody p. clear Hpm Hp.
  pose proof (ensure_extra_ok v 1 Hwf ltac:(lia) ltac:(lia)) as H.
  destruct (vstr_ensure_extra v 1) as [v1|e| |]; cbn [obind]; try done.
  destruct H as (Hwf1 & Hstr & Hl & _ & Hroom & _). pose proof (wf_len _ Hwf1) as W1; pose proof (wf_buf _ Hwf1) as W2; pose proof (wf_alloc _ Hwf1) as W3. rewrite <- Hl, <- Hstr in *.
  unfold memmove. rewrite !(proj2 (Z.leb_le _ _)) by lia. cbn [andb obind buf alloc len fixed_buf].
  rewrite !wrap_small by lia.
  set (b1 := take _ _ ++ _).
  assert (Hb1 : length b1 = length (buf v1)).
  { unfold b1. rewrite !length_app, !length_take, !length_drop. lia. }
  rewrite wr_Ret by lia. cbn [obind]. split; [split; cbn [alloc len buf]; rewrite ?length_insert; lia|].
  unfold str. cbn [len buf].
  apply list_eq. intros i. destruct (decide (i < Z.to_nat (len v1 + 1))%nat) as [Hi|Hi].
  - rewrite lookup_take_lt by done.
    rewrite !take_take, Nat.min_l by lia.
    destruct (decide (i < Z.to_nat p)%nat); [|destruct (decide (i = Z.to_nat p)) as [->|]].
    + rewrite list_lookup_insert_ne by lia. unfold b1.
      rewrite lookup_app_l by (rewrite length_take; lia). rewrite lookup_take_lt by lia.
      rewrite lookup_app_l by (rewrite length_take; lia). by rewrite lookup_take_lt by lia.
    + rewrite list_lookup_insert_eq by lia. rewrite lookup_app_r by (rewrite length_take; lia).
      rewrite length_take. by replace (_ - _)%nat with 0%nat by lia.
    + rewrite list_lookup_insert_ne by lia. unfold b1.
      rewrite lookup_app_r by (rewrite length_take; lia). rewrite length_take.
      rewrite lookup_app_l by (rewrite length_take, length_drop; lia). rewrite lookup_take_lt by lia. rewrite lookup_drop.
      rewrite lookup_app_r by (rewrite length_take; lia). rewrite length_take.
      rewrite lookup_app_r by (simpl; lia). cbn [length]. rewrite lookup_drop, lookup_take_lt by lia. f_equal. lia.
  - rewrite lookup_take_ge by lia. symmetry. apply lookup_ge_None.
    rewrite !length_app, !length_take, !length_drop, !length_take. simpl. lia.
Qed.

(** [vstr_cut_out_bytes] removes the bytes of the range that the string has. *)
Theorem vstr_cut_out_bytes_spec v pos n : wf v -> 0 <= pos -> 0 <= n -> pos + n < 2 ^ 32 ->
  exists v', vstr_cut_out_bytes v pos n = Ret v' /\ wf v' /\
    str v' = take (Z.to_nat pos) (str v) ++ drop (Z.to_nat (pos + n)) (str v).
Proof.
  intros Hwf Hp Hn Hs. pose proof (wf_len _ Hwf) as W1; pose proof (wf_buf _ Hwf) as W2; pose proof (wf_alloc _ Hwf) as W3. unfold vstr_cut_out_bytes. rewrite wrap_small by lia.
  pose proof (str_length v Hwf) as Hl.
  destruct (Z.leb_spec (len v) pos); [|destruct (Z.leb_spec (len v) (pos + n))].
  - exists v. split_and!; try done. rewrite take_ge, drop_ge, app_nil_r by lia. done.
  - eexists. split; [done|]. split; [split; cbn; lia|]. rewrite (drop_ge (str v)), app_nil_r by lia.
    unfold str; cbn. rewrite take_take. f_equal. lia.
  - unfold memmove. rewrite !(proj2 (Z.leb_le _ _)) by lia. cbn [andb obind].
    eexists. split; [done|]. split; [split; cbn [alloc len buf];
      rewrite ?length_app, ?length_take, ?length_drop; lia|].
    unfold str; cbn [len buf]. rewrite app_assoc.
    rewrite take_app_le by (rewrite length_app, !length_take, length_drop; lia).
    rewrite take_ge by (rewrite length_app, !length_take, length_drop; lia).
    rewrite take_take, Nat.min_l by lia. f_equal. rewrite skipn_firstn_comm. f_equal. lia.
Qed.

(** Terminating does not change the string and puts a 0 after it. *)
Lemma vstr_null_terminated_str_ok v : wf v -> len v + 24 < 2 ^ 32 ->
  match vstr_null_terminated_str v with
  | Ret v' => wf v' /\ str v' = str v /\ buf v' !! Z.to_nat (len v') = Some 0
  | Raise RuntimeError => fixed_buf v = true /\ alloc v = len v
  | Raise MemoryError => fixed_buf v = false
  | _ => False
  end.
Proof.
  intros Hwf Hs. pose proof (wf_len _ Hwf) as W1. pose proof (wf_buf _ Hwf) as W2. pose proof (wf_alloc _ Hwf) as W3.
  unfold vstr_null_terminated_str. destruct (Z.eqb_spec (alloc v) (len v)) as [E|E]; cbn [obind].
  - unfold vstr_extend. destruct (fixed_buf v) eqn:Ef; cbn [obind]; [done|]. rewrite wrap_small by lia.
    rewrite m_renew_grow by lia. destruct (m_renew_ok _); cbn [obind]; [|done]. cbn [buf len].
    assert (Hlen : Z.of_nat (length (buf v ++ replicate (Z.to_nat (alloc v + 1) - length (buf v)) fresh)) = alloc v + 1)
      by (rewrite length_app, length_replicate; lia).
    rewrite wr_Ret by lia. cbn [obind]. split_and!.
    + split; cbn [alloc len buf]; rewrite ?length_insert; lia.
    + unfold str; cbn [len buf]. rewrite take_insert_ge by lia. by rewrite take_app_le by lia.
    + cbn [len buf]. apply list_lookup_insert_eq. lia.
  - rewrite wr_Ret by lia. cbn [obind]. split_and!.
    + split; cbn [alloc len buf]; rewrite ?length_insert; lia.
    + unfold str; cbn [len buf]. by rewrite take_insert_ge by lia.
    + cbn [len buf]. apply list_lookup_insert_eq. lia.
Qed.

Lemma vstr_null_terminated_len v v' : vstr_null_terminated_str v = Ret v' -> len v' = len v /\ fixed_buf v' = fixed_buf v.
Proof.
  unfold vstr_null_terminated_str, vstr_extend. destruct (alloc v =? len v); cbn [obind];
    [destruct (fixed_buf v) eqn:F; [done|]; destruct (m_renew _ _ _); cbn [obind]; try done|];
    destruct (wr _ _ _); cbn [obind]; try done; intros [= <-]; done.
Qed.
End Vstr.

(** ** Witnesses *)

#[export] Instance sample_allocator : Allocator Z := {| m_renew_ok n := n <=? 64; fresh := 170 |}.

Definition sample_vstr : vstr_t := mk_vstr 4 3 [104; 101; 121; 170] false.

Lemma sample_vstr_wf : wf sample_vstr.
Proof. by split. Qed.

Lemma vstr_add_strn_spec_witness :
  exists v, vstr_add_strn sample_vstr [33; 33] = Ret v /\ str v = [104; 101; 121; 33; 33].
Proof.
  pose proof (vstr_add_strn_spec sample_vstr [33; 33] sample_vstr_wf ltac:(reflexivity)) as H.
  destruct (vstr_add_strn sample_vstr [33; 33]) as [v| | |] eqn:E; vm_compute in E; try discriminate E.
  exists v. split; [reflexivity|]. exact (proj2 H).
Defined.

Lemma vstr_ins_byte_spec_witness :
  exists v, vstr_ins_byte sample_vstr 1 42 = Ret v /\ str v = [104; 42; 101; 121].
Proof.
  pose proof (vstr_ins_byte_spec sample_vstr 1 42 sample_vstr_wf ltac:(lia) ltac:(reflexivity)) as H.
  destruct (vstr_ins_byte sample_vstr 1 42) as [v| | |] eqn:E; vm_compute in E; try discriminate E.
  exists v. split; [reflexivity|]. exact (proj2 H).
Defined.

Lemma vstr_cut_out_bytes_spec_witness :
  exists v, vstr_cut_out_bytes sample_vstr 0 2 = Ret v /\ str v = [121].
Proof.
  destruct (vstr_cut_out_bytes_spec sample_vstr 0 2 sample_vstr_wf) as (v & E & _ & H); [lia..|].
  exists v. split; [exact E|exact H].
Defined.
