(* ===== verification/Hal.v ===== *)
(** * The IPU port's console and start-up ([libIPUpy.c], the "IPUpy" IPU port)

    Output goes to a buffer of the host: [IPUpy_stdout_head] is where the next byte goes and
    [IPUpy_stdout_end] the last byte of the buffer, kept for a terminating 0.  Input is a string
    read byte by byte. *)

From S2P Require Import Prelude.
Local Open Scope Z_scope.

(** The buffer's bytes, with the two pointers as offsets; no buffer is a NULL head. *)
Record stdout_t := mk_stdout { mem : list Z; head : option Z; end_ : Z }.

Definition IPUpy_set_stdout (_stdout : option (list Z)) (len : Z) (s : stdout_t) : outcome stdout_t :=
  match _stdout with
  | None => Ret (mk_stdout (mem s) None (end_ s))
  | Some m => let! m := wr m 0 0 in Ret (mk_stdout m (Some 0) (len - 1))
  end.

(** The copy loop of [mp_hal_stdout_tx_strn]. *)
Fixpoint tx_loop (str m : list Z) (h e : Z) : outcome (list Z * Z) :=
  match str with
  | [] => Ret (m, h)
  | c :: str => if h <? e then let! m := wr m h c in tx_loop str m (h + 1) e else Ret (m, h)
  end.

Definition mp_hal_stdout_tx_strn (str : list Z) (s : stdout_t) : outcome stdout_t :=
  match head s with
  | None => Ret s
  | Some h =>
    let! '(m, h) := tx_loop str (mem s) h (end_ s) in
    let! m := wr m h 0 in
    Ret (mk_stdout m (Some h) (end_ s))
  end.

(** The bytes of a C string before its terminator. *)
Fixpoint c_string (s : list Z) : outcome (list Z) :=
  match s with
  | [] => Undef
  | b :: s => if b =? 0 then Ret [] else let! r := c_string s in Ret (b :: r)
  end.

Definition mp_hal_stdout_tx_str (str : list Z) (s : stdout_t) : outcome stdout_t :=
  let! str := c_string str in mp_hal_stdout_tx_strn str s.

(** The loop of [mp_hal_stdout_tx_strn_cooked]: [last] holds the bytes from [last] to [str]. *)
Fixpoint cooked_loop (str last : list Z) (s : stdout_t) : outcome stdout_t :=
  match str with
  | [] => if (0 <? length last)%nat then mp_hal_stdout_tx_strn last s else Ret s
  | c :: str =>
    if c =? 10 then
      let! s := if (0 <? length last)%nat then mp_hal_stdout_tx_strn last s else Ret s in
      let! s := mp_hal_stdout_tx_strn [13; 10] s in
      cooked_loop str [] s
    else cooked_loop str (last ++ [c]) s
  end.

Definition mp_hal_stdout_tx_strn_cooked (str : list Z) (s : stdout_t) : outcome stdout_t :=
  cooked_loop str [] s.

(** The input pointer: the bytes left, or NULL. *)
Definition mp_hal_stdin_rx_chr (stdin : option (list Z)) : outcome (option (list Z) * Z) :=
  match stdin with
  | None => Ret (None, 10)
  | Some [] => Undef
  | Some (c :: rest) => Ret (Some rest, c)
  end.

(** What [mp_hal_move_cursor_back] sends. *)
Definition mp_hal_move_cursor_back (pos : Z) : outcome (list Z) :=
  if pos <=? 4 then Ret (take (Z.to_nat pos) [8; 8; 8; 8])
  else if negb (pos <? 1000) then Undef
  else Ret
    (if 99 <? pos then
       [27; 91; wrap 8 (0x30 + pos / 100); wrap 8 (0x30 + (pos mod 100) / 10); wrap 8 (0x30 + pos mod 10); 68]
     else if 9 <? pos then
       [27; 91; wrap 8 (0x30 + (pos mod 100) / 10); wrap 8 (0x30 + pos mod 10); 68]
     else [27; 91; wrap 8 (0x30 + pos mod 10); 68]).

Definition mp_hal_erase_line_from_cursor (n_chars_to_erase : Z) : list Z := [27; 91; 75].

(** The range [gc_collect] scans for roots: the current stack pointer [$m11], and the number of
    words it passes to [gc_collect_root]. *)
Definition gc_collect_stack_range (m11 IPUpy_stack_top : Z) : Z * Z :=
  (m11, wrap 32 (m11 - IPUpy_stack_top) / 4).

(** ** The buffer holds what was sent *)

(** The buffer [s] has space for [n] bytes and holds [txt] after its start. *)
Record holds (s : stdout_t) (n : nat) (txt : list Z) : Prop := {
  h_head : head s = Some (Z.of_nat (length txt));
  h_fits : (length txt <= n)%nat /\ end_ s = Z.of_nat n /\ length (mem s) = S n;
  h_mem : take (length txt) (mem s) = txt;
  h_nul : mem s !! length txt = Some 0
}.

Lemma tx_loop_ok str m h (n : nat) : (h <= n)%nat -> (n < length m)%nat ->
  exists m', tx_loop str m (Z.of_nat h) (Z.of_nat n) = Ret (m', Z.of_nat (h + length (take (n - h) str))) /\
    length m' = length m /\ take (h + length (take (n - h) str)) m' = take h m ++ take (n - h) str.
Proof.
  revert m h. induction str as [|c str IH]; intros m h Hh Hn; cbn [tx_loop].
  - exists m. rewrite take_nil, app_nil_r. simpl. by rewrite Nat.add_0_r.
  - destruct (Z.ltb_spec (Z.of_nat h) (Z.of_nat n)) as [Hlt|Hge].
    + rewrite wr_Ret by lia. cbn [obind]. rewrite Nat2Z.id.
      destruct (IH (<[h:=c]> m) (S h)) as (m' & E & Hl & Ht); [lia|by rewrite length_insert|].
      exists m'. replace (Z.of_nat h + 1) with (Z.of_nat (S h)) by lia. rewrite E.
      replace (n - h)%nat with (S (n - S h)) by lia. cbn [take length].
      split_and!; [do 3 f_equal; lia|by rewrite Hl, length_insert|].
      rewrite Nat.add_succ_r, <- Nat.add_succ_l, Ht.
      rewrite (take_S_r _ _ c) by (apply list_lookup_insert_eq; lia).
      rewrite take_insert_ge by lia. by rewrite <- app_assoc.
    + exists m. replace (n - h)%nat with 0%nat by lia. simpl. by rewrite Nat.add_0_r, app_nil_r.
Qed.

Lemma tx_strn_ok str s n txt : holds s n txt ->
  exists s', mp_hal_stdout_tx_strn str s = Ret s' /\ holds s' n (take n (txt ++ str)).
Proof.
  intros [H1 (H2 & H3 & H4) H5 H6]. unfold mp_hal_stdout_tx_strn. rewrite H1, H3.
  destruct (tx_loop_ok str (mem s) (length txt) n) as (m' & E & Hl & Ht); [done|lia|].
  rewrite E. cbn [obind]. rewrite length_take in *.
  rewrite wr_Ret by lia. cbn [obind]. rewrite Nat2Z.id. eexists; split; [reflexivity|].
  assert (Happ : take n (txt ++ str) = txt ++ take (n - length txt) str) by (rewrite take_app, take_ge by done; done).
  rewrite H5 in Ht.
  assert (Hlen : length (txt ++ take (n - length txt) str) = (length txt + (n - length txt) `min` length str)%nat)
    by (rewrite length_app, length_take; done).
  rewrite Happ. split; cbn [mem head end_]; rewrite Hlen.
  - done.
  - rewrite length_insert. split_and!; [lia|done|lia].
  - rewrite take_insert_ge by lia. done.
  - apply list_lookup_insert_eq. lia.
Qed.

(** The bytes sent for a cooked string. *)
Definition cook (str : list Z) : list Z := mbind (fun c => if c =? 10 then [13; 10] else [c]) str.

Lemma take_take_app {A} n (a b : list A) : take n (take n a ++ b) = take n (a ++ b).
Proof.
  destruct (Nat.le_ge_cases n (length a)).
  - rewrite !take_app_le by (rewrite ?length_take; lia). rewrite take_take. f_equal. lia.
  - by rewrite (take_ge a).
Qed.

Lemma cooked_loop_ok str last s n txt : holds s n txt ->
  exists s', cooked_loop str last s = Ret s' /\ holds s' n (take n (txt ++ last ++ cook str)).
Proof.
  revert last s txt. induction str as [|c str IH]; intros last s txt Hs; cbn [cooked_loop].
  - rewrite app_nil_r. destruct last as [|x last].
    + exists s. split; [done|]. rewrite app_nil_r, take_ge; [done|]. apply Hs.
    + by apply tx_strn_ok.
  - destruct (Z.eqb_spec c 10) as [->|Hc].
    + assert (exists s1, (if (0 <? length last)%nat then mp_hal_stdout_tx_strn last s else Ret s) = Ret s1 /\
        holds s1 n (take n (txt ++ last))) as (s1 & -> & Hs1).
      { destruct last as [|x last]; [|by apply tx_strn_ok].
        exists s. split; [done|]. rewrite app_nil_r, take_ge; [done|]. apply Hs. }
      cbn [obind]. destruct (tx_strn_ok [13; 10] s1 n _ Hs1) as (s2 & -> & Hs2). cbn [obind].
      destruct (IH [] s2 _ Hs2) as (s3 & -> & Hs3). exists s3. split; [done|].
      cbn [app] in Hs3. rewrite !take_take_app, <- !app_assoc, take_take_app, <- app_assoc in Hs3. exact Hs3.
    + destruct (IH (last ++ [c]) s txt Hs) as (s' & -> & Hs'). exists s'. split; [done|].
      rewrite <- app_assoc in Hs'. cbn [cook mbind list_bind]. by rewrite (proj2 (Z.eqb_neq _ _) Hc).
Qed.

(** After [IPUpy_set_stdout] with a buffer of [len] bytes, any sequence of raw and cooked
    sends leaves in the buffer, 0-terminated and within its bounds, the first [len - 1] bytes of
    what was sent, where a cooked string has ["\r\n"] for each ["\n"]. *)
Theorem stdout_spec m s0 (sends : list (bool * list Z)) : (0 < length m)%nat ->
  exists s1, IPUpy_set_stdout (Some m) (Z.of_nat (length m)) s0 = Ret s1 /\
  exists s', foldl (fun s '(cooked, str) => let! s := s in
      if cooked : bool then mp_hal_stdout_tx_strn_cooked str s else mp_hal_stdout_tx_strn str s) (Ret s1) sends = Ret s' /\
    let sent := mjoin (map (fun '(cooked, str) => if cooked : bool then cook str else str) sends) in
    let kept := take (length m - 1) sent in
    length (mem s') = length m /\ take (length kept) (mem s') = kept /\ mem s' !! length kept = Some 0.
Proof.
  intros Hm. unfold IPUpy_set_stdout. rewrite wr_Ret by lia. cbn [obind]. eexists; split; [reflexivity|].
  set (n := (length m - 1)%nat).
  assert (H0 : forall s txt, holds s n txt -> exists s', foldl (fun s '(cooked, str) => let! s := s in
      if cooked : bool then mp_hal_stdout_tx_strn_cooked str s else mp_hal_stdout_tx_strn str s) (Ret s) sends = Ret s' /\
    holds s' n (take n (txt ++ mjoin (map (fun '(cooked, str) => if cooked : bool then cook str else str) sends)))).
  { induction sends as [|[cooked str] sends IH]; intros s txt Hs; cbn [foldl map mjoin list_join].
    - exists s. split; [done|]. rewrite app_nil_r, take_ge; [done|]. apply Hs.
    - cbn [obind].
      assert (exists s1, (if cooked then mp_hal_stdout_tx_strn_cooked str s else mp_hal_stdout_tx_strn str s) = Ret s1 /\
        holds s1 n (take n (txt ++ (if cooked then cook str else str)))) as (s1 & -> & Hs1).
      { destruct cooked; [apply (cooked_loop_ok str [])|apply tx_strn_ok]; done. }
      destruct (IH s1 _ Hs1) as (s' & -> & Hs'). exists s'. split; [done|].
      rewrite take_take_app, <- app_assoc in Hs'. done. }
  destruct (H0 (mk_stdout (<[Z.to_nat 0:=0]> m) (Some 0) (Z.of_nat (length m) - 1)) []) as (s' & -> & [_ (H1 & _ & H2) H3 H4]).
  { split; cbn [mem head end_]; [done| |done|apply list_lookup_insert_eq; lia].
    rewrite length_insert. unfold n. simpl. split_and!; lia. }
  exists s'. split; [done|]. cbn [app] in *. split_and!; [lia|done|done].
Qed.

Lemma stdout_spec_witness :
  exists s', foldl (fun s '(cooked, str) => let! s := s in
      if cooked : bool then mp_hal_stdout_tx_strn_cooked str s else mp_hal_stdout_tx_strn str s)
    (IPUpy_set_stdout (Some [1; 2; 3; 4; 5]) 5 (mk_stdout [] None 0)) [(true, [104; 10]); (false, [105; 106])] = Ret s' /\
  take 4 (mem s') = [104; 13; 10; 105].
Proof.
  destruct (stdout_spec [1; 2; 3; 4; 5] (mk_stdout [] None 0) [(true, [104; 10]); (false, [105; 106])])
    as (s1 & E & s' & F & _ & H & _); [simpl; lia|].
  exists s'. split; [|exact H].
  assert (s1 = mk_stdout [0; 2; 3; 4; 5] (Some 0) 4) as -> by (vm_compute in E; congruence). exact F.
Defined.

(** [gc_collect] subtracts the top of the stack from the stack pointer.  Where the stack grows
    down, so that the live part is [m11 .. top], the difference is negative and the scan covers
    nearly the whole address space instead of the [(top - m11) / 4] live words. *)
Theorem gc_collect_stack_range_wraps m11 top : 0 < m11 -> m11 < top < 2 ^ 32 ->
  let '(start, words) := gc_collect_stack_range m11 top in
  start = m11 /\ words = (2 ^ 32 - (top - m11)) / 4 /\ (top < 2 ^ 30 -> (top - m11) / 4 < words).
Proof.
  intros H1 H2. unfold gc_collect_stack_range, wrap.
  replace ((m11 - top) mod 2 ^ 32) with (2 ^ 32 - (top - m11)).
  - split_and!; try done. intros. zdiv.
  - symmetry. rewrite <- (Z_mod_plus_full _ 1). rewrite Z.mod_small by lia. lia.
Qed.

Lemma gc_collect_stack_range_wraps_witness : snd (gc_collect_stack_range 0x50000 0x50400) = 1073741568.
Proof.
  pose proof (gc_collect_stack_range_wraps 0x50000 0x50400 ltac:(lia) ltac:(lia)) as H.
  destruct (gc_collect_stack_range 0x50000 0x50400) as [a w]. destruct H as (_ & H & _). exact H.
Defined.

(** ** The terminal *)

(** Text that takes one column per byte. *)
Definition printable (s : list Z) : Prop := Forall (fun b => 32 <= b <= 126) s.

(** One row of a terminal: its cells and the cursor's column. *)
Record term := mk_term { cells : list Z; col : nat }.

(** Write a printable character over the cell at the cursor. *)
Definition put_cell (t : term) (c : Z) : term :=
  mk_term (take (col t) (cells t) ++ [c] ++ drop (S (col t)) (cells t)) (S (col t)).

(** How a VT100 terminal reacts to output: the state of its escape sequence parser is the
    number given so far, if it is inside one. *)
Inductive esc := NoEsc | GotEsc | GotBracket (n : Z).

Definition term_step (st : esc * term) (c : Z) : esc * term :=
  let '(e, t) := st in
  match e with
  | NoEsc =>
    if c =? 27 then (GotEsc, t)
    else if c =? 8 then (NoEsc, mk_term (cells t) (col t - 1))
    else if c =? 13 then (NoEsc, mk_term (cells t) 0)
    else if c =? 10 then (NoEsc, mk_term [] (col t))
    else (NoEsc, put_cell t c)
  | GotEsc => if c =? 91 then (GotBracket 0, t) else (NoEsc, t)
  | GotBracket n =>
    if (48 <=? c) && (c <=? 57) then (GotBracket (10 * n + (c - 48)), t)
    else if c =? 68 then (NoEsc, mk_term (cells t) (col t - Z.to_nat n))
    else if c =? 75 then (NoEsc, mk_term (take (col t) (cells t)) (col t))
    else (NoEsc, t)
  end.

Definition term_run (t : term) (out : list Z) : term := snd (foldl term_step (NoEsc, t) out).

(** The bytes of [mp_hal_move_cursor_back] move a terminal's cursor back by exactly [pos]
    columns and change no cell. *)
Theorem move_cursor_back_spec pos : 0 <= pos < 1000 ->
  exists out, mp_hal_move_cursor_back pos = Ret out /\
    forall t, foldl term_step (NoEsc, t) out = (NoEsc, mk_term (cells t) (col t - Z.to_nat pos)).
Proof.
  intros Hpos. unfold mp_hal_move_cursor_back. destruct (Z.leb_spec pos 4).
  - eexists; split; [done|]. intros [cs c].
    assert (pos = 0 \/ pos = 1 \/ pos = 2 \/ pos = 3 \/ pos = 4) as [-> | [-> | [-> | [-> | ->]]]] by lia;
      destruct c as [|[|[|[|[|c]]]]]; reflexivity.
  - rewrite (proj2 (Z.ltb_lt pos 1000)) by lia. cbn [negb]. eexists; split; [done|]. intros [cs c].
    assert (Hd : forall d, 0 <= d < 10 -> wrap 8 (0x30 + d) = 48 + d) by (intros; apply wrap_small; lia).
    assert (Hstep : forall n d t rest, 0 <= d < 10 ->
      foldl term_step (GotBracket n, t) (48 + d :: rest) = foldl term_step (GotBracket (10 * n + d), t) rest).
    { intros n d t rest Hdr. cbn [foldl term_step]. rewrite (proj2 (Z.leb_le 48 _)), (proj2 (Z.leb_le _ 57)) by lia.
      cbn [andb]. do 3 f_equal. lia. }
    destruct (Z.ltb_spec 99 pos); [|destruct (Z.ltb_spec 9 pos)].
    + rewrite !Hd by zdiv. change (27 :: 91 :: ?x) with ([27; 91] ++ x). rewrite foldl_app.
      change (foldl term_step (NoEsc, mk_term cs c) [27; 91]) with (GotBracket 0, mk_term cs c).
      rewrite !Hstep by zdiv. cbn. do 3 f_equal. zdiv.
    + rewrite !Hd by zdiv. change (27 :: 91 :: ?x) with ([27; 91] ++ x). rewrite foldl_app.
      change (foldl term_step (NoEsc, mk_term cs c) [27; 91]) with (GotBracket 0, mk_term cs c).
      rewrite !Hstep by zdiv. cbn. do 3 f_equal. zdiv.
    + rewrite !Hd by zdiv. change (27 :: 91 :: ?x) with ([27; 91] ++ x). rewrite foldl_app.
      change (foldl term_step (NoEsc, mk_term cs c) [27; 91]) with (GotBracket 0, mk_term cs c).
      rewrite !Hstep by zdiv. cbn. do 3 f_equal. zdiv.
Qed.

Lemma move_cursor_back_spec_witness :
  exists out, mp_hal_move_cursor_back 123 = Ret out /\
    foldl term_step (NoEsc, mk_term [] 200) out = (NoEsc, mk_term [] 77).
Proof.
  destruct (move_cursor_back_spec 123) as (out & E & H); [lia|].
  exists out. split; [exact E|]. exact (H (mk_term [] 200)).
Defined.
