(* ===== verification/SmallInt.v ===== *)
(** * Small integers ([py/smallint.c], [py/smallint.h])

    On the 32-bit port a small integer has 31 bits (object representation A).  Machine
    integers are 32 bits wide: an operation whose exact result does not fit in [mp_int_t] is
    undefined behaviour, written [sint]. *)

From S2P Require Import Prelude.
Local Open Scope Z_scope.

Definition MP_SMALL_INT_MIN : Z := - 2 ^ 30.
Definition MP_SMALL_INT_MAX : Z := Z.lnot MP_SMALL_INT_MIN.

(** [((n) ^ ((mp_uint_t)(n) << 1)) & MP_OBJ_WORD_MSBIT_HIGH) == 0] *)
Definition MP_SMALL_INT_FITS (n : Z) : bool :=
  Z.land (Z.lxor (wrap 32 n) (wrap 32 (Z.shiftl (wrap 32 n) 1))) (2 ^ 31) =? 0.

(** A small integer as an object, and back (object representation A). *)
Definition MP_OBJ_NEW_SMALL_INT (n : Z) : Z := Z.lor (wrap 32 (Z.shiftl (wrap 32 n) 1)) 1.
Definition MP_OBJ_SMALL_INT_VALUE (o : Z) : Z := Z.shiftr (swrap 32 o) 1.

(** A signed 32-bit result, undefined when it overflows. *)
Definition sint (z : Z) : outcome Z := if (- 2 ^ 31 <=? z) && (z <? 2 ^ 31) then Ret z else Undef.

(** C's division and remainder truncate; both are undefined on a zero divisor. *)
Definition c_div (x y : Z) : outcome Z := if y =? 0 then Undef else sint (Z.quot x y).
Definition c_rem (x y : Z) : outcome Z :=
  if y =? 0 then Undef else let! _ := sint (Z.quot x y) in Ret (Z.rem x y).

Definition mp_small_int_mul_overflow (x y : Z) : outcome bool :=
  if 0 <? x then
    if 0 <? y then let! q := c_div MP_SMALL_INT_MAX y in Ret (q <? x)
    else let! q := c_div MP_SMALL_INT_MIN x in Ret (y <? q)
  else
    if 0 <? y then let! q := c_div MP_SMALL_INT_MIN y in Ret (x <? q)
    else if negb (x =? 0) then let! q := c_div MP_SMALL_INT_MAX x in Ret (y <? q)
    else Ret false.

Definition mp_small_int_modulo (dividend divisor : Z) : outcome Z :=
  let! r := c_rem dividend divisor in
  if ((r <? 0) && (0 <? divisor)) || ((0 <? r) && (divisor <? 0)) then sint (r + divisor) else Ret r.

Definition mp_small_int_floor_divide (num denom : Z) : outcome Z :=
  let! num :=
    if 0 <=? num then
      if denom <? 0 then sint (num + (- denom - 1)) else Ret num
    else
      if 0 <=? denom then sint (num + (- denom + 1)) else Ret num in
  c_div num denom.

Definition small (z : Z) : Prop := MP_SMALL_INT_MIN <= z <= MP_SMALL_INT_MAX.

Lemma small_range z : small z <-> - 2 ^ 30 <= z < 2 ^ 30.
Proof. unfold small, MP_SMALL_INT_MAX, MP_SMALL_INT_MIN, Z.lnot. lia. Qed.

Lemma sint_ok z : - 2 ^ 31 <= z < 2 ^ 31 -> sint z = Ret z.
Proof.
  intros Hz. unfold sint. rewrite (proj2 (Z.leb_le _ _)), (proj2 (Z.ltb_lt _ _)) by lia. done.
Qed.

(** An object holds the integer's low 31 bits, two's complement. *)
Lemma small_int_value n : MP_OBJ_SMALL_INT_VALUE (MP_OBJ_NEW_SMALL_INT n) = swrap 31 n.
Proof.
  unfold MP_OBJ_SMALL_INT_VALUE, MP_OBJ_NEW_SMALL_INT, wrap, swrap.
  rewrite Z.shiftl_mul_pow2, Z.shiftr_div_pow2 by lia.
  assert (E : Z.lor ((n mod 2 ^ 32 * 2 ^ 1) mod 2 ^ 32) 1 = (n mod 2 ^ 31) * 2 + 1).
  { replace ((n mod 2 ^ 32 * 2 ^ 1) mod 2 ^ 32) with (Z.shiftl (n mod 2 ^ 31) 1) by (rewrite Z.shiftl_mul_pow2 by lia; zdiv).
    by rewrite lor_shiftl_low by lia. }
  rewrite E. clear E. zdiv.
Qed.

Lemma small_int_value_small n : small n -> MP_OBJ_SMALL_INT_VALUE (MP_OBJ_NEW_SMALL_INT n) = n.
Proof. intros Hn%small_range. rewrite small_int_value. apply swrap_small; lia. Qed.

(** [MP_SMALL_INT_FITS] is the range test. *)
Lemma MP_SMALL_INT_FITS_ok n : - 2 ^ 31 <= n < 2 ^ 31 ->
  MP_SMALL_INT_FITS n = (- 2 ^ 30 <=? n) && (n <? 2 ^ 30).
Proof.
  intros Hn. unfold MP_SMALL_INT_FITS.
  assert (Hbit : Z.land (Z.lxor (wrap 32 n) (wrap 32 (Z.shiftl (wrap 32 n) 1))) (2 ^ 31) =
    if xorb (Z.testbit (wrap 32 n) 31) (Z.testbit (wrap 32 n) 30) then 2 ^ 31 else 0).
  { apply Z.bits_inj'. intros i Hi. rewrite Z.land_spec, Z.pow2_bits_eqb by lia.
    destruct (Z.eqb_spec 31 i) as [<-|Hne].
    - rewrite andb_true_r, Z.lxor_spec. unfold wrap at 2. rewrite Z.mod_pow2_bits_low by lia.
      rewrite Z.shiftl_spec by lia. change (31 - 1) with 30.
      destruct (xorb _ _); [by rewrite Z.pow2_bits_true|by rewrite Z.bits_0].
    - rewrite andb_false_r. destruct (xorb _ _); [by rewrite Z.pow2_bits_false by lia|by rewrite Z.bits_0]. }
  rewrite Hbit.
  rewrite !Z.testbit_odd, !Z.shiftr_div_pow2 by lia. unfold wrap.
  assert (Hcases : (n < - 2 ^ 30 /\ (n mod 2 ^ 32) / 2 ^ 31 = 1 /\ (n mod 2 ^ 32) / 2 ^ 30 = 2) \/
    (- 2 ^ 30 <= n < 0 /\ (n mod 2 ^ 32) / 2 ^ 31 = 1 /\ (n mod 2 ^ 32) / 2 ^ 30 = 3) \/
    (0 <= n < 2 ^ 30 /\ (n mod 2 ^ 32) / 2 ^ 31 = 0 /\ (n mod 2 ^ 32) / 2 ^ 30 = 0) \/
    (2 ^ 30 <= n /\ (n mod 2 ^ 32) / 2 ^ 31 = 0 /\ (n mod 2 ^ 32) / 2 ^ 30 = 1)) by (cbn; zdiv).
  destruct Hcases as [(H & -> & ->)|[(H & -> & ->)|[(H & -> & ->)|(H & -> & ->)]]]; cbn [Z.odd xorb].
  - rewrite (proj2 (Z.leb_gt _ _)) by lia. done.
  - rewrite (proj2 (Z.leb_le _ _)), (proj2 (Z.ltb_lt _ _)) by lia. done.
  - rewrite (proj2 (Z.leb_le _ _)), (proj2 (Z.ltb_lt _ _)) by lia. done.
  - rewrite (proj2 (Z.ltb_ge n _)) by lia. by rewrite andb_false_r.
Qed.

Lemma c_div_ok x y : - 2 ^ 31 < x < 2 ^ 31 -> y <> 0 -> c_div x y = Ret (Z.quot x y).
Proof.
  intros Hx Hy. unfold c_div. rewrite (proj2 (Z.eqb_neq _ _) Hy). apply sint_ok.
  assert (Z.abs (Z.quot x y) <= Z.abs x); [|lia].
  rewrite <- Z.quot_abs by done. rewrite Z.quot_div_nonneg by lia. apply Z.div_le_upper_bound; nia.
Qed.

(** The truncated quotient, bracketed. *)
Lemma quot_bounds x y : y <> 0 -> exists q r, Z.quot x y = q /\ x = y * q + r /\ Z.abs r < Z.abs y /\
  ((0 <= x -> 0 <= r) /\ (x <= 0 -> r <= 0)).
Proof.
  intros Hy. exists (Z.quot x y), (Z.rem x y). pose proof (Z.quot_rem' x y). pose proof (Z.rem_bound_abs x y Hy).
  split_and!; try done; [by apply Z.rem_nonneg|by apply Z.rem_nonpos].
Qed.

(** Comparing with the quotient of the bound is comparing the product with the bound. *)
Lemma above_quot a b q r M : M = a * q + r -> 0 < a -> 0 <= r < a -> (q < b <-> M < b * a).
Proof. intros -> Ha Hr. split; intros; nia. Qed.

Lemma below_quot a b q r M : M = a * q + r -> 0 < a -> - a < r <= 0 -> (b < q <-> b * a < M).
Proof. intros -> Ha Hr. split; intros; nia. Qed.

Lemma above_quot_neg a b q r M : M = a * q + r -> a < 0 -> 0 <= r < - a -> (b < q <-> M < b * a).
Proof. intros -> Ha Hr. split; intros; nia. Qed.

Lemma mul_overflow_ok x y : small x -> small y ->
  exists b, mp_small_int_mul_overflow x y = Ret b /\ (b = true <-> ~ small (x * y)).
Proof.
  rewrite !small_range. intros Hx Hy.
  change MP_SMALL_INT_MAX with (2 ^ 30 - 1) in *. unfold mp_small_int_mul_overflow.
  change MP_SMALL_INT_MAX with (2 ^ 30 - 1). change MP_SMALL_INT_MIN with (- 2 ^ 30).
  assert (Hmax : 0 < 2 ^ 30 - 1) by done. assert (Hmin : - 2 ^ 30 < 0) by done.
  remember (2 ^ 30 - 1) as M. remember (- 2 ^ 30) as m. assert (H30 : 2 ^ 30 = M + 1) by lia.
  assert (Hsm : forall z, small z <-> m <= z <= M) by (intros z; rewrite small_range; lia).
  assert (M < 2 ^ 31 /\ - 2 ^ 31 < m) by (subst; done). assert (m = - M - 1) by lia.
  rewrite H30 in *.
  destruct (Z.ltb_spec 0 x), (Z.ltb_spec 0 y).
  - rewrite c_div_ok by lia. cbn [obind]. eexists; split; [done|]. rewrite Hsm, Z.ltb_lt.
    destruct (quot_bounds M y) as (q & r & -> & E & Hr & Hs); [lia|].
    rewrite (above_quot y x q r M) by (done || nia). nia.
  - rewrite c_div_ok by lia. cbn [obind]. eexists; split; [done|]. rewrite Hsm, Z.ltb_lt.
    destruct (quot_bounds m x) as (q & r & -> & E & Hr & Hs); [lia|].
    rewrite (below_quot x y q r m), (Z.mul_comm y x) by (done || nia). nia.
  - rewrite c_div_ok by lia. cbn [obind]. eexists; split; [done|]. rewrite Hsm, Z.ltb_lt.
    destruct (quot_bounds m y) as (q & r & -> & E & Hr & Hs); [lia|].
    rewrite (below_quot y x q r m) by (done || nia). nia.
  - destruct (Z.eqb_spec x 0) as [->|]; cbn [negb].
    + eexists; split; [done|]. rewrite Hsm, Z.mul_0_l. split; [done|]. lia.
    + rewrite c_div_ok by lia. cbn [obind]. eexists; split; [done|]. rewrite Hsm, Z.ltb_lt.
      destruct (quot_bounds M x) as (q & r & -> & E & Hr & Hs); [lia|].
      rewrite (above_quot_neg x y q r M), (Z.mul_comm y x) by (done || nia). nia.
Qed.

(** C40. [mp_small_int_mul_overflow] says exactly whether the product of two small integers is not
    a small integer, and its own divisions never overflow. *)
Theorem mp_small_int_mul_overflow_spec x y : small x -> small y ->
  exists b, mp_small_int_mul_overflow x y = Ret b /\ (b = true <-> ~ small (x * y)).
Proof. apply mul_overflow_ok. Qed.

(** On small integers with a divisor other than 0, the remainder and the quotient never
    overflow and are Python's: the quotient is rounded down and the remainder has the sign of
    the divisor. *)
Theorem mp_small_int_divmod_spec x y : small x -> small y -> y <> 0 ->
  mp_small_int_modulo x y = Ret (x mod y) /\ mp_small_int_floor_divide x y = Ret (x / y).
Proof.
  rewrite !small_range. intros Hx Hy H0. split.
  - unfold mp_small_int_modulo, c_rem. rewrite (proj2 (Z.eqb_neq _ _) H0).
    rewrite sint_ok; [cbn [obind]|].
    + destruct (quot_bounds x y H0) as (q & r & Eq & E & Hr & Hs).
      assert (Erem : Z.rem x y = r) by (pose proof (Z.quot_rem' x y); lia). rewrite Erem.
      destruct (Z.ltb_spec r 0), (Z.ltb_spec 0 y), (Z.ltb_spec 0 r), (Z.ltb_spec y 0); cbn [andb orb]; try lia;
        rewrite ?sint_ok by lia; f_equal.
      all: first [apply (Z.mod_unique x y (q - 1)); lia | apply (Z.mod_unique x y q); lia].
    + assert (Z.abs (Z.quot x y) <= Z.abs x); [|lia].
      rewrite <- Z.quot_abs by done. rewrite Z.quot_div_nonneg by lia. apply Z.div_le_upper_bound; nia.
  - unfold mp_small_int_floor_divide.
    destruct (Z.leb_spec 0 x), (Z.ltb_spec y 0), (Z.leb_spec 0 y); cbn [obind]; try lia;
      rewrite ?sint_ok by lia; cbn [obind]; rewrite c_div_ok by lia; f_equal.
    + destruct (quot_bounds (x + (- y - 1)) y H0) as (q & r & -> & E & Hr & Hs & _).
      apply (Z.div_unique x y q (r + y + 1)); lia.
    + destruct (quot_bounds x y H0) as (q & r & -> & E & Hr & Hs & _). apply (Z.div_unique x y q r); lia.
    + destruct (quot_bounds x y H0) as (q & r & -> & E & Hr & _ & Hs). apply (Z.div_unique x y q r); lia.
    + destruct (quot_bounds (x + (- y + 1)) y H0) as (q & r & -> & E & Hr & _ & Hs).
      apply (Z.div_unique x y q (r + y - 1)); lia.
Qed.

Lemma mp_small_int_mul_overflow_spec_witness : mp_small_int_mul_overflow (- 2 ^ 30) (-1) = Ret true.
Proof.
  destruct (mp_small_int_mul_overflow_spec (- 2 ^ 30) (-1)) as (b & E & _); [by split|by split|].
  rewrite E. vm_compute in E. by injection E as <-.
Defined.

Lemma mp_small_int_divmod_spec_witness :
  mp_small_int_modulo (-7) 3 = Ret 2 /\ mp_small_int_floor_divide (-7) 3 = Ret (-3).
Proof. apply (mp_small_int_divmod_spec (-7) 3); [by split|by split|lia]. Defined.
