(* ===== verification/Parsenum.v ===== *)
(** * Integer literals ([py/parsenumbase.c], [py/parsenum.c])

    [mp_parse_num_base] and [mp_parse_num_integer] on the bytes of a string.  The port has no
    long integers: a literal that leaves the small integers raises [OverflowError] in
    [mp_obj_new_int_from_str_len]. *)

From S2P Require Import Prelude SmallInt Unicode.
Local Open Scope Z_scope.

(** The character at the front; reading past the end is undefined. *)
Definition peek (s : list Z) : outcome Z := match s with [] => Undef | c :: _ => Ret c end.

(** The new base and the number of bytes to skip. *)
Definition mp_parse_num_base (str : list Z) (base : Z) : outcome (Z * nat) :=
  if (length str <=? 1)%nat then Ret (if base =? 0 then 10 else base, 0%nat) else
  let! c := peek str in
  if ((base =? 0) || (base =? 16)) && (c =? 48) then
    let! c := peek (drop 1 str) in
    if Z.lor c 32 =? 120 then Ret (16, 2%nat)
    else if (base =? 0) && (Z.lor c 32 =? 111) then Ret (8, 2%nat)
    else if (base =? 0) && (Z.lor c 32 =? 98) then Ret (2, 2%nat)
    else Ret (if base =? 0 then 10 else base, 0%nat)
  else if (base =? 8) && (c =? 48) then
    let! c := peek (drop 1 str) in
    if negb (Z.lor c 32 =? 111) then Ret (base, 0%nat) else Ret (base, 2%nat)
  else if (base =? 2) && (c =? 48) then
    let! c := peek (drop 1 str) in
    if negb (Z.lor c 32 =? 98) then Ret (base, 0%nat) else Ret (base, 2%nat)
  else Ret (if base =? 0 then 10 else base, 0%nat).

(** [for (; str < top && unichar_isspace( *str ); str++) {}] *)
Fixpoint skip_space (str : list Z) : list Z :=
  match str with
  | c :: rest => if unichar_isspace c then skip_space rest else str
  | [] => []
  end.

(** What one character of the number is. *)
Inductive digit := Digit (dig : Z) | Underscore | NoDigit.

(** The value of a digit or letter. *)
Definition char_value (c : Z) : option Z :=
  if (48 <=? c) && (c <=? 57) then Some (c - 48)
  else let c := Z.lor c 0x20 in
       if (97 <=? c) && (c <=? 122) then Some (c - (97 - 10)) else None.

Definition get_digit (c base : Z) : digit :=
  if (48 <=? c) && (c <=? 57) then if base <=? c - 48 then NoDigit else Digit (c - 48)
  else if c =? 95 then Underscore
  else match char_value c with
       | Some dig => if base <=? dig then NoDigit else Digit dig
       | None => NoDigit
       end.

Inductive digits_result := Parsed (int_val : Z) (rest : list Z) | Overflow.

(** The loop over the digits. *)
Fixpoint digits_loop (str : list Z) (base int_val : Z) : outcome digits_result :=
  match str with
  | [] => Ret (Parsed int_val [])
  | c :: rest =>
    match get_digit c base with
    | Underscore => digits_loop rest base int_val
    | NoDigit => Ret (Parsed int_val str)
    | Digit dig =>
      let! o := mp_small_int_mul_overflow int_val base in
      if o : bool then Ret Overflow else
      let! v := sint (int_val * base + dig) in
      if negb (MP_SMALL_INT_FITS v) then Ret Overflow else digits_loop rest base v
    end
  end.

(** [raise_exc]: the parser's numbers raise [SyntaxError]. *)
Definition raise_exc {A} (lex : bool) : outcome A := Raise (if lex then SyntaxError else ValueError).

(** The optional sign. *)
Definition parse_sign (str : list Z) : bool * list Z :=
  match str with
  | c :: rest => if c =? 43 then (false, rest) else if c =? 45 then (true, rest) else (false, str)
  | [] => (false, [])
  end.

Definition mp_parse_num_integer (str : list Z) (base : Z) (lex : bool) : outcome Z :=
  if (negb (base =? 0) && (base <? 2)) || (36 <? base) then Raise ValueError else
  let str := skip_space str in
  let '(neg, str) := parse_sign str in
  let! '(base, n) := mp_parse_num_base str base in
  let str_val_start := drop n str in
  let! r := digits_loop str_val_start base 0 in
  match r with
  | Overflow => Raise OverflowError
  | Parsed int_val rest =>
    let! int_val := if neg : bool then sint (- int_val) else Ret int_val in
    if (length rest =? length str_val_start)%nat then raise_exc lex else
    match skip_space rest with
    | [] => Ret int_val
    | _ :: _ => raise_exc lex
    end
  end.

(** ** Writing a number *)

(** The digits of [n] in a base, most significant first, as [mp_print_mp_int] writes them. *)
Fixpoint to_digits (fuel : nat) (n base : Z) (acc : list Z) : list Z :=
  match fuel with
  | O => acc
  | S fuel =>
    let c := n mod base in
    let acc := (if c <? 10 then c + 48 else c - 10 + 97) :: acc in
    if n / base =? 0 then acc else to_digits fuel (n / base) base acc
  end.

(** ** Reading digits *)

Definition digit_char (d : Z) : Z := if d <? 10 then d + 48 else d - 10 + 97.

Lemma get_digit_char d base : 0 <= d < base -> base <= 36 -> get_digit (digit_char d) base = Digit d.
Proof.
  intros Hd Hb.
  assert (Hv : bool_decide (char_value (digit_char d) = Some d) && negb (digit_char d =? 95) = true).
  { assert (Hd36 : 0 <= d < 36) by lia. clear Hd. by_evaluation d 36%nat. }
  apply andb_true_iff in Hv as [Hv E]. apply bool_decide_eq_true_1 in Hv. apply negb_true_iff in E.
  unfold get_digit. rewrite E, Hv. rewrite (proj2 (Z.leb_gt base d)) by lia.
  destruct ((48 <=? digit_char d) && (digit_char d <=? 57)) eqn:F; [|done].
  unfold char_value in Hv. rewrite F in Hv. injection Hv as Hv. rewrite Hv.
  by rewrite (proj2 (Z.leb_gt base d)) by lia.
Qed.

(** The value of a list of digits. *)
Definition value (base : Z) (ds : list Z) : Z := foldl (fun v d => v * base + d) 0 ds.

Lemma digits_loop_value base ds rest v : 2 <= base <= 36 -> Forall (fun d => 0 <= d < base) ds ->
  (forall c rest', rest = c :: rest' -> get_digit c base = NoDigit) ->
  0 <= v -> foldl (fun v d => v * base + d) v ds < 2 ^ 30 -> v < 2 ^ 30 ->
  digits_loop (map digit_char ds ++ rest) base v = Ret (Parsed (foldl (fun v d => v * base + d) v ds) rest).
Proof.
  intros Hb Hds Hrest. revert v. induction Hds as [|d ds Hd Hds IH]; intros v Hv Hf Hv30; cbn [map app foldl digits_loop].
  - destruct rest as [|c rest]; [done|]. cbn [digits_loop]. by rewrite (Hrest c rest).
  - rewrite get_digit_char by lia. cbn [foldl] in Hf.
    assert (Hmono : forall ds v, Forall (fun d => 0 <= d < base) ds -> 0 <= v -> v <= foldl (fun v d => v * base + d) v ds).
    { clear -Hb. intros ds v Hds. revert v. induction Hds as [|d ds Hd Hds IH]; intros v Hv; cbn [foldl]; [lia|].
      specialize (IH (v * base + d)). nia. }
    pose proof (Hmono ds (v * base + d) Hds ltac:(nia)) as Hm.
    destruct (mul_overflow_ok v base) as (b & -> & Hbo); [apply small_range; lia|apply small_range; lia|].
    cbn [obind]. destruct b.
    { exfalso. apply (proj1 Hbo eq_refl). apply small_range. nia. }
    rewrite sint_ok by nia. cbn [obind]. rewrite MP_SMALL_INT_FITS_ok by nia.
    rewrite (proj2 (Z.leb_le _ _)), (proj2 (Z.ltb_lt _ _)) by nia. cbn [andb negb]. apply IH; nia.
Qed.

(** [to_digits] writes digits whose value is the number. *)
Lemma to_digits_spec fuel n base acc : 2 <= base <= 36 -> 0 <= n < 2 ^ Z.of_nat fuel -> fuel <> 0%nat ->
  exists d ds, to_digits fuel n base acc = map digit_char (d :: ds) ++ acc /\ (d = 0 -> ds = []) /\
    Forall (fun d => 0 <= d < base) (d :: ds) /\ value base (d :: ds) = n.
Proof.
  intros Hb. revert n acc. induction fuel as [|fuel IH]; intros n acc Hn Hf; [done|]. cbn [to_digits].
  fold (digit_char (n mod base)).
  assert (Hm : 0 <= n mod base < base) by (apply Z.mod_pos_bound; lia).
  pose proof (Z.div_mod n base ltac:(lia)) as Hdm.
  destruct (Z.eqb_spec (n / base) 0) as [E|E].
  - exists (n mod base), []. split_and!; [done|done|by apply Forall_singleton|]. cbn. lia.
  - assert (Hq : 0 < n / base) by (pose proof (Z.div_pos n base ltac:(lia) ltac:(lia)); lia).
    assert (Hlt : n / base < 2 ^ Z.of_nat fuel).
    { apply Z.div_lt_upper_bound; [lia|]. rewrite Nat2Z.inj_succ, Z.pow_succ_r in Hn by lia. nia. }
    destruct (IH (n / base) (digit_char (n mod base) :: acc)) as (d & ds & Hds & Hne & Hfa & Hv).
    { lia. } { intros ->. simpl in Hlt. lia. }
    exists d, (ds ++ [n mod base]). rewrite Hds. change (d :: ds ++ [n mod base]) with ((d :: ds) ++ [n mod base]).
    rewrite map_app, <- app_assoc. split_and!; try done.
    + intros ->. specialize (Hne eq_refl). subst ds. cbn in Hv. lia.
    + apply Forall_app. split; [done|by apply Forall_singleton].
    + unfold value in *. rewrite foldl_app, Hv. cbn. lia.
Qed.

(** A digit is neither a sign nor space nor starts a prefix of another base. *)
Lemma digit_char_class d base : 0 <= d < base -> base <= 36 ->
  unichar_isspace (digit_char d) = false /\ digit_char d <> 43 /\ digit_char d <> 45.
Proof.
  intros Hd Hb.
  assert (Hall : forall e, 0 <= e < 36 ->
    bool_decide (unichar_isspace (digit_char e) = false /\ digit_char e <> 43 /\ digit_char e <> 45) = true).
  { intros e He. by_evaluation e 36%nat. }
  apply (bool_decide_eq_true_1 _ (Hall d ltac:(lia))).
Qed.

(** ** The theorems *)

(** Reading the digits of a number smaller than [2^30], after a sign. *)
Lemma parse_digits n base : 2 <= base <= 36 -> 0 <= n < 2 ^ 30 ->
  exists c str, to_digits 32 n base [] = c :: str /\ unichar_isspace c = false /\ c <> 43 /\ c <> 45 /\
    (forall base0, base0 = base \/ base0 = 0 /\ base = 10 -> mp_parse_num_base (c :: str) base0 = Ret (base, 0%nat)) /\
    digits_loop (c :: str) base 0 = Ret (Parsed n []).
Proof.
  intros Hb Hn.
  destruct (to_digits_spec 32 n base [] Hb) as (d & ds & E & H0 & Hfa & Hv); [cbn; lia|done|].
  rewrite app_nil_r in E. cbn [map] in E. inversion_clear Hfa as [|? ? Hd Hds].
  destruct (digit_char_class d base Hd ltac:(lia)) as (C1 & C2 & C3).
  exists (digit_char d), (map digit_char ds). split_and!; try done.
  - intros base0 Hb0. assert (Eb : (if base0 =? 0 then 10 else base0) = base) by (destruct (Z.eqb_spec base0 0); lia).
    unfold mp_parse_num_base. cbn [length]. destruct (Nat.leb_spec (S (length (map digit_char ds))) 1) as [Hle|Hgt].
    + by rewrite Eb.
    + cbn [peek obind].
      assert (Hc : digit_char d =? 48 = false).
      { apply Z.eqb_neq. unfold digit_char. destruct (Z.ltb_spec d 10); [|lia]. intros F. assert (d = 0) as -> by lia.
        rewrite (H0 eq_refl) in Hgt. cbn in Hgt. lia. }
      by rewrite Hc, !andb_false_r, Eb.
  - pose proof (digits_loop_value base (d :: ds) [] 0 Hb) as H. rewrite app_nil_r in H. cbn [map] in H.
    rewrite H; [by rewrite <- Hv|by constructor|done|lia| |lia]. fold (value base (d :: ds)). lia.
Qed.

(** A number written with a sign and the prefix [pre] of its base is read back. *)
Lemma parse_text n base0 base pre lex : base0 = 0 \/ 2 <= base0 <= 36 -> 2 <= base <= 36 -> - 2 ^ 30 < n < 2 ^ 30 ->
  (forall c str, to_digits 32 (Z.abs n) base [] = c :: str -> mp_parse_num_base (pre ++ c :: str) base0 = Ret (base, length pre)) ->
  (pre = [] \/ exists pre', pre = 48 :: pre') ->
  mp_parse_num_integer ((if n <? 0 then [45] else []) ++ pre ++ to_digits 32 (Z.abs n) base []) base0 lex = Ret n.
Proof.
  intros Hb0 Hb Hn Hbase Hpre. unfold mp_parse_num_integer.
  replace (negb (base0 =? 0) && (base0 <? 2) || (36 <? base0)) with false by (symmetry; lia).
  destruct (parse_digits (Z.abs n) base Hb) as (c & str & E & Hsp & H43 & H45 & _ & Hloop); [lia|].
  specialize (Hbase c str E). rewrite E.
  assert (Hhead : exists c' l, pre ++ c :: str = c' :: l /\ unichar_isspace c' = false /\ c' <> 43 /\ c' <> 45).
  { destruct Hpre as [->|[pre' ->]]; [by exists c, str|]. eexists 48, _. by split_and!. }
  destruct Hhead as (c' & l & El & Hsp' & H43' & H45'). rewrite El in *.
  assert (Edrop : drop (length pre) (c' :: l) = c :: str) by (rewrite <- El; apply drop_app_length).
  destruct (Z.ltb_spec n 0) as [Hneg|Hpos]; cbn [app].
  - change (skip_space (45 :: c' :: l)) with (45 :: c' :: l).
    change (parse_sign (45 :: c' :: l)) with (true, c' :: l). cbn iota beta. rewrite Hbase. cbn [obind].
    rewrite Edrop, Hloop. cbn [obind]. rewrite sint_ok by lia. cbn [obind length Nat.eqb skip_space]. f_equal. lia.
  - cbn [skip_space]. rewrite Hsp'. cbn [parse_sign].
    rewrite (proj2 (Z.eqb_neq c' 43)), (proj2 (Z.eqb_neq c' 45)) by done. rewrite Hbase. cbn [obind].
    rewrite Edrop, Hloop. cbn [obind length Nat.eqb skip_space]. f_equal. lia.
Qed.

(** Without a prefix, in the base given or in base 10 by default. *)
Lemma parse_plain n base0 base lex : base0 = base \/ base0 = 0 /\ base = 10 -> 2 <= base <= 36 -> - 2 ^ 30 < n < 2 ^ 30 ->
  mp_parse_num_integer ((if n <? 0 then [45] else []) ++ to_digits 32 (Z.abs n) base []) base0 lex = Ret n.
Proof.
  intros H0 Hb Hn. pose proof (parse_text n base0 base [] lex) as H. cbn [app] in H. apply H; [lia|lia|lia| |by left].
  intros c str E. destruct (parse_digits (Z.abs n) base Hb) as (c' & str' & E' & _ & _ & _ & Hb1 & _); [lia|].
  rewrite E in E'. injection E' as <- <-. apply Hb1. lia.
Qed.

(** The prefixes of literals. *)
Definition base_prefix (base : Z) (pre : list Z) : Prop :=
  exists x, pre = [48; x] /\ byte x /\ (base = 16 /\ Z.lor x 32 = 120 \/ base = 8 /\ Z.lor x 32 = 111 \/ base = 2 /\ Z.lor x 32 = 98).

Lemma parse_prefixed n base pre lex : base_prefix base pre -> - 2 ^ 30 < n < 2 ^ 30 ->
  mp_parse_num_integer ((if n <? 0 then [45] else []) ++ pre ++ to_digits 32 (Z.abs n) base []) 0 lex = Ret n.
Proof.
  intros (x & -> & _ & Hx) Hn. apply parse_text; [by left|lia|done| |right; by eexists].
  intros c str _. cbn [app]. unfold mp_parse_num_base. cbn [length Nat.leb peek obind drop].
  change ((0 =? 0) || (0 =? 16)) with true. change (48 =? 48) with true. cbn [andb].
  destruct Hx as [[-> ->]|[[-> ->]|[-> ->]]]; done.
Qed.

(** The smallest small integer cannot be read: its magnitude is parsed before the sign is
    applied, and [2^30] is not a small integer. *)
Theorem mp_parse_num_integer_min : mp_parse_num_integer ([45] ++ to_digits 32 (- MP_SMALL_INT_MIN) 10 []) 10 false = Raise OverflowError.
Proof. vm_compute. reflexivity. Qed.

(** A number may consist of underscores only: they are skipped, and count as something parsed. *)
Theorem mp_parse_num_integer_underscore lex : mp_parse_num_integer [95] 10 lex = Ret 0.
Proof. destruct lex; vm_compute; reflexivity. Qed.
