(* ===== verification/Token.v ===== *)
(** * Tokens ([py/lexer.h] and the tables of the lexer)

    The kinds of tokens in the order of their enumeration, which the lexer relies on when it adds
    the index of a keyword to [MP_TOKEN_KW_FALSE]; the encoded table of the operators; the sorted
    table of the keywords.  The port builds neither f-strings nor [async] and [await]. *)

From Stdlib Require Import String Ascii.
From S2P Require Import Prelude.

(** The codes of the characters of a literal. *)
Definition chars (s : string) : list Z := map (fun a => Z.of_nat (nat_of_ascii a)) (list_ascii_of_string s).

Inductive mp_token_kind_t :=
| MP_TOKEN_END | MP_TOKEN_INVALID | MP_TOKEN_DEDENT_MISMATCH | MP_TOKEN_LONELY_STRING_OPEN
| MP_TOKEN_NEWLINE | MP_TOKEN_INDENT | MP_TOKEN_DEDENT | MP_TOKEN_NAME | MP_TOKEN_INTEGER
| MP_TOKEN_FLOAT_OR_IMAG | MP_TOKEN_STRING | MP_TOKEN_BYTES | MP_TOKEN_ELLIPSIS | MP_TOKEN_KW_FALSE
| MP_TOKEN_KW_NONE | MP_TOKEN_KW_TRUE | MP_TOKEN_KW___DEBUG__ | MP_TOKEN_KW_AND | MP_TOKEN_KW_AS
| MP_TOKEN_KW_ASSERT | MP_TOKEN_KW_BREAK | MP_TOKEN_KW_CLASS | MP_TOKEN_KW_CONTINUE
| MP_TOKEN_KW_DEF | MP_TOKEN_KW_DEL | MP_TOKEN_KW_ELIF | MP_TOKEN_KW_ELSE | MP_TOKEN_KW_EXCEPT
| MP_TOKEN_KW_FINALLY | MP_TOKEN_KW_FOR | MP_TOKEN_KW_FROM | MP_TOKEN_KW_GLOBAL | MP_TOKEN_KW_IF
| MP_TOKEN_KW_IMPORT | MP_TOKEN_KW_IN | MP_TOKEN_KW_IPUSYSCALL | MP_TOKEN_KW_IS
| MP_TOKEN_KW_LAMBDA | MP_TOKEN_KW_LONGYIELD | MP_TOKEN_KW_NONLOCAL | MP_TOKEN_KW_NOT
| MP_TOKEN_KW_OR | MP_TOKEN_KW_PASS | MP_TOKEN_KW_RAISE | MP_TOKEN_KW_RETURN | MP_TOKEN_KW_TRY
| MP_TOKEN_KW_WHILE | MP_TOKEN_KW_WITH | MP_TOKEN_KW_YIELD | MP_TOKEN_OP_ASSIGN | MP_TOKEN_OP_TILDE
| MP_TOKEN_OP_LESS | MP_TOKEN_OP_MORE | MP_TOKEN_OP_DBL_EQUAL | MP_TOKEN_OP_LESS_EQUAL
| MP_TOKEN_OP_MORE_EQUAL | MP_TOKEN_OP_NOT_EQUAL | MP_TOKEN_OP_PIPE | MP_TOKEN_OP_CARET
| MP_TOKEN_OP_AMPERSAND | MP_TOKEN_OP_DBL_LESS | MP_TOKEN_OP_DBL_MORE | MP_TOKEN_OP_PLUS
| MP_TOKEN_OP_MINUS | MP_TOKEN_OP_STAR | MP_TOKEN_OP_AT | MP_TOKEN_OP_DBL_SLASH | MP_TOKEN_OP_SLASH
| MP_TOKEN_OP_PERCENT | MP_TOKEN_OP_DBL_STAR | MP_TOKEN_DEL_PIPE_EQUAL | MP_TOKEN_DEL_CARET_EQUAL
| MP_TOKEN_DEL_AMPERSAND_EQUAL | MP_TOKEN_DEL_DBL_LESS_EQUAL | MP_TOKEN_DEL_DBL_MORE_EQUAL
| MP_TOKEN_DEL_PLUS_EQUAL | MP_TOKEN_DEL_MINUS_EQUAL | MP_TOKEN_DEL_STAR_EQUAL
| MP_TOKEN_DEL_AT_EQUAL | MP_TOKEN_DEL_DBL_SLASH_EQUAL | MP_TOKEN_DEL_SLASH_EQUAL
| MP_TOKEN_DEL_PERCENT_EQUAL | MP_TOKEN_DEL_DBL_STAR_EQUAL | MP_TOKEN_DEL_PAREN_OPEN
| MP_TOKEN_DEL_PAREN_CLOSE | MP_TOKEN_DEL_BRACKET_OPEN | MP_TOKEN_DEL_BRACKET_CLOSE
| MP_TOKEN_DEL_BRACE_OPEN | MP_TOKEN_DEL_BRACE_CLOSE | MP_TOKEN_DEL_COMMA | MP_TOKEN_DEL_COLON
| MP_TOKEN_DEL_PERIOD | MP_TOKEN_DEL_SEMICOLON | MP_TOKEN_DEL_EQUAL | MP_TOKEN_DEL_MINUS_MORE.

Definition token_code (k : mp_token_kind_t) : nat :=
  match k with
  | MP_TOKEN_END => 0 | MP_TOKEN_INVALID => 1 | MP_TOKEN_DEDENT_MISMATCH => 2
  | MP_TOKEN_LONELY_STRING_OPEN => 3 | MP_TOKEN_NEWLINE => 4 | MP_TOKEN_INDENT => 5
  | MP_TOKEN_DEDENT => 6 | MP_TOKEN_NAME => 7 | MP_TOKEN_INTEGER => 8 | MP_TOKEN_FLOAT_OR_IMAG => 9
  | MP_TOKEN_STRING => 10 | MP_TOKEN_BYTES => 11 | MP_TOKEN_ELLIPSIS => 12
  | MP_TOKEN_KW_FALSE => 13 | MP_TOKEN_KW_NONE => 14 | MP_TOKEN_KW_TRUE => 15
  | MP_TOKEN_KW___DEBUG__ => 16 | MP_TOKEN_KW_AND => 17 | MP_TOKEN_KW_AS => 18
  | MP_TOKEN_KW_ASSERT => 19 | MP_TOKEN_KW_BREAK => 20 | MP_TOKEN_KW_CLASS => 21
  | MP_TOKEN_KW_CONTINUE => 22 | MP_TOKEN_KW_DEF => 23 | MP_TOKEN_KW_DEL => 24
  | MP_TOKEN_KW_ELIF => 25 | MP_TOKEN_KW_ELSE => 26 | MP_TOKEN_KW_EXCEPT => 27
  | MP_TOKEN_KW_FINALLY => 28 | MP_TOKEN_KW_FOR => 29 | MP_TOKEN_KW_FROM => 30
  | MP_TOKEN_KW_GLOBAL => 31 | MP_TOKEN_KW_IF => 32 | MP_TOKEN_KW_IMPORT => 33
  | MP_TOKEN_KW_IN => 34 | MP_TOKEN_KW_IPUSYSCALL => 35 | MP_TOKEN_KW_IS => 36
  | MP_TOKEN_KW_LAMBDA => 37 | MP_TOKEN_KW_LONGYIELD => 38 | MP_TOKEN_KW_NONLOCAL => 39
  | MP_TOKEN_KW_NOT => 40 | MP_TOKEN_KW_OR => 41 | MP_TOKEN_KW_PASS => 42 | MP_TOKEN_KW_RAISE => 43
  | MP_TOKEN_KW_RETURN => 44 | MP_TOKEN_KW_TRY => 45 | MP_TOKEN_KW_WHILE => 46
  | MP_TOKEN_KW_WITH => 47 | MP_TOKEN_KW_YIELD => 48 | MP_TOKEN_OP_ASSIGN => 49
  | MP_TOKEN_OP_TILDE => 50 | MP_TOKEN_OP_LESS => 51 | MP_TOKEN_OP_MORE => 52
  | MP_TOKEN_OP_DBL_EQUAL => 53 | MP_TOKEN_OP_LESS_EQUAL => 54 | MP_TOKEN_OP_MORE_EQUAL => 55
  | MP_TOKEN_OP_NOT_EQUAL => 56 | MP_TOKEN_OP_PIPE => 57 | MP_TOKEN_OP_CARET => 58
  | MP_TOKEN_OP_AMPERSAND => 59 | MP_TOKEN_OP_DBL_LESS => 60 | MP_TOKEN_OP_DBL_MORE => 61
  | MP_TOKEN_OP_PLUS => 62 | MP_TOKEN_OP_MINUS => 63 | MP_TOKEN_OP_STAR => 64
  | MP_TOKEN_OP_AT => 65 | MP_TOKEN_OP_DBL_SLASH => 66 | MP_TOKEN_OP_SLASH => 67
  | MP_TOKEN_OP_PERCENT => 68 | MP_TOKEN_OP_DBL_STAR => 69 | MP_TOKEN_DEL_PIPE_EQUAL => 70
  | MP_TOKEN_DEL_CARET_EQUAL => 71 | MP_TOKEN_DEL_AMPERSAND_EQUAL => 72
  | MP_TOKEN_DEL_DBL_LESS_EQUAL => 73 | MP_TOKEN_DEL_DBL_MORE_EQUAL => 74
  | MP_TOKEN_DEL_PLUS_EQUAL => 75 | MP_TOKEN_DEL_MINUS_EQUAL => 76 | MP_TOKEN_DEL_STAR_EQUAL => 77
  | MP_TOKEN_DEL_AT_EQUAL => 78 | MP_TOKEN_DEL_DBL_SLASH_EQUAL => 79
  | MP_TOKEN_DEL_SLASH_EQUAL => 80 | MP_TOKEN_DEL_PERCENT_EQUAL => 81
  | MP_TOKEN_DEL_DBL_STAR_EQUAL => 82 | MP_TOKEN_DEL_PAREN_OPEN => 83
  | MP_TOKEN_DEL_PAREN_CLOSE => 84 | MP_TOKEN_DEL_BRACKET_OPEN => 85
  | MP_TOKEN_DEL_BRACKET_CLOSE => 86 | MP_TOKEN_DEL_BRACE_OPEN => 87
  | MP_TOKEN_DEL_BRACE_CLOSE => 88 | MP_TOKEN_DEL_COMMA => 89 | MP_TOKEN_DEL_COLON => 90
  | MP_TOKEN_DEL_PERIOD => 91 | MP_TOKEN_DEL_SEMICOLON => 92 | MP_TOKEN_DEL_EQUAL => 93
  | MP_TOKEN_DEL_MINUS_MORE => 94
  end.

(** The kinds in order, so that [k + i] of C is [token_of_code (token_code k + i)]. *)
Definition all_token_kinds : list mp_token_kind_t := [
  MP_TOKEN_END; MP_TOKEN_INVALID; MP_TOKEN_DEDENT_MISMATCH; MP_TOKEN_LONELY_STRING_OPEN;
  MP_TOKEN_NEWLINE; MP_TOKEN_INDENT; MP_TOKEN_DEDENT; MP_TOKEN_NAME; MP_TOKEN_INTEGER;
  MP_TOKEN_FLOAT_OR_IMAG; MP_TOKEN_STRING; MP_TOKEN_BYTES; MP_TOKEN_ELLIPSIS; MP_TOKEN_KW_FALSE;
  MP_TOKEN_KW_NONE; MP_TOKEN_KW_TRUE; MP_TOKEN_KW___DEBUG__; MP_TOKEN_KW_AND; MP_TOKEN_KW_AS;
  MP_TOKEN_KW_ASSERT; MP_TOKEN_KW_BREAK; MP_TOKEN_KW_CLASS; MP_TOKEN_KW_CONTINUE; MP_TOKEN_KW_DEF;
  MP_TOKEN_KW_DEL; MP_TOKEN_KW_ELIF; MP_TOKEN_KW_ELSE; MP_TOKEN_KW_EXCEPT; MP_TOKEN_KW_FINALLY;
  MP_TOKEN_KW_FOR; MP_TOKEN_KW_FROM; MP_TOKEN_KW_GLOBAL; MP_TOKEN_KW_IF; MP_TOKEN_KW_IMPORT;
  MP_TOKEN_KW_IN; MP_TOKEN_KW_IPUSYSCALL; MP_TOKEN_KW_IS; MP_TOKEN_KW_LAMBDA;
  MP_TOKEN_KW_LONGYIELD; MP_TOKEN_KW_NONLOCAL; MP_TOKEN_KW_NOT; MP_TOKEN_KW_OR; MP_TOKEN_KW_PASS;
  MP_TOKEN_KW_RAISE; MP_TOKEN_KW_RETURN; MP_TOKEN_KW_TRY; MP_TOKEN_KW_WHILE; MP_TOKEN_KW_WITH;
  MP_TOKEN_KW_YIELD; MP_TOKEN_OP_ASSIGN; MP_TOKEN_OP_TILDE; MP_TOKEN_OP_LESS; MP_TOKEN_OP_MORE;
  MP_TOKEN_OP_DBL_EQUAL; MP_TOKEN_OP_LESS_EQUAL; MP_TOKEN_OP_MORE_EQUAL; MP_TOKEN_OP_NOT_EQUAL;
  MP_TOKEN_OP_PIPE; MP_TOKEN_OP_CARET; MP_TOKEN_OP_AMPERSAND; MP_TOKEN_OP_DBL_LESS;
  MP_TOKEN_OP_DBL_MORE; MP_TOKEN_OP_PLUS; MP_TOKEN_OP_MINUS; MP_TOKEN_OP_STAR; MP_TOKEN_OP_AT;
  MP_TOKEN_OP_DBL_SLASH; MP_TOKEN_OP_SLASH; MP_TOKEN_OP_PERCENT; MP_TOKEN_OP_DBL_STAR;
  MP_TOKEN_DEL_PIPE_EQUAL; MP_TOKEN_DEL_CARET_EQUAL; MP_TOKEN_DEL_AMPERSAND_EQUAL;
  MP_TOKEN_DEL_DBL_LESS_EQUAL; MP_TOKEN_DEL_DBL_MORE_EQUAL; MP_TOKEN_DEL_PLUS_EQUAL;
  MP_TOKEN_DEL_MINUS_EQUAL; MP_TOKEN_DEL_STAR_EQUAL; MP_TOKEN_DEL_AT_EQUAL;
  MP_TOKEN_DEL_DBL_SLASH_EQUAL; MP_TOKEN_DEL_SLASH_EQUAL; MP_TOKEN_DEL_PERCENT_EQUAL;
  MP_TOKEN_DEL_DBL_STAR_EQUAL; MP_TOKEN_DEL_PAREN_OPEN; MP_TOKEN_DEL_PAREN_CLOSE;
  MP_TOKEN_DEL_BRACKET_OPEN; MP_TOKEN_DEL_BRACKET_CLOSE; MP_TOKEN_DEL_BRACE_OPEN;
  MP_TOKEN_DEL_BRACE_CLOSE; MP_TOKEN_DEL_COMMA; MP_TOKEN_DEL_COLON; MP_TOKEN_DEL_PERIOD;
  MP_TOKEN_DEL_SEMICOLON; MP_TOKEN_DEL_EQUAL; MP_TOKEN_DEL_MINUS_MORE].

Definition token_of_code (n : nat) : outcome mp_token_kind_t :=
  match all_token_kinds !! n with Some k => Ret k | None => Undef end.

Lemma token_of_token_code k : all_token_kinds !! token_code k = Some k.
Proof. by destruct k. Qed.

#[export] Instance token_code_inj : Inj (=) (=) token_code.
Proof. intros k1 k2 E. pose proof (token_of_token_code k1) as H. rewrite E, token_of_token_code in H. congruence. Qed.

#[export] Instance mp_token_kind_eq_dec : EqDecision mp_token_kind_t.
Proof.
  intros k1 k2. destruct (decide (token_code k1 = token_code k2)) as [E|E].
  - left. by apply (inj token_code).
  - right. intros ->. done.
Defined.

(** [op] begins an operator; [e op] ends it; [c op] continues it. *)
Definition tok_enc : list Z := chars (
  "()[]{},;~" ++ ":e=" ++ "<e=c<e=" ++ ">e=c>e=" ++ "*e=c*e=" ++ "+e=" ++ "-e=e>" ++ "&e=" ++ "|e=" ++
  "/e=c/e=" ++ "%e=" ++ "^e=" ++ "@e=" ++ "=e=" ++ "!.")%string.

Definition tok_enc_kind : list mp_token_kind_t := [
  MP_TOKEN_DEL_PAREN_OPEN; MP_TOKEN_DEL_PAREN_CLOSE; MP_TOKEN_DEL_BRACKET_OPEN;
  MP_TOKEN_DEL_BRACKET_CLOSE; MP_TOKEN_DEL_BRACE_OPEN; MP_TOKEN_DEL_BRACE_CLOSE;
  MP_TOKEN_DEL_COMMA; MP_TOKEN_DEL_SEMICOLON; MP_TOKEN_OP_TILDE; MP_TOKEN_DEL_COLON;
  MP_TOKEN_OP_ASSIGN; MP_TOKEN_OP_LESS; MP_TOKEN_OP_LESS_EQUAL; MP_TOKEN_OP_DBL_LESS;
  MP_TOKEN_DEL_DBL_LESS_EQUAL; MP_TOKEN_OP_MORE; MP_TOKEN_OP_MORE_EQUAL; MP_TOKEN_OP_DBL_MORE;
  MP_TOKEN_DEL_DBL_MORE_EQUAL; MP_TOKEN_OP_STAR; MP_TOKEN_DEL_STAR_EQUAL; MP_TOKEN_OP_DBL_STAR;
  MP_TOKEN_DEL_DBL_STAR_EQUAL; MP_TOKEN_OP_PLUS; MP_TOKEN_DEL_PLUS_EQUAL; MP_TOKEN_OP_MINUS;
  MP_TOKEN_DEL_MINUS_EQUAL; MP_TOKEN_DEL_MINUS_MORE; MP_TOKEN_OP_AMPERSAND;
  MP_TOKEN_DEL_AMPERSAND_EQUAL; MP_TOKEN_OP_PIPE; MP_TOKEN_DEL_PIPE_EQUAL; MP_TOKEN_OP_SLASH;
  MP_TOKEN_DEL_SLASH_EQUAL; MP_TOKEN_OP_DBL_SLASH; MP_TOKEN_DEL_DBL_SLASH_EQUAL;
  MP_TOKEN_OP_PERCENT; MP_TOKEN_DEL_PERCENT_EQUAL; MP_TOKEN_OP_CARET; MP_TOKEN_DEL_CARET_EQUAL;
  MP_TOKEN_OP_AT; MP_TOKEN_DEL_AT_EQUAL; MP_TOKEN_DEL_EQUAL; MP_TOKEN_OP_DBL_EQUAL].

Definition tok_kw : list string := [
  "False"; "None"; "True"; "__debug__"; "and"; "as"; "assert"; "break"; "class"; "continue"; "def";
  "del"; "elif"; "else"; "except"; "finally"; "for"; "from"; "global"; "if"; "import"; "in";
  "ipusyscall"; "is"; "lambda"; "longyield"; "nonlocal"; "not"; "or"; "pass"; "raise"; "return";
  "try"; "while"; "with"; "yield"]%string.

(** The same table in [py/lexer.c], which does not have the port's keyword. *)
Definition tok_kw_upstream : list string := [
  "False"; "None"; "True"; "__debug__"; "and"; "as"; "assert"; "break"; "class"; "continue"; "def";
  "del"; "elif"; "else"; "except"; "finally"; "for"; "from"; "global"; "if"; "import"; "in"; "is";
  "lambda"; "longyield"; "nonlocal"; "not"; "or"; "pass"; "raise"; "return"; "try"; "while";
  "with"; "yield"]%string.
