(* ===== verification/Lexer.v ===== *)
(** * The lexer ([py/lexer.c])

    [mp_lexer_to_next] reads the next token from the three characters of lookahead [chr0],
    [chr1], [chr2] and the reader behind them.  The reader is the one of memory
    ([py/reader.c]): [input] is what it has left.  The fuel of each loop is the number of
    characters left, computed by [loop_fuel]; that it is enough is proved in [LexerSpec.v].
    Definitions only. *)

From Stdlib Require Import String.
From S2P Require Import Prelude Malloc Unicode Vstr SmallInt Token.
Local Open Scope Z_scope.

Definition TAB_SIZE : Z := 8.
Definition MICROPY_ALLOC_LEXER_INDENT_INIT : Z := 10.
Definition MICROPY_ALLOC_LEXEL_INDENT_INC : Z := 8.

(** [MP_READER_EOF], as a [unichar]. *)
Definition MP_LEXER_EOF : Z := 0xFFFFFFFF.

(** ** The characters *)

(** The fields of [mp_lexer_t] that [next_char] updates. *)
Record stream_t := mk_stream {
  chr0 : Z; chr1 : Z; chr2 : Z;
  input : list Z;
  line : Z; column : Z
}.

Definition mp_reader_mem_readbyte (input : list Z) : Z * list Z :=
  match input with [] => (MP_LEXER_EOF, []) | b :: input => (b, input) end.

Definition is_end (s : stream_t) : bool := chr0 s =? MP_LEXER_EOF.
Definition is_physical_newline (s : stream_t) : bool := chr0 s =? 10.
Definition is_char (s : stream_t) (c : Z) : bool := chr0 s =? c.
Definition is_char_or (s : stream_t) (c1 c2 : Z) : bool := (chr0 s =? c1) || (chr0 s =? c2).
Definition is_char_or3 (s : stream_t) (c1 c2 c3 : Z) : bool := (chr0 s =? c1) || (chr0 s =? c2) || (chr0 s =? c3).
Definition is_char_following (s : stream_t) (c : Z) : bool := chr1 s =? c.
Definition is_char_following_or (s : stream_t) (c1 c2 : Z) : bool := (chr1 s =? c1) || (chr1 s =? c2).
Definition is_char_following_following_or (s : stream_t) (c1 c2 : Z) : bool := (chr2 s =? c1) || (chr2 s =? c2).
Definition is_char_and (s : stream_t) (c1 c2 : Z) : bool := (chr0 s =? c1) && (chr1 s =? c2).
Definition is_whitespace (s : stream_t) : bool := unichar_isspace (chr0 s).
Definition is_letter (s : stream_t) : bool := unichar_isalpha (chr0 s).
Definition is_digit (s : stream_t) : bool := unichar_isdigit (chr0 s).
Definition is_following_digit (s : stream_t) : bool := unichar_isdigit (chr1 s).
Definition is_following_base_char (s : stream_t) : bool :=
  let chr1 := Z.lor (chr1 s) 0x20 in (chr1 =? 98) || (chr1 =? 111) || (chr1 =? 120).
Definition is_following_odigit (s : stream_t) : bool := (48 <=? chr1 s) && (chr1 s <=? 55).

(** The quotes are 39 and 34; [r], [u] and [b] are 114, 117 and 98. *)
Definition is_string_or_bytes (s : stream_t) : bool :=
  is_char_or s 39 34
  || (is_char_or3 s 114 117 98 && is_char_following_or s 39 34)
  || ((is_char_and s 114 98 || is_char_and s 98 114) && is_char_following_following_or s 39 34).

Definition is_head_of_identifier (s : stream_t) : bool := is_letter s || (chr0 s =? 95) || (0x80 <=? chr0 s).
Definition is_tail_of_identifier (s : stream_t) : bool := is_head_of_identifier s || is_digit s.

Definition next_char (s : stream_t) : stream_t :=
  let '(line, column) :=
    if chr0 s =? 10 then (wrap 32 (line s + 1), 1)
    else if chr0 s =? 9 then (line s, wrap 32 (wrap 32 (column s - 1 + TAB_SIZE) / TAB_SIZE * TAB_SIZE + 1))
    else (line s, wrap 32 (column s + 1)) in
  let c0 := chr1 s in
  let c1 := chr2 s in
  let '(c2, input) := mp_reader_mem_readbyte (input s) in
  let '(c1, (c2, input)) :=
    if c1 =? 13 then (10, if c2 =? 10 then mp_reader_mem_readbyte input else (c2, input))
    else (c1, (c2, input)) in
  let c2 := if (c2 =? MP_LEXER_EOF) && negb (c1 =? MP_LEXER_EOF) && negb (c1 =? 10) then 10 else c2 in
  mk_stream c0 c1 c2 input line column.

(** At least the number of characters that can be read before the end, plus one. *)
Definition loop_fuel (s : stream_t) : nat := length (input s) + 5.

Fixpoint skip_comment (fuel : nat) (s : stream_t) : outcome stream_t :=
  match fuel with
  | O => OutOfFuel
  | S fuel =>
    if negb (is_end s) && negb (is_physical_newline s) then skip_comment fuel (next_char s) else Ret s
  end.

Fixpoint skip_whitespace_loop (fuel : nat) (s : stream_t) (stop had_physical_newline : bool)
  : outcome (stream_t * bool) :=
  match fuel with
  | O => OutOfFuel
  | S fuel =>
    if is_end s then Ret (s, had_physical_newline)
    else if is_physical_newline s then
      if stop then Ret (s, had_physical_newline) else skip_whitespace_loop fuel (next_char s) stop true
    else if is_whitespace s then skip_whitespace_loop fuel (next_char s) stop had_physical_newline
    else if is_char s 35 then
      let s := next_char s in
      let! s := skip_comment (loop_fuel s) s in
      skip_whitespace_loop fuel s stop had_physical_newline
    else if is_char_and s 92 10 then
      skip_whitespace_loop fuel (next_char (next_char s)) stop had_physical_newline
    else Ret (s, had_physical_newline)
  end.

(** [num_digits] hexadecimal digits after the current character, or no number. *)
Fixpoint get_hex (num_digits : nat) (s : stream_t) (num : Z) : stream_t * option Z :=
  match num_digits with
  | O => (s, Some num)
  | S num_digits =>
    let s := next_char s in
    if negb (unichar_isxdigit (chr0 s)) then (s, None)
    else get_hex num_digits s (wrap 32 (Z.shiftl num 4 + unichar_xdigit_value (chr0 s)))
  end.

(** The rest of an octal escape, of at most [digits] digits. *)
Fixpoint get_octal (digits : nat) (s : stream_t) (num : Z) : stream_t * Z :=
  match digits with
  | O => (s, num)
  | S digits =>
    if is_following_odigit s then
      let s := next_char s in get_octal digits s (wrap 32 (num * 8 + (chr0 s - 48)))
    else (s, num)
  end.

(** ** The lexer *)

Section Lexer.
Context {allocator : Allocator Z}.
(** [MP_STATE_VM(mp_optimise_value)]: the value of [__debug__] is its negation. *)
Variable mp_optimise_value : Z.

(** [reader] and the source position are in [src]; the source's name is not used by the lexer. *)
Record mp_lexer_t := mk_lexer {
  src : stream_t;
  emit_dent : Z;
  nested_bracket_level : Z;
  alloc_indent_level : Z;
  num_indent_level : Z;
  indent_level : list Z;
  tok_line : Z; tok_column : Z;
  tok_kind : mp_token_kind_t;
  vstr : vstr_t
}.
Implicit Types lex : mp_lexer_t.

Definition set_src lex s := mk_lexer s (emit_dent lex) (nested_bracket_level lex) (alloc_indent_level lex)
  (num_indent_level lex) (indent_level lex) (tok_line lex) (tok_column lex) (tok_kind lex) (vstr lex).
Definition set_kind lex k := mk_lexer (src lex) (emit_dent lex) (nested_bracket_level lex) (alloc_indent_level lex)
  (num_indent_level lex) (indent_level lex) (tok_line lex) (tok_column lex) k (vstr lex).
Definition set_vstr lex v := mk_lexer (src lex) (emit_dent lex) (nested_bracket_level lex) (alloc_indent_level lex)
  (num_indent_level lex) (indent_level lex) (tok_line lex) (tok_column lex) (tok_kind lex) v.
Definition set_dent lex d := mk_lexer (src lex) d (nested_bracket_level lex) (alloc_indent_level lex)
  (num_indent_level lex) (indent_level lex) (tok_line lex) (tok_column lex) (tok_kind lex) (vstr lex).
Definition set_nested lex n := mk_lexer (src lex) (emit_dent lex) n (alloc_indent_level lex)
  (num_indent_level lex) (indent_level lex) (tok_line lex) (tok_column lex) (tok_kind lex) (vstr lex).
Definition set_indents lex alloc num l := mk_lexer (src lex) (emit_dent lex) (nested_bracket_level lex) alloc
  num l (tok_line lex) (tok_column lex) (tok_kind lex) (vstr lex).
Definition set_position lex := mk_lexer (src lex) (emit_dent lex) (nested_bracket_level lex) (alloc_indent_level lex)
  (num_indent_level lex) (indent_level lex) (line (src lex)) (column (src lex)) (tok_kind lex) (vstr lex).

Definition next lex := set_src lex (next_char (src lex)).
Definition CUR_CHAR lex : Z := chr0 (src lex).

(** [vstr_add_byte(&lex->vstr, b)]; [vstr_add_char] is the same in this port. *)
Definition add_byte lex (b : Z) : outcome mp_lexer_t :=
  let! v := vstr_add_byte (vstr lex) (wrap 8 b) in Ret (set_vstr lex v).
Definition add_char lex (c : Z) : outcome mp_lexer_t :=
  let! v := vstr_add_char (vstr lex) c in Ret (set_vstr lex v).

Definition indent_push lex (indent : Z) : outcome mp_lexer_t :=
  let! lex :=
    if alloc_indent_level lex <=? num_indent_level lex then
      let n := wrap 32 (alloc_indent_level lex + MICROPY_ALLOC_LEXEL_INDENT_INC) in
      let! l := m_renew 2 (indent_level lex) n in
      Ret (set_indents lex n (num_indent_level lex) l)
    else Ret lex in
  let! l := wr (indent_level lex) (num_indent_level lex) (wrap 16 indent) in
  Ret (set_indents lex (alloc_indent_level lex) (wrap 32 (num_indent_level lex + 1)) l).

Definition indent_top lex : outcome Z := rd (indent_level lex) (wrap 32 (num_indent_level lex - 1)).

Definition indent_pop lex : mp_lexer_t :=
  set_indents lex (alloc_indent_level lex) (wrap 32 (num_indent_level lex - 1)) (indent_level lex).

(** ** String literals *)

(** The escape sequence whose first character after the backslash is the current one: the
    character it stands for, [MP_LEXER_EOF] if none. *)
Definition escape_sequence lex : outcome (mp_lexer_t * Z) :=
  let c := CUR_CHAR lex in
  if c =? 10 then Ret (lex, MP_LEXER_EOF)
  else if (c =? 92) || (c =? 39) || (c =? 34) then Ret (lex, c)
  else if c =? 97 then Ret (lex, 7)
  else if c =? 98 then Ret (lex, 8)
  else if c =? 116 then Ret (lex, 9)
  else if c =? 110 then Ret (lex, 10)
  else if c =? 118 then Ret (lex, 11)
  else if c =? 102 then Ret (lex, 12)
  else if c =? 114 then Ret (lex, 13)
  else if ((c =? 117) || (c =? 85)) && bool_decide (tok_kind lex = MP_TOKEN_BYTES) then
    let! lex := add_char lex 92 in Ret (lex, c)
  else if (c =? 117) || (c =? 85) || (c =? 120) then
    match get_hex (if c =? 120 then 2 else if c =? 117 then 4 else 8) (src lex) 0 with
    | (s, Some num) => Ret (set_src lex s, num)
    | (s, None) => Ret (set_kind (set_src lex s) MP_TOKEN_INVALID, 0)
    end
  else if c =? 78 then Raise NotImplementedError
  else if (48 <=? c) && (c <=? 55) then
    let '(s, num) := get_octal 2 (src lex) (c - 48) in Ret (set_src lex s, num)
  else let! lex := add_char lex 92 in Ret (lex, c).

(** A backslash in a literal, with the current character after it. *)
Definition backslash lex (is_raw : bool) : outcome mp_lexer_t :=
  let! '(lex, c) :=
    if is_raw then let! lex' := add_char lex 92 in Ret (lex', CUR_CHAR lex) else escape_sequence lex in
  if negb (c =? MP_LEXER_EOF) then
    if c <? 0x100 then add_byte lex c else Ret (set_kind lex MP_TOKEN_INVALID)
  else Ret lex.

(** The loop over the characters of a literal; the number of closing quotes it ends with. *)
Fixpoint literal_loop (fuel : nat) lex (quote_char num_quotes : Z) (is_raw : bool) (n_closing : Z)
  : outcome (mp_lexer_t * Z) :=
  match fuel with
  | O => OutOfFuel
  | S fuel =>
    if negb (is_end (src lex)) && ((1 <? num_quotes) || negb (is_char (src lex) 10)) && (n_closing <? num_quotes) then
      let! '(lex, n_closing) :=
        if is_char (src lex) quote_char then
          let! lex := add_char lex (CUR_CHAR lex) in Ret (lex, n_closing + 1)
        else
          let! lex :=
            if is_char (src lex) 92 then backslash (next lex) is_raw
            else add_byte lex (CUR_CHAR lex) in
          Ret (lex, 0) in
      literal_loop fuel (next lex) quote_char num_quotes is_raw n_closing
    else Ret (lex, n_closing)
  end.

Definition parse_string_literal lex (is_raw : bool) : outcome mp_lexer_t :=
  let quote_char := if is_char (src lex) 34 then 34 else 39 in
  let lex := next lex in
  let '(lex, num_quotes) :=
    if is_char_and (src lex) quote_char quote_char then (next (next lex), 3) else (lex, 1) in
  let! '(lex, n_closing) := literal_loop (loop_fuel (src lex)) lex quote_char num_quotes is_raw 0 in
  let lex := if n_closing <? num_quotes then set_kind lex MP_TOKEN_LONELY_STRING_OPEN else lex in
  Ret (set_vstr lex (vstr_cut_tail_bytes (vstr lex) n_closing)).

Definition skip_whitespace lex (stop_at_newline : bool) : outcome (mp_lexer_t * bool) :=
  let! '(s, had) := skip_whitespace_loop (loop_fuel (src lex)) (src lex)
                      (stop_at_newline && (nested_bracket_level lex =? 0)) false in
  Ret (set_src lex s, had).

(** The type codes of a literal: raw, kind and number of characters. *)
Definition type_codes (s : stream_t) : bool * mp_token_kind_t * nat :=
  if is_char s 117 then (false, MP_TOKEN_STRING, 1%nat)
  else if is_char s 98 then
    if is_char_following s 114 then (true, MP_TOKEN_BYTES, 2%nat) else (false, MP_TOKEN_BYTES, 1%nat)
  else if is_char s 114 then
    if is_char_following s 98 then (true, MP_TOKEN_BYTES, 2%nat) else (true, MP_TOKEN_STRING, 1%nat)
  else (false, MP_TOKEN_STRING, 0%nat).

(** Adjacent literals of one kind are one token. *)
Fixpoint literals (fuel : nat) lex : outcome mp_lexer_t :=
  match fuel with
  | O => OutOfFuel
  | S fuel =>
    let '(is_raw, kind, n_char) := type_codes (src lex) in
    if bool_decide (tok_kind lex = MP_TOKEN_END) || bool_decide (tok_kind lex = kind) then
      let lex := set_kind lex kind in
      let lex := match n_char with O => lex | 1%nat => next lex | _ => next (next lex) end in
      let! lex := parse_string_literal lex is_raw in
      let! '(lex, _) := skip_whitespace lex true in
      if is_string_or_bytes (src lex) then literals fuel lex else Ret lex
    else Ret lex
  end.

Definition string_token lex : outcome mp_lexer_t :=
  literals (loop_fuel (src lex)) (set_kind lex MP_TOKEN_END).

(** ** Names and keywords *)

Fixpoint name_tail (fuel : nat) lex : outcome mp_lexer_t :=
  match fuel with
  | O => OutOfFuel
  | S fuel =>
    if negb (is_end (src lex)) && is_tail_of_identifier (src lex) then
      let! lex := add_byte lex (CUR_CHAR lex) in name_tail fuel (next lex)
    else Ret lex
  end.

(** C's [strcmp] on arrays that contain the terminator. *)
Fixpoint strcmp (s t : list Z) : outcome Z :=
  match s, t with
  | a :: s, b :: t => if negb (a =? b) then Ret (a - b) else if a =? 0 then Ret 0 else strcmp s t
  | _, _ => Undef
  end.

(** The search in the sorted table of keywords, from the keyword of kind [MP_TOKEN_KW_FALSE + i]. *)
Fixpoint keyword_search (kws : list string) (i : nat) (s : list Z) : outcome (option mp_token_kind_t) :=
  match kws with
  | [] => Ret None
  | kw :: kws =>
    let! cmp := strcmp s (chars kw ++ [0]) in
    if cmp =? 0 then
      let! kind := token_of_code (token_code MP_TOKEN_KW_FALSE + i) in
      Ret (Some (if bool_decide (kind = MP_TOKEN_KW___DEBUG__)
                 then if mp_optimise_value =? 0 then MP_TOKEN_KW_TRUE else MP_TOKEN_KW_FALSE
                 else kind))
    else if cmp <? 0 then Ret None
    else keyword_search kws (i + 1) s
  end.

Definition name_token lex : outcome mp_lexer_t :=
  let lex := set_kind lex MP_TOKEN_NAME in
  let! lex := add_byte lex (CUR_CHAR lex) in
  let lex := next lex in
  let! lex := name_tail (loop_fuel (src lex)) lex in
  let! v := vstr_null_terminated_str (vstr lex) in
  let lex := set_vstr lex v in
  let! k := keyword_search tok_kw 0 (buf v) in
  Ret (match k with Some k => set_kind lex k | None => lex end).

(** ** Numbers *)

Fixpoint number_tail (fuel : nat) lex (forced_integer : bool) : outcome mp_lexer_t :=
  match fuel with
  | O => OutOfFuel
  | S fuel =>
    if is_end (src lex) then Ret lex
    else if negb forced_integer && is_char_or (src lex) 101 69 then
      let lex := set_kind lex MP_TOKEN_FLOAT_OR_IMAG in
      let! lex := add_char lex 101 in
      let lex := next lex in
      let! lex :=
        if is_char (src lex) 43 || is_char (src lex) 45 then
          let! lex := add_char lex (CUR_CHAR lex) in Ret (next lex)
        else Ret lex in
      number_tail fuel lex forced_integer
    else if is_letter (src lex) || is_digit (src lex) || is_char (src lex) 46 then
      let lex := if is_char_or3 (src lex) 46 106 74 then set_kind lex MP_TOKEN_FLOAT_OR_IMAG else lex in
      let! lex := add_char lex (CUR_CHAR lex) in
      number_tail fuel (next lex) forced_integer
    else if is_char (src lex) 95 then number_tail fuel (next lex) forced_integer
    else Ret lex
  end.

Definition number_token lex : outcome mp_lexer_t :=
  let forced_integer := negb (is_char (src lex) 46) && is_char (src lex) 48 && is_following_base_char (src lex) in
  let lex := set_kind lex (if is_char (src lex) 46 then MP_TOKEN_FLOAT_OR_IMAG else MP_TOKEN_INTEGER) in
  let! lex := add_char lex (CUR_CHAR lex) in
  let lex := next lex in
  number_tail (loop_fuel (src lex)) lex forced_integer.

(** ** Operators and delimiters; [c] and [e] are 99 and 101 *)

(** The position in [tok_enc] of the first operator that begins with the character, and the index of
    its kind. *)
Fixpoint operator_search (t : list Z) (s : stream_t) (tok_enc_index : nat) : list Z * nat :=
  match t with
  | [] => ([], tok_enc_index)
  | x :: t' =>
    if is_char s x then (t, tok_enc_index)
    else if (x =? 101) || (x =? 99) then
      match t' with [] => ([], tok_enc_index) | _ :: t' => operator_search t' s (tok_enc_index + 1) end
    else operator_search t' s (tok_enc_index + 1)
  end.

(** The longest continuation. *)
Fixpoint operator_longest (t : list Z) (s : stream_t) (t_index tok_enc_index : nat) : stream_t * nat :=
  match t with
  | m :: x :: t =>
    if (m =? 99) || (m =? 101) then
      let t_index := (t_index + 1)%nat in
      if is_char s x then
        let s := next_char s in
        if m =? 101 then (s, t_index) else operator_longest t s t_index t_index
      else if m =? 99 then (s, tok_enc_index)
      else operator_longest t s t_index tok_enc_index
    else (s, tok_enc_index)
  | _ => (s, tok_enc_index)
  end.

Definition opens (k : mp_token_kind_t) : bool :=
  match k with MP_TOKEN_DEL_PAREN_OPEN | MP_TOKEN_DEL_BRACKET_OPEN | MP_TOKEN_DEL_BRACE_OPEN => true | _ => false end.
Definition closes (k : mp_token_kind_t) : bool :=
  match k with MP_TOKEN_DEL_PAREN_CLOSE | MP_TOKEN_DEL_BRACKET_CLOSE | MP_TOKEN_DEL_BRACE_CLOSE => true | _ => false end.

Definition operator_token lex : outcome mp_lexer_t :=
  let '(t, tok_enc_index) := operator_search tok_enc (src lex) 0 in
  let lex := next lex in
  match t with
  | [] => Ret (set_kind lex MP_TOKEN_INVALID)
  | x :: t =>
    if x =? 33 then
      Ret (if is_char (src lex) 61 then set_kind (next lex) MP_TOKEN_OP_NOT_EQUAL else set_kind lex MP_TOKEN_INVALID)
    else if x =? 46 then
      Ret (if is_char_and (src lex) 46 46 then set_kind (next (next lex)) MP_TOKEN_ELLIPSIS
           else set_kind lex MP_TOKEN_DEL_PERIOD)
    else
      let '(s, tok_enc_index) := operator_longest t (src lex) tok_enc_index tok_enc_index in
      let! kind := rd tok_enc_kind (Z.of_nat tok_enc_index) in
      let lex := set_kind (set_src lex s) kind in
      if opens kind then let! n := sint (nested_bracket_level lex + 1) in Ret (set_nested lex n)
      else if closes kind then let! n := sint (nested_bracket_level lex - 1) in Ret (set_nested lex n)
      else Ret lex
  end.

(** ** The next token *)

(** Popping the levels that are deeper than the new line. *)
Fixpoint dedent (fuel : nat) lex (num_spaces : Z) : outcome mp_lexer_t :=
  match fuel with
  | O => OutOfFuel
  | S fuel =>
    let! top := indent_top lex in
    if num_spaces <? top then
      let lex := indent_pop lex in
      let! d := sint (emit_dent lex - 1) in
      dedent fuel (set_dent lex d) num_spaces
    else Ret lex
  end.

Definition newline_token lex : outcome mp_lexer_t :=
  let lex := set_kind lex MP_TOKEN_NEWLINE in
  let num_spaces := wrap 32 (column (src lex) - 1) in
  let! top := indent_top lex in
  if num_spaces =? top then Ret lex
  else if top <? num_spaces then
    let! lex := indent_push lex num_spaces in
    let! d := sint (emit_dent lex + 1) in Ret (set_dent lex d)
  else
    let! lex := dedent (S (length (indent_level lex))) lex num_spaces in
    let! top := indent_top lex in
    Ret (if negb (num_spaces =? top) then set_kind lex MP_TOKEN_DEDENT_MISMATCH else lex).

Definition mp_lexer_to_next lex : outcome mp_lexer_t :=
  let lex := set_vstr lex (vstr_reset (vstr lex)) in
  let! '(lex, had_physical_newline) := skip_whitespace lex false in
  let lex := set_position lex in
  if emit_dent lex <? 0 then
    let! d := sint (emit_dent lex + 1) in Ret (set_dent (set_kind lex MP_TOKEN_DEDENT) d)
  else if 0 <? emit_dent lex then
    let! d := sint (emit_dent lex - 1) in Ret (set_dent (set_kind lex MP_TOKEN_INDENT) d)
  else if had_physical_newline && (nested_bracket_level lex =? 0) then newline_token lex
  else if is_end (src lex) then Ret (set_kind lex MP_TOKEN_END)
  else if is_string_or_bytes (src lex) then string_token lex
  else if is_head_of_identifier (src lex) then name_token lex
  else if is_digit (src lex) || (is_char (src lex) 46 && is_following_digit (src lex)) then number_token lex
  else operator_token lex.

(** The size of [mp_lexer_t] and of [mp_reader_mem_t] on a machine with 32-bit words. *)
Definition sizeof_mp_lexer_t : Z := 84.
Definition sizeof_mp_reader_mem_t : Z := 16.

Definition mp_lexer_new (source : list Z) : outcome mp_lexer_t :=
  let! _ := m_malloc 1 sizeof_mp_lexer_t in
  let! levels := m_new 2 MICROPY_ALLOC_LEXER_INDENT_INIT in
  let! v := vstr_init 32 in
  let! levels := wr levels 0 0 in
  let s := mk_stream 0 0 0 source 1 (wrap 32 (-2)) in
  let s := next_char (next_char (next_char s)) in
  let! lex := mp_lexer_to_next
    (mk_lexer s 0 0 MICROPY_ALLOC_LEXER_INDENT_INIT 1 levels 0 0 MP_TOKEN_END v) in
  Ret (if negb (tok_column lex =? 1) then set_kind lex MP_TOKEN_INDENT else lex).

Definition mp_lexer_new_from_str_len (str : list Z) : outcome mp_lexer_t :=
  let! _ := m_malloc 1 sizeof_mp_reader_mem_t in mp_lexer_new str.

(** ** Reading all the tokens *)

(** A token as the parser sees it. *)
Definition token : Type := mp_token_kind_t * list Z.
Definition current lex : token := (tok_kind lex, Vstr.str (vstr lex)).

(** The parser's use of the lexer: the tokens from the current one to [MP_TOKEN_END]. *)
Fixpoint tokens (n : nat) lex : outcome (list token) :=
  match n with
  | O => OutOfFuel
  | S n =>
    if bool_decide (tok_kind lex = MP_TOKEN_END) then Ret [current lex]
    else
      let! lex' := mp_lexer_to_next lex in
      let! ts := tokens n lex' in Ret (current lex :: ts)
  end.
End Lexer.
