(* ===== verification/LexerStream.v ===== *)
(** * The character stream of the lexer

    Behind its three characters of lookahead the lexer reads a normalised source: [CR] and
    [CR LF] are [LF], and a final [LF] is added if it is missing.  [stream s] is what is left of
    it, and each [next_char] drops its head and advances the position by it. *)

From S2P Require Import Prelude Unicode Lexer.
Local Open Scope Z_scope.
Implicit Types (s : stream_t) (l : list Z).

(** ** The normalised source *)

(** What follows the character [prev]. *)
Fixpoint norm (prev : Z) l : list Z :=
  match l with
  | [] => if prev =? 10 then [] else [10]
  | c :: l' =>
    if c =? 13 then
      match l' with
      | d :: l'' => if d =? 10 then 10 :: norm 10 l'' else 10 :: norm 10 l'
      | [] => [10]
      end
    else c :: norm c l'
  end.

Definition normalise (source : list Z) : list Z := norm 0 source.

(** The first character or, at the end, [MP_LEXER_EOF]. *)
Definition peek l : Z := match l with [] => MP_LEXER_EOF | c :: _ => c end.

(** The position after a character. *)
Definition advance (pos : Z * Z) (c : Z) : Z * Z :=
  let '(line, column) := pos in
  if c =? 10 then (wrap 32 (line + 1), 1)
  else if c =? 9 then (line, wrap 32 (wrap 32 (column - 1 + 8) / 8 * 8 + 1))
  else (line, wrap 32 (column + 1)).

Lemma norm_cons prev c l : c <> 13 -> norm prev (c :: l) = c :: norm c l.
Proof. intros H. cbn [norm]. by rewrite (proj2 (Z.eqb_neq c 13)). Qed.

Lemma norm_cr prev l : norm prev (13 :: l) =
  10 :: match l with d :: l' => if d =? 10 then norm 10 l' else norm 10 l | [] => [] end.
Proof. cbn [norm Z.eqb Pos.eqb]. destruct l as [|d l]; [done|]. by destruct (d =? 10). Qed.

(** The length-indexed induction that the two-character step of [norm] needs. *)
Lemma norm_ind (P : Z -> list Z -> Prop) :
  (forall prev, P prev []) ->
  (forall prev c l, c <> 13 -> P c l -> P prev (c :: l)) ->
  (forall prev l, P 10 l -> P prev (13 :: 10 :: l)) ->
  (forall prev l, (forall l', l <> 10 :: l') -> P 10 l -> P prev (13 :: l)) ->
  forall l prev, P prev l.
Proof.
  intros H0 H1 H2 H3 l. remember (length l) as n eqn:E.
  revert l E. induction (lt_wf n) as [n _ IH]. intros l -> prev.
  assert (Hrec : forall l' prev, (length l' < length l)%nat -> P prev l') by eauto.
  destruct l as [|c l]; [apply H0|]. destruct (Z.eq_dec c 13) as [->|Hc]; [|apply H1; [done|]; apply Hrec; cbn; lia].
  destruct l as [|d l]; [apply H3; [done|apply H0]|].
  destruct (Z.eq_dec d 10) as [->|Hd]; [apply H2|apply H3; [congruence|]]; apply Hrec; cbn; lia.
Qed.

Lemma norm_cr_other prev l : (forall l', l <> 10 :: l') -> norm prev (13 :: l) = 10 :: norm 10 l.
Proof.
  intros H. rewrite norm_cr. destruct l as [|d l]; [done|].
  destruct (Z.eqb_spec d 10) as [->|]; [|done]. by destruct (H l).
Qed.

(** The normalised source has no [CR], and ends with a newline. *)
Lemma norm_chars l prev : Forall byte l -> Forall (fun c => byte c /\ c <> 13) (norm prev l).
Proof.
  revert l prev. apply (norm_ind (fun prev l => Forall byte l -> Forall (fun c => byte c /\ c <> 13) (norm prev l))).
  - intros prev _. cbn. destruct (prev =? 10); [constructor|]. repeat constructor; done.
  - intros prev c l Hc IH [Hb Hl]%list.Forall_cons. rewrite norm_cons by done. constructor; [done|by apply IH].
  - intros prev l IH [_ [_ Hl]%list.Forall_cons]%list.Forall_cons. rewrite norm_cr. cbn [Z.eqb Pos.eqb].
    constructor; [done|by apply IH].
  - intros prev l Hn IH [_ Hl]%list.Forall_cons. rewrite norm_cr_other by done. constructor; [done|by apply IH].
Qed.

Lemma norm_last l prev : norm prev l = [] /\ prev = 10 \/ exists l', norm prev l = l' ++ [10].
Proof.
  revert l prev. apply (norm_ind (fun prev l => norm prev l = [] /\ prev = 10 \/ exists l', norm prev l = l' ++ [10])).
  - intros prev. cbn. destruct (Z.eqb_spec prev 10); [by left|]. right. by exists [].
  - intros prev c l Hc IH. right. rewrite norm_cons by done.
    destruct IH as [[-> ->]|[l' ->]]; [by exists []|by exists (c :: l')].
  - intros prev l IH. right. rewrite norm_cr. cbn [Z.eqb Pos.eqb].
    destruct IH as [[-> _]|[l' ->]]; [by exists []|by exists (10 :: l')].
  - intros prev l Hn IH. right. rewrite norm_cr_other by done.
    destruct IH as [[-> _]|[l' ->]]; [by exists []|by exists (10 :: l')].
Qed.

Lemma norm_length l prev : (length (norm prev l) <= length l + 1)%nat.
Proof.
  revert l prev. apply (norm_ind (fun prev l => (length (norm prev l) <= length l + 1)%nat)).
  - intros prev. cbn. destruct (prev =? 10); cbn; lia.
  - intros prev c l Hc IH. rewrite norm_cons by done. cbn. lia.
  - intros prev l IH. rewrite norm_cr. cbn. lia.
  - intros prev l Hn IH. rewrite norm_cr_other by done. cbn. lia.
Qed.

(** A source without line ends gets only the final newline. *)
Lemma norm_plain l prev : prev <> 10 -> Forall (fun c => c <> 10 /\ c <> 13) l -> norm prev l = l ++ [10].
Proof.
  revert prev. induction l as [|c l IH]; intros prev Hp Hl.
  - cbn. by rewrite (proj2 (Z.eqb_neq prev 10)).
  - apply list.Forall_cons in Hl as [[? ?] ?]. rewrite norm_cons by done. cbn. f_equal. by apply IH.
Qed.

(** ** The stream behind the lookahead *)

Definition after0 s : list Z :=
  if chr1 s =? MP_LEXER_EOF then []
  else chr1 s :: if chr2 s =? MP_LEXER_EOF then [] else norm (chr1 s) (chr2 s :: input s).

Definition stream s : list Z := if chr0 s =? MP_LEXER_EOF then [] else chr0 s :: after0 s.

Definition char_or_eof (c : Z) : Prop := byte c \/ c = MP_LEXER_EOF.

Record stream_wf s : Prop := {
  wf_chr0 : char_or_eof (chr0 s); wf_chr1 : char_or_eof (chr1 s); wf_chr2 : char_or_eof (chr2 s);
  wf_input : Forall byte (input s);
  wf_cr : chr1 s <> 13;
  wf_eof0 : chr0 s = MP_LEXER_EOF -> chr1 s = MP_LEXER_EOF;
  wf_eof1 : chr1 s = MP_LEXER_EOF -> chr2 s = MP_LEXER_EOF /\ (chr0 s = 10 \/ chr0 s = MP_LEXER_EOF);
  wf_eof2 : chr2 s = MP_LEXER_EOF -> input s = [] /\ (chr1 s = 10 \/ chr1 s = MP_LEXER_EOF)
}.

Lemma byte_not_eof c : byte c -> c <> MP_LEXER_EOF.
Proof. unfold byte, MP_LEXER_EOF. lia. Qed.
#[local] Hint Resolve byte_not_eof : core.

Lemma next_char_position s : (line (next_char s), column (next_char s)) = advance (line s, column s) (chr0 s).
Proof.
  unfold next_char, advance. destruct (chr0 s =? 10), (chr0 s =? 9), (mp_reader_mem_readbyte (input s)) as [c2 i];
  destruct (chr2 s =? 13); try done; destruct (c2 =? 10); try done; by destruct (mp_reader_mem_readbyte i).
Qed.

(** What [next_char] leaves behind the character [c1], when it has read [c2] from a reader with
    [input] left after it: [c2], or the final newline. *)
Definition refill (c1 : Z) (input : list Z) : Z * list Z :=
  let '(c2, input) := mp_reader_mem_readbyte input in
  (if (c2 =? MP_LEXER_EOF) && negb (c1 =? MP_LEXER_EOF) && negb (c1 =? 10) then 10 else c2, input).

Lemma refill_norm c1 l : byte c1 -> Forall byte l ->
  let '(c2, i) := refill c1 l in
  char_or_eof c2 /\ Forall byte i /\ (c2 = MP_LEXER_EOF -> i = [] /\ c1 = 10) /\
  (if c2 =? MP_LEXER_EOF then [] else norm c1 (c2 :: i)) = norm c1 l.
Proof.
  intros H1 Hl. unfold refill. destruct l as [|b l]; cbn [mp_reader_mem_readbyte].
  - change (MP_LEXER_EOF =? MP_LEXER_EOF) with true.
    rewrite (proj2 (Z.eqb_neq c1 MP_LEXER_EOF)) by auto. cbn [negb andb].
    destruct (Z.eqb_spec c1 10) as [->|Hn]; cbn [negb].
    + split_and!; try done. by right.
    + split_and!; try done; [by left|]. rewrite norm_cons by done. cbn. by rewrite (proj2 (Z.eqb_neq c1 10)).
  - apply list.Forall_cons in Hl as [Hb Hl].
    rewrite (proj2 (Z.eqb_neq b MP_LEXER_EOF)) by auto. cbn [andb].
    rewrite (proj2 (Z.eqb_neq b MP_LEXER_EOF)) by auto.
    split_and!; try done; [by left|]. intros ->. by destruct (byte_not_eof MP_LEXER_EOF).
Qed.

Lemma next_char_fields s :
  let s' := next_char s in
  chr0 s' = chr1 s /\
  if chr2 s =? 13 then
    chr1 s' = 10 /\ (chr2 s', input s') =
      refill 10 (match input s with d :: l => if d =? 10 then l else d :: l | [] => [] end)
  else chr1 s' = chr2 s /\ (chr2 s', input s') = refill (chr2 s) (input s).
Proof.
  unfold next_char, refill.
  destruct (if chr0 s =? 10 then _ else _) as [ln col]. destruct (chr2 s =? 13).
  - destruct (input s) as [|d l]; cbn [mp_reader_mem_readbyte]; [done|].
    destruct (Z.eqb_spec d 10) as [->|Hd]; cbn [mp_reader_mem_readbyte];
      [by destruct (mp_reader_mem_readbyte l)|done].
  - by destruct (mp_reader_mem_readbyte (input s)).
Qed.

(** [next_char] drops the head of the stream. *)
Lemma next_char_ok s : stream_wf s -> chr0 s <> MP_LEXER_EOF ->
  stream_wf (next_char s) /\ stream (next_char s) = after0 s.
Proof.
  intros Hwf H0. pose proof (next_char_fields s) as [E0 Hf].
  destruct (next_char s) as [c0 c1 c2 i ln col]; cbn [chr0 chr1 chr2 input] in *. subst c0.
  unfold stream, after0; cbn [chr0 chr1 chr2 input].
  destruct (Z.eqb_spec (chr1 s) MP_LEXER_EOF) as [E1|E1].
  { destruct (wf_eof1 s Hwf E1) as [E2 ?]. destruct (wf_eof2 s Hwf E2) as [Ei _].
    rewrite E2, Ei in Hf. cbn in Hf. destruct Hf as [-> [= -> ->]]. split; [|done].
    split; cbn; rewrite ?E1; try done; first [by right | intros _; split; [done|by right]]. }
  destruct (Z.eqb_spec (chr2 s) MP_LEXER_EOF) as [E2|E2].
  { destruct (wf_eof2 s Hwf E2) as [Ei [Hnl|]]; [|done]. rewrite E2, Ei in Hf. cbn in Hf.
    destruct Hf as [-> [= -> ->]]. split; [|done].
    split; cbn; rewrite ?Hnl; try done; first [by right | by left | intros _; split; first [done | by left | by right]]. }
  destruct (wf_chr1 s Hwf) as [B1|]; [|done]. destruct (wf_chr2 s Hwf) as [B2|]; [|done].
  pose proof (wf_input s Hwf) as Bi.
  assert (exists b l, c1 = b /\ byte b /\ b <> 13 /\ Forall byte l /\ (c2, i) = refill b l /\
    norm (chr1 s) (chr2 s :: input s) = b :: norm b l) as (b & l & -> & Hb & Hb13 & Hl & Hr & ->).
  { destruct (Z.eqb_spec (chr2 s) 13) as [E|E].
    - destruct Hf as [-> Hf]. eexists _, _. split_and!; [done..| |exact Hf|].
      + destruct (input s) as [|d l]; [done|]. apply list.Forall_cons in Bi as [??].
        destruct (d =? 10); [done|by constructor].
      + rewrite E, norm_cr. destruct (input s) as [|d l]; [done|]. by destruct (d =? 10).
    - destruct Hf as [-> Hf]. eexists _, _. split_and!; [done..|exact Hf|]. by rewrite norm_cons. }
  pose proof (refill_norm b l Hb Hl) as H. rewrite <- Hr in H. destruct H as (C2 & Ci & He & Hn).
  rewrite (proj2 (Z.eqb_neq b MP_LEXER_EOF)) by auto. rewrite Hn. split; [|done].
  split; cbn [chr0 chr1 chr2 input]; try done; try (by left).
  - intros E. by destruct (byte_not_eof b).
  - intros E. destruct (He E). by split; [|left].
Qed.

(** ** Reading *)

(** [l] is what is left to read. *)
Record At s l : Prop := { At_wf : stream_wf s; At_stream : stream s = l }.

Definition ends_with_newline l : Prop := l = [] \/ exists l', l = l' ++ [10].

Lemma stream_chars s : stream_wf s -> Forall byte (stream s).
Proof.
  intros Hwf. unfold stream, after0.
  destruct (Z.eqb_spec (chr0 s) MP_LEXER_EOF); [done|]. destruct (wf_chr0 s Hwf); [|done]. constructor; [done|].
  destruct (Z.eqb_spec (chr1 s) MP_LEXER_EOF); [done|]. destruct (wf_chr1 s Hwf); [|done]. constructor; [done|].
  destruct (Z.eqb_spec (chr2 s) MP_LEXER_EOF); [done|]. destruct (wf_chr2 s Hwf); [|done].
  eapply list.Forall_impl; [apply norm_chars; constructor; [done|apply (wf_input s Hwf)]|]. by intros c [? _].
Qed.

Lemma stream_last s : stream_wf s -> ends_with_newline (stream s).
Proof.
  intros Hwf. unfold stream, after0, ends_with_newline.
  destruct (Z.eqb_spec (chr0 s) MP_LEXER_EOF); [by left|]. right.
  destruct (Z.eqb_spec (chr1 s) MP_LEXER_EOF) as [E1|E1].
  { destruct (wf_eof1 s Hwf E1) as [_ [->|]]; [by exists []|done]. }
  destruct (Z.eqb_spec (chr2 s) MP_LEXER_EOF) as [E2|E2].
  { destruct (wf_eof2 s Hwf E2) as [_ [->|]]; [by exists [chr0 s]|done]. }
  destruct (norm_last (chr2 s :: input s) (chr1 s)) as [[-> ->]|[l' ->]]; [by exists [chr0 s]|].
  by exists (chr0 s :: chr1 s :: l').
Qed.

Lemma stream_length s : (length (stream s) < loop_fuel s)%nat.
Proof.
  unfold stream, after0, loop_fuel. pose proof (norm_length (chr2 s :: input s) (chr1 s)) as H. cbn [length] in H.
  destruct (chr0 s =? _); cbn [length]; [lia|]. destruct (chr1 s =? _); cbn [length]; [lia|].
  destruct (chr2 s =? _); cbn [length]; lia.
Qed.

Section At.
Context (s : stream_t) (l : list Z) (H : At s l).

Lemma At_peek : chr0 s = peek l.
Proof. destruct H as [_ <-]. unfold stream. by destruct (Z.eqb_spec (chr0 s) MP_LEXER_EOF). Qed.

Lemma At_chars : Forall byte l.
Proof. destruct H as [Hwf <-]. by apply stream_chars. Qed.

Lemma At_last : ends_with_newline l.
Proof. destruct H as [Hwf <-]. by apply stream_last. Qed.

Lemma At_fuel : (length l < loop_fuel s)%nat.
Proof. destruct H as [_ <-]. apply stream_length. Qed.

Lemma At_is_char c : is_char s c = (peek l =? c).
Proof. unfold is_char. by rewrite At_peek. Qed.

Lemma At_is_end : is_end s = bool_decide (l = []).
Proof.
  unfold is_end. rewrite At_peek. pose proof At_chars as Hc. destruct l as [|c l']; [done|].
  apply list.Forall_cons in Hc as [Hc _]. cbn [peek]. rewrite (proj2 (Z.eqb_neq c _)) by auto. done.
Qed.
End At.

Lemma At_after s c l : At s (c :: l) -> after0 s = l /\ chr0 s = c /\ c <> MP_LEXER_EOF.
Proof.
  intros H. pose proof (At_peek _ _ H) as E. pose proof (At_chars _ _ H) as Hc. destruct H as [_ H].
  apply list.Forall_cons in Hc as [Hc _]. unfold stream in H. destruct (Z.eqb_spec (chr0 s) MP_LEXER_EOF); [done|].
  injection H as H1 H2. split_and!; auto.
Qed.

Lemma At_next s c l : At s (c :: l) -> At (next_char s) l.
Proof.
  intros H. pose proof (At_after _ _ _ H) as (Ha & E & Hc). destruct (next_char_ok s) as [H1 H2]; [apply H|congruence|].
  split; congruence.
Qed.

Lemma At_peek1 s c l : At s (c :: l) -> chr1 s = peek l.
Proof.
  intros H. pose proof (At_after _ _ _ H) as (<- & _ & _). unfold after0.
  by destruct (Z.eqb_spec (chr1 s) MP_LEXER_EOF).
Qed.

(** A character other than a newline is followed by one. *)
Lemma At_more s c l : At s (c :: l) -> c <> 10 -> exists d l', l = d :: l'.
Proof.
  intros H Hc. destruct l as [|d l]; [|by exists d, l]. destruct (At_last _ _ H) as [|[l' E]]; [done|].
  destruct l' as [|a [|b l']]; cbn in E; congruence.
Qed.

(** The third character is read before its line end is converted. *)
Lemma At_peek2 s b c l d : At s (b :: c :: l) -> d <> 13 -> d <> 10 -> (chr2 s =? d) = (peek l =? d).
Proof.
  intros H Hd1 Hd2. pose proof (At_chars _ _ H) as Hb. pose proof (At_after _ _ _ H) as (Ha & _ & _). unfold after0 in Ha.
  destruct (Z.eqb_spec (chr1 s) MP_LEXER_EOF); [done|]. apply (f_equal (@tail Z)) in Ha. cbn [tail] in Ha.
  destruct (Z.eqb_spec (chr2 s) MP_LEXER_EOF) as [->|E2]; [by subst l|].
  destruct (Z.eq_dec (chr2 s) 13) as [E|E].
  - rewrite E, norm_cr in Ha. subst l. rewrite E. cbn [peek]. by rewrite !(proj2 (Z.eqb_neq _ d)) by done.
  - rewrite norm_cons in Ha by done. by subst l.
Qed.

(** From [s], the characters [cs] are read and lead to [s']. *)
Definition reads s (cs : list Z) s' : Prop :=
  exists l, At s (cs ++ l) /\ At s' l /\ (line s', column s') = foldl advance (line s, column s) cs.

Lemma reads_refl s l : At s l -> reads s [] s.
Proof. by exists l. Qed.

Lemma reads_next s c l : At s (c :: l) -> reads s [c] (next_char s).
Proof.
  intros H. exists l. split_and!; [done|by apply (At_next s c)|]. cbn [foldl].
  rewrite next_char_position. f_equal. by destruct (At_after _ _ _ H) as (_ & -> & _).
Qed.

Lemma reads_trans s1 s2 s3 cs1 cs2 : reads s1 cs1 s2 -> reads s2 cs2 s3 -> reads s1 (cs1 ++ cs2) s3.
Proof.
  intros (l1 & A1 & B1 & P1) (l2 & A2 & B2 & P2). exists l2. split_and!; [|done|].
  - rewrite <- app_assoc. destruct B1 as [_ E1], A2 as [_ E2]. by rewrite <- E2, E1.
  - by rewrite foldl_app, <- P1.
Qed.

Lemma reads_At s cs s' l : reads s cs s' -> At s' l -> At s (cs ++ l).
Proof. intros (l' & A & [_ E] & _) [_ E']. congruence. Qed.

Lemma reads_At_l s cs s' l : reads s cs s' -> At s l -> exists l', l = cs ++ l' /\ At s' l'.
Proof. intros (l' & [_ E] & A & _) [_ E']. exists l'. split; [congruence|done]. Qed.

(** The lexer starts at the normalised source, at line 1 and column 1. *)
Lemma initial_At source : Forall byte source ->
  let s := next_char (next_char (next_char (mk_stream 0 0 0 source 1 (wrap 32 (-2))))) in
  At s (normalise source) /\ (line s, column s) = (1, 1).
Proof.
  intros Hs s. set (s0 := mk_stream 0 0 0 source 1 (wrap 32 (-2))) in *.
  assert (A0 : At s0 (0 :: 0 :: 0 :: normalise source)).
  { split; [split; cbn; try done; by left|]. cbv [stream after0 s0]. cbn [chr0 chr1 chr2 input].
    unfold normalise. by rewrite norm_cons by done. }
  pose proof (reads_next _ _ _ A0) as R0. apply At_next in A0.
  pose proof (reads_next _ _ _ A0) as R1. apply At_next in A0.
  pose proof (reads_next _ _ _ A0) as R2. apply At_next in A0. split; [done|].
  destruct (reads_trans _ _ _ _ _ R0 (reads_trans _ _ _ _ _ R1 R2)) as (l & _ & _ & E). exact E.
Qed.

(** ** The tests on the current characters, from what is left *)

Lemma At_nil s : At s [] -> is_end s = true /\ chr0 s = MP_LEXER_EOF.
Proof. intros H. split; [by rewrite (At_is_end s [] H)|by rewrite (At_peek s [] H)]. Qed.

Lemma At_cons s c l : At s (c :: l) -> is_end s = false /\ chr0 s = c /\ chr1 s = peek l.
Proof.
  intros H. split_and!; [by rewrite (At_is_end _ _ H)|by rewrite (At_peek _ _ H)|by apply (At_peek1 _ _ _ H)].
Qed.

(** Replace the tests by comparisons of characters; [H] is an [At] hypothesis on a known list. *)
Ltac at_tests H :=
  let E := fresh "E" in let E0 := fresh "E" in let E1 := fresh "E" in
  first [ destruct (At_cons _ _ _ H) as (E & E0 & E1) | destruct (At_nil _ H) as (E & E0); assert (E1 := E) ];
  unfold is_tail_of_identifier, is_head_of_identifier, is_physical_newline, is_char, is_char_or, is_char_or3,
    is_char_following, is_char_following_or, is_char_and, is_whitespace, is_letter, is_digit, is_following_digit,
    is_following_odigit in *;
  rewrite ?E, ?E0, ?E1; cbn [negb andb orb]; clear E E0 E1.
