(* ===== verification/LexerText.v ===== *)
(** * The loops of the lexer: white space, literals and numbers

    Every loop of the lexer stops within its fuel, because each turn reads a character of the
    stream ([LexerStream.v]), and the text it builds never gets longer than what it has read
    ([txt]), so that the string buffer does not overflow. *)

From Stdlib Require Import String.
From S2P Require Import Prelude Malloc Unicode Vstr SmallInt Token Lexer LexerStream.
Local Open Scope Z_scope.

(** The outcome is one of the exceptions [E], or a value that satisfies [P]. *)
Definition safely {A} (E : list exn) (P : A -> Prop) (m : outcome A) : Prop :=
  match m with Ret a => P a | Raise e => e ∈ E | _ => False end.

Lemma safely_bind {A B} E (P : A -> Prop) (Q : B -> Prop) m f :
  safely E P m -> (forall a, P a -> safely E Q (f a)) -> safely E Q (obind m f).
Proof. destruct m; cbn; auto. Qed.

Lemma safely_weaken {A} E E' (P Q : A -> Prop) m :
  safely E P m -> E ⊆ E' -> (forall a, P a -> Q a) -> safely E' Q m.
Proof. destruct m; cbn; auto. Qed.

Lemma safely_ret {A} E (P : A -> Prop) a : P a -> safely E P (Ret a).
Proof. done. Qed.

(** No loop makes an indentation token of another one. *)
Definition text_kind (k0 k : mp_token_kind_t) : Prop := k = k0 \/ (k <> MP_TOKEN_INDENT /\ k <> MP_TOKEN_DEDENT).
Ltac text_kind := first [done | by left | by right].

Lemma text_kind_trans k0 k1 k2 : text_kind k0 k1 -> text_kind k1 k2 -> text_kind k0 k2.
Proof. intros H1 [->|H2]; [done|by right]. Qed.

Section LexerText.
Context {allocator : Allocator Z}.
Implicit Types (lex : mp_lexer_t) (s : stream_t) (v : vstr_t).

(** ** Skipping white space *)

Lemma skip_comment_ok fuel s l : At s l -> (length l < fuel)%nat ->
  exists cs s' l', skip_comment fuel s = Ret s' /\ reads s cs s' /\ At s' l' /\ l = cs ++ l' /\
    Forall (fun c => c <> 10) cs /\ (peek l' = 10 \/ l' = []).
Proof.
  revert s l. induction fuel as [|fuel IH]; intros s l H Hf; [lia|]. cbn [skip_comment]. destruct l as [|c l].
  - at_tests H. exists [], s, []. split_and!; try done; [by apply reads_refl with []|by right].
  - at_tests H. destruct (Z.eqb_spec c 10) as [->|Hc]; cbn [negb].
    + exists [], s, (10 :: l). split_and!; try done; [by apply reads_refl with (10 :: l)|by left].
    + destruct (IH (next_char s) l) as (cs & s' & l' & -> & R & A & -> & F & D); [by apply (At_next s c)|simpl in Hf; lia|].
      exists (c :: cs), s', l'. split_and!; try done; [|by constructor].
      by apply (reads_trans s (next_char s) s' [c] cs); [apply (reads_next _ _ _ H)|].
Qed.

(** Where skipping stops: at the end, at a newline if asked to, or at the first character of a token. *)
Definition at_token l : Prop :=
  unichar_isspace (peek l) = false /\ peek l <> 10 /\ peek l <> 35 /\ ~ (peek l = 92 /\ peek (tail l) = 10).
Definition skipped (stop : bool) l : Prop := l = [] \/ stop = true /\ peek l = 10 \/ l <> [] /\ at_token l.

Lemma skip_loop_ok fuel s l stop had : At s l -> (length l < fuel)%nat ->
  exists cs s' l' had', skip_whitespace_loop fuel s stop had = Ret (s', had') /\ reads s cs s' /\ At s' l' /\
    l = cs ++ l' /\ skipped stop l' /\ (had' = true -> had = true \/ cs <> []).
Proof.
  revert s l had. induction fuel as [|fuel IH]; intros s l had H Hf; [lia|]. cbn [skip_whitespace_loop].
  (* a turn that reads [cs] *)
  assert (Hturn : forall cs s1 l1 had1, reads s cs s1 -> At s1 l1 -> l = cs ++ l1 -> cs <> [] ->
    exists cs' s' l' had', skip_whitespace_loop fuel s1 stop had1 = Ret (s', had') /\ reads s cs' s' /\ At s' l' /\
      l = cs' ++ l' /\ skipped stop l' /\ (had' = true -> had = true \/ cs' <> [])).
  { intros cs s1 l1 had1 R A -> Hne. destruct (IH s1 l1 had1) as (cs' & s' & l' & had' & E & R' & A' & -> & D & _);
      [done|destruct cs; [done|]; rewrite length_app in Hf; simpl in Hf; lia|].
    exists (cs ++ cs'), s', l', had'. split_and!; try done; [by apply (reads_trans s s1 s')|by rewrite app_assoc|].
    right. by destruct cs. }
  assert (Hstay : skipped stop l -> exists cs' s' l' had', Ret (s, had) = Ret (s', had') /\ reads s cs' s' /\ At s' l' /\
      l = cs' ++ l' /\ skipped stop l' /\ (had' = true -> had = true \/ cs' <> [])).
  { intros D. exists [], s, l, had. split_and!; try done; [by apply reads_refl with l|by left]. }
  destruct l as [|c l]; [at_tests H; apply Hstay; by left|]. at_tests H.
  assert (R1 : reads s [c] (next_char s)) by apply (reads_next _ _ _ H).
  assert (A1 : At (next_char s) l) by apply (At_next s c l H).
  destruct (Z.eqb_spec c 10) as [->|Hc].
  { destruct stop; [apply Hstay; right; by left|]. by apply (Hturn [10] (next_char s) l). }
  destruct (unichar_isspace c) eqn:Hs; [by apply (Hturn [c] (next_char s) l)|].
  destruct (Z.eqb_spec c 35) as [->|Hh].
  { destruct (skip_comment_ok (loop_fuel (next_char s)) (next_char s) l A1 (At_fuel _ _ A1))
      as (cs & s2 & l2 & -> & R2 & A2 & -> & _). cbn [obind].
    apply (Hturn (35 :: cs) s2 l2); try done. by apply (reads_trans s (next_char s) s2 [35] cs). }
  destruct (Z.eqb_spec c 92) as [->|Hb]; cbn [andb].
  - destruct (Z.eqb_spec (peek l) 10) as [E|E].
    + destruct l as [|d l]; [done|]. cbn in E. subst d.
      apply (Hturn [92; 10] (next_char (next_char s)) l); try done; [|by apply (At_next _ 10 l)].
      by apply (reads_trans s (next_char s) _ [92] [10]); [|apply (reads_next _ _ _ A1)].
    + apply Hstay. right; right. split; [done|]. split_and!; try done. by intros [_ ?].
  - apply Hstay. right; right. split; [done|]. split_and!; try done. by intros [? _].
Qed.

Lemma skip_whitespace_ok lex l stop_at_newline : At (src lex) l ->
  exists cs s' l' had, skip_whitespace lex stop_at_newline = Ret (set_src lex s', had) /\ reads (src lex) cs s' /\
    At s' l' /\ l = cs ++ l' /\ skipped (stop_at_newline && (nested_bracket_level lex =? 0)) l' /\ (had = true -> cs <> []).
Proof.
  intros H. unfold skip_whitespace.
  destruct (skip_loop_ok (loop_fuel (src lex)) (src lex) l (stop_at_newline && (nested_bracket_level lex =? 0)) false H
    (At_fuel _ _ H)) as (cs & s' & l' & had & -> & R & A & E & D & Hh). cbn [obind].
  exists cs, s', l', had. split_and!; try done. intros Ht. by destruct (Hh Ht).
Qed.

(** ** Reading text

    The string being built never gets longer than what has been read, up to a slack: [txt n d]
    reads [n] characters at least and lets the length of the string and of the stream together
    grow by [d] at most. *)

Definition upd lex s v k : mp_lexer_t :=
  mk_lexer s (emit_dent lex) (nested_bracket_level lex) (alloc_indent_level lex) (num_indent_level lex)
    (indent_level lex) (tok_line lex) (tok_column lex) k v.

Definition left_of lex : Z := Z.of_nat (length (stream (src lex))).

Record ready (d : Z) lex : Prop := {
  ready_src : stream_wf (src lex);
  ready_vstr : Vstr.wf (vstr lex);
  ready_buf : fixed_buf (vstr lex) = false;
  ready_room : len (vstr lex) + left_of lex <= 2 ^ 31 + d
}.

Definition txt (n : nat) (d : Z) lex lex' : Prop :=
  exists cs s v k, lex' = upd lex s v k /\ reads (src lex) cs s /\ (n <= length cs)%nat /\
    Vstr.wf v /\ fixed_buf v = false /\ text_kind (tok_kind lex) k /\ len v + left_of lex' <= len (vstr lex) + left_of lex + d.

Lemma txt_ready n d e lex lex' : txt n d lex lex' -> ready e lex -> ready (e + d) lex'.
Proof.
  intros (cs & s & v & k & -> & (l & _ & [A _] & _) & _ & Hv & Hf & _ & Hr) [_ _ _ Hr0].
  split; try done. cbn [vstr upd] in *. lia.
Qed.

Lemma txt_ready0 n d e lex lex' : txt n d lex lex' -> d <= 0 -> ready e lex -> ready e lex'.
Proof. intros T Hd H. destruct (txt_ready n d e lex lex' T H) as [? ? ? ?]. split; try done. lia. Qed.

Lemma txt_shorter n d lex lex' : txt n d lex lex' -> (length (stream (src lex')) + n <= length (stream (src lex)))%nat.
Proof.
  intros (cs & s & v & k & -> & (l & [_ E] & [_ E'] & _) & Hn & _). cbn [src upd]. rewrite E, E', length_app. lia.
Qed.

Lemma txt_trans n1 n2 d1 d2 lex1 lex2 lex3 : txt n1 d1 lex1 lex2 -> txt n2 d2 lex2 lex3 ->
  txt (n1 + n2) (d1 + d2) lex1 lex3.
Proof.
  intros (cs1 & s1 & v1 & k1 & -> & R1 & Hn1 & _ & _ & K1 & H1) (cs2 & s2 & v2 & k2 & -> & R2 & Hn2 & Hv & Hf & K2 & H2).
  exists (cs1 ++ cs2), s2, v2, k2. split_and!; try done; [by apply (reads_trans _ s1)|rewrite length_app; lia|by eapply text_kind_trans|].
  cbn [vstr upd] in *. unfold left_of in *. cbn [src upd] in *. lia.
Qed.

Lemma txt_weaken n n' d d' lex lex' : txt n d lex lex' -> (n' <= n)%nat -> d <= d' -> txt n' d' lex lex'.
Proof.
  intros (cs & s & v & k & -> & R & Hn & Hv & Hf & K & H) Hle Hd.
  exists cs, s, v, k. split_and!; try done; lia.
Qed.

Lemma txt_kind e lex k : ready e lex -> text_kind (tok_kind lex) k -> txt 0 0 lex (set_kind lex k).
Proof.
  intros H K. exists [], (src lex), (vstr lex), k.
  split_and!; try apply H; [done|by apply reads_refl with (stream (src lex)); split; [apply H|]|done|done|].
  unfold left_of. cbn. lia.
Qed.

Lemma txt_refl e lex : ready e lex -> txt 0 0 lex lex.
Proof. intros H. pose proof (txt_kind e lex (tok_kind lex) H ltac:(text_kind)) as T. by destruct lex. Qed.

Lemma txt_src e lex cs s : ready e lex -> reads (src lex) cs s -> txt (length cs) (- Z.of_nat (length cs)) lex (set_src lex s).
Proof.
  intros H R. exists cs, s, (vstr lex), (tok_kind lex). split_and!; try apply H; [done|done|done|text_kind|].
  destruct R as (l & [_ E] & [_ E'] & _). unfold left_of. cbn [src set_src vstr]. rewrite E, E', length_app. lia.
Qed.

Lemma txt_next e lex c l : ready e lex -> At (src lex) (c :: l) -> txt 1 (-1) lex (next lex).
Proof. intros H A. apply (txt_src e lex [c]); [done|]. apply (reads_next _ _ _ A). Qed.

(** The text after a byte is added. *)
Lemma add_byte_text E e lex b : ready e lex -> e <= 64 -> MemoryError ∈ E ->
  safely E (fun lex' => exists v, lex' = set_vstr lex v /\ Vstr.wf v /\ fixed_buf v = false /\
    len v = len (vstr lex) + 1 /\ Vstr.str v = Vstr.str (vstr lex) ++ [wrap 8 b]) (add_byte lex b).
Proof.
  intros [Hs Hv Hf Hr] He HE. unfold add_byte, left_of in *.
  pose proof (vstr_add_byte_ok (vstr lex) (wrap 8 b) Hv ltac:(lia)) as H.
  destruct (vstr_add_byte _ _) as [v|[]| |]; cbn [obind safely]; try done; [|destruct H; congruence].
  destruct H as (H1 & H2 & H3 & H4). exists v. split_and!; try done; congruence.
Qed.

Lemma add_byte_ok E e lex b : ready e lex -> e <= 64 -> MemoryError ∈ E -> safely E (txt 0 1 lex) (add_byte lex b).
Proof.
  intros H He HE. eapply safely_weaken; [by apply (add_byte_text E e)|done|].
  intros lex' (v & -> & Hv & Hf & Hl & _). exists [], (src lex), v, (tok_kind lex).
  split_and!; try text_kind; [by apply reads_refl with (stream (src lex)); split; [apply H|]|].
  unfold left_of. cbn. lia.
Qed.

(** [vstr_add_char] converts to a byte once more, and [wrap 8] is idempotent. *)
Lemma add_char_byte lex c : add_char lex c = add_byte lex c.
Proof. done. Qed.

Lemma txt_then n1 n2 d1 d2 E lex lex1 m : txt n1 d1 lex lex1 -> safely E (txt n2 d2 lex1) m ->
  safely E (txt (n1 + n2) (d1 + d2) lex) m.
Proof. intros H1 H2. eapply safely_weaken; [done..|]. intros lex2. by apply txt_trans. Qed.

Lemma txt_bind n1 n2 d1 d2 E lex m f : safely E (txt n1 d1 lex) m ->
  (forall lex1, txt n1 d1 lex lex1 -> safely E (txt n2 d2 lex1) (f lex1)) ->
  safely E (txt (n1 + n2) (d1 + d2) lex) (obind m f).
Proof. intros H1 H2. eapply safely_bind; [done|]. intros lex1 T. eapply txt_then; eauto. Qed.

Lemma txt_loosen n n' d d' E lex m : safely E (txt n d lex) m -> (n' <= n)%nat -> d <= d' -> safely E (txt n' d' lex) m.
Proof. intros H Hn Hd. eapply safely_weaken; [done..|]. intros lex' T. by eapply txt_weaken. Qed.

(** ** String literals *)

Definition at_char s : Prop := stream s <> [].

Lemma at_char_At s : stream_wf s -> at_char s -> exists c l, At s (c :: l).
Proof. intros Hwf Hc. unfold at_char in Hc. destruct (stream s) as [|c l] eqn:E; [done|]. by exists c, l. Qed.

Lemma At_at_char s c l : At s (c :: l) -> at_char s.
Proof. intros [_ E]. unfold at_char. by rewrite E. Qed.

Lemma digit_not_newline c : unichar_isxdigit c = true -> c <> 10.
Proof. by intros H ->. Qed.

(** The digits of an escape end before the stream does. *)
Lemma get_hex_ok n s num c l : At s (c :: l) -> c <> 10 ->
  exists cs s' r, get_hex n s num = (s', r) /\ reads s cs s' /\ at_char s'.
Proof.
  revert s num c l. induction n as [|n IH]; intros s num c l H Hc; cbn [get_hex].
  { exists [], s, (Some num). split_and!; [done|by apply reads_refl with (c :: l)|by apply (At_at_char _ _ _ H)]. }
  destruct (At_more _ _ _ H Hc) as (d & l' & ->).
  pose proof (At_next _ _ _ H) as A. pose proof (reads_next _ _ _ H) as R.
  destruct (unichar_isxdigit (chr0 (next_char s))) eqn:Hx; cbn [negb].
  - destruct (At_cons _ _ _ A) as (_ & Ed & _). rewrite Ed in *.
    destruct (IH _ (wrap 32 (Z.shiftl num 4 + unichar_xdigit_value d)) d l' A (digit_not_newline _ Hx))
      as (cs & s' & r & E & R' & D).
    exists (c :: cs), s', r. split_and!; try done. by apply (reads_trans s (next_char s) s' [c] cs).
  - exists [c], (next_char s), None. split_and!; [done..|by apply (At_at_char _ _ _ A)].
Qed.

Lemma get_octal_ok n s num c l : At s (c :: l) ->
  exists cs s' num', get_octal n s num = (s', num') /\ reads s cs s' /\ at_char s'.
Proof.
  revert s num c l. induction n as [|n IH]; intros s num c l H; cbn [get_octal];
    [|destruct (is_following_odigit s) eqn:Hd];
    try (exists [], s, num; split_and!; [done|by apply reads_refl with (c :: l)|by apply (At_at_char _ _ _ H)]).
  unfold is_following_odigit in Hd. destruct (At_cons _ _ _ H) as (_ & _ & E1). rewrite E1 in Hd.
  destruct l as [|d l]; [done|].
  destruct (IH _ (wrap 32 (num * 8 + (chr0 (next_char s) - 48))) d l (At_next _ _ _ H)) as (cs & s' & r & E & R & D).
  exists (c :: cs), s', r. split_and!; try done.
  apply (reads_trans s (next_char s) s' [c] cs); [apply (reads_next _ _ _ H)|done].
Qed.

Definition lex_errors : list exn := [MemoryError; NotImplementedError].

Lemma memory_error : MemoryError ∈ lex_errors.
Proof. apply list_elem_of_here. Qed.
#[local] Hint Resolve memory_error : core.

(** An escape sequence leaves its last character to be read. *)
Definition escaped (d : Z) lex lex' : Prop := txt 0 d lex lex' /\ at_char (src lex').

Lemma add_byte_here e lex b : ready e lex -> e <= 64 -> at_char (src lex) ->
  safely lex_errors (escaped 1 lex) (add_byte lex b).
Proof.
  intros H He D. eapply safely_weaken; [by apply (add_byte_text lex_errors e)|done|].
  intros lex' (v & -> & Hv & Hf & Hl & _). split; [|done].
  exists [], (src lex), v, (tok_kind lex). split_and!; try text_kind;
    [by apply reads_refl with (stream (src lex)); split; [apply H|]|]. unfold left_of. cbn. lia.
Qed.

Lemma escape_sequence_ok e lex c l : ready e lex -> e <= 60 -> At (src lex) (c :: l) ->
  safely lex_errors (fun r => escaped 1 lex r.1) (escape_sequence lex).
Proof.
  intros H He A. unfold escape_sequence, CUR_CHAR. destruct (At_cons _ _ _ A) as (_ & -> & _).
  assert (Hhere : escaped 1 lex lex).
  { split; [by eapply txt_weaken; [by eapply txt_refl| |]|by apply (At_at_char _ _ _ A)]. }
  assert (Hread : forall cs s k, text_kind (tok_kind lex) k -> reads (src lex) cs s -> at_char s -> escaped 1 lex (set_kind (set_src lex s) k)).
  { intros cs s k K R D. split; [|done]. pose proof (txt_src e lex cs s H R) as T.
    eapply txt_weaken; [eapply txt_trans; [exact T|eapply txt_kind; [by eapply txt_ready|done]]|lia..]. }
  assert (Hadd : forall x : Z, safely lex_errors (fun r => escaped 1 lex r.1) (let! lex := add_byte lex 92 in Ret (lex, x))).
  { intros x. eapply safely_bind; [|by intros lex' ?]. apply (add_byte_here e); [done|lia|by apply (At_at_char _ _ _ A)]. }
  assert (Hkind : forall s, set_src lex s = set_kind (set_src lex s) (tok_kind lex)) by by destruct lex.
  destruct (c =? 10) eqn:Hc; [done|].
  repeat match goal with |- safely _ _ (if ?b then Ret (lex, _) else _) => destruct b; [done|] end.
  rewrite !add_char_byte. destruct (_ && bool_decide _); [apply Hadd|].
  destruct (_ || (c =? 120)); [|destruct (c =? 78); [by apply list_elem_of_further, list_elem_of_here|]].
  - destruct (get_hex_ok (if c =? 120 then 2 else if c =? 117 then 4 else 8) (src lex) 0 c l A)
      as (cs & s & r & -> & R & D); [by apply Z.eqb_neq|].
    destruct r; cbn [safely]; [rewrite Hkind|]; apply (Hread cs); text_kind.
  - destruct ((48 <=? c) && (c <=? 55)); [|apply Hadd].
    destruct (get_octal_ok 2 (src lex) (c - 48) c l A) as (cs & s & num & -> & R & D). cbn [safely].
    rewrite Hkind. apply (Hread cs); text_kind.
Qed.

Lemma backslash_ok e lex c l is_raw : ready e lex -> e <= 60 -> At (src lex) (c :: l) ->
  safely lex_errors (escaped 2 lex) (backslash lex is_raw).
Proof.
  intros H He A. unfold backslash.
  apply (safely_bind _ (fun r => escaped 1 lex r.1)).
  { destruct is_raw; [|by eapply escape_sequence_ok]. rewrite add_char_byte.
    eapply safely_bind; [|by intros lex' ?]. apply (add_byte_here e); [done|lia|by apply (At_at_char _ _ _ A)]. }
  intros [lex1 x] [T D]. cbn [fst] in *. pose proof (txt_ready _ _ _ _ _ T H) as H1.
  destruct (negb _); [destruct (x <? 0x100)|].
  - eapply safely_weaken; [apply (add_byte_here (e + 1)); [done|lia|done]|done|].
    intros lex' [T' D']. split; [|done]. by apply (txt_trans 0 0 1 1 lex lex1).
  - split; [|done]. eapply txt_weaken; [eapply txt_trans; [exact T|eapply txt_kind; [done|text_kind]]|lia..].
  - split; [|done]. by eapply txt_weaken.
Qed.

(** One character of a literal, or an escape sequence. *)
Lemma literal_step e lex c l quote_char is_raw n : ready e lex -> e <= 50 -> At (src lex) (c :: l) ->
  safely lex_errors (fun r => escaped 1 lex r.1)
    (if is_char (src lex) quote_char then
       let! lex := add_char lex (CUR_CHAR lex) in Ret (lex, n + 1)
     else
       let! lex :=
         if is_char (src lex) 92 then backslash (next lex) is_raw
         else add_byte lex (CUR_CHAR lex) in
       Ret (lex, 0)).
Proof.
  intros H He A. pose proof (At_at_char _ _ _ A) as D. destruct (is_char (src lex) quote_char).
  { rewrite add_char_byte. eapply safely_bind; [apply (add_byte_here e); [done|lia|done]|]. by intros lex' ?. }
  apply (safely_bind _ (escaped 1 lex)); [|by intros lex' ?].
  unfold is_char. destruct (At_cons _ _ _ A) as (_ & -> & _).
  destruct (Z.eqb_spec c 92) as [->|_]; [|by apply (add_byte_here e); [done|lia|]].
  destruct (At_more _ _ _ A) as (d & l' & ->); [done|].
  pose proof (txt_next _ _ _ _ H A) as T1.
  eapply safely_weaken; [eapply backslash_ok; [by eapply txt_ready|lia|apply (At_next _ _ _ A)]|done|].
  intros lex' [T D']. split; [|done]. eapply txt_weaken; [by eapply txt_trans|lia..].
Qed.

Lemma literal_loop_ok fuel e lex quote_char num_quotes is_raw n :
  ready e lex -> e <= 50 -> (length (stream (src lex)) < fuel)%nat ->
  safely lex_errors (fun r => txt 0 0 lex r.1) (literal_loop fuel lex quote_char num_quotes is_raw n).
Proof.
  revert lex n. induction fuel as [|fuel IH]; intros lex n H He Hf; [lia|]. cbn [literal_loop].
  destruct (_ && _ && _) eqn:Hc; [|by eapply txt_refl].
  destruct (stream (src lex)) as [|c l] eqn:El.
  { assert (A : At (src lex) []) by (split; [apply H|done]). rewrite (proj1 (At_nil _ A)) in Hc. done. }
  assert (A : At (src lex) (c :: l)) by (split; [apply H|done]).
  eapply safely_bind; [by eapply literal_step|]. intros [lex1 n1] [T D]. cbn [fst] in *.
  pose proof (txt_ready _ _ _ _ _ T H) as H1.
  destruct (at_char_At (src lex1)) as (c1 & l1 & A1); [apply H1|done|].
  pose proof (txt_next _ _ _ _ H1 A1) as T1. pose proof (txt_trans _ _ _ _ _ _ _ T T1) as T2.
  pose proof (txt_shorter _ _ _ _ T2) as Hl. rewrite El in Hl.
  eapply safely_weaken; [apply IH; [eapply txt_ready0; [done|lia|done]|lia|cbn in *; lia]|done|].
  intros r T3. eapply txt_weaken; [exact (txt_trans _ _ _ _ _ _ _ T2 T3)|lia..].
Qed.

(** What the vstr functions that cannot fail do to the text. *)
Lemma txt_vstr e lex v k : ready e lex -> Vstr.wf v -> fixed_buf v = false -> len v <= len (vstr lex) ->
  text_kind (tok_kind lex) k -> txt 0 0 lex (set_kind (set_vstr lex v) k).
Proof.
  intros H Hv Hf Hl K. exists [], (src lex), v, k.
  split_and!; try done; [by apply reads_refl with (stream (src lex)); split; [apply H|]|]. unfold left_of. cbn. lia.
Qed.

Lemma cut_tail_wf v n : Vstr.wf v -> 0 <= n ->
  Vstr.wf (vstr_cut_tail_bytes v n) /\ fixed_buf (vstr_cut_tail_bytes v n) = fixed_buf v /\
  len (vstr_cut_tail_bytes v n) <= len v.
Proof.
  intros Hv Hn. pose proof (Vstr.wf_len _ Hv). pose proof (Vstr.wf_buf _ Hv). pose proof (Vstr.wf_alloc _ Hv).
  unfold vstr_cut_tail_bytes. destruct (Z.ltb_spec (len v) n); split_and!; cbn; try done; try lia; split; cbn; lia.
Qed.

Lemma literal_loop_closing fuel lex quote_char num_quotes is_raw n lex' n' : 0 <= n ->
  literal_loop fuel lex quote_char num_quotes is_raw n = Ret (lex', n') -> 0 <= n'.
Proof.
  revert lex n. induction fuel as [|fuel IH]; intros lex n Hn; cbn [literal_loop]; [done|].
  destruct (_ && _ && _); [|congruence]. destruct (is_char (src lex) quote_char).
  - destruct (add_char _ _); cbn [obind]; try done. apply IH. lia.
  - destruct (if is_char (src lex) 92 then _ else _); cbn [obind]; try done. by apply IH.
Qed.

Lemma parse_string_literal_ok e lex q l is_raw : ready e lex -> e <= 50 -> At (src lex) (q :: l) -> q = 34 \/ q = 39 ->
  safely lex_errors (txt 1 0 lex) (parse_string_literal lex is_raw).
Proof.
  intros H He A Hq. unfold parse_string_literal. set (quote_char := if is_char (src lex) 34 then 34 else 39).
  pose proof (txt_next _ _ _ _ H A) as T1. assert (H1 : ready e (next lex)) by (eapply txt_ready0; [done|lia|done]).
  destruct (At_more _ _ _ A) as (c & l' & ->); [lia|]. pose proof (At_next _ _ _ A) as A1.
  (* after the opening quotes *)
  assert (Hopen : exists lex2 num_quotes, txt 1 0 lex lex2 /\
    (if is_char_and (src (next lex)) quote_char quote_char then (next (next (next lex)), 3) else (next lex, 1))
    = (lex2, num_quotes)).
  { unfold is_char_and. change (src (next lex)) with (next_char (src lex)). destruct (At_cons _ _ _ A1) as (_ & -> & ->).
    destruct (Z.eqb_spec c quote_char) as [->|]; cbn [andb];
      [destruct (Z.eqb_spec (peek l') quote_char) as [E|]|];
      try (eexists _, _; split; [|done]; eapply txt_weaken; [exact T1|lia..]).
    destruct l' as [|d l']; [by unfold quote_char in E; destruct (is_char (src lex) 34)|].
    eexists _, _; split; [|done].
    pose proof (txt_next _ _ _ _ H1 A1) as T2. assert (H2 : ready e (next (next lex))) by (eapply txt_ready0; [done|lia|done]).
    pose proof (txt_next _ (next (next lex)) _ _ H2 (At_next _ _ _ A1)) as T3.
    eapply txt_weaken; [exact (txt_trans _ _ _ _ _ _ _ (txt_trans _ _ _ _ _ _ _ T1 T2) T3)|lia..]. }
  destruct Hopen as (lex2 & num_quotes & T2 & ->).
  assert (H2 : ready e lex2) by (eapply txt_ready0; [done|lia|done]).
  apply (txt_then 1 0 0 0 lex_errors lex lex2); [done|].
  pose proof (literal_loop_ok (loop_fuel (src lex2)) e lex2 quote_char num_quotes is_raw 0 H2 He (stream_length _)) as Hl.
  pose proof (literal_loop_closing (loop_fuel (src lex2)) lex2 quote_char num_quotes is_raw 0) as Hn.
  destruct (literal_loop _ _ _ _ _ _) as [[lex3 n]| | |]; cbn [safely obind fst] in *; try done.
  assert (H3 : ready e lex3) by (eapply txt_ready0; [done|lia|done]).
  destruct (cut_tail_wf (vstr lex3) n (ready_vstr _ _ H3) (Hn _ _ ltac:(lia) eq_refl)) as (V1 & V2 & V3).
  eapply txt_weaken; [eapply (txt_trans 0 0 0 0); [exact Hl|]|lia..].
  destruct (n <? num_quotes).
  - apply (txt_vstr e lex3 (vstr_cut_tail_bytes (vstr lex3) n) MP_TOKEN_LONELY_STRING_OPEN); try text_kind. rewrite V2. apply H3.
  - pose proof (txt_vstr e lex3 (vstr_cut_tail_bytes (vstr lex3) n) (tok_kind lex3) H3 V1) as T.
    apply T; [rewrite V2; apply H3|done|text_kind].
Qed.

(** The characters before the opening quote are those of the type codes. *)
Lemma type_codes_ok s l : At s l -> is_string_or_bytes s = true ->
  exists cs q l', l = cs ++ q :: l' /\ length cs = (type_codes s).2 /\ (q = 34 \/ q = 39).
Proof.
  intros A H. destruct l as [|b l].
  { unfold is_string_or_bytes, is_char_or, is_char_or3, is_char_and in H. by rewrite (proj2 (At_nil _ A)) in H. }
  unfold is_string_or_bytes, type_codes, is_char_following_following_or in *.
  destruct (At_cons _ _ _ A) as (_ & E0 & E1).
  unfold is_char, is_char_or, is_char_or3, is_char_following, is_char_following_or, is_char_and in *. rewrite E0, E1 in *.
  assert (Hquote : forall c, (c =? 39) || (c =? 34) = true -> c = 34 \/ c = 39) by (intros c Hc; lia).
  destruct ((b =? 39) || (b =? 34)) eqn:Hb.
  { exists [], b, l. split; [done|]. rewrite !(proj2 (Z.eqb_neq b _)) by lia. split; [done|by apply Hquote]. }
  destruct l as [|c l]; [by rewrite !andb_false_r in H|]. cbn [peek] in *.
  destruct (((b =? 114) || (b =? 117) || (b =? 98)) && ((c =? 39) || (c =? 34))) eqn:Hc.
  { apply andb_true_iff in Hc as [Hb1 Hc]. exists [b], c, l. split; [done|]. split; [|by apply Hquote].
    rewrite !(proj2 (Z.eqb_neq c _)) by lia. by destruct (b =? 117), (b =? 98), (b =? 114). }
  cbn [orb] in H. apply andb_true_iff in H as [Hbc Hq].
  destruct l as [|d l].
  { destruct (At_last _ _ A) as [|[[|x [|y [|z l']]] E]]; try done. injection E as -> ->. lia. }
  rewrite !(At_peek2 s b c (d :: l)) in Hq by done. cbn [peek] in Hq.
  exists [b; c], d, l. split; [done|]. split; [|by apply Hquote].
  destruct (Z.eqb_spec b 114) as [->|]; cbn [andb orb] in Hbc.
  - destruct (Z.eqb_spec c 98) as [->|]; [done|lia].
  - destruct (Z.eqb_spec b 98) as [->|]; [|lia]. by destruct (Z.eqb_spec c 114) as [->|]; [|lia].
Qed.

Lemma type_codes_kind s : (type_codes s).1.2 <> MP_TOKEN_INDENT /\ (type_codes s).1.2 <> MP_TOKEN_DEDENT.
Proof. unfold type_codes. repeat case_match; done. Qed.

Lemma type_codes_le s : ((type_codes s).2 <= 2)%nat.
Proof. unfold type_codes. repeat case_match; cbn; lia. Qed.

Lemma txt_skip e lex stop : ready e lex ->
  exists lex' had, skip_whitespace lex stop = Ret (lex', had) /\ txt (if had : bool then 1 else 0) 0 lex lex' /\
    vstr lex' = vstr lex /\ tok_kind lex' = tok_kind lex /\
    skipped (stop && (nested_bracket_level lex =? 0)) (stream (src lex')).
Proof.
  intros H. assert (A : At (src lex) (stream (src lex))) by (split; [apply H|done]).
  destruct (skip_whitespace_ok lex _ stop A) as (cs & s' & l' & had & -> & R & [_ A'] & _ & D & Hh).
  exists (set_src lex s'), had. split; [done|]. split; [|split_and!; try done; cbn [src set_src]; by rewrite A'].
  eapply txt_weaken; [by eapply txt_src| |lia]. destruct had; [|lia]. destruct cs; [by destruct (Hh eq_refl)|cbn; lia].
Qed.

Lemma literals_ok fuel e lex : ready e lex -> e <= 50 -> (length (stream (src lex)) < fuel)%nat ->
  is_string_or_bytes (src lex) = true ->
  safely lex_errors (txt (if bool_decide (tok_kind lex = MP_TOKEN_END) then 1 else 0) 0 lex) (literals fuel lex).
Proof.
  revert lex. induction fuel as [|fuel IH]; intros lex H He Hf Hs; [lia|]. cbn [literals].
  assert (A : At (src lex) (stream (src lex))) by (split; [apply H|done]).
  destruct (type_codes_ok _ _ A Hs) as (cs & q & l & El & Hn & Hq). rewrite El in A.
  pose proof (type_codes_le (src lex)) as Hle. pose proof (type_codes_kind (src lex)) as Hkind.
  destruct (type_codes (src lex)) as [[is_raw kind] n_char]. cbn [fst snd] in Hn, Hle, Hkind. subst n_char.
  destruct (bool_decide (tok_kind lex = MP_TOKEN_END) || _) eqn:Hk.
  2: { destruct (bool_decide (tok_kind lex = MP_TOKEN_END)); [done|]. by eapply txt_refl. }
  pose proof (txt_kind e lex kind H (or_intror Hkind)) as T0. set (lex0 := set_kind lex kind) in *.
  assert (H0 : ready e lex0) by (eapply txt_ready0; [done|lia|done]).
  assert (exists lex1, txt 0 0 lex lex1 /\ At (src lex1) (q :: l) /\
    match length cs with O => lex0 | 1%nat => next lex0 | _ => next (next lex0) end = lex1) as (lex1 & T1 & A1 & ->).
  { destruct cs as [|a [|b [|]]]; cbn [length app] in *.
    - by exists lex0.
    - exists (next lex0). split_and!; [|by apply (At_next _ a)|done].
      eapply txt_weaken; [exact (txt_trans _ _ _ _ _ _ _ T0 (txt_next e lex0 _ _ H0 A))|lia..].
    - exists (next (next lex0)). split_and!; [|by apply (At_next _ b), (At_next _ a)|done].
      pose proof (txt_next e lex0 _ _ H0 A) as T1. assert (H1 : ready e (next lex0)) by (eapply txt_ready0; [done|lia|done]).
      pose proof (txt_next e (next lex0) _ _ H1 (At_next _ a _ A)) as T2.
      eapply txt_weaken; [exact (txt_trans _ _ _ _ _ _ _ T0 (txt_trans _ _ _ _ _ _ _ T1 T2))|lia..].
    - cbn in Hle. lia. }
  assert (H1 : ready e lex1) by (eapply txt_ready0; [done|lia|done]).
  apply (txt_loosen 1 _ 0 0); [|destruct (bool_decide _); lia|lia].
  apply (txt_then 0 1 0 0 _ _ lex1); [done|]. apply (txt_bind 1 0 0 0); [by eapply parse_string_literal_ok|].
  intros lex2 T2. assert (H2 : ready e lex2) by (eapply txt_ready0; [done|lia|done]).
  destruct (txt_skip e lex2 true H2) as (lex3 & had & -> & T3 & _). cbn [obind].
  assert (H3 : ready e lex3) by (eapply txt_ready0; [done|lia|done]).
  apply (txt_loosen ((if had then 1 else 0) + 0) 0 (0 + 0) 0); [|lia..]. eapply txt_then; [exact T3|].
  destruct (is_string_or_bytes (src lex3)) eqn:Hs3; [|by eapply txt_refl].
  pose proof (txt_shorter _ _ _ _ T1). pose proof (txt_shorter _ _ _ _ T2). pose proof (txt_shorter _ _ _ _ T3).
  eapply txt_loosen; [apply IH; try done; lia|lia..].
Qed.

Lemma string_token_ok e lex : ready e lex -> e <= 50 -> is_string_or_bytes (src lex) = true ->
  safely lex_errors (txt 1 0 lex) (string_token lex).
Proof.
  intros H He Hs. unfold string_token. pose proof (txt_kind e lex MP_TOKEN_END H ltac:(text_kind)) as T.
  apply (txt_then 0 1 0 0 _ _ (set_kind lex MP_TOKEN_END)); [done|].
  apply (literals_ok _ e); try done; [by eapply txt_ready0|apply stream_length].
Qed.

(** ** Numbers *)

Lemma number_step e lex c l b k : ready e lex -> e <= 50 -> text_kind (tok_kind lex) k -> At (src lex) (c :: l) ->
  safely lex_errors (txt 1 0 lex) (let! lex := add_byte (set_kind lex k) b in Ret (next lex)).
Proof.
  intros H He K A. pose proof (txt_kind e lex k H K) as T0.
  assert (H0 : ready e (set_kind lex k)) by (eapply txt_ready0; [done|lia|done]).
  eapply safely_bind; [apply (add_byte_here e); [done|lia|by apply (At_at_char _ _ _ A)]|].
  intros lex1 [T1 D]. pose proof (txt_ready _ _ _ _ _ T1 H0) as H1.
  destruct (at_char_At (src lex1)) as (c1 & l1 & A1); [apply H1|done|]. cbn [safely].
  eapply txt_weaken; [exact (txt_trans _ _ _ _ _ _ _ T0 (txt_trans _ _ _ _ _ _ _ T1 (txt_next _ _ _ _ H1 A1)))|lia..].
Qed.

Lemma set_kind_same lex : set_kind lex (tok_kind lex) = lex.
Proof. by destruct lex. Qed.

Lemma number_tail_ok fuel e lex forced : ready e lex -> e <= 50 -> (length (stream (src lex)) < fuel)%nat ->
  safely lex_errors (txt 0 0 lex) (number_tail fuel lex forced).
Proof.
  revert lex. induction fuel as [|fuel IH]; intros lex H He Hf; [lia|]. cbn [number_tail]. rewrite !add_char_byte.
  destruct (stream (src lex)) as [|c l] eqn:El.
  { assert (A : At (src lex) []) by (split; [apply H|done]). rewrite (proj1 (At_nil _ A)). by eapply txt_refl. }
  assert (A : At (src lex) (c :: l)) by (split; [apply H|done]). rewrite (proj1 (At_cons _ _ _ A)).
  assert (Hrec : forall lex', txt 1 0 lex lex' -> safely lex_errors (txt 0 0 lex') (number_tail fuel lex' forced)).
  { intros lex' T. pose proof (txt_shorter _ _ _ _ T) as Hl. rewrite El in Hl. cbn [length] in *.
    apply IH; [eapply txt_ready0; [done|lia|done]|done|lia]. }
  assert (Hstep : forall b k f, text_kind (tok_kind lex) k -> (forall lex', txt 1 0 lex lex' -> safely lex_errors (txt 0 0 lex') (f lex')) ->
    safely lex_errors (txt 0 0 lex) (let! lex' := add_byte (set_kind lex k) b in f (next lex'))).
  { intros b k f K Hk. pose proof (number_step e lex c l b k H He K A) as S.
    destruct (add_byte _ b) as [lex1| | |]; cbn [obind safely] in *; try done.
    apply (txt_loosen (1 + 0) 0 (0 + 0) 0); [|lia..]. eapply txt_then; [exact S|by apply Hk]. }
  destruct (negb forced && _).
  { apply (Hstep 101 MP_TOKEN_FLOAT_OR_IMAG (fun lex' =>
      let! lex := if is_char (src lex') 43 || is_char (src lex') 45 then
                    let! lex := add_byte lex' (CUR_CHAR lex') in Ret (next lex) else Ret lex' in
      number_tail fuel lex forced)); [text_kind|]. intros lex1 T1.
    assert (H1 : ready e lex1) by (eapply txt_ready0; [done|lia|done]).
    apply (txt_bind 0 0 0 0).
    - destruct (is_char (src lex1) 43 || is_char (src lex1) 45) eqn:Hs; [|by eapply txt_refl].
      destruct (stream (src lex1)) as [|c1 l1] eqn:E1.
      { assert (A1 : At (src lex1) []) by (split; [apply H1|done]). unfold is_char in Hs.
        by rewrite (proj2 (At_nil _ A1)) in Hs. }
      assert (A1 : At (src lex1) (c1 :: l1)) by (split; [apply H1|done]).
      pose proof (number_step e lex1 c1 l1 (CUR_CHAR lex1) (tok_kind lex1) H1 He ltac:(text_kind) A1) as S. rewrite set_kind_same in S.
      eapply txt_loosen; [exact S|lia..].
    - intros lex2 T2. apply Hrec. eapply txt_weaken; [exact (txt_trans _ _ _ _ _ _ _ T1 T2)|lia..]. }
  destruct (is_letter _ || _ || _).
  { destruct (is_char_or3 _ _ _ _); [apply (Hstep (CUR_CHAR lex) MP_TOKEN_FLOAT_OR_IMAG (fun lex' => number_tail fuel lex' forced))|
      rewrite <- (set_kind_same lex) at 2 3; apply (Hstep (CUR_CHAR lex) (tok_kind lex) (fun lex' => number_tail fuel lex' forced))];
    try exact Hrec; text_kind. }
  destruct (is_char _ _); [|by eapply txt_refl].
  pose proof (txt_next _ _ _ _ H A) as T.
  apply (txt_loosen (1 + 0) 0 (-1 + 0) 0); [|lia..]. eapply txt_then; [exact T|].
  apply Hrec. eapply txt_weaken; [exact T|lia..].
Qed.

Lemma number_token_ok e lex c l : ready e lex -> e <= 50 -> At (src lex) (c :: l) ->
  safely lex_errors (txt 1 0 lex) (number_token lex).
Proof.
  intros H He A. unfold number_token. rewrite add_char_byte.
  set (k := if is_char (src lex) 46 then _ else _). set (forced := _ && _ && _).
  pose proof (number_step e lex c l (CUR_CHAR (set_kind lex k)) k H He ltac:(unfold k; destruct (is_char _ _); text_kind) A) as S.
  destruct (add_byte _ _) as [lex1| | |]; cbn [obind safely] in *; try done.
  apply (txt_then 1 0 0 0 _ _ (next lex1)); [exact S|].
  apply (number_tail_ok _ e); [eapply txt_ready0; [done|lia|done]|done|apply stream_length].
Qed.
End LexerText.
