(* ===== verification/LexerWords.v ===== *)
(** * The words of the language: names, keywords and operators

    Names are the longest runs of identifier characters, and the search that stops early in the
    sorted table finds exactly the keywords; the walk over the encoded table of operators is a
    longest match. *)

From Stdlib Require Import String Sorted.
From S2P Require Import Prelude Malloc Unicode Vstr SmallInt Token Lexer LexerStream LexerText.
Local Open Scope Z_scope.

(** ** Keywords *)

(** The order of [strcmp] on strings without their terminators. *)
Fixpoint lt_chars (a b : list Z) : bool :=
  match a, b with
  | [], [] => false
  | [], _ :: _ => true
  | _ :: _, [] => false
  | x :: a, y :: b => if x =? y then lt_chars a b else x <? y
  end.

Lemma lt_chars_trans a b c : lt_chars a b = true -> lt_chars b c = true -> lt_chars a c = true.
Proof.
  revert b c. induction a as [|x a IH]; intros [|y b] [|z c]; cbn; try done.
  destruct (Z.eqb_spec x y) as [->|]; destruct (Z.eqb_spec y z) as [->|]; intros H1 H2.
  - eauto.
  - done.
  - by rewrite (proj2 (Z.eqb_neq x z)) by done.
  - rewrite (proj2 (Z.eqb_neq x z)) by lia. lia.
Qed.

Lemma lt_chars_irrefl a : lt_chars a a = false.
Proof. induction a as [|x a IH]; cbn; [done|]. by rewrite Z.eqb_refl. Qed.

Definition no_zero (s : list Z) : Prop := Forall (fun c => 0 < c) s.

Lemma strcmp_ok a b junk : no_zero a -> no_zero b ->
  exists z, strcmp (a ++ 0 :: junk) (b ++ [0]) = Ret z /\ (z = 0 <-> a = b) /\ (z < 0 <-> lt_chars a b = true).
Proof.
  intros Ha. revert b. induction Ha as [|x a Hx Ha IH]; intros [|y b] Hb; cbn [app strcmp].
  - exists 0. cbn. split_and!; try done; lia.
  - apply list.Forall_cons in Hb as [Hy _]. rewrite (proj2 (Z.eqb_neq 0 y)) by lia. eexists. cbn.
    split_and!; try done; split; intros; try done; lia.
  - rewrite (proj2 (Z.eqb_neq x 0)) by lia. eexists. cbn. split_and!; try done; split; intros; try done; lia.
  - apply list.Forall_cons in Hb as [Hy Hb]. cbn [lt_chars]. destruct (Z.eqb_spec x y) as [->|Hn]; cbn [negb].
    + rewrite (proj2 (Z.eqb_neq y 0)) by lia. destruct (IH b Hb) as (z & -> & H0 & H1). exists z.
      split_and!; [done| |done]. rewrite H0. split; [by intros ->|congruence].
    + exists (x - y). split_and!; [done| |lia]. split; [lia|congruence].
Qed.

Section Keywords.
Variable mp_optimise_value : Z.

(** What the lexer makes of the kind of a word. *)
Definition word_kind (k : mp_token_kind_t) : mp_token_kind_t :=
  if bool_decide (k = MP_TOKEN_KW___DEBUG__)
  then if mp_optimise_value =? 0 then MP_TOKEN_KW_TRUE else MP_TOKEN_KW_FALSE else k.

(** The kind of a name: looked up in the whole table. *)
Definition name_kind (name : list Z) : mp_token_kind_t :=
  match list_find (fun kw => chars kw = name) tok_kw with
  | Some (i, _) => word_kind (default MP_TOKEN_NAME (all_token_kinds !! (token_code MP_TOKEN_KW_FALSE + i)%nat))
  | None => MP_TOKEN_NAME
  end.

Lemma keyword_search_ok kws i name junk : no_zero name -> Forall (fun kw => no_zero (chars kw)) kws ->
  StronglySorted (fun a b => lt_chars (chars a) (chars b) = true) kws ->
  keyword_search mp_optimise_value kws i (name ++ 0 :: junk) =
  match list_find (fun kw => chars kw = name) kws with
  | Some (j, _) => let! k := token_of_code (token_code MP_TOKEN_KW_FALSE + (i + j)) in Ret (Some (word_kind k))
  | None => Ret None
  end.
Proof.
  intros Hz Hkz Hs. revert i. induction Hs as [|kw kws Hs IH Hlt]; intros i; [done|].
  apply list.Forall_cons in Hkz as [Hz1 Hkz]. cbn [keyword_search list_find].
  destruct (strcmp_ok name (chars kw) junk Hz Hz1) as (z & -> & H0 & H1). cbn [obind].
  destruct (decide (chars kw = name)) as [E|E].
  - rewrite (proj2 (Z.eqb_eq z 0)) by (by apply H0). by rewrite Nat.add_0_r.
  - rewrite (proj2 (Z.eqb_neq z 0)) by (intros ?; by apply E, eq_sym, H0).
    destruct (Z.ltb_spec z 0) as [Hlow|Hhigh].
    + apply H1 in Hlow. enough (list_find (fun kw => chars kw = name) kws = None) as -> by done.
      apply list_find_None. eapply list.Forall_impl; [exact Hlt|]. intros kw' Hkw' E'.
      pose proof (lt_chars_trans _ _ _ Hlow Hkw') as H. by rewrite E', lt_chars_irrefl in H.
    + rewrite IH by done. destruct (list_find _ kws) as [[j kw']|]; [|done]. cbn.
      by replace (i + 1 + j)%nat with (i + S j)%nat by lia.
Qed.

(** The port's table is sorted, as the search needs. *)
Lemma tok_kw_sorted : StronglySorted (fun a b => lt_chars (chars a) (chars b) = true) tok_kw.
Proof.
  assert (H : Sorted (fun a b => lt_chars (chars a) (chars b) = true) tok_kw) by (repeat constructor).
  apply Sorted_StronglySorted; [|done]. intros a b c. apply lt_chars_trans.
Qed.

Lemma tok_kw_no_zero : Forall (fun kw => no_zero (chars kw)) tok_kw.
Proof.
  apply list.Forall_forall. intros kw Hkw. apply list.Forall_forall. intros c Hc.
  assert (H : forallb (fun kw => forallb (Z.ltb 0) (chars kw)) tok_kw = true) by reflexivity.
  rewrite forallb_forall in H. specialize (H kw ltac:(by apply list_elem_of_In)).
  rewrite forallb_forall in H. apply Z.ltb_lt, H. by apply list_elem_of_In.
Qed.

Lemma keyword_ok name junk : no_zero name ->
  keyword_search mp_optimise_value tok_kw 0 (name ++ 0 :: junk) =
  Ret (match list_find (fun kw => chars kw = name) tok_kw with Some _ => Some (name_kind name) | None => None end).
Proof.
  intros Hz. rewrite (keyword_search_ok tok_kw 0 name junk Hz tok_kw_no_zero tok_kw_sorted).
  unfold name_kind. destruct (list_find _ tok_kw) as [[j kw]|] eqn:E; [|done]. cbn [Nat.add].
  apply list_find_Some in E as (E & _). apply lookup_lt_Some in E. unfold token_of_code.
  destruct (lookup_lt_is_Some_2 all_token_kinds (token_code MP_TOKEN_KW_FALSE + j)) as [k Hk].
  { change (length tok_kw) with 36%nat in E. change (length all_token_kinds) with 95%nat.
    change (token_code MP_TOKEN_KW_FALSE) with 13%nat. lia. }
  by rewrite Hk.
Qed.

Lemma name_kind_text name : name_kind name <> MP_TOKEN_INDENT /\ name_kind name <> MP_TOKEN_DEDENT.
Proof.
  unfold name_kind. destruct (list_find _ tok_kw) as [[j kw]|] eqn:E; [|done].
  apply list_find_Some in E as (E & _). apply lookup_lt_Some in E. change (length tok_kw) with 36%nat in E.
  assert (H : Forall (fun j => word_kind (default MP_TOKEN_NAME (all_token_kinds !! (token_code MP_TOKEN_KW_FALSE + j)%nat)) <> MP_TOKEN_INDENT /\
    word_kind (default MP_TOKEN_NAME (all_token_kinds !! (token_code MP_TOKEN_KW_FALSE + j)%nat)) <> MP_TOKEN_DEDENT) (seq 0 36)).
  { unfold word_kind. cbn. repeat constructor; try done; by destruct (mp_optimise_value =? 0). }
  rewrite list.Forall_forall in H. apply H, elem_of_seq. lia.
Qed.
End Keywords.

(** ** Operators *)

(** The operators and delimiters of the language, in any order. *)
Definition operators : list (string * mp_token_kind_t) := [
  ("(", MP_TOKEN_DEL_PAREN_OPEN); (")", MP_TOKEN_DEL_PAREN_CLOSE); ("[", MP_TOKEN_DEL_BRACKET_OPEN);
  ("]", MP_TOKEN_DEL_BRACKET_CLOSE); ("{", MP_TOKEN_DEL_BRACE_OPEN); ("}", MP_TOKEN_DEL_BRACE_CLOSE);
  (",", MP_TOKEN_DEL_COMMA); (";", MP_TOKEN_DEL_SEMICOLON); ("~", MP_TOKEN_OP_TILDE);
  (":", MP_TOKEN_DEL_COLON); (":=", MP_TOKEN_OP_ASSIGN); ("<", MP_TOKEN_OP_LESS);
  ("<=", MP_TOKEN_OP_LESS_EQUAL); ("<<", MP_TOKEN_OP_DBL_LESS); ("<<=", MP_TOKEN_DEL_DBL_LESS_EQUAL);
  (">", MP_TOKEN_OP_MORE); (">=", MP_TOKEN_OP_MORE_EQUAL); (">>", MP_TOKEN_OP_DBL_MORE);
  (">>=", MP_TOKEN_DEL_DBL_MORE_EQUAL); ("*", MP_TOKEN_OP_STAR); ("*=", MP_TOKEN_DEL_STAR_EQUAL);
  ("**", MP_TOKEN_OP_DBL_STAR); ("**=", MP_TOKEN_DEL_DBL_STAR_EQUAL); ("+", MP_TOKEN_OP_PLUS);
  ("+=", MP_TOKEN_DEL_PLUS_EQUAL); ("-", MP_TOKEN_OP_MINUS); ("-=", MP_TOKEN_DEL_MINUS_EQUAL);
  ("->", MP_TOKEN_DEL_MINUS_MORE); ("&", MP_TOKEN_OP_AMPERSAND); ("&=", MP_TOKEN_DEL_AMPERSAND_EQUAL);
  ("|", MP_TOKEN_OP_PIPE); ("|=", MP_TOKEN_DEL_PIPE_EQUAL); ("/", MP_TOKEN_OP_SLASH);
  ("/=", MP_TOKEN_DEL_SLASH_EQUAL); ("//", MP_TOKEN_OP_DBL_SLASH);
  ("//=", MP_TOKEN_DEL_DBL_SLASH_EQUAL); ("%", MP_TOKEN_OP_PERCENT);
  ("%=", MP_TOKEN_DEL_PERCENT_EQUAL); ("^", MP_TOKEN_OP_CARET); ("^=", MP_TOKEN_DEL_CARET_EQUAL);
  ("@", MP_TOKEN_OP_AT); ("@=", MP_TOKEN_DEL_AT_EQUAL); ("=", MP_TOKEN_DEL_EQUAL);
  ("==", MP_TOKEN_OP_DBL_EQUAL); ("!=", MP_TOKEN_OP_NOT_EQUAL); (".", MP_TOKEN_DEL_PERIOD);
  ("...", MP_TOKEN_ELLIPSIS)]%string.

Fixpoint is_prefix (p l : list Z) : bool :=
  match p, l with
  | [], _ => true
  | x :: p, c :: l => (c =? x) && is_prefix p l
  | _ :: _, [] => false
  end.

(** The longest entry of a table that a text begins with. *)
Definition longest (table : list (list Z * mp_token_kind_t)) (l : list Z) : option (list Z * mp_token_kind_t) :=
  foldl (fun best '(op, k) =>
    if is_prefix op l && (length (default [] (fst <$> best)) <? length op)%nat then Some (op, k) else best) None table.

Definition operator_table : list (list Z * mp_token_kind_t) := map (prod_map chars id) operators.
Notation longest_operator := (longest operator_table).

(** The walk over the encoded table, on a list of characters: the number of characters read. *)
Fixpoint search_chars (t : list Z) (c : Z) (i : nat) : list Z * nat :=
  match t with
  | [] => ([], i)
  | x :: t' =>
    if c =? x then (t, i)
    else if (x =? 101) || (x =? 99) then
      match t' with [] => ([], i) | _ :: t' => search_chars t' c (i + 1) end
    else search_chars t' c (i + 1)
  end.

Fixpoint longest_chars (t l : list Z) (t_index index n : nat) : nat * nat :=
  match t with
  | m :: x :: t =>
    if (m =? 99) || (m =? 101) then
      let t_index := (t_index + 1)%nat in
      if peek l =? x then
        if m =? 101 then (S n, t_index) else longest_chars t (tail l) t_index t_index (S n)
      else if m =? 99 then (n, index)
      else longest_chars t l t_index index n
    else (n, index)
  | _ => (n, index)
  end.

(** Induction by two elements. *)
Lemma list_ind2 {A} (P : list A -> Prop) :
  P [] -> (forall x, P [x]) -> (forall x y l, P l -> P (y :: l) -> P (x :: y :: l)) -> forall l, P l.
Proof.
  intros H0 H1 H2 l. enough (P l /\ forall x, P (x :: l)) by tauto.
  induction l as [|y l [IH1 IH2]]; [done|]. split; [apply IH2|]. intros x. by apply H2.
Qed.

Lemma search_chars_ok t s i : operator_search t s i = search_chars t (chr0 s) i.
Proof.
  revert i. induction t as [|x|x y t IH1 IH2] using list_ind2; intros i; cbn [operator_search search_chars];
    unfold is_char; [done|by destruct (_ || _)|].
  destruct (_ =? _); [done|]. destruct (_ || _); [by apply IH1|by apply IH2].
Qed.

Lemma longest_chars_ok t s l i j n : At s l -> (forall x, x ∈ t -> x <> 10 /\ x <> MP_LEXER_EOF) ->
  exists cs s', operator_longest t s i j = (s', (longest_chars t l i j n).2) /\ reads s cs s' /\
    (n + length cs)%nat = (longest_chars t l i j n).1 /\ l = cs ++ drop (length cs) l.
Proof.
  revert s l i j n. induction t as [|m|m x t IH _] using list_ind2; intros s l i j n A Ht; cbn [operator_longest longest_chars];
    try (exists [], s; split_and!; [done|by apply reads_refl with l|cbn; lia|done]).
  assert (Hstay : exists cs s', (s, j) = (s', (n, j).2) /\ reads s cs s' /\ (n + length cs)%nat = (n, j).1 /\ l = cs ++ drop (length cs) l).
  { exists [], s. split_and!; [done|by apply reads_refl with l|cbn; lia|done]. }
  assert (Ht' : forall y, y ∈ t -> y <> 10 /\ y <> MP_LEXER_EOF) by (intros y Hy; apply Ht; do 2 apply list_elem_of_further; done).
  destruct (_ || _); [|done]. rewrite (At_is_char _ _ A). destruct (Z.eqb_spec (peek l) x) as [<-|].
  2: { destruct (m =? 99); [done|]. by apply IH. }
  destruct l as [|c l]; [by destruct (Ht (peek [])) as [_ ?]; [apply list_elem_of_further, list_elem_of_here|]|].
  pose proof (reads_next _ _ _ A) as R. pose proof (At_next _ _ _ A) as A1. cbn [tail].
  destruct (m =? 101).
  - exists [c], (next_char s). split_and!; [done|done|cbn; lia|done].
  - destruct (IH (next_char s) l (i + 1)%nat (i + 1)%nat (S n) A1 Ht') as (cs & s' & -> & R' & <- & E).
    exists (c :: cs), s'. split_and!; [done|by apply (reads_trans s (next_char s) s' [c] cs)|cbn; lia|].
    cbn. by f_equal.
Qed.

Lemma chars_bytes w : Forall byte (chars w).
Proof.
  unfold chars. apply list.Forall_forall. intros c Hc. apply list_elem_of_fmap in Hc as (a & -> & _).
  unfold byte. pose proof (Ascii.nat_ascii_bounded a). lia.
Qed.

(** The walk of [operator_token] on characters, and the number of them it reads. *)
Definition walk (l : list Z) : option (nat * mp_token_kind_t) :=
  let '(t, i) := search_chars tok_enc (peek l) 0 in
  match t with
  | [] => None
  | x :: t =>
    if x =? 33 then if peek (tail l) =? 61 then Some (2%nat, MP_TOKEN_OP_NOT_EQUAL) else None
    else if x =? 46 then
      if (peek (tail l) =? 46) && (peek (tail (tail l)) =? 46) then Some (3%nat, MP_TOKEN_ELLIPSIS)
      else Some (1%nat, MP_TOKEN_DEL_PERIOD)
    else
      let '(n, i) := longest_chars t (tail l) i i 0 in
      option_map (fun k => (S n, k)) (tok_enc_kind !! i)
  end.

Definition starts_with (c : Z) (e : list Z * mp_token_kind_t) : bool := match e.1 with x :: _ => c =? x | [] => true end.

(** Only the entries that begin with the first character matter. *)
Lemma longest_filter table c l : longest table (c :: l) = longest (base.filter (fun e => starts_with c e = true) table) (c :: l).
Proof.
  unfold longest. generalize (@None (list Z * mp_token_kind_t)). induction table as [|[op k] table IH]; intros best; [done|].
  cbn [foldl]. rewrite filter_cons. destruct (decide (starts_with c (op, k) = true)) as [E|E]; cbn [foldl]; rewrite IH; [done|].
  f_equal. destruct op as [|x op]; [done|]. cbn in E. cbn [is_prefix].
  destruct (c =? x); [done|]. done.
Qed.

Lemma search_absent t c i : c ∉ t -> search_chars t c i = ([], (search_chars t c i).2).
Proof.
  revert i. induction t as [|x|x y t IH1 IH2] using list_ind2; intros i Hc; [done|..]; cbn [search_chars];
    rewrite (proj2 (Z.eqb_neq c x)) by (intros ->; apply Hc, list_elem_of_here).
  - by destruct (_ || _).
  - destruct (_ || _); [apply IH1|apply IH2]; intros ?; apply Hc; [by do 2 apply list_elem_of_further|by apply list_elem_of_further].
Qed.

Definition sized (r : option (list Z * mp_token_kind_t)) : option (nat * mp_token_kind_t) :=
  option_map (fun '(op, k) => (length op, k)) r.

(** The cases of one first character, with the tables evaluated. *)
Ltac operator_case l :=
  match goal with |- context [search_chars tok_enc ?c 0] =>
    let r := eval vm_compute in (search_chars tok_enc c 0) in
    replace (search_chars tok_enc c 0) with r by (vm_compute; reflexivity)
  end;
  match goal with |- context [longest ?t] =>
    let r := eval vm_compute in t in replace t with r by (vm_compute; reflexivity)
  end;
  destruct l as [|d [|f l]]; cbn;
  repeat (match goal with |- context [?x =? ?y] => destruct (Z.eqb_spec x y); try subst; cbn end);
  try reflexivity; try discriminate; try congruence.

Definition operator_heads : list Z :=
  [40; 41; 91; 93; 123; 125; 44; 59; 126; 58; 60; 62; 42; 43; 45; 38; 124; 47; 37; 94; 64; 61; 33; 46].

Lemma tok_enc_heads c : c ∈ tok_enc -> c <> 99 -> c <> 101 -> c ∈ operator_heads.
Proof.
  intros Hc H1 H2.
  assert (H : forallb (fun c => (c =? 99) || (c =? 101) || bool_decide (c ∈ operator_heads)) tok_enc = true) by (vm_compute; reflexivity).
  rewrite forallb_forall in H. specialize (H c ltac:(by apply list_elem_of_In)).
  rewrite (proj2 (Z.eqb_neq c 99)), (proj2 (Z.eqb_neq c 101)) in H by done. by apply bool_decide_eq_true in H.
Qed.

(** Every operator begins with a character of the encoded table. *)
Lemma operators_heads c : c ∉ tok_enc ->
  base.filter (fun e => starts_with c e = true) (map (prod_map chars id) operators) = [].
Proof.
  intros Hc.
  assert (H : forallb (fun e => match e.1 with x :: _ => bool_decide (x ∈ tok_enc) | [] => false end)
    (map (prod_map chars id) operators) = true) by (vm_compute; reflexivity).
  induction (map (prod_map chars id) operators) as [|[op k] table IH]; [done|].
  cbn [forallb fst] in H. apply andb_true_iff in H as [H1 H2]. rewrite filter_cons_False; [by apply IH|].
  destruct op as [|x op]; [done|]. apply bool_decide_eq_true in H1. unfold starts_with. cbn [fst].
  intros E. apply Z.eqb_eq in E as ->. done.
Qed.

(** The walk is the longest match. *)
Lemma walk_longest l : peek l <> 99 -> peek l <> 101 -> walk l = sized (longest_operator l).
Proof.
  intros H99 H101. destruct l as [|c l]; [by vm_compute|]. rewrite longest_filter. unfold operator_table. cbn [peek] in *.
  destruct (decide (c ∈ tok_enc)) as [Hc|Hc].
  - apply tok_enc_heads in Hc; [|done..]. unfold walk. cbn [peek tail]. clear H99 H101. unfold operator_heads in Hc.
    repeat (apply elem_of_cons in Hc as [->|Hc]; [operator_case l|]). inversion Hc.
  - rewrite operators_heads by done. unfold walk. cbn [peek]. by rewrite search_absent.
Qed.

(** The walk stays in the table of kinds. *)
Lemma walk_index c l x t i : c <> 99 -> c <> 101 -> search_chars tok_enc c 0 = (x :: t, i) -> x <> 33 -> x <> 46 ->
  is_Some (tok_enc_kind !! (longest_chars t l i i 0).2).
Proof.
  intros H99 H101. destruct (decide (c ∈ tok_enc)) as [Hc|Hc]; [|by rewrite search_absent].
  apply tok_enc_heads in Hc; [|done..]. clear H99 H101. unfold operator_heads in Hc. revert Hc.
  assert (Hcase : forall c', (let '(t', i') := search_chars tok_enc c' 0 in
    match t' with x' :: t' => (x' =? 33) || (x' =? 46) || ((longest_chars t' l i' i' 0).2 <? 44)%nat | [] => true end) = true ->
    search_chars tok_enc c' 0 = (x :: t, i) -> x <> 33 -> x <> 46 -> is_Some (tok_enc_kind !! (longest_chars t l i i 0).2)).
  { intros c' H E H33 H46. rewrite E in H. apply lookup_lt_is_Some_2. change (length tok_enc_kind) with 44%nat. cbn [snd] in *.
    rewrite (proj2 (Z.eqb_neq x 33)), (proj2 (Z.eqb_neq x 46)) in H by done. cbn [orb] in H. by apply Nat.ltb_lt in H. }
  intros Hc. apply Hcase. clear Hcase. revert Hc.
  repeat (intros Hc; apply elem_of_cons in Hc as [->|Hc]; [|revert Hc]); [..|by inversion 1];
    match goal with |- context [search_chars tok_enc ?c 0] =>
      let r := eval vm_compute in (search_chars tok_enc c 0) in
      replace (search_chars tok_enc c 0) with r by (vm_compute; reflexivity) end;
    destruct l as [|d [|f l]]; cbn;
    repeat (match goal with |- context [?x =? ?y] => destruct (Z.eqb_spec x y); cbn end); reflexivity.
Qed.

Lemma is_prefix_take p l : is_prefix p l = true -> p = take (length p) l.
Proof.
  revert l. induction p as [|x p IH]; intros [|c l]; cbn; try done.
  intros [E H]%andb_true_iff. apply Z.eqb_eq in E as ->. f_equal. by apply IH.
Qed.

Lemma longest_prefix table l op k : longest table l = Some (op, k) -> is_prefix op l = true.
Proof.
  unfold longest. assert (H : forall op k, @None (list Z * mp_token_kind_t) = Some (op, k) -> is_prefix op l = true) by done.
  revert H. generalize (@None (list Z * mp_token_kind_t)). induction table as [|[op' k'] table IH]; intros best H; cbn [foldl]; [apply H|].
  apply IH. intros op1 k1. destruct (is_prefix op' l) eqn:E; cbn [andb]; [|apply H].
  destruct (_ <? _)%nat; [|apply H]. by intros [= <- <-].
Qed.

Lemma reads_take s cs s' l : reads s cs s' -> At s l -> cs = take (length cs) l.
Proof. intros R A. destruct (reads_At_l _ _ _ _ R A) as (l' & -> & _). by rewrite take_app_length. Qed.

(** ** The tokens *)

Definition id_char (c : Z) : bool := unichar_isalpha c || (c =? 95) || (0x80 <=? c) || unichar_isdigit c.

Section Words.
Context {allocator : Allocator Z}.
Variable mp_optimise_value : Z.
Implicit Types (lex : mp_lexer_t) (s : stream_t).

(** [lex'] is [lex] with the characters [cs] read and [w] added to the text. *)
Definition reads_word lex cs w lex' : Prop :=
  exists s v k, lex' = upd lex s v k /\ reads (src lex) cs s /\ Vstr.wf v /\ fixed_buf v = false /\
    text_kind (tok_kind lex) k /\
    Vstr.str v = Vstr.str (vstr lex) ++ w /\ len v = len (vstr lex) + Z.of_nat (length w).

Lemma reads_word_trans lex1 lex2 lex3 cs1 cs2 w1 w2 : reads_word lex1 cs1 w1 lex2 -> reads_word lex2 cs2 w2 lex3 ->
  reads_word lex1 (cs1 ++ cs2) (w1 ++ w2) lex3.
Proof.
  intros (s1 & v1 & k1 & -> & R1 & _ & _ & K1 & S1 & L1) (s2 & v2 & k2 & -> & R2 & V2 & F2 & K2 & S2 & L2).
  exists s2, v2, k2. cbn [vstr upd src] in *. split_and!; try done.
  - by apply (reads_trans _ s1).
  - by eapply text_kind_trans.
  - by rewrite S2, S1, app_assoc.
  - rewrite L2, L1, length_app. lia.
Qed.

Lemma reads_word_txt lex cs w lex' : reads_word lex cs w lex' -> (length w <= length cs)%nat ->
  txt (length cs) 0 lex lex'.
Proof.
  intros (s & v & k & -> & R & V & F & K & S & L) Hl. exists cs, s, v, k. split_and!; try done.
  destruct R as (l & [_ E] & [_ E'] & _). unfold left_of. cbn [src upd]. rewrite E, E', length_app. lia.
Qed.

(** Reading the current character into the text. *)
Lemma read_char_word E e lex c l k : ready e lex -> e <= 50 -> text_kind (tok_kind lex) k -> At (src lex) (c :: l) -> MemoryError ∈ E ->
  safely E (reads_word lex [c] [c]) (let! lex := add_byte (set_kind lex k) c in Ret (next lex)).
Proof.
  intros H He K A HE. eapply safely_bind.
  { apply (add_byte_text E e); [|lia|done]. eapply txt_ready0; [by eapply txt_kind|lia|done]. }
  intros lex' (v & -> & V & F & L & S). exists (next_char (src lex)), v, k. split_and!; try done.
  - apply (reads_next _ _ _ A).
  - rewrite S. rewrite wrap_small; [done|]. pose proof (At_chars _ _ A) as Hc. by apply list.Forall_cons in Hc as [? _].
Qed.

Lemma name_tail_ok fuel e lex l : ready e lex -> e <= 50 -> At (src lex) l -> (length l < fuel)%nat ->
  safely [MemoryError] (fun lex' => tok_kind lex' = tok_kind lex /\ exists cs l', l = cs ++ l' /\ reads_word lex cs cs lex' /\
    At (src lex') l' /\ Forall (fun c => id_char c = true) cs /\ (l' = [] \/ id_char (peek l') = false)) (name_tail fuel lex).
Proof.
  revert lex l. induction fuel as [|fuel IH]; intros lex l H He A Hf; [lia|]. cbn [name_tail].
  assert (Hstop : l = [] \/ id_char (peek l) = false -> tok_kind lex = tok_kind lex /\ exists cs l', l = cs ++ l' /\
    reads_word lex cs cs lex /\ At (src lex) l' /\ Forall (fun c => id_char c = true) cs /\ (l' = [] \/ id_char (peek l') = false)).
  { intros D. split; [done|]. exists [], l. split_and!; try done.
    exists (src lex), (vstr lex), (tok_kind lex). split_and!; try apply H; [by destruct lex|by apply reads_refl with l|text_kind|by rewrite app_nil_r|cbn; lia]. }
  destruct l as [|c l]; [rewrite (proj1 (At_nil _ A)); apply Hstop; by left|].
  unfold CUR_CHAR. at_tests A. fold (id_char c).
  destruct (id_char c) eqn:Hc; cbn [safely]; [|apply Hstop; by right].
  pose proof (read_char_word [MemoryError] e lex c l (tok_kind lex) H He ltac:(text_kind) A ltac:(apply list_elem_of_here)) as S.
  rewrite set_kind_same in S.
  assert (Hk : forall lex1, add_byte lex c = Ret lex1 -> tok_kind lex1 = tok_kind lex).
  { intros lex1. unfold add_byte. destruct (vstr_add_byte _ _); cbn; [|done..]. by intros [= <-]. }
  destruct (add_byte lex c) as [lex1| | |]; cbn [safely obind] in *; try done.
  assert (A1 : At (src (next lex1)) l).
  { destruct S as (s & v & k & -> & R & _). destruct (reads_At_l _ _ _ _ R A) as (l' & [= ->] & ?). done. }
  pose proof (reads_word_txt _ _ _ _ S ltac:(done)) as T.
  eapply safely_weaken; [apply (IH (next lex1) l); [eapply txt_ready0; [done|lia|done]|done..|cbn in Hf; lia]|done|].
  intros lex2 (Hk2 & cs & l' & -> & S2 & A2 & F2 & D2). split; [rewrite Hk2; exact (Hk lex1 eq_refl)|].
  exists (c :: cs), l'. split_and!; try done; [|by constructor].
  by apply (reads_word_trans lex (next lex1) lex2 [c] cs [c] cs).
Qed.

(** The longest run of identifier characters, with the kind of the word it is. *)
Lemma name_token_ok e lex c l : ready e lex -> e <= 40 -> len (vstr lex) = 0 -> At (src lex) (c :: l) -> id_char c = true ->
  safely [MemoryError] (fun lex' => exists cs l', l = cs ++ l' /\ reads_word lex (c :: cs) (c :: cs) lex' /\
    At (src lex') l' /\ Forall (fun c => id_char c = true) cs /\ (l' = [] \/ id_char (peek l') = false) /\
    tok_kind lex' = name_kind mp_optimise_value (c :: cs)) (name_token mp_optimise_value lex).
Proof.
  intros H He Hv A Hc. unfold name_token, CUR_CHAR.
  change (chr0 (src (set_kind lex MP_TOKEN_NAME))) with (chr0 (src lex)). rewrite (At_peek _ _ A). cbn [peek].
  pose proof (read_char_word [MemoryError] e lex c l MP_TOKEN_NAME H ltac:(lia) ltac:(text_kind) A ltac:(apply list_elem_of_here)) as S.
  assert (Hk : forall lex1, add_byte (set_kind lex MP_TOKEN_NAME) c = Ret lex1 -> tok_kind lex1 = MP_TOKEN_NAME).
  { intros lex1. unfold add_byte. destruct (vstr_add_byte _ _); cbn; [|done..]. by intros [= <-]. }
  destruct (add_byte _ c) as [lex1| | |]; cbn [safely obind] in *; try done. specialize (Hk _ eq_refl).
  assert (A1 : At (src (next lex1)) l).
  { destruct S as (s & v & k & -> & R & _). destruct (reads_At_l _ _ _ _ R A) as (l' & [= ->] & ?). done. }
  pose proof (reads_word_txt _ _ _ _ S ltac:(done)) as T.
  eapply safely_bind.
  { apply (name_tail_ok _ e (next lex1) l); [eapply txt_ready0; [done|lia|done]|lia|done|apply (At_fuel _ _ A1)]. }
  intros lex2 (Hk2 & cs & l' & -> & S2 & A2 & F2 & D2).
  pose proof (reads_word_trans _ _ _ _ _ _ _ S S2) as S3. cbn [app] in S3.
  assert (H2 : ready e lex2) by (eapply txt_ready0; [by eapply reads_word_txt|lia|done]).
  destruct S3 as (s & v & k & -> & R & V & F & K & St & L). cbn [vstr upd tok_kind src] in *.
  assert (Hz : no_zero (c :: cs)).
  { assert (Hb : Forall byte (c :: cs)).
    { pose proof (At_chars _ _ A) as Hb. change (c :: cs ++ l') with ((c :: cs) ++ l') in Hb.
      by apply list.Forall_app in Hb as [? _]. }
    apply list.Forall_forall. intros x Hx. rewrite list.Forall_forall in Hb. pose proof (Hb x Hx) as Hbx.
    enough (x <> 0) by (unfold byte in Hbx; lia). intros ->.
    apply elem_of_cons in Hx as [<-|Hx]; [done|]. rewrite list.Forall_forall in F2. by apply F2 in Hx. }
  pose proof (ready_room _ _ H2) as Hroom. unfold left_of in Hroom. cbn [vstr upd] in Hroom.
  pose proof (vstr_null_terminated_str_ok v V ltac:(lia)) as Hn.
  destruct (vstr_null_terminated_str v) as [v'|[]| |] eqn:Ev; cbn [safely obind] in *; try done;
    [|by apply list_elem_of_here|destruct Hn; congruence].
  destruct Hn as (V' & S' & B'). pose proof (vstr_null_terminated_len v v' Ev) as [L' F'].
  assert (St' : Vstr.str v' = c :: cs).
  { rewrite S', St. unfold Vstr.str at 1. rewrite Hv. done. }
  assert (Eb : exists junk, buf v' = (c :: cs) ++ 0 :: junk).
  { exists (drop (Datatypes.S (Z.to_nat (len v'))) (buf v')). rewrite <- St'. unfold Vstr.str. by rewrite take_drop_middle. }
  destruct Eb as [junk Eb]. cbn [buf set_vstr]. rewrite Eb, keyword_ok by done. cbn [safely obind].
  exists cs, l'. split; [done|].
  assert (Hw : forall k', text_kind (tok_kind lex) k' -> reads_word lex (c :: cs) (c :: cs) (set_kind (set_vstr (upd lex s v k) v') k')).
  { intros k' K'. exists s, v', k'. split_and!; try done; [congruence| |lia]. rewrite St'. unfold Vstr.str. by rewrite Hv. }
  destruct (list_find _ tok_kw) as [[j kw]|] eqn:Ek.
  - split_and!; try done. apply Hw. right. apply name_kind_text.
  - rewrite <- (set_kind_same (set_vstr _ _)). split_and!; try done; [by apply Hw|].
    rewrite set_kind_same. cbn [tok_kind set_vstr upd]. unfold name_kind. rewrite Ek, Hk2. exact Hk.
Qed.

Lemma search_suffix t c i y : y ∈ (search_chars t c i).1 -> y ∈ t.
Proof.
  revert i. induction t as [|x|x z t IH1 IH2] using list_ind2; intros i; cbn [search_chars]; [done|..];
    destruct (c =? x); try done; destruct (_ || _); try (intros H; by inversion H); intros H.
  - do 2 apply list_elem_of_further. by eapply IH1.
  - apply list_elem_of_further. by eapply IH2.
Qed.

Lemma tok_enc_chars y : y ∈ tok_enc -> y <> 10 /\ y <> MP_LEXER_EOF.
Proof.
  intros Hy. assert (H : forallb (fun y => negb (y =? 10) && negb (y =? MP_LEXER_EOF)) tok_enc = true) by (vm_compute; reflexivity).
  rewrite forallb_forall in H. specialize (H y ltac:(by apply list_elem_of_In)). lia.
Qed.

Definition nesting (k : mp_token_kind_t) : Z := if opens k then 1 else if closes k then -1 else 0.

(** The token of a walk. *)
Lemma operator_token_walk lex c l : At (src lex) (c :: l) -> c <> 99 -> c <> 101 ->
  - 2 ^ 31 < nested_bracket_level lex < 2 ^ 31 - 1 ->
  match walk (c :: l) with
  | Some (n, k) => exists cs s, reads (src lex) cs s /\ length cs = n /\
      operator_token lex = Ret (set_nested (set_kind (set_src lex s) k) (nested_bracket_level lex + nesting k))
  | None => operator_token lex = Ret (set_kind (next lex) MP_TOKEN_INVALID)
  end.
Proof.
  intros A H99 H101 Hn. pose proof (At_next _ _ _ A) as A1. pose proof (reads_next _ _ _ A) as R1.
  assert (Hno : forall lex' k, nested_bracket_level lex' = nested_bracket_level lex -> nesting k = 0 ->
    Ret (set_kind lex' k) = Ret (set_nested (set_kind lex' k) (nested_bracket_level lex + nesting k))).
  { intros lex' k <- ->. rewrite Z.add_0_r. done. }
  unfold operator_token, walk. rewrite search_chars_ok, (At_peek _ _ A). cbn [peek tail].
  pose proof (search_suffix tok_enc c 0) as Hs. pose proof (walk_index c l) as Hi.
  destruct (search_chars tok_enc c 0) as [[|x t] i]; [done|]. cbn [fst] in Hs.
  change (src (next lex)) with (next_char (src lex)).
  destruct (Z.eqb_spec x 33) as [_|H33].
  { rewrite (At_is_char _ _ A1). destruct (Z.eqb_spec (peek l) 61) as [E|E]; [|done].
    destruct l as [|d l]; [discriminate E|]. cbn in E. subst d.
    eexists _, _. split_and!; [exact (reads_trans _ _ _ _ _ R1 (reads_next _ _ _ A1))|done|].
    by apply (Hno (next (next lex))). }
  destruct (Z.eqb_spec x 46) as [_|H46].
  { unfold is_char_and. rewrite (At_peek _ _ A1).
    assert (H1 : exists cs s, reads (src lex) cs s /\ length cs = 1%nat /\
      Ret (set_kind (next lex) MP_TOKEN_DEL_PERIOD) = Ret (set_nested (set_kind (set_src lex s) MP_TOKEN_DEL_PERIOD)
        (nested_bracket_level lex + nesting MP_TOKEN_DEL_PERIOD))).
    { eexists _, _. split_and!; [exact R1|done|]. by apply (Hno (next lex)). }
    destruct (Z.eqb_spec (peek l) 46) as [E|E]; [|exact H1]. cbn [andb].
    destruct l as [|d l]; [discriminate E|]. cbn in E. subst d. rewrite (At_peek1 _ _ _ A1). cbn [tail].
    destruct (Z.eqb_spec (peek l) 46) as [E|E]; [|exact H1].
    destruct l as [|d l]; [discriminate E|]. cbn in E. subst d. pose proof (At_next _ _ _ A1) as A2.
    eexists _, _. split_and!; [exact (reads_trans _ _ _ _ _ R1 (reads_trans _ _ _ _ _ (reads_next _ _ _ A1) (reads_next _ _ _ A2)))|done|].
    by apply (Hno (next (next (next lex)))). }
  destruct (longest_chars_ok t (next_char (src lex)) l i i 0 A1) as (cs & s & E & R & Hcs & _).
  { intros y Hy. by apply tok_enc_chars, Hs, list_elem_of_further. }
  rewrite E. destruct (Hi x t i H99 H101 eq_refl H33 H46) as [k Hk].
  destruct (longest_chars t l i i 0) as [n j]. cbn [fst snd] in *. rewrite Hk. cbn [option_map].
  eexists _, s. split_and!; [exact (reads_trans _ _ _ _ _ R1 R)|cbn; lia|].
  rewrite rd_Ret with (x := k) by (try lia; by rewrite Nat2Z.id). cbn [obind].
  unfold nesting, next. cbn [nested_bracket_level set_kind set_src].
  destruct (opens k); [|destruct (closes k)]; unfold sint;
    try (rewrite !(proj2 (Z.leb_le _ _)), !(proj2 (Z.ltb_lt _ _)) by lia; done).
  rewrite Z.add_0_r. done.
Qed.

Lemma sized_operator lex c l r : At (src lex) (c :: l) ->
  (forall op k, r = Some (op, k) -> is_prefix op (c :: l) = true) ->
  match sized r with
  | Some (n, k) => exists cs s, reads (src lex) cs s /\ length cs = n /\
      operator_token lex = Ret (set_nested (set_kind (set_src lex s) k) (nested_bracket_level lex + nesting k))
  | None => operator_token lex = Ret (set_kind (next lex) MP_TOKEN_INVALID)
  end ->
  match r with
  | Some (op, k) => exists s, reads (src lex) op s /\
      operator_token lex = Ret (set_nested (set_kind (set_src lex s) k) (nested_bracket_level lex + nesting k))
  | None => operator_token lex = Ret (set_kind (next lex) MP_TOKEN_INVALID)
  end.
Proof.
  intros A Hp H. destruct r as [[op k]|]; [|exact H]. destruct H as (cs & s & R & Hl & E).
  exists s. split; [|exact E]. specialize (Hp op k eq_refl). apply is_prefix_take in Hp.
  pose proof (reads_take _ _ _ _ R A) as Hcs. cbn in Hl. congruence.
Qed.

(** The longest operator, or an invalid character. *)
Lemma operator_token_ok lex c l : At (src lex) (c :: l) -> c <> 99 -> c <> 101 ->
  - 2 ^ 31 < nested_bracket_level lex < 2 ^ 31 - 1 ->
  match longest_operator (c :: l) with
  | Some (op, k) => exists s, reads (src lex) op s /\
      operator_token lex = Ret (set_nested (set_kind (set_src lex s) k) (nested_bracket_level lex + nesting k))
  | None => operator_token lex = Ret (set_kind (next lex) MP_TOKEN_INVALID)
  end.
Proof.
  intros A H99 H101 Hn. apply (sized_operator lex c l (longest_operator (c :: l)) A).
  - intros op k. apply longest_prefix.
  - rewrite <- (walk_longest (c :: l) H99 H101). by apply operator_token_walk.
Qed.
End Words.
