(* ===== verification/LexerSpec.v ===== *)
(** * The tokens of a source: progress, safety and indentation

    [mp_lexer_to_next] returns, unless memory runs out or the source names a character with
    backslash [N]: no loop runs for ever, no array is accessed out of its bounds, and no counter
    overflows, for sources of up to [2 ^ 25] bytes.  Each token but the last brings the end
    nearer, and the indentation tokens are balanced with the stack of levels. *)

From Stdlib Require Import String.
From S2P Require Import Prelude Malloc Unicode Vstr SmallInt Token Lexer LexerStream LexerText LexerWords.
Local Open Scope Z_scope.

Section LexerSpec.
Context {allocator : Allocator Z}.
Variable mp_optimise_value : Z.
Implicit Types (lex : mp_lexer_t) (s : stream_t) (v : vstr_t).

(** The invariant between tokens. *)
Record lex_wf lex : Prop := {
  lw_src : stream_wf (src lex);
  lw_vstr : Vstr.wf (vstr lex);
  lw_buf : fixed_buf (vstr lex) = false;
  lw_levels : Z.of_nat (length (indent_level lex)) = alloc_indent_level lex;
  lw_num : 1 <= num_indent_level lex <= alloc_indent_level lex;
  lw_bottom : indent_level lex !! 0%nat = Some 0;
  lw_room : alloc_indent_level lex + 8 * left_of lex <= 2 ^ 29;
  lw_nested : Z.abs (nested_bracket_level lex) + left_of lex <= 2 ^ 30;
  lw_dent : - alloc_indent_level lex <= emit_dent lex <= num_indent_level lex - 1
}.

(** The number of open blocks, once the pending tokens are counted. *)
Definition depth lex : Z := num_indent_level lex - 1 - emit_dent lex.
Definition opening (k : mp_token_kind_t) : Z :=
  match k with MP_TOKEN_INDENT => 1 | MP_TOKEN_DEDENT => -1 | _ => 0 end.

(** What each token but the last decreases. *)
Definition potential lex : Z := 3 * left_of lex + num_indent_level lex + Z.abs (emit_dent lex).

Lemma left_nonneg lex : 0 <= left_of lex.
Proof. unfold left_of. lia. Qed.

(** The effect of one token: it begins where skipping stops, at its line and column. *)
Record token_post lex lex' : Prop := {
  tp_wf : lex_wf lex';
  tp_position : exists ws cs s, reads (src lex) ws s /\ reads s cs (src lex') /\ skipped false (stream s) /\
    (tok_line lex', tok_column lex') = (line s, column s);
  tp_depth : depth lex' = depth lex + opening (tok_kind lex');
  tp_progress : potential lex' < potential lex \/ tok_kind lex' = MP_TOKEN_END /\ stream (src lex') = [] /\ emit_dent lex' = 0
}.

(** ** Indentation *)

Lemma indent_top_ok lex : lex_wf lex -> exists top, indent_top lex = Ret top /\
  indent_level lex !! Z.to_nat (num_indent_level lex - 1) = Some top.
Proof.
  intros H. pose proof (lw_num _ H). pose proof (lw_levels _ H). pose proof (lw_room _ H). pose proof (left_nonneg lex).
  unfold indent_top. rewrite wrap_small by lia. apply rd_in_bounds. lia.
Qed.

Lemma indent_push_ok lex n : lex_wf lex -> alloc_indent_level lex + 8 * left_of lex <= 2 ^ 29 - 8 ->
  safely [MemoryError] (fun lex' => exists alloc l, lex' = set_indents lex alloc (num_indent_level lex + 1) l /\
    Z.of_nat (length l) = alloc /\ alloc_indent_level lex <= alloc <= alloc_indent_level lex + 8 /\
    num_indent_level lex + 1 <= alloc /\ l !! 0%nat = Some 0) (indent_push lex n).
Proof.
  intros H Hroom. pose proof (lw_num _ H). pose proof (lw_levels _ H) as Hl. pose proof (left_nonneg lex). pose proof (lw_bottom _ H) as Hb.
  assert (Hwr : forall a l, Z.of_nat (length l) = a -> num_indent_level lex < a -> l !! 0%nat = Some 0 ->
    alloc_indent_level lex <= a <= alloc_indent_level lex + 8 ->
    safely [MemoryError] (fun lex' => exists alloc l, lex' = set_indents lex alloc (num_indent_level lex + 1) l /\
      Z.of_nat (length l) = alloc /\ alloc_indent_level lex <= alloc <= alloc_indent_level lex + 8 /\
      num_indent_level lex + 1 <= alloc /\ l !! 0%nat = Some 0)
      (let! l := wr l (num_indent_level lex) (wrap 16 n) in Ret (set_indents lex a (wrap 32 (num_indent_level lex + 1)) l))).
  { intros a l Ha Hn Hz Hr. rewrite wr_Ret by lia. cbn [obind safely]. rewrite wrap_small by lia.
    eexists _, _. split_and!; [done|by rewrite length_insert|lia..|]. by rewrite list_lookup_insert_ne by lia. }
  unfold indent_push. destruct (Z.leb_spec (alloc_indent_level lex) (num_indent_level lex)).
  - unfold MICROPY_ALLOC_LEXEL_INDENT_INC. rewrite (wrap_small 32 (_ + 8)) by lia.
    destruct (m_renew_cases 2 (indent_level lex) (alloc_indent_level lex + 8)) as [E|E]; [lia..| |]; rewrite E;
      cbn [obind indent_level num_indent_level alloc_indent_level set_indents].
    + apply Hwr; [rewrite length_app, length_replicate; lia|lia| |lia]. by apply lookup_app_l_Some.
    + by apply list_elem_of_here.
  - cbn [obind]. apply Hwr; [done|lia|done|lia].
Qed.

Lemma dedent_ok fuel lex n : lex_wf lex -> 0 <= n -> - alloc_indent_level lex < emit_dent lex - num_indent_level lex + 1 ->
  emit_dent lex <= 0 -> num_indent_level lex < Z.of_nat fuel ->
  exists k top, dedent fuel lex n = Ret (set_dent (set_indents lex (alloc_indent_level lex) (num_indent_level lex - k) (indent_level lex))
      (emit_dent lex - k)) /\ 0 <= k < num_indent_level lex /\
    indent_level lex !! Z.to_nat (num_indent_level lex - k - 1) = Some top /\ top <= n.
Proof.
  revert lex. induction fuel as [|fuel IH]; intros lex H Hn Hd He Hf; [pose proof (lw_num _ H); lia|]. cbn [dedent].
  destruct (indent_top_ok lex H) as (top & -> & Etop). cbn [obind].
  pose proof (lw_num _ H). pose proof (lw_levels _ H). pose proof (lw_room _ H). pose proof (left_nonneg lex). pose proof (lw_dent _ H).
  destruct (Z.ltb_spec n top) as [Hlt|Hge].
  - assert (Hnum : 2 <= num_indent_level lex).
    { destruct (Z.eq_dec (num_indent_level lex) 1) as [E|]; [|lia]. rewrite E in Etop. change (Z.to_nat (1 - 1)) with 0%nat in Etop.
      rewrite (lw_bottom _ H) in Etop. injection Etop as <-. lia. }
    unfold indent_pop, sint. rewrite wrap_small by lia. cbn [emit_dent set_indents].
    rewrite (proj2 (Z.leb_le _ _)), (proj2 (Z.ltb_lt _ _)) by lia. cbn [andb obind].
    edestruct (IH (set_dent (set_indents lex (alloc_indent_level lex) (num_indent_level lex - 1) (indent_level lex)) (emit_dent lex - 1)))
      as (k & top' & E & Hk & Et & Hle).
    { split; cbn; try apply H; [lia|lia]. }
    { done. } { cbn. lia. } { cbn. lia. } { cbn. lia. }
    cbn in E, Hk, Et. exists (k + 1), top'. split_and!; [|lia..| |done].
    + rewrite E. unfold set_dent, set_indents. cbn. do 2 f_equal; lia.
    + rewrite <- Et. f_equal. f_equal. lia.
  - exists 0, top. rewrite !Z.sub_0_r. split_and!; [by destruct lex|lia..|done|done].
Qed.

(** ** One token *)

(** What happens after the white space, from the lexer [lex] at the token. *)
Definition read_post lex lex' : Prop :=
  lex_wf lex' /\ (exists cs, reads (src lex) cs (src lex')) /\
  (tok_line lex', tok_column lex') = (tok_line lex, tok_column lex) /\
  depth lex' = depth lex + opening (tok_kind lex') /\
  (potential lex' < potential lex \/ tok_kind lex' = MP_TOKEN_END /\ stream (src lex') = [] /\ emit_dent lex' = 0).

Lemma lex_wf_ready lex : lex_wf lex -> len (vstr lex) = 0 -> ready 0 lex.
Proof.
  intros H Hv. pose proof (lw_room _ H). pose proof (lw_num _ H). pose proof (left_nonneg lex). split; try apply H. lia.
Qed.

Lemma ready_kind e lex k : ready e lex -> ready e (set_kind lex k).
Proof. intros [? ? ? ?]. by split. Qed.

Lemma opening_text k : k <> MP_TOKEN_INDENT -> k <> MP_TOKEN_DEDENT -> opening k = 0.
Proof. by destruct k. Qed.

(** A lexer whose stream is shorter. *)
Lemma lex_wf_read lex s v k n cs : lex_wf lex -> reads (src lex) cs s -> Vstr.wf v -> fixed_buf v = false ->
  Z.abs n <= Z.abs (nested_bracket_level lex) + Z.of_nat (length cs) -> lex_wf (set_nested (upd lex s v k) n).
Proof.
  intros H (l & [_ E] & [A E'] & _) Hv Hf Hn.
  assert (Hl : left_of (set_nested (upd lex s v k) n) = left_of lex - Z.of_nat (length cs)).
  { unfold left_of. cbn [src set_nested upd]. rewrite E, E', length_app. lia. }
  pose proof (lw_room _ H). pose proof (lw_nested _ H). split; try apply H; try done; rewrite Hl; cbn; lia.
Qed.

Lemma reads_left lex lex' cs : reads (src lex) cs (src lex') -> left_of lex' = left_of lex - Z.of_nat (length cs).
Proof. intros (l & [_ E] & [_ E'] & _). unfold left_of. rewrite E, E', length_app. lia. Qed.

Lemma txt_post lex lex' : lex_wf lex -> txt 1 0 (set_kind lex MP_TOKEN_END) lex' -> read_post lex lex'.
Proof.
  intros H (cs & s & v & k & -> & R & Hn & Hv & Hf & K & _). cbn [src set_kind] in R.
  pose proof (lex_wf_read lex s v k (nested_bracket_level lex) cs H R Hv Hf ltac:(lia)) as Hwf.
  pose proof (reads_left lex (upd lex s v k) cs R) as Hl.
  split_and!; [done|by exists cs|done| |left; unfold potential in *; cbn in *; unfold left_of in *; cbn in *; lia].
  unfold depth. cbn. rewrite opening_text; [lia|destruct K as [->|[? ?]]; done..].
Qed.

Lemma longest_entry table l op k : longest table l = Some (op, k) -> op <> [] /\ (op, k) ∈ table.
Proof.
  unfold longest. assert (H : forall op k, @None (list Z * mp_token_kind_t) = Some (op, k) -> op <> [] /\ (op, k) ∈ table) by done.
  revert H. assert (Hin : forall e, e ∈ table -> e ∈ table) by done. revert Hin. generalize table at 1 4 as t.
  generalize (@None (list Z * mp_token_kind_t)) as best. intros best t. revert best.
  induction t as [|[op' k'] t IH]; intros best Hin H; cbn [foldl]; [apply H|].
  apply IH; [intros e He; by apply Hin, list_elem_of_further|]. intros op1 k1.
  destruct (is_prefix op' l); cbn [andb]; [|apply H].
  destruct (Nat.ltb_spec (length (default [] (fst <$> best))) (length op')); [|apply H]. intros [= <- <-].
  split; [by destruct op'; [cbn in *; lia|]|apply Hin, list_elem_of_here].
Qed.

Lemma operator_kind op k : (op, k) ∈ operator_table -> k <> MP_TOKEN_INDENT /\ k <> MP_TOKEN_DEDENT.
Proof.
  intros H. apply list_elem_of_fmap in H as ([w k'] & [= _ ->] & H). cbn.
  assert (F : forallb (fun e => negb (bool_decide (e.2 = MP_TOKEN_INDENT)) && negb (bool_decide (e.2 = MP_TOKEN_DEDENT))) operators = true) by done.
  rewrite forallb_forall in F. specialize (F _ ltac:(by apply list_elem_of_In)). cbn in F.
  apply andb_true_iff in F as [F1 F2]. apply negb_true_iff, bool_decide_eq_false in F1, F2. done.
Qed.

Lemma longest_operator_kind l op k : longest_operator l = Some (op, k) ->
  op <> [] /\ k <> MP_TOKEN_INDENT /\ k <> MP_TOKEN_DEDENT.
Proof. intros E. destruct (longest_entry _ _ _ _ E) as [H1 H2]. split; [exact H1|exact (operator_kind _ _ H2)]. Qed.

Lemma operator_result lex c l r : At (src lex) (c :: l) ->
  (forall op k, r = Some (op, k) -> op <> [] /\ k <> MP_TOKEN_INDENT /\ k <> MP_TOKEN_DEDENT) ->
  match r with
  | Some (op, k) => exists s, reads (src lex) op s /\
      operator_token lex = Ret (set_nested (set_kind (set_src lex s) k) (nested_bracket_level lex + nesting k))
  | None => operator_token lex = Ret (set_kind (next lex) MP_TOKEN_INVALID)
  end ->
  exists cs s k n, operator_token lex = Ret (set_nested (upd lex s (vstr lex) k) n) /\ cs <> [] /\ reads (src lex) cs s /\
    k <> MP_TOKEN_INDENT /\ k <> MP_TOKEN_DEDENT /\ Z.abs n <= Z.abs (nested_bracket_level lex) + 1.
Proof.
  intros A Hr H. destruct r as [[op k]|].
  - destruct H as (s & R & ->). destruct (Hr op k eq_refl) as (? & ? & ?).
    exists op, s, k, (nested_bracket_level lex + nesting k). split_and!; try done.
    unfold nesting. destruct (opens k), (closes k); lia.
  - rewrite H. exists [c], (next_char (src lex)), MP_TOKEN_INVALID, (nested_bracket_level lex).
    split_and!; try done; [apply (reads_next _ _ _ A)|lia].
Qed.

Lemma operator_post lex c l : lex_wf lex -> At (src lex) (c :: l) -> c <> 99 -> c <> 101 ->
  safely lex_errors (read_post lex) (operator_token lex).
Proof.
  intros H A H99 H101. pose proof (lw_nested _ H) as Hn. pose proof (left_nonneg lex) as Hl0.
  destruct (operator_result lex c l (longest_operator (c :: l)) A) as (cs & s & k & n & -> & Hcs & R & K1 & K2 & Habs).
  { exact (longest_operator_kind (c :: l)). }
  { apply operator_token_ok; [done..|lia]. }
  assert (Hc : (1 <= length cs)%nat) by (destruct cs; [done|cbn; lia]).
  pose proof (lex_wf_read lex s (vstr lex) k n cs H R (lw_vstr _ H) (lw_buf _ H) ltac:(lia)) as Hwf.
  pose proof (reads_left lex (upd lex s (vstr lex) k) cs R) as Hl.
  split_and!; [done|by exists cs|done| |left; unfold potential, left_of in *; cbn in *; lia].
  unfold depth. cbn. rewrite opening_text by done. lia.
Qed.

Lemma memory_in_lex_errors : [MemoryError] ⊆ lex_errors.
Proof. intros e [->|He]%elem_of_cons; [by left|by inversion He]. Qed.

(** A new line: the levels follow its column. *)
Lemma newline_ok lex : lex_wf lex -> emit_dent lex = 0 -> alloc_indent_level lex + 8 * left_of lex <= 2 ^ 29 - 8 ->
  safely lex_errors (fun lex' => lex_wf lex' /\ src lex' = src lex /\ (tok_line lex', tok_column lex') = (tok_line lex, tok_column lex) /\
    depth lex' = depth lex + opening (tok_kind lex') /\ potential lex' < potential lex + 3 /\
    tok_kind lex' <> MP_TOKEN_END) (newline_token lex).
Proof.
  intros H He Hroom. unfold newline_token.
  assert (H0 : lex_wf (set_kind lex MP_TOKEN_NEWLINE)) by (split; apply H).
  destruct (indent_top_ok _ H0) as (top & -> & _). cbn [obind].
  pose proof (lw_num _ H). pose proof (lw_nested _ H). pose proof (left_nonneg lex).
  set (n := wrap 32 (column (src (set_kind lex MP_TOKEN_NEWLINE)) - 1)).
  assert (Hn : 0 <= n) by apply wrap_range, (ltac:(lia) : 0 <= 32). clearbody n.
  destruct (Z.eqb_spec n top); [|destruct (Z.ltb_spec top n)].
  - cbn [safely]. split_and!; try done; unfold depth, potential, left_of; cbn; lia.
  - eapply safely_bind; [eapply safely_weaken; [by apply indent_push_ok|exact memory_in_lex_errors|intros lex' P; exact P]|].
    intros lex' (a & l & -> & Hl & Ha & Hna & Hb). cbn in Ha, Hna. cbn [emit_dent set_indents set_kind].
    rewrite He. cbn [obind safely]. split_and!; try done; unfold depth, potential, left_of in *; cbn in *; try lia.
    split; cbn; try apply H; unfold left_of in *; cbn; try lia; done.
  - destruct (dedent_ok (S (length (indent_level (set_kind lex MP_TOKEN_NEWLINE)))) (set_kind lex MP_TOKEN_NEWLINE) n H0 Hn)
      as (k & t & -> & Hk & Et & Hle); [cbn; lia|cbn; lia|pose proof (lw_levels _ H); cbn; lia|].
    cbn [obind]. cbn in Hk, Et.
    unfold indent_top. cbn [indent_level num_indent_level set_dent set_indents set_kind].
    pose proof (lw_room _ H). rewrite wrap_small by lia. rewrite (rd_Ret _ _ t) by (done || lia). cbn [obind].
    assert (Hpost : forall kd, (kd = MP_TOKEN_NEWLINE \/ kd = MP_TOKEN_DEDENT_MISMATCH) ->
      let lex' := set_kind (set_dent (set_indents (set_kind lex MP_TOKEN_NEWLINE) (alloc_indent_level lex)
        (num_indent_level lex - k) (indent_level lex)) (emit_dent lex - k)) kd in
      lex_wf lex' /\ src lex' = src lex /\ (tok_line lex', tok_column lex') = (tok_line lex, tok_column lex) /\
      depth lex' = depth lex + opening (tok_kind lex') /\ potential lex' < potential lex + 3 /\ tok_kind lex' <> MP_TOKEN_END).
    { intros kd Hkd. cbn. split_and!; try done; unfold depth, potential, left_of; cbn;
        try (destruct Hkd as [-> | ->]; cbn; done || lia); try lia.
      split; cbn; try apply H; lia. }
    destruct (negb _); cbn [safely]; [apply (Hpost MP_TOKEN_DEDENT_MISMATCH); by right|].
    apply (Hpost MP_TOKEN_NEWLINE). by left.
Qed.

(** The lexer at the first character of a token, with no text yet. *)
Definition at_start lex s : mp_lexer_t := set_position (set_src (set_vstr lex (vstr_reset (vstr lex))) s).

Lemma at_start_wf lex cs s : lex_wf lex -> reads (src lex) cs s ->
  lex_wf (at_start lex s) /\ left_of (at_start lex s) = left_of lex - Z.of_nat (length cs) /\
  len (vstr (at_start lex s)) = 0.
Proof.
  intros H R. pose proof (reads_left lex (at_start lex s) cs R) as Hl. destruct R as (l & _ & [A _] & _).
  pose proof (lw_room _ H). pose proof (lw_nested _ H).
  split_and!; [|done|done]. split; try apply H; try done; rewrite ?Hl; try (cbn; lia).
  pose proof (lw_vstr _ H) as [V1 V2 V3]. by split; cbn; [lia| |].
Qed.

(** The token itself: one of the branches of [mp_lexer_to_next]. *)
Definition read_token lex (had_physical_newline : bool) : outcome mp_lexer_t :=
  if emit_dent lex <? 0 then
    let! d := sint (emit_dent lex + 1) in Ret (set_dent (set_kind lex MP_TOKEN_DEDENT) d)
  else if 0 <? emit_dent lex then
    let! d := sint (emit_dent lex - 1) in Ret (set_dent (set_kind lex MP_TOKEN_INDENT) d)
  else if had_physical_newline && (nested_bracket_level lex =? 0) then newline_token lex
  else if is_end (src lex) then Ret (set_kind lex MP_TOKEN_END)
  else if is_string_or_bytes (src lex) then string_token lex
  else if is_head_of_identifier (src lex) then name_token mp_optimise_value lex
  else if is_digit (src lex) || (is_char (src lex) 46 && is_following_digit (src lex)) then number_token lex
  else operator_token lex.

Lemma to_next_read lex l : At (src lex) l -> exists cs s l' had,
  mp_lexer_to_next mp_optimise_value lex = read_token (at_start lex s) had /\
  reads (src lex) cs s /\ At s l' /\ l = cs ++ l' /\ skipped false l' /\ (had = true -> cs <> []).
Proof.
  intros A. unfold mp_lexer_to_next.
  destruct (skip_whitespace_ok (set_vstr lex (vstr_reset (vstr lex))) l false A) as (cs & s & l' & had & -> & R & A' & E & D & Hh).
  exists cs, s, l', had. done.
Qed.

(** A pending indentation token. *)
Lemma pending_post lex k d : lex_wf lex -> opening k = emit_dent lex - d -> k <> MP_TOKEN_END ->
  Z.abs d < Z.abs (emit_dent lex) -> - alloc_indent_level lex <= d <= num_indent_level lex - 1 -> opening k <> 0 ->
  read_post lex (set_dent (set_kind lex k) d).
Proof.
  intros H Hk Hend Hd Hr _. split_and!.
  - split; try apply H. exact Hr.
  - exists []. apply reads_refl with (stream (src lex)). split; [apply H|done].
  - done.
  - unfold depth. cbn. lia.
  - left. unfold potential, left_of. cbn. lia.
Qed.

(** These begin by setting the kind. *)
Lemma string_token_kind lex k : string_token lex = string_token (set_kind lex k).
Proof. unfold string_token. reflexivity. Qed.
Lemma name_token_kind lex k : name_token mp_optimise_value lex = name_token mp_optimise_value (set_kind lex k).
Proof. unfold name_token. reflexivity. Qed.
Lemma number_token_kind lex k : number_token lex = number_token (set_kind lex k).
Proof. unfold number_token. reflexivity. Qed.

(** The tokens that read characters. *)
Lemma word_post lex : lex_wf lex -> len (vstr lex) = 0 -> emit_dent lex = 0 -> skipped false (stream (src lex)) ->
  safely lex_errors (read_post lex)
    (if is_end (src lex) then Ret (set_kind lex MP_TOKEN_END)
     else if is_string_or_bytes (src lex) then string_token lex
     else if is_head_of_identifier (src lex) then name_token mp_optimise_value lex
     else if is_digit (src lex) || (is_char (src lex) 46 && is_following_digit (src lex)) then number_token lex
     else operator_token lex).
Proof.
  intros H Hv He Hs. pose proof (lex_wf_ready _ H Hv) as Hready. pose proof (ready_kind _ _ MP_TOKEN_END Hready) as Hready'.
  destruct (stream (src lex)) as [|c l] eqn:El.
  { assert (A : At (src lex) []) by (split; [apply H|done]). rewrite (proj1 (At_nil _ A)). cbn [safely].
    split_and!; [by split; apply H|by exists []; apply reads_refl with []|done|unfold depth; cbn; lia|by right]. }
  assert (A : At (src lex) (c :: l)) by (split; [apply H|done]). rewrite (proj1 (At_cons _ _ _ A)).
  destruct (is_string_or_bytes (src lex)) eqn:Hstr.
  { rewrite (string_token_kind _ MP_TOKEN_END). eapply safely_weaken; [apply (string_token_ok 0 (set_kind lex MP_TOKEN_END)); [done|lia|done]|done|]. intros lex' T. by apply txt_post. }
  destruct (is_head_of_identifier (src lex)) eqn:Hid.
  { rewrite (name_token_kind _ MP_TOKEN_END). eapply safely_weaken; [eapply (name_token_ok _ 0 (set_kind lex MP_TOKEN_END) c l); [done|lia|done|done|]|exact memory_in_lex_errors|].
    - unfold id_char. unfold is_head_of_identifier, is_letter in Hid. rewrite (At_peek _ _ A) in Hid. cbn [peek] in Hid. by rewrite Hid.
    - intros lex' (cs & l' & _ & W & _). apply txt_post; [done|]. eapply txt_weaken; [by eapply reads_word_txt|cbn; lia|lia]. }
  destruct (is_digit (src lex) || _).
  { rewrite (number_token_kind _ MP_TOKEN_END). eapply safely_weaken; [apply (number_token_ok 0 (set_kind lex MP_TOKEN_END) c l); [done|lia|done]|done|]. intros lex' T. by apply txt_post. }
  unfold is_head_of_identifier, is_letter in Hid. rewrite (At_peek _ _ A) in Hid. cbn [peek] in Hid.
  eapply operator_post; [done|exact A|by intros ->|by intros ->].
Qed.

Lemma read_token_ok lex had : lex_wf lex -> len (vstr lex) = 0 -> skipped false (stream (src lex)) ->
  (had = true -> alloc_indent_level lex + 8 * left_of lex <= 2 ^ 29 - 8) ->
  safely lex_errors (fun lex' => lex_wf lex' /\ (exists cs, reads (src lex) cs (src lex')) /\
    (tok_line lex', tok_column lex') = (tok_line lex, tok_column lex) /\ depth lex' = depth lex + opening (tok_kind lex') /\
    (potential lex' < potential lex + (if had then 3 else 0) \/
     tok_kind lex' = MP_TOKEN_END /\ stream (src lex') = [] /\ emit_dent lex' = 0)) (read_token lex had).
Proof.
  intros H Hv Hs Hroom. unfold read_token, sint.
  pose proof (lw_dent _ H). pose proof (lw_room _ H). pose proof (lw_num _ H). pose proof (left_nonneg lex).
  assert (Hpost : forall m, safely lex_errors (read_post lex) m -> safely lex_errors (fun lex' => lex_wf lex' /\
    (exists cs, reads (src lex) cs (src lex')) /\
    (tok_line lex', tok_column lex') = (tok_line lex, tok_column lex) /\ depth lex' = depth lex + opening (tok_kind lex') /\
    (potential lex' < potential lex + (if had then 3 else 0) \/
     tok_kind lex' = MP_TOKEN_END /\ stream (src lex') = [] /\ emit_dent lex' = 0)) m).
  { intros m Hm. eapply safely_weaken; [exact Hm|done|]. intros lex' (P1 & P2 & P3 & P4 & [P5|P5]); split_and!; try done;
      [left; destruct had; lia|by right]. }
  destruct (Z.ltb_spec (emit_dent lex) 0).
  { rewrite (proj2 (Z.leb_le _ _)), (proj2 (Z.ltb_lt _ _)) by lia. cbn [andb obind].
    apply Hpost. cbn [safely]. apply pending_post; cbn; try done; lia. }
  destruct (Z.ltb_spec 0 (emit_dent lex)).
  { rewrite (proj2 (Z.leb_le _ _)), (proj2 (Z.ltb_lt _ _)) by lia. cbn [andb obind].
    apply Hpost. cbn [safely]. apply pending_post; cbn; try done; lia. }
  destruct (had && _) eqn:Hh; [|apply Hpost, word_post; try done; lia].
  apply andb_true_iff in Hh as [-> _].
  eapply safely_weaken; [apply newline_ok; [done|lia|by apply Hroom]|done|].
  intros lex' (P1 & P2 & P3 & P4 & P5 & P6). split_and!; try done; [|by left].
  exists []. rewrite P2. apply reads_refl with (stream (src lex)). split; [apply H|done].
Qed.

(** The next token. *)
Lemma to_next_ok lex : lex_wf lex -> safely lex_errors (token_post lex) (mp_lexer_to_next mp_optimise_value lex).
Proof.
  intros H. destruct (to_next_read lex (stream (src lex))) as (cs & s & l' & had & -> & R & A & E & D & Hh); [by split; [apply H|]|].
  destruct (at_start_wf lex cs s H R) as (H1 & Hl & Hv).
  assert (Hp : potential (at_start lex s) + (if had then 3 else 0) <= potential lex).
  { unfold potential. rewrite Hl. cbn. destruct had; [|lia]. destruct cs; [by destruct (Hh eq_refl)|cbn; lia]. }
  pose proof (lw_room _ H).
  eapply safely_weaken; [apply read_token_ok; [done|done|by cbn; rewrite (At_stream _ _ A)|]|done|].
  { intros ->. rewrite Hl. cbn [alloc_indent_level at_start set_position set_src set_vstr].
    destruct cs; [by destruct (Hh eq_refl)|cbn [length]; lia]. }
  intros lex' (P1 & (cs' & R') & P3 & P4 & P5). split; [done| |done|].
  - exists cs, cs', s. split_and!; try done. by rewrite (At_stream _ _ A).
  - destruct P5 as [P5|P5]; [left; lia|by right].
Qed.

(** ** All the tokens *)

Lemma depth_nonneg lex : lex_wf lex -> 0 <= depth lex.
Proof. intros H. pose proof (lw_dent _ H). unfold depth. lia. Qed.

(** The balance of the indentation tokens of a list. *)
Definition balance (ts : list token) : Z := foldr (fun t z => opening t.1 + z) 0 ts.

(** The tokens after the current one, from depth [d]: they stop at the end of the source, and no
    block is closed that is not open. *)
Definition well_nested (d : Z) (ts : list token) : Prop :=
  (exists body text, ts = body ++ [(MP_TOKEN_END, text)] /\ Forall (fun t => t.1 <> MP_TOKEN_END) body) /\
  forall p q, ts = p ++ q -> 0 <= d + balance p.

Lemma well_nested_cons d t ts : t.1 <> MP_TOKEN_END -> 0 <= d -> well_nested (d + opening t.1) ts -> well_nested d (t :: ts).
Proof.
  intros Ht Hd [(body & text & -> & F) B]. split.
  - exists (t :: body), text. split; [done|by constructor].
  - intros [|t' p] q E; [cbn; lia|]. injection E as <- E. cbn [balance foldr]. specialize (B p q E).
    unfold balance in *. lia.
Qed.

(** The tokens from the current one on. *)
Lemma tokens_ok n lex d : lex_wf lex -> 0 <= d -> depth lex <= d + opening (tok_kind lex) -> potential lex + 1 < Z.of_nat n ->
  safely lex_errors (fun ts => well_nested d ts /\ Z.of_nat (length ts) <= potential lex + 2) (tokens mp_optimise_value n lex).
Proof.
  revert lex d. induction n as [|n IH]; intros lex d H Hd Hdepth Hn.
  { pose proof (left_nonneg lex). pose proof (lw_num _ H). unfold potential in Hn. lia. }
  cbn [tokens]. pose proof (left_nonneg lex). pose proof (lw_num _ H). pose proof (depth_nonneg lex H).
  assert (Hend : forall lex d, tok_kind lex = MP_TOKEN_END -> 0 <= d -> well_nested d [current lex]).
  { clear. intros lex d E Hd. split.
    - exists [], (Vstr.str (vstr lex)). split; [by unfold current; rewrite E|done].
    - intros [|t [|]] q Eq; cbn; [lia| |done]. injection Eq as <- _. unfold current. cbn. rewrite E. cbn. lia. }
  destruct (decide (tok_kind lex = MP_TOKEN_END)) as [E|E].
  { rewrite bool_decide_eq_true_2 by done. cbn [safely]. split; [by apply Hend|unfold potential; cbn; lia]. }
  rewrite bool_decide_eq_false_2 by done.
  eapply safely_bind; [by apply to_next_ok|]. intros lex' [P1 _ P3 P4].
  assert (Hrec : safely lex_errors (fun ts => well_nested (d + opening (tok_kind lex)) ts /\ Z.of_nat (length ts) <= potential lex + 1)
    (tokens mp_optimise_value n lex')).
  { destruct P4 as [P4|(P4 & _)].
    - eapply safely_weaken; [apply (IH lex' (d + opening (tok_kind lex)) P1); lia|done|].
      intros ts [? ?]. split; [done|lia].
    - destruct n as [|n]; [unfold potential in Hn; lia|]. cbn [tokens]. rewrite bool_decide_eq_true_2 by done. cbn [safely].
      split; [apply Hend; [done|lia]|unfold potential; cbn; lia]. }
  eapply safely_bind; [exact Hrec|]. intros ts [W L]. cbn [safely]. split; [|cbn [length]; lia].
  by apply well_nested_cons.
Qed.

Lemma normalise_length source : Forall byte source -> (length (normalise source) <= length source + 1)%nat.
Proof. intros _. apply norm_length. Qed.

(** The lexer before the first token is read. *)
Definition start_lexer source : mp_lexer_t :=
  mk_lexer (next_char (next_char (next_char (mk_stream 0 0 0 source 1 (wrap 32 (-2))))))
    0 0 MICROPY_ALLOC_LEXER_INDENT_INIT 1 (<[0%nat := 0]> (replicate 10 fresh)) 0 0 MP_TOKEN_END
    (mk_vstr 32 0 (replicate 32 fresh) false).

Lemma lexer_created source : Forall byte source -> Z.of_nat (length source) <= 2 ^ 25 ->
  mp_lexer_new_from_str_len mp_optimise_value source = Raise MemoryError \/
  mp_lexer_new_from_str_len mp_optimise_value source =
    (let! lex := mp_lexer_to_next mp_optimise_value (start_lexer source) in
     Ret (if negb (tok_column lex =? 1) then set_kind lex MP_TOKEN_INDENT else lex)) /\
  lex_wf (start_lexer source) /\ At (src (start_lexer source)) (normalise source) /\ len (vstr (start_lexer source)) = 0 /\
  column (src (start_lexer source)) = 1.
Proof.
  intros Hb Hlen. destruct (initial_At source Hb) as [A P]. apply (f_equal snd) in P. cbn [snd] in P.
  pose proof (norm_length source 0) as Hn. fold (normalise source) in Hn.
  assert (H0 : lex_wf (start_lexer source)).
  { assert (Hleft : left_of (start_lexer source) = Z.of_nat (length (normalise source))).
    { unfold left_of, start_lexer. cbn [src]. by rewrite (At_stream _ _ A). }
    split; rewrite ?Hleft; cbn; try done; unfold MICROPY_ALLOC_LEXER_INDENT_INIT; try lia; apply A. }
  unfold mp_lexer_new_from_str_len, mp_lexer_new, m_malloc, m_new.
  change (sizeof_mp_reader_mem_t =? 0) with false. change (sizeof_mp_lexer_t =? 0) with false. cbn iota.
  destruct (m_renew_ok sizeof_mp_reader_mem_t); cbn [obind]; [|by left].
  destruct (m_renew_ok sizeof_mp_lexer_t); cbn [obind]; [|by left].
  change (m_malloc 2 (wrap 32 (2 * MICROPY_ALLOC_LEXER_INDENT_INIT))) with
    (if m_renew_ok 20 then Ret (replicate 10 fresh) else Raise MemoryError : outcome (list Z)).
  destruct (m_renew_ok 20); cbn [obind]; [|by left].
  change (vstr_init 32) with (let! b := if m_renew_ok 32 then Ret (replicate 32 fresh) else Raise MemoryError in Ret (mk_vstr 32 0 b false)).
  destruct (m_renew_ok 32); cbn [obind]; [|by left].
  rewrite wr_Ret by (rewrite length_replicate; lia). cbn [obind]. right. by split_and!.
Qed.

(** The lexer of a source is at its first token. *)
Lemma mp_lexer_new_ok source : Forall byte source -> Z.of_nat (length source) <= 2 ^ 25 ->
  safely lex_errors (fun lex => lex_wf lex /\ potential lex <= 3 * Z.of_nat (length source) + 4 /\
    depth lex <= opening (tok_kind lex)) (mp_lexer_new_from_str_len mp_optimise_value source).
Proof.
  intros Hb Hlen. destruct (lexer_created source Hb Hlen) as [->|(-> & H0 & A & _)]; [by left|].
  pose proof (norm_length source 0) as Hn. fold (normalise source) in Hn.
  set (lex0 := start_lexer source) in *.
  assert (Hleft : left_of lex0 = Z.of_nat (length (normalise source))) by (unfold left_of; by rewrite (At_stream _ _ A)).
  eapply safely_bind; [by apply to_next_ok|]. intros lex' [P1 _ P3 P4]. cbn [safely].
  assert (Hp : potential lex' <= 3 * Z.of_nat (length source) + 4).
  { assert (potential lex0 <= 3 * Z.of_nat (length source) + 4) by (unfold potential; rewrite Hleft; cbn; lia).
    destruct P4 as [|(E & Es & Ed)]; [lia|]. pose proof (depth_nonneg lex' P1). unfold potential, depth, left_of in *. rewrite Es, Ed in *.
    rewrite E in P3. cbn in *. lia. }
  assert (Hd0 : depth lex0 = 0) by done.
  destruct (negb _); [|split_and!; [done|done|lia]]. split_and!; [by split; apply P1|done|].
  change (depth (set_kind lex' MP_TOKEN_INDENT)) with (depth lex'). rewrite P3, Hd0. cbn. destruct (tok_kind lex'); cbn; lia.
Qed.
End LexerSpec.
