(* ===== verification/LexerTokens.v ===== *)
(** * The theorems of the lexer

    The safety of one token and of a whole source, the names and keywords, and the operators;
    each is an application of the lemmas of [LexerSpec.v] and [LexerWords.v]. *)

From Stdlib Require Import String.
From S2P Require Import Prelude Malloc Unicode Vstr SmallInt Token Lexer LexerStream LexerText LexerWords LexerSpec.
Local Open Scope Z_scope.

(** A heap that gives blocks of up to 6400000 bytes, of garbage. *)
#[local] Instance sample_heap : Allocator Z := {| m_renew_ok n := n <=? 6400000; fresh := 170 |}.

(** C18. One token.  From a well-formed lexer [mp_lexer_to_next] returns, or runs out of memory, or meets
    an escape [\N]; no index is out of bounds and no counter overflows.  The lexer it returns is
    well formed, the token is at the line and column where the white space ends, an indentation token changes
    the number of open blocks by one and no other does, and every token but the last brings the end nearer. *)
Theorem mp_lexer_to_next_spec `{Allocator Z} opt lex : lex_wf lex ->
  safely lex_errors (token_post lex) (mp_lexer_to_next opt lex).
Proof. apply to_next_ok. Qed.

(** C19. A whole source of at most [2^25] bytes.  Creating the lexer and reading tokens until [MP_TOKEN_END] ends after at most
    [3 * n + 6] tokens, unless memory runs out or an escape [\N] occurs; only the last token is [MP_TOKEN_END], and the [DEDENT]
    tokens never outnumber the [INDENT] tokens before them. *)
Theorem mp_lexer_tokens_spec `{Allocator Z} opt source : Forall byte source -> Z.of_nat (length source) <= 2 ^ 25 ->
  safely lex_errors (fun ts => well_nested 0 ts /\ Z.of_nat (length ts) <= 3 * Z.of_nat (length source) + 6)
    (let! lex := mp_lexer_new_from_str_len opt source in tokens opt (3 * length source + 6) lex).
Proof.
  intros Hb Hl. eapply safely_bind; [by apply mp_lexer_new_ok|]. intros lex (W & P & D).
  eapply safely_weaken; [apply (tokens_ok opt _ lex 0 W); lia|done|]. intros ts [? ?]. split; [done|lia].
Qed.

(** A name is the longest run of letters, digits, underscores and characters above 127, and its
    kind is the one the whole table of keywords gives it: the search that stops at the first greater
    keyword misses none.  The text and the position advance by exactly the name. *)
Theorem name_token_spec `{Allocator Z} opt lex c l : lex_wf lex -> len (vstr lex) = 0 -> At (src lex) (c :: l) -> id_char c = true ->
  safely [MemoryError] (fun lex' => exists cs l', l = cs ++ l' /\ At (src lex') l' /\
    Forall (fun c => id_char c = true) cs /\ (l' = [] \/ id_char (peek l') = false) /\
    Vstr.str (vstr lex') = c :: cs /\ tok_kind lex' = name_kind opt (c :: cs)) (name_token opt lex).
Proof.
  intros W Hv A Hc. eapply safely_weaken; [by apply (name_token_ok opt 0 lex c l (lex_wf_ready lex W Hv))|done|].
  intros lex' (cs & l' & E & (s & v & k & -> & _ & _ & _ & _ & St & _) & A' & F & D & K). exists cs, l'.
  split_and!; try done. cbn [vstr upd]. rewrite St. unfold Vstr.str. by rewrite Hv.
Qed.

(** C29. Operators and delimiters.  The walk over the encoded table takes the longest operator of the
    language that the source begins with, and the level of brackets follows the token; a character that begins none is an
    invalid token of one character. *)
Theorem operator_token_spec `{Allocator Z} lex c l : lex_wf lex -> At (src lex) (c :: l) -> c <> 99 -> c <> 101 ->
  match longest_operator (c :: l) with
  | Some (op, k) => exists s, reads (src lex) op s /\
      operator_token lex = Ret (set_nested (set_kind (set_src lex s) k) (nested_bracket_level lex + nesting k))
  | None => operator_token lex = Ret (set_kind (next lex) MP_TOKEN_INVALID)
  end.
Proof.
  intros W A H99 H101. apply operator_token_ok; try done. pose proof (lw_nested _ W). pose proof (left_nonneg lex). lia.
Qed.

(** The table of [py/lexer.c] lacks the keyword that the port added to the enumeration, so that
    with it the kinds of all later keywords are shifted by one: [is] would be read as [ipusyscall] and [lambda] as [is]. *)
Theorem keyword_search_upstream opt : keyword_search opt tok_kw_upstream 0 (chars "is" ++ [0]) = Ret (Some MP_TOKEN_KW_IPUSYSCALL) /\
  keyword_search opt tok_kw_upstream 0 (chars "lambda" ++ [0]) = Ret (Some MP_TOKEN_KW_IS).
Proof. by split; vm_compute. Qed.

(** ** Witnesses *)

(** A lexer at the beginning of a source. *)
Definition sample_lexer (source : string) : mp_lexer_t :=
  mk_lexer (next_char (next_char (next_char (mk_stream 0 0 0 (chars source) 1 (wrap 32 (-2))))))
    0 0 10 1 (0 :: replicate 9 170) 0 0 MP_TOKEN_END (mk_vstr 32 0 (replicate 32 170) false).

Lemma sample_lexer_ok source : forallb (fun c => (0 <=? c) && (c <? 256)) (chars source) = true -> Z.of_nat (length (chars source)) <= 1000 ->
  lex_wf (sample_lexer source) /\ At (src (sample_lexer source)) (normalise (chars source)).
Proof.
  intros Hb Hl. assert (F : Forall byte (chars source)).
  { apply list.Forall_forall. intros c Hc. rewrite forallb_forall in Hb. specialize (Hb c ltac:(by apply list_elem_of_In)). unfold byte. lia. }
  destruct (initial_At (chars source) F) as [A _]. split; [|exact A]. pose proof (norm_length (chars source) 0) as Hn. fold (normalise (chars source)) in Hn.
  assert (E : left_of (sample_lexer source) = Z.of_nat (length (normalise (chars source)))) by (unfold left_of, sample_lexer; cbn [src]; by rewrite (At_stream _ _ A)).
  split; rewrite ?E; cbn; try done; try lia; apply A.
Qed.

Lemma mp_lexer_to_next_spec_witness : safely lex_errors (token_post (sample_lexer "if x:")) (mp_lexer_to_next 0 (sample_lexer "if x:")).
Proof. apply mp_lexer_to_next_spec, (sample_lexer_ok "if x:"); [reflexivity|cbn; lia]. Defined.

Lemma mp_lexer_tokens_spec_witness :
  safely lex_errors (fun ts => well_nested 0 ts /\ Z.of_nat (length ts) <= 3 * 12 + 6)
    (let! lex := mp_lexer_new_from_str_len 0 (chars "if x:  yield") in tokens 0 (3 * 12 + 6) lex).
Proof. apply (mp_lexer_tokens_spec 0 (chars "if x:  yield")); [repeat constructor; cbn; lia|cbn; lia]. Defined.

Lemma name_token_spec_witness : safely [MemoryError] (fun lex' => exists cs l', chars "s not" ++ [10] = cs ++ l' /\ At (src lex') l' /\
    Forall (fun c => id_char c = true) cs /\ (l' = [] \/ id_char (peek l') = false) /\
    Vstr.str (vstr lex') = 105 :: cs /\ tok_kind lex' = name_kind 0 (105 :: cs)) (name_token 0 (sample_lexer "is not")).
Proof.
  apply name_token_spec; [apply (sample_lexer_ok "is not"); [reflexivity|cbn; lia]|reflexivity|apply (sample_lexer_ok "is not"); [reflexivity|cbn; lia]|reflexivity].
Defined.

Lemma operator_token_spec_witness : exists s, reads (src (sample_lexer "**=x")) (chars "**=") s /\
  operator_token (sample_lexer "**=x") = Ret (set_nested (set_kind (set_src (sample_lexer "**=x") s) MP_TOKEN_DEL_DBL_STAR_EQUAL) 0).
Proof.
  apply (operator_token_spec (sample_lexer "**=x") 42 (chars "*=x" ++ [10])); [| |done..];
    apply (sample_lexer_ok "**=x"); [reflexivity|cbn; lia|reflexivity|cbn; lia].
Defined.
