(* ===== verification/Mpprint.v ===== *)
(** * Formatted output ([py/mpprint.c], [py/objint.c])

    Strings with padding, integers in a base, and the interpreter of format strings.  The C
    functions send text to [print->print_strn] and return the number of characters; here they
    return both.  Text that C builds from the end of a buffer is a pair of the room left before
    it and the text so far.  The port is ILP32 ([mp_int_t] and [long] have 32 bits).  Of the
    formatting of floats only the text that [mp_format_float] computes is a parameter. *)

From Stdlib Require Import String.
From S2P Require Import Prelude Malloc SmallInt Token.
Local Open Scope Z_scope.

Definition PF_FLAG_LEFT_ADJUST : Z := 0x001.
Definition PF_FLAG_SHOW_SIGN : Z := 0x002.
Definition PF_FLAG_SPACE_SIGN : Z := 0x004.
Definition PF_FLAG_NO_TRAILZ : Z := 0x008.
Definition PF_FLAG_SHOW_PREFIX : Z := 0x010.
Definition PF_FLAG_SHOW_COMMA : Z := 0x020.
Definition PF_FLAG_PAD_AFTER_SIGN : Z := 0x040.
Definition PF_FLAG_CENTER_ADJUST : Z := 0x080.
Definition PF_FLAG_ADD_PERCENT : Z := 0x100.
Definition PF_FLAG_SHOW_OCTAL_LETTER : Z := 0x200.

Definition flag (flags f : Z) : bool := negb (Z.land flags f =? 0).

(** What a print function sends, and what it returns. *)
Definition printed : Type := list Z * Z.

(** [len += a; len += b] for two print functions. *)
Definition print_then (a : outcome printed) (b : outcome printed) : outcome printed :=
  let! '(out1, n1) := a in
  let! '(out2, n2) := b in
  let! n := sint (n1 + n2) in Ret (out1 ++ out2, n).
Notation "a +> b" := (print_then a b) (at level 50, left associativity) : c_scope.

(** ** Strings *)

(** [print->print_strn(print->data, str, strlen(str))] unless the string is empty; the result of type
    [int] is converted from [size_t]. *)
Definition mp_print_str (str : list Z) : printed := (str, swrap 32 (Z.of_nat (length str))).

Definition pad_spaces : list Z := replicate 16 32.
Definition pad_zeroes : list Z := replicate 16 48.

Fixpoint pad_loop (fuel : nat) (left_pad : Z) (pad_chars : list Z) (pad_size : Z) : outcome (list Z) :=
  match fuel with
  | O => OutOfFuel
  | S fuel =>
    if 0 <? left_pad then
      let p := if pad_size <? left_pad then pad_size else left_pad in
      let! out := pad_loop fuel (left_pad - p) pad_chars pad_size in
      Ret (take (Z.to_nat p) pad_chars ++ out)
    else Ret []
  end.

Definition mp_print_strn (str : list Z) (flags fill width : Z) : outcome printed :=
  let len := Z.of_nat (length str) in
  let pad := swrap 32 (width - len) in
  let '(pad_chars, pad_size) :=
    if (fill =? 0) || (fill =? 32) then (pad_spaces, 16)
    else if fill =? 48 then (pad_zeroes, 16)
    else ([fill], 1) in
  let! '(left_pad, right_pad) :=
    if flag flags PF_FLAG_CENTER_ADJUST then
      let left_pad := Z.quot pad 2 in let! right_pad := sint (pad - left_pad) in Ret (left_pad, right_pad)
    else if flag flags PF_FLAG_LEFT_ADJUST then Ret (0, pad) else Ret (pad, 0) in
  let padding n := pad_loop (S (Z.to_nat n)) n pad_chars pad_size in
  let! left := padding left_pad in
  let total := if 0 <? left_pad then left_pad else 0 in
  let total := swrap 32 (total + len) in
  let! right := padding right_pad in
  let! total := if 0 <? right_pad then sint (total + right_pad) else Ret total in
  Ret (left ++ str ++ right, total).

(** ** Integers *)

(** The room before the pointer [b] and the text from it on. *)
Definition backwards : Type := Z * list Z.

(** [ *(--b) = c], a [char]. *)
Definition push (c : Z) (b : backwards) : outcome backwards :=
  if 0 <? b.1 then Ret (b.1 - 1, wrap 8 c :: b.2) else Undef.

Definition INT_BUF_SIZE : Z := 16.

(** The digit of value [c]. *)
Definition digit_of (c base_char : Z) : Z := if 10 <=? c then c + (base_char - 10) else c + 48.

(** The digits of [x], as long as there is room. *)
Fixpoint print_digits (fuel : nat) (x base base_char : Z) (b : backwards) : outcome backwards :=
  match fuel with
  | O => OutOfFuel
  | S fuel =>
    let! b := push (digit_of (x mod base) base_char) b in
    if (0 <? b.1) && negb (x / base =? 0) then print_digits fuel (x / base) base base_char b else Ret b
  end.

(** A division by zero, which is undefined, is not reached: the base is 10 or 16. *)
Definition mp_print_int (x : Z) (sgn : bool) (base base_char flags fill width : Z) : outcome printed :=
  let x := wrap 32 x in
  let '(sign, x) :=
    if sgn then
      if swrap 32 x <? 0 then (45, wrap 32 (- x))
      else if flag flags PF_FLAG_SHOW_SIGN then (43, x)
      else if flag flags PF_FLAG_SPACE_SIGN then (32, x) else (0, x)
    else (0, x) in
  let b := (INT_BUF_SIZE, []) in
  let! b := if x =? 0 then push 48 b else print_digits (S (Z.to_nat INT_BUF_SIZE)) x base base_char b in
  if flag flags PF_FLAG_PAD_AFTER_SIGN then
    if negb (sign =? 0) then
      let! width' := sint (width - 1) in
      mp_print_strn [sign] flags fill 1 +> mp_print_strn b.2 flags fill width'
    else mp_print_strn b.2 flags fill width
  else
    let! b := if negb (sign =? 0) && (0 <? b.1) then push sign b else Ret b in
    mp_print_strn b.2 flags fill width.

(** *** The text of a small integer *)

Definition log_base2_floor : list Z := [0; 1; 1; 2; 2; 2; 2; 3; 3; 3; 3; 3; 3; 3; 3; 4].

Definition mp_int_format_size (num_bits base : Z) (prefix : option (list Z)) (comma : Z) : outcome Z :=
  let! log := rd log_base2_floor (base - 1) in
  if log =? 0 then Undef else
  let num_digits := num_bits / log + 1 in
  let num_commas := if negb (comma =? 0) then num_digits / 3 else 0 in
  let prefix_len := match prefix with Some p => Z.of_nat (length p) | None => 0 end in
  Ret (wrap 32 (num_digits + num_commas + prefix_len + 2)).

(** The digits of [num], with a comma after every third; [last_comma] is the room when the last
    comma was written. *)
Fixpoint format_digits (fuel : nat) (num base base_char comma last_comma : Z) (b : backwards) : outcome backwards :=
  match fuel with
  | O => OutOfFuel
  | S fuel =>
    let c := num mod base in
    let num := num / base in
    let! b := push (digit_of c base_char) b in
    let! '(last_comma, b) :=
      if negb (comma =? 0) && negb (num =? 0) && (0 <? b.1) && (last_comma - b.1 =? 3) then
        let! b := push comma b in Ret (b.1, b)
      else Ret (last_comma, b) in
    if (0 <? b.1) && negb (num =? 0) then format_digits fuel num base base_char comma last_comma b else Ret b
  end.

Section Printing.
Context {allocator : Allocator Z}.

(** The text of the small integer [num], without its terminator.  Its length is [fmt_size].  The buffer
    of the caller has [buf_size] bytes. *)
Definition mp_obj_int_formatted (buf_size num base : Z) (prefix : option (list Z)) (base_char comma : Z) : outcome (list Z) :=
  let '(sign, num) := if num <? 0 then (45, - num) else (0, num) in
  let! needed_size := mp_int_format_size 32 base prefix comma in
  let! _ := if buf_size <? needed_size then m_new 1 needed_size else Ret [] in
  (* the terminator *)
  let b := (needed_size - 1, []) in
  let! b := if num =? 0 then push 48 b else format_digits 32 num base base_char comma (needed_size - 1) b in
  let b :=
    match prefix with
    | Some p => if 0 <? b.1 - Z.of_nat (length p) then (b.1 - Z.of_nat (length p), p ++ b.2) else b
    | None => b
    end in
  let! b := if negb (sign =? 0) && (0 <? b.1) then push sign b else Ret b in
  Ret b.2.

(** [str(x)] of the small integer [x]. *)
Definition mp_obj_int_print (x : Z) : outcome printed :=
  let! str := mp_obj_int_formatted 16 x 10 None 0 0 in Ret (mp_print_str str).

(** The sign and the base that go before the digits. *)
Definition int_prefix (x base base_char flags : Z) : list Z :=
  (if 0 <=? x then
     if flag flags PF_FLAG_SHOW_SIGN then [43] else if flag flags PF_FLAG_SPACE_SIGN then [32] else []
   else []) ++
  (if flag flags PF_FLAG_SHOW_PREFIX then
     if base =? 2 then [48; wrap 8 (base_char + 98 - 97)]
     else if base =? 8 then 48 :: (if flag flags PF_FLAG_SHOW_OCTAL_LETTER then [wrap 8 (base_char + 111 - 97)] else [])
     else if base =? 16 then [48; wrap 8 (base_char + 120 - 97)] else []
   else []).

(** The widths of a number with a precision: the spaces before and after it. *)
Definition prec_spaces (fmt_size prefix_len sign flags width prec : Z) : outcome (Z * Z) :=
  let prec_width := if fmt_size <? prec then prec else fmt_size in
  let! prec_width :=
    if flag flags PF_FLAG_PAD_AFTER_SIGN then
      let! w := if negb (sign =? 0) then sint (prec_width + 1) else Ret prec_width in sint (w + prefix_len)
    else Ret prec_width in
  if prec_width <? width then
    let! n := sint (width - prec_width) in
    Ret (if flag flags PF_FLAG_LEFT_ADJUST then (0, n) else (n, 0))
  else Ret (0, 0).

Definition mp_print_mp_int (x base base_char flags fill width prec : Z) : outcome printed :=
  let '(width, prec) :=
    if (Z.land flags (Z.lor PF_FLAG_LEFT_ADJUST PF_FLAG_CENTER_ADJUST) =? 0) && (fill =? 48)
    then (if width <? prec then prec else width, 0) else (width, prec) in
  let prefix := int_prefix x base base_char flags in
  let prefix_len := Z.of_nat (length prefix) in
  let comma := if flag flags PF_FLAG_SHOW_COMMA then 44 else 0 in
  let flags := if 1 <? prec then Z.lor flags PF_FLAG_PAD_AFTER_SIGN else flags in
  let after_sign := flag flags PF_FLAG_PAD_AFTER_SIGN in
  let! str := mp_obj_int_formatted 16 x base (if after_sign then None else Some prefix) base_char comma in
  let '(sign, str) :=
    match str with
    | c :: str' => if after_sign && (c =? 45) then (45, str') else (0, str)
    | [] => (0, str)
    end in
  let! '((spaces_before, spaces_after), (fill, flags)) :=
    if 1 <? prec then
      let! sp := prec_spaces (Z.of_nat (length str)) prefix_len sign flags width prec in
      Ret (sp, (48, Z.land flags (Z.lnot PF_FLAG_LEFT_ADJUST)))
    else Ret (0, 0, (fill, flags)) in
  let! width' :=
    if after_sign then
      let! w := if negb (sign =? 0) then sint (width - 1) else Ret width in
      if negb (prefix_len =? 0) then sint (w - prefix_len) else Ret w
    else Ret width in
  let width' := if 1 <? prec then prec else width' in
  (if negb (spaces_before =? 0) then mp_print_strn [] 0 32 spaces_before else Ret ([], 0)) +>
  (if after_sign && negb (sign =? 0) then mp_print_strn [sign] 0 0 1 else Ret ([], 0)) +>
  (if after_sign && negb (prefix_len =? 0) then mp_print_strn prefix 0 0 1 else Ret ([], 0)) +>
  mp_print_strn str flags fill width' +>
  (if negb (spaces_after =? 0) then mp_print_strn [] 0 32 spaces_after else Ret ([], 0)).

(** ** Format strings *)

Variable mp_float_t : Type.
(** The text of [mp_format_float(f, buf, sizeof(buf), fmt, prec, sign)], of at most 31 characters. *)
Variable mp_format_float : mp_float_t -> Z -> Z -> Z -> list Z.

Definition mp_print_float (f : mp_float_t) (fmt flags fill width prec : Z) : outcome printed :=
  let sign := if flag flags PF_FLAG_SHOW_SIGN then 43 else if flag flags PF_FLAG_SPACE_SIGN then 32 else 0 in
  let buf := mp_format_float f fmt prec sign in
  let buf := if flag flags PF_FLAG_ADD_PERCENT && (Z.of_nat (length buf) + 1 <? 32) then buf ++ [37] else buf in
  match buf with
  | c :: s =>
    if flag flags PF_FLAG_PAD_AFTER_SIGN && (c <? 48) then
      let! width' := sint (width - 1) in
      mp_print_strn [c] 0 0 1 +> mp_print_strn s flags fill width'
    else mp_print_strn buf flags fill width
  | [] => mp_print_strn buf flags fill width
  end.

(** The arguments after the format string: strings are given by their characters, and none is a null pointer. *)
Inductive printf_arg := ArgInt (z : Z) | ArgStr (s : list Z) | ArgQstr (s : list Z) | ArgFloat (f : mp_float_t).

(** The current character, or the terminator. *)
Definition fmt_char (fmt : list Z) : Z := match fmt with [] => 0 | c :: _ => c end.

Fixpoint fmt_text (fmt : list Z) : list Z * list Z :=
  match fmt with
  | c :: fmt' => if negb (c =? 0) && negb (c =? 37) then let '(s, r) := fmt_text fmt' in (c :: s, r) else ([], fmt)
  | [] => ([], [])
  end.

Fixpoint fmt_flags (fmt : list Z) (flags fill : Z) : list Z * Z * Z :=
  match fmt with
  | c :: fmt' =>
    if c =? 45 then fmt_flags fmt' (Z.lor flags PF_FLAG_LEFT_ADJUST) fill
    else if c =? 43 then fmt_flags fmt' (Z.lor flags PF_FLAG_SHOW_SIGN) fill
    else if c =? 32 then fmt_flags fmt' (Z.lor flags PF_FLAG_SPACE_SIGN) fill
    else if c =? 33 then fmt_flags fmt' (Z.lor flags PF_FLAG_NO_TRAILZ) fill
    else if c =? 48 then fmt_flags fmt' (Z.lor flags PF_FLAG_PAD_AFTER_SIGN) 48
    else (fmt, flags, fill)
  | [] => (fmt, flags, fill)
  end.

(** A number, from the value [n] on. *)
Fixpoint fmt_number (fmt : list Z) (n : Z) : outcome (list Z * Z) :=
  match fmt with
  | c :: fmt' =>
    if (48 <=? c) && (c <=? 57) then
      let! n := sint (n * 10) in let! n := sint (n + c) in fmt_number fmt' (n - 48)
    else Ret (fmt, n)
  | [] => Ret (fmt, n)
  end.

Definition fmt_prec (fmt : list Z) (args : list printf_arg) : outcome (list Z * Z * list printf_arg) :=
  if fmt_char fmt =? 46 then
    let fmt := tail fmt in
    let! '(fmt, prec, args) :=
      if fmt_char fmt =? 42 then
        match args with ArgInt n :: args => Ret (tail fmt, swrap 32 n, args) | _ => Undef end
      else let! '(fmt, n) := fmt_number fmt 0 in Ret (fmt, n, args) in
    Ret (fmt, if prec <? 0 then 0 else prec, args)
  else Ret (fmt, -1, args).

Definition cut (prec : Z) (s : list Z) : list Z :=
  if (0 <=? prec) && (prec <? Z.of_nat (length s)) then take (Z.to_nat prec) s else s.

(** One conversion; [c] is its character.  In the last case another character than [%] fails the assertion of an unsupported
    format character. *)
Definition conversion (c flags fill width prec : Z) (args : list printf_arg) : outcome (printed * list printf_arg) :=
  let result (r : outcome printed) args := let! p := r in Ret (p, args) in
  if c =? 98 then
    match args with ArgInt n :: args => result (mp_print_strn (if negb (n =? 0) then chars "true" else chars "false") flags fill width) args | _ => Undef end
  else if c =? 99 then
    match args with ArgInt n :: args => result (mp_print_strn [wrap 8 n] flags fill width) args | _ => Undef end
  else if c =? 113 then
    match args with ArgQstr s :: args => result (mp_print_strn (cut prec s) flags fill width) args | _ => Undef end
  else if c =? 115 then
    match args with ArgStr s :: args => result (mp_print_strn (cut prec s) flags fill width) args | _ => Undef end
  else if c =? 100 then
    match args with ArgInt n :: args => result (mp_print_int n true 10 97 flags fill width) args | _ => Undef end
  else if (c =? 117) || (c =? 120) || (c =? 88) then
    let base := 16 - Z.land (c + 1) 6 in
    let fmt_c := Z.land c 0xf0 - 80 + 65 in
    match args with ArgInt n :: args => result (mp_print_int n false base fmt_c flags fill width) args | _ => Undef end
  else if (c =? 112) || (c =? 80) then
    match args with ArgInt n :: args => result (mp_print_int n false 16 97 flags fill width) args | _ => Undef end
  else if (c =? 101) || (c =? 69) || (c =? 102) || (c =? 70) || (c =? 103) || (c =? 71) then
    match args with ArgFloat f :: args => result (mp_print_float f c flags fill width prec) args | _ => Undef end
  else if c =? 37 then Ret (([c], 1), args)
  else Undef.

(** [chrs] characters have been printed. *)
Fixpoint mp_vprintf_loop (fuel : nat) (fmt : list Z) (args : list printf_arg) (chrs : Z) : outcome printed :=
  match fuel with
  | O => OutOfFuel
  | S fuel =>
    let '(text, fmt) := fmt_text fmt in
    let! chrs := sint (chrs + Z.of_nat (length text)) in
    if fmt_char fmt =? 0 then Ret (text, chrs) else
    let '(fmt, flags, fill) := fmt_flags (tail fmt) 0 32 in
    let! '(fmt, width) := fmt_number fmt 0 in
    let! '(fmt, prec, args) := fmt_prec fmt args in
    let fmt := if fmt_char fmt =? 108 then tail fmt else fmt in
    if fmt_char fmt =? 0 then Ret (text, chrs) else
    let! '((out, n), args) := conversion (fmt_char fmt) flags fill width prec args in
    let! chrs := sint (chrs + n) in
    let! '(out', chrs) := mp_vprintf_loop fuel (tail fmt) args chrs in
    Ret (text ++ out ++ out', chrs)
  end.

Definition mp_vprintf (fmt : list Z) (args : list printf_arg) : outcome printed :=
  mp_vprintf_loop (S (length fmt)) fmt args 0.

Definition mp_printf (fmt : string) (args : list printf_arg) : outcome printed := mp_vprintf (chars fmt) args.
End Printing.
Arguments ArgInt {mp_float_t} z.
Arguments ArgStr {mp_float_t} s.
Arguments ArgQstr {mp_float_t} s.
Arguments ArgFloat {mp_float_t} f.
