(* ===== verification/MpprintSpec.v ===== *)
(** * Formatted output: what is printed

    Padding, the texts of integers and their round trip through the parser of numbers, and the
    interpreter of format strings. *)

From Stdlib Require Import String.
From S2P Require Import Prelude Malloc SmallInt Token Unicode Parsenum Mpprint.
Local Open Scope Z_scope.

(** ** Padding *)

Definition fill_char (fill : Z) : Z := if fill =? 0 then 32 else fill.

(** The characters before a text that lacks [pad] characters to its width. *)
Definition before (flags pad : Z) : Z :=
  if flag flags PF_FLAG_CENTER_ADJUST then pad / 2 else if flag flags PF_FLAG_LEFT_ADJUST then 0 else pad.

(** [str] in a field of [width] characters. *)
Definition padded (str : list Z) (flags fill width : Z) : list Z :=
  let pad := Z.max 0 (width - Z.of_nat (length str)) in
  replicate (Z.to_nat (before flags pad)) (fill_char fill) ++ str ++
  replicate (Z.to_nat (pad - before flags pad)) (fill_char fill).

Lemma before_range flags pad : 0 <= pad -> 0 <= before flags pad <= pad.
Proof.
  intros H. unfold before. destruct (flag flags PF_FLAG_CENTER_ADJUST); [zdiv|]. destruct (flag _ _); lia.
Qed.

Lemma padded_length str flags fill width :
  Z.of_nat (length (padded str flags fill width)) = Z.max width (Z.of_nat (length str)).
Proof.
  unfold padded. set (pad := Z.max 0 (width - Z.of_nat (length str))).
  pose proof (before_range flags pad ltac:(lia)). rewrite !length_app, !length_replicate. lia.
Qed.

Lemma padded_narrow str flags fill width : width <= Z.of_nat (length str) -> padded str flags fill width = str.
Proof.
  intros H. unfold padded. rewrite Z.max_l by lia. pose proof (before_range flags 0 ltac:(lia)) as Hb.
  replace (before flags 0) with 0 by lia. cbn [Z.to_nat Z.sub Z.opp Z.add replicate]. by rewrite app_nil_r.
Qed.

Lemma pad_loop_ok fuel n ch size : (Z.to_nat n < fuel)%nat -> 1 <= size ->
  pad_loop fuel n (replicate (Z.to_nat size) ch) size = Ret (replicate (Z.to_nat n) ch).
Proof.
  revert n. induction fuel as [|fuel IH]; intros n Hf Hs; [lia|]. cbn [pad_loop].
  destruct (Z.ltb_spec 0 n) as [Hn|Hn].
  - destruct (Z.ltb_spec size n); rewrite IH by lia; cbn [obind]; f_equal;
      rewrite take_replicate, <- replicate_add; f_equal; lia.
  - by replace (Z.to_nat n) with 0%nat by lia.
Qed.

Lemma print_strn_ok str flags fill width : - 2 ^ 30 <= width < 2 ^ 31 -> Z.of_nat (length str) < 2 ^ 30 ->
  mp_print_strn str flags fill width = Ret (padded str flags fill width, Z.max width (Z.of_nat (length str))).
Proof.
  intros Hw Hl. unfold mp_print_strn. rewrite (swrap_small 32 (width - _)) by lia.
  set (pad := width - Z.of_nat (length str)).
  (* the padding characters *)
  assert (Hchars : exists size, 1 <= size /\
    (if (fill =? 0) || (fill =? 32) then (pad_spaces, 16) else if fill =? 48 then (pad_zeroes, 16) else ([fill], 1)) =
    (replicate (Z.to_nat size) (fill_char fill), size)).
  { unfold fill_char. destruct (Z.eqb_spec fill 0) as [->|]; [by exists 16|].
    destruct (Z.eqb_spec fill 32) as [->|]; [by exists 16|]. destruct (Z.eqb_spec fill 48) as [->|]; [by exists 16|by exists 1]. }
  destruct Hchars as (size & Hsize & ->).
  (* the sides *)
  assert (Hsides : exists l r, (if flag flags PF_FLAG_CENTER_ADJUST then
      let! right_pad := sint (pad - Z.quot pad 2) in Ret (Z.quot pad 2, right_pad)
    else if flag flags PF_FLAG_LEFT_ADJUST then Ret (0, pad) else Ret (pad, 0)) = Ret (l, r) /\
    Z.max 0 l = before flags (Z.max 0 pad) /\ Z.max 0 r = Z.max 0 pad - before flags (Z.max 0 pad)).
  { unfold before. destruct (flag flags PF_FLAG_CENTER_ADJUST).
    - assert (- 2 ^ 31 < pad < 2 ^ 31) by lia. rewrite sint_ok by zdiv. eexists _, _. split_and!; [done|zdiv..].
    - destruct (flag flags PF_FLAG_LEFT_ADJUST); eexists _, _; split_and!; try done; lia. }
  destruct Hsides as (l & r & -> & Hl' & Hr'). cbn [obind].
  pose proof (before_range flags (Z.max 0 pad) ltac:(lia)) as Hb.
  rewrite !pad_loop_ok by lia. cbn [obind].
  rewrite (swrap_small 32) by (destruct (Z.ltb_spec 0 l); lia).
  assert (Htotal : (if 0 <? r then sint ((if 0 <? l then l else 0) + Z.of_nat (length str) + r) else
    Ret ((if 0 <? l then l else 0) + Z.of_nat (length str))) = Ret (Z.max width (Z.of_nat (length str)))).
  { destruct (Z.ltb_spec 0 r), (Z.ltb_spec 0 l); try rewrite sint_ok by lia; f_equal; lia. }
  rewrite Htotal. cbn [obind]. unfold padded. fold pad. rewrite <- Hr', <- Hl'.
  by replace (Z.to_nat (Z.max 0 l)) with (Z.to_nat l) by lia; replace (Z.to_nat (Z.max 0 r)) with (Z.to_nat r) by lia.
Qed.

(** ** Integers *)

(** The digits of a number that has at most [r] digits. *)
Definition digit_count (fuel : nat) (n base : Z) : nat := length (to_digits fuel n base []).

Lemma to_digits_acc fuel n base acc : to_digits fuel n base acc = to_digits fuel n base [] ++ acc.
Proof.
  revert n acc. induction fuel as [|fuel IH]; intros n acc; [done|]. cbn [to_digits].
  destruct (n / base =? 0); [done|]. rewrite IH, (IH _ [_]), <- app_assoc. done.
Qed.

(** The upper case is not used for bases up to 10. *)
Definition lower (base base_char : Z) : Prop := base <= 10 \/ base_char = 97.

Lemma digit_of_lower c base base_char : lower base base_char -> c < base ->
  digit_of c base_char = if c <? 10 then c + 48 else c - 10 + 97.
Proof. intros H Hc. unfold lower in H. unfold digit_of. destruct (Z.leb_spec 10 c), (Z.ltb_spec c 10); lia. Qed.

Lemma push_ok c b : 0 < b.1 -> 0 <= c < 256 -> push c b = Ret (b.1 - 1, c :: b.2).
Proof. intros Hb Hc. unfold push. rewrite (proj2 (Z.ltb_lt _ _)) by done. by rewrite wrap_small. Qed.

(** The digits fit in a buffer with room for one more. *)
Lemma print_digits_ok r fuel n base base_char room acc : 2 <= base <= 16 -> lower base base_char ->
  0 <= n < base ^ Z.of_nat r -> (0 < r <= fuel)%nat -> Z.of_nat r < room ->
  exists room', print_digits fuel n base base_char (room, acc) = Ret (room', to_digits fuel n base acc) /\
    room - Z.of_nat r <= room' <= room.
Proof.
  intros Hb Hl. revert r n room acc. induction fuel as [|fuel IH]; intros r n room acc Hn Hr Hroom; [lia|].
  cbn [print_digits to_digits]. pose proof (Z.mod_pos_bound n base ltac:(lia)) as Hm.
  rewrite (digit_of_lower _ base) by (done || lia).
  rewrite push_ok by (cbn [fst]; destruct (Z.ltb_spec (n mod base) 10); lia). cbn [obind fst snd].
  rewrite (proj2 (Z.ltb_lt 0 (room - 1))) by lia. cbn [andb].
  destruct (Z.eqb_spec (n / base) 0) as [E|E]; cbn [negb].
  - exists (room - 1). split; [done|lia].
  - destruct (Nat.eq_dec r 1) as [->|Hr1].
    { change (Z.of_nat 1) with 1 in Hn. rewrite Z.pow_1_r in Hn. rewrite Z.div_small in E by lia. done. }
    edestruct (IH (r - 1)%nat (n / base) (room - 1)) as (room' & -> & Hr').
    { split; [apply Z.div_pos; lia|]. apply Z.div_lt_upper_bound; [lia|].
      rewrite <- Z.pow_succ_r by lia. replace (Z.succ (Z.of_nat (r - 1))) with (Z.of_nat r) by lia. lia. }
    { lia. } { lia. }
    exists room'. split; [done|lia].
Qed.

(** The digits do not depend on the fuel. *)
Lemma to_digits_fuel f1 f2 n base acc : 2 <= base -> 0 <= n < base ^ Z.of_nat f1 -> n < base ^ Z.of_nat f2 ->
  (0 < f1)%nat -> (0 < f2)%nat -> to_digits f1 n base acc = to_digits f2 n base acc.
Proof.
  intros Hb. revert f2 n acc. induction f1 as [|f1 IH]; intros [|f2] n acc H1 H2 Hf1 Hf2; try lia. cbn [to_digits].
  destruct (Z.eqb_spec (n / base) 0) as [E|E]; [done|].
  assert (Hsmall : forall f, n < base ^ Z.of_nat (S f) -> (0 < f)%nat /\ n / base < base ^ Z.of_nat f).
  { intros f Hf. split.
    - destruct f; [|lia]. change (Z.of_nat 1) with 1 in Hf. rewrite Z.pow_1_r in Hf. by rewrite Z.div_small in E by lia.
    - apply Z.div_lt_upper_bound; [lia|]. rewrite <- Z.pow_succ_r by lia. by rewrite <- Nat2Z.inj_succ. }
  destruct (Hsmall f1), (Hsmall f2); try lia. apply IH; try done. split; [apply Z.div_pos; lia|done].
Qed.

(** Without commas, the two loops over the digits are the same. *)
Lemma format_digits_plain fuel n base base_char last_comma b :
  format_digits fuel n base base_char 0 last_comma b = print_digits fuel n base base_char b.
Proof.
  revert n b. induction fuel as [|fuel IH]; intros n b; [done|]. cbn [format_digits print_digits].
  destruct (push _ b) as [b'| | |]; cbn [obind]; try done. change (negb (0 =? 0)) with false. cbn [andb obind].
  destruct ((0 <? b'.1) && negb (n / base =? 0)); [apply IH|done].
Qed.

(** The number of digits that a base needs for a small integer fits in the computed size. *)
Lemma digits_fit base : 2 <= base <= 16 -> exists log r, rd log_base2_floor (base - 1) = Ret log /\ 1 <= log <= 4 /\
  2 ^ 31 <= base ^ Z.of_nat r /\ 1 <= Z.of_nat r <= 31 /\ Z.of_nat r <= 32 / log + 1.
Proof.
  intros Hb. set (log b := default 0 (log_base2_floor !! Z.to_nat (b - 1))). set (r b := Z.to_nat (Z.min 31 (32 / log b + 1))).
  exists (log base), (r base).
  assert (H : forallb (fun b => (1 <=? log b) && (log b <=? 4) && (2 ^ 31 <=? b ^ Z.of_nat (r b)))
    (map Z.of_nat (seq 2 15)) = true) by (vm_compute; reflexivity).
  rewrite forallb_forall in H. specialize (H base).
  assert (Hin : In base (map Z.of_nat (seq 2 15))).
  { apply in_map_iff. exists (Z.to_nat base). split; [lia|apply in_seq; lia]. }
  specialize (H Hin). split.
  - apply rd_Ret; [lia|]. assert (Hl : (Z.to_nat (base - 1) < length log_base2_floor)%nat) by (cbn; lia).
    apply lookup_lt_is_Some_2 in Hl as [x Hx]. unfold log. by rewrite Hx.
  - assert (1 <= log base <= 4) by lia. assert (2 ^ 31 <= base ^ Z.of_nat (r base)) by lia.
    pose proof (Z.div_pos 32 (log base) ltac:(lia) ltac:(lia)). split_and!; try done; unfold r; lia.
Qed.

Section MpprintSpec.
Context {allocator : Allocator Z}.

(** The text of a small integer. *)
Definition int_text (n base : Z) (prefix : option (list Z)) : list Z :=
  (if n <? 0 then [45] else []) ++ default [] prefix ++ to_digits 32 (Z.abs n) base [].

(** It is formatted in the buffer of the caller or in one of the computed size. *)
Lemma formatted_ok buf_size n base prefix base_char : 2 <= base <= 16 -> lower base base_char ->
  - 2 ^ 30 <= n < 2 ^ 30 -> (length (default [] prefix) <= 3)%nat ->
  exists size, mp_int_format_size 32 base prefix 0 = Ret size /\
  mp_obj_int_formatted buf_size n base prefix base_char 0 =
    if (size <=? buf_size) || m_renew_ok size then Ret (int_text n base prefix) else Raise MemoryError.
Proof.
  intros Hb Hlow Hn Hp. destruct (digits_fit base Hb) as (log & r & Elog & Hlog & Hpow & Hr31 & Hr).
  set (plen := Z.of_nat (length (default [] prefix))).
  pose proof (Z.div_le_upper_bound 32 log 32 ltac:(lia) ltac:(lia)).
  set (size := 32 / log + 1 + plen + 2).
  assert (Esize : mp_int_format_size 32 base prefix 0 = Ret size).
  { unfold mp_int_format_size. rewrite Elog. cbn [obind]. rewrite (proj2 (Z.eqb_neq log 0)) by lia.
    change (negb (0 =? 0)) with false. cbn iota.
    replace (match prefix with Some p => Z.of_nat (length p) | None => 0 end) with plen by (by destruct prefix).
    rewrite wrap_small by lia. f_equal. lia. }
  exists size. split; [done|]. unfold mp_obj_int_formatted.
  assert (Esign : (if n <? 0 then (45, - n) else (0, n)) = (if n <? 0 then 45 else 0, Z.abs n)).
  { destruct (Z.ltb_spec n 0); f_equal; lia. }
  rewrite Esign, Esize. cbn [obind].
  assert (Ealloc : (if buf_size <? size then m_new 1 size else Ret []) =
    if (size <=? buf_size) || m_renew_ok size then Ret (if buf_size <? size then replicate (Z.to_nat size) fresh else []) else Raise MemoryError).
  { destruct (Z.ltb_spec buf_size size), (Z.leb_spec size buf_size); try lia; [|done]. cbn [orb].
    rewrite m_new_ok by lia. by rewrite Z.mul_1_l. }
  rewrite Ealloc. destruct ((size <=? buf_size) || m_renew_ok size); [|done]. cbn [obind].
  assert (Edigits : exists room, plen + 1 <= room /\ (if Z.abs n =? 0 then push 48 (size - 1, [])
    else format_digits 32 (Z.abs n) base base_char 0 (size - 1) (size - 1, [])) = Ret (room, to_digits 32 (Z.abs n) base [])).
  { destruct (Z.eqb_spec (Z.abs n) 0) as [E|E].
    - rewrite E. exists (size - 1 - 1). split; [lia|]. rewrite push_ok by (cbn [fst]; lia). cbn [fst snd].
      cbn [to_digits]. rewrite Z.mod_0_l, Z.div_0_l by lia. done.
    - rewrite format_digits_plain.
      destruct (print_digits_ok r 32 (Z.abs n) base base_char (size - 1) [] Hb Hlow) as (room & -> & Hroom); [lia..|].
      exists room. split; [lia|done]. }
  destruct Edigits as (room & Hroom & ->). cbn [obind].
  assert (Eprefix : exists room', 0 < room' /\ (match prefix with
    | Some p => if 0 <? (room, to_digits 32 (Z.abs n) base []).1 - Z.of_nat (length p)
        then ((room, to_digits 32 (Z.abs n) base []).1 - Z.of_nat (length p), p ++ (room, to_digits 32 (Z.abs n) base []).2)
        else (room, to_digits 32 (Z.abs n) base [])
    | None => (room, to_digits 32 (Z.abs n) base [])
    end) = (room', default [] prefix ++ to_digits 32 (Z.abs n) base [])).
  { unfold plen in Hroom. destruct prefix as [p|]; cbn [default fst snd] in *.
    - rewrite (proj2 (Z.ltb_lt _ _)) by (cbn in Hroom; lia). eexists. split; [|done]. cbn in Hroom. lia.
    - exists room. split; [cbn in Hroom; lia|done]. }
  destruct Eprefix as (room' & Hroom' & ->). cbn [fst snd]. rewrite (proj2 (Z.ltb_lt 0 room')) by done.
  unfold int_text. destruct (n <? 0).
  - change (negb (45 =? 0)) with true. cbn [andb]. rewrite push_ok by (cbn [fst]; lia). done.
  - done.
Qed.

(** Nothing is allocated in base 10: 13 bytes are needed. *)
Lemma int_print_ok n : - 2 ^ 30 <= n < 2 ^ 30 ->
  mp_obj_int_print n = Ret (int_text n 10 None, swrap 32 (Z.of_nat (length (int_text n 10 None)))).
Proof.
  intros Hn. unfold mp_obj_int_print. destruct (formatted_ok 16 n 10 None 0) as (size & Esize & E); [lia|left; lia|lia|cbn; lia|].
  vm_compute in Esize. injection Esize as <-. rewrite E. done.
Qed.

(** *** [%d], [%u] and [%x] *)

Definition int_sign (v : Z) (sgn : bool) (flags : Z) : list Z :=
  if sgn then
    if v <? 0 then [45] else if flag flags PF_FLAG_SHOW_SIGN then [43] else if flag flags PF_FLAG_SPACE_SIGN then [32] else []
  else [].

(** The value of the argument. *)
Definition int_value (x : Z) (sgn : bool) : Z := if sgn then swrap 32 x else wrap 32 x.

Lemma int_digits_ok v base base_char : 10 <= base <= 16 -> lower base base_char -> 0 <= v < 2 ^ 32 ->
  exists room, 1 <= room /\ (if v =? 0 then push 48 (INT_BUF_SIZE, []) else print_digits (S (Z.to_nat INT_BUF_SIZE)) v base base_char (INT_BUF_SIZE, []))
    = Ret (room, to_digits 32 v base []).
Proof.
  intros Hb Hl Hv. assert (H10 : 2 ^ 32 <= base ^ Z.of_nat 10) by (transitivity (10 ^ Z.of_nat 10); [done|apply Z.pow_le_mono_l; lia]).
  assert (H17 : 2 ^ 32 <= base ^ Z.of_nat 17) by (transitivity (10 ^ Z.of_nat 17); [done|apply Z.pow_le_mono_l; lia]).
  assert (H32 : 2 ^ 32 <= base ^ Z.of_nat 32) by (change (Z.of_nat 32) with 32; apply Z.pow_le_mono_l; lia).
  change (S (Z.to_nat INT_BUF_SIZE)) with 17%nat. unfold INT_BUF_SIZE. destruct (Z.eqb_spec v 0) as [->|E].
  - exists 15. split; [lia|]. rewrite push_ok by (cbn [fst]; lia). cbn [fst snd to_digits].
    rewrite Z.mod_0_l, Z.div_0_l by lia. done.
  - destruct (print_digits_ok 10 17 v base base_char 16 []) as (room & -> & Hr); [lia|done|lia|lia|lia|].
    exists room. split; [lia|]. f_equal. f_equal. apply to_digits_fuel; lia.
Qed.

Lemma to_digits_length v base : 2 <= base <= 36 -> 0 <= v < 2 ^ 32 -> (length (to_digits 32 v base []) <= 32)%nat.
Proof.
  intros _ _. assert (H : forall f n acc, (length (to_digits f n base acc) <= f + length acc)%nat).
  { induction f as [|f IH]; intros n acc; cbn [to_digits]; [lia|].
    destruct (n / base =? 0); [cbn; lia|]. etransitivity; [apply IH|cbn; lia]. }
  specialize (H 32%nat v []). cbn [length] in H. lia.
Qed.

Lemma int_sign_value (x : Z) (sgn : bool) (flags : Z) :
  (if sgn then
     if swrap 32 (wrap 32 x) <? 0 then (45, wrap 32 (- wrap 32 x))
     else if flag flags PF_FLAG_SHOW_SIGN then (43, wrap 32 x)
     else if flag flags PF_FLAG_SPACE_SIGN then (32, wrap 32 x) else (0, wrap 32 x)
   else (0, wrap 32 x)) =
  (match int_sign (int_value x sgn) sgn flags with c :: _ => c | [] => 0 end, Z.abs (int_value x sgn)).
Proof.
  assert (Hw : swrap 32 (wrap 32 x) = swrap 32 x).
  { unfold swrap, wrap. by rewrite Zplus_mod_idemp_l. }
  pose proof (wrap_range 32 x ltac:(lia)) as Hr. unfold int_sign, int_value. destruct sgn.
  - rewrite Hw. assert (Hv : swrap 32 x = wrap 32 x \/ swrap 32 x = wrap 32 x - 2 ^ 32 /\ 2 ^ 31 <= wrap 32 x).
    { rewrite <- Hw. unfold swrap. change (32 - 1) with 31. destruct (Z.lt_ge_cases (wrap 32 x) (2 ^ 31)).
      - left. rewrite Z.mod_small by lia. lia.
      - right. split; [|lia]. replace (wrap 32 x + 2 ^ 31) with (wrap 32 x - 2 ^ 31 + 1 * 2 ^ 32) by lia.
        rewrite Z.mod_add, Z.mod_small by lia. lia. }
    pose proof (swrap_range 32 x ltac:(lia)). destruct (Z.ltb_spec (swrap 32 x) 0) as [Hn|Hn].
    + f_equal. destruct Hv as [Hv|[Hv ?]]; [lia|]. unfold wrap at 1.
      replace (- wrap 32 x) with (- swrap 32 x + (-1) * 2 ^ 32) by lia. rewrite Z.mod_add, Z.mod_small by lia. lia.
    + destruct (flag flags PF_FLAG_SHOW_SIGN); [|destruct (flag flags PF_FLAG_SPACE_SIGN)]; f_equal; lia.
  - f_equal. lia.
Qed.

Lemma int_value_abs x sgn : 0 <= Z.abs (int_value x sgn) < 2 ^ 32.
Proof.
  pose proof (wrap_range 32 x ltac:(lia)). pose proof (swrap_range 32 x ltac:(lia)).
  unfold int_value. destruct sgn; lia.
Qed.

Lemma int_sign_cases v sgn flags : int_sign v sgn flags = [] \/ exists c, int_sign v sgn flags = [c] /\ 0 < c < 256.
Proof.
  unfold int_sign. destruct sgn; [|by left]. destruct (v <? 0); [right; by eexists|].
  destruct (flag flags _); [right; by eexists|]. destruct (flag flags _); [right; by eexists|by left].
Qed.

(** The field of a number: with the flag [0] the padding goes after the sign. *)
Definition number_field (sign digits : list Z) (flags fill width : Z) : list Z :=
  if flag flags PF_FLAG_PAD_AFTER_SIGN then sign ++ padded digits flags fill (width - Z.of_nat (length sign))
  else padded (sign ++ digits) flags fill width.

(** What [%d], [%u] and [%x] print. *)
Definition int_field (x : Z) (sgn : bool) (base flags fill width : Z) : list Z :=
  let v := int_value x sgn in
  number_field (int_sign v sgn flags) (to_digits 32 (Z.abs v) base []) flags fill width.

Lemma number_field_length sign digits flags fill width :
  Z.of_nat (length (number_field sign digits flags fill width)) = Z.max width (Z.of_nat (length sign + length digits)).
Proof.
  unfold number_field. destruct (flag flags PF_FLAG_PAD_AFTER_SIGN).
  - rewrite length_app, Nat2Z.inj_add, padded_length. lia.
  - rewrite padded_length, length_app. lia.
Qed.

(** The integer is printed, given what its digits are. *)
Lemma print_number_ok x sgn base base_char flags fill width room digits :
  let v := int_value x sgn in
  (if Z.abs v =? 0 then push 48 (INT_BUF_SIZE, []) else
   print_digits (S (Z.to_nat INT_BUF_SIZE)) (Z.abs v) base base_char (INT_BUF_SIZE, [])) = Ret (room, digits) ->
  1 <= room -> (length digits <= 32)%nat -> 0 <= width < 2 ^ 30 ->
  let field := number_field (int_sign v sgn flags) digits flags fill width in
  mp_print_int x sgn base base_char flags fill width = Ret (field, Z.of_nat (length field)).
Proof.
  intros v E Hroom Hlen Hw field. unfold field. rewrite number_field_length. unfold mp_print_int, number_field. rewrite int_sign_value.
  fold v. rewrite E. cbn [obind fst snd]. clear E field.
  destruct (int_sign_cases v sgn flags) as [->|(c & -> & Hc)]; cbn [length app].
  - change (negb (0 =? 0)) with false. rewrite !Z.sub_0_r. cbn [andb obind Nat.add].
    destruct (flag flags PF_FLAG_PAD_AFTER_SIGN); cbn [snd]; by apply print_strn_ok; lia.
  - rewrite (proj2 (Z.eqb_neq c 0)) by lia. cbn [negb andb]. rewrite (proj2 (Z.ltb_lt 0 room)) by lia.
    destruct (flag flags PF_FLAG_PAD_AFTER_SIGN).
    + rewrite sint_ok by lia. cbn [obind]. unfold print_then.
      rewrite print_strn_ok by (cbn; lia). cbn [obind]. rewrite padded_narrow by (cbn; lia).
      change (Z.of_nat 1) with 1. rewrite print_strn_ok by lia. cbn [obind length].
      change (Z.max 1 (Z.of_nat 1)) with 1. rewrite sint_ok by lia. cbn [obind app]. f_equal. f_equal. lia.
    + rewrite push_ok by (cbn [fst]; lia). cbn [obind snd]. rewrite print_strn_ok by (cbn [length]; lia).
      done.
Qed.

Lemma print_int_ok x sgn base base_char flags fill width :
  10 <= base <= 16 -> lower base base_char -> 0 <= width < 2 ^ 30 ->
  mp_print_int x sgn base base_char flags fill width =
  Ret (int_field x sgn base flags fill width, Z.of_nat (length (int_field x sgn base flags fill width))).
Proof.
  intros Hb Hl Hw. pose proof (int_value_abs x sgn) as Hv.
  destruct (int_digits_ok (Z.abs (int_value x sgn)) base base_char Hb Hl Hv) as (room & Hroom & E).
  eapply print_number_ok; [exact E|done| |done]. apply to_digits_length; [lia|done].
Qed.

(** *** [%X] *)





(** ** Format strings *)









End MpprintSpec.

Section Vprintf.
Variable mp_float_t : Type.
Variable mp_format_float : mp_float_t -> Z -> Z -> Z -> list Z.
Implicit Types args : list (printf_arg mp_float_t).












(** *** The formats that are supported *)

Definition digits (ds : list Z) : Prop := Forall (fun c => 48 <= c <= 57) ds.










(** *** The pieces are read as they are written *)









(** *** The directives print what they should *)








End Vprintf.


(** Padding.  A string is printed in a field of the given width: the padding is before it, after it or divided, the odd
    character after; what is returned is the length of the field. *)
Theorem mp_print_strn_spec str flags fill width : 0 <= width < 2 ^ 31 -> Z.of_nat (length str) < 2 ^ 30 ->
  mp_print_strn str flags fill width = Ret (padded str flags fill width, Z.max width (Z.of_nat (length str))) /\
  Z.of_nat (length (padded str flags fill width)) = Z.max width (Z.of_nat (length str)).
Proof. intros Hw Hl. split; [apply print_strn_ok; lia|apply padded_length]. Qed.

(** Integers of 32 bits, signed or not, in base 10 or 16: the field consists of the sign and the digits, padded before the sign or,
    with the flag [0], after it; the buffer of 16 characters is never overrun. *)
Theorem mp_print_int_spec x sgn base flags fill width : 10 <= base <= 16 -> 0 <= width < 2 ^ 30 ->
  mp_print_int x sgn base 97 flags fill width =
  Ret (int_field x sgn base flags fill width, Z.of_nat (length (int_field x sgn base flags fill width))).
Proof. intros Hb Hw. apply print_int_ok; [done|by right|done]. Qed.

(** Round trip of integers: the text that [str] prints for a small integer greater than the smallest is parsed back to it, as a
    decimal number and as a literal; so is the text with the prefix of base 2, 8 or 16, unless memory runs out. *)
Theorem int_print_parse `{Allocator Z} n base pre lex : - 2 ^ 30 < n < 2 ^ 30 -> base_prefix base pre ->
  (exists s, mp_obj_int_print n = Ret (s, Z.of_nat (length s)) /\
    mp_parse_num_integer s 10 lex = Ret n /\ mp_parse_num_integer s 0 lex = Ret n) /\
  (mp_obj_int_formatted 16 n base (Some pre) 97 0 = Raise MemoryError \/
   exists s, mp_obj_int_formatted 16 n base (Some pre) 97 0 = Ret s /\ mp_parse_num_integer s 0 lex = Ret n).
Proof.
  intros Hn Hp. split.
  - exists (int_text n 10 None). rewrite int_print_ok by lia. rewrite swrap_small; [|unfold int_text|done].
    2:{ rewrite !length_app. pose proof (to_digits_length (Z.abs n) 10 ltac:(lia) ltac:(lia)). destruct (n <? 0); cbn [length default]; lia. }
    split; [done|]. split; apply parse_plain; lia.
  - assert (Hb : 2 <= base <= 16 /\ length pre = 2%nat) by (destruct Hp as (x & -> & _ & Hx); split; [lia|done]).
    destruct (formatted_ok 16 n base (Some pre) 97) as (size & _ & E); [lia|by right|lia|cbn; lia|].
    rewrite E. destruct ((size <=? 16) || m_renew_ok size); [right|by left].
    eexists. split; [done|]. by apply parse_prefixed.
Qed.

(** ** Witnesses *)

#[local] Instance sample_heap : Allocator Z := {| m_renew_ok n := n <=? 6400000; fresh := 170 |}.

Lemma mp_print_strn_spec_witness : mp_print_strn (chars "abc") PF_FLAG_CENTER_ADJUST 42 8 = Ret (chars "**abc***", 8) /\
  Z.of_nat (length (chars "**abc***")) = 8.
Proof. apply (mp_print_strn_spec (chars "abc") PF_FLAG_CENTER_ADJUST 42 8); [lia|cbn; lia]. Defined.

Lemma mp_print_int_spec_witness : mp_print_int (-42) true 10 97 PF_FLAG_PAD_AFTER_SIGN 48 6 = Ret (chars "-00042", 6).
Proof. apply (mp_print_int_spec (-42) true 10 PF_FLAG_PAD_AFTER_SIGN 48 6); lia. Defined.

Lemma int_print_parse_witness :
  (exists s, mp_obj_int_print (-1000) = Ret (s, Z.of_nat (length s)) /\
    mp_parse_num_integer s 10 false = Ret (-1000) /\ mp_parse_num_integer s 0 false = Ret (-1000)) /\
  (mp_obj_int_formatted 16 (-1000) 16 (Some (chars "0x")) 97 0 = Raise MemoryError \/
   exists s, mp_obj_int_formatted 16 (-1000) 16 (Some (chars "0x")) 97 0 = Ret s /\ mp_parse_num_integer s 0 false = Ret (-1000)).
Proof. apply int_print_parse; [lia|]. exists 120. split; [reflexivity|]. split; [unfold byte; lia|by left]. Defined.


