(* ===== verification/StrPrint.v ===== *)
(** * Printing of strings and bytes ([py/objstr.c])

    [str_print] and [mp_str_print_quoted], without Unicode strings and JSON, which the port does
    not build.  Printing returns what has been sent to [print->print_strn].  Floats are not
    printed here: the formats have no such argument. *)

From Stdlib Require Import String.
From S2P Require Import Prelude Malloc SmallInt Token Mpprint.
Local Open Scope Z_scope.

Inductive str_type := mp_type_str | mp_type_bytes.
#[export] Instance str_type_eq_dec : EqDecision str_type.
Proof. solve_decision. Defined.

Inductive mp_print_kind_t := PRINT_STR | PRINT_REPR | PRINT_EXC | PRINT_RAW.
#[export] Instance mp_print_kind_eq_dec : EqDecision mp_print_kind_t.
Proof. solve_decision. Defined.

(** [mp_printf(print, fmt, ...)], whose result is not used. *)
Definition print_format (fmt : string) (args : list Z) : outcome (list Z) :=
  let! '(out, _) := mp_printf Empty_set (fun f _ _ _ => match f with end) fmt (map ArgInt args) in Ret out.

(** The loop that looks for quotes stops at the first double quote. *)
Fixpoint find_quotes (s : list Z) (has_single_quote has_double_quote : bool) : bool * bool :=
  match s with
  | c :: s =>
    if negb has_double_quote then
      if c =? 39 then find_quotes s true has_double_quote
      else if c =? 34 then find_quotes s has_single_quote true
      else find_quotes s has_single_quote has_double_quote
    else (has_single_quote, has_double_quote)
  | [] => (has_single_quote, has_double_quote)
  end.

Definition quote_char_of (str_data : list Z) : Z :=
  let '(has_single_quote, has_double_quote) := find_quotes str_data false false in
  if has_single_quote && negb has_double_quote then 34 else 39.

(** One character between the quotes. *)
Definition print_char (quote_char : Z) (is_bytes : bool) (s : Z) : outcome (list Z) :=
  if s =? quote_char then print_format "\%c" [quote_char]
  else if s =? 92 then Ret (mp_print_str (chars "\\")).1
  else if (0x20 <=? s) && negb (s =? 0x7f) && (negb is_bytes || (s <? 0x80)) then print_format "%c" [s]
  else if s =? 10 then Ret (mp_print_str (chars "\n")).1
  else if s =? 13 then Ret (mp_print_str (chars "\r")).1
  else if s =? 9 then Ret (mp_print_str (chars "\t")).1
  else print_format "\x%02x" [s].

Fixpoint print_chars (quote_char : Z) (is_bytes : bool) (s : list Z) : outcome (list Z) :=
  match s with
  | [] => Ret []
  | c :: s =>
    let! out := print_char quote_char is_bytes c in
    let! out' := print_chars quote_char is_bytes s in Ret (out ++ out')
  end.

Definition mp_str_print_quoted (str_data : list Z) (is_bytes : bool) : outcome (list Z) :=
  let quote_char := quote_char_of str_data in
  let! q1 := print_format "%c" [quote_char] in
  let! out := print_chars quote_char is_bytes str_data in
  let! q2 := print_format "%c" [quote_char] in
  Ret (q1 ++ out ++ q2).

Definition str_print (type : str_type) (str_data : list Z) (kind : mp_print_kind_t) : outcome (list Z) :=
  let is_bytes := bool_decide (type = mp_type_bytes) in
  if bool_decide (kind = PRINT_RAW) || (bool_decide (kind = PRINT_STR) && negb is_bytes) then Ret str_data
  else
    let! out := mp_str_print_quoted str_data is_bytes in
    Ret ((if is_bytes then chars "b" else []) ++ out).

(** ** What is printed *)

Definition hex_digit (d : Z) : Z := if d <? 10 then d + 48 else d - 10 + 97.

(** The character [s] as it appears in a literal. *)
Definition escaped_char (quote_char : Z) (is_bytes : bool) (s : Z) : list Z :=
  if s =? quote_char then [92; quote_char]
  else if s =? 92 then [92; 92]
  else if (0x20 <=? s) && negb (s =? 0x7f) && (negb is_bytes || (s <? 0x80)) then [s]
  else if s =? 10 then [92; 110]
  else if s =? 13 then [92; 114]
  else if s =? 9 then [92; 116]
  else [92; 120; hex_digit (s / 16); hex_digit (s mod 16)].

Definition literal (str_data : list Z) (is_bytes : bool) : list Z :=
  let q := quote_char_of str_data in q :: concat (map (escaped_char q is_bytes) str_data) ++ [q].

Lemma print_char_formats s : byte s -> print_format "%c" [s] = Ret [s] /\ print_format "\%c" [s] = Ret [92; s] /\
  print_format "\x%02x" [s] = Ret [92; 120; hex_digit (s / 16); hex_digit (s mod 16)].
Proof.
  intros Hs. assert (H : forallb (fun n => let s := Z.of_nat n in
    bool_decide (print_format "%c" [s] = Ret [s] /\ print_format "\%c" [s] = Ret [92; s] /\
      print_format "\x%02x" [s] = Ret [92; 120; hex_digit (s / 16); hex_digit (s mod 16)])) (seq 0 256) = true).
  { vm_compute. reflexivity. }
  rewrite forallb_forall in H. specialize (H (Z.to_nat s)). cbn zeta in H. rewrite Z2Nat.id in H by (unfold byte in Hs; lia).
  apply bool_decide_eq_true_1 in H; [done|]. apply in_seq. unfold byte in Hs. lia.
Qed.

Lemma quote_char_cases s : quote_char_of s = 39 \/ quote_char_of s = 34.
Proof. unfold quote_char_of. destruct (find_quotes s false false) as [a b]. destruct (a && negb b); [by right|by left]. Qed.

Lemma print_char_ok q is_bytes s : byte s -> byte q -> print_char q is_bytes s = Ret (escaped_char q is_bytes s).
Proof.
  intros Hs Hq. unfold print_char, escaped_char.
  destruct (print_char_formats s Hs) as (E1 & _ & E3). destruct (print_char_formats q Hq) as (_ & E2 & _).
  destruct (Z.eqb_spec s q) as [->|]; [exact E2|]. destruct (s =? 92); [done|].
  destruct (_ && _); [exact E1|]. destruct (s =? 10); [done|]. destruct (s =? 13); [done|]. by destruct (s =? 9).
Qed.

Lemma print_chars_ok q is_bytes s : Forall byte s -> byte q ->
  print_chars q is_bytes s = Ret (concat (map (escaped_char q is_bytes) s)).
Proof.
  intros Hs Hq. induction Hs as [|c s Hc Hs IH]; [done|]. cbn [print_chars map concat].
  rewrite print_char_ok by done. cbn [obind]. by rewrite IH.
Qed.

Lemma print_quoted_ok s is_bytes : Forall byte s -> mp_str_print_quoted s is_bytes = Ret (literal s is_bytes).
Proof.
  intros Hs. assert (Hq : byte (quote_char_of s)) by (unfold byte; destruct (quote_char_cases s) as [->| ->]; lia).
  unfold mp_str_print_quoted, literal. destruct (print_char_formats _ Hq) as (-> & _ & _). cbn [obind].
  by rewrite print_chars_ok.
Qed.
