(* ===== verification/LexerTrip.v ===== *)
(** * Round trips through the lexer

    The representation that [str_print] gives of a string or of bytes is a literal that the lexer
    reads back to the same bytes. *)

From Stdlib Require Import String.
From S2P Require Import Prelude Malloc Unicode Vstr SmallInt Parsenum Token Lexer LexerStream LexerText LexerWords LexerSpec Mpprint MpprintSpec StrPrint.
Local Open Scope Z_scope.

(** ** The characters of a literal *)

Definition quote (q : Z) : Prop := q = 39 \/ q = 34.

Lemma hex_digit_ok d : 0 <= d < 16 ->
  unichar_isxdigit (hex_digit d) = true /\ unichar_xdigit_value (hex_digit d) = d /\ 48 <= hex_digit d < 128.
Proof.
  intros Hd. assert (H : forallb (fun n => let d := Z.of_nat n in unichar_isxdigit (hex_digit d) && (unichar_xdigit_value (hex_digit d) =? d)
    && (48 <=? hex_digit d) && (hex_digit d <? 128)) (seq 0 16) = true) by (vm_compute; reflexivity).
  rewrite forallb_forall in H. specialize (H (Z.to_nat d) ltac:(apply in_seq; lia)). cbn zeta in H.
  rewrite Z2Nat.id in H by lia. do 3 (apply andb_true_iff in H as [H ?]). split_and!; [done|lia..].
Qed.

(** A character stands for itself, or is a backslash and more. *)
Lemma escaped_cases q is_bytes c : byte c -> quote q ->
  escaped_char q is_bytes c = [c] /\ 32 <= c /\ c <> q /\ c <> 92 \/
  (exists d, escaped_char q is_bytes c = [92; d] /\ In (d, c) [(q, q); (92, 92); (110, 10); (114, 13); (116, 9)]) \/
  escaped_char q is_bytes c = [92; 120; hex_digit (c / 16); hex_digit (c mod 16)].
Proof.
  intros Hc Hq. unfold escaped_char. destruct (Z.eqb_spec c q) as [->|Hcq]; [right; left; exists q; cbn; tauto|].
  destruct (Z.eqb_spec c 92) as [->|Hc92]; [right; left; exists 92; cbn; tauto|].
  destruct (_ && _) eqn:Hp; [left; split_and!; try done; lia|].
  destruct (Z.eqb_spec c 10) as [->|]; [right; left; exists 110; cbn; tauto|].
  destruct (Z.eqb_spec c 13) as [->|]; [right; left; exists 114; cbn; tauto|].
  destruct (Z.eqb_spec c 9) as [->|]; [right; left; exists 116; cbn; tauto|]. by right; right.
Qed.

Lemma escaped_chars q is_bytes c : byte c -> quote q ->
  exists d l, escaped_char q is_bytes c = d :: l /\ d <> q /\ Forall (fun d => byte d /\ d <> 10 /\ d <> 13) (d :: l).
Proof.
  intros Hc Hq. pose proof (Z.mod_pos_bound c 16 ltac:(lia)). assert (0 <= c / 16 < 16) by (unfold byte in Hc; zdiv).
  destruct (hex_digit_ok (c / 16)) as (_ & _ & ?); [done|]. destruct (hex_digit_ok (c mod 16)) as (_ & _ & ?); [done|].
  unfold quote, byte in *.
  destruct (escaped_cases q is_bytes c Hc Hq) as [(-> & ?)|[(d & -> & Hd)| ->]]; eexists _, _; (split; [done|]).
  - split; [lia|]. repeat constructor; lia.
  - split; [lia|]. cbn in Hd. repeat constructor; destruct Hd as [[= <- <-]|[[= <- <-]|[[= <- <-]|[[= <- <-]|[[= <- <-]|[]]]]]]; lia.
  - split; [lia|]. repeat constructor; lia.
Qed.

Lemma literal_chars q is_bytes bs : Forall byte bs -> quote q ->
  Forall (fun d => byte d /\ d <> 10 /\ d <> 13) (concat (map (escaped_char q is_bytes) bs)).
Proof.
  intros Hb Hq. induction Hb as [|c bs Hc Hb IH]; [constructor|]. cbn [map concat].
  apply list.Forall_app. split; [|done]. destruct (escaped_chars q is_bytes c Hc Hq) as (d & l & -> & _ & F). done.
Qed.

Section LexerTrip.
Context {allocator : Allocator Z}.
Implicit Types (lex : mp_lexer_t) (s : stream_t).

(** The lexer after reading, with the text [w] added to its string. *)
Definition read_text lex l w lex' : Prop :=
  exists s v, lex' = upd lex s v (tok_kind lex) /\ At s l /\ Vstr.wf v /\ fixed_buf v = false /\
    Vstr.str v = Vstr.str (vstr lex) ++ w /\ len v + Z.of_nat (length l) <= len (vstr lex) + Z.of_nat (length (stream (src lex))).

Lemma read_text_ready e lex l w lex' : ready e lex -> read_text lex l w lex' -> ready e lex'.
Proof.
  intros [_ _ _ H] (s & v & -> & [A El] & Hv & Hf & _ & Hl). unfold left_of in *. split; try done.
  unfold left_of. cbn [vstr upd src]. rewrite El. lia.
Qed.

Lemma read_text_trans lex1 lex2 lex3 l2 l3 w2 w3 : read_text lex1 l2 w2 lex2 -> read_text lex2 l3 w3 lex3 -> read_text lex1 l3 (w2 ++ w3) lex3.
Proof.
  intros (s & v & -> & [_ El] & _ & _ & Hs & Hl) (s' & v' & -> & A' & Hv' & Hf' & Hs' & Hl').
  exists s', v'. cbn [upd vstr src tok_kind] in *. split_and!; try done; [by rewrite Hs', Hs, app_assoc|]. rewrite El in Hl'. lia.
Qed.

Lemma read_text_At lex l w lex' : read_text lex l w lex' -> At (src lex') l.
Proof. by intros (s & v & -> & A & _). Qed.

(** Adding the byte [b] at [s], where one more character is then skipped. *)
Lemma add_byte_read e lex s x l b : ready e lex -> e <= 60 -> At s (x :: l) ->
  (length (x :: l) <= length (stream (src lex)))%nat -> byte b ->
  safely [MemoryError] (fun lex' => read_text lex l [b] (next lex')) (add_byte (set_src lex s) b).
Proof.
  intros H He A Hl Hb. assert (H1 : ready e (set_src lex s)).
  { destruct H as [_ Hv Hf Hr]. split; [apply A|done..|]. unfold left_of in *. cbn [src set_src vstr]. rewrite (At_stream _ _ A). lia. }
  eapply safely_weaken; [apply (add_byte_text [MemoryError] e); [done|lia|apply list_elem_of_here]|done|].
  intros lex' (v & -> & Hv & Hf & Hlen & Hs). exists (next_char s), v. cbn [vstr set_src] in *.
  split_and!; try done; [apply (At_next _ _ _ A)|by rewrite Hs, wrap_small|]. cbn [length] in Hl. lia.
Qed.

Lemma next_src lex : next lex = set_src lex (next_char (src lex)).
Proof. done. Qed.

(** A backslash of the literal: the escape sequence that follows stands for the character. *)
Lemma backslash_read q is_bytes lex c t l : byte c -> quote q -> escaped_char q is_bytes c = 92 :: t ->
  At (src lex) (92 :: t ++ l) ->
  exists s x, At s (x :: l) /\ (length (x :: l) <= length (stream (src lex)))%nat /\
    backslash (next lex) false = add_byte (set_src lex s) c.
Proof.
  intros Hc Hq Et A. pose proof (At_next _ _ _ A) as A1.
  assert (Hbyte : forall s, (if negb (c =? MP_LEXER_EOF) then if c <? 256 then add_byte (set_src lex s) c else Ret (set_kind (set_src lex s) MP_TOKEN_INVALID)
      else Ret (set_src lex s)) = add_byte (set_src lex s) c).
  { intros s. unfold byte, MP_LEXER_EOF in *. rewrite (proj2 (Z.eqb_neq c _)) by lia. by rewrite (proj2 (Z.ltb_lt c 256)) by lia. }
  unfold backslash. cbn [obind]. rewrite (At_stream _ _ A).
  destruct (escaped_cases q is_bytes c Hc Hq) as [(E & _ & _ & H92)|[(d & E & Hd)|E]]; rewrite E in Et; simplify_eq/=.
  - exists (next_char (src lex)), d. split; [exact A1|]. split; [cbn; lia|]. rewrite <- Hbyte.
    assert (Hesc : escape_sequence (next lex) = Ret (next lex, c)); [|by rewrite Hesc].
    unfold escape_sequence, CUR_CHAR. change (src (next lex)) with (next_char (src lex)). rewrite (At_peek _ _ A1). cbn [peek app].
    cbn in Hd. destruct Hd as [[= <- <-]|[[= <- <-]|[[= <- <-]|[[= <- <-]|[[= <- <-]|[]]]]]]; [by destruct Hq as [->| ->]|done..].
  - cbn [app] in A1. pose proof (At_next _ _ _ A1) as A2. pose proof (At_next _ _ _ A2) as A3.
    exists (next_char (next_char (next_char (src lex)))), (hex_digit (c mod 16)). split; [exact A3|]. split; [cbn; lia|]. rewrite <- Hbyte.
    assert (Hesc : escape_sequence (next lex) = Ret (set_src lex (next_char (next_char (next_char (src lex)))), c)); [|by rewrite Hesc].
    pose proof (Z.mod_pos_bound c 16 ltac:(lia)) as Hm. assert (Hd : 0 <= c / 16 < 16) by (unfold byte in Hc; zdiv).
    destruct (hex_digit_ok (c / 16) Hd) as (X1 & V1 & _). destruct (hex_digit_ok (c mod 16) Hm) as (X2 & V2 & _).
    unfold escape_sequence, CUR_CHAR. change (src (next lex)) with (next_char (src lex)). rewrite (At_peek _ _ A1). cbn [peek].
    change (120 =? 120) with true. cbn -[get_hex next_char wrap].
    cbn [get_hex]. rewrite (At_peek _ _ A2). cbn [peek]. rewrite X1, V1. cbn [negb].
    rewrite (At_peek _ _ A3). cbn [peek]. rewrite X2, V2. cbn [negb].
    rewrite Z.shiftl_0_l, (wrap_small 32 (0 + _)), Z.shiftl_mul_pow2, wrap_small by lia.
    change (set_src (next lex) ?s) with (set_src lex s). f_equal. f_equal. zdiv.
Qed.

(** The body of a literal is read to its characters, and the closing quote. *)
Lemma literal_loop_read bs fuel e lex q is_bytes l : ready e lex -> e <= 60 -> Forall byte bs -> quote q ->
  At (src lex) (concat (map (escaped_char q is_bytes) bs) ++ q :: l) -> (length (stream (src lex)) < fuel)%nat ->
  safely [MemoryError] (fun '(lex', n) => n = 1 /\ read_text lex l (bs ++ [q]) lex') (literal_loop fuel lex q 1 false 0).
Proof.
  intros H He Hb Hq. revert fuel lex H. induction Hb as [|c bs Hc Hb IH]; intros fuel lex H A Hf;
    (destruct fuel as [|fuel]; [lia|]); cbn [literal_loop].
  - cbn [map concat app] in A. destruct (At_cons _ _ _ A) as (Eend & E0 & _). unfold is_char. rewrite Eend, E0, Z.eqb_refl. cbn [negb andb].
    rewrite (proj2 (Z.eqb_neq q 10)) by (destruct Hq; lia). cbn [negb andb]. change (0 <? 1) with true. cbn iota.
    unfold CUR_CHAR. rewrite E0, add_char_byte.
    assert (Hqb : byte q) by (unfold byte; destruct Hq; lia).
    pose proof (add_byte_read e lex (src lex) q l q H He A) as S. rewrite (At_stream _ _ A) in S. specialize (S (le_n _) Hqb).
    replace (set_src lex (src lex)) with lex in S by (by destruct lex).
    destruct (add_byte lex q) as [lex1| | |]; cbn [obind safely] in *; try done.
    destruct fuel as [|fuel]; [rewrite (At_stream _ _ A) in Hf; cbn in Hf; lia|]. cbn [literal_loop].
    change (0 + 1 <? 1) with false. rewrite andb_false_r. cbn [safely]. done.
  - cbn [map concat] in A. rewrite <- app_assoc in A.
    destruct (escaped_chars q is_bytes c Hc Hq) as (d & t & Et & Hdq & Fd). rewrite Et in A. cbn [app] in A.
    inversion_clear Fd as [|? ? (_ & Hd10 & _) _].
    destruct (At_cons _ _ _ A) as (Eend & E0 & _). unfold is_char. rewrite Eend, E0. cbn [negb andb].
    rewrite (proj2 (Z.eqb_neq d 10)), (proj2 (Z.eqb_neq d q)) by done. cbn [negb andb]. change (0 <? 1) with true. cbn iota.
    assert (S : safely [MemoryError] (fun lex' => read_text lex (concat (map (escaped_char q is_bytes) bs) ++ q :: l) [c] (next lex'))
      (if d =? 92 then backslash (next lex) false else add_byte lex d)).
    { destruct (Z.eqb_spec d 92) as [->|Hd92].
      - destruct (backslash_read q is_bytes lex c t _ Hc Hq Et A) as (s & x & As & Hl & ->). by eapply add_byte_read.
      - destruct (escaped_cases q is_bytes c Hc Hq) as [(E & _)|[(? & E & _)|E]]; rewrite E in Et; injection Et as <- <-; try done.
        pose proof (add_byte_read e lex (src lex) c _ c H He A) as S. rewrite (At_stream _ _ A) in S. specialize (S (le_n _) Hc).
        by replace (set_src lex (src lex)) with lex in S by (by destruct lex). }
    unfold CUR_CHAR. rewrite E0.
    destruct (if d =? 92 then _ else _) as [lex1| | |]; cbn [obind safely] in *; try done.
    pose proof (read_text_At _ _ _ _ S) as A1. pose proof (read_text_ready _ _ _ _ _ H S) as H1.
    eapply safely_weaken; [apply (IH fuel (next lex1) H1 A1)|done|].
    + rewrite (At_stream _ _ A1). rewrite (At_stream _ _ A) in Hf. cbn [length] in Hf. rewrite length_app in Hf. lia.
    + intros [lex2 n] [-> S2]. split; [done|]. apply (read_text_trans _ _ _ _ _ _ _ S S2).
Qed.

Lemma next_ready e lex c l : ready e lex -> At (src lex) (c :: l) -> ready e (next lex).
Proof. intros H A. eapply txt_ready0; [by apply (txt_next _ _ _ _ H A)|lia|done]. Qed.

(** A literal in single quotes of one character, up to the end of the line. *)
Lemma parse_literal_read e lex bs is_bytes q l : ready e lex -> e <= 60 -> Forall byte bs -> quote q -> len (vstr lex) = 0 ->
  At (src lex) (q :: concat (map (escaped_char q is_bytes) bs) ++ q :: 10 :: l) ->
  safely [MemoryError] (fun lex' => exists s v, lex' = upd lex s v (tok_kind lex) /\ At s (10 :: l) /\ Vstr.str v = bs)
    (parse_string_literal lex false).
Proof.
  intros H He Hb Hq Hlen A. pose proof (At_next _ _ _ A) as A1. pose proof (next_ready _ _ _ _ H A) as H1.
  unfold parse_string_literal. rewrite (At_is_char _ _ A). cbn [peek].
  assert (Eq : (if q =? 34 then 34 else 39) = q) by (destruct Hq as [->| ->]; done). rewrite Eq.
  assert (Hopen : is_char_and (src (next lex)) q q = false).
  { unfold is_char_and. change (src (next lex)) with (next_char (src lex)). destruct bs as [|c bs].
    - cbn [map concat app] in A1. destruct (At_cons _ _ _ A1) as (_ & -> & ->). cbn [peek]. rewrite Z.eqb_refl.
      by rewrite (proj2 (Z.eqb_neq 10 q)) by (destruct Hq; lia).
    - apply list.Forall_cons in Hb as [Hc _]. destruct (escaped_chars q is_bytes c Hc Hq) as (d & t & Et & Hd & _).
      cbn [map concat] in A1. rewrite Et, <- app_assoc in A1. cbn [app] in A1. destruct (At_cons _ _ _ A1) as (_ & -> & _).
      by rewrite (proj2 (Z.eqb_neq d q)). }
  rewrite Hopen.
  eapply safely_bind; [apply (literal_loop_read bs _ e (next lex) q is_bytes (10 :: l)); try done; apply stream_length|].
  intros [lex1 n] (-> & s & v & -> & A2 & Hv & Hf & Hs & _). cbn [safely]. change (1 <? 1) with false. cbn iota.
  cbn [vstr upd next set_src tok_kind] in *. assert (E0 : Vstr.str (vstr lex) = []) by (unfold Vstr.str; by rewrite Hlen).
  rewrite E0 in Hs. cbn [app] in Hs. exists s, (vstr_cut_tail_bytes v 1). split; [done|]. split; [done|].
  pose proof (str_length v Hv) as Hl. rewrite Hs, length_app in Hl. cbn [length] in Hl. pose proof (Vstr.wf_len _ Hv).
  unfold vstr_cut_tail_bytes. rewrite (proj2 (Z.ltb_ge (len v) 1)) by lia.
  unfold Vstr.str in *. cbn [len buf]. replace (Z.to_nat (len v - 1)) with (length bs) by lia.
  replace (take (length bs) (buf v)) with (take (length bs) (take (Z.to_nat (len v)) (buf v))) by (rewrite take_take; f_equal; lia).
  by rewrite Hs, take_app_length.
Qed.

(** Nothing follows the literal on its line. *)
Lemma skip_at_newline lex l : At (src lex) (10 :: l) -> nested_bracket_level lex = 0 ->
  skip_whitespace lex true = Ret (lex, false) /\ is_string_or_bytes (src lex) = false.
Proof.
  intros A Hn. split.
  - unfold skip_whitespace. rewrite Hn. cbn [Z.eqb andb]. unfold loop_fuel.
    replace (length (input (src lex)) + 5)%nat with (S (length (input (src lex)) + 4)) by lia. cbn [skip_whitespace_loop].
    at_tests A. cbn [obind]. by destruct lex.
  - unfold is_string_or_bytes, is_char_or3, is_char_or, is_char_and. destruct (At_cons _ _ _ A) as (_ & -> & _). done.
Qed.

Definition literal_kind (is_bytes : bool) : mp_token_kind_t := if is_bytes then MP_TOKEN_BYTES else MP_TOKEN_STRING.

(** The literal with its type code. *)
Definition repr (bs : list Z) (is_bytes : bool) : list Z := (if is_bytes then [98] else []) ++ literal bs is_bytes.

Lemma literals_read fuel e lex bs is_bytes l : ready e lex -> e <= 60 -> Forall byte bs -> len (vstr lex) = 0 ->
  nested_bracket_level lex = 0 -> tok_kind lex = MP_TOKEN_END -> At (src lex) (repr bs is_bytes ++ 10 :: l) -> (0 < fuel)%nat ->
  safely [MemoryError] (fun lex' => exists s v, lex' = upd lex s v (literal_kind is_bytes) /\ At s (10 :: l) /\ Vstr.str v = bs)
    (literals fuel lex).
Proof.
  intros H He Hb Hlen Hn Hk A Hf. destruct fuel as [|fuel]; [lia|]. cbn [literals].
  pose proof (quote_char_cases bs) as Hq. set (q := quote_char_of bs) in *.
  assert (Hcodes : exists lex1, type_codes (src lex) = (false, literal_kind is_bytes, if is_bytes then 1%nat else 0%nat) /\
    (match (if is_bytes then 1%nat else 0%nat) with O => set_kind lex (literal_kind is_bytes)
      | 1%nat => next (set_kind lex (literal_kind is_bytes)) | _ => next (next (set_kind lex (literal_kind is_bytes))) end) = lex1 /\
    (exists s, lex1 = upd lex s (vstr lex) (literal_kind is_bytes)) /\ ready e lex1 /\
    At (src lex1) (q :: concat (map (escaped_char q is_bytes) bs) ++ q :: 10 :: l)).
  { unfold repr, literal in A. fold q in A.
    assert (H0 : ready e (set_kind lex (literal_kind is_bytes))) by (destruct H; by split).
    unfold type_codes, is_char, is_char_following. destruct is_bytes; cbn [app] in A; rewrite <- ?app_assoc in A; cbn [app] in A.
    - destruct (At_cons _ _ _ A) as (_ & -> & ->). cbn [peek]. exists (next (set_kind lex MP_TOKEN_BYTES)).
      split; [by destruct Hq as [->| ->]|]. split; [done|]. split; [by eexists|]. split; [by eapply next_ready|].
      apply (At_next _ _ _ A).
    - destruct (At_cons _ _ _ A) as (_ & -> & _). exists (set_kind lex MP_TOKEN_STRING).
      split; [by destruct Hq as [->| ->]|]. split; [done|]. split; [by exists (src lex)|]. by split. }
  destruct Hcodes as (lex1 & -> & E1 & (s1 & E2) & H1 & A1). rewrite Hk. cbn [bool_decide orb]. cbv zeta. rewrite E1.
  eapply safely_bind; [apply (parse_literal_read e lex1 bs is_bytes q l); try done; by rewrite E2|].
  intros lex2 (s & v & -> & A2 & Hs).
  destruct (skip_at_newline (upd lex1 s v (tok_kind lex1)) l A2) as [-> Hno]; [by rewrite E2|]. cbn [obind].
  rewrite Hno. cbn [safely]. exists s, v. by rewrite E2.
Qed.

Variable mp_optimise_value : Z.

(** No white space is skipped before a literal. *)
Lemma skip_at_literal lex c l : At (src lex) (c :: l) -> c = 98 \/ quote c -> skip_whitespace lex false = Ret (lex, false).
Proof.
  intros A Hc. unfold skip_whitespace. cbn [andb]. unfold loop_fuel.
  replace (length (input (src lex)) + 5)%nat with (S (length (input (src lex)) + 4)) by lia. cbn [skip_whitespace_loop].
  unfold quote in Hc. at_tests A. replace (unichar_isspace c) with false by (destruct Hc as [->|[->| ->]]; done).
  rewrite (proj2 (Z.eqb_neq c 10)), (proj2 (Z.eqb_neq c 35)), (proj2 (Z.eqb_neq c 92)) by lia. cbn [andb obind]. by destruct lex.
Qed.

Lemma repr_head bs is_bytes : exists c l, repr bs is_bytes = c :: l /\ (c = 98 \/ quote c) /\
  forall s l', At s (repr bs is_bytes ++ l') -> is_string_or_bytes s = true.
Proof.
  pose proof (quote_char_cases bs) as Hq. unfold repr, literal. set (q := quote_char_of bs) in *.
  destruct is_bytes; cbn [app].
  - eexists _, _. split; [done|]. split; [by left|]. intros s l' A. destruct (At_cons _ _ _ A) as (_ & E0 & E1).
    unfold is_string_or_bytes, is_char_or, is_char_or3, is_char_following_or. rewrite E0, E1. cbn [peek].
    by destruct Hq as [->| ->].
  - eexists _, _. split; [done|]. split; [by right|]. intros s l' A. destruct (At_cons _ _ _ A) as (_ & E0 & E1).
    unfold is_string_or_bytes, is_char_or. rewrite E0. by destruct Hq as [->| ->].
Qed.

Lemma to_next_literal lex bs is_bytes l : ready 0 (set_vstr lex (vstr_reset (vstr lex))) -> Forall byte bs ->
  nested_bracket_level lex = 0 -> emit_dent lex = 0 -> At (src lex) (repr bs is_bytes ++ 10 :: l) ->
  safely [MemoryError] (fun lex' => current lex' = (literal_kind is_bytes, bs) /\ At (src lex') (10 :: l) /\
    tok_column lex' = column (src lex)) (mp_lexer_to_next mp_optimise_value lex).
Proof.
  intros H Hb Hn Hd A. destruct (repr_head bs is_bytes) as (c & t & Ec & Hc & Hs). unfold mp_lexer_to_next.
  set (lex0 := set_vstr lex (vstr_reset (vstr lex))) in *.
  assert (A0 : At (src lex0) (c :: t ++ 10 :: l)) by (by rewrite Ec in A).
  rewrite (skip_at_literal lex0 c _ A0 Hc). cbn [obind]. set (lex1 := set_position lex0).
  change (emit_dent lex1) with (emit_dent lex). rewrite Hd. change (0 <? 0) with false. cbn [andb]. cbn iota.
  change (src lex1) with (src lex).
  assert (Ee : is_end (src lex) = false) by apply (At_cons _ _ _ A0). rewrite Ee, (Hs (src lex) _ A). unfold string_token.
  assert (H1 : ready 0 (set_kind lex1 MP_TOKEN_END)) by (destruct H; by split).
  eapply safely_weaken; [apply (literals_read _ 0 (set_kind lex1 MP_TOKEN_END) bs is_bytes l); try done; unfold loop_fuel; lia|done|].
  intros lex' (s & v & -> & A' & E). unfold current. cbn [tok_kind vstr upd src tok_column]. by rewrite E.
Qed.

Lemma repr_plain bs is_bytes : Forall byte bs -> Forall (fun c => byte c /\ c <> 10 /\ c <> 13) (repr bs is_bytes).
Proof.
  intros Hb. pose proof (quote_char_cases bs) as Hq. unfold repr, literal. set (q := quote_char_of bs) in *.
  assert (Fq : byte q /\ q <> 10 /\ q <> 13) by (unfold byte; destruct Hq; lia).
  apply list.Forall_app. split; [destruct is_bytes; repeat constructor; unfold byte; lia|].
  constructor; [done|]. apply list.Forall_app. split; [by apply literal_chars|]. apply list.Forall_cons. split; [done|constructor].
Qed.

Lemma repr_text_length bs is_bytes : Forall byte bs -> (length (repr bs is_bytes) <= 4 * length bs + 3)%nat.
Proof.
  intros Hb. pose proof (quote_char_cases bs) as Hq. unfold repr, literal. set (q := quote_char_of bs) in *.
  assert (H : (length (concat (map (escaped_char q is_bytes) bs)) <= 4 * length bs)%nat).
  { clearbody q. induction Hb as [|c bs Hc Hb IH]; [cbn; lia|]. cbn [map concat]. rewrite length_app. cbn [length].
    destruct (escaped_cases q is_bytes c Hc Hq) as [(-> & _)|[(d & -> & _)| ->]]; cbn [length]; lia. }
  rewrite length_app. cbn [length]. rewrite length_app. cbn [length]. destruct is_bytes; cbn [length]; lia.
Qed.

(** The first token of a source of one line. *)
Lemma new_lexer_token w tok : Forall (fun c => byte c /\ c <> 10 /\ c <> 13) w -> Z.of_nat (length w) <= 2 ^ 25 ->
  (forall lex, ready 0 (set_vstr lex (vstr_reset (vstr lex))) -> nested_bracket_level lex = 0 -> emit_dent lex = 0 -> At (src lex) (w ++ [10]) ->
     safely [MemoryError] (fun lex' => current lex' = tok /\ At (src lex') [10] /\ tok_column lex' = column (src lex))
       (mp_lexer_to_next mp_optimise_value lex)) ->
  safely [MemoryError] (fun lex => current lex = tok /\ At (src lex) [10]) (mp_lexer_new_from_str_len mp_optimise_value w).
Proof.
  intros F Hl Hnext. assert (Fb : Forall byte w) by (eapply list.Forall_impl; [exact F|by intros c [? _]]).
  destruct (lexer_created mp_optimise_value w Fb) as [->|(-> & W & A & Hv & Hcol)]; [lia|apply list_elem_of_here|].
  unfold normalise in A. rewrite norm_plain in A; [|done|eapply list.Forall_impl; [exact F|by intros c [_ ?]]].
  set (lex0 := start_lexer w) in *.
  eapply safely_bind; [apply (Hnext lex0); try done|].
  { pose proof (lex_wf_ready lex0 W Hv) as [? ? ? ?]. by split. }
  intros lex (E & A' & Ec). cbn [safely]. rewrite Ec. by rewrite Hcol.
Qed.

(** ** Integers *)

(** The characters of an integer after the first. *)
Definition int_char (forced : bool) (c : Z) : bool :=
  (unichar_isalpha c || unichar_isdigit c) && negb ((c =? 46) || (c =? 106) || (c =? 74)) && (forced || negb ((c =? 101) || (c =? 69))).

Lemma add_byte_same e lex c l : ready e lex -> e <= 60 -> At (src lex) (c :: l) -> byte c ->
  safely [MemoryError] (fun lex' => read_text lex l [c] (next lex')) (add_byte lex c).
Proof.
  intros H He A Hc. pose proof (add_byte_read e lex (src lex) c l c H He A) as S. rewrite (At_stream _ _ A) in S.
  specialize (S (le_n _) Hc). by replace (set_src lex (src lex)) with lex in S by (by destruct lex).
Qed.

Lemma number_tail_read fuel e lex forced cs l : ready e lex -> e <= 60 -> At (src lex) (cs ++ 10 :: l) ->
  Forall (fun c => int_char forced c = true) cs -> (length cs < fuel)%nat ->
  safely [MemoryError] (fun lex' => read_text lex (10 :: l) cs lex') (number_tail fuel lex forced).
Proof.
  revert lex cs. induction fuel as [|fuel IH]; intros lex cs H He A Hcs Hf; [lia|]. cbn [number_tail].
  destruct cs as [|c cs]; cbn [app] in A; rewrite (proj1 (At_cons _ _ _ A)).
  - unfold is_letter, is_digit. rewrite (At_is_char _ _ A 46), (At_is_char _ _ A 95), (At_peek _ _ A). unfold is_char_or. rewrite (At_peek _ _ A).
    cbn [peek]. change ((10 =? 101) || (10 =? 69)) with false. rewrite andb_false_r.
    change (unichar_isalpha 10 || unichar_isdigit 10 || (10 =? 46)) with false. cbn [safely].
    exists (src lex), (vstr lex). split_and!; try done; try apply H; [by destruct lex|by rewrite app_nil_r|rewrite (At_stream _ _ A); lia].
  - apply list.Forall_cons in Hcs as [Hc Hcs]. unfold int_char in Hc. apply andb_true_iff in Hc as [Hc Hf1]. apply andb_true_iff in Hc as [Hc Hf2].
    unfold is_letter, is_digit, is_char_or3, is_char_or, CUR_CHAR. rewrite (At_is_char _ _ A 46), !(At_peek _ _ A). cbn [peek].
    replace (negb forced && ((c =? 101) || (c =? 69))) with false by (destruct forced; [done|]; symmetry; cbn in *; lia).
    rewrite Hc. cbn [orb]. replace ((c =? 46) || (c =? 106) || (c =? 74)) with false by (symmetry; apply negb_true_iff; done).
    rewrite add_char_byte, (At_peek _ _ A). cbn [peek]. pose proof (At_chars _ _ A) as Hb. apply list.Forall_cons in Hb as [Hb _].
    pose proof (add_byte_same e lex c _ H He A Hb) as S.
    destruct (add_byte lex c) as [lex1| | |]; cbn [safely obind] in *; try done.
    eapply safely_weaken; [apply (IH (next lex1) cs); [by eapply read_text_ready|done|by eapply read_text_At|done|cbn in Hf; lia]|done|].
    intros lex' S2. exact (read_text_trans _ _ _ _ _ _ _ S S2).
Qed.

(** An integer of digits, or of the prefix of a base and letters and digits. *)
Definition int_literal (s : list Z) : Prop :=
  exists c cs, s = c :: cs /\ unichar_isdigit c = true /\
    Forall (fun d => int_char ((c =? 48) && ((Z.lor (peek cs) 0x20 =? 98) || (Z.lor (peek cs) 0x20 =? 111) || (Z.lor (peek cs) 0x20 =? 120))) d = true) cs.

Lemma digit_range c : byte c -> unichar_isdigit c = true -> 48 <= c <= 57.
Proof.
  intros Hb Hd.
  assert (F : forallb (fun n => let c := Z.of_nat n in negb (unichar_isdigit c) || ((48 <=? c) && (c <=? 57))) (seq 0 256) = true) by (vm_compute; reflexivity).
  rewrite forallb_forall in F. specialize (F (Z.to_nat c) ltac:(apply in_seq; unfold byte in Hb; lia)). cbn zeta in F.
  rewrite Z2Nat.id, Hd in F by (unfold byte in Hb; lia). cbn in F. lia.
Qed.

Lemma digit_class c : 48 <= c <= 57 -> unichar_isspace c = false /\ unichar_isalpha c = false.
Proof.
  intros Hc. assert (F : forallb (fun n => let c := Z.of_nat n in negb (unichar_isspace c) && negb (unichar_isalpha c)) (seq 48 10) = true) by (vm_compute; reflexivity).
  rewrite forallb_forall in F. specialize (F (Z.to_nat c) ltac:(apply in_seq; lia)). cbn zeta in F. rewrite Z2Nat.id in F by lia.
  by apply andb_true_iff in F as [F1%negb_true_iff F2%negb_true_iff].
Qed.

Lemma number_token_read e lex w l : ready e lex -> e <= 60 -> len (vstr lex) = 0 -> int_literal w -> At (src lex) (w ++ 10 :: l) ->
  safely [MemoryError] (fun lex' => current lex' = (MP_TOKEN_INTEGER, w) /\ At (src lex') (10 :: l) /\ tok_column lex' = tok_column lex)
    (number_token lex).
Proof.
  intros H He Hv (c & cs & -> & Hd & Hcs) A. cbn [app] in A. unfold number_token.
  pose proof (At_chars _ _ A) as Hb. apply list.Forall_cons in Hb as [Hb _]. pose proof (digit_range c Hb Hd) as Hc.
  set (forced := (c =? 48) && _) in Hcs. rewrite (At_is_char _ _ A 46), (At_is_char _ _ A 48). cbn [peek].
  rewrite (proj2 (Z.eqb_neq c 46)) by lia. cbn [negb andb]. unfold is_following_base_char. rewrite (At_peek1 _ _ _ A).
  assert (Ef : (c =? 48) && ((Z.lor (peek (cs ++ 10 :: l)) 32 =? 98) || (Z.lor (peek (cs ++ 10 :: l)) 32 =? 111) || (Z.lor (peek (cs ++ 10 :: l)) 32 =? 120)) = forced).
  { unfold forced. destruct cs as [|d cs]; [|done]. cbn. by rewrite !andb_false_r. }
  rewrite Ef. unfold CUR_CHAR. change (src (set_kind lex MP_TOKEN_INTEGER)) with (src lex). rewrite (At_peek _ _ A), add_char_byte. cbn [peek].
  assert (H0 : ready e (set_kind lex MP_TOKEN_INTEGER)) by (destruct H; by split).
  pose proof (add_byte_same e (set_kind lex MP_TOKEN_INTEGER) c _ H0 He A ltac:(unfold byte; lia)) as S.
  destruct (add_byte _ c) as [lex1| | |]; cbn [safely obind] in *; try done.
  pose proof (read_text_At _ _ _ _ S) as A1.
  eapply safely_weaken; [apply (number_tail_read _ e (next lex1) forced cs l); [by eapply read_text_ready|done|done|done|]|done|].
  - pose proof (At_fuel _ _ A1) as Hfuel. rewrite length_app in Hfuel. lia.
  - intros lex' S2. destruct (read_text_trans _ _ _ _ _ _ _ S S2) as (s & v & -> & A' & _ & _ & Es & _).
    unfold current. cbn [tok_kind vstr upd set_kind src tok_column] in *. rewrite Es. unfold Vstr.str at 1. by rewrite Hv.
Qed.

(** No white space is skipped, and the digit begins no other kind of token. *)
Lemma to_next_integer lex w l : ready 0 (set_vstr lex (vstr_reset (vstr lex))) -> int_literal w ->
  emit_dent lex = 0 -> At (src lex) (w ++ 10 :: l) ->
  safely [MemoryError] (fun lex' => current lex' = (MP_TOKEN_INTEGER, w) /\ At (src lex') (10 :: l) /\
    tok_column lex' = column (src lex)) (mp_lexer_to_next mp_optimise_value lex).
Proof.
  intros H Hw Hd A. destruct Hw as (c & cs & Ew & Hdig & Hcs) eqn:Heq. clear Heq. unfold mp_lexer_to_next.
  set (lex0 := set_vstr lex (vstr_reset (vstr lex))) in *.
  assert (A0 : At (src lex0) (c :: cs ++ 10 :: l)) by (by rewrite Ew in A).
  pose proof (At_chars _ _ A0) as Hb. apply list.Forall_cons in Hb as [Hb _]. pose proof (digit_range c Hb Hdig) as Hc.
  destruct (digit_class c Hc) as [Hsp Hal].
  assert (Hskip : skip_whitespace lex0 false = Ret (lex0, false)).
  { unfold skip_whitespace. cbn [andb]. unfold loop_fuel.
    replace (length (input (src lex0)) + 5)%nat with (S (length (input (src lex0)) + 4)) by lia. cbn [skip_whitespace_loop].
    at_tests A0. rewrite Hsp. rewrite (proj2 (Z.eqb_neq c 10)), (proj2 (Z.eqb_neq c 35)), (proj2 (Z.eqb_neq c 92)) by lia.
    cbn [andb obind]. by destruct lex0. }
  rewrite Hskip. cbn [obind]. set (lex1 := set_position lex0).
  change (emit_dent lex1) with (emit_dent lex). rewrite Hd. change (0 <? 0) with false. cbn [andb]. cbn iota.
  destruct (At_cons _ _ _ A0) as (Ee & E0 & _).
  assert (Hs : is_string_or_bytes (src lex1) = false).
  { unfold is_string_or_bytes, is_char_or, is_char_or3, is_char_and. change (src lex1) with (src lex0). rewrite E0.
    by rewrite !(proj2 (Z.eqb_neq c _)) by lia. }
  assert (Hh : is_head_of_identifier (src lex1) = false).
  { unfold is_head_of_identifier, is_letter. change (src lex1) with (src lex0). rewrite E0, Hal.
    rewrite (proj2 (Z.eqb_neq c 95)) by lia. cbn [orb]. lia. }
  assert (Hdg : is_digit (src lex1) = true) by (unfold is_digit; change (src lex1) with (src lex0); by rewrite E0).
  assert (Hend : is_end (src lex1) = false) by done. rewrite Hend, Hs, Hh, Hdg. cbn [orb].
  assert (H1 : ready 0 lex1) by (destruct H; by split).
  eapply safely_weaken; [apply (number_token_read 0 lex1 w l H1); try done; by exists c, cs|done|].
  by intros lex' (E & A' & Ecol).
Qed.

Lemma new_lexer_integer w : int_literal w -> Forall (fun c => byte c /\ c <> 10 /\ c <> 13) w -> Z.of_nat (length w) <= 2 ^ 25 ->
  safely [MemoryError] (fun lex => current lex = (MP_TOKEN_INTEGER, w) /\ At (src lex) [10]) (mp_lexer_new_from_str_len mp_optimise_value w).
Proof. intros Hw F Hl. apply new_lexer_token; [done|done|]. intros lex H1 _ H3 H4. by apply to_next_integer. Qed.
End LexerTrip.

(** The characters of the digits. *)
Lemma digit_char_int d : 0 <= d < 16 -> int_char true (digit_char d) = true /\ 48 <= digit_char d < 128 /\
  (d < 10 -> unichar_isdigit (digit_char d) = true /\ int_char false (digit_char d) = true).
Proof.
  intros Hd. assert (F : forallb (fun n => let d := Z.of_nat n in int_char true (digit_char d) && ((48 <=? digit_char d) && (digit_char d <? 128)) &&
    ((10 <=? d) || (unichar_isdigit (digit_char d) && int_char false (digit_char d)))) (seq 0 16) = true) by (vm_compute; reflexivity).
  rewrite forallb_forall in F. specialize (F (Z.to_nat d) ltac:(apply in_seq; lia)). cbn zeta in F. rewrite Z2Nat.id in F by lia.
  apply andb_true_iff in F as [F1 F3]. apply andb_true_iff in F1 as [F1 F2]. split_and!; [done|lia|lia|].
  intros Hlt. rewrite (proj2 (Z.leb_gt 10 d)) in F3 by done. by apply andb_true_iff in F3.
Qed.

Lemma base_prefix_char base x : base_prefix base [48; x] -> int_char true x = true /\ x <> 10 /\ x <> 13 /\
  ((Z.lor x 0x20 =? 98) || (Z.lor x 0x20 =? 111) || (Z.lor x 0x20 =? 120)) = true /\ 2 <= base <= 16.
Proof.
  intros (y & [= <-] & Hx & Hb). assert (Hor : (Z.lor x 0x20 =? 98) || (Z.lor x 0x20 =? 111) || (Z.lor x 0x20 =? 120) = true) by lia.
  assert (F : forallb (fun n => let x := Z.of_nat n in negb ((Z.lor x 0x20 =? 98) || (Z.lor x 0x20 =? 111) || (Z.lor x 0x20 =? 120)) ||
    (int_char true x && (negb (x =? 10) && negb (x =? 13)))) (seq 0 256) = true) by (vm_compute; reflexivity).
  rewrite forallb_forall in F. specialize (F (Z.to_nat x) ltac:(apply in_seq; unfold byte in Hx; lia)). cbn zeta in F.
  rewrite Z2Nat.id, Hor in F by (unfold byte in Hx; lia). cbn [negb orb] in F. apply andb_true_iff in F as [F1 F2].
  split_and!; try done; lia.
Qed.

Lemma digits_plain base ds : base <= 16 -> Forall (fun d => 0 <= d < base) ds ->
  Forall (fun c => byte c /\ c <> 10 /\ c <> 13) (map digit_char ds).
Proof.
  intros Hb F. induction F as [|d ds Hd F IH]; [constructor|]. constructor; [|done].
  destruct (digit_char_int d) as (_ & ? & _); [lia|]. unfold byte. lia.
Qed.

Lemma int_text_literal n base prefix : 0 <= n < 2 ^ 30 ->
  prefix = None /\ base = 10 \/ (exists pre, prefix = Some pre /\ base_prefix base pre) ->
  int_literal (int_text n base prefix) /\ Forall (fun c => byte c /\ c <> 10 /\ c <> 13) (int_text n base prefix) /\
  Z.of_nat (length (int_text n base prefix)) <= 2 ^ 25.
Proof.
  intros Hn Hp. unfold int_text. rewrite (proj2 (Z.ltb_ge n 0)), Z.abs_eq by lia. cbn [app].
  assert (Hb : 2 <= base <= 16) by (destruct Hp as [[_ ->]|(pre & _ & x & -> & _ & Hx)]; lia).
  destruct (to_digits_spec 32 n base [] ltac:(lia)) as (d & ds & E & _ & F & _); [lia|done|].
  pose proof (to_digits_length n base ltac:(lia) ltac:(lia)) as Hlen. rewrite app_nil_r in E. rewrite E in *.
  pose proof (digits_plain base (d :: ds) ltac:(lia) F) as Fp.
  destruct Hp as [[-> ->]|(pre & -> & Hpre)]; cbn [default app].
  - split; [|split; [exact Fp|lia]]. apply list.Forall_cons in F as [Hd F]. exists (digit_char d), (map digit_char ds). split; [done|].
    destruct (digit_char_int d) as (_ & _ & H); [lia|]. split; [apply H; lia|]. apply Forall_map.
    eapply list.Forall_impl; [exact F|]. intros d' Hd'. cbn beta in Hd'. destruct (digit_char_int d') as (H1 & _ & H2); [lia|].
    destruct H2 as [_ H2]; [lia|]. by destruct (_ && _).
  - pose proof Hpre as (x & -> & Hx & _). destruct (base_prefix_char base x Hpre) as (Hi & H10 & H13 & Hor & _).
    cbn [app]. split; [|split].
    + exists 48, (x :: map digit_char (d :: ds)). split; [done|]. split; [done|]. cbn [peek]. rewrite Hor. cbn [Z.eqb Pos.eqb andb].
      constructor; [done|]. apply Forall_map. eapply list.Forall_impl; [exact F|]. intros d' Hd'. cbn beta in Hd'. apply digit_char_int. lia.
    + constructor; [unfold byte; lia|]. by constructor.
    + unfold id. cbn [app map length] in *. lia.
Qed.

(** C28. Round trip of integer literals: the text of a non-negative small integer, in decimal or with the prefix of base 2, 8 or 16, is
    read by the lexer as one integer token, from which [mp_parse_num_integer] computes the integer, unless memory runs out. *)
Theorem int_print_lex `{Allocator Z} opt n base pre : 0 <= n < 2 ^ 30 -> base_prefix base pre ->
  let reads_back lex := exists s, current lex = (MP_TOKEN_INTEGER, s) /\ At (src lex) [10] /\ mp_parse_num_integer s 0 true = Ret n in
  safely [MemoryError] reads_back (let! '(s, _) := mp_obj_int_print n in mp_lexer_new_from_str_len opt s) /\
  safely [MemoryError] reads_back (let! s := mp_obj_int_formatted 16 n base (Some pre) 97 0 in mp_lexer_new_from_str_len opt s).
Proof.
  intros Hn Hp reads_back. split.
  - rewrite int_print_ok by lia. cbn [obind]. destruct (int_text_literal n 10 None Hn) as (L & F & Hl); [by left|].
    eapply safely_weaken; [by apply new_lexer_integer|done|]. intros lex [E A]. exists (int_text n 10 None). split_and!; try done.
    apply parse_plain; lia.
  - assert (Hb : 2 <= base <= 16 /\ length pre = 2%nat) by (destruct Hp as (x & -> & _ & Hx); split; [lia|done]).
    destruct (formatted_ok 16 n base (Some pre) 97) as (size & _ & ->); [lia|by right|lia|cbn; lia|].
    destruct ((size <=? 16) || m_renew_ok size); cbn [obind safely]; [|apply list_elem_of_here].
    destruct (int_text_literal n base (Some pre) Hn) as (L & F & Hl); [right; by eexists|].
    eapply safely_weaken; [by apply new_lexer_integer|done|]. intros lex [E A]. exists (int_text n base (Some pre)). split_and!; try done.
    apply parse_prefixed; [done|lia].
Qed.

(** C22. Round trip of strings: [repr] of a string or of bytes of at most [2^23 - 1] bytes is a literal from which the lexer,
    unless memory runs out, makes one token of the same kind with the same bytes; only the final newline is left. *)
Theorem str_print_lex `{Allocator Z} opt type bs : Forall byte bs -> Z.of_nat (length bs) <= 2 ^ 23 - 1 ->
  safely [MemoryError] (fun lex => current lex = (match type with mp_type_str => MP_TOKEN_STRING | mp_type_bytes => MP_TOKEN_BYTES end, bs) /\
      At (src lex) [10])
    (let! out := str_print type bs PRINT_REPR in mp_lexer_new_from_str_len opt out).
Proof.
  intros Hb Hl. set (is_bytes := bool_decide (type = mp_type_bytes)).
  assert (E : str_print type bs PRINT_REPR = Ret (repr bs is_bytes)).
  { unfold str_print. change (bool_decide (PRINT_REPR = PRINT_RAW)) with false. change (bool_decide (PRINT_REPR = PRINT_STR)) with false.
    cbn [andb orb]. rewrite print_quoted_ok by done. cbn [obind]. by destruct type. }
  rewrite E. cbn [obind].
  replace (match type with mp_type_str => MP_TOKEN_STRING | mp_type_bytes => MP_TOKEN_BYTES end) with (literal_kind is_bytes) by (by destruct type).
  apply new_lexer_token; [by apply repr_plain|pose proof (repr_text_length bs is_bytes Hb); lia|].
  intros lex H1 H2 H3 H4. by apply to_next_literal.
Qed.

#[local] Instance sample_heap : Allocator Z := {| m_renew_ok n := n <=? 6400000; fresh := 170 |}.

Lemma str_print_lex_witness :
  safely [MemoryError] (fun lex => current lex = (MP_TOKEN_BYTES, [0; 39; 34; 92; 10; 255]) /\ At (src lex) [10])
    (let! out := str_print mp_type_bytes [0; 39; 34; 92; 10; 255] PRINT_REPR in mp_lexer_new_from_str_len 0 out).
Proof. apply (str_print_lex 0 mp_type_bytes); [repeat constructor; lia|cbn; lia]. Defined.

Lemma int_print_lex_witness :
  let reads_back lex := exists s, current lex = (MP_TOKEN_INTEGER, s) /\ At (src lex) [10] /\ mp_parse_num_integer s 0 true = Ret 48879 in
  safely [MemoryError] reads_back (let! '(s, _) := mp_obj_int_print 48879 in mp_lexer_new_from_str_len 0 s) /\
  safely [MemoryError] reads_back (let! s := mp_obj_int_formatted 16 48879 16 (Some (chars "0X")) 97 0 in mp_lexer_new_from_str_len 0 s).
Proof. apply int_print_lex; [lia|]. exists 88. split; [reflexivity|]. split; [unfold byte; lia|by left]. Defined.
