(* ===== verification/Sequence.v ===== *)
(** * Sequences: comparison, search and slices ([py/sequence.c], [py/objslice.c])

    Sequences are lists of objects or bytes; a slice's [start], [stop] and [step] are integers
    or [None]. *)

From S2P Require Import Prelude MpObj.
Local Open Scope Z_scope.

Inductive cmp_op := MP_BINARY_OP_LESS | MP_BINARY_OP_MORE | MP_BINARY_OP_EQUAL
  | MP_BINARY_OP_LESS_EQUAL | MP_BINARY_OP_MORE_EQUAL.

#[export] Instance cmp_op_eq_dec : EqDecision cmp_op.
Proof. solve_decision. Defined.

(** [mp_seq_multiply]: [times] copies of the items, from [dest + pos] on. *)
Fixpoint mp_seq_multiply {A} (items : list A) (times : nat) (dest : list A) (pos : Z) : outcome (list A) :=
  match times with
  | O => Ret dest
  | S times =>
    let! dest := memcpy_in dest pos items in
    mp_seq_multiply items times dest (pos + Z.of_nat (length items))
  end.

(** ** Comparison *)

(** Only [>] and [>=] are dealt with: [<] and [<=] swap the sequences. *)
Definition swap_op {A} (op : cmp_op) (a b : A) : cmp_op * A * A :=
  match op with
  | MP_BINARY_OP_LESS => (MP_BINARY_OP_MORE, b, a)
  | MP_BINARY_OP_LESS_EQUAL => (MP_BINARY_OP_MORE_EQUAL, b, a)
  | op => (op, a, b)
  end.

(** [memcmp] on the first [n] bytes: negative, 0 or positive. *)
Fixpoint memcmp (n : nat) (a b : list Z) : Z :=
  match n, a, b with
  | S n, x :: a, y :: b => if x =? y then memcmp n a b else x - y
  | _, _, _ => 0
  end.

(** What follows the comparison of the common prefix. *)
Definition tie_break (op : cmp_op) (len1 len2 : nat) : bool :=
  if negb (len1 =? len2)%nat then
    if (len1 <? len2)%nat then false else true
  else if bool_decide (op = MP_BINARY_OP_MORE) then false else true.

Definition mp_seq_cmp_bytes (op : cmp_op) (data1 data2 : list Z) : bool :=
  if bool_decide (op = MP_BINARY_OP_EQUAL) && negb (length data1 =? length data2)%nat then false else
  let '(op, data1, data2) := swap_op op data1 data2 in
  let len1 := length data1 in
  let len2 := length data2 in
  let min_len := if (len1 <? len2)%nat then len1 else len2 in
  let res := memcmp min_len data1 data2 in
  if bool_decide (op = MP_BINARY_OP_EQUAL) then res =? 0
  else if res <? 0 then false
  else if 0 <? res then true
  else tie_break op len1 len2.

Section Objects.
Context {obj : Type} `{!MpObjOps obj}.
(** [mp_binary_op(op, a, b) == mp_const_true] *)
Variable binary_op : cmp_op -> obj -> obj -> bool.

(** The loop over the common prefix: the answer, if an element decides. *)
Fixpoint cmp_prefix (n : nat) (op : cmp_op) (a b : list obj) : option bool :=
  match n, a, b with
  | S n, x :: a, y :: b =>
    if mp_obj_equal x y then cmp_prefix n op a b
    else if bool_decide (op = MP_BINARY_OP_EQUAL) then Some false
    else Some (binary_op op x y)
  | _, _, _ => None
  end.

Definition mp_seq_cmp_objs (op : cmp_op) (items1 items2 : list obj) : bool :=
  if bool_decide (op = MP_BINARY_OP_EQUAL) && negb (length items1 =? length items2)%nat then false else
  let '(op, items1, items2) := swap_op op items1 items2 in
  let len1 := length items1 in
  let len2 := length items2 in
  let len := if (len1 <? len2)%nat then len1 else len2 in
  match cmp_prefix len op items1 items2 with
  | Some b => b
  | None => tie_break op len1 len2
  end.
End Objects.

(** ** Search *)

(** [mp_get_index] on an integer. *)
Definition mp_get_index (len : Z) (i : Z) (is_slice : bool) : outcome Z :=
  let i := if i <? 0 then i + len else i in
  if is_slice then Ret (if i <? 0 then 0 else if len <? i then len else i)
  else if (i <? 0) || (len <=? i) then Raise IndexError else Ret i.

Section Search.
Context {obj : Type} `{!MpObjOps obj}.

Fixpoint index_loop (fuel : nat) (items : list obj) (value : obj) (i stop : Z) : outcome Z :=
  match fuel with
  | O => OutOfFuel
  | S fuel =>
    if i <? stop then
      let! x := rd items i in
      if mp_obj_equal x value then Ret i else index_loop fuel items value (i + 1) stop
    else Raise ValueError
  end.

(** [start] and [stop] are the optional arguments. *)
Definition mp_seq_index_obj (items : list obj) (value : obj) (start stop : option Z) : outcome Z :=
  let len := Z.of_nat (length items) in
  let! s := match start with Some i => mp_get_index len i true | None => Ret 0 end in
  let! e := match stop with Some i => mp_get_index len i true | None => Ret len end in
  index_loop (length items + 1) items value s e.

Fixpoint mp_seq_count_obj (items : list obj) (value : obj) (count : Z) : Z :=
  match items with
  | [] => count
  | x :: items => mp_seq_count_obj items value (if mp_obj_equal x value then count + 1 else count)
  end.
End Search.

(** ** Slices *)

Record mp_bound_slice_t := mk_bound { start : Z; stop : Z; step : Z }.

Definition mp_obj_slice_indices (s e st : option Z) (length : Z) : outcome mp_bound_slice_t :=
  let! step := match st with None => Ret 1 | Some step => if step =? 0 then Raise ValueError else Ret step end in
  if 0 <? step then
    let start := match s with
      | None => 0
      | Some start => let start := if start <? 0 then start + length else start in Z.min length (Z.max start 0)
      end in
    let stop := match e with
      | None => length
      | Some stop => let stop := if stop <? 0 then stop + length else stop in Z.min length (Z.max stop 0)
      end in
    Ret (mk_bound start stop step)
  else
    let start := match s with
      | None => length - 1
      | Some start => let start := if start <? 0 then start + length else start in
                      Z.min (length - 1) (Z.max start (-1))
      end in
    let stop := match e with
      | None => -1
      | Some stop => let stop := if stop <? 0 then stop + length else stop in
                     Z.min (length - 1) (Z.max stop (-1))
      end in
    Ret (mk_bound start stop step).

Definition mp_seq_get_fast_slice_indexes (len : Z) (s e st : option Z) : outcome (mp_bound_slice_t * bool) :=
  let! i := mp_obj_slice_indices s e st len in
  let stop1 := if step i <? 0 then stop i + 1 else stop i in
  let stop2 :=
    if (0 <? step i) && (stop1 <? start i) then start i
    else if (step i <? 0) && (start i <? stop1) then start i + 1
    else stop1 in
  Ret (mk_bound (start i) stop2 (step i), step i =? 1).

(** The two loops of [mp_seq_extract_slice], appending to [res]. *)
Fixpoint extract_loop {A} (fuel : nat) (seq : list A) (start stop step : Z) (res : list A) : outcome (list A) :=
  match fuel with
  | O => OutOfFuel
  | S fuel =>
    if (if step <? 0 then stop <=? start else start <? stop) then
      let! x := rd seq start in
      extract_loop fuel seq (start + step) stop step (res ++ [x])
    else Ret res
  end.

Definition mp_seq_extract_slice {A} (seq : list A) (indexes : mp_bound_slice_t) : outcome (list A) :=
  extract_loop (length seq + 1) seq (start indexes) (stop indexes) (step indexes) [].

(** The items of a slice, one by one, as sequences load it when the step is not 1. *)
Definition slice {A} (seq : list A) (s e st : option Z) : outcome (list A) :=
  let! '(i, fast) := mp_seq_get_fast_slice_indexes (Z.of_nat (length seq)) s e st in
  mp_seq_extract_slice seq i.

(** ** Correctness of the comparisons *)

(** Lexicographic order. *)
Fixpoint lex (a b : list Z) : comparison :=
  match a, b with
  | [], [] => Eq
  | [], _ :: _ => Lt
  | _ :: _, [] => Gt
  | x :: a, y :: b => match x ?= y with Eq => lex a b | c => c end
  end.

Definition holds (op : cmp_op) (c : comparison) : bool :=
  match op, c with
  | MP_BINARY_OP_LESS, Lt | MP_BINARY_OP_MORE, Gt | MP_BINARY_OP_EQUAL, Eq
  | MP_BINARY_OP_LESS_EQUAL, (Lt | Eq) | MP_BINARY_OP_MORE_EQUAL, (Gt | Eq) => true
  | _, _ => false
  end.

Lemma lex_swap a b : lex b a = CompOpp (lex a b).
Proof.
  revert b. induction a as [|x a IH]; intros [|y b]; try done. simpl. rewrite (Z.compare_antisym x y), IH.
  by destruct (x ?= y).
Qed.

Lemma min_len_S (a b : list Z) (x y : Z) :
  (if (length (x :: a) <? length (y :: b))%nat then length (x :: a) else length (y :: b)) =
  S (if (length a <? length b)%nat then length a else length b).
Proof. cbn [length]. repeat bcase; lia. Qed.

(** [memcmp] on the common length, then the lengths. *)
Lemma memcmp_lex a b :
  let n := if (length a <? length b)%nat then length a else length b in
  match lex a b with
  | Lt => memcmp n a b < 0 \/ memcmp n a b = 0 /\ (length a < length b)%nat
  | Gt => 0 < memcmp n a b \/ memcmp n a b = 0 /\ (length b < length a)%nat
  | Eq => memcmp n a b = 0 /\ length a = length b
  end.
Proof.
  revert b. induction a as [|x a IH]; intros [|y b]; cbn zeta.
  - done.
  - right. split; [done|]. simpl. lia.
  - right. split; [done|]. simpl. lia.
  - rewrite min_len_S. cbn [memcmp lex]. specialize (IH b). cbn zeta in IH.
    destruct (Z.compare_spec x y) as [->|Hlt|Hgt].
    + rewrite Z.eqb_refl. cbn [length]. destruct (lex a b); [destruct IH|destruct IH|destruct IH]; auto; try lia.
    + rewrite (proj2 (Z.eqb_neq x y)) by lia. lia.
    + rewrite (proj2 (Z.eqb_neq x y)) by lia. lia.
Qed.

Lemma memcmp_eq a b : (length b <= length a)%nat -> (memcmp (length b) a b =? 0) = bool_decide (take (length b) a = b).
Proof.
  revert a. induction b as [|y b IH]; intros [|x a] Hl; cbn [memcmp length take] in *; try done; [cbn in Hl; lia|].
  destruct (Z.eqb_spec x y) as [->|Hn].
  - rewrite IH by lia. apply bool_decide_ext. split; [by intros ->|congruence].
  - rewrite (proj2 (Z.eqb_neq (x - y) 0)) by lia. symmetry. apply bool_decide_eq_false. congruence.
Qed.

(** [mp_seq_cmp_bytes] is the lexicographic order of the byte strings, for each of the five
    operators. *)
Theorem mp_seq_cmp_bytes_lex op a b : mp_seq_cmp_bytes op a b = holds op (lex a b).
Proof.
  assert (Hmore : forall op a b, op = MP_BINARY_OP_MORE \/ op = MP_BINARY_OP_MORE_EQUAL ->
    (let min_len := if (length a <? length b)%nat then length a else length b in
     let res := memcmp min_len a b in
     if res <? 0 then false else if 0 <? res then true else tie_break op (length a) (length b)) = holds op (lex a b)).
  { clear. intros op a b Hop. cbn zeta. pose proof (memcmp_lex a b) as H. cbn zeta in H. unfold tie_break.
    set (r := memcmp _ a b) in *. destruct (lex a b).
    - destruct H as [-> ->]. rewrite Nat.eqb_refl. by destruct Hop as [-> | ->].
    - destruct (Z.ltb_spec r 0); [by destruct Hop as [-> | ->]|]. rewrite (proj2 (Z.ltb_ge 0 r)) by lia.
      rewrite (proj2 (Nat.eqb_neq _ _)), (proj2 (Nat.ltb_lt _ _)) by lia. by destruct Hop as [-> | ->].
    - rewrite (proj2 (Z.ltb_ge r 0)) by lia. destruct (Z.ltb_spec 0 r); [by destruct Hop as [-> | ->]|].
      rewrite (proj2 (Nat.eqb_neq _ _)), (proj2 (Nat.ltb_ge _ _)) by lia. by destruct Hop as [-> | ->]. }
  unfold mp_seq_cmp_bytes. destruct op; cbn [swap_op]; rewrite ?bool_decide_eq_false_2 by done; cbn [andb].
  - etransitivity; [apply (Hmore MP_BINARY_OP_MORE b a); by left|]. rewrite lex_swap. by destruct (lex a b).
  - by apply Hmore; left.
  - rewrite bool_decide_eq_true_2 by done. cbn [andb]. pose proof (memcmp_lex a b) as H. cbn zeta in H.
    destruct (Nat.eqb_spec (length a) (length b)) as [E|E]; cbn [negb].
    + set (r := memcmp _ a b) in *. destruct (lex a b); cbn [holds].
      * destruct H as [-> _]. done.
      * apply Z.eqb_neq. lia.
      * apply Z.eqb_neq. lia.
    + destruct (lex a b); [|done..]. by destruct H.
  - etransitivity; [apply (Hmore MP_BINARY_OP_MORE_EQUAL b a); by right|]. rewrite lex_swap. by destruct (lex a b).
  - by apply Hmore; right.
Qed.

(** ** Correctness of slices *)

(** Python's slice: the elements at [start], [start + step], ... before [stop]. *)
Definition py_start (s : option Z) (step len : Z) : Z :=
  match s with
  | None => if 0 <? step then 0 else len - 1
  | Some i =>
    let i := if i <? 0 then i + len else i in
    if 0 <? step then Z.min len (Z.max i 0) else Z.min (len - 1) (Z.max i (-1))
  end.
Definition py_stop (e : option Z) (step len : Z) : Z :=
  match e with
  | None => if 0 <? step then len else -1
  | Some i =>
    let i := if i <? 0 then i + len else i in
    if 0 <? step then Z.min len (Z.max i 0) else Z.min (len - 1) (Z.max i (-1))
  end.
Definition py_count (start stop step : Z) : Z :=
  if 0 <? step then Z.max 0 ((stop - start + step - 1) / step)
  else Z.max 0 ((start - stop - step - 1) / (- step)).

(** [a], [a + st], ..., [n] of them. *)
Fixpoint range (a st : Z) (n : nat) : list Z :=
  match n with O => [] | S n => a :: range (a + st) st n end.

Definition py_slice {A} (seq : list A) (s e : option Z) (step : Z) : list A :=
  let len := Z.of_nat (length seq) in
  let a := py_start s step len in
  omap (fun i => seq !! Z.to_nat i) (range a step (Z.to_nat (py_count a (py_stop e step len) step))).

(** The loop, from an index inside the sequence, over a range of [n] indices. *)
Lemma extract_loop_ok {A} (seq : list A) (a b st : Z) (n fuel : nat) res : (n < fuel)%nat ->
  (forall k : Z, 0 <= k < Z.of_nat n -> 0 <= a + k * st < Z.of_nat (length seq)) ->
  (forall k : Z, 0 <= k <= Z.of_nat n ->
     (if st <? 0 then b <=? a + k * st else a + k * st <? b) = (k <? Z.of_nat n)) ->
  extract_loop fuel seq a b st res = Ret (res ++ omap (fun i => seq !! Z.to_nat i) (range a st n)).
Proof.
  revert fuel a res. induction n as [|n IH]; intros fuel a res Hf Hin Hc; destruct fuel as [|fuel]; try lia; cbn [extract_loop].
  - pose proof (Hc 0 ltac:(lia)) as H0. rewrite Z.mul_0_l, Z.add_0_r in H0. rewrite H0. by rewrite app_nil_r.
  - pose proof (Hc 0 ltac:(lia)) as H0. rewrite Z.mul_0_l, Z.add_0_r in H0. rewrite H0.
    rewrite (proj2 (Z.ltb_lt 0 (Z.of_nat (S n)))) by lia.
    pose proof (Hin 0 ltac:(lia)) as Ha. rewrite Z.mul_0_l, Z.add_0_r in Ha.
    destruct (rd_in_bounds seq a Ha) as (x & -> & Hx). cbn [obind].
    rewrite IH; [|lia| |].
    + rewrite <- app_assoc. cbn [range omap list_omap]. by rewrite Hx.
    + intros k Hk. specialize (Hin (k + 1) ltac:(lia)). lia.
    + intros k Hk. specialize (Hc (k + 1) ltac:(lia)).
      replace (a + st + k * st) with (a + (k + 1) * st) by lia. rewrite Hc.
      destruct (Z.ltb_spec k (Z.of_nat n)), (Z.ltb_spec (k + 1) (Z.of_nat (S n))); lia || done.
Qed.

(** How many indices a positive step visits before [b]. *)
Lemma count_up a b st : 0 < st ->
  let n := Z.max 0 ((b - a + st - 1) / st) in
  forall k, 0 <= k <= n -> (a + k * st <? b) = (k <? n).
Proof.
  intros Hst n k Hk.
  pose proof (Z.div_mod (b - a + st - 1) st ltac:(lia)). pose proof (Z.mod_pos_bound (b - a + st - 1) st Hst).
  set (q := (b - a + st - 1) / st) in *.
  destruct (Z.ltb_spec k n), (Z.ltb_spec (a + k * st) b); try done; exfalso; nia.
Qed.

Lemma count_down a b st : 0 < st ->
  let n := Z.max 0 ((a - b + st - 1) / st) in
  forall k, 0 <= k <= n -> (b <? a - k * st) = (k <? n).
Proof.
  intros Hst n k Hk.
  pose proof (Z.div_mod (a - b + st - 1) st ltac:(lia)). pose proof (Z.mod_pos_bound (a - b + st - 1) st Hst).
  set (q := (a - b + st - 1) / st) in *.
  destruct (Z.ltb_spec k n), (Z.ltb_spec b (a - k * st)); try done; exfalso; nia.
Qed.

(** The bounds of an up-going and of a down-going slice. *)
Lemma py_bounds_up s e st len : 0 <= len -> 0 < st ->
  0 <= py_start s st len <= len /\ 0 <= py_stop e st len <= len.
Proof.
  intros Hl Hst. unfold py_start, py_stop. rewrite (proj2 (Z.ltb_lt 0 st)) by lia. destruct s, e; lia.
Qed.

Lemma py_bounds_down s e st len : 0 <= len -> st < 0 ->
  -1 <= py_start s st len <= len - 1 /\ -1 <= py_stop e st len <= len - 1.
Proof.
  intros Hl Hst. unfold py_start, py_stop. rewrite (proj2 (Z.ltb_ge 0 st)) by lia. destruct s, e; lia.
Qed.

Lemma slice_indices_py s e st len : st <> 0 ->
  mp_obj_slice_indices s e (Some st) len = Ret (mk_bound (py_start s st len) (py_stop e st len) st).
Proof.
  intros Hst. unfold mp_obj_slice_indices, py_start, py_stop. rewrite (proj2 (Z.eqb_neq st 0) Hst). cbn [obind].
  destruct (Z.ltb_spec 0 st); by destruct s, e.
Qed.

(** Slicing a list terminates without reading outside it and gives exactly the elements of
    Python's slice, for any [start] and [stop], present or not, and any step but 0, which is a
    [ValueError]. *)
Lemma slice_ok {A} (seq : list A) s e st :
  slice seq s e st =
  match st with
  | Some 0 => Raise ValueError
  | Some step => Ret (py_slice seq s e step)
  | None => Ret (py_slice seq s e 1)
  end.
Proof.
  assert (Hmain : forall step, step <> 0 -> slice seq s e (Some step) = Ret (py_slice seq s e step)).
  { intros step Hst. unfold slice, mp_seq_get_fast_slice_indexes. rewrite slice_indices_py by done. cbn [obind].
    unfold mp_seq_extract_slice, py_slice. cbn [Sequence.start Sequence.stop Sequence.step].
    set (len := Z.of_nat (length seq)).
    set (a := py_start s step len). set (b := py_stop e step len). unfold py_count.
    destruct (Z.ltb_spec step 0) as [Hneg|Hpos].
    - rewrite (proj2 (Z.ltb_ge 0 step)) by lia. cbn [andb].
      destruct (py_bounds_down s e step len ltac:(lia) Hneg) as [Ha Hb]. fold a b in Ha, Hb.
      pose proof (count_down a b (- step) ltac:(lia)) as Hcnt. cbn zeta in Hcnt.
      replace (a - b + - step - 1) with (a - b - step - 1) in Hcnt by lia.
      set (n := Z.max 0 ((a - b - step - 1) / - step)) in *.
      assert (Hn : n <= Z.of_nat (length seq)).
      { pose proof (Z.div_mod (a - b - step - 1) (- step) ltac:(lia)).
        pose proof (Z.mod_pos_bound (a - b - step - 1) (- step) ltac:(lia)).
        unfold n. set (q := (a - b - step - 1) / - step) in *. fold len. nia. }
      rewrite (extract_loop_ok seq a _ step (Z.to_nat n)).
      + done.
      + lia.
      + intros k Hk. pose proof (Hcnt k ltac:(lia)) as Hc. rewrite (proj2 (Z.ltb_lt k n)) in Hc by lia.
        apply Z.ltb_lt in Hc. nia.
      + intros k Hk. rewrite (proj2 (Z.ltb_lt step 0)) by lia. rewrite Z2Nat.id by lia.
        rewrite <- (Hcnt k) by lia. replace (a - k * - step) with (a + k * step) by lia.
        destruct (Z.ltb_spec a (b + 1)) as [Hlt|Hge].
        * destruct (Z.leb_spec (a + 1) (a + k * step)), (Z.ltb_spec b (a + k * step)); try done; exfalso; nia.
        * destruct (Z.leb_spec (b + 1) (a + k * step)), (Z.ltb_spec b (a + k * step)); done || lia.
    - rewrite (proj2 (Z.ltb_lt 0 step)) by lia. cbn [andb].
      destruct (py_bounds_up s e step len ltac:(lia) ltac:(lia)) as [Ha Hb]. fold a b in Ha, Hb.
      pose proof (count_up a b step ltac:(lia)) as Hcnt. cbn zeta in Hcnt.
      set (n := Z.max 0 ((b - a + step - 1) / step)) in *.
      assert (Hn : n <= Z.of_nat (length seq)).
      { pose proof (Z.div_mod (b - a + step - 1) step ltac:(lia)).
        pose proof (Z.mod_pos_bound (b - a + step - 1) step ltac:(lia)).
        unfold n. set (q := (b - a + step - 1) / step) in *. fold len. nia. }
      rewrite (extract_loop_ok seq a _ step (Z.to_nat n)).
      + done.
      + lia.
      + intros k Hk. pose proof (Hcnt k ltac:(lia)) as Hc. rewrite (proj2 (Z.ltb_lt k n)) in Hc by lia.
        apply Z.ltb_lt in Hc. nia.
      + intros k Hk. rewrite (proj2 (Z.ltb_ge step 0)) by lia. rewrite Z2Nat.id by lia.
        rewrite <- (Hcnt k) by lia.
        destruct (Z.ltb_spec b a) as [Hlt|Hge]; [|done].
        destruct (Z.ltb_spec (a + k * step) a), (Z.ltb_spec (a + k * step) b); try done; exfalso; nia. }
  destruct st as [step|]; [|by apply (Hmain 1)].
  destruct (Z.eq_dec step 0) as [->|Hst]; [done|]. rewrite Hmain by done. by destruct step.
Qed.

(** ** Search *)

Section Search.
Context {obj : Type} `{!MpObjOps obj}.

Lemma index_loop_ok fuel items (v : obj) i stop : 0 <= i -> stop <= Z.of_nat (length items) ->
  (Z.to_nat (stop - i) < fuel)%nat ->
  (exists p, index_loop fuel items v i stop = Ret p /\ i <= p < stop /\
     (exists x, items !! Z.to_nat p = Some x /\ mp_obj_equal x v = true) /\
     forall q x, i <= q < p -> items !! Z.to_nat q = Some x -> mp_obj_equal x v = false) \/
  (index_loop fuel items v i stop = Raise ValueError /\
     forall q x, i <= q < stop -> items !! Z.to_nat q = Some x -> mp_obj_equal x v = false).
Proof.
  revert i. induction fuel as [|fuel IH]; intros i Hi Hs Hf; [lia|]. cbn [index_loop].
  destruct (Z.ltb_spec i stop).
  - destruct (rd_in_bounds items i) as (x & -> & Hx); [lia|]. cbn [obind].
    destruct (mp_obj_equal x v) eqn:E.
    + left. exists i. split; [done|]. split; [lia|]. split; [by exists x|]. intros; lia.
    + destruct (IH (i + 1)) as [(p & E1 & Hp & Hx' & Hno)|(E1 & Hno)]; try lia.
      * left. exists p. split; [done|]. split; [lia|]. split; [done|]. intros q y Hq Hy.
        destruct (Z.eq_dec q i) as [->|]; [congruence|]. eapply (Hno q); [lia|done].
      * right. split; [done|]. intros q y Hq Hy.
        destruct (Z.eq_dec q i) as [->|]; [congruence|]. eapply (Hno q); [lia|done].
  - right. split; [done|]. intros q x Hq. lia.
Qed.

(** [index] returns the first position, within the clipped range of its optional arguments,
    of an element equal to the value, and raises [ValueError] when there is none; it never
    reads outside the sequence. *)
Theorem mp_seq_index_obj_spec (items : list obj) (v : obj) start stop :
  let len := Z.of_nat (length items) in
  let clip i d := match i with None => d | Some i =>
    let i := if i <? 0 then i + len else i in Z.max 0 (Z.min len i) end in
  let s := clip start 0 in
  let e := clip stop len in
  (exists p, mp_seq_index_obj items v start stop = Ret p /\ s <= p < e /\
     (exists x, items !! Z.to_nat p = Some x /\ mp_obj_equal x v = true) /\
     forall q x, s <= q < p -> items !! Z.to_nat q = Some x -> mp_obj_equal x v = false) \/
  (mp_seq_index_obj items v start stop = Raise ValueError /\
     forall q x, s <= q < e -> items !! Z.to_nat q = Some x -> mp_obj_equal x v = false).
Proof.
  cbn zeta. unfold mp_seq_index_obj. set (len := Z.of_nat (length items)).
  set (clip := fun (i : option Z) d => match i with None => d | Some i =>
    Z.max 0 (Z.min len (if i <? 0 then i + len else i)) end).
  assert (Hget : forall i, mp_get_index len i true = Ret (clip (Some i) 0)).
  { intros i. unfold mp_get_index, clip. set (j := if i <? 0 then i + len else i). f_equal.
    destruct (Z.ltb_spec j 0), (Z.ltb_spec len j); lia. }
  assert (Hs : (match start with Some i => mp_get_index len i true | None => Ret 0 end) = Ret (clip start 0))
    by (destruct start; [apply Hget|done]).
  assert (He : (match stop with Some i => mp_get_index len i true | None => Ret len end) = Ret (clip stop len))
    by (destruct stop; [apply Hget|done]).
  rewrite Hs, He. cbn [obind].
  apply (index_loop_ok (length items + 1) items v (clip start 0) (clip stop len)); unfold clip; destruct start, stop; lia.
Qed.

Lemma mp_seq_count_obj_ok (items : list obj) (v : obj) n :
  mp_seq_count_obj items v n = n + Z.of_nat (length (filter (fun x => mp_obj_equal x v = true) items)).
Proof.
  revert n. induction items as [|x items IH]; intros n; cbn [mp_seq_count_obj]; [cbn; lia|].
  rewrite IH, filter_cons. destruct (mp_obj_equal x v); [rewrite decide_True by done; cbn [length]; lia|].
  by rewrite decide_False by done.
Qed.

(** ** Comparison of object sequences *)

Variable binary_op : cmp_op -> obj -> obj -> bool.

(** The reference: the first pair of different elements decides, then the lengths. *)
Fixpoint seq_more (strict : bool) (a b : list obj) : bool :=
  match a, b with
  | [], [] => negb strict
  | [], _ :: _ => false
  | _ :: _, [] => true
  | x :: a, y :: b =>
    if mp_obj_equal x y then seq_more strict a b
    else binary_op (if strict then MP_BINARY_OP_MORE else MP_BINARY_OP_MORE_EQUAL) x y
  end.

Fixpoint seq_equal (a b : list obj) : bool :=
  match a, b with
  | [], [] => true
  | x :: a, y :: b => mp_obj_equal x y && seq_equal a b
  | _, _ => false
  end.

(** Comparing two lists or tuples: the first pair of elements that are not equal decides (with
    the operator, or its mirror image on swapped operands), and a proper prefix is smaller. *)
Theorem mp_seq_cmp_objs_spec op a b :
  mp_seq_cmp_objs binary_op op a b =
  match op with
  | MP_BINARY_OP_EQUAL => seq_equal a b
  | MP_BINARY_OP_MORE => seq_more true a b
  | MP_BINARY_OP_MORE_EQUAL => seq_more false a b
  | MP_BINARY_OP_LESS => seq_more true b a
  | MP_BINARY_OP_LESS_EQUAL => seq_more false b a
  end.
Proof.
  assert (Hmin : forall (x y : obj) a b, (if (length (x :: a) <? length (y :: b))%nat then length (x :: a) else length (y :: b)) =
    S (if (length a <? length b)%nat then length a else length b)).
  { clear. intros x y a b. cbn [length]. repeat bcase; lia. }
  assert (Hmore : forall strict a b,
    (match cmp_prefix binary_op (if (length a <? length b)%nat then length a else length b)
         (if strict : bool then MP_BINARY_OP_MORE else MP_BINARY_OP_MORE_EQUAL) a b with
     | Some b => b
     | None => tie_break (if strict then MP_BINARY_OP_MORE else MP_BINARY_OP_MORE_EQUAL) (length a) (length b)
     end) = seq_more strict a b).
  { clear -Hmin. intros strict. induction a as [|x a IH]; intros [|y b].
    - by destruct strict.
    - by destruct strict.
    - by destruct strict.
    - rewrite Hmin. cbn [cmp_prefix seq_more]. destruct (mp_obj_equal x y).
      + rewrite <- IH. done.
      + rewrite bool_decide_eq_false_2 by (by destruct strict). done. }
  unfold mp_seq_cmp_objs. destruct op; cbn [swap_op]; rewrite ?bool_decide_eq_false_2 by done; cbn [andb].
  - apply (Hmore true).
  - apply (Hmore true).
  - rewrite bool_decide_eq_true_2 by done. cbn [andb].
    destruct (Nat.eqb_spec (length a) (length b)) as [E|E]; cbn [negb].
    + rewrite E, Nat.ltb_irrefl. unfold tie_break. rewrite Nat.eqb_refl. cbn [negb].
      rewrite bool_decide_eq_false_2 by done.
      revert b E. clear. induction a as [|x a IH]; intros [|y b] [=]; [done|]. cbn [length cmp_prefix seq_equal].
      destruct (mp_obj_equal x y); cbn [andb]; [by apply IH|]. by rewrite bool_decide_eq_true_2.
    + symmetry. revert b E. clear. induction a as [|x a IH]; intros [|y b] E; try done. cbn [seq_equal].
      rewrite IH by (simpl in E; congruence). apply andb_false_r.
  - apply (Hmore false).
  - apply (Hmore false).
Qed.
End Search.
