(* ===== verification/Qstr.v ===== *)
(** * Interned strings ([py/qstr.c])

    A string is interned in an array of a pool; the pools are linked from the newest to the one in
    the ROM, and every string has the index that counts through all of them.  The characters of new
    strings are put one after the other in chunks of memory; a pointer is the number of a chunk and
    an offset, so a chunk that is overrun or moved would show.  The functions change global state
    and may raise, so they are given in a state monad: the state after an exception matters. *)

From S2P Require Import Prelude Malloc Sequence.
Local Open Scope Z_scope.

(** A chunk of memory and an offset in it. *)
Definition char_ptr : Type := nat * Z.

Record qstr_pool_t := mk_pool { total_prev_len : Z; alloc : Z; len : Z; hashes : list Z; lengths : list Z; qstrs : list char_ptr }.

(** [last_pool] lists the pools along their [prev] pointers. *)
Record qstr_state := mk_state {
  last_pool : list qstr_pool_t;
  chunks : list (list Z);
  qstr_last_chunk : option nat;
  qstr_last_alloc : Z;
  qstr_last_used : Z
}.

Definition set_pools (s : qstr_state) p : qstr_state := mk_state p (chunks s) (qstr_last_chunk s) (qstr_last_alloc s) (qstr_last_used s).
Definition set_chunks (s : qstr_state) c : qstr_state := mk_state (last_pool s) c (qstr_last_chunk s) (qstr_last_alloc s) (qstr_last_used s).
Definition set_last (s : qstr_state) c al used : qstr_state := mk_state (last_pool s) (chunks s) c al used.

(** ** Computations that change the state and may raise *)

Definition M (A : Type) : Type := qstr_state -> qstr_state * outcome A.
Definition mret {A} (a : A) : M A := fun s => (s, Ret a).
Definition mlift {A} (m : outcome A) : M A := fun s => (s, m).
Definition mget : M qstr_state := fun s => (s, Ret s).
Definition mput (s : qstr_state) : M unit := fun _ => (s, Ret tt).
Definition mbind {A B} (m : M A) (f : A -> M B) : M B := fun s =>
  match m s with
  | (s, Ret a) => f a s
  | (s, Raise e) => (s, Raise e)
  | (s, Undef) => (s, Undef)
  | (s, OutOfFuel) => (s, OutOfFuel)
  end.
Declare Scope qstr_scope.
Notation "'do!' x := m 'in' k" := (mbind m (fun x => k)) (at level 10, x name, m at level 100, k at level 200) : qstr_scope.
Local Open Scope qstr_scope.

(** ** Hashes *)

Definition MICROPY_QSTR_BYTES_IN_HASH : Z := 1.
Definition MICROPY_QSTR_BYTES_IN_LEN : Z := 1.
Definition MICROPY_ALLOC_QSTR_CHUNK_INIT : Z := 128.
Definition MICROPY_ALLOC_QSTR_ENTRIES_INIT : Z := 10.
Definition Q_HASH_MASK : Z := Z.shiftl 1 (8 * MICROPY_QSTR_BYTES_IN_HASH) - 1.

Fixpoint hash_loop (data : list Z) (hash : Z) : Z :=
  match data with [] => hash | c :: data => hash_loop data (wrap 32 (Z.lxor (wrap 32 (Z.shiftl hash 5 + hash)) c)) end.

Definition qstr_compute_hash (data : list Z) : Z :=
  let hash := Z.land (hash_loop data 5381) Q_HASH_MASK in
  if hash =? 0 then hash + 1 else hash.

(** ** Pools *)

(** [genhdr/qstrdefs.generated.h] is made by the build: its hashes, lengths and strings. *)
Definition qstr_init (const_hashes const_lengths : list Z) (const_strs : list (list Z)) : qstr_state :=
  let n := length const_strs in
  mk_state [mk_pool 0 MICROPY_ALLOC_QSTR_ENTRIES_INIT (Z.of_nat n) const_hashes const_lengths (map (fun i => (i, 0)) (seq 0 n))]
    (map (fun s => s ++ [0]) const_strs) None 0 0.

(** The pool of a string, and its index there. *)
Fixpoint find_qstr (pools : list qstr_pool_t) (q : Z) : outcome (qstr_pool_t * Z) :=
  match pools with
  | [] => Undef
  | pool :: prev =>
    if q <? total_prev_len pool then find_qstr prev q
    else let q := wrap 32 (q - total_prev_len pool) in if q <? len pool then Ret (pool, q) else Undef
  end.

(** [n] characters from a pointer on. *)
Definition mem_at (s : qstr_state) (p : char_ptr) (n : Z) : outcome (list Z) :=
  match chunks s !! p.1 with
  | Some b => if (0 <=? p.2) && (p.2 + n <=? Z.of_nat (length b)) then Ret (take (Z.to_nat n) (drop (Z.to_nat p.2) b)) else Undef
  | None => Undef
  end.

Fixpoint find_in_pool (n : nat) (s : qstr_state) (pool : qstr_pool_t) (at_ : Z) (str_hash : Z) (str : list Z) : outcome (option Z) :=
  match n with
  | O => Ret None
  | S n =>
    let! h := rd (hashes pool) at_ in
    let! found :=
      if h =? str_hash then
        let! l := rd (lengths pool) at_ in
        if l =? Z.of_nat (length str) then
          let! p := rd (qstrs pool) at_ in
          let! d := mem_at s p (Z.of_nat (length str)) in Ret (memcmp (length str) d str =? 0)
        else Ret false
      else Ret false in
    if found then Ret (Some (total_prev_len pool + at_)) else find_in_pool n s pool (at_ + 1) str_hash str
  end.

Fixpoint find_in_pools (s : qstr_state) (pools : list qstr_pool_t) (str_hash : Z) (str : list Z) : outcome (option Z) :=
  match pools with
  | [] => Ret None
  | pool :: prev =>
    let! r := find_in_pool (Z.to_nat (len pool)) s pool 0 str_hash str in
    match r with Some q => Ret (Some q) | None => find_in_pools s prev str_hash str end
  end.

(** 0 is [MP_QSTRnull]. *)
Definition qstr_find_strn (s : qstr_state) (str : list Z) : outcome Z :=
  let! r := find_in_pools s (last_pool s) (qstr_compute_hash str) str in
  Ret (match r with Some q => q | None => 0 end).

Section Interning.
Context {allocator : Allocator Z}.
(** Whether the heap can grow a chunk to a number of bytes where it is. *)
Variable can_grow : nat -> Z -> bool.

Definition sizeof_qstr_pool_t : Z := 24.

(** Makes room in the newest pool, or starts a pool of twice the size. *)
Definition pool_room : M unit :=
  do! s := mget in
  match last_pool s with
  | [] => mlift Undef
  | pool :: prev =>
    if alloc pool <=? len pool then
      let new_alloc := wrap 32 (alloc pool * 2) in
      let pool_size := wrap 32 (sizeof_qstr_pool_t + (4 + 1 + 1) * new_alloc) in
      if m_renew_ok pool_size then
        let n := Z.to_nat new_alloc in
        mput (set_pools s (mk_pool (wrap 32 (total_prev_len pool + len pool)) new_alloc 0
          (replicate n fresh) (replicate n fresh) (replicate n (O, fresh)) :: last_pool s))
      else do! _ := mput (set_last s None (qstr_last_alloc s) (qstr_last_used s)) in mlift (Raise MemoryError)
    else mret tt
  end.

Definition qstr_add (hash len_ : Z) (q_ptr : char_ptr) : M Z :=
  do! _ := pool_room in
  do! s := mget in
  match last_pool s with
  | [] => mlift Undef
  | pool :: prev =>
    let at_ := len pool in
    do! h := mlift (wr (hashes pool) at_ (wrap 8 hash)) in
    do! l := mlift (wr (lengths pool) at_ (wrap 8 len_)) in
    do! q := mlift (wr (qstrs pool) at_ q_ptr) in
    do! _ := mput (set_pools s (mk_pool (total_prev_len pool) (alloc pool) (wrap 32 (len pool + 1)) h l q :: prev)) in
    mret (wrap 32 (total_prev_len pool + at_))
  end.

Definition upd_chunk (s : qstr_state) (c : nat) (f : list Z -> list Z) : qstr_state := set_chunks s (alter f c (chunks s)).

(** Grows the last chunk where it is if there is not enough room, or gives it up. *)
Definition chunk_room (n_bytes : Z) : M unit :=
  do! s := mget in
  match qstr_last_chunk s with
  | Some c =>
    if qstr_last_alloc s <? wrap 32 (qstr_last_used s + n_bytes) then
      let size := wrap 32 (qstr_last_alloc s + n_bytes) in
      if can_grow c size then
        mput (set_last (upd_chunk s c (fun b => b ++ replicate (Z.to_nat size - length b) fresh)) (Some c) size (qstr_last_used s))
      else mput (set_last (upd_chunk s c (take (Z.to_nat (qstr_last_used s)))) None (qstr_last_alloc s) (qstr_last_used s))
    else mret tt
  | None => mret tt
  end.

(** A new chunk if there is none. *)
Definition new_chunk (n_bytes : Z) : M nat :=
  do! s := mget in
  match qstr_last_chunk s with
  | Some c => mret c
  | None =>
    let c := length (chunks s) in
    let start al := mput (set_last (set_chunks s (chunks s ++ [replicate (Z.to_nat al) fresh])) (Some c) al 0) in
    let al := if n_bytes <? MICROPY_ALLOC_QSTR_CHUNK_INIT then MICROPY_ALLOC_QSTR_CHUNK_INIT else n_bytes in
    if m_renew_ok al then do! _ := start al in mret c
    else if m_renew_ok n_bytes then do! _ := start n_bytes in mret c
    else mlift (Raise MemoryError)
  end.

(** [memcpy(q_ptr, str, len); q_ptr[len] = 0] *)
Definition store_string (q_ptr : char_ptr) (str : list Z) : M unit :=
  do! s := mget in
  match chunks s !! q_ptr.1 with
  | Some b =>
    do! b := mlift (memcpy_in b q_ptr.2 (str ++ [0])) in mput (set_chunks s (<[q_ptr.1 := b]> (chunks s)))
  | None => mlift Undef
  end.

Definition qstr_from_strn (str : list Z) : M Z :=
  do! s := mget in
  do! q := mlift (qstr_find_strn s str) in
  if negb (q =? 0) then mret q else
  let len := Z.of_nat (length str) in
  if Z.shiftl 1 (8 * MICROPY_QSTR_BYTES_IN_LEN) <=? len then mlift (Raise RuntimeError) else
  let n_bytes := len + 1 in
  do! _ := chunk_room n_bytes in
  do! c := new_chunk n_bytes in
  do! s := mget in
  let q_ptr := (c, qstr_last_used s) in
  do! _ := mput (set_last s (qstr_last_chunk s) (qstr_last_alloc s) (wrap 32 (qstr_last_used s + n_bytes))) in
  do! _ := store_string q_ptr str in
  qstr_add (qstr_compute_hash str) len q_ptr.
End Interning.

(** ** Access *)

Definition qstr_hash (s : qstr_state) (q : Z) : outcome Z :=
  let! '(pool, q) := find_qstr (last_pool s) q in rd (hashes pool) q.

Definition qstr_len (s : qstr_state) (q : Z) : outcome Z :=
  let! '(pool, q) := find_qstr (last_pool s) q in rd (lengths pool) q.

Definition qstr_str (s : qstr_state) (q : Z) : outcome char_ptr :=
  let! '(pool, q) := find_qstr (last_pool s) q in rd (qstrs pool) q.

(** The characters that the pointer and the length delimit. *)
Definition qstr_data (s : qstr_state) (q : Z) : outcome (list Z) :=
  let! '(pool, q) := find_qstr (last_pool s) q in
  let! l := rd (lengths pool) q in
  let! p := rd (qstrs pool) q in mem_at s p l.

(** [n_pool], [n_qstr] and [n_str_data_bytes] of [qstr_pool_info]: the pools but the one in the ROM. *)
Fixpoint qstr_pool_info (pools : list qstr_pool_t) : Z * Z * Z :=
  match pools with
  | [] | [_] => (0, 0, 0)
  | pool :: prev =>
    let '(n_pool, n_qstr, n_bytes) := qstr_pool_info prev in
    (n_pool + 1, n_qstr + len pool, n_bytes + foldr (fun l n => l + 1 + n) 0 (take (Z.to_nat (len pool)) (lengths pool)))
  end.
