(* ===== verification/QstrSpec.v ===== *)
(** * Interned strings: what interning promises

    [wf s es]: the state holds the entries [es], in the order of their indices.  The pools partition
    the entries; every string is in its chunk, with its terminator, below the part of the last chunk
    that is in use; and the last chunk is reachable from a pool, which is what keeps it from being
    collected.  Interning keeps this invariant, also when it runs out of memory. *)

From S2P Require Import Prelude Malloc Sequence Qstr.
Local Open Scope Z_scope.
Local Open Scope qstr_scope.

Record entry := mk_entry { e_hash : Z; e_chars : list Z; e_chunk : nat; e_off : nat }.

Definition e_end (e : entry) : nat := e_off e + S (length (e_chars e)).
Definition e_ptr (e : entry) : char_ptr := (e_chunk e, Z.of_nat (e_off e)).

(** ** The invariant *)

Definition arrays_ok (p : qstr_pool_t) (es : list entry) : Prop :=
  take (length es) (hashes p) = map e_hash es /\
  take (length es) (lengths p) = map (fun e => Z.of_nat (length (e_chars e))) es /\
  take (length es) (qstrs p) = map e_ptr es.

(** [N] is the number of strings in the ROM; a pool has twice the room of the one before it, so its
    first index is at most [N] plus its own size. *)
Inductive pools_ok (N : Z) : list qstr_pool_t -> list entry -> Prop :=
| pools_rom p es :
  total_prev_len p = 0 -> alloc p = MICROPY_ALLOC_QSTR_ENTRIES_INIT -> len p = N -> Z.of_nat (length es) = N ->
  MICROPY_ALLOC_QSTR_ENTRIES_INIT <= N < 2 ^ 28 -> arrays_ok p es ->
  pools_ok N [p] es
| pools_heap p q prev old new :
  pools_ok N (q :: prev) old ->
  total_prev_len p = Z.of_nat (length old) -> total_prev_len p <= N + alloc p ->
  MICROPY_ALLOC_QSTR_ENTRIES_INIT <= alloc p < 2 ^ 26 -> len p = Z.of_nat (length new) -> len p <= alloc p ->
  length (hashes p) = Z.to_nat (alloc p) -> length (lengths p) = Z.to_nat (alloc p) -> length (qstrs p) = Z.to_nat (alloc p) ->
  arrays_ok p new ->
  pools_ok N (p :: q :: prev) (old ++ new).

Definition in_chunk (b : list Z) (e : entry) : Prop := take (S (length (e_chars e))) (drop (e_off e) b) = e_chars e ++ [0].

Definition in_memory (s : qstr_state) (e : entry) : Prop := exists b, chunks s !! e_chunk e = Some b /\ in_chunk b e.

(** The last chunk and the part of it that is in use. *)
Definition chunk_ok (s : qstr_state) (es : list entry) : Prop :=
  match qstr_last_chunk s with
  | None => True
  | Some c => exists b, chunks s !! c = Some b /\ Z.of_nat (length b) = qstr_last_alloc s /\
      0 <= qstr_last_used s <= qstr_last_alloc s /\ qstr_last_alloc s < 2 ^ 28 /\
      forall e, e ∈ es -> e_chunk e = c -> Z.of_nat (e_end e) <= qstr_last_used s
  end.

(** A pool points to the start of the last chunk. *)
Definition rooted (s : qstr_state) (es : list entry) : Prop :=
  forall c, qstr_last_chunk s = Some c -> exists e, e ∈ es /\ e_chunk e = c /\ e_off e = 0%nat.

Definition hashed (e : entry) : Prop := e_hash e = qstr_compute_hash (e_chars e).

Record wf_but_root (N : Z) (s : qstr_state) (es : list entry) : Prop := {
  wf_pools : pools_ok N (last_pool s) es;
  wf_null : exists e0 es', es = e0 :: es' /\ e_hash e0 = 0 /\ Forall hashed es' /\ NoDup (map e_chars es');
  wf_memory : Forall (in_memory s) es;
  wf_short : Forall (fun e => Z.of_nat (length (e_chars e)) < 256) es;
  wf_chunk : chunk_ok s es
}.

Definition wf (N : Z) (s : qstr_state) (es : list entry) : Prop := wf_but_root N s es /\ rooted s es.

(** The interned strings; the index of the first is 1. *)
Definition names (es : list entry) : list (list Z) := map e_chars (tail es).

(** ** Hashes *)

Lemma hash_pos data : 1 <= qstr_compute_hash data < 256.
Proof.
  unfold qstr_compute_hash. set (h := Z.land _ _). assert (0 <= h < 256) as Hh.
  { unfold h. change Q_HASH_MASK with (2 ^ 8 - 1). rewrite land_mask by lia. apply Z.mod_pos_bound. lia. }
  destruct (Z.eqb_spec h 0); lia.
Qed.

(** ** Looking up *)

Lemma take_map_lookup {A B} (f : A -> B) (l : list B) (es : list A) i e :
  take (length es) l = map f es -> es !! i = Some e -> l !! i = Some (f e).
Proof.
  intros Ht He. pose proof (lookup_lt_Some _ _ _ He) as Hl. rewrite <- (lookup_take_lt l (length es)) by done.
  by rewrite Ht, list_lookup_fmap, He.
Qed.

Lemma rd_entry {A B} (f : A -> B) (l : list B) (es : list A) i e :
  take (length es) l = map f es -> es !! i = Some e -> rd l (Z.of_nat i) = Ret (f e).
Proof. intros Ht He. apply rd_Ret; [lia|]. rewrite Nat2Z.id. by eapply take_map_lookup. Qed.

Lemma mem_at_entry s e : in_memory s e -> mem_at s (e_ptr e) (Z.of_nat (length (e_chars e))) = Ret (e_chars e).
Proof.
  intros (b & Hb & Hi). unfold mem_at, e_ptr. cbn [fst snd]. rewrite Hb. unfold in_chunk in Hi.
  assert (Hl : (e_off e + length (e_chars e) < length b)%nat).
  { apply (f_equal length) in Hi. autorewrite with lens in Hi. cbn [length] in Hi. lia. }
  rewrite (proj2 (Z.leb_le 0 _)), (proj2 (Z.leb_le (Z.of_nat (e_off e) + _) _)) by lia. cbn [andb]. rewrite !Nat2Z.id.
  f_equal. pose proof (take_app_length (e_chars e) [0]) as Et. rewrite <- Hi, take_take in Et.
  rewrite <- Et at 2. f_equal. lia.
Qed.

(** The characters of an entry, as a comparison with the first [n] of them reads them. *)
Lemma find_in_pool_ok s p h str l1 l2 : arrays_ok p (l1 ++ l2) -> Forall (in_memory s) l2 ->
  exists r, find_in_pool (length l2) s p (Z.of_nat (length l1)) h str = Ret r /\
    match r with
    | Some q => exists i e, l2 !! i = Some e /\ e_hash e = h /\ e_chars e = str /\ q = total_prev_len p + Z.of_nat (length l1 + i)
    | None => forall e, e ∈ l2 -> ~ (e_hash e = h /\ e_chars e = str)
    end.
Proof.
  revert l1. induction l2 as [|e l2 IH]; intros l1 Ha Hm; cbn [find_in_pool length].
  { exists None. split; [done|]. by intros e He%elem_of_nil. }
  pose proof Ha as (H1 & H2 & H3). assert (He : (l1 ++ e :: l2) !! length l1 = Some e) by (by rewrite lookup_app_r, Nat.sub_diag by lia).
  rewrite (rd_entry _ _ _ _ _ H1 He). cbn [obind]. rewrite (rd_entry _ _ _ _ _ H2 He), (rd_entry _ _ _ _ _ H3 He). cbn [obind].
  apply list.Forall_cons in Hm as [Hme Hm].
  assert (Hf : (if e_hash e =? h then
        if Z.of_nat (length (e_chars e)) =? Z.of_nat (length str) then
          let! d := mem_at s (e_ptr e) (Z.of_nat (length str)) in Ret (memcmp (length str) d str =? 0)
        else Ret false
      else Ret false) = Ret (bool_decide (e_hash e = h /\ e_chars e = str))).
  { destruct (Z.eqb_spec (e_hash e) h) as [Eh|Eh]; [|f_equal; symmetry; apply bool_decide_eq_false; tauto].
    destruct (Z.eqb_spec (Z.of_nat (length (e_chars e))) (Z.of_nat (length str))) as [El|El].
    - rewrite <- El, mem_at_entry by done. cbn [obind]. f_equal. rewrite memcmp_eq by lia.
      rewrite take_ge by lia. apply bool_decide_ext. tauto.
    - f_equal. symmetry. apply bool_decide_eq_false. intros [_ <-]. done. }
  rewrite Hf. cbn [obind]. case_bool_decide as Hc.
  - eexists. split; [done|]. exists 0%nat, e. rewrite Nat.add_0_r. destruct Hc. by split_and!.
  - replace (Z.of_nat (length l1) + 1) with (Z.of_nat (length (l1 ++ [e]))) by lens.
    rewrite cons_middle, app_assoc in Ha. destruct (IH _ Ha Hm) as (r & -> & Hr). exists r. split; [done|].
    destruct r as [q|].
    + destruct Hr as (i & e' & G1 & G2 & G3 & ->). exists (S i), e'. split_and!; try done. lens.
    + intros e' [->|He']%elem_of_cons; [done|by apply Hr].
Qed.

Lemma find_in_pools_ok N s pools es h str : pools_ok N pools es -> Forall (in_memory s) es ->
  exists r, find_in_pools s pools h str = Ret r /\
    match r with
    | Some q => exists i e, es !! i = Some e /\ e_hash e = h /\ e_chars e = str /\ q = Z.of_nat i
    | None => forall e, e ∈ es -> ~ (e_hash e = h /\ e_chars e = str)
    end.
Proof.
  induction 1 as [p es Ht _ Hl Hn _ Ha|p q prev old new _ IH Ht _ _ Hl _ _ _ _ Ha]; intros Hm; cbn [find_in_pools].
  - rewrite Hl, <- Hn, Nat2Z.id. destruct (find_in_pool_ok s p h str [] es Ha Hm) as (r & E & Hr).
    change (Z.of_nat (length (A := entry) [])) with 0 in E. rewrite E. cbn [obind]. exists r. destruct r as [q|]; [|done]. split; [done|].
    destruct Hr as (i & e & H1 & H2 & H3 & ->). exists i, e. split_and!; try done. rewrite Ht. cbn [length]. lia.
  - apply list.Forall_app in Hm as [Hmo Hmn]. rewrite Hl, Nat2Z.id.
    destruct (find_in_pool_ok s p h str [] new Ha Hmn) as (r & E & Hr).
    change (Z.of_nat (length (A := entry) [])) with 0 in E. rewrite E. cbn [obind]. destruct r as [i|].
    + eexists. split; [done|]. destruct Hr as (i' & e & H1 & H2 & H3 & ->). exists (length old + i')%nat, e.
      rewrite lookup_app_r by lia. replace (length old + i' - length old)%nat with i' by lia. split_and!; try done. cbn [length]. lia.
    + cbn [find_in_pools] in IH. destruct (IH Hmo) as (r & -> & Hr'). exists r. split; [done|]. destruct r as [i|].
      * destruct Hr' as (i' & e & H1 & H2). exists i', e. split; [by apply lookup_app_l_Some|done].
      * intros e [He|He]%elem_of_app; [by apply Hr'|by apply Hr].
Qed.

Lemma pools_rom_size N pools es : pools_ok N pools es -> MICROPY_ALLOC_QSTR_ENTRIES_INIT <= N < 2 ^ 28.
Proof. by induction 1. Qed.

Lemma pools_bound N pools es : pools_ok N pools es -> Z.of_nat (length es) < 2 ^ 29.
Proof. intros H. pose proof (pools_rom_size _ _ _ H). destruct H; [lia|]. rewrite length_app. lia. Qed.

Lemma find_qstr_ok N pools es i e : pools_ok N pools es -> es !! i = Some e ->
  exists p k, find_qstr pools (Z.of_nat i) = Ret (p, Z.of_nat k) /\ rd (hashes p) (Z.of_nat k) = Ret (e_hash e) /\
    rd (lengths p) (Z.of_nat k) = Ret (Z.of_nat (length (e_chars e))) /\ rd (qstrs p) (Z.of_nat k) = Ret (e_ptr e).
Proof.
  intros Hp. pose proof (pools_bound _ _ _ Hp) as Hb. revert i e Hb.
  assert (Hrd : forall p l i e, arrays_ok p l -> l !! i = Some e -> rd (hashes p) (Z.of_nat i) = Ret (e_hash e) /\
    rd (lengths p) (Z.of_nat i) = Ret (Z.of_nat (length (e_chars e))) /\ rd (qstrs p) (Z.of_nat i) = Ret (e_ptr e)).
  { intros p l i e (H1 & H2 & H3) He. split_and!; [by eapply (rd_entry e_hash)| |by eapply (rd_entry e_ptr)].
    by eapply (rd_entry (fun e => Z.of_nat (length (e_chars e)))). }
  induction Hp as [p es Ht _ Hl Hn _ Ha|p q prev old new Ho IH Ht _ _ Hl _ _ _ _ Ha]; intros i e Hb He;
    pose proof (lookup_lt_Some _ _ _ He) as Hlt; cbn [find_qstr].
  - rewrite Ht, (proj2 (Z.ltb_ge _ 0)) by lia. rewrite Z.sub_0_r, wrap_small by lia. cbn zeta.
    rewrite (proj2 (Z.ltb_lt (Z.of_nat i) _)) by lia. exists p, i. split; [done|by eapply Hrd].
  - rewrite length_app in Hlt, Hb. rewrite Ht. destruct (Z.ltb_spec (Z.of_nat i) (Z.of_nat (length old))).
    + rewrite lookup_app_l in He by lia. cbn [find_qstr] in IH. apply IH; [lia|done].
    + rewrite lookup_app_r in He by lia. rewrite wrap_small by lia.
      replace (Z.of_nat i - Z.of_nat (length old)) with (Z.of_nat (i - length old)) by lia. cbn zeta.
      rewrite (proj2 (Z.ltb_lt _ (len p))) by lia. exists p, (i - length old)%nat. split; [done|by eapply Hrd].
Qed.

(** What a lookup finds in the state. *)
Lemma find_strn_ok N s es str : wf_but_root N s es ->
  exists q, qstr_find_strn s str = Ret q /\
    ((q = 0 /\ str ∉ names es) \/ exists i, q = Z.of_nat (S i) /\ names es !! i = Some str).
Proof.
  intros [Hp (e0 & es' & -> & Hn & Hh & _) Hm _ _]. unfold qstr_find_strn.
  pose proof (hash_pos str) as Hpos. rewrite list.Forall_forall in Hh.
  destruct (find_in_pools_ok N s _ _ (qstr_compute_hash str) str Hp Hm) as (r & -> & Hr). cbn [obind]. eexists. split; [done|].
  unfold names. cbn [tail]. destruct r as [q|].
  - right. destruct Hr as ([|i] & e & H1 & H2 & H3 & ->); [injection H1 as <-; lia|]. exists i. split; [done|].
    change (es' !! i = Some e) in H1. by rewrite list_lookup_fmap, H1, <- H3.
  - left. split; [done|]. intros (e & -> & He)%list_elem_of_fmap. apply (Hr e); [by right|]. split; [by apply Hh|done].
Qed.

(** ** The chunk *)

Lemma in_chunk_ext n b b' e : in_chunk b e -> (e_end e <= n)%nat -> take n b = take n b' -> in_chunk b' e.
Proof.
  unfold in_chunk, e_end. intros Hi Hn Ht. rewrite <- Hi. rewrite !take_drop_commute. f_equal.
  rewrite <- (Nat.min_l (e_off e + S (length (e_chars e))) n) by done. by rewrite <- !take_take, Ht.
Qed.

Lemma memory_ext s s' es :
  (forall c b, chunks s !! c = Some b -> exists b', chunks s' !! c = Some b' /\
     forall e, e ∈ es -> e_chunk e = c -> in_chunk b e -> in_chunk b' e) ->
  Forall (in_memory s) es -> Forall (in_memory s') es.
Proof.
  intros H Hm. rewrite !list.Forall_forall in *. intros e He. destruct (Hm e He) as (b & Hb & Hi).
  destruct (H _ _ Hb) as (b' & Hb' & Hi'). exists b'. split; [done|by apply Hi'].
Qed.

(** Changing the last chunk [c] above the part in use. *)
Lemma alter_memory s s' es c b f : chunk_ok s es -> qstr_last_chunk s = Some c -> chunks s !! c = Some b ->
  chunks s' = alter f c (chunks s) -> take (Z.to_nat (qstr_last_used s)) (f b) = take (Z.to_nat (qstr_last_used s)) b ->
  Forall (in_memory s) es -> Forall (in_memory s') es.
Proof.
  intros Hc El Eb Es Hf. unfold chunk_ok in Hc. rewrite El in Hc. destruct Hc as (b0 & Eb0 & _ & _ & _ & He). simplify_eq.
  apply memory_ext. rewrite Es. intros c' b' Hb'. destruct (decide (c' = c)) as [->|Hn].
  - rewrite list_lookup_alter_eq, Eb0. simplify_eq. eexists. split; [done|]. intros e He1 He2 He3. specialize (He e He1 He2).
    eapply (in_chunk_ext (Z.to_nat (qstr_last_used s))); [done|lia|done].
  - rewrite list_lookup_alter_ne by done. by exists b'.
Qed.

Section Interning.
Context {allocator : Allocator Z}.
Variable can_grow : nat -> Z -> bool.
(** The heap is smaller than 256 MB. *)
Hypothesis heap_small : forall n, m_renew_ok (A := Z) n = true -> n < 2 ^ 28.
Hypothesis grow_small : forall c n, can_grow c n = true -> n < 2 ^ 28.

Lemma chunk_room_ok N s es n : wf N s es -> 1 <= n <= 256 ->
  exists s', chunk_room can_grow n s = (s', Ret tt) /\ wf N s' es /\
    forall c, qstr_last_chunk s' = Some c -> qstr_last_used s' + n <= qstr_last_alloc s'.
Proof.
  intros [[Hp Hn Hm Hs Hc] Hr] Hn1. unfold chunk_room, mbind, mget. pose proof Hc as Hc'. unfold chunk_ok in Hc'.
  destruct (qstr_last_chunk s) as [c|] eqn:El.
  2: { exists s. split; [done|]. split; [done|]. by rewrite El. }
  destruct Hc' as (b & Eb & Hl & Hu & Ha & He). rewrite !wrap_small by lia.
  destruct (Z.ltb_spec (qstr_last_alloc s) (qstr_last_used s + n)).
  2: { exists s. split; [done|]. split; [done|]. intros. lia. }
  cbn zeta. destruct (can_grow c _) eqn:Eg; cbn [mput]; eexists; (split; [done|]).
  - apply grow_small in Eg. split; [|cbn; lia]. split; [split; try done|].
    + eapply (alter_memory s); [exact Hc|exact El|exact Eb|reflexivity| |exact Hm]. cbn. rewrite take_app_le by lia. done.
    + exists (b ++ replicate (Z.to_nat (qstr_last_alloc s + n) - length b) fresh). cbn.
      rewrite list_lookup_alter_eq, Eb. split_and!; [done|lens|lia|lia|lia|done].
    + intros c' [= <-]. by apply Hr.
  - split; [|done]. split; [split; try done|done]. eapply (alter_memory s); [exact Hc|exact El|exact Eb|reflexivity| |exact Hm]. cbn. rewrite take_take. f_equal. lia.
Qed.

Lemma new_chunk_ok N s es n : wf N s es -> 1 <= n <= 256 ->
  (forall c, qstr_last_chunk s = Some c -> qstr_last_used s + n <= qstr_last_alloc s) ->
  (exists s' c, new_chunk n s = (s', Ret c) /\ wf_but_root N s' es /\ qstr_last_chunk s' = Some c /\
     qstr_last_used s' + n <= qstr_last_alloc s' /\ (rooted s' es \/ qstr_last_used s' = 0)) \/
  new_chunk n s = (s, Raise MemoryError).
Proof.
  intros [[Hp Hn Hm Hs Hc] Hr] Hn1 Hroom. unfold new_chunk, mbind, mget. destruct (qstr_last_chunk s) as [c|] eqn:El.
  { left. exists s, c. split_and!; [done|done|done|by eapply Hroom|by left]. }
  assert (Hstart : forall al, m_renew_ok al = true -> n <= al ->
    let s' := set_last (set_chunks s (chunks s ++ [replicate (Z.to_nat al) fresh])) (Some (length (chunks s))) al 0 in
    wf_but_root N s' es /\ qstr_last_used s' + n <= qstr_last_alloc s').
  { intros al Hal Hal2. apply heap_small in Hal. cbn. split; [|lia]. split; try done.
    - revert Hm. apply memory_ext. intros c b Hb. exists b. cbn. split; [by apply lookup_app_l_Some|done].
    - exists (replicate (Z.to_nat al) fresh). cbn. rewrite lookup_app_r, Nat.sub_diag by lia.
      split_and!; [done|lens|lia|lia|lia|]. intros e He1 He2. rewrite list.Forall_forall in Hm.
      destruct (Hm e He1) as (b & Hb & _). apply lookup_lt_Some in Hb. lia. }
  set (al := if n <? MICROPY_ALLOC_QSTR_CHUNK_INIT then MICROPY_ALLOC_QSTR_CHUNK_INIT else n).
  assert (n <= al) by (unfold al, MICROPY_ALLOC_QSTR_CHUNK_INIT; bcase; lia).
  destruct (m_renew_ok al) eqn:E1; [|destruct (m_renew_ok n) eqn:E2; [|by right]]; left; eexists _, _; (split; [done|]).
  - destruct (Hstart al) as [H1 H2]; [done..|]. split_and!; [done|done|done|by right].
  - destruct (Hstart n) as [H1 H2]; [done|lia|]. split_and!; [done|done|done|by right].
Qed.

Lemma take_memcpy (b d : list Z) n : (n + length d <= length b)%nat ->
  exists b', memcpy_in b (Z.of_nat n) d = Ret b' /\ take n b' = take n b /\ length b' = length b /\ take (length d) (drop n b') = d.
Proof.
  intros Hl. rewrite memcpy_in_Ret by lia. rewrite Nat2Z.id. eexists. split; [done|].
  split_and!; [rewrite take_app_le by lens; rewrite take_take; f_equal; lia|lens|].
  rewrite drop_app_ge by lens. rewrite length_take. replace (n - n `min` length b)%nat with 0%nat by lia.
  by rewrite drop_0, take_app_length.
Qed.

(** Storing a string in the room that is left. *)
Lemma store_string_ok N s es c str : wf_but_root N s es -> qstr_last_chunk s = Some c ->
  let n_bytes := Z.of_nat (length str) + 1 in
  qstr_last_used s + n_bytes <= qstr_last_alloc s ->
  let e := mk_entry (qstr_compute_hash str) str c (Z.to_nat (qstr_last_used s)) in
  exists s', store_string (c, qstr_last_used s) str (set_last s (Some c) (qstr_last_alloc s) (qstr_last_used s + n_bytes)) = (s', Ret tt) /\
    wf_but_root N s' es /\ last_pool s' = last_pool s /\ qstr_last_chunk s' = Some c /\
    in_memory s' e /\ Z.of_nat (e_end e) <= qstr_last_used s'.
Proof.
  intros [Hp Hn Hm Hs Hc] El n_bytes Hroom e. pose proof Hc as Hc'. unfold chunk_ok in Hc'. rewrite El in Hc'.
  destruct Hc' as (b & Eb & Hl & Hu & Ha & He).
  destruct (take_memcpy b (str ++ [0]) (Z.to_nat (qstr_last_used s))) as (b' & Em & H1 & H2 & H3); [lens|].
  unfold store_string, mbind, mget. cbn [chunks fst snd]. cbn. rewrite Eb. cbn.
  rewrite Z2Nat.id in Em by lia. rewrite Em. cbn. eexists. split; [done|]. cbn.
  assert (Hins : <[c:=b']> (chunks s) !! c = Some b') by (apply list_lookup_insert_eq; by eapply lookup_lt_Some).
  split_and!; [|done|done| |].
  - split; cbn; try done.
    + revert Hm. apply memory_ext. cbn. intros c' b0 Hb0. destruct (decide (c' = c)) as [->|Hne].
      * exists b'. split; [exact Hins|]. simplify_eq. intros e' G1 G2 G3. specialize (He e' G1 G2).
        eapply (in_chunk_ext (Z.to_nat (qstr_last_used s))); [done|lia|done].
      * exists b0. by rewrite list_lookup_insert_ne.
    + exists b'. cbn. split_and!; [exact Hins|lia|lia|lia|done|]. intros e' G1 G2. specialize (He e' G1 G2). lia.
  - exists b'. split; [exact Hins|]. unfold in_chunk. cbn. rewrite length_app in H3. cbn in H3.
    by rewrite Nat.add_1_r in H3.
  - unfold e_end. cbn. lia.
Qed.

(** ** The pool *)

Lemma pool_room_ok N s es : wf_but_root N s es ->
  (exists s', pool_room s = (s', Ret tt) /\ wf_but_root N s' es /\ chunks s' = chunks s /\
     qstr_last_chunk s' = qstr_last_chunk s /\ qstr_last_used s' = qstr_last_used s /\
     exists p prev, last_pool s' = p :: prev /\ len p < alloc p) \/
  (exists s', pool_room s = (s', Raise MemoryError) /\ wf N s' es).
Proof.
  intros Hw. pose proof Hw as [Hp Hn Hm Hs Hc]. unfold pool_room, mbind, mget. cbn.
  pose proof (pools_bound _ _ _ Hp) as Hb. pose proof (pools_rom_size _ _ _ Hp) as HN. unfold MICROPY_ALLOC_QSTR_ENTRIES_INIT in *.
  assert (Hhead : exists p prev, last_pool s = p :: prev /\ 10 <= alloc p < 2 ^ 26 /\
    total_prev_len p + len p = Z.of_nat (length es) /\ (len p <= alloc p -> total_prev_len p + len p <= N + alloc p * 2) /\
    (alloc p < len p -> total_prev_len p + len p <= N)).
  { destruct Hp as [p es Ht Ea Hl HNe _ _|p q prev old new Ho Ht Htb Ha Hl Hla _ _ _ _].
    - exists p, []. rewrite Ea in *. unfold MICROPY_ALLOC_QSTR_ENTRIES_INIT in *. split_and!; try (done || lia).
    - exists p, (q :: prev). rewrite length_app. unfold MICROPY_ALLOC_QSTR_ENTRIES_INIT in *. split_and!; try (done || lia). }
  destruct Hhead as (p & prev & Ep & Ha & Ht & Ht1 & Ht2). rewrite Ep.
  destruct (Z.leb_spec (alloc p) (len p)) as [Hle|Hlt].
  2: { left. exists s. split_and!; try done. by exists p, prev. }
  rewrite (wrap_small 32 (alloc p * 2)) by lia. rewrite (wrap_small 32 (sizeof_qstr_pool_t + _)), wrap_small by (unfold sizeof_qstr_pool_t; lia). cbn zeta.
  destruct (m_renew_ok _) eqn:Em.
  - apply heap_small in Em. unfold sizeof_qstr_pool_t in Em. left. eexists. split; [done|]. cbn. split_and!; try done; [|by eexists _, _; split; [done|cbn; lia]].
    split; try done. cbn. rewrite <- (app_nil_r es). rewrite Ep in Hp.
    apply pools_heap; cbn; rewrite ?length_replicate; try (done || lia). unfold MICROPY_ALLOC_QSTR_ENTRIES_INIT. lia.
  - right. eexists. split; [done|]. split; [|done]. by split.
Qed.

Lemma take_insert_snoc {A} (l : list A) n x : (n < length l)%nat -> take (S n) (<[n := x]> l) = take n l ++ [x].
Proof.
  intros Hn. erewrite take_S_r by (apply list_lookup_insert_eq; done). by rewrite take_insert_ge by lia.
Qed.

(** Writing one more entry in the newest pool. *)
Lemma pool_append N p prev es e : pools_ok N (p :: prev) es -> len p < alloc p ->
  0 <= e_hash e < 256 -> Z.of_nat (length (e_chars e)) < 256 ->
  exists h l q, wr (hashes p) (len p) (wrap 8 (e_hash e)) = Ret h /\
    wr (lengths p) (len p) (wrap 8 (Z.of_nat (length (e_chars e)))) = Ret l /\ wr (qstrs p) (len p) (e_ptr e) = Ret q /\
    pools_ok N (mk_pool (total_prev_len p) (alloc p) (wrap 32 (len p + 1)) h l q :: prev) (es ++ [e]) /\
    total_prev_len p + len p = Z.of_nat (length es).
Proof.
  intros Hp Hl Hh Hs. pose proof (pools_bound _ _ _ Hp) as Hb. pose proof (pools_rom_size _ _ _ Hp) as HN.
  inversion Hp as [p' es' Ht Ea Hln HNe _ Ha|p' q prev' old new Ho Ht Htb Ha Hln Hla H1 H2 H3 (A1 & A2 & A3)]; subst; [lia|].
  rewrite length_app in *. rewrite !wr_Ret by lia. rewrite !wrap_small by lia.
  eexists _, _, _. split_and!; try done; [|lia]. rewrite <- app_assoc.
  apply pools_heap; cbn; rewrite ?length_insert, ?length_app; cbn; try (done || lia).
  rewrite Hln, Nat2Z.id. split_and!; cbn [hashes lengths qstrs]; rewrite length_app, Nat.add_1_r, map_app, take_insert_snoc by lia; cbn [map]; by f_equal.
Qed.

Lemma qstr_add_ok N s es e c : wf_but_root N s es -> hashed e -> Z.of_nat (length (e_chars e)) < 256 -> e_chars e ∉ names es ->
  in_memory s e -> qstr_last_chunk s = Some c -> e_chunk e = c -> Z.of_nat (e_end e) <= qstr_last_used s ->
  rooted s es \/ e_off e = 0%nat ->
  (exists s', qstr_add (e_hash e) (Z.of_nat (length (e_chars e))) (e_ptr e) s = (s', Ret (Z.of_nat (length es))) /\ wf N s' (es ++ [e])) \/
  (exists s', qstr_add (e_hash e) (Z.of_nat (length (e_chars e))) (e_ptr e) s = (s', Raise MemoryError) /\ wf N s' es).
Proof.
  intros Hw Hh Hl Hnew Hmem El Hch Hend Hroot. unfold qstr_add, mbind, mget, mlift, mput, mret.
  destruct (pool_room_ok N s es Hw) as [(s1 & -> & Hw1 & C1 & C2 & C3 & p & prev & Ep & Hlt)|(s1 & -> & Hw1)]; [|right; by exists s1].
  left. destruct Hw1 as [Hp (e0 & es' & -> & Hn & Hhs & Hnd) Hm Hs Hc]. cbn. rewrite Ep in *.
  pose proof (hash_pos (e_chars e)) as Hpos. rewrite <- Hh in Hpos.
  destruct (pool_append N p prev _ e Hp Hlt) as (h & l & q & -> & -> & -> & Hp' & Hid); [lia|done|]. cbn.
  pose proof (pools_bound _ _ _ Hp) as Hb. cbn [length] in *. eexists. split; [by rewrite Hid, (wrap_small 32 (Z.of_nat _)) by lia|]. change (e0 :: es' ++ [e]) with ((e0 :: es') ++ [e]).
  assert (Hmem1 : in_memory s1 e) by (destruct Hmem as (b & Hb1 & Hb2); exists b; by rewrite C1).
  split.
  - split; cbn [last_pool].
    + exact Hp'.
    + exists e0, (es' ++ [e]). split_and!; [done|done| |].
      * apply list.Forall_app. split; [done|by constructor].
      * rewrite map_app. apply list.NoDup_app. split_and!; [done| |apply list.NoDup_singleton].
        intros x Hx ->%list_elem_of_singleton. by apply Hnew.
    + apply list.Forall_app. split; [exact Hm|by constructor].
    + apply list.Forall_app. split; [done|by constructor].
    + revert Hc. unfold chunk_ok. cbn. rewrite C2, El. intros (b & H1 & H2 & H3 & H4 & H5). exists b. split_and!; try done; try lia.
      intros e1 He1 He2. change (e1 ∈ (e0 :: es') ++ [e]) in He1. apply elem_of_app in He1 as [He1| ->%list_elem_of_singleton]; [by apply H5|lia].
  - intros c'. cbn. rewrite C2, El. intros [= <-]. destruct Hroot as [Hroot|Hz].
    + destruct (Hroot _ El) as (e1 & G1 & G2 & G3). exists e1. split; [|done]. change (e1 ∈ (e0 :: es') ++ [e]). apply elem_of_app. by left.
    + exists e. split; [|done]. change (e ∈ (e0 :: es') ++ [e]). apply elem_of_app. right. by apply list_elem_of_singleton.
Qed.

Lemma qstr_from_strn_ok N s es str : wf N s es ->
  let '(s', r) := qstr_from_strn can_grow str s in
  match r with
  | Ret q => exists es', wf N s' es' /\ names es' = (if bool_decide (str ∈ names es) then names es else names es ++ [str]) /\
      1 <= q /\ names es' !! Z.to_nat (q - 1) = Some str
  | Raise MemoryError => wf N s' es /\ str ∉ names es
  | Raise RuntimeError => s' = s /\ str ∉ names es /\ 256 <= Z.of_nat (length str)
  | _ => False
  end.
Proof.
  intros Hw. unfold qstr_from_strn, mbind at 1, mget at 1. destruct (find_strn_ok N s es str (proj1 Hw)) as (q & Hq & Hcase).
  unfold mbind at 1. unfold mlift at 1. rewrite Hq. destruct Hcase as [[-> Hnew]|(i & -> & Hi)].
  2: { rewrite (proj2 (Z.eqb_neq _ 0)) by lia. cbn [negb mret]. exists es.
       rewrite bool_decide_eq_true_2 by (by eapply list_elem_of_lookup_2). split_and!; [done|done|lia|].
       by replace (Z.to_nat (Z.of_nat (S i) - 1)) with i by lia. }
  cbn [Z.eqb negb]. change (Z.shiftl 1 (8 * MICROPY_QSTR_BYTES_IN_LEN)) with 256.
  destruct (Z.leb_spec 256 (Z.of_nat (length str))) as [Hlong|Hshort]; [by split_and!|].
  set (n := Z.of_nat (length str) + 1). cbn zeta. unfold mbind at 1.
  destruct (chunk_room_ok N s es n Hw ltac:(lia)) as (s1 & -> & Hw1 & Hroom1). unfold mbind at 1.
  destruct (new_chunk_ok N s1 es n Hw1 ltac:(lia) Hroom1) as [(s2 & c & -> & Hw2 & El & Hroom2 & Hroot)| ->]; [|done].
  unfold mbind at 1, mget at 1. unfold mbind at 1, mput at 1. unfold mbind at 1. rewrite El.
  assert (Hused : 0 <= qstr_last_used s2 /\ qstr_last_alloc s2 < 2 ^ 28)
    by (pose proof (wf_chunk _ _ _ Hw2) as Hc; unfold chunk_ok in Hc; rewrite El in Hc; destruct Hc as (b & ?); lia).
  rewrite wrap_small by lia.
  destruct (store_string_ok N s2 es c str Hw2 El Hroom2) as (s3 & E3 & Hw3 & Ep3 & El3 & Hm3 & He3). fold n in E3. rewrite E3.
  set (e := mk_entry _ _ _ _) in *.
  assert (Eptr : (c, qstr_last_used s2) = e_ptr e) by (unfold e, e_ptr; cbn; by rewrite Z2Nat.id by lia). rewrite Eptr.
  assert (Hroot3 : rooted s3 es \/ e_off e = 0%nat).
  { destruct Hroot as [Hroot|Hz]; [left|right; cbn; lia]. intros c' Hc'. apply Hroot. congruence. }
  pose proof (qstr_add_ok N s3 es e c Hw3 eq_refl Hshort Hnew Hm3 El3 eq_refl He3 Hroot3) as Hadd.
  change (e_hash e) with (qstr_compute_hash str) in Hadd. change (e_chars e) with str in Hadd. destruct Hadd as [(s4 & -> & Hw4)|(s4 & -> & Hw4)].
  - exists (es ++ [e]). destruct (wf_null _ _ _ Hw3) as (e0 & es' & Ees & _). rewrite bool_decide_eq_false_2 by done.
    assert (En : names (es ++ [e]) = names es ++ [str]) by (rewrite Ees; unfold names; cbn; by rewrite map_app).
    split_and!; [done|done|rewrite Ees; cbn; lia|]. rewrite En. apply lookup_snoc_Some. right. split; [|done].
    rewrite Ees. unfold names. cbn. rewrite length_map. lia.
  - done.
Qed.

(** C31. [qstr_from_strn]: it returns the index of the string, which is the one it had if it was
    interned before and else the next one; all other strings keep their index and their characters,
    whether pools or chunks had to be added or not.  If memory runs out, or the string has 256
    characters or more, an exception is raised and nothing is interned; the invariant holds again, so
    the last chunk stays reachable for the garbage collector. *)
Theorem qstr_from_strn_spec N s es str : wf N s es ->
  let '(s', r) := qstr_from_strn can_grow str s in
  match r with
  | Ret q => exists es', wf N s' es' /\ names es' = (if bool_decide (str ∈ names es) then names es else names es ++ [str]) /\
      1 <= q /\ names es' !! Z.to_nat (q - 1) = Some str
  | Raise MemoryError => wf N s' es /\ str ∉ names es
  | Raise RuntimeError => s' = s /\ str ∉ names es /\ 256 <= Z.of_nat (length str)
  | _ => False
  end.
Proof. apply qstr_from_strn_ok. Qed.

(** ** Access *)

Lemma access_ok N s es i str : wf_but_root N s es -> names es !! i = Some str ->
  qstr_data s (Z.of_nat (S i)) = Ret str /\ qstr_len s (Z.of_nat (S i)) = Ret (Z.of_nat (length str)) /\
  qstr_hash s (Z.of_nat (S i)) = Ret (qstr_compute_hash str).
Proof.
  intros [Hp (e0 & es' & -> & _ & Hh & _) Hm _ _] Hi. unfold names in Hi. cbn [tail] in Hi.
  rewrite list_lookup_fmap in Hi. destruct (es' !! i) as [e|] eqn:He; [|done]. injection Hi as <-.
  destruct (find_qstr_ok N _ _ (S i) e Hp He) as (p & k & E & H1 & H2 & H3).
  rewrite list.Forall_forall in Hh, Hm. pose proof (list_elem_of_lookup_2 _ _ _ He) as Hin.
  unfold qstr_data, qstr_len, qstr_hash. rewrite E. cbn [obind]. rewrite H1, H2, H3. cbn [obind]. split_and!.
  - apply mem_at_entry, Hm. by right.
  - done.
  - by rewrite (Hh _ Hin).
Qed.

(** The state and the results of interning strings one after the other. *)
Fixpoint intern_all (strs : list (list Z)) (s : qstr_state) : qstr_state * list (outcome Z) :=
  match strs with
  | [] => (s, [])
  | str :: strs =>
    let '(s, r) := qstr_from_strn can_grow str s in
    let '(s, rs) := intern_all strs s in (s, r :: rs)
  end.

Lemma intern_all_ok strs N s es : wf N s es ->
  let '(s', rs) := intern_all strs s in
  exists es', wf N s' es' /\ names es `prefix_of` names es' /\
    forall i str q, strs !! i = Some str -> rs !! i = Some (Ret q) -> 1 <= q /\ names es' !! Z.to_nat (q - 1) = Some str.
Proof.
  revert s es. induction strs as [|str strs IH]; intros s es Hw; cbn [intern_all].
  { exists es. by split_and!. }
  pose proof (qstr_from_strn_ok N s es str Hw) as H. destruct (qstr_from_strn can_grow str s) as [s1 r].
  assert (Hstep : exists es1, wf N s1 es1 /\ names es `prefix_of` names es1 /\
    forall q, r = Ret q -> 1 <= q /\ names es1 !! Z.to_nat (q - 1) = Some str).
  { destruct r as [q|[]| |]; try done.
    - destruct H as (es1 & H1 & H2 & H3 & H4). exists es1. split_and!; [done| |by intros ? [= <-]].
      rewrite H2. case_bool_decide; [done|by apply prefix_app_r].
    - destruct H as [H _]. by exists es.
    - destruct H as (-> & _). by exists es. }
  destruct Hstep as (es1 & Hw1 & Hpre & Hq). specialize (IH s1 es1 Hw1). destruct (intern_all strs s1) as [s' rs].
  destruct IH as (es' & Hw' & Hpre' & Hall). exists es'. split_and!; [done|by etrans|].
  intros [|i] str' q Hs Hr; [|by eapply Hall]. injection Hs as <-. injection Hr as ->.
  destruct (Hq q eq_refl) as [H1 H2]. split; [done|]. by eapply prefix_lookup_Some.
Qed.
End Interning.

(** ** The table in the ROM *)

(** What the build guarantees of the generated table: the null entry, then distinct strings of less than
    256 characters with their hashes and lengths. *)
Record rom_ok (const_hashes const_lengths : list Z) (const_strs : list (list Z)) (rom : list (list Z)) : Prop := {
  rom_strs : const_strs = [] :: rom;
  rom_hashes : const_hashes = 0 :: map qstr_compute_hash rom;
  rom_lengths : const_lengths = map (fun s => Z.of_nat (length s)) const_strs;
  rom_NoDup : NoDup rom;
  rom_short : Forall (fun s => Z.of_nat (length s) < 256) rom;
  rom_large : MICROPY_ALLOC_QSTR_ENTRIES_INIT <= Z.of_nat (length const_strs) < 2 ^ 28
}.

Fixpoint rom_from (n : nat) (hs : list Z) (strs : list (list Z)) : list entry :=
  match hs, strs with
  | h :: hs, s :: strs => mk_entry h s n 0 :: rom_from (S n) hs strs
  | _, _ => []
  end.

Definition rom_entries (hs : list Z) (strs : list (list Z)) : list entry := rom_from 0 hs strs.

Lemma rom_from_ok n hs strs : length hs = length strs ->
  length (rom_from n hs strs) = length strs /\ map e_hash (rom_from n hs strs) = hs /\
  map e_chars (rom_from n hs strs) = strs /\ map e_ptr (rom_from n hs strs) = map (fun i => (i, 0)) (seq n (length strs)).
Proof.
  revert hs n. induction strs as [|s strs IH]; intros [|h hs] n Hl; try done.
  cbn [rom_from seq length map] in *. destruct (IH hs (S n)) as (H1 & H2 & H3 & H4); [lia|]. by rewrite H1, H2, H3, H4.
Qed.

Lemma rom_from_lookup n hs strs i e : rom_from n hs strs !! i = Some e ->
  strs !! i = Some (e_chars e) /\ e_chunk e = (n + i)%nat /\ e_off e = 0%nat.
Proof.
  revert hs n i. induction strs as [|s strs IH]; intros [|h hs] n [|i] He; try done; cbn [rom_from] in He.
  - injection He as <-. by rewrite Nat.add_0_r.
  - change (rom_from (S n) hs strs !! i = Some e) in He. destruct (IH _ _ _ He) as (H1 & H2 & H3). split_and!; [done|lia|done].
Qed.

Lemma qstr_init_ok hs ls strs rom : rom_ok hs ls strs rom ->
  wf (Z.of_nat (length strs)) (qstr_init hs ls strs) (rom_entries hs strs) /\ names (rom_entries hs strs) = rom.
Proof.
  intros [-> -> -> Hnd Hsh Hlg]. set (strs := [] :: rom) in *. set (hs := 0 :: _) in *.
  assert (El : length hs = length strs) by (cbn; by rewrite length_map).
  destruct (rom_from_ok 0 hs strs El) as (H1 & H2 & H3 & H4).
  fold (rom_entries hs strs) in *.
  assert (Hex : exists es', rom_entries hs strs = mk_entry 0 [] 0 0 :: es') by (by eexists). destruct Hex as [es' Ees].
  assert (Hn : map e_chars es' = rom) by (rewrite Ees in H3; by injection H3).
  assert (Hh : map e_hash es' = map qstr_compute_hash rom) by (rewrite Ees in H2; by injection H2).
  split; [|by rewrite Ees]. split; [|done]. split.
  - apply pools_rom; cbn [qstr_init last_pool total_prev_len alloc len]; try (done || lia).
    split_and!; cbn [hashes lengths qstrs].
    + by rewrite H1, <- El, firstn_all, H2.
    + rewrite H1, take_ge by (by rewrite length_map). rewrite <- H3 at 1. by rewrite map_map.
    + rewrite H4, H1. by rewrite take_ge by (by rewrite length_map, length_seq).
  - exists (mk_entry 0 [] 0 0), es'. split_and!; [done|done| |by rewrite Hn].
    rewrite <- Hn, map_map in Hh. clear -Hh. induction es' as [|e es' IH]; [by constructor|]. injection Hh as G1 G2. by constructor; [|apply IH].
  - apply list.Forall_forall. intros e (i & He)%list_elem_of_lookup_1. destruct (rom_from_lookup _ _ _ _ _ He) as (G1 & G2 & G3).
    exists (e_chars e ++ [0]). unfold qstr_init. cbn [chunks]. rewrite G2, list_lookup_fmap, Nat.add_0_l, G1. split; [done|]. unfold in_chunk.
    rewrite G3, drop_0, take_ge by (rewrite length_app; cbn; lia). done.
  - apply list.Forall_forall. intros e He. assert (Hc : e_chars e ∈ strs) by (rewrite <- H3; by apply list_elem_of_fmap_2).
    apply elem_of_cons in Hc as [->|Hc]; [done|]. rewrite list.Forall_forall in Hsh. by apply Hsh.
  - done.
Qed.

(** C30. Interning any strings one after the other, from the start of the interpreter: two calls that
    succeed return the same index exactly if their strings are equal, a string of the ROM table gets
    its constant index, and at the end every index still leads to its string. *)
Theorem qstr_interning_spec `{Allocator Z} can_grow hs ls cs rom strs :
  (forall n, m_renew_ok (A := Z) n = true -> n < 2 ^ 28) -> (forall c n, can_grow c n = true -> n < 2 ^ 28) ->
  rom_ok hs ls cs rom ->
  let '(s', rs) := intern_all can_grow strs (qstr_init hs ls cs) in
  (forall i str q, strs !! i = Some str -> rs !! i = Some (Ret q) -> qstr_data s' q = Ret str) /\
  (forall i str q k, strs !! i = Some str -> rs !! i = Some (Ret q) -> rom !! k = Some str -> q = Z.of_nat (S k)) /\
  (forall i j str1 str2 q1 q2, strs !! i = Some str1 -> strs !! j = Some str2 ->
     rs !! i = Some (Ret q1) -> rs !! j = Some (Ret q2) -> q1 = q2 <-> str1 = str2).
Proof.
  intros Hheap Hgrow Hrom. destruct (qstr_init_ok hs ls cs rom Hrom) as [Hw Hnames].
  pose proof (intern_all_ok can_grow Hheap Hgrow strs _ _ _ Hw) as Hr. destruct (intern_all _ _ _) as [s' rs].
  destruct Hr as (es' & Hw' & Hpre & Hall). rewrite Hnames in Hpre.
  assert (Hnd : NoDup (names es')) by (destruct (wf_null _ _ _ (proj1 Hw')) as (e0 & es1 & -> & _ & _ & Hnd); exact Hnd).
  split_and!.
  - intros i str q H1 H2. destruct (Hall i str q H1 H2) as [H3 H4].
    destruct (access_ok _ _ _ _ _ (proj1 Hw') H4) as (E & _). rewrite <- E. f_equal. lia.
  - intros i str q k H1 H2 H3. destruct (Hall i str q H1 H2) as [H4 H5].
    assert (H6 : names es' !! k = Some str) by (by eapply prefix_lookup_Some).
    pose proof (NoDup_lookup _ _ _ _ Hnd H5 H6). lia.
  - intros i j str1 str2 q1 q2 H1 H2 H3 H4. destruct (Hall i str1 q1 H1 H3) as [H5 H6]. destruct (Hall j str2 q2 H2 H4) as [H7 H8].
    split; [intros ->; congruence|]. intros ->. pose proof (NoDup_lookup _ _ _ _ Hnd H6 H8). lia.
Qed.

(** ** Examples *)

#[local] Instance sample_heap : Allocator Z := {| m_renew_ok n := n <=? 4096; fresh := 170 |}.
#[local] Definition sample_grow (c : nat) (n : Z) : bool := n <=? 140.
#[local] Definition sample_rom : list (list Z) := [] :: map (fun i => [97 + Z.of_nat i; 95]) (seq 0 11).
#[local] Definition sample_init : qstr_state :=
  qstr_init (0 :: map qstr_compute_hash sample_rom) (map (fun s => Z.of_nat (length s)) ([] :: sample_rom)) ([] :: sample_rom).

Lemma sample_chunks_small n : m_renew_ok (Allocator := sample_heap) n = true -> n < 2 ^ 28.
Proof. cbn. lia. Qed.

Lemma sample_grow_small c n : sample_grow c n = true -> n < 2 ^ 28.
Proof. unfold sample_grow. lia. Qed.

Lemma sample_rom_ok :
  rom_ok (0 :: map qstr_compute_hash sample_rom) (map (fun s => Z.of_nat (length s)) ([] :: sample_rom)) ([] :: sample_rom) sample_rom.
Proof.
  split; try reflexivity.
  - apply (bool_decide_unpack _). vm_compute. exact I.
  - apply (bool_decide_unpack _). vm_compute. exact I.
  - cbn. unfold MICROPY_ALLOC_QSTR_ENTRIES_INIT. lia.
Qed.

Lemma qstr_from_strn_spec_witness :
  match qstr_from_strn sample_grow [120; 121] sample_init with
  | (s', Ret q) => q = 13 /\ qstr_data s' 13 = Ret [120; 121] /\ exists es', wf 13 s' es'
  | _ => False
  end.
Proof.
  pose proof (qstr_from_strn_spec sample_grow sample_chunks_small sample_grow_small 13 sample_init _ [120; 121]
    (proj1 (qstr_init_ok _ _ _ _ sample_rom_ok))) as H.
  destruct (qstr_from_strn sample_grow [120; 121] sample_init) as [s' r] eqn:E. vm_compute in E. injection E as <- <-.
  split; [reflexivity|]. split; [by vm_compute|]. destruct H as (es' & H & _). exists es'. exact H.
Defined.

Lemma qstr_interning_spec_witness :
  let '(s', rs) := intern_all sample_grow [[120]; [98; 95]; [120]; []] sample_init in
  rs = [Ret 13; Ret 3; Ret 13; Ret 1] /\ qstr_data s' 13 = Ret [120].
Proof.
  pose proof (qstr_interning_spec sample_grow _ _ _ _ [[120]; [98; 95]; [120]; []] sample_chunks_small sample_grow_small sample_rom_ok) as H.
  change (qstr_init _ _ _) with sample_init in H.
  assert (E : (intern_all sample_grow [[120]; [98; 95]; [120]; []] sample_init).2 = [Ret 13; Ret 3; Ret 13; Ret 1]) by (by vm_compute).
  destruct (intern_all sample_grow _ sample_init) as [s' rs]. cbn in E. subst rs.
  split; [reflexivity|]. exact (proj1 H 0%nat [120] 13 eq_refl eq_refl).
Defined.
