(* ===== verification/Repl.v ===== *)
(** * The prompt ([py/repl.c])

    [mp_repl_continue_with_input] tells whether the lines typed so far want another one.  [mp_repl_autocomplete] completes the last name of the text before the cursor: it walks along the attributes
    ["a.b.c"] from the module [__main__] and compares with every interned string.  The table of strings is the one
    of [Qstr.v].  Attributes are looked up by [mp_load_method_protected], which belongs to the object system: it is a
    parameter, with nothing assumed about it but that it does not intern strings meanwhile. *)

From Stdlib Require Import String.
From S2P Require Import Prelude SmallInt Unicode Hal Token Qstr QstrSpec.
Local Open Scope Z_scope.

(** ** Does the input go on? *)

(** The character that [str] begins with, or its terminator. *)
Definition char_at (str : list Z) : Z := match str with c :: _ => c | [] => 0 end.

Fixpoint str_startswith_word (str head : list Z) : bool :=
  match str, head with
  | c :: str, h :: head => (c =? h) && str_startswith_word str head
  | str, head => (char_at head =? 0) && ((char_at str =? 0) || negb (unichar_isident (char_at str)))
  end.

Definition Q_NONE : Z := 0.
Definition Q_1_SINGLE : Z := 1.
Definition Q_1_DOUBLE : Z := 2.
Definition Q_3_SINGLE : Z := 3.
Definition Q_3_DOUBLE : Z := 4.

(** [n_paren], [n_brack], [n_brace] and [in_quote] *)
Record input_t := mk_input { n_paren : Z; n_brack : Z; n_brace : Z; in_quote : Z }.

Definition set_quote (st : input_t) (q : Z) : input_t := mk_input (n_paren st) (n_brack st) (n_brace st) q.

(** The [switch] on a character outside quotes. *)
Definition bracket (c : Z) (st : input_t) : outcome input_t :=
  let add d n := sint (n + d) in
  if c =? 40 then let! n := add 1 (n_paren st) in Ret (mk_input n (n_brack st) (n_brace st) (in_quote st))
  else if c =? 41 then let! n := add (-1) (n_paren st) in Ret (mk_input n (n_brack st) (n_brace st) (in_quote st))
  else if c =? 91 then let! n := add 1 (n_brack st) in Ret (mk_input (n_paren st) n (n_brace st) (in_quote st))
  else if c =? 93 then let! n := add (-1) (n_brack st) in Ret (mk_input (n_paren st) n (n_brace st) (in_quote st))
  else if c =? 123 then let! n := add 1 (n_brace st) in Ret (mk_input (n_paren st) (n_brack st) n (in_quote st))
  else if c =? 125 then let! n := add (-1) (n_brace st) in Ret (mk_input (n_paren st) (n_brack st) n (in_quote st))
  else Ret st.

(** The quote that a quote character opens or closes; [i] is what follows it. *)
Definition quote_at (one three c in_quote : Z) (i : list Z) : Z * bool :=
  let is_triple := match i with a :: b :: _ => (a =? c) && (b =? c) | _ => false end in
  if ((in_quote =? Q_NONE) || (in_quote =? three)) && is_triple then (three - in_quote, true)
  else if (in_quote =? Q_NONE) || (in_quote =? one) then (one - in_quote, false)
  else (in_quote, false).

(** The loop [for (i = input; *i; i++)]; the first [skip] characters have been passed already. *)
Fixpoint scan_input (i : list Z) (skip : nat) (st : input_t) : outcome input_t :=
  match i with
  | [] => Ret st
  | c :: i =>
    match skip with
    | S skip => scan_input i skip st
    | O =>
      if (c =? 39) || (c =? 34) then
        let '(q, tripled) :=
          if c =? 39 then quote_at Q_1_SINGLE Q_3_SINGLE c (in_quote st) i else quote_at Q_1_DOUBLE Q_3_DOUBLE c (in_quote st) i in
        scan_input i (if tripled then 2 else 0) (set_quote st q)
      else if (c =? 92) && ((char_at i =? 39) || (char_at i =? 34) || (char_at i =? 92)) then
        scan_input i (if negb (in_quote st =? Q_NONE) then 1 else 0) st
      else if in_quote st =? Q_NONE then let! st := bracket c st in scan_input i 0 st
      else scan_input i 0 st
    end
  end.

(** [i[-1]] is the last character of the input, which is not empty there. *)
Definition mp_repl_continue_with_input (input : list Z) : outcome bool :=
  if char_at input =? 0 then Ret false else
  let starts_with_compound_keyword :=
    (char_at input =? 64) || str_startswith_word input (chars "if") || str_startswith_word input (chars "while")
    || str_startswith_word input (chars "for") || str_startswith_word input (chars "try") || str_startswith_word input (chars "with")
    || str_startswith_word input (chars "def") || str_startswith_word input (chars "class") in
  let! st := scan_input input 0 (mk_input 0 0 0 Q_NONE) in
  if (in_quote st =? Q_3_SINGLE) || (in_quote st =? Q_3_DOUBLE) then Ret true else
  if ((0 <? n_paren st) || (0 <? n_brack st) || (0 <? n_brace st)) && (in_quote st =? Q_NONE) then Ret true else
  let last := List.last input 0 in
  if last =? 92 then Ret true else
  Ret (starts_with_compound_keyword && negb (last =? 10)).

(** A character counts once at most, so that an input that fits in memory gets an answer. *)
Lemma bracket_ok c st k : Z.abs (n_paren st) <= k -> Z.abs (n_brack st) <= k -> Z.abs (n_brace st) <= k -> k < 2 ^ 31 - 1 ->
  exists st', bracket c st = Ret st' /\ Z.abs (n_paren st') <= k + 1 /\ Z.abs (n_brack st') <= k + 1 /\ Z.abs (n_brace st') <= k + 1.
Proof.
  intros H1 H2 H3 Hk. unfold bracket. cbn zeta.
  repeat (bcase; [rewrite sint_ok by lia; eexists; split; [done|]; cbn [n_paren n_brack n_brace]; lia|]).
  exists st. split; [done|lia].
Qed.

Lemma scan_input_ok i skip st k : Z.abs (n_paren st) <= k -> Z.abs (n_brack st) <= k -> Z.abs (n_brace st) <= k ->
  k + Z.of_nat (length i) < 2 ^ 31 -> exists st', scan_input i skip st = Ret st'.
Proof.
  revert skip st k. induction i as [|c i IH]; intros skip st k H1 H2 H3 Hk; cbn [scan_input length] in *; [eauto|].
  destruct skip as [|skip]; [|apply (IH _ _ k); (done || lia)].
  destruct ((c =? 39) || (c =? 34)).
  - destruct (if c =? 39 then _ else _) as [q tripled]. apply (IH _ _ k); (done || lia).
  - destruct (_ && _); [apply (IH _ _ k); (done || lia)|].
    destruct (in_quote st =? Q_NONE); [|apply (IH _ _ k); (done || lia)].
    destruct (bracket_ok c st k H1 H2 H3 ltac:(lia)) as (st' & -> & ? & ? & ?). cbn [obind]. apply (IH _ _ (k + 1)); lia.
Qed.

Lemma mp_repl_continue_with_input_ok input : Z.of_nat (length input) < 2 ^ 31 ->
  exists b, mp_repl_continue_with_input input = Ret b.
Proof.
  intros Hl. unfold mp_repl_continue_with_input. destruct (char_at input =? 0); [eauto|].
  destruct (scan_input_ok input 0 (mk_input 0 0 0 Q_NONE) 0) as (st & ->); [cbn; lia..|]. cbn [obind].
  destruct (_ || _); [eauto|]. destruct (_ && _); [eauto|]. destruct (_ =? _); eauto.
Qed.

Example continue_examples :
  mp_repl_continue_with_input (chars "if x:") = Ret true /\ mp_repl_continue_with_input (chars "iff = (1)") = Ret false /\
  mp_repl_continue_with_input (chars "f(a, ')'") = Ret true /\ mp_repl_continue_with_input (chars "s = '''a'") = Ret true.
Proof. by vm_compute. Qed.

(** ** Completion *)

(** What the editor gets: the first bytes of [*compl_str], as many as the result says; or, for the result
    [(size_t)-1], the bytes that were printed. *)
Inductive completion := Completed (compl_str : list Z) | ManyMatches (printed : list Z).

Section Repl.
Context {obj : Type}.

(** The interned strings, the module [__main__], the attribute of an object if it has one, and the built-in modules. *)
Record repl_env := mk_env {
  strings : qstr_state;
  mp_module___main__ : obj;
  mp_load_method_protected : obj -> Z -> option obj;
  mp_builtin_module_map : list Z
}.
Context (env : repl_env).

Definition QSTR_TOTAL (s : qstr_state) : Z := match last_pool s with p :: _ => total_prev_len p + len p | [] => 0 end.

Definition test_qstr (o : option obj) (name : Z) : bool :=
  match o with
  | Some o => match mp_load_method_protected env o name with Some _ => true | None => false end
  | None => bool_decide (name ∈ mp_builtin_module_map env)
  end.

(** [strncmp(a, b, n) == 0] *)
Fixpoint strncmp_equal (n : nat) (a b : list Z) : bool :=
  match n, a, b with
  | S n, x :: a, y :: b => (x =? y) && ((x =? 0) || strncmp_equal n a b)
  | O, _, _ => true
  | _, _, _ => false
  end.

(** [s_len <= d_len && strncmp(s_start, d_str, s_len) == 0]; an interned string ends in a 0. *)
Definition starts (s_start d_str : list Z) : bool :=
  (length s_start <=? length d_str)%nat && strncmp_equal (length s_start) s_start (d_str ++ [0]).

(** The loop that shortens [*match_len] to the common prefix. *)
Fixpoint common_prefix (fuel : nat) (match_str d_str : list Z) (j match_len : Z) : outcome Z :=
  match fuel with
  | O => OutOfFuel
  | S fuel =>
    if (j <=? match_len) && (j <=? Z.of_nat (length d_str)) then
      let! a := rd (match_str ++ [0]) j in
      let! b := rd (d_str ++ [0]) j in
      if negb (a =? b) then Ret j else common_prefix fuel match_str d_str (j + 1) match_len
    else Ret match_len
  end.

Record matches := mk_matches { match_str : option (list Z); match_len : Z; q_first : Z; q_last : Z }.

(** The loop of [find_completions] over the strings from [q] on. *)
Fixpoint find_loop (n : nat) (q : Z) (s_start : list Z) (o : option obj) (m : matches) : outcome matches :=
  match n with
  | O => Ret m
  | S n =>
    let! d_str := qstr_data (strings env) q in
    let! c := rd (d_str ++ [0]) 0 in
    let! m :=
      if (length s_start =? 0)%nat && (c =? 95) then Ret m
      else if starts s_start d_str && test_qstr o q then
        let! l :=
          match match_str m with
          | None => Ret (Z.of_nat (length d_str))
          | Some s => common_prefix (length d_str + 2) s d_str (Z.of_nat (length s_start)) (match_len m)
          end in
        Ret (mk_matches (Some (match match_str m with None => d_str | Some s => s end)) l
               (if q_first m =? 0 then q else q_first m) q)
      else Ret m in
    find_loop n (q + 1) s_start o m
  end.

Definition MP_QSTR_ : Z := 1.

Definition find_completions (s_start : list Z) (o : option obj) : outcome matches :=
  find_loop (Z.to_nat (QSTR_TOTAL (strings env) - (MP_QSTR_ + 1))) (MP_QSTR_ + 1) s_start o (mk_matches None 0 0 0).

Definition WORD_SLOT_LEN : Z := 16.
Definition MAX_LINE_LEN : Z := 4 * WORD_SLOT_LEN.

(** [mp_print_str] to the terminal. *)
Definition print_str (s : list Z) : outcome (list Z) := let! s := c_string (s ++ [0]) in Ret (cook s).

(** The loop of [print_completions] over [n] strings from [q] on. *)
Fixpoint print_loop (n : nat) (q : Z) (s_start : list Z) (o : option obj) (line_len : Z) : outcome (list Z) :=
  match n with
  | O => Ret []
  | S n =>
    let! d_str := qstr_data (strings env) q in
    if starts s_start d_str && test_qstr o q then
      let gap := (line_len + WORD_SLOT_LEN - 1) / WORD_SLOT_LEN * WORD_SLOT_LEN - line_len in
      let gap := if gap <? 2 then gap + WORD_SLOT_LEN else gap in
      let d_len := Z.of_nat (length d_str) in
      let! d := print_str d_str in
      if line_len + gap + d_len <=? MAX_LINE_LEN then
        let! rest := print_loop n (q + 1) s_start o (line_len + gap + d_len) in
        Ret (replicate (Z.to_nat gap) 32 ++ d ++ rest)
      else
        let! rest := print_loop n (q + 1) s_start o d_len in
        Ret (cook [10] ++ d ++ rest)
    else print_loop n (q + 1) s_start o line_len
  end.

Definition print_completions (s_start : list Z) (o : option obj) (q_first q_last : Z) : outcome (list Z) :=
  let! words := print_loop (Z.to_nat (q_last + 1 - q_first)) q_first s_start o MAX_LINE_LEN in
  Ret (words ++ cook [10]).

(** The scan backwards over the reversed text: the ["a.b.c"] chain at its end. *)
Fixpoint scan_back (rev : list Z) (chain : list Z) : list Z :=
  match rev with
  | [] => chain
  | c :: rev =>
    if unichar_isalpha c || unichar_isdigit c || (c =? 95) || (c =? 46) then scan_back rev (c :: chain) else chain
  end.

(** The loop over the words of the chain: the last word and the object it belongs to, or a failed lookup. *)
Fixpoint next_words (str word : list Z) (o : obj) : outcome (option (list Z * obj)) :=
  match str with
  | [] => Ret (Some (word, o))
  | c :: str =>
    if c =? 46 then
      let! q := qstr_find_strn (strings env) word in
      if q =? 0 then Ret None
      else match mp_load_method_protected env o q with None => Ret None | Some o => next_words str [] o end
    else next_words str (word ++ [c]) o
  end.

Definition import_str : list Z := [105; 109; 112; 111; 114; 116; 32].

(** The last word begins the text when it is all of it. *)
Definition mp_repl_autocomplete (org_str : list Z) : outcome completion :=
  let! found := next_words (scan_back (reverse org_str) []) [] (mp_module___main__ env) in
  match found with
  | None => Ret (Completed [])
  | Some (s_start, o) =>
    let o := if bool_decide (take 7 org_str = import_str) then None else Some o in
    let s_len := length s_start in
    let! m := find_completions s_start o in
    if q_first m =? 0 then
      if (length s_start =? length org_str)%nat && (0 <? s_len)%nat && (s_len <? 7)%nat && bool_decide (s_start = take s_len import_str)
      then Ret (Completed (drop s_len import_str))
      else Ret (Completed (if (s_len =? 0)%nat then [32; 32; 32; 32] else []))
    else if (q_first m =? q_last m) || (Z.of_nat s_len <? match_len m) then
      match match_str m with
      | Some s => Ret (Completed (take (Z.to_nat (match_len m) - s_len) (drop s_len s)))
      | None => Undef
      end
    else let! printed := print_completions s_start o (q_first m) (q_last m) in Ret (ManyMatches printed)
  end.

(** ** What the editor gets *)

(** Every interned string can be printed; an interned string has 255 bytes at most. *)
Record printable_names : Prop := {
  pn_wf : exists N es, wf_but_root N (strings env) es /\ Forall printable (names es)
}.

Lemma names_short N s es x : wf_but_root N s es -> x ∈ names es -> (length x <= 255)%nat.
Proof.
  intros W Hx. unfold names in Hx. apply list_elem_of_fmap in Hx as (e & -> & He).
  pose proof (wf_short _ _ _ W) as Hs. rewrite list.Forall_forall in Hs.
  specialize (Hs e). enough (e ∈ es) by (specialize (Hs H); cbn in Hs; lia).
  destruct es as [|e0 es]; [done|]. by right.
Qed.

Lemma starts_length s d : starts s d = true -> (length s <= length d)%nat.
Proof. unfold starts. intros [H _]%andb_true_iff. by apply Nat.leb_le. Qed.

Lemma common_prefix_ok fuel s d j l : 0 <= j <= l -> l <= Z.of_nat (length s) -> (1 <= fuel)%nat -> (Z.to_nat (Z.of_nat (length d) + 2 - j) <= fuel)%nat ->
  exists l', common_prefix fuel s d j l = Ret l' /\ j <= l' <= l.
Proof.
  revert j. induction fuel as [|fuel IH]; intros j Hj Hl Hf1 Hf; [lia|]. cbn [common_prefix].
  destruct (Z.leb_spec j l); cbn [andb]; [|lia]. destruct (Z.leb_spec j (Z.of_nat (length d))); [|exists l; split; [done|lia]].
  destruct (rd_in_bounds (s ++ [0]) j) as (a & -> & _); [rewrite length_app; cbn; lia|].
  destruct (rd_in_bounds (d ++ [0]) j) as (b & -> & _); [rewrite length_app; cbn; lia|]. cbn [obind].
  destruct (negb (a =? b)); [exists j; split; [done|lia]|].
  destruct (decide (j + 1 <= l)) as [Hj1|Hj1].
  - destruct (IH (j + 1)) as (l' & -> & ?); [lia..|]. exists l'. split; [done|lia].
  - destruct fuel as [|fuel]; [lia|]. exists l. split; [|lia]. cbn [common_prefix]. by rewrite (proj2 (Z.leb_gt (j + 1) l)) by lia.
Qed.

(** ** The search for matches *)

Section Names.
Context (N : Z) (es : list entry) (W : wf_but_root N (strings env) es).

Lemma total_entries : QSTR_TOTAL (strings env) = Z.of_nat (length es).
Proof.
  pose proof (wf_pools _ _ _ W) as Hp. unfold QSTR_TOTAL. inversion Hp as [p es0 H1 H2 H3 H4 H5 H6 E1 E2|p q prev old new H1 H2 H3 H4 H5 H6 H7 H8 H9 H10 E1 E2].
  - lia.
  - rewrite length_app. lia.
Qed.

Lemma entry_data q : 1 <= q < Z.of_nat (length es) -> exists d, qstr_data (strings env) q = Ret d /\ d ∈ names es /\ (length d <= 255)%nat.
Proof.
  intros Hq. assert (Hl : length (names es) = (length es - 1)%nat) by (unfold names; rewrite length_map; by destruct es; cbn; lia).
  destruct (lookup_lt_is_Some_2 (names es) (Z.to_nat (q - 1))) as [d Hd]; [lia|]. exists d.
  destruct (access_ok N (strings env) es _ d W Hd) as [H _]. replace (Z.of_nat (S (Z.to_nat (q - 1)))) with q in H by lia.
  apply list_elem_of_lookup_2 in Hd. split; [done|]. split; [done|]. by eapply names_short.
Qed.

(** What the loop of [find_completions] has found. *)
Definition found (s_start : list Z) (q : Z) (m : matches) : Prop :=
  (q_first m = 0 /\ match_str m = None) \/
  (1 <= q_first m /\ q_first m <= q_last m < q /\ exists s, match_str m = Some s /\ s ∈ names es /\
     Z.of_nat (length s_start) <= match_len m <= Z.of_nat (length s)).

Lemma find_loop_ok n q s_start o m : 1 <= q -> q + Z.of_nat n <= Z.of_nat (length es) -> found s_start q m ->
  exists m', find_loop n q s_start o m = Ret m' /\ found s_start (q + Z.of_nat n) m'.
Proof.
  revert q m. induction n as [|n IH]; intros q m Hq Hn Hm; cbn [find_loop].
  { exists m. by rewrite Z.add_0_r. }
  destruct (entry_data q) as (d & -> & Hd & _); [lia|]. cbn [obind].
  destruct (rd_in_bounds (d ++ [0]) 0) as (c & -> & _); [rewrite length_app; cbn; lia|]. cbn [obind].
  replace (q + Z.of_nat (S n)) with (q + 1 + Z.of_nat n) by lia.
  assert (Hkeep : found s_start (q + 1) m).
  { destruct Hm as [?|(H1 & H2 & H3)]; [by left|right]. split; [done|]. split; [lia|done]. }
  destruct (_ && (c =? 95)); [cbn [obind]; apply IH; (done || lia)|].
  destruct (starts s_start d) eqn:Es; cbn [andb]; [|cbn [obind]; apply IH; (done || lia)].
  destruct (test_qstr o q); [|cbn [obind]; apply IH; (done || lia)]. apply starts_length in Es.
  destruct Hm as [[Hf Hs]|(H1 & H2 & s & Hs & Hin & Hl)]; rewrite Hs.
  - cbn [obind]. apply IH; [lia|lia|]. right. cbn [q_first q_last match_str match_len]. rewrite Hf. cbn [Z.eqb].
    split; [lia|]. split; [lia|]. exists d. split; [done|]. split; [done|lia].
  - destruct (common_prefix_ok (length d + 2) s d (Z.of_nat (length s_start)) (match_len m)) as (l & -> & Hl'); [lia..|].
    cbn [obind]. apply IH; [lia|lia|]. right. cbn [q_first q_last match_str match_len].
    rewrite (proj2 (Z.eqb_neq (q_first m) 0)) by lia. split; [lia|]. split; [lia|]. exists s. split; [done|]. split; [done|lia].
Qed.

(** ** What is printed *)

(** Text without escape sequences. *)
Definition plain (out : list Z) : Prop := Forall (fun b => 32 <= b <= 126 \/ b = 13 \/ b = 10) out.

Lemma plain_run out u : plain out -> exists u', foldl term_step (NoEsc, u) out = (NoEsc, u').
Proof.
  intros H. revert u. induction H as [|b out Hb _ IH]; intros u; [by exists u|]. cbn [foldl].
  assert (exists u', term_step (NoEsc, u) b = (NoEsc, u')) as [u' ->]; [|apply IH].
  unfold term_step. rewrite (proj2 (Z.eqb_neq b 27)) by lia. repeat case_match; eauto.
Qed.

Lemma plain_end out : plain out -> forall u, foldl term_step (NoEsc, u) (out ++ [13; 10]) = (NoEsc, mk_term [] 0).
Proof. intros H u. rewrite foldl_app. destruct (plain_run out u H) as [u' ->]. done. Qed.

Lemma print_str_ok d : printable d -> exists out, print_str d = Ret out /\ plain out.
Proof.
  intros H. unfold print_str. assert (c_string (d ++ [0]) = Ret d) as ->.
  { induction H as [|b d Hb _ IH]; [done|]. cbn [app c_string]. rewrite (proj2 (Z.eqb_neq b 0)) by lia. by rewrite IH. }
  cbn [obind]. eexists. split; [done|]. unfold cook, plain. induction H as [|b d Hb _ IH]; [constructor|].
  cbn [base.mbind list_bind]. rewrite (proj2 (Z.eqb_neq b 10)) by lia. cbn [app]. constructor; [by left|done].
Qed.

Lemma print_loop_ok n q s_start o line_len : Forall printable (names es) -> 1 <= q -> q + Z.of_nat n <= Z.of_nat (length es) ->
  exists out, print_loop n q s_start o line_len = Ret out /\ plain out.
Proof.
  intros Hp. revert q line_len. induction n as [|n IH]; intros q line_len Hq Hn; cbn [print_loop]; [eexists; split; [done|constructor]|].
  destruct (entry_data q) as (d & -> & Hd & _); [lia|]. cbn [obind].
  destruct (starts s_start d && test_qstr o q); [|apply IH; lia].
  destruct (print_str_ok d) as (od & -> & Hod); [rewrite list.Forall_forall in Hp; by apply Hp|]. cbn [obind].
  destruct (_ <=? MAX_LINE_LEN).
  - match goal with |- context [print_loop n ?q ?s ?o ?l] => destruct (IH q l) as (rest & -> & Hr); [lia|lia|] end. cbn [obind].
    eexists. split; [done|]. apply list.Forall_app; split; [by apply Forall_replicate; left|by apply list.Forall_app].
  - match goal with |- context [print_loop n ?q ?s ?o ?l] => destruct (IH q l) as (rest & -> & Hr); [lia|lia|] end. cbn [obind].
    eexists. split; [done|]. apply list.Forall_app; split; [repeat constructor; lia|by apply list.Forall_app].
Qed.

Lemma next_words_ok str word o : exists r, next_words str word o = Ret r.
Proof.
  revert word o. induction str as [|c str IH]; intros word o; cbn [next_words]; [eauto|]. destruct (c =? 46); [|apply IH].
  destruct (find_strn_ok N (strings env) es word W) as (q & -> & _). cbn [obind]. destruct (q =? 0); [eauto|].
  destruct (mp_load_method_protected env o q); eauto.
Qed.

(** Completion never goes wrong: it gives at most 255 characters that can be printed, or prints whole lines. *)
Lemma mp_repl_autocomplete_ok str : Forall printable (names es) ->
  exists c, mp_repl_autocomplete str = Ret c /\
    match c with
    | Completed x => printable x /\ (length x <= 255)%nat
    | ManyMatches printed => forall u, foldl term_step (NoEsc, u) printed = (NoEsc, mk_term [] 0)
    end.
Proof.
  intros Hp. unfold mp_repl_autocomplete. destruct (next_words_ok (scan_back (reverse str) []) [] (mp_module___main__ env)) as (r & ->).
  cbn [obind]. destruct r as [[s_start o]|]; [|eexists; split; [done|split; [constructor|cbn; lia]]].
  set (o' := if bool_decide _ then None else Some o). pose proof total_entries as Ht. pose proof (wf_null _ _ _ W) as (e0 & es' & Hes & _).
  assert (Hlen : (1 <= length es)%nat) by (rewrite Hes; cbn; lia). unfold find_completions, MP_QSTR_.
  assert (exists m, find_loop (Z.to_nat (QSTR_TOTAL (strings env) - (1 + 1))) (1 + 1) s_start o' (mk_matches None 0 0 0) = Ret m /\
    found s_start (Z.of_nat (length es)) m) as (m & -> & Hm).
  { destruct (decide (length es = 1)%nat) as [E1|E1].
    - rewrite Ht, E1. cbn. eexists. split; [done|by left].
    - destruct (find_loop_ok (Z.to_nat (QSTR_TOTAL (strings env) - (1 + 1))) (1 + 1) s_start o' (mk_matches None 0 0 0)) as (m & -> & Hm);
        [lia|lia|by left|]. exists m. split; [done|]. rewrite Ht in Hm.
      by replace (1 + 1 + Z.of_nat (Z.to_nat (Z.of_nat (length es) - (1 + 1)))) with (Z.of_nat (length es)) in Hm by lia. }
  cbn [obind]. destruct Hm as [[Hf Hs]|(H1 & H2 & s & Hs & Hin & Hl)].
  - rewrite Hf. cbn [Z.eqb]. destruct (_ && _ && _ && _); eexists; (split; [done|]); split; try done.
    + apply Forall_drop. repeat constructor; lia.
    + rewrite length_drop. cbn. lia.
    + destruct (length s_start =? 0)%nat; repeat constructor; lia.
    + destruct (length s_start =? 0)%nat; cbn; lia.
  - rewrite (proj2 (Z.eqb_neq (q_first m) 0)) by lia. destruct (_ || _).
    + rewrite Hs. eexists. split; [done|]. rewrite list.Forall_forall in Hp. split; [by apply Forall_take, Forall_drop, Hp|].
      pose proof (names_short _ _ _ _ W Hin). rewrite length_take, length_drop. lia.
    + unfold print_completions.
      destruct (print_loop_ok (Z.to_nat (q_last m + 1 - q_first m)) (q_first m) s_start o' MAX_LINE_LEN Hp) as (out & -> & Ho); [lia|lia|].
      cbn [obind]. change (cook [10]) with [13; 10]. eexists. split; [done|]. cbn beta iota. intros u. by apply plain_end.
Qed.
End Names.
End Repl.
Arguments repl_env : clear implicits.

(** ** An example: no attributes at all; ["im"] at the start of a line is completed to ["import "]. *)

Definition sample_env : repl_env unit := mk_env QstrSpec.sample_init tt (fun _ _ => None) [].

Lemma sample_env_names : printable_names sample_env.
Proof.
  destruct (qstr_init_ok _ _ _ _ QstrSpec.sample_rom_ok) as [[W _] Hn]. constructor. eexists _, _. split; [exact W|]. rewrite Hn.
  repeat constructor; lia.
Qed.
