(* ===== verification/Readline.v ===== *)
(** * The line editor ([shared/readline/readline.c])

    [readline_process_char] is a state machine over the received characters: it edits the line
    (a vstr whose first [orig_line_len] bytes are earlier lines), and sends the terminal the
    bytes that redraw it.  The definitions follow the port's configuration (tab completion, no
    Emacs keys and no auto-indent).  Completion is [Repl.mp_repl_autocomplete]. *)

From S2P Require Import Prelude Malloc Vstr Hal Repl.
Local Open Scope Z_scope.

Inductive eseq := ESEQ_NONE | ESEQ_ESC | ESEQ_ESC_BRACKET | ESEQ_ESC_BRACKET_DIGIT | ESEQ_ESC_O.

Definition CHAR_CTRL_A := 1.
Definition CHAR_CTRL_C := 3.
Definition CHAR_CTRL_E := 5.

Definition READLINE_HIST_SIZE : Z := 8.

(** What completion reads: the interned strings, the modules and the attributes of objects. *)
Class Completer := { completer_obj : Type; completer_env : repl_env completer_obj }.

Section Readline.
Context {allocator : Allocator Z} {completer : Completer}.

Record readline_t := mk_rl {
  line : vstr_t;
  orig_line_len : Z;
  escape_seq : eseq;
  hist_cur : Z;
  cursor_pos : Z;
  escape_seq_buf : Z;
  prompt : list Z
}.

(** The editor, the history (most recent first, NULL as [None]) and the bytes sent so far. *)
Record state := mk_state { rl : readline_t; readline_hist : list (option (list Z)); out : list Z }.

Definition set_line (s : state) (v : vstr_t) : state :=
  let r := rl s in
  mk_state (mk_rl v (orig_line_len r) (escape_seq r) (hist_cur r) (cursor_pos r) (escape_seq_buf r) (prompt r))
    (readline_hist s) (out s).
Definition set_esc (s : state) (e : eseq) : state :=
  let r := rl s in
  mk_state (mk_rl (line r) (orig_line_len r) e (hist_cur r) (cursor_pos r) (escape_seq_buf r) (prompt r))
    (readline_hist s) (out s).
Definition set_esc_buf (s : state) (c : Z) : state :=
  let r := rl s in
  mk_state (mk_rl (line r) (orig_line_len r) (escape_seq r) (hist_cur r) (cursor_pos r) c (prompt r))
    (readline_hist s) (out s).
Definition set_hist_cur (s : state) (h : Z) : state :=
  let r := rl s in
  mk_state (mk_rl (line r) (orig_line_len r) (escape_seq r) h (cursor_pos r) (escape_seq_buf r) (prompt r))
    (readline_hist s) (out s).
Definition set_cursor (s : state) (p : Z) : state :=
  let r := rl s in
  mk_state (mk_rl (line r) (orig_line_len r) (escape_seq r) (hist_cur r) p (escape_seq_buf r) (prompt r))
    (readline_hist s) (out s).
Definition send (s : state) (o : list Z) : state := mk_state (rl s) (readline_hist s) (out s ++ o).

(** [mp_hal_stdout_tx_strn(buf + pos, n)] *)
Definition tx_range (s : state) (pos n : Z) : outcome state :=
  let b := buf (line (rl s)) in
  if (0 <=? pos) && (0 <=? n) && (pos + n <=? Z.of_nat (length b))
  then Ret (send s (take (Z.to_nat n) (drop (Z.to_nat pos) b))) else Undef.

(** [str_dup_maybe]: NULL when there is no memory. *)
Definition str_dup_maybe (str : list Z) : option (list Z) :=
  if m_renew_ok (Z.of_nat (length str) + 1) then Some str else None.

Definition readline_push_history (line : list Z) (h : list (option (list Z))) : list (option (list Z)) :=
  if negb (bool_decide (line = [])) &&
     match h with Some old :: _ => negb (bool_decide (old = line)) | _ => true end
  then
    match str_dup_maybe line with
    | Some most_recent_hist => Some most_recent_hist :: take (Z.to_nat (READLINE_HIST_SIZE - 1)) h
    | None => h
    end
  else h.

(** What to redraw: [redraw_step_back], [redraw_from_cursor], [redraw_step_forward]. *)
Record redraw := mk_redraw { step_back : Z; from_cursor : bool; step_forward : Z }.
Definition no_redraw : redraw := mk_redraw 0 false 0.

(** A character either makes [readline_process_char] return, or leads to the redraw. *)
Inductive action := AReturn (r : Z) | ARedraw (d : redraw).

(** The history entry [i], if there is one. *)
Definition hist_entry (s : state) (i : Z) : option (list Z) :=
  if i <? 0 then None else mjoin (readline_hist s !! Z.to_nat i).

(** The labels [home_key], [end_key] and [delete_key]; all leave the escape sequence. *)
Definition home_key (s : state) : outcome (state * action) :=
  Ret (set_esc s ESEQ_NONE, ARedraw (mk_redraw (cursor_pos (rl s) - orig_line_len (rl s)) false 0)).
Definition end_key (s : state) : outcome (state * action) :=
  Ret (set_esc s ESEQ_NONE, ARedraw (mk_redraw 0 false (len (line (rl s)) - cursor_pos (rl s)))).
Definition delete_key (s : state) : outcome (state * action) :=
  if cursor_pos (rl s) <? len (line (rl s)) then
    let! v := vstr_cut_out_bytes (line (rl s)) (cursor_pos (rl s)) 1 in
    Ret (set_esc (set_line s v) ESEQ_NONE, ARedraw (mk_redraw 0 true 0))
  else Ret (set_esc s ESEQ_NONE, ARedraw no_redraw).

Definition set_len (v : vstr_t) (n : Z) : vstr_t := mk_vstr (alloc v) n (buf v) (fixed_buf v).

(** [vstr_add_str] of a history entry, a 0-terminated copy. *)
Definition add_hist (v : vstr_t) (h : list Z) : outcome vstr_t := vstr_add_str v (h ++ [0]).

Definition hist_redraw (s : state) (v : vstr_t) : redraw :=
  mk_redraw (cursor_pos (rl s) - orig_line_len (rl s)) true (len v - orig_line_len (rl s)).

Definition up_arrow_key (s : state) : outcome (state * action) :=
  let h := hist_cur (rl s) + 1 in
  match (if h <? READLINE_HIST_SIZE then hist_entry s h else None) with
  | Some e =>
    let! v := add_hist (set_len (line (rl s)) (orig_line_len (rl s))) e in
    Ret (set_line (set_hist_cur s h) v, ARedraw (hist_redraw s v))
  | None => Ret (s, ARedraw no_redraw)
  end.

Definition down_arrow_key (s : state) : outcome (state * action) :=
  if 0 <=? hist_cur (rl s) then
    let h := hist_cur (rl s) - 1 in
    let v := vstr_cut_tail_bytes (line (rl s)) (len (line (rl s)) - orig_line_len (rl s)) in
    let! v :=
      if 0 <=? h then
        match hist_entry s h with Some e => add_hist v e | None => Undef end
      else Ret v in
    Ret (set_line (set_hist_cur s h) v, ARedraw (hist_redraw s v))
  else Ret (s, ARedraw no_redraw).

(** [for (i = 0; i < compl_len; ++i) vstr_ins_byte(rl.line, rl.cursor_pos + i, *compl_str++);] *)
Fixpoint insert_completion (compl_str : list Z) (pos : Z) (v : vstr_t) : outcome vstr_t :=
  match compl_str with
  | [] => Ret v
  | b :: compl_str => let! v := vstr_ins_byte v pos b in insert_completion compl_str (pos + 1) v
  end.

(** The text from the start of the line being edited to the cursor. *)
Definition before_cursor (s : state) : list Z :=
  let r := rl s in
  take (Z.to_nat (cursor_pos r - orig_line_len r)) (drop (Z.to_nat (orig_line_len r)) (buf (line r))).

Definition tab_key (s : state) : outcome (state * action) :=
  let r := rl s in
  let! c := mp_repl_autocomplete completer_env (before_cursor s) in
  match c with
  | ManyMatches printed =>
    let s := send s printed in
    let s := send s (prompt r) in
    let! s := tx_range s (orig_line_len r) (cursor_pos r - orig_line_len r) in
    Ret (s, ARedraw (mk_redraw 0 true 0))
  | Completed compl_str =>
    if (length compl_str =? 0)%nat then Ret (s, ARedraw no_redraw)
    else
      let! v := insert_completion compl_str (cursor_pos r) (line r) in
      Ret (set_line s v, ARedraw (mk_redraw 0 true (Z.of_nat (length compl_str))))
  end.

(** The characters received outside an escape sequence. *)
Definition process_plain (c : Z) (s : state) : outcome (state * action) :=
  let r := rl s in
  if (CHAR_CTRL_A <=? c) && (c <=? CHAR_CTRL_E) && (vstr_len (line r) =? orig_line_len r) then Ret (s, AReturn c)
  else if c =? CHAR_CTRL_A then home_key s
  else if c =? CHAR_CTRL_C then Ret (s, AReturn c)
  else if c =? CHAR_CTRL_E then end_key s
  else if c =? 13 then
    let s := send s [13; 10] in
    let! v := vstr_null_terminated_str (line r) in
    let! entry := c_string (drop (Z.to_nat (orig_line_len r)) (buf v)) in
    let s := set_line s v in
    Ret (mk_state (rl s) (readline_push_history entry (readline_hist s)) (out s), AReturn 0)
  else if c =? 27 then Ret (set_esc s ESEQ_ESC, ARedraw no_redraw)
  else if (c =? 8) || (c =? 127) then
    if orig_line_len r <? cursor_pos r then
      let nspace := 1 in
      let! v := vstr_cut_out_bytes (line r) (cursor_pos r - nspace) nspace in
      Ret (set_line s v, ARedraw (mk_redraw nspace true 0))
    else Ret (s, ARedraw no_redraw)
  else if c =? 9 then tab_key s
  else if (32 <=? c) && (c <=? 126) then
    let! v := vstr_ins_char (line r) (cursor_pos r) c in
    Ret (set_line s v, ARedraw (mk_redraw 0 true 1))
  else Ret (s, ARedraw no_redraw).

Definition process_esc (c : Z) (s : state) : outcome (state * action) :=
  if c =? 91 then Ret (set_esc s ESEQ_ESC_BRACKET, ARedraw no_redraw)
  else if c =? 79 then Ret (set_esc s ESEQ_ESC_O, ARedraw no_redraw)
  else Ret (set_esc s ESEQ_NONE, ARedraw no_redraw).

Definition process_bracket (c : Z) (s : state) : outcome (state * action) :=
  if (48 <=? c) && (c <=? 57) then
    Ret (set_esc_buf (set_esc s ESEQ_ESC_BRACKET_DIGIT) c, ARedraw no_redraw)
  else
    let s := set_esc s ESEQ_NONE in
    if c =? 65 then up_arrow_key s
    else if c =? 66 then down_arrow_key s
    else if c =? 67 then
      Ret (s, ARedraw (if cursor_pos (rl s) <? len (line (rl s)) then mk_redraw 0 false 1 else no_redraw))
    else if c =? 68 then
      Ret (s, ARedraw (if orig_line_len (rl s) <? cursor_pos (rl s) then mk_redraw 1 false 0 else no_redraw))
    else if c =? 72 then home_key s
    else if c =? 70 then end_key s
    else Ret (s, ARedraw no_redraw).

Definition process_digit (c : Z) (s : state) : outcome (state * action) :=
  let b := escape_seq_buf (rl s) in
  if c =? 126 then
    if (b =? 49) || (b =? 55) then home_key s
    else if (b =? 52) || (b =? 56) then end_key s
    else if b =? 51 then delete_key s
    else Ret (set_esc s ESEQ_NONE, ARedraw no_redraw)
  else Ret (set_esc s ESEQ_NONE, ARedraw no_redraw).

Definition process_O (c : Z) (s : state) : outcome (state * action) :=
  if c =? 72 then home_key s
  else if c =? 70 then end_key s
  else Ret (set_esc s ESEQ_NONE, ARedraw no_redraw).

(** The redraw at the end of [readline_process_char]. *)
Definition do_redraw (last_line_len : Z) (d : redraw) (s : state) : outcome state :=
  let! s :=
    if 0 <? step_back d then
      let! o := mp_hal_move_cursor_back (step_back d) in
      Ret (set_cursor (send s o) (cursor_pos (rl s) - step_back d))
    else Ret s in
  let n := len (line (rl s)) in
  if from_cursor d then
    let s := if n <? last_line_len
             then send s (mp_hal_erase_line_from_cursor (last_line_len - cursor_pos (rl s))) else s in
    let! s := tx_range s (cursor_pos (rl s)) (n - cursor_pos (rl s)) in
    let! o := mp_hal_move_cursor_back (n - (cursor_pos (rl s) + step_forward d)) in
    Ret (set_cursor (send s o) (cursor_pos (rl s) + step_forward d))
  else if 0 <? step_forward d then
    let! s := tx_range s (cursor_pos (rl s)) (step_forward d) in
    Ret (set_cursor s (cursor_pos (rl s) + step_forward d))
  else Ret s.

Definition readline_process_char (c : Z) (s : state) : outcome (state * Z) :=
  let last_line_len := len (line (rl s)) in
  let! '(s, a) :=
    match escape_seq (rl s) with
    | ESEQ_NONE => process_plain c s
    | ESEQ_ESC => process_esc c s
    | ESEQ_ESC_BRACKET => process_bracket c s
    | ESEQ_ESC_BRACKET_DIGIT => process_digit c s
    | ESEQ_ESC_O => process_O c s
    end in
  match a with
  | AReturn r => Ret (s, r)
  | ARedraw d => let! s := do_redraw last_line_len d s in Ret (s, -1)
  end.

Definition readline_init (v : vstr_t) (prompt : list Z) (s : state) : state :=
  send (mk_state (mk_rl v (len v) ESEQ_NONE (-1) (len v) 0 prompt) (readline_hist s) (out s)) prompt.

Definition readline_note_newline (prompt : list Z) (s : state) : state :=
  let r := rl s in
  send (mk_state (mk_rl (line r) (len (line r)) (escape_seq r) (hist_cur r) (len (line r)) (escape_seq_buf r) prompt)
          (readline_hist s) (out s)) prompt.

(** [readline] over the characters that will be received; [None] if they run out. *)
Fixpoint readline_loop (input : list Z) (s : state) : outcome (option (state * Z)) :=
  match input with
  | [] => Ret None
  | c :: input =>
    let! '(s, r) := readline_process_char c s in
    if 0 <=? r then Ret (Some (s, r)) else readline_loop input s
  end.

Definition readline (v : vstr_t) (prompt : list Z) (input : list Z) (s : state) : outcome (option (state * Z)) :=
  readline_loop input (readline_init v prompt s).

(** ** The screen *)

(** The text being edited and the cursor's place in it. *)
Definition text (s : state) : list Z := drop (Z.to_nat (orig_line_len (rl s))) (str (line (rl s))).
Definition cursor (s : state) : nat := Z.to_nat (cursor_pos (rl s) - orig_line_len (rl s)).

(** The row the user should see. *)
Definition screen (s : state) : term :=
  mk_term (prompt (rl s) ++ text s) (length (prompt (rl s)) + cursor s).

(** The editor's invariant. *)
Record rl_wf (s : state) : Prop := {
  rw_line : Vstr.wf (line (rl s));
  rw_cursor : 0 <= orig_line_len (rl s) <= cursor_pos (rl s) /\ cursor_pos (rl s) <= len (line (rl s));
  rw_text : printable (text s);
  rw_prompt : printable (prompt (rl s));
  rw_hist : length (readline_hist s) = Z.to_nat READLINE_HIST_SIZE /\
            forall i h, readline_hist s !! i = Some (Some h) -> printable h;
  rw_hist_cur : -1 <= hist_cur (rl s) < READLINE_HIST_SIZE /\
    forall i, 0 <= i <= hist_cur (rl s) -> is_Some (hist_entry s i)
}.
End Readline.
