(* ===== verification/ObjDeque.v ===== *)
(** * Bounded queues ([py/objdeque.c])

    A deque of maximal length [maxlen] is a circular array of [maxlen + 1] slots, of which one is
    always free.  A full deque drops its oldest item, or raises if it was made with the flag that
    checks for overflow.  [deque_refines]: runs of operations agree with a bounded queue. *)

From S2P Require Import Prelude Malloc.
Local Open Scope Z_scope.

Section Deque.
Context {obj : Type} {allocator : Allocator obj} {byte_heap : Allocator Z}.
Variable MP_OBJ_NULL : obj.

Record mp_obj_deque_t := mk_deque { alloc : Z; i_get : Z; i_put : Z; items : list obj; flags : Z }.

Definition FLAG_CHECK_OVERFLOW : Z := 1.

(** The object and its array are cleared by the allocator, so the flags are 0 if they are not given;
    [empty_tuple] says whether the first argument is the empty tuple. *)
Definition deque_make_new (empty_tuple : bool) (maxlen : Z) (flags : option Z) : outcome mp_obj_deque_t :=
  if negb empty_tuple then Raise ValueError else
  if maxlen <? 0 then Raise ValueError else
  let! _ := m_malloc (A := Z) 1 24 in
  let alloc := wrap 32 (maxlen + 1) in
  let! a := m_new (A := obj) 4 alloc in
  Ret (mk_deque alloc 0 0 (replicate (length a) MP_OBJ_NULL) (match flags with Some f => wrap 32 f | None => 0 end)).

Definition deque_bool (self : mp_obj_deque_t) : bool := negb (i_get self =? i_put self).

Definition deque_len (self : mp_obj_deque_t) : Z :=
  let len := swrap 32 (i_put self - i_get self) in
  if len <? 0 then swrap 32 (len + alloc self) else len.

Definition mp_obj_deque_append (self : mp_obj_deque_t) (arg : obj) : outcome mp_obj_deque_t :=
  let new_i_put := wrap 32 (i_put self + 1) in
  let new_i_put := if new_i_put =? alloc self then 0 else new_i_put in
  if negb (Z.land (flags self) FLAG_CHECK_OVERFLOW =? 0) && (new_i_put =? i_get self) then Raise IndexError else
  let! a := wr (items self) (i_put self) arg in
  let get :=
    if i_get self =? new_i_put then
      let g := wrap 32 (i_get self + 1) in if g =? alloc self then 0 else g
    else i_get self in
  Ret (mk_deque (alloc self) get new_i_put a (flags self)).

Definition deque_popleft (self : mp_obj_deque_t) : outcome (obj * mp_obj_deque_t) :=
  if i_get self =? i_put self then Raise IndexError else
  let! ret := rd (items self) (i_get self) in
  let! a := wr (items self) (i_get self) MP_OBJ_NULL in
  let g := wrap 32 (i_get self + 1) in
  Ret (ret, mk_deque (alloc self) (if g =? alloc self then 0 else g) (i_put self) a (flags self)).

(** ** Bounded queues *)

Record queue := mk_queue { maxlen : nat; checked : bool; contents : list obj }.

Definition queue_append (q : queue) (v : obj) : outcome queue :=
  if (length (contents q) <? maxlen q)%nat then Ret (mk_queue (maxlen q) (checked q) (contents q ++ [v]))
  else if checked q then Raise IndexError
  else Ret (mk_queue (maxlen q) (checked q) (tail (contents q ++ [v]))).

Definition queue_popleft (q : queue) : outcome (obj * queue) :=
  match contents q with
  | [] => Raise IndexError
  | v :: vs => Ret (v, mk_queue (maxlen q) (checked q) vs)
  end.

(** ** Representation *)

(** The items [q] of the array: in one part, or around its end. *)
Inductive holds (d : mp_obj_deque_t) : list obj -> Prop :=
| holds_flat l1 q l2 : items d = l1 ++ q ++ l2 -> i_get d = Z.of_nat (length l1) -> i_put d = Z.of_nat (length (l1 ++ q)) ->
    (0 < length l2)%nat -> holds d q
| holds_around q1 q2 l : items d = q2 ++ l ++ q1 -> i_put d = Z.of_nat (length q2) -> i_get d = Z.of_nat (length (q2 ++ l)) ->
    (0 < length l)%nat -> (0 < length q1)%nat -> holds d (q1 ++ q2).

Record repr (d : mp_obj_deque_t) (q : queue) : Prop := {
  repr_holds : holds d (contents q);
  repr_alloc : alloc d = Z.of_nat (S (maxlen q));
  repr_items : Z.of_nat (length (items d)) = alloc d;
  repr_small : alloc d < 2 ^ 30;
  repr_flags : negb (Z.land (flags d) FLAG_CHECK_OVERFLOW =? 0) = checked q
}.

Lemma deque_repr_length d q : repr d q -> (length (contents q) <= maxlen q)%nat.
Proof. intros [H Ha Hi _ _]. revert H. generalize (contents q). intros c H. destruct H as [l1 q' l2 E|q1 q2 l E]; rewrite E in Hi; lens. Qed.

Lemma make_new_ok n fl : 0 <= n < 2 ^ 30 - 1 ->
  deque_make_new true n fl = Raise MemoryError \/
  exists d, deque_make_new true n fl = Ret d /\
    repr d (mk_queue (Z.to_nat n) (match fl with Some f => Z.odd f | None => false end) []).
Proof.
  intros Hn. unfold deque_make_new. cbn [negb]. rewrite (proj2 (Z.ltb_ge n 0)) by lia.
  unfold m_malloc. cbn [Z.eqb]. destruct (m_renew_ok 24); [|by left]. cbn [obind]. rewrite wrap_small, m_new_ok by lia.
  destruct (m_renew_ok _); [|by left]. cbn [obind]. right. eexists. split; [done|].
  rewrite length_replicate. split; cbn; try lia.
  - by apply (holds_flat _ [] [] (replicate (Z.to_nat (n + 1)) MP_OBJ_NULL)); [..|rewrite length_replicate; lia].
  - rewrite length_replicate. lia.
  - destruct fl as [f|]; [|done]. change FLAG_CHECK_OVERFLOW with (2 ^ 1 - 1). rewrite land_mask by lia.
    unfold wrap. change (2 ^ 1) with 2. rewrite <- Znumtheory.Zmod_div_mod by (try lia; exists (2 ^ 31); lia).
    rewrite Zmod_odd. by destruct (Z.odd f).
Qed.

Lemma bool_ok d q : repr d q -> deque_bool d = negb (bool_decide (contents q = [])).
Proof.
  intros [H _ _ _ _]. unfold deque_bool. f_equal. revert H. generalize (contents q). intros c H. destruct H as [l1 q' l2 _ -> -> _|q1 q2 l _ -> -> Hl Hq].
  - destruct q'; [rewrite app_nil_r; by rewrite Z.eqb_refl|]. rewrite bool_decide_eq_false_2 by done. apply Z.eqb_neq. lens.
  - rewrite bool_decide_eq_false_2 by (destruct q1; [cbn in Hq; lia|done]). apply Z.eqb_neq. lens.
Qed.

Lemma len_ok d q : repr d q -> deque_len d = Z.of_nat (length (contents q)).
Proof.
  intros [H Ha Hi Hs _]. unfold deque_len. revert H. generalize (contents q). intros c H. destruct H as [l1 q' l2 E -> -> Hl|q1 q2 l E -> -> Hl Hq]; rewrite E in Hi.
  - autorewrite with lens in *. rewrite swrap_small by lia. cbn zeta. rewrite (proj2 (Z.ltb_ge _ 0)) by lia. lia.
  - autorewrite with lens in *. rewrite swrap_small by lia. cbn zeta. rewrite (proj2 (Z.ltb_lt _ 0)) by lia.
    rewrite swrap_small by lia. lia.
Qed.

(** The conditions of a representation, after its parts are given. *)
Ltac parts := cbn; rewrite ?app_nil_r, <- ?app_assoc; first [done | lens].

(** The index after the free slot. *)
Lemma next_index d i : 0 <= i < alloc d -> alloc d < 2 ^ 30 ->
  (let n := wrap 32 (i + 1) in if n =? alloc d then 0 else n) = (if i + 1 =? alloc d then 0 else i + 1).
Proof. intros. cbn zeta. by rewrite wrap_small by lia. Qed.

Lemma append_flat d m ck l1 c l2 v :
  items d = l1 ++ c ++ l2 -> i_get d = Z.of_nat (length l1) -> i_put d = Z.of_nat (length (l1 ++ c)) -> (0 < length l2)%nat ->
  repr d (mk_queue m ck c) ->
  match queue_append (mk_queue m ck c) v with
  | Ret q' => exists d', mp_obj_deque_append d v = Ret d' /\ repr d' q'
  | r => mp_obj_deque_append d v = Raise IndexError /\ r = Raise IndexError
  end.
Proof.
  intros E Eg Ep Hl [_ Ha Hi Hs Hf]. unfold queue_append, mp_obj_deque_append. cbn [contents maxlen checked] in *. rewrite Hf.
  pose proof Hi as Hi'. rewrite E in Hi'. autorewrite with lens in Hi'. rewrite !next_index by lens.
  destruct l2 as [|x l2]; [cbn in Hl; lia|]. cbn [length] in *. rewrite E, (app_assoc l1 c), Ep, wr_middle. cbn [obind].
  destruct (Z.eqb_spec (Z.of_nat (length (l1 ++ c)) + 1) (alloc d)) as [Ew|Ew]; autorewrite with lens in Ew.
  - assert (l2 = []) as -> by (destruct l2; [done|cbn in *; lia]). destruct l1 as [|y l1].
    + rewrite (proj2 (Nat.ltb_ge _ _)) by (cbn in *; lia). rewrite Eg. cbn [length Z.of_nat Z.eqb]. rewrite andb_true_r.
      destruct ck; [done|]. eexists. split; [done|]. destruct c as [|y c]; cbn [length app tail] in *.
      * split; cbn; try (done || lia). rewrite (proj2 (Z.eqb_eq 1 _)) by lia. by apply (holds_flat _ [] [] [v]).
      * rewrite (proj2 (Z.eqb_neq (0 + 1) _)) by lia. split; cbn; try (done || lens).
        rewrite <- (app_nil_r (c ++ [v])). apply (holds_around _ (c ++ [v]) [] [y]); parts.
    + rewrite (proj2 (Nat.ltb_lt _ _)) by (cbn in *; lia). rewrite Eg, (proj2 (Z.eqb_neq 0 _)), (proj2 (Z.eqb_neq _ 0)) by (cbn; lia).
      rewrite andb_false_r. eexists. split; [done|]. split; cbn [contents maxlen checked alloc i_get i_put items flags]; try (done || lens).
      rewrite <- (app_nil_r (c ++ [v])). apply (holds_around _ (c ++ [v]) [] (y :: l1)); parts.
  - assert (0 < length l2)%nat by (cbn [length] in *; lia). rewrite (proj2 (Nat.ltb_lt _ _)) by lia.
    rewrite Eg, (proj2 (Z.eqb_neq (_ + 1) _)), (proj2 (Z.eqb_neq _ (_ + 1))) by lens. rewrite andb_false_r.
    eexists. split; [done|]. split; cbn [contents maxlen checked alloc i_get i_put items flags]; try (done || lens).
    apply (holds_flat _ l1 (c ++ [v]) l2); parts.
Qed.

Lemma append_around d m ck q1 q2 l v :
  items d = q2 ++ l ++ q1 -> i_put d = Z.of_nat (length q2) -> i_get d = Z.of_nat (length (q2 ++ l)) -> (0 < length l)%nat -> (0 < length q1)%nat ->
  repr d (mk_queue m ck (q1 ++ q2)) ->
  match queue_append (mk_queue m ck (q1 ++ q2)) v with
  | Ret q' => exists d', mp_obj_deque_append d v = Ret d' /\ repr d' q'
  | r => mp_obj_deque_append d v = Raise IndexError /\ r = Raise IndexError
  end.
Proof.
  intros E Ep Eg Hl Hq [_ Ha Hi Hs Hf]. unfold queue_append, mp_obj_deque_append. cbn [contents maxlen checked] in *. rewrite Hf.
  pose proof Hi as Hi'. rewrite E in Hi'. autorewrite with lens in Hi', Eg. rewrite !next_index by lia. rewrite length_app.
  destruct l as [|x l]; [cbn in Hl; lia|]. cbn [length] in *. rewrite E, Ep. cbn [app]. rewrite wr_middle. cbn [obind].
  rewrite (proj2 (Z.eqb_neq (_ + 1) (alloc d))) by lia. destruct l as [|z l]; cbn [length] in *.
  - rewrite (proj2 (Z.eqb_eq (_ + 1) (i_get d))), (proj2 (Z.eqb_eq (i_get d) (_ + 1))) by lia. rewrite andb_true_r.
    rewrite (proj2 (Nat.ltb_ge _ _)) by lia. destruct ck; [done|]. eexists. split; [done|].
    destruct q1 as [|y q1]; [cbn in Hq; lia|]. cbn [app tail length] in *. destruct q1 as [|z q1]; cbn [length app] in *.
    + rewrite (proj2 (Z.eqb_eq _ (alloc d))) by lia. split; cbn; try (done || lens).
      apply (holds_flat _ [] (q2 ++ [v]) [y]); parts.
    + rewrite (proj2 (Z.eqb_neq _ (alloc d))) by lia. split; cbn; try (done || lens).
      change (z :: (q1 ++ q2) ++ [v]) with (((z :: q1) ++ q2) ++ [v]). rewrite <- app_assoc.
      apply (holds_around _ (z :: q1) (q2 ++ [v]) [y]); parts.
  - rewrite (proj2 (Z.eqb_neq (_ + 1) (i_get d))), (proj2 (Z.eqb_neq (i_get d) (_ + 1))) by lia. rewrite andb_false_r.
    rewrite (proj2 (Nat.ltb_lt _ _)) by lia. eexists. split; [done|]. split; cbn [contents maxlen checked alloc i_get i_put items flags]; try (done || lens).
    rewrite <- app_assoc. apply (holds_around _ q1 (q2 ++ [v]) (z :: l)); parts.
Qed.

Lemma deque_append_ok d q v : repr d q ->
  match queue_append q v with
  | Ret q' => exists d', mp_obj_deque_append d v = Ret d' /\ repr d' q'
  | r => mp_obj_deque_append d v = Raise IndexError /\ r = Raise IndexError
  end.
Proof.
  intros Hr. pose proof (repr_holds _ _ Hr) as H. destruct q as [m ck c]. cbn [contents] in H. destruct H.
  - by eapply append_flat.
  - by eapply append_around.
Qed.

Lemma deque_popleft_ok d q : repr d q ->
  match queue_popleft q with
  | Ret (v, q') => exists d', deque_popleft d = Ret (v, d') /\ repr d' q'
  | r => deque_popleft d = Raise IndexError /\ r = Raise IndexError
  end.
Proof.
  intros Hr. pose proof (repr_holds _ _ Hr) as H. destruct Hr as [_ Ha Hi Hs Hf]. destruct q as [m ck c].
  unfold queue_popleft, deque_popleft. cbn [contents maxlen checked] in *. destruct H as [l1 c l2 E Eg Ep Hl|q1 q2 l E Ep Eg Hl Hq].
  - pose proof Hi as Hi'. rewrite E in Hi'. autorewrite with lens in Hi'. destruct c as [|v c].
    { rewrite app_nil_r in Ep. by rewrite Eg, Ep, Z.eqb_refl. }
    autorewrite with lens in Ep. rewrite (proj2 (Z.eqb_neq _ _)) by lia. rewrite next_index by lens.
    rewrite E, Eg. cbn [app]. rewrite rd_middle. cbn [obind]. rewrite wr_middle. cbn [obind]. eexists. split; [done|].
    cbn [length] in *. rewrite (proj2 (Z.eqb_neq _ (alloc d))) by lia. split; cbn; try (done || lens).
    rewrite cons_middle, app_assoc. apply (holds_flat _ (l1 ++ [MP_OBJ_NULL]) c l2); parts.
  - pose proof Hi as Hi'. rewrite E in Hi'. autorewrite with lens in Hi', Eg. destruct q1 as [|v q1]; [cbn in Hq; lia|].
    cbn [app length] in *. rewrite (proj2 (Z.eqb_neq _ _)) by lia. rewrite next_index by lia.
    replace (i_get d) with (Z.of_nat (length (q2 ++ l))) by lens. rewrite E, app_assoc, rd_middle. cbn [obind]. rewrite wr_middle. cbn [obind].
    eexists. split; [done|]. autorewrite with lens. destruct q1 as [|z q1]; cbn [length] in *.
    + rewrite (proj2 (Z.eqb_eq _ (alloc d))) by lia. split; cbn; try (done || lens).
      apply (holds_flat _ [] q2 (l ++ [MP_OBJ_NULL])); parts.
    + rewrite (proj2 (Z.eqb_neq _ (alloc d))) by lia. split; cbn; try (done || lens).
      change (z :: q1 ++ q2) with ((z :: q1) ++ q2).
      apply (holds_around _ (z :: q1) q2 (l ++ [MP_OBJ_NULL])); parts.
Qed.

(** ** Runs *)

Inductive deque_op := OpAppend (v : obj) | OpPopleft | OpLen | OpBool.
Inductive deque_val := VNone | VObj (v : obj) | VLen (n : Z) | VBool (b : bool).

Definition deque_exec (d : mp_obj_deque_t) (op : deque_op) : outcome (deque_val * mp_obj_deque_t) :=
  match op with
  | OpAppend v => let! d := mp_obj_deque_append d v in Ret (VNone, d)
  | OpPopleft => let! '(v, d) := deque_popleft d in Ret (VObj v, d)
  | OpLen => Ret (VLen (deque_len d), d)
  | OpBool => Ret (VBool (deque_bool d), d)
  end.

Definition queue_exec (q : queue) (op : deque_op) : outcome (deque_val * queue) :=
  match op with
  | OpAppend v => let! q := queue_append q v in Ret (VNone, q)
  | OpPopleft => let! '(v, q) := queue_popleft q in Ret (VObj v, q)
  | OpLen => Ret (VLen (Z.of_nat (length (contents q))), q)
  | OpBool => Ret (VBool (negb (match contents q with [] => true | _ => false end)), q)
  end.

(** The results of operations; an exception leaves the state as it was. *)
Fixpoint results {S} (exec : S -> deque_op -> outcome (deque_val * S)) (s : S) (ops : list deque_op) : list (outcome deque_val) :=
  match ops with
  | [] => []
  | op :: ops =>
    match exec s op with
    | Ret (v, s) => Ret v :: results exec s ops
    | Raise e => Raise e :: results exec s ops
    | Undef => [Undef]
    | OutOfFuel => [OutOfFuel]
    end
  end.

Lemma exec_ok d q op : repr d q ->
  match queue_exec q op with
  | Ret (v, q') => exists d', deque_exec d op = Ret (v, d') /\ repr d' q'
  | r => deque_exec d op = Raise IndexError /\ r = Raise IndexError
  end.
Proof.
  intros Hr. destruct op as [v| | |]; cbn [queue_exec deque_exec].
  - pose proof (deque_append_ok d q v Hr) as H. destruct (queue_append q v) as [q'|e| |]; try (by destruct H as [-> [=]]).
    + destruct H as (d' & -> & H). by exists d'.
    + by destruct H as [-> [= ->]].
  - pose proof (deque_popleft_ok d q Hr) as H. destruct (queue_popleft q) as [[v q']|e| |]; try (by destruct H as [-> [=]]).
    + destruct H as (d' & -> & H). by exists d'.
    + by destruct H as [-> [= ->]].
  - exists d. by rewrite (len_ok d q Hr).
  - exists d. rewrite (bool_ok d q Hr). split; [|done]. by destruct (contents q).
Qed.

Lemma results_ok ops d q : repr d q -> results deque_exec d ops = results queue_exec q ops.
Proof.
  revert d q. induction ops as [|op ops IH]; intros d q Hr; [done|]. cbn [results].
  pose proof (exec_ok d q op Hr) as H. destruct (queue_exec q op) as [[v q']|e| |]; try (by destruct H as [_ [=]]).
  - destruct H as (d' & -> & H). f_equal. by apply IH.
  - destruct H as [-> [= ->]]. f_equal. by apply IH.
Qed.

(** C35. [deque]: a new deque gives, for every sequence of [append], [popleft], [len] and [bool], the
    results of a queue of at most [n] items: a full one drops its oldest item, or raises [IndexError]
    if bit 0 of the flags is set; an empty one raises [IndexError] on [popleft]. *)
Theorem deque_refines n fl ops : 0 <= n < 2 ^ 30 - 1 ->
  match deque_make_new true n fl with
  | Ret d => results deque_exec d ops =
      results queue_exec (mk_queue (Z.to_nat n) (match fl with Some f => Z.odd f | None => false end) []) ops
  | Raise MemoryError => True
  | _ => False
  end.
Proof.
  intros Hn. destruct (make_new_ok n fl Hn) as [->|(d & -> & Hr)]; [done|]. by apply results_ok.
Qed.
End Deque.

#[local] Instance sample_items : Allocator Z := {| m_renew_ok n := n <=? 4096; fresh := 170 |}.

Lemma deque_refines_witness :
  match deque_make_new 0 true 2 None with
  | Ret d => results (deque_exec 0) d [OpAppend 5; OpAppend 6; OpAppend 7; OpLen; OpPopleft; OpPopleft; OpPopleft] =
      [Ret VNone; Ret VNone; Ret VNone; Ret (VLen 2); Ret (VObj 6); Ret (VObj 7); Raise IndexError]
  | _ => False
  end.
Proof.
  pose proof (deque_refines 0 2 None [OpAppend 5; OpAppend 6; OpAppend 7; OpLen; OpPopleft; OpPopleft; OpPopleft] ltac:(lia)) as H.
  destruct (deque_make_new 0 true 2 None) as [d|e| |] eqn:E; vm_compute in E; try discriminate E.
  rewrite H. reflexivity.
Defined.

(** [maxlen = 2 ^ 30 - 1]: the byte count of the array wraps to 0, so there is no array. *)
Lemma deque_make_new_wraps : exists d, deque_make_new 0 true (2 ^ 30 - 1) None = Ret d /\ items d = [] /\ mp_obj_deque_append d 5 = Undef.
Proof. eexists. split; [vm_compute; reflexivity|]. split; [reflexivity|]. vm_compute. reflexivity. Qed.
