(* ===== verification/ObjList.v ===== *)
(** * Lists ([py/objlist.c])

    A list is an array of [alloc] slots of which the first [len] are the items; the free slots
    hold [MP_OBJ_NULL], so that the collector finds no stale pointer in them.  Slots are 4 bytes.
    An index is the integer [mp_get_index] sees; [==] is [mp_obj_equal] and [<] the parameter
    [less].  Definitions only: their correctness is in [ListSpec.v], sorting in [ListSort.v]. *)

From S2P Require Import Prelude Malloc MpObj Sequence.
Local Open Scope Z_scope.

Definition LIST_MIN_ALLOC : Z := 4.

Section List.
Context {obj : Type} `{!MpObjOps obj} {allocator : Allocator obj}.
Variables MP_OBJ_NULL mp_const_none : obj.

Record mp_obj_list_t := mk_list { alloc : Z; len : Z; items : list obj }.

(** The macros of [py/obj.h] on item arrays. *)
Definition mp_seq_clear (a : list obj) (n alloc_len : Z) : outcome (list obj) :=
  if alloc_len <? n then Undef else memcpy_in a n (replicate (Z.to_nat (alloc_len - n)) MP_OBJ_NULL).

Definition mp_seq_cat (dest src1 src2 : list obj) : outcome (list obj) :=
  let! dest := memcpy_in dest 0 src1 in memcpy_in dest (Z.of_nat (length src1)) src2.

Definition mp_seq_replace_slice_no_grow (dest : list obj) (dest_len beg stop : Z) (slice : list obj) : outcome (list obj) :=
  let! dest := memcpy_in dest beg slice in
  memmove dest (beg + Z.of_nat (length slice)) stop (dest_len - stop).

Definition mp_seq_replace_slice_grow_inplace (dest : list obj) (dest_len beg stop : Z) (slice : list obj) (len_adj : Z)
    : outcome (list obj) :=
  let! dest := memmove dest (beg + Z.of_nat (length slice)) stop (dest_len + len_adj - (beg + Z.of_nat (length slice))) in
  memcpy_in dest beg slice.

(** ** Creation *)

Definition mp_obj_list_init (n : Z) : outcome mp_obj_list_t :=
  let alloc := if n <? LIST_MIN_ALLOC then LIST_MIN_ALLOC else n in
  let! items := m_new 4 alloc in
  let! items := mp_seq_clear items n alloc in
  Ret (mk_list alloc n items).

Definition list_new (n : Z) : outcome mp_obj_list_t := mp_obj_list_init n.

Fixpoint copy_items (dest : list obj) (i : Z) (src : list obj) : outcome (list obj) :=
  match src with
  | [] => Ret dest
  | x :: src => let! dest := wr dest i x in copy_items dest (i + 1) src
  end.

(** With the items to start with, if any. *)
Definition mp_obj_new_list (n : Z) (its : option (list obj)) : outcome mp_obj_list_t :=
  let! o := list_new n in
  match its with
  | None => Ret o
  | Some its =>
    let! a := copy_items (items o) 0 (take (Z.to_nat n) its) in
    Ret (mk_list (alloc o) (len o) a)
  end.

(** The array of the items. *)
Definition mp_obj_list_get (self : mp_obj_list_t) : list obj := take (Z.to_nat (len self)) (items self).

Definition mp_obj_list_set_len (self : mp_obj_list_t) (n : Z) : mp_obj_list_t := mk_list (alloc self) n (items self).

(** ** Growing *)

Definition mp_obj_list_append (self : mp_obj_list_t) (arg : obj) : outcome mp_obj_list_t :=
  let! self :=
    if alloc self <=? len self then
      let new_alloc := wrap 32 (alloc self * 2) in
      let! a := m_renew 4 (items self) new_alloc in
      let! a := mp_seq_clear a (len self + 1) new_alloc in
      Ret (mk_list new_alloc (len self) a)
    else Ret self in
  let! a := wr (items self) (len self) arg in
  Ret (mk_list (alloc self) (len self + 1) a).

(** [list_extend_from_iter]: the items an iterator yields. *)
Fixpoint list_extend_from_iter (self : mp_obj_list_t) (iterable : list obj) : outcome mp_obj_list_t :=
  match iterable with
  | [] => Ret self
  | item :: iterable =>
    let! self := mp_obj_list_append self item in list_extend_from_iter self iterable
  end.

(** [list_extend] by a list: another one, or ([None]) the list itself, whose array is the grown
    one when the items are copied. *)
Definition list_extend (self : mp_obj_list_t) (arg : option mp_obj_list_t) : outcome mp_obj_list_t :=
  let arg_len := match arg with Some arg => len arg | None => len self end in
  let! self :=
    if alloc self <? wrap 32 (len self + arg_len) then
      let new_alloc := wrap 32 (len self + arg_len + 4) in
      let! a := m_renew 4 (items self) new_alloc in
      let! a := mp_seq_clear a (len self + arg_len) new_alloc in
      Ret (mk_list new_alloc (len self) a)
    else Ret self in
  let arg_items := match arg with Some arg => items arg | None => items self end in
  let! a := memcpy_in (items self) (len self) (take (Z.to_nat arg_len) arg_items) in
  Ret (mk_list (alloc self) (wrap 32 (len self + arg_len)) a).

Fixpoint insert_shift (fuel : nat) (a : list obj) (i index : Z) : outcome (list obj) :=
  match fuel with
  | O => OutOfFuel
  | S fuel =>
    if index <? i then
      let! x := rd a (i - 1) in
      let! a := wr a i x in
      insert_shift fuel a (i - 1) index
    else Ret a
  end.

Definition list_insert (self : mp_obj_list_t) (idx : Z) (o : obj) : outcome mp_obj_list_t :=
  let index := idx in
  let index := if index <? 0 then index + len self else index in
  let index := if index <? 0 then 0 else index in
  let index := if len self <? index then len self else index in
  let! self := mp_obj_list_append self mp_const_none in
  let! a := insert_shift (S (Z.to_nat (len self))) (items self) (len self - 1) index in
  let! a := wr a index o in
  Ret (mk_list (alloc self) (len self) a).

(** ** Shrinking *)

(** The list and the popped item; without an index the last item. *)
Definition list_pop (self : mp_obj_list_t) (idx : option Z) : outcome (mp_obj_list_t * obj) :=
  if len self =? 0 then Raise IndexError else
  let! index := mp_get_index (len self) (match idx with None => -1 | Some i => i end) false in
  let! ret := rd (items self) index in
  let new_len := len self - 1 in
  let! a := memmove (items self) index (index + 1) (new_len - index) in
  let! a := wr a new_len MP_OBJ_NULL in
  if (LIST_MIN_ALLOC <? alloc self) && (2 * new_len <? alloc self) then
    let! a := m_renew 4 a (alloc self / 2) in
    Ret (mk_list (alloc self / 2) new_len a, ret)
  else Ret (mk_list (alloc self) new_len a, ret).

Definition list_index (self : mp_obj_list_t) (value : obj) (start stop : option Z) : outcome Z :=
  mp_seq_index_obj (mp_obj_list_get self) value start stop.

Definition mp_obj_list_remove (self : mp_obj_list_t) (value : obj) : outcome mp_obj_list_t :=
  let! i := list_index self value None None in
  let! '(self, _) := list_pop self (Some i) in Ret self.

(** The length is reset before the array is renewed: the list is empty even if that fails. *)
Definition list_clear (self : mp_obj_list_t) : mp_obj_list_t * outcome unit :=
  let self := mk_list (alloc self) 0 (items self) in
  match (let! a := m_renew 4 (items self) LIST_MIN_ALLOC in mp_seq_clear a 0 LIST_MIN_ALLOC) with
  | Ret a => (mk_list LIST_MIN_ALLOC 0 a, Ret tt)
  | Raise e => (self, Raise e)
  | Undef => (self, Undef)
  | OutOfFuel => (self, OutOfFuel)
  end.

(** ** Item access and slices *)

Definition mp_obj_list_store (self : mp_obj_list_t) (index : Z) (value : obj) : outcome mp_obj_list_t :=
  let! i := mp_get_index (len self) index false in
  let! a := wr (items self) i value in
  Ret (mk_list (alloc self) (len self) a).

Definition list_load (self : mp_obj_list_t) (index : Z) : outcome obj :=
  let! i := mp_get_index (len self) index false in rd (items self) i.

(** A subscript: an integer or a slice. *)
Inductive subscript := At (index : Z) | Slice (start stop step : option Z).

Definition delete_slice (self : mp_obj_list_t) (s e st : option Z) : outcome mp_obj_list_t :=
  let! '(slice, fast) := mp_seq_get_fast_slice_indexes (len self) s e st in
  if negb fast then Raise NotImplementedError else
  let len_adj := start slice - stop slice in
  if negb (len_adj <=? 0) then Undef else
  let! a := mp_seq_replace_slice_no_grow (items self) (len self) (start slice) (stop slice) [] in
  let! a := mp_seq_clear a (len self + len_adj) (len self) in
  Ret (mk_list (alloc self) (len self + len_adj) a).

(** A new list. *)
Definition load_slice (self : mp_obj_list_t) (s e st : option Z) : outcome (list obj) :=
  let! '(slice, fast) := mp_seq_get_fast_slice_indexes (len self) s e st in
  if negb fast then mp_seq_extract_slice (mp_obj_list_get self) slice else
  let! res := list_new (stop slice - start slice) in
  let! a := memcpy_in (items res) 0 (take (Z.to_nat (len res)) (drop (Z.to_nat (start slice)) (items self))) in
  Ret (mp_obj_list_get (mk_list (alloc res) (len res) a)).

Definition store_slice (self : mp_obj_list_t) (s e st : option Z) (value : list obj) : outcome mp_obj_list_t :=
  let value_len := Z.of_nat (length value) in
  let! '(slice, fast) := mp_seq_get_fast_slice_indexes (len self) s e st in
  if negb fast then Raise NotImplementedError else
  let len_adj := value_len - (stop slice - start slice) in
  let! self :=
    if 0 <? len_adj then
      let! self :=
        if alloc self <? len self + len_adj then
          let! a := m_renew 4 (items self) (len self + len_adj) in
          Ret (mk_list (len self + len_adj) (len self) a)
        else Ret self in
      let! a := mp_seq_replace_slice_grow_inplace (items self) (len self) (start slice) (stop slice) value len_adj in
      Ret (mk_list (alloc self) (len self) a)
    else
      let! a := mp_seq_replace_slice_no_grow (items self) (len self) (start slice) (stop slice) value in
      let! a := mp_seq_clear a (len self + len_adj) (len self) in
      Ret (mk_list (alloc self) (len self) a) in
  Ret (mk_list (alloc self) (len self + len_adj) (items self)).

(** What is done with a subscript: deletion, loading, or storing a value. *)
Inductive subscr_value := Del | Load | Store (value : obj).

(** [mp_obj_get_array]: the items of a list or tuple, [TypeError] for another object. *)
Variable mp_obj_get_array : obj -> outcome (list obj).

(** [list_subscr]: the list and, for a load, the item or the items loaded. *)
Definition list_subscr (self : mp_obj_list_t) (index : subscript) (value : subscr_value)
    : outcome (mp_obj_list_t * list obj) :=
  match value, index with
  | Del, Slice s e st => let! self := delete_slice self s e st in Ret (self, [])
  | Del, At i => let! '(self, _) := list_pop self (Some i) in Ret (self, [])
  | Load, Slice s e st => let! l := load_slice self s e st in Ret (self, l)
  | Load, At i => let! x := list_load self i in Ret (self, [x])
  | Store v, Slice s e st =>
    let! value_items := mp_obj_get_array v in
    let! self := store_slice self s e st value_items in Ret (self, [])
  | Store v, At i => let! self := mp_obj_list_store self i v in Ret (self, [])
  end.

(** ** Other methods *)

Fixpoint reverse_loop (fuel : nat) (a : list obj) (i n : Z) : outcome (list obj) :=
  match fuel with
  | O => OutOfFuel
  | S fuel =>
    if i <? Z.quot n 2 then
      let! x := rd a i in
      let! y := rd a (n - i - 1) in
      let! a := wr a i y in
      let! a := wr a (n - i - 1) x in
      reverse_loop fuel a (i + 1) n
    else Ret a
  end.

Definition list_reverse (self : mp_obj_list_t) : outcome mp_obj_list_t :=
  let! a := reverse_loop (S (Z.to_nat (len self))) (items self) 0 (len self) in
  Ret (mk_list (alloc self) (len self) a).

Definition list_copy (self : mp_obj_list_t) : outcome mp_obj_list_t := mp_obj_new_list (len self) (Some (items self)).

Definition list_count (self : mp_obj_list_t) (value : obj) : Z := mp_seq_count_obj (mp_obj_list_get self) value 0.

Definition list_make_new (iterable : option (list obj)) : outcome mp_obj_list_t :=
  let! l := mp_obj_new_list 0 None in
  match iterable with None => Ret l | Some iterable => list_extend_from_iter l iterable end.

(** [list_unary_op]: truth and length. *)
Definition list_bool (self : mp_obj_list_t) : bool := negb (len self =? 0).
Definition list_len (self : mp_obj_list_t) : Z := len self.

(** [list_binary_op] on lists: [+], [*] and the comparisons. *)
Definition list_add (o p : mp_obj_list_t) : outcome mp_obj_list_t :=
  let! s := list_new (wrap 32 (len o + len p)) in
  let! a := mp_seq_cat (items s) (mp_obj_list_get o) (mp_obj_list_get p) in
  Ret (mk_list (alloc s) (len s) a).

Definition list_multiply (o : mp_obj_list_t) (n : Z) : outcome mp_obj_list_t :=
  let n := if n <? 0 then 0 else n in
  let! s := list_new (wrap 32 (len o * n)) in
  let! a := mp_seq_multiply (mp_obj_list_get o) (Z.to_nat n) (items s) 0 in
  Ret (mk_list (alloc s) (len s) a).

Definition list_compare (binary_op : cmp_op -> obj -> obj -> bool) (op : cmp_op) (o p : mp_obj_list_t) : bool :=
  mp_seq_cmp_objs binary_op op (mp_obj_list_get o) (mp_obj_list_get p).

(** ** Iteration: the iterator's position, and the next item if any *)
Definition list_it_iternext (self : mp_obj_list_t) (cur : Z) : outcome (Z * option obj) :=
  if cur <? len self then let! o_out := rd (items self) cur in Ret (cur + 1, Some o_out) else Ret (cur, None).
End List.
