(* ===== verification/ListSpec.v ===== *)
(** * Correctness of lists

    [repr l xs]: the record [l] holds the items [xs], its free slots are all [MP_OBJ_NULL] and
    it has at least two slots.  Every operation maps representations to representations of what
    Python's operation gives, or raises what Python raises, or [MemoryError]; no operation reads
    or writes outside the array. *)

From S2P Require Import Prelude Malloc MpObj Sequence ObjList.
Local Open Scope Z_scope.

(** Equality of concatenations. *)
Ltac lapp := repeat (rewrite <- !app_assoc || cbn [app]); done.

Section ListSpec.
Context {obj : Type} `{!MpObjOps obj} {allocator : Allocator obj}.
Variables MP_OBJ_NULL mp_const_none : obj.

(** The heap is smaller than 256 MB: larger requests fail. *)
Hypothesis heap_small : forall b, m_renew_ok b = true -> b < 2 ^ 28.

Implicit Types (xs : list obj) (v : obj).
Notation NULLs n := (replicate n MP_OBJ_NULL).
Notation mp_obj_list_append := (mp_obj_list_append MP_OBJ_NULL).
Notation mp_seq_clear := (mp_seq_clear MP_OBJ_NULL).

Record repr (l : mp_obj_list_t (obj := obj)) xs : Prop := {
  repr_alloc : 2 <= alloc l;
  repr_small : 4 * alloc l < 2 ^ 28;
  repr_len : len l = Z.of_nat (length xs);
  repr_room : len l <= alloc l;
  repr_items : items l = xs ++ NULLs (Z.to_nat (alloc l - len l))
}.

(** The outcome of an operation on a list: it runs out of memory, or ends well. *)
Definition yields {A} (m : outcome A) (P : A -> Prop) : Prop :=
  m = Raise MemoryError \/ exists a, m = Ret a /\ P a.

Lemma yields_ret {A} (m : outcome A) (P : A -> Prop) a : m = Ret a -> P a -> yields m P.
Proof. intros. right. eauto. Qed.

Lemma yields_bind {A B} (m : outcome A) (f : A -> outcome B) (P : A -> Prop) (Q : B -> Prop) :
  yields m P -> (forall a, P a -> yields (f a) Q) -> yields (obind m f) Q.
Proof. intros [-> | (a & -> & HP)] H; [by left|]. by apply H. Qed.

Lemma repr_get l xs : repr l xs -> mp_obj_list_get l = xs.
Proof. intros []. unfold mp_obj_list_get. rewrite repr_items0, take_app_length'; [done|lia]. Qed.

Lemma repr_length l xs : repr l xs -> Z.of_nat (length (items l)) = alloc l.
Proof. intros []. rewrite repr_items0. lens. Qed.

Lemma clear_middle (l1 l2 l3 : list obj) n m : n = Z.of_nat (length l1) -> m = n + Z.of_nat (length l2) ->
  mp_seq_clear (l1 ++ l2 ++ l3) n m = Ret (l1 ++ NULLs (length l2) ++ l3).
Proof.
  intros -> ->. unfold ObjList.mp_seq_clear. rewrite (proj2 (Z.ltb_ge _ _)) by lia.
  rewrite memcpy_in_middle by lens. by replace (Z.to_nat _) with (length l2) by lia.
Qed.

Lemma clear_end (l1 l2 : list obj) n m : n = Z.of_nat (length l1) -> m = n + Z.of_nat (length l2) ->
  mp_seq_clear (l1 ++ l2) n m = Ret (l1 ++ NULLs (length l2)).
Proof. intros. rewrite <- (app_nil_r l2) at 1. rewrite clear_middle by done. by rewrite app_nil_r. Qed.

(** Renewing an array for more items either fails, or keeps them and stays within the heap. *)
Lemma renew_grow (a : list obj) n : Z.of_nat (length a) < n -> 4 * n < 2 ^ 30 ->
  yields (m_renew 4 a n) (fun b => 4 * n < 2 ^ 28 /\ b = a ++ replicate (Z.to_nat n - length a) fresh).
Proof.
  intros. rewrite m_renew_grow by lia. destruct (m_renew_ok (4 * n)) eqn:E; [|by left].
  right. eexists. split; [done|]. split; [by apply heap_small|done].
Qed.

(** ** Creation *)

Lemma list_new_ok n : 0 <= n < 2 ^ 28 ->
  yields (list_new MP_OBJ_NULL n) (fun l => 2 <= alloc l /\ 4 * alloc l < 2 ^ 28 /\ len l = n /\ n <= alloc l /\
    items l = replicate (Z.to_nat n) fresh ++ NULLs (Z.to_nat (alloc l - n))).
Proof.
  intros Hn. unfold list_new, mp_obj_list_init, LIST_MIN_ALLOC.
  set (al := if n <? 4 then 4 else n). assert (Hal : 4 <= al < 2 ^ 28 /\ n <= al) by (unfold al; bcase; lia).
  clearbody al. rewrite m_new_ok by lia. destruct (m_renew_ok (4 * al)) eqn:E; [|by left]. cbn [obind].
  apply heap_small in E.
  replace (Z.to_nat al) with (Z.to_nat n + Z.to_nat (al - n))%nat by lia. rewrite replicate_add.
  rewrite clear_end by lens. cbn [obind]. eapply yields_ret; [done|]. rewrite length_replicate. cbn.
  split_and!; lia || done.
Qed.

Lemma copy_items_ok (src l1 l2 l3 : list obj) i : length l2 = length src -> i = Z.of_nat (length l1) ->
  copy_items (l1 ++ l2 ++ l3) i src = Ret (l1 ++ src ++ l3).
Proof.
  revert l1 l2 i. induction src as [|x src IH]; intros l1 [|y l2] i El ->; try done. cbn [copy_items].
  rewrite <- app_comm_cons, wr_middle. cbn [obind]. rewrite cons_middle, app_assoc.
  rewrite IH by lens. by rewrite <- app_assoc.
Qed.

Lemma mp_obj_new_list_ok xs rest : Z.of_nat (length xs) < 2 ^ 28 ->
  yields (mp_obj_new_list MP_OBJ_NULL (Z.of_nat (length xs)) (Some (xs ++ rest))) (fun l => repr l xs).
Proof.
  intros Hn. unfold mp_obj_new_list. eapply yields_bind; [apply list_new_ok; lia|].
  intros l (H1 & H2 & H3 & H4 & H5). rewrite H5, Nat2Z.id, take_app_length.
  pose proof (copy_items_ok xs [] (replicate (length xs) fresh) (NULLs (Z.to_nat (alloc l - Z.of_nat (length xs)))) 0) as E.
  cbn [app] in E. rewrite E by lens. cbn [obind].
  eapply yields_ret; [done|]. split; cbn; lia || by rewrite H3.
Qed.

(** ** Appending *)

Lemma append_ok l xs v : repr l xs -> yields (mp_obj_list_append l v) (fun l' => repr l' (xs ++ [v])).
Proof.
  intros [H1 H2 H3 H4 H5]. unfold ObjList.mp_obj_list_append.
  eapply (yields_bind _ _ (fun l' => 2 <= alloc l' /\ 4 * alloc l' < 2 ^ 28 /\ len l' = len l /\ len l < alloc l' /\
    exists x, items l' = xs ++ x :: NULLs (Z.to_nat (alloc l' - len l - 1)))).
  - destruct (Z.leb_spec (alloc l) (len l)).
    + rewrite wrap_small by lia. cbn zeta. eapply yields_bind; [apply renew_grow; rewrite ?H5; lens|].
      intros a (Hs & ->). rewrite H5, (Z.le_antisymm (alloc l) (len l)), Z.sub_diag, app_nil_r by lia.
      replace (Z.to_nat (len l * 2) - length xs)%nat with (S (Z.to_nat (len l - 1))) by lia.
      cbn [replicate]. rewrite cons_middle, app_assoc, clear_end by lens. cbn [obind]. rewrite <- app_assoc.
      eapply yields_ret; [done|]. cbn. rewrite length_replicate.
      split_and!; try lia. exists fresh. by replace (Z.to_nat (len l * 2 - len l - 1)) with (Z.to_nat (len l - 1)) by lia.
    + eapply yields_ret; [done|]. split_and!; try (done || lia). exists MP_OBJ_NULL. rewrite H5.
      by replace (Z.to_nat (alloc l - len l)) with (S (Z.to_nat (alloc l - len l - 1))) by lia.
  - intros l1 (A1 & A2 & A3 & A4 & x & A5). rewrite A5, A3, H3, wr_middle. cbn [obind].
    eapply yields_ret; [done|]. split; cbn; rewrite ?length_app; cbn; try lia.
    rewrite <- app_assoc. cbn. do 2 f_equal. f_equal. lia.
Qed.

Lemma extend_from_iter_ok ys l xs : repr l xs ->
  yields (list_extend_from_iter MP_OBJ_NULL l ys) (fun l' => repr l' (xs ++ ys)).
Proof.
  revert l xs. induction ys as [|y ys IH]; intros l xs Hl; cbn [list_extend_from_iter].
  - rewrite app_nil_r. by eapply yields_ret.
  - eapply yields_bind; [by apply append_ok|]. intros l' Hl'. cbn beta in Hl'.
    replace (xs ++ y :: ys) with ((xs ++ [y]) ++ ys) by (by rewrite <- app_assoc). by apply IH.
Qed.

(** The items of the argument of [list_extend]. *)
Definition extend_arg (xs : list obj) (arg : option mp_obj_list_t) (ys : list obj) : Prop :=
  match arg with Some a => repr a ys | None => ys = xs end.

Lemma extend_ok l xs arg ys : repr l xs -> extend_arg xs arg ys ->
  yields (list_extend MP_OBJ_NULL l arg) (fun l' => repr l' (xs ++ ys)).
Proof.
  intros [H1 H2 H3 H4 H5] Harg. unfold list_extend.
  set (n := match arg with Some a => len a | None => len l end).
  assert (Hn : n = Z.of_nat (length ys) /\ 4 * n < 2 ^ 28).
  { unfold n. destruct arg as [a|]; cbn in Harg; [destruct Harg; lia|subst; lia]. }
  rewrite !(wrap_small 32 (len l + n)), !(wrap_small 32 (len l + n + 4)) by lia. cbn zeta.
  eapply (yields_bind _ _ (fun l' => 2 <= alloc l' /\ 4 * alloc l' < 2 ^ 28 /\ len l' = len l /\ len l + n <= alloc l' /\
    exists mid, items l' = xs ++ mid ++ NULLs (Z.to_nat (alloc l' - (len l + n))) /\ length mid = length ys)).
  - destruct (Z.ltb_spec (alloc l) (len l + n)).
    + eapply yields_bind; [apply renew_grow; rewrite ?H5; lens|]. intros a (Hs & ->).
      set (tl := NULLs (Z.to_nat (alloc l - len l)) ++ replicate (Z.to_nat (len l + n + 4) - length (items l)) fresh).
      assert (E : items l ++ replicate (Z.to_nat (len l + n + 4) - length (items l)) fresh = xs ++ take (length ys) tl ++ drop (length ys) tl).
      { rewrite take_drop. unfold tl. by rewrite H5 at 1; rewrite <- app_assoc. }
      assert (Htl : length tl = (length ys + 4)%nat) by (unfold tl; rewrite H5; lens).
      rewrite E, app_assoc, clear_end by lens. cbn [obind]. rewrite <- app_assoc.
      eapply yields_ret; [done|]. cbn. split_and!; try lia. exists (take (length ys) tl). split; [|rewrite length_take; lia].
      rewrite length_drop, Htl. do 3 f_equal. lia.
    + eapply yields_ret; [done|]. split_and!; try (done || lia). exists (NULLs (length ys)). rewrite length_replicate.
      split; [|done]. rewrite H5, <- replicate_add. do 2 f_equal. lia.
  - intros l1 (A1 & A2 & A3 & A4 & mid & A5 & A6).
    assert (Hsrc : take (Z.to_nat n) (match arg with Some a => items a | None => items l1 end) = ys).
    { destruct arg as [a|]; cbn in Harg; unfold n.
      - by apply repr_get in Harg.
      - subst ys. rewrite A5. by rewrite take_app_length' by lia. }
    rewrite Hsrc, A3, A5, H3, memcpy_in_middle by done. cbn [obind]. eapply yields_ret; [done|].
    rewrite wrap_small by lia. split; cbn; rewrite ?length_app; try lia. by rewrite <- app_assoc.
Qed.

(** ** Indices *)

(** Python's index: negative from the end, [IndexError] outside. *)
Definition py_index (n i : Z) : option nat :=
  let j := if i <? 0 then i + n else i in
  if (0 <=? j) && (j <? n) then Some (Z.to_nat j) else None.

Lemma get_index_ok n i :
  mp_get_index n i false = match py_index n i with Some j => Ret (Z.of_nat j) | None => Raise IndexError end.
Proof.
  unfold mp_get_index, py_index. set (j := if i <? 0 then i + n else i).
  destruct (Z.ltb_spec j 0), (Z.leb_spec 0 j), (Z.leb_spec n j), (Z.ltb_spec j n); cbn; try (lia || done).
  by rewrite Z2Nat.id by lia.
Qed.

Lemma py_index_split xs i j : py_index (Z.of_nat (length xs)) i = Some j ->
  exists l1 x l2, xs = l1 ++ x :: l2 /\ length l1 = j.
Proof.
  unfold py_index. set (k := if i <? 0 then _ else _). destruct (Z.leb_spec 0 k), (Z.ltb_spec k (Z.of_nat (length xs))); try done.
  intros [= <-]. destruct (lookup_lt_is_Some_2 xs (Z.to_nat k)) as [x Hx]; [lia|].
  exists (take (Z.to_nat k) xs), x, (drop (S (Z.to_nat k)) xs). rewrite take_drop_middle by done.
  split; [done|]. rewrite length_take. lia.
Qed.

Lemma load_ok l xs i : repr l xs ->
  list_load l i = match py_index (Z.of_nat (length xs)) i with
    | Some j => match xs !! j with Some x => Ret x | None => Undef end
    | None => Raise IndexError end /\
  list_load l i <> Undef.
Proof.
  intros [_ _ H3 _ H5]. unfold list_load. rewrite H3, get_index_ok. destruct (py_index _ i) as [j|] eqn:E; [|done].
  apply py_index_split in E as (l1 & x & l2 & -> & <-). cbn [obind]. rewrite H5, <- app_assoc. cbn [app].
  rewrite rd_middle, list_lookup_middle by done. done.
Qed.

Lemma store_ok l xs i v : repr l xs ->
  match py_index (Z.of_nat (length xs)) i with
  | Some j => exists l', mp_obj_list_store l i v = Ret l' /\ repr l' (<[j := v]> xs)
  | None => mp_obj_list_store l i v = Raise IndexError
  end.
Proof.
  intros [H1 H2 H3 H4 H5]. unfold mp_obj_list_store. rewrite H3, get_index_ok. destruct (py_index _ i) as [j|] eqn:E; [|done].
  apply py_index_split in E as (l1 & x & l2 & -> & <-). cbn [obind]. rewrite H5, <- app_assoc. cbn [app].
  rewrite wr_middle. cbn [obind]. eexists. split; [done|]. rewrite insert_app_r_alt, Nat.sub_diag by lia.
  rewrite length_app in *. cbn in *.
  split; cbn; rewrite ?length_app; cbn; try (done || lia). by rewrite H3, <- app_assoc.
Qed.

(** ** Popping *)

(** [memmove] of the middle part [c]. *)
Lemma memmove_part (x c y : list obj) dst src n : src = Z.of_nat (length x) -> n = Z.of_nat (length c) ->
  0 <= dst -> dst + n <= Z.of_nat (length (x ++ c ++ y)) ->
  memmove (x ++ c ++ y) dst src n =
  Ret (take (Z.to_nat dst) (x ++ c ++ y) ++ c ++ drop (Z.to_nat (dst + n)) (x ++ c ++ y)).
Proof.
  intros -> -> H0 H. rewrite memmove_Ret by lens. by rewrite !Nat2Z.id, drop_app_length, take_app_length.
Qed.

(** Moving the part [c] down over [m], which leaves as many slots to free. *)
Lemma memmove_down (a m c y : list obj) dst src n :
  dst = Z.of_nat (length a) -> src = dst + Z.of_nat (length m) -> n = Z.of_nat (length c) ->
  exists j, memmove (a ++ m ++ c ++ y) dst src n = Ret (a ++ c ++ j ++ y) /\ length j = length m.
Proof.
  intros -> -> ->. rewrite (app_assoc a m (c ++ y)), memmove_part by lens.
  rewrite <- app_assoc, Nat2Z.id, take_app_length.
  replace (Z.to_nat (Z.of_nat (length a) + Z.of_nat (length c))) with (length a + length c)%nat by lia.
  rewrite <- drop_drop, drop_app_length. set (r := drop (length c) (m ++ c ++ y)).
  exists (take (length m) r). split; [|unfold r; lens]. do 3 f_equal.
  rewrite <- (take_drop (length m) r) at 1. f_equal. unfold r.
  by rewrite drop_drop, Nat.add_comm, <- drop_drop, !drop_app_length.
Qed.

(** Moving the part [c] up by [k] places, into the slots [y]. *)
Lemma memmove_up (a m c y : list obj) dst src n k :
  src = Z.of_nat (length a + length m) -> dst = src + Z.of_nat k -> n = Z.of_nat (length c) -> (k <= length y)%nat ->
  exists j, memmove (a ++ m ++ c ++ y) dst src n = Ret (a ++ j ++ c ++ drop k y) /\ length j = (length m + k)%nat.
Proof.
  intros -> -> -> Hk. rewrite (app_assoc a m (c ++ y)), memmove_part by lens. rewrite <- app_assoc.
  replace (Z.to_nat (Z.of_nat (length a + length m) + Z.of_nat k)) with (length a + (length m + k))%nat by lia.
  replace (Z.to_nat (Z.of_nat (length a + length m) + Z.of_nat k + Z.of_nat (length c)))
    with (length a + (length m + (length c + k)))%nat by lia.
  rewrite take_app_add, <- !drop_drop, !drop_app_length, <- app_assoc.
  eexists. split; [done|]. lens.
Qed.

Lemma pop_ok l xs idx : repr l xs ->
  match py_index (Z.of_nat (length xs)) (default (-1) idx) with
  | None => list_pop MP_OBJ_NULL l idx = Raise IndexError
  | Some j => exists x l', xs !! j = Some x /\ list_pop MP_OBJ_NULL l idx = Ret (l', x) /\ repr l' (delete j xs)
  end.
Proof.
  intros [H1 H2 H3 H4 H5]. unfold list_pop. destruct (Z.eqb_spec (len l) 0) as [E0|E0].
  { rewrite <- H3, E0. unfold py_index. destruct idx as [i|]; cbn; [|done]. repeat bcase; done || lia. }
  rewrite H3. change (match idx with None => -1 | Some i => i end) with (default (-1) idx).
  rewrite get_index_ok. destruct (py_index _ _) as [j|] eqn:E; [|done].
  apply py_index_split in E as (l1 & x & l2 & -> & <-). cbn [obind]. rewrite length_app in *. cbn [length] in *.
  exists x. rewrite H5, <- app_assoc. cbn [app]. rewrite rd_middle. cbn [obind].
  set (tl := NULLs _). destruct (memmove_down l1 [x] l2 tl (Z.of_nat (length l1)) (Z.of_nat (length l1) + 1)
    (Z.of_nat (length l1 + S (length l2)) - 1 - Z.of_nat (length l1))) as ([|y []] & E & Hy); [cbn; lia..| | |]; try done.
  cbn [app] in E. rewrite E. cbn [obind].
  replace (Z.of_nat (length l1 + S (length l2)) - 1) with (Z.of_nat (length (l1 ++ l2))) by lens.
  rewrite app_assoc, wr_middle. cbn [obind].
  assert (Hd : delete (length l1) (l1 ++ x :: l2) = l1 ++ l2).
  { rewrite delete_take_drop, take_app_length. f_equal. rewrite drop_app_ge by lia.
    by replace (S (length l1) - length l1)%nat with 1%nat by lia. }
  rewrite Hd, list_lookup_middle by done.
  assert (Htl : (l1 ++ l2) ++ MP_OBJ_NULL :: tl = (l1 ++ l2) ++ NULLs (Z.to_nat (alloc l - Z.of_nat (length (l1 ++ l2))))).
  { f_equal. unfold tl. replace (Z.to_nat (alloc l - Z.of_nat (length (l1 ++ l2)))) with (S (Z.to_nat (alloc l - len l))) by lens. done. }
  rewrite Htl. unfold LIST_MIN_ALLOC.
  destruct (Z.ltb_spec 4 (alloc l)); [destruct (Z.ltb_spec (2 * Z.of_nat (length (l1 ++ l2))) (alloc l))|]; cbn [andb].
  - assert (Hh : 2 <= alloc l / 2 /\ 2 * (alloc l / 2) <= alloc l /\ Z.of_nat (length (l1 ++ l2)) <= alloc l / 2).
    { pose proof (Z.div_mod (alloc l) 2 ltac:(lia)). pose proof (Z.mod_pos_bound (alloc l) 2 ltac:(lia)). lia. }
    generalize dependent (alloc l / 2). intros h (Hh1 & Hh2 & Hh3).
    rewrite m_renew_shrink by lens. cbn [obind]. eexists. split; [done|]. split; [done|].
    split; cbn [alloc len items]; try lia. rewrite take_app, take_ge by lia. rewrite take_replicate.
    do 2 f_equal. lia.
  - eexists. split; [done|]. split; [done|]. split; cbn [alloc len items]; lens || done.
  - eexists. split; [done|]. split; [done|]. split; cbn [alloc len items]; lens || done.
Qed.

(** ** Inserting *)

Lemma insert_shift_ok fuel (m a c : list obj) z i index : (length m < fuel)%nat ->
  i = Z.of_nat (length a + length m) -> index = Z.of_nat (length a) ->
  exists w, insert_shift fuel (a ++ m ++ z :: c) i index = Ret (a ++ w :: m ++ c).
Proof.
  revert fuel z c i. induction m as [|y m IH] using rev_ind; intros fuel z c i Hf -> ->; destruct fuel as [|fuel]; try lia;
    cbn [insert_shift].
  - cbn [length]. rewrite (proj2 (Z.ltb_ge _ _)) by lia. by exists z.
  - rewrite length_app in *. cbn [length] in *. rewrite (proj2 (Z.ltb_lt _ _)) by lia.
    replace (a ++ (m ++ [y]) ++ z :: c) with ((a ++ m) ++ y :: z :: c) by (by rewrite <- !app_assoc).
    replace (Z.of_nat (length a + (length m + 1)) - 1) with (Z.of_nat (length (a ++ m))) by lens.
    rewrite rd_middle. cbn [obind]. rewrite (cons_middle y), app_assoc.
    replace (Z.of_nat (length a + (length m + 1))) with (Z.of_nat (length ((a ++ m) ++ [y]))) by lens.
    rewrite wr_middle. cbn [obind]. rewrite <- !app_assoc. cbn [app].
    destruct (IH fuel y (y :: c) (Z.of_nat (length (a ++ m)))) as (w & E); [lia|lens|done|].
    exists w. by rewrite E, <- ?app_assoc.
Qed.

(** Python's [insert]: the position is clipped to the list. *)
Definition py_insert (xs : list obj) (i : Z) (v : obj) : list obj :=
  let n := Z.of_nat (length xs) in
  let j := Z.to_nat (Z.min n (Z.max 0 (if i <? 0 then i + n else i))) in
  take j xs ++ v :: drop j xs.

Lemma insert_ok l xs i v : repr l xs ->
  yields (list_insert MP_OBJ_NULL mp_const_none l i v) (fun l' => repr l' (py_insert xs i v)).
Proof.
  intros Hl. pose proof (repr_len _ _ Hl) as H3. unfold list_insert, py_insert. cbn zeta. rewrite H3.
  set (k := if i <? 0 then i + Z.of_nat (length xs) else i).
  set (j := Z.to_nat (Z.min (Z.of_nat (length xs)) (Z.max 0 k))).
  replace (if Z.of_nat (length xs) <? (if k <? 0 then 0 else k) then _ else _) with (Z.of_nat j)
    by (unfold j; destruct (Z.ltb_spec k 0); bcase; lia).
  assert (Hj : (j <= length xs)%nat) by lia. clearbody j. clear k.
  eapply yields_bind; [by apply append_ok|]. intros l1 [A1 A2 A3 A4 A5].
  rewrite length_app in A3. cbn [length] in A3. rewrite A3.
  destruct (insert_shift_ok (S (Z.to_nat (Z.of_nat (length xs + 1)))) (drop j xs) (take j xs) (NULLs (Z.to_nat (alloc l1 - len l1)))
    mp_const_none (Z.of_nat (length xs + 1) - 1) (Z.of_nat j)) as (w & E); [lens..|].
  replace (items l1) with (take j xs ++ drop j xs ++ mp_const_none :: NULLs (Z.to_nat (alloc l1 - len l1)))
    by (by rewrite A5, <- app_assoc, (app_assoc (take j xs)), take_drop).
  rewrite E. cbn [obind]. replace (Z.of_nat j) with (Z.of_nat (length (take j xs))) by lens.
  rewrite wr_middle. cbn [obind]. eapply yields_ret; [done|].
  split; cbn [alloc len items]; rewrite ?length_app, ?length_take; cbn [length]; rewrite ?length_drop; try lia.
  rewrite A3, <- ?app_assoc. done.
Qed.

(** ** Removing a value *)

Definition py_index_of (xs : list obj) (v : obj) : option nat := fst <$> list_find (fun x => mp_obj_equal x v = true) xs.

Lemma list_index_ok l xs v : repr l xs ->
  list_index l v None None = match py_index_of xs v with Some j => Ret (Z.of_nat j) | None => Raise ValueError end.
Proof.
  intros Hl. unfold list_index, mp_seq_index_obj, py_index_of. rewrite (repr_get _ _ Hl). cbn [obind].
  destruct (index_loop_ok (length xs + 1) xs v 0 (Z.of_nat (length xs))) as [(p & E & Hp & (x & Hx & Hxv) & Hno)|(E & Hno)]; [lia..| |].
  - rewrite E. assert (F : list_find (fun x => mp_obj_equal x v = true) xs = Some (Z.to_nat p, x)).
    { apply list_find_Some. split; [done|]. split; [done|]. intros q y Hy Hq Hyv.
      rewrite (Hno (Z.of_nat q) y) in Hyv; [done|lia|by rewrite Nat2Z.id]. }
    rewrite F. cbn. by rewrite Z2Nat.id by lia.
  - rewrite E. assert (F : list_find (fun x => mp_obj_equal x v = true) xs = None).
    { apply list_find_None. apply list.Forall_forall. intros y Hy Hyv. apply list_elem_of_lookup in Hy as (q & Hq).
      apply lookup_lt_Some in Hq as Hlt. rewrite (Hno (Z.of_nat q) y) in Hyv; [done|lia|by rewrite Nat2Z.id]. }
    by rewrite F.
Qed.

Lemma remove_ok l xs v : repr l xs ->
  match py_index_of xs v with
  | None => mp_obj_list_remove MP_OBJ_NULL l v = Raise ValueError
  | Some j => exists l', mp_obj_list_remove MP_OBJ_NULL l v = Ret l' /\ repr l' (delete j xs)
  end.
Proof.
  intros Hl. unfold mp_obj_list_remove. rewrite (list_index_ok _ _ _ Hl). unfold py_index_of.
  destruct (list_find _ xs) as [[j y]|] eqn:E; [|done]. cbn. apply list_find_Some in E as (Hj & _ & _).
  apply lookup_lt_Some in Hj. pose proof (pop_ok l xs (Some (Z.of_nat j)) Hl) as H.
  assert (F : py_index (Z.of_nat (length xs)) (default (-1) (Some (Z.of_nat j))) = Some j).
  { cbn. unfold py_index. rewrite (proj2 (Z.ltb_ge _ 0)), (proj2 (Z.leb_le _ _)), (proj2 (Z.ltb_lt _ _)) by lia.
    cbn [andb]. by rewrite Nat2Z.id. }
  rewrite F in H.
  destruct H as (x & l' & _ & -> & Hl'). by exists l'.
Qed.

(** ** Reversing *)

Lemma reverse_loop_ok fuel (a m c tl : list obj) n : (length m < fuel)%nat -> length a = length c ->
  n = Z.of_nat (length a + length m + length c) ->
  reverse_loop fuel (a ++ m ++ c ++ tl) (Z.of_nat (length a)) n = Ret (a ++ reverse m ++ c ++ tl).
Proof.
  revert a m c. induction fuel as [|fuel IH]; intros a m c Hf Hac ->; [lia|]. cbn [reverse_loop].
  rewrite Z.quot_div_nonneg by lia.
  destruct m as [|x m]; [|destruct m as [|y m _] using rev_ind].
  - rewrite (proj2 (Z.ltb_ge _ _)); [done|]. cbn. zdiv.
  - rewrite (proj2 (Z.ltb_ge _ _)); [done|]. cbn. zdiv.
  - cbn [length] in *. rewrite length_app in *. cbn [length] in *. rewrite (proj2 (Z.ltb_lt _ _)) by zdiv.
    replace (Z.of_nat (length a + S (length m + 1) + length c) - Z.of_nat (length a) - 1)
      with (Z.of_nat (length (a ++ x :: m))) by (rewrite length_app; cbn [length]; lia).
    rewrite <- app_comm_cons, rd_middle. cbn [obind].
    replace (a ++ x :: (m ++ [y]) ++ c ++ tl) with ((a ++ x :: m) ++ y :: c ++ tl)
      by lapp.
    rewrite rd_middle. cbn [obind]. rewrite <- app_assoc. cbn [app]. rewrite wr_middle. cbn [obind].
    rewrite app_comm_cons, app_assoc.
    replace (Z.of_nat (length (a ++ x :: m))) with (Z.of_nat (length (a ++ y :: m))) by (rewrite !length_app; done).
    rewrite wr_middle. cbn [obind].
    replace (Z.of_nat (length a) + 1) with (Z.of_nat (length (a ++ [y]))) by lens.
    replace ((a ++ y :: m) ++ x :: c ++ tl) with ((a ++ [y]) ++ m ++ (x :: c) ++ tl)
      by lapp.
    rewrite IH; [|lia|rewrite length_app; cbn [length]; lia|rewrite length_app; cbn [length]; lia].
    rewrite reverse_cons, reverse_snoc. lapp.
Qed.

Lemma reverse_ok l xs : repr l xs -> exists l', list_reverse l = Ret l' /\ repr l' (reverse xs).
Proof.
  intros [H1 H2 H3 H4 H5]. unfold list_reverse. rewrite H5, H3.
  pose proof (reverse_loop_ok (S (Z.to_nat (Z.of_nat (length xs)))) [] xs [] (NULLs (Z.to_nat (alloc l - Z.of_nat (length xs))))
    (Z.of_nat (length xs))) as E. cbn [app length] in E. change (Z.of_nat 0) with 0 in E. rewrite E by lia. cbn [obind].
  eexists. split; [done|]. split; cbn [alloc len items]; rewrite ?length_reverse; lia || done.
Qed.

(** ** Clearing *)

Lemma clear_ok l xs : repr l xs ->
  (snd (list_clear MP_OBJ_NULL l) = Ret tt /\ repr (fst (list_clear MP_OBJ_NULL l)) []) \/
  (snd (list_clear MP_OBJ_NULL l) = Raise MemoryError /\ len (fst (list_clear MP_OBJ_NULL l)) = 0).
Proof.
  intros Hl. pose proof (repr_length _ _ Hl) as Hlen. destruct Hl as [H1 H2 H3 H4 H5].
  unfold list_clear, LIST_MIN_ALLOC. cbn [items alloc].
  assert (Hc : forall a : list obj, length a = 4%nat -> mp_seq_clear a 0 4 = Ret (NULLs 4)).
  { intros a Ha. rewrite <- (app_nil_l a) at 1. rewrite clear_end by lens. by rewrite Ha. }
  destruct (Z.lt_ge_cases (alloc l) 4) as [Hlt|Hge].
  - destruct (renew_grow (items l) 4) as [-> | (a & -> & _ & ->)]; [lia..| |].
    + by right.
    + left. cbn [obind]. rewrite Hc by (rewrite length_app, length_replicate; lia). by split.
  - left. rewrite m_renew_shrink by lia. cbn [obind]. rewrite Hc by (rewrite length_take; lia). by split.
Qed.
End ListSpec.
