(* ===== verification/ListRefine.v ===== *)
(** * Lists refine Python's lists

    Slices, concatenation and repetition, and the refinement theorem: running any sequence of
    list operations on the array representation gives what the abstract operations give on
    the sequence of items. *)

From S2P Require Import Prelude Malloc MpObj Sequence ObjList ListSpec.
Local Open Scope Z_scope.

Section ListRefine.
Context {obj : Type} `{!MpObjOps obj} {allocator : Allocator obj}.
Variables MP_OBJ_NULL mp_const_none : obj.
Hypothesis heap_small : forall b, m_renew_ok b = true -> b < 2 ^ 28.
Implicit Types (xs ys : list obj).
Notation NULLs n := (replicate n MP_OBJ_NULL).
Notation repr := (repr MP_OBJ_NULL).

Lemma memcpy_in_start (a c ys : list obj) : length a = length ys -> memcpy_in (a ++ c) 0 ys = Ret (ys ++ c).
Proof. apply (memcpy_in_middle []). Qed.

(** ** Slices with step 1 *)

Definition slice_lo xs (s : option Z) : nat := Z.to_nat (py_start s 1 (Z.of_nat (length xs))).
Definition slice_hi xs (s e : option Z) : nat :=
  Z.to_nat (Z.max (py_start s 1 (Z.of_nat (length xs))) (py_stop e 1 (Z.of_nat (length xs)))).

Lemma slice_bounds xs s e : (slice_lo xs s <= slice_hi xs s e <= length xs)%nat.
Proof.
  unfold slice_lo, slice_hi.
  destruct (py_bounds_up s e 1 (Z.of_nat (length xs))); lia.
Qed.

Definition step_of (st : option Z) : Z := default 1 st.

Lemma fast_slice_ok n xs s e st : n = Z.of_nat (length xs) ->
  mp_seq_get_fast_slice_indexes n s e st =
  if step_of st =? 0 then Raise ValueError
  else if step_of st =? 1 then Ret (mk_bound (Z.of_nat (slice_lo xs s)) (Z.of_nat (slice_hi xs s e)) 1, true)
  else let! '(i, _) := mp_seq_get_fast_slice_indexes n s e st in Ret (i, false).
Proof.
  intros ->. set (n := Z.of_nat (length xs)).
  assert (Hst : st = None \/ st = Some (step_of st)) by (destruct st; auto).
  assert (E : mp_seq_get_fast_slice_indexes n s e st = mp_seq_get_fast_slice_indexes n s e (Some (step_of st))).
  { destruct Hst as [-> | Hst]; [done|by rewrite <- Hst]. }
  rewrite E. clear E Hst. generalize (step_of st) as k. intros k.
  destruct (Z.eqb_spec k 0) as [->|Hk]; [done|]. destruct (Z.eqb_spec k 1) as [->|Hk1].
  - unfold mp_seq_get_fast_slice_indexes. rewrite slice_indices_py by done. cbn [obind Sequence.start Sequence.stop Sequence.step].
    change (1 <? 0) with false. change (0 <? 1) with true. change (1 =? 1) with true. cbn [andb].
    destruct (py_bounds_up s e 1 n ltac:(lia) ltac:(lia)). unfold slice_lo, slice_hi. fold n.
    do 2 f_equal. f_equal; repeat bcase; lia.
  - unfold mp_seq_get_fast_slice_indexes. rewrite slice_indices_py by done. cbn [obind Sequence.start Sequence.stop Sequence.step].
    by rewrite (proj2 (Z.eqb_neq k 1)).
Qed.

Lemma fast_slice_total n s e k : k <> 0 -> exists i, mp_seq_get_fast_slice_indexes n s e (Some k) = Ret (i, k =? 1).
Proof. intros Hk. unfold mp_seq_get_fast_slice_indexes. rewrite slice_indices_py by done. cbn [obind]. by eexists. Qed.

Lemma slice_parts xs s e :
  exists a m c, xs = a ++ m ++ c /\ length a = slice_lo xs s /\ (length a + length m = slice_hi xs s e)%nat /\
    take (slice_lo xs s) xs = a /\ drop (slice_hi xs s e) xs = c.
Proof.
  pose proof (slice_bounds xs s e). exists (take (slice_lo xs s) xs), (drop (slice_lo xs s) (take (slice_hi xs s e) xs)), (drop (slice_hi xs s e) xs).
  split_and!; try lens; try done. rewrite app_assoc. rewrite <- (take_drop (slice_hi xs s e) xs) at 1. f_equal.
  rewrite <- (take_drop (slice_lo xs s) (take (slice_hi xs s e) xs)) at 1. f_equal. rewrite take_take. f_equal. lia.
Qed.

(** What a slice deletion or store leads to: [ValueError] for step 0, [NotImplementedError] for a
    step other than 1, and the new items otherwise. *)
Definition py_store_slice xs s e st ys : outcome (list obj) :=
  if step_of st =? 0 then Raise ValueError
  else if step_of st =? 1 then Ret (take (slice_lo xs s) xs ++ ys ++ drop (slice_hi xs s e) xs)
  else Raise NotImplementedError.

(** [m] agrees with the reference [r] up to running out of memory. *)
Definition refines {A B} (R : A -> B -> Prop) (m : outcome A) (r : outcome B) : Prop :=
  m = Raise MemoryError \/
  match r with
  | Ret b => exists a, m = Ret a /\ R a b
  | Raise e => m = Raise e
  | _ => False
  end.

Lemma refines_ret {A B} (R : A -> B -> Prop) m b a : m = Ret a -> R a b -> refines R m (Ret b).
Proof. intros. right. eauto. Qed.

Lemma refines_yields {A B} (R : A -> B -> Prop) m b : yields m (fun a => R a b) -> refines R m (Ret b).
Proof. done. Qed.

(** The cases of the step. *)
Lemma slice_cases {B} n xs s e st (k : mp_bound_slice_t * bool -> outcome B) : n = Z.of_nat (length xs) ->
  obind (mp_seq_get_fast_slice_indexes n s e st) k =
  if step_of st =? 0 then Raise ValueError
  else if step_of st =? 1 then k (mk_bound (Z.of_nat (slice_lo xs s)) (Z.of_nat (slice_hi xs s e)) 1, true)
  else let! '(i, _) := mp_seq_get_fast_slice_indexes n s e st in k (i, false).
Proof.
  intros ->. rewrite (fast_slice_ok _ xs) by done. destruct (Z.eqb_spec (step_of st) 0); [done|].
  destruct (step_of st =? 1); [done|]. by destruct (mp_seq_get_fast_slice_indexes _ _ _ _) as [[]| | |].
Qed.

Lemma slow_slice n s e st {B} (f : mp_bound_slice_t -> outcome B) r : step_of st <> 0 -> (forall i, f i = r) ->
  (let! '(i, _) := mp_seq_get_fast_slice_indexes n s e st in f i) = r.
Proof.
  intros Hst Hf. assert (E : mp_seq_get_fast_slice_indexes n s e st = mp_seq_get_fast_slice_indexes n s e (Some (step_of st))).
  { by destruct st. }
  rewrite E. destruct (fast_slice_total n s e (step_of st) Hst) as (i & ->). apply Hf.
Qed.

Lemma no_grow_ok (a m c ys tl : list obj) n beg stop : (length ys <= length m)%nat ->
  n = Z.of_nat (length (a ++ m ++ c)) -> beg = Z.of_nat (length a) -> stop = beg + Z.of_nat (length m) ->
  (let! b := mp_seq_replace_slice_no_grow (a ++ m ++ c ++ tl) n beg stop ys in
   mp_seq_clear MP_OBJ_NULL b (n + (Z.of_nat (length ys) - (stop - beg))) n) =
  Ret (a ++ ys ++ c ++ NULLs (length m - length ys) ++ tl).
Proof.
  intros Hle -> -> ->. unfold mp_seq_replace_slice_no_grow.
  rewrite <- (take_drop (length ys) m) at 1. rewrite <- (app_assoc (take _ m)), memcpy_in_middle by lens. cbn [obind].
  rewrite (app_assoc a ys). set (m' := drop (length ys) m).
  assert (Hm' : length m' = (length m - length ys)%nat) by (unfold m'; lens).
  destruct (memmove_down (a ++ ys) m' c tl (Z.of_nat (length a) + Z.of_nat (length ys)) (Z.of_nat (length a) + Z.of_nat (length m))
    (Z.of_nat (length (a ++ m ++ c)) - (Z.of_nat (length a) + Z.of_nat (length m)))) as (j & -> & Hj); [lens..|].
  cbn [obind]. rewrite (app_assoc (a ++ ys) c), clear_middle by lens. rewrite Hj, Hm'. by rewrite <- !app_assoc.
Qed.

Lemma delete_slice_ok l xs s e st : repr l xs ->
  refines repr (delete_slice MP_OBJ_NULL l s e st) (py_store_slice xs s e st []).
Proof.
  intros [H1 H2 H3 H4 H5]. unfold delete_slice, py_store_slice. rewrite (slice_cases _ xs) by done.
  destruct (Z.eqb_spec (step_of st) 0) as [|Hst]; [by right|]. destruct (step_of st =? 1).
  2: { right. by apply slow_slice. }
  destruct (slice_parts xs s e) as (a & m & c & E & Ha & Hm & -> & ->). rewrite <- Ha, <- Hm.
  assert (Hitems : items l = a ++ m ++ c ++ NULLs (Z.to_nat (alloc l - len l))) by (by rewrite H5, E, <- !app_assoc).
  rewrite E in H3. cbn [negb Sequence.start Sequence.stop]. rewrite (proj2 (Z.leb_le _ 0)) by lia. cbn [negb].
  rewrite Nat2Z.inj_add.
  pose proof (no_grow_ok a m c [] (NULLs (Z.to_nat (alloc l - len l))) (len l) (Z.of_nat (length a))
    (Z.of_nat (length a) + Z.of_nat (length m)) ltac:(cbn; lia) H3 eq_refl eq_refl) as Hg.
  change (Z.of_nat (length (@nil obj))) with 0 in Hg.
  replace (len l + (Z.of_nat (length a) - (Z.of_nat (length a) + Z.of_nat (length m))))
    with (len l + (0 - (Z.of_nat (length a) + Z.of_nat (length m) - Z.of_nat (length a)))) by lia.
  rewrite Hitems. destruct (mp_seq_replace_slice_no_grow _ _ _ _ _) as [b| | |]; cbn [obind] in *; try discriminate Hg.
  rewrite Hg. cbn [obind]. eapply refines_ret; [done|]. clear Hg. cbn [app].
  split; cbn [alloc len items]; try lens. rewrite Nat.sub_0_r, <- app_assoc, <- replicate_add. do 3 f_equal. lens.
Qed.

Lemma grow_inplace_ok (a m c ys y : list obj) n beg stop adj : (length m < length ys)%nat ->
  (length ys - length m <= length y)%nat ->
  n = Z.of_nat (length (a ++ m ++ c)) -> beg = Z.of_nat (length a) -> stop = beg + Z.of_nat (length m) ->
  adj = Z.of_nat (length ys) - Z.of_nat (length m) ->
  mp_seq_replace_slice_grow_inplace (a ++ m ++ c ++ y) n beg stop ys adj =
  Ret (a ++ ys ++ c ++ drop (length ys - length m) y).
Proof.
  intros Hlt Hroom -> -> -> ->. unfold mp_seq_replace_slice_grow_inplace.
  destruct (memmove_up a m c y (Z.of_nat (length a) + Z.of_nat (length ys)) (Z.of_nat (length a) + Z.of_nat (length m))
    (Z.of_nat (length (a ++ m ++ c)) + (Z.of_nat (length ys) - Z.of_nat (length m)) -
     (Z.of_nat (length a) + Z.of_nat (length ys))) (length ys - length m)) as (j & -> & Hj); [lens..|].
  cbn [obind]. by rewrite memcpy_in_middle by lia.
Qed.

Lemma store_slice_ok l xs s e st ys : repr l xs -> 4 * Z.of_nat (length ys) < 2 ^ 28 ->
  refines repr (store_slice MP_OBJ_NULL l s e st ys) (py_store_slice xs s e st ys).
Proof.
  intros Hl Hys. pose proof (repr_length _ _ _ Hl) as Hlen. destruct Hl as [H1 H2 H3 H4 H5].
  unfold store_slice, py_store_slice. rewrite (slice_cases _ xs) by done.
  destruct (Z.eqb_spec (step_of st) 0) as [|Hst]; [by right|]. destruct (step_of st =? 1).
  2: { right. by apply slow_slice. }
  destruct (slice_parts xs s e) as (a & m & c & E & Ha & Hm & -> & ->). rewrite <- Ha, <- Hm. apply refines_yields.
  cbn [negb Sequence.start Sequence.stop]. rewrite Nat2Z.inj_add.
  set (adj := Z.of_nat (length ys) - _). assert (Hadj : adj = Z.of_nat (length ys) - Z.of_nat (length m)) by (unfold adj; lia).
  assert (Hitems : items l = a ++ m ++ c ++ NULLs (Z.to_nat (alloc l - len l))) by (by rewrite H5, E, <- !app_assoc).
  rewrite E in H3.
  eapply (yields_bind _ _ (fun l' => 2 <= alloc l' /\ 4 * alloc l' < 2 ^ 28 /\ len l' = len l /\ len l + adj <= alloc l' /\
    items l' = a ++ ys ++ c ++ NULLs (Z.to_nat (alloc l' - (len l + adj))))).
  - destruct (Z.ltb_spec 0 adj).
    + eapply (yields_bind _ _ (fun l' => 2 <= alloc l' /\ 4 * alloc l' < 2 ^ 28 /\ len l' = len l /\ len l + adj <= alloc l' /\
        exists y, items l' = a ++ m ++ c ++ y /\ (Z.to_nat adj <= length y)%nat /\
          drop (Z.to_nat adj) y = NULLs (Z.to_nat (alloc l' - (len l + adj))))).
      * destruct (Z.ltb_spec (alloc l) (len l + adj)).
        -- eapply yields_bind; [apply renew_grow; [done|lia|lens]|]. intros b (Hs & ->).
           eapply yields_ret; [done|]. cbn [alloc len items]. split_and!; try lia.
           exists (NULLs (Z.to_nat (alloc l - len l)) ++ replicate (Z.to_nat (len l + adj) - length (items l)) fresh).
           split; [rewrite Hitems at 1; by rewrite <- !app_assoc|]. split; [lens|].
           rewrite Z.sub_diag. apply drop_ge. lens.
        -- eapply yields_ret; [done|]. split_and!; try (done || lia). eexists. split; [exact Hitems|]. split; [lens|].
           rewrite drop_replicate. f_equal. lia.
      * intros l1 (A1 & A2 & A3 & A4 & y & A5 & A6 & A7). rewrite A3, A5, (grow_inplace_ok a m c ys y) by lia. cbn [obind].
        eapply yields_ret; [done|]. cbn [alloc len items]. split_and!; try lia.
        replace (length ys - length m)%nat with (Z.to_nat adj) by lia. by rewrite A7.
    + pose proof (no_grow_ok a m c ys (NULLs (Z.to_nat (alloc l - len l))) (len l) (Z.of_nat (length a))
        (Z.of_nat (length a) + Z.of_nat (length m)) ltac:(lia) H3 eq_refl eq_refl) as Hg. fold adj in Hg.
      rewrite Hitems. destruct (mp_seq_replace_slice_no_grow _ _ _ _ _) as [b| | |]; cbn [obind] in *; try discriminate Hg.
      rewrite Hg. cbn [obind]. eapply yields_ret; [done|]. cbn [alloc len items]. split_and!; try lens.
      rewrite <- replicate_add. do 4 f_equal. lens.
  - intros l1 (A1 & A2 & A3 & A4 & A5). eapply yields_ret; [done|].
    split; cbn [alloc len items]; try (done || lens). rewrite A3, A5. by rewrite <- !app_assoc.
Qed.

(** ** Loading a slice *)

Lemma omap_range xs n a : (a + n <= length xs)%nat ->
  omap (fun i => xs !! Z.to_nat i) (range (Z.of_nat a) 1 n) = take n (drop a xs).
Proof.
  revert a. induction n as [|n IH]; intros a H; [done|]. cbn [range omap list_omap].
  rewrite Nat2Z.id. destruct (lookup_lt_is_Some_2 xs a) as [x Hx]; [lia|]. rewrite Hx.
  replace (Z.of_nat a + 1) with (Z.of_nat (S a)) by lia.
  change (list_omap ?f ?l) with (omap f l). rewrite IH by lia. by rewrite (drop_S xs x a Hx).
Qed.

Lemma py_slice_step1 xs s e : py_slice xs s e 1 = take (slice_hi xs s e - slice_lo xs s) (drop (slice_lo xs s) xs).
Proof.
  pose proof (slice_bounds xs s e) as H. rewrite <- omap_range by lia. unfold py_slice, slice_hi, slice_lo in *.
  destruct (py_bounds_up s e 1 (Z.of_nat (length xs))) as [Hs He]; [lia..|].
  set (a := py_start s 1 _) in *. set (b := py_stop e 1 _) in *. unfold py_count. change (0 <? 1) with true.
  rewrite Z.div_1_r, Z2Nat.id by lia. do 2 f_equal. lia.
Qed.

(** What loading a slice gives. *)
Definition py_load_slice xs s e st : outcome (list obj) :=
  if step_of st =? 0 then Raise ValueError else Ret (py_slice xs s e (step_of st)).

Lemma load_slice_ok l xs s e st : repr l xs ->
  refines eq (load_slice MP_OBJ_NULL l s e st) (py_load_slice xs s e st).
Proof.
  intros Hl. pose proof (slice_bounds xs s e) as Hb. pose proof Hl as [H1 H2 H3 H4 H5].
  assert (Hslow : step_of st <> 0 -> slice xs s e st = Ret (py_slice xs s e (step_of st))).
  { intros Hst. rewrite slice_ok. destruct st as [[]|]; try done. }
  unfold load_slice, py_load_slice. rewrite (slice_cases _ xs) by done.
  destruct (Z.eqb_spec (step_of st) 0) as [|Hst]; [by right|]. destruct (Z.eqb_spec (step_of st) 1) as [->|H1'].
  - rewrite py_slice_step1. cbn [negb Sequence.start Sequence.stop]. apply refines_yields.
    eapply yields_bind; [apply list_new_ok; [done|lia]|]. intros l1 (A1 & A2 & A3 & A4 & A5).
    rewrite A3, A5, Nat2Z.id, H5, drop_app_le, take_app_le by lens.
    replace (Z.to_nat (Z.of_nat (slice_hi xs s e) - Z.of_nat (slice_lo xs s))) with (slice_hi xs s e - slice_lo xs s)%nat by lia.
    set (ys := take _ (drop _ xs)). assert (Hys : length ys = (slice_hi xs s e - slice_lo xs s)%nat) by (unfold ys; lens).
    rewrite memcpy_in_start by lens. cbn [obind]. eapply yields_ret; [done|].
    unfold mp_obj_list_get. cbn [len items]. by rewrite take_app_length' by lia.
  - right. eexists. split; [|done]. unfold slice in Hslow. specialize (Hslow Hst). rewrite (repr_get _ _ _ Hl), H3.
    by destruct (mp_seq_get_fast_slice_indexes _ s e st) as [[]| | |].
Qed.

(** Loading a slice of a list terminates without reading outside the array and gives exactly
    the items of Python's slice, whatever [start] and [stop], present or not, and whatever the
    step, by the fast copy (step 1) or item by item; step 0 is a [ValueError]. *)
Theorem load_slice_spec l xs s e st : repr l xs ->
  refines eq (load_slice MP_OBJ_NULL l s e st) (py_load_slice xs s e st).
Proof. apply load_slice_ok. Qed.

(** ** Concatenation, repetition, copies *)

Lemma copy_ok l xs : repr l xs -> yields (list_copy MP_OBJ_NULL l) (fun l' => repr l' xs).
Proof.
  intros [H1 H2 H3 H4 H5]. unfold list_copy. rewrite H3, H5. apply mp_obj_new_list_ok; [done|lia].
Qed.

Lemma add_ok l1 xs l2 ys : repr l1 xs -> repr l2 ys -> yields (list_add MP_OBJ_NULL l1 l2) (fun l => repr l (xs ++ ys)).
Proof.
  intros Hl1 Hl2. unfold list_add. rewrite (repr_get _ _ _ Hl1), (repr_get _ _ _ Hl2).
  destruct Hl1, Hl2. rewrite wrap_small by lia. eapply yields_bind; [apply list_new_ok; [done|lia]|].
  intros l (A1 & A2 & A3 & A4 & A5). rewrite A5. unfold mp_seq_cat.
  replace (Z.to_nat (len l1 + len l2)) with (length xs + length ys)%nat by lia. rewrite replicate_add, <- app_assoc.
  rewrite memcpy_in_start by lens. cbn [obind]. rewrite memcpy_in_middle by lens. cbn [obind].
  eapply yields_ret; [done|]. split; cbn [alloc len items]; try (done || lens). rewrite A3. lapp.
Qed.

(** Python's [xs * n]. *)
Definition py_repeat xs (n : nat) : list obj := mjoin (replicate n xs).

Lemma seq_multiply_ok n xs (a b c : list obj) : length b = (n * length xs)%nat ->
  mp_seq_multiply xs n (a ++ b ++ c) (Z.of_nat (length a)) = Ret (a ++ py_repeat xs n ++ c).
Proof.
  revert a b. induction n as [|n IH]; intros a b Hb; cbn [mp_seq_multiply].
  - destruct b; [done|discriminate Hb].
  - rewrite <- (take_drop (length xs) b), <- (app_assoc (take _ b)), memcpy_in_middle by lens. cbn [obind].
    rewrite app_assoc, <- Nat2Z.inj_add, <- length_app. rewrite IH by lens.
    unfold py_repeat. cbn [replicate mjoin list_join]. by rewrite <- !app_assoc.
Qed.

Lemma multiply_ok l xs n : repr l xs -> Z.of_nat (length xs) * n < 2 ^ 28 ->
  yields (list_multiply MP_OBJ_NULL l n) (fun l' => repr l' (py_repeat xs (Z.to_nat n))).
Proof.
  intros Hl Hn. unfold list_multiply. rewrite (repr_get _ _ _ Hl). destruct Hl. rewrite repr_len.
  cbn zeta. replace (if n <? 0 then 0 else n) with (Z.of_nat (Z.to_nat n)) by (bcase; lia).
  rewrite Nat2Z.id, <- Nat2Z.inj_mul.
  assert (Hs : Z.of_nat (length xs * Z.to_nat n) < 2 ^ 28) by (destruct (Z.lt_ge_cases n 0); nia).
  rewrite wrap_small by lia. eapply yields_bind; [apply list_new_ok; [done|lia]|].
  intros l' (A1 & A2 & A3 & A4 & A5). rewrite A5, Nat2Z.id.
  pose proof (seq_multiply_ok (Z.to_nat n) xs [] (replicate (length xs * Z.to_nat n) fresh)
    (NULLs (Z.to_nat (alloc l' - Z.of_nat (length xs * Z.to_nat n))))) as E.
  cbn [app length] in E. change (Z.of_nat 0) with 0 in E. rewrite E by (rewrite length_replicate; lia). cbn [obind].
  eapply yields_ret; [done|].
  assert (Hlen : length (py_repeat xs (Z.to_nat n)) = (length xs * Z.to_nat n)%nat).
  { clear. induction (Z.to_nat n) as [|k IH]; [cbn; lia|].
    change (py_repeat xs (S k)) with (xs ++ py_repeat xs k). rewrite length_app. lia. }
  split; cbn [alloc len items]; try lia. by rewrite A3.
Qed.

(** ** The refinement *)

Variable mp_obj_get_array : obj -> outcome (list obj).

(** [mp_obj_get_array] returns an array of the heap or raises. *)
Hypothesis get_array_ok : forall v,
  match mp_obj_get_array v with Ret ys => 4 * Z.of_nat (length ys) < 2 ^ 28 | Raise _ => True | _ => False end.

Inductive list_op :=
| Append (v : obj)
| ExtendIter (iterable : list obj)
| Extend (arg : option (mp_obj_list_t (obj := obj)))
| Insert (i : Z) (v : obj)
| Pop (i : option Z)
| Remove (v : obj)
| Reverse
| Clear
| Subscr (index : subscript) (value : subscr_value (obj := obj)).

(** The operation, with the items it returns. *)
Definition run_op (self : mp_obj_list_t) (o : list_op) : outcome (mp_obj_list_t * list obj) :=
  match o with
  | Append v => let! l := mp_obj_list_append MP_OBJ_NULL self v in Ret (l, [])
  | ExtendIter ys => let! l := list_extend_from_iter MP_OBJ_NULL self ys in Ret (l, [])
  | Extend arg => let! l := list_extend MP_OBJ_NULL self arg in Ret (l, [])
  | Insert i v => let! l := list_insert MP_OBJ_NULL mp_const_none self i v in Ret (l, [])
  | Pop i => let! '(l, x) := list_pop MP_OBJ_NULL self i in Ret (l, [x])
  | Remove v => let! l := mp_obj_list_remove MP_OBJ_NULL self v in Ret (l, [])
  | Reverse => let! l := list_reverse self in Ret (l, [])
  | Clear => let '(l, m) := list_clear MP_OBJ_NULL self in let! _ := m in Ret (l, [])
  | Subscr index value => list_subscr MP_OBJ_NULL mp_obj_get_array self index value
  end.

(** The abstract operations, on sequences of items. *)
Definition py_pop xs (i : Z) : outcome (list obj * obj) :=
  match py_index (Z.of_nat (length xs)) i with
  | Some j => match xs !! j with Some x => Ret (delete j xs, x) | None => Undef end
  | None => Raise IndexError
  end.

Definition py_subscr xs (index : subscript) (value : subscr_value (obj := obj)) : outcome (list obj * list obj) :=
  match value, index with
  | Del, Slice s e st => let! xs := py_store_slice xs s e st [] in Ret (xs, [])
  | Del, At i => let! '(xs, _) := py_pop xs i in Ret (xs, [])
  | Load, Slice s e st => let! ys := py_load_slice xs s e st in Ret (xs, ys)
  | Load, At i => let! '(_, x) := py_pop xs i in Ret (xs, [x])
  | Store v, Slice s e st => let! ys := mp_obj_get_array v in let! xs := py_store_slice xs s e st ys in Ret (xs, [])
  | Store v, At i =>
    match py_index (Z.of_nat (length xs)) i with Some j => Ret (<[j := v]> xs, []) | None => Raise IndexError end
  end.

Definition py_op xs (o : list_op) : outcome (list obj * list obj) :=
  match o with
  | Append v => Ret (xs ++ [v], [])
  | ExtendIter ys => Ret (xs ++ ys, [])
  | Extend arg => Ret (xs ++ match arg with Some a => mp_obj_list_get a | None => xs end, [])
  | Insert i v => Ret (py_insert xs i v, [])
  | Pop i => let! '(xs, x) := py_pop xs (default (-1) i) in Ret (xs, [x])
  | Remove v => match py_index_of xs v with Some j => Ret (delete j xs, []) | None => Raise ValueError end
  | Reverse => Ret (reverse xs, [])
  | Clear => Ret ([], [])
  | Subscr index value => py_subscr xs index value
  end.

(** The other list of [extend] is a well-formed one. *)
Definition op_wf (o : list_op) : Prop := match o with Extend (Some a) => exists ys, repr a ys | _ => True end.

Definition same_list : mp_obj_list_t * list obj -> list obj * list obj -> Prop :=
  fun a b => repr (fst a) (fst b) /\ snd a = snd b.

Lemma refines_bind {A B A' B'} (R : A -> B -> Prop) (S : A' -> B' -> Prop) m r f g :
  refines R m r -> (forall a b, R a b -> refines S (f a) (g b)) -> refines S (obind m f) (obind r g).
Proof.
  intros [-> | H] Hf; [by left|]. destruct r as [b|e| |]; cbn [obind]; try done.
  - destruct H as (a & -> & HR). by apply Hf.
  - rewrite H. by right.
Qed.

(** An operation with no result. *)
Lemma refines_unit m xs : yields m (fun l => repr l xs) -> refines same_list (let! l := m in Ret (l, [])) (Ret (xs, [])).
Proof. intros [-> | (l & -> & Hl)]; [by left|]. right. cbn [obind]. by eexists. Qed.

Lemma refines_unit_bind m r : refines repr m r ->
  refines same_list (let! l := m in Ret (l, [])) (let! xs := r in Ret (xs, [])).
Proof. intros H. eapply refines_bind; [exact H|]. intros l xs Hl. right. by eexists. Qed.

Lemma pop_refines l xs i : repr l xs ->
  refines (fun a b => repr (fst a) (fst b) /\ snd a = snd b) (list_pop MP_OBJ_NULL l i) (py_pop xs (default (-1) i)).
Proof.
  intros Hl. pose proof (pop_ok _ _ _ i Hl) as H. unfold py_pop. right.
  destruct (py_index _ _) as [j|]; [|by rewrite H]. destruct H as (x & l' & -> & -> & Hl'). by eexists.
Qed.

Lemma load_refines l xs i : repr l xs ->
  refines same_list (let! x := list_load l i in Ret (l, [x])) (let! '(_, x) := py_pop xs i in Ret (xs, [x])).
Proof.
  intros Hl. destruct (load_ok _ _ _ i Hl) as [-> Hu]. unfold py_pop. right.
  destruct (py_index _ _) as [j|] eqn:E; [|done]. apply py_index_split in E as (p & x & q & -> & <-).
  rewrite list_lookup_middle by done. by eexists.
Qed.

Lemma subscr_refines l xs index value : repr l xs ->
  refines same_list (list_subscr MP_OBJ_NULL mp_obj_get_array l index value) (py_subscr xs index value).
Proof.
  intros Hl. destruct value as [| |v], index as [i|s e st]; cbn [list_subscr py_subscr].
  - eapply refines_bind; [exact (pop_refines l xs (Some i) Hl)|].
    intros [l' x] [xs' y] [Hl' _]. right. by eexists.
  - apply refines_unit_bind. by apply delete_slice_ok.
  - by apply load_refines.
  - eapply refines_bind; [by apply load_slice_ok|]. intros ? ys ->. right. by eexists.
  - pose proof (store_ok _ l xs i v Hl) as H. destruct (py_index _ _) as [j|]; right.
    + destruct H as (l' & -> & Hl'). by eexists.
    + by rewrite H.
  - pose proof (get_array_ok v) as Hv. destruct (mp_obj_get_array v) as [ys|e'| |]; cbn [obind]; try done; [|by right].
    apply refines_unit_bind. by apply store_slice_ok.
Qed.

Lemma op_refines l xs o : repr l xs -> op_wf o -> refines same_list (run_op l o) (py_op xs o).
Proof.
  intros Hl Hwf. destruct o; cbn [run_op py_op].
  - apply refines_unit. by apply append_ok.
  - apply refines_unit. by apply extend_from_iter_ok.
  - apply refines_unit. apply extend_ok; [done|done|]. destruct arg as [a|]; [|done].
    destruct Hwf as (ys & Ha). cbn. by rewrite (repr_get _ _ _ Ha).
  - apply refines_unit. by apply insert_ok.
  - eapply refines_bind; [by apply pop_refines|].
    intros [l' x] [xs' y] [Hl' Hx]. right. cbn in *. subst y. by eexists.
  - pose proof (remove_ok _ l xs v Hl) as H. destruct (py_index_of xs v); right.
    + destruct H as (l' & -> & Hl'). by eexists.
    + by rewrite H.
  - right. destruct (reverse_ok _ l xs Hl) as (l' & -> & Hl'). by eexists.
  - destruct (clear_ok _ heap_small l xs Hl) as [[H1 H2]|[H1 _]]; destruct (list_clear MP_OBJ_NULL l) as [l' m]; cbn in H1; subst m.
    + right. by eexists.
    + by left.
  - by apply subscr_refines.
Qed.

(** Sequences of operations: the final list, and the results. *)
Fixpoint run_ops (self : mp_obj_list_t) (os : list list_op) : outcome (mp_obj_list_t * list obj) :=
  match os with
  | [] => Ret (self, [])
  | o :: os => let! '(self, r) := run_op self o in let! '(self, rs) := run_ops self os in Ret (self, r ++ rs)
  end.
Fixpoint py_ops xs (os : list list_op) : outcome (list obj * list obj) :=
  match os with
  | [] => Ret (xs, [])
  | o :: os => let! '(xs, r) := py_op xs o in let! '(xs, rs) := py_ops xs os in Ret (xs, r ++ rs)
  end.

(** C3. Any sequence of list operations, run on the array of slots, gives the items and raises
    the exceptions of Python's operations on the sequence of items, or runs out of memory; no
    operation accesses a slot outside the array, and the free slots stay [MP_OBJ_NULL]. *)
Theorem list_ops_refine l xs os : repr l xs -> Forall op_wf os ->
  refines same_list (run_ops l os) (py_ops xs os).
Proof.
  intros Hl Hwf. revert l xs Hl. induction Hwf as [|o os Ho _ IH]; intros l xs Hl; cbn [run_ops py_ops].
  - right. by eexists.
  - eapply refines_bind; [by apply op_refines|]. intros [l1 r1] [xs1 r2] [Hl1 Hr]. cbn in Hl1, Hr. subst r2.
    eapply refines_bind; [by apply IH|]. intros [l2 r2] [xs2 r3] [Hl2 Hr]. cbn in Hl2, Hr. subst r3.
    right. by eexists.
Qed.
End ListRefine.

(** ** Witnesses and a finding *)

Definition sample_null : sample_obj := Qstr 0.
Definition sample_array (o : sample_obj) : outcome (list sample_obj) :=
  match o with Lst n => Ret [Int n; Int n] | _ => Raise TypeError end.

Lemma sample_heap_small b : m_renew_ok (Allocator := MpObj.sample_heap) b = true -> b < 2 ^ 28.
Proof. cbn. intros H%Z.leb_le. lia. Qed.

Lemma sample_array_ok v :
  match sample_array v with Ret ys => 4 * Z.of_nat (length ys) < 2 ^ 28 | Raise _ => True | _ => False end.
Proof. by destruct v. Qed.

Definition sample_list : mp_obj_list_t := mk_list 4 3 [Int 1; Int 2; Int 3; sample_null].

Lemma sample_list_repr : repr sample_null sample_list [Int 1; Int 2; Int 3].
Proof. split; cbn; lia || done. Qed.

Lemma load_slice_spec_witness :
  load_slice sample_null sample_list (Some (-1)) None (Some (-2)) = Ret [Int 3; Int 1] /\
  refines eq (load_slice sample_null sample_list (Some (-1)) None (Some (-2))) (Ret [Int 3; Int 1]).
Proof.
  split; [reflexivity|].
  exact (load_slice_spec sample_null sample_heap_small sample_list [Int 1; Int 2; Int 3] (Some (-1)) None (Some (-2)) sample_list_repr).
Defined.

(** Appending twice grows the array; a slice store, an insertion, a pop and a deletion follow. *)
Definition sample_ops_list : list (list_op (obj := sample_obj)) :=
  [Append (Int 4); Append (Int 5); Subscr (Slice (Some 1) (Some 2) None) (Store (Lst 7)); Insert (-1) (Int 9);
   Pop (Some 0); Subscr (Slice (Some 3) None None) Del; Extend None; Reverse].

Lemma list_ops_refine_witness : exists l,
  run_ops sample_null (Qstr 1) sample_array sample_list sample_ops_list = Ret (l, [Int 1]) /\
  repr sample_null l [Int 3; Int 7; Int 7; Int 3; Int 7; Int 7].
Proof.
  assert (Hwf : Forall (op_wf sample_null) sample_ops_list) by (repeat constructor).
  pose proof (list_ops_refine sample_null (Qstr 1) sample_heap_small sample_array sample_array_ok
    sample_list [Int 1; Int 2; Int 3] sample_ops_list sample_list_repr Hwf) as H.
  assert (Hrun : run_ops sample_null (Qstr 1) sample_array sample_list sample_ops_list <> Raise MemoryError)
    by (vm_compute; discriminate).
  assert (Hpy : py_ops sample_array [Int 1; Int 2; Int 3] sample_ops_list =
    Ret ([Int 3; Int 7; Int 7; Int 3; Int 7; Int 7], [Int 1])) by (vm_compute; reflexivity).
  rewrite Hpy in H. destruct H as [H | ([l r] & Hl & Hrepr & Hr)]; [by destruct (Hrun H)|].
  exists l. cbn in Hrepr, Hr. subst r. by split.
Defined.

(** Repeating a list of 3 items 357913942 times: the slot count is [2 ^ 30 + 2], whose size in bytes
    wraps to 8, so that two slots are allocated and the items are then written beyond them. *)
Theorem list_multiply_wraps :
  m_new 4 (wrap 32 (3 * 357913942)) = Ret [Int 170; Int 170] /\
  list_multiply sample_null sample_list 357913942 = Undef.
Proof. split; vm_compute; reflexivity. Qed.
