(* ===== verification/ListSort.v ===== *)
(** * Sorting lists ([mp_quicksort] and [mp_obj_list_sort] of [py/objlist.c])

    The pointers [head], [tail], [h] and [t] are indices.  The key function and the comparison run user code, which may
    raise: they are arbitrary functions to a result or an exception.  The items are sorted in place, so what an exception
    leaves behind matters, and the functions return the items with their outcome.  What is not covered: user code that
    changes the list while it is sorted (the code keeps raw pointers to the items, and does not check).  The depth
    is the number of nested calls [MP_STACK_CHECK] lets through before it raises [RuntimeError]. *)

From Stdlib Require Import Sorted Permutation.
From S2P Require Import Prelude Malloc MpObj Sequence ObjList ListSpec ListRefine.
Local Open Scope Z_scope.

Section Sort.
Context {obj : Type}.
(** [mp_binary_op(MP_BINARY_OP_LESS, a, b)]: an exception, or [True], [False] or another object ([None]). *)
Variable less : obj -> obj -> exn + option bool.
(** [mp_call_function_1(key_fn, x)] *)
Variable key_fn : option (obj -> exn + obj).
(** [binop_less_result]: [true], or [false] to sort in reverse *)
Variable binop_less_result : bool.

Definition called {A} (r : exn + A) : outcome A := match r with inl e => Raise e | inr a => Ret a end.

(** [key_fn == MP_OBJ_NULL ? x : mp_call_function_1(key_fn, x)] *)
Definition keyed (x : obj) : outcome obj := match key_fn with None => Ret x | Some f => called (f x) end.

(** [mp_binary_op(MP_BINARY_OP_LESS, a, b) == binop_less_result] *)
Definition cmp (a b : obj) : outcome bool :=
  let! r := called (less a b) in
  Ret (match r with Some r => Bool.eqb r binop_less_result | None => false end).

(** ** Computations on the items *)

Definition M (A : Type) : Type := list obj -> list obj * outcome A.
Definition ret {A} (a : A) : M A := fun items => (items, Ret a).
Definition reads {A} (f : list obj -> outcome A) : M A := fun items => (items, f items).
Definition updates (f : list obj -> outcome (list obj)) : M unit := fun items =>
  match f items with
  | Ret items => (items, Ret tt)
  | Raise e => (items, Raise e)
  | Undef => (items, Undef)
  | OutOfFuel => (items, OutOfFuel)
  end.
Definition bind {A B} (m : M A) (f : A -> M B) : M B := fun items =>
  match m items with
  | (items, Ret a) => f a items
  | (items, Raise e) => (items, Raise e)
  | (items, Undef) => (items, Undef)
  | (items, OutOfFuel) => (items, OutOfFuel)
  end.
Local Notation "'do!' x := m 'in' k" := (bind m (fun x => k)) (at level 10, x name, m at level 100, k at level 200).

(** [do { ++h; } while (h < t && ...)] *)
Fixpoint scan_up (fuel : nat) (h t : Z) (v : obj) (items : list obj) : outcome Z :=
  match fuel with
  | O => OutOfFuel
  | S fuel =>
    let h := h + 1 in
    if h <? t then
      let! x := rd items h in
      let! k := keyed x in
      let! c := cmp k v in
      if c then scan_up fuel h t v items else Ret h
    else Ret h
  end.

(** [do { --t; } while (h < t && ...)] *)
Fixpoint scan_down (fuel : nat) (h t : Z) (v : obj) (items : list obj) : outcome Z :=
  match fuel with
  | O => OutOfFuel
  | S fuel =>
    let t := t - 1 in
    if h <? t then
      let! x := rd items t in
      let! k := keyed x in
      let! c := cmp v k in
      if c then scan_down fuel h t v items else Ret t
    else Ret t
  end.

Definition swap (items : list obj) (i j : Z) : outcome (list obj) :=
  let! x := rd items i in
  let! y := rd items j in
  let! items := wr items i y in
  wr items j x.

(** [for (;;)]: [h] and [t] when they have met. *)
Fixpoint partition (fuel : nat) (h t : Z) (v : obj) : M (Z * Z) :=
  match fuel with
  | O => reads (fun _ => OutOfFuel)
  | S fuel =>
    do! h := reads (fun items => scan_up (S (length items)) h t v items) in
    do! t := reads (fun items => scan_down (S (length items)) h t v items) in
    if t <=? h then ret (h, t) else
    do! _ := updates (fun items => swap items h t) in
    partition fuel h t v
  end.

(** [while (head < tail)], with the recursive call. *)
Fixpoint sort_loop (recurse : Z -> Z -> M unit) (fuel : nat) (head tail : Z) : M unit :=
  match fuel with
  | O => reads (fun _ => OutOfFuel)
  | S fuel =>
    if head <? tail then
      do! v := reads (fun items => let! p := rd items tail in keyed p) in
      do! n := reads (fun items => Ret (length items)) in
      do! ht := partition (S n) (head - 1) tail v in
      let '(h, t) := ht in
      do! _ := updates (fun items => swap items h tail) in
      if t - head <? tail - h - 1 then
        do! _ := recurse head t in
        sort_loop recurse fuel (h + 1) tail
      else
        do! _ := recurse (h + 1) tail in
        sort_loop recurse fuel head t
    else ret tt
  end.

Fixpoint mp_quicksort (depth : nat) (head tail : Z) : M unit :=
  match depth with
  | O => reads (fun _ => Raise RuntimeError)
  | S depth =>
    do! n := reads (fun items => Ret (length items)) in
    sort_loop (mp_quicksort depth) (S n) head tail
  end.

(** The list that is left, and how the call ends. *)
Definition mp_obj_list_sort (depth : nat) (self : mp_obj_list_t) : mp_obj_list_t * outcome unit :=
  if 1 <? len self then
    let '(a, r) := mp_quicksort depth 0 (len self - 1) (items self) in
    (mk_list (alloc self) (len self) a, r)
  else (self, Ret tt).

(** ** The order *)

(** [le] is a preorder that contains what the scans skip and what they stop at. *)
Variable le : obj -> obj -> Prop.
Hypothesis le_refl : forall a, le a a.
Hypothesis le_trans : forall a b c, le a b -> le b c -> le a c.
Hypothesis le_cmp : forall a b, cmp a b = Ret true -> le a b.
Hypothesis le_stop : forall a b, cmp a b = Ret false -> le b a.

Definition kle (x y : obj) : Prop := exists a b, keyed x = Ret a /\ keyed y = Ret b /\ le a b.
Definition left_of (v : obj) : list obj -> Prop := Forall (fun x => exists k, keyed x = Ret k /\ le k v).
Definition right_of (v : obj) : list obj -> Prop := Forall (fun x => exists k, keyed x = Ret k /\ le v k).

(** The exceptions of the key function and of the comparison. *)
Definition raised (e : exn) : Prop := (exists f x, key_fn = Some f /\ f x = inl e) \/ exists a b, less a b = inl e.

Lemma keyed_cases x : (exists k, keyed x = Ret k) \/ exists e, keyed x = Raise e /\ raised e.
Proof.
  unfold keyed. destruct key_fn as [f|] eqn:Ef; [|eauto]. destruct (f x) as [e|k] eqn:E; cbn [called]; [right|eauto].
  exists e. split; [done|]. left. eauto.
Qed.

Lemma cmp_cases a b : (exists c, cmp a b = Ret c) \/ exists e, cmp a b = Raise e /\ raised e.
Proof.
  unfold cmp. destruct (less a b) as [e|r] eqn:E; cbn [called obind]; [right|eauto]. exists e. split; [done|]. right. eauto.
Qed.

(** ** The scans *)

Lemma scan_up_ok fuel (a m c : list obj) h t v : (length m < fuel)%nat ->
  h = Z.of_nat (length a) - 1 -> t = Z.of_nat (length a + length m) ->
  (exists m1 m2, m = m1 ++ m2 /\ scan_up fuel h t v (a ++ m ++ c) = Ret (Z.of_nat (length a + length m1)) /\
    left_of v m1 /\ match m2 with [] => True | x :: _ => exists k, keyed x = Ret k /\ le v k end) \/
  exists e, scan_up fuel h t v (a ++ m ++ c) = Raise e /\ raised e.
Proof.
  revert fuel a h. induction m as [|x m IH]; intros fuel a h Hf -> Ht; destruct fuel as [|fuel]; try (cbn in Hf; lia); cbn [scan_up].
  - left. exists [], []. cbn [length] in *. rewrite (proj2 (Z.ltb_ge _ _)) by lia. split_and!; try done; [f_equal; lia|constructor].
  - cbn [length] in *. rewrite (proj2 (Z.ltb_lt _ _)) by lia.
    replace (Z.of_nat (length a) - 1 + 1) with (Z.of_nat (length a)) by lia.
    cbn [app]. rewrite rd_middle. cbn [obind].
    destruct (keyed_cases x) as [[k Hk]|(e & -> & ?)]; [rewrite Hk; cbn [obind]|right; cbn [obind]; eauto].
    destruct (cmp_cases k v) as [[[|] E]|(e & -> & ?)]; [..|right; cbn [obind]; eauto]; rewrite E; cbn [obind].
    + destruct (IH fuel (a ++ [x]) (Z.of_nat (length a))) as [(m1 & m2 & -> & Es & Hl & Hm2)|(e & Es & ?)]; [lia|lens|lens|..];
        rewrite <- app_assoc in Es; cbn [app] in Es; rewrite Es; [left|right; eauto].
      exists (x :: m1), m2. split_and!; try done; [f_equal; lens|]. constructor; [|done]. exists k. split; [done|by apply le_cmp].
    + left. exists [], (x :: m). split_and!; try done; [f_equal; cbn [length]; lia|constructor|]. exists k. split; [done|by apply le_stop].
Qed.

Lemma scan_down_ok fuel (a m c : list obj) h t v : (length m < fuel)%nat ->
  h = Z.of_nat (length a) - 1 -> t = Z.of_nat (length a + length m) ->
  (exists m1 m2, m = m1 ++ m2 /\ scan_down fuel h t v (a ++ m ++ c) = Ret (Z.of_nat (length a + length m1) - 1) /\
    right_of v m2 /\ (m1 = [] \/ exists m1' y, m1 = m1' ++ [y] /\ exists k, keyed y = Ret k /\ le k v)) \/
  exists e, scan_down fuel h t v (a ++ m ++ c) = Raise e /\ raised e.
Proof.
  revert fuel c t. induction m as [|x m IH] using rev_ind; intros fuel c t Hf -> ->; destruct fuel as [|fuel]; try lia; cbn [scan_down].
  - left. exists [], []. cbn [length]. rewrite (proj2 (Z.ltb_ge _ _)) by lia. split_and!; try done; [constructor|by left].
  - rewrite length_app in *. cbn [length] in *.
    replace (Z.of_nat (length a + (length m + 1)) - 1) with (Z.of_nat (length (a ++ m))) by lens.
    rewrite (proj2 (Z.ltb_lt _ _)) by lens.
    replace (a ++ (m ++ [x]) ++ c) with ((a ++ m) ++ x :: c) by lapp.
    rewrite rd_middle. cbn [obind].
    destruct (keyed_cases x) as [[k Hk]|(e & -> & ?)]; [rewrite Hk; cbn [obind]|right; cbn [obind]; eauto].
    destruct (cmp_cases v k) as [[[|] E]|(e & -> & ?)]; [..|right; cbn [obind]; eauto]; rewrite E; cbn [obind].
    + destruct (IH fuel (x :: c) (Z.of_nat (length (a ++ m)))) as [(m1 & m2 & -> & Es & Hr & Hm1)|(e & Es & ?)]; [lia|done|lens|..];
        rewrite <- (app_assoc a), Es; [left|right; eauto].
      exists m1, (m2 ++ [x]). split_and!; try done; [lapp|].
      apply Forall_app. split; [done|]. constructor; [|constructor]. exists k. split; [done|by apply le_cmp].
    + left. exists (m ++ [x]), []. rewrite app_nil_r. split_and!; try done; [f_equal; lens|constructor|].
      right. exists m, x. split; [done|]. exists k. split; [done|by apply le_stop].
Qed.

(** ** Partitioning *)

Lemma swap_ok (a m c : list obj) x y i j : i = Z.of_nat (length a) -> j = Z.of_nat (length a + S (length m)) ->
  swap (a ++ x :: m ++ y :: c) i j = Ret (a ++ y :: m ++ x :: c).
Proof.
  intros -> ->. unfold swap. rewrite rd_middle. cbn [obind].
  replace (length a + S (length m))%nat with (length (a ++ x :: m)) by (rewrite length_app; done).
  rewrite (app_comm_cons m), app_assoc, rd_middle, <- app_assoc. cbn [obind app]. rewrite wr_middle. cbn [obind].
  replace (length (a ++ x :: m)) with (length (a ++ y :: m)) by (rewrite !length_app; done).
  rewrite (app_comm_cons m), app_assoc, wr_middle. lapp.
Qed.

Lemma swap_same (a c : list obj) x i : i = Z.of_nat (length a) -> swap (a ++ x :: c) i i = Ret (a ++ x :: c).
Proof. intros ->. unfold swap. rewrite rd_middle. cbn [obind]. rewrite wr_middle. cbn [obind]. by rewrite wr_middle. Qed.

(** Where [h] and [t] stop. *)
Definition met (a l r : list obj) (t : Z) : Prop :=
  t = Z.of_nat (length a + length l) - 1 \/ t = Z.of_nat (length a + length l) /\ r <> [].

(** How a computation on the items may end otherwise: with an exception of the key function or of the comparison, and the
    same items between [a] and [b]. *)
Definition stopped {A} (a m b : list obj) (r : list obj * outcome A) : Prop :=
  exists e m', r = (a ++ m' ++ b, Raise e) /\ Permutation m m' /\ raised e.

Lemma partition_ok fuel (a l m r c : list obj) h t v : (length m < fuel)%nat ->
  h = Z.of_nat (length a + length l) - 1 -> t = Z.of_nat (length a + length l + length m) ->
  left_of v l -> right_of v r ->
  (exists l' r' t', partition fuel h t v (a ++ l ++ m ++ r ++ c) =
      (a ++ l' ++ r' ++ c, Ret (Z.of_nat (length a + length l'), t')) /\
    Permutation (l ++ m ++ r) (l' ++ r') /\ left_of v l' /\ right_of v r' /\ met a l' r' t') \/
  stopped a (l ++ m ++ r) c (partition fuel h t v (a ++ l ++ m ++ r ++ c)).
Proof.
  revert l m r h t. induction fuel as [|fuel IH]; intros l m r h t Hf -> -> Hl Hr; [lia|]. cbn [partition].
  unfold bind, reads, updates, ret. set (items := a ++ l ++ m ++ r ++ c).
  assert (Hstop : forall e, raised e -> stopped (A := Z * Z) a (l ++ m ++ r) c (items, Raise e)).
  { intros e He. exists e, (l ++ m ++ r). split_and!; [unfold items; f_equal; lapp|done|done]. }
  destruct (scan_up_ok (S (length items)) (a ++ l) m (r ++ c) (Z.of_nat (length a + length l) - 1)
    (Z.of_nat (length a + length l + length m)) v) as [(m1 & m2 & -> & Eup & Hm1 & Hm2)|(e & Eup & He)];
    [unfold items; lens|lens|lens|..]; rewrite <- app_assoc in Eup; fold items in Eup; rewrite Eup; [|by right; apply Hstop].
  assert (Hl1 : left_of v (l ++ m1)) by (by apply Forall_app).
  destruct m2 as [|x m3].
  - cbn [scan_down]. rewrite (proj2 (Z.ltb_ge _ _)) by lens. rewrite (proj2 (Z.leb_le _ _)) by lens. left.
    exists (l ++ m1), r, (Z.of_nat (length a + length (l ++ m1)) - 1). split_and!; try done.
    + unfold items. rewrite app_nil_r, <- !app_assoc. do 3 f_equal; lens.
    + by rewrite app_nil_r, app_assoc.
    + by left.
  - destruct (scan_down_ok (S (length items)) (a ++ l ++ m1 ++ [x]) m3 (r ++ c) (Z.of_nat (length (a ++ l) + length m1))
      (Z.of_nat (length a + length l + length (m1 ++ x :: m3))) v) as [(k1 & k2 & -> & Edown & Hk2 & Hk1)|(e & Edown & He)];
      [unfold items; lens|lens|lens|..]; [|replace ((a ++ l ++ m1 ++ [x]) ++ m3 ++ r ++ c) with items in Edown by (unfold items; lapp);
        rewrite Edown; by right; apply Hstop].
    replace ((a ++ l ++ m1 ++ [x]) ++ (k1 ++ k2) ++ r ++ c) with items in Edown by (unfold items; lapp).
    rewrite Edown.
    assert (Hr1 : right_of v (x :: k2 ++ r)) by (constructor; [done|by apply Forall_app]).
    destruct Hk1 as [-> | (k & y & -> & Hy)].
    + left. rewrite (proj2 (Z.leb_le _ _)) by lens. exists (l ++ m1), (x :: k2 ++ r), (Z.of_nat (length a + length (l ++ m1))).
      split_and!; try done.
      * unfold items. cbn [app]. rewrite <- !app_assoc. cbn [app]. rewrite <- ?app_assoc. do 3 f_equal; lens.
      * by rewrite <- !app_assoc.
      * by right.
    + rewrite (proj2 (Z.leb_gt _ _)) by lens. clear Hstop.
      replace items with ((a ++ l ++ m1) ++ x :: k ++ y :: (k2 ++ r ++ c)) by (unfold items; lapp).
      rewrite swap_ok by lens.
      replace ((a ++ l ++ m1) ++ y :: k ++ x :: k2 ++ r ++ c) with (a ++ (l ++ m1 ++ [y]) ++ k ++ (x :: k2 ++ r) ++ c) by lapp.
      assert (HPs : Permutation (l ++ (m1 ++ x :: (k ++ [y]) ++ k2) ++ r) ((l ++ m1 ++ [y]) ++ k ++ x :: k2 ++ r)).
      { rewrite <- !app_assoc. cbn [app]. do 2 f_equiv. rewrite <- !app_assoc. cbn [app].
        rewrite <- !Permutation_middle. apply perm_swap. }
      destruct (IH (l ++ m1 ++ [y]) k (x :: k2 ++ r) (Z.of_nat (length (a ++ l) + length m1))
        (Z.of_nat (length (a ++ l ++ m1 ++ [x]) + length (k ++ [y])) - 1))
        as [(l' & r' & t' & E & HP & H1 & H2 & H3)|(e & m' & E & HP & He)].
      * rewrite !length_app in Hf. cbn [length] in Hf. rewrite !length_app in Hf. lia.
      * lens.
      * lens.
      * rewrite app_assoc. apply Forall_app. split; [done|]. by constructor; [|constructor].
      * done.
      * left. exists l', r', t'. split_and!; try done. by rewrite HPs.
      * right. exists e, m'. split_and!; try done. by rewrite HPs.
Qed.

(** ** Sorting *)

Lemma StronglySorted_join (R : obj -> obj -> Prop) x y :
  StronglySorted R x -> StronglySorted R y -> (forall a b, a ∈ x -> b ∈ y -> R a b) -> StronglySorted R (x ++ y).
Proof.
  intros Hx Hy Hxy. induction Hx as [|a x Hx IH Ha]; [done|]. cbn [app]. constructor.
  - apply IH. intros. apply Hxy; [by right|done].
  - apply Forall_app. split; [done|]. apply list.Forall_forall. intros b Hb. apply Hxy; [by left|done].
Qed.

(** What a pass of the loop leaves: two parts to sort around the pivot [v], which is in between or
    at the end of the first part. *)
Record pivoted (v : obj) (m x sep y : list obj) : Prop := {
  pv_perm : Permutation m (x ++ sep ++ y);
  pv_left : left_of v x;
  pv_sep : Forall (fun s => keyed s = Ret v) sep;
  pv_right : right_of v y;
  pv_sep_len : (length sep <= 1)%nat;
  pv_x : (length x < length m)%nat;
  pv_y : (length y < length m)%nat
}.

Lemma pivoted_sorted v m x sep y x' y' : pivoted v m x sep y ->
  Permutation x x' -> StronglySorted kle x' -> Permutation y y' -> StronglySorted kle y' ->
  Permutation m (x' ++ sep ++ y') /\ StronglySorted kle (x' ++ sep ++ y').
Proof.
  intros [HP Hl Hs Hr Hsl _ _] Hx Sx Hy Sy. split; [by rewrite HP, Hx, Hy|].
  unfold left_of, right_of in *. rewrite Hx in Hl. rewrite Hy in Hr.
  rewrite list.Forall_forall in Hl, Hs, Hr.
  apply StronglySorted_join; [done| |].
  - apply StronglySorted_join; [|done|].
    + destruct sep as [|s [|]]; [constructor|repeat constructor|cbn in Hsl; lia].
    + intros s b Hs1 Hb. destruct (Hr b Hb) as (k & ? & ?). exists v, k. split; [by apply Hs|done].
  - intros a b Ha Hb'. destruct (Hl a Ha) as (k & ? & ?). apply elem_of_app in Hb' as [Hb|Hb].
    + exists k, v. split; [done|]. split; [by apply Hs|done].
    + destruct (Hr b Hb) as (k' & ? & ?). exists k, k'. split_and!; try done. by eapply le_trans.
Qed.

(** One pass, with the segment [m] between [a] and [b]. *)
Definition pass (head tail : Z) : M (Z * Z) :=
  do! v := reads (fun items => let! p := rd items tail in keyed p) in
  do! n := reads (fun items => Ret (length items)) in
  do! ht := partition (S n) (head - 1) tail v in
  do! _ := updates (fun items => swap items ht.1 tail) in
  ret ht.

Lemma pass_ok (a m b : list obj) : (2 <= length m)%nat ->
  let r := pass (Z.of_nat (length a)) (Z.of_nat (length a + length m) - 1) (a ++ m ++ b) in
  (exists v h t x sep y, r = (a ++ x ++ sep ++ y ++ b, Ret (h, t)) /\ pivoted v m x sep y /\
    t = Z.of_nat (length a + length x) - 1 /\ h + 1 = Z.of_nat (length a + length x + length sep)) \/
  stopped a m b r.
Proof.
  intros Hm r. destruct m as [|p m _] using rev_ind; [cbn in Hm; lia|]. unfold r. clear r. rewrite length_app in *. cbn [length] in *.
  replace (Z.of_nat (length a + (length m + 1)) - 1) with (Z.of_nat (length (a ++ m))) by lens.
  unfold pass, bind, reads, updates, ret.
  assert (Hrd : rd (a ++ (m ++ [p]) ++ b) (Z.of_nat (length (a ++ m))) = Ret p)
    by (replace (a ++ (m ++ [p]) ++ b) with ((a ++ m) ++ p :: b) by lapp; apply rd_middle).
  rewrite Hrd. cbn [obind].
  destruct (keyed_cases p) as [[v Hv]|(e & -> & He)]; [rewrite Hv|by right; exists e, (m ++ [p])].
  destruct (partition_ok (S (length (a ++ (m ++ [p]) ++ b))) a [] m [] (p :: b) (Z.of_nat (length a) - 1)
    (Z.of_nat (length (a ++ m))) v) as [(l & r & t & E & HP & Hl & Hr & Hmet)|(e & m' & E & HP & He)];
    [lens|cbn; lia|cbn; lens|constructor|constructor|..]; cbn [app] in E, HP; rewrite app_nil_r in HP;
    replace (a ++ m ++ p :: b) with (a ++ (m ++ [p]) ++ b) in E by lapp; rewrite E;
    [|right; exists e, (m' ++ [p]); split_and!; [f_equal; lapp|by rewrite HP|done]].
  clear E Hrd. apply Permutation_length in HP as Hlen. rewrite length_app in Hlen. cbn [fst].
  assert (Hsw : exists r', Permutation r r' /\
    swap (a ++ l ++ r ++ p :: b) (Z.of_nat (length a + length l)) (Z.of_nat (length (a ++ m))) = Ret (a ++ l ++ p :: r' ++ b)).
  { destruct r as [|q r].
    - exists []. split; [done|]. cbn [app]. replace (length (a ++ m)) with (length a + length l)%nat by (rewrite length_app; cbn in Hlen; lia).
      rewrite app_assoc, swap_same; [lapp|by rewrite length_app].
    - exists (r ++ [q]). split; [apply Permutation_cons_append|]. cbn [app]. rewrite app_assoc.
      rewrite swap_ok; [lapp|by rewrite length_app|rewrite !length_app; cbn in Hlen; lia]. }
  destruct Hsw as (r' & HPr & ->). apply Permutation_length in HPr as Hlr.
  unfold right_of in Hr. rewrite HPr in Hr.
  assert (HPm : Permutation (m ++ [p]) (l ++ p :: r')).
  { rewrite HP, HPr, <- app_assoc, <- Permutation_cons_append. done. }
  left. exists v, (Z.of_nat (length a + length l)), t. destruct Hmet as [-> | [-> Hne]].
  - exists l, [p], r'. split_and!; try done.
    + split; cbn [app length]; try (done || rewrite ?length_app; cbn [length]; lia). by repeat constructor.
    + cbn [length]. lia.
  - exists (l ++ [p]), [], r'. split_and!; try done.
    + f_equal. lapp.
    + split; cbn [app length]; rewrite ?length_app; cbn [length]; try done; try lia.
      * by rewrite <- app_assoc.
      * apply Forall_app. split; [done|]. constructor; [|constructor]. exists v. split; [done|apply le_refl].
      * destruct r; [done|]. cbn in *. lia.
    + rewrite length_app. cbn [length]. lia.
    + rewrite length_app. cbn [length]. lia.
Qed.

(** The segment [m] between [a] and [b] is sorted, or the key function or the comparison raised. *)
Definition sorts (a m b : list obj) (r : list obj * outcome unit) : Prop :=
  (exists m', r = (a ++ m' ++ b, Ret tt) /\ Permutation m m' /\ StronglySorted kle m') \/ stopped a m b r.

(** [f] sorts every segment of at most [n] items, wherever it is in the array. *)
Definition sorts_up_to (n : nat) (f : Z -> Z -> M unit) : Prop :=
  forall a m b : list obj, (length m <= n)%nat ->
  sorts a m b (f (Z.of_nat (length a)) (Z.of_nat (length a + length m) - 1) (a ++ m ++ b)).

Lemma sorted_short m : (length m <= 1)%nat -> StronglySorted kle m.
Proof. destruct m as [|z [|]]; [constructor|repeat constructor|cbn; lia]. Qed.

Lemma loop_pass (head tail : Z) (k : Z * Z -> M unit) items :
  bind (reads (fun items => let! p := rd items tail in keyed p)) (fun v =>
    do! n := reads (fun items => Ret (length items)) in
    do! ht := partition (S n) (head - 1) tail v in
    let '(h, t) := ht in
    do! _ := updates (fun items => swap items h tail) in
    k (h, t)) items = bind (pass head tail) k items.
Proof.
  unfold pass, bind, reads, updates, ret. destruct (let! p := rd items tail in keyed p) as [v|e| |]; [|done..].
  destruct (partition _ _ _ _ _) as [items1 [[h t]|e| |]]; [|done..]. cbn [fst]. by destruct (swap items1 h tail).
Qed.

Lemma sort_loop_ok recurse n fuel a m b : (length m < fuel)%nat -> (length m <= S (n + n))%nat -> sorts_up_to n recurse ->
  sorts a m b (sort_loop recurse fuel (Z.of_nat (length a)) (Z.of_nat (length a + length m) - 1) (a ++ m ++ b)).
Proof.
  intros Hf Hn Hrec. revert a m b Hf Hn. induction fuel as [|fuel IH]; intros a m b Hf Hn; [lia|]. cbn [sort_loop].
  destruct (Z.ltb_spec (Z.of_nat (length a)) (Z.of_nat (length a + length m) - 1)) as [Hlt|Hge].
  2: { left. exists m. split_and!; try done. apply sorted_short. lia. }
  rewrite (loop_pass _ _ (fun '(h, t) => if t - Z.of_nat (length a) <? _ - h - 1 then _ else _)). unfold bind.
  destruct (pass_ok a m b ltac:(lia)) as [(v & h & t & x & sep & y & -> & Hpv & -> & Hh)|(e & m' & -> & ? & ?)];
    [|right; exists e, m'; by split_and!].
  cbn [fst snd].
  pose proof (pv_x _ _ _ _ _ Hpv). pose proof (pv_y _ _ _ _ _ Hpv).
  pose proof (Permutation_length (pv_perm _ _ _ _ _ Hpv)) as Hlen. rewrite !length_app in Hlen.
  rewrite Hh. replace (Z.of_nat (length a + length m) - 1) with (Z.of_nat (length (a ++ x ++ sep) + length y) - 1) by lens.
  set (k := _ <? _). assert (Hk : k = (length x <? length y)%nat).
  { unfold k. destruct (Nat.ltb_spec (length x) (length y)); [apply Z.ltb_lt|apply Z.ltb_ge]; lens. }
  rewrite Hk. clear k Hk. destruct (Nat.ltb_spec (length x) (length y)).
  - destruct (Hrec a x (sep ++ y ++ b)) as [(x' & -> & Hx & Sx)|(e & x' & -> & Hx & He)]; [lia|..].
    2: { right. exists e, (x' ++ sep ++ y). split_and!; [f_equal; lapp| |done]. by rewrite (pv_perm _ _ _ _ _ Hpv), Hx. }
    apply Permutation_length in Hx as Hlx.
    replace (a ++ x' ++ sep ++ y ++ b) with ((a ++ x' ++ sep) ++ y ++ b) by lapp.
    replace (length a + length x + length sep)%nat with (length (a ++ x' ++ sep)) by lens.
    replace (length (a ++ x ++ sep)) with (length (a ++ x' ++ sep)) by lens.
    destruct (IH (a ++ x' ++ sep) y b) as [(y' & -> & Hy & Sy)|(e & y' & -> & Hy & He)]; [lia..| |].
    + left. exists (x' ++ sep ++ y'). split; [f_equal; lapp|]. by eapply pivoted_sorted.
    + right. exists e, (x' ++ sep ++ y'). split_and!; [f_equal; lapp| |done]. by rewrite (pv_perm _ _ _ _ _ Hpv), Hx, Hy.
  - replace (a ++ x ++ sep ++ y ++ b) with ((a ++ x ++ sep) ++ y ++ b) by lapp.
    replace (length a + length x + length sep)%nat with (length (a ++ x ++ sep)) by lens.
    destruct (Hrec (a ++ x ++ sep) y b) as [(y' & -> & Hy & Sy)|(e & y' & -> & Hy & He)]; [lia|..].
    2: { right. exists e, (x ++ sep ++ y'). split_and!; [f_equal; lapp| |done]. by rewrite (pv_perm _ _ _ _ _ Hpv), Hy. }
    replace ((a ++ x ++ sep) ++ y' ++ b) with (a ++ x ++ sep ++ y' ++ b) by lapp.
    destruct (IH a x (sep ++ y' ++ b)) as [(x' & -> & Hx & Sx)|(e & x' & -> & Hx & He)]; [lia..| |].
    + left. exists (x' ++ sep ++ y'). split; [f_equal; lapp|]. by eapply pivoted_sorted.
    + right. exists e, (x' ++ sep ++ y'). split_and!; [f_equal; lapp| |done]. by rewrite (pv_perm _ _ _ _ _ Hpv), Hx, Hy.
Qed.

Lemma mp_quicksort_ok depth n : (1 <= depth)%nat -> (n < 2 ^ depth)%nat -> sorts_up_to n (mp_quicksort depth).
Proof.
  revert n. induction depth as [|depth IH]; intros n Hd Hn a m b Hm; [lia|]. cbn [mp_quicksort]. unfold bind at 1, reads at 1.
  destruct (Nat.le_gt_cases (length m) 1) as [Hs|Hs].
  - left. exists m. split_and!; [|done|by apply sorted_short]. cbn [sort_loop]. by rewrite (proj2 (Z.ltb_ge _ _)) by lia.
  - apply (sort_loop_ok _ (2 ^ depth - 1)); [lens| |].
    + rewrite Nat.pow_succ_r' in Hn. lia.
    + pose proof (Nat.pow_nonzero 2 depth). apply IH; [|lia]. destruct depth; [cbn in Hn; lia|lia].
Qed.

Lemma mp_obj_list_sort_ok MP_OBJ_NULL depth l xs : repr MP_OBJ_NULL l xs -> (length xs < 2 ^ depth)%nat ->
  exists l' ys r, mp_obj_list_sort depth l = (l', r) /\ repr MP_OBJ_NULL l' ys /\ Permutation xs ys /\
    (r = Ret tt /\ StronglySorted kle ys \/ (1 < length xs)%nat /\ exists e, r = Raise e /\ raised e).
Proof.
  intros [H1 H2 H3 H4 H5] Hd. unfold mp_obj_list_sort. destruct (Z.ltb_spec 1 (len l)) as [Hlt|Hge].
  - assert (1 <= depth)%nat by (destruct depth; [cbn in Hd; lia|lia]).
    pose proof (mp_quicksort_ok depth (length xs) ltac:(lia) Hd [] xs
      (replicate (Z.to_nat (alloc l - len l)) MP_OBJ_NULL) ltac:(lia)) as Hs.
    cbn [app length Nat.add] in Hs. rewrite H5, H3 in *. change (Z.of_nat 0) with 0 in Hs.
    destruct Hs as [(ys & -> & HP & HS)|(e & ys & -> & HP & He)]; eexists _, ys, _; (split; [done|]);
      (split; [apply Permutation_length in HP; split; cbn [alloc len items]; cbn [app]; lia || done|]);
      (split; [done|]); [by left|right; split; [lia|by exists e]].
  - exists l, xs, (Ret tt). split; [done|]. split; [by split|]. split; [done|]. left. split; [done|].
    apply sorted_short. lia.
Qed.
End Sort.

(** ** [list.sort] *)

(** What [a < b] is on objects that can be sorted. *)
Class StrictWeakOrder {obj} (lt : obj -> obj -> bool) := {
  less_asym : forall a b, lt a b = true -> lt b a = false;
  less_neg_trans : forall a b c, lt a b = false -> lt b c = false -> lt a c = false
}.

(** [x] may precede [y] in the sorted list. *)
Definition precedes {obj} (lt : obj -> obj -> bool) (reverse : bool) (a b : obj) : Prop :=
  (if reverse then lt a b else lt b a) = false.

(** When the comparison returns, it returns the [bool] of [lt]. *)
Definition compares_by {obj} (less : obj -> obj -> exn + option bool) (lt : obj -> obj -> bool) : Prop :=
  forall a b r, less a b = inr r -> r = Some (lt a b).

(** [xs] is ordered by [lt] on the keys, ascending or descending. *)
Definition sorted_by_key {obj} (key_fn : option (obj -> exn + obj)) (lt : obj -> obj -> bool) (reverse : bool) : list obj -> Prop :=
  StronglySorted (fun x y => exists a b, keyed key_fn x = Ret a /\ keyed key_fn y = Ret b /\ precedes lt reverse a b).

Lemma precedes_refl {obj} (lt : obj -> obj -> bool) `{!StrictWeakOrder lt} reverse a : precedes lt reverse a a.
Proof. unfold precedes. destruct (lt a a) eqn:E; [by rewrite (less_asym _ _ E) in E|by destruct reverse]. Qed.

Lemma precedes_trans {obj} (lt : obj -> obj -> bool) `{!StrictWeakOrder lt} reverse a b c :
  precedes lt reverse a b -> precedes lt reverse b c -> precedes lt reverse a c.
Proof. unfold precedes. destruct reverse; intros; eapply less_neg_trans; eassumption. Qed.

Section SortSpec.
Context {obj : Type} (less : obj -> obj -> exn + option bool).
Variable MP_OBJ_NULL : obj.

Lemma precedes_scans lt `{!StrictWeakOrder lt} reverse a b : compares_by less lt ->
  (cmp less (negb reverse) a b = Ret true -> precedes lt reverse a b) /\
  (cmp less (negb reverse) a b = Ret false -> precedes lt reverse b a).
Proof.
  intros H. unfold cmp, precedes, called. destruct (less a b) as [e|r] eqn:E; [done|]. apply H in E as ->. cbn [obind].
  pose proof (less_asym a b). destruct reverse; cbn [negb]; destruct (lt a b) eqn:E; split; intros; try done; by auto.
Qed.

Lemma repr_items_inj l xs ys : repr MP_OBJ_NULL l xs -> repr MP_OBJ_NULL l ys -> xs = ys.
Proof.
  intros [_ _ Hx _ Ix] [_ _ Hy _ Iy]. rewrite Ix in Iy. apply app_inj_1 in Iy as [-> _]; [done|]. lia.
Qed.

(** C25. [list.sort], whatever the key function and the comparison return or raise for their arguments (they must not
    change the list that is sorted): it terminates, stays inside the items, and what it leaves in the list is a
    permutation of them even when it ends in an exception, which is one that the key function or the comparison raised.
    Because the smaller part is sorted by the recursive call, [depth] nested calls are enough for any list of fewer
    than [2 ^ depth] items, with no [RuntimeError] of its own.  When the comparisons that return agree with a strict weak
    order, a list that [sort] returns from is sorted by the key, ascending or descending. *)
Theorem mp_obj_list_sort_spec key_fn reverse depth l xs : repr MP_OBJ_NULL l xs -> (length xs < 2 ^ depth)%nat ->
  exists l' ys r, mp_obj_list_sort less key_fn (negb reverse) depth l = (l', r) /\ repr MP_OBJ_NULL l' ys /\
    Permutation xs ys /\
    (r = Ret tt \/ exists e, r = Raise e /\ raised less key_fn e) /\
    (forall lt, StrictWeakOrder lt -> compares_by less lt -> r = Ret tt -> sorted_by_key key_fn lt reverse ys).
Proof.
  intros Hl Hd.
  destruct (mp_obj_list_sort_ok less key_fn (negb reverse) (fun _ _ => True) ltac:(done) ltac:(done) ltac:(done) ltac:(done)
    MP_OBJ_NULL depth l xs Hl Hd) as (l' & ys & r & E & Hr & HP & Hend).
  exists l', ys, r. split_and!; try done; [destruct Hend as [[-> _]|[_ ?]]; auto|].
  intros lt Hlt Hby ->.
  destruct (mp_obj_list_sort_ok less key_fn (negb reverse) (precedes lt reverse) (precedes_refl lt reverse) (precedes_trans lt reverse)
    (fun a b => proj1 (precedes_scans lt reverse a b Hby)) (fun a b => proj2 (precedes_scans lt reverse a b Hby))
    MP_OBJ_NULL depth l xs Hl Hd) as (l2 & ys2 & r2 & E2 & Hr2 & _ & Hend2).
  rewrite E in E2. injection E2 as <- <-. rewrite (repr_items_inj l' ys ys2 Hr Hr2).
  destruct Hend2 as [[_ ?]|(_ & e & ? & _)]; done.
Qed.
End SortSpec.

(** ** Witness *)

(** Integers and strings are ordered, a comparison of an integer with a string raises. *)
Definition sample_less (a b : sample_obj) : exn + option bool :=
  match a, b with
  | Int m, Int n | Qstr m, Qstr n | Str m, Str n | Lst m, Lst n => inr (Some (m <? n))
  | _, _ => inl TypeError
  end.

Definition sample_lt (a b : sample_obj) : bool :=
  match a, b with
  | Int m, Int n | Qstr m, Qstr n | Str m, Str n | Lst m, Lst n => m <? n
  | Int _, (Qstr _ | Str _ | Lst _) | Qstr _, (Str _ | Lst _) | Str _, Lst _ => true
  | _, _ => false
  end.

#[export] Instance sample_lt_order : StrictWeakOrder sample_lt.
Proof.
  split.
  - intros [] []; simpl; rewrite ?Z.ltb_lt, ?Z.ltb_ge; try done; lia.
  - intros [] [] []; simpl; rewrite ?Z.ltb_ge; try done; lia.
Qed.

Definition sample_key (a : sample_obj) : exn + sample_obj :=
  match a with Int n => inr (Int (- n)) | Str _ => inl ValueError | a => inr a end.

Lemma mp_obj_list_sort_spec_witness :
  compares_by sample_less sample_lt /\
  mp_obj_list_sort sample_less (Some sample_key) true 2 sample_list = (mk_list 4 3 [Int 3; Int 2; Int 1; sample_null], Ret tt) /\
  mp_obj_list_sort sample_less (Some sample_key) true 2 (mk_list 4 3 [Int 1; Str 2; Int 3; sample_null])
    = (mk_list 4 3 [Int 1; Str 2; Int 3; sample_null], Raise ValueError) /\
  exists l' ys r, mp_obj_list_sort sample_less (Some sample_key) (negb false) 2 sample_list = (l', r) /\
    repr sample_null l' ys /\ Permutation [Int 1; Int 2; Int 3] ys /\
    (r = Ret tt \/ exists e, r = Raise e /\ raised sample_less (Some sample_key) e) /\
    (forall lt, StrictWeakOrder lt -> compares_by sample_less lt -> r = Ret tt -> sorted_by_key (Some sample_key) lt false ys).
Proof.
  split; [intros [] [] r; cbn; congruence|]. split; [reflexivity|]. split; [reflexivity|].
  exact (mp_obj_list_sort_spec sample_less sample_null (Some sample_key) false 2 sample_list [Int 1; Int 2; Int 3]
    sample_list_repr ltac:(cbn; lia)).
Defined.
