(* ===== verification/ObjRange.v ===== *)
(** * Ranges ([py/objrange.c])

    The three fields are [mp_int_t], 32 bits: their arithmetic is undefined when it overflows
    ([sint]).  The arguments are small integers, so that they fit in 31 bits. *)

From S2P Require Import Prelude MpObj Sequence SmallInt.
Local Open Scope Z_scope.

Record mp_obj_range_t := mk_range { r_start : Z; r_stop : Z; r_step : Z }.
Record mp_obj_range_it_t := mk_range_it { cur : Z; it_stop : Z; it_step : Z }.

(** [range(stop)], [range(start, stop)] and [range(start, stop, step)]. *)
Definition range_make_new (args : list Z) : outcome mp_obj_range_t :=
  match args with
  | [stop] => Ret (mk_range 0 stop 1)
  | [start; stop] => Ret (mk_range start stop 1)
  | [start; stop; step] => if step =? 0 then Raise ValueError else Ret (mk_range start stop step)
  | _ => Raise TypeError
  end.

Definition range_len (self : mp_obj_range_t) : outcome Z :=
  let! d := sint (r_stop self - r_start self) in
  let! len := sint (d + r_step self) in
  let! len := if 0 <? r_step self then sint (len - 1) else sint (len + 1) in
  let! len := c_div len (r_step self) in
  Ret (if len <? 0 then 0 else len).

(** [range_unary_op]: truth, and the length as an object. *)
Definition range_bool (self : mp_obj_range_t) : outcome bool := let! len := range_len self in Ret (0 <? len).
Definition range_len_obj (self : mp_obj_range_t) : outcome Z :=
  let! len := range_len self in Ret (MP_OBJ_NEW_SMALL_INT len).

Definition mp_obj_new_range_iterator (cur stop step : Z) : mp_obj_range_it_t := mk_range_it cur stop step.

Definition range_getiter (o : mp_obj_range_t) : mp_obj_range_it_t :=
  mp_obj_new_range_iterator (r_start o) (r_stop o) (r_step o).

(** The iterator and the next object, if any. *)
Definition range_it_iternext (o : mp_obj_range_it_t) : outcome (mp_obj_range_it_t * option Z) :=
  if ((0 <? it_step o) && (cur o <? it_stop o)) || ((it_step o <? 0) && (it_stop o <? cur o)) then
    let o_out := MP_OBJ_NEW_SMALL_INT (cur o) in
    let! c := sint (cur o + it_step o) in
    Ret (mk_range_it c (it_stop o) (it_step o), Some o_out)
  else Ret (o, None).

(** [range_subscr] with an index: the object loaded.  The arithmetic is that of [size_t]. *)
Definition range_load (self : mp_obj_range_t) (index : Z) : outcome Z :=
  let! len := range_len self in
  let! index_val := mp_get_index len index false in
  Ret (MP_OBJ_NEW_SMALL_INT (wrap 32 (r_start self + index_val * r_step self))).

(** [range_subscr] with a slice: a new range. *)
Definition range_slice (self : mp_obj_range_t) (s e st : option Z) : outcome mp_obj_range_t :=
  let! len := range_len self in
  let! '(slice, _) := mp_seq_get_fast_slice_indexes len s e st in
  let! a := sint (start slice * r_step self) in
  let! o_start := sint (r_start self + a) in
  let! b := sint (stop slice * r_step self) in
  let! o_stop := sint (r_start self + b) in
  let! o_step := sint (step slice * r_step self) in
  let! o_stop := if step slice <? 0 then sint (o_stop - r_step self) else Ret o_stop in
  Ret (mk_range o_start o_stop o_step).

(** Running an iterator to the end: the values of the objects it yields. *)
Fixpoint iterate (fuel : nat) (o : mp_obj_range_it_t) : outcome (list Z) :=
  match fuel with
  | O => OutOfFuel
  | S fuel =>
    let! '(o, x) := range_it_iternext o in
    match x with
    | None => Ret []
    | Some x => let! xs := iterate fuel o in Ret (MP_OBJ_SMALL_INT_VALUE x :: xs)
    end
  end.

(** ** Python's ranges *)

(** The numbers of a range. *)
Definition py_range (r : mp_obj_range_t) : list Z :=
  range (r_start r) (r_step r) (Z.to_nat (py_count (r_start r) (r_stop r) (r_step r))).

Definition before (st x b : Z) : Prop := if 0 <? st then x < b else b < x.

(** [n] is the number of steps from [a] until [b] is reached. *)
Definition counts (a b st n : Z) : Prop :=
  0 <= n /\ (forall k, 0 <= k < n -> before st (a + k * st) b) /\ ~ before st (a + n * st) b.

Lemma counts_unique a b st m n : counts a b st m -> counts a b st n -> m = n.
Proof.
  intros (Hm & Hm1 & Hm2) (Hn & Hn1 & Hn2).
  destruct (Z.lt_trichotomy m n) as [H|[H|H]]; [|done|].
  - by destruct (Hm2 (Hn1 m ltac:(lia))).
  - by destruct (Hn2 (Hm1 n ltac:(lia))).
Qed.

Lemma py_count_counts a b st : st <> 0 -> counts a b st (py_count a b st).
Proof.
  intros Hst. unfold counts, py_count, before. destruct (Z.ltb_spec 0 st) as [Hpos|Hneg].
  - pose proof (count_up a b st Hpos) as H. cbn zeta in H. set (n := Z.max 0 _) in *. split; [lia|]. split.
    + intros k Hk. apply Z.ltb_lt. rewrite H by lia. apply Z.ltb_lt; lia.
    + intros Hn%Z.ltb_lt. rewrite H in Hn by lia. apply Z.ltb_lt in Hn. lia.
  - pose proof (count_down a b (- st) ltac:(lia)) as H. cbn zeta in H.
    replace (a - b + - st - 1) with (a - b - st - 1) in H by lia. set (n := Z.max 0 _) in *. split; [lia|]. split.
    + intros k Hk. apply Z.ltb_lt. replace (a + k * st) with (a - k * - st) by lia. rewrite H by lia. apply Z.ltb_lt; lia.
    + intros Hn%Z.ltb_lt. replace (a + n * st) with (a - n * - st) in Hn by lia. rewrite H in Hn by lia.
      apply Z.ltb_lt in Hn. lia.
Qed.

Lemma counts_py_count a b st n : st <> 0 -> counts a b st n -> py_count a b st = n.
Proof. intros Hst Hn. eapply counts_unique; [by apply py_count_counts|done]. Qed.

Lemma range_length a st n : length (range a st n) = n.
Proof. revert a. induction n as [|n IH]; intros a; cbn; [done|]. by rewrite IH. Qed.

Lemma range_lookup a st n i : (i < n)%nat -> range a st n !! i = Some (a + Z.of_nat i * st).
Proof.
  revert a i. induction n as [|n IH]; intros a [|i] Hi; try lia; cbn [range].
  - cbn. f_equal. lia.
  - rewrite lookup_cons. rewrite IH by lia. f_equal. lia.
Qed.

(** ** Length *)

(** The fields of a range given by small integers. *)
Definition small_range_args (r : mp_obj_range_t) : Prop :=
  small (r_start r) /\ small (r_stop r) /\ small (r_step r) /\ r_step r <> 0.

(** The length fits when the distance and a step do. *)
Definition short_range (r : mp_obj_range_t) : Prop :=
  - 2 ^ 31 <= r_stop r - r_start r + r_step r < 2 ^ 31 /\ - 2 ^ 31 <= r_stop r - r_start r < 2 ^ 31 /\
  py_count (r_start r) (r_stop r) (r_step r) < 2 ^ 31.

(** Truncating division is as good as rounding down, once negative lengths are clipped. *)
Lemma quot_clip x y : 0 < y -> (if Z.quot x y <? 0 then 0 else Z.quot x y) = Z.max 0 (x / y).
Proof.
  intros Hy. destruct (Z.lt_ge_cases x 0) as [Hx|Hx].
  - replace x with (- (- x)) by lia. rewrite Z.quot_opp_l by lia. pose proof (Z.quot_pos (- x) y ltac:(lia) Hy).
    pose proof (Z.div_lt_upper_bound (- - x) y 0 Hy ltac:(lia)). destruct (Z.ltb_spec (- (- x ÷ y)) 0); lia.
  - rewrite Z.quot_div_nonneg by lia. pose proof (Z.div_pos x y Hx Hy). destruct (Z.ltb_spec (x / y) 0); lia.
Qed.

Lemma range_len_ok r : small_range_args r -> short_range r ->
  range_len r = Ret (py_count (r_start r) (r_stop r) (r_step r)).
Proof.
  destruct r as [a b st]. unfold small_range_args, short_range, range_len, py_count. cbn [r_start r_stop r_step].
  rewrite !small_range. intros (Ha & Hb & Hst & H0) (Hs & Hd & Hc). rewrite sint_ok by lia. cbn [obind]. rewrite sint_ok by lia. cbn [obind].
  unfold c_div. rewrite (proj2 (Z.eqb_neq st 0) H0). destruct (Z.ltb_spec 0 st) as [Hpos|Hneg].
  - rewrite sint_ok by lia. cbn [obind].
    assert (Hq : Z.abs (Z.quot (b - a + st - 1) st) <= Z.abs (b - a + st - 1)).
    { rewrite <- Z.quot_abs by done. rewrite Z.quot_div_nonneg by lia. apply Z.div_le_upper_bound; nia. }
    rewrite sint_ok by lia. cbn [obind]. by rewrite quot_clip.
  - rewrite sint_ok by lia. cbn [obind].
    replace (Z.quot (b - a + st + 1) st) with (Z.quot (a - b - st - 1) (- st))
      by (replace (b - a + st + 1) with (- (a - b - st - 1)) by lia; rewrite Z.quot_opp_r, Z.quot_opp_l by lia; lia).
    assert (Hq : Z.abs (Z.quot (a - b - st - 1) (- st)) <= Z.abs (a - b - st - 1)).
    { rewrite <- Z.quot_abs by lia. rewrite Z.quot_div_nonneg by lia. apply Z.div_le_upper_bound; nia. }
    assert (Hq2 : (if Z.quot (a - b - st - 1) (- st) <? 0 then 0 else Z.quot (a - b - st - 1) (- st)) = Z.max 0 ((a - b - st - 1) / - st))
      by (apply quot_clip; lia).
    rewrite sint_ok; [cbn [obind]; by rewrite Hq2|]. destruct (Z.ltb_spec (Z.quot (a - b - st - 1) (- st)) 0); lia.
Qed.

Lemma range_len_range r n : range_len r = Ret n -> 0 <= n.
Proof. unfold range_len. intros H. oinvert. subst. bcase; lia. Qed.

(** ** Iteration *)

Lemma iterate_ok n fuel c b st : (n < fuel)%nat -> - 2 ^ 30 <= b < 2 ^ 30 -> - 2 ^ 30 <= st < 2 ^ 30 -> st <> 0 ->
  counts c b st (Z.of_nat n) -> (n <> 0%nat -> - 2 ^ 30 <= c < 2 ^ 30) ->
  iterate fuel (mk_range_it c b st) = Ret (range c st n).
Proof.
  intros Hf Hb Hst H0. revert fuel c Hf.
  induction n as [|n IH]; intros fuel c Hf (Hn & Hin & Hout) Hc; destruct fuel as [|fuel]; try lia; cbn [iterate];
    unfold range_it_iternext; cbn [ObjRange.cur it_stop it_step].
  - unfold before in Hout. rewrite Z.mul_0_l, Z.add_0_r in Hout.
    rewrite (proj2 (orb_false_iff _ _)); [done|]. rewrite !andb_false_iff, !Z.ltb_ge. destruct (Z.ltb_spec 0 st); lia.
  - specialize (Hc ltac:(lia)). pose proof (Hin 0 ltac:(lia)) as Hb0. unfold before in Hb0. rewrite Z.mul_0_l, Z.add_0_r in Hb0.
    rewrite (proj2 (orb_true_iff _ _)); [|rewrite !andb_true_iff, !Z.ltb_lt; destruct (Z.ltb_spec 0 st); lia].
    rewrite sint_ok by lia. cbn [obind].
    assert (Hnext : counts (c + st) b st (Z.of_nat n)).
    { split; [lia|]. split.
      - intros k Hk. replace (c + st + k * st) with (c + (k + 1) * st) by lia. apply Hin. lia.
      - by replace (c + st + Z.of_nat n * st) with (c + Z.of_nat (S n) * st) by lia. }
    rewrite IH; [cbn [obind range]|lia|done|].
    + rewrite small_int_value_small; [done|by apply small_range].
    + intros Hn0. destruct Hnext as (_ & Hin' & _). pose proof (Hin' 0 ltac:(lia)) as Hb1. unfold before in Hb1.
      destruct (Z.ltb_spec 0 st); lia.
Qed.

(** Iterating over a range of small integers yields exactly the numbers of Python's range, in
    order, and stops; the iterator's 32-bit counter never overflows and every number fits in a small
    integer object. *)
Theorem range_iter_spec r : small_range_args r ->
  iterate (S (length (py_range r))) (range_getiter r) = Ret (py_range r).
Proof.
  destruct r as [a b st]. unfold small_range_args, py_range. cbn [r_start r_stop r_step]. rewrite !small_range.
  intros (Ha & Hb & Hst & H0). rewrite range_length. pose proof (py_count_counts a b st H0) as Hc.
  apply iterate_ok; try done; try lia. rewrite Z2Nat.id; [done|]. by destruct Hc.
Qed.

(** ** Length and items *)

(** Positions in the range and the end of it stay within 32 bits. *)
Lemma position_bounds r k : small_range_args r -> short_range r ->
  -1 <= k <= py_count (r_start r) (r_stop r) (r_step r) ->
  - 2 ^ 31 <= k * r_step r < 2 ^ 31 /\ - 2 ^ 31 <= r_start r + k * r_step r < 2 ^ 31.
Proof.
  destruct r as [a b st]. unfold small_range_args, short_range. cbn [r_start r_stop r_step]. rewrite !small_range.
  intros (Ha & Hb & Hst & H0) (Hs & Hd & _) Hk. destruct (py_count_counts a b st H0) as (Hn & Hin & _).
  set (n := py_count a b st) in *.
  destruct (Z.eq_dec k (-1)) as [->|]; [lia|]. destruct (Z.eq_dec k 0) as [->|]; [lia|].
  pose proof (Hin (n - 1) ltac:(lia)) as Hlast. unfold before in Hlast.
  destruct (Z.ltb_spec 0 st).
  - assert (0 <= k * st <= n * st) by nia. assert (n * st = (n - 1) * st + st) by lia. lia.
  - assert (n * st <= k * st <= 0) by nia. assert (n * st = (n - 1) * st + st) by lia. lia.
Qed.

Lemma value_of_wrapped z : small z -> MP_OBJ_SMALL_INT_VALUE (MP_OBJ_NEW_SMALL_INT (wrap 32 z)) = z.
Proof. rewrite small_range, small_int_value. intros Hz. unfold swrap, wrap. zdiv. Qed.

(** [len] of a range is the number of its items, and an index, counted from the end if it is
    negative, loads the item at that position or raises [IndexError], when the distance between
    the bounds and a step fit in 32 bits. *)
Theorem range_items_spec r i : small_range_args r -> short_range r ->
  range_len r = Ret (Z.of_nat (length (py_range r))) /\
  let n := Z.of_nat (length (py_range r)) in
  let j := if i <? 0 then i + n else i in
  match py_range r !! Z.to_nat j with
  | Some x => if j <? 0 then range_load r i = Raise IndexError
              else exists o, range_load r i = Ret o /\ MP_OBJ_SMALL_INT_VALUE o = x
  | None => range_load r i = Raise IndexError
  end.
Proof.
  intros Hr Hs. pose proof (range_len_ok r Hr Hs) as Hlen.
  assert (Hn : Z.of_nat (length (py_range r)) = py_count (r_start r) (r_stop r) (r_step r)).
  { unfold py_range. rewrite range_length, Z2Nat.id; [done|]. destruct Hr as (_ & _ & _ & H0).
    by destruct (py_count_counts (r_start r) (r_stop r) (r_step r) H0). }
  rewrite Hn. split; [done|]. cbn zeta. unfold range_load. rewrite Hlen. cbn [obind]. unfold mp_get_index.
  set (n := py_count _ _ _) in *. set (j := if i <? 0 then i + n else i).
  destruct (Z.ltb_spec j 0) as [Hj|Hj]; cbn [orb].
  { by destruct (py_range r !! Z.to_nat j). }
  destruct (Z.leb_spec n j) as [Hjn|Hjn].
  { by rewrite lookup_ge_None_2 by lia. }
  unfold py_range. rewrite range_lookup by (fold n; lia). rewrite Z2Nat.id by lia. cbn [obind]. eexists. split; [done|].
  apply value_of_wrapped. destruct Hr as (Ha & Hb & Hst & H0). revert Ha Hb Hst. rewrite !small_range. intros Ha Hb Hst.
  destruct (py_count_counts (r_start r) (r_stop r) (r_step r) H0) as (_ & Hin & _). fold n in Hin.
  pose proof (Hin j ltac:(lia)) as Hjb. unfold before in Hjb. destruct (Z.ltb_spec 0 (r_step r)); nia.
Qed.

(** ** Slices of ranges *)

(** Steps of steps. *)
Lemma counts_scale a st s e st' n : st <> 0 -> st' <> 0 -> counts s e st' n ->
  counts (a + s * st) (a + e * st) (st' * st) n.
Proof.
  intros H0 H0' (Hn & Hin & Hout). split; [done|]. unfold before in *.
  assert (E : forall k, a + s * st + k * (st' * st) = a + (s + k * st') * st) by (intros; lia).
  split.
  - intros k Hk. rewrite E. specialize (Hin k Hk).
    destruct (Z.ltb_spec 0 st'), (Z.ltb_spec 0 (st' * st)), (Z.lt_ge_cases 0 st); nia.
  - rewrite E. intros H. apply Hout.
    destruct (Z.ltb_spec 0 st'), (Z.ltb_spec 0 (st' * st)), (Z.lt_ge_cases 0 st); nia.
Qed.

(** The items of a slice of a range, at the positions [s], [s + st'], ... inside it. *)
Lemma omap_range_lookup a st s st' m n : (forall k, (k < n)%nat -> 0 <= s + Z.of_nat k * st' < Z.of_nat m) ->
  omap (fun i => range a st m !! Z.to_nat i) (range s st' n) = range (a + s * st) (st' * st) n.
Proof.
  revert s. induction n as [|n IH]; intros s Hin; [done|]. cbn [range omap list_omap].
  pose proof (Hin 0%nat ltac:(lia)) as H0. rewrite range_lookup by lia. rewrite Z2Nat.id by lia. f_equal.
  change (list_omap ?f ?l) with (omap f l). rewrite IH.
  - f_equal. lia.
  - intros k Hk. specialize (Hin (S k) ltac:(lia)). lia.
Qed.

(** Where the slice of a sequence of [n] items is: all positions are inside. *)
Lemma py_slice_positions s e st n k : 0 <= n -> st <> 0 -> 0 <= k < py_count (py_start s st n) (py_stop e st n) st ->
  0 <= py_start s st n + k * st < n.
Proof.
  intros Hn H0 Hk. destruct (py_count_counts (py_start s st n) (py_stop e st n) st H0) as (_ & Hin & _).
  specialize (Hin k Hk). unfold before in Hin. destruct (Z.ltb_spec 0 st).
  - destruct (py_bounds_up s e st n); nia.
  - destruct (py_bounds_down s e st n); nia.
Qed.

(** Signed computations that stay in range. *)
Ltac sints := repeat (rewrite sint_ok by lia; cbn [obind]).

(** Slicing a range gives the range of exactly the items that Python's slice of the sequence of
    its numbers has, for any [start], [stop] and step but 0, which is a [ValueError]; only the
    product of the two steps must fit in 32 bits. *)
Theorem range_slice_spec r s e st : small_range_args r -> short_range r ->
  - 2 ^ 31 <= default 1 st * r_step r < 2 ^ 31 ->
  if default 1 st =? 0 then range_slice r s e st = Raise ValueError
  else exists r', range_slice r s e st = Ret r' /\ py_range r' = py_slice (py_range r) s e (default 1 st).
Proof.
  intros Hr Hs Hprod. pose proof (range_len_ok r Hr Hs) as Hlen. unfold range_slice. rewrite Hlen. cbn [obind].
  assert (Hn : Z.of_nat (length (py_range r)) = py_count (r_start r) (r_stop r) (r_step r)).
  { unfold py_range. rewrite range_length, Z2Nat.id; [done|]. destruct Hr as (_ & _ & _ & H0).
    by destruct (py_count_counts (r_start r) (r_stop r) (r_step r) H0). }
  set (n := py_count _ _ _) in *.
  assert (E : mp_seq_get_fast_slice_indexes n s e st = mp_seq_get_fast_slice_indexes n s e (Some (default 1 st))) by (by destruct st).
  rewrite E. clear E. generalize dependent (default 1 st). clear st. intros st Hprod.
  destruct (Z.eqb_spec st 0) as [->|H0']; [done|].
  unfold mp_seq_get_fast_slice_indexes. rewrite slice_indices_py by done. cbn [obind Sequence.start Sequence.stop Sequence.step].
  assert (H0 : r_step r <> 0) by apply Hr.
  unfold py_slice. rewrite Hn. set (a := py_start s st n). set (b := py_stop e st n).
  pose proof (py_count_counts a b st H0') as Hc.
  assert (Hpos : forall k, (k < Z.to_nat (py_count a b st))%nat -> 0 <= a + Z.of_nat k * st < Z.of_nat (Z.to_nat n)).
  { intros k Hk. rewrite Z2Nat.id by lia. apply (py_slice_positions s e st n); [lia|done|]. fold a b. lia. }
  assert (Hscale : omap (fun i => py_range r !! Z.to_nat i) (range a st (Z.to_nat (py_count a b st))) =
    range (r_start r + a * r_step r) (st * r_step r) (Z.to_nat (py_count a b st))) by (by apply omap_range_lookup).
  rewrite Hscale.
  assert (Hfit : forall k, -1 <= k <= n -> - 2 ^ 31 <= k * r_step r < 2 ^ 31 /\ - 2 ^ 31 <= r_start r + k * r_step r < 2 ^ 31)
    by (intros; by apply position_bounds).
  assert (Hst' : st * r_step r <> 0) by nia.
  destruct (Z.ltb_spec 0 st) as [Hup|Hdown].
  - rewrite (proj2 (Z.ltb_ge st 0)) by lia. cbn [andb].
    destruct (py_bounds_up s e st n ltac:(lia) Hup) as [Ha Hb]. fold a b in Ha, Hb.
    set (b' := if b <? a then a else b). assert (Hb' : b' = Z.max a b) by (unfold b'; bcase; lia). clearbody b'. subst b'.
    destruct (Hfit a ltac:(lia)), (Hfit (Z.max a b) ltac:(lia)). sints. eexists. split; [done|]. unfold py_range. cbn [r_start r_stop r_step].
    do 2 f_equal. apply counts_py_count; [done|]. apply counts_scale; [done..|].
    destruct Hc as (Hc1 & Hc2 & Hc3). split; [done|]. unfold before in *. rewrite (proj2 (Z.ltb_lt 0 st)) in * by lia. split.
    + intros k Hk. specialize (Hc2 k Hk). lia.
    + destruct (Z.eq_dec (py_count a b st) 0) as [E0|]; [rewrite E0 in *; lia|].
      specialize (Hc2 0 ltac:(lia)). lia.
  - rewrite (proj2 (Z.ltb_lt st 0)) by lia. cbn [andb].
    destruct (py_bounds_down s e st n ltac:(lia) ltac:(lia)) as [Ha Hb]. fold a b in Ha, Hb.
    set (b' := if a <? b + 1 then a + 1 else b + 1). assert (Hb' : b' = Z.min a b + 1) by (unfold b'; bcase; lia).
    clearbody b'. subst b'.
    destruct (Hfit a ltac:(lia)), (Hfit (Z.min a b + 1) ltac:(lia)), (Hfit (Z.min a b) ltac:(lia)).
    sints. eexists. split; [done|]. unfold py_range. cbn [r_start r_stop r_step].
    do 2 f_equal. apply counts_py_count; [done|].
    replace (r_start r + (Z.min a b + 1) * r_step r - r_step r) with (r_start r + Z.min a b * r_step r) by lia.
    apply counts_scale; [done..|].
    destruct Hc as (Hc1 & Hc2 & Hc3). split; [done|]. unfold before in *. rewrite (proj2 (Z.ltb_ge 0 st)) in * by lia. split.
    + intros k Hk. specialize (Hc2 k Hk). nia.
    + destruct (Z.eq_dec (py_count a b st) 0) as [E0|]; [rewrite E0 in *; lia|].
      specialize (Hc2 0 ltac:(lia)). lia.
Qed.

(** ** Witnesses and findings *)

Definition sample_range : mp_obj_range_t := mk_range 10 (-5) (-4).

Lemma sample_range_small : small_range_args sample_range.
Proof. split_and!; done. Qed.
Lemma sample_range_short : short_range sample_range.
Proof. split_and!; done. Qed.

Lemma range_iter_spec_witness : iterate 5 (range_getiter sample_range) = Ret [10; 6; 2; -2].
Proof. exact (range_iter_spec sample_range sample_range_small). Defined.

Lemma range_items_spec_witness : range_len sample_range = Ret 4 /\
  exists o, range_load sample_range (-3) = Ret o /\ MP_OBJ_SMALL_INT_VALUE o = 6.
Proof. exact (range_items_spec sample_range (-3) sample_range_small sample_range_short). Defined.

Lemma range_slice_spec_witness :
  exists r, range_slice sample_range (Some (-1)) None (Some (-2)) = Ret r /\ py_range r = [-2; 6].
Proof.
  assert (Hprod : - 2 ^ 31 <= default 1 (Some (-2)) * r_step sample_range < 2 ^ 31) by (cbn; lia).
  exact (range_slice_spec sample_range (Some (-1)) None (Some (-2)) sample_range_small sample_range_short Hprod).
Defined.

(** [range(-2**30, 2**30 - 1, 3)] has 715827883 items, a small integer, but the sum in [range_len]
    overflows; and the length of [range(-2**30, 2**30 - 2)] does fit in 32 bits but not in the
    object that [len] returns, which is negative. *)
Theorem range_len_overflows :
  small_range_args (mk_range (- 2 ^ 30) (2 ^ 30 - 1) 3) /\
  py_count (- 2 ^ 30) (2 ^ 30 - 1) 3 = 715827883 /\
  range_len (mk_range (- 2 ^ 30) (2 ^ 30 - 1) 3) = Undef /\
  exists o, range_len_obj (mk_range (- 2 ^ 30) (2 ^ 30 - 2) 1) = Ret o /\ MP_OBJ_SMALL_INT_VALUE o = -2.
Proof. split_and!; try done. eexists. by split. Qed.
