(* ===== verification/ObjStr.v ===== *)
(** * Strings and bytes ([py/objstr.c])

    The methods and operators of [str] and [bytes] that the port builds; both are arrays of bytes
    (there are no Unicode strings).  A pointer into a string is an index or what is left of the
    string from it on.  Two facts about interned strings ([py/qstr.c]) are parameters: whether a
    string is interned already, in which case no copy is made, and whether interning it succeeds.
    Lists are the arrays of [ObjList.v].  Definitions only. *)

From Stdlib Require Import String.
From S2P Require Import Prelude Malloc Unicode Vstr MpObj Sequence ObjList StrPrint.
Local Open Scope Z_scope.

Record mp_obj_str_t := mk_str { type : str_type; data : list Z }.
#[export] Instance mp_obj_str_eq_dec : EqDecision mp_obj_str_t.
Proof. solve_decision. Defined.

(** An item of a list of strings; [None] is [MP_OBJ_NULL]. *)
Definition slot : Type := option mp_obj_str_t.

(** The arguments that the methods tell apart: [BufferArg] has the buffer protocol. *)
Inductive str_arg := StrArg (s : mp_obj_str_t) | BufferArg (data : list Z) | IntArg (n : Z) | OtherArg.

Section ObjStr.
Context {byte_heap : Allocator Z} {slot_heap : Allocator slot}.
(** [qstr_find_strn(data, len) != MP_QSTRnull] *)
Variable qstr_find_strn : list Z -> bool.
(** Whether there is memory for [qstr_from_strn(data, len)]. *)
Variable qstr_from_strn : list Z -> bool.

Definition str_len (s : mp_obj_str_t) : Z := Z.of_nat (length (data s)).

(** ** New strings *)

Definition sizeof_mp_obj_str_t : Z := 16.

Definition mp_obj_new_str_copy (type : str_type) (data : list Z) : outcome mp_obj_str_t :=
  let len := Z.of_nat (length data) in
  let! _ := m_malloc (A := Z) 1 sizeof_mp_obj_str_t in
  let! p := m_new 1 (wrap 32 (len + 1)) in
  let! p := memcpy_in p 0 data in
  let! p := wr p len 0 in
  Ret (mk_str type (take (length data) p)).

Definition mp_obj_new_str (data : list Z) : outcome mp_obj_str_t :=
  if qstr_find_strn data then Ret (mk_str mp_type_str data) else mp_obj_new_str_copy mp_type_str data.

Definition mp_obj_new_bytes (data : list Z) : outcome mp_obj_str_t := mp_obj_new_str_copy mp_type_bytes data.

Definition mp_obj_new_str_of_type (type : str_type) (data : list Z) : outcome mp_obj_str_t :=
  if bool_decide (type = mp_type_str) then mp_obj_new_str data else mp_obj_new_bytes data.

Definition mp_obj_new_str_via_qstr (data : list Z) : outcome mp_obj_str_t :=
  if qstr_from_strn data then Ret (mk_str mp_type_str data) else Raise MemoryError.

Definition mp_obj_new_str_from_vstr (type : str_type) (v : vstr_t) : outcome mp_obj_str_t :=
  if bool_decide (type = mp_type_str) && qstr_find_strn (Vstr.str v) then Ret (mk_str type (Vstr.str v)) else
  let! _ := m_malloc (A := Z) 1 sizeof_mp_obj_str_t in
  let! b := if wrap 32 (Vstr.len v + 1) =? Vstr.alloc v then Ret (Vstr.buf v) else m_renew 1 (Vstr.buf v) (wrap 32 (Vstr.len v + 1)) in
  let! b := wr b (Vstr.len v) 0 in
  Ret (mk_str type (take (Z.to_nat (Vstr.len v)) b)).

Definition with_buf (v : vstr_t) (b : list Z) : vstr_t := mk_vstr (Vstr.alloc v) (Vstr.len v) b (Vstr.fixed_buf v).

(** [bad_implicit_conversion] *)
Definition bad_implicit_conversion {A} : outcome A := Raise TypeError.

(** The data of an argument that must be of the type of [self]. *)
Definition same_type (self : mp_obj_str_t) (arg : str_arg) : outcome (list Z) :=
  match arg with
  | StrArg s => if bool_decide (type s = type self) then Ret (data s) else bad_implicit_conversion
  | _ => bad_implicit_conversion
  end.

Definition mp_obj_str_get_data (arg : str_arg) : outcome (list Z) :=
  match arg with StrArg s => Ret (data s) | _ => bad_implicit_conversion end.

(** ** Searching *)

Fixpoint find_loop (fuel : nat) (haystack needle : list Z) (str_index str_index_end direction : Z) : outcome (option Z) :=
  match fuel with
  | O => OutOfFuel
  | S fuel =>
    if memcmp (length needle) (drop (Z.to_nat str_index) haystack) needle =? 0 then Ret (Some str_index)
    else if str_index =? str_index_end then Ret None
    else find_loop fuel haystack needle (wrap 32 (str_index + direction)) str_index_end direction
  end.

(** The index of the first occurrence, or of the last if [direction] is not positive. *)
Definition find_subbytes (haystack needle : list Z) (direction : Z) : outcome (option Z) :=
  let hlen := Z.of_nat (length haystack) in
  let nlen := Z.of_nat (length needle) in
  if nlen <=? hlen then
    let '(str_index, str_index_end) := if 0 <? direction then (0, hlen - nlen) else (hlen - nlen, 0) in
    find_loop (S (length haystack)) haystack needle str_index str_index_end direction
  else Ret None.

(** ** Operators *)

Inductive str_op := STR_MODULO | STR_MULTIPLY | STR_ADD | STR_CONTAINS | STR_COMPARE (op : cmp_op).
Inductive str_result := StrResult (s : mp_obj_str_t) | BoolResult (b : bool) | IntResult (n : Z) | NotSupported.

(** The bytes of the right operand; [None] if the operation is not supported. *)
Definition rhs_bytes (lhs : mp_obj_str_t) (rhs : str_arg) : outcome (option (list Z)) :=
  match rhs with
  | StrArg r =>
    if bool_decide (type lhs = type r) then Ret (Some (data r))
    else if bool_decide (type lhs = mp_type_bytes) then Ret (Some (data r)) else bad_implicit_conversion
  | BufferArg d => if bool_decide (type lhs = mp_type_bytes) then Ret (Some d) else bad_implicit_conversion
  | _ => if bool_decide (type lhs = mp_type_bytes) then Ret None else bad_implicit_conversion
  end.

Definition str_multiply (lhs : mp_obj_str_t) (n : Z) : outcome str_result :=
  if n <=? 0 then Ret (StrResult (mk_str (type lhs) []))
  else
    let! v := vstr_init_len (wrap 32 (str_len lhs * n)) in
    let! b := mp_seq_multiply (data lhs) (Z.to_nat n) (Vstr.buf v) 0 in
    let! s := mp_obj_new_str_from_vstr (type lhs) (with_buf v b) in Ret (StrResult s).

Definition str_add (lhs : mp_obj_str_t) (rhs : str_arg) (rhs_data : list Z) : outcome str_result :=
  let concat :=
    if (length rhs_data =? 0)%nat then Ret (StrResult lhs) else
    let! v := vstr_init_len (wrap 32 (str_len lhs + Z.of_nat (length rhs_data))) in
    let! b := memcpy_in (Vstr.buf v) 0 (data lhs) in
    let! b := memcpy_in b (str_len lhs) rhs_data in
    let! s := mp_obj_new_str_from_vstr (type lhs) (with_buf v b) in Ret (StrResult s) in
  match rhs with
  | StrArg r => if (str_len lhs =? 0) && bool_decide (type r = type lhs) then Ret (StrResult r) else concat
  | _ => concat
  end.

Definition mp_obj_str_binary_op (op : str_op) (lhs : mp_obj_str_t) (rhs : str_arg) : outcome str_result :=
  match op with
  | STR_MODULO => Ret NotSupported
  | STR_MULTIPLY => match rhs with IntArg n => str_multiply lhs n | _ => Ret NotSupported end
  | op =>
    let! rhs_data := rhs_bytes lhs rhs in
    match rhs_data with
    | None => Ret NotSupported
    | Some rhs_data =>
      match op with
      | STR_ADD => str_add lhs rhs rhs_data
      | STR_CONTAINS =>
        let! r := find_subbytes (data lhs) rhs_data 1 in
        Ret (BoolResult (match r with Some _ => true | None => false end))
      | STR_COMPARE op => Ret (BoolResult (mp_seq_cmp_bytes op (data lhs) rhs_data))
      | _ => Ret NotSupported
      end
    end
  end.

(** ** Subscripts *)

Inductive str_index := IndexInt (i : Z) | IndexSlice (s e st : option Z).

Definition bytes_subscr (self : mp_obj_str_t) (index : str_index) : outcome str_result :=
  match index with
  | IndexSlice s e st =>
    let! '(slice, fast) := mp_seq_get_fast_slice_indexes (str_len self) s e st in
    if negb fast then Raise NotImplementedError else
    let! r := mp_obj_new_str_of_type (type self) (take (Z.to_nat (stop slice - start slice)) (drop (Z.to_nat (start slice)) (data self))) in
    Ret (StrResult r)
  | IndexInt i =>
    let! index_val := mp_get_index (str_len self) i false in
    let! c := rd (data self) index_val in
    if bool_decide (type self = mp_type_bytes) then Ret (IntResult c)
    else let! r := mp_obj_new_str_via_qstr [c] in Ret (StrResult r)
  end.

(** [str_index_to_ptr] in a slice, as an index; [None] is an argument that is absent or [None]. *)
Definition str_index_to_ptr (self_len : Z) (index : option Z) (default : Z) : outcome Z :=
  match index with Some i => mp_get_index self_len i true | None => Ret default end.

(** ** Joining *)

(** The first loop of [str_join]; [None] is an item that is no string. *)
Fixpoint join_len (self : mp_obj_str_t) (items : list slot) (i : nat) (required_len : Z) : outcome Z :=
  match items with
  | [] => Ret required_len
  | Some s :: items =>
    if negb (bool_decide (type s = type self)) then Raise TypeError else
    let required_len := if (0 <? i)%nat then wrap 32 (required_len + str_len self) else required_len in
    join_len self items (S i) (wrap 32 (required_len + str_len s))
  | None :: _ => Raise TypeError
  end.

Fixpoint join_copy (sep : list Z) (items : list slot) (i : nat) (b : list Z) (pos : Z) : outcome (list Z) :=
  match items with
  | [] => Ret b
  | Some s :: items =>
    let! '(b, pos) :=
      if (0 <? i)%nat then let! b := memcpy_in b pos sep in Ret (b, pos + Z.of_nat (length sep)) else Ret (b, pos) in
    let! b := memcpy_in b pos (data s) in
    join_copy sep items (S i) b (pos + str_len s)
  | None :: _ => Undef
  end.

Definition str_join (self : mp_obj_str_t) (seq_items : list slot) : outcome mp_obj_str_t :=
  let! required_len := join_len self seq_items 0 0 in
  let! v := vstr_init_len required_len in
  let! b := join_copy (data self) seq_items 0 (Vstr.buf v) 0 in
  mp_obj_new_str_from_vstr (type self) (with_buf v b).

(** ** Splitting *)

Definition append_str (self : mp_obj_str_t) (res : mp_obj_list_t) (piece : list Z) : outcome (mp_obj_list_t (obj := slot)) :=
  let! o := mp_obj_new_str_of_type (type self) piece in mp_obj_list_append None res (Some o).

Fixpoint skip_spaces (s : list Z) : list Z :=
  match s with c :: s' => if unichar_isspace c then skip_spaces s' else s | [] => [] end.

(** The characters up to the next white space, and the rest. *)
Fixpoint take_word (s : list Z) : list Z * list Z :=
  match s with
  | c :: s' => if negb (unichar_isspace c) then let '(w, r) := take_word s' in (c :: w, r) else ([], s)
  | [] => ([], [])
  end.

(** What is left of the string, and the list. *)
Fixpoint split_spaces (fuel : nat) (self : mp_obj_str_t) (s : list Z) (splits : Z) (res : mp_obj_list_t) : outcome (list Z * mp_obj_list_t (obj := slot)) :=
  match fuel with
  | O => OutOfFuel
  | S fuel =>
    match s with
    | _ :: _ =>
      if negb (splits =? 0) then
        let '(w, s) := take_word s in
        let! res := append_str self res w in
        match s with
        | [] => Ret ([], res)
        | _ => split_spaces fuel self (skip_spaces s) (if 0 <? splits then splits - 1 else splits) res
        end
      else Ret (s, res)
    | [] => Ret ([], res)
    end
  end.

(** The characters before the next separator, and the rest from it on. *)
Fixpoint take_piece (s sep : list Z) (splits : Z) : list Z * list Z :=
  if (splits =? 0) || (length s <? length sep)%nat then (s, [])
  else if memcmp (length sep) s sep =? 0 then ([], s)
  else match s with c :: s' => let '(w, r) := take_piece s' sep splits in (c :: w, r) | [] => ([], []) end.

Fixpoint split_sep (fuel : nat) (self : mp_obj_str_t) (s sep : list Z) (splits : Z) (res : mp_obj_list_t) : outcome (mp_obj_list_t (obj := slot)) :=
  match fuel with
  | O => OutOfFuel
  | S fuel =>
    let '(w, s) := take_piece s sep splits in
    let! res := append_str self res w in
    match s with
    | [] => Ret res
    | _ => split_sep fuel self (drop (length sep) s) sep (if 0 <? splits then splits - 1 else splits) res
    end
  end.

(** [sep = None] is Python's [None]; [splits] is -1 if it is not given. *)
Definition mp_obj_str_split (self : mp_obj_str_t) (sep : option str_arg) (splits : Z) : outcome (mp_obj_list_t (obj := slot)) :=
  let! res := mp_obj_new_list None 0 None in
  match sep with
  | None =>
    let! '(s, res) := split_spaces (S (length (data self))) self (skip_spaces (data self)) splits res in
    match s with [] => Ret res | _ => append_str self res s end
  | Some sep =>
    let! sep_str := same_type self sep in
    if (length sep_str =? 0)%nat then Raise ValueError
    else split_sep (S (length (data self))) self (data self) sep_str splits res
  end.

(** A line and the length of its end; [s[1]] at the end of the string is the terminator. *)
Fixpoint take_line (s : list Z) : list Z * nat :=
  match s with
  | [] => ([], 0%nat)
  | c :: s' =>
    if c =? 10 then ([], 1%nat)
    else if c =? 13 then ([], if (match s' with d :: _ => d | [] => 0 end) =? 10 then 2%nat else 1%nat)
    else let '(w, m) := take_line s' in (c :: w, m)
  end.

Fixpoint splitlines_loop (fuel : nat) (self : mp_obj_str_t) (s : list Z) (keepends : bool) (res : mp_obj_list_t) : outcome (mp_obj_list_t (obj := slot)) :=
  match fuel with
  | O => OutOfFuel
  | S fuel =>
    match s with
    | [] => Ret res
    | _ :: _ =>
      let '(w, m) := take_line s in
      let sub_len := if keepends then (length w + m)%nat else length w in
      let! res := append_str self res (take sub_len s) in
      splitlines_loop fuel self (drop (length w + m) s) keepends res
    end
  end.

Definition str_splitlines (self : mp_obj_str_t) (keepends : bool) : outcome (mp_obj_list_t (obj := slot)) :=
  let! res := mp_obj_new_list None 0 None in
  splitlines_loop (S (length (data self))) self (data self) keepends res.

(** The start of the last separator before [s + sep_len], or -1 if there is none; [s] is an index. *)
Fixpoint rfind_sep (fuel : nat) (str sep : list Z) (splits s : Z) : outcome Z :=
  match fuel with
  | O => OutOfFuel
  | S fuel =>
    if (splits =? 0) || (s <? 0) then Ret s
    else if memcmp (length sep) (drop (Z.to_nat s) str) sep =? 0 then Ret s
    else rfind_sep fuel str sep splits (s - 1)
  end.

(** The pieces are stored from the end of the list. *)
Fixpoint rsplit_loop (fuel : nat) (self : mp_obj_str_t) (sep : list Z) (last splits idx : Z) (items : list slot) : outcome (list slot * Z) :=
  match fuel with
  | O => OutOfFuel
  | S fuel =>
    let sep_len := Z.of_nat (length sep) in
    let! s := rfind_sep (S (length (data self))) (data self) sep splits (last - sep_len) in
    if (s <? 0) || (splits =? 0) then
      let! o := mp_obj_new_str_of_type (type self) (take (Z.to_nat last) (data self)) in
      let! items := wr items idx (Some o) in Ret (items, idx)
    else
      let! o := mp_obj_new_str_of_type (type self)
        (take (Z.to_nat (last - s - sep_len)) (drop (Z.to_nat (s + sep_len)) (data self))) in
      let! items := wr items idx (Some o) in
      rsplit_loop fuel self sep s (splits - 1) (idx - 1) items
  end.

(** [None] for [splits] is the absent argument. *)
Definition str_rsplit (self : mp_obj_str_t) (sep : option str_arg) (splits : option Z) : outcome (mp_obj_list_t (obj := slot)) :=
  match splits with
  | None => mp_obj_str_split self sep (-1)
  | Some splits =>
    if splits <? 0 then mp_obj_str_split self sep splits else
    let! res := mp_obj_new_list None (splits + 1) None in
    match sep with
    | None => Raise NotImplementedError
    | Some sep =>
      let! sep_str := mp_obj_str_get_data sep in
      if (length sep_str =? 0)%nat then Raise ValueError else
      let! '(its, idx) := rsplit_loop (S (length (data self))) self sep_str (str_len self) splits splits (items res) in
      if negb (idx =? 0) then
        let used := splits + 1 - idx in
        let! its := memmove its 0 idx used in
        let! its := mp_seq_clear None its used (ObjList.alloc res) in
        Ret (mk_list (ObjList.alloc res) used its)
      else Ret (mk_list (ObjList.alloc res) (ObjList.len res) its)
    end
  end.

(** ** Finding and comparing *)

Definition str_finder (self : mp_obj_str_t) (needle : str_arg) (start stop : option Z) (direction : Z) (is_index : bool) : outcome Z :=
  let! needle := same_type self needle in
  let len := str_len self in
  let! start := str_index_to_ptr len start 0 in
  let! stop := str_index_to_ptr len stop len in
  let not_found := if is_index : bool then Raise ValueError else Ret (-1) in
  if stop <? start then not_found else
  let! p := find_subbytes (take (Z.to_nat (stop - start)) (drop (Z.to_nat start) (data self))) needle direction in
  match p with None => not_found | Some p => Ret (start + p) end.

Definition str_find self needle start stop := str_finder self needle start stop 1 false.
Definition str_rfind self needle start stop := str_finder self needle start stop (-1) false.
Definition str_index_method self needle start stop := str_finder self needle start stop 1 true.
Definition str_rindex self needle start stop := str_finder self needle start stop (-1) true.

Definition str_startswith (self : mp_obj_str_t) (prefix : str_arg) (start : option Z) : outcome bool :=
  let! prefix := mp_obj_str_get_data prefix in
  let! start := str_index_to_ptr (str_len self) start 0 in
  if str_len self <? wrap 32 (Z.of_nat (length prefix) + start) then Ret false
  else Ret (memcmp (length prefix) (drop (Z.to_nat start) (data self)) prefix =? 0).

Definition str_endswith (self : mp_obj_str_t) (suffix : str_arg) (has_start : bool) : outcome bool :=
  let! suffix := mp_obj_str_get_data suffix in
  if has_start then Raise NotImplementedError else
  if str_len self <? Z.of_nat (length suffix) then Ret false
  else Ret (memcmp (length suffix) (drop (length (data self) - length suffix) (data self)) suffix =? 0).

(** ** Stripping *)

Inductive strip_type := LSTRIP | RSTRIP | STRIP.
#[export] Instance strip_type_eq_dec : EqDecision strip_type.
Proof. solve_decision. Defined.

Definition whitespace : list Z := [32; 9; 10; 13; 11; 12].

(** [Some (first, last)] are the positions of the good characters. *)
Fixpoint strip_loop (len : nat) (type : strip_type) (orig_str chars_to_del : list Z) (i delta : Z) (good : option (Z * Z)) : outcome (option (Z * Z)) :=
  match len with
  | O => Ret good
  | S len =>
    let! c := rd orig_str i in
    let! r := find_subbytes chars_to_del [c] 1 in
    match r with
    | None =>
      match good with
      | None =>
        if bool_decide (type = LSTRIP) then Ret (Some (i, Z.of_nat (length orig_str) - 1))
        else if bool_decide (type = RSTRIP) then Ret (Some (0, i))
        else strip_loop len type orig_str chars_to_del (wrap 32 (i + delta)) delta (Some (i, i))
      | Some (first, _) => strip_loop len type orig_str chars_to_del (wrap 32 (i + delta)) delta (Some (first, i))
      end
    | Some _ => strip_loop len type orig_str chars_to_del (wrap 32 (i + delta)) delta good
    end
  end.

Definition str_uni_strip (type_ : strip_type) (self : mp_obj_str_t) (arg : option str_arg) : outcome mp_obj_str_t :=
  let! chars_to_del := match arg with None => Ret whitespace | Some a => same_type self a end in
  let len := str_len self in
  let '(i, delta) := if bool_decide (type_ = RSTRIP) then (wrap 32 (len - 1), -1) else (0, 1) in
  let! good := strip_loop (length (data self)) type_ (data self) chars_to_del i delta None in
  match good with
  | None => Ret (mk_str (type self) [])
  | Some (first, last) =>
    let stripped_len := last - first + 1 in
    if stripped_len =? len then Ret self
    else mp_obj_new_str_of_type (type self) (take (Z.to_nat stripped_len) (drop (Z.to_nat first) (data self)))
  end.

(** ** Replacing *)

(** [memcpy] in the second pass only. *)
Definition copy_if (d : option (list Z)) (pos : Z) (s : list Z) : outcome (option (list Z)) :=
  match d with Some b => let! b := memcpy_in b pos s in Ret (Some b) | None => Ret None end.

(** One pass: [index] is [replaced_str_index], [num] the number of replacements, [offset] the index
    after the last occurrence. *)
Fixpoint replace_loop (fuel : nat) (str old new : list Z) (max_rep : Z) (d : option (list Z)) (index num offset : Z)
  : outcome (option (list Z) * Z * Z * Z) :=
  match fuel with
  | O => OutOfFuel
  | S fuel =>
    let remain := Z.of_nat (length str) - offset in
    if negb (num =? wrap 32 max_rep) && (0 <? remain) then
      let! r := find_subbytes (drop (Z.to_nat offset) str) old 1 in
      match r with
      | None => Ret (d, index, num, offset)
      | Some p =>
        let p := if (length old =? 0)%nat then p + 1 else p in
        let! d := copy_if d index (take (Z.to_nat p) (drop (Z.to_nat offset) str)) in
        let index := wrap 32 (index + p) in
        let! d := copy_if d index new in
        let index := wrap 32 (index + Z.of_nat (length new)) in
        replace_loop fuel str old new max_rep d index (wrap 32 (num + 1)) (offset + p + Z.of_nat (length old))
      end
    else Ret (d, index, num, offset)
  end.

Definition replace_pass (str old new : list Z) (max_rep : Z) (d : option (list Z)) : outcome (option (list Z) * Z * Z) :=
  let! '(d, index, num) :=
    if (length old =? 0)%nat then
      let! d := copy_if d 0 new in Ret (d, Z.of_nat (length new), 1)
    else Ret (d, 0, 0) in
  let! '(d, index, num, offset) := replace_loop (S (length str)) str old new max_rep d index num 0 in
  let! d := copy_if d index (drop (Z.to_nat offset) str) in
  Ret (d, wrap 32 (index + (Z.of_nat (length str) - offset)), num).

(** [None] for [count] is the absent argument. *)
Definition str_replace (self : mp_obj_str_t) (old new : str_arg) (count : option Z) : outcome mp_obj_str_t :=
  if match count with Some c => c =? 0 | None => false end then Ret self else
  let max_rep := match count with Some c => if c <? 0 then -1 else c | None => -1 end in
  let! old := same_type self old in
  let! new := same_type self new in
  if (length (data self) <? length old)%nat then Ret self else
  let! '(_, index, num) := replace_pass (data self) old new max_rep None in
  if num =? 0 then Ret self else
  let! v := vstr_init_len index in
  let! '(d, _, _) := replace_pass (data self) old new max_rep (Some (Vstr.buf v)) in
  mp_obj_new_str_from_vstr (type self) (with_buf v (default [] d)).

(** ** Case and classes *)

Fixpoint caseconv_loop (op : Z -> Z) (s : list Z) (b : list Z) (i : Z) : outcome (list Z) :=
  match s with
  | [] => Ret b
  | c :: s => let! b := wr b i (wrap 8 (op c)) in caseconv_loop op s b (i + 1)
  end.

Definition str_caseconv (op : Z -> Z) (self : mp_obj_str_t) : outcome mp_obj_str_t :=
  let! v := vstr_init_len (str_len self) in
  let! b := caseconv_loop op (data self) (Vstr.buf v) 0 in
  mp_obj_new_str_from_vstr (type self) (with_buf v b).

Definition str_lower (self : mp_obj_str_t) : outcome mp_obj_str_t := str_caseconv unichar_tolower self.
Definition str_upper (self : mp_obj_str_t) : outcome mp_obj_str_t := str_caseconv unichar_toupper self.

Fixpoint all_of (f : Z -> bool) (s : list Z) : bool :=
  match s with [] => true | c :: s => if negb (f c) then false else all_of f s end.

Fixpoint all_alpha_of (f : Z -> bool) (s : list Z) (contains_alpha : bool) : bool :=
  match s with
  | [] => contains_alpha
  | c :: s =>
    if unichar_isalpha c then if negb (f c) then false else all_alpha_of f s true
    else all_alpha_of f s contains_alpha
  end.

(** [is_case]: [f] is [unichar_isupper] or [unichar_islower]. *)
Definition str_uni_istype (f : Z -> bool) (is_case : bool) (self : mp_obj_str_t) : bool :=
  match data self with
  | [] => false
  | s => if negb is_case then all_of f s else all_alpha_of f s false
  end.

Definition str_isspace := str_uni_istype unichar_isspace false.
Definition str_isalpha := str_uni_istype unichar_isalpha false.
Definition str_isdigit := str_uni_istype unichar_isdigit false.
Definition str_isupper := str_uni_istype unichar_isupper true.
Definition str_islower := str_uni_istype unichar_islower true.

(** ** Iteration *)

Definition str_it_iternext (self : mp_obj_str_t) (cur : Z) : outcome (Z * option mp_obj_str_t) :=
  if cur <? str_len self then
    let! c := rd (data self) cur in
    let! o := mp_obj_new_str_via_qstr [c] in Ret (cur + 1, Some o)
  else Ret (cur, None).

Definition bytes_it_iternext (self : mp_obj_str_t) (cur : Z) : outcome (Z * option Z) :=
  if cur <? str_len self then let! c := rd (data self) cur in Ret (cur + 1, Some c) else Ret (cur, None).
End ObjStr.
