(* ===== verification/StrSpec.v ===== *)
(** * Correctness of strings: memory, searching and joining

    Every operation returns the string or number that Python's gives, or what Python raises, or
    [MemoryError]; no byte outside a buffer is read or written. *)

From Stdlib Require Import String.
From S2P Require Import Prelude Malloc Unicode Vstr MpObj Sequence ObjList ListSpec StrPrint ObjStr.
Local Open Scope Z_scope.

(** Strings shorter than 2 GB, as all are. *)
Definition small (s : list Z) : Prop := Z.of_nat (length s) < 2 ^ 31 - 1.

Section Memory.
Context {byte_heap : Allocator Z}.
Variable qstr_find_strn : list Z -> bool.

Lemma malloc_ok n : yields (m_malloc (A := Z) 1 n) (fun _ => True).
Proof.
  unfold m_malloc. destruct (n =? 0); [by eapply yields_ret|]. destruct (m_renew_ok n); [by eapply yields_ret|by left].
Qed.

Lemma new_copy_ok ty d : small d -> yields (mp_obj_new_str_copy ty d) (fun s => s = mk_str ty d).
Proof.
  intros Hd. unfold small in Hd. unfold mp_obj_new_str_copy. eapply yields_bind; [apply malloc_ok|]. intros _ _.
  rewrite wrap_small by lia. rewrite m_new_ok by lia. destruct (m_renew_ok _); [|by left]. cbn [obind].
  rewrite memcpy_in_Ret by (rewrite ?length_replicate; lia). cbn [obind].
  change (Z.to_nat 0) with 0%nat. rewrite take_0. cbn [app Nat.add].
  rewrite wr_Ret by lens. cbn [obind].
  eapply yields_ret; [done|]. f_equal. rewrite take_insert_ge by lia. by rewrite take_app_length.
Qed.

Lemma new_of_type_ok ty d : small d -> yields (mp_obj_new_str_of_type qstr_find_strn ty d) (fun s => s = mk_str ty d).
Proof.
  intros Hd. unfold mp_obj_new_str_of_type, mp_obj_new_str, mp_obj_new_bytes. destruct ty; cbn [bool_decide].
  - destruct (qstr_find_strn d); [by eapply yields_ret|by apply new_copy_ok].
  - by apply new_copy_ok.
Qed.

Lemma init_len_ok n : 0 <= n < 2 ^ 31 - 1 ->
  yields (vstr_init_len n) (fun v => Vstr.alloc v = n + 1 /\ Vstr.len v = n /\ length (Vstr.buf v) = Z.to_nat (n + 1)).
Proof.
  intros Hn. unfold vstr_init_len, vstr_init. rewrite wrap_small by lia. rewrite (proj2 (Z.ltb_ge (n + 1) 1)) by lia.
  rewrite m_new_ok by lia. destruct (m_renew_ok _); [|by left]. cbn [obind]. eapply yields_ret; [done|]. cbn.
  by rewrite length_replicate.
Qed.

(** The string in a buffer that has room for exactly one more byte. *)
Lemma from_buf_ok ty v b n d rest : Vstr.alloc v = n + 1 -> Vstr.len v = n -> 0 <= n < 2 ^ 31 - 1 ->
  b = d ++ rest -> Z.of_nat (length d) = n -> length rest = 1%nat ->
  yields (mp_obj_new_str_from_vstr qstr_find_strn ty (with_buf v b)) (fun s => s = mk_str ty d).
Proof.
  intros Ha Hl Hn -> Hd Hr. unfold mp_obj_new_str_from_vstr, Vstr.str, with_buf. cbn [Vstr.len Vstr.alloc Vstr.buf].
  rewrite Ha, Hl. rewrite take_app_length' by lia.
  destruct (_ && _); [by eapply yields_ret|]. eapply yields_bind; [apply malloc_ok|]. intros _ _.
  rewrite wrap_small, Z.eqb_refl by lia. cbn [obind].
  rewrite wr_Ret by lens. cbn [obind]. eapply yields_ret; [done|]. f_equal.
  rewrite take_insert_ge by lia. by rewrite take_app_length' by lia.
Qed.
End Memory.

(** ** Occurrences *)

Definition occurs (needle haystack : list Z) (i : nat) : Prop :=
  (i + length needle <= length haystack)%nat /\ take (length needle) (drop i haystack) = needle.

#[export] Instance occurs_dec needle haystack i : Decision (occurs needle haystack i).
Proof. unfold occurs. apply _. Defined.

Lemma memcmp_occurs h n i : (i + length n <= length h)%nat -> (memcmp (length n) (drop i h) n =? 0) = bool_decide (occurs n h i).
Proof.
  intros Hi. rewrite memcmp_eq by (rewrite length_drop; lia). apply bool_decide_ext. unfold occurs. tauto.
Qed.

(** Upwards from [i] to [e]; downwards from [i] to 0. *)
Lemma find_up fuel h n i e : (e + length n = length h)%nat -> (i <= e)%nat -> (e - i < fuel)%nat -> Z.of_nat (length h) < 2 ^ 31 ->
  exists r, find_loop fuel h n (Z.of_nat i) (Z.of_nat e) 1 = Ret (Z.of_nat <$> r) /\
    match r with
    | Some k => (i <= k)%nat /\ occurs n h k /\ forall j, (i <= j < k)%nat -> ~ occurs n h j
    | None => forall j, (i <= j)%nat -> ~ occurs n h j
    end.
Proof.
  intros He. revert i. induction fuel as [|fuel IH]; intros i Hi Hf Hs; [lia|]. cbn [find_loop].
  rewrite Nat2Z.id, memcmp_occurs by lia. destruct (bool_decide_reflect (occurs n h i)) as [Ho|Ho].
  - exists (Some i). split; [done|]. split_and!; [lia|done|lia].
  - destruct (Z.eqb_spec (Z.of_nat i) (Z.of_nat e)) as [E|E].
    + exists None. split; [done|]. intros j Hj Hoj. assert (j = i) as -> by (destruct Hoj; lia). done.
    + rewrite wrap_small by lia. replace (Z.of_nat i + 1) with (Z.of_nat (S i)) by lia.
      destruct (IH (S i)) as (r & -> & Hr); [lia..|]. exists r. split; [done|]. destruct r as [k|].
      * destruct Hr as (H1 & H2 & H3). split_and!; [lia|done|]. intros j Hj. destruct (Nat.eq_dec j i) as [->|]; [done|]. apply H3. lia.
      * intros j Hj. destruct (Nat.eq_dec j i) as [->|]; [done|]. apply Hr. lia.
Qed.

Lemma find_down fuel h n i : (i + length n <= length h)%nat -> (i < fuel)%nat -> Z.of_nat (length h) < 2 ^ 31 ->
  exists r, find_loop fuel h n (Z.of_nat i) 0 (-1) = Ret (Z.of_nat <$> r) /\
    match r with
    | Some k => (k <= i)%nat /\ occurs n h k /\ forall j, (k < j <= i)%nat -> ~ occurs n h j
    | None => forall j, (j <= i)%nat -> ~ occurs n h j
    end.
Proof.
  revert i. induction fuel as [|fuel IH]; intros i Hi Hf Hs; [lia|]. cbn [find_loop].
  rewrite Nat2Z.id, memcmp_occurs by lia. destruct (bool_decide_reflect (occurs n h i)) as [Ho|Ho].
  - exists (Some i). split; [done|]. split_and!; [lia|done|lia].
  - destruct (Z.eqb_spec (Z.of_nat i) 0) as [E|E].
    + exists None. split; [done|]. intros j Hj. by replace j with i by lia.
    + rewrite wrap_small by lia. replace (Z.of_nat i + -1) with (Z.of_nat (i - 1)) by lia.
      destruct (IH (i - 1)%nat) as (r & -> & Hr); [lia..|]. exists r. split; [done|]. destruct r as [k|].
      * destruct Hr as (H1 & H2 & H3). split_and!; [lia|done|]. intros j Hj. destruct (Nat.eq_dec j i) as [->|]; [done|]. apply H3. lia.
      * intros j Hj. destruct (Nat.eq_dec j i) as [->|]; [done|]. apply Hr. lia.
Qed.

(** The first or last occurrence. *)
Definition extreme (up : bool) (n h : list Z) (r : option nat) : Prop :=
  match r with
  | Some k => occurs n h k /\ forall j, occurs n h j -> if up then (k <= j)%nat else (j <= k)%nat
  | None => forall j, ~ occurs n h j
  end.

Lemma find_ok h n (up : bool) : Z.of_nat (length h) < 2 ^ 31 ->
  exists r, find_subbytes h n (if up then 1 else -1) = Ret (Z.of_nat <$> r) /\ extreme up n h r.
Proof.
  intros Hs. unfold find_subbytes. destruct (Z.leb_spec (Z.of_nat (length n)) (Z.of_nat (length h))) as [Hle|Hgt].
  - replace (Z.of_nat (length h) - Z.of_nat (length n)) with (Z.of_nat (length h - length n)) by lia.
    destruct up; cbn [Z.ltb Z.compare].
    + destruct (find_up (S (length h)) h n 0 (length h - length n)) as (r & E & Hr); [lia..|].
      exists r. split; [exact E|]. destruct r as [k|]; cbn.
      * destruct Hr as (_ & H2 & H3). split; [done|]. intros j Hj. destruct (Nat.le_gt_cases k j); [done|]. destruct (H3 j); [lia|done].
      * intros j. apply Hr. lia.
    + destruct (find_down (S (length h)) h n (length h - length n)) as (r & E & Hr); [lia..|].
      exists r. split; [exact E|]. destruct r as [k|]; cbn.
      * destruct Hr as (_ & H2 & H3). split; [done|]. intros j Hj. destruct (Nat.le_gt_cases j k); [done|].
        destruct (H3 j); [|done]. destruct Hj. lia.
      * intros j Hj. apply (Hr j); [destruct Hj; lia|done].
  - exists None. split; [done|]. intros j [Hj _]. lia.
Qed.

(** ** Finding *)

(** Where Python's slices put an index. *)
Definition clip (len : Z) (i : option Z) (default : Z) : Z :=
  match i with None => default | Some i => Z.max 0 (Z.min len (if i <? 0 then i + len else i)) end.

Lemma index_to_ptr_ok len i d : 0 <= len -> str_index_to_ptr len i d = Ret (clip len i d).
Proof.
  intros Hl. destruct i as [i|]; [|done]. unfold str_index_to_ptr, mp_get_index, clip.
  set (j := if i <? 0 then i + len else i). f_equal. destruct (Z.ltb_spec j 0), (Z.ltb_spec len j); lia.
Qed.

(** The needle is at position [p] of the window. *)
Definition found_at (n s : list Z) (lo hi p : Z) : Prop :=
  lo <= p /\ p + Z.of_nat (length n) <= hi /\ take (length n) (drop (Z.to_nat p) s) = n.

Lemma occurs_window n s lo hi k : 0 <= lo <= hi -> hi <= Z.of_nat (length s) ->
  occurs n (take (Z.to_nat (hi - lo)) (drop (Z.to_nat lo) s)) k <-> found_at n s lo hi (lo + Z.of_nat k).
Proof.
  intros. unfold occurs, found_at. rewrite length_take, length_drop.
  replace (Z.to_nat (lo + Z.of_nat k)) with (Z.to_nat lo + k)%nat by lia.
  rewrite skipn_firstn_comm, drop_drop, take_take.
  split; intros Hx; destruct_and!; split_and?; try lia.
  - replace (length n `min` (Z.to_nat (hi - lo) - k))%nat with (length n) in * by lia. done.
  - replace (length n `min` (Z.to_nat (hi - lo) - k))%nat with (length n) by lia. done.
Qed.

(** [str_finder] (the methods [find], [rfind], [index] and [rindex]): the position of the first
    or last occurrence of the needle inside the slice of the string that the start and end indices
    select, which count from the end if they are negative and are clipped to the string; if there is
    no occurrence, -1, or [ValueError] for the [index] methods. *)
Theorem str_finder_spec self needle s e (up is_index : bool) :
  small (data self) ->
  let lo := clip (str_len self) s 0 in
  let hi := clip (str_len self) e (str_len self) in
  match str_finder self (StrArg needle) s e (if up then 1 else -1) is_index with
  | Ret p =>
    type needle = type self /\
    ((found_at (data needle) (data self) lo hi p /\
      forall q, found_at (data needle) (data self) lo hi q -> if up then p <= q else q <= p) \/
     (p = -1 /\ is_index = false /\ forall q, ~ found_at (data needle) (data self) lo hi q))
  | Raise ValueError => type needle = type self /\ is_index = true /\ forall q, ~ found_at (data needle) (data self) lo hi q
  | Raise TypeError => type needle <> type self
  | _ => False
  end.
Proof.
  intros Hs lo hi. unfold small in Hs. unfold str_finder, same_type.
  destruct (bool_decide_reflect (type needle = type self)) as [Ht|Ht]; [|done]. cbn [obind].
  rewrite !index_to_ptr_ok by (unfold str_len; lia). fold lo hi. cbn [obind].
  assert (Hlo : 0 <= lo <= str_len self) by (unfold lo, clip, str_len; destruct s; lia).
  assert (Hhi : 0 <= hi <= str_len self) by (unfold hi, clip, str_len; destruct e; lia).
  assert (Hno : (forall q, ~ found_at (data needle) (data self) lo hi q) ->
    match (if is_index then Raise ValueError else Ret (-1)) with
    | Ret p => type needle = type self /\
      ((found_at (data needle) (data self) lo hi p /\
        forall q, found_at (data needle) (data self) lo hi q -> if up then p <= q else q <= p) \/
       (p = -1 /\ is_index = false /\ forall q, ~ found_at (data needle) (data self) lo hi q))
    | Raise ValueError => type needle = type self /\ is_index = true /\ forall q, ~ found_at (data needle) (data self) lo hi q
    | Raise TypeError => type needle <> type self
    | _ => False
    end) by (destruct is_index; auto).
  destruct (Z.ltb_spec hi lo) as [Hlt|Hle].
  - apply Hno. intros q (H1 & H2 & _). lia.
  - unfold str_len in *. set (w := take _ _).
    destruct (find_ok w (data needle) up) as (r & -> & Hr); [unfold w; rewrite length_take, length_drop; lia|].
    assert (Hw : forall q, found_at (data needle) (data self) lo hi q -> occurs (data needle) w (Z.to_nat (q - lo))).
    { intros q Hq. apply occurs_window; [lia..|]. by replace (lo + Z.of_nat (Z.to_nat (q - lo))) with q by (destruct Hq; lia). }
    cbn [obind]. destruct r as [k|]; cbn [fmap option_fmap option_map].
    + destruct Hr as [Ho Hx]. split; [done|]. left. split; [by apply occurs_window; [lia..|]|].
      intros q Hq. specialize (Hx _ (Hw q Hq)). destruct Hq. destruct up; lia.
    + apply Hno. intros q Hq. by apply (Hr _ (Hw q Hq)).
Qed.

#[local] Definition hay : mp_obj_str_t := mk_str mp_type_str [97; 98; 99; 97; 98; 99].

Lemma str_finder_spec_witness :
  str_rfind hay (StrArg (mk_str mp_type_str [98; 99])) None (Some (-1)) = Ret 1 /\
  match str_rfind hay (StrArg (mk_str mp_type_str [98; 99])) None (Some (-1)) with
  | Ret p => found_at [98; 99] [97; 98; 99; 97; 98; 99] 0 5 p
  | _ => False
  end.
Proof.
  split; [by vm_compute|]. pose proof (str_finder_spec hay (mk_str mp_type_str [98; 99]) None (Some (-1)) false false) as H.
  unfold str_rfind. assert (small (data hay)) as Hs by (unfold small; cbn; lia).
  specialize (H Hs). cbn zeta in H.
  replace (str_finder hay (StrArg (mk_str mp_type_str [98; 99])) None (Some (-1)) (-1) false) with (Ret (A := Z) 1) in *
    by (by vm_compute).
  destruct H as (_ & [[H _]|[H _]]); [exact H|done].
Defined.

(** ** Joining *)

(** [sep.join(pieces)] *)
Definition joined (sep : list Z) (pieces : list (list Z)) : list Z :=
  match pieces with [] => [] | p :: ps => p ++ concat (map (app sep) ps) end.

(** The items of a list of strings of one type. *)
Definition strs (ty : str_type) (pieces : list (list Z)) : list slot := map (fun p => Some (mk_str ty p)) pieces.

Lemma joined_cons sep p q ps : joined sep (p :: q :: ps) = p ++ sep ++ joined sep (q :: ps).
Proof. cbn. by rewrite !app_assoc. Qed.

Lemma joined_length sep p ps : Z.of_nat (length (joined sep (p :: ps))) =
  Z.of_nat (length p) + Z.of_nat (length (concat (map (app sep) ps))).
Proof. cbn. lens. Qed.

Section Join.
Context {byte_heap : Allocator Z}.
Variable qstr_find_strn : list Z -> bool.

Lemma join_len_ok self ps i n : (0 < i)%nat -> 0 <= n -> n + Z.of_nat (length (concat (map (app (data self)) ps))) < 2 ^ 31 ->
  join_len self (strs (type self) ps) i n = Ret (n + Z.of_nat (length (concat (map (app (data self)) ps)))).
Proof.
  revert i n. induction ps as [|p ps IH]; intros i n Hi Hn Hs; cbn [strs map join_len concat] in *; [by rewrite Z.add_0_r|].
  rewrite bool_decide_eq_true_2 by done. cbn [negb]. rewrite (proj2 (Nat.ltb_lt 0 i)) by done.
  autorewrite with lens in Hs. unfold str_len. cbn [data].
  rewrite (wrap_small 32 (n + _)), wrap_small by lia. fold (strs (type self) ps). rewrite IH by lia. f_equal. lens.
Qed.

Lemma join_copy_ok ty sep ps i pre mid post : (0 < i)%nat -> length mid = length (concat (map (app sep) ps)) ->
  join_copy sep (strs ty ps) i (pre ++ mid ++ post) (Z.of_nat (length pre)) = Ret (pre ++ concat (map (app sep) ps) ++ post).
Proof.
  revert i pre mid. induction ps as [|p ps IH]; intros i pre mid Hi Hm; cbn [strs map join_copy concat] in *.
  { by destruct mid. }
  rewrite (proj2 (Nat.ltb_lt 0 i)) by done. autorewrite with lens in Hm.
  rewrite <- (take_drop (length sep) mid). rewrite <- app_assoc.
  rewrite memcpy_in_middle by lens. cbn [obind data].
  rewrite (app_assoc pre sep). replace (Z.of_nat (length pre) + Z.of_nat (length sep)) with (Z.of_nat (length (pre ++ sep))) by lens.
  rewrite <- (take_drop (length p) (drop (length sep) mid)). rewrite <- (app_assoc (take _ (drop _ _))).
  rewrite memcpy_in_middle by lens. cbn [obind]. unfold str_len. cbn [data].
  rewrite (app_assoc (pre ++ sep) p). replace (Z.of_nat (length (pre ++ sep)) + Z.of_nat (length p)) with (Z.of_nat (length ((pre ++ sep) ++ p))) by lens.
  fold (strs ty ps). rewrite IH by lens. by rewrite <- !app_assoc.
Qed.

Lemma str_join_ok self ps : small (joined (data self) ps) ->
  yields (str_join qstr_find_strn self (strs (type self) ps)) (fun s => s = mk_str (type self) (joined (data self) ps)).
Proof.
  intros Hs. unfold small in Hs. unfold str_join.
  assert (join_len self (strs (type self) ps) 0 0 = Ret (Z.of_nat (length (joined (data self) ps)))) as ->.
  { destruct ps as [|p ps]; [done|]. cbn [strs map join_len]. rewrite bool_decide_eq_true_2 by done. cbn [negb Nat.ltb Nat.leb].
    rewrite joined_length in *. unfold str_len. cbn [data]. rewrite wrap_small by lia. rewrite Z.add_0_l. apply join_len_ok; lia. }
  cbn [obind]. eapply yields_bind; [apply init_len_ok; lia|]. intros v (H1 & H2 & H3).
  set (n := length (joined (data self) ps)) in *.
  assert (join_copy (data self) (strs (type self) ps) 0 (Vstr.buf v) 0 = Ret (joined (data self) ps ++ drop n (Vstr.buf v))) as ->.
  { rewrite <- (take_drop n (Vstr.buf v)) at 1. destruct ps as [|p ps]; [done|]. cbn [strs map join_copy Nat.ltb Nat.leb obind].
    unfold n in *. rewrite joined_length in *. rewrite <- (take_drop (length p) (take _ _)), <- (app_assoc (take _ (take _ _))).
    rewrite memcpy_in_front by (cbn [data]; unfold joined in *; lens). cbn [obind data]. unfold str_len. cbn [data].
    rewrite Z.add_0_l. fold (strs (type self) ps). rewrite join_copy_ok by (unfold joined in *; lens || lia).
    cbn [joined]. by rewrite <- app_assoc. }
  cbn [obind]. eapply from_buf_ok; [exact H1|exact H2|lia|done|done|]. rewrite length_drop. lia.
Qed.
End Join.
