(* ===== verification/StrSplit.v ===== *)
(** * Correctness of strings: splitting

    [split_at sep k s ps] is the definition of splitting that Python's documentation gives: at the
    leftmost occurrence of the separator, at most [k] times if [k] is not negative.  The code's
    loops over pointers give its pieces, and joining them gives the string back. *)

From Stdlib Require Import String.
From S2P Require Import Prelude Malloc Unicode Vstr MpObj Sequence ObjList ListSpec StrPrint ObjStr StrSpec.
Local Open Scope Z_scope.

(** ** Splitting at a separator *)

Inductive split_at (sep : list Z) : Z -> list Z -> list (list Z) -> Prop :=
| split_last k s : k = 0 \/ (forall j, ~ occurs sep s j) -> split_at sep k s [s]
| split_first k s i ps :
  k <> 0 -> occurs sep s i -> (forall j, (j < i)%nat -> ~ occurs sep s j) ->
  split_at sep (if 0 <? k then k - 1 else k) (drop (i + length sep) s) ps ->
  split_at sep k s (take i s :: ps).

Lemma split_at_cons sep k s ps : split_at sep k s ps -> exists p ps', ps = p :: ps'.
Proof. destruct 1; eauto. Qed.

Lemma split_joined sep k s ps : split_at sep k s ps -> joined sep ps = s.
Proof.
  induction 1 as [k s H|k s i ps Hk [Hl Ho] Hf Hs IH]; [by cbn; rewrite app_nil_r|].
  destruct (split_at_cons _ _ _ _ Hs) as (p & ps' & ->). rewrite joined_cons, IH.
  rewrite <- Ho at 1. rewrite <- drop_drop, take_drop, take_drop. done.
Qed.

Lemma split_count sep k s ps : split_at sep k s ps -> 0 <= k -> Z.of_nat (length ps) <= k + 1.
Proof.
  induction 1 as [k s H|k s i ps Hk Ho Hf Hs IH]; intros Hp; cbn [length]; [lia|].
  rewrite (proj2 (Z.ltb_lt 0 k)) in IH by lia. lia.
Qed.

Lemma split_clean sep k s ps : sep <> [] -> split_at sep k s ps -> k < 0 -> Forall (fun p => forall j, ~ occurs sep p j) ps.
Proof.
  intros Hempty. induction 1 as [k s H|k s i ps Hk [Hl Ho] Hf Hs IH]; intros Hp.
  - constructor; [|done]. by destruct H; [lia|].
  - rewrite (proj2 (Z.ltb_ge 0 k)) in IH by lia. constructor; [|by apply IH].
    intros j [Hj1 Hj2]. rewrite length_take in Hj1. apply (Hf j).
    + destruct sep as [|c sep]; [|cbn [length] in *; lia]. done.
    + split; [lia|]. rewrite skipn_firstn_comm, take_take in Hj2. by replace (length sep `min` (i - j))%nat with (length sep) in Hj2 by lia.
Qed.

Lemma take_piece_ok s sep k : 
  (exists i, k <> 0 /\ occurs sep s i /\ (forall j, (j < i)%nat -> ~ occurs sep s j) /\ take_piece s sep k = (take i s, drop i s)) \/
  ((k = 0 \/ forall j, ~ occurs sep s j) /\ take_piece s sep k = (s, [])).
Proof.
  destruct (Z.eqb_spec k 0) as [Hk|Hk].
  { right. split; [by left|]. subst. by destruct s. }
  induction s as [|c s IH]; cbn [take_piece]; rewrite (proj2 (Z.eqb_neq k 0)) by done; cbn [orb].
  - destruct (Nat.ltb_spec (length (A := Z) []) (length sep)) as [Hl|Hl].
    + right. split; [right|done]. intros j [Hj _]. cbn in *. lia.
    + left. exists 0%nat. destruct sep; [|cbn in Hl; lia]. split_and!; [done|by split|lia|done].
  - destruct (Nat.ltb_spec (length (c :: s)) (length sep)) as [Hl|Hl].
    { right. split; [right|done]. intros j [Hj _]. lia. }
    rewrite memcmp_eq by done. destruct (bool_decide_reflect (take (length sep) (c :: s) = sep)) as [Ho|Ho].
    { left. exists 0%nat. split_and!; [done|by split|lia|done]. }
    destruct IH as [(i & _ & [Hi1 Hi2] & Hi3 & ->)|[Hi ->]].
    + left. exists (S i). split_and!; [done|by split; [cbn; lia|]| |done].
      intros [|j] Hj [Hj1 Hj2]; [done|]. apply (Hi3 j); [lia|]. split; [cbn in Hj1; lia|done].
    + right. split; [right|done]. destruct Hi as [|Hi]; [done|].
      intros [|j] [Hj1 Hj2]; [done|]. apply (Hi j). split; [cbn in Hj1; lia|done].
Qed.

(** ** Splitting on white space *)

Definition space (c : Z) : Prop := unichar_isspace c = true.

Inductive words : Z -> list Z -> list (list Z) -> Prop :=
| words_end k sp : Forall space sp -> words k sp []
| words_rest sp c s : Forall space sp -> ~ space c -> words 0 (sp ++ c :: s) [c :: s]
| words_word k sp w r ps :
  k <> 0 -> Forall space sp -> w <> [] -> Forall (fun c => ~ space c) w ->
  match r with c :: _ => space c | [] => True end ->
  words (if 0 <? k then k - 1 else k) r ps ->
  words k (sp ++ w ++ r) (w :: ps).

Lemma words_skip k sp s ps : Forall space sp -> words k s ps -> words k (sp ++ s) ps.
Proof.
  intros Hsp. destruct 1.
  - apply words_end. by apply list.Forall_app.
  - rewrite app_assoc. apply words_rest; [by apply list.Forall_app|done].
  - rewrite app_assoc. apply words_word; try done. by apply list.Forall_app.
Qed.

Lemma skip_spaces_ok s : exists sp, s = sp ++ skip_spaces s /\ Forall space sp /\
  match skip_spaces s with c :: _ => ~ space c | [] => True end.
Proof.
  induction s as [|c s (sp & E & H1 & H2)]; [by exists []|]. cbn [skip_spaces].
  destruct (unichar_isspace c) eqn:Hc.
  - exists (c :: sp). cbn. split_and!; [by f_equal|by constructor|done].
  - exists []. split_and!; [done|done|]. unfold space. by rewrite Hc.
Qed.

Lemma take_word_ok s : let '(w, r) := take_word s in
  s = w ++ r /\ Forall (fun c => ~ space c) w /\ match r with c :: _ => space c | [] => True end.
Proof.
  induction s as [|c s IH]; [done|]. cbn [take_word]. destruct (unichar_isspace c) eqn:Hc; cbn [negb]; [done|].
  destruct (take_word s) as [w r]. destruct IH as (-> & H1 & H2). split_and!; [done| |done].
  constructor; [|done]. unfold space. by rewrite Hc.
Qed.

Section Split.
Context {byte_heap : Allocator Z} {slot_heap : Allocator slot}.
Variable qstr_find_strn : list Z -> bool.
Hypothesis heap_small : forall b, m_renew_ok (A := slot) b = true -> b < 2 ^ 28.

Implicit Types res : mp_obj_list_t (obj := slot).
Notation repr := (repr None).

Lemma new_list_ok : yields (mp_obj_new_list None 0 None) (fun l => repr l []).
Proof.
  unfold mp_obj_new_list. eapply yields_bind; [by apply list_new_ok|]. intros l (H1 & H2 & H3 & H4 & H5).
  eapply yields_ret; [done|]. split; cbn [length app]; rewrite ?H3; try lia. done.
Qed.

Lemma append_str_ok self res xs p : small p -> repr res (strs (type self) xs) ->
  yields (append_str qstr_find_strn self res p) (fun l => repr l (strs (type self) (xs ++ [p]))).
Proof.
  intros Hp Hr. unfold append_str. eapply yields_bind; [by apply new_of_type_ok|]. intros o ->.
  unfold strs. rewrite map_app. by apply append_ok.
Qed.

Lemma split_sep_ok fuel self s sep k res xs : sep <> [] -> small s -> (length s < fuel)%nat -> repr res (strs (type self) xs) ->
  yields (split_sep qstr_find_strn fuel self s sep k res) (fun l => exists ps, split_at sep k s ps /\ repr l (strs (type self) (xs ++ ps))).
Proof.
  intros Hsep. revert s k res xs. induction fuel as [|fuel IH]; intros s k res xs Hs Hf Hr; [lia|]. cbn [split_sep].
  unfold small in *. assert (0 < length sep)%nat by (destruct sep; [done|cbn; lia]).
  destruct (take_piece_ok s sep k) as [(i & Hk & Ho & Hi & ->)|[Hl ->]].
  - eapply yields_bind; [apply append_str_ok; [unfold small; lens|exact Hr]|]. intros l Hr'. cbn beta in Hr'.
    pose proof Ho as [Ho1 _]. destruct (drop i s) as [|c r] eqn:Ed.
    { apply (f_equal length) in Ed. autorewrite with lens in Ed. cbn in Ed. lia. }
    rewrite <- Ed. rewrite drop_drop. unfold small in IH.
    edestruct (IH (drop (i + length sep) s)) as [E|(l' & E & ps & Hps & Hl)]; [lens|lens|exact Hr'|by left|].
    right. exists l'. split; [exact E|]. exists (take i s :: ps). split; [by apply split_first|]. by rewrite <- app_assoc in Hl.
  - eapply yields_bind; [by apply append_str_ok|]. intros l Hr'. eapply yields_ret; [done|]. exists [s]. split; [by apply split_last|done].
Qed.

(** The rest that [split_spaces] leaves is the last word. *)
Definition last_word (s : list Z) : list (list Z) := match s with [] => [] | _ => [s] end.

Lemma split_spaces_ok fuel self s k res xs : small s -> (length s < fuel)%nat ->
  match s with c :: _ => ~ space c | [] => True end -> repr res (strs (type self) xs) ->
  yields (split_spaces qstr_find_strn fuel self s k res) (fun '(r, l) => exists ps,
    words k s (ps ++ last_word r) /\ small r /\ repr l (strs (type self) (xs ++ ps))).
Proof.
  revert s k res xs. induction fuel as [|fuel IH]; intros s k res xs Hs Hf Hc Hr; [lia|]. cbn [split_spaces].
  destruct s as [|c s'].
  { eapply yields_ret; [done|]. exists []. rewrite ?app_nil_r. split_and!; [by apply words_end|done|done]. }
  remember (c :: s') as s eqn:Es. destruct (Z.eqb_spec k 0) as [->|Hk]; cbn [negb].
  { eapply yields_ret; [done|]. exists []. rewrite ?app_nil_r. split_and!; [|done|done]. subst s. by apply (words_rest []). }
  pose proof (take_word_ok s) as Hw. destruct (take_word s) as [w r] eqn:Ew. destruct Hw as (E & Hw & Hrs).
  assert (w <> []) by (intros ->; subst s; cbn in E; subst r; done).
  assert (0 < length w)%nat by (destruct w; [done|cbn; lia]).
  assert (length s = (length w + length r)%nat) as Hlen by (rewrite E; lens). unfold small in *.
  eapply yields_bind; [apply append_str_ok; [unfold small; lia|exact Hr]|]. intros l Hr'. cbn beta in Hr'.
  destruct r as [|d r'].
  - eapply yields_ret; [done|]. exists [w]. rewrite E. split_and!; [|cbn; lia|done].
    by apply (words_word k [] w []); [..|apply words_end].
  - remember (d :: r') as r eqn:Er. destruct (skip_spaces_ok r) as (sp & E2 & Hsp & Hns).
    assert (length r = (length sp + length (skip_spaces r))%nat) by (rewrite E2 at 1; lens).
    edestruct (IH (skip_spaces r) (if 0 <? k then k - 1 else k) l) as [Em|([r2 l'] & Em & ps & G1 & G2 & G3)];
      [lia|lia|done|exact Hr'|by left|].
    right. eexists. split; [exact Em|]. cbn beta iota. exists (w :: ps). split_and!; [|done|by rewrite <- app_assoc in G3].
    rewrite E. apply (words_word k [] w r); try done; [by rewrite Er|]. rewrite E2. by apply words_skip.
Qed.

(** What [s.split(sep, splits)] does: splitting on white space if there is no separator. *)
Definition pieces_of (sep : option (list Z)) (k : Z) (s : list Z) (ps : list (list Z)) : Prop :=
  match sep with None => words k s ps | Some sep => split_at sep k s ps end.

Lemma split_ok self sep k : small (data self) -> match sep with Some sep => sep <> [] | None => True end ->
  yields (mp_obj_str_split qstr_find_strn self ((fun d => StrArg (mk_str (type self) d)) <$> sep) k)
    (fun l => exists ps, pieces_of sep k (data self) ps /\ repr l (strs (type self) ps)).
Proof.
  intros Hs Hsep. unfold mp_obj_str_split. eapply yields_bind; [apply new_list_ok|]. intros res Hr. cbn beta in Hr.
  destruct sep as [sep|]; cbn [fmap option_fmap option_map].
  - unfold same_type. cbn [type data]. rewrite bool_decide_eq_true_2 by done. cbn [obind].
    rewrite (proj2 (Nat.eqb_neq _ _)) by (destruct sep; [done|cbn; lia]).
    apply (split_sep_ok _ self _ sep k res []); [done|done|lia|done].
  - destruct (skip_spaces_ok (data self)) as (sp & E & Hsp & Hns).
    assert (length (skip_spaces (data self)) <= length (data self))%nat as Hle by (rewrite E at 2; lens).
    eapply yields_bind; [eapply (split_spaces_ok _ self _ k res []); [unfold small in *; lia|lia|done|exact Hr]|].
    intros [r l] (ps & H1 & H2 & H3). cbn [app] in H3. cbn [pieces_of].
    destruct r as [|c r].
    + eapply yields_ret; [done|]. exists ps. rewrite app_nil_r in H1. split; [|done]. rewrite E. by apply words_skip.
    + edestruct (append_str_ok self l ps (c :: r)) as [Em|(l' & Em & Hl)]; [done|done|by left|].
      right. exists l'. split; [exact Em|]. exists (ps ++ [c :: r]). split; [|done]. rewrite E. by apply words_skip.
Qed.

(** What the separator argument stands for. *)
Definition separator (self : mp_obj_str_t) (sep : option str_arg) : outcome (option (list Z)) :=
  match sep with
  | None => Ret None
  | Some (StrArg s) =>
    if negb (bool_decide (type s = type self)) then Raise TypeError
    else match data s with [] => Raise ValueError | d => Ret (Some d) end
  | Some _ => Raise TypeError
  end.

(** C37. [mp_obj_str_split]: the list of the pieces of the string between the leftmost separators, at
    most [k] of them if [k] is not negative, or of its words if there is no separator; at most [k + 1]
    pieces, and no piece contains the separator if the number is not limited.  A separator of another
    type raises [TypeError] and an empty one [ValueError].  Otherwise only memory can run out. *)
Theorem mp_obj_str_split_spec self sep k : small (data self) ->
  let m := mp_obj_str_split qstr_find_strn self sep k in
  match separator self sep with
  | Ret sep => yields m (fun l => exists ps, repr l (strs (type self) ps) /\ pieces_of sep k (data self) ps /\
      match sep with
      | Some sep => (0 <= k -> Z.of_nat (length ps) <= k + 1) /\ (k < 0 -> Forall (fun p => forall j, ~ occurs sep p j) ps)
      | None => True
      end)
  | Raise e => m = Raise e \/ m = Raise MemoryError
  | _ => False
  end.
Proof.
  intros Hs m.
  assert (Hraise : forall e, (forall res, (let! sep_str := same_type self (default OtherArg sep) in
      if (length sep_str =? 0)%nat then Raise ValueError
      else split_sep qstr_find_strn (S (length (data self))) self (data self) sep_str k res) = Raise e) ->
    sep <> None -> m = Raise e \/ m = Raise MemoryError).
  { intros e He Hn. unfold m, mp_obj_str_split. destruct new_list_ok as [->|(res & -> & _)]; [by right|]. cbn [obind].
    destruct sep; [left; apply He|done]. }
  destruct sep as [[[ty d]|buf|n|]|]; cbn [separator type data]; try (apply Hraise; done).
  - destruct (bool_decide_reflect (ty = type self)) as [->|Hn]; cbn [negb].
    + destruct d as [|c d]; [apply Hraise; [|done]; intros res; cbn; by rewrite bool_decide_eq_true_2|].
      destruct (split_ok self (Some (c :: d)) k) as [E|(l & E & ps & H1 & H2)]; [done|done|left; exact E|].
      right. exists l. split; [exact E|]. exists ps. split_and!; [done|done|by eapply split_count|by eapply split_clean].
    + apply Hraise; [|done]. intros res. cbn. by rewrite bool_decide_eq_false_2.
  - destruct (split_ok self None k) as [E|(l & E & ps & H1 & H2)]; [done|done|left; exact E|].
    right. exists l. split; [exact E|]. by exists ps.
Qed.

(** C23. Splitting a string at a separator and joining the pieces with it gives the string back,
    however many splits are allowed. *)
Theorem split_join_round_trip self sep k : small (data self) -> sep <> [] ->
  let sep := mk_str (type self) sep in
  yields (let! l := mp_obj_str_split qstr_find_strn self (Some (StrArg sep)) k in
          str_join qstr_find_strn sep (mp_obj_list_get l)) (fun s => s = self).
Proof.
  intros Hs Hsep sep'. eapply yields_bind; [by apply (split_ok self (Some sep) k)|]. intros l (ps & Hps & Hl).
  cbn beta. rewrite (repr_get (obj := slot) _ _ _ Hl). pose proof (split_joined _ _ _ _ Hps) as E.
  destruct (str_join_ok qstr_find_strn sep' ps) as [Em|(s & Em & ->)]; [by cbn; rewrite E|by left|].
  right. eexists. split; [exact Em|]. cbn. rewrite E. by destruct self.
Qed.
End Split.

#[local] Instance sample_bytes : Allocator Z := { m_renew_ok b := b <? 2 ^ 20; fresh := 255 }.
#[local] Instance sample_slots : Allocator slot := { m_renew_ok b := b <? 2 ^ 20; fresh := None }.
Lemma sample_slots_small b : m_renew_ok (Allocator := sample_slots) b = true -> b < 2 ^ 28.
Proof. cbn. lia. Qed.
#[local] Definition sample_str : mp_obj_str_t := mk_str mp_type_str [97; 44; 98; 44; 44].

Lemma mp_obj_str_split_spec_witness :
  mp_obj_str_split (fun _ => false) sample_str (Some (StrArg (mk_str mp_type_str [44]))) 2 =
    Ret (mk_list 4 3 (strs mp_type_str [[97]; [98]; [44]] ++ [None])) /\
  exists ps, split_at [44] 2 (data sample_str) ps /\ Z.of_nat (length ps) <= 3.
Proof.
  split; [by vm_compute|].
  destruct (mp_obj_str_split_spec (fun _ => false) sample_slots_small
    sample_str (Some (StrArg (mk_str mp_type_str [44]))) 2 eq_refl) as [E|(l & _ & ps & _ & H & [H2 _])].
  - exfalso. vm_compute in E. discriminate E.
  - exists ps. split; [exact H|]. apply H2. lia.
Defined.

Lemma split_join_round_trip_witness :
  (let! l := mp_obj_str_split (fun _ => false) sample_str (Some (StrArg (mk_str mp_type_str [44]))) 1 in
   str_join (fun _ => false) (mk_str mp_type_str [44]) (mp_obj_list_get l)) = Ret sample_str.
Proof.
  destruct (split_join_round_trip (fun _ => false) sample_slots_small
    sample_str [44] 1 eq_refl ltac:(done)) as [E|(s & E & ->)].
  - exfalso. vm_compute in E. discriminate E.
  - exact E.
Defined.
