(* ===== verification/StrReplace.v ===== *)
(** * Correctness of strings: replacing

    [str_replace] makes two passes over the string, the first to measure the result and the second
    to write it: both follow the same cuts, so the buffer of the first is never overrun and the
    result is the pieces between the occurrences joined by the replacement. *)

From Stdlib Require Import String.
From S2P Require Import Prelude Malloc Unicode Vstr MpObj Sequence ObjList ListSpec StrPrint ObjStr StrSpec StrSplit.
Local Open Scope Z_scope.

(** ** Cuts *)

(** How the passes cut a string: an empty [old] cuts after every character. *)
Inductive cuts (old : list Z) : Z -> list Z -> list (list Z) -> Prop :=
| cuts_last k s : k = 0 \/ s = [] \/ (forall j, ~ occurs old s j) -> cuts old k s [s]
| cuts_more k s i p ps :
  k <> 0 -> s <> [] -> occurs old s i -> (forall j, (j < i)%nat -> ~ occurs old s j) ->
  p = (if (length old =? 0)%nat then S i else i) ->
  cuts old (if 0 <? k then k - 1 else k) (drop (p + length old) s) ps ->
  cuts old k s (take p s :: ps).

Lemma first_occurrence n s : (exists i, occurs n s i /\ forall j, (j < i)%nat -> ~ occurs n s j) \/ forall j, ~ occurs n s j.
Proof.
  destruct (take_piece_ok s n (-1)) as [(i & _ & H1 & H2 & _)|[[H|H] _]]; [left; eauto|done|by right].
Qed.

Lemma cuts_total old k s : exists ps, cuts old k s ps.
Proof.
  remember (length s) as n eqn:E. revert k s E. induction (lt_wf n) as [n _ IH]. intros k s ->.
  destruct (Z.eq_dec k 0) as [->|Hk]; [exists [s]; apply cuts_last; auto|].
  destruct s as [|c s]; [exists [[]]; apply cuts_last; auto|].
  destruct (first_occurrence old (c :: s)) as [(i & Ho & Hi)|H]; [|exists [c :: s]; apply cuts_last; auto].
  set (p := if (length old =? 0)%nat then S i else i).
  destruct (IH (length (drop (p + length old) (c :: s)))) with (k := if 0 <? k then k - 1 else k) (s := drop (p + length old) (c :: s))
    as [ps Hps]; [|done|].
  - rewrite length_drop. cbn [length]. unfold p. destruct (Nat.eqb_spec (length old) 0); lia.
  - exists (take p (c :: s) :: ps). by eapply cuts_more.
Qed.

Lemma cuts_split old k s ps : old <> [] -> cuts old k s ps -> split_at old k s ps.
Proof.
  intros Hn. assert (0 < length old)%nat by (destruct old; [done|cbn; lia]).
  induction 1 as [k s H1|k s i p ps Hk Hs Ho Hi -> Hc IH].
  - apply split_last. destruct H1 as [|[->|]]; [by left| |by right]. right. intros j [Hj _]. cbn in Hj. lia.
  - rewrite (proj2 (Nat.eqb_neq _ _)) in * by lia. by apply split_first.
Qed.

(** The string with [new] after each of its first [k] characters. *)
Fixpoint spread (new : list Z) (k : Z) (s : list Z) : list Z :=
  match s with
  | c :: s' => if k =? 0 then s else c :: new ++ spread new (if 0 <? k then k - 1 else k) s'
  | [] => []
  end.

Lemma cuts_cons old k s ps : cuts old k s ps -> exists p ps', ps = p :: ps'.
Proof. destruct 1; eauto. Qed.

Lemma cuts_spread new k s ps : cuts [] k s ps -> joined new ps = spread new k s.
Proof.
  induction 1 as [k s H1|k s i p ps Hk Hs Ho Hi -> Hc IH].
  - cbn. rewrite app_nil_r. destruct s as [|c s]; [done|]. destruct H1 as [->|[|H]]; [done..|].
    by destruct (H 0%nat); split; [cbn; lia|].
  - assert (i = 0%nat) as -> by (destruct i; [done|]; destruct (Hi 0%nat); [lia|split; [cbn; lia|done]]).
    cbn [length Nat.eqb Nat.add] in *. destruct s as [|c s]; [done|]. cbn [take drop spread] in *.
    destruct (cuts_cons _ _ _ _ Hc) as (q & ps' & ->). rewrite joined_cons, IH, drop_0. by rewrite (proj2 (Z.eqb_neq k 0)) by done.
Qed.

(** What [s.replace(old, new, k)] is; a negative [k] is no limit. *)
Definition replaced (old new : list Z) (k : Z) (s out : list Z) : Prop :=
  if decide (k = 0) then out = s
  else match old with
  | [] => out = new ++ spread new (if 0 <? k then k - 1 else k) s
  | _ => exists ps, split_at old k s ps /\ out = joined new ps
  end.

(** ** The passes *)

Definition body (new : list Z) (qs : list (list Z)) : list Z := concat (map (fun q => q ++ new) qs).

Lemma joined_body new qs rest : joined new (qs ++ [rest]) = body new qs ++ rest.
Proof.
  induction qs as [|q qs IH]; [by cbn; rewrite app_nil_r|]. destruct (qs ++ [rest]) eqn:E; [by destruct qs|].
  rewrite <- app_comm_cons, E, joined_cons, IH. cbn. by rewrite <- !app_assoc.
Qed.

(** The buffer, which only the second pass has. *)
Definition dest (second : bool) (b : list Z) : option (list Z) := if second then Some b else None.

Lemma copy_dest_ok second pre mid post s n : n = Z.of_nat (length pre) -> length mid = length s ->
  copy_if (dest second (pre ++ mid ++ post)) n s = Ret (dest second ((pre ++ s) ++ post)).
Proof. intros -> Hl. destruct second; [|done]. cbn. by rewrite memcpy_in_middle, <- app_assoc. Qed.

Lemma copy_front second mid post s : length mid = length s ->
  copy_if (dest second (mid ++ post)) 0 s = Ret (dest second (s ++ post)).
Proof. exact (copy_dest_ok second [] mid post s 0 eq_refl). Qed.

(** [k] replacements are left. *)
Definition left_of (max_rep num k : Z) : Prop := if max_rep <? 0 then max_rep = -1 /\ k < 0 else 0 <= k /\ k = max_rep - num.

Lemma find_first n s i : Z.of_nat (length s) < 2 ^ 31 -> occurs n s i -> (forall j, (j < i)%nat -> ~ occurs n s j) ->
  find_subbytes s n 1 = Ret (Some (Z.of_nat i)).
Proof.
  intros Hs Ho Hi. destruct (find_ok s n true Hs) as (r & -> & Hr). destruct r as [k|]; [|by destruct (Hr i)].
  destruct Hr as [H1 H2]. specialize (H2 _ Ho). cbn. assert (k = i) as ->; [|done].
  destruct (Nat.lt_ge_cases k i) as [Hlt|]; [by destruct (Hi k)|lia].
Qed.

Lemma find_none n s : Z.of_nat (length s) < 2 ^ 31 -> (forall j, ~ occurs n s j) -> find_subbytes s n 1 = Ret None.
Proof.
  intros Hs Hn. destruct (find_ok s n true Hs) as (r & -> & Hr). destruct r as [k|]; [|done]. by destruct (Hn k), Hr.
Qed.

Lemma drop_nil_len (s : list Z) n : drop n s = [] -> (length s <= n)%nat.
Proof. intros E. apply (f_equal length) in E. autorewrite with lens in E. cbn in E. lia. Qed.

Lemma replace_loop_ok old new max_rep second str k s ps : cuts old k s ps ->
  forall fuel offset num pre mid post, s = drop offset str -> (offset <= length str)%nat -> (length s < fuel)%nat ->
  Z.of_nat (length str) < 2 ^ 31 - 1 -> max_rep < 2 ^ 31 -> left_of max_rep num k -> 0 <= num <= Z.of_nat offset + 1 ->
  exists qs rest offset', ps = qs ++ [rest] /\ rest = drop offset' str /\ (offset' <= length str)%nat /\
    num + Z.of_nat (length qs) < 2 ^ 32 /\
    (length mid = length (body new qs) -> Z.of_nat (length (pre ++ mid)) < 2 ^ 32 ->
     replace_loop fuel str old new max_rep (dest second (pre ++ mid ++ post)) (Z.of_nat (length pre)) num (Z.of_nat offset) =
     Ret (dest second ((pre ++ body new qs) ++ post), Z.of_nat (length (pre ++ body new qs)), num + Z.of_nat (length qs), Z.of_nat offset')).
Proof.
  induction 1 as [k s Hend|k s i p ps Hk Hs Ho Hi Hp Hc IH];
    intros fuel offset num pre mid post E Hoff Hf Hlen Hmax Hleft Hnum; (destruct fuel as [|fuel]; [lia|]).
  - exists [], s, offset. split_and!; [done|done|done|cbn; lia|]. intros Hm _.
    destruct mid; [|done]. cbn [replace_loop body map concat app length]. rewrite app_nil_r, Z.add_0_r.
    assert (length s = (length str - offset)%nat) as Hl by (rewrite E; lens).
    destruct (Z.eqb_spec num (wrap 32 max_rep)) as [En|En]; [done|]. cbn [negb andb].
    destruct (Z.ltb_spec 0 (Z.of_nat (length str) - Z.of_nat offset)) as [Hr|Hr]; [|done].
    rewrite Nat2Z.id, <- E. rewrite find_none; [done|lia|].
    destruct Hend as [->|[->|Hn]]; [|cbn in Hl; lia|exact Hn]. exfalso. revert Hleft. unfold left_of.
    destruct (Z.ltb_spec max_rep 0); [lia|]. rewrite wrap_small in En by lia. lia.
  - assert (length s = (length str - offset)%nat) as Hl by (rewrite E; lens).
    assert (0 < length s)%nat by (destruct s; [done|cbn; lia]). pose proof Ho as [Ho1 _].
    assert (Hp' : (p + length old <= length s)%nat /\ (0 < p + length old)%nat).
    { rewrite Hp. destruct (Nat.eqb_spec (length old) 0) as [E0|E0]; [|lia]. split; [|lia].
      destruct (Nat.eq_dec i 0); [lia|]. destruct (Hi 0%nat); [lia|]. split; [lia|]. rewrite E0. by destruct old. }
    destruct (IH fuel (offset + (p + length old))%nat (num + 1) (pre ++ take p s ++ new)
      (drop (p + length new) mid) post) as (qs & rest & offset' & -> & H1 & H2 & H3 & H4);
      [rewrite E, drop_drop; done|lia|rewrite length_drop; lia|done|done| |lia|].
    { revert Hleft. unfold left_of. destruct (Z.ltb_spec max_rep 0); [destruct (Z.ltb_spec 0 k); lia|].
      intros Hleft. rewrite (proj2 (Z.ltb_lt 0 k)) by lia. lia. }
    exists (take p s :: qs), rest, offset'. split_and!; [done|done|done|cbn [length]; lia|].
    intros Hm Hb. cbn [body map concat] in *. autorewrite with lens in Hm, Hb. rewrite Nat.min_l in Hm by lia.
    cbn [replace_loop]. destruct (Z.eqb_spec num (wrap 32 max_rep)) as [En|En].
    { exfalso. revert Hleft En. unfold left_of. destruct (Z.ltb_spec max_rep 0); intros Hleft En.
      - destruct Hleft as [-> _]. revert En. change (wrap 32 (-1)) with (2 ^ 32 - 1). lia.
      - rewrite wrap_small in En by lia. lia. }
    cbn [negb andb]. rewrite (proj2 (Z.ltb_lt 0 _)) by lia. rewrite Nat2Z.id, <- E, (find_first old s i) by (done || lia). cbn [obind].
    replace (if (length old =? 0)%nat then Z.of_nat i + 1 else Z.of_nat i) with (Z.of_nat p)
      by (rewrite Hp; destruct (length old =? 0)%nat; lia). cbn zeta.
    rewrite Nat2Z.id. rewrite <- (take_drop p mid) at 1. rewrite <- (app_assoc (take p mid)).
    rewrite copy_dest_ok by (done || lens). cbn [obind].
    rewrite wrap_small by lia. rewrite <- (take_drop (length new) (drop p mid)) at 1. rewrite <- (app_assoc (take _ _)).
    rewrite copy_dest_ok by lens. cbn [obind]. rewrite drop_drop, !wrap_small by lia.
    replace (Z.of_nat (length pre) + Z.of_nat p + Z.of_nat (length new)) with (Z.of_nat (length (pre ++ take p s ++ new))) by lens.
    replace (Z.of_nat offset + Z.of_nat p + Z.of_nat (length old)) with (Z.of_nat (offset + (p + length old))) by lia.
    rewrite <- (app_assoc pre), H4 by (unfold body; lens).
    rewrite !app_assoc. replace (num + 1 + Z.of_nat (length qs)) with (num + Z.of_nat (length (take p s :: qs))) by (cbn [length]; lia). done.
Qed.

Lemma replace_pass_ok old new k s : k <> 0 -> k < 2 ^ 31 -> Z.of_nat (length s) < 2 ^ 31 - 1 ->
  exists out n, replaced old new k s out /\ (n = 0 -> out = s) /\
    forall second mid post, length mid = length out -> Z.of_nat (length out) < 2 ^ 32 ->
      replace_pass s old new (if k <? 0 then -1 else k) (dest second (mid ++ post)) =
      Ret (dest second (out ++ post), Z.of_nat (length out), n).
Proof.
  intros Hk Hk2 Hs. set (max_rep := if k <? 0 then -1 else k).
  set (num0 := if (length old =? 0)%nat then 1 else 0).
  set (pre0 := if (length old =? 0)%nat then new else []).
  set (k0 := if (length old =? 0)%nat then if 0 <? k then k - 1 else k else k).
  destruct (cuts_total old k0 s) as [ps Hc]. exists (pre0 ++ joined new ps), (num0 + Z.of_nat (length ps) - 1). split_and!.
  - unfold replaced. rewrite decide_False by done. destruct old as [|c old]; [by rewrite <- (cuts_spread _ _ _ _ Hc)|].
    exists ps. split; [by apply cuts_split|done].
  - intros Hn. destruct (cuts_cons _ _ _ _ Hc) as (p & ps' & ->). unfold num0, pre0, k0 in *.
    destruct (Nat.eqb_spec (length old) 0) as [|Ho]; [cbn [length] in Hn; lia|].
    destruct ps'; [|cbn [length] in Hn; lia]. inversion Hc; subst; [cbn; by rewrite app_nil_r|].
    match goal with H : cuts _ _ _ [] |- _ => by destruct (cuts_cons _ _ _ _ H) as (? & ? & ?) end.
  - intros second mid post Hm Hb. unfold replace_pass. autorewrite with lens in Hm, Hb.
    destruct (@exists_last _ ps) as (qs & rest & ->); [by destruct (cuts_cons _ _ _ _ Hc) as (? & ? & ->)|].
    rewrite joined_body in *. autorewrite with lens in Hm, Hb.
    rewrite <- (take_drop (length pre0) mid), <- (take_drop (length (body new qs)) (drop (length pre0) mid)).
    set (m1 := take (length pre0) mid). set (m2 := take _ (drop _ mid)). set (m3 := drop _ (drop _ mid)).
    assert (length m1 = length pre0 /\ length m2 = length (body new qs) /\ length m3 = length rest) as (L1 & L2 & L3)
      by (unfold m1, m2, m3; lens).
    destruct (replace_loop_ok old new max_rep second s k0 s _ Hc (S (length s)) 0 num0 pre0 m2 (m3 ++ post))
      as (qs' & rest' & off & E & -> & Ho & Hn & Hl); try (done || lia).
    { unfold max_rep. bcase; lia. }
    { unfold left_of, max_rep, k0, num0. destruct (length old =? 0)%nat, (Z.ltb_spec k 0); cbn; repeat bcase; lia. }
    { unfold num0. destruct (length old =? 0)%nat; lia. }
    apply app_inj_tail in E as [<- ->]. specialize (Hl L2). autorewrite with lens in Hl.
    assert (Estart : (if (length old =? 0)%nat
        then let! d := copy_if (dest second (((m1 ++ m2 ++ m3)) ++ post)) 0 new in Ret (d, Z.of_nat (length new), 1)
        else Ret (dest second ((m1 ++ m2 ++ m3) ++ post), 0, 0)) =
      Ret (dest second (pre0 ++ m2 ++ m3 ++ post), Z.of_nat (length pre0), num0)).
    { unfold pre0, num0 in *. rewrite <- !app_assoc. destruct (length old =? 0)%nat.
      - rewrite copy_front by done. cbn [obind]. done.
      - destruct m1; [done|cbn in L1; lia]. }
    rewrite Estart. cbn [obind]. change (Z.of_nat 0) with 0 in Hl. rewrite Hl by lia. cbn [obind]. rewrite Nat2Z.id.
    rewrite copy_dest_ok by (done || lens). cbn [obind].
    rewrite wrap_small by (autorewrite with lens in *; lia).
    rewrite <- !app_assoc. repeat f_equal; lens.
Qed.

Lemma joined_one sep p : joined sep [p] = p.
Proof. cbn. by rewrite app_nil_r. Qed.

(** [arg] is a string of the type of [self] with the characters [s]. *)
Definition string_like (self : mp_obj_str_t) (arg : str_arg) (s : list Z) : Prop :=
  exists a, arg = StrArg a /\ type a = type self /\ data a = s.

Lemma same_type_cases self arg :
  (exists s, string_like self arg s /\ same_type self arg = Ret s) \/
  (forall s, ~ string_like self arg s) /\ same_type self arg = Raise TypeError.
Proof.
  destruct arg as [a| | |]; try (right; split; [by intros s (a & [=] & _)|done]). cbn [same_type].
  destruct (decide (type a = type self)) as [E|E].
  - left. exists (data a). rewrite bool_decide_eq_true_2 by done. split; [by exists a|done].
  - right. rewrite bool_decide_eq_false_2 by done. split; [|done]. by intros s (b & [= <-] & ? & _).
Qed.

Lemma same_type_ok self arg s : string_like self arg s -> same_type self arg = Ret s.
Proof. intros (a & -> & E & <-). cbn. by rewrite bool_decide_eq_true_2. Qed.

Section Replace.
Context {byte_heap : Allocator Z}.
Variable qstr_find_strn : list Z -> bool.

(** C36. [str_replace] on any arguments: a [count] of zero gives the string itself, before the other arguments are looked at.
    Otherwise [old] and [new] must be strings of the type of the string, and anything else raises [TypeError];
    the result is the string with its leftmost occurrences of [old] replaced by [new], at most [count] of them if that
    is given and not negative; an empty [old] is replaced before every character and at the end.  The second pass stays
    in the buffer that the first measured. *)
Theorem str_replace_spec self old_arg new_arg count : small (data self) ->
  let k := default (-1) count in
  k < 2 ^ 31 ->
  let m := str_replace qstr_find_strn self old_arg new_arg count in
  (k = 0 -> m = Ret self) /\
  (k <> 0 -> (forall s, ~ string_like self old_arg s) \/ (forall s, ~ string_like self new_arg s) -> m = Raise TypeError) /\
  (forall old new, string_like self old_arg old -> string_like self new_arg new ->
   exists out, replaced old new k (data self) out /\
     (small out -> yields m (fun s => s = mk_str (type self) out))).
Proof.
  intros Hs k Hk m. unfold small in Hs. assert (Eself : mk_str (type self) (data self) = self) by (by destruct self).
  assert (Ezero : (match count with Some c => c =? 0 | None => false end) = (k =? 0)) by (unfold k; by destruct count).
  assert (Emax : (match count with Some c => if c <? 0 then -1 else c | None => -1 end) = (if k <? 0 then -1 else k))
    by (unfold k; by destruct count).
  unfold m, str_replace. rewrite Ezero, Emax. clearbody k. clear Ezero Emax m. split_and!.
  - by intros ->.
  - intros Hk0 Ht. rewrite (proj2 (Z.eqb_neq k 0)) by done.
    destruct (same_type_cases self old_arg) as [(o & Ho & ->)|[_ ->]]; [|done]. cbn [obind].
    destruct (same_type_cases self new_arg) as [(n & Hn & ->)|[_ ->]]; [|done]. destruct Ht as [Ht|Ht]; by edestruct Ht.
  - intros old new Ho Hn. destruct (Z.eqb_spec k 0) as [->|Hk0].
    { exists (data self). split; [done|]. intros _. by eapply yields_ret. }
    rewrite (same_type_ok _ _ _ Ho), (same_type_ok _ _ _ Hn). cbn [obind].
    destruct (Nat.ltb_spec (length (data self)) (length old)) as [Hlt|Hle].
    { exists (data self). split; [|intros _; by eapply yields_ret]. unfold replaced. rewrite decide_False by done.
      destruct old as [|c o]; [cbn in Hlt; lia|]. exists [data self]. split; [|by rewrite joined_one].
      apply split_last. right. intros j [Hj _]. lia. }
    destruct (replace_pass_ok old new k (data self)) as (out & n & H1 & H2 & H3); [done..|].
    exists out. split; [exact H1|]. intros Hout. unfold small in Hout.
    pose proof (H3 false out [] eq_refl ltac:(lia)) as E1. cbn [dest] in E1. rewrite E1. cbn [obind].
    destruct (Z.eqb_spec n 0) as [->|Hn0]; [eapply yields_ret; [done|]; rewrite (H2 eq_refl); done|].
    eapply yields_bind; [apply init_len_ok; lia|]. intros v (V1 & V2 & V3).
    rewrite <- (take_drop (length out) (Vstr.buf v)).
    pose proof (H3 true (take (length out) (Vstr.buf v)) (drop (length out) (Vstr.buf v))) as E2. cbn [dest] in E2.
    rewrite E2 by lens. cbn [obind default from_option].
    eapply from_buf_ok; [exact V1|exact V2|lia|done|done|lens].
Qed.
End Replace.

#[local] Instance sample_bytes : Allocator Z := { m_renew_ok b := b <? 2 ^ 20; fresh := 255 }.

Lemma str_replace_spec_witness :
  let self := mk_str mp_type_str [97; 98; 97; 97] in
  str_replace (fun _ => false) self (StrArg (mk_str mp_type_str [97])) (StrArg (mk_str mp_type_str [120; 121])) (Some 2) =
    Ret (mk_str mp_type_str [120; 121; 98; 120; 121; 97]) /\
  str_replace (fun _ => false) self (StrArg (mk_str mp_type_bytes [97])) (StrArg self) (Some 2) = Raise TypeError /\
  str_replace (fun _ => false) self (IntArg 1) (StrArg self) (Some 0) = Ret self /\
  exists out, replaced [97] [120; 121] 2 [97; 98; 97; 97] out.
Proof.
  intros self. split; [by vm_compute|]. split; [by vm_compute|]. split; [by vm_compute|].
  destruct (str_replace_spec (fun _ => false) self (StrArg (mk_str mp_type_str [97])) (StrArg (mk_str mp_type_str [120; 121]))
    (Some 2) eq_refl eq_refl) as (_ & _ & H).
  destruct (H [97] [120; 121] ltac:(by eexists) ltac:(by eexists)) as (out & Hout & _). exists out. exact Hout.
Defined.
