(* ===== verification/StrStrip.v ===== *)
(** * Correctness of strings: stripping and operators

    [strip], [lstrip] and [rstrip] remove the longest run of the given characters from the ends;
    [+], [*], [in] and the comparisons are Python's on the arrays of bytes. *)

From Stdlib Require Import String.
From S2P Require Import Prelude Malloc Unicode Vstr MpObj Sequence ObjList ListSpec ListRefine StrPrint ObjStr StrSpec.
Local Open Scope Z_scope.

(** ** Stripping *)

Section Strip.
Variable chars : list Z.
Hypothesis chars_small : Z.of_nat (length chars) < 2 ^ 31.

Lemma find_char c : exists r, find_subbytes chars [c] 1 = Ret r /\ (r = None <-> c ∉ chars).
Proof.
  destruct (find_ok chars [c] true chars_small) as (r & -> & Hr). eexists. split; [done|]. split.
  - destruct r as [k|]; [done|]. intros _ Hc. apply list_elem_of_lookup_1 in Hc as (i & Hi). apply (Hr i). split.
    + apply lookup_lt_Some in Hi. cbn. lia.
    + cbn. by rewrite (drop_S _ _ _ Hi).
  - intros Hc. destruct r as [k|]; [|done]. exfalso. apply Hc. destruct Hr as [[H1 H2] _].
    rewrite <- (take_drop k chars). apply elem_of_app. right. destruct (drop k chars); [done|]. cbn in H2.
    injection H2 as ->. by left.
Qed.

Notation ending m := (match list.last m with Some c => c ∉ chars | None => True end).
Notation starting m := (match m with c :: _ => c ∉ chars | [] => True end).

(** One step of the loop on a character. *)
Lemma strip_step n ty pre c post delta g :
  strip_loop (S n) ty (pre ++ c :: post) chars (Z.of_nat (length pre)) delta g =
  if bool_decide (c ∈ chars) then strip_loop n ty (pre ++ c :: post) chars (wrap 32 (Z.of_nat (length pre) + delta)) delta g
  else match g with
  | None =>
    if bool_decide (ty = LSTRIP) then Ret (Some (Z.of_nat (length pre), Z.of_nat (length (pre ++ c :: post)) - 1))
    else if bool_decide (ty = RSTRIP) then Ret (Some (0, Z.of_nat (length pre)))
    else strip_loop n ty (pre ++ c :: post) chars (wrap 32 (Z.of_nat (length pre) + delta)) delta (Some (Z.of_nat (length pre), Z.of_nat (length pre)))
  | Some (first, _) => strip_loop n ty (pre ++ c :: post) chars (wrap 32 (Z.of_nat (length pre) + delta)) delta (Some (first, Z.of_nat (length pre)))
  end.
Proof.
  cbn [strip_loop]. rewrite rd_middle. cbn [obind]. destruct (find_char c) as (r & -> & Hr). cbn [obind].
  destruct (bool_decide_reflect (c ∈ chars)) as [Hc|Hc].
  - destruct r as [k|]; [done|]. by destruct (proj1 Hr eq_refl).
  - by rewrite (proj2 Hr Hc).
Qed.

Lemma next_pos {A} (pre : list A) c : Z.of_nat (length pre) + 1 < 2 ^ 32 ->
  wrap 32 (Z.of_nat (length pre) + 1) = Z.of_nat (length (pre ++ [c])).
Proof. intros. rewrite wrap_small by lia. lens. Qed.

Lemma lstrip_loop rest pre : Z.of_nat (length (pre ++ rest)) < 2 ^ 31 ->
  exists l m, rest = l ++ m /\ Forall (.∈ chars) l /\ starting m /\
    strip_loop (length rest) LSTRIP (pre ++ rest) chars (Z.of_nat (length pre)) 1 None =
    Ret (match m with [] => None | _ => Some (Z.of_nat (length (pre ++ l)), Z.of_nat (length (pre ++ rest)) - 1) end).
Proof.
  revert pre. induction rest as [|c rest IH]; intros pre Hs; [by exists [], []|]. cbn [length]. rewrite strip_step.
  destruct (bool_decide_reflect (c ∈ chars)) as [Hc|Hc].
  - rewrite (next_pos _ c) by lens. rewrite cons_middle, app_assoc.
    destruct (IH (pre ++ [c])) as (l & m & -> & H1 & H2 & ->); [lens|]. exists (c :: l), m.
    split_and!; [done|by constructor|done|]. destruct m; [done|]. by rewrite <- !app_assoc.
  - exists [], (c :: rest). rewrite app_nil_r. by rewrite bool_decide_eq_true_2.
Qed.

Lemma strip_tail rest pre f e : Z.of_nat (length (pre ++ rest)) < 2 ^ 31 ->
  exists m r, rest = m ++ r /\ Forall (.∈ chars) r /\ ending m /\
    strip_loop (length rest) STRIP (pre ++ rest) chars (Z.of_nat (length pre)) 1 (Some (f, e)) =
    Ret (Some (f, match m with [] => e | _ => Z.of_nat (length (pre ++ m)) - 1 end)).
Proof.
  revert pre e. induction rest as [|c rest IH]; intros pre e Hs; [by exists [], []|]. cbn [length]. rewrite strip_step.
  rewrite (next_pos _ c) by lens. rewrite cons_middle, app_assoc. destruct (bool_decide_reflect (c ∈ chars)) as [Hc|Hc].
  - destruct (IH (pre ++ [c]) e) as (m & r & -> & H1 & H2 & ->); [lens|]. destruct m as [|d m].
    + exists [], (c :: r). split_and!; [done|by constructor|done|done].
    + exists (c :: d :: m), r. split_and!; [done|done|done|]. by rewrite <- !app_assoc.
  - destruct (IH (pre ++ [c]) (Z.of_nat (length pre))) as (m & r & -> & H1 & H2 & ->); [lens|]. exists (c :: m), r.
    split_and!; [done|done|by destruct m|]. destruct m; rewrite <- ?app_assoc; [|done]. do 3 f_equal. lens.
Qed.

Lemma strip_both rest pre : Z.of_nat (length (pre ++ rest)) < 2 ^ 31 ->
  exists l m r, rest = l ++ m ++ r /\ Forall (.∈ chars) l /\ Forall (.∈ chars) r /\ starting m /\ ending m /\
    strip_loop (length rest) STRIP (pre ++ rest) chars (Z.of_nat (length pre)) 1 None =
    Ret (match m with [] => None | _ => Some (Z.of_nat (length (pre ++ l)), Z.of_nat (length (pre ++ l ++ m)) - 1) end).
Proof.
  revert pre. induction rest as [|c rest IH]; intros pre Hs; [by exists [], [], []|]. cbn [length]. rewrite strip_step.
  rewrite (next_pos _ c) by lens. rewrite cons_middle, app_assoc. destruct (bool_decide_reflect (c ∈ chars)) as [Hc|Hc].
  - destruct (IH (pre ++ [c])) as (l & m & r & -> & H1 & H2 & H3 & H4 & ->); [lens|]. exists (c :: l), m, r.
    split_and!; [done|by constructor|done..|]. destruct m; [done|]. by rewrite <- !app_assoc.
  - rewrite !bool_decide_eq_false_2 by done.
    destruct (strip_tail rest (pre ++ [c]) (Z.of_nat (length pre)) (Z.of_nat (length pre))) as (m & r & -> & H1 & H2 & ->); [lens|].
    exists [], (c :: m), r. split_and!; [done|done|done|done|by destruct m|]. rewrite app_nil_r. cbn [app].
    destruct m; [|by rewrite <- app_assoc]. do 3 f_equal. lens.
Qed.

Lemma rstrip_loop pre post : Z.of_nat (length (pre ++ post)) < 2 ^ 31 ->
  exists m r, pre = m ++ r /\ Forall (.∈ chars) r /\ ending m /\
    strip_loop (length pre) RSTRIP (pre ++ post) chars (wrap 32 (Z.of_nat (length pre) - 1)) (-1) None =
    Ret (match m with [] => None | _ => Some (0, Z.of_nat (length m) - 1) end).
Proof.
  revert post. induction pre as [|c pre IH] using rev_ind; intros post Hs; [by exists [], []|].
  rewrite length_app, Nat.add_1_r. rewrite (wrap_small 32) by lens.
  replace (Z.of_nat (S (length pre)) - 1) with (Z.of_nat (length pre)) by lia.
  rewrite <- app_assoc. cbn [app]. rewrite strip_step. destruct (bool_decide_reflect (c ∈ chars)) as [Hc|Hc].
  - replace (Z.of_nat (length pre) + -1) with (Z.of_nat (length pre) - 1) by lia.
    destruct (IH (c :: post)) as (m & r & -> & H1 & H2 & E); [lens|]. exists m, (r ++ [c]).
    split_and!; [by rewrite app_assoc|apply list.Forall_app; split; [done|by constructor]|done|exact E].
  - exists (pre ++ [c]), []. rewrite app_nil_r, last_snoc. split_and!; [done|done|done|]. cbn [bool_decide].
    rewrite bool_decide_eq_false_2, bool_decide_eq_true_2 by done. destruct (pre ++ [c]) eqn:E; [by destruct pre|]. rewrite <- E.
    do 3 f_equal. lens.
Qed.
End Strip.

(** What is left of a string when characters are stripped from its start and end. *)
Definition stripped (ty : strip_type) (chars s l m r : list Z) : Prop :=
  s = l ++ m ++ r /\ Forall (.∈ chars) l /\ Forall (.∈ chars) r /\
  match ty with
  | LSTRIP => r = []
  | _ => match list.last m with Some c => c ∉ chars | None => True end
  end /\
  match ty with
  | RSTRIP => l = []
  | _ => match m with c :: _ => c ∉ chars | [] => True end
  end.

Lemma strip_loop_ok ty chars s : Z.of_nat (length chars) < 2 ^ 31 -> Z.of_nat (length s) < 2 ^ 31 ->
  let '(i, delta) := if bool_decide (ty = RSTRIP) then (wrap 32 (Z.of_nat (length s) - 1), -1) else (0, 1) in
  exists l m r, stripped ty chars s l m r /\
    strip_loop (length s) ty s chars i delta None =
    Ret (match m with [] => None | _ => Some (Z.of_nat (length l), Z.of_nat (length (l ++ m)) - 1) end).
Proof.
  intros Hc Hs. destruct ty; cbn [bool_decide].
  - destruct (lstrip_loop chars Hc s []) as (l & m & E & H1 & H2 & H3); [done|]. exists l, m, [].
    split; [split_and!; [by rewrite app_nil_r|done|by constructor|done|done]|]. rewrite <- E. exact H3.
  - destruct (rstrip_loop chars Hc s []) as (m & r & E & H1 & H2 & H3); [by rewrite app_nil_r|]. rewrite app_nil_r in H3.
    exists [], m, r. split; [split_and!; [done|by constructor|done..]|]. exact H3.
  - destruct (strip_both chars Hc s []) as (l & m & r & E & H1 & H2 & H3 & H4 & H5); [done|]. exists l, m, r.
    split; [by split_and!|exact H5].
Qed.

(** The characters that the argument of [strip] names. *)
Definition strip_chars (self : mp_obj_str_t) (arg : option mp_obj_str_t) : list Z :=
  match arg with None => whitespace | Some a => data a end.

Section StripSpec.
Context {byte_heap : Allocator Z}.
Variable qstr_find_strn : list Z -> bool.

(** [str_uni_strip] ([strip], [lstrip] and [rstrip]): what is left when the longest run of the
    given characters, or of white space, is removed from both ends, the start or the end; an argument
    of another type raises [TypeError]. *)
Theorem str_uni_strip_spec ty self arg : small (data self) -> small (strip_chars self arg) ->
  if match arg with Some a => bool_decide (type a = type self) | None => true end then
    exists l m r, stripped ty (strip_chars self arg) (data self) l m r /\
      yields (str_uni_strip qstr_find_strn ty self (StrArg <$> arg)) (fun s => s = mk_str (type self) m)
  else str_uni_strip qstr_find_strn ty self (StrArg <$> arg) = Raise TypeError.
Proof.
  intros Hs Hc. unfold small in Hs, Hc. destruct (match arg with Some a => _ | None => true end) eqn:Ht.
  - pose proof (strip_loop_ok ty (strip_chars self arg) (data self) ltac:(lia) ltac:(lia)) as H.
    unfold str_uni_strip.
    assert ((match StrArg <$> arg with None => Ret whitespace | Some a => same_type self a end) = Ret (strip_chars self arg)) as ->
      by (destruct arg; [by cbn; rewrite Ht|done]).
    cbn [obind]. unfold str_len. destruct (if bool_decide (ty = RSTRIP) then _ else _) as [i delta].
    destruct H as (l & m & r & Hst & ->). exists l, m, r. split; [done|]. destruct Hst as (E & _). cbn [obind].
    destruct m as [|c m]; [by eapply yields_ret|]. remember (c :: m) as m' eqn:Em.
    replace (Z.of_nat (length (l ++ m')) - 1 - Z.of_nat (length l) + 1) with (Z.of_nat (length m')) by lens.
    destruct (Z.eqb_spec (Z.of_nat (length m')) (Z.of_nat (length (data self)))) as [El|El].
    + eapply yields_ret; [done|]. rewrite E in El. destruct l; [|autorewrite with lens in El; cbn in El; lia].
      destruct r; [|autorewrite with lens in El; cbn in El; lia]. rewrite app_nil_r in E. cbn in E. rewrite <- E. by destruct self.
    + rewrite !Nat2Z.id, E, drop_app_length, take_app_length. apply new_of_type_ok. unfold small. rewrite E in Hs. lens.
  - unfold str_uni_strip. destruct arg as [a|]; [|done]. cbn. by rewrite Ht.
Qed.
End StripSpec.

#[local] Instance sample_bytes : Allocator Z := { m_renew_ok b := b <? 2 ^ 20; fresh := 255 }.

Lemma str_uni_strip_spec_witness :
  let self := mk_str mp_type_str [32; 9; 97; 32; 98; 10] in
  str_uni_strip (fun _ => false) STRIP self None = Ret (mk_str mp_type_str [97; 32; 98]) /\
  exists l m r, stripped STRIP whitespace (data self) l m r.
Proof.
  intros self. split; [by vm_compute|].
  destruct (str_uni_strip_spec (fun _ => false) STRIP self None eq_refl eq_refl) as (l & m & r & H & _).
  exists l, m, r. exact H.
Defined.

(** ** Operators *)

Section Operators.
Context {byte_heap : Allocator Z}.
Variable qstr_find_strn : list Z -> bool.

Lemma str_add_ok self r : small (data self ++ r) -> forall arg,
  (forall a, arg = StrArg a -> data a = r) ->
  yields (str_add qstr_find_strn self arg r) (fun s => s = StrResult (mk_str (type self) (data self ++ r))).
Proof.
  intros Hs arg Ha. unfold small in Hs. autorewrite with lens in Hs. unfold str_add, str_len.
  set (concat := if (length r =? 0)%nat then _ else _).
  assert (Hc : yields concat (fun s => s = StrResult (mk_str (type self) (data self ++ r)))).
  { unfold concat. destruct (Nat.eqb_spec (length r) 0) as [E|E].
    - destruct r; [|done]. eapply yields_ret; [done|]. rewrite app_nil_r. by destruct self.
    - rewrite wrap_small by lia. eapply yields_bind; [apply init_len_ok; lia|]. intros v (V1 & V2 & V3).
      set (n := (length (data self) + length r)%nat).
      rewrite <- (take_drop (length (data self)) (Vstr.buf v)), <- (take_drop (length r) (drop _ (Vstr.buf v))).
      rewrite memcpy_in_front by lens. cbn [obind]. rewrite memcpy_in_middle by lens. cbn [obind].
      eapply yields_bind.
      + eapply (from_buf_ok qstr_find_strn (type self) v _ _ (data self ++ r)); [exact V1|exact V2|lia|by rewrite app_assoc|lens|lens].
      + intros s ->. by eapply yields_ret. }
  destruct arg as [a|d|k|]; try exact Hc. destruct (_ && _) eqn:Eb; [|exact Hc].
  apply andb_prop in Eb as [E1 E2]. apply bool_decide_eq_true in E2. eapply yields_ret; [done|].
  destruct self as [ty d], a as [ty' d']. cbn in *. destruct d; [|done]. subst. by rewrite <- (Ha _ eq_refl).
Qed.

Lemma py_repeat_length {A} (xs : list A) n : length (py_repeat xs n) = (n * length xs)%nat.
Proof.
  induction n as [|n IH]; [done|]. change (length (xs ++ py_repeat xs n) = (S n * length xs)%nat). rewrite length_app, IH. lia.
Qed.

Lemma str_multiply_ok self n : str_len self * n < 2 ^ 31 - 1 ->
  yields (str_multiply qstr_find_strn self n) (fun s => s = StrResult (mk_str (type self) (py_repeat (data self) (Z.to_nat n)))).
Proof.
  intros Hs. unfold str_multiply. destruct (Z.leb_spec n 0) as [Hn|Hn].
  { eapply yields_ret; [done|]. by replace (Z.to_nat n) with 0%nat by lia. }
  unfold str_len in *. rewrite wrap_small by nia. eapply yields_bind; [apply init_len_ok; nia|]. intros v (V1 & V2 & V3).
  set (k := (Z.to_nat n * length (data self))%nat). assert (Hk : Z.of_nat k = Z.of_nat (length (data self)) * n) by (unfold k; nia).
  rewrite <- (take_drop k (Vstr.buf v)).
  assert (Hr : length (py_repeat (data self) (Z.to_nat n)) = k) by apply py_repeat_length.
  assert (Ht : length (take k (Vstr.buf v)) = k) by (rewrite length_take; clearbody k; lia).
  pose proof (seq_multiply_ok (Z.to_nat n) (data self) [] (take k (Vstr.buf v)) (drop k (Vstr.buf v)) Ht) as E.
  cbn [app length] in E. change (Z.of_nat 0) with 0 in E. rewrite E. cbn [obind]. eapply yields_bind.
  - eapply (from_buf_ok qstr_find_strn (type self) v _ _ (py_repeat (data self) (Z.to_nat n))); [exact V1|exact V2|clearbody k; lia|done|rewrite Hr; clearbody k; lia|rewrite length_drop; clearbody k; lia].
  - intros s ->. by eapply yields_ret.
Qed.

(** [mp_obj_str_binary_op] on two strings, or two bytes objects, or a string and an integer: [+]
    concatenates, [*] repeats, [in] says whether the right operand occurs in the left, and the
    comparisons are the lexicographic order; a [str] and a [bytes] operand raise [TypeError]. *)
Theorem mp_obj_str_binary_op_spec op self rhs : small (data self) ->
  let m := mp_obj_str_binary_op qstr_find_strn op self (StrArg rhs) in
  (type rhs = type self ->
   match op with
   | STR_ADD => small (data self ++ data rhs) -> yields m (fun s => s = StrResult (mk_str (type self) (data self ++ data rhs)))
   | STR_CONTAINS => exists b, m = Ret (BoolResult b) /\ (b = true <-> exists i, occurs (data rhs) (data self) i)
   | STR_COMPARE c => m = Ret (BoolResult (holds c (lex (data self) (data rhs))))
   | STR_MODULO | STR_MULTIPLY => m = Ret NotSupported
   end) /\
  (type self = mp_type_str -> type rhs = mp_type_bytes -> op <> STR_MODULO -> op <> STR_MULTIPLY -> m = Raise TypeError) /\
  (forall n, str_len self * n < 2 ^ 31 - 1 ->
   yields (mp_obj_str_binary_op qstr_find_strn STR_MULTIPLY self (IntArg n))
     (fun s => s = StrResult (mk_str (type self) (py_repeat (data self) (Z.to_nat n))))).
Proof.
  intros Hs m. split_and!; [intros Ht| |intros n; apply str_multiply_ok].
  - unfold m, mp_obj_str_binary_op. destruct op; try done; cbn [rhs_bytes]; rewrite bool_decide_eq_true_2 by done; cbn [obind].
    + intros Hr. apply str_add_ok; [done|]. by intros a [= ->].
    + destruct (find_ok (data self) (data rhs) true) as (r & -> & Hr); [unfold small in Hs; lia|]. cbn [obind].
      eexists. split; [done|]. destruct r as [k|]; cbn; (split; [intros Hb|intros [i Hi]]); try done.
      * exists k. apply Hr.
      * by destruct (Hr i).
    + by rewrite mp_seq_cmp_bytes_lex.
  - intros H1 H2 H3 H4. unfold m, mp_obj_str_binary_op. destruct op; try done; cbn [rhs_bytes]; rewrite H1, H2; done.
Qed.
End Operators.

Lemma mp_obj_str_binary_op_spec_witness :
  exists b, mp_obj_str_binary_op (fun _ => false) STR_CONTAINS (mk_str mp_type_str [97; 98; 99]) (StrArg (mk_str mp_type_str [98; 99])) =
    Ret (BoolResult b) /\ (b = true <-> exists i, occurs [98; 99] [97; 98; 99] i).
Proof.
  exact (proj1 (mp_obj_str_binary_op_spec (fun _ => false) STR_CONTAINS (mk_str mp_type_str [97; 98; 99]) (mk_str mp_type_str [98; 99])
    eq_refl) eq_refl).
Defined.

(** The length of a product wraps: the copies run over the end of a buffer of one byte, for instance
    for 8 bytes and a factor of [2 ^ 29]. *)
Lemma str_multiply_wraps d n : 0 < n -> wrap 32 (Z.of_nat (length d) * n) = 0 -> (2 <= length d)%nat ->
  mp_obj_str_binary_op (fun _ => false) STR_MULTIPLY (mk_str mp_type_bytes d) (IntArg n) = Undef.
Proof.
  intros Hn Hw Hl. cbn [mp_obj_str_binary_op]. unfold str_multiply, str_len. cbn [data]. rewrite Hw.
  rewrite (proj2 (Z.leb_gt n 0)) by done.
  assert (vstr_init_len 0 = Ret (mk_vstr 1 0 [255] false)) as -> by (by vm_compute). cbn [obind Vstr.buf].
  destruct (Z.to_nat n) as [|k] eqn:E; [lia|]. cbn [mp_seq_multiply].
  assert (memcpy_in [255] 0 d = Undef) as ->; [|done]. unfold memcpy_in. cbn [length].
  rewrite (proj2 (Z.leb_gt (0 + _) _)) by lia. by rewrite andb_false_r.
Qed.
