(* ===== verification/Pystack.v ===== *)
(** * The Python stack ([py/pystack.c], [py/pystack.h])

    The VM's frames and temporaries are allocated on a stack of bytes between two addresses.
    The port has [MICROPY_ENABLE_PYSTACK] on and an alignment of 8. *)

From S2P Require Import Prelude.
Local Open Scope Z_scope.

Definition MICROPY_PYSTACK_ALIGN : Z := 8.

Record pystack_t := mk_pystack { pystack_start : Z; pystack_end : Z; pystack_cur : Z }.

Definition mp_pystack_init (start stop : Z) : pystack_t := mk_pystack start stop start.

Definition round_bytes (n_bytes : Z) : Z :=
  Z.land (wrap 32 (n_bytes + (MICROPY_PYSTACK_ALIGN - 1))) (wrap 32 (Z.lnot (MICROPY_PYSTACK_ALIGN - 1))).

(** The stack and the address of the block.  The addresses are compared as 32-bit pointers. *)
Definition mp_pystack_alloc (s : pystack_t) (n_bytes : Z) : outcome (pystack_t * Z) :=
  let n_bytes := round_bytes n_bytes in
  let top := wrap 32 (pystack_cur s + n_bytes) in
  if pystack_end s <? top then Raise RuntimeError
  else Ret (mk_pystack (pystack_start s) (pystack_end s) top, pystack_cur s).

Definition mp_pystack_free (s : pystack_t) (ptr : Z) : outcome pystack_t :=
  if (pystack_start s <=? ptr) && (ptr <=? pystack_cur s)
  then Ret (mk_pystack (pystack_start s) (pystack_end s) ptr) else Undef.

Definition mp_pystack_realloc (s : pystack_t) (ptr n_bytes : Z) : outcome pystack_t :=
  let! s := mp_pystack_free s ptr in
  let! '(s, _) := mp_pystack_alloc s n_bytes in Ret s.

Definition mp_pystack_usage (s : pystack_t) : Z := pystack_cur s - pystack_start s.
Definition mp_pystack_limit (s : pystack_t) : Z := pystack_end s - pystack_start s.

Definition mp_local_alloc (s : pystack_t) (n_bytes : Z) := mp_pystack_alloc s n_bytes.
Definition mp_local_free (s : pystack_t) (ptr : Z) := mp_pystack_free s ptr.
Definition mp_nonlocal_alloc (s : pystack_t) (n_bytes : Z) := mp_pystack_alloc s n_bytes.
Definition mp_nonlocal_realloc (s : pystack_t) (ptr old_n_bytes new_n_bytes : Z) : outcome (pystack_t * Z) :=
  let! s := mp_pystack_realloc s ptr new_n_bytes in Ret (s, ptr).
Definition mp_nonlocal_free (s : pystack_t) (ptr n_bytes : Z) := mp_pystack_free s ptr.

(** ** Correctness *)

(** The live blocks, the latest first: each is aligned like the start of the stack and holds a
    whole number of 8-byte units, and they tile the used part of the stack. *)
Fixpoint tiles (start cur : Z) (blocks : list (Z * Z)) : Prop :=
  match blocks with
  | [] => cur = start
  | (ptr, n) :: blocks =>
    0 <= n /\ (n mod 8 = 0) /\ cur = ptr + n /\ tiles start ptr blocks
  end.

Record pystack_wf (s : pystack_t) (blocks : list (Z * Z)) : Prop := {
  ps_start : 0 <= pystack_start s;
  ps_cur : pystack_start s <= pystack_cur s <= pystack_end s;
  ps_end : pystack_end s < 2 ^ 31;
  ps_tiles : tiles (pystack_start s) (pystack_cur s) blocks
}.

Lemma round_bytes_ok n : 0 <= n < 2 ^ 32 - 8 -> n <= round_bytes n <= n + 7 /\ round_bytes n mod 8 = 0.
Proof.
  intros Hn. unfold round_bytes, MICROPY_PYSTACK_ALIGN. rewrite wrap_small by lia.
  assert (E : Z.land (n + (8 - 1)) (wrap 32 (Z.lnot (8 - 1))) = Z.shiftl (Z.shiftr (n + 7) 3) 3).
  { apply Z.bits_inj'. intros i Hi. rewrite Z.land_spec. change (8 - 1) with 7.
    change (wrap 32 (Z.lnot 7)) with (Z.shiftl (Z.ones 29) 3).
    destruct (Z.lt_ge_cases i 3) as [H3|H3].
    - rewrite !Z.shiftl_spec_low by lia. apply andb_false_r.
    - rewrite !Z.shiftl_spec, Z.shiftr_spec by lia. replace (i - 3 + 3) with i by lia.
      destruct (Z.lt_ge_cases i 32) as [H32|H32].
      + rewrite Z.ones_spec_low by lia. apply andb_true_r.
      + rewrite <- (Z.mod_small (n + 7) (2 ^ 32)) by lia. by rewrite Z.mod_pow2_bits_high by lia. }
  rewrite E, Z.shiftl_mul_pow2, Z.shiftr_div_pow2 by lia. change (2 ^ 3) with 8. zdiv.
Qed.

Lemma tiles_le start cur blocks : tiles start cur blocks -> start <= cur.
Proof. revert cur. induction blocks as [|[p n] blocks IH]; cbn [tiles]; intros cur; [lia|]. intros (H1 & _ & -> & H). apply IH in H. lia. Qed.

(** [mp_pystack_alloc] returns the address of a fresh aligned block of at least the requested
    size above the live ones, inside the stack, or raises [RuntimeError] exactly when the rounded
    request does not fit; the live blocks do not move. *)
Theorem mp_pystack_alloc_spec s blocks n : pystack_wf s blocks -> 0 <= n < 2 ^ 31 - 8 ->
  if pystack_end s - pystack_cur s <? round_bytes n then mp_pystack_alloc s n = Raise RuntimeError
  else exists s', mp_pystack_alloc s n = Ret (s', pystack_cur s) /\
         n <= round_bytes n <= n + 7 /\
         pystack_wf s' ((pystack_cur s, round_bytes n) :: blocks) /\
         mp_pystack_usage s' = mp_pystack_usage s + round_bytes n /\
         mp_pystack_limit s' = mp_pystack_limit s.
Proof.
  intros [H1 H2 H3 H4] Hn. destruct (round_bytes_ok n ltac:(lia)) as [Hr Hm]. unfold mp_pystack_alloc. cbn zeta.
  rewrite (wrap_small 32 (pystack_cur s + round_bytes n)) by lia.
  destruct (Z.ltb_spec (pystack_end s - pystack_cur s) (round_bytes n)).
  - by rewrite (proj2 (Z.ltb_lt _ _)) by lia.
  - rewrite (proj2 (Z.ltb_ge _ _)) by lia. eexists. split; [done|]. split; [done|].
    unfold mp_pystack_usage, mp_pystack_limit. cbn [pystack_start pystack_end pystack_cur].
    split; [|lia]. split; cbn [pystack_start pystack_end pystack_cur tiles]; try lia. split_and!; try done; lia.
Qed.

(** Freeing a block frees it and every block allocated after it, and nothing else, and gives back
    at least its size, so that a block that large is allocated at the same address again. *)
Theorem mp_pystack_free_spec s later ptr n blocks : pystack_wf s (later ++ (ptr, n) :: blocks) ->
  exists s', mp_pystack_free s ptr = Ret s' /\ pystack_wf s' blocks /\
    mp_pystack_usage s' + n <= mp_pystack_usage s /\
    exists s'', mp_pystack_alloc s' n = Ret (s'', ptr).
Proof.
  intros [H1 H2 H3 H4].
  assert (Htop : ptr + n <= pystack_cur s /\ 0 <= n /\ n mod 8 = 0 /\ tiles (pystack_start s) ptr blocks).
  { revert H4. generalize (pystack_cur s) as c. induction later as [|[p m] later IH]; intros c.
    - cbn [app tiles]. intros (Hn & Hm & -> & H). split; [lia|done].
    - cbn [app tiles]. intros (Hm & _ & -> & H). apply IH in H. destruct H. split; [lia|done]. }
  destruct Htop as (Htop & Hn & Hm & Ht). pose proof (tiles_le _ _ _ Ht).
  unfold mp_pystack_free. rewrite !(proj2 (Z.leb_le _ _)) by lia. cbn [andb]. eexists. split; [done|].
  split; [split; cbn [pystack_start pystack_end pystack_cur]; done || lia|].
  unfold mp_pystack_usage. cbn [pystack_start pystack_end pystack_cur]. split; [lia|].
  assert (Hr : round_bytes n = n).
  { destruct (round_bytes_ok n ltac:(lia)) as [H5 H6]. clear -H5 H6 Hm. zdiv. }
  eexists. unfold mp_pystack_alloc. cbn [pystack_start pystack_end pystack_cur]. rewrite Hr, wrap_small by lia.
  by rewrite (proj2 (Z.ltb_ge _ _)) by lia.
Qed.

Definition sample_pystack : pystack_t := mk_pystack 1000 1100 1024.
Lemma sample_pystack_wf : pystack_wf sample_pystack [(1008, 16); (1000, 8)].
Proof. by split. Qed.

Lemma mp_pystack_alloc_spec_witness :
  exists s, mp_pystack_alloc sample_pystack 13 = Ret (s, 1024) /\ pystack_wf s [(1024, 16); (1008, 16); (1000, 8)].
Proof.
  destruct (mp_pystack_alloc_spec sample_pystack _ 13 sample_pystack_wf ltac:(lia)) as (s & E & _ & H & _).
  exists s. split; [exact E|exact H].
Defined.

Lemma mp_pystack_free_spec_witness :
  exists s, mp_pystack_free sample_pystack 1000 = Ret s /\ pystack_wf s [].
Proof.
  destruct (mp_pystack_free_spec sample_pystack [(1008, 16)] 1000 8 [] sample_pystack_wf) as (s & E & H & _).
  exists s. split; [exact E|exact H].
Defined.
