(* ===== verification/Grammar.v ===== *)
(** * The grammar ([py/grammar.h] and the tables of [py/parse.c])

    The rules of the grammar in the order of the header, and the three tables that the parser
    computes from them with macros: the action of a rule, the arguments of all rules one after the
    other, and the offset of a rule's arguments, of which only the low 8 bits are stored.  The
    macros of the header are constructors here, so that a table is a fold over the rules; [DEF_RULE]
    leaves out the rule's compile function.  [get_rule_arg_spec] shows that the packed tables give back the
    rules.  The port builds slices and sets and has no [async], no [:=]. *)

From S2P Require Import Prelude Token.
Local Open Scope Z_scope.

(** The enumeration of the rules: those with a compile function first. *)
Inductive rule_t :=
  | RULE_file_input | RULE_file_input_2 | RULE_decorated | RULE_funcdef | RULE_simple_stmt_2
  | RULE_expr_stmt | RULE_testlist_star_expr | RULE_del_stmt | RULE_pass_stmt | RULE_break_stmt
  | RULE_continue_stmt | RULE_return_stmt | RULE_yield_stmt | RULE_raise_stmt | RULE_longyield_stmt
  | RULE_ipusyscall_stmt | RULE_import_name | RULE_import_from | RULE_global_stmt
  | RULE_nonlocal_stmt | RULE_assert_stmt | RULE_if_stmt | RULE_while_stmt | RULE_for_stmt
  | RULE_try_stmt | RULE_with_stmt | RULE_suite_block_stmts | RULE_test_if_expr | RULE_lambdef
  | RULE_lambdef_nocond | RULE_or_test | RULE_and_test | RULE_not_test_2 | RULE_comparison
  | RULE_star_expr | RULE_expr | RULE_xor_expr | RULE_and_expr | RULE_shift_expr | RULE_arith_expr
  | RULE_term | RULE_factor_2 | RULE_power | RULE_atom_expr_normal | RULE_atom_paren
  | RULE_atom_bracket | RULE_atom_brace | RULE_trailer_paren | RULE_trailer_bracket
  | RULE_trailer_period | RULE_subscriptlist | RULE_subscript_2 | RULE_subscript_3 | RULE_testlist
  | RULE_dictorsetmaker_item | RULE_classdef | RULE_yield_expr | RULE_const_object
  | RULE_generic_colon_test | RULE_generic_equal_test | RULE_single_input | RULE_file_input_3
  | RULE_eval_input | RULE_eval_input_2 | RULE_decorator | RULE_decorators | RULE_decorated_body
  | RULE_funcdefrettype | RULE_typedargslist | RULE_typedargslist_item | RULE_typedargslist_name
  | RULE_typedargslist_star | RULE_typedargslist_dbl_star | RULE_tfpdef | RULE_varargslist
  | RULE_varargslist_item | RULE_varargslist_name | RULE_varargslist_star
  | RULE_varargslist_dbl_star | RULE_vfpdef | RULE_stmt | RULE_simple_stmt | RULE_small_stmt
  | RULE_expr_stmt_2 | RULE_expr_stmt_augassign | RULE_expr_stmt_assign_list
  | RULE_expr_stmt_assign | RULE_expr_stmt_6 | RULE_testlist_star_expr_2 | RULE_annassign
  | RULE_augassign | RULE_flow_stmt | RULE_raise_stmt_arg | RULE_raise_stmt_from | RULE_import_stmt
  | RULE_import_from_2 | RULE_import_from_2b | RULE_import_from_3 | RULE_import_as_names_paren
  | RULE_one_or_more_period_or_ellipsis | RULE_period_or_ellipsis | RULE_import_as_name
  | RULE_dotted_as_name | RULE_as_name | RULE_import_as_names | RULE_dotted_as_names
  | RULE_dotted_name | RULE_name_list | RULE_assert_stmt_extra | RULE_compound_stmt
  | RULE_if_stmt_elif_list | RULE_if_stmt_elif | RULE_try_stmt_2 | RULE_try_stmt_except_and_more
  | RULE_try_stmt_except | RULE_try_stmt_as_name | RULE_try_stmt_except_list
  | RULE_try_stmt_finally | RULE_else_stmt | RULE_with_stmt_list | RULE_with_item
  | RULE_with_item_as | RULE_suite | RULE_suite_block | RULE_namedexpr_test | RULE_test
  | RULE_test_if_else | RULE_test_nocond | RULE_not_test | RULE_comp_op | RULE_comp_op_not_in
  | RULE_comp_op_is | RULE_comp_op_is_not | RULE_shift_op | RULE_arith_op | RULE_term_op
  | RULE_factor | RULE_factor_op | RULE_atom_expr | RULE_atom_expr_trailers | RULE_power_dbl_star
  | RULE_atom | RULE_atom_2b | RULE_testlist_comp | RULE_testlist_comp_2 | RULE_testlist_comp_3
  | RULE_testlist_comp_3b | RULE_testlist_comp_3c | RULE_trailer | RULE_subscript
  | RULE_subscript_3b | RULE_subscript_3c | RULE_subscript_3d | RULE_sliceop | RULE_exprlist
  | RULE_exprlist_2 | RULE_dictorsetmaker | RULE_dictorsetmaker_tail | RULE_dictorsetmaker_list
  | RULE_dictorsetmaker_list2 | RULE_classdef_2 | RULE_arglist | RULE_arglist_2 | RULE_arglist_star
  | RULE_arglist_dbl_star | RULE_argument | RULE_argument_2 | RULE_comp_iter | RULE_comp_for
  | RULE_comp_if | RULE_yield_arg | RULE_yield_arg_from.

(** The value of the enumeration constant. *)
Definition rule_id (r : rule_t) : nat :=
  match r with
  | RULE_file_input => 0 | RULE_file_input_2 => 1 | RULE_decorated => 2 | RULE_funcdef => 3
  | RULE_simple_stmt_2 => 4 | RULE_expr_stmt => 5 | RULE_testlist_star_expr => 6
  | RULE_del_stmt => 7 | RULE_pass_stmt => 8 | RULE_break_stmt => 9 | RULE_continue_stmt => 10
  | RULE_return_stmt => 11 | RULE_yield_stmt => 12 | RULE_raise_stmt => 13
  | RULE_longyield_stmt => 14 | RULE_ipusyscall_stmt => 15 | RULE_import_name => 16
  | RULE_import_from => 17 | RULE_global_stmt => 18 | RULE_nonlocal_stmt => 19
  | RULE_assert_stmt => 20 | RULE_if_stmt => 21 | RULE_while_stmt => 22 | RULE_for_stmt => 23
  | RULE_try_stmt => 24 | RULE_with_stmt => 25 | RULE_suite_block_stmts => 26
  | RULE_test_if_expr => 27 | RULE_lambdef => 28 | RULE_lambdef_nocond => 29 | RULE_or_test => 30
  | RULE_and_test => 31 | RULE_not_test_2 => 32 | RULE_comparison => 33 | RULE_star_expr => 34
  | RULE_expr => 35 | RULE_xor_expr => 36 | RULE_and_expr => 37 | RULE_shift_expr => 38
  | RULE_arith_expr => 39 | RULE_term => 40 | RULE_factor_2 => 41 | RULE_power => 42
  | RULE_atom_expr_normal => 43 | RULE_atom_paren => 44 | RULE_atom_bracket => 45
  | RULE_atom_brace => 46 | RULE_trailer_paren => 47 | RULE_trailer_bracket => 48
  | RULE_trailer_period => 49 | RULE_subscriptlist => 50 | RULE_subscript_2 => 51
  | RULE_subscript_3 => 52 | RULE_testlist => 53 | RULE_dictorsetmaker_item => 54
  | RULE_classdef => 55 | RULE_yield_expr => 56 | RULE_const_object => 57
  | RULE_generic_colon_test => 58 | RULE_generic_equal_test => 59 | RULE_single_input => 60
  | RULE_file_input_3 => 61 | RULE_eval_input => 62 | RULE_eval_input_2 => 63
  | RULE_decorator => 64 | RULE_decorators => 65 | RULE_decorated_body => 66
  | RULE_funcdefrettype => 67 | RULE_typedargslist => 68 | RULE_typedargslist_item => 69
  | RULE_typedargslist_name => 70 | RULE_typedargslist_star => 71
  | RULE_typedargslist_dbl_star => 72 | RULE_tfpdef => 73 | RULE_varargslist => 74
  | RULE_varargslist_item => 75 | RULE_varargslist_name => 76 | RULE_varargslist_star => 77
  | RULE_varargslist_dbl_star => 78 | RULE_vfpdef => 79 | RULE_stmt => 80 | RULE_simple_stmt => 81
  | RULE_small_stmt => 82 | RULE_expr_stmt_2 => 83 | RULE_expr_stmt_augassign => 84
  | RULE_expr_stmt_assign_list => 85 | RULE_expr_stmt_assign => 86 | RULE_expr_stmt_6 => 87
  | RULE_testlist_star_expr_2 => 88 | RULE_annassign => 89 | RULE_augassign => 90
  | RULE_flow_stmt => 91 | RULE_raise_stmt_arg => 92 | RULE_raise_stmt_from => 93
  | RULE_import_stmt => 94 | RULE_import_from_2 => 95 | RULE_import_from_2b => 96
  | RULE_import_from_3 => 97 | RULE_import_as_names_paren => 98
  | RULE_one_or_more_period_or_ellipsis => 99 | RULE_period_or_ellipsis => 100
  | RULE_import_as_name => 101 | RULE_dotted_as_name => 102 | RULE_as_name => 103
  | RULE_import_as_names => 104 | RULE_dotted_as_names => 105 | RULE_dotted_name => 106
  | RULE_name_list => 107 | RULE_assert_stmt_extra => 108 | RULE_compound_stmt => 109
  | RULE_if_stmt_elif_list => 110 | RULE_if_stmt_elif => 111 | RULE_try_stmt_2 => 112
  | RULE_try_stmt_except_and_more => 113 | RULE_try_stmt_except => 114
  | RULE_try_stmt_as_name => 115 | RULE_try_stmt_except_list => 116 | RULE_try_stmt_finally => 117
  | RULE_else_stmt => 118 | RULE_with_stmt_list => 119 | RULE_with_item => 120
  | RULE_with_item_as => 121 | RULE_suite => 122 | RULE_suite_block => 123
  | RULE_namedexpr_test => 124 | RULE_test => 125 | RULE_test_if_else => 126
  | RULE_test_nocond => 127 | RULE_not_test => 128 | RULE_comp_op => 129
  | RULE_comp_op_not_in => 130 | RULE_comp_op_is => 131 | RULE_comp_op_is_not => 132
  | RULE_shift_op => 133 | RULE_arith_op => 134 | RULE_term_op => 135 | RULE_factor => 136
  | RULE_factor_op => 137 | RULE_atom_expr => 138 | RULE_atom_expr_trailers => 139
  | RULE_power_dbl_star => 140 | RULE_atom => 141 | RULE_atom_2b => 142 | RULE_testlist_comp => 143
  | RULE_testlist_comp_2 => 144 | RULE_testlist_comp_3 => 145 | RULE_testlist_comp_3b => 146
  | RULE_testlist_comp_3c => 147 | RULE_trailer => 148 | RULE_subscript => 149
  | RULE_subscript_3b => 150 | RULE_subscript_3c => 151 | RULE_subscript_3d => 152
  | RULE_sliceop => 153 | RULE_exprlist => 154 | RULE_exprlist_2 => 155
  | RULE_dictorsetmaker => 156 | RULE_dictorsetmaker_tail => 157 | RULE_dictorsetmaker_list => 158
  | RULE_dictorsetmaker_list2 => 159 | RULE_classdef_2 => 160 | RULE_arglist => 161
  | RULE_arglist_2 => 162 | RULE_arglist_star => 163 | RULE_arglist_dbl_star => 164
  | RULE_argument => 165 | RULE_argument_2 => 166 | RULE_comp_iter => 167 | RULE_comp_for => 168
  | RULE_comp_if => 169 | RULE_yield_arg => 170 | RULE_yield_arg_from => 171
  end.

Definition all_rules : list rule_t := [
  RULE_file_input; RULE_file_input_2; RULE_decorated; RULE_funcdef; RULE_simple_stmt_2;
  RULE_expr_stmt; RULE_testlist_star_expr; RULE_del_stmt; RULE_pass_stmt; RULE_break_stmt;
  RULE_continue_stmt; RULE_return_stmt; RULE_yield_stmt; RULE_raise_stmt; RULE_longyield_stmt;
  RULE_ipusyscall_stmt; RULE_import_name; RULE_import_from; RULE_global_stmt; RULE_nonlocal_stmt;
  RULE_assert_stmt; RULE_if_stmt; RULE_while_stmt; RULE_for_stmt; RULE_try_stmt; RULE_with_stmt;
  RULE_suite_block_stmts; RULE_test_if_expr; RULE_lambdef; RULE_lambdef_nocond; RULE_or_test;
  RULE_and_test; RULE_not_test_2; RULE_comparison; RULE_star_expr; RULE_expr; RULE_xor_expr;
  RULE_and_expr; RULE_shift_expr; RULE_arith_expr; RULE_term; RULE_factor_2; RULE_power;
  RULE_atom_expr_normal; RULE_atom_paren; RULE_atom_bracket; RULE_atom_brace; RULE_trailer_paren;
  RULE_trailer_bracket; RULE_trailer_period; RULE_subscriptlist; RULE_subscript_2;
  RULE_subscript_3; RULE_testlist; RULE_dictorsetmaker_item; RULE_classdef; RULE_yield_expr;
  RULE_const_object; RULE_generic_colon_test; RULE_generic_equal_test; RULE_single_input;
  RULE_file_input_3; RULE_eval_input; RULE_eval_input_2; RULE_decorator; RULE_decorators;
  RULE_decorated_body; RULE_funcdefrettype; RULE_typedargslist; RULE_typedargslist_item;
  RULE_typedargslist_name; RULE_typedargslist_star; RULE_typedargslist_dbl_star; RULE_tfpdef;
  RULE_varargslist; RULE_varargslist_item; RULE_varargslist_name; RULE_varargslist_star;
  RULE_varargslist_dbl_star; RULE_vfpdef; RULE_stmt; RULE_simple_stmt; RULE_small_stmt;
  RULE_expr_stmt_2; RULE_expr_stmt_augassign; RULE_expr_stmt_assign_list; RULE_expr_stmt_assign;
  RULE_expr_stmt_6; RULE_testlist_star_expr_2; RULE_annassign; RULE_augassign; RULE_flow_stmt;
  RULE_raise_stmt_arg; RULE_raise_stmt_from; RULE_import_stmt; RULE_import_from_2;
  RULE_import_from_2b; RULE_import_from_3; RULE_import_as_names_paren;
  RULE_one_or_more_period_or_ellipsis; RULE_period_or_ellipsis; RULE_import_as_name;
  RULE_dotted_as_name; RULE_as_name; RULE_import_as_names; RULE_dotted_as_names; RULE_dotted_name;
  RULE_name_list; RULE_assert_stmt_extra; RULE_compound_stmt; RULE_if_stmt_elif_list;
  RULE_if_stmt_elif; RULE_try_stmt_2; RULE_try_stmt_except_and_more; RULE_try_stmt_except;
  RULE_try_stmt_as_name; RULE_try_stmt_except_list; RULE_try_stmt_finally; RULE_else_stmt;
  RULE_with_stmt_list; RULE_with_item; RULE_with_item_as; RULE_suite; RULE_suite_block;
  RULE_namedexpr_test; RULE_test; RULE_test_if_else; RULE_test_nocond; RULE_not_test; RULE_comp_op;
  RULE_comp_op_not_in; RULE_comp_op_is; RULE_comp_op_is_not; RULE_shift_op; RULE_arith_op;
  RULE_term_op; RULE_factor; RULE_factor_op; RULE_atom_expr; RULE_atom_expr_trailers;
  RULE_power_dbl_star; RULE_atom; RULE_atom_2b; RULE_testlist_comp; RULE_testlist_comp_2;
  RULE_testlist_comp_3; RULE_testlist_comp_3b; RULE_testlist_comp_3c; RULE_trailer; RULE_subscript;
  RULE_subscript_3b; RULE_subscript_3c; RULE_subscript_3d; RULE_sliceop; RULE_exprlist;
  RULE_exprlist_2; RULE_dictorsetmaker; RULE_dictorsetmaker_tail; RULE_dictorsetmaker_list;
  RULE_dictorsetmaker_list2; RULE_classdef_2; RULE_arglist; RULE_arglist_2; RULE_arglist_star;
  RULE_arglist_dbl_star; RULE_argument; RULE_argument_2; RULE_comp_iter; RULE_comp_for;
  RULE_comp_if; RULE_yield_arg; RULE_yield_arg_from].

Lemma all_rules_id r : all_rules !! rule_id r = Some r.
Proof. by destruct r. Qed.

#[export] Instance rule_id_inj : Inj (=) (=) rule_id.
Proof. intros r1 r2 E. pose proof (all_rules_id r1) as H. rewrite E, all_rules_id in H. congruence. Qed.

#[export] Instance rule_eq_dec : EqDecision rule_t.
Proof.
  intros r1 r2. destruct (decide (rule_id r1 = rule_id r2)) as [E|E].
  - left. by apply (inj rule_id).
  - right. intros ->. done.
Defined.

(** The kinds of rules; [or_], [and_] and [list_] are the macros [or], [and] and [list]. *)
Inductive rule_kind :=
| or_ (n : Z) | and_ (n : Z) | and_ident (n : Z) | and_blank (n : Z) | one_or_more | list_ | list_with_end.

Inductive rule_arg_t := tok (t : mp_token_kind_t) | rule (r : rule_t) | opt_rule (r : rule_t).

Inductive rule_def :=
| DEF_RULE (r : rule_t) (k : rule_kind) (args : list rule_arg_t)
| DEF_RULE_NC (r : rule_t) (k : rule_kind) (args : list rule_arg_t).

(** The start symbols. *)
Definition grammar_start : list rule_def := [
  DEF_RULE_NC RULE_generic_colon_test (and_ident 2) [tok MP_TOKEN_DEL_COLON; rule RULE_test];
  DEF_RULE_NC RULE_generic_equal_test (and_ident 2) [tok MP_TOKEN_DEL_EQUAL; rule RULE_test];
  DEF_RULE_NC RULE_single_input (or_ 3) [
      tok MP_TOKEN_NEWLINE; rule RULE_simple_stmt; rule RULE_compound_stmt];
  DEF_RULE RULE_file_input (and_ident 1) [opt_rule RULE_file_input_2];
  DEF_RULE RULE_file_input_2 one_or_more [rule RULE_file_input_3];
  DEF_RULE_NC RULE_file_input_3 (or_ 2) [tok MP_TOKEN_NEWLINE; rule RULE_stmt];
  DEF_RULE_NC RULE_eval_input (and_ident 2) [rule RULE_testlist; opt_rule RULE_eval_input_2];
  DEF_RULE_NC RULE_eval_input_2 (and_ 1) [tok MP_TOKEN_NEWLINE]].

(** Decorators, functions and their parameters. *)
Definition grammar_functions : list rule_def := [
  DEF_RULE_NC RULE_decorator (and_ 4) [
      tok MP_TOKEN_OP_AT; rule RULE_dotted_name; opt_rule RULE_trailer_paren; tok MP_TOKEN_NEWLINE];
  DEF_RULE_NC RULE_decorators one_or_more [rule RULE_decorator];
  DEF_RULE RULE_decorated (and_ident 2) [rule RULE_decorators; rule RULE_decorated_body];
  DEF_RULE_NC RULE_decorated_body (or_ 2) [rule RULE_classdef; rule RULE_funcdef];
  DEF_RULE RULE_funcdef (and_blank 8) [
      tok MP_TOKEN_KW_DEF; tok MP_TOKEN_NAME; tok MP_TOKEN_DEL_PAREN_OPEN;
      opt_rule RULE_typedargslist; tok MP_TOKEN_DEL_PAREN_CLOSE; opt_rule RULE_funcdefrettype;
      tok MP_TOKEN_DEL_COLON; rule RULE_suite];
  DEF_RULE_NC RULE_funcdefrettype (and_ident 2) [tok MP_TOKEN_DEL_MINUS_MORE; rule RULE_test];
  DEF_RULE_NC RULE_typedargslist list_with_end [rule RULE_typedargslist_item; tok MP_TOKEN_DEL_COMMA];
  DEF_RULE_NC RULE_typedargslist_item (or_ 3) [
      rule RULE_typedargslist_name; rule RULE_typedargslist_star; rule RULE_typedargslist_dbl_star];
  DEF_RULE_NC RULE_typedargslist_name (and_ident 3) [
      tok MP_TOKEN_NAME; opt_rule RULE_generic_colon_test; opt_rule RULE_generic_equal_test];
  DEF_RULE_NC RULE_typedargslist_star (and_ 2) [tok MP_TOKEN_OP_STAR; opt_rule RULE_tfpdef];
  DEF_RULE_NC RULE_typedargslist_dbl_star (and_ 3) [
      tok MP_TOKEN_OP_DBL_STAR; tok MP_TOKEN_NAME; opt_rule RULE_generic_colon_test];
  DEF_RULE_NC RULE_tfpdef (and_ 2) [tok MP_TOKEN_NAME; opt_rule RULE_generic_colon_test];
  DEF_RULE_NC RULE_varargslist list_with_end [rule RULE_varargslist_item; tok MP_TOKEN_DEL_COMMA];
  DEF_RULE_NC RULE_varargslist_item (or_ 3) [
      rule RULE_varargslist_name; rule RULE_varargslist_star; rule RULE_varargslist_dbl_star];
  DEF_RULE_NC RULE_varargslist_name (and_ident 2) [tok MP_TOKEN_NAME; opt_rule RULE_generic_equal_test];
  DEF_RULE_NC RULE_varargslist_star (and_ 2) [tok MP_TOKEN_OP_STAR; opt_rule RULE_vfpdef];
  DEF_RULE_NC RULE_varargslist_dbl_star (and_ 2) [tok MP_TOKEN_OP_DBL_STAR; tok MP_TOKEN_NAME];
  DEF_RULE_NC RULE_vfpdef (and_ident 1) [tok MP_TOKEN_NAME]].

(** Simple statements. *)
Definition grammar_simple : list rule_def := [
  DEF_RULE_NC RULE_stmt (or_ 2) [rule RULE_compound_stmt; rule RULE_simple_stmt];
  DEF_RULE_NC RULE_simple_stmt (and_ident 2) [rule RULE_simple_stmt_2; tok MP_TOKEN_NEWLINE];
  DEF_RULE RULE_simple_stmt_2 list_with_end [rule RULE_small_stmt; tok MP_TOKEN_DEL_SEMICOLON];
  DEF_RULE_NC RULE_small_stmt (or_ 8) [
      rule RULE_del_stmt; rule RULE_pass_stmt; rule RULE_flow_stmt; rule RULE_import_stmt;
      rule RULE_global_stmt; rule RULE_nonlocal_stmt; rule RULE_assert_stmt; rule RULE_expr_stmt];
  DEF_RULE RULE_expr_stmt (and_ 2) [rule RULE_testlist_star_expr; opt_rule RULE_expr_stmt_2];
  DEF_RULE_NC RULE_expr_stmt_2 (or_ 3) [
      rule RULE_annassign; rule RULE_expr_stmt_augassign; rule RULE_expr_stmt_assign_list];
  DEF_RULE_NC RULE_expr_stmt_augassign (and_ident 2) [rule RULE_augassign; rule RULE_expr_stmt_6];
  DEF_RULE_NC RULE_expr_stmt_assign_list one_or_more [rule RULE_expr_stmt_assign];
  DEF_RULE_NC RULE_expr_stmt_assign (and_ident 2) [tok MP_TOKEN_DEL_EQUAL; rule RULE_expr_stmt_6];
  DEF_RULE_NC RULE_expr_stmt_6 (or_ 2) [rule RULE_yield_expr; rule RULE_testlist_star_expr];
  DEF_RULE RULE_testlist_star_expr list_with_end [rule RULE_testlist_star_expr_2; tok MP_TOKEN_DEL_COMMA];
  DEF_RULE_NC RULE_testlist_star_expr_2 (or_ 2) [rule RULE_star_expr; rule RULE_test];
  DEF_RULE_NC RULE_annassign (and_ 3) [
      tok MP_TOKEN_DEL_COLON; rule RULE_test; opt_rule RULE_expr_stmt_assign];
  DEF_RULE_NC RULE_augassign (or_ 13) [
      tok MP_TOKEN_DEL_PLUS_EQUAL; tok MP_TOKEN_DEL_MINUS_EQUAL; tok MP_TOKEN_DEL_STAR_EQUAL;
      tok MP_TOKEN_DEL_AT_EQUAL; tok MP_TOKEN_DEL_SLASH_EQUAL; tok MP_TOKEN_DEL_PERCENT_EQUAL;
      tok MP_TOKEN_DEL_AMPERSAND_EQUAL; tok MP_TOKEN_DEL_PIPE_EQUAL; tok MP_TOKEN_DEL_CARET_EQUAL;
      tok MP_TOKEN_DEL_DBL_LESS_EQUAL; tok MP_TOKEN_DEL_DBL_MORE_EQUAL;
      tok MP_TOKEN_DEL_DBL_STAR_EQUAL; tok MP_TOKEN_DEL_DBL_SLASH_EQUAL];
  DEF_RULE RULE_del_stmt (and_ 2) [tok MP_TOKEN_KW_DEL; rule RULE_exprlist];
  DEF_RULE RULE_pass_stmt (and_ 1) [tok MP_TOKEN_KW_PASS];
  DEF_RULE_NC RULE_flow_stmt (or_ 7) [
      rule RULE_break_stmt; rule RULE_continue_stmt; rule RULE_longyield_stmt;
      rule RULE_ipusyscall_stmt; rule RULE_return_stmt; rule RULE_raise_stmt; rule RULE_yield_stmt];
  DEF_RULE RULE_break_stmt (and_ 1) [tok MP_TOKEN_KW_BREAK];
  DEF_RULE RULE_continue_stmt (and_ 1) [tok MP_TOKEN_KW_CONTINUE];
  DEF_RULE RULE_return_stmt (and_ 2) [tok MP_TOKEN_KW_RETURN; opt_rule RULE_testlist];
  DEF_RULE RULE_yield_stmt (and_ 1) [rule RULE_yield_expr];
  DEF_RULE RULE_raise_stmt (and_ 2) [tok MP_TOKEN_KW_RAISE; opt_rule RULE_raise_stmt_arg];
  DEF_RULE_NC RULE_raise_stmt_arg (and_ident 2) [rule RULE_test; opt_rule RULE_raise_stmt_from];
  DEF_RULE_NC RULE_raise_stmt_from (and_ident 2) [tok MP_TOKEN_KW_FROM; rule RULE_test];
  DEF_RULE RULE_longyield_stmt (and_ 1) [tok MP_TOKEN_KW_LONGYIELD];
  DEF_RULE RULE_ipusyscall_stmt (and_ 1) [tok MP_TOKEN_KW_IPUSYSCALL];
  DEF_RULE_NC RULE_import_stmt (or_ 2) [rule RULE_import_name; rule RULE_import_from];
  DEF_RULE RULE_import_name (and_ 2) [tok MP_TOKEN_KW_IMPORT; rule RULE_dotted_as_names];
  DEF_RULE RULE_import_from (and_ 4) [
      tok MP_TOKEN_KW_FROM; rule RULE_import_from_2; tok MP_TOKEN_KW_IMPORT;
      rule RULE_import_from_3];
  DEF_RULE_NC RULE_import_from_2 (or_ 2) [rule RULE_dotted_name; rule RULE_import_from_2b];
  DEF_RULE_NC RULE_import_from_2b (and_ident 2) [
      rule RULE_one_or_more_period_or_ellipsis; opt_rule RULE_dotted_name];
  DEF_RULE_NC RULE_import_from_3 (or_ 3) [
      tok MP_TOKEN_OP_STAR; rule RULE_import_as_names_paren; rule RULE_import_as_names];
  DEF_RULE_NC RULE_import_as_names_paren (and_ident 3) [
      tok MP_TOKEN_DEL_PAREN_OPEN; rule RULE_import_as_names; tok MP_TOKEN_DEL_PAREN_CLOSE];
  DEF_RULE_NC RULE_one_or_more_period_or_ellipsis one_or_more [rule RULE_period_or_ellipsis];
  DEF_RULE_NC RULE_period_or_ellipsis (or_ 2) [tok MP_TOKEN_DEL_PERIOD; tok MP_TOKEN_ELLIPSIS];
  DEF_RULE_NC RULE_import_as_name (and_ 2) [tok MP_TOKEN_NAME; opt_rule RULE_as_name];
  DEF_RULE_NC RULE_dotted_as_name (and_ident 2) [rule RULE_dotted_name; opt_rule RULE_as_name];
  DEF_RULE_NC RULE_as_name (and_ident 2) [tok MP_TOKEN_KW_AS; tok MP_TOKEN_NAME];
  DEF_RULE_NC RULE_import_as_names list_with_end [rule RULE_import_as_name; tok MP_TOKEN_DEL_COMMA];
  DEF_RULE_NC RULE_dotted_as_names list_ [rule RULE_dotted_as_name; tok MP_TOKEN_DEL_COMMA];
  DEF_RULE_NC RULE_dotted_name list_ [tok MP_TOKEN_NAME; tok MP_TOKEN_DEL_PERIOD];
  DEF_RULE RULE_global_stmt (and_ 2) [tok MP_TOKEN_KW_GLOBAL; rule RULE_name_list];
  DEF_RULE RULE_nonlocal_stmt (and_ 2) [tok MP_TOKEN_KW_NONLOCAL; rule RULE_name_list];
  DEF_RULE_NC RULE_name_list list_ [tok MP_TOKEN_NAME; tok MP_TOKEN_DEL_COMMA];
  DEF_RULE RULE_assert_stmt (and_ 3) [
      tok MP_TOKEN_KW_ASSERT; rule RULE_test; opt_rule RULE_assert_stmt_extra];
  DEF_RULE_NC RULE_assert_stmt_extra (and_ident 2) [tok MP_TOKEN_DEL_COMMA; rule RULE_test]].

(** Compound statements. *)
Definition grammar_compound : list rule_def := [
  DEF_RULE_NC RULE_compound_stmt (or_ 8) [
      rule RULE_if_stmt; rule RULE_while_stmt; rule RULE_for_stmt; rule RULE_try_stmt;
      rule RULE_with_stmt; rule RULE_funcdef; rule RULE_classdef; rule RULE_decorated];
  DEF_RULE RULE_if_stmt (and_ 6) [
      tok MP_TOKEN_KW_IF; rule RULE_namedexpr_test; tok MP_TOKEN_DEL_COLON; rule RULE_suite;
      opt_rule RULE_if_stmt_elif_list; opt_rule RULE_else_stmt];
  DEF_RULE_NC RULE_if_stmt_elif_list one_or_more [rule RULE_if_stmt_elif];
  DEF_RULE_NC RULE_if_stmt_elif (and_ 4) [
      tok MP_TOKEN_KW_ELIF; rule RULE_namedexpr_test; tok MP_TOKEN_DEL_COLON; rule RULE_suite];
  DEF_RULE RULE_while_stmt (and_ 5) [
      tok MP_TOKEN_KW_WHILE; rule RULE_namedexpr_test; tok MP_TOKEN_DEL_COLON; rule RULE_suite;
      opt_rule RULE_else_stmt];
  DEF_RULE RULE_for_stmt (and_ 7) [
      tok MP_TOKEN_KW_FOR; rule RULE_exprlist; tok MP_TOKEN_KW_IN; rule RULE_testlist;
      tok MP_TOKEN_DEL_COLON; rule RULE_suite; opt_rule RULE_else_stmt];
  DEF_RULE RULE_try_stmt (and_ 4) [
      tok MP_TOKEN_KW_TRY; tok MP_TOKEN_DEL_COLON; rule RULE_suite; rule RULE_try_stmt_2];
  DEF_RULE_NC RULE_try_stmt_2 (or_ 2) [rule RULE_try_stmt_except_and_more; rule RULE_try_stmt_finally];
  DEF_RULE_NC RULE_try_stmt_except_and_more (and_ident 3) [
      rule RULE_try_stmt_except_list; opt_rule RULE_else_stmt; opt_rule RULE_try_stmt_finally];
  DEF_RULE_NC RULE_try_stmt_except (and_ 4) [
      tok MP_TOKEN_KW_EXCEPT; opt_rule RULE_try_stmt_as_name; tok MP_TOKEN_DEL_COLON;
      rule RULE_suite];
  DEF_RULE_NC RULE_try_stmt_as_name (and_ident 2) [rule RULE_test; opt_rule RULE_as_name];
  DEF_RULE_NC RULE_try_stmt_except_list one_or_more [rule RULE_try_stmt_except];
  DEF_RULE_NC RULE_try_stmt_finally (and_ 3) [
      tok MP_TOKEN_KW_FINALLY; tok MP_TOKEN_DEL_COLON; rule RULE_suite];
  DEF_RULE_NC RULE_else_stmt (and_ident 3) [tok MP_TOKEN_KW_ELSE; tok MP_TOKEN_DEL_COLON; rule RULE_suite];
  DEF_RULE RULE_with_stmt (and_ 4) [
      tok MP_TOKEN_KW_WITH; rule RULE_with_stmt_list; tok MP_TOKEN_DEL_COLON; rule RULE_suite];
  DEF_RULE_NC RULE_with_stmt_list list_ [rule RULE_with_item; tok MP_TOKEN_DEL_COMMA];
  DEF_RULE_NC RULE_with_item (and_ident 2) [rule RULE_test; opt_rule RULE_with_item_as];
  DEF_RULE_NC RULE_with_item_as (and_ident 2) [tok MP_TOKEN_KW_AS; rule RULE_expr];
  DEF_RULE_NC RULE_suite (or_ 2) [rule RULE_suite_block; rule RULE_simple_stmt];
  DEF_RULE_NC RULE_suite_block (and_ident 4) [
      tok MP_TOKEN_NEWLINE; tok MP_TOKEN_INDENT; rule RULE_suite_block_stmts; tok MP_TOKEN_DEDENT];
  DEF_RULE RULE_suite_block_stmts one_or_more [rule RULE_stmt]].

(** Conditional expressions and operators. *)
Definition grammar_tests : list rule_def := [
  DEF_RULE_NC RULE_namedexpr_test (or_ 1) [rule RULE_test];
  DEF_RULE_NC RULE_test (or_ 2) [rule RULE_lambdef; rule RULE_test_if_expr];
  DEF_RULE RULE_test_if_expr (and_ident 2) [rule RULE_or_test; opt_rule RULE_test_if_else];
  DEF_RULE_NC RULE_test_if_else (and_ 4) [
      tok MP_TOKEN_KW_IF; rule RULE_or_test; tok MP_TOKEN_KW_ELSE; rule RULE_test];
  DEF_RULE_NC RULE_test_nocond (or_ 2) [rule RULE_lambdef_nocond; rule RULE_or_test];
  DEF_RULE RULE_lambdef (and_blank 4) [
      tok MP_TOKEN_KW_LAMBDA; opt_rule RULE_varargslist; tok MP_TOKEN_DEL_COLON; rule RULE_test];
  DEF_RULE RULE_lambdef_nocond (and_blank 4) [
      tok MP_TOKEN_KW_LAMBDA; opt_rule RULE_varargslist; tok MP_TOKEN_DEL_COLON;
      rule RULE_test_nocond];
  DEF_RULE RULE_or_test list_ [rule RULE_and_test; tok MP_TOKEN_KW_OR];
  DEF_RULE RULE_and_test list_ [rule RULE_not_test; tok MP_TOKEN_KW_AND];
  DEF_RULE_NC RULE_not_test (or_ 2) [rule RULE_not_test_2; rule RULE_comparison];
  DEF_RULE RULE_not_test_2 (and_ 2) [tok MP_TOKEN_KW_NOT; rule RULE_not_test];
  DEF_RULE RULE_comparison list_ [rule RULE_expr; rule RULE_comp_op];
  DEF_RULE_NC RULE_comp_op (or_ 9) [
      tok MP_TOKEN_OP_LESS; tok MP_TOKEN_OP_MORE; tok MP_TOKEN_OP_DBL_EQUAL;
      tok MP_TOKEN_OP_LESS_EQUAL; tok MP_TOKEN_OP_MORE_EQUAL; tok MP_TOKEN_OP_NOT_EQUAL;
      tok MP_TOKEN_KW_IN; rule RULE_comp_op_not_in; rule RULE_comp_op_is];
  DEF_RULE_NC RULE_comp_op_not_in (and_ 2) [tok MP_TOKEN_KW_NOT; tok MP_TOKEN_KW_IN];
  DEF_RULE_NC RULE_comp_op_is (and_ 2) [tok MP_TOKEN_KW_IS; opt_rule RULE_comp_op_is_not];
  DEF_RULE_NC RULE_comp_op_is_not (and_ 1) [tok MP_TOKEN_KW_NOT];
  DEF_RULE RULE_star_expr (and_ 2) [tok MP_TOKEN_OP_STAR; rule RULE_expr];
  DEF_RULE RULE_expr list_ [rule RULE_xor_expr; tok MP_TOKEN_OP_PIPE];
  DEF_RULE RULE_xor_expr list_ [rule RULE_and_expr; tok MP_TOKEN_OP_CARET];
  DEF_RULE RULE_and_expr list_ [rule RULE_shift_expr; tok MP_TOKEN_OP_AMPERSAND];
  DEF_RULE RULE_shift_expr list_ [rule RULE_arith_expr; rule RULE_shift_op];
  DEF_RULE_NC RULE_shift_op (or_ 2) [tok MP_TOKEN_OP_DBL_LESS; tok MP_TOKEN_OP_DBL_MORE];
  DEF_RULE RULE_arith_expr list_ [rule RULE_term; rule RULE_arith_op];
  DEF_RULE_NC RULE_arith_op (or_ 2) [tok MP_TOKEN_OP_PLUS; tok MP_TOKEN_OP_MINUS];
  DEF_RULE RULE_term list_ [rule RULE_factor; rule RULE_term_op];
  DEF_RULE_NC RULE_term_op (or_ 5) [
      tok MP_TOKEN_OP_STAR; tok MP_TOKEN_OP_AT; tok MP_TOKEN_OP_SLASH; tok MP_TOKEN_OP_PERCENT;
      tok MP_TOKEN_OP_DBL_SLASH];
  DEF_RULE_NC RULE_factor (or_ 2) [rule RULE_factor_2; rule RULE_power];
  DEF_RULE RULE_factor_2 (and_ident 2) [rule RULE_factor_op; rule RULE_factor];
  DEF_RULE_NC RULE_factor_op (or_ 3) [tok MP_TOKEN_OP_PLUS; tok MP_TOKEN_OP_MINUS; tok MP_TOKEN_OP_TILDE];
  DEF_RULE RULE_power (and_ident 2) [rule RULE_atom_expr; opt_rule RULE_power_dbl_star];
  DEF_RULE_NC RULE_atom_expr (or_ 1) [rule RULE_atom_expr_normal];
  DEF_RULE RULE_atom_expr_normal (and_ident 2) [rule RULE_atom; opt_rule RULE_atom_expr_trailers];
  DEF_RULE_NC RULE_atom_expr_trailers one_or_more [rule RULE_trailer];
  DEF_RULE_NC RULE_power_dbl_star (and_ident 2) [tok MP_TOKEN_OP_DBL_STAR; rule RULE_factor]].

(** Atoms, trailers and subscripts. *)
Definition grammar_atoms : list rule_def := [
  DEF_RULE_NC RULE_atom (or_ 12) [
      tok MP_TOKEN_NAME; tok MP_TOKEN_INTEGER; tok MP_TOKEN_FLOAT_OR_IMAG; tok MP_TOKEN_STRING;
      tok MP_TOKEN_BYTES; tok MP_TOKEN_ELLIPSIS; tok MP_TOKEN_KW_NONE; tok MP_TOKEN_KW_TRUE;
      tok MP_TOKEN_KW_FALSE; rule RULE_atom_paren; rule RULE_atom_bracket; rule RULE_atom_brace];
  DEF_RULE RULE_atom_paren (and_ 3) [
      tok MP_TOKEN_DEL_PAREN_OPEN; opt_rule RULE_atom_2b; tok MP_TOKEN_DEL_PAREN_CLOSE];
  DEF_RULE_NC RULE_atom_2b (or_ 2) [rule RULE_yield_expr; rule RULE_testlist_comp];
  DEF_RULE RULE_atom_bracket (and_ 3) [
      tok MP_TOKEN_DEL_BRACKET_OPEN; opt_rule RULE_testlist_comp; tok MP_TOKEN_DEL_BRACKET_CLOSE];
  DEF_RULE RULE_atom_brace (and_ 3) [
      tok MP_TOKEN_DEL_BRACE_OPEN; opt_rule RULE_dictorsetmaker; tok MP_TOKEN_DEL_BRACE_CLOSE];
  DEF_RULE_NC RULE_testlist_comp (and_ident 2) [rule RULE_testlist_comp_2; opt_rule RULE_testlist_comp_3];
  DEF_RULE_NC RULE_testlist_comp_2 (or_ 2) [rule RULE_star_expr; rule RULE_namedexpr_test];
  DEF_RULE_NC RULE_testlist_comp_3 (or_ 2) [rule RULE_comp_for; rule RULE_testlist_comp_3b];
  DEF_RULE_NC RULE_testlist_comp_3b (and_ident 2) [tok MP_TOKEN_DEL_COMMA; opt_rule RULE_testlist_comp_3c];
  DEF_RULE_NC RULE_testlist_comp_3c list_with_end [rule RULE_testlist_comp_2; tok MP_TOKEN_DEL_COMMA];
  DEF_RULE_NC RULE_trailer (or_ 3) [
      rule RULE_trailer_paren; rule RULE_trailer_bracket; rule RULE_trailer_period];
  DEF_RULE RULE_trailer_paren (and_ 3) [
      tok MP_TOKEN_DEL_PAREN_OPEN; opt_rule RULE_arglist; tok MP_TOKEN_DEL_PAREN_CLOSE];
  DEF_RULE RULE_trailer_bracket (and_ 3) [
      tok MP_TOKEN_DEL_BRACKET_OPEN; rule RULE_subscriptlist; tok MP_TOKEN_DEL_BRACKET_CLOSE];
  DEF_RULE RULE_trailer_period (and_ 2) [tok MP_TOKEN_DEL_PERIOD; tok MP_TOKEN_NAME];
  DEF_RULE RULE_subscriptlist list_with_end [rule RULE_subscript; tok MP_TOKEN_DEL_COMMA];
  DEF_RULE_NC RULE_subscript (or_ 2) [rule RULE_subscript_3; rule RULE_subscript_2];
  DEF_RULE RULE_subscript_2 (and_ident 2) [rule RULE_test; opt_rule RULE_subscript_3];
  DEF_RULE RULE_subscript_3 (and_ 2) [tok MP_TOKEN_DEL_COLON; opt_rule RULE_subscript_3b];
  DEF_RULE_NC RULE_subscript_3b (or_ 2) [rule RULE_subscript_3c; rule RULE_subscript_3d];
  DEF_RULE_NC RULE_subscript_3c (and_ 2) [tok MP_TOKEN_DEL_COLON; opt_rule RULE_test];
  DEF_RULE_NC RULE_subscript_3d (and_ident 2) [rule RULE_test; opt_rule RULE_sliceop];
  DEF_RULE_NC RULE_sliceop (and_ 2) [tok MP_TOKEN_DEL_COLON; opt_rule RULE_test]].

(** Lists, arguments, classes, comprehensions and [yield]. *)
Definition grammar_lists : list rule_def := [
  DEF_RULE_NC RULE_exprlist list_with_end [rule RULE_exprlist_2; tok MP_TOKEN_DEL_COMMA];
  DEF_RULE_NC RULE_exprlist_2 (or_ 2) [rule RULE_star_expr; rule RULE_expr];
  DEF_RULE RULE_testlist list_with_end [rule RULE_test; tok MP_TOKEN_DEL_COMMA];
  DEF_RULE_NC RULE_dictorsetmaker (and_ident 2) [
      rule RULE_dictorsetmaker_item; opt_rule RULE_dictorsetmaker_tail];
  DEF_RULE RULE_dictorsetmaker_item (and_ident 2) [rule RULE_test; opt_rule RULE_generic_colon_test];
  DEF_RULE_NC RULE_dictorsetmaker_tail (or_ 2) [rule RULE_comp_for; rule RULE_dictorsetmaker_list];
  DEF_RULE_NC RULE_dictorsetmaker_list (and_ 2) [tok MP_TOKEN_DEL_COMMA; opt_rule RULE_dictorsetmaker_list2];
  DEF_RULE_NC RULE_dictorsetmaker_list2 list_with_end [rule RULE_dictorsetmaker_item; tok MP_TOKEN_DEL_COMMA];
  DEF_RULE RULE_classdef (and_blank 5) [
      tok MP_TOKEN_KW_CLASS; tok MP_TOKEN_NAME; opt_rule RULE_classdef_2; tok MP_TOKEN_DEL_COLON;
      rule RULE_suite];
  DEF_RULE_NC RULE_classdef_2 (and_ident 3) [
      tok MP_TOKEN_DEL_PAREN_OPEN; opt_rule RULE_arglist; tok MP_TOKEN_DEL_PAREN_CLOSE];
  DEF_RULE_NC RULE_arglist list_with_end [rule RULE_arglist_2; tok MP_TOKEN_DEL_COMMA];
  DEF_RULE_NC RULE_arglist_2 (or_ 3) [rule RULE_arglist_star; rule RULE_arglist_dbl_star; rule RULE_argument];
  DEF_RULE_NC RULE_arglist_star (and_ 2) [tok MP_TOKEN_OP_STAR; rule RULE_test];
  DEF_RULE_NC RULE_arglist_dbl_star (and_ 2) [tok MP_TOKEN_OP_DBL_STAR; rule RULE_test];
  DEF_RULE_NC RULE_argument (and_ident 2) [rule RULE_test; opt_rule RULE_argument_2];
  DEF_RULE_NC RULE_argument_2 (or_ 2) [rule RULE_comp_for; rule RULE_generic_equal_test];
  DEF_RULE_NC RULE_comp_iter (or_ 2) [rule RULE_comp_for; rule RULE_comp_if];
  DEF_RULE_NC RULE_comp_for (and_blank 5) [
      tok MP_TOKEN_KW_FOR; rule RULE_exprlist; tok MP_TOKEN_KW_IN; rule RULE_or_test;
      opt_rule RULE_comp_iter];
  DEF_RULE_NC RULE_comp_if (and_ 3) [tok MP_TOKEN_KW_IF; rule RULE_test_nocond; opt_rule RULE_comp_iter];
  DEF_RULE RULE_yield_expr (and_ 2) [tok MP_TOKEN_KW_YIELD; opt_rule RULE_yield_arg];
  DEF_RULE_NC RULE_yield_arg (or_ 2) [rule RULE_yield_arg_from; rule RULE_testlist];
  DEF_RULE_NC RULE_yield_arg_from (and_ 2) [tok MP_TOKEN_KW_FROM; rule RULE_test]].

Definition grammar : list rule_def := grammar_start ++ grammar_functions ++ grammar_simple ++
  grammar_compound ++ grammar_tests ++ grammar_atoms ++ grammar_lists.

(** ** The tables *)

Definition RULE_ACT_ARG_MASK : Z := 0x0f.
Definition RULE_ACT_KIND_MASK : Z := 0x30.
Definition RULE_ACT_ALLOW_IDENT : Z := 0x40.
Definition RULE_ACT_ADD_BLANK : Z := 0x80.
Definition RULE_ACT_OR : Z := 0x10.
Definition RULE_ACT_AND : Z := 0x20.
Definition RULE_ACT_LIST : Z := 0x30.
Definition RULE_ARG_KIND_MASK : Z := 0xf000.
Definition RULE_ARG_ARG_MASK : Z := 0x0fff.
Definition RULE_ARG_TOK : Z := 0x1000.
Definition RULE_ARG_RULE : Z := 0x2000.
Definition RULE_ARG_OPT_RULE : Z := 0x3000.

Definition rule_act (k : rule_kind) : Z :=
  match k with
  | or_ n => Z.lor RULE_ACT_OR n
  | and_ n => Z.lor RULE_ACT_AND n
  | and_ident n => Z.lor (Z.lor RULE_ACT_AND n) RULE_ACT_ALLOW_IDENT
  | and_blank n => Z.lor (Z.lor RULE_ACT_AND n) RULE_ACT_ADD_BLANK
  | one_or_more => Z.lor RULE_ACT_LIST 2
  | list_ => Z.lor RULE_ACT_LIST 1
  | list_with_end => Z.lor RULE_ACT_LIST 3
  end.

Definition rule_arg_code (a : rule_arg_t) : Z :=
  match a with
  | tok t => Z.lor RULE_ARG_TOK (Z.of_nat (token_code t))
  | rule r => Z.lor RULE_ARG_RULE (Z.of_nat (rule_id r))
  | opt_rule r => Z.lor RULE_ARG_OPT_RULE (Z.of_nat (rule_id r))
  end.

(** The two passes over the header. *)
Definition with_compile_fn : list (rule_t * rule_kind * list rule_arg_t) :=
  omap (fun d => match d with DEF_RULE r k args => Some (r, k, args) | DEF_RULE_NC _ _ _ => None end) grammar.
Definition without_compile_fn : list (rule_t * rule_kind * list rule_arg_t) :=
  omap (fun d => match d with DEF_RULE_NC r k args => Some (r, k, args) | DEF_RULE _ _ _ => None end) grammar.

Definition rule_act_table : list Z := Eval vm_compute in
  map (fun '(r, k, args) => rule_act k) with_compile_fn ++ [0] ++ map (fun '(r, k, args) => rule_act k) without_compile_fn.

Definition rule_arg_combined_table : list Z := Eval vm_compute in
  concat (map (fun '(r, k, args) => map rule_arg_code args) (with_compile_fn ++ without_compile_fn)).

(** The constants [PADi_r] of the second enumeration count the arguments, so the first of a rule is
    the number of arguments before it. *)
Fixpoint rule_arg_offsets (off : Z) (rules : list (rule_t * rule_kind * list rule_arg_t)) : list (rule_t * Z) :=
  match rules with
  | [] => []
  | (r, k, args) :: rules => (r, off) :: rule_arg_offsets (off + Z.of_nat (length args)) rules
  end.
Definition rule_arg_offset : list (rule_t * Z) := rule_arg_offsets 0 (with_compile_fn ++ without_compile_fn).

Definition rule_arg_offset_table : list Z := Eval vm_compute in
  let low8 := map (fun '(r, off) => Z.land off 0xff) rule_arg_offset in
  take (length with_compile_fn) low8 ++ [0] ++ drop (length with_compile_fn) low8.

Definition FIRST_RULE_WITH_OFFSET_ABOVE_255 : Z := Eval vm_compute in
  foldr (fun '(r, off) next => if 0x100 <=? off then Z.of_nat (rule_id r) else next) 0 rule_arg_offset.

(** The pointer into the combined table, as the part of the table from there on. *)
Definition get_rule_arg (r_id : Z) : outcome (list Z) :=
  let! off := rd rule_arg_offset_table r_id in
  let off := if FIRST_RULE_WITH_OFFSET_ABOVE_255 <=? r_id then Z.lor off 0x100 else off in
  Ret (drop (Z.to_nat off) rule_arg_combined_table).

(** ** What the tables hold *)

(** A rule of the grammar by its number. *)
Definition rule_table : list (rule_kind * list rule_arg_t) := Eval vm_compute in
  map (fun '(r, k, args) => (k, args)) with_compile_fn ++ [(or_ 0, [])]
  ++ map (fun '(r, k, args) => (k, args)) without_compile_fn.
Definition entry (r : rule_t) : rule_kind * list rule_arg_t := nth (rule_id r) rule_table (or_ 0, []).
Definition kind_of (r : rule_t) : rule_kind := (entry r).1.
Definition args_of (r : rule_t) : list rule_arg_t := (entry r).2.

(** The number of a rule's arguments, as its kind gives it. *)
Definition args_fit (k : rule_kind) (args : list rule_arg_t) : bool :=
  match k with
  | or_ n => (n =? Z.of_nat (length args)) && forallb (fun a => match a with opt_rule _ => false | _ => true end) args
  | and_ n | and_ident n | and_blank n => (n =? Z.of_nat (length args)) && (0 <? n)
  | one_or_more => match args with [rule _] => true | _ => false end
  | list_ | list_with_end =>
    match args with [tok _; tok _] | [rule _; tok _] | [rule _; rule _] => true | _ => false end
  end.

Definition rule_in_tables (r : rule_t) : bool :=
  bool_decide (rd rule_act_table (Z.of_nat (rule_id r)) = Ret (rule_act (kind_of r)))
  && (rule_act (kind_of r) <? 256) && args_fit (kind_of r) (args_of r)
  && match get_rule_arg (Z.of_nat (rule_id r)) with
     | Ret l => bool_decide (take (length (args_of r)) l = map rule_arg_code (args_of r))
     | _ => false
     end.

Lemma rules_in_tables : forallb rule_in_tables (filter (fun r => r <> RULE_const_object) all_rules) = true.
Proof. by vm_compute. Qed.

Lemma all_rules_elem r : r ∈ all_rules.
Proof. apply list_elem_of_lookup_2 with (rule_id r), all_rules_id. Qed.

(** A statement that has been evaluated for all the rules. *)
Lemma by_rules (P : rule_t -> bool) : forallb P all_rules = true -> forall r, P r = true.
Proof. rewrite List.forallb_forall. intros H r. apply H, list_elem_of_In, all_rules_elem. Qed.

Lemma by_defined_rules (P : rule_t -> bool) : forallb P (filter (fun r => r <> RULE_const_object) all_rules) = true ->
  forall r, r <> RULE_const_object -> P r = true.
Proof.
  rewrite List.forallb_forall. intros H r Hr.
  apply H, list_elem_of_In, list_elem_of_filter. split; [done|apply all_rules_elem].
Qed.

(** The entries of [grammar], each under the number of its rule. *)
Lemma entry_grammar : Forall (fun d => match d with DEF_RULE r k args | DEF_RULE_NC r k args => entry r = (k, args) end) grammar.
Proof. vm_compute. repeat constructor. Qed.
