(* ===== verification/ParseNode.v ===== *)
(** * Parse nodes ([py/parse.h])

    A parse node is a word: nothing, a small integer, an identifier, string or token, or a pointer
    to a node with children.  The model keeps them apart by their constructor, with a pointer as the
    number of a chunk of memory and an offset in it; [word] is the representation, and
    [parse_node_words] shows that the macros of the header, which test the bits of the word,
    tell the constructors apart and give their arguments back. *)

From stdpp Require Import gmap.
From S2P Require Import Prelude MpObj SmallInt Token Grammar StrPrint ObjStr.
Local Open Scope Z_scope.

Definition MP_PARSE_NODE_SMALL_INT : Z := 0x1.
Definition MP_PARSE_NODE_ID : Z := 0x02.
Definition MP_PARSE_NODE_STRING : Z := 0x06.
Definition MP_PARSE_NODE_TOKEN : Z := 0x0a.

Definition node_ptr : Type := nat * Z.

Inductive mp_parse_node_t :=
| MP_PARSE_NODE_NULL
| small_int_node (val : Z)
| leaf_node (kind arg : Z)
| struct_node (pns : node_ptr).

#[export] Instance mp_parse_node_eq_dec : EqDecision mp_parse_node_t.
Proof. solve_decision. Defined.

(** The objects that a node can hold: no long integers are built, and a float is its bits. *)
Inductive const_obj := ObjSmallInt (val : Z) | ObjStr (s : mp_obj_str_t) | ObjFloat (bits : Z).

(** A word of [nodes]: a parse node, or the object of a [RULE_const_object] node. *)
Inductive node_slot := Node (pn : mp_parse_node_t) | Object (o : const_obj).

#[export] Instance const_obj_eq_dec : EqDecision const_obj.
Proof. solve_decision. Defined.
#[export] Instance node_slot_eq_dec : EqDecision node_slot.
Proof. solve_decision. Defined.

Record mp_parse_node_struct_t := mk_node { source_line : Z; kind_num_nodes : Z; nodes : list node_slot }.

#[export] Instance mp_parse_node_struct_eq_dec : EqDecision mp_parse_node_struct_t.
Proof. solve_decision. Defined.

Definition STRUCT_KIND (pns : mp_parse_node_struct_t) : Z := Z.land (kind_num_nodes pns) 0xff.
Definition STRUCT_NUM_NODES (pns : mp_parse_node_struct_t) : Z := Z.shiftr (kind_num_nodes pns) 8.

(** The rule numbers, as the C code uses them. *)
Definition id (r : rule_t) : Z := Z.of_nat (rule_id r).

(** ** The tests of the header *)

Definition IS_NULL (pn : mp_parse_node_t) : bool := bool_decide (pn = MP_PARSE_NODE_NULL).
Definition IS_LEAF (pn : mp_parse_node_t) : bool := match pn with small_int_node _ | leaf_node _ _ => true | _ => false end.
Definition IS_STRUCT (pn : mp_parse_node_t) : bool := match pn with struct_node _ => true | _ => false end.
Definition IS_SMALL_INT (pn : mp_parse_node_t) : bool := match pn with small_int_node _ => true | _ => false end.
Definition IS_ID (pn : mp_parse_node_t) : bool := match pn with leaf_node k _ => k =? MP_PARSE_NODE_ID | _ => false end.
Definition IS_TOKEN_KIND (pn : mp_parse_node_t) (k : mp_token_kind_t) : bool :=
  bool_decide (pn = leaf_node MP_PARSE_NODE_TOKEN (Z.of_nat (token_code k))).

(** The nodes in memory; following a pointer to anything else is undefined. *)
Notation memory := (gmap node_ptr mp_parse_node_struct_t).
Definition deref (m : memory) (p : node_ptr) : outcome mp_parse_node_struct_t :=
  match m !! p with Some pns => Ret pns | None => Undef end.
Definition IS_STRUCT_KIND (m : memory) (pn : mp_parse_node_t) (k : Z) : outcome bool :=
  match pn with
  | struct_node p => let! pns := deref m p in Ret (STRUCT_KIND pns =? k)
  | _ => Ret false
  end.

Definition mp_parse_node_is_const_false (pn : mp_parse_node_t) : bool :=
  IS_TOKEN_KIND pn MP_TOKEN_KW_FALSE || match pn with small_int_node v => v =? 0 | _ => false end.

Definition mp_parse_node_is_const_true (pn : mp_parse_node_t) : bool :=
  IS_TOKEN_KIND pn MP_TOKEN_KW_TRUE || match pn with small_int_node v => negb (v =? 0) | _ => false end.

Definition mp_obj_is_int (o : const_obj) : bool := match o with ObjSmallInt _ => true | _ => false end.

(** The object and whether it is an integer; [None] when the node holds no object. *)
Definition mp_parse_node_get_int_maybe (m : memory) (pn : mp_parse_node_t) : outcome (option const_obj * bool) :=
  match pn with
  | small_int_node v => Ret (Some (ObjSmallInt v), true)
  | struct_node p =>
    let! k := IS_STRUCT_KIND m pn (id RULE_const_object) in
    if k : bool then
      let! pns := deref m p in
      match nodes pns with
      | Object o :: _ => Ret (Some o, mp_obj_is_int o)
      | _ => Undef
      end
    else Ret (None, false)
  | _ => Ret (None, false)
  end.

(** The nodes that [*nodes] and the number returned delimit. *)
Definition mp_parse_node_extract_list (m : memory) (pn : mp_parse_node_t) (pn_kind : Z) : outcome (list node_slot) :=
  match pn with
  | MP_PARSE_NODE_NULL => Ret []
  | struct_node p =>
    let! pns := deref m p in
    if negb (STRUCT_KIND pns =? pn_kind) then Ret [Node pn] else Ret (take (Z.to_nat (STRUCT_NUM_NODES pns)) (nodes pns))
  | _ => Ret [Node pn]
  end.

(** ** Words *)

Definition mp_parse_node_new_small_int (val : Z) : Z := wrap 32 (Z.lor MP_PARSE_NODE_SMALL_INT (Z.shiftl val 1)).
Definition mp_parse_node_new_leaf (kind arg : Z) : Z := wrap 32 (Z.lor kind (Z.shiftl arg 4)).

Definition MP_PARSE_NODE_IS_NULL (w : Z) : bool := w =? 0.
Definition MP_PARSE_NODE_IS_LEAF (w : Z) : bool := negb (Z.land w 3 =? 0).
Definition MP_PARSE_NODE_IS_STRUCT (w : Z) : bool := negb (w =? 0) && (Z.land w 3 =? 0).
Definition MP_PARSE_NODE_IS_SMALL_INT (w : Z) : bool := Z.land w 1 =? MP_PARSE_NODE_SMALL_INT.
Definition MP_PARSE_NODE_IS_ID (w : Z) : bool := Z.land w 0x0f =? MP_PARSE_NODE_ID.
Definition MP_PARSE_NODE_IS_TOKEN_KIND (w : Z) (k : mp_token_kind_t) : bool :=
  w =? Z.lor MP_PARSE_NODE_TOKEN (Z.shiftl (Z.of_nat (token_code k)) 4).
Definition MP_PARSE_NODE_LEAF_KIND (w : Z) : Z := Z.land w 0x0f.
Definition MP_PARSE_NODE_LEAF_ARG (w : Z) : Z := Z.shiftr w 4.
Definition MP_PARSE_NODE_LEAF_SMALL_INT (w : Z) : Z := Z.shiftr (swrap 32 w) 1.

Section Words.
(** The address of a chunk of nodes. *)
Variable chunk_addr : nat -> Z.

Definition word (pn : mp_parse_node_t) : Z :=
  match pn with
  | MP_PARSE_NODE_NULL => 0
  | small_int_node v => mp_parse_node_new_small_int v
  | leaf_node k a => mp_parse_node_new_leaf k a
  | struct_node (c, off) => wrap 32 (chunk_addr c + off)
  end.

(** What fits in a word: 31-bit integers, qstrs and tokens of 28 bits, aligned pointers that are not null. *)
Definition fits (pn : mp_parse_node_t) : Prop :=
  match pn with
  | MP_PARSE_NODE_NULL => True
  | small_int_node v => small v
  | leaf_node k a => k ∈ [MP_PARSE_NODE_ID; MP_PARSE_NODE_STRING; MP_PARSE_NODE_TOKEN] /\ 0 <= a < 2 ^ 28
  | struct_node (c, off) => (4 | chunk_addr c) /\ (4 | off) /\ 0 < chunk_addr c + off < 2 ^ 32
  end.
End Words.

(** ** The macros tell the words apart *)

Lemma word_small v : word (fun _ => 0) (small_int_node v) = (2 * v + 1) mod 2 ^ 32.
Proof.
  unfold word, mp_parse_node_new_small_int, wrap. f_equal.
  rewrite Z.lor_comm. change MP_PARSE_NODE_SMALL_INT with 1. rewrite lor_shiftl_low by lia. lia.
Qed.

Lemma word_leaf k a : 0 <= k < 16 -> 0 <= a < 2 ^ 28 -> mp_parse_node_new_leaf k a = 16 * a + k.
Proof.
  intros Hk Ha. unfold mp_parse_node_new_leaf. rewrite Z.lor_comm, lor_shiftl_low by (by try lia).
  rewrite wrap_small by lia. lia.
Qed.

Lemma token_code_range k : 0 <= Z.of_nat (token_code k) < 95.
Proof. destruct k; cbn; lia. Qed.

Lemma word_token_kind k : Z.lor MP_PARSE_NODE_TOKEN (Z.shiftl (Z.of_nat (token_code k)) 4) = 16 * Z.of_nat (token_code k) + 10.
Proof. rewrite Z.lor_comm, lor_shiftl_low by (unfold MP_PARSE_NODE_TOKEN; lia). unfold MP_PARSE_NODE_TOKEN. lia. Qed.

Lemma leaf_kinds k : k ∈ [MP_PARSE_NODE_ID; MP_PARSE_NODE_STRING; MP_PARSE_NODE_TOKEN] -> k = 2 \/ k = 6 \/ k = 10.
Proof. rewrite !elem_of_cons, elem_of_nil. unfold MP_PARSE_NODE_ID, MP_PARSE_NODE_STRING, MP_PARSE_NODE_TOKEN. lia. Qed.

(** The low bits of each word. *)
Lemma word_tag addr pn : fits addr pn ->
  match pn with
  | MP_PARSE_NODE_NULL => word addr pn = 0
  | small_int_node v => word addr pn = (2 * v + 1) mod 2 ^ 32 /\ swrap 32 (word addr pn) = 2 * v + 1
  | leaf_node k a => word addr pn = 16 * a + k /\ (k = 2 \/ k = 6 \/ k = 10) /\ 0 <= a < 2 ^ 28
  | struct_node (c, off) => word addr pn = addr c + off /\ (4 | word addr pn) /\ 0 < word addr pn
  end.
Proof.
  destruct pn as [|v|k a|[c off]]; cbn [fits].
  - done.
  - intros Hv%small_range. pose proof (word_small v) as E. cbn [word] in *. split; [done|]. rewrite E.
    unfold swrap. change (32 - 1) with 31. zdiv.
  - intros [Hk Ha]. apply leaf_kinds in Hk. cbn [word]. split_and!; [apply word_leaf; lia|done|lia|lia].
  - intros (Hc & Ho & Hr). cbn [word]. rewrite wrap_small by lia. split_and!; [done|by apply Z.divide_add_r|lia].
Qed.

(** A comparison of the bits of a word, decided by arithmetic. *)
Ltac word_bool :=
  lazymatch goal with
  | |- negb ?b = true => apply negb_true_iff; word_bool
  | |- negb ?b = false => apply negb_false_iff; word_bool
  | |- ?a && ?b = true => apply andb_true_intro; split; word_bool
  | |- ?a && ?b = false => apply andb_false_iff; first [left; word_bool|right; word_bool]
  | |- (_ =? _) = true => apply Z.eqb_eq; zdiv
  | |- (_ =? _) = false => apply Z.eqb_neq; zdiv
  end.

(** C34. Every kind of parse node is recognised from its word: each test of the header is true exactly
    of the words of its kind of node, and the macros that take a word apart give back the integer,
    the kind and argument of a leaf, or the pointer.  The nodes are those that fit a word: 31-bit integers, arguments of
    28 bits, pointers to multiples of 4. *)
Theorem parse_node_words addr pn : fits addr pn ->
  let w := word addr pn in
  MP_PARSE_NODE_IS_NULL w = IS_NULL pn /\ MP_PARSE_NODE_IS_LEAF w = IS_LEAF pn /\
  MP_PARSE_NODE_IS_STRUCT w = IS_STRUCT pn /\ MP_PARSE_NODE_IS_SMALL_INT w = IS_SMALL_INT pn /\
  MP_PARSE_NODE_IS_ID w = IS_ID pn /\ (forall k, MP_PARSE_NODE_IS_TOKEN_KIND w k = IS_TOKEN_KIND pn k) /\
  match pn with
  | MP_PARSE_NODE_NULL => w = 0
  | small_int_node v => MP_PARSE_NODE_LEAF_SMALL_INT w = v
  | leaf_node k a => MP_PARSE_NODE_LEAF_KIND w = k /\ MP_PARSE_NODE_LEAF_ARG w = a
  | struct_node (c, off) => w = addr c + off
  end.
Proof.
  intros H. apply word_tag in H. cbn zeta. unfold MP_PARSE_NODE_IS_NULL, MP_PARSE_NODE_IS_LEAF, MP_PARSE_NODE_IS_STRUCT, MP_PARSE_NODE_IS_SMALL_INT,
    MP_PARSE_NODE_IS_ID, MP_PARSE_NODE_LEAF_KIND, MP_PARSE_NODE_LEAF_ARG, MP_PARSE_NODE_LEAF_SMALL_INT.
  change MP_PARSE_NODE_SMALL_INT with 1. change MP_PARSE_NODE_ID with 2.
  rewrite !(land_mask _ 2), !(land_mask _ 1), !(land_mask _ 4), !Z.shiftr_div_pow2 by lia.
  unfold MP_PARSE_NODE_IS_TOKEN_KIND. setoid_rewrite word_token_kind.
  destruct pn as [|v|k a|[c off]]; cbn [IS_LEAF IS_STRUCT IS_SMALL_INT IS_ID].
  - rewrite H. split_and!; try done. intros k. by destruct k.
  - destruct H as [E Es]. rewrite Es, E. change (IS_NULL (small_int_node v)) with false.
    split_and!; try word_bool; [|zdiv]. intros k. pose proof (token_code_range k).
    change (IS_TOKEN_KIND (small_int_node v) k) with false. word_bool.
  - destruct H as (E & Hk & Ha). rewrite E. change (IS_NULL (leaf_node k a)) with false.
    split_and!; try word_bool; [| |zdiv|zdiv].
    + unfold MP_PARSE_NODE_ID. destruct (Z.eqb_spec k 2); word_bool.
    + intros k'. pose proof (token_code_range k'). unfold IS_TOKEN_KIND, MP_PARSE_NODE_TOKEN. case_bool_decide as Hd.
      * injection Hd as -> ->. word_bool.
      * apply Z.eqb_neq. intros E'. apply Hd. f_equal; lia.
  - destruct H as (E & [q H4] & Hp). rewrite <- E. change (IS_NULL (struct_node (c, off))) with false.
    split_and!; try word_bool; [|done]. intros k. pose proof (token_code_range k).
    change (IS_TOKEN_KIND (struct_node (c, off)) k) with false. word_bool.
Qed.

Lemma parse_node_words_witness :
  let w := word (fun c => 4096 * Z.of_nat c) (struct_node (2%nat, 24)) in
  MP_PARSE_NODE_IS_STRUCT w = true /\ MP_PARSE_NODE_IS_LEAF w = false /\ w = 8216.
Proof.
  destruct (parse_node_words (fun c => 4096 * Z.of_nat c) (struct_node (2%nat, 24))) as (_ & H1 & H2 & _ & _ & _ & H3).
  { split_and!; [by exists 2048|by exists 6|lia|lia]. }
  by split_and!.
Defined.
