(* ===== verification/Parser.v ===== *)
(** * The parser ([py/parse.c])

    A machine with two stacks: the rules that are being matched, with the argument each is at, and
    the parse nodes made so far.  Both are arrays that grow; the nodes themselves are in chunks of
    memory that grow in place or are given up for a new one.  The parser sees the lexer through the
    class [TokenSource].  Constant folding, [const] and doc strings are not built in the port; an
    expression statement that is a constant is discarded.

    The fields of [parser_t] that make up the stack of rules are the record [rules_t].  [jmp_buf]s are
    outcomes, and the traceback of a syntax error is left out. *)

From stdpp Require Import gmap.
From S2P Require Import Prelude Malloc Token Qstr Parsenum ObjStr Grammar ParseNode.
Local Open Scope Z_scope.

(** What the parser uses of the lexer: the kind, line and text of the current token, and the next one. *)
Class TokenSource (L : Type) := {
  tok_kind : L -> mp_token_kind_t;
  tok_line : L -> Z;
  tok_text : L -> list Z;
  to_next : L -> outcome L
}.

Inductive mp_parse_input_kind_t := MP_PARSE_SINGLE_INPUT | MP_PARSE_FILE_INPUT | MP_PARSE_EVAL_INPUT.

Definition MICROPY_ALLOC_PARSE_RULE_INIT : Z := 64.
Definition MICROPY_ALLOC_PARSE_RULE_INC : Z := 16.
Definition MICROPY_ALLOC_PARSE_RESULT_INIT : Z := 32.
Definition MICROPY_ALLOC_PARSE_RESULT_INC : Z := 16.
Definition MICROPY_ALLOC_PARSE_CHUNK_INIT : Z := 16.
Definition MICROPY_ALLOC_PARSE_INTERN_STRING_LEN : Z := 10.

(** Sizes on a machine with 32-bit words: the bit fields share a word. *)
Definition sizeof_rule_stack_t : Z := 8.
Definition sizeof_mp_parse_node_t : Z := 4.
Definition sizeof_mp_parse_chunk_t : Z := 8.
Definition sizeof_mp_parse_node_struct_t : Z := 8.

Record rule_stack_t := mk_rule { src_line : Z; rule_num : Z; arg_i : Z }.

Record rules_t := mk_rules { rule_stack_alloc : Z; rule_stack_top : Z; rule_stack : list rule_stack_t }.

(** The size of the data of a chunk and how much of it is in use. *)
Record mp_parse_chunk_t := mk_chunk { chunk_alloc : Z; used : Z }.

Section Parser.
Context {L : Type} {source : TokenSource L}.
Context {byte_heap : Allocator Z} {rule_heap : Allocator rule_stack_t} {node_heap : Allocator mp_parse_node_t}.
(** Whether the heap can grow a chunk of nodes, or of interned strings, to a number of bytes where it is. *)
Variable chunk_grow : nat -> Z -> bool.
Variable qstr_grow : nat -> Z -> bool.
(** The parsing of decimal numbers, to the bits of a float. *)
Variable mp_parse_num_decimal : list Z -> outcome Z.

(** [tree_chunk] is the chain of the chunks that are finished; all chunks, in the order they were made,
    are in [chunks], and the nodes stored in them in [structs]. *)
Record parser_t := mk_parser {
  result_stack_alloc : Z;
  result_stack_top : Z;
  result_stack : list mp_parse_node_t;
  lexer : L;
  tree_chunk : list nat;
  cur_chunk : option nat;
  chunks : list mp_parse_chunk_t;
  structs : memory;
  qstrs : qstr_state
}.
Implicit Types (p : parser_t) (rs : rules_t).

Definition set_results p alloc top l := mk_parser alloc top l (lexer p) (tree_chunk p) (cur_chunk p) (chunks p) (structs p) (qstrs p).
Definition set_lexer p lex := mk_parser (result_stack_alloc p) (result_stack_top p) (result_stack p) lex (tree_chunk p) (cur_chunk p)
  (chunks p) (structs p) (qstrs p).
Definition set_chunks p tree cur cs := mk_parser (result_stack_alloc p) (result_stack_top p) (result_stack p) (lexer p) tree cur cs
  (structs p) (qstrs p).
Definition set_structs p m := mk_parser (result_stack_alloc p) (result_stack_top p) (result_stack p) (lexer p) (tree_chunk p) (cur_chunk p)
  (chunks p) m (qstrs p).
Definition set_qstrs p q := mk_parser (result_stack_alloc p) (result_stack_top p) (result_stack p) (lexer p) (tree_chunk p) (cur_chunk p)
  (chunks p) (structs p) q.

(** ** Memory for the nodes *)

(** Room for [num_bytes] more in the current chunk, which is given up if it cannot grow. *)
Definition current_chunk_room p (num_bytes : Z) : outcome parser_t :=
  match cur_chunk p with
  | None => Ret p
  | Some c =>
    let! chunk := match chunks p !! c with Some chunk => Ret chunk | None => Undef end in
    if chunk_alloc chunk <? wrap 32 (used chunk + num_bytes) then
      if chunk_grow c (wrap 32 (sizeof_mp_parse_chunk_t + chunk_alloc chunk + num_bytes)) then
        Ret (set_chunks p (tree_chunk p) (Some c)
          (<[c := mk_chunk (wrap 32 (chunk_alloc chunk + num_bytes)) (used chunk)]> (chunks p)))
      else
        Ret (set_chunks p (c :: tree_chunk p) None (<[c := mk_chunk (used chunk) (used chunk)]> (chunks p)))
    else Ret p
  end.

(** The current chunk, made if there is none. *)
Definition new_chunk p (num_bytes : Z) : outcome (parser_t * nat) :=
  match cur_chunk p with
  | Some c => Ret (p, c)
  | None =>
    let alloc := if MICROPY_ALLOC_PARSE_CHUNK_INIT <? num_bytes then num_bytes else MICROPY_ALLOC_PARSE_CHUNK_INIT in
    let! _ := m_new (A := Z) 1 (wrap 32 (sizeof_mp_parse_chunk_t + alloc)) in
    let c := length (chunks p) in
    Ret (set_chunks p (tree_chunk p) (Some c) (chunks p ++ [mk_chunk alloc 0]), c)
  end.

Definition parser_alloc p (num_bytes : Z) : outcome (parser_t * node_ptr) :=
  let! p := current_chunk_room p num_bytes in
  let! '(p, c) := new_chunk p num_bytes in
  match chunks p !! c with
  | Some chunk =>
    let p := set_chunks p (tree_chunk p) (cur_chunk p)
      (<[c := mk_chunk (chunk_alloc chunk) (wrap 32 (used chunk + num_bytes))]> (chunks p)) in
    Ret (p, (c, used chunk))
  | None => Undef
  end.

(** The size of a node with [n] children. *)
Definition node_size (n : Z) : Z := wrap 32 (sizeof_mp_parse_node_struct_t + wrap 32 (sizeof_mp_parse_node_t * n)).

(** Writing a node: undefined if it does not fit in its chunk. *)
Definition store_node p (ptr : node_ptr) (pns : mp_parse_node_struct_t) : outcome parser_t :=
  match chunks p !! ptr.1 with
  | Some chunk =>
    if (0 <=? ptr.2) && (ptr.2 + sizeof_mp_parse_node_struct_t + sizeof_mp_parse_node_t * Z.of_nat (length (nodes pns)) <=? chunk_alloc chunk)
    then Ret (set_structs p (<[ptr := pns]> (structs p))) else Undef
  | None => Undef
  end.

(** ** The stack of rules *)

(** The array grows when it is full. *)
Definition rules_room rs : outcome rules_t :=
  if rule_stack_alloc rs <=? rule_stack_top rs then
    let! l := m_renew sizeof_rule_stack_t (rule_stack rs) (wrap 32 (rule_stack_alloc rs + MICROPY_ALLOC_PARSE_RULE_INC)) in
    Ret (mk_rules (wrap 32 (rule_stack_alloc rs + MICROPY_ALLOC_PARSE_RULE_INC)) (rule_stack_top rs) l)
  else Ret rs.

Definition push_rule rs (line r i : Z) : outcome rules_t :=
  let! rs := rules_room rs in
  let! l := wr (rule_stack rs) (rule_stack_top rs) (mk_rule (wrap 24 line) (wrap 8 r) (wrap 32 i)) in
  Ret (mk_rules (rule_stack_alloc rs) (wrap 32 (rule_stack_top rs + 1)) l).

Definition push_rule_from_arg rs (line arg : Z) : outcome rules_t :=
  if (Z.land arg RULE_ARG_KIND_MASK =? RULE_ARG_RULE) || (Z.land arg RULE_ARG_KIND_MASK =? RULE_ARG_OPT_RULE)
  then push_rule rs line (Z.land arg RULE_ARG_ARG_MASK) 0
  else Undef.

Definition pop_rule rs : outcome (rules_t * rule_stack_t) :=
  let top := wrap 32 (rule_stack_top rs - 1) in
  let! r := rd (rule_stack rs) top in
  Ret (mk_rules (rule_stack_alloc rs) top (rule_stack rs), r).

(** ** The stack of results *)

Definition pop_result p : outcome (parser_t * mp_parse_node_t) :=
  if 0 <? result_stack_top p then
    let! pn := rd (result_stack p) (result_stack_top p - 1) in
    Ret (set_results p (result_stack_alloc p) (result_stack_top p - 1) (result_stack p), pn)
  else Undef.

Definition peek_result p (pos : Z) : outcome mp_parse_node_t :=
  if pos <? result_stack_top p then rd (result_stack p) (result_stack_top p - 1 - pos) else Undef.

(** The array grows when it is full. *)
Definition results_room p : outcome parser_t :=
  if result_stack_alloc p <=? result_stack_top p then
    let! l := m_renew sizeof_mp_parse_node_t (result_stack p) (wrap 32 (result_stack_alloc p + MICROPY_ALLOC_PARSE_RESULT_INC)) in
    Ret (set_results p (wrap 32 (result_stack_alloc p + MICROPY_ALLOC_PARSE_RESULT_INC)) (result_stack_top p) l)
  else Ret p.

Definition push_result_node p (pn : mp_parse_node_t) : outcome parser_t :=
  let! p := results_room p in
  let! l := wr (result_stack p) (result_stack_top p) pn in
  Ret (set_results p (result_stack_alloc p) (wrap 32 (result_stack_top p + 1)) l).

(** ** Tokens *)

Definition make_node_const_object p (line : Z) (obj : const_obj) : outcome (parser_t * mp_parse_node_t) :=
  let! '(p, pn) := parser_alloc p (node_size 1) in
  let! p := store_node p pn (mk_node line (Z.lor (id RULE_const_object) (Z.shiftl 1 8)) [Object obj]) in
  Ret (p, struct_node pn).

Definition make_node_const_int p (line : Z) (obj : const_obj) : outcome (parser_t * mp_parse_node_t) :=
  match obj with
  | ObjSmallInt val => Ret (p, small_int_node val)
  | _ => make_node_const_object p line obj
  end.

Definition intern p (s : list Z) : outcome (parser_t * Z) :=
  let '(q, r) := qstr_from_strn qstr_grow s (qstrs p) in
  let! r := r in Ret (set_qstrs p q, r).

(** The node of the current token. *)
Definition token_node p : outcome (parser_t * mp_parse_node_t) :=
  let lex := lexer p in
  match tok_kind lex with
  | MP_TOKEN_NAME => let! '(p, id) := intern p (tok_text lex) in Ret (p, leaf_node MP_PARSE_NODE_ID id)
  | MP_TOKEN_INTEGER =>
    let! o := mp_parse_num_integer (tok_text lex) 0 true in make_node_const_int p (tok_line lex) (ObjSmallInt o)
  | MP_TOKEN_FLOAT_OR_IMAG =>
    let! o := mp_parse_num_decimal (tok_text lex) in make_node_const_object p (tok_line lex) (ObjFloat o)
  | MP_TOKEN_STRING =>
    let! '(p, qst) :=
      if Z.of_nat (length (tok_text lex)) <=? MICROPY_ALLOC_PARSE_INTERN_STRING_LEN then intern p (tok_text lex)
      else let! qst := qstr_find_strn (qstrs p) (tok_text lex) in Ret (p, qst) in
    if negb (qst =? 0) then Ret (p, leaf_node MP_PARSE_NODE_STRING qst)
    else let! o := mp_obj_new_str_copy StrPrint.mp_type_str (tok_text lex) in make_node_const_object p (tok_line lex) (ObjStr o)
  | MP_TOKEN_BYTES =>
    let! o := mp_obj_new_bytes (tok_text lex) in make_node_const_object p (tok_line lex) (ObjStr o)
  | k => Ret (p, leaf_node MP_PARSE_NODE_TOKEN (Z.of_nat (token_code k)))
  end.

(** The rule only matters with [const]. *)
Definition push_result_token p (rule_id : Z) : outcome parser_t :=
  let! '(p, pn) := token_node p in push_result_node p pn.

Definition lexer_to_next p : outcome parser_t := let! lex := to_next (lexer p) in Ret (set_lexer p lex).

(** ** Building nodes *)

(** [nodes[i - 1] = pop_result()] for [i] from [n] down to 1. *)
Fixpoint pop_results (n : nat) p (acc : list mp_parse_node_t) : outcome (parser_t * list mp_parse_node_t) :=
  match n with
  | O => Ret (p, acc)
  | S n => let! '(p, pn) := pop_result p in pop_results n p (pn :: acc)
  end.

(** The node of a rule with [num_args] results. *)
Definition build_node p (line rule_id num_args : Z) : outcome parser_t :=
  let! '(p, pn) := parser_alloc p (node_size num_args) in
  let! '(p, args) := pop_results (Z.to_nat num_args) p [] in
  let! p := store_node p pn (mk_node line (wrap 32 (Z.lor (Z.land rule_id 0xff) (Z.shiftl num_args 8))) (map Node args)) in
  let! p := if rule_id =? id RULE_testlist_comp_3c then push_result_node p (struct_node pn) else Ret p in
  push_result_node p (struct_node pn).

Definition push_result_rule p (line rule_id num_args : Z) : outcome parser_t :=
  if rule_id =? id RULE_atom_paren then
    let! pn := peek_result p 0 in
    if IS_NULL pn then build_node p line rule_id num_args
    else let! k := IS_STRUCT_KIND (structs p) pn (id RULE_testlist_comp) in
         if k : bool then build_node p line rule_id num_args else Ret p
  else if rule_id =? id RULE_testlist_comp then
    if negb (num_args =? 2) then Undef else
    let! pn := peek_result p 0 in
    match pn with
    | struct_node ptr =>
      let! pns := deref (structs p) ptr in
      if STRUCT_KIND pns =? id RULE_testlist_comp_3b then
        let! '(p, _) := pop_result p in build_node p line rule_id (num_args - 1)
      else if STRUCT_KIND pns =? id RULE_testlist_comp_3c then
        let! '(p, _) := pop_result p in
        let! pn' := peek_result p 0 in
        if negb (bool_decide (pn = pn')) then Undef else
        Ret (set_structs p (<[ptr := mk_node (source_line pns)
          (wrap 32 (Z.lor rule_id (Z.shiftl (STRUCT_NUM_NODES pns) 8))) (nodes pns)]> (structs p)))
      else build_node p line rule_id num_args
    | _ => build_node p line rule_id num_args
    end
  else if rule_id =? id RULE_testlist_comp_3c then build_node p line rule_id (num_args + 1)
  else build_node p line rule_id num_args.

(** The exception for the current token. *)
Definition syntax_error {A} p : outcome A :=
  match tok_kind (lexer p) with
  | MP_TOKEN_INDENT | MP_TOKEN_DEDENT_MISMATCH => Raise IndentationError
  | _ => Raise SyntaxError
  end.

(** ** Matched rules *)

(** An expression statement that is only a constant; the test is made for every rule. *)
Definition lonely_constant (input_kind : mp_parse_input_kind_t) p (rule_id : Z) : outcome bool :=
  match input_kind with
  | MP_PARSE_SINGLE_INPUT => Ret false
  | _ =>
    if negb (rule_id =? id RULE_expr_stmt) then Ret false else
    let! pn := peek_result p 0 in
    if negb (IS_NULL pn) then Ret false else
    let! pn := peek_result p 1 in
    if IS_LEAF pn && negb (IS_ID pn) then Ret true else IS_STRUCT_KIND (structs p) pn (id RULE_const_object)
  end.

(** The number of results of an and-rule, and how many are not empty: [x] goes down from [n]. *)
Fixpoint count_args (x : nat) p (rule_arg : list Z) (i num_not_nil : Z) : outcome (Z * Z) :=
  match x with
  | O => Ret (i, num_not_nil)
  | S x =>
    let! a := rd rule_arg (Z.of_nat x) in
    if Z.land a RULE_ARG_KIND_MASK =? RULE_ARG_TOK then
      if Z.land a RULE_ARG_ARG_MASK =? Z.of_nat (token_code MP_TOKEN_NAME) then count_args x p rule_arg (i + 1) (num_not_nil + 1)
      else count_args x p rule_arg i num_not_nil
    else
      let! pn := peek_result p i in
      count_args x p rule_arg (i + 1) (if IS_NULL pn then num_not_nil else num_not_nil + 1)
  end.

(** Pops [n] results and keeps the last one that is not empty. *)
Fixpoint pop_not_nil (n : nat) p (pn : mp_parse_node_t) : outcome (parser_t * mp_parse_node_t) :=
  match n with
  | O => Ret (p, pn)
  | S n => let! '(p, pn2) := pop_result p in pop_not_nil n p (if IS_NULL pn2 then pn else pn2)
  end.

Definition and_matched (input_kind : mp_parse_input_kind_t) p (line rule_id rule_act : Z) (rule_arg : list Z) : outcome parser_t :=
  let n := Z.land rule_act RULE_ACT_ARG_MASK in
  let! lonely := lonely_constant input_kind p rule_id in
  if lonely : bool then
    let! '(p, _) := pop_result p in
    let! '(p, _) := pop_result p in
    push_result_rule p line (id RULE_pass_stmt) 0
  else
    let! '(i, num_not_nil) := count_args (Z.to_nat n) p rule_arg 0 0 in
    if (num_not_nil =? 1) && negb (Z.land rule_act RULE_ACT_ALLOW_IDENT =? 0) then
      let! '(p, pn) := pop_not_nil (Z.to_nat i) p MP_PARSE_NODE_NULL in push_result_node p pn
    else if negb (Z.land rule_act RULE_ACT_ADD_BLANK =? 0) then
      let! p := push_result_node p MP_PARSE_NODE_NULL in push_result_rule p line rule_id (i + 1)
    else push_result_rule p line rule_id i.

(** What a list-rule does when its argument number [i - 1] failed: [inl] whether there was a trailing separator. *)
Inductive list_end := ListFails | ListSyntaxError | ListDone (had_trailing_sep : bool).

Definition list_backtrack (n i : Z) : list_end :=
  if n =? 2 then if i =? 1 then ListFails else ListDone false
  else if i =? 1 then ListFails
  else if Z.land i 1 =? 1 then if n =? 3 then ListDone true else ListSyntaxError
  else ListDone false.

Definition list_matched p (line rule_id n i : Z) (rule_arg : list Z) (had_trailing_sep : bool) : outcome parser_t :=
  if i <? 1 then Undef else
  let i := i - 1 in
  let! token_sep :=
    if Z.land n 1 =? 0 then Ret false
    else let! a := rd rule_arg 1 in Ret (Z.land a RULE_ARG_KIND_MASK =? RULE_ARG_TOK) in
  let i := if token_sep : bool then (i + 1) / 2 else i in
  if i =? 1 then if had_trailing_sep then push_result_rule p line rule_id i else Ret p
  else push_result_rule p line rule_id i.

(** ** The machine *)

(** The stacks and whether the last rule failed. *)
Definition state : Type := rules_t * parser_t * bool.

Definition is_tok (a : Z) : bool := Z.land a RULE_ARG_KIND_MASK =? RULE_ARG_TOK.
Definition tok_matches p (a : Z) : bool := Z.of_nat (token_code (tok_kind (lexer p))) =? Z.land a RULE_ARG_ARG_MASK.

Section Rule.
(** The rule that was popped: its number, line and arguments; [n] is the number of the arguments, or the kind of list. *)
Variables (input_kind : mp_parse_input_kind_t) (rule_id rule_act n line : Z) (rule_arg : list Z).

(** [m] is [n - i]. *)
Fixpoint or_loop (m : nat) rs p (i : Z) : outcome state :=
  match m with
  | O => Ret (rs, p, true)
  | S m =>
    let! a := rd rule_arg i in
    if is_tok a then
      if tok_matches p a then
        let! p := push_result_token p rule_id in
        let! p := lexer_to_next p in Ret (rs, p, false)
      else or_loop m rs p (i + 1)
    else if Z.land a RULE_ARG_KIND_MASK =? RULE_ARG_RULE then
      let! rs := if i + 1 <? n then push_rule rs line rule_id (i + 1) else Ret rs in
      let! rs := push_rule_from_arg rs (tok_line (lexer p)) a in Ret (rs, p, false)
    else Undef
  end.

Definition or_rule rs p (backtrack : bool) (i : Z) : outcome state :=
  if (0 <? i) && negb backtrack then Ret (rs, p, backtrack) else or_loop (Z.to_nat (n - i)) rs p i.

(** The loop [m = n - i] and what follows it. *)
Fixpoint and_loop (m : nat) rs p (i : Z) : outcome state :=
  match m with
  | O => let! p := and_matched input_kind p line rule_id rule_act rule_arg in Ret (rs, p, false)
  | S m =>
    let! a := rd rule_arg i in
    if is_tok a then
      if tok_matches p a then
        let! p := if Z.land a RULE_ARG_ARG_MASK =? Z.of_nat (token_code MP_TOKEN_NAME) then push_result_token p rule_id else Ret p in
        let! p := lexer_to_next p in and_loop m rs p (i + 1)
      else if 0 <? i then syntax_error p else Ret (rs, p, true)
    else
      let! rs := push_rule rs line rule_id (i + 1) in
      let! rs := push_rule_from_arg rs (tok_line (lexer p)) a in Ret (rs, p, false)
  end.

Definition and_rule rs p (backtrack : bool) (i : Z) : outcome state :=
  if backtrack then
    if negb (0 <? i) then Undef else
    let! a := rd rule_arg (i - 1) in
    if Z.land a RULE_ARG_KIND_MASK =? RULE_ARG_OPT_RULE then
      let! p := push_result_node p MP_PARSE_NODE_NULL in and_loop (Z.to_nat (n - i)) rs p i
    else if 1 <? i then syntax_error p else Ret (rs, p, true)
  else and_loop (Z.to_nat (n - i)) rs p i.

(** From the label [list_backtrack] on. *)
Definition list_failed rs p (i : Z) : outcome state :=
  match list_backtrack n i with
  | ListFails => Ret (rs, p, true)
  | ListSyntaxError => syntax_error p
  | ListDone had_trailing_sep =>
    let! p := list_matched p line rule_id n i rule_arg had_trailing_sep in Ret (rs, p, false)
  end.

Fixpoint list_loop (fuel : nat) rs p (i : Z) : outcome state :=
  match fuel with
  | O => OutOfFuel
  | S fuel =>
    let! a := rd rule_arg (Z.land (Z.land i 1) n) in
    if is_tok a then
      if tok_matches p a then
        let! p := if Z.land (Z.land i 1) n =? 0 then push_result_token p rule_id else Ret p in
        let! p := lexer_to_next p in list_loop fuel rs p (wrap 32 (i + 1))
      else list_failed rs p (wrap 32 (i + 1))
    else if Z.land a RULE_ARG_KIND_MASK =? RULE_ARG_RULE then
      let! rs := push_rule rs line rule_id (i + 1) in
      let! rs := push_rule_from_arg rs (tok_line (lexer p)) a in Ret (rs, p, false)
    else Undef
  end.

Definition list_rule (fuel : nat) rs p (backtrack : bool) (i : Z) : outcome state :=
  if backtrack then list_failed rs p i else list_loop fuel rs p i.
End Rule.

(** One round of the main loop. *)
Definition next_rule (fuel : nat) (input_kind : mp_parse_input_kind_t) (s : state) : outcome state :=
  let '(rs, p, backtrack) := s in
  let! '(rs, r) := pop_rule rs in
  let rule_id := rule_num r in
  let! rule_act := rd rule_act_table rule_id in
  let! rule_arg := get_rule_arg rule_id in
  let n := Z.land rule_act RULE_ACT_ARG_MASK in
  let kind := Z.land rule_act RULE_ACT_KIND_MASK in
  if kind =? RULE_ACT_OR then or_rule rule_id n (src_line r) rule_arg rs p backtrack (arg_i r)
  else if kind =? RULE_ACT_AND then and_rule input_kind rule_id rule_act n (src_line r) rule_arg rs p backtrack (arg_i r)
  else if kind =? RULE_ACT_LIST then list_rule rule_id n (src_line r) rule_arg fuel rs p backtrack (arg_i r)
  else Undef.

Fixpoint parse_loop (fuel : nat) (input_kind : mp_parse_input_kind_t) (s : state) : outcome parser_t :=
  match fuel with
  | O => OutOfFuel
  | S fuel =>
    if rule_stack_top s.1.1 =? 0 then Ret s.1.2
    else let! s := next_rule fuel input_kind s in parse_loop fuel input_kind s
  end.

(** ** Parsing *)

Record mp_parse_tree_t := mk_tree { root : mp_parse_node_t; chunk : list nat }.

Definition top_level_rule (input_kind : mp_parse_input_kind_t) : rule_t :=
  match input_kind with
  | MP_PARSE_SINGLE_INPUT => RULE_single_input
  | MP_PARSE_EVAL_INPUT => RULE_eval_input
  | MP_PARSE_FILE_INPUT => RULE_file_input
  end.

(** The chunk that is in use is cut to its size and added to the chain. *)
Definition finish_chunk p : outcome parser_t :=
  match cur_chunk p with
  | None => Ret p
  | Some c =>
    match chunks p !! c with
    | Some chunk => Ret (set_chunks p (c :: tree_chunk p) (Some c) (<[c := mk_chunk (used chunk) (used chunk)]> (chunks p)))
    | None => Undef
    end
  end.

Definition parser_init (lex : L) (q : qstr_state) : outcome (rules_t * parser_t) :=
  let! rules := m_new sizeof_rule_stack_t MICROPY_ALLOC_PARSE_RULE_INIT in
  let! results := m_new sizeof_mp_parse_node_t MICROPY_ALLOC_PARSE_RESULT_INIT in
  Ret (mk_rules MICROPY_ALLOC_PARSE_RULE_INIT 0 rules,
    mk_parser MICROPY_ALLOC_PARSE_RESULT_INIT 0 results lex [] None [] ∅ q).

(** After the main loop: the checks and the root. *)
Definition parse_finish p : outcome (mp_parse_tree_t * parser_t) :=
  let! p := finish_chunk p in
  if negb (bool_decide (tok_kind (lexer p) = MP_TOKEN_END)) || (result_stack_top p =? 0) then syntax_error p else
  if negb (result_stack_top p =? 1) then Undef else
  let! root := rd (result_stack p) 0 in
  Ret (mk_tree root (tree_chunk p), p).

(** The tree, and the parser as it is at the end: the nodes in memory and the interned strings. *)
Definition mp_parse (fuel : nat) (lex : L) (input_kind : mp_parse_input_kind_t) (q : qstr_state) : outcome (mp_parse_tree_t * parser_t) :=
  let! '(rs, p) := parser_init lex q in
  let! rs := push_rule rs (tok_line lex) (id (top_level_rule input_kind)) 0 in
  let! p := parse_loop fuel input_kind (rs, p, false) in
  parse_finish p.

(** [mp_parse_tree_clear]: the chunks that are freed, with their sizes, in order. *)
Fixpoint mp_parse_tree_clear (chunks : list mp_parse_chunk_t) (chain : list nat) : outcome (list (nat * Z)) :=
  match chain with
  | [] => Ret []
  | c :: next =>
    match chunks !! c with
    | Some chunk =>
      let! freed := mp_parse_tree_clear chunks next in Ret ((c, sizeof_mp_parse_chunk_t + chunk_alloc chunk) :: freed)
    | None => Undef
    end
  end.
End Parser.
