(* ===== verification/ParserRef.v ===== *)
(** * The rule stack machine is recursive descent

    [match_rule] is the parser as a recursive function over the grammar: one call for each rule, no
    stack of rules, no backtrack flag, no packed tables.  It calls the same functions to make the
    nodes.  [mp_parse_refines] shows that the machine of [py/parse.c] computes what it computes, unless
    its stack of rules cannot grow. *)

From stdpp Require Import gmap.
From S2P Require Import Prelude Malloc Token Qstr ObjStr Grammar ParseNode Parser.
Local Open Scope Z_scope.

Section Reference.
Context {L : Type} {source : TokenSource L}.
Context {byte_heap : Allocator Z} {rule_heap : Allocator rule_stack_t} {node_heap : Allocator mp_parse_node_t}.
Variable chunk_grow : nat -> Z -> bool.
Variable qstr_grow : nat -> Z -> bool.
Variable mp_parse_num_decimal : list Z -> outcome Z.
Variable input_kind : mp_parse_input_kind_t.
Implicit Types (p : parser_t (L := L)) (rs : rules_t).

Notation push_result_token p r := (push_result_token chunk_grow qstr_grow mp_parse_num_decimal p r).
Notation and_matched p line r act l := (and_matched chunk_grow input_kind p line r act l).
Notation list_matched p line r n i l b := (list_matched chunk_grow p line r n i l b).

Section Calls.
(** The recursive call. *)
Variable call : rule_t -> parser_t (L := L) -> outcome (parser_t (L := L) * bool).

Definition at_token p (t : mp_token_kind_t) : bool := bool_decide (tok_kind (lexer p) = t).

(** The alternatives of an or-rule. *)
Fixpoint or_alts (r : Z) (args : list rule_arg_t) p : outcome (parser_t * bool) :=
  match args with
  | [] => Ret (p, false)
  | tok t :: args =>
    if at_token p t then
      let! p := push_result_token p r in let! p := lexer_to_next p in Ret (p, true)
    else or_alts r args p
  | rule r' :: args => let! '(p, ok) := call r' p in if ok : bool then Ret (p, true) else or_alts r args p
  | opt_rule _ :: _ => Undef
  end.

(** The arguments of an and-rule; [first] until one has matched or was left out. *)
Fixpoint and_args (r : Z) (args : list rule_arg_t) (first : bool) p : outcome (parser_t * bool) :=
  match args with
  | [] => Ret (p, true)
  | tok t :: args =>
    if at_token p t then
      let! p := if bool_decide (t = MP_TOKEN_NAME) then push_result_token p r else Ret p in
      let! p := lexer_to_next p in and_args r args false p
    else if first then Ret (p, false) else syntax_error p
  | rule r' :: args =>
    let! '(p, ok) := call r' p in
    if ok : bool then and_args r args false p else if first then Ret (p, false) else syntax_error p
  | opt_rule r' :: args =>
    let! '(p, ok) := call r' p in
    let! p := if ok : bool then Ret p else push_result_node p MP_PARSE_NODE_NULL in and_args r args false p
  end.

(** The item or separator number [i - 1] of a list is missing. *)
Definition list_stop (r : Z) (n line : Z) (args : list rule_arg_t) p (i : Z) : outcome (parser_t * bool) :=
  match list_backtrack n i with
  | ListFails => Ret (p, false)
  | ListSyntaxError => syntax_error p
  | ListDone sep => let! p := list_matched p line r n i (map rule_arg_code args) sep in Ret (p, true)
  end.

(** Items and separators from number [i] on. *)
Fixpoint list_items (fuel : nat) (r n line : Z) (args : list rule_arg_t) p (i : Z) : outcome (parser_t * bool) :=
  match fuel with
  | O => OutOfFuel
  | S fuel =>
    let next := wrap 32 (i + 1) in
    match args !! Z.to_nat (Z.land (Z.land i 1) n) with
    | Some (tok t) =>
      if at_token p t then
        let! p := if Z.land (Z.land i 1) n =? 0 then push_result_token p r else Ret p in
        let! p := lexer_to_next p in list_items fuel r n line args p next
      else list_stop r n line args p next
    | Some (rule r') =>
      let! '(p, ok) := call r' p in
      if ok : bool then list_items fuel r n line args p next else list_stop r n line args p next
    | _ => Undef
    end
  end.
End Calls.

(** Whether the rule matches at the current token, and the parser after it. *)
Fixpoint match_rule (fuel : nat) (r : rule_t) p : outcome (parser_t * bool) :=
  match fuel with
  | O => OutOfFuel
  | S fuel =>
    let line := wrap 24 (tok_line (lexer p)) in
    let args := args_of r in
    match kind_of r with
    | or_ _ => or_alts (match_rule fuel) (id r) args p
    | and_ _ | and_ident _ | and_blank _ =>
      let! '(p, ok) := and_args (match_rule fuel) (id r) args true p in
      if ok : bool then
        let! p := and_matched p line (id r) (rule_act (kind_of r)) (map rule_arg_code args) in Ret (p, true)
      else Ret (p, false)
    | list_ => list_items (match_rule fuel) fuel (id r) 1 line args p 0
    | one_or_more => list_items (match_rule fuel) fuel (id r) 2 line args p 0
    | list_with_end => list_items (match_rule fuel) fuel (id r) 3 line args p 0
    end
  end.

Definition recursive_parse (fuel : nat) (lex : L) (q : qstr_state) : outcome (mp_parse_tree_t * parser_t) :=
  let! '(_, p) := parser_init lex q in
  let! '(p, _) := match_rule fuel (top_level_rule input_kind) p in
  parse_finish p.
End Reference.

(** ** The tables, as the machine reads them *)

(** The action byte gives back the kind, and all rules that are arguments have entries. *)
Definition act_decodes (r : rule_t) : bool :=
  let act := rule_act (kind_of r) in
  let n := Z.land act RULE_ACT_ARG_MASK in
  let kind := Z.land act RULE_ACT_KIND_MASK in
  match kind_of r with
  | or_ _ => (n =? Z.of_nat (length (args_of r))) && (kind =? RULE_ACT_OR)
  | and_ _ | and_ident _ | and_blank _ => (n =? Z.of_nat (length (args_of r))) && (kind =? RULE_ACT_AND)
  | list_ => (n =? 1) && (kind =? RULE_ACT_LIST)
  | one_or_more => (n =? 2) && (kind =? RULE_ACT_LIST)
  | list_with_end => (n =? 3) && (kind =? RULE_ACT_LIST)
  end
  && forallb (fun a => match a with tok _ => true | rule r | opt_rule r => negb (bool_decide (r = RULE_const_object)) end) (args_of r)
  && (Z.of_nat (length (args_of r)) <? 15).

Lemma acts_decode r : r <> RULE_const_object -> act_decodes r = true.
Proof. revert r. apply by_defined_rules. by vm_compute. Qed.

Lemma id_range r : 0 <= id r < 256.
Proof. unfold id. destruct r; cbn; lia. Qed.

Lemma id_inj r1 r2 : id r1 = id r2 -> r1 = r2.
Proof. unfold id. intros E. apply (inj rule_id). lia. Qed.

Lemma arg_code_kind a : Z.land (rule_arg_code a) RULE_ARG_KIND_MASK =
  match a with tok _ => RULE_ARG_TOK | rule _ => RULE_ARG_RULE | opt_rule _ => RULE_ARG_OPT_RULE end.
Proof. destruct a as [t|r|r]; [by destruct t|by destruct r..]. Qed.

Lemma arg_code_arg a : Z.land (rule_arg_code a) RULE_ARG_ARG_MASK =
  match a with tok t => Z.of_nat (token_code t) | rule r | opt_rule r => id r end.
Proof. destruct a as [t|r|r]; [by destruct t|by destruct r..]. Qed.

(** The arguments are at the start of [l]. *)
Definition holds_args (l : list Z) (args : list rule_arg_t) : Prop :=
  forall i a, args !! i = Some a -> rd l (Z.of_nat i) = Ret (rule_arg_code a).

Lemma rule_tables r : r <> RULE_const_object ->
  rd rule_act_table (id r) = Ret (rule_act (kind_of r)) /\
  exists l, get_rule_arg (id r) = Ret l /\ holds_args l (args_of r) /\ args_fit (kind_of r) (args_of r) = true.
Proof.
  intros Hr. pose proof (by_defined_rules _ rules_in_tables r Hr) as H. unfold rule_in_tables in H.
  rewrite !andb_true_iff in H. destruct H as [[[H1%bool_decide_eq_true _] H2] H3].
  split; [exact H1|]. unfold id. destruct (get_rule_arg _) as [l| | |]; try done. exists l. apply bool_decide_eq_true in H3.
  split_and!; [done| |done]. intros i a Ha. apply rd_Ret; [lia|]. rewrite Nat2Z.id.
  rewrite <- (lookup_take_lt l (length (args_of r))) by (by apply lookup_lt_Some in Ha). rewrite H3.
  by rewrite list_lookup_fmap, Ha.
Qed.

Lemma line_wrap z : wrap 24 (wrap 24 z) = wrap 24 z.
Proof. apply wrap_small, wrap_range. lia. Qed.

Lemma holds_map args : holds_args (map rule_arg_code args) args.
Proof. intros i a Ha. apply rd_Ret; [lia|]. by rewrite Nat2Z.id, list_lookup_fmap, Ha. Qed.

(** ** The stack of rules *)

Section Rules.
Context {rule_heap : Allocator rule_stack_t}.
Hypothesis rule_heap_small : forall n, m_renew_ok (A := rule_stack_t) n = true -> n < 2 ^ 28.
Implicit Types (rs : rules_t).

(** The rules on the stack, the top first. *)
Definition live rs : list rule_stack_t := reverse (take (Z.to_nat (rule_stack_top rs)) (rule_stack rs)).

Record rules_wf rs : Prop := {
  rw_alloc : Z.of_nat (length (rule_stack rs)) = rule_stack_alloc rs;
  rw_top : 0 <= rule_stack_top rs <= rule_stack_alloc rs;
  rw_small : rule_stack_alloc rs < 2 ^ 25
}.

Lemma live_empty rs : rules_wf rs -> rule_stack_top rs = 0 <-> live rs = [].
Proof.
  intros [H1 H2 H3]. unfold live. split; [intros ->; by rewrite Z2Nat.inj_0, take_0|].
  intros E. apply (f_equal length) in E. autorewrite with lens in E. lia.
Qed.

Lemma live_length rs : rules_wf rs -> Z.of_nat (length (live rs)) = rule_stack_top rs.
Proof. intros [H1 H2 H3]. unfold live. lens. Qed.

Lemma rules_room_ok rs : rules_wf rs -> rules_room rs = Raise MemoryError \/
  exists rs', rules_room rs = Ret rs' /\ rules_wf rs' /\ live rs' = live rs /\ rule_stack_top rs' < rule_stack_alloc rs'.
Proof.
  intros [H1 H2 H3]. unfold rules_room.
  destruct (Z.leb_spec (rule_stack_alloc rs) (rule_stack_top rs)) as [Hge|]; [|right; exists rs; split_and!; [done|by split|done|lia]].
  unfold m_renew, m_realloc, MICROPY_ALLOC_PARSE_RULE_INC, sizeof_rule_stack_t.
  rewrite !(wrap_small 32 (_ + 16)), wrap_small by lia. rewrite (proj2 (Z.eqb_neq _ _)) by lia.
  replace (8 * (rule_stack_alloc rs + 16) / 8) with (rule_stack_alloc rs + 16) by (rewrite Z.mul_comm, Z.div_mul; lia).
  rewrite (proj2 (Nat.leb_gt _ _)) by lia.
  destruct (m_renew_ok _) eqn:E; [|by left]. apply rule_heap_small in E. right. eexists. split; [reflexivity|].
  split_and!; [split; cbn; [lens|lia|lia]| |cbn; lia]. unfold live. cbn. f_equal. apply take_app_le. lia.
Qed.

Lemma push_rule_ok rs line r i : rules_wf rs ->
  push_rule rs line r i = Raise MemoryError \/
  exists rs', push_rule rs line r i = Ret rs' /\ rules_wf rs' /\ live rs' = mk_rule (wrap 24 line) (wrap 8 r) (wrap 32 i) :: live rs.
Proof.
  intros Hw. unfold push_rule. destruct (rules_room_ok rs Hw) as [->|(rs1 & -> & [H1 H2 H3] & <- & Hlt)]; [by left|right]. cbn [obind].
  rewrite wr_Ret by lia. cbn [obind]. eexists. split; [reflexivity|]. rewrite wrap_small by lia. split; [split; cbn; [lens|lia|lia]|].
  unfold live. cbn [rule_stack_top rule_stack]. replace (Z.to_nat (rule_stack_top rs1 + 1)) with (S (Z.to_nat (rule_stack_top rs1))) by lia.
  erewrite take_S_r by (apply list_lookup_insert_eq; lia). rewrite take_insert_ge by lia. by rewrite reverse_snoc.
Qed.

Lemma pop_rule_ok rs e K : rules_wf rs -> live rs = e :: K ->
  exists rs', pop_rule rs = Ret (rs', e) /\ rules_wf rs' /\ live rs' = K.
Proof.
  intros Hw El. pose proof (live_length rs Hw) as Hn. rewrite El in Hn. cbn [length] in Hn. destruct Hw as [H1 H2 H3]. unfold pop_rule.
  rewrite wrap_small by lia. destruct (rd_in_bounds (rule_stack rs) (rule_stack_top rs - 1)) as (x & E & Ex); [lia|]. rewrite E. cbn [obind].
  unfold live in El. replace (Z.to_nat (rule_stack_top rs)) with (S (Z.to_nat (rule_stack_top rs - 1))) in El by lia.
  rewrite (take_S_r _ _ _ Ex), reverse_snoc in El. injection El as -> <-.
  eexists. split; [reflexivity|]. split; [split; cbn; lia|done].
Qed.

Lemma push_from_arg_ok rs line a r : rules_wf rs -> (a = rule r \/ a = opt_rule r) ->
  push_rule_from_arg rs line (rule_arg_code a) = Raise MemoryError \/
  exists rs', push_rule_from_arg rs line (rule_arg_code a) = Ret rs' /\ rules_wf rs' /\ live rs' = mk_rule (wrap 24 line) (id r) 0 :: live rs.
Proof.
  intros Hw Ha. unfold push_rule_from_arg. rewrite arg_code_kind, arg_code_arg.
  pose proof (id_range r). destruct (push_rule_ok rs line (id r) 0 Hw) as [E|(rs' & E & H1 & H2)].
  - left. destruct Ha as [-> | ->]; cbn; done.
  - right. exists rs'. rewrite (wrap_small 8) in H2 by lia. destruct Ha as [-> | ->]; cbn; done.
Qed.
End Rules.

(** ** The simulation *)

Section Simulation.
Context {L : Type} {source : TokenSource L}.
Context {byte_heap : Allocator Z} {rule_heap : Allocator rule_stack_t} {node_heap : Allocator mp_parse_node_t}.
Variable chunk_grow : nat -> Z -> bool.
Variable qstr_grow : nat -> Z -> bool.
Variable mp_parse_num_decimal : list Z -> outcome Z.
Variable input_kind : mp_parse_input_kind_t.
Hypothesis rule_heap_small : forall n, m_renew_ok (A := rule_stack_t) n = true -> n < 2 ^ 28.
Implicit Types (p : parser_t (L := L)) (rs : rules_t) (s : state (L := L)).

Notation parse_loop m s := (parse_loop chunk_grow qstr_grow mp_parse_num_decimal m input_kind s).
Notation next_rule m s := (next_rule chunk_grow qstr_grow mp_parse_num_decimal m input_kind s).
Notation list_loop r n line l m rs p i := (list_loop chunk_grow qstr_grow mp_parse_num_decimal r n line l m rs p i).
Notation match_rule := (match_rule chunk_grow qstr_grow mp_parse_num_decimal input_kind).

(** The main loop from [s] ends with [o], whatever the fuel, if it is enough. *)
Definition runs s (o : outcome (parser_t (L := L))) : Prop := exists m, forall m', (m <= m')%nat -> parse_loop m' s = o.

(** From [s] the machine gets to where the stack of rules is [K] and the last rule matched as [res] says, or
    ends as [res] does, or runs out of memory for the stack of rules. *)
Definition reaches (K : list rule_stack_t) s (res : outcome (parser_t * bool)) : Prop :=
  runs s (Raise MemoryError) \/
  match res with
  | Ret (p', ok) => exists rs', rules_wf rs' /\ live rs' = K /\ forall o, runs (rs', p', negb ok) o -> runs s o
  | Raise e => runs s (Raise e)
  | Undef => runs s Undef
  | OutOfFuel => True
  end.

(** The same when the machine is in the middle of a round that ends as [x]. *)
Definition round_reaches (K : list rule_stack_t) (x : outcome (state (L := L))) (res : outcome (parser_t * bool)) : Prop :=
  match x with
  | Ret s => reaches K s res
  | Raise e => res = Raise e \/ e = MemoryError
  | Undef => res = Undef
  | OutOfFuel => res = OutOfFuel
  end.

Lemma list_loop_mono r n line l m m' rs p i x : list_loop r n line l m rs p i = x -> x <> OutOfFuel -> (m <= m')%nat ->
  list_loop r n line l m' rs p i = x.
Proof.
  revert m' p i. induction m as [|m IH]; intros m' p i; [cbn; congruence|]. destruct m' as [|m']; [lia|].
  intros E Hx Hm. cbn [Parser.list_loop] in *. destruct (rd l _) as [a| | |]; cbn [obind] in *; try done.
  destruct (is_tok a); [|done]. destruct (tok_matches p a); [|done].
  destruct (if Z.land (Z.land i 1) n =? 0 then _ else _) as [p1| | |]; cbn [obind] in *; try done.
  destruct (lexer_to_next p1) as [p2| | |]; cbn [obind] in *; try done. apply IH; [done|done|lia].
Qed.

Lemma next_rule_mono m m' s x : next_rule m s = x -> x <> OutOfFuel -> (m <= m')%nat -> next_rule m' s = x.
Proof.
  destruct s as [[rs p] bt]. unfold Parser.next_rule. intros E Hx Hm.
  destruct (pop_rule rs) as [[rs1 r]| | |]; cbn [obind] in *; try done.
  destruct (rd rule_act_table _); cbn [obind] in *; try done. destruct (get_rule_arg _); cbn [obind] in *; try done.
  destruct (_ =? RULE_ACT_OR); [done|]. destruct (_ =? RULE_ACT_AND); [done|]. destruct (_ =? RULE_ACT_LIST); [|done].
  unfold list_rule in *. destruct bt; [done|]. by apply list_loop_mono with m.
Qed.

Lemma runs_step s o m : rule_stack_top s.1.1 <> 0 ->
  match next_rule m s with Ret s' => runs s' o | Raise e => o = Raise e | Undef => o = Undef | OutOfFuel => False end -> runs s o.
Proof.
  intros Ht H. destruct (next_rule m s) as [s'|e| |] eqn:E; [destruct H as [k H]; exists (S (m + k))|exists (S m)|exists (S m)|done];
    intros [|m'] Hm; try lia; cbn [Parser.parse_loop]; rewrite (proj2 (Z.eqb_neq _ _)) by done;
    (rewrite (next_rule_mono m m' _ _ E) by (try done; lia)); [apply H; lia|done|done].
Qed.

(** Running one round. *)
Lemma reaches_round e K rs p bt m res : rules_wf rs -> live rs = e :: K ->
  round_reaches K (next_rule m (rs, p, bt)) res -> reaches K (rs, p, bt) res.
Proof.
  intros Hw El H.
  assert (Ht : rule_stack_top rs <> 0).
  { intros E. apply live_empty in E; [|done]. congruence. }
  assert (Hstep := fun o => runs_step (rs, p, bt) o m Ht). unfold round_reaches in H. unfold reaches.
  destruct (next_rule m (rs, p, bt)) as [s'|e'| |]; cbn in Hstep.
  - destruct H as [H|H]; [left; by apply Hstep|right]. destruct res as [[p' ok]|e'| |]; [|by apply Hstep..|done].
    destruct H as (rs' & H1 & H2 & H3). exists rs'. split_and!; [done|done|]. intros o Ho. by apply Hstep, H3.
  - destruct H as [-> | ->]; [right|left]; by apply Hstep.
  - subst res. right. by apply Hstep.
  - subst res. by right.
Qed.

Lemma reaches_here K rs p ok : rules_wf rs -> live rs = K -> reaches K (rs, p, negb ok) (Ret (p, ok)).
Proof. intros Hw El. right. exists rs. by split_and!. Qed.

Lemma matched_here K rs p : rules_wf rs -> live rs = K -> reaches K (rs, p, false) (Ret (p, true)).
Proof. apply (reaches_here K rs p true). Qed.
Lemma failed_here K rs p : rules_wf rs -> live rs = K -> reaches K (rs, p, true) (Ret (p, false)).
Proof. apply (reaches_here K rs p false). Qed.

Lemma reaches_bind K K' s res f : reaches K s res ->
  (forall rs p ok, res = Ret (p, ok) -> rules_wf rs -> live rs = K -> reaches K' (rs, p, negb ok) (f (p, ok))) ->
  reaches K' s (obind res f).
Proof.
  intros [H|H] Hf; [by left|]. destruct res as [[p ok]|e| |]; cbn [obind]; [|by right..].
  destruct H as (rs & Hw & El & Hr). destruct (Hf rs p ok eq_refl Hw El) as [H|H]; [left; by apply Hr|right].
  destruct (f (p, ok)) as [[p' ok']|e| |]; [|by apply Hr..|done].
  destruct H as (rs' & H1 & H2 & H3). exists rs'. split_and!; [done|done|]. intros o Ho. by apply Hr, H3.
Qed.

(** The rule on the top of the stack, with the tables that the round looks up. *)
Lemma next_rule_at l K rs p bt r line i m : r <> RULE_const_object -> get_rule_arg (id r) = Ret l -> rules_wf rs ->
  live rs = mk_rule line (id r) i :: K ->
  exists rs', rules_wf rs' /\ live rs' = K /\
  next_rule m (rs, p, bt) =
    let n := Z.of_nat (length (args_of r)) in
    match kind_of r with
    | or_ _ => or_rule chunk_grow qstr_grow mp_parse_num_decimal (id r) n line l rs' p bt i
    | and_ _ | and_ident _ | and_blank _ =>
      and_rule chunk_grow qstr_grow mp_parse_num_decimal input_kind (id r) (rule_act (kind_of r)) n line l rs' p bt i
    | list_ => list_rule chunk_grow qstr_grow mp_parse_num_decimal (id r) 1 line l m rs' p bt i
    | one_or_more => list_rule chunk_grow qstr_grow mp_parse_num_decimal (id r) 2 line l m rs' p bt i
    | list_with_end => list_rule chunk_grow qstr_grow mp_parse_num_decimal (id r) 3 line l m rs' p bt i
    end.
Proof.
  intros Hr Earg Hw El. destruct (pop_rule_ok rs _ K Hw El) as (rs' & E & Hw' & El').
  destruct (rule_tables r Hr) as (Eact & _). exists rs'. split_and!; [done|done|].
  pose proof (acts_decode r Hr) as Hd. unfold act_decodes in Hd. apply andb_true_iff in Hd as [Hd _]. apply andb_true_iff in Hd as [Hd _].
  unfold Parser.next_rule. rewrite E. cbn [obind rule_num]. rewrite Eact. cbn [obind]. rewrite Earg. cbn [obind src_line arg_i].
  destruct (kind_of r); apply andb_true_iff in Hd as [->%Z.eqb_eq ->%Z.eqb_eq]; done.
Qed.

Section Round.
Variable call : rule_t -> parser_t (L := L) -> outcome (parser_t (L := L) * bool).
Hypothesis call_reaches : forall r p rs K, r <> RULE_const_object -> rules_wf rs ->
  live rs = mk_rule (wrap 24 (tok_line (lexer p))) (id r) 0 :: K -> reaches K (rs, p, false) (call r p).
(** The rule of the round. *)
Variables (r : rule_t) (line : Z) (l : list Z).
Hypothesis r_defined : r <> RULE_const_object.
Hypothesis line_fits : wrap 24 line = line.
Hypothesis args_read : get_rule_arg (id r) = Ret l.
Hypothesis args_at : holds_args l (args_of r).
Let n := Z.of_nat (length (args_of r)).

Lemma args_defined a r' : a ∈ args_of r -> a = rule r' \/ a = opt_rule r' -> r' <> RULE_const_object.
Proof.
  pose proof (acts_decode r r_defined) as Hd. unfold act_decodes in Hd. apply andb_true_iff in Hd as [Hd _].
  apply andb_true_iff in Hd as [_ Hd]. rewrite List.forallb_forall in Hd. intros Ha%list_elem_of_In%Hd Hr.
  destruct Hr as [-> | ->]; apply negb_true_iff, bool_decide_eq_false in Ha; done.
Qed.

Lemma args_short : n < 15.
Proof. pose proof (acts_decode r r_defined) as Hd. unfold act_decodes in Hd. rewrite !andb_true_iff in Hd. subst n. lia. Qed.

(** The rule of an argument is pushed: the machine gets to where [call] does, and goes on from there. *)
Lemma child_reaches K K' rs p a r' f : rules_wf rs -> live rs = K -> a ∈ args_of r -> a = rule r' \/ a = opt_rule r' ->
  (forall rs p ok, rules_wf rs -> live rs = K -> reaches K' (rs, p, negb ok) (f (p, ok))) ->
  round_reaches K' (let! rs := push_rule_from_arg rs (tok_line (lexer p)) (rule_arg_code a) in Ret (rs, p, false)) (obind (call r' p) f).
Proof.
  intros Hw El Ha Hr Hf. destruct (push_from_arg_ok rule_heap_small rs (tok_line (lexer p)) a r' Hw Hr) as [->|(rs' & -> & Hw' & El')]; [by right|].
  cbn. eapply reaches_bind; [|intros ??? _; by apply Hf]. rewrite El in El'. apply call_reaches; [by eapply args_defined|done|done].
Qed.

(** The rule itself is pushed again first. *)
Lemma saved_child_reaches K rs p a r' i f : rules_wf rs -> live rs = K -> a ∈ args_of r -> a = rule r' \/ a = opt_rule r' ->
  (forall rs p ok, rules_wf rs -> live rs = mk_rule line (id r) (wrap 32 (i + 1)) :: K -> reaches K (rs, p, negb ok) (f (p, ok))) ->
  round_reaches K (let! rs := push_rule rs line (id r) (i + 1) in
    let! rs := push_rule_from_arg rs (tok_line (lexer p)) (rule_arg_code a) in Ret (rs, p, false)) (obind (call r' p) f).
Proof.
  intros Hw El Ha Hr Hf. pose proof (id_range r).
  destruct (push_rule_ok rule_heap_small rs line (id r) (i + 1) Hw) as [->|(rs1 & -> & Hw1 & El1)]; [by right|]. cbn [obind].
  rewrite line_fits, (wrap_small 8), El in El1 by lia. by eapply child_reaches.
Qed.

Lemma tok_matches_at p t : tok_matches p (rule_arg_code (tok t)) = at_token p t.
Proof.
  unfold tok_matches, at_token. rewrite arg_code_arg. case_bool_decide as Hd; [subst; apply Z.eqb_refl|].
  apply Z.eqb_neq. intros E. apply Hd, (inj token_code). lia.
Qed.

Lemma token_is_name t : (Z.land (rule_arg_code (tok t)) RULE_ARG_ARG_MASK =? Z.of_nat (token_code MP_TOKEN_NAME)) = bool_decide (t = MP_TOKEN_NAME).
Proof. rewrite arg_code_arg. by destruct t. Qed.

(** The argument of number [length pre]. *)
Lemma arg_read pre a args : args_of r = pre ++ a :: args -> rd l (Z.of_nat (length pre)) = Ret (rule_arg_code a) /\ a ∈ args_of r.
Proof.
  intros E. assert (H : args_of r !! length pre = Some a) by (rewrite E; apply list_lookup_middle; done).
  split; [by apply args_at|by eapply list_elem_of_lookup_2].
Qed.

(** ** Or-rules *)

Lemma or_reaches args : kind_of r = or_ n -> forall pre rs p K, args_of r = pre ++ args -> rules_wf rs -> live rs = K ->
  round_reaches K (or_loop chunk_grow qstr_grow mp_parse_num_decimal (id r) n line l (length args) rs p (Z.of_nat (length pre)))
    (or_alts chunk_grow qstr_grow mp_parse_num_decimal call (id r) args p).
Proof.
  intros Hk. induction args as [|a args IH]; intros pre rs p K E Hw El; [by apply failed_here|].
  destruct (arg_read pre a args E) as [Ea Hin]. cbn [or_loop or_alts length]. rewrite Ea. cbn [obind].
  assert (E' : args_of r = (pre ++ [a]) ++ args) by (by rewrite <- app_assoc).
  assert (Ei : Z.of_nat (length pre) + 1 = Z.of_nat (length (pre ++ [a]))) by lens.
  unfold is_tok. rewrite arg_code_kind. destruct a as [t|r'|r']; cbn [Z.eqb].
  - change (RULE_ARG_TOK =? RULE_ARG_TOK) with true. cbn iota. rewrite tok_matches_at. destruct (at_token p t); [|rewrite Ei; by apply IH].
    destruct (Parser.push_result_token _ _ _ _ _) as [p1|e| |]; cbn; [|by left|done|done].
    destruct (lexer_to_next p1) as [p2|e| |]; cbn; [by apply matched_here|by left|done|done].
  - change (RULE_ARG_RULE =? RULE_ARG_TOK) with false. change (RULE_ARG_RULE =? RULE_ARG_RULE) with true. cbn iota.
    destruct (Z.ltb_spec (Z.of_nat (length pre) + 1) n) as [Hlt|Hge].
    + apply saved_child_reaches; [done|done|done|by left|]. intros rs1 p1 ok Hw1 El1.
      pose proof args_short. rewrite wrap_small in El1 by lia. eapply (reaches_round _ K _ _ _ 0); [done|exact El1|].
      destruct (next_rule_at l K rs1 p1 (negb ok) r line _ 0 r_defined args_read Hw1 El1) as (rs2 & Hw2 & El2 & ->).
      rewrite Hk. cbn zeta. unfold or_rule. rewrite (proj2 (Z.ltb_lt _ _)) by lia.
      destruct ok; cbn [negb andb]; [by apply matched_here|].
      replace (Z.to_nat (Z.of_nat (length (args_of r)) - (Z.of_nat (length pre) + 1))) with (length args) by (rewrite E; lens).
      rewrite Ei. by apply IH.
    + cbn [obind]. eapply child_reaches; [done|done|done|by left|]. intros rs1 p1 ok Hw1 El1.
      assert (args = []) as -> by (destruct args; [done|exfalso; subst n; rewrite E in Hge; autorewrite with lens in Hge; lia]).
      cbn [or_alts]. destruct ok; [by apply matched_here|by apply failed_here].
  - exfalso. destruct (rule_tables r r_defined) as (_ & l' & _ & _ & Hfit). rewrite Hk in Hfit. cbn in Hfit.
    apply andb_true_iff in Hfit as [_ Hfit]. rewrite List.forallb_forall in Hfit. by apply list_elem_of_In, Hfit in Hin.
Qed.

(** ** And-rules *)

Lemma count_args_holds l1 l2 args m p i k : holds_args l1 args -> holds_args l2 args -> (m <= length args)%nat ->
  count_args m p l1 i k = count_args m p l2 i k.
Proof.
  intros H1 H2. revert i k. induction m as [|m IH]; intros i k Hm; [done|]. cbn [count_args].
  destruct (lookup_lt_is_Some_2 args m) as [a Ha]; [lia|]. rewrite (H1 _ _ Ha), (H2 _ _ Ha). cbn [obind].
  destruct (_ =? RULE_ARG_TOK); [destruct (_ =? _); apply IH; lia|]. destruct (peek_result p i); cbn [obind]; [apply IH; lia|done..].
Qed.

Lemma act_args : match kind_of r with
  | or_ _ | one_or_more | list_ | list_with_end => True
  | _ => Z.land (rule_act (kind_of r)) RULE_ACT_ARG_MASK = n
  end.
Proof.
  pose proof (acts_decode r r_defined) as Hd. unfold act_decodes in Hd. rewrite !andb_true_iff in Hd. destruct Hd as [[Hd _] _].
  subst n. destruct (kind_of r); [done|..|done|done|done]; apply andb_true_iff in Hd as [Hd _]; lia.
Qed.

(** The arguments are only read, up to their number. *)
Lemma and_matched_args p : match kind_of r with or_ _ | one_or_more | list_ | list_with_end => False | _ => True end ->
  and_matched chunk_grow input_kind p line (id r) (rule_act (kind_of r)) l =
  and_matched chunk_grow input_kind p line (id r) (rule_act (kind_of r)) (map rule_arg_code (args_of r)).
Proof.
  intros Hk. assert (En : Z.land (rule_act (kind_of r)) RULE_ACT_ARG_MASK = n) by (pose proof act_args; by destruct (kind_of r)).
  unfold and_matched. rewrite En. destruct (lonely_constant _ _ _) as [[]| | |]; cbn [obind]; [done| |done..].
  rewrite (count_args_holds l (map rule_arg_code (args_of r)) (args_of r)); [done|done|apply holds_map|subst n; lia].
Qed.

Definition and_result (res : parser_t (L := L) * bool) : outcome (parser_t * bool) :=
  let '(p, ok) := res in
  if ok : bool then
    let! p := and_matched chunk_grow input_kind p line (id r) (rule_act (kind_of r)) (map rule_arg_code (args_of r)) in Ret (p, true)
  else Ret (p, false).

Lemma syntax_error_raises p : exists e, forall A, syntax_error (A := A) p = Raise e.
Proof. unfold syntax_error. destruct (tok_kind (lexer p)); by eexists. Qed.

Lemma round_syntax_error K p (f : parser_t (L := L) * bool -> _) : round_reaches K (syntax_error p) (obind (syntax_error p) f).
Proof. destruct (syntax_error_raises p) as [e He]. rewrite !He. by left. Qed.

Notation and_args args first p := (and_args chunk_grow qstr_grow mp_parse_num_decimal call (id r) args first p).
Notation and_loop m rs p i := (and_loop chunk_grow qstr_grow mp_parse_num_decimal input_kind (id r) (rule_act (kind_of r)) line l m rs p i).

(** What an and-rule does after the rule of an argument. *)
Definition and_after (a : rule_arg_t) (args : list rule_arg_t) (first : bool) (res : parser_t (L := L) * bool) : outcome (parser_t * bool) :=
  let '(p, ok) := res in
  match a with
  | opt_rule _ => let! p := if ok : bool then Ret p else push_result_node p MP_PARSE_NODE_NULL in and_args args false p
  | _ => if ok : bool then and_args args false p else if first then Ret (p, false) else syntax_error p
  end.

Lemma and_resumes a args pre K rs p ok r' :
  match kind_of r with or_ _ | one_or_more | list_ | list_with_end => False | _ => True end ->
  args_of r = pre ++ a :: args -> a = rule r' \/ a = opt_rule r' ->
  (forall rs p, rules_wf rs -> live rs = K ->
    round_reaches K (and_loop (length args) rs p (Z.of_nat (length (pre ++ [a])))) (obind (and_args args false p) and_result)) ->
  rules_wf rs -> live rs = mk_rule line (id r) (wrap 32 (Z.of_nat (length pre) + 1)) :: K ->
  reaches K (rs, p, negb ok) (obind (and_after a args (Z.of_nat (length pre) <? 1) (p, ok)) and_result).
Proof.
  intros Hk E Ha IH Hw El. pose proof args_short as Hn.
  assert (Ei : Z.of_nat (length pre) + 1 = Z.of_nat (length (pre ++ [a]))) by lens.
  assert (En : n - Z.of_nat (length (pre ++ [a])) = Z.of_nat (length args)) by (subst n; rewrite E; lens).
  assert (Hlt : Z.of_nat (length pre) < n) by (subst n; rewrite E; lens).
  rewrite wrap_small, Ei in El by lia. eapply (reaches_round _ K _ _ _ 0); [done|exact El|].
  destruct (next_rule_at l K rs p (negb ok) r line _ 0 r_defined args_read Hw El) as (rs2 & Hw2 & El2 & ->).
  set (x := and_rule chunk_grow qstr_grow mp_parse_num_decimal input_kind (id r) (rule_act (kind_of r)) n line l rs2 p (negb ok) (Z.of_nat (length (pre ++ [a])))).
  assert (Hx : round_reaches K x (obind (and_after a args (Z.of_nat (length pre) <? 1) (p, ok)) and_result)); [|subst x; by destruct (kind_of r)].
  subst x. unfold and_rule, and_after. rewrite En, Nat2Z.id. destruct ok; cbn [negb].
  { destruct Ha as [-> | ->]; by apply IH. }
  rewrite (proj2 (Z.ltb_lt _ _)) by lia. cbn [negb]. rewrite <- Ei, Z.add_simpl_r, Ei.
  destruct (arg_read pre a args E) as [-> _]. cbn [obind]. rewrite arg_code_kind. destruct Ha as [-> | ->].
  - change (RULE_ARG_RULE =? RULE_ARG_OPT_RULE) with false. cbn iota.
    replace (1 <? Z.of_nat (length (pre ++ [rule r']))) with (negb (Z.of_nat (length pre) <? 1)) by (rewrite <- Ei; lia).
    destruct (Z.of_nat (length pre) <? 1); [by apply failed_here|apply round_syntax_error].
  - change (RULE_ARG_OPT_RULE =? RULE_ARG_OPT_RULE) with true. cbn iota. rewrite obind_assoc.
    destruct (push_result_node p _) as [p1|e| |]; cbn [obind]; [by apply IH|by left|done|done].
Qed.

Lemma and_reaches args : match kind_of r with or_ _ | one_or_more | list_ | list_with_end => False | _ => True end ->
  forall pre rs p K, args_of r = pre ++ args -> rules_wf rs -> live rs = K ->
  round_reaches K (and_loop (length args) rs p (Z.of_nat (length pre)))
    (obind (and_args args (Z.of_nat (length pre) <? 1) p) and_result).
Proof.
  intros Hk. induction args as [|a args IH]; intros pre rs p K E Hw El.
  { cbn [Parser.and_loop ParserRef.and_args length obind and_result]. rewrite and_matched_args by done.
    destruct (and_matched _ _ _ _ _ _ _) as [p1|e| |]; cbn; [by apply matched_here|by left|done|done]. }
  destruct (arg_read pre a args E) as [Ea Hin]. cbn [Parser.and_loop ParserRef.and_args length]. rewrite Ea. cbn [obind].
  assert (E' : args_of r = (pre ++ [a]) ++ args) by (by rewrite <- app_assoc).
  assert (Ei : Z.of_nat (length pre) + 1 = Z.of_nat (length (pre ++ [a]))) by lens.
  assert (Ef : (Z.of_nat (length (pre ++ [a])) <? 1) = false) by (rewrite <- Ei; lia).
  assert (Hrest : forall rs p, rules_wf rs -> live rs = K ->
    round_reaches K (and_loop (length args) rs p (Z.of_nat (length (pre ++ [a])))) (obind (and_args args false p) and_result)).
  { intros rs1 p1 Hw1 El1. rewrite <- Ef. by apply IH. }
  unfold is_tok. rewrite arg_code_kind. destruct a as [t|r'|r'].
  - change (RULE_ARG_TOK =? RULE_ARG_TOK) with true. cbn iota. rewrite tok_matches_at, token_is_name.
    replace (0 <? Z.of_nat (length pre)) with (negb (Z.of_nat (length pre) <? 1)) by lia.
    destruct (at_token p t); [|destruct (Z.of_nat (length pre) <? 1); [by apply failed_here|apply round_syntax_error]].
    destruct (if bool_decide _ then _ else _) as [p1|e| |]; cbn [obind]; [|by left|done|done].
    destruct (lexer_to_next p1) as [p2|e| |]; cbn [obind]; [|by left|done|done]. rewrite Ei. by apply Hrest.
  - change (RULE_ARG_RULE =? RULE_ARG_TOK) with false. cbn iota. rewrite obind_assoc.
    apply saved_child_reaches; [done|done|done|by left|]. intros rs1 p1 ok Hw1 El1.
    by apply (and_resumes (rule r') args pre K rs1 p1 ok r'); [..|left| | |].
  - change (RULE_ARG_OPT_RULE =? RULE_ARG_TOK) with false. cbn iota. rewrite obind_assoc.
    apply saved_child_reaches; [done|done|done|by right|]. intros rs1 p1 ok Hw1 El1.
    by apply (and_resumes (opt_rule r') args pre K rs1 p1 ok r'); [..|right| | |].
Qed.

(** ** List-rules *)

Definition list_kind (N : Z) : Prop :=
  match kind_of r with list_ => N = 1 | one_or_more => N = 2 | list_with_end => N = 3 | _ => False end.

Notation list_items N fuel p i := (list_items chunk_grow qstr_grow mp_parse_num_decimal call fuel (id r) N line (args_of r) p i).

Lemma list_arg N i : list_kind N -> exists a, args_of r !! Z.to_nat (Z.land (Z.land i 1) N) = Some a /\
  rd l (Z.land (Z.land i 1) N) = Ret (rule_arg_code a) /\ a ∈ args_of r /\ match a with opt_rule _ => False | _ => True end.
Proof.
  intros HN. assert (Hi : Z.land i 1 = 0 \/ Z.land i 1 = 1) by (assert (E : Z.land i 1 = i mod 2) by exact (land_mask i 1 ltac:(lia)); rewrite E; zdiv).
  assert (H : exists k a, Z.land (Z.land i 1) N = Z.of_nat k /\ args_of r !! k = Some a /\ match a with opt_rule _ => False | _ => True end).
  { destruct (rule_tables r r_defined) as (_ & l' & _ & _ & Hfit). unfold list_kind in HN.
    destruct (kind_of r); try done; subst N; destruct Hi as [-> | ->]; cbn in Hfit |- *;
      destruct (args_of r) as [|[] [|[] [|]]]; try done; solve [by exists 0%nat; eexists|by exists 1%nat; eexists]. }
  destruct H as (k & a & Ek & Ha & Hopt). exists a. rewrite Ek, Nat2Z.id.
  split_and!; [done|by apply args_at|by eapply list_elem_of_lookup_2|done].
Qed.

Lemma list_matched_args N p i sep : list_kind N ->
  list_matched chunk_grow p line (id r) N i l sep = list_matched chunk_grow p line (id r) N i (map rule_arg_code (args_of r)) sep.
Proof.
  intros HN. unfold list_matched. destruct (i <? 1); [done|]. f_equal. destruct (Z.eqb_spec (Z.land N 1) 0) as [|Hodd]; [done|].
  destruct (list_arg N 1 HN) as (a & Ha & Er & _). 
  assert (H1 : Z.land (Z.land 1 1) N = 1) by (unfold list_kind in HN; destruct (kind_of r); subst; done).
  rewrite H1 in Er, Ha. pose proof (holds_map _ _ _ Ha) as Em. change (Z.of_nat (Z.to_nat 1)) with 1 in Em. by rewrite Er, Em.
Qed.

Lemma list_stop_reaches N rs p i K : list_kind N -> rules_wf rs -> live rs = K ->
  round_reaches K (list_failed chunk_grow (id r) N line l rs p i) (list_stop chunk_grow (id r) N line (args_of r) p i).
Proof.
  intros HN Hw El. unfold list_failed, list_stop. destruct (list_backtrack N i) as [| |sep].
  - by apply failed_here.
  - destruct (syntax_error_raises p) as [e He]. rewrite !He. by left.
  - rewrite list_matched_args by done. destruct (list_matched _ _ _ _ _ _ _ _); cbn; [by apply matched_here|by left|done|done].
Qed.

Lemma list_reaches N fuel rs p i K : list_kind N -> rules_wf rs -> live rs = K ->
  round_reaches K (list_loop (id r) N line l fuel rs p i) (list_items N fuel p i).
Proof.
  intros HN. revert rs p i K. induction fuel as [|fuel IH]; intros rs p i K Hw El; [done|].
  cbn [Parser.list_loop ParserRef.list_items]. destruct (list_arg N i HN) as (a & -> & -> & Hin & Hopt). cbn [obind].
  unfold is_tok. rewrite arg_code_kind. destruct a as [t|r'|r']; [| |done].
  - change (RULE_ARG_TOK =? RULE_ARG_TOK) with true. cbn iota. rewrite tok_matches_at.
    destruct (at_token p t); [|by apply list_stop_reaches].
    destruct (if _ =? 0 then _ else _) as [p1|e| |]; cbn [obind]; [|by left|done|done].
    destruct (lexer_to_next p1) as [p2|e| |]; cbn [obind]; [|by left|done|done]. by apply IH.
  - change (RULE_ARG_RULE =? RULE_ARG_TOK) with false. change (RULE_ARG_RULE =? RULE_ARG_RULE) with true. cbn iota.
    apply saved_child_reaches; [done|done|done|by left|]. intros rs1 p1 ok Hw1 El1.
    eapply (reaches_round _ K _ _ _ fuel); [done|exact El1|].
    destruct (next_rule_at l K rs1 p1 (negb ok) r line _ fuel r_defined args_read Hw1 El1) as (rs2 & Hw2 & El2 & ->).
    assert (Hx : round_reaches K (list_rule chunk_grow qstr_grow mp_parse_num_decimal (id r) N line l fuel rs2 p1 (negb ok) (wrap 32 (i + 1)))
      (if ok then list_items N fuel p1 (wrap 32 (i + 1)) else list_stop chunk_grow (id r) N line (args_of r) p1 (wrap 32 (i + 1)))).
    { unfold list_rule. destruct ok; cbn [negb]; [by apply IH|by apply list_stop_reaches]. }
    unfold list_kind in HN. destruct (kind_of r); try done; subst N; exact Hx.
Qed.
End Round.

(** A rule on the top of the stack is matched as the recursive parser matches it. *)
Lemma match_rule_reaches fuel r p rs K : r <> RULE_const_object -> rules_wf rs ->
  live rs = mk_rule (wrap 24 (tok_line (lexer p))) (id r) 0 :: K -> reaches K (rs, p, false) (match_rule fuel r p).
Proof.
  revert r p rs K. induction fuel as [|fuel IH]; intros r p rs K Hr Hw El; [by right|].
  destruct (rule_tables r Hr) as (_ & l & Er & Hl & _). set (line := wrap 24 (tok_line (lexer p))) in *.
  assert (Hline : wrap 24 line = line) by apply line_wrap.
  eapply (reaches_round _ K _ _ _ fuel); [done|exact El|].
  destruct (next_rule_at l K rs p false r line 0 fuel Hr Er Hw El) as (rs2 & Hw2 & El2 & ->).
  cbn [ParserRef.match_rule]. fold line. cbn zeta.
  pose proof (and_reaches (match_rule fuel) IH r line l Hr Hline Er Hl (args_of r)) as Hand.
  destruct (kind_of r) eqn:Hk; unfold or_rule, and_rule, list_rule; cbn [Z.ltb Z.compare andb]; rewrite ?Z.sub_0_r, ?Nat2Z.id.
  - pose proof (or_reaches (match_rule fuel) IH r line l Hr Hline Er Hl (args_of r)) as Hor.
    destruct (rule_tables r Hr) as (_ & l' & _ & _ & Hfit). rewrite Hk in Hfit. cbn in Hfit. apply andb_true_iff in Hfit as [->%Z.eqb_eq _].
    by apply (Hor Hk []).
  - unfold and_result in Hand. rewrite Hk in Hand. by apply (Hand I []).
  - unfold and_result in Hand. rewrite Hk in Hand. by apply (Hand I []).
  - unfold and_result in Hand. rewrite Hk in Hand. by apply (Hand I []).
  - eapply list_reaches; try done. unfold list_kind. by rewrite Hk.
  - eapply list_reaches; try done. unfold list_kind. by rewrite Hk.
  - eapply list_reaches; try done. unfold list_kind. by rewrite Hk.
Qed.


Lemma m_new_rules : m_new (A := rule_stack_t) sizeof_rule_stack_t MICROPY_ALLOC_PARSE_RULE_INIT = Raise MemoryError \/
  exists l, m_new (A := rule_stack_t) sizeof_rule_stack_t MICROPY_ALLOC_PARSE_RULE_INIT = Ret l /\ length l = 64%nat.
Proof.
  unfold m_new, m_malloc. change (wrap 32 _) with 512. cbn [Z.eqb]. destruct (m_renew_ok 512); [right|by left].
  eexists. split; [done|]. by rewrite length_replicate.
Qed.

Lemma parser_init_rules lex q rs p : parser_init (L := L) lex q = Ret (rs, p) -> rules_wf rs /\ live rs = [].
Proof.
  unfold parser_init. destruct m_new_rules as [->|(l & -> & Hl)]; [done|]. cbn [obind]. intros (x & Hx & E)%obind_Ret_inv. injection E as <- <-.
  split; [split; cbn; rewrite ?Hl; unfold MICROPY_ALLOC_PARSE_RULE_INIT; lia|done].
Qed.

Lemma top_level_rule_defined : top_level_rule input_kind <> RULE_const_object.
Proof. by destruct input_kind. Qed.

Notation mp_parse m lex q := (mp_parse chunk_grow qstr_grow mp_parse_num_decimal m lex input_kind q).
Notation recursive_parse n lex q := (recursive_parse chunk_grow qstr_grow mp_parse_num_decimal input_kind n lex q).

Lemma mp_parse_recursive n lex q : recursive_parse n lex q <> OutOfFuel ->
  exists m o, (forall m', (m <= m')%nat -> mp_parse m' lex q = o) /\ (o = recursive_parse n lex q \/ o = Raise MemoryError).
Proof.
  unfold Parser.mp_parse, ParserRef.recursive_parse.
  destruct (parser_init lex q) as [[rs p]|e| |] eqn:Einit; cbn [obind]; [|by exists 0%nat, (Raise e); auto|by exists 0%nat, Undef; auto|done].
  destruct (parser_init_rules _ _ _ _ Einit) as [Hw El]. intros Hfuel.
  assert (Elex : lexer p = lex).
  { unfold parser_init in Einit. apply obind_Ret_inv in Einit as (? & _ & (? & _ & E)%obind_Ret_inv). by injection E as _ <-. }
  destruct (push_rule_ok rule_heap_small rs (tok_line lex) (id (top_level_rule input_kind)) 0 Hw) as [->|(rs1 & -> & Hw1 & El1)];
    [by exists 0%nat, (Raise MemoryError); auto|]. cbn [obind].
  pose proof (id_range (top_level_rule input_kind)). rewrite (wrap_small 8), El, <- Elex in El1 by lia.
  pose proof (match_rule_reaches n _ p rs1 [] top_level_rule_defined Hw1 El1) as H1.
  assert (Hrun : forall o, runs (rs1, p, false) o -> exists m, forall m', (m <= m')%nat -> obind (parse_loop m' (rs1, p, false)) parse_finish = obind o parse_finish).
  { intros o [m Hm]. exists m. intros m' Hm'. by rewrite Hm. }
  destruct H1 as [H1|H1]; [apply Hrun in H1 as [m Hm]; exists m, (Raise MemoryError); auto|].
  destruct (match_rule n _ p) as [[p' ok]|e| |]; cbn [obind] in *; [|apply Hrun in H1 as [m Hm]; eexists m, _; eauto..|done].
  destruct H1 as (rs' & Hw' & El' & Hr). destruct (Hrun (Ret p')) as [m Hm]; [apply Hr|by eexists m, _; eauto].
  exists 1%nat. intros [|m'] Hm; [lia|]. cbn [Parser.parse_loop fst snd].
  by rewrite (proj2 (live_empty rs' Hw') El').
Qed.
End Simulation.
