(* ===== verification/ParserWf.v ===== *)
(** * The invariant of the parser

    [parser_wf]: the array of results is as long as it says; the chunks of nodes are a partition of
    the memory asked for, with every node inside the part of its chunk that is in use and no two overlapping;
    every chunk is in the chain or is the current one; every node has the number of children that its
    rule gives it and its children are nodes; the interned strings are well formed.  The
    lemmas show that each operation of the parser keeps it, returning or raising an exception. *)

From stdpp Require Import gmap.
From S2P Require Import Prelude Malloc Token SmallInt Parsenum LexerText Qstr QstrSpec ObjStr Grammar ParseNode Parser ParserRef.
Local Open Scope Z_scope.

(** ** Facts about the grammar *)

(** The rules that a rule tries before it has read a token. *)
Definition left_calls (r : rule_t) : list rule_t :=
  match kind_of r with
  | or_ _ => omap (fun a => match a with rule r' => Some r' | _ => None end) (args_of r)
  | _ => match args_of r with (rule r' | opt_rule r') :: _ => [r'] | _ => [] end
  end.

(** The longest chain of left calls from each rule, by iteration. *)
Fixpoint left_depths (n : nat) : list nat :=
  match n with
  | O => map (fun _ => O) all_rules
  | S n =>
    let t := left_depths n in
    map (fun r => foldr (fun r' m => Nat.max m (S (nth (rule_id r') t O))) O (left_calls r)) all_rules
  end.
Definition rank_table : list nat := Eval vm_compute in left_depths 30.
Definition rank (r : rule_t) : nat := nth (rule_id r) rank_table O.

(** The grammar is not left recursive. *)
Definition rank_decreases (r : rule_t) : bool :=
  forallb (fun r' => (rank r' <? rank r)%nat) (left_calls r) && (rank r <? 32)%nat.
Lemma no_left_recursion r : rank_decreases r = true.
Proof. revert r. apply by_rules. by vm_compute. Qed.

(** The arguments that leave a result. *)
Definition pushes (a : rule_arg_t) : bool := match a with tok t => bool_decide (t = MP_TOKEN_NAME) | _ => true end.
Fixpoint pushed (args : list rule_arg_t) : nat :=
  match args with [] => 0 | a :: args => if pushes a then S (pushed args) else pushed args end.

(** The number of children of a node: fixed for an and-rule, at least one for a list, and two for a list with
    no separators; between rules that are separated by rules the separators are children as well. *)
Definition node_arity (r : rule_t) (n : Z) : bool :=
  match kind_of r with
  | or_ _ => false
  | and_blank _ => n =? Z.of_nat (pushed (args_of r)) + 1
  | and_ _ | and_ident _ =>
    if bool_decide (r = RULE_testlist_comp) then 1 <=? n else n =? Z.of_nat (pushed (args_of r))
  | one_or_more => 2 <=? n
  | list_ => match args_of r with [_; rule _] => (3 <=? n) && Z.odd n | _ => 2 <=? n end
  | list_with_end => 1 <=? n
  end.

(** The rules through which the first argument of [testlist_comp] is stolen. *)
Definition steals (r : rule_t) : bool :=
  bool_decide (r = RULE_testlist_comp_3 \/ r = RULE_testlist_comp_3b \/ r = RULE_testlist_comp_3c).

(** ** Integer tokens *)

Lemma get_digit_range c base dig : get_digit c base = Digit dig -> 0 <= dig < base.
Proof.
  unfold get_digit, char_value. destruct (_ && _) eqn:H1.
  - destruct (Z.leb_spec base (c - 48)); [discriminate|]. intros [= <-]. lia.
  - destruct (c =? 95); [discriminate|]. cbn zeta iota. destruct ((97 <=? Z.lor c 32) && (Z.lor c 32 <=? 122)) eqn:H2; [|discriminate].
    destruct (Z.leb_spec base (Z.lor c 32 - (97 - 10))); [discriminate|]. intros [= <-]. lia.
Qed.

Lemma digits_loop_ok str base v : 2 <= base <= 36 -> 0 <= v < 2 ^ 30 ->
  match digits_loop str base v with
  | Ret (Parsed n _) => 0 <= n < 2 ^ 30
  | Ret Overflow => True
  | _ => False
  end.
Proof.
  intros Hb. revert v. induction str as [|c str IH]; intros v Hv; cbn [digits_loop]; [done|].
  destruct (get_digit c base) as [dig| |] eqn:Hd; [|by apply IH|done].
  pose proof (get_digit_range _ _ _ Hd) as Hdig.
  destruct (mul_overflow_ok v base) as (b & -> & Hbo); [apply small_range; lia|apply small_range; lia|].
  cbn [obind]. destruct b; [done|].
  assert (Hs : small (v * base)) by (destruct (decide (small (v * base))); [done|exfalso; by apply Hbo in n]).
  apply small_range in Hs. rewrite sint_ok by lia. cbn [obind]. rewrite MP_SMALL_INT_FITS_ok by lia.
  destruct (Z.leb_spec (- 2 ^ 30) (v * base + dig)), (Z.ltb_spec (v * base + dig) (2 ^ 30)); cbn [andb negb]; try done. apply IH. lia.
Qed.

Lemma mp_parse_num_base_ok str : exists base n, mp_parse_num_base str 0 = Ret (base, n) /\ 2 <= base <= 36.
Proof.
  unfold mp_parse_num_base. destruct (Nat.leb_spec (length str) 1); [by exists 10, 0%nat|].
  destruct str as [|c [|c' str]]; cbn [length] in *; [lia|lia|]. cbn [peek obind drop].
  change (0 =? 0) with true. change (0 =? 16) with false. change (0 =? 8) with false. change (0 =? 2) with false. cbn [orb andb].
  repeat match goal with |- context [if ?b then _ else _] => destruct b end; by eexists _, _.
Qed.

Lemma mp_parse_num_integer_ok str :
  safely [SyntaxError; OverflowError] small (mp_parse_num_integer str 0 true).
Proof.
  unfold mp_parse_num_integer. change (negb (0 =? 0) && (0 <? 2) || (36 <? 0)) with false. cbn iota.
  destruct (parse_sign _) as [neg str1]. destruct (mp_parse_num_base_ok str1) as (base & n & -> & Hb). cbn [obind].
  pose proof (digits_loop_ok (drop n str1) base 0 Hb ltac:(lia)) as H.
  destruct (digits_loop _ _ _) as [[v rest|]|e| |]; cbn [obind]; try done; [|by right; left].
  assert (E : (if neg then sint (- v) else Ret v) = Ret (if neg then - v else v)) by (destruct neg; [by rewrite sint_ok by lia|done]).
  rewrite E. cbn [obind]. destruct (_ =? _)%nat; [by left|].
  destruct (skip_space rest); [|by left]. apply small_range. destruct neg; lia.
Qed.

(** ** The interface to the lexer *)

(** What the parser relies on: from a good state that is not at the end, the next token is read, or an exception
    of [source_errors] is raised, and the end is nearer. *)
Class TokenSourceLaws (L : Type) `{TokenSource L} := {
  good_source : L -> Prop;
  remaining : L -> nat;
  source_errors : list exn;
  to_next_ok : forall lex, good_source lex -> tok_kind lex <> MP_TOKEN_END ->
    safely source_errors (fun lex' => good_source lex' /\ (remaining lex' < remaining lex)%nat) (to_next lex);
  tok_text_length : forall lex, good_source lex -> Z.of_nat (length (tok_text lex)) <= 2 ^ 32 - 8
}.

Definition parse_errors (L : Type) `{TokenSourceLaws L} : list exn :=
  [MemoryError; SyntaxError; IndentationError; OverflowError; RuntimeError] ++ source_errors.

Section Errors.
Context {L : Type} {source : TokenSource L} {laws : TokenSourceLaws L}.

Lemma in_parse_errors e : e ∈ [MemoryError; SyntaxError; IndentationError; OverflowError; RuntimeError] -> e ∈ parse_errors L.
Proof. intros H. unfold parse_errors. apply elem_of_app. by left. Qed.

Lemma safely_errors {A} E (P : A -> Prop) m : E ⊆ [MemoryError; SyntaxError; IndentationError; OverflowError; RuntimeError] ->
  safely E P m -> safely (parse_errors L) P m.
Proof. intros HE H. eapply safely_weaken; [done| |done]. intros e He. by apply in_parse_errors, HE. Qed.

Lemma memory_safely {A} (P : A -> Prop) m : safely [MemoryError] P m -> safely (parse_errors L) P m.
Proof. apply safely_errors. set_solver. Qed.

Lemma syntax_error_ok {A} (P : A -> Prop) (p : parser_t (L := L)) : safely (parse_errors L) P (syntax_error p).
Proof. unfold syntax_error. destruct (tok_kind (lexer p)); apply in_parse_errors; set_solver. Qed.
End Errors.

(** ** Nodes *)

(** A finite tree of nodes in memory that the compiler may see: without one that still has to be made a [testlist_comp]. *)
Inductive good (m : memory) : mp_parse_node_t -> Prop :=
| good_atom pn : (forall ptr, pn <> struct_node ptr) -> good m pn
| good_struct ptr pns : m !! ptr = Some pns -> STRUCT_KIND pns <> id RULE_testlist_comp_3c ->
    (forall pn, Node pn ∈ nodes pns -> good m pn) -> good m (struct_node ptr).

Lemma good_null m : good m MP_PARSE_NODE_NULL.
Proof. by constructor. Qed.
Lemma good_int m n : good m (small_int_node n).
Proof. by constructor. Qed.
Lemma good_leaf m k a : good m (leaf_node k a).
Proof. by constructor. Qed.
#[export] Hint Resolve good_null good_int good_leaf : core.

Lemma good_inv m ptr : good m (struct_node ptr) -> exists pns, m !! ptr = Some pns /\ STRUCT_KIND pns <> id RULE_testlist_comp_3c.
Proof. intros H. inversion H as [pn Hn|ptr' pns Hp Hk]; subst; [by destruct (Hn ptr)|by exists pns]. Qed.

Definition pending (m : memory) (pn : mp_parse_node_t) : Prop :=
  exists ptr pns, pn = struct_node ptr /\ m !! ptr = Some pns /\ STRUCT_KIND pns = id RULE_testlist_comp_3c.

(** The node of a constant, or of a rule with the children that the rule has. *)
Definition node_ok (m : memory) (pns : mp_parse_node_struct_t) : Prop :=
  (STRUCT_KIND pns = id RULE_const_object /\ STRUCT_NUM_NODES pns = 1 /\ exists o, nodes pns = [Object o]) \/
  exists r args, r <> RULE_const_object /\ STRUCT_KIND pns = id r /\ STRUCT_NUM_NODES pns = Z.of_nat (length args) /\
    nodes pns = map Node args /\ node_arity r (Z.of_nat (length args)) = true /\ Forall (good m) args.

(** Later memory: nodes keep their children, and only a pending one changes its kind. *)
Definition extends (m m' : memory) : Prop := forall ptr pns, m !! ptr = Some pns ->
  exists pns', m' !! ptr = Some pns' /\ nodes pns' = nodes pns /\ (STRUCT_KIND pns' = STRUCT_KIND pns \/
    STRUCT_KIND pns = id RULE_testlist_comp_3c /\ STRUCT_KIND pns' = id RULE_testlist_comp).

#[export] Instance extends_preorder : PreOrder extends.
Proof.
  split.
  - intros m ptr pns H. exists pns. auto.
  - intros m1 m2 m3 H12 H23 ptr pns H. destruct (H12 _ _ H) as (pns2 & H2 & N2 & K2). destruct (H23 _ _ H2) as (pns3 & H3 & N3 & K3).
    exists pns3. split; [done|]. split; [congruence|]. destruct K2 as [K2|[K2 K2']], K3 as [K3|[K3 K3']]; rewrite ?K2, ?K2' in *; auto.
Qed.

Lemma good_extends m m' pn : extends m m' -> good m pn -> good m' pn.
Proof.
  intros He H. induction H as [pn Hn|ptr pns Hp Hk _ IH]; [by constructor|].
  destruct (He _ _ Hp) as (pns' & Hp' & Hn & [E|[E _]]); [|done]. apply good_struct with pns'; [done|by rewrite E|by rewrite Hn].
Qed.

(** The children of a node that the compiler may see are good. *)
Lemma node_ok_good m ptr pns : m !! ptr = Some pns -> node_ok m pns -> STRUCT_KIND pns <> id RULE_testlist_comp_3c -> good m (struct_node ptr).
Proof.
  intros Hp Hn Hk. apply good_struct with pns; [done|done|]. intros pn Hin.
  destruct Hn as [(_ & _ & o & E)|(r & args & _ & _ & _ & E & _ & Hg)]; rewrite E in Hin.
  - by apply list_elem_of_singleton in Hin.
  - apply list_elem_of_fmap in Hin as (pn' & [= ->] & Hin). rewrite list.Forall_forall in Hg. by apply Hg.
Qed.

Lemma Forall_good_extends m m' l : extends m m' -> Forall (good m) l -> Forall (good m') l.
Proof. intros He. apply Forall_impl. intros pn. by apply good_extends. Qed.

Lemma node_ok_extends m m' pns : extends m m' -> node_ok m pns -> node_ok m' pns.
Proof.
  intros He [H|(r & args & H1 & H2 & H3 & H4 & H5 & H6)]; [by left|right]. exists r, args.
  split_and!; try done. by apply Forall_good_extends with m.
Qed.

Lemma extends_insert_fresh m ptr pns : m !! ptr = None -> extends m (<[ptr := pns]> m).
Proof. intros Hn ptr' pns' H. exists pns'. rewrite lookup_insert_ne by congruence. auto 6. Qed.

(** The bytes of a node. *)
Definition node_bytes (pns : mp_parse_node_struct_t) : Z := 8 + 4 * Z.of_nat (length (nodes pns)).

(** ** The state *)

Section ParserWf.
Context {L : Type} {source : TokenSource L} {laws : TokenSourceLaws L}.
Context {byte_heap : Allocator Z} {rule_heap : Allocator rule_stack_t} {node_heap : Allocator mp_parse_node_t}.
Variable chunk_grow : nat -> Z -> bool.
Variable qstr_grow : nat -> Z -> bool.
Variable mp_parse_num_decimal : list Z -> outcome Z.
(** The number of strings in the ROM. *)
Variable N : Z.
Hypothesis byte_heap_small : forall n, m_renew_ok (A := Z) n = true -> n < 2 ^ 26.
Hypothesis node_heap_small : forall n, m_renew_ok (A := mp_parse_node_t) n = true -> n < 2 ^ 26.
Hypothesis chunk_grow_small : forall c n, chunk_grow c n = true -> n < 2 ^ 26.
Hypothesis qstr_grow_small : forall c n, qstr_grow c n = true -> n < 2 ^ 26.
Hypothesis decimal_ok : forall s, safely [SyntaxError] (fun _ => True) (mp_parse_num_decimal s).
Implicit Types (p : parser_t (L := L)).

Notation current_chunk_room := (Parser.current_chunk_room chunk_grow).
Notation parser_alloc := (Parser.parser_alloc chunk_grow).
Notation make_node_const_object := (Parser.make_node_const_object chunk_grow).
Notation make_node_const_int := (Parser.make_node_const_int chunk_grow).
Notation intern := (Parser.intern qstr_grow).
Notation token_node := (Parser.token_node chunk_grow qstr_grow mp_parse_num_decimal).
Notation push_result_token := (Parser.push_result_token chunk_grow qstr_grow mp_parse_num_decimal).
Notation build_node := (Parser.build_node chunk_grow).
Notation push_result_rule := (Parser.push_result_rule chunk_grow).

(** The results, the top first. *)
Definition results p : list mp_parse_node_t := reverse (take (Z.to_nat (result_stack_top p)) (result_stack p)).

Definition chunk_wf (c : mp_parse_chunk_t) : Prop := 0 <= used c <= chunk_alloc c /\ chunk_alloc c < 2 ^ 26 /\ (4 | used c).

(** A node is inside its chunk, and below the nodes that were made later in it. *)
Definition layout_wf (cs : list mp_parse_chunk_t) (m : memory) : Prop :=
  (forall c off pns, m !! (c, off) = Some pns -> exists ch, cs !! c = Some ch /\ 0 <= off /\ (4 | off) /\ off + node_bytes pns <= used ch) /\
  (forall c off1 off2 pns1 pns2, m !! (c, off1) = Some pns1 -> m !! (c, off2) = Some pns2 -> off1 < off2 -> off1 + node_bytes pns1 <= off2).

Definition chain p : list nat := option_list (cur_chunk p) ++ tree_chunk p.

Record parser_wf p : Prop := {
  pw_alloc : Z.of_nat (length (result_stack p)) = result_stack_alloc p;
  pw_top : 0 <= result_stack_top p <= result_stack_alloc p;
  pw_small : result_stack_alloc p < 2 ^ 24;
  pw_chunks : Forall chunk_wf (chunks p);
  pw_chain : chain p ≡ₚ seq 0 (length (chunks p));
  pw_layout : layout_wf (chunks p) (structs p);
  pw_nodes : map_Forall (fun _ pns => node_ok (structs p) pns) (structs p);
  pw_qstrs : exists es, wf N (qstrs p) es;
  pw_source : good_source (lexer p);
  pw_remaining : (Z.of_nat (remaining (lexer p)) < 2 ^ 30)
}.

(** What an operation that only makes nodes leaves as it is. *)
Record keeps p p' : Prop := {
  kp_wf : parser_wf p';
  kp_lexer : lexer p' = lexer p;
  kp_structs : extends (structs p) (structs p')
}.

Lemma keeps_refl p : parser_wf p -> keeps p p.
Proof. by split. Qed.
Lemma keeps_trans p1 p2 p3 : keeps p1 p2 -> keeps p2 p3 -> keeps p1 p3.
Proof. intros [A1 A2 A3] [B1 B2 B3]. split; [done|congruence|by etrans]. Qed.

Lemma results_length p : parser_wf p -> Z.of_nat (length (results p)) = result_stack_top p.
Proof. intros H. pose proof (pw_alloc _ H). pose proof (pw_top _ H). unfold results. lens. Qed.

(** ** The stack of results *)

Lemma results_wf p alloc top l : parser_wf p -> Z.of_nat (length l) = alloc -> 0 <= top <= alloc -> alloc < 2 ^ 24 ->
  keeps p (set_results p alloc top l).
Proof. intros [] ???. split; [by split|done|reflexivity]. Qed.

Lemma results_room_ok p : parser_wf p -> safely [MemoryError] (fun p' => keeps p p' /\ results p' = results p /\
  structs p' = structs p /\ result_stack_top p' < result_stack_alloc p') (results_room p).
Proof.
  intros Hw. pose proof (pw_alloc _ Hw) as H1. pose proof (pw_top _ Hw) as H2. pose proof (pw_small _ Hw) as H3. unfold results_room.
  destruct (Z.leb_spec (result_stack_alloc p) (result_stack_top p)); [|by split_and!; [apply keeps_refl|..]].
  unfold m_renew, m_realloc, MICROPY_ALLOC_PARSE_RESULT_INC, sizeof_mp_parse_node_t.
  rewrite !(wrap_small 32 (_ + 16)), wrap_small by lia. rewrite (proj2 (Z.eqb_neq _ _)) by lia.
  replace (4 * (result_stack_alloc p + 16) / 4) with (result_stack_alloc p + 16) by (rewrite Z.mul_comm, Z.div_mul; lia).
  rewrite (proj2 (Nat.leb_gt _ _)) by lia.
  destruct (m_renew_ok _) eqn:E; [|by left]. apply node_heap_small in E. cbn [obind safely].
  split_and!; [apply results_wf; [done|lens|lia|lia]| |done|cbn; lia]. unfold results. cbn. f_equal. apply take_app_le. lia.
Qed.

Lemma push_result_node_ok p pn : parser_wf p -> safely [MemoryError] (fun p' => keeps p p' /\ results p' = pn :: results p /\
  structs p' = structs p) (push_result_node p pn).
Proof.
  intros Hw. unfold push_result_node. eapply safely_bind; [by apply results_room_ok|]. intros p1 (Hk & <- & <- & Hlt).
  pose proof (kp_wf _ _ Hk) as Hw1. pose proof (pw_alloc _ Hw1). pose proof (pw_top _ Hw1). pose proof (pw_small _ Hw1).
  rewrite wr_Ret by lia. cbn [obind safely]. rewrite wrap_small by lia. split_and!; [| |done].
  - eapply keeps_trans; [done|]. apply results_wf; [done|lens|lia|lia].
  - unfold results. cbn [result_stack_top result_stack set_results].
    replace (Z.to_nat (result_stack_top p1 + 1)) with (S (Z.to_nat (result_stack_top p1))) by lia.
    erewrite take_S_r by (apply list_lookup_insert_eq; lia). by rewrite take_insert_ge, reverse_snoc by lia.
Qed.

Lemma results_lookup p i pn : parser_wf p -> results p !! i = Some pn ->
  Z.of_nat i < result_stack_top p /\ rd (result_stack p) (result_stack_top p - 1 - Z.of_nat i) = Ret pn.
Proof.
  intros Hw Hi. pose proof (results_length p Hw) as Hn. pose proof (pw_alloc _ Hw). pose proof (pw_top _ Hw).
  pose proof (lookup_lt_Some _ _ _ Hi) as Hlt. split; [lia|]. apply rd_Ret; [lia|].
  unfold results in Hi, Hlt. rewrite length_reverse in Hlt. rewrite reverse_lookup in Hi by done.
  rewrite length_take in Hi, Hlt. rewrite lookup_take_lt in Hi by lia. rewrite <- Hi. f_equal. lia.
Qed.

Lemma peek_result_ok p i pn : parser_wf p -> results p !! i = Some pn -> peek_result p (Z.of_nat i) = Ret pn.
Proof.
  intros Hw Hi. destruct (results_lookup p i pn Hw Hi) as [Hlt E]. unfold peek_result. by rewrite (proj2 (Z.ltb_lt _ _)).
Qed.

Lemma pop_result_ok p pn K : parser_wf p -> results p = pn :: K ->
  exists p', pop_result p = Ret (p', pn) /\ keeps p p' /\ results p' = K /\ structs p' = structs p.
Proof.
  intros Hw E. pose proof (results_length p Hw) as Hn. rewrite E in Hn. cbn [length] in Hn.
  pose proof (pw_alloc _ Hw). pose proof (pw_top _ Hw). pose proof (pw_small _ Hw).
  destruct (results_lookup p 0 pn Hw) as [Hlt Er]; [by rewrite E|]. unfold pop_result.
  rewrite (proj2 (Z.ltb_lt _ _)) by lia. rewrite Z.sub_0_r in Er. rewrite Er. cbn [obind]. eexists. split; [reflexivity|].
  split_and!; [apply results_wf; [done|lia|lia|lia]| |done].
  unfold results in *. cbn. replace (Z.to_nat (result_stack_top p)) with (S (Z.to_nat (result_stack_top p - 1))) in E by lia.
  destruct (rd_inv _ _ _ Er) as [_ Hl]. rewrite (take_S_r _ _ _ Hl), reverse_snoc in E. by injection E.
Qed.

Lemma pop_results_ok l p K acc : parser_wf p -> results p = l ++ K ->
  exists p', pop_results (length l) p acc = Ret (p', reverse l ++ acc) /\ keeps p p' /\ results p' = K /\ structs p' = structs p /\ chunks p' = chunks p.
Proof.
  revert p acc. induction l as [|pn l IH]; intros p acc Hw E; cbn [length pop_results].
  { exists p. split_and!; [done|by apply keeps_refl|done..]. }
  destruct (pop_result_ok p pn (l ++ K) Hw E) as (p1 & E1 & Hk & Er & Es). rewrite E1. cbn [obind].
  assert (Ec : chunks p1 = chunks p).
  { unfold pop_result in E1. destruct (0 <? _); [|done]. apply obind_Ret_inv in E1 as (? & _ & E1). by injection E1 as <- _. }
  destruct (IH p1 (pn :: acc) (kp_wf _ _ Hk) Er) as (p2 & E2 & Hk2 & Er2 & Es2 & Ec2). exists p2.
  rewrite E2, reverse_cons, <- app_assoc. split_and!; [done|by eapply keeps_trans|done|congruence|congruence].
Qed.

(** [pop_not_nil] returns the last result that is not empty. *)
Definition not_nil (pn : mp_parse_node_t) : bool := negb (IS_NULL pn).
Lemma pop_not_nil_ok l p K pn : parser_wf p -> results p = l ++ K ->
  exists p' pn', pop_not_nil (length l) p pn = Ret (p', pn') /\ keeps p p' /\ results p' = K /\ structs p' = structs p /\
    (pn' = pn /\ Forall (fun x => x = MP_PARSE_NODE_NULL) l \/ pn' ∈ l).
Proof.
  revert p pn. induction l as [|x l IH]; intros p pn Hw E; cbn [length pop_not_nil].
  { exists p, pn. split_and!; [done|by apply keeps_refl|done|done|by left]. }
  destruct (pop_result_ok p x (l ++ K) Hw E) as (p1 & E1 & Hk & Er & Es). rewrite E1. cbn [obind].
  destruct (IH p1 (if IS_NULL x then pn else x) (kp_wf _ _ Hk) Er) as (p2 & pn' & E2 & Hk2 & Er2 & Es2 & Hp).
  exists p2, pn'. split_and!; [done|by eapply keeps_trans|done|congruence|].
  unfold IS_NULL in Hp. destruct Hp as [[-> Hf]|Hin]; [|by right; right].
  case_bool_decide as Hx; [left; split; [done|by constructor]|right; left].
Qed.

(** ** Memory *)

Lemma keeps_chunks p tree cur cs : parser_wf p -> Forall chunk_wf cs -> layout_wf cs (structs p) ->
  option_list cur ++ tree ≡ₚ seq 0 (length cs) -> keeps p (set_chunks p tree cur cs).
Proof. intros [] ???. split; [by split|done|reflexivity]. Qed.

(** A chunk that is resized keeps what is in use. *)
Lemma layout_resize cs m c ch a : layout_wf cs m -> cs !! c = Some ch -> layout_wf (<[c := mk_chunk a (used ch)]> cs) m.
Proof.
  intros [H1 H2] Hc. split; [|done]. intros c' off pns Hm. destruct (H1 _ _ _ Hm) as (ch' & Hc' & Hr).
  destruct (decide (c = c')) as [<-|Hne].
  - eexists. rewrite list_lookup_insert_eq by (by eapply lookup_lt_Some). split; [done|]. cbn. congruence.
  - exists ch'. by rewrite list_lookup_insert_ne.
Qed.

Lemma layout_more cs m ch : layout_wf cs m -> layout_wf (cs ++ [ch]) m.
Proof.
  intros [H1 H2]. split; [|done]. intros c off pns Hm. destruct (H1 _ _ _ Hm) as (ch' & Hc' & Hr).
  exists ch'. split; [by apply lookup_app_l_Some|done].
Qed.

Lemma current_chunk_room_ok p n : parser_wf p -> 0 <= n < 2 ^ 28 ->
  exists p', current_chunk_room p n = Ret p' /\ keeps p p' /\ structs p' = structs p /\ results p' = results p /\
    forall c, cur_chunk p' = Some c -> exists ch, chunks p' !! c = Some ch /\ used ch + n <= chunk_alloc ch.
Proof.
  intros Hw Hn. unfold Parser.current_chunk_room. destruct (cur_chunk p) as [c|] eqn:Ec; [|exists p; split_and!; [done|by apply keeps_refl|done|done|congruence]].
  pose proof (pw_chain _ Hw) as Hchain. unfold chain in Hchain. rewrite Ec in Hchain. cbn [option_list app] in Hchain.
  assert (Hin : c ∈ seq 0 (length (chunks p))) by (rewrite <- Hchain; by left). apply elem_of_seq in Hin.
  destruct (lookup_lt_is_Some_2 (chunks p) c) as [ch Hch]; [lia|]. rewrite Hch. cbn [obind].
  pose proof (pw_chunks _ Hw) as Hcs. pose proof (Forall_lookup_1 _ _ _ _ Hcs Hch) as (Hu & Ha & H4).
  rewrite (wrap_small 32 (used ch + n)), (wrap_small 32 (_ + _ + n)) by (unfold sizeof_mp_parse_chunk_t; lia).
  destruct (Z.ltb_spec (chunk_alloc ch) (used ch + n)) as [Hfull|]; [|exists p; split_and!; [done|by apply keeps_refl|done|done|]].
  2: { intros c' E. rewrite Ec in E. injection E as <-. by exists ch. }
  pose proof (pw_layout _ Hw) as Hl. destruct (chunk_grow c _) eqn:Hg.
  - apply chunk_grow_small in Hg. unfold sizeof_mp_parse_chunk_t in Hg. rewrite wrap_small by lia. eexists. split; [reflexivity|]. split_and!; [|done|done|].
    + apply keeps_chunks; [done| |by apply layout_resize|by rewrite length_insert]. apply Forall_insert; [done|]. split; cbn; [lia|split; [lia|done]].
    + cbn. intros c' [= <-]. eexists. rewrite list_lookup_insert_eq by (by eapply lookup_lt_Some). split; [done|]. cbn. lia.
  - eexists. split; [reflexivity|]. split_and!; [|done|done|done].
    apply keeps_chunks; [done| |by apply layout_resize|by rewrite length_insert]. apply Forall_insert; [done|]. split; cbn; [lia|split; [lia|done]].
Qed.

Lemma fresh_chunk_ok p n : parser_wf p -> 0 <= n < 2 ^ 28 ->
  (forall c, cur_chunk p = Some c -> exists ch, chunks p !! c = Some ch /\ used ch + n <= chunk_alloc ch) ->
  safely [MemoryError] (fun '(p', c) => keeps p p' /\ structs p' = structs p /\ results p' = results p /\ cur_chunk p' = Some c /\
    exists ch, chunks p' !! c = Some ch /\ used ch + n <= chunk_alloc ch) (new_chunk p n).
Proof.
  intros Hw Hn Hcur. unfold new_chunk. destruct (cur_chunk p) as [c|] eqn:Ec.
  { cbn. split_and!; [by apply keeps_refl|done|done|done|by apply Hcur]. }
  unfold MICROPY_ALLOC_PARSE_CHUNK_INIT, sizeof_mp_parse_chunk_t. set (a := if 16 <? n then n else 16).
  assert (Ha : n <= a < 2 ^ 28) by (subst a; bcase; lia). rewrite (wrap_small 32 (8 + a)) by lia.
  unfold m_new, m_malloc. rewrite Z.mul_1_l, (wrap_small 32 (8 + a)) by lia. rewrite (proj2 (Z.eqb_neq _ _)) by lia.
  destruct (m_renew_ok (8 + a)) eqn:E; [|by left]. apply byte_heap_small in E. cbn [obind safely]. split_and!; [|done|done|done|].
  - apply keeps_chunks; [done| |by apply layout_more, pw_layout|].
    + apply Forall_app. split; [by apply pw_chunks|]. apply Forall_singleton. split; cbn; [lia|split; [lia|by exists 0]].
    + pose proof (pw_chain _ Hw) as Hchain. unfold chain in Hchain. rewrite Ec in Hchain. cbn [option_list app] in *.
      rewrite length_app, seq_app, <- Hchain. cbn. by rewrite Permutation_cons_append.
  - cbn [chunks set_chunks]. exists (mk_chunk a 0). split; [by rewrite lookup_app_r, Nat.sub_diag by lia|cbn; lia].
Qed.

(** [n] bytes at [ptr] that no node uses yet. *)
Definition room p (ptr : node_ptr) (n : Z) : Prop := exists ch, chunks p !! ptr.1 = Some ch /\ 0 <= ptr.2 /\ (4 | ptr.2) /\ ptr.2 + n = used ch /\
  forall off pns, structs p !! (ptr.1, off) = Some pns -> off + node_bytes pns <= ptr.2.

Lemma parser_alloc_ok p n : parser_wf p -> 0 <= n < 2 ^ 28 -> (4 | n) ->
  safely [MemoryError] (fun '(p', ptr) => keeps p p' /\ structs p' = structs p /\ results p' = results p /\ room p' ptr n) (parser_alloc p n).
Proof.
  intros Hw Hn H4. unfold Parser.parser_alloc. destruct (current_chunk_room_ok p n Hw Hn) as (p1 & -> & Hk1 & Es1 & Er1 & Hc1). cbn [obind].
  eapply safely_bind; [by apply fresh_chunk_ok; [apply Hk1|..]|]. intros [p2 c] (Hk2 & Es2 & Er2 & Ec2 & ch & Hch & Hroom). rewrite Hch.
  pose proof (kp_wf _ _ Hk2) as Hw2. pose proof (Forall_lookup_1 _ _ _ _ (pw_chunks _ Hw2) Hch) as (Hu & Ha & H4u).
  rewrite wrap_small by lia. cbn [safely].
  assert (Hk3 : keeps p2 (set_chunks p2 (tree_chunk p2) (cur_chunk p2) (<[c := mk_chunk (chunk_alloc ch) (used ch + n)]> (chunks p2)))).
  { apply keeps_chunks; [done|apply Forall_insert; [by apply pw_chunks|split; cbn; [lia|split; [lia|by apply Z.divide_add_r]]]| |
      rewrite length_insert; by apply pw_chain].
    destruct (pw_layout _ Hw2) as [H1 H2]. split; [|done]. intros c' off pns Hm. destruct (H1 _ _ _ Hm) as (ch' & Hc' & Ho & Ho4 & He).
    destruct (decide (c = c')) as [<-|Hne]; [|exists ch'; by rewrite list_lookup_insert_ne].
    eexists. rewrite list_lookup_insert_eq by (by eapply lookup_lt_Some). split_and!; [done|lia|done|]. cbn. rewrite Hch in Hc'. injection Hc' as <-. lia. }
  split_and!; [by eapply keeps_trans, keeps_trans|exact (eq_trans Es2 Es1)|exact (eq_trans Er2 Er1)|].
  exists (mk_chunk (chunk_alloc ch) (used ch + n)). cbn. rewrite list_lookup_insert_eq by (by eapply lookup_lt_Some).
  split_and!; [done|lia|done|done|]. intros off pns Hm.
  destruct (pw_layout _ Hw2) as [H1 _]. destruct (H1 _ _ _ Hm) as (ch' & Hc' & _ & _ & He). rewrite Hch in Hc'. injection Hc' as <-. lia.
Qed.

Lemma node_bytes_pos pns : 8 <= node_bytes pns.
Proof. unfold node_bytes. lia. Qed.

Lemma room_fresh p ptr n : room p ptr n -> structs p !! ptr = None.
Proof.
  intros (ch & _ & _ & _ & _ & H). destruct (structs p !! ptr) as [pns|] eqn:E; [|done]. exfalso.
  destruct ptr as [c off]. specialize (H _ _ E). pose proof (node_bytes_pos pns). cbn in *. lia.
Qed.

Lemma layout_store cs m c off ch pns : layout_wf cs m -> cs !! c = Some ch -> 0 <= off -> (4 | off) -> off + node_bytes pns <= used ch ->
  (forall off' pns', m !! (c, off') = Some pns' -> off' + node_bytes pns' <= off) -> layout_wf cs (<[(c, off) := pns]> m).
Proof.
  intros [H1 H2] Hc Ho H4 Hu Hbelow. split.
  - intros c' off' pns' [[E1 E2]|[_ Hm]]%lookup_insert_Some; [|by apply H1]. injection E1 as <- <-. subst pns'. by exists ch.
  - intros c' off1 off2 pns1 pns2 [[E1 E1']|[N1 Hm1]]%lookup_insert_Some [[E2 E2']|[N2 Hm2]]%lookup_insert_Some Hlt.
    + injection E1 as <- <-. injection E2 as <-. lia.
    + injection E1 as <- <-. specialize (Hbelow _ _ Hm2). pose proof (node_bytes_pos pns2). lia.
    + injection E2 as <- <-. by apply Hbelow.
    + by apply (H2 c' off1 off2 pns1 pns2).
Qed.

Lemma store_node_ok p ptr pns : parser_wf p -> room p ptr (node_bytes pns) -> node_ok (structs p) pns ->
  exists p', store_node p ptr pns = Ret p' /\ keeps p p' /\ results p' = results p /\ structs p' = <[ptr := pns]> (structs p).
Proof.
  intros Hw Hr Hn. pose proof (room_fresh _ _ _ Hr) as Hfresh. destruct Hr as (ch & Hch & Ho & H4 & Hu & Hbelow). unfold store_node. rewrite Hch.
  pose proof (Forall_lookup_1 _ _ _ _ (pw_chunks _ Hw) Hch) as (Huch & _ & _). unfold node_bytes in Hu.
  rewrite !(proj2 (Z.leb_le _ _)) by (unfold sizeof_mp_parse_node_struct_t, sizeof_mp_parse_node_t; lia). cbn [andb].
  eexists. split; [reflexivity|]. split_and!; [|done|done].
  assert (He : extends (structs p) (<[ptr := pns]> (structs p))) by (by apply extends_insert_fresh).
  split; [|done|done]. destruct Hw, ptr as [c off]. split; try done; cbn in *.
  - apply (layout_store _ _ _ _ ch); [done|done|done|done|unfold node_bytes; lia|done].
  - intros ptr' pns' [[_ <-]|[_ Hm]]%lookup_insert_Some; [by apply node_ok_extends with (structs p)|].
    apply node_ok_extends with (structs p); [done|]. by apply (pw_nodes0 ptr').
Qed.

(** ** Tokens *)

Notation errors := (parse_errors L).

(** A node was made: the results are as they were. *)
Definition makes p (r : parser_t * mp_parse_node_t) : Prop := keeps p r.1 /\ results r.1 = results p /\ good (structs r.1) r.2.

Lemma make_node_const_object_ok p line o : parser_wf p -> safely errors (makes p) (make_node_const_object p line o).
Proof.
  intros Hw. apply memory_safely. unfold Parser.make_node_const_object.
  change (node_size 1) with 12. eapply safely_bind; [apply parser_alloc_ok; [done|lia|by exists 3]|].
  intros [p1 ptr] (Hk1 & Es1 & Er1 & Hr). set (pns := mk_node _ _ _).
  destruct (store_node_ok p1 ptr pns (kp_wf _ _ Hk1) Hr) as (p2 & -> & Hk2 & Er2 & Es2); [left; split_and!; [done|done|by eexists]|].
  cbn [obind safely]. split_and!; cbn [fst snd]; [by eapply keeps_trans|congruence|]. apply node_ok_good with pns; [by rewrite Es2, lookup_insert_eq| |done].
  apply (pw_nodes _ (kp_wf _ _ Hk2) ptr). by rewrite Es2, lookup_insert_eq.
Qed.

Lemma make_node_const_int_ok p line o : parser_wf p -> safely errors (makes p) (make_node_const_int p line o).
Proof.
  intros Hw. destruct o; [|by apply make_node_const_object_ok..]. cbn [make_node_const_int safely]. split_and!; [by apply keeps_refl|done|apply good_int].
Qed.

Lemma leaf_makes p p' k a : keeps p p' -> results p' = results p -> makes p (p', leaf_node k a).
Proof. intros Hk Er. split_and!; [done|done|apply good_leaf]. Qed.

Lemma intern_ok p s : parser_wf p -> safely errors (fun '(p', q) => keeps p p' /\ results p' = results p /\ structs p' = structs p) (intern p s).
Proof.
  intros Hw. destruct (pw_qstrs _ Hw) as [es Hq]. unfold Parser.intern.
  assert (H1 : forall n, m_renew_ok (A := Z) n = true -> n < 2 ^ 28) by (intros n Hn%byte_heap_small; lia).
  assert (H2 : forall c n, qstr_grow c n = true -> n < 2 ^ 28) by (intros c n Hn%qstr_grow_small; lia).
  pose proof (qstr_from_strn_ok qstr_grow H1 H2 N _ es s Hq) as H.
  destruct (qstr_from_strn qstr_grow s (qstrs p)) as [q' [q|e| |]]; cbn [obind safely]; try done.
  - destruct H as (es' & Hq' & _). split_and!; [|done|done]. split; [|done|reflexivity]. destruct Hw. split; try done. by exists es'.
  - destruct e; try done; apply in_parse_errors; set_solver.
Qed.

Lemma new_str_copy_ok ty d : Z.of_nat (length d) <= 2 ^ 32 - 8 -> safely errors (fun _ => True) (mp_obj_new_str_copy ty d).
Proof.
  intros Hd. apply memory_safely. unfold mp_obj_new_str_copy, m_malloc at 1, sizeof_mp_obj_str_t.
  change (16 =? 0) with false. cbn iota. destruct (m_renew_ok 16); [|by left]. cbn [obind].
  rewrite (wrap_small 32 (_ + 1)) by lia. unfold m_new, m_malloc. rewrite Z.mul_1_l, wrap_small by lia. rewrite (proj2 (Z.eqb_neq _ _)) by lia.
  destruct (m_renew_ok _); [|by left]. cbn [obind]. rewrite Z.div_1_r. rewrite memcpy_in_Ret by lens. cbn [obind].
  rewrite wr_Ret by lens. done.
Qed.

Lemma token_node_ok p : parser_wf p -> safely errors (makes p) (token_node p).
Proof.
  intros Hw. unfold Parser.token_node. pose proof (tok_text_length _ (pw_source _ Hw)) as Htext.
  assert (Hleaf : forall k a, makes p (p, leaf_node k a)) by (intros; apply leaf_makes; [by apply keeps_refl|done]).
  destruct (tok_kind (lexer p)); try apply Hleaf.
  - eapply safely_bind; [by apply intern_ok|]. intros [p1 q] (Hk & Er & _). by apply leaf_makes.
  - eapply safely_bind; [eapply safely_errors; [|apply mp_parse_num_integer_ok]; set_solver|]. intros o _. by apply make_node_const_int_ok.
  - eapply safely_bind; [eapply safely_errors; [|apply decimal_ok]; set_solver|]. intros o _. by apply make_node_const_object_ok.
  - eapply (safely_bind _ (fun '(p', q) => keeps p p' /\ results p' = results p /\ structs p' = structs p)).
    + destruct (_ <=? _); [by apply intern_ok|]. destruct (pw_qstrs _ Hw) as [es Hq].
      destruct (find_strn_ok N _ es (tok_text (lexer p)) (proj1 Hq)) as (q & -> & _). cbn. split_and!; [by apply keeps_refl|done|done].
    + intros [p1 q] (Hk & Er & Es). destruct (negb _); [by apply leaf_makes|].
      eapply safely_bind; [by apply new_str_copy_ok|]. intros o _.
      eapply safely_weaken; [apply make_node_const_object_ok, Hk|done|]. intros [p2 pn] (Hk2 & Er2 & Hg).
      split_and!; [by eapply keeps_trans|cbn in *; congruence|done].
  - eapply safely_bind; [by apply new_str_copy_ok|]. intros o _. by apply make_node_const_object_ok.
Qed.

(** A result was pushed. *)
Definition pushes_good p p' : Prop := keeps p p' /\ exists pn, results p' = pn :: results p /\ good (structs p') pn.

Lemma push_good_ok p pn : parser_wf p -> good (structs p) pn -> safely errors (pushes_good p) (push_result_node p pn).
Proof.
  intros Hw Hg. eapply safely_weaken; [by apply memory_safely, push_result_node_ok|done|]. intros p1 (Hk & Er & _).
  split; [done|]. exists pn. split; [done|]. eapply good_extends; [apply Hk|done].
Qed.

Lemma push_result_token_ok p r : parser_wf p -> safely errors (pushes_good p) (push_result_token p r).
Proof.
  intros Hw. eapply safely_bind; [by apply token_node_ok|]. intros [p1 pn] (Hk & Er & Hg). cbn in *.
  eapply safely_weaken; [by apply push_good_ok; [apply Hk|]|done|]. intros p2 (Hk2 & pn' & Er2 & Hg2).
  split; [by eapply keeps_trans|]. exists pn'. by rewrite Er2, Er.
Qed.

(** ** Nodes of rules *)

Lemma node_header line k n l : 0 <= k < 256 -> 0 <= n < 2 ^ 24 ->
  STRUCT_KIND (mk_node line (wrap 32 (Z.lor (Z.land k 0xff) (Z.shiftl n 8))) l) = k /\
  STRUCT_NUM_NODES (mk_node line (wrap 32 (Z.lor (Z.land k 0xff) (Z.shiftl n 8))) l) = n.
Proof.
  intros Hk Hn. unfold STRUCT_KIND, STRUCT_NUM_NODES. cbn [kind_num_nodes].
  assert (E : Z.land k 255 = k mod 2 ^ 8) by exact (land_mask k 8 ltac:(lia)). rewrite E, Z.mod_small by lia.
  rewrite Z.lor_comm, lor_shiftl_low, wrap_small by lia. split.
  - assert (E' : Z.land (n * 2 ^ 8 + k) 255 = (n * 2 ^ 8 + k) mod 2 ^ 8) by exact (land_mask _ 8 ltac:(lia)). rewrite E'. zdiv.
  - rewrite Z.shiftr_div_pow2 by lia. zdiv.
Qed.

Lemma id_eqb r1 r2 : (id r1 =? id r2) = bool_decide (r1 = r2).
Proof.
  case_bool_decide as H; [subst; apply Z.eqb_refl|]. apply Z.eqb_neq. intros E. by apply H, id_inj.
Qed.

(** One result, on top of [K]. *)
Definition leaves p K p' : Prop := keeps p p' /\ exists pn, results p' = pn :: K /\ good (structs p') pn.

(** The result of [testlist_comp_3c], which takes the place of the result below it as well. *)
Definition leaves_pending p K p' : Prop := keeps p p' /\ exists pn, results p' = pn :: pn :: K /\ pending (structs p') pn.

Lemma results_small p rs K : parser_wf p -> results p = rs ++ K -> Z.of_nat (length rs) < 2 ^ 24.
Proof.
  intros Hw E. pose proof (results_length p Hw) as H. rewrite E, length_app in H. pose proof (pw_top _ Hw). pose proof (pw_small _ Hw). lia.
Qed.

Lemma make_node_ok p line r rs K : parser_wf p -> results p = rs ++ K -> Forall (good (structs p)) rs ->
  r <> RULE_const_object -> node_arity r (Z.of_nat (length rs)) = true ->
  safely [MemoryError] (fun '(p', ptr) => keeps p p' /\ results p' = K /\ exists pns, structs p' !! ptr = Some pns /\ STRUCT_KIND pns = id r)
    (let! '(p, pn) := parser_alloc p (node_size (Z.of_nat (length rs))) in
     let! '(p, args) := pop_results (Z.to_nat (Z.of_nat (length rs))) p [] in
     let! p := store_node p pn (mk_node line (wrap 32 (Z.lor (Z.land (id r) 0xff) (Z.shiftl (Z.of_nat (length rs)) 8))) (map Node args)) in
     Ret (p, pn)).
Proof.
  intros Hw E Hg Hr Ha. pose proof (results_small _ _ _ Hw E) as Hn.
  unfold node_size, sizeof_mp_parse_node_struct_t, sizeof_mp_parse_node_t. rewrite (wrap_small 32 (4 * _)), wrap_small by lia.
  eapply safely_bind; [apply parser_alloc_ok; [done|lia|exists (2 + Z.of_nat (length rs)); lia]|].
  intros [p1 ptr] (Hk1 & Es1 & Er1 & Hroom). rewrite Nat2Z.id.
  destruct (pop_results_ok rs p1 K [] (kp_wf _ _ Hk1)) as (p2 & -> & Hk2 & Er2 & Es2 & Ec2); [congruence|]. cbn [obind]. rewrite app_nil_r.
  destruct (node_header line (id r) (Z.of_nat (length rs)) (map Node (reverse rs)) (id_range r) ltac:(lia)) as [H1 H2].
  set (pns := mk_node _ _ _) in *.
  destruct (store_node_ok p2 ptr pns (kp_wf _ _ Hk2)) as (p3 & -> & Hk3 & Er3 & Es3).
  - destruct Hroom as (ch & Hch & Ho & H4 & Hu & Hb). exists ch. rewrite Ec2, Es2. split_and!; try done.
    unfold node_bytes, pns. cbn [nodes]. autorewrite with lens. lia.
  - right. exists r, (reverse rs). rewrite length_reverse. split_and!; try done. apply Forall_reverse. congruence.
  - cbn [obind safely]. split_and!; [by eapply keeps_trans, keeps_trans|congruence|]. exists pns. by rewrite Es3, lookup_insert_eq.
Qed.

Lemma build_node_split p line r n : build_node p line (id r) n =
  let! '(p, pn) :=
    (let! '(p, pn) := parser_alloc p (node_size n) in
     let! '(p, args) := pop_results (Z.to_nat n) p [] in
     let! p := store_node p pn (mk_node line (wrap 32 (Z.lor (Z.land (id r) 0xff) (Z.shiftl n 8))) (map Node args)) in
     Ret (p, pn)) in
  let! p := if id r =? id RULE_testlist_comp_3c then push_result_node p (struct_node pn) else Ret p in
  push_result_node p (struct_node pn).
Proof.
  unfold Parser.build_node. destruct (parser_alloc p _) as [[p1 pn]| | |]; cbn [obind]; try done.
  destruct (pop_results _ _ _) as [[p2 args]| | |]; cbn [obind]; try done. by destruct (store_node _ _ _).
Qed.

Lemma build_node_ok p line r rs K : parser_wf p -> results p = rs ++ K -> Forall (good (structs p)) rs ->
  r <> RULE_const_object -> node_arity r (Z.of_nat (length rs)) = true ->
  safely errors (if bool_decide (r = RULE_testlist_comp_3c) then leaves_pending p K else leaves p K) (build_node p line (id r) (Z.of_nat (length rs))).
Proof.
  intros Hw E Hg Hr Ha. rewrite build_node_split. apply memory_safely.
  eapply safely_bind; [by eapply make_node_ok|]. intros [p1 ptr] (Hk1 & Er1 & pns & Hp & Hkind). rewrite id_eqb. case_bool_decide as H3c.
  - eapply safely_bind; [apply push_result_node_ok, Hk1|]. intros p2 (Hk2 & Er2 & Es2).
    eapply safely_weaken; [apply push_result_node_ok, Hk2|done|]. intros p3 (Hk3 & Er3 & Es3).
    split; [by eapply keeps_trans, keeps_trans|]. exists (struct_node ptr). split; [congruence|].
    exists ptr, pns. rewrite Es3, Es2, Hkind. by subst r.
  - cbn [obind]. eapply safely_weaken; [apply push_result_node_ok, Hk1|done|]. intros p2 (Hk2 & Er2 & _).
    split; [by eapply keeps_trans|]. exists (struct_node ptr). split; [congruence|].
    apply good_extends with (structs p1); [apply Hk2|]. apply node_ok_good with pns; [done|by apply (pw_nodes _ (kp_wf _ _ Hk1) ptr)|].
    rewrite Hkind. intros E'. by apply H3c, id_inj.
Qed.

Lemma IS_STRUCT_KIND_ok p pn k : (exists pns ptr, pn = struct_node ptr /\ structs p !! ptr = Some pns) \/ (forall ptr, pn <> struct_node ptr) ->
  exists b, IS_STRUCT_KIND (structs p) pn k = Ret b.
Proof.
  intros [(pns & ptr & -> & H)|H]; [|destruct pn as [| | |ptr]; [by eexists..|by destruct (H ptr)]].
  unfold IS_STRUCT_KIND, deref. rewrite H. by eexists.
Qed.

Lemma good_kind p pn k : good (structs p) pn -> exists b, IS_STRUCT_KIND (structs p) pn k = Ret b.
Proof. intros Hg. apply IS_STRUCT_KIND_ok. destruct pn as [| | |ptr]; [by right..|]. destruct (good_inv _ _ Hg) as (pns & H & _). left. by eexists _, _. Qed.

Lemma peek_top p pn K : parser_wf p -> results p = pn :: K -> peek_result p 0 = Ret pn.
Proof. intros Hw E. apply (peek_result_ok p 0 pn Hw). by rewrite E. Qed.

Lemma push_rule_node_ok p line r rs K : parser_wf p -> results p = rs ++ K -> Forall (good (structs p)) rs ->
  r <> RULE_const_object -> r <> RULE_testlist_comp -> r <> RULE_testlist_comp_3c -> node_arity r (Z.of_nat (length rs)) = true ->
  safely errors (leaves p K) (push_result_rule p line (id r) (Z.of_nat (length rs))).
Proof.
  intros Hw E Hg Hr Htc H3c Ha. pose proof (build_node_ok p line r rs K Hw E Hg Hr Ha) as Hb. rewrite bool_decide_eq_false_2 in Hb by done.
  unfold Parser.push_result_rule. rewrite !id_eqb, (bool_decide_eq_false_2 _ Htc), (bool_decide_eq_false_2 _ H3c).
  case_bool_decide as Hp; [|done]. subst r.
  assert (exists pn, rs = [pn]) as [pn ->].
  { change (node_arity RULE_atom_paren (Z.of_nat (length rs))) with (Z.of_nat (length rs) =? 1) in Ha. destruct rs as [|pn [|q rs]]; [done|by exists pn|]. exfalso. apply Z.eqb_eq in Ha. cbn [length] in Ha. lia. }
  apply (list.Forall_cons _ pn []) in Hg as [Hg _]. rewrite (peek_top p pn K Hw E). cbn [obind]. destruct (IS_NULL pn); [done|].
  destruct (good_kind p pn (id RULE_testlist_comp) Hg) as [b ->]. cbn [obind]. destruct b; [done|].
  split; [by apply keeps_refl|]. by exists pn.
Qed.

Lemma push_3c_ok p line rs x K : parser_wf p -> results p = rs ++ x :: K -> Forall (good (structs p)) (rs ++ [x]) ->
  safely errors (leaves_pending p K) (push_result_rule p line (id RULE_testlist_comp_3c) (Z.of_nat (length rs))).
Proof.
  intros Hw E Hg. unfold Parser.push_result_rule. rewrite !id_eqb. cbn [bool_decide decide]. 
  pose proof (build_node_ok p line RULE_testlist_comp_3c (rs ++ [x]) K Hw) as Hb. rewrite length_app in Hb. cbn [length] in Hb.
  replace (Z.of_nat (length rs) + 1) with (Z.of_nat (length rs + 1)) by lia. apply Hb; [by rewrite <- app_assoc|done|done|].
  apply Z.leb_le. lia.
Qed.

(** [testlist_comp] of an item and what follows it. *)
Lemma push_tc_node_ok p line a b K : parser_wf p -> results p = b :: a :: K -> good (structs p) b -> good (structs p) a ->
  safely errors (leaves p K) (push_result_rule p line (id RULE_testlist_comp) 2).
Proof.
  intros Hw E Hb Ha. unfold Parser.push_result_rule. rewrite !id_eqb. cbn [bool_decide decide]. change (negb (2 =? 2)) with false. cbn iota.
  rewrite (peek_top p b (a :: K) Hw E). cbn [obind].
  assert (H2 : safely errors (leaves p K) (build_node p line (id RULE_testlist_comp) 2)).
  { apply (build_node_ok p line RULE_testlist_comp [b; a] K); [done|done|by auto|done|done]. }
  destruct b as [| | |ptr]; try done. destruct (good_inv _ _ Hb) as (pns & Hp & Hk). unfold deref. rewrite Hp. cbn [obind].
  destruct (_ =? _).
  - destruct (pop_result_ok p _ _ Hw E) as (p1 & -> & Hk1 & Er1 & Es1). cbn [obind].
    eapply safely_weaken; [apply (build_node_ok p1 line RULE_testlist_comp [a] K); [apply Hk1|done| |done|done]|done|].
    + rewrite Es1. by auto.
    + intros p2 (Hk2 & H). split; [by eapply keeps_trans|done].
  - rewrite (proj2 (Z.eqb_neq _ _)) by done. done.
Qed.

(** Making the pending node, which is there twice, the [testlist_comp]. *)
Lemma convert_ok p ptr pns n : parser_wf p -> structs p !! ptr = Some pns -> STRUCT_KIND pns = id RULE_testlist_comp_3c ->
  n = mk_node (source_line pns) (wrap 32 (Z.lor (id RULE_testlist_comp) (Z.shiftl (STRUCT_NUM_NODES pns) 8))) (nodes pns) ->
  keeps p (set_structs p (<[ptr := n]> (structs p))) /\ good (<[ptr := n]> (structs p)) (struct_node ptr).
Proof.
  intros Hw Hp Hk ->. set (n := mk_node _ _ _). pose proof (pw_layout _ Hw) as [HL1 HL2].
  assert (Hargs : exists args, STRUCT_NUM_NODES pns = Z.of_nat (length args) /\ nodes pns = map Node args /\
    1 <= Z.of_nat (length args) < 2 ^ 24 /\ Forall (good (structs p)) args).
  { destruct (pw_nodes _ Hw _ _ Hp) as [(E & _)|(r & args & _ & Er & En & El & Har & Hg)]; [by rewrite Hk in E|].
    assert (r = RULE_testlist_comp_3c) as -> by (by apply id_inj; rewrite <- Er, Hk).
    change (1 <=? Z.of_nat (length args) = true) in Har. exists args. split_and!; try done; [lia|].
    destruct ptr as [c off]. destruct (HL1 _ _ _ Hp) as (ch & Hch & ? & _ & Hb). unfold node_bytes in Hb. rewrite El, length_map in Hb.
    destruct (Forall_lookup_1 _ _ _ _ (pw_chunks _ Hw) Hch) as (? & ? & _). lia. }
  destruct Hargs as (args & En & El & Har & Hg).
  destruct (node_header (source_line pns) (id RULE_testlist_comp) (STRUCT_NUM_NODES pns) (nodes pns) (id_range _) ltac:(lia)) as [H1 H2].
  change (Z.land (id RULE_testlist_comp) 255) with (id RULE_testlist_comp) in H1, H2. fold n in H1, H2.
  assert (He : extends (structs p) (<[ptr := n]> (structs p))).
  { intros ptr' pns' H. destruct (decide (ptr = ptr')) as [<-|Hne]; [|exists pns'; rewrite lookup_insert_ne by done; auto 6].
    exists n. rewrite lookup_insert_eq. rewrite H in Hp. injection Hp as <-. split_and!; [done|done|right; done]. }
  assert (Hbytes : node_bytes n = node_bytes pns) by done. assert (Hnodes : nodes n = nodes pns) by done. clearbody n.
  enough (Hkeeps : keeps p (set_structs p (<[ptr := n]> (structs p)))).
  { split; [done|]. apply node_ok_good with n; [by rewrite lookup_insert_eq| |by rewrite H1].
    apply (pw_nodes _ (kp_wf _ _ Hkeeps) ptr). cbn. by rewrite lookup_insert_eq. }
  split; [|done|done]. destruct Hw. split; try done; cbn.
  - split.
    + intros c off q [[-> <-]|[_ H]]%lookup_insert_Some; [rewrite Hbytes|]; by apply HL1.
    + intros c o1 o2 q1 q2 [[E1 <-]|[_ Hm1]]%lookup_insert_Some [[E2 <-]|[_ Hm2]]%lookup_insert_Some Hlt; rewrite ?Hbytes.
      * rewrite E1 in E2. injection E2. lia.
      * rewrite E1 in Hp. by eapply HL2.
      * rewrite E2 in Hp. by eapply (HL2 c o1 o2).
      * by eapply (HL2 c o1 o2).
  - intros ptr' q [[_ <-]|[_ H]]%lookup_insert_Some; [|apply node_ok_extends with (structs p); [done|by apply (pw_nodes0 ptr')]].
    right. exists RULE_testlist_comp, args. split_and!; [done|done|congruence|congruence| |by apply Forall_good_extends with (structs p)].
    change (1 <=? Z.of_nat (length args) = true). lia.
Qed.

Lemma push_tc_pending_ok p line b K : parser_wf p -> results p = b :: b :: K -> pending (structs p) b ->
  safely errors (leaves p K) (push_result_rule p line (id RULE_testlist_comp) 2).
Proof.
  intros Hw E (ptr & pns & -> & Hp & Hk). unfold Parser.push_result_rule.
  change (id RULE_testlist_comp =? id RULE_atom_paren) with false. change (id RULE_testlist_comp =? id RULE_testlist_comp) with true.
  change (negb (2 =? 2)) with false. cbn iota. rewrite (peek_top p _ _ Hw E). cbn [obind]. unfold deref. rewrite Hp. cbn [obind]. rewrite Hk.
  change (id RULE_testlist_comp_3c =? id RULE_testlist_comp_3b) with false. change (id RULE_testlist_comp_3c =? id RULE_testlist_comp_3c) with true. cbn iota.
  destruct (pop_result_ok p _ _ Hw E) as (p1 & -> & Hk1 & Er1 & Es1). cbn [obind]. rewrite (peek_top p1 _ _ (kp_wf _ _ Hk1) Er1). cbn [obind].
  rewrite bool_decide_eq_true_2 by done. cbn [negb safely].
  rewrite <- Es1 in Hp. destruct (convert_ok p1 ptr pns _ (kp_wf _ _ Hk1) Hp Hk eq_refl) as [Hk2 Hg].
  split; [by eapply keeps_trans|]. by exists (struct_node ptr).
Qed.

(** ** And-rules *)

Lemma pushed_snoc args a : pushed (args ++ [a]) = (pushed args + if pushes a then 1 else 0)%nat.
Proof. induction args as [|a' args IH]; cbn [pushed app]; [by destruct (pushes a)|]. rewrite IH. destruct (pushes a'); lia. Qed.

Lemma pushed_take_le args x : (pushed (take x args) <= pushed args)%nat.
Proof. revert x. induction args as [|a args IH]; intros [|x]; cbn; [lia..|]. specialize (IH x). destruct (pushes a); lia. Qed.

Lemma count_args_ok args p x i k : parser_wf p -> 0 <= i -> (x <= length args)%nat ->
  i + Z.of_nat (pushed (take x args)) <= Z.of_nat (length (results p)) ->
  exists k', count_args x p (map rule_arg_code args) i k = Ret (i + Z.of_nat (pushed (take x args)), k').
Proof.
  intros Hw. revert i k. induction x as [|x IH]; intros i k Hi Hx Hr; cbn [count_args].
  { exists k. rewrite take_0. cbn. f_equal. f_equal. lia. }
  destruct (lookup_lt_is_Some_2 args x) as [a Ha]; [lia|]. rewrite (holds_map _ _ _ Ha). cbn [obind].
  rewrite (take_S_r _ _ _ Ha), pushed_snoc in Hr |- *. rewrite arg_code_kind, arg_code_arg.
  assert (Hrule : pushes a = true -> exists k', (let! pn := peek_result p i in
      count_args x p (map rule_arg_code args) (i + 1) (if IS_NULL pn then k else k + 1)) =
    Ret (i + Z.of_nat (pushed (take x args) + 1), k')).
  { intros Ea. rewrite Ea in Hr. destruct (lookup_lt_is_Some_2 (results p) (Z.to_nat i)) as [pn Hpn]; [lia|].
    pose proof (peek_result_ok p _ _ Hw Hpn) as Hpeek. rewrite Z2Nat.id in Hpeek by lia. rewrite Hpeek. cbn [obind].
    destruct (IH (i + 1) (if IS_NULL pn then k else k + 1)) as [k' ->]; [lia..|]. exists k'. f_equal. f_equal. lia. }
  destruct a as [t|r|r]; [|by apply Hrule..].
  change (RULE_ARG_TOK =? RULE_ARG_TOK) with true. cbn iota. cbn [pushes] in *.
  case_bool_decide as Ht; [subst t; rewrite Z.eqb_refl|].
  - destruct (IH (i + 1) (k + 1)) as [k' ->]; [lia..|]. exists k'. f_equal. f_equal. lia.
  - rewrite (proj2 (Z.eqb_neq _ _)) by (intros E; apply Ht, (inj token_code); lia).
    destruct (IH i k) as [k' ->]; [lia..|]. exists k'. f_equal. f_equal. lia.
Qed.

Notation and_matched := (Parser.and_matched chunk_grow).

Lemma lonely_constant_ok ik p r rs K : parser_wf p -> results p = rs ++ K -> Forall (good (structs p)) rs \/ r <> RULE_expr_stmt ->
  (r = RULE_expr_stmt -> length rs = 2%nat) ->
  exists b, lonely_constant ik p (id r) = Ret b /\ (b = true -> r = RULE_expr_stmt).
Proof.
  intros Hw E Hg Hlen. unfold lonely_constant. rewrite id_eqb. destruct (decide (r = RULE_expr_stmt)) as [->|Hr].
  2: { rewrite bool_decide_eq_false_2 by done. destruct ik; by exists false. }
  specialize (Hlen eq_refl). destruct rs as [|b [|a [|]]]; try done. destruct Hg as [Hg|]; [|done].
  apply list.Forall_cons in Hg as [Hb Hg]. apply list.Forall_cons in Hg as [Ha _]. cbn [app] in E.
  assert (H : exists c, (let! pn := peek_result p 0 in if negb (IS_NULL pn) then Ret false else
    let! pn := peek_result p 1 in if IS_LEAF pn && negb (IS_ID pn) then Ret true else IS_STRUCT_KIND (structs p) pn (id RULE_const_object)) = Ret c).
  { rewrite (peek_top p b (a :: K) Hw E). cbn [obind]. destruct (negb _); [by eexists|].
    assert (Hp1 : peek_result p 1 = Ret a) by (apply (peek_result_ok p 1 a Hw); by rewrite E). rewrite Hp1. cbn [obind]. destruct (_ && _); [by eexists|]. by apply good_kind. }
  destruct H as [c Hc]. destruct ik; [by exists false| |]; exists c; by split.
Qed.

(** The action of an and-rule. *)
Definition is_and (r : rule_t) : Prop := match kind_of r with or_ _ | one_or_more | list_ | list_with_end => False | _ => True end.

Lemma is_and_act r : r <> RULE_const_object -> is_and r ->
  Z.to_nat (Z.land (rule_act (kind_of r)) RULE_ACT_ARG_MASK) = length (args_of r).
Proof.
  intros Hr Ha. pose proof (acts_decode r Hr) as Hd. unfold act_decodes in Hd. rewrite !andb_true_iff in Hd. destruct Hd as [[Hd _] _].
  unfold is_and in Ha. destruct (kind_of r); try done; apply andb_true_iff in Hd as [Hd%Z.eqb_eq _]; lia.
Qed.

Lemma and_arity r : is_and r -> r <> RULE_testlist_comp ->
  node_arity r (Z.of_nat (pushed (args_of r)) + if Z.land (rule_act (kind_of r)) RULE_ACT_ADD_BLANK =? 0 then 0 else 1) = true.
Proof. unfold is_and. destruct r; try done; intros _ _; by vm_compute. Qed.

Lemma pass_stmt_ok p line K : parser_wf p -> results p = K -> safely errors (leaves p K) (push_result_rule p line (id RULE_pass_stmt) 0).
Proof. intros Hw E. by apply (push_rule_node_ok p line RULE_pass_stmt [] K). Qed.

(** Only one of the results is not empty: it is the result. *)
Lemma only_one_ok p rs K : parser_wf p -> results p = rs ++ K -> Forall (good (structs p)) rs ->
  safely errors (leaves p K) (let! '(p, pn) := pop_not_nil (length rs) p MP_PARSE_NODE_NULL in push_result_node p pn).
Proof.
  intros Hw E Hg. destruct (pop_not_nil_ok rs p K MP_PARSE_NODE_NULL Hw E) as (p1 & pn & -> & Hk1 & Er1 & Es1 & Hpn). cbn [obind].
  eapply safely_weaken; [apply push_good_ok; [apply Hk1|]|done|].
  - rewrite Es1. destruct Hpn as [[-> _]|Hin]; [done|]. rewrite list.Forall_forall in Hg. by apply Hg.
  - intros p2 (Hk2 & pn2 & Er2 & Hg2). split; [by eapply keeps_trans|]. exists pn2. by rewrite Er2, Er1.
Qed.

Lemma and_matched_ok ik p line r rs K : parser_wf p -> is_and r -> r <> RULE_const_object -> r <> RULE_testlist_comp ->
  results p = rs ++ K -> length rs = pushed (args_of r) -> Forall (good (structs p)) rs ->
  safely errors (leaves p K) (and_matched ik p line (id r) (rule_act (kind_of r)) (map rule_arg_code (args_of r))).
Proof.
  intros Hw Ha Hr Htc E El Hg. unfold Parser.and_matched.
  destruct (lonely_constant_ok ik p r rs K Hw E (or_introl Hg)) as (b & -> & Hb); [by intros ->|]. cbn [obind]. destruct b.
  { specialize (Hb eq_refl). subst r. destruct rs as [|b [|a [|]]]; try done. cbn [app] in E.
    destruct (pop_result_ok p _ _ Hw E) as (p1 & -> & Hk1 & Er1 & _). cbn [obind].
    destruct (pop_result_ok p1 _ _ (kp_wf _ _ Hk1) Er1) as (p2 & -> & Hk2 & Er2 & _). cbn [obind].
    eapply safely_weaken; [apply pass_stmt_ok; [apply Hk2|exact Er2]|done|].
    intros p3 (Hk3 & H). split; [by eapply keeps_trans, keeps_trans|done]. }
  rewrite is_and_act by done. assert (Hlen : (pushed (take (length (args_of r)) (args_of r)) = length rs)%nat) by (by rewrite take_ge).
  destruct (count_args_ok (args_of r) p (length (args_of r)) 0 0 Hw) as [k ->]; [lia|done|rewrite Hlen, E, length_app; lia|].
  rewrite Hlen, Z.add_0_l. cbn [obind].
  pose proof (and_arity r Ha Htc) as Har. rewrite <- El in Har.
  assert (H3c : r <> RULE_testlist_comp_3c) by (by intros ->).
  destruct (_ && _); [rewrite Nat2Z.id; by apply only_one_ok|].
  destruct (Z.land (rule_act (kind_of r)) RULE_ACT_ADD_BLANK =? 0); cbn [negb].
  - apply push_rule_node_ok; try done. by rewrite Z.add_0_r in Har.
  - eapply safely_bind; [by apply memory_safely, push_result_node_ok|]. intros p1 (Hk1 & Er1 & Es1).
    replace (Z.of_nat (length rs) + 1) with (Z.of_nat (length (MP_PARSE_NODE_NULL :: rs))) in * by (cbn [length]; lia).
    eapply safely_weaken; [apply (push_rule_node_ok p1 line r (MP_PARSE_NODE_NULL :: rs) K); try done|done|].
    + apply Hk1.
    + by rewrite Er1, E.
    + constructor; [done|by rewrite Es1].
    + intros p2 (Hk2 & H). split; [by eapply keeps_trans|done].
Qed.

(** The and-rule between [testlist_comp_3c] and [testlist_comp] passes the pending node on. *)
Lemma and_matched_3b_ok ik p line b K : parser_wf p -> results p = b :: b :: K -> pending (structs p) b ->
  safely errors (leaves_pending p K)
    (and_matched ik p line (id RULE_testlist_comp_3b) (rule_act (kind_of RULE_testlist_comp_3b)) (map rule_arg_code (args_of RULE_testlist_comp_3b))).
Proof.
  intros Hw E Hb. unfold Parser.and_matched.
  destruct (lonely_constant_ok ik p RULE_testlist_comp_3b [] _ Hw E) as (c & -> & Hc); [by right|done|]. cbn [obind].
  destruct c; [by specialize (Hc eq_refl)|].
  assert (Hcount : count_args 2 p (map rule_arg_code (args_of RULE_testlist_comp_3b)) 0 0 =
    let! pn := peek_result p 0 in Ret (1, if IS_NULL pn then 0 else 1)) by reflexivity.
  change (Z.to_nat (Z.land (rule_act (kind_of RULE_testlist_comp_3b)) RULE_ACT_ARG_MASK)) with 2%nat. rewrite Hcount, (peek_top p b _ Hw E). cbn [obind].
  destruct Hb as (ptr & pns & -> & Hp & Hk). change (IS_NULL (struct_node ptr)) with false. cbn iota.
  change ((1 =? 1) && negb (Z.land (rule_act (kind_of RULE_testlist_comp_3b)) RULE_ACT_ALLOW_IDENT =? 0)) with true. cbn iota.
  change (Z.to_nat 1) with 1%nat. cbn [pop_not_nil].
  destruct (pop_result_ok p _ _ Hw E) as (p1 & -> & Hk1 & Er1 & Es1). cbn [obind]. change (IS_NULL (struct_node ptr)) with false. cbn iota.
  apply memory_safely. eapply safely_weaken; [apply push_result_node_ok, Hk1|done|]. intros p2 (Hk2 & Er2 & Es2).
  split; [by eapply keeps_trans|]. exists (struct_node ptr). split; [congruence|]. exists ptr, pns. by rewrite Es2, Es1.
Qed.

(** [testlist_comp], with its two results or the pending one. *)
Lemma and_matched_tc_ok ik p line b a K : parser_wf p -> results p = b :: a :: K ->
  good (structs p) b /\ good (structs p) a \/ a = b /\ pending (structs p) b ->
  safely errors (leaves p K)
    (and_matched ik p line (id RULE_testlist_comp) (rule_act (kind_of RULE_testlist_comp)) (map rule_arg_code (args_of RULE_testlist_comp))).
Proof.
  intros Hw E Hcase. unfold Parser.and_matched.
  destruct (lonely_constant_ok ik p RULE_testlist_comp [] _ Hw E) as (c & -> & Hc); [by right|done|]. cbn [obind].
  destruct c; [by specialize (Hc eq_refl)|].
  assert (Hcount : count_args 2 p (map rule_arg_code (args_of RULE_testlist_comp)) 0 0 =
    let! pn := peek_result p 0 in let! pn' := peek_result p 1 in Ret (2, (if IS_NULL pn then 0 else 1) + if IS_NULL pn' then 0 else 1)).
  { lazy -[peek_result IS_NULL]. destruct (peek_result p 0) as [x| | |]; try done. destruct (peek_result p 1) as [y| | |]; try done.
    by destruct (IS_NULL x), (IS_NULL y). }
  assert (Hp1 : peek_result p 1 = Ret a) by (apply (peek_result_ok p 1 a Hw); by rewrite E).
  change (Z.to_nat (Z.land (rule_act (kind_of RULE_testlist_comp)) RULE_ACT_ARG_MASK)) with 2%nat. rewrite Hcount, (peek_top p b _ Hw E), Hp1. cbn [obind].
  change (negb (Z.land (rule_act (kind_of RULE_testlist_comp)) RULE_ACT_ALLOW_IDENT =? 0)) with true.
  change (negb (Z.land (rule_act (kind_of RULE_testlist_comp)) RULE_ACT_ADD_BLANK =? 0)) with false. cbn iota.
  destruct Hcase as [[Hb Ha]|[-> Hb]].
  - destruct (_ && _); [|by eapply push_tc_node_ok]. apply (only_one_ok p [b; a] K); [done|done|by auto].
  - assert (IS_NULL b = false) as -> by (destruct Hb as (? & ? & -> & _); done). change (1 + 1 =? 1) with false. cbn [andb].
    by eapply push_tc_pending_ok.
Qed.

(** ** List-rules *)

(** The separators are tokens, which leave no result. *)
Definition token_sep (r : rule_t) : bool := match args_of r with [_; tok _] => true | _ => false end.

(** The results of the first [i] items and separators. *)
Definition list_count (r : rule_t) (i : Z) : Z := if token_sep r then (i + 1) / 2 else i.

Notation list_matched := (Parser.list_matched chunk_grow).

Definition rule_N (r : rule_t) : Z := match kind_of r with list_ => 1 | one_or_more => 2 | _ => 3 end.
Definition is_list (r : rule_t) : Prop := match kind_of r with list_ | one_or_more | list_with_end => True | _ => False end.

Lemma list_sep r : r <> RULE_const_object -> is_list r ->
  (if Z.land (rule_N r) 1 =? 0 then Ret false
   else let! a := rd (map rule_arg_code (args_of r)) 1 in Ret (Z.land a RULE_ARG_KIND_MASK =? RULE_ARG_TOK)) = Ret (token_sep r).
Proof. unfold is_list. destruct r; try done; intros _ _; by vm_compute. Qed.

Definition list_shape (r : rule_t) : bool :=
  match kind_of r with
  | list_ => match args_of r with [_; (tok _ | rule _)] => true | _ => false end
  | list_with_end => token_sep r
  | one_or_more => negb (token_sep r)
  | _ => true
  end.
Lemma list_shapes r : r <> RULE_const_object -> list_shape r = true.
Proof. revert r. apply by_defined_rules. by vm_compute. Qed.

(** The lists that end at [i] with this count have the number of children of the grammar. *)
Lemma list_arity r i sep : r <> RULE_const_object -> is_list r -> list_backtrack (rule_N r) (i + 1) = ListDone sep -> 0 <= i ->
  list_count r i <> 1 \/ sep = true -> node_arity r (list_count r i) = true.
Proof.
  intros Hr Hl Hb Hi Hc.
  assert (Hodd : Z.land (i + 1) 1 = (i + 1) mod 2) by exact (land_mask (i + 1) 1 ltac:(lia)).
  unfold list_backtrack in Hb. rewrite Hodd in Hb.
  pose proof (list_shapes r Hr) as Hs. unfold list_shape, is_list, rule_N, node_arity, list_count in *. destruct (kind_of r) eqn:Hk; try done.
  - apply negb_true_iff in Hs. rewrite Hs in *. change (2 =? 2) with true in Hb. cbn iota in Hb.
    destruct (Z.eqb_spec (i + 1) 1); [done|]. injection Hb as <-. destruct Hc; [|done]. apply Z.leb_le. lia.
  - change (1 =? 2) with false in Hb. change (1 =? 3) with false in Hb. cbn iota in Hb. destruct (Z.eqb_spec (i + 1) 1); [done|].
    destruct (Z.eqb_spec ((i + 1) mod 2) 1); [done|]. injection Hb as <-. destruct Hc as [Hc|]; [|done].
    unfold token_sep in *. destruct (args_of r) as [|a [|[t|r'|r'] [|]]]; try done.
    + apply Z.leb_le. zdiv.
    + apply andb_true_iff. split; [apply Z.leb_le; zdiv|]. rewrite <- Z.negb_even, Zeven_mod. apply negb_true_iff, Z.eqb_neq. zdiv.
  - change (3 =? 2) with false in Hb. change (3 =? 3) with true in Hb. cbn iota in Hb. destruct (Z.eqb_spec (i + 1) 1); [done|].
    rewrite Hs. apply Z.leb_le. zdiv.
Qed.

Lemma list_matched_ok p line r i rs K sep : parser_wf p -> r <> RULE_const_object -> is_list r ->
  list_backtrack (rule_N r) (i + 1) = ListDone sep -> 0 <= i -> results p = rs ++ K -> Z.of_nat (length rs) = list_count r i ->
  Forall (good (structs p)) rs -> (r = RULE_testlist_comp_3c -> exists x K', K = x :: K' /\ good (structs p) x) ->
  safely errors (fun p' => leaves p K p' \/ r = RULE_testlist_comp_3c /\ exists x K', K = x :: K' /\ leaves_pending p K' p')
    (list_matched p line (id r) (rule_N r) (i + 1) (map rule_arg_code (args_of r)) sep).
Proof.
  intros Hw Hr Hl Hb Hi E Hlen Hg H3c. unfold Parser.list_matched. rewrite (proj2 (Z.ltb_ge _ _)) by lia. rewrite list_sep by done. cbn [obind].
  rewrite Z.add_simpl_r. change (if token_sep r then (i + 1) / 2 else i) with (list_count r i).
  assert (Hpush : list_count r i <> 1 \/ sep = true ->
    safely errors (fun p' => leaves p K p' \/ r = RULE_testlist_comp_3c /\ exists x K', K = x :: K' /\ leaves_pending p K' p')
      (push_result_rule p line (id r) (list_count r i))).
  { intros Hc. pose proof (list_arity r i sep Hr Hl Hb Hi Hc) as Har. rewrite <- Hlen in *. destruct (decide (r = RULE_testlist_comp_3c)) as [->|Hne].
    - destruct (H3c eq_refl) as (x & K' & -> & Hx). eapply safely_weaken; [apply (push_3c_ok p line rs x K'); [done|done|]|done|].
      + apply Forall_app. split; [done|by auto].
      + intros p' H. right. split; [done|]. by exists x, K'.
    - eapply safely_weaken; [apply (push_rule_node_ok p line r rs K); try done|done|by left]. intros ->. done. }
  destruct (Z.eqb_spec (list_count r i) 1) as [E1|]; [|by apply Hpush; left]. destruct sep; [by apply Hpush; right|].
  left. split; [by apply keeps_refl|]. rewrite E1 in Hlen. destruct rs as [|x [|]]; cbn [length] in Hlen; [lia| |lia].
  apply list.Forall_cons in Hg as [Hx _]. by exists x.
Qed.
End ParserWf.
