(* ===== verification/ParserSafe.v ===== *)
(** * Matching a rule is safe, ends, and follows the grammar

    [match_rule_ok]: from a state that satisfies the invariant, with fuel for the tokens that are
    left, matching a rule returns or raises one of the exceptions of the parser.  A rule that does not match
    leaves the parser as it is; one that matches has read tokens that the grammar derives from it,
    and leaves one node on the stack of results. *)

From stdpp Require Import gmap.
From S2P Require Import Prelude Malloc Token SmallInt LexerText Qstr QstrSpec ObjStr Grammar ParseNode Parser ParserRef ParserWf.
Local Open Scope Z_scope.

(** ** What the grammar derives *)

(** The sequences of tokens of a rule. [derives_alt r i] is [i] items and separators of a list, alternately. *)
Definition list_complete (r : rule_t) (i : nat) : bool := match kind_of r with list_ => Nat.odd i | _ => (1 <=? i)%nat end.

Inductive derives : rule_t -> list mp_token_kind_t -> Prop :=
| derives_or r n a ks : kind_of r = or_ n -> a ∈ args_of r -> derives_arg a ks -> derives r ks
| derives_and r ks : is_and r -> derives_args (args_of r) ks -> derives r ks
| derives_list r i ks : is_list r -> list_complete r i = true -> derives_alt r i ks -> derives r ks
with derives_arg : rule_arg_t -> list mp_token_kind_t -> Prop :=
| derives_tok t : derives_arg (tok t) [t]
| derives_rule r ks : derives r ks -> derives_arg (rule r) ks
| derives_opt_rule r ks : derives r ks -> derives_arg (opt_rule r) ks
| derives_none r : derives_arg (opt_rule r) []
with derives_args : list rule_arg_t -> list mp_token_kind_t -> Prop :=
| derives_nil : derives_args [] []
| derives_snoc args a ks ks' : derives_args args ks -> derives_arg a ks' -> derives_args (args ++ [a]) (ks ++ ks')
with derives_alt : rule_t -> nat -> list mp_token_kind_t -> Prop :=
| derives_alt_nil r : derives_alt r 0 []
| derives_alt_snoc r i a ks ks' : derives_alt r i ks -> args_of r !! Z.to_nat (Z.land (Z.land (Z.of_nat i) 1) (rule_N r)) = Some a ->
    derives_arg a ks' -> derives_alt r (S i) (ks ++ ks').

(** ** Facts about the grammar *)

(** No rule asks for the end of the source, refers to [file_input], or begins an and-rule of more than one argument
    with an optional one. *)
Definition grammar_plain (r : rule_t) : bool :=
  forallb (fun a => match a with
    | tok t => negb (bool_decide (t = MP_TOKEN_END))
    | rule r' | opt_rule r' => negb (bool_decide (r' = RULE_file_input))
    end) (args_of r)
  && match args_of r with opt_rule _ :: _ => bool_decide (r = RULE_file_input) | _ => true end.
Lemma grammars_plain r : grammar_plain r = true.
Proof. revert r. apply by_rules. by vm_compute. Qed.

(** The rules that steal are only referred to in these places. *)
Definition steals_here (r : rule_t) : bool :=
  forallb (fun a => match a with
    | tok _ => true
    | rule r' => negb (steals r') || bool_decide (r = RULE_testlist_comp_3 /\ r' = RULE_testlist_comp_3b)
    | opt_rule r' => negb (steals r') || bool_decide (r = RULE_testlist_comp /\ r' = RULE_testlist_comp_3)
        || bool_decide (r = RULE_testlist_comp_3b /\ r' = RULE_testlist_comp_3c)
    end) (args_of r).
Lemma steal_here r : steals_here r = true.
Proof. revert r. apply by_rules. by vm_compute. Qed.

Lemma arg_not_end r t : tok t ∈ args_of r -> t <> MP_TOKEN_END.
Proof.
  pose proof (grammars_plain r) as H. apply andb_true_iff in H as [H _]. rewrite List.forallb_forall in H.
  intros Ha%list_elem_of_In%H. by apply negb_true_iff, bool_decide_eq_false in Ha.
Qed.

Lemma arg_not_file r a r' : a ∈ args_of r -> a = rule r' \/ a = opt_rule r' -> r' <> RULE_file_input.
Proof.
  pose proof (grammars_plain r) as H. apply andb_true_iff in H as [H _]. rewrite List.forallb_forall in H.
  intros Ha%list_elem_of_In%H Hr. by destruct Hr as [-> | ->]; apply negb_true_iff, bool_decide_eq_false in Ha.
Qed.

Lemma opt_first r r' args : args_of r = opt_rule r' :: args -> r = RULE_file_input.
Proof.
  pose proof (grammars_plain r) as H. apply andb_true_iff in H as [_ H]. intros E. rewrite E in H. by apply bool_decide_eq_true in H.
Qed.

Lemma steal_rule r r' : rule r' ∈ args_of r -> steals r' = true -> r = RULE_testlist_comp_3 /\ r' = RULE_testlist_comp_3b.
Proof.
  pose proof (steal_here r) as H. unfold steals_here in H. rewrite List.forallb_forall in H. intros Ha%list_elem_of_In%H Hs.
  rewrite Hs in Ha. by apply bool_decide_eq_true in Ha.
Qed.

Lemma steal_opt r r' : opt_rule r' ∈ args_of r -> steals r' = true ->
  r = RULE_testlist_comp /\ r' = RULE_testlist_comp_3 \/ r = RULE_testlist_comp_3b /\ r' = RULE_testlist_comp_3c.
Proof.
  pose proof (steal_here r) as H. unfold steals_here in H. rewrite List.forallb_forall in H. intros Ha%list_elem_of_In%H Hs.
  rewrite Hs in Ha. cbn [negb orb] in Ha. apply orb_true_iff in Ha as [Ha|Ha]; apply bool_decide_eq_true in Ha; auto.
Qed.

(** ** What matching a rule does *)

Section ParserSafe.
Context {L : Type} {source : TokenSource L} {laws : TokenSourceLaws L}.
Context {byte_heap : Allocator Z} {rule_heap : Allocator rule_stack_t} {node_heap : Allocator mp_parse_node_t}.
Variable chunk_grow : nat -> Z -> bool.
Variable qstr_grow : nat -> Z -> bool.
Variable mp_parse_num_decimal : list Z -> outcome Z.
Variable input_kind : mp_parse_input_kind_t.
Variable N : Z.
Hypothesis byte_heap_small : forall n, m_renew_ok (A := Z) n = true -> n < 2 ^ 26.
Hypothesis node_heap_small : forall n, m_renew_ok (A := mp_parse_node_t) n = true -> n < 2 ^ 26.
Hypothesis chunk_grow_small : forall c n, chunk_grow c n = true -> n < 2 ^ 26.
Hypothesis qstr_grow_small : forall c n, qstr_grow c n = true -> n < 2 ^ 26.
Hypothesis decimal_ok : forall s, safely [SyntaxError] (fun _ => True) (mp_parse_num_decimal s).
Implicit Types (p : parser_t (L := L)).

Notation parser_wf := (parser_wf N).
Notation keeps := (keeps N).
Notation errors := (parse_errors L).
Notation match_rule := (match_rule chunk_grow qstr_grow mp_parse_num_decimal input_kind).

(** The tokens read from one state of the lexer to another. *)
Inductive reads : L -> list mp_token_kind_t -> L -> Prop :=
| reads_nil lex : reads lex [] lex
| reads_snoc lex ks lex' lex'' : reads lex ks lex' -> to_next lex' = Ret lex'' -> reads lex (ks ++ [tok_kind lex']) lex''.

Lemma reads_app lex1 ks1 lex2 ks2 lex3 : reads lex1 ks1 lex2 -> reads lex2 ks2 lex3 -> reads lex1 (ks1 ++ ks2) lex3.
Proof.
  intros H1 H2. induction H2 as [|lex2 ks lex' lex'' H2 IH E]; [by rewrite app_nil_r|]. rewrite app_assoc. econstructor; [by apply IH|done].
Qed.

Record advanced p p' (ks : list mp_token_kind_t) : Prop := {
  ad_wf : parser_wf p';
  ad_structs : extends (structs p) (structs p');
  ad_reads : reads (lexer p) ks (lexer p');
  ad_left : (length ks + remaining (lexer p') <= remaining (lexer p))%nat
}.

Lemma keeps_advanced p p' : keeps p p' -> advanced p p' [].
Proof. intros [H1 H2 H3]. split; [done|done|rewrite H2; constructor|rewrite H2; cbn; lia]. Qed.

Lemma advanced_trans p1 p2 p3 ks1 ks2 : advanced p1 p2 ks1 -> advanced p2 p3 ks2 -> advanced p1 p3 (ks1 ++ ks2).
Proof.
  intros [A1 A2 A3 A4] [B1 B2 B3 B4]. split; [done|by etrans|by eapply reads_app|rewrite length_app; lia].
Qed.

Lemma advanced_keeps p1 p2 p3 ks : advanced p1 p2 ks -> keeps p2 p3 -> advanced p1 p3 ks.
Proof. intros H1 H2%keeps_advanced. rewrite <- (app_nil_r ks). by eapply advanced_trans. Qed.

Lemma keeps_advanced_l p1 p2 p3 ks : keeps p1 p2 -> advanced p2 p3 ks -> advanced p1 p3 ks.
Proof. intros H1%keeps_advanced H2. change ks with ([] ++ ks). by eapply advanced_trans. Qed.

Lemma advanced_refl p : parser_wf p -> advanced p p [].
Proof. intros H. by apply keeps_advanced, keeps_refl. Qed.

(** The results of a rule: one node more, or the pending one also in the place of the one below. *)
Definition rule_results (r : rule_t) p p' : Prop :=
  (exists pn, results p' = pn :: results p /\ good (structs p') pn) \/
  (steals r = true /\ exists x K pn, results p = x :: K /\ results p' = pn :: pn :: K /\ pending (structs p') pn).

Definition rule_pre (r : rule_t) p : Prop :=
  r <> RULE_const_object /\ parser_wf p /\ (steals r = true -> exists x K, results p = x :: K /\ good (structs p) x).

Definition rule_post (r : rule_t) p (res : parser_t (L := L) * bool) : Prop :=
  let '(p', ok) := res in
  if ok : bool then exists ks, advanced p p' ks /\ derives r ks /\ (r <> RULE_file_input -> ks <> []) /\ rule_results r p p' else p' = p.

Lemma at_token_true p t : at_token p t = true -> tok_kind (lexer p) = t.
Proof. intros H. by apply bool_decide_eq_true in H. Qed.

Lemma lexer_to_next_ok p t : parser_wf p -> at_token p t = true -> t <> MP_TOKEN_END ->
  safely errors (fun p' => advanced p p' [t] /\ results p' = results p /\ structs p' = structs p) (lexer_to_next p).
Proof.
  intros Hw Ht%at_token_true Hend. unfold lexer_to_next. pose proof (to_next_ok (lexer p) (pw_source _ _ Hw)) as H.
  rewrite Ht in H. specialize (H Hend). destruct (to_next (lexer p)) as [lex|e| |] eqn:E; cbn [obind safely] in *; try done.
  - destruct H as [Hg Hr]. split_and!; [|done|done]. split; [|done| |cbn; lia].
    + pose proof (pw_remaining _ _ Hw). destruct Hw. split; try done. cbn. lia.
    + rewrite <- Ht. apply (reads_snoc _ [] (lexer p)); [constructor|done].
  - apply elem_of_app. by right.
Qed.

(** The token of an argument that leaves its node. *)
Lemma push_token_ok p t r : parser_wf p -> at_token p t = true -> t <> MP_TOKEN_END ->
  safely errors (fun p' => advanced p p' [t] /\ exists pn, results p' = pn :: results p /\ good (structs p') pn)
    (let! p := push_result_token chunk_grow qstr_grow mp_parse_num_decimal p r in lexer_to_next p).
Proof.
  intros Hw Ht Hend. eapply safely_bind; [by eapply push_result_token_ok|]. intros p1 (Hk1 & pn & Er1 & Hg1).
  eapply safely_weaken; [apply (lexer_to_next_ok p1 t); [apply Hk1| |done]|done|].
  - unfold at_token. by rewrite (kp_lexer _ _ _ Hk1).
  - intros p2 (Ha & Er2 & Es2). split; [by eapply keeps_advanced_l|]. exists pn. rewrite Er2, Es2. done.
Qed.

Lemma rank_bound r : (rank r < 32)%nat.
Proof. pose proof (no_left_recursion r) as H. unfold rank_decreases in H. apply andb_true_iff in H as [_ H]. by apply Nat.ltb_lt in H. Qed.

Lemma rank_left r r' : r' ∈ left_calls r -> (rank r' < rank r)%nat.
Proof.
  pose proof (no_left_recursion r) as H. unfold rank_decreases in H. apply andb_true_iff in H as [H _]. rewrite List.forallb_forall in H.
  intros Hin%list_elem_of_In%H. by apply Nat.ltb_lt in Hin.
Qed.

Section Calls.
(** The calls, with fuel [n], and the rule that makes them. *)
Variable n : nat.
Hypothesis call_ok : forall r p, rule_pre r p -> (32 * remaining (lexer p) + rank r + 2 <= n)%nat -> safely errors (rule_post r p) (match_rule n r p).
Variables (r : rule_t) (p0 : parser_t (L := L)).
Hypothesis pre0 : rule_pre r p0.
Hypothesis fuel0 : (32 * remaining (lexer p0) + rank r + 1 <= n)%nat.

Lemma left_call_ok r' : rule_pre r' p0 -> r' ∈ left_calls r -> safely errors (rule_post r' p0) (match_rule n r' p0).
Proof. intros Hp Hin%rank_left. apply call_ok; [done|lia]. Qed.

Lemma later_call_ok r' p ks : rule_pre r' p -> advanced p0 p ks -> ks <> [] -> safely errors (rule_post r' p) (match_rule n r' p).
Proof.
  intros Hp Ha Hks. apply call_ok; [done|]. pose proof (ad_left _ _ _ Ha). pose proof (rank_bound r'). destruct ks; [done|]. cbn [length] in *. lia.
Qed.

Lemma arg_defined a r' : a ∈ args_of r -> a = rule r' \/ a = opt_rule r' -> r' <> RULE_const_object.
Proof. apply args_defined, pre0. Qed.

Lemma left_calls_or k r' : kind_of r = or_ k -> rule r' ∈ args_of r -> r' ∈ left_calls r.
Proof. intros Hk Hin. unfold left_calls. rewrite Hk. apply list_elem_of_omap. by exists (rule r'). Qed.


Notation or_alts args p := (or_alts chunk_grow qstr_grow mp_parse_num_decimal (match_rule n) (id r) args p).
Notation and_args args first p := (and_args chunk_grow qstr_grow mp_parse_num_decimal (match_rule n) (id r) args first p).

Lemma or_ok k args : kind_of r = or_ k -> (forall a, a ∈ args -> a ∈ args_of r) -> safely errors (rule_post r p0) (or_alts args p0).
Proof.
  intros Hk. pose proof pre0 as (Hr & Hw & Hst). induction args as [|a args IH]; intros Hin; cbn [ParserRef.or_alts]; [done|].
  assert (Ha : a ∈ args_of r) by (apply Hin; left).
  assert (IH' : safely errors (rule_post r p0) (or_alts args p0)) by (apply IH; intros a' Ha'; apply Hin; by right). clear IH.
  destruct a as [t|r'|r'].
  - destruct (at_token p0 t) eqn:Ht; [|done].
    assert (E : (let! p := push_result_token chunk_grow qstr_grow mp_parse_num_decimal p0 (id r) in let! p := lexer_to_next p in Ret (p, true)) =
      (let! p := (let! p := push_result_token chunk_grow qstr_grow mp_parse_num_decimal p0 (id r) in lexer_to_next p) in Ret (p, true))) by (by rewrite obind_assoc).
    rewrite E. eapply safely_bind; [apply (push_token_ok p0 t (id r)); [done|done|by apply arg_not_end with r]|].
    intros p1 (Had & Hres). cbn [safely]. exists [t]. split_and!; [done|by apply derives_or with k (tok t); [..|constructor]|done|by left].
  - eapply safely_bind; [apply (left_call_ok r'); [|by apply left_calls_or with k]|].
    + split_and!; [by apply arg_defined with (rule r'); [|left]|done|]. intros Hs. apply Hst.
      destruct (steal_rule r r' Ha Hs) as [-> ->]. done.
    + intros [p1 []]; [|by intros ->]. intros (ks & Had & Hd & Hne & Hres). cbn [safely]. exists ks.
      split_and!; [done|by apply derives_or with k (rule r'); [..|constructor]|intros _; apply Hne; by eapply arg_not_file; [|left]|].
      destruct Hres as [Hres|[Hs Hres]]; [by left|right]. split; [|done]. by destruct (steal_rule r r' Ha Hs) as [-> ->].
  - exfalso. destruct (rule_tables r Hr) as (_ & l' & _ & _ & Hfit). rewrite Hk in Hfit. cbn in Hfit.
    apply andb_true_iff in Hfit as [_ Hfit]. rewrite List.forallb_forall in Hfit. by apply list_elem_of_In, Hfit in Ha.
Qed.

(** ** And-rules *)

(** The state before the arguments after [pre]. *)
Definition and_inv (pre : list rule_arg_t) p : Prop :=
  exists ks rs, advanced p0 p ks /\ derives_args pre ks /\ results p = rs ++ results p0 /\ length rs = pushed pre /\ Forall (good (structs p)) rs /\
    (pre <> [] -> ks <> [] \/ r = RULE_file_input) /\ (pre = [] -> p = p0).

(** After all of them: as above, or the last one left the pending node. *)
Definition and_post (res : parser_t (L := L) * bool) : Prop :=
  let '(p, ok) := res in
  if ok : bool then
    and_inv (args_of r) p \/
    exists ks pn, advanced p0 p ks /\ derives_args (args_of r) ks /\ ks <> [] /\ pending (structs p) pn /\
      (r = RULE_testlist_comp /\ results p = pn :: pn :: results p0 \/
       r = RULE_testlist_comp_3b /\ exists x K, results p0 = x :: K /\ results p = pn :: pn :: K)
  else p = p0.

(** The argument [a] was matched by the tokens [ks']. *)
Lemma and_inv_snoc pre a p p' ks' : and_inv pre p -> advanced p p' ks' -> derives_arg a ks' ->
  (pre = [] -> ks' <> [] \/ r = RULE_file_input) ->
  (if pushes a then exists pn, results p' = pn :: results p /\ good (structs p') pn else results p' = results p) ->
  and_inv (pre ++ [a]) p'.
Proof.
  intros (ks & rs & Ha & Hd & Er & Hl & Hg & Hne & _) Ha' Hd' Hne' Hres.
  pose proof (Forall_good_extends _ _ _ (ad_structs _ _ _ Ha') Hg) as Hg'.
  assert (H : exists rs', results p' = rs' ++ results p0 /\ length rs' = pushed (pre ++ [a]) /\ Forall (good (structs p')) rs').
  { rewrite pushed_snoc. destruct (pushes a).
    - destruct Hres as (pn & Er' & Hpn). exists (pn :: rs). rewrite Er', Er. split_and!; [done|cbn [length]; lia|by constructor].
    - exists rs. rewrite Hres. split_and!; [done|lia|done]. }
  destruct H as (rs' & H1 & H2 & H3). exists (ks ++ ks'), rs'.
  split_and!; [by eapply advanced_trans|by constructor|done|done|done| |by intros []%app_nil].
  intros _. destruct (decide (pre = [])) as [Hp|Hp]; [destruct (Hne' Hp)|destruct (Hne Hp)]; auto; left; by intros []%app_nil.
Qed.

Lemma file_input_args pre a args : r = RULE_file_input -> args_of r = pre ++ a :: args -> pre = [] /\ args = [].
Proof.
  intros ->. change (args_of RULE_file_input) with [opt_rule RULE_file_input_2]. destruct pre as [|x [|]]; [|done|done].
  destruct args; [done|done].
Qed.

(** A call of an argument from the state before it. *)
Lemma and_call_ok pre a r' args p : is_and r -> and_inv pre p -> args_of r = pre ++ a :: args -> a = rule r' \/ a = opt_rule r' -> rule_pre r' p ->
  safely errors (rule_post r' p) (match_rule n r' p).
Proof.
  intros Hand (ks & rs & Ha & _ & _ & _ & _ & Hne & Hp) E Hr Hpre. destruct pre as [|x pre].
  - rewrite Hp by done. rewrite (Hp eq_refl) in Hpre. apply left_call_ok; [done|]. unfold left_calls. unfold is_and in Hand. rewrite E.
    destruct (kind_of r); try done; destruct Hr as [-> | ->]; left.
  - destruct (Hne ltac:(done)) as [Hks|Hf]; [by eapply later_call_ok|]. by destruct (file_input_args _ _ _ Hf E).
Qed.

Lemma and_token_ok pre t p : and_inv pre p -> tok t ∈ args_of r -> at_token p t = true ->
  safely errors (and_inv (pre ++ [tok t]))
    (let! p := if bool_decide (t = MP_TOKEN_NAME) then push_result_token chunk_grow qstr_grow mp_parse_num_decimal p (id r) else Ret p in lexer_to_next p).
Proof.
  intros Hinv Hin Ht. assert (Hw : parser_wf p) by (by destruct Hinv as (ks & rs & Ha & _); apply Ha).
  pose proof (arg_not_end r t Hin) as Hend. case_bool_decide as Hname; cbn [obind].
  - eapply safely_weaken; [by apply (push_token_ok p t (id r))|done|]. intros p1 (Ha & Hres).
    apply (and_inv_snoc pre (tok t) p p1 [t]); [done|done|constructor|by left|]. cbn [pushes]. by rewrite bool_decide_eq_true_2.
  - eapply safely_weaken; [by apply (lexer_to_next_ok p t)|done|]. intros p1 (Ha & Er & _).
    apply (and_inv_snoc pre (tok t) p p1 [t]); [done|done|constructor|by left|]. cbn [pushes]. by rewrite bool_decide_eq_false_2.
Qed.

(** The rule of an argument left the pending node: it was the last argument. *)
Lemma and_pending pre r' args p p' ks' x K pn : and_inv pre p -> args_of r = pre ++ opt_rule r' :: args -> steals r' = true ->
  advanced p p' ks' -> derives r' ks' -> ks' <> [] -> results p = x :: K -> results p' = pn :: pn :: K -> pending (structs p') pn ->
  args = [] /\ and_post (p', true).
Proof.
  intros (ks & rs & Ha & Hd & Er & Hl & Hg & _ & _) E Hs Ha' Hd' Hne Ex Ex' Hp.
  assert (Hin : opt_rule r' ∈ args_of r) by (rewrite E; set_solver).
  assert (H : args = [] /\ (r = RULE_testlist_comp /\ pushed pre = 1%nat \/ r = RULE_testlist_comp_3b /\ pushed pre = 0%nat)).
  { destruct (steal_opt r r' Hin Hs) as [[Hr ->]|[Hr ->]]; rewrite Hr in E.
    - change (args_of RULE_testlist_comp) with [rule RULE_testlist_comp_2; opt_rule RULE_testlist_comp_3] in E.
      destruct pre as [|a1 [|a2 [|]]]; [done| |done|done]. injection E as <- <-. auto.
    - change (args_of RULE_testlist_comp_3b) with [tok MP_TOKEN_DEL_COMMA; opt_rule RULE_testlist_comp_3c] in E.
      destruct pre as [|a1 [|a2 [|]]]; [done| |done|done]. injection E as <- <-. auto. }
  destruct H as [-> H]. split; [done|]. right. exists (ks ++ ks'), pn.
  split_and!; [by eapply advanced_trans|rewrite E; constructor; [done|by constructor]|by intros []%app_nil|done|].
  destruct H as [[-> Hpre]|[-> Hpre]]; [left|right]; (split; [done|]); rewrite Hpre in Hl.
  - destruct rs as [|y [|]]; [done| |done]. rewrite Er in Ex. injection Ex as <- <-. done.
  - destruct rs; [|done]. exists x, K. by rewrite <- Ex, Er.
Qed.

(** What the rule of an argument may rely on. *)
Lemma and_child_pre pre a r' args p : is_and r -> and_inv pre p -> args_of r = pre ++ a :: args -> a = rule r' \/ a = opt_rule r' -> rule_pre r' p.
Proof.
  intros Hand (ks & rs & Ha & _ & Er & Hl & Hg & _ & _) E Hr.
  assert (Hin : a ∈ args_of r) by (rewrite E; set_solver). split_and!; [by eapply arg_defined|apply Ha|]. intros Hs.
  destruct Hr as [-> | ->].
  - destruct (steal_rule r r' Hin Hs) as [E1 _]. by rewrite E1 in Hand.
  - destruct (steal_opt r r' Hin Hs) as [[Hr ->]|[Hr ->]]; rewrite Hr in E.
    + change (args_of RULE_testlist_comp) with [rule RULE_testlist_comp_2; opt_rule RULE_testlist_comp_3] in E.
      destruct pre as [|a1 [|a2 [|]]]; [done| |done|done]. injection E as <- <-. destruct rs as [|x [|]]; [done| |done].
      exists x, (results p0). split; [done|]. by apply list.Forall_cons in Hg as [Hg _].
    + change (args_of RULE_testlist_comp_3b) with [tok MP_TOKEN_DEL_COMMA; opt_rule RULE_testlist_comp_3c] in E.
      destruct pre as [|a1 [|a2 [|]]]; [done| |done|done]. injection E as <- <-. destruct rs; [|done].
      destruct pre0 as (_ & _ & Hst). destruct (Hst ltac:(by rewrite Hr)) as (x & K & Ex & Hx). exists x, K.
      split; [by rewrite Er|]. eapply good_extends; [apply Ha|done].
Qed.

Lemma and_ok args : is_and r -> forall pre first p, args_of r = pre ++ args -> (first = true <-> pre = []) -> and_inv pre p ->
  safely errors and_post (and_args args first p).
Proof.
  intros Hand. induction args as [|a args IH]; intros pre first p E Hf Hinv; cbn [ParserRef.and_args].
  { left. by rewrite E, app_nil_r. }
  assert (E' : args_of r = (pre ++ [a]) ++ args) by (by rewrite <- app_assoc).
  assert (Hfails : safely errors and_post (if first then Ret (p, false) else syntax_error p)).
  { destruct first; [|apply syntax_error_ok]. destruct Hinv as (ks & rs & _ & _ & _ & _ & _ & _ & Hp). by apply Hp, Hf. }
  assert (IH' : forall p', and_inv (pre ++ [a]) p' -> safely errors and_post (and_args args false p')).
  { intros p' Hp'. apply (IH (pre ++ [a])); [done|split; [done|by intros []%app_nil]|done]. }
  destruct a as [t|r'|r'].
  - destruct (at_token p t) eqn:Ht; [|done]. rewrite <- obind_assoc.
    eapply safely_bind; [apply (and_token_ok pre t p); [done|rewrite E; set_solver|done]|done].
  - eapply safely_bind; [by eapply (and_call_ok pre (rule r')); [..|left|eapply and_child_pre; [..|left]]|].
    intros [p1 []]; [|intros E1; cbn in E1; rewrite E1; exact Hfails]. intros (ks & Ha & Hd & Hne & Hres).
    assert (Hin : rule r' ∈ args_of r) by (rewrite E; set_solver).
    apply IH'. apply (and_inv_snoc pre (rule r') p p1 ks); [done|done|by constructor| |].
    + intros _. left. apply Hne. by eapply arg_not_file; [|left].
    + destruct Hres as [Hres|[Hs _]]; [done|]. destruct (steal_rule r r' Hin Hs) as [E1 _]. by rewrite E1 in Hand.
  - assert (Hin : opt_rule r' ∈ args_of r) by (rewrite E; set_solver).
    eapply safely_bind; [by eapply (and_call_ok pre (opt_rule r')); [..|right|eapply and_child_pre; [..|right]]|].
    intros [p1 []]; cbn [obind].
    + intros (ks & Ha & Hd & Hne & Hres). assert (Hks : ks <> []) by (apply Hne; by eapply arg_not_file; [|right]).
      destruct Hres as [Hres|(Hs & x & K & pn & Ex & Ex' & Hp)].
      * apply IH'. by apply (and_inv_snoc pre (opt_rule r') p p1 ks); [..|constructor|left|].
      * destruct (and_pending pre r' args p p1 ks x K pn) as [-> Hpost]; done.
    + intros ->. eapply safely_bind; [apply push_good_ok; [done|by destruct Hinv as (? & ? & Ha & _); apply Ha|done]|].
      intros p2 (Hk & Hres). apply IH'. apply (and_inv_snoc pre (opt_rule r') p p2 []); [done|by apply keeps_advanced|by constructor| |done].
      intros ->. right. by eapply opt_first.
Qed.

Lemma leaves_post p ks p' : advanced p0 p ks -> derives r ks -> (r <> RULE_file_input -> ks <> []) -> leaves N p (results p0) p' -> rule_post r p0 (p', true).
Proof.
  intros Ha Hd Hne (Hk & pn & Er & Hg). exists ks. split_and!; [by eapply advanced_keeps|done|done|]. left. by exists pn.
Qed.

Lemma leaves_pending_post p ks p' x K : advanced p0 p ks -> derives r ks -> ks <> [] -> steals r = true -> results p0 = x :: K ->
  leaves_pending N p K p' -> rule_post r p0 (p', true).
Proof.
  intros Ha Hd Hne Hs Ex (Hk & pn & Er & Hp). exists ks. split_and!; [by eapply advanced_keeps|done|done|].
  right. split; [done|]. by exists x, K, pn.
Qed.

Lemma and_rule_ok line : is_and r ->
  safely errors (rule_post r p0)
    (let! '(p, ok) := and_args (args_of r) true p0 in
     if ok : bool then
       let! p := and_matched chunk_grow input_kind p line (id r) (rule_act (kind_of r)) (map rule_arg_code (args_of r)) in Ret (p, true)
     else Ret (p, false)).
Proof.
  intros Hand. pose proof pre0 as (Hr & Hw & Hst).
  assert (Hinv : and_inv [] p0).
  { exists [], []. split_and!; [by apply advanced_refl|constructor|done|done|constructor|done|done]. }
  eapply safely_bind; [by apply (and_ok (args_of r) Hand [] true p0)|]. intros [p []]; [|by intros ->].
  assert (Hpush : forall p', rule_post r p0 (p', true) -> safely errors (rule_post r p0) (Ret (p', true))) by done.
  intros [(ks & rs & Ha & Hd & Er & Hl & Hg & Hne & _)|(ks & pn & Ha & Hd & Hne & Hp & Hcase)].
  - assert (Hks : r <> RULE_file_input -> ks <> []).
    { intros Hf. destruct Hne as [|]; [|done|done]. intros E. unfold is_and in Hand. pose proof (rule_tables r Hr) as (_ & l & _ & _ & Hfit).
      rewrite E in Hfit. unfold args_fit in Hfit.
      destruct (kind_of r); try done; apply andb_true_iff in Hfit as [H1%Z.eqb_eq H2%Z.ltb_lt]; cbn in H1; lia. }
    assert (Hder : derives r ks) by (by apply derives_and).
    eapply safely_bind; [|intros p' Hl'; cbn [safely]; by eapply (leaves_post p ks)].
    destruct (decide (r = RULE_testlist_comp)) as [Htc|Htc].
    + rewrite Htc in Hl |- *. change (pushed (args_of RULE_testlist_comp)) with 2%nat in Hl.
      destruct rs as [|b [|a [|]]]; try done. apply list.Forall_cons in Hg as [Hb Hg]. apply list.Forall_cons in Hg as [Hga _].
      eapply and_matched_tc_ok; [done..|apply (ad_wf _ _ _ Ha)|exact Er|by left].
    + eapply and_matched_ok; try done. apply Ha.
  - assert (Hder : derives r ks) by (by apply derives_and).
    destruct Hcase as [[Htc Er]|(H3b & x & K & Ex & Er)].
    + eapply safely_bind; [|intros p' Hl'; cbn [safely]; by eapply (leaves_post p ks)]. rewrite Htc.
      eapply and_matched_tc_ok; [done..|apply (ad_wf _ _ _ Ha)|exact Er|by right].
    + assert (Hs : steals r = true) by (by rewrite H3b).
      eapply safely_bind; [|intros p' Hl'; cbn [safely]; by eapply (leaves_pending_post p ks p' x K)]. rewrite H3b.
      eapply and_matched_3b_ok; try done. apply Ha.
Qed.

(** ** List-rules *)

Notation list_items fuel line p i := (list_items chunk_grow qstr_grow mp_parse_num_decimal (match_rule n) fuel (id r) (rule_N r) line (args_of r) p i).
Notation list_stop line p i := (list_stop chunk_grow (id r) (rule_N r) line (args_of r) p i).

(** After [i] items and separators. *)
Definition list_inv (i : nat) p : Prop :=
  exists ks rs, advanced p0 p ks /\ derives_alt r i ks /\ results p = rs ++ results p0 /\ Z.of_nat (length rs) = list_count r (Z.of_nat i) /\
    Forall (good (structs p)) rs /\ (i <= length ks)%nat /\ (i = 0%nat -> p = p0).

Definition leaves_result (idx : Z) (a : rule_arg_t) : bool := (idx =? 0) || match a with rule _ => true | _ => false end.

Lemma list_arg_count i : is_list r -> r <> RULE_const_object -> exists a, args_of r !! Z.to_nat (Z.land (Z.land (Z.of_nat i) 1) (rule_N r)) = Some a /\
  match a with opt_rule _ => False | _ => True end /\
  list_count r (Z.of_nat (S i)) = list_count r (Z.of_nat i) + b2z (leaves_result (Z.land (Z.land (Z.of_nat i) 1) (rule_N r)) a).
Proof.
  intros Hl Hr. destruct (rule_tables r Hr) as (_ & l' & _ & _ & Hfit). unfold is_list, rule_N, list_count, token_sep, leaves_result in *.
  assert (E : Z.land (Z.of_nat i) 1 = Z.of_nat i mod 2) by exact (land_mask (Z.of_nat i) 1 ltac:(lia)). rewrite E.
  assert (Hi : Z.of_nat i mod 2 = 0 \/ Z.of_nat i mod 2 = 1) by zdiv.
  destruct (kind_of r); try done; cbn in Hfit; destruct (args_of r) as [|[] [|[] [|]]]; try done;
    destruct Hi as [Hi|Hi]; rewrite Hi; cbn -[Z.of_nat Z.div]; eexists; (split; [reflexivity|]); (split; [exact I|]); cbn -[Z.of_nat Z.div];
    match goal with |- context [b2z ?b] => let v := eval vm_compute in (b2z b) in change (b2z b) with v end; zdiv.
Qed.

Lemma list_stop_ok line i p : is_list r -> list_inv i p -> safely errors (rule_post r p0) (list_stop line p (Z.of_nat i + 1)).
Proof.
  intros Hl (ks & rs & Ha & Hd & Er & Hlen & Hg & Hi & Hp). pose proof pre0 as (Hr & Hw & Hst).
  unfold ParserRef.list_stop. destruct (list_backtrack _ _) as [| |sep] eqn:Hb; [|apply syntax_error_ok|].
  - cbn [safely]. apply Hp. unfold list_backtrack in Hb. destruct (rule_N r =? 2); destruct (Z.eqb_spec (Z.of_nat i + 1) 1) as [E|]; try done; try lia.
    destruct (Z.land _ _ =? 1); [destruct (rule_N r =? 3)|]; done.
  - assert (Hc : list_complete r i = true).
    { clear -Hl Hb. assert (E : Z.land (Z.of_nat i + 1) 1 = (Z.of_nat i + 1) mod 2) by exact (land_mask _ 1 ltac:(lia)).
      unfold list_backtrack, is_list, list_complete, rule_N in *. rewrite E in Hb. destruct (kind_of r); try done.
      - change (2 =? 2) with true in Hb. cbn iota in Hb. destruct (Z.eqb_spec (Z.of_nat i + 1) 1); [done|]. apply Nat.leb_le. lia.
      - change (1 =? 2) with false in Hb. change (1 =? 3) with false in Hb. cbn iota in Hb. destruct (Z.eqb_spec (Z.of_nat i + 1) 1); [done|].
        destruct (Z.eqb_spec ((Z.of_nat i + 1) mod 2) 1); [done|]. apply Nat.odd_spec. exists (Z.to_nat (Z.of_nat i / 2)). zdiv.
      - change (3 =? 2) with false in Hb. change (3 =? 3) with true in Hb. cbn iota in Hb. destruct (Z.eqb_spec (Z.of_nat i + 1) 1); [done|]. apply Nat.leb_le. lia. }
    assert (Hi0 : i <> 0%nat) by (intros ->; unfold is_list, list_complete in *; by destruct (kind_of r)).
    assert (Hks : ks <> []) by (intros ->; cbn in Hi; lia).
    assert (Hder : derives r ks) by (by eapply derives_list).
    eapply safely_bind; [eapply (list_matched_ok _ N); try done; [apply Ha|lia|]|].
    + intros E. destruct Hst as (x & K & Ex & Hx); [by rewrite E|]. exists x, K. split; [done|]. eapply good_extends; [apply Ha|done].
    + intros p' [H|(E & x & K & Ex & H)]; cbn [safely].
      * by apply (leaves_post p ks p').
      * apply (leaves_pending_post p ks p' x K); try done. by rewrite E.
Qed.
(** One more item or separator. *)
Lemma list_inv_snoc i a p p' ks' : is_list r -> list_inv i p -> advanced p p' ks' ->
  args_of r !! Z.to_nat (Z.land (Z.land (Z.of_nat i) 1) (rule_N r)) = Some a -> derives_arg a ks' -> ks' <> [] ->
  (if leaves_result (Z.land (Z.land (Z.of_nat i) 1) (rule_N r)) a then exists pn, results p' = pn :: results p /\ good (structs p') pn
   else results p' = results p) ->
  list_inv (S i) p'.
Proof.
  intros Hl (ks & rs & Ha & Hd & Er & Hlen & Hg & Hi & _) Ha' Hin Hd' Hne Hres. pose proof pre0 as (Hr & _ & _).
  pose proof (Forall_good_extends _ _ _ (ad_structs _ _ _ Ha') Hg) as Hg'.
  destruct (list_arg_count i Hl Hr) as (a' & Hin' & _ & Hc). rewrite Hin in Hin'. injection Hin' as <-.
  assert (H : exists rs', results p' = rs' ++ results p0 /\ Z.of_nat (length rs') = list_count r (Z.of_nat (S i)) /\ Forall (good (structs p')) rs').
  { destruct (leaves_result _ _); cbn [b2z] in Hc.
    - destruct Hres as (pn & Er' & Hpn). exists (pn :: rs). rewrite Er', Er. split_and!; [done|cbn [length]; lia|by constructor].
    - exists rs. rewrite Hres. split_and!; [done|lia|done]. }
  destruct H as (rs' & H1 & H2 & H3). exists (ks ++ ks'), rs'.
  split_and!; [by eapply advanced_trans|by econstructor|done|done|done| |done].
  rewrite length_app. destruct ks'; [done|]. cbn [length]. lia.
Qed.

Lemma list_token_ok i t p : is_list r -> list_inv i p -> args_of r !! Z.to_nat (Z.land (Z.land (Z.of_nat i) 1) (rule_N r)) = Some (tok t) ->
  at_token p t = true ->
  safely errors (fun p' => advanced p p' [t] /\ list_inv (S i) p')
    (let! p := if Z.land (Z.land (Z.of_nat i) 1) (rule_N r) =? 0 then push_result_token chunk_grow qstr_grow mp_parse_num_decimal p (id r) else Ret p in
     lexer_to_next p).
Proof.
  intros Hl Hinv Hin Ht. assert (Hw : parser_wf p) by (by destruct Hinv as (ks & rs & Ha & _); apply Ha).
  assert (Hend : t <> MP_TOKEN_END) by (by eapply arg_not_end, list_elem_of_lookup_2).
  assert (Hstep : forall p', advanced p p' [t] -> (if leaves_result (Z.land (Z.land (Z.of_nat i) 1) (rule_N r)) (tok t)
      then exists pn, results p' = pn :: results p /\ good (structs p') pn else results p' = results p) -> list_inv (S i) p').
  { intros p' Ha Hres. by apply (list_inv_snoc i (tok t) p p' [t]); [..|constructor| |]. }
  unfold leaves_result in Hstep. rewrite orb_false_r in Hstep. destruct (_ =? 0); cbn [obind].
  - eapply safely_weaken; [by apply (push_token_ok p t (id r))|done|]. intros p1 (Ha & Hres). split; [done|by apply Hstep].
  - eapply safely_weaken; [by apply (lexer_to_next_ok p t)|done|]. intros p1 (Ha & Er & _). split; [done|by apply Hstep].
Qed.

Lemma list_call_ok i r' p : is_list r -> list_inv i p -> args_of r !! Z.to_nat (Z.land (Z.land (Z.of_nat i) 1) (rule_N r)) = Some (rule r') ->
  safely errors (rule_post r' p) (match_rule n r' p).
Proof.
  intros Hl (ks & rs & Ha & _ & _ & _ & _ & Hi & Hp) Hin. assert (Hin' : rule r' ∈ args_of r) by (by eapply list_elem_of_lookup_2).
  assert (Hpre : rule_pre r' p).
  { split_and!; [by apply arg_defined with (rule r'); [|left]|apply Ha|]. intros Hs. destruct (steal_rule r r' Hin' Hs) as [E _]. by rewrite E in Hl. }
  destruct i as [|i].
  - rewrite Hp by done. rewrite (Hp eq_refl) in Hpre. apply left_call_ok; [done|]. unfold left_calls.
    change (Z.land (Z.land (Z.of_nat 0) 1) (rule_N r)) with 0 in Hin. change (Z.to_nat 0) with 0%nat in Hin. destruct (args_of r) as [|a args]; [done|].
    injection Hin as ->. unfold is_list in Hl. destruct (kind_of r); try done; by left.
  - eapply later_call_ok; [done|done|]. intros ->. cbn in Hi. lia.
Qed.

Lemma list_items_ok line m : is_list r -> forall i p, list_inv i p -> (remaining (lexer p) < m)%nat ->
  safely errors (rule_post r p0) (list_items m line p (Z.of_nat i)).
Proof.
  intros Hl. pose proof pre0 as (Hr & Hw & _). induction m as [|m IH]; intros i p Hinv Hm; [lia|]. cbn [ParserRef.list_items].
  pose proof (pw_remaining _ _ Hw) as Hrem.
  assert (Hnext : wrap 32 (Z.of_nat i + 1) = Z.of_nat i + 1).
  { destruct Hinv as (ks & rs & Ha & _ & _ & _ & _ & Hi & _). pose proof (ad_left _ _ _ Ha). apply wrap_small. lia. }
  rewrite Hnext.
  assert (IH' : forall p' ks, advanced p p' ks -> ks <> [] -> list_inv (S i) p' -> safely errors (rule_post r p0) (list_items m line p' (Z.of_nat i + 1))).
  { intros p' ks Ha Hks H. replace (Z.of_nat i + 1) with (Z.of_nat (S i)) by lia. apply IH; [done|].
    pose proof (ad_left _ _ _ Ha). destruct ks; [done|]. cbn [length] in *. lia. }
  destruct (list_arg_count i Hl Hr) as (a & Hin & Ha & _). rewrite Hin. destruct a as [t|r'|]; [| |done].
  - destruct (at_token p t) eqn:Ht; [|by apply list_stop_ok]. rewrite <- obind_assoc.
    eapply safely_bind; [by apply (list_token_ok i t p)|]. intros p1 (H1 & H2). by eapply IH'.
  - eapply safely_bind; [by apply (list_call_ok i r' p)|]. intros [p1 []]; [|intros ->; by apply list_stop_ok]. intros (ks & Had & Hd & Hne & Hres).
    assert (Hin' : rule r' ∈ args_of r) by (by eapply list_elem_of_lookup_2).
    assert (Hks : ks <> []) by (apply Hne; by eapply arg_not_file; [|left]).
    eapply IH'; [done|done|]. apply (list_inv_snoc i (rule r') p p1 ks); try done; [by constructor|].
    unfold leaves_result. rewrite orb_true_r. destruct Hres as [Hres|[Hs _]]; [done|]. destruct (steal_rule r r' Hin' Hs) as [E _]. by rewrite E in Hl.
Qed.
End Calls.

(** ** The rules *)

(** Fuel for the tokens that are left, each of which is read below at most [rank r] rules. *)
Lemma match_rule_ok n r p : rule_pre r p -> (32 * remaining (lexer p) + rank r + 2 <= n)%nat -> safely errors (rule_post r p) (match_rule n r p).
Proof.
  revert r p. induction n as [|n IH]; intros r p Hpre Hn; [lia|]. cbn [ParserRef.match_rule].
  assert (Hfuel : (32 * remaining (lexer p) + rank r + 1 <= n)%nat) by lia.
  assert (Hlist : is_list r -> safely errors (rule_post r p)
    (list_items chunk_grow qstr_grow mp_parse_num_decimal (match_rule n) n (id r) (rule_N r) (wrap 24 (tok_line (lexer p))) (args_of r) p 0)).
  { intros Hl. apply (list_items_ok n IH r p Hpre Hfuel _ n Hl 0%nat p); [|lia].
    exists [], []. split_and!; [by apply advanced_refl, Hpre|constructor|done| |constructor|done|done].
    unfold list_count. destruct (token_sep r); reflexivity. }
  unfold is_list, rule_N in Hlist.
  destruct (kind_of r) as [k|k|k|k| | |] eqn:Hk; try (by apply Hlist).
  1: by eapply or_ok.
  all: rewrite <- Hk; apply (and_rule_ok n IH r p Hpre Hfuel); unfold is_and; by rewrite Hk.
Qed.
End ParserSafe.

