(* ===== verification/ParserLexer.v ===== *)
(** * The parser on the lexer

    The lexer as the source of tokens of the parser, with the laws that the parser relies on, and the
    first part of [IPUpy_do_str] of the port: the lexer of a text and its parsing. *)

From stdpp Require Import gmap.
From S2P Require Import Prelude Malloc Unicode Vstr Token SmallInt Lexer LexerStream LexerText LexerSpec Qstr QstrSpec ObjStr Grammar ParseNode Parser ParserWf.
Local Open Scope Z_scope.

Section ParserLexer.
Context {byte_heap : Allocator Z}.
(** The optimisation level, which the lexer reads for [__debug__]. *)
Variable mp_optimise_value : Z.

#[export] Instance lexer_source : TokenSource mp_lexer_t := {|
  tok_kind := Lexer.tok_kind;
  tok_line := Lexer.tok_line;
  tok_text lex := Vstr.str (vstr lex);
  to_next := mp_lexer_to_next mp_optimise_value
|}.

Context {rule_heap : Allocator rule_stack_t} {node_heap : Allocator mp_parse_node_t}.
Variable chunk_grow : nat -> Z -> bool.
Variable qstr_grow : nat -> Z -> bool.
Variable mp_parse_num_decimal : list Z -> outcome Z.

(** [IPUpy_do_str] as far as the compiler. *)
Definition do_str_parse (fuel : nat) (src : list Z) (is_single_line : bool) (q : qstr_state) : outcome (mp_parse_tree_t * parser_t (L := mp_lexer_t)) :=
  let! lex := mp_lexer_new_from_str_len mp_optimise_value src in
  let input_kind := if is_single_line then MP_PARSE_SINGLE_INPUT else MP_PARSE_FILE_INPUT in
  mp_parse chunk_grow qstr_grow mp_parse_num_decimal fuel lex input_kind q.

(** The number of tokens that may still come. *)
Definition tokens_left (lex : mp_lexer_t) : nat :=
  if bool_decide (Lexer.tok_kind lex = MP_TOKEN_END) then O else S (Z.to_nat (potential lex)).

Lemma lexer_next_ok lex : lex_wf lex -> Lexer.tok_kind lex <> MP_TOKEN_END ->
  safely lex_errors (fun lex' => lex_wf lex' /\ (tokens_left lex' < tokens_left lex)%nat) (mp_lexer_to_next mp_optimise_value lex).
Proof.
  intros Hw Hk. eapply safely_weaken; [by apply LexerSpec.to_next_ok|done|]. intros lex' [Hw' _ _ Hp]. split; [done|].
  unfold tokens_left. rewrite (bool_decide_eq_false_2 _ Hk). case_bool_decide as He; [lia|]. destruct Hp as [Hp|[Hp _]]; [|done].
  assert (0 <= potential lex') by (unfold potential; pose proof (left_nonneg lex'); pose proof (lw_num _ Hw'); lia). lia.
Qed.

Lemma lexer_text_length lex : lex_wf lex -> Z.of_nat (length (Vstr.str (vstr lex))) <= 2 ^ 32 - 8.
Proof.
  intros Hw. pose proof (lw_vstr _ Hw) as Hv. rewrite (str_length _ Hv). pose proof (wf_len _ Hv). pose proof (wf_alloc _ Hv). lia.
Qed.

#[export] Instance lexer_laws : TokenSourceLaws mp_lexer_t := {|
  good_source := lex_wf;
  remaining := tokens_left;
  source_errors := lex_errors;
  to_next_ok := lexer_next_ok;
  tok_text_length := lexer_text_length
|}.
End ParserLexer.
