(* ===== verification/ParserSpec.v ===== *)
(** * What the parser guarantees

    For any source of tokens with the laws of [TokenSourceLaws], and for the lexer: with enough fuel
    [mp_parse] returns a tree or raises one of the exceptions of the parser and the lexer, and no assertion
    fails; the machine with two stacks does what the recursive parser does; the tokens of a tree are derived by the
    grammar from the start rule; the tree is finite and typed by the rules; its memory is freed once.  The last section
    puts the lexer, the parser and the table of interned strings together, from the text of a source. *)

From Stdlib Require Import String.
From stdpp Require Import gmap.
From S2P Require Import Prelude Malloc Unicode Token SmallInt Lexer LexerStream LexerText LexerSpec Qstr QstrSpec ObjStr Grammar ParseNode Parser ParserRef ParserWf ParserSafe ParserLexer.
Local Open Scope Z_scope.

Section ParserSpec.
Context {L : Type} {source : TokenSource L} {laws : TokenSourceLaws L}.
Context {byte_heap : Allocator Z} {rule_heap : Allocator rule_stack_t} {node_heap : Allocator mp_parse_node_t}.
Variable chunk_grow : nat -> Z -> bool.
Variable qstr_grow : nat -> Z -> bool.
Variable mp_parse_num_decimal : list Z -> outcome Z.
Variable N : Z.
Hypothesis byte_heap_small : forall n, m_renew_ok (A := Z) n = true -> n < 2 ^ 26.
Hypothesis rule_heap_small : forall n, m_renew_ok (A := rule_stack_t) n = true -> n < 2 ^ 26.
Hypothesis node_heap_small : forall n, m_renew_ok (A := mp_parse_node_t) n = true -> n < 2 ^ 26.
Hypothesis chunk_grow_small : forall c n, chunk_grow c n = true -> n < 2 ^ 26.
Hypothesis qstr_grow_small : forall c n, qstr_grow c n = true -> n < 2 ^ 26.
Hypothesis decimal_ok : forall s, safely [SyntaxError] (fun _ => True) (mp_parse_num_decimal s).
Implicit Types (p : parser_t (L := L)).

Notation errors := (parse_errors L).
Notation mp_parse m lex input_kind q := (mp_parse chunk_grow qstr_grow mp_parse_num_decimal m lex input_kind q).

(** The tree and the parser at the end. *)
Record parsed (input_kind : mp_parse_input_kind_t) (lex : L) (t : mp_parse_tree_t) p : Prop := {
  pd_end : tok_kind (lexer p) = MP_TOKEN_END;
  pd_derives : exists ks, reads lex ks (lexer p) /\ derives (top_level_rule input_kind) ks;
  pd_root : good (structs p) (root t);
  pd_nodes : map_Forall (fun _ pns => node_ok (structs p) pns) (structs p);
  pd_layout : layout_wf (chunks p) (structs p);
  pd_chunks : Forall chunk_wf (chunks p);
  pd_chain : chunk t ≡ₚ seq 0 (length (chunks p))
}.

Lemma parser_init_ok lex q es : wf N q es -> good_source lex -> (Z.of_nat (remaining lex) < 2 ^ 30) ->
  safely errors (fun '(_, p) => parser_wf N p /\ results p = [] /\ lexer p = lex) (parser_init lex q).
Proof.
  intros Hq Hg Hr. apply memory_safely. unfold parser_init.
  destruct m_new_rules as [->|(l & -> & _)]; [by left|]. cbn [obind].
  unfold m_new, m_malloc. change (wrap 32 _) with 128. cbn [Z.eqb]. destruct (m_renew_ok 128); [|by left]. cbn [obind safely].
  split_and!; [|done|done]. split; cbn; try done.
  by exists es.
Qed.

Lemma finish_chunk_ok p : parser_wf N p -> exists p', finish_chunk p = Ret p' /\ lexer p' = lexer p /\ structs p' = structs p /\
  result_stack_top p' = result_stack_top p /\ result_stack p' = result_stack p /\ tree_chunk p' = chain p /\
  length (chunks p') = length (chunks p) /\ Forall chunk_wf (chunks p') /\ layout_wf (chunks p') (structs p').
Proof.
  intros Hw. unfold finish_chunk. pose proof (pw_chain _ _ Hw) as Hchain. unfold chain in *.
  destruct (cur_chunk p) as [c|]; cbn [option_list app] in *; [|exists p; by split_and!; try apply Hw].
  assert (Hin : c ∈ seq 0 (length (chunks p))) by (rewrite <- Hchain; by left). apply elem_of_seq in Hin.
  destruct (lookup_lt_is_Some_2 (chunks p) c) as [ch Hch]; [lia|]. rewrite Hch. eexists. split; [reflexivity|].
  pose proof (Forall_lookup_1 _ _ _ _ (pw_chunks _ _ Hw) Hch) as (Hu & Ha & H4).
  split_and!; try done; cbn; [by rewrite length_insert| |].
  - apply Forall_insert; [apply Hw|]. split; cbn; [lia|split; [lia|done]].
  - apply layout_resize; [apply Hw|done].
Qed.

Lemma top_level_ok input_kind p : parser_wf N p -> rule_pre N (top_level_rule input_kind) p.
Proof. intros Hw. split_and!; [by destruct input_kind|done|by destruct input_kind]. Qed.

(** What follows the main loop, when the start rule has been matched or not. *)
Lemma parse_finish_ok input_kind lex p0 p ok : parser_wf N p0 -> results p0 = [] -> lexer p0 = lex ->
  rule_post N (top_level_rule input_kind) p0 (p, ok) -> safely errors (fun '(t, p) => parsed input_kind lex t p) (parse_finish p).
Proof.
  intros Hw E0 El Hpost.
  assert (H : parser_wf N p /\ (results p = [] \/ exists ks pn, reads lex ks (lexer p) /\ derives (top_level_rule input_kind) ks /\
    results p = [pn] /\ good (structs p) pn)).
  { destruct ok; [|rewrite Hpost; by split; [|left]]. destruct Hpost as (ks & Ha & Hd & _ & [(pn & Er & Hg)|[Hs _]]); [|by destruct input_kind].
    split; [apply Ha|right]. exists ks, pn. rewrite E0 in Er. split_and!; try done. rewrite <- El. apply Ha. }
  destruct H as [Hwp Hcase]. unfold parse_finish.
  pose proof (results_length N p Hwp) as Hlen.
  destruct (finish_chunk_ok p Hwp) as (p' & -> & E1 & E2 & E3 & E4 & E5 & E6 & Hcs & Hlay). cbn [obind].
  destruct (negb (bool_decide (tok_kind (lexer p') = MP_TOKEN_END)) || (result_stack_top p' =? 0)) eqn:Hfail; [apply syntax_error_ok|].
  apply orb_false_iff in Hfail as [Hend%negb_false_iff%bool_decide_eq_true Hne%Z.eqb_neq].
  destruct Hcase as [E|(ks & pn & Hr & Hd & E & Hg)]; rewrite E in Hlen; cbn [length] in Hlen; [lia|].
  rewrite (proj2 (Z.eqb_eq _ _)) by lia. cbn [negb].
  destruct (results_lookup N p 0 pn Hwp ltac:(by rewrite E)) as [_ Er].
  rewrite E4. replace (result_stack_top p - 1 - Z.of_nat 0) with 0 in Er by lia. rewrite Er. cbn [obind safely].
  split; rewrite ?E1, ?E2; try done.
  - by rewrite <- E1.
  - by exists ks.
  - apply Hwp.
  - by rewrite <- E2.
  - cbn. rewrite E5, E6. apply Hwp.
Qed.

(** All that is shown of a run, in terms of the recursive parser. *)
Lemma recursive_parse_ok input_kind lex q es n : wf N q es -> good_source lex -> (Z.of_nat (remaining lex) < 2 ^ 30) ->
  (32 * remaining lex + 34 <= n)%nat ->
  safely errors (fun '(t, p) => parsed input_kind lex t p) (recursive_parse chunk_grow qstr_grow mp_parse_num_decimal input_kind n lex q).
Proof.
  intros Hq Hg Hr Hn. unfold recursive_parse. eapply safely_bind; [by eapply parser_init_ok|]. intros [rs p0] (Hw & E0 & El).
  eapply safely_bind; [eapply (match_rule_ok chunk_grow qstr_grow _ input_kind N); try done; [by apply top_level_ok|]|].
  - rewrite El. pose proof (rank_bound (top_level_rule input_kind)). lia.
  - intros [p ok] Hpost. by eapply parse_finish_ok.
Qed.

Lemma mp_parse_ok input_kind lex q es : wf N q es -> good_source lex -> (Z.of_nat (remaining lex) < 2 ^ 30) ->
  exists m, forall m', (m <= m')%nat -> safely errors (fun '(t, p) => parsed input_kind lex t p) (mp_parse m' lex input_kind q).
Proof.
  intros Hq Hg Hr. pose proof (recursive_parse_ok input_kind lex q es _ Hq Hg Hr (le_n _)) as H.
  assert (Hheap : forall n, m_renew_ok (A := rule_stack_t) n = true -> n < 2 ^ 28) by (intros n Hn%rule_heap_small; lia).
  destruct (mp_parse_recursive chunk_grow qstr_grow mp_parse_num_decimal input_kind Hheap (32 * remaining lex + 34) lex q) as (m & o & Hm & Ho); [by intros E; rewrite E in H|].
  exists m. intros m' Hm'. rewrite Hm by done. destruct Ho as [-> | ->]; [done|]. apply in_parse_errors. set_solver.
Qed.

(** ** Claims *)

(** C8. The parser ends, and is safe.  With enough fuel a run returns a tree or raises [MemoryError], [SyntaxError],
    [IndentationError], [OverflowError], [RuntimeError] or an exception of the lexer: no assertion fails, no index leaves the stacks
    or the chunks, and the grammar, which is not left recursive, does not loop. *)
Theorem mp_parse_ends input_kind lex q es : wf N q es -> good_source lex -> (Z.of_nat (remaining lex) < 2 ^ 30) ->
  exists m, forall m', (m <= m')%nat -> safely errors (fun _ => True) (mp_parse m' lex input_kind q).
Proof.
  intros Hq Hg Hr. destruct (mp_parse_ok input_kind lex q es Hq Hg Hr) as [m Hm]. exists m. intros m' Hm'.
  by eapply safely_weaken; [apply Hm| |].
Qed.

(** C7. What the parser accepts is in the language of [grammar.h].  When a tree is returned, all tokens up to
    [MP_TOKEN_END] have been read, and the sequence of their kinds is derived from the start rule. *)
Theorem mp_parse_sound input_kind lex q es : wf N q es -> good_source lex -> (Z.of_nat (remaining lex) < 2 ^ 30) ->
  exists m, forall m', (m <= m')%nat ->
    safely errors (fun '(t, p) => tok_kind (lexer p) = MP_TOKEN_END /\ exists ks, reads lex ks (lexer p) /\ derives (top_level_rule input_kind) ks)
      (mp_parse m' lex input_kind q).
Proof.
  intros Hq Hg Hr. destruct (mp_parse_ok input_kind lex q es Hq Hg Hr) as [m Hm]. exists m. intros m' Hm'.
  eapply safely_weaken; [by apply Hm|done|]. intros [t p] H. split; [apply H|]. by destruct H.
Qed.

(** C6. The tree is typed by the grammar.  The root is a finite tree of nodes in memory; every node of a rule has as many
    children as the rule leaves results, or a constant; no node is still a [testlist_comp_3c], which the compiler does not
    know; and no two nodes overlap in a chunk. *)
Theorem mp_parse_typed input_kind lex q es : wf N q es -> good_source lex -> (Z.of_nat (remaining lex) < 2 ^ 30) ->
  exists m, forall m', (m <= m')%nat ->
    safely errors (fun '(t, p) => good (structs p) (root t) /\ map_Forall (fun _ pns => node_ok (structs p) pns) (structs p) /\
      layout_wf (chunks p) (structs p)) (mp_parse m' lex input_kind q).
Proof.
  intros Hq Hg Hr. destruct (mp_parse_ok input_kind lex q es Hq Hg Hr) as [m Hm]. exists m. intros m' Hm'.
  eapply safely_weaken; [by apply Hm|done|]. intros [t p] H. split_and!; apply H.
Qed.

Lemma tree_clear_ok cs chain : Forall (fun c => (c < length cs)%nat) chain ->
  exists freed, mp_parse_tree_clear cs chain = Ret freed /\ map fst freed = chain /\
    Forall (fun '(c, n) => exists ch, cs !! c = Some ch /\ n = sizeof_mp_parse_chunk_t + chunk_alloc ch) freed.
Proof.
  induction 1 as [|c chain Hc _ (freed & E & E1 & E2)]; cbn [mp_parse_tree_clear]; [by exists []|].
  destruct (lookup_lt_is_Some_2 cs c Hc) as [ch Hch]. rewrite Hch, E. cbn [obind]. eexists. split; [reflexivity|].
  split; [cbn; by rewrite E1|]. constructor; [by exists ch|done].
Qed.

(** C32. [mp_parse_tree_clear] frees the memory of a tree: every chunk that the parser made, those it gave up for a new one
    as well, is freed once, with its size. *)
Theorem mp_parse_cleared input_kind lex q es : wf N q es -> good_source lex -> (Z.of_nat (remaining lex) < 2 ^ 30) ->
  exists m, forall m', (m <= m')%nat ->
    safely errors (fun '(t, p) => exists freed, mp_parse_tree_clear (chunks p) (chunk t) = Ret freed /\
      map fst freed ≡ₚ seq 0 (length (chunks p)) /\
      Forall (fun '(c, n) => exists ch, chunks p !! c = Some ch /\ n = sizeof_mp_parse_chunk_t + chunk_alloc ch) freed)
    (mp_parse m' lex input_kind q).
Proof.
  intros Hq Hg Hr. destruct (mp_parse_ok input_kind lex q es Hq Hg Hr) as [m Hm]. exists m. intros m' Hm'.
  eapply safely_weaken; [by apply Hm|done|]. intros [t p] H. pose proof (pd_chain _ _ _ _ H) as Hchain.
  destruct (tree_clear_ok (chunks p) (chunk t)) as (freed & E & E1 & E2).
  - apply list.Forall_forall. intros c Hc. rewrite Hchain in Hc. apply elem_of_seq in Hc. lia.
  - exists freed. by rewrite E1.
Qed.

(** C5. The machine refines the recursive parser.  When the recursive-descent parser has fuel to end, the machine with the
    stacks of rules and results, the packed tables and the flag for backtracking has the same outcome, for all
    larger fuels, but that its stack of rules may run out of memory. *)
Theorem mp_parse_refines input_kind n lex q :
  recursive_parse chunk_grow qstr_grow mp_parse_num_decimal input_kind n lex q <> OutOfFuel ->
  exists m o, (forall m', (m <= m')%nat -> mp_parse m' lex input_kind q = o) /\
    (o = recursive_parse chunk_grow qstr_grow mp_parse_num_decimal input_kind n lex q \/ o = Raise MemoryError).
Proof. apply mp_parse_recursive. intros k Hk%rule_heap_small. lia. Qed.
End ParserSpec.

(** C33. The packed tables give back the grammar: the action byte of a rule is that of its entry in [grammar.h], and the arguments
    are found at the offset whose ninth bit is not stored. *)
Theorem get_rule_arg_spec r : r <> RULE_const_object ->
  rd rule_act_table (id r) = Ret (rule_act (kind_of r)) /\
  exists l, get_rule_arg (id r) = Ret l /\ forall i a, args_of r !! i = Some a -> rd l (Z.of_nat i) = Ret (rule_arg_code a).
Proof.
  intros Hr. destruct (rule_tables r Hr) as (H1 & l & H2 & H3 & _). split; [done|]. exists l. split; [done|].
  intros i a Ha. apply H3. done.
Qed.

(** ** From the text of a source *)

Section DoStr.
Context {byte_heap : Allocator Z} {rule_heap : Allocator rule_stack_t} {node_heap : Allocator mp_parse_node_t}.
Variable mp_optimise_value : Z.
Variable chunk_grow : nat -> Z -> bool.
Variable qstr_grow : nat -> Z -> bool.
Variable mp_parse_num_decimal : list Z -> outcome Z.
Variable N : Z.
Hypothesis byte_heap_small : forall n, m_renew_ok (A := Z) n = true -> n < 2 ^ 26.
Hypothesis rule_heap_small : forall n, m_renew_ok (A := rule_stack_t) n = true -> n < 2 ^ 26.
Hypothesis node_heap_small : forall n, m_renew_ok (A := mp_parse_node_t) n = true -> n < 2 ^ 26.
Hypothesis chunk_grow_small : forall c n, chunk_grow c n = true -> n < 2 ^ 26.
Hypothesis qstr_grow_small : forall c n, qstr_grow c n = true -> n < 2 ^ 26.
Hypothesis decimal_ok : forall s, safely [SyntaxError] (fun _ => True) (mp_parse_num_decimal s).

Definition do_str_errors : list exn := [MemoryError; SyntaxError; IndentationError; OverflowError; RuntimeError; NotImplementedError].

(** C4. Every text of at most [2^25] bytes is eventually parsed or rejected.  The lexer, the parser and the table of interned strings
    together end with a typed tree, whose tokens the grammar derives, or with one of six exceptions. *)
Theorem do_str_parse_ends src (is_single_line : bool) q es : Forall byte src -> Z.of_nat (length src) <= 2 ^ 25 -> wf N q es ->
  exists m, forall m', (m <= m')%nat ->
    safely do_str_errors (fun (r : mp_parse_tree_t * parser_t (L := mp_lexer_t)) => let '(t, p) := r in good (structs p) (root t) /\ exists lex ks,
        mp_lexer_new_from_str_len mp_optimise_value src = Ret lex /\
        reads (source := lexer_source mp_optimise_value) lex ks (lexer p) /\ Lexer.tok_kind (lexer p) = MP_TOKEN_END /\
        derives (if is_single_line then RULE_single_input else RULE_file_input) ks)
      (do_str_parse mp_optimise_value chunk_grow qstr_grow mp_parse_num_decimal m' src is_single_line q).
Proof.
  intros Hb Hlen Hq. pose proof (mp_lexer_new_ok mp_optimise_value src Hb Hlen) as Hnew. unfold do_str_parse.
  destruct (mp_lexer_new_from_str_len mp_optimise_value src) as [lex|e| |]; cbn [obind safely] in *; try done.
  2: { exists 0%nat. intros _ _. unfold do_str_errors, lex_errors in *. set_solver. }
  destruct Hnew as (Hw & Hp & _). set (input_kind := if is_single_line then MP_PARSE_SINGLE_INPUT else MP_PARSE_FILE_INPUT).
  destruct (mp_parse_ok (laws := lexer_laws mp_optimise_value) chunk_grow qstr_grow mp_parse_num_decimal N byte_heap_small rule_heap_small node_heap_small
    chunk_grow_small qstr_grow_small decimal_ok input_kind lex q es Hq Hw) as [m Hm].
  { cbn. unfold tokens_left. case_bool_decide; lia. }
  exists m. intros m' Hm'. eapply safely_weaken; [by apply Hm| |].
  - unfold parse_errors. cbn [source_errors lexer_laws]. unfold lex_errors, do_str_errors. set_solver.
  - intros [t p] H. split; [apply H|]. destruct (pd_derives _ _ _ _ H) as (ks & Hr & Hd). exists lex, ks.
    split_and!; [done|done|by apply H|]. by destruct is_single_line.
Qed.
End DoStr.

(** ** Witnesses *)

#[local] Instance sample_bytes : Allocator Z := {| m_renew_ok n := n <=? 4096; fresh := 170 |}.
#[local] Instance sample_rules : Allocator rule_stack_t := {| m_renew_ok n := n <=? 4096; fresh := mk_rule 0 0 0 |}.
#[local] Instance sample_nodes : Allocator mp_parse_node_t := {| m_renew_ok n := n <=? 4096; fresh := MP_PARSE_NODE_NULL |}.
#[local] Definition sample_chunk_grow (c : nat) (n : Z) : bool := n <=? 40.
#[local] Definition sample_qstr_grow (c : nat) (n : Z) : bool := n <=? 140.
#[local] Definition sample_decimal (s : list Z) : outcome Z := if Z.of_nat (length s) <? 8 then Ret 0 else Raise SyntaxError.
#[local] Definition sample_source : list Z := chars "x = (1, 'ab') if y else [2.5]".
#[local] Definition sample_run (fuel : nat) := do_str_parse 0 sample_chunk_grow sample_qstr_grow sample_decimal fuel sample_source true QstrSpec.sample_init.

Lemma sample_bytes_small n : m_renew_ok (A := Z) n = true -> n < 2 ^ 26.
Proof. cbn. lia. Qed.
Lemma sample_rules_small n : m_renew_ok (A := rule_stack_t) n = true -> n < 2 ^ 26.
Proof. cbn. lia. Qed.
Lemma sample_nodes_small n : m_renew_ok (A := mp_parse_node_t) n = true -> n < 2 ^ 26.
Proof. cbn. lia. Qed.
Lemma sample_chunk_small c n : sample_chunk_grow c n = true -> n < 2 ^ 26.
Proof. unfold sample_chunk_grow. lia. Qed.
Lemma sample_qstr_small c n : sample_qstr_grow c n = true -> n < 2 ^ 26.
Proof. unfold sample_qstr_grow. lia. Qed.
Lemma sample_decimal_ok s : safely [SyntaxError] (fun _ => True) (sample_decimal s).
Proof. unfold sample_decimal. destruct (_ <? _); [done|by left]. Qed.
Lemma sample_source_bytes : Forall byte sample_source.
Proof. repeat constructor; cbn; lia. Qed.

(** The tree of the sample: an assignment. *)
Lemma sample_run_tree : match sample_run 1000 with
  | Ret (t, p) => match root t with struct_node ptr => option_map STRUCT_KIND (structs p !! ptr) | _ => None end
  | _ => None
  end = Some (id RULE_expr_stmt).
Proof. by vm_compute. Qed.

(** The lexer of the sample, at its first token, and the strings in the ROM. *)
#[local] Definition sample_lex : mp_lexer_t := Eval vm_compute in
  match mp_lexer_new_from_str_len 0 sample_source with Ret lex => lex | _ => start_lexer sample_source end.
Lemma sample_lex_ok : lex_wf sample_lex /\ (Z.of_nat (tokens_left sample_lex) < 2 ^ 30).
Proof.
  pose proof (mp_lexer_new_ok 0 sample_source sample_source_bytes ltac:(cbn; lia)) as H.
  assert (E : mp_lexer_new_from_str_len 0 sample_source = Ret sample_lex) by (by vm_compute). rewrite E in H. destruct H as (Hw & Hp & _).
  split; [done|]. assert (3 * Z.of_nat (length sample_source) + 4 <= 1000) by (cbn; lia). unfold tokens_left. case_bool_decide; lia.
Qed.
Lemma sample_qstrs : exists es, wf 13 QstrSpec.sample_init es.
Proof. eexists. exact (proj1 (qstr_init_ok _ _ _ _ QstrSpec.sample_rom_ok)). Qed.

#[local] Instance sample_tokens : TokenSource mp_lexer_t := lexer_source 0.
#[local] Instance sample_laws : TokenSourceLaws mp_lexer_t := lexer_laws 0.
Notation sample_parse m := (mp_parse sample_chunk_grow sample_qstr_grow sample_decimal m sample_lex MP_PARSE_SINGLE_INPUT QstrSpec.sample_init).

Lemma mp_parse_ends_witness : exists m, forall m', (m <= m')%nat -> safely (parse_errors mp_lexer_t) (fun _ => True) (sample_parse m').
Proof.
  destruct sample_qstrs as [es Hes]. apply (mp_parse_ends sample_chunk_grow sample_qstr_grow sample_decimal 13 sample_bytes_small sample_rules_small
    sample_nodes_small sample_chunk_small sample_qstr_small sample_decimal_ok MP_PARSE_SINGLE_INPUT sample_lex QstrSpec.sample_init es Hes); apply sample_lex_ok.
Defined.

Lemma mp_parse_sound_witness : exists m, forall m', (m <= m')%nat -> safely (parse_errors mp_lexer_t)
  (fun '(t, p) => tok_kind (lexer p) = MP_TOKEN_END /\ exists ks, reads sample_lex ks (lexer p) /\ derives RULE_single_input ks) (sample_parse m').
Proof.
  destruct sample_qstrs as [es Hes]. apply (mp_parse_sound sample_chunk_grow sample_qstr_grow sample_decimal 13 sample_bytes_small sample_rules_small
    sample_nodes_small sample_chunk_small sample_qstr_small sample_decimal_ok MP_PARSE_SINGLE_INPUT sample_lex QstrSpec.sample_init es Hes); apply sample_lex_ok.
Defined.

Lemma mp_parse_typed_witness : exists m, forall m', (m <= m')%nat -> safely (parse_errors mp_lexer_t)
  (fun '(t, p) => good (structs p) (root t) /\ map_Forall (fun _ pns => node_ok (structs p) pns) (structs p) /\ layout_wf (chunks p) (structs p)) (sample_parse m').
Proof.
  destruct sample_qstrs as [es Hes]. apply (mp_parse_typed sample_chunk_grow sample_qstr_grow sample_decimal 13 sample_bytes_small sample_rules_small
    sample_nodes_small sample_chunk_small sample_qstr_small sample_decimal_ok MP_PARSE_SINGLE_INPUT sample_lex QstrSpec.sample_init es Hes); apply sample_lex_ok.
Defined.

Lemma mp_parse_cleared_witness : exists m, forall m', (m <= m')%nat -> safely (parse_errors mp_lexer_t)
  (fun '(t, p) => exists freed, mp_parse_tree_clear (chunks p) (chunk t) = Ret freed /\ map fst freed ≡ₚ seq 0 (length (chunks p)) /\
    Forall (fun '(c, n) => exists ch, chunks p !! c = Some ch /\ n = sizeof_mp_parse_chunk_t + chunk_alloc ch) freed) (sample_parse m').
Proof.
  destruct sample_qstrs as [es Hes]. apply (mp_parse_cleared sample_chunk_grow sample_qstr_grow sample_decimal 13 sample_bytes_small sample_rules_small
    sample_nodes_small sample_chunk_small sample_qstr_small sample_decimal_ok MP_PARSE_SINGLE_INPUT sample_lex QstrSpec.sample_init es Hes); apply sample_lex_ok.
Defined.

Lemma mp_parse_refines_witness : exists m o, (forall m', (m <= m')%nat -> sample_parse m' = o) /\
  (o = recursive_parse sample_chunk_grow sample_qstr_grow sample_decimal MP_PARSE_SINGLE_INPUT 100 sample_lex QstrSpec.sample_init \/ o = Raise MemoryError).
Proof. apply mp_parse_refines; [exact sample_rules_small|by vm_compute]. Defined.

Lemma get_rule_arg_spec_witness : RULE_try_stmt <> RULE_const_object /\
  rd rule_act_table (id RULE_try_stmt) = Ret (rule_act (kind_of RULE_try_stmt)) /\
  exists l, get_rule_arg (id RULE_try_stmt) = Ret l /\ forall i a, args_of RULE_try_stmt !! i = Some a -> rd l (Z.of_nat i) = Ret (rule_arg_code a).
Proof. split; [done|]. by apply get_rule_arg_spec. Defined.

Lemma do_str_parse_ends_witness : exists m, forall m', (m <= m')%nat ->
  safely do_str_errors (fun (r : mp_parse_tree_t * parser_t (L := mp_lexer_t)) => let '(t, p) := r in good (structs p) (root t) /\ exists lex ks,
      mp_lexer_new_from_str_len 0 sample_source = Ret lex /\ reads (source := lexer_source 0) lex ks (lexer p) /\ Lexer.tok_kind (lexer p) = MP_TOKEN_END /\
      derives RULE_single_input ks) (sample_run m').
Proof.
  destruct sample_qstrs as [es Hes]. apply (do_str_parse_ends 0 sample_chunk_grow sample_qstr_grow sample_decimal 13 sample_bytes_small sample_rules_small
    sample_nodes_small sample_chunk_small sample_qstr_small sample_decimal_ok sample_source true QstrSpec.sample_init es); [exact sample_source_bytes|cbn; lia|exact Hes].
Defined.
