(* ===== verification/Bytecode.v ===== *)
(** * The encodings of the bytecode ([py/bc.h], [py/bc.c], [py/emitbc.c], [py/vm.c])

    Numbers in the bytecode are groups of seven bits, the most significant first, with the top bit of
    a byte set when another follows.  This file has the writers of such numbers, with their buffer of
    five bytes ([mp_encode_uint], and the signed form of [emit_write_bytecode_byte_int]), and their
    readers ([mp_decode_uint] of [py/bc.c], the macros of [py/vm.c]); the interleaved signature and
    size of a function's prelude; and the tables of the opcodes.  A pointer into code that is read is
    the list of the bytes from there to the end of the memory: reading past it is [Undef]. *)

From S2P Require Import Prelude SmallInt.
Local Open Scope Z_scope.

(** ** Writing numbers *)

Definition MP_BYTES_PER_OBJ_WORD : Z := 4.
Definition MP_ENCODE_UINT_MAX_BYTES : Z := (MP_BYTES_PER_OBJ_WORD * 8 + 6) / 7.

Section Writers.
(** [allocator env n] is the callback of [mp_encode_uint]: room for [n] bytes, or [NULL]; and
    [store env c i v] the write [c[i] = v] to the room it gave. *)
Context {E P : Type} (allocator : E -> Z -> outcome (E * option P))
  (store : E -> P -> Z -> Z -> outcome E).

(** The first loop of [mp_encode_uint]: digits from the end of the buffer. *)
Fixpoint encode_uint_digits (fuel : nat) (buf : list Z) (p val : Z) : outcome (list Z * Z) :=
  match fuel with
  | O => OutOfFuel
  | S fuel =>
    let p := p - 1 in
    let! buf := wr buf p (Z.land val 0x7f) in
    let val := Z.shiftr val 7 in
    if val =? 0 then Ret (buf, p) else encode_uint_digits fuel buf p val
  end.

(** The second loop: [buf + p ...] to [c + i ...], with the top bit in all but the last. *)
Fixpoint encode_copy (fuel : nat) (env : E) (c : P) (i : Z) (buf : list Z) (p : Z) : outcome E :=
  match fuel with
  | O => OutOfFuel
  | S fuel =>
    if p =? Z.of_nat (length buf) - 1 then let! v := rd buf p in store env c i v
    else
      let! v := rd buf p in
      let! env := store env c i (Z.lor v 0x80) in
      encode_copy fuel env c (i + 1) buf (p + 1)
  end.

Definition mp_encode_uint (env : E) (val : Z) : outcome E :=
  let buf := replicate (Z.to_nat MP_ENCODE_UINT_MAX_BYTES) 0 in
  let! '(buf, p) := encode_uint_digits (S (length buf)) buf MP_ENCODE_UINT_MAX_BYTES val in
  let! '(env, c) := allocator env (MP_ENCODE_UINT_MAX_BYTES - p) in
  match c with
  | None => Ret env
  | Some c => encode_copy (length buf) env c 0 buf p
  end.

(** The loop of [emit_write_bytecode_byte_int]: [num >>= 7] keeps the sign. *)
Fixpoint encode_int_digits (fuel : nat) (buf : list Z) (p num : Z) : outcome (list Z * Z * Z) :=
  match fuel with
  | O => OutOfFuel
  | S fuel =>
    let p := p - 1 in
    let! buf := wr buf p (Z.land num 0x7f) in
    let num := Z.shiftr num 7 in
    if negb (num =? 0) && negb (num =? -1) then encode_int_digits fuel buf p num else Ret (buf, p, num)
  end.

(** The signed number that follows the opcode in [emit_write_bytecode_byte_int]. *)
Definition encode_int (env : E) (num : Z) : outcome E :=
  let buf := replicate (Z.to_nat MP_ENCODE_UINT_MAX_BYTES) 0 in
  let! '(buf, p, num) := encode_int_digits (S (length buf)) buf MP_ENCODE_UINT_MAX_BYTES num in
  let! d := rd buf p in
  let! '(buf, p) :=
    if (num =? -1) && (Z.land d 0x40 =? 0) then
      let! buf := wr buf (p - 1) 0x7f in Ret (buf, p - 1)
    else if (num =? 0) && negb (Z.land d 0x40 =? 0) then
      let! buf := wr buf (p - 1) 0 in Ret (buf, p - 1)
    else Ret (buf, p) in
  let! '(env, c) := allocator env (MP_ENCODE_UINT_MAX_BYTES - p) in
  match c with
  | None => Undef
  | Some c => encode_copy (length buf) env c 0 buf p
  end.
End Writers.

(** ** Reading numbers *)

(** The loop of [mp_decode_uint], and the macro [DECODE_UINT] of [py/vm.c] ([+] for [|]). *)
Fixpoint decode_uint_loop (unum : Z) (p : list Z) : outcome (Z * list Z) :=
  match p with
  | [] => Undef
  | val :: p =>
    let unum := Z.lor (wrap 32 (Z.shiftl unum 7)) (Z.land val 0x7f) in
    if negb (Z.land val 0x80 =? 0) then decode_uint_loop unum p else Ret (unum, p)
  end.

Definition mp_decode_uint (ptr : list Z) : outcome (Z * list Z) := decode_uint_loop 0 ptr.

Definition mp_decode_uint_value (ptr : list Z) : outcome Z :=
  let! '(unum, _) := mp_decode_uint ptr in Ret unum.

Fixpoint mp_decode_uint_skip (ptr : list Z) : outcome (list Z) :=
  match ptr with
  | [] => Undef
  | val :: ptr => if negb (Z.land val 0x80 =? 0) then mp_decode_uint_skip ptr else Ret ptr
  end.

Fixpoint DECODE_UINT_loop (unum : Z) (ip : list Z) : outcome (Z * list Z) :=
  match ip with
  | [] => Undef
  | val :: ip =>
    let unum := wrap 32 (Z.shiftl unum 7 + Z.land val 0x7f) in
    if negb (Z.land val 0x80 =? 0) then DECODE_UINT_loop unum ip else Ret (unum, ip)
  end.

Definition DECODE_UINT (ip : list Z) : outcome (Z * list Z) := DECODE_UINT_loop 0 ip.

(** The operand of [MP_BC_LOAD_CONST_SMALL_INT]: an [mp_uint_t], read as a signed number. *)
Definition decode_int (ip : list Z) : outcome (Z * list Z) :=
  let! b := rd ip 0 in
  let num := if negb (Z.land b 0x40 =? 0) then wrap 32 (0 - 1) else 0 in
  let! '(num, ip) := decode_uint_loop num ip in
  Ret (swrap 32 num, ip).

Definition DECODE_ULABEL (ip : list Z) : outcome (Z * list Z) :=
  let! b0 := rd ip 0 in
  let! b1 := rd ip 1 in
  Ret (Z.lor b0 (Z.shiftl b1 8), drop 2 ip).

Definition DECODE_SLABEL (ip : list Z) : outcome (Z * list Z) :=
  let! '(u, ip) := DECODE_ULABEL ip in Ret (u - 0x8000, ip).

(** ** The prelude of a function *)

Definition MP_SCOPE_FLAG_ALL_SIG : Z := 0x0f.

Section FunctionPrelude.
Context {E : Type} (out_byte : E -> Z -> outcome E).

(** The loop of [MP_BC_PRELUDE_SIG_ENCODE]: [xFSSKAED], repeated. *)
Fixpoint sig_encode_loop (fuel : nat) (env : E) (z S E_ F A K D : Z) : outcome E :=
  match fuel with
  | O => OutOfFuel
  | Datatypes.S fuel =>
    if negb (Z.lor (Z.lor (Z.lor (Z.lor (Z.lor S E_) F) A) K) D =? 0) then
      let! env := out_byte env (Z.lor 0x80 z) in
      let z := Z.lor (Z.lor (Z.lor (Z.lor (Z.lor (Z.shiftl (Z.land F 1) 6) (Z.shiftl (Z.land S 3) 4))
        (Z.shiftl (Z.land K 1) 3)) (Z.shiftl (Z.land A 1) 2)) (Z.shiftl (Z.land E_ 1) 1)) (Z.land D 1) in
      sig_encode_loop fuel env z (Z.shiftr S 2) (Z.shiftr E_ 1) (Z.shiftr F 1) (Z.shiftr A 1)
        (Z.shiftr K 1) (Z.shiftr D 1)
    else out_byte env z
  end.

(** The fields of a scope that the macro reads are its arguments here. *)
Definition MP_BC_PRELUDE_SIG_ENCODE (env : E) (S E_ scope_flags num_pos_args num_kwonly_args num_def_pos_args : Z) :
  outcome E :=
  let F := Z.land scope_flags MP_SCOPE_FLAG_ALL_SIG in
  let A := num_pos_args in
  let K := num_kwonly_args in
  let D := num_def_pos_args in
  let S := wrap 32 (S - 1) in
  let z := Z.lor (Z.lor (Z.shiftl (Z.land S 0xf) 3) (Z.shiftl (Z.land E_ 1) 2)) (Z.land A 3) in
  sig_encode_loop 33 env z (Z.shiftr S 4) (Z.shiftr E_ 1) F (Z.shiftr A 2) K D.

(** [MP_BC_PRELUDE_SIZE_ENCODE]: [xIIIIIIC], repeated. *)
Fixpoint size_encode_loop (fuel : nat) (env : E) (I C : Z) : outcome E :=
  match fuel with
  | O => OutOfFuel
  | S fuel =>
    let z := Z.lor (Z.shiftl (Z.land I 0x3f) 1) (Z.land C 1) in
    let C := Z.shiftr C 1 in
    let I := Z.shiftr I 6 in
    let z := if negb (Z.lor C I =? 0) then Z.lor z 0x80 else z in
    let! env := out_byte env z in
    if negb (Z.lor C I =? 0) then size_encode_loop fuel env I C else Ret env
  end.

Definition MP_BC_PRELUDE_SIZE_ENCODE (env : E) (I C : Z) : outcome E := size_encode_loop 32 env I C.
End FunctionPrelude.

Record prelude_sig := {
  n_state : Z; n_exc_stack : Z; sig_flags : Z; n_pos_args : Z; n_kwonly_args : Z; n_def_pos_args : Z
}.

(** [x << k] of an [int]. *)
Definition shl_int (x k : Z) : outcome Z := if k <? 32 then sint (Z.shiftl x k) else Undef.

(** The loop of [MP_BC_PRELUDE_SIG_DECODE_INTO], from the [n]-th extension on. *)
Fixpoint sig_decode_loop (n : Z) (z : Z) (ip : list Z) (S E F A K D : Z) : outcome (prelude_sig * list Z) :=
  if Z.land z 0x80 =? 0 then
    Ret ({| n_state := wrap 32 (S + 1); n_exc_stack := E; sig_flags := F; n_pos_args := A;
            n_kwonly_args := K; n_def_pos_args := D |}, ip)
  else
    match ip with
    | [] => Undef
    | z :: ip =>
      let! s := shl_int (Z.land z 0x30) (2 * n) in
      let! e := shl_int (Z.land z 0x02) n in
      let! f := shl_int (Z.shiftr (Z.land z 0x40) 6) n in
      let! a := shl_int (Z.land z 0x4) n in
      let! k := shl_int (Z.shiftr (Z.land z 0x08) 3) n in
      let! d := shl_int (Z.land z 0x1) n in
      sig_decode_loop (n + 1) z ip (Z.lor S s) (Z.lor E e) (Z.lor F f) (Z.lor A a) (Z.lor K k) (Z.lor D d)
    end.

Definition MP_BC_PRELUDE_SIG_DECODE (ip : list Z) : outcome (prelude_sig * list Z) :=
  match ip with
  | [] => Undef
  | z :: ip =>
    sig_decode_loop 0 z ip (Z.land (Z.shiftr z 3) 0xf) (Z.land (Z.shiftr z 2) 1) 0 (Z.land z 3) 0 0
  end.

Fixpoint size_decode_loop (n : Z) (ip : list Z) (I C : Z) : outcome (Z * Z * list Z) :=
  match ip with
  | [] => Undef
  | z :: ip =>
    let! c := shl_int (Z.land z 1) n in
    let! i := shl_int (Z.shiftr (Z.land z 0x7e) 1) (6 * n) in
    let C := Z.lor C c in
    let I := Z.lor I i in
    if Z.land z 0x80 =? 0 then Ret (I, C, ip) else size_decode_loop (n + 1) ip I C
  end.

(** [n_info] and [n_cell]. *)
Definition MP_BC_PRELUDE_SIZE_DECODE (ip : list Z) : outcome (Z * Z * list Z) := size_decode_loop 0 ip 0 0.

(** ** Opcodes ([py/bc0.h]) *)

Definition MP_BC_MASK_EXTRA_BYTE : Z := 0x9e.
Definition MP_BC_FORMAT_BYTE : Z := 0.
Definition MP_BC_FORMAT_QSTR : Z := 1.
Definition MP_BC_FORMAT_VAR_UINT : Z := 2.
Definition MP_BC_FORMAT_OFFSET : Z := 3.
Definition MP_BC_BASE_QSTR_O : Z := 0x10.
Definition MP_BC_BASE_VINT_E : Z := 0x20.
Definition MP_BC_BASE_VINT_O : Z := 0x30.
Definition MP_BC_BASE_JUMP_E : Z := 0x40.
Definition MP_BC_BASE_BYTE_O : Z := 0x50.
Definition MP_BC_BASE_BYTE_E : Z := 0x60.
Definition MP_BC_LOAD_CONST_SMALL_INT_MULTI : Z := 0x70.
Definition MP_BC_LOAD_FAST_MULTI : Z := 0xb0.
Definition MP_BC_STORE_FAST_MULTI : Z := 0xc0.
Definition MP_BC_UNARY_OP_MULTI : Z := 0xd0.
Definition MP_BC_BINARY_OP_MULTI : Z := 0xd7.
Definition MP_BC_LOAD_CONST_SMALL_INT_MULTI_NUM : Z := 64.
Definition MP_BC_LOAD_CONST_SMALL_INT_MULTI_EXCESS : Z := 16.
Definition MP_BC_LOAD_FAST_MULTI_NUM : Z := 16.
Definition MP_BC_STORE_FAST_MULTI_NUM : Z := 16.
Definition MP_UNARY_OP_NUM_BYTECODE : Z := 4.
Definition MP_BC_UNARY_OP_MULTI_NUM : Z := MP_UNARY_OP_NUM_BYTECODE.
Definition MP_BINARY_OP_NUM_BYTECODE : Z := 35.
Definition MP_BC_BINARY_OP_MULTI_NUM : Z := MP_BINARY_OP_NUM_BYTECODE.
Definition MP_BC_LOAD_CONST_FALSE : Z := MP_BC_BASE_BYTE_O + 0x00.
Definition MP_BC_LOAD_CONST_NONE : Z := MP_BC_BASE_BYTE_O + 0x01.
Definition MP_BC_LOAD_CONST_TRUE : Z := MP_BC_BASE_BYTE_O + 0x02.
Definition MP_BC_LOAD_CONST_SMALL_INT : Z := MP_BC_BASE_VINT_E + 0x02.
Definition MP_BC_LOAD_CONST_STRING : Z := MP_BC_BASE_QSTR_O + 0x00.
Definition MP_BC_LOAD_CONST_OBJ : Z := MP_BC_BASE_VINT_E + 0x03.
Definition MP_BC_LOAD_NULL : Z := MP_BC_BASE_BYTE_O + 0x03.
Definition MP_BC_LOAD_FAST_N : Z := MP_BC_BASE_VINT_E + 0x04.
Definition MP_BC_LOAD_DEREF : Z := MP_BC_BASE_VINT_E + 0x05.
Definition MP_BC_LOAD_NAME : Z := MP_BC_BASE_QSTR_O + 0x01.
Definition MP_BC_LOAD_GLOBAL : Z := MP_BC_BASE_QSTR_O + 0x02.
Definition MP_BC_LOAD_ATTR : Z := MP_BC_BASE_QSTR_O + 0x03.
Definition MP_BC_LOAD_METHOD : Z := MP_BC_BASE_QSTR_O + 0x04.
Definition MP_BC_LOAD_SUPER_METHOD : Z := MP_BC_BASE_QSTR_O + 0x05.
Definition MP_BC_LOAD_BUILD_CLASS : Z := MP_BC_BASE_BYTE_O + 0x04.
Definition MP_BC_LOAD_SUBSCR : Z := MP_BC_BASE_BYTE_O + 0x05.
Definition MP_BC_STORE_FAST_N : Z := MP_BC_BASE_VINT_E + 0x06.
Definition MP_BC_STORE_DEREF : Z := MP_BC_BASE_VINT_E + 0x07.
Definition MP_BC_STORE_NAME : Z := MP_BC_BASE_QSTR_O + 0x06.
Definition MP_BC_STORE_GLOBAL : Z := MP_BC_BASE_QSTR_O + 0x07.
Definition MP_BC_STORE_ATTR : Z := MP_BC_BASE_QSTR_O + 0x08.
Definition MP_BC_STORE_SUBSCR : Z := MP_BC_BASE_BYTE_O + 0x06.
Definition MP_BC_DELETE_FAST : Z := MP_BC_BASE_VINT_E + 0x08.
Definition MP_BC_DELETE_DEREF : Z := MP_BC_BASE_VINT_E + 0x09.
Definition MP_BC_DELETE_NAME : Z := MP_BC_BASE_QSTR_O + 0x09.
Definition MP_BC_DELETE_GLOBAL : Z := MP_BC_BASE_QSTR_O + 0x0a.
Definition MP_BC_DUP_TOP : Z := MP_BC_BASE_BYTE_O + 0x07.
Definition MP_BC_DUP_TOP_TWO : Z := MP_BC_BASE_BYTE_O + 0x08.
Definition MP_BC_POP_TOP : Z := MP_BC_BASE_BYTE_O + 0x09.
Definition MP_BC_ROT_TWO : Z := MP_BC_BASE_BYTE_O + 0x0a.
Definition MP_BC_ROT_THREE : Z := MP_BC_BASE_BYTE_O + 0x0b.
Definition MP_BC_JUMP : Z := MP_BC_BASE_JUMP_E + 0x02.
Definition MP_BC_POP_JUMP_IF_TRUE : Z := MP_BC_BASE_JUMP_E + 0x03.
Definition MP_BC_POP_JUMP_IF_FALSE : Z := MP_BC_BASE_JUMP_E + 0x04.
Definition MP_BC_JUMP_IF_TRUE_OR_POP : Z := MP_BC_BASE_JUMP_E + 0x05.
Definition MP_BC_JUMP_IF_FALSE_OR_POP : Z := MP_BC_BASE_JUMP_E + 0x06.
Definition MP_BC_UNWIND_JUMP : Z := MP_BC_BASE_JUMP_E + 0x00.
Definition MP_BC_SETUP_WITH : Z := MP_BC_BASE_JUMP_E + 0x07.
Definition MP_BC_SETUP_EXCEPT : Z := MP_BC_BASE_JUMP_E + 0x08.
Definition MP_BC_SETUP_FINALLY : Z := MP_BC_BASE_JUMP_E + 0x09.
Definition MP_BC_POP_EXCEPT_JUMP : Z := MP_BC_BASE_JUMP_E + 0x0a.
Definition MP_BC_FOR_ITER : Z := MP_BC_BASE_JUMP_E + 0x0b.
Definition MP_BC_WITH_CLEANUP : Z := MP_BC_BASE_BYTE_O + 0x0c.
Definition MP_BC_END_FINALLY : Z := MP_BC_BASE_BYTE_O + 0x0d.
Definition MP_BC_GET_ITER : Z := MP_BC_BASE_BYTE_O + 0x0e.
Definition MP_BC_GET_ITER_STACK : Z := MP_BC_BASE_BYTE_O + 0x0f.
Definition MP_BC_BUILD_TUPLE : Z := MP_BC_BASE_VINT_E + 0x0a.
Definition MP_BC_BUILD_LIST : Z := MP_BC_BASE_VINT_E + 0x0b.
Definition MP_BC_BUILD_MAP : Z := MP_BC_BASE_VINT_E + 0x0c.
Definition MP_BC_STORE_MAP : Z := MP_BC_BASE_BYTE_E + 0x02.
Definition MP_BC_BUILD_SET : Z := MP_BC_BASE_VINT_E + 0x0d.
Definition MP_BC_BUILD_SLICE : Z := MP_BC_BASE_VINT_E + 0x0e.
Definition MP_BC_STORE_COMP : Z := MP_BC_BASE_VINT_E + 0x0f.
Definition MP_BC_UNPACK_SEQUENCE : Z := MP_BC_BASE_VINT_O + 0x00.
Definition MP_BC_UNPACK_EX : Z := MP_BC_BASE_VINT_O + 0x01.
Definition MP_BC_RETURN_VALUE : Z := MP_BC_BASE_BYTE_E + 0x03.
Definition MP_BC_RAISE_LAST : Z := MP_BC_BASE_BYTE_E + 0x04.
Definition MP_BC_RAISE_OBJ : Z := MP_BC_BASE_BYTE_E + 0x05.
Definition MP_BC_RAISE_FROM : Z := MP_BC_BASE_BYTE_E + 0x06.
Definition MP_BC_YIELD_VALUE : Z := MP_BC_BASE_BYTE_E + 0x07.
Definition MP_BC_YIELD_FROM : Z := MP_BC_BASE_BYTE_E + 0x08.
Definition MP_BC_MAKE_FUNCTION : Z := MP_BC_BASE_VINT_O + 0x02.
Definition MP_BC_MAKE_FUNCTION_DEFARGS : Z := MP_BC_BASE_VINT_O + 0x03.
Definition MP_BC_MAKE_CLOSURE : Z := MP_BC_BASE_VINT_E + 0x00.
Definition MP_BC_MAKE_CLOSURE_DEFARGS : Z := MP_BC_BASE_VINT_E + 0x01.
Definition MP_BC_CALL_FUNCTION : Z := MP_BC_BASE_VINT_O + 0x04.
Definition MP_BC_CALL_FUNCTION_VAR_KW : Z := MP_BC_BASE_VINT_O + 0x05.
Definition MP_BC_CALL_METHOD : Z := MP_BC_BASE_VINT_O + 0x06.
Definition MP_BC_CALL_METHOD_VAR_KW : Z := MP_BC_BASE_VINT_O + 0x07.
Definition MP_BC_IMPORT_NAME : Z := MP_BC_BASE_QSTR_O + 0x0b.
Definition MP_BC_IMPORT_FROM : Z := MP_BC_BASE_QSTR_O + 0x0c.
Definition MP_BC_IMPORT_STAR : Z := MP_BC_BASE_BYTE_E + 0x09.
Definition MP_BC_LONGYIELD : Z := MP_BC_BASE_BYTE_E + 0x0b.
Definition MP_BC_IPUSYSCALL : Z := MP_BC_BASE_BYTE_E + 0x0c.

Definition MP_BC_FORMAT (op : Z) : Z := Z.land (Z.shiftr 0x000003a4 (2 * Z.shiftr op 4)) 3.

(** [mp_opcode_format]: the format of an instruction, and its size (with its number only when
    [count_var_uint]).  The file format of compiled code uses it, which is not built in the port. *)
Definition mp_opcode_format (ip : list Z) (count_var_uint : bool) : outcome (Z * Z) :=
  let! op := rd ip 0 in
  let f := MP_BC_FORMAT op in
  if f =? MP_BC_FORMAT_QSTR then Ret (f, 3)
  else
    let extra_byte := b2z (Z.land op MP_BC_MASK_EXTRA_BYTE =? 0) in
    let! n :=
      if f =? MP_BC_FORMAT_VAR_UINT then
        if count_var_uint then
          let! rest := mp_decode_uint_skip (drop 1 ip) in Ret (Z.of_nat (length ip) - Z.of_nat (length rest))
        else Ret 1
      else if f =? MP_BC_FORMAT_OFFSET then Ret 3 else Ret 1 in
    Ret (f, n + extra_byte).

(** ** Instructions *)

(** What an instruction of the virtual machine reads after its opcode: nothing, an unsigned number
    ([DECODE_UINT], also for strings, objects and children), a signed number, a label ([DECODE_SLABEL]
    and [DECODE_ULABEL], relative to the next instruction), or a number or label and a byte. *)
Inductive operand_kind := K_none | K_uint | K_int | K_byte | K_slabel | K_ulabel | K_uint_byte | K_slabel_byte.

Inductive operand := O_none | O_uint (n : Z) | O_int (n : Z) | O_label (rel : Z) | O_uint_byte (n b : Z) | O_label_byte (rel b : Z).

#[export] Instance operand_kind_eq_dec : EqDecision operand_kind.
Proof. solve_decision. Defined.

#[export] Instance operand_eq_dec : EqDecision operand.
Proof. solve_decision. Defined.

Definition opcodes_of (k : operand_kind) : list Z :=
  match k with
  | K_none => [MP_BC_LOAD_CONST_FALSE; MP_BC_LOAD_CONST_NONE; MP_BC_LOAD_CONST_TRUE; MP_BC_LOAD_NULL;
      MP_BC_LOAD_BUILD_CLASS; MP_BC_LOAD_SUBSCR; MP_BC_STORE_SUBSCR; MP_BC_DUP_TOP; MP_BC_DUP_TOP_TWO;
      MP_BC_POP_TOP; MP_BC_ROT_TWO; MP_BC_ROT_THREE; MP_BC_LONGYIELD; MP_BC_IPUSYSCALL; MP_BC_WITH_CLEANUP;
      MP_BC_END_FINALLY; MP_BC_GET_ITER; MP_BC_GET_ITER_STACK; MP_BC_STORE_MAP; MP_BC_RETURN_VALUE;
      MP_BC_RAISE_LAST; MP_BC_RAISE_OBJ; MP_BC_RAISE_FROM; MP_BC_YIELD_VALUE; MP_BC_YIELD_FROM; MP_BC_IMPORT_STAR]
  | K_int => [MP_BC_LOAD_CONST_SMALL_INT]
  | K_byte => [MP_BC_BUILD_SLICE]
  | K_uint => [MP_BC_LOAD_CONST_STRING; MP_BC_LOAD_CONST_OBJ; MP_BC_LOAD_FAST_N; MP_BC_LOAD_DEREF; MP_BC_LOAD_NAME;
      MP_BC_LOAD_GLOBAL; MP_BC_LOAD_ATTR; MP_BC_LOAD_METHOD; MP_BC_LOAD_SUPER_METHOD; MP_BC_STORE_FAST_N;
      MP_BC_STORE_DEREF; MP_BC_STORE_NAME; MP_BC_STORE_GLOBAL; MP_BC_STORE_ATTR; MP_BC_DELETE_FAST;
      MP_BC_DELETE_DEREF; MP_BC_DELETE_NAME; MP_BC_DELETE_GLOBAL; MP_BC_BUILD_TUPLE; MP_BC_BUILD_LIST;
      MP_BC_BUILD_MAP; MP_BC_BUILD_SET; MP_BC_STORE_COMP; MP_BC_UNPACK_SEQUENCE; MP_BC_UNPACK_EX;
      MP_BC_MAKE_FUNCTION; MP_BC_MAKE_FUNCTION_DEFARGS; MP_BC_CALL_FUNCTION; MP_BC_CALL_FUNCTION_VAR_KW;
      MP_BC_CALL_METHOD; MP_BC_CALL_METHOD_VAR_KW; MP_BC_IMPORT_NAME; MP_BC_IMPORT_FROM]
  | K_slabel => [MP_BC_JUMP; MP_BC_POP_JUMP_IF_TRUE; MP_BC_POP_JUMP_IF_FALSE; MP_BC_JUMP_IF_TRUE_OR_POP;
      MP_BC_JUMP_IF_FALSE_OR_POP]
  | K_ulabel => [MP_BC_SETUP_WITH; MP_BC_SETUP_EXCEPT; MP_BC_SETUP_FINALLY; MP_BC_FOR_ITER; MP_BC_POP_EXCEPT_JUMP]
  | K_uint_byte => [MP_BC_MAKE_CLOSURE; MP_BC_MAKE_CLOSURE_DEFARGS]
  | K_slabel_byte => [MP_BC_UNWIND_JUMP]
  end.

Definition all_kinds : list operand_kind := [K_none; K_uint; K_int; K_byte; K_slabel; K_ulabel; K_uint_byte; K_slabel_byte].

(** The cases of the virtual machine's switch ([None]: [NotImplementedError]).  The default case, of a build
    without computed gotos, takes all other opcodes up to the last binary operator, which have their operand
    in the opcode. *)
Definition vm_operand (op : Z) : option operand_kind :=
  match filter (fun k => op ∈ opcodes_of k) all_kinds with
  | k :: _ => Some k
  | [] =>
    if op <? MP_BC_BINARY_OP_MULTI + MP_BC_BINARY_OP_MULTI_NUM then Some K_none else None
  end.

(** One instruction: its opcode, its operand and the pointer to the next one. *)
Definition vm_fetch (ip : list Z) : outcome (Z * operand * list Z) :=
  match ip with
  | [] => Undef
  | op :: ip =>
    match vm_operand op with
    | None => Raise NotImplementedError
    | Some K_none => Ret (op, O_none, ip)
    | Some K_uint => let! '(n, ip) := DECODE_UINT ip in Ret (op, O_uint n, ip)
    | Some K_int => let! '(n, ip) := decode_int ip in Ret (op, O_int n, ip)
    | Some K_byte => let! b := rd ip 0 in Ret (op, O_uint b, drop 1 ip)
    | Some K_slabel => let! '(l, ip) := DECODE_SLABEL ip in Ret (op, O_label l, ip)
    | Some K_ulabel => let! '(l, ip) := DECODE_ULABEL ip in Ret (op, O_label l, ip)
    | Some K_uint_byte =>
      let! '(n, ip) := DECODE_UINT ip in
      let! b := rd ip 0 in Ret (op, O_uint_byte n b, drop 1 ip)
    | Some K_slabel_byte =>
      let! '(l, ip) := DECODE_SLABEL ip in
      let! b := rd ip 0 in Ret (op, O_label_byte l b, drop 1 ip)
    end
  end.
