(* ===== verification/BytecodeNum.v ===== *)
(** * The numbers of the bytecode: lemmas

    The numbers that [mp_encode_uint] and [encode_int] of [Bytecode] write, as lists of bytes
    ([var_uint], [var_int]: the fewest groups of seven bits that hold the number), and that the readers
    read them back whatever follows. *)

From S2P Require Import Prelude SmallInt Bytecode.
Local Open Scope Z_scope.

(** ** The numbers written, as lists *)

(** The digits of [v] in base 128, [k] of them. *)
Fixpoint digits (k : nat) (v : Z) : list Z :=
  match k with O => [] | S k => digits k (v / 128) ++ [v mod 128] end.

(** The continuation bit in all but the last. *)
Fixpoint cont (ds : list Z) : list Z :=
  match ds with
  | [] => []
  | [d] => [d]
  | d :: ds => (d + 128) :: cont ds
  end.

(** The fewest groups that hold an unsigned, or a signed, number of 32 bits. *)
Definition uint_len (v : Z) : nat :=
  if v <? 2 ^ 7 then 1 else if v <? 2 ^ 14 then 2 else if v <? 2 ^ 21 then 3
  else if v <? 2 ^ 28 then 4 else 5.

Definition int_len (v : Z) : nat :=
  let fits k := (- 2 ^ k <=? v) && (v <? 2 ^ k) in
  if fits 6 then 1 else if fits 13 then 2 else if fits 20 then 3 else if fits 27 then 4 else 5.

Definition var_uint (v : Z) : list Z := cont (digits (uint_len v) v).
Definition var_int (v : Z) : list Z := cont (digits (int_len v) v).

(** The value of digits that follow the number [a]. *)
Definition be (a : Z) (ds : list Z) : Z := foldl (fun a d => a * 128 + d) a ds.

Lemma byte_cases (P : Z -> bool) (n : nat) d :
  forallb (fun i => P (Z.of_nat i)) (seq 0 n) = true -> 0 <= d < Z.of_nat n -> P d = true.
Proof.
  intros H Hd. rewrite forallb_forall in H. rewrite <- (Z2Nat.id d) by lia.
  apply H, in_seq. lia.
Qed.

Lemma land_64 d : 0 <= d < 128 -> (Z.land d 0x40 =? 0) = (d <? 64).
Proof.
  intros Hd. apply eqb_prop.
  exact (byte_cases (fun d => Bool.eqb (Z.land d 0x40 =? 0) (d <? 64)) 128 d eq_refl Hd).
Qed.

Lemma cont_digit_bits d : 0 <= d < 128 ->
  Z.lor d 0x80 = d + 128 /\ Z.land d 0x7f = d /\ Z.land (d + 128) 0x7f = d /\
  (Z.land d 0x80 =? 0) = true /\ (Z.land (d + 128) 0x80 =? 0) = false.
Proof.
  intros Hd.
  pose proof (byte_cases (fun d => (Z.lor d 0x80 =? d + 128) && (Z.land d 0x7f =? d) &&
    (Z.land (d + 128) 0x7f =? d) && (Z.land d 0x80 =? 0) && negb (Z.land (d + 128) 0x80 =? 0)) 128 d eq_refl Hd) as H.
  rewrite !andb_true_iff, !Z.eqb_eq, negb_true_iff in H. rewrite (proj2 (Z.eqb_eq _ _)); naive_solver.
Qed.

Lemma length_digits k v : length (digits k v) = k.
Proof. revert v. induction k; intros v; [done|]. cbn. rewrite length_app, IHk. cbn. lia. Qed.

Lemma length_cont ds : length (cont ds) = length ds.
Proof. induction ds as [|d [|d' ds] IH]; [done..|]. cbn [cont length] in *. by rewrite IH. Qed.

Lemma digits_byte k v : Forall (fun d => 0 <= d < 128) (digits k v).
Proof.
  revert v. induction k; intros v; [done|]. cbn. apply list.Forall_app. split; [done|].
  apply list.Forall_singleton. zdiv.
Qed.

(** The top digit first. *)
Lemma digits_S k v : digits (S k) v = (v / 128 ^ Z.of_nat k) mod 128 :: digits k v.
Proof.
  revert v. induction k; intros v.
  - cbn. by rewrite Z.div_1_r.
  - change (digits (S (S k)) v) with (digits (S k) (v / 128) ++ [v mod 128]). rewrite IHk. cbn [app].
    by rewrite Nat2Z.inj_succ, Z.pow_succ_r, Z.div_div by lia.
Qed.

Lemma be_app a ds ds' : be a (ds ++ ds') = be (be a ds) ds'.
Proof. apply foldl_app. Qed.

Lemma be_digits k v : be (v / 128 ^ Z.of_nat k) (digits k v) = v.
Proof.
  revert v. induction k; intros v; [apply Z.div_1_r|]. cbn [digits]. rewrite be_app.
  rewrite Nat2Z.inj_succ, Z.pow_succ_r, <- Z.div_div by lia. rewrite IHk. unfold be. cbn. zdiv.
Qed.

Lemma be_bound a ds : 0 <= a -> Forall (fun d => 0 <= d < 128) ds -> 0 <= be a ds.
Proof.
  intros Ha H. revert a Ha. induction H as [|d ds Hd _ IH]; intros a Ha; [done|].
  apply (IH (a * 128 + d)). lia.
Qed.

(** ** What the writers write *)

(** The first loop leaves the fewest digits that hold the number at the end of the buffer. *)
Lemma encode_uint_digits_spec fuel pre tail val : (length pre < fuel)%nat -> pre <> [] ->
  0 <= val < 128 ^ Z.of_nat (length pre) ->
  exists pre' j, encode_uint_digits fuel (pre ++ tail) (Z.of_nat (length pre)) val
      = Ret (pre' ++ digits j val ++ tail, Z.of_nat (length pre')) /\
    length pre = (length pre' + j)%nat /\ (1 <= j)%nat /\ val < 128 ^ Z.of_nat j /\
    (j = 1%nat \/ 128 ^ (Z.of_nat j - 1) <= val).
Proof.
  revert pre tail val. induction fuel as [|fuel IH]; intros pre tail val Hf Hne Hv; [lia|].
  destruct pre as [|x pre _] using rev_ind; [done|]. rewrite length_app in *. cbn [length] in *.
  cbn [encode_uint_digits]. rewrite <- app_assoc. cbn [app].
  replace (Z.of_nat (length pre + 1) - 1) with (Z.of_nat (length pre)) by lia.
  rewrite wr_middle. cbn [obind]. change 0x7f with (2 ^ 7 - 1). rewrite land_mask, Z.shiftr_div_pow2 by lia.
  change (2 ^ 7) with 128. replace (Z.of_nat (length pre + 1)) with (Z.succ (Z.of_nat (length pre))) in Hv by lia.
  rewrite Z.pow_succ_r in Hv by lia. destruct (Z.eqb_spec (val / 128) 0) as [E|E].
  - exists pre, 1%nat. repeat split; [lia..|change (128 ^ Z.of_nat 1) with 128; zdiv|by left].
  - destruct pre as [|y pre']; [change (128 ^ Z.of_nat (length [])) with 1 in Hv; zdiv|].
    destruct (IH (y :: pre') (val mod 128 :: tail) (val / 128)) as (pre & j & H & Hl & Hj & Hv' & Hm);
      [cbn [length] in *; lia|done|split; [zdiv|apply Z.div_lt_upper_bound; lia]|].
    exists pre, (S j). rewrite H. repeat split.
    + cbn [digits]. by rewrite <- app_assoc.
    + cbn [length] in *. lia.
    + lia.
    + rewrite Nat2Z.inj_succ, Z.pow_succ_r by lia. zdiv.
    + right. replace (Z.of_nat (S j) - 1) with (Z.of_nat j) by lia.
      destruct Hm as [->|Hm]; [change (128 ^ Z.of_nat 1) with 128; zdiv|].
      replace (Z.of_nat j) with (Z.succ (Z.of_nat j - 1)) by lia. rewrite Z.pow_succ_r by lia. zdiv.
Qed.

Lemma uint_len_unique val j : (1 <= j)%nat -> 0 <= val < 2 ^ 32 -> val < 128 ^ Z.of_nat j ->
  (j = 1%nat \/ 128 ^ (Z.of_nat j - 1) <= val) -> j = uint_len val.
Proof.
  intros Hj Hv Hu Hl. destruct (decide (j <= 5)%nat) as [Hj5|Hj5].
  - unfold uint_len. assert (j = 1 \/ j = 2 \/ j = 3 \/ j = 4 \/ j = 5)%nat as [->|[->|[->|[->| ->]]]] by lia;
      cbn in Hu, Hl; repeat bcase; lia.
  - exfalso. destruct Hl as [->|Hl]; [lia|].
    pose proof (Z.pow_le_mono_r 128 5 (Z.of_nat j - 1)). change (128 ^ 5) with (2 ^ 35) in *. lia.
Qed.

Lemma encode_int_digits_spec fuel pre tail num : (length pre < fuel)%nat -> pre <> [] ->
  - 128 ^ Z.of_nat (length pre) <= num < 128 ^ Z.of_nat (length pre) ->
  exists pre' j, encode_int_digits fuel (pre ++ tail) (Z.of_nat (length pre)) num
      = Ret (pre' ++ digits j num ++ tail, Z.of_nat (length pre'), num / 128 ^ Z.of_nat j) /\
    length pre = (length pre' + j)%nat /\ (1 <= j)%nat /\ -1 <= num / 128 ^ Z.of_nat j <= 0 /\
    (j = 1%nat \/ ~ (-1 <= num / 128 ^ (Z.of_nat j - 1) <= 0)).
Proof.
  revert pre tail num. induction fuel as [|fuel IH]; intros pre tail num Hf Hne Hv; [lia|].
  destruct pre as [|x pre _] using rev_ind; [done|]. rewrite length_app in *. cbn [length] in *.
  cbn [encode_int_digits]. rewrite <- app_assoc. cbn [app].
  replace (Z.of_nat (length pre + 1) - 1) with (Z.of_nat (length pre)) by lia.
  rewrite wr_middle. cbn [obind]. change 0x7f with (2 ^ 7 - 1). rewrite land_mask, Z.shiftr_div_pow2 by lia.
  change (2 ^ 7) with 128. replace (Z.of_nat (length pre + 1)) with (Z.succ (Z.of_nat (length pre))) in Hv by lia.
  rewrite Z.pow_succ_r in Hv by lia.
  destruct (decide (-1 <= num / 128 <= 0)) as [E|E].
  - replace (negb (num / 128 =? 0) && negb (num / 128 =? -1)) with false by lia.
    exists pre, 1%nat. change (128 ^ Z.of_nat 1) with 128. repeat split; [lia..|by left].
  - replace (negb (num / 128 =? 0) && negb (num / 128 =? -1)) with true by lia.
    destruct pre as [|y pre']; [change (128 ^ Z.of_nat (length [])) with 1 in Hv; zdiv|].
    destruct (IH (y :: pre') (num mod 128 :: tail) (num / 128)) as (pre & j & H & Hl & Hj & Hv' & Hm);
      [cbn [length] in *; lia|done|split; [apply Z.div_le_lower_bound|apply Z.div_lt_upper_bound]; lia|].
    exists pre, (S j). rewrite H, Nat2Z.inj_succ, Z.pow_succ_r, <- Z.div_div by lia. repeat split.
    + cbn [digits]. by rewrite <- app_assoc.
    + cbn [length] in *. lia.
    + lia.
    + lia.
    + lia.
    + right. destruct Hm as [->|Hm]; [done|].
      replace (Z.succ (Z.of_nat j) - 1) with (Z.succ (Z.of_nat j - 1)) by lia.
      by rewrite Z.pow_succ_r, <- Z.div_div by lia.
Qed.

(** Decide the tests of [int_len] one after the other. *)
Ltac int_len_cases :=
  unfold int_len; cbv zeta;
  repeat match goal with
  | |- context [(?a <=? ?v) && (?v <? ?b)] =>
    first [replace ((a <=? v) && (v <? b)) with true by lia | replace ((a <=? v) && (v <? b)) with false by lia]
  end; reflexivity.

(** Whether [num] is a signed number of [7 * j] bits, and the fewest groups. *)
Lemma int_len_unique num j : (1 <= j)%nat -> - 2 ^ 31 <= num < 2 ^ 31 ->
  - (64 * 128 ^ (Z.of_nat j - 1)) <= num < 64 * 128 ^ (Z.of_nat j - 1) ->
  (j = 1%nat \/ ~ (- (64 * 128 ^ (Z.of_nat j - 2)) <= num < 64 * 128 ^ (Z.of_nat j - 2))) -> j = int_len num.
Proof.
  intros Hj Hv Hu Hl. destruct (decide (j <= 5)%nat) as [Hj5|Hj5].
  - assert (j = 1 \/ j = 2 \/ j = 3 \/ j = 4 \/ j = 5)%nat as [->|[->|[->|[->| ->]]]] by lia;
      cbn in Hu, Hl; int_len_cases.
  - exfalso. destruct Hl as [->|Hl]; [lia|].
    pose proof (Z.pow_le_mono_r 128 4 (Z.of_nat j - 2)). change (128 ^ 4) with (2 ^ 28) in *. lia.
Qed.

(** The sign that the reader finds in the top digit. *)
Lemma top_digit num j d ds : digits (S j) num = d :: ds -> - 2 ^ 31 <= num < 2 ^ 31 ->
  -1 <= num / 128 ^ Z.of_nat (S j) <= 0 ->
  0 <= d < 128 /\ num / 128 ^ Z.of_nat j = 128 * (num / 128 ^ Z.of_nat (S j)) + d /\
  num = num / 128 ^ Z.of_nat j * 128 ^ Z.of_nat j + num mod 128 ^ Z.of_nat j /\
  0 <= num mod 128 ^ Z.of_nat j < 128 ^ Z.of_nat j.
Proof.
  rewrite digits_S. intros [= <- _] Hn Hq.
  assert (num / 128 ^ Z.of_nat (S j) = num / 128 ^ Z.of_nat j / 128) as E.
  { rewrite Nat2Z.inj_succ, Z.pow_succ_r, Z.mul_comm, <- Z.div_div by lia. done. }
  rewrite E in *. pose proof (Z.pow_pos_nonneg 128 (Z.of_nat j)) as HM.
  pose proof (Z.div_mod num (128 ^ Z.of_nat j)). pose proof (Z.mod_pos_bound num (128 ^ Z.of_nat j)).
  repeat split; [zdiv..|lia|lia|lia].
Qed.

Section WriterSpecs.
Context {E P : Type} (allocator : E -> Z -> outcome (E * option P))
  (store : E -> P -> Z -> Z -> outcome E).

(** [c[i], c[i + 1], ...] set to [bs] in this order. *)
Fixpoint put_bytes (env : E) (c : P) (i : Z) (bs : list Z) : outcome E :=
  match bs with
  | [] => Ret env
  | b :: bs => let! env := store env c i b in put_bytes env c (i + 1) bs
  end.

(** Room for [bs], then [bs]. *)
Definition write_bytes (env : E) (bs : list Z) : outcome E :=
  let! '(env, c) := allocator env (Z.of_nat (length bs)) in
  match c with None => Ret env | Some c => put_bytes env c 0 bs end.

Lemma encode_copy_spec fuel env c i pre ds : (length ds <= fuel)%nat -> ds <> [] ->
  Forall (fun d => 0 <= d < 128) ds ->
  encode_copy store fuel env c i (pre ++ ds) (Z.of_nat (length pre)) = put_bytes env c i (cont ds).
Proof.
  revert env i pre ds. induction fuel as [|fuel IH]; intros env i pre ds Hf Hne Hd.
  { destruct ds; [done|cbn [length] in Hf; lia]. }
  destruct ds as [|d ds]; [done|]. apply list.Forall_cons in Hd as [Hd Hds]. cbn [encode_copy].
  rewrite rd_middle, length_app. cbn [length] in *. destruct ds as [|d' ds].
  - rewrite (proj2 (Z.eqb_eq _ _)) by (cbn; lia). cbn. by destruct (store env c i d).
  - rewrite (proj2 (Z.eqb_neq _ _)) by (cbn [length]; lia). cbn [obind]. destruct (cont_digit_bits d Hd) as [-> _].
    change (cont (d :: d' :: ds)) with (d + 128 :: cont (d' :: ds)). cbn [put_bytes].
    destruct (store env c i (d + 128)) as [env'| | |]; try done. cbn [obind].
    rewrite (cons_middle d pre). replace (Z.of_nat (length pre) + 1) with (Z.of_nat (length (pre ++ [d]))) by lens.
    rewrite app_assoc. apply IH; [lia|done..].
Qed.

Lemma mp_encode_uint_ok env val : 0 <= val < 2 ^ 32 ->
  mp_encode_uint allocator store env val = write_bytes env (var_uint val).
Proof.
  intros Hv. unfold mp_encode_uint.
  destruct (encode_uint_digits_spec 6 (replicate 5 0) [] val) as (pre & j & H & Hl & Hj & Hu & Hm);
    [cbn; lia|done|cbn; lia|].
  change (Z.to_nat MP_ENCODE_UINT_MAX_BYTES) with 5%nat. rewrite length_replicate in *.
  rewrite app_nil_r in H. change MP_ENCODE_UINT_MAX_BYTES with (Z.of_nat 5). rewrite H. cbn [obind].
  rewrite app_nil_r. unfold write_bytes, var_uint. rewrite length_cont, length_digits.
  rewrite <- (uint_len_unique val j) by done.
  replace (Z.of_nat 5 - Z.of_nat (length pre)) with (Z.of_nat j) by lia.
  destruct (allocator env (Z.of_nat j)) as [[env' [c|]]| | |]; try done. cbn [obind].
  rewrite length_app, length_digits. apply encode_copy_spec; [rewrite length_digits; lia| |apply digits_byte].
  rewrite <- length_zero_iff_nil, length_digits. lia.
Qed.

(** Copying a buffer of five digits out. *)
Lemma copy_out env pre ds n : n = 5 -> (5 = length pre + length ds)%nat -> ds <> [] ->
  Forall (fun d => 0 <= d < 128) ds ->
  (forall env' n env'', allocator env' n = Ret (env'', None) -> False) ->
  (let! '(env, c) := allocator env (n - Z.of_nat (length pre)) in
   match c with
   | None => Undef
   | Some c => encode_copy store (length (pre ++ ds)) env c 0 (pre ++ ds) (Z.of_nat (length pre))
   end) = write_bytes env (cont ds).
Proof.
  intros -> Hl Hne Hds Hnull. unfold write_bytes. rewrite length_cont.
  replace (5 - Z.of_nat (length pre)) with (Z.of_nat (length ds)) by lia.
  destruct (allocator env _) as [[env' [c|]]| | |] eqn:Ea; try done; cbn [obind].
  - rewrite encode_copy_spec; [done|lens|done..].
  - by apply Hnull in Ea.
Qed.

(** The signed number, with a sign digit in front when the top digit does not show the sign. *)
Lemma encode_int_ok env num : - 2 ^ 31 <= num < 2 ^ 31 ->
  (forall env' n env'', allocator env' n = Ret (env'', None) -> False) ->
  encode_int allocator store env num = write_bytes env (var_int num).
Proof.
  intros Hn Hnull. unfold encode_int.
  destruct (encode_int_digits_spec 6 (replicate 5 0) [] num) as (pre & j & H & Hl & Hj & Hq & Hm);
    [cbn; lia|done|cbn; lia|].
  change (Z.to_nat MP_ENCODE_UINT_MAX_BYTES) with 5%nat. rewrite length_replicate in *.
  rewrite app_nil_r in H. change MP_ENCODE_UINT_MAX_BYTES with (Z.of_nat 5). rewrite H. cbn [obind]. clear H.
  rewrite app_nil_r. destruct j as [|j]; [lia|]. destruct (digits (S j) num) as [|d ds] eqn:Ed;
    [apply (f_equal length) in Ed; by rewrite length_digits in Ed|].
  destruct (top_digit num j d ds) as (Hd & Eq & En & Hr); [done..|].
  pose proof (digits_byte (S j) num) as Hb. pose proof (length_digits (S j) num) as Hlen. rewrite Ed in Hb, Hlen.
  rewrite rd_middle. cbn [obind]. rewrite land_64 by done.
  replace (Z.of_nat (S j) - 1) with (Z.of_nat j) in Hm by lia.
  set (q := num / 128 ^ Z.of_nat (S j)) in *. set (M := 128 ^ Z.of_nat j) in *.
  assert (HM : M * 128 = 128 ^ Z.of_nat (S j)) by (unfold M; rewrite Nat2Z.inj_succ, Z.pow_succ_r; lia).
  assert (HM' : (j = 0%nat /\ M = 1) \/ (1 <= j)%nat /\ M = 128 * 128 ^ (Z.of_nat j - 1)).
  { destruct j as [|j']; [by left|right; split; [lia|]]. unfold M.
    replace (Z.of_nat (S j') - 1) with (Z.of_nat j') by lia. rewrite Nat2Z.inj_succ, Z.pow_succ_r; lia. }
  assert (ext : forall s, (s = 127 /\ q = -1 /\ d < 64) \/ (s = 0 /\ q = 0 /\ 64 <= d) ->
    exists pre' x, pre = pre' ++ [x] /\ var_int num = cont (s :: d :: ds)).
  { intros s Hs. assert (Hl' : (length pre <> 0)%nat).
    { intros E0. assert (j = 4)%nat as -> by lia. change M with (2 ^ 28) in *. nia. }
    destruct pre as [|x pre' _] using rev_ind; [done|]. exists pre', x. split; [done|].
    unfold var_int. rewrite <- (int_len_unique num (S (S j))); [|lia|done|..].
    - rewrite digits_S, Ed. fold q. do 2 f_equal. destruct Hs as [(-> & -> & _)|(-> & -> & _)]; done.
    - replace (Z.of_nat (S (S j)) - 1) with (Z.of_nat (S j)) by lia. nia.
    - right. replace (Z.of_nat (S (S j)) - 2) with (Z.of_nat j) by lia. fold M. nia. }
  assert (step : forall s, (s = 127 /\ q = -1 /\ d < 64) \/ (s = 0 /\ q = 0 /\ 64 <= d) ->
    (let! '(buf, p) := let! buf := wr (pre ++ d :: ds) (Z.of_nat (length pre) - 1) s in
       Ret (buf, Z.of_nat (length pre) - 1) in
     let! '(env, c) := allocator env (Z.of_nat 5 - p) in
     match c with None => Undef | Some c => encode_copy store (length buf) env c 0 buf p end) =
    write_bytes env (var_int num)).
  { intros s Hs. destruct (ext s Hs) as (pre' & x & -> & ->). rewrite length_app in *. cbn [length] in *.
    replace (Z.of_nat (length pre' + 1) - 1) with (Z.of_nat (length pre')) by lia.
    rewrite <- app_assoc. cbn [app]. rewrite wr_middle. cbn [obind].
    apply copy_out; [done|cbn [length] in *; lia|done|constructor; [lia|done]|done]. }
  destruct (decide (q = -1 /\ d < 64)) as [[H1 H2]|H1]; [|destruct (decide (q = 0 /\ 64 <= d)) as [[H2 H3]|H2]].
  - rewrite (proj2 (Z.eqb_eq q _)), (proj2 (Z.ltb_lt d _)) by lia. cbn [andb]. apply step. by left.
  - rewrite (proj2 (Z.eqb_neq q (-1))), (proj2 (Z.eqb_eq q 0)), (proj2 (Z.ltb_ge d _)) by lia. cbn [andb negb].
    apply step. by right.
  - replace ((q =? -1) && (d <? 64)) with false by lia.
    replace ((q =? 0) && negb (d <? 64)) with false by lia. cbn [obind].
    rewrite copy_out; [|done|cbn [length] in *; lia|done..].
    unfold var_int. rewrite <- (int_len_unique num (S j)), Ed; [done|lia|done|..].
    + replace (Z.of_nat (S j) - 1) with (Z.of_nat j) by lia. fold M. nia.
    + destruct HM' as [[-> _]|[Hj' EM]]; [by left|right]. destruct Hm as [Hm|Hm]; [lia|].
      replace (Z.of_nat (S j) - 2) with (Z.of_nat j - 1) by lia. nia.
Qed.
End WriterSpecs.

(** ** What the readers read *)

Lemma be_wrap a ds : wrap 32 (be (wrap 32 a) ds) = wrap 32 (be a ds).
Proof.
  revert a. induction ds as [|d ds IH]; intros a; [apply Z.mod_mod; lia|].
  change (wrap 32 (be (wrap 32 a * 128 + d) ds) = wrap 32 (be (a * 128 + d) ds)).
  rewrite <- (IH (wrap 32 a * 128 + d)), <- (IH (a * 128 + d)). do 2 f_equal. unfold wrap. zdiv.
Qed.

Lemma digit_step a d : 0 <= d < 128 ->
  Z.lor (wrap 32 (Z.shiftl a 7)) d = wrap 32 (a * 128 + d).
Proof.
  intros Hd. rewrite Z.shiftl_mul_pow2 by lia. change (2 ^ 7) with 128.
  assert (wrap 32 (a * 128) = Z.shiftl (a mod 2 ^ 25) 7) as ->.
  { rewrite Z.shiftl_mul_pow2 by lia. unfold wrap. zdiv. }
  rewrite lor_shiftl_low by lia. unfold wrap. zdiv.
Qed.

Lemma decode_cont a ds rest : ds <> [] -> Forall (fun d => 0 <= d < 128) ds ->
  decode_uint_loop a (cont ds ++ rest) = Ret (wrap 32 (be a ds), rest).
Proof.
  intros Hne Hds. revert a Hne. induction Hds as [|d ds Hd Hds IH]; intros a Hne; [done|].
  destruct (cont_digit_bits d Hd) as (_ & E1 & E2 & E3 & E4). destruct ds as [|d' ds].
  - cbn. rewrite E1, E3. cbn [negb]. by rewrite digit_step.
  - change (cont (d :: d' :: ds)) with (d + 128 :: cont (d' :: ds)). cbn [app decode_uint_loop].
    rewrite E2, E4. cbn [negb]. rewrite digit_step, IH by done. by rewrite be_wrap.
Qed.

Lemma skip_cont ds rest : ds <> [] -> Forall (fun d => 0 <= d < 128) ds ->
  mp_decode_uint_skip (cont ds ++ rest) = Ret rest.
Proof.
  intros Hne Hds. revert Hne. induction Hds as [|d ds Hd Hds IH]; intros Hne; [done|].
  destruct (cont_digit_bits d Hd) as (_ & E1 & E2 & E3 & E4). destruct ds as [|d' ds].
  - cbn. by rewrite E3.
  - change (cont (d :: d' :: ds)) with (d + 128 :: cont (d' :: ds)). cbn [app mp_decode_uint_skip].
    rewrite E4. by apply IH.
Qed.

(** The macro of the virtual machine adds where [mp_decode_uint] combines bits. *)
Lemma DECODE_UINT_loop_eq a p : DECODE_UINT_loop a p = decode_uint_loop a p.
Proof.
  revert a. induction p as [|v p IH]; intros a; [done|]. cbn.
  change 127 with (2 ^ 7 - 1). rewrite land_mask by lia. rewrite digit_step by zdiv.
  rewrite Z.shiftl_mul_pow2 by lia. by rewrite IH.
Qed.

Lemma DECODE_UINT_eq p : DECODE_UINT p = mp_decode_uint p.
Proof. apply DECODE_UINT_loop_eq. Qed.

Lemma uint_len_bound v : 0 <= v < 2 ^ 32 -> (1 <= uint_len v <= 5)%nat /\ v < 128 ^ Z.of_nat (uint_len v).
Proof.
  intros Hv. unfold uint_len. repeat bcase; (split; [lia|]);
    match goal with |- _ < ?p => let q := eval vm_compute in p in change p with q end; lia.
Qed.

Lemma int_len_bound v : - 2 ^ 31 <= v < 2 ^ 31 ->
  (1 <= int_len v <= 5)%nat /\ - (64 * 128 ^ (Z.of_nat (int_len v) - 1)) <= v < 64 * 128 ^ (Z.of_nat (int_len v) - 1).
Proof.
  intros Hv. unfold int_len. cbv zeta.
  repeat match goal with
  | |- context [if ?b then _ else _] => let E := fresh in destruct b eqn:E
  end; (split; [lia|]); cbn; lia.
Qed.

Lemma mp_decode_uint_var v rest : 0 <= v < 2 ^ 32 -> mp_decode_uint (var_uint v ++ rest) = Ret (v, rest).
Proof.
  intros Hv. destruct (uint_len_bound v Hv) as [Hk Hu]. unfold mp_decode_uint, var_uint.
  rewrite decode_cont; [|intros H; apply (f_equal length) in H; rewrite length_digits in H; cbn in H; lia
    |apply digits_byte].
  pose proof (be_digits (uint_len v) v) as H. rewrite Z.div_small in H by lia. by rewrite H, wrap_small.
Qed.

Lemma decode_int_var v rest : - 2 ^ 31 <= v < 2 ^ 31 -> decode_int (var_int v ++ rest) = Ret (v, rest).
Proof.
  intros Hv. destruct (int_len_bound v Hv) as [Hk Hu]. unfold decode_int, var_int.
  set (k := int_len v) in *. destruct k as [|k]; [lia|].
  replace (Z.of_nat (S k) - 1) with (Z.of_nat k) in Hu by lia.
  pose proof (digits_byte (S k) v) as Hb. destruct (digits (S k) v) as [|d ds] eqn:Ed;
    [apply (f_equal length) in Ed; by rewrite length_digits in Ed|].
  assert (HM : 0 < 128 ^ Z.of_nat k) by (apply Z.pow_pos_nonneg; lia).
  assert (Ek : 128 ^ Z.of_nat (S k) = 128 * 128 ^ Z.of_nat k) by (rewrite Nat2Z.inj_succ, Z.pow_succ_r; lia).
  assert (Hq : -1 <= v / 128 ^ Z.of_nat (S k) <= 0).
  { rewrite Ek. set (M := 128 ^ Z.of_nat k) in *. split; [apply Z.div_le_lower_bound; lia|].
    apply Z.lt_succ_r, Z.div_lt_upper_bound; lia. }
  destruct (top_digit v k d ds Ed Hv Hq) as (Hd & Eq & En & Hr).
  assert (rd (cont (d :: ds) ++ rest) 0 = Ret (match ds with [] => d | _ => d + 128 end)) as ->.
  { by destruct ds. }
  cbn [obind].
  assert ((Z.land (match ds with [] => d | _ => d + 128 end) 0x40 =? 0) = (d <? 64)) as ->.
  { rewrite <- land_64 by done. f_equal. destruct ds; [done|]. destruct (cont_digit_bits d Hd) as (<- & _).
    rewrite Z.land_lor_distr_l. change (Z.land 128 64) with 0. apply Z.lor_0_r. }
  assert ((if negb (d <? 64) then wrap 32 (0 - 1) else 0) = wrap 32 (v / 128 ^ Z.of_nat (S k))) as ->.
  { set (q := v / 128 ^ Z.of_nat (S k)) in *. set (M := 128 ^ Z.of_nat k) in *.
    destruct (Z.ltb_spec d 64); cbn [negb].
    - assert (q = 0) as -> by nia. done.
    - assert (q = -1) as -> by nia. done. }
  rewrite decode_cont by done. cbn [obind]. rewrite be_wrap, <- Ed, be_digits.
  do 2 f_equal. unfold swrap, wrap. zdiv.
Qed.
