(* ===== verification/BytecodePrelude.v ===== *)
(** * The prelude of a function in the bytecode: lemmas

    The bytes of the signature and of the sizes of a function ([sig_bytes], [size_bytes]), that the macros of
    [py/bc.h] write these, and that the reading macros read them back. *)

From S2P Require Import Prelude SmallInt Bytecode BytecodeNum.
Local Open Scope Z_scope.

(** ** The bytes of the prelude *)

Fixpoint sig_ext (fuel : nat) (z S E F A K D : Z) : list Z :=
  match fuel with
  | O => []
  | Datatypes.S fuel =>
    if bool_decide (S = 0 /\ E = 0 /\ F = 0 /\ A = 0 /\ K = 0 /\ D = 0) then [z]
    else (128 + z) :: sig_ext fuel
      (64 * (F mod 2) + 16 * (S mod 4) + 8 * (K mod 2) + 4 * (A mod 2) + 2 * (E mod 2) + D mod 2)
      (S / 4) (E / 2) (F / 2) (A / 2) (K / 2) (D / 2)
  end.

Definition sig_bytes (p : prelude_sig) : list Z :=
  let S := n_state p - 1 in
  sig_ext 33 (8 * (S mod 16) + 4 * (n_exc_stack p mod 2) + n_pos_args p mod 4) (S / 16) (n_exc_stack p / 2)
    (sig_flags p) (n_pos_args p / 4) (n_kwonly_args p) (n_def_pos_args p).

(** The signatures that the compiler makes: every count is a [uint16_t]. *)
Definition sig_ok (p : prelude_sig) : Prop :=
  1 <= n_state p <= 2 ^ 17 /\ 0 <= n_exc_stack p < 2 ^ 16 /\ 0 <= sig_flags p < 16 /\
  0 <= n_pos_args p < 2 ^ 16 /\ 0 <= n_kwonly_args p < 2 ^ 16 /\ 0 <= n_def_pos_args p < 2 ^ 16.

#[export] Instance sig_ok_dec p : Decision (sig_ok p).
Proof. unfold sig_ok. apply _. Defined.

Fixpoint size_ext (fuel : nat) (I C : Z) : list Z :=
  match fuel with
  | O => []
  | S fuel =>
    let z := 2 * (I mod 64) + C mod 2 in
    if bool_decide (I / 64 = 0 /\ C / 2 = 0) then [z] else (128 + z) :: size_ext fuel (I / 64) (C / 2)
  end.

Definition size_bytes (I C : Z) : list Z := size_ext 32 I C.

(** [out_byte] of each. *)
Fixpoint out_all {E} (out_byte : E -> Z -> outcome E) (env : E) (bs : list Z) : outcome E :=
  match bs with
  | [] => Ret env
  | b :: bs => let! env := out_byte env b in out_all out_byte env bs
  end.

Lemma land_mod k x m : 0 <= k -> m = 2 ^ k - 1 -> Z.land x m = x mod 2 ^ k.
Proof. intros Hk ->. by apply land_mask. Qed.

(** The bits of an extension byte. *)
Lemma sig_byte f s k a e d : 0 <= f < 2 -> 0 <= s < 4 -> 0 <= k < 2 -> 0 <= a < 2 -> 0 <= e < 2 -> 0 <= d < 2 ->
  let z := 64 * f + 16 * s + 8 * k + 4 * a + 2 * e + d in
  Z.lor (Z.lor (Z.lor (Z.lor (Z.lor (Z.shiftl f 6) (Z.shiftl s 4)) (Z.shiftl k 3)) (Z.shiftl a 2)) (Z.shiftl e 1)) d = z /\
  Z.lor 0x80 z = 128 + z /\
  forall b, b = z \/ b = 128 + z ->
    Z.land b 0x30 = s * 2 ^ 4 /\ Z.land b 0x02 = e * 2 ^ 1 /\ Z.shiftr (Z.land b 0x40) 6 = f * 2 ^ 0 /\
    Z.land b 0x4 = a * 2 ^ 2 /\ Z.shiftr (Z.land b 0x08) 3 = k * 2 ^ 0 /\ Z.land b 0x1 = d * 2 ^ 0.
Proof.
  intros Hf Hs Hk Ha He Hd.
  assert (f = 0 \/ f = 1) as [-> | ->] by lia; assert (s = 0 \/ s = 1 \/ s = 2 \/ s = 3) as [->|[->|[->| ->]]] by lia;
  assert (k = 0 \/ k = 1) as [-> | ->] by lia; assert (a = 0 \/ a = 1) as [-> | ->] by lia;
  assert (e = 0 \/ e = 1) as [-> | ->] by lia; assert (d = 0 \/ d = 1) as [-> | ->] by lia;
  (split; [reflexivity|split; [reflexivity|intros b [-> | ->]; repeat split]]).
Qed.

(** [x |= y << k] above the bits of [x]. *)
Lemma or_bits x y w n : 0 <= n < 32 -> 0 <= w -> 0 <= x < 2 ^ (w + n) -> 0 <= y * 2 ^ (w + n) < 2 ^ 31 ->
  exists v, shl_int (y * 2 ^ w) n = Ret v /\ Z.lor x v = x + y * 2 ^ (w + n).
Proof.
  intros Hn Hw Hx Hy. exists (y * 2 ^ (w + n)). unfold shl_int. rewrite (proj2 (Z.ltb_lt _ _)) by lia.
  rewrite Z.shiftl_mul_pow2, <- Z.mul_assoc, <- Z.pow_add_r by lia. rewrite sint_ok by lia. split; [done|].
  rewrite Z.lor_comm, <- Z.shiftl_mul_pow2, lor_shiftl_low by lia. rewrite Z.shiftl_mul_pow2; lia.
Qed.


Lemma pow_bound (n c : Z) : 0 <= n -> 0 < c -> c * 2 ^ n < 2 ^ 16 -> n <= 15.
Proof.
  intros Hn Hc H. destruct (Z.le_gt_cases n 15); [done|].
  pose proof (Z.pow_le_mono_r 2 16 n). nia.
Qed.

Lemma half_bound x n c B : 0 <= x -> 0 <= n -> 0 <= c -> x * 2 ^ (c + n) < B -> x / 2 * 2 ^ (c + (n + 1)) < B.
Proof.
  intros. replace (c + (n + 1)) with (Z.succ (c + n)) by lia. rewrite Z.pow_succ_r by lia.
  assert (2 * (x / 2) <= x) by zdiv. pose proof (Z.pow_pos_nonneg 2 (c + n)). nia.
Qed.

(** The counts left to be written at the [n]-th extension byte fit in 16 bits ([S] in 30). *)
Definition ext_ok (n S E F A K D : Z) : Prop :=
  0 <= n /\ 0 <= S /\ 0 <= E /\ 0 <= F /\ 0 <= A /\ 0 <= K /\ 0 <= D /\
  S * 2 ^ (4 + 2 * n) < 2 ^ 30 /\ E * 2 ^ (1 + n) < 2 ^ 16 /\ F * 2 ^ (0 + n) < 2 ^ 16 /\
  A * 2 ^ (2 + n) < 2 ^ 16 /\ K * 2 ^ (0 + n) < 2 ^ 16 /\ D * 2 ^ (0 + n) < 2 ^ 16.

Lemma ext_ok_next n S E F A K D : ext_ok n S E F A K D ->
  ext_ok (n + 1) (S / 4) (E / 2) (F / 2) (A / 2) (K / 2) (D / 2).
Proof.
  intros (Hn & HS & HE & HF & HA & HK & HD & BS & BE & BF & BA & BK & BD).
  repeat split; [lia|zdiv..| | | | | |]; try (apply half_bound; lia).
  replace (4 + 2 * (n + 1)) with (Z.succ (Z.succ (4 + 2 * n))) by lia. rewrite !Z.pow_succ_r by lia.
  assert (4 * (S / 4) <= S) by zdiv. pose proof (Z.pow_pos_nonneg 2 (4 + 2 * n)). nia.
Qed.

Lemma ext_ok_lt n S E F A K D : ext_ok n S E F A K D ->
  ~ (S = 0 /\ E = 0 /\ F = 0 /\ A = 0 /\ K = 0 /\ D = 0) -> n <= 15.
Proof.
  intros (Hn & HS & HE & HF & HA & HK & HD & BS & BE & BF & BA & BK & BD) H.
  assert (P : forall c, 0 <= c -> 2 ^ n <= 2 ^ (c + n)) by (intros; apply Z.pow_le_mono_r; lia).
  destruct (Z.le_gt_cases n 15) as [|G]; [done|exfalso].
  assert (2 ^ 16 <= 2 ^ n) by (apply Z.pow_le_mono_r; lia).
  assert (2 ^ 36 <= 2 ^ (4 + 2 * n)) by (apply Z.pow_le_mono_r; lia).
  pose proof (P 0). pose proof (P 1). pose proof (P 2). nia.
Qed.

Lemma lor_zero S E F A K D :
  (Z.lor (Z.lor (Z.lor (Z.lor (Z.lor S E) F) A) K) D =? 0) =
  bool_decide (S = 0 /\ E = 0 /\ F = 0 /\ A = 0 /\ K = 0 /\ D = 0).
Proof.
  case_bool_decide as H; [by destruct H as (-> & -> & -> & -> & -> & ->)|].
  apply Z.eqb_neq. rewrite !Z.lor_eq_0_iff. tauto.
Qed.

Lemma mods S E F A K D :
  0 <= F mod 2 < 2 /\ 0 <= S mod 4 < 4 /\ 0 <= K mod 2 < 2 /\ 0 <= A mod 2 < 2 /\ 0 <= E mod 2 < 2 /\ 0 <= D mod 2 < 2.
Proof. repeat split; zdiv. Qed.

Lemma sig_encode_loop_ok {Env} (out_byte : Env -> Z -> outcome Env) fuel n env z S E F A K D :
  0 <= z < 128 -> ext_ok n S E F A K D -> n <= 16 -> 17 <= Z.of_nat fuel + n ->
  sig_encode_loop out_byte fuel env z S E F A K D = out_all out_byte env (sig_ext fuel z S E F A K D).
Proof.
  revert n env z S E F A K D. induction fuel as [|fuel IH]; intros n env z S E F A K D Hz Hok Hn Hf; [lia|].
  cbn [sig_encode_loop sig_ext]. rewrite lor_zero. case_bool_decide as H; cbn [negb].
  { cbn. by destruct (out_byte env z). }
  cbn [out_all]. pose proof (ext_ok_lt _ _ _ _ _ _ _ Hok H).
  assert (Z.lor 0x80 z = 128 + z) as -> by (rewrite Z.lor_comm, (proj1 (cont_digit_bits z Hz)); lia).
  destruct (out_byte env (128 + z)) as [env'| | |]; try done. cbn [obind].
  rewrite !(land_mod 1 _ 1), (land_mod 2 _ 3), !Z.shiftr_div_pow2 by lia.
  change (2 ^ 1) with 2. change (2 ^ 2) with 4.
  destruct (mods S E F A K D) as (? & ? & ? & ? & ? & ?).
  destruct (sig_byte (F mod 2) (S mod 4) (K mod 2) (A mod 2) (E mod 2) (D mod 2)) as [-> _]; [done..|].
  apply (IH (n + 1)); [lia|by apply ext_ok_next|lia..].
Qed.

(** Reading an extension adds its bits above those read before. *)
Lemma ext_bits x y w n m B : m = 2 \/ m = 4 -> 0 <= n < 32 -> 0 <= w -> 0 <= x < 2 ^ (w + n) -> 0 <= y ->
  y * 2 ^ (w + n) < B -> B <= 2 ^ 31 ->
  exists v, shl_int (y mod m * 2 ^ w) n = Ret v /\ 0 <= Z.lor x v < m * 2 ^ (w + n) /\
    Z.lor x v + y / m * (m * 2 ^ (w + n)) = x + y * 2 ^ (w + n).
Proof.
  intros Hm Hn Hw Hx Hy Hb HB. assert (0 <= y mod m <= y /\ 0 <= y mod m < m /\ y = m * (y / m) + y mod m) as (? & ? & ?).
  { destruct Hm as [-> | ->]; zdiv. }
  destruct (or_bits x (y mod m) w n) as (v & -> & Ev); [done..|nia|].
  exists v. rewrite Ev. split; [done|]. nia.
Qed.

Lemma top_bit z : 0 <= z < 128 -> (Z.land z 0x80 =? 0) = true /\ (Z.land (128 + z) 0x80 =? 0) = false.
Proof. intros Hz. destruct (cont_digit_bits z Hz) as (_ & _ & _ & H & H'). by rewrite (Z.add_comm 128). Qed.

Lemma sig_decode_loop_ok fuel n z S E F A K D b l rest S0 E0 F0 A0 K0 D0 :
  0 <= z < 128 -> ext_ok n S E F A K D -> sig_ext fuel z S E F A K D = b :: l -> n <= 16 -> 17 <= Z.of_nat fuel + n ->
  0 <= S0 < 2 ^ (4 + 2 * n) -> 0 <= E0 < 2 ^ (1 + n) -> 0 <= F0 < 2 ^ (0 + n) ->
  0 <= A0 < 2 ^ (2 + n) -> 0 <= K0 < 2 ^ (0 + n) -> 0 <= D0 < 2 ^ (0 + n) ->
  sig_decode_loop n b (l ++ rest) S0 E0 F0 A0 K0 D0 =
  Ret ({| n_state := wrap 32 (S0 + S * 2 ^ (4 + 2 * n) + 1); n_exc_stack := E0 + E * 2 ^ (1 + n);
          sig_flags := F0 + F * 2 ^ (0 + n); n_pos_args := A0 + A * 2 ^ (2 + n);
          n_kwonly_args := K0 + K * 2 ^ (0 + n); n_def_pos_args := D0 + D * 2 ^ (0 + n) |}, rest).
Proof.
  revert n z S E F A K D b l S0 E0 F0 A0 K0 D0.
  induction fuel as [|fuel IH]; intros n z S E F A K D b l S0 E0 F0 A0 K0 D0 Hz Hok Hb Hn Hf HS0 HE0 HF0 HA0 HK0 HD0; [done|].
  cbn [sig_ext] in Hb. destruct (top_bit z Hz) as [T1 T2]. case_bool_decide as H; injection Hb as <- Hl.
  { subst l. cbn [sig_decode_loop app]. destruct H as (-> & -> & -> & -> & -> & ->).
    destruct rest; cbn [sig_decode_loop]; rewrite T1; do 3 f_equal; first [lia|f_equal; lia]. }
  destruct (mods S E F A K D) as (m1 & m2 & m3 & m4 & m5 & m6).
  destruct (sig_byte _ _ _ _ _ _ m1 m2 m3 m4 m5 m6) as (_ & _ & Hbits).
  pose proof (ext_ok_lt _ _ _ _ _ _ _ Hok H) as Hn15.
  destruct l as [|b' l].
  { destruct fuel; [lia|]. cbn [sig_ext] in Hl. by case_bool_decide. }
  assert (Hb' : b' = 64 * (F mod 2) + 16 * (S mod 4) + 8 * (K mod 2) + 4 * (A mod 2) + 2 * (E mod 2) + D mod 2 \/
    b' = 128 + (64 * (F mod 2) + 16 * (S mod 4) + 8 * (K mod 2) + 4 * (A mod 2) + 2 * (E mod 2) + D mod 2)).
  { destruct fuel; [done|]. cbn [sig_ext] in Hl. case_bool_decide; injection Hl as <- _; auto. }
  destruct (Hbits b' Hb') as (B1 & B2 & B3 & B4 & B5 & B6).
  cbn [app sig_decode_loop]. rewrite T2, B1, B2, B3, B4, B5, B6.
  pose proof Hok as (Hn0 & HS & HE & HF & HA & HK & HD & BS & BE & BF & BA & BK & BD).
  destruct (ext_bits S0 S 4 (2 * n) 4 (2 ^ 30)) as (s & -> & Rs & Es); [auto|lia|lia|done..|lia|].
  destruct (ext_bits E0 E 1 n 2 (2 ^ 16)) as (e & -> & Re & Ee); [auto|lia|lia|done..|lia|].
  destruct (ext_bits F0 F 0 n 2 (2 ^ 16)) as (f & -> & Rf & Ef); [auto|lia|lia|done..|lia|].
  destruct (ext_bits A0 A 2 n 2 (2 ^ 16)) as (a & -> & Ra & Ea); [auto|lia|lia|done..|lia|].
  destruct (ext_bits K0 K 0 n 2 (2 ^ 16)) as (k & -> & Rk & Ek); [auto|lia|lia|done..|lia|].
  destruct (ext_bits D0 D 0 n 2 (2 ^ 16)) as (d & -> & Rd & Ed); [auto|lia|lia|done..|lia|].
  cbn [obind]. set (z' := 64 * _ + _ + _ + _ + _ + _) in *. assert (0 <= z' < 128) by lia. clearbody z'.
  rewrite (IH (n + 1) z' (S / 4) (E / 2) (F / 2) (A / 2) (K / 2) (D / 2) b' l); [|done|by apply ext_ok_next|exact Hl|..];
    replace (4 + 2 * (n + 1)) with (Z.succ (Z.succ (4 + 2 * n))) by lia;
    replace (1 + (n + 1)) with (Z.succ (1 + n)) by lia; replace (0 + (n + 1)) with (Z.succ (0 + n)) by lia;
    replace (2 + (n + 1)) with (Z.succ (2 + n)) by lia; rewrite ?Z.pow_succ_r by lia; [|lia..].
  do 3 f_equal; first [lia|f_equal; lia].
Qed.

Lemma div_bound x b k B : 0 < b -> 0 < k -> 0 <= x -> x * k < B * k * b -> x / b * k < B * k.
Proof. intros. assert (x / b < B); [apply Z.div_lt_upper_bound; nia|nia]. Qed.

Lemma sig_start p : sig_ok p ->
  ext_ok 0 ((n_state p - 1) / 16) (n_exc_stack p / 2) (sig_flags p) (n_pos_args p / 4) (n_kwonly_args p) (n_def_pos_args p).
Proof.
  intros (HS & HE & HF & HA & HK & HD). unfold ext_ok. change (2 ^ (4 + 2 * 0)) with 16.
  change (2 ^ (1 + 0)) with 2. change (2 ^ (0 + 0)) with 1. change (2 ^ (2 + 0)) with 4.
  repeat split; zdiv.
Qed.

Lemma sig_first S E A : 0 <= S -> 0 <= E -> 0 <= A ->
  let z := 8 * (S mod 16) + 4 * (E mod 2) + A mod 4 in
  0 <= z < 128 /\ Z.lor (Z.lor (Z.shiftl (Z.land S 0xf) 3) (Z.shiftl (Z.land E 1) 2)) (Z.land A 3) = z /\
  forall b, b = z \/ b = 128 + z ->
    Z.land (Z.shiftr b 3) 0xf = S mod 16 /\ Z.land (Z.shiftr b 2) 1 = E mod 2 /\ Z.land b 3 = A mod 4.
Proof.
  intros HS HE HA z. subst z. rewrite (land_mod 4 _ 0xf), (land_mod 1 _ 1), (land_mod 2 _ 3) by lia.
  change (2 ^ 4) with 16. change (2 ^ 1) with 2. change (2 ^ 2) with 4.
  assert (0 <= S mod 16 < 16 /\ 0 <= E mod 2 < 2 /\ 0 <= A mod 4 < 4) as (HS' & HE' & HA') by (repeat split; zdiv).
  split; [lia|split].
  - rewrite (Z.lor_comm _ (Z.shiftl (E mod 2) 2)), Z.lor_comm.
    rewrite (Z.lor_comm (Z.shiftl (E mod 2) 2)), (lor_shiftl_low (S mod 16) (Z.shiftl (E mod 2) 2) 3)
      by (rewrite ?Z.shiftl_mul_pow2; lia).
    rewrite Z.shiftl_mul_pow2 by lia. change (2 ^ 3) with 8. change (2 ^ 2) with 4.
    replace (S mod 16 * 8 + E mod 2 * 4) with (Z.shiftl (2 * (S mod 16) + E mod 2) 2)
      by (rewrite Z.shiftl_mul_pow2; lia).
    rewrite Z.lor_comm, lor_shiftl_low by lia. lia.
  - intros b Hb. rewrite (land_mod 4 _ 0xf), (land_mod 1 _ 1), (land_mod 2 _ 3), !Z.shiftr_div_pow2 by lia.
    change (2 ^ 4) with 16. change (2 ^ 1) with 2. change (2 ^ 2) with 4. change (2 ^ 3) with 8.
    destruct Hb as [-> | ->]; repeat split; zdiv.
Qed.

Lemma sig_encode_ok {Env} (out_byte : Env -> Z -> outcome Env) env p : sig_ok p ->
  MP_BC_PRELUDE_SIG_ENCODE out_byte env (n_state p) (n_exc_stack p) (sig_flags p) (n_pos_args p)
    (n_kwonly_args p) (n_def_pos_args p) = out_all out_byte env (sig_bytes p).
Proof.
  intros Hp. pose proof (sig_start p Hp) as Hok. destruct Hp as (HS & HE & HF & HA & HK & HD).
  unfold MP_BC_PRELUDE_SIG_ENCODE, sig_bytes. rewrite wrap_small by lia.
  destruct (sig_first (n_state p - 1) (n_exc_stack p) (n_pos_args p)) as (Hz & -> & _); [lia..|].
  unfold MP_SCOPE_FLAG_ALL_SIG. rewrite (land_mod 4 (sig_flags p)), (Z.mod_small (sig_flags p)), !Z.shiftr_div_pow2 by lia.
  apply (sig_encode_loop_ok _ _ 0); [done|done|lia|lia].
Qed.

Lemma sig_ext_head fuel z S E F A K D : exists b l, sig_ext (Datatypes.S fuel) z S E F A K D = b :: l /\ (b = z \/ b = 128 + z).
Proof. cbn [sig_ext]. case_bool_decide; eauto. Qed.

Lemma sig_decode_ok p rest : sig_ok p -> MP_BC_PRELUDE_SIG_DECODE (sig_bytes p ++ rest) = Ret (p, rest).
Proof.
  intros Hp. pose proof (sig_start p Hp) as Hok. destruct Hp as (HS & HE & HF & HA & HK & HD).
  destruct (sig_first (n_state p - 1) (n_exc_stack p) (n_pos_args p)) as (Hz & _ & Hb); [lia..|].
  unfold sig_bytes. destruct (sig_ext_head 32 (8 * ((n_state p - 1) mod 16) + 4 * (n_exc_stack p mod 2) + n_pos_args p mod 4)
    ((n_state p - 1) / 16) (n_exc_stack p / 2) (sig_flags p) (n_pos_args p / 4) (n_kwonly_args p) (n_def_pos_args p))
    as (b & l & Ee & Hb').
  rewrite Ee.
  destruct (Hb b Hb') as (E1 & E2 & E3).
  assert (0 <= (n_state p - 1) mod 16 < 16 /\ 0 <= n_exc_stack p mod 2 < 2 /\ 0 <= n_pos_args p mod 4 < 4) as (? & ? & ?)
    by (repeat split; apply Z.mod_pos_bound; lia).
  cbn [app MP_BC_PRELUDE_SIG_DECODE]. rewrite E1, E2, E3.
  rewrite (sig_decode_loop_ok 33 0 _ _ _ _ _ _ _ b l rest) with (1 := Hz) (2 := Hok) (3 := Ee);
    change (2 ^ (4 + 2 * 0)) with 16; change (2 ^ (1 + 0)) with 2; change (2 ^ (0 + 0)) with 1;
    change (2 ^ (2 + 0)) with 4; [|lia..]. clear Ee Hb Hb' E1 E2 E3 Hok Hz.
  assert (wrap 32 ((n_state p - 1) mod 16 + (n_state p - 1) / 16 * 16 + 1) = n_state p) as ->.
  { rewrite wrap_small; clear - HS; zdiv. }
  assert (n_exc_stack p mod 2 + n_exc_stack p / 2 * 2 = n_exc_stack p) as -> by (clear - HE; zdiv).
  assert (n_pos_args p mod 4 + n_pos_args p / 4 * 4 = n_pos_args p) as -> by (clear - HA; zdiv).
  destruct p; cbn in *. do 3 f_equal; lia.
Qed.

Lemma sig_ext_byte fuel z S E F A K D : 0 <= z < 128 -> Forall byte (sig_ext fuel z S E F A K D).
Proof.
  revert z S E F A K D. induction fuel as [|fuel IH]; intros z S E F A K D Hz; [constructor|].
  cbn [sig_ext]. case_bool_decide; [by repeat constructor; unfold byte; lia|].
  constructor; [unfold byte; lia|]. apply IH. destruct (mods S E F A K D) as (? & ? & ? & ? & ? & ?). lia.
Qed.

Lemma sig_bytes_byte p : sig_ok p -> Forall byte (sig_bytes p).
Proof.
  intros (HS & HE & HF & HA & HK & HD). apply sig_ext_byte.
  destruct (sig_first (n_state p - 1) (n_exc_stack p) (n_pos_args p)) as (Hz & _); [lia..|done].
Qed.

Lemma sig_ext_length fuel n z S E F A K D : ext_ok n S E F A K D -> n <= 16 ->
  Z.of_nat (length (sig_ext fuel z S E F A K D)) <= 17 - n.
Proof.
  revert n z S E F A K D. induction fuel as [|fuel IH]; intros n z S E F A K D Hok Hn; [cbn; lia|].
  cbn [sig_ext]. case_bool_decide as H; [cbn; lia|]. pose proof (ext_ok_lt _ _ _ _ _ _ _ Hok H).
  cbn [length]. specialize (IH (n + 1) (64 * (F mod 2) + 16 * (S mod 4) + 8 * (K mod 2) + 4 * (A mod 2) + 2 * (E mod 2) + D mod 2)
    _ _ _ _ _ _ (ext_ok_next _ _ _ _ _ _ _ Hok) ltac:(lia)). lia.
Qed.

(** ** The sizes *)

Lemma size_byte i c : 0 <= i < 64 -> 0 <= c < 2 ->
  Z.lor (Z.shiftl i 1) c = 2 * i + c /\ 0 <= 2 * i + c < 128 /\ Z.lor (2 * i + c) 0x80 = 128 + (2 * i + c) /\
  forall b, b = 2 * i + c \/ b = 128 + (2 * i + c) -> Z.land b 1 = c * 2 ^ 0 /\ Z.shiftr (Z.land b 0x7e) 1 = i * 2 ^ 0.
Proof.
  intros Hi Hc. rewrite lor_shiftl_low by lia. split; [lia|]. split; [lia|].
  pose proof (byte_cases (fun b => (Z.lor b 128 =? 128 + b) && (Z.land b 1 =? b mod 2) && (Z.land (128 + b) 1 =? b mod 2)
    && (Z.shiftr (Z.land b 0x7e) 1 =? b / 2) && (Z.shiftr (Z.land (128 + b) 0x7e) 1 =? b / 2)) 128
    (2 * i + c) eq_refl ltac:(lia)) as H.
  rewrite !andb_true_iff, !Z.eqb_eq in H. destruct H as ((((H1 & H2) & H3) & H4) & H5).
  split; [done|]. intros b [-> | ->]; split; zdiv.
Qed.

Definition size_left (n I C : Z) : Prop := 0 <= n /\ 0 <= I /\ 0 <= C /\ I * 2 ^ (0 + 6 * n) < 2 ^ 30 /\ C * 2 ^ (0 + n) < 2 ^ 16.

Lemma size_left_next n I C : size_left n I C -> size_left (n + 1) (I / 64) (C / 2).
Proof.
  intros (Hn & HI & HC & BI & BC). repeat split; [lia|zdiv..| |by apply half_bound].
  replace (0 + 6 * (n + 1)) with (6 + (0 + 6 * n)) by lia. rewrite Z.pow_add_r by lia. change (2 ^ 6) with 64.
  assert (64 * (I / 64) <= I) by zdiv. pose proof (Z.pow_pos_nonneg 2 (0 + 6 * n)). nia.
Qed.

Lemma size_left_lt n I C : size_left n I C -> ~ (I = 0 /\ C = 0) -> n <= 15.
Proof.
  intros (Hn & HI & HC & BI & BC) H. destruct (Z.le_gt_cases n 15) as [|G]; [done|exfalso].
  assert (2 ^ 16 <= 2 ^ (0 + n)) by (apply Z.pow_le_mono_r; lia).
  assert (2 ^ 30 <= 2 ^ (0 + 6 * n)) by (apply Z.pow_le_mono_r; lia). nia.
Qed.

Lemma size_encode_loop_ok {Env} (out_byte : Env -> Z -> outcome Env) fuel n env I C :
  size_left n I C -> n <= 16 -> 18 <= Z.of_nat fuel + n ->
  size_encode_loop out_byte fuel env I C = out_all out_byte env (size_ext fuel I C).
Proof.
  revert n env I C. induction fuel as [|fuel IH]; intros n env I C Hok Hn Hf; [lia|].
  cbn [size_encode_loop size_ext]. rewrite (land_mod 1 _ 1), (land_mod 6 _ 0x3f), !Z.shiftr_div_pow2 by lia.
  change (2 ^ 1) with 2. change (2 ^ 6) with 64.
  destruct (size_byte (I mod 64) (C mod 2)) as (-> & Hz & -> & _); [zdiv..|].
  assert ((Z.lor (C / 2) (I / 64) =? 0) = bool_decide (I / 64 = 0 /\ C / 2 = 0)) as ->.
  { case_bool_decide as H; [by destruct H as (-> & ->)|]. apply Z.eqb_neq. rewrite Z.lor_eq_0_iff. tauto. }
  case_bool_decide as H; cbn [negb out_all]; [by destruct (out_byte env _)|].
  destruct (out_byte env _) as [env'| | |]; try done. cbn [obind].
  pose proof (size_left_lt _ _ _ (size_left_next _ _ _ Hok) H).
  apply (IH (n + 1)); [by apply size_left_next|lia..].
Qed.

Lemma size_ext_head fuel I C rest : exists b l, size_ext (S fuel) I C ++ rest = b :: l /\
  (b = 2 * (I mod 64) + C mod 2 \/ b = 128 + (2 * (I mod 64) + C mod 2)) /\
  (I / 64 = 0 /\ C / 2 = 0 /\ (Z.land b 0x80 =? 0) = true /\ l = rest \/
   ~ (I / 64 = 0 /\ C / 2 = 0) /\ (Z.land b 0x80 =? 0) = false /\ l = size_ext fuel (I / 64) (C / 2) ++ rest).
Proof.
  assert (0 <= 2 * (I mod 64) + C mod 2 < 128) as Hz by zdiv. destruct (top_bit _ Hz) as [T1 T2].
  cbn [size_ext]. case_bool_decide as H; (eexists _, _; split; [reflexivity|]); [destruct H|]; auto 10.
Qed.

Lemma size_decode_loop_ok fuel n I C I0 C0 rest : size_left n I C -> C * 2 ^ (0 + n) < 2 ^ 6 -> n <= 5 -> 18 <= Z.of_nat fuel + n ->
  0 <= I0 < 2 ^ (0 + 6 * n) -> 0 <= C0 < 2 ^ (0 + n) ->
  size_decode_loop n (size_ext fuel I C ++ rest) I0 C0 = Ret (I0 + I * 2 ^ (0 + 6 * n), C0 + C * 2 ^ (0 + n), rest).
Proof.
  revert n I C I0 C0. induction fuel as [|fuel IH]; intros n I C I0 C0 Hok HC6 Hn Hf HI0 HC0; [lia|].
  pose proof Hok as (Hn0 & HI & HC & BI & BC).
  destruct (size_ext_head fuel I C rest) as (b & l & -> & Hb & Hl).
  destruct (size_byte (I mod 64) (C mod 2)) as (_ & _ & _ & B); [zdiv..|]. destruct (B b Hb) as [B1 B2].
  cbn [size_decode_loop]. rewrite B1, B2.
  destruct (ext_bits C0 C 0 n 2 (2 ^ 6)) as (c & -> & Rc & Ec); [auto|lia|lia|done..|lia|].
  assert (0 <= I mod 64 <= I /\ 0 <= I mod 64 < 64 /\ I = 64 * (I / 64) + I mod 64) as (? & ? & ?) by (repeat split; zdiv).
  destruct (or_bits I0 (I mod 64) 0 (6 * n)) as (i & -> & Ei); [lia|lia|done|nia|]. cbn [obind]. rewrite Ei.
  destruct Hl as [(E1 & E2 & -> & ->)|(Hne & -> & ->)].
  - rewrite E1 in *. rewrite E2 in Ec. do 3 f_equal; nia.
  - pose proof (size_left_next _ _ _ Hok) as Hok'.
    assert (HC6' : C / 2 * 2 ^ (0 + (n + 1)) < 2 ^ 6) by (by apply half_bound).
    assert (n + 1 <= 5).
    { destruct Hok' as (_ & _ & _ & BI' & _). destruct (Z.le_gt_cases (n + 1) 5) as [|G]; [done|exfalso].
      assert (2 ^ 6 <= 2 ^ (0 + (n + 1))) by (apply Z.pow_le_mono_r; lia).
      assert (2 ^ 30 <= 2 ^ (0 + 6 * (n + 1))) by (apply Z.pow_le_mono_r; lia).
      assert (0 <= I / 64 /\ 0 <= C / 2) as [? ?] by (split; zdiv). nia. }
    rewrite IH; [|done|done|lia|lia|..];
      replace (0 + 6 * (n + 1)) with (6 + (0 + 6 * n)) by lia; replace (0 + (n + 1)) with (1 + (0 + n)) by lia;
      rewrite ?(Z.pow_add_r 2 6), ?(Z.pow_add_r 2 1) by lia; change (2 ^ 6) with 64; change (2 ^ 1) with 2; [|nia|lia].
    do 3 f_equal; nia.
Qed.

Lemma size_decode_loop_wide fuel n I C I0 C0 rest : 0 <= n <= 6 -> 64 <= C * 2 ^ (0 + n) -> 18 <= Z.of_nat fuel + n ->
  size_decode_loop n (size_ext fuel I C ++ rest) I0 C0 = Undef.
Proof.
  revert n I C I0 C0. induction fuel as [|fuel IH]; intros n I C I0 C0 Hn HC Hf; [lia|].
  destruct (size_ext_head fuel I C rest) as (b & l & -> & Hb & Hl). cbn [size_decode_loop].
  destruct (shl_int (Z.land b 1) n) as [c| | |] eqn:Ec;
    [cbn [obind]|unfold shl_int, sint in Ec; by repeat case_match..|done|unfold shl_int, sint in Ec; by repeat case_match].
  destruct (Z.eq_dec n 6) as [-> | Hn6]; [done|].
  destruct (shl_int _ (6 * n)) as [i| | |] eqn:Ei;
    [cbn [obind]|unfold shl_int, sint in Ei; by repeat case_match..|done|unfold shl_int, sint in Ei; by repeat case_match].
  assert (Hp : 2 ^ (0 + (n + 1)) = 2 * 2 ^ (0 + n)).
  { replace (0 + (n + 1)) with (Z.succ (0 + n)) by lia. by rewrite Z.pow_succ_r by lia. }
  assert (2 ^ (0 + n) <= 2 ^ 5) by (apply Z.pow_le_mono_r; lia). change (2 ^ 5) with 32 in *.
  assert (2 <= C) by nia. assert (Hd : C / 2 <> 0) by zdiv.
  destruct Hl as [(_ & E2 & _)|(_ & -> & ->)]; [done|].
  apply IH; [lia| |lia]. rewrite Hp.
  assert (exists k, 64 = k * 2 ^ (0 + n) /\ 2 * (k / 2) = k) as (k & Ek & Hk).
  { exists (2 ^ (6 - (0 + n))). rewrite <- Z.pow_add_r by lia. split; [by replace (6 - (0 + n) + (0 + n)) with 6 by lia|].
    replace (6 - (0 + n)) with (Z.succ (5 - n)) by lia. rewrite Z.pow_succ_r by lia. zdiv. }
  assert (k <= C) by nia. assert (k / 2 <= C / 2) by (apply Z.div_le_mono; lia). nia.
Qed.

Lemma size_ext_byte fuel I C : Forall byte (size_ext fuel I C).
Proof.
  revert I C. induction fuel as [|fuel IH]; intros I C; [constructor|]. cbn [size_ext].
  case_bool_decide; [by repeat constructor; unfold byte; zdiv|]. constructor; [unfold byte; zdiv|done].
Qed.

Lemma sig_bytes_length p : sig_ok p -> (length (sig_bytes p) <= 17)%nat.
Proof. intros Hp. pose proof (sig_ext_length 33 0 (8 * ((n_state p - 1) mod 16) + 4 * (n_exc_stack p mod 2) + n_pos_args p mod 4)
    _ _ _ _ _ _ (sig_start p Hp) ltac:(lia)). unfold sig_bytes. lia. Qed.

Lemma size_encode_ok {Env} (out_byte : Env -> Z -> outcome Env) env I C : 0 <= I < 2 ^ 30 -> 0 <= C < 2 ^ 16 ->
  MP_BC_PRELUDE_SIZE_ENCODE out_byte env I C = out_all out_byte env (size_bytes I C).
Proof. intros. apply (size_encode_loop_ok _ _ 0); [unfold size_left; cbn; lia|lia..]. Qed.

Lemma size_decode_ok I C rest : 0 <= I < 2 ^ 30 -> 0 <= C < 64 ->
  MP_BC_PRELUDE_SIZE_DECODE (size_bytes I C ++ rest) = Ret (I, C, rest).
Proof.
  intros. unfold MP_BC_PRELUDE_SIZE_DECODE, size_bytes.
  rewrite (size_decode_loop_ok 32 0); [do 3 f_equal; cbn; lia|unfold size_left; cbn; lia|cbn; lia..].
Qed.
