(* ===== verification/BytecodeSpec.v ===== *)
(** * The encodings of the bytecode: theorems

    What the writers of [Bytecode] write the readers read back: numbers, the prelude of a function, and
    the sizes that [mp_opcode_format] gives to the instructions that the virtual machine fetches. *)

From S2P Require Import Prelude SmallInt Bytecode BytecodeNum BytecodePrelude.
Local Open Scope Z_scope.

Lemma cont_digits_byte ds : Forall (fun d => 0 <= d < 128) ds -> Forall byte (cont ds).
Proof.
  induction 1 as [|d ds Hd _ IH]; [constructor|]. destruct ds; constructor; unfold byte; [lia|constructor|lia|done].
Qed.

Lemma var_uint_byte v : Forall byte (var_uint v).
Proof. apply cont_digits_byte, digits_byte. Qed.

Lemma var_int_byte v : Forall byte (var_int v).
Proof. apply cont_digits_byte, digits_byte. Qed.

Lemma length_var_uint v : length (var_uint v) = uint_len v.
Proof. unfold var_uint. by rewrite length_cont, length_digits. Qed.

Lemma length_var_int v : length (var_int v) = int_len v.
Proof. unfold var_int. by rewrite length_cont, length_digits. Qed.

Lemma skip_decode a p : mp_decode_uint_skip p = obind (decode_uint_loop a p) (fun r => Ret r.2).
Proof.
  revert a. induction p as [|v p IH]; intros a; [done|]. cbn.
  destruct (negb (Z.land v 128 =? 0)); [apply IH|done].
Qed.

(** ** Numbers *)

(** C16. [mp_encode_uint] writes an unsigned number of 32 bits as the fewest groups of seven bits that hold it, at
    most five, and all readers of such numbers read it back and stop after it, whatever follows: [mp_decode_uint],
    the macro [DECODE_UINT] of the virtual machine, and [mp_decode_uint_skip]. *)
Theorem mp_encode_uint_roundtrip {E P} (allocator : E -> Z -> outcome (E * option P)) store env v :
  0 <= v < 2 ^ 32 ->
  mp_encode_uint allocator store env v = write_bytes allocator store env (var_uint v) /\
  (1 <= length (var_uint v) <= 5)%nat /\ Forall byte (var_uint v) /\
  (forall n : nat, (1 <= n)%nat -> v < 2 ^ (7 * Z.of_nat n) <-> (length (var_uint v) <= n)%nat) /\
  (forall rest, mp_decode_uint (var_uint v ++ rest) = Ret (v, rest)) /\
  (forall rest, DECODE_UINT (var_uint v ++ rest) = Ret (v, rest)) /\
  (forall rest, mp_decode_uint_skip (var_uint v ++ rest) = Ret rest).
Proof.
  intros Hv. destruct (uint_len_bound v Hv) as [Hk Hu]. repeat split.
  - by apply mp_encode_uint_ok.
  - rewrite length_var_uint; lia.
  - rewrite length_var_uint; lia.
  - apply var_uint_byte.
  - intros Hn. rewrite length_var_uint. unfold uint_len.
    assert (n = 1 \/ n = 2 \/ n = 3 \/ n = 4 \/ 5 <= n)%nat as [->|[->|[->|[->|Hn5]]]] by lia; cbn in *; repeat bcase; lia.
  - intros Hn. rewrite length_var_uint in Hn. apply (Z.lt_le_trans _ _ _ Hu).
    change 128 with (2 ^ 7). rewrite <- Z.pow_mul_r by lia. apply Z.pow_le_mono_r; lia.
  - intros rest. by apply mp_decode_uint_var.
  - intros rest. rewrite DECODE_UINT_eq. by apply mp_decode_uint_var.
  - intros rest. rewrite (skip_decode 0). fold (mp_decode_uint (var_uint v ++ rest)). by rewrite mp_decode_uint_var.
Qed.

(** A buffer that counts, and one that stores. *)
Definition demo_allocator (env : list Z) (n : Z) : outcome (list Z * option Z) :=
  Ret (env ++ replicate (Z.to_nat n) 0, Some (Z.of_nat (length env))).
Definition demo_store (env : list Z) (c i v : Z) : outcome (list Z) := wr env (c + i) v.

Lemma mp_encode_uint_roundtrip_witness :
  mp_encode_uint demo_allocator demo_store [7] 300 = Ret [7; 130; 44] /\ DECODE_UINT [130; 44; 9] = Ret (300, [9]).
Proof.
  destruct (mp_encode_uint_roundtrip demo_allocator demo_store [7] 300 ltac:(lia)) as (-> & _ & _ & _ & _ & H & _).
  split; [reflexivity|exact (H [9])].
Defined.

(** The operand of [LOAD_CONST_SMALL_INT]: the emitter writes every signed number of 32 bits as the fewest groups
    whose top bit shows the sign, at most five, and the virtual machine reads it back. *)
Theorem encode_int_roundtrip {E P} (allocator : E -> Z -> outcome (E * option P)) store env v :
  - 2 ^ 31 <= v < 2 ^ 31 -> (forall env' n env'', allocator env' n = Ret (env'', None) -> False) ->
  encode_int allocator store env v = write_bytes allocator store env (var_int v) /\
  (1 <= length (var_int v) <= 5)%nat /\ Forall byte (var_int v) /\
  (forall n : nat, (1 <= n)%nat -> - 2 ^ (7 * Z.of_nat n - 1) <= v < 2 ^ (7 * Z.of_nat n - 1) <-> (length (var_int v) <= n)%nat) /\
  (forall rest, decode_int (var_int v ++ rest) = Ret (v, rest)).
Proof.
  intros Hv Hnull. destruct (int_len_bound v Hv) as [Hk Hu].
  assert (Hp : forall n : nat, (1 <= n)%nat -> 64 * 128 ^ (Z.of_nat n - 1) = 2 ^ (7 * Z.of_nat n - 1)).
  { intros n Hn. change 128 with (2 ^ 7). rewrite <- Z.pow_mul_r by lia. change 64 with (2 ^ 6).
    rewrite <- Z.pow_add_r by lia. f_equal. lia. }
  split; [by apply encode_int_ok|]. rewrite length_var_int. split; [done|]. split; [apply var_int_byte|].
  split; [|intros; by apply decode_int_var]. intros n Hn. split.
  - unfold int_len. cbv zeta.
    assert (n = 1 \/ n = 2 \/ n = 3 \/ n = 4 \/ 5 <= n)%nat as [->|[->|[->|[->|Hn5]]]] by lia;
      repeat match goal with |- context [if ?b then _ else _] => let E := fresh in destruct b eqn:E end; cbn; lia.
  - intros Hl. rewrite (Hp _ (proj1 Hk)) in Hu.
    pose proof (Z.pow_le_mono_r 2 (7 * Z.of_nat (int_len v) - 1) (7 * Z.of_nat n - 1)). lia.
Qed.

Lemma encode_int_roundtrip_witness :
  encode_int demo_allocator demo_store [] (-65) = Ret [255; 63] /\ decode_int [255; 63; 9] = Ret (-65, [9]).
Proof.
  destruct (encode_int_roundtrip demo_allocator demo_store [] (-65)) as (-> & _ & _ & _ & H); [lia|done|].
  split; [reflexivity|exact (H [9])].
Defined.

(** ** The prelude *)

(** C15. The prelude of a function is read as it was written: the six counts of the signature, for every count a
    [uint16_t] holds, and the sizes of the source information and of the cells, when these are fewer than 64. *)
Theorem prelude_roundtrip {E} (out_byte : E -> Z -> outcome E) env p n_info n_cell rest :
  sig_ok p -> 0 <= n_info < 2 ^ 30 -> 0 <= n_cell < 64 ->
  MP_BC_PRELUDE_SIG_ENCODE out_byte env (n_state p) (n_exc_stack p) (sig_flags p) (n_pos_args p)
    (n_kwonly_args p) (n_def_pos_args p) = out_all out_byte env (sig_bytes p) /\
  MP_BC_PRELUDE_SIZE_ENCODE out_byte env n_info n_cell = out_all out_byte env (size_bytes n_info n_cell) /\
  Forall byte (sig_bytes p ++ size_bytes n_info n_cell) /\ (length (sig_bytes p) <= 17)%nat /\
  (let! '(p', ip) := MP_BC_PRELUDE_SIG_DECODE (sig_bytes p ++ size_bytes n_info n_cell ++ rest) in
   let! '(i, c, ip) := MP_BC_PRELUDE_SIZE_DECODE ip in Ret (p', i, c, ip)) = Ret (p, n_info, n_cell, rest).
Proof.
  intros Hp Hi Hc. split; [by apply sig_encode_ok|]. split; [by apply size_encode_ok; lia|]. split.
  { apply list.Forall_app. split; [by apply sig_bytes_byte|apply size_ext_byte]. }
  split; [by apply sig_bytes_length|]. rewrite sig_decode_ok by done. cbn [obind].
  by rewrite size_decode_ok.
Qed.

Lemma prelude_roundtrip_witness :
  let p := {| n_state := 40; n_exc_stack := 2; sig_flags := 3; n_pos_args := 5; n_kwonly_args := 1; n_def_pos_args := 2 |} in
  sig_ok p /\
  (let! '(p', ip) := MP_BC_PRELUDE_SIG_DECODE (sig_bytes p ++ size_bytes 70 1 ++ [9]) in
   let! '(i, c, ip) := MP_BC_PRELUDE_SIZE_DECODE ip in Ret (p', i, c, ip)) = Ret (p, 70, 1, [9]).
Proof.
  intros p. assert (Hp : sig_ok p) by (subst p; unfold sig_ok; cbn; lia). split; [done|].
  apply (prelude_roundtrip (fun (l : list Z) b => Ret (l ++ [b])) [] p 70 1 [9]); [done|lia..].
Defined.

(** With 64 cells or more the size is written, but reading it back shifts an [int] by 36 bits, which C leaves undefined. *)
Lemma prelude_size_wide n_info n_cell rest : 64 <= n_cell ->
  MP_BC_PRELUDE_SIZE_DECODE (size_bytes n_info n_cell ++ rest) = Undef.
Proof. intros. apply size_decode_loop_wide; [lia|cbn; lia|lia]. Qed.

(** ** Instructions *)

(** The opcodes that have a meaning. *)
Definition used_opcode (op : Z) : bool :=
  existsb (fun k => bool_decide (op ∈ opcodes_of k)) all_kinds ||
  (MP_BC_LOAD_CONST_SMALL_INT_MULTI <=? op) && (op <? MP_BC_UNARY_OP_MULTI + MP_BC_UNARY_OP_MULTI_NUM) ||
  (MP_BC_BINARY_OP_MULTI <=? op) && (op <? MP_BC_BINARY_OP_MULTI + MP_BC_BINARY_OP_MULTI_NUM).

(** The format of [py/bc0.h] that belongs to what the virtual machine reads. *)
Definition format_ok (op : Z) : bool :=
  let f := MP_BC_FORMAT op in
  let extra := Z.land op MP_BC_MASK_EXTRA_BYTE =? 0 in
  match vm_operand op with
  | None => false
  | Some K_none => (f =? MP_BC_FORMAT_BYTE) && negb extra
  | Some K_uint => ((f =? MP_BC_FORMAT_QSTR) || (f =? MP_BC_FORMAT_VAR_UINT)) && negb extra
  | Some (K_int | K_byte) => (f =? MP_BC_FORMAT_VAR_UINT) && negb extra
  | Some (K_slabel | K_ulabel) => (f =? MP_BC_FORMAT_OFFSET) && negb extra
  | Some K_uint_byte => (f =? MP_BC_FORMAT_VAR_UINT) && extra
  | Some K_slabel_byte => (f =? MP_BC_FORMAT_OFFSET) && extra
  end.

Lemma formats_ok op : 0 <= op < 256 -> used_opcode op = true -> format_ok op = true.
Proof.
  intros Hop Hu. pose proof (byte_cases (fun op => implb (used_opcode op) (format_ok op)) 256 op) as H.
  cbv beta in H. rewrite Hu in H. apply H; [vm_compute; reflexivity|done].
Qed.

Lemma DECODE_UINT_skip ip n rest : DECODE_UINT ip = Ret (n, rest) -> mp_decode_uint_skip ip = Ret rest.
Proof. rewrite DECODE_UINT_eq, (skip_decode 0). unfold mp_decode_uint. by intros ->. Qed.

Lemma decode_int_skip ip n rest : decode_int ip = Ret (n, rest) -> mp_decode_uint_skip ip = Ret rest.
Proof.
  unfold decode_int. destruct (rd ip 0) as [b| | |]; try done. cbn [obind].
  destruct (decode_uint_loop _ ip) as [[m r]| | |] eqn:Ed; try done. intros [= _ <-].
  erewrite skip_decode. by rewrite Ed.
Qed.

Lemma DECODE_ULABEL_inv ip n rest : DECODE_ULABEL ip = Ret (n, rest) -> exists a b, ip = a :: b :: rest.
Proof.
  destruct ip as [|a [|b ip]]; try done. intros [= _ <-]. eauto.
Qed.

(** The bytes that an instruction takes. *)
Definition fetched (k : operand_kind) (o : operand) (ip rest : list Z) : Prop :=
  match k with
  | K_none => ip = rest
  | K_uint | K_int => mp_decode_uint_skip ip = Ret rest
  | K_byte => exists b, ip = b :: rest /\ o = O_uint b
  | K_slabel | K_ulabel => exists a b, ip = a :: b :: rest
  | K_uint_byte => exists b, mp_decode_uint_skip ip = Ret (b :: rest)
  | K_slabel_byte => exists a b c, ip = a :: b :: c :: rest
  end.

Lemma vm_fetch_inv op ip op' o rest : vm_fetch (op :: ip) = Ret (op', o, rest) ->
  op' = op /\ exists k, vm_operand op = Some k /\ fetched k o ip rest.
Proof.
  unfold vm_fetch. destruct (vm_operand op) as [k|]; [|done]. intros H.
  assert (op' = op) as -> by (destruct k; oinvert; repeat case_match; oinvert; congruence).
  split; [done|]. exists k. split; [done|]. destruct k; cbn [fetched].
  - by injection H.
  - apply obind_Ret_inv in H as ([n r] & H & [= _ <-]). by eapply DECODE_UINT_skip.
  - apply obind_Ret_inv in H as ([n r] & H & [= _ <-]). by eapply decode_int_skip.
  - destruct ip as [|b ip]; [done|]. injection H as <- <-. eauto.
  - apply obind_Ret_inv in H as ([n r] & H & [= _ <-]). unfold DECODE_SLABEL in H.
    apply obind_Ret_inv in H as ([m r'] & H & [= _ <-]). by eapply DECODE_ULABEL_inv.
  - apply obind_Ret_inv in H as ([n r] & H & [= _ <-]). by eapply DECODE_ULABEL_inv.
  - apply obind_Ret_inv in H as ([n r] & H & H'). destruct r as [|b r]; [done|]. injection H' as _ <-.
    exists b. by eapply DECODE_UINT_skip.
  - apply obind_Ret_inv in H as ([n r] & H & H'). destruct r as [|c r]; [done|]. injection H' as _ <-.
    unfold DECODE_SLABEL in H. apply obind_Ret_inv in H as ([m r'] & H & [= _ ->]).
    apply DECODE_ULABEL_inv in H as (a & b & ->). eauto.
Qed.

(** C17. [mp_opcode_format] gives to every instruction but [BUILD_SLICE] and those with a string the number of bytes that the
    virtual machine fetches for it; [BUILD_SLICE] is given the same when its number is written as one byte.
    To an instruction with a string it gives three bytes, whatever its encoding. *)
Theorem mp_opcode_format_spec ip op o rest : Forall byte ip -> vm_fetch ip = Ret (op, o, rest) -> used_opcode op = true ->
  match o with O_uint n => op = MP_BC_BUILD_SLICE -> n < 128 | _ => True end ->
  mp_opcode_format ip true =
  Ret (MP_BC_FORMAT op, if MP_BC_FORMAT op =? MP_BC_FORMAT_QSTR then 3 else Z.of_nat (length ip) - Z.of_nat (length rest)).
Proof.
  intros Hb Hf Hu Hs. destruct ip as [|op' ip]; [done|]. apply list.Forall_cons in Hb as [Hop Hb].
  apply vm_fetch_inv in Hf as (<- & k & Hk & Hf). pose proof (formats_ok op Hop Hu) as Hok.
  unfold format_ok in Hok. rewrite Hk in Hok. unfold mp_opcode_format.
  change (rd (op :: ip) 0) with (Ret op). change (drop 1 (op :: ip)) with ip. cbn [obind].
  destruct (Z.eqb_spec (MP_BC_FORMAT op) MP_BC_FORMAT_QSTR) as [EQ|EQ]; [done|].
  destruct k; cbn [fetched] in Hf; rewrite ?andb_true_iff, ?negb_true_iff in Hok; destruct Hok as [Hfmt He]; rewrite He;
    repeat match goal with
    | H : (_ || _) = true |- _ => apply orb_prop in H as [H|H]
    | H : (MP_BC_FORMAT op =? _) = true |- _ => apply Z.eqb_eq in H
    end; try congruence; rewrite Hfmt; cbn -[mp_decode_uint_skip length].
  - subst rest. do 2 f_equal. cbn [length]. lia.
  - rewrite Hf. cbn [obind]. do 2 f_equal. lia.
  - rewrite Hf. cbn [obind]. do 2 f_equal. lia.
  - destruct Hf as (b & -> & ->). apply list.Forall_cons in Hb as [Hb _].
    pose proof (byte_cases (fun op => implb (bool_decide (vm_operand op = Some K_byte)) (op =? MP_BC_BUILD_SLICE)) 256 op
      eq_refl Hop) as HS. cbv beta in HS. rewrite Hk in HS. specialize (Hs (proj1 (Z.eqb_eq _ _) HS)).
    destruct (cont_digit_bits b ltac:(unfold byte in Hb; lia)) as (_ & _ & _ & E & _).
    cbn [mp_decode_uint_skip]. rewrite E. cbn [negb obind length]. do 2 f_equal. lia.
  - destruct Hf as (a & b & ->). do 2 f_equal. cbn [length]. lia.
  - destruct Hf as (a & b & ->). do 2 f_equal. cbn [length]. lia.
  - destruct Hf as (b & Hf). rewrite Hf. cbn [obind]. do 2 f_equal. cbn [length]. lia.
  - destruct Hf as (a & b & c & ->). do 2 f_equal. cbn [length]. lia.
Qed.

Lemma mp_opcode_format_spec_witness :
  vm_fetch [MP_BC_UNWIND_JUMP; 10; 128; 2; 9] = Ret (MP_BC_UNWIND_JUMP, O_label_byte 10 2, [9]) /\
  mp_opcode_format [MP_BC_UNWIND_JUMP; 10; 128; 2; 9] true = Ret (MP_BC_FORMAT_OFFSET, 4).
Proof.
  split; [reflexivity|].
  refine (mp_opcode_format_spec [MP_BC_UNWIND_JUMP; 10; 128; 2; 9] MP_BC_UNWIND_JUMP (O_label_byte 10 2) [9] _ _ _ _);
    [repeat (apply list.Forall_cons_2; [split; vm_compute; congruence|]); apply list.Forall_nil_2|reflexivity|reflexivity|exact I].
Defined.

(** The load of a name by a string number below 128 is two bytes for the virtual machine, three for [mp_opcode_format]. *)
Lemma mp_opcode_format_qstr : vm_fetch [MP_BC_LOAD_NAME; 5; MP_BC_RETURN_VALUE] = Ret (MP_BC_LOAD_NAME, O_uint 5, [MP_BC_RETURN_VALUE]) /\
  mp_opcode_format [MP_BC_LOAD_NAME; 5; MP_BC_RETURN_VALUE] true = Ret (MP_BC_FORMAT_QSTR, 3).
Proof. split; reflexivity. Qed.
