(* ===== verification/Scope.v ===== *)
(** * Scopes of the compiler ([py/scope.c], [py/scope.h], [py/emitcommon.c], [py/compile.c])

    The compiler keeps a scope for every module, function, class and comprehension: the names used in it,
    each with its kind, in an array that grows.  The scopes are a list in the order in which they were
    made, and a pointer to a scope is its index there.  This file has the operations of [py/scope.c], the
    declarations of the compiler that use them, and the numbering of the locals of a scope. *)

From S2P Require Import Prelude Malloc.
Local Open Scope Z_scope.

Inductive id_info_kind_t :=
| ID_INFO_KIND_UNDECIDED | ID_INFO_KIND_GLOBAL_IMPLICIT | ID_INFO_KIND_GLOBAL_EXPLICIT
| ID_INFO_KIND_LOCAL | ID_INFO_KIND_CELL | ID_INFO_KIND_FREE.

#[export] Instance id_info_kind_eq_dec : EqDecision id_info_kind_t.
Proof. solve_decision. Defined.

Definition ID_FLAG_IS_PARAM : Z := 0x01.
Definition ID_FLAG_IS_STAR_PARAM : Z := 0x02.
Definition ID_FLAG_IS_DBL_STAR_PARAM : Z := 0x04.

Record id_info_t := { kind : id_info_kind_t; flags : Z; local_num : Z; qst : Z }.

Definition set_kind (id : id_info_t) (k : id_info_kind_t) : id_info_t :=
  {| kind := k; flags := flags id; local_num := local_num id; qst := qst id |}.
Definition set_local_num (id : id_info_t) (n : Z) : id_info_t :=
  {| kind := kind id; flags := flags id; local_num := n; qst := qst id |}.

Inductive scope_kind_t :=
| SCOPE_MODULE | SCOPE_CLASS | SCOPE_LAMBDA | SCOPE_LIST_COMP | SCOPE_DICT_COMP | SCOPE_SET_COMP
| SCOPE_GEN_EXPR | SCOPE_FUNCTION.

#[export] Instance scope_kind_eq_dec : EqDecision scope_kind_t.
Proof. solve_decision. Defined.

Definition SCOPE_IS_FUNC_LIKE (k : scope_kind_t) : bool :=
  match k with SCOPE_MODULE | SCOPE_CLASS => false | _ => true end.

(** [parent] is an index in the list of scopes; [raw_code] stands for the code object of the scope. *)
Record scope_t := {
  s_kind : scope_kind_t;
  parent : option Z;
  raw_code : Z;
  simple_name : Z;
  scope_flags : Z;
  num_pos_args : Z;
  num_kwonly_args : Z;
  num_def_pos_args : Z;
  num_locals : Z;
  stack_size : Z;
  exc_stack_size : Z;
  id_info_alloc : Z;
  id_info_len : Z;
  id_info : list id_info_t
}.

Definition with_ids (s : scope_t) (alloc len : Z) (ids : list id_info_t) : scope_t :=
  {| s_kind := s_kind s; parent := parent s; raw_code := raw_code s; simple_name := simple_name s;
     scope_flags := scope_flags s; num_pos_args := num_pos_args s; num_kwonly_args := num_kwonly_args s;
     num_def_pos_args := num_def_pos_args s; num_locals := num_locals s; stack_size := stack_size s;
     exc_stack_size := exc_stack_size s; id_info_alloc := alloc; id_info_len := len; id_info := ids |}.

Definition with_locals (s : scope_t) (pos_args locals : Z) : scope_t :=
  {| s_kind := s_kind s; parent := parent s; raw_code := raw_code s; simple_name := simple_name s;
     scope_flags := scope_flags s; num_pos_args := pos_args; num_kwonly_args := num_kwonly_args s;
     num_def_pos_args := num_def_pos_args s; num_locals := locals; stack_size := stack_size s;
     exc_stack_size := exc_stack_size s; id_info_alloc := id_info_alloc s; id_info_len := id_info_len s;
     id_info := id_info s |}.

Definition with_defaults (s : scope_t) (flags defs : Z) : scope_t :=
  {| s_kind := s_kind s; parent := parent s; raw_code := raw_code s; simple_name := simple_name s;
     scope_flags := flags; num_pos_args := num_pos_args s; num_kwonly_args := num_kwonly_args s;
     num_def_pos_args := defs; num_locals := num_locals s; stack_size := stack_size s;
     exc_stack_size := exc_stack_size s; id_info_alloc := id_info_alloc s; id_info_len := id_info_len s;
     id_info := id_info s |}.

Definition with_stack_size (s : scope_t) (n : Z) : scope_t :=
  {| s_kind := s_kind s; parent := parent s; raw_code := raw_code s; simple_name := simple_name s;
     scope_flags := scope_flags s; num_pos_args := num_pos_args s; num_kwonly_args := num_kwonly_args s;
     num_def_pos_args := num_def_pos_args s; num_locals := num_locals s; stack_size := n;
     exc_stack_size := exc_stack_size s; id_info_alloc := id_info_alloc s; id_info_len := id_info_len s;
     id_info := id_info s |}.

Definition with_scope_flags (s : scope_t) (flags : Z) : scope_t := with_defaults s flags (num_def_pos_args s).

(** [s->id_info[i] = id]. *)
Definition set_id (s : scope_t) (i : Z) (id : id_info_t) : outcome scope_t :=
  let! ids := wr (id_info s) i id in Ret (with_ids s (id_info_alloc s) (id_info_len s) ids).

Definition MICROPY_ALLOC_SCOPE_ID_INIT : Z := 4.
Definition MICROPY_ALLOC_SCOPE_ID_INC : Z := 6.
Definition sizeof_id_info_t : Z := 8.

(** ** Names of a scope *)

Fixpoint scope_find_loop (n : nat) (ids : list id_info_t) (i q : Z) : outcome (option Z) :=
  match n with
  | O => Ret None
  | S n =>
    let! id := rd ids i in
    if qst id =? q then Ret (Some i) else scope_find_loop n ids (i + 1) q
  end.

(** The index of the name, for the pointer that the function returns. *)
Definition scope_find (s : scope_t) (q : Z) : outcome (option Z) :=
  scope_find_loop (Z.to_nat (id_info_len s)) (id_info s) 0 q.

Section Scope.
Context {allocator : Allocator id_info_t}.

(** The strings that name the scopes without a name of their own, from the generated table of strings. *)
Context (MP_QSTR__lt_module_gt_ MP_QSTR__lt_lambda_gt_ MP_QSTR__lt_listcomp_gt_ MP_QSTR__lt_dictcomp_gt_
  MP_QSTR__lt_setcomp_gt_ MP_QSTR__lt_genexpr_gt_ : Z).

Definition scope_simple_name_table (k : scope_kind_t) : Z :=
  match k with
  | SCOPE_MODULE => MP_QSTR__lt_module_gt_
  | SCOPE_LAMBDA => MP_QSTR__lt_lambda_gt_
  | SCOPE_LIST_COMP => MP_QSTR__lt_listcomp_gt_
  | SCOPE_DICT_COMP => MP_QSTR__lt_dictcomp_gt_
  | SCOPE_SET_COMP => MP_QSTR__lt_setcomp_gt_
  | SCOPE_GEN_EXPR => MP_QSTR__lt_genexpr_gt_
  | SCOPE_CLASS | SCOPE_FUNCTION => 0
  end.

(** [sizeof(scope_t)] and [sizeof(mp_raw_code_t)] on a 32-bit machine *)
Definition sizeof_scope_t : Z := 48.
Definition sizeof_mp_raw_code_t : Z := 12.

(** [name] is the name in the first node of [pn], and [raw] the new code object. *)
Definition scope_new (k : scope_kind_t) (name raw : Z) : outcome scope_t :=
  let! _ := m_new_obj (A := id_info_t) sizeof_scope_t in
  let! _ := m_new_obj (A := id_info_t) sizeof_mp_raw_code_t in
  let! ids := m_new sizeof_id_info_t MICROPY_ALLOC_SCOPE_ID_INIT in
  Ret {| s_kind := k; parent := None; raw_code := raw;
         simple_name :=
           wrap 16 (if bool_decide (k = SCOPE_FUNCTION) || bool_decide (k = SCOPE_CLASS) then name
                    else wrap 8 (scope_simple_name_table k));
         scope_flags := 0; num_pos_args := 0;
         num_kwonly_args := 0; num_def_pos_args := 0; num_locals := 0; stack_size := 0; exc_stack_size := 0;
         id_info_alloc := MICROPY_ALLOC_SCOPE_ID_INIT; id_info_len := 0; id_info := ids |}.

(** The new scope goes to the end of the list. *)
Definition scope_new_and_link (scs : list scope_t) (scope_cur : option Z) (k : scope_kind_t) (name raw : Z) :
  outcome (list scope_t * Z) :=
  let! s := scope_new k name raw in
  let s := {| s_kind := s_kind s; parent := scope_cur; raw_code := raw_code s; simple_name := simple_name s;
    scope_flags := scope_flags s; num_pos_args := num_pos_args s; num_kwonly_args := num_kwonly_args s;
    num_def_pos_args := num_def_pos_args s; num_locals := num_locals s; stack_size := stack_size s;
    exc_stack_size := exc_stack_size s; id_info_alloc := id_info_alloc s; id_info_len := id_info_len s;
    id_info := id_info s |} in
  Ret (scs ++ [s], Z.of_nat (length scs)).

Definition scope_find_or_add_id (s : scope_t) (q : Z) (k : id_info_kind_t) : outcome (scope_t * Z) :=
  let! found := scope_find s q in
  match found with
  | Some i => Ret (s, i)
  | None =>
    let! s :=
      if id_info_alloc s <=? id_info_len s then
        let! ids := m_renew sizeof_id_info_t (id_info s) (id_info_alloc s + MICROPY_ALLOC_SCOPE_ID_INC) in
        Ret (with_ids s (wrap 16 (id_info_alloc s + MICROPY_ALLOC_SCOPE_ID_INC)) (id_info_len s) ids)
      else Ret s in
    let i := id_info_len s in
    let s := with_ids s (id_info_alloc s) (wrap 16 (id_info_len s + 1)) (id_info s) in
    let! s := set_id s i {| kind := k; flags := 0; local_num := 0; qst := q |} in
    Ret (s, i)
  end.

(** ** Closing over names *)

Definition put_scope (scs : list scope_t) (i : Z) (s : scope_t) : outcome (list scope_t) := wr scs i s.

(** [while (scope->parent != NULL) scope = scope->parent]. *)
Fixpoint outermost (fuel : nat) (scs : list scope_t) (i : Z) : outcome Z :=
  match fuel with
  | O => OutOfFuel
  | S fuel =>
    let! s := rd scs i in
    match parent s with None => Ret i | Some p => outermost fuel scs p end
  end.

(** The index of the outermost scope too, where the name was found. *)
Definition scope_find_global (scs : list scope_t) (i q : Z) : outcome (Z * option Z) :=
  let! g := outermost (S (length scs)) scs i in
  let! s := rd scs g in
  let! k := scope_find s q in Ret (g, k).

Fixpoint close_over_loop (fuel : nat) (scs : list scope_t) (p : option Z) (q : Z) : outcome (list scope_t) :=
  match fuel with
  | O => OutOfFuel
  | S fuel =>
    match p with
    | None => Undef
    | Some i =>
      let! s := rd scs i in
      match parent s with
      | None => Undef
      | Some _ =>
        let! '(s, k) := scope_find_or_add_id s q ID_INFO_KIND_UNDECIDED in
        let! id := rd (id_info s) k in
        match kind id with
        | ID_INFO_KIND_UNDECIDED =>
          let! s := set_id s k (set_kind id ID_INFO_KIND_FREE) in
          let! scs := put_scope scs i s in
          close_over_loop fuel scs (parent s) q
        | ID_INFO_KIND_LOCAL =>
          let! s := set_id s k (set_kind id ID_INFO_KIND_CELL) in
          put_scope scs i s
        | ID_INFO_KIND_FREE | ID_INFO_KIND_CELL => put_scope scs i s
        | _ => Undef
        end
      end
    end
  end.

Definition scope_close_over_in_parents (scs : list scope_t) (i q : Z) : outcome (list scope_t) :=
  let! s := rd scs i in
  match parent s with
  | None => Undef
  | Some p => close_over_loop (S (length scs)) scs (Some p) q
  end.

(** The loop of [scope_check_to_close_over]: whether an enclosing function has the name as its own. *)
Fixpoint check_loop (fuel : nat) (scs : list scope_t) (i : Z) (q : Z) : outcome bool :=
  match fuel with
  | O => OutOfFuel
  | S fuel =>
    let! s := rd scs i in
    match parent s with
    | None => Ret false
    | Some p =>
      let! found := scope_find s q in
      match found with
      | Some k =>
        let! id2 := rd (id_info s) k in
        Ret (match kind id2 with ID_INFO_KIND_LOCAL | ID_INFO_KIND_CELL | ID_INFO_KIND_FREE => true | _ => false end)
      | None => check_loop fuel scs p q
      end
    end
  end.

(** The name is the [k]-th of scope [i]. *)
Definition scope_check_to_close_over (scs : list scope_t) (i k : Z) : outcome (list scope_t) :=
  let! s := rd scs i in
  match parent s with
  | None => Ret scs
  | Some p =>
    let! id := rd (id_info s) k in
    let! found := check_loop (S (length scs)) scs p (qst id) in
    if found : bool then
      let! s := set_id s k (set_kind id ID_INFO_KIND_FREE) in
      let! scs := put_scope scs i s in
      scope_close_over_in_parents scs i (qst id)
    else Ret scs
  end.

(** ** Uses and declarations of names *)

Definition mp_emit_common_get_id_for_load (s : scope_t) (q : Z) : outcome scope_t :=
  let! '(s, _) := scope_find_or_add_id s q ID_INFO_KIND_GLOBAL_IMPLICIT in Ret s.

Definition mp_emit_common_get_id_for_modification (s : scope_t) (q : Z) : outcome scope_t :=
  let! '(s, k) := scope_find_or_add_id s q ID_INFO_KIND_GLOBAL_IMPLICIT in
  let! id := rd (id_info s) k in
  if SCOPE_IS_FUNC_LIKE (s_kind s) && bool_decide (kind id = ID_INFO_KIND_GLOBAL_IMPLICIT) then
    set_id s k (set_kind id ID_INFO_KIND_LOCAL)
  else Ret s.

(** [compile_declare_global] of the [k]-th name of scope [i]: [false] is a syntax error. *)
Definition compile_declare_global (scs : list scope_t) (i k : Z) : outcome (list scope_t * bool) :=
  let! s := rd scs i in
  let! id := rd (id_info s) k in
  match kind id with
  | ID_INFO_KIND_UNDECIDED | ID_INFO_KIND_GLOBAL_EXPLICIT =>
    let! s := set_id s k (set_kind id ID_INFO_KIND_GLOBAL_EXPLICIT) in
    let! scs := put_scope scs i s in
    let! '(g, found) := scope_find_global scs i (qst id) in
    match found with
    | None => Ret (scs, true)
    | Some k =>
      let! s := rd scs g in
      let! id := rd (id_info s) k in
      let! s := set_id s k (set_kind id ID_INFO_KIND_GLOBAL_EXPLICIT) in
      let! scs := put_scope scs g s in Ret (scs, true)
    end
  | _ => Ret (scs, false)
  end.

Definition compile_declare_nonlocal (scs : list scope_t) (i k : Z) : outcome (list scope_t * bool) :=
  let! s := rd scs i in
  let! id := rd (id_info s) k in
  match kind id with
  | ID_INFO_KIND_UNDECIDED =>
    let! s := set_id s k (set_kind id ID_INFO_KIND_GLOBAL_IMPLICIT) in
    let! scs := put_scope scs i s in
    let! scs := scope_check_to_close_over scs i k in
    let! s := rd scs i in
    let! id := rd (id_info s) k in
    Ret (scs, negb (bool_decide (kind id = ID_INFO_KIND_GLOBAL_IMPLICIT)))
  | ID_INFO_KIND_FREE => Ret (scs, true)
  | _ => Ret (scs, false)
  end.

(** The loop of [mp_compile_to_raw_code] over the names of a scope after its first pass. *)
Fixpoint close_over_implicit (n : nat) (scs : list scope_t) (i k : Z) : outcome (list scope_t) :=
  match n with
  | O => Ret scs
  | S n =>
    let! s := rd scs i in
    let! id := rd (id_info s) k in
    let! scs :=
      if bool_decide (kind id = ID_INFO_KIND_GLOBAL_IMPLICIT) then scope_check_to_close_over scs i k else Ret scs in
    close_over_implicit n scs i (k + 1)
  end.
End Scope.

(** ** Numbering the locals of a scope *)

Definition is_param (id : id_info_t) : bool := negb (Z.land (flags id) ID_FLAG_IS_PARAM =? 0).

(** The first loop of [scope_compute_things]: [*args] after the other parameters. *)
Fixpoint star_loop (n : nat) (ids : list id_info_t) (id_param : option Z) : outcome (list id_info_t) :=
  match n with
  | O => Ret ids
  | S n =>
    let! id := rd ids (Z.of_nat n) in
    if negb (Z.land (flags id) ID_FLAG_IS_STAR_PARAM =? 0) then
      match id_param with
      | None => Ret ids
      | Some p =>
        let! temp := rd ids p in
        let! ids := wr ids p id in
        wr ids (Z.of_nat n) temp
      end
    else if bool_decide (id_param = None) && (flags id =? ID_FLAG_IS_PARAM) then star_loop n ids (Some (Z.of_nat n))
    else star_loop n ids id_param
  end.

Section Compute.
(** The number of the string ["__class__"], from the generated table of strings. *)
Context (MP_QSTR___class__ : Z).

Fixpoint locals_loop (n : nat) (k : scope_kind_t) (ids : list id_info_t) (i num : Z) : outcome (list id_info_t * Z) :=
  match n with
  | O => Ret (ids, num)
  | S n =>
    let! id := rd ids i in
    if bool_decide (k = SCOPE_CLASS) && (qst id =? MP_QSTR___class__) then locals_loop n k ids (i + 1) num
    else
      let id := if SCOPE_IS_FUNC_LIKE k && bool_decide (kind id = ID_INFO_KIND_GLOBAL_IMPLICIT)
                then set_kind id ID_INFO_KIND_GLOBAL_EXPLICIT else id in
      let '(id, num) :=
        if bool_decide (kind id = ID_INFO_KIND_LOCAL) || is_param id then (set_local_num id num, wrap 16 (num + 1))
        else (id, num) in
      let! ids := wr ids i id in
      locals_loop n k ids (i + 1) num
  end.

Fixpoint cells_loop (n : nat) (ids : list id_info_t) (i num : Z) : outcome (list id_info_t * Z) :=
  match n with
  | O => Ret (ids, num)
  | S n =>
    let! id := rd ids i in
    if bool_decide (kind id = ID_INFO_KIND_CELL) && negb (is_param id) then
      let! ids := wr ids i (set_local_num id num) in cells_loop n ids (i + 1) (wrap 16 (num + 1))
    else cells_loop n ids (i + 1) num
  end.

(** The inner loop over the names of the scope, for one closed over name [q] of its parent. *)
Fixpoint free_loop (n : nat) (ids : list id_info_t) (j q num_free : Z) : outcome (list id_info_t * Z) :=
  match n with
  | O => Ret (ids, num_free)
  | S n =>
    let! id2 := rd ids j in
    if bool_decide (kind id2 = ID_INFO_KIND_FREE) && (q =? qst id2) then
      if is_param id2 then Undef
      else
        let! ids := wr ids j (set_local_num id2 (wrap 16 num_free)) in free_loop n ids (j + 1) q (num_free + 1)
    else free_loop n ids (j + 1) q num_free
  end.

Fixpoint parent_loop (n : nat) (pids : list id_info_t) (i : Z) (len : nat) (ids : list id_info_t) (num_free : Z) :
  outcome (list id_info_t * Z) :=
  match n with
  | O => Ret (ids, num_free)
  | S n =>
    let! id := rd pids i in
    let! '(ids, num_free) :=
      match kind id with
      | ID_INFO_KIND_CELL | ID_INFO_KIND_FREE => free_loop len ids 0 (qst id) num_free
      | _ => Ret (ids, num_free)
      end in
    parent_loop n pids (i + 1) len ids num_free
  end.

Fixpoint shift_loop (n : nat) (ids : list id_info_t) (i num_free : Z) : outcome (list id_info_t) :=
  match n with
  | O => Ret ids
  | S n =>
    let! id := rd ids i in
    let! ids :=
      if negb (bool_decide (kind id = ID_INFO_KIND_FREE)) || is_param id
      then wr ids i (set_local_num id (wrap 16 (local_num id + num_free))) else Ret ids in
    shift_loop n ids (i + 1) num_free
  end.

Definition MP_SCOPE_FLAG_VARARGS : Z := 0x04.

(** [scope_compute_things]; [par] is the parent.  (The call of [mp_emit_common_use_qstr] at its end does nothing in
    a build without a table of strings.) *)
Definition scope_compute_things (s : scope_t) (par : option scope_t) : outcome scope_t :=
  let n := Z.to_nat (id_info_len s) in
  let! ids :=
    if negb (Z.land (scope_flags s) MP_SCOPE_FLAG_VARARGS =? 0) then star_loop n (id_info s) None else Ret (id_info s) in
  let! '(ids, num) := locals_loop n (s_kind s) ids 0 0 in
  let! '(ids, num) := cells_loop n ids 0 num in
  let s := with_locals (with_ids s (id_info_alloc s) (id_info_len s) ids) (num_pos_args s) num in
  match par with
  | None => Ret s
  | Some par =>
    let! '(ids, num_free) := parent_loop (Z.to_nat (id_info_len par)) (id_info par) 0 n ids 0 in
    if 0 <? num_free then
      let! ids := shift_loop n ids 0 num_free in
      Ret (with_locals (with_ids s (id_info_alloc s) (id_info_len s) ids)
             (wrap 16 (num_pos_args s + num_free)) (wrap 16 (num_locals s + num_free)))
    else Ret (with_ids s (id_info_alloc s) (id_info_len s) ids)
  end.
End Compute.
