(* ===== verification/ScopeSpec.v ===== *)
(** * Scopes: lemmas and theorems

    The names of a scope as a finite map to their kinds ([kinds]), the effect of the operations of [Scope] on
    it, and which enclosing scope a closed over name belongs to: [owns] says which scope a use of a name
    finds, [resolves] where the chain of free names that the compiler records leads. *)

From stdpp Require Import gmap.
From S2P Require Import Prelude Malloc Scope.
Local Open Scope Z_scope.

(** The names in use. *)
Definition ids (s : scope_t) : list id_info_t := take (Z.to_nat (id_info_len s)) (id_info s).

Definition wf_scope (s : scope_t) : Prop :=
  0 <= id_info_len s <= id_info_alloc s /\ length (id_info s) = Z.to_nat (id_info_alloc s) /\
  id_info_alloc s <= id_info_len s + 6 /\ 0 < id_info_alloc s /\ NoDup (qst <$> ids s).

(** Room for more names: the lengths are [uint16_t]. *)
Definition few (s : scope_t) : Prop := id_info_len s < 65520.

Definition kinds (s : scope_t) : gmap Z id_info_kind_t := list_to_map ((fun id => (qst id, kind id)) <$> ids s).

(** All but the array of names. *)
Definition same_scope (s s' : scope_t) : Prop :=
  s' = with_ids s (id_info_alloc s') (id_info_len s') (id_info s').

Lemma length_ids s : wf_scope s -> length (ids s) = Z.to_nat (id_info_len s).
Proof. intros (Hl & Ha & _). unfold ids. rewrite length_take. lia. Qed.

Lemma kinds_Some s q k : wf_scope s -> kinds s !! q = Some k <-> exists i id, ids s !! i = Some id /\ qst id = q /\ kind id = k.
Proof.
  intros (_ & _ & _ & _ & Hnd). unfold kinds.
  rewrite <- elem_of_list_to_map by (rewrite <- list_fmap_compose; exact Hnd).
  rewrite list_elem_of_fmap. split.
  - intros (id & [= -> ->] & Hin). apply list_elem_of_lookup in Hin as [i Hi]. eauto.
  - intros (i & id & Hi & <- & <-). exists id. split; [done|]. by eapply list_elem_of_lookup_2.
Qed.

Lemma kinds_None s q : wf_scope s -> kinds s !! q = None <-> forall i id, ids s !! i = Some id -> qst id <> q.
Proof.
  intros Hwf. split.
  - intros H i id Hi E. pose proof (proj2 (kinds_Some s q (kind id) Hwf)) as H'. rewrite H in H'.
    discriminate H'. eauto.
  - intros H. destruct (kinds s !! q) as [k|] eqn:E; [|done]. apply kinds_Some in E as (i & id & Hi & Hq & _); [|done].
    by destruct (H i id Hi).
Qed.

Lemma ids_lookup s i id : ids s !! i = Some id -> id_info s !! i = Some id /\ (i < Z.to_nat (id_info_len s))%nat.
Proof. unfold ids. rewrite lookup_take_Some. tauto. Qed.

Lemma rd_ids s i id : ids s !! i = Some id -> rd (id_info s) (Z.of_nat i) = Ret id.
Proof. intros H. apply ids_lookup in H as [H _]. apply rd_Ret; [lia|by rewrite Nat2Z.id]. Qed.

Lemma scope_find_loop_ok s q n i : wf_scope s -> (i + n = Z.to_nat (id_info_len s))%nat ->
  (forall j id, (j < i)%nat -> ids s !! j = Some id -> qst id <> q) ->
  (exists k id, scope_find_loop n (id_info s) (Z.of_nat i) q = Ret (Some (Z.of_nat k)) /\ ids s !! k = Some id /\ qst id = q) \/
  (scope_find_loop n (id_info s) (Z.of_nat i) q = Ret None /\ kinds s !! q = None).
Proof.
  intros Hwf. revert i. induction n as [|n IH]; intros i Hn Hb; cbn [scope_find_loop].
  - right. split; [done|]. apply kinds_None; [done|]. intros j id Hj.
    destruct (ids_lookup _ _ _ Hj). apply (Hb j); [lia|done].
  - destruct (lookup_lt_is_Some_2 (ids s) i) as [id Hid]; [rewrite length_ids by done; lia|].
    rewrite (rd_ids _ _ _ Hid). cbn [obind]. destruct (Z.eqb_spec (qst id) q) as [E|E].
    + left. eauto.
    + replace (Z.of_nat i + 1) with (Z.of_nat (S i)) by lia. apply IH; [lia|].
      intros j id' Hj Hid'. destruct (Nat.eq_dec j i) as [->|]; [by simplify_eq|]. apply (Hb j); [lia|done].
Qed.

Lemma scope_find_ok s q : wf_scope s ->
  (exists k id, scope_find s q = Ret (Some (Z.of_nat k)) /\ ids s !! k = Some id /\ qst id = q /\ kinds s !! q = Some (kind id)) \/
  (scope_find s q = Ret None /\ kinds s !! q = None).
Proof.
  intros Hwf. destruct (scope_find_loop_ok s q (Z.to_nat (id_info_len s)) 0 Hwf) as [(k & id & H & Hk & Hq)|H];
    [lia|intros; lia| |by right].
  left. exists k, id. repeat split; [done..|]. apply kinds_Some; eauto.
Qed.

(** Replacing a name by itself with another kind or number. *)
Lemma set_id_ok s i id id' : wf_scope s -> ids s !! i = Some id -> qst id' = qst id ->
  exists s', set_id s (Z.of_nat i) id' = Ret s' /\ wf_scope s' /\ same_scope s s' /\ ids s' = <[i := id']> (ids s) /\
    kinds s' = <[qst id := kind id']> (kinds s) /\ id_info_len s' = id_info_len s.
Proof.
  intros Hwf Hi Hq. pose proof Hwf as (Hl & Ha & Hal & H0 & Hnd). destruct (ids_lookup _ _ _ Hi) as [Hi' Hlt].
  unfold set_id. rewrite wr_Ret, Nat2Z.id by lia. cbn [obind]. eexists. split; [reflexivity|].
  set (s' := with_ids _ _ _ _).
  assert (Hids : ids s' = <[i := id']> (ids s)).
  { unfold ids, s'. cbn. by rewrite take_insert_lt by lia. }
  assert (Hwf' : wf_scope s').
  { unfold wf_scope. rewrite Hids. cbn. rewrite length_insert. repeat split; [lia..|].
    rewrite list_fmap_insert, Hq, list_insert_id; [done|]. by rewrite list_lookup_fmap, Hi. }
  split; [done|]. split; [done|]. split; [done|]. split; [|done].
  apply map_eq. intros q. destruct (decide (qst id = q)) as [<-|Hne].
  - rewrite lookup_insert_eq. apply kinds_Some; [done|]. exists i, id'. rewrite Hids.
    rewrite list_lookup_insert_eq; [done|]. rewrite length_ids by done. lia.
  - rewrite lookup_insert_ne by done. apply option_eq. intros k. rewrite !kinds_Some by done. rewrite Hids.
    split; intros (j & id1 & Hj & Hq1 & Hk1); exists j, id1.
    + destruct (decide (j = i)) as [->|]; [|by rewrite list_lookup_insert_ne in Hj].
      rewrite list_lookup_insert_eq in Hj; [|rewrite length_ids by done; lia]. by simplify_eq.
    + rewrite list_lookup_insert_ne; [done|]. intros ->. simplify_eq.
Qed.

(** ** Enclosing scopes *)

Definition wf_scopes (scs : list scope_t) : Prop :=
  forall i s, rd scs i = Ret s -> wf_scope s /\ forall p, parent s = Some p -> 0 <= p < i.

(** Where the chain of free names leads: the function whose cell holds the variable. *)
Inductive resolves (scs : list scope_t) (q : Z) : Z -> Z -> Prop :=
| resolves_cell i s : rd scs i = Ret s -> parent s <> None -> kinds s !! q = Some ID_INFO_KIND_CELL -> resolves scs q i i
| resolves_free i s p a : rd scs i = Ret s -> kinds s !! q = Some ID_INFO_KIND_FREE -> parent s = Some p ->
    resolves scs q p a -> resolves scs q i a.

(** The scope that a name means, searched from scope [i] outwards, the module excluded: the nearest one that has the
    name, which must be as its own variable, or free and bound further out. *)
Inductive owns (scs : list scope_t) (q : Z) : Z -> Z -> Prop :=
| owns_here i s : rd scs i = Ret s -> parent s <> None ->
    kinds s !! q = Some ID_INFO_KIND_LOCAL \/ kinds s !! q = Some ID_INFO_KIND_CELL -> owns scs q i i
| owns_free i s p a : rd scs i = Ret s -> kinds s !! q = Some ID_INFO_KIND_FREE -> parent s = Some p ->
    resolves scs q p a -> owns scs q i a
| owns_up i s p a : rd scs i = Ret s -> kinds s !! q = None -> parent s = Some p -> owns scs q p a -> owns scs q i a.

(** Every free name of a scope leads to a cell. *)
Definition closed_ok (scs : list scope_t) : Prop :=
  forall i s q, rd scs i = Ret s -> kinds s !! q = Some ID_INFO_KIND_FREE -> exists a, resolves scs q i a.

(** The same scope read twice. *)
Ltac same_rd :=
  repeat match goal with
  | H1 : rd ?l ?i = Ret ?x, H2 : rd ?l ?i = Ret ?y |- _ => assert (y = x) by congruence; subst y; clear H2
  end.

(** What closing over [q] may change in a scope. *)
Definition step_scope (q : Z) (s s' : scope_t) : Prop :=
  wf_scope s' /\ same_scope s s' /\
  (kinds s' = kinds s \/
   (kinds s !! q = None \/ kinds s !! q = Some ID_INFO_KIND_GLOBAL_IMPLICIT) /\
     kinds s' = <[q := ID_INFO_KIND_FREE]> (kinds s) \/
   kinds s !! q = Some ID_INFO_KIND_LOCAL /\ kinds s' = <[q := ID_INFO_KIND_CELL]> (kinds s)).

Definition step_scopes (q : Z) (scs scs' : list scope_t) : Prop :=
  length scs' = length scs /\
  forall i s, rd scs i = Ret s -> exists s', rd scs' i = Ret s' /\ step_scope q s s'.

Lemma same_scope_parent s s' : same_scope s s' -> parent s' = parent s.
Proof. intros ->. done. Qed.

Lemma step_scope_refl q s : wf_scope s -> step_scope q s s.
Proof. intros Hwf. split; [done|]. split; [by destruct s|by left]. Qed.

Lemma rd_length {A} (l l' : list A) i x : length l' = length l -> rd l i = Ret x -> exists y, rd l' i = Ret y.
Proof.
  intros Hl H. apply rd_inv in H as [H0 H]. apply lookup_lt_Some in H.
  destruct (rd_in_bounds l' i) as (y & Hy & _); [lia|eauto].
Qed.

Lemma step_scopes_inv q scs scs' i s' : step_scopes q scs scs' -> rd scs' i = Ret s' ->
  exists s, rd scs i = Ret s /\ step_scope q s s'.
Proof.
  intros [Hl H] Hr. destruct (rd_length scs' scs i s') as [s Hs]; [done..|].
  exists s. split; [done|]. destruct (H i s Hs) as (s'' & Hr' & ?). congruence.
Qed.

(** What is closed over stays so. *)
Lemma resolves_step q scs scs' q' i a : step_scopes q scs scs' -> resolves scs q' i a -> resolves scs' q' i a.
Proof.
  intros [_ H]. induction 1 as [i s Hr Hp Hk|i s p a Hr Hk Hp _ IH]; destruct (H i s Hr) as (s' & Hr' & Hwf & Hsame & Hs).
  - apply resolves_cell with s'; [done|by rewrite (same_scope_parent _ _ Hsame)|].
    destruct Hs as [-> | [[[Hn|Hn] ->]|[Hn ->]]]; [done|..]; (rewrite lookup_insert_ne; [done|intros ->; congruence]).
  - apply resolves_free with s' p; [done| |by rewrite (same_scope_parent _ _ Hsame)|done].
    destruct Hs as [-> | [[[Hn|Hn] ->]|[Hn ->]]]; [done|..]; (rewrite lookup_insert_ne; [done|intros ->; congruence]).
Qed.

Lemma resolves_unique scs q i a b : resolves scs q i a -> resolves scs q i b -> b = a.
Proof.
  intros Ha. revert b. induction Ha as [i s Hr Hp Hk|i s p a Hr Hk Hp _ IH]; intros b Hb; inversion Hb; subst; same_rd;
    simplify_eq; try congruence. by apply IH.
Qed.

(** Only the scopes from [i] outwards matter. *)
Lemma resolves_agree scs scs' q i a : wf_scopes scs -> (forall j, j <= i -> rd scs' j = rd scs j) ->
  resolves scs q i a -> resolves scs' q i a.
Proof.
  intros Hwf Hag H. induction H as [i s Hr Hp Hk|i s p a Hr Hk Hp _ IH].
  - apply resolves_cell with s; [by rewrite Hag by lia|done..].
  - destruct (Hwf i s Hr) as [_ Hpar]. specialize (Hpar p Hp).
    apply resolves_free with s p; [by rewrite Hag by lia|done..|]. apply IH. intros j Hj. apply Hag. lia.
Qed.

Lemma owns_agree scs scs' q i a : wf_scopes scs -> (forall j, j <= i -> rd scs' j = rd scs j) ->
  owns scs q i a -> owns scs' q i a.
Proof.
  intros Hwf Hag H. induction H as [i s Hr Hp Hk|i s p a Hr Hk Hp Hres|i s p a Hr Hk Hp _ IH].
  - apply owns_here with s; [by rewrite Hag by lia|done..].
  - destruct (Hwf i s Hr) as [_ Hpar]. specialize (Hpar p Hp).
    apply owns_free with s p; [by rewrite Hag by lia|done..|].
    apply (resolves_agree scs); [done| |done]. intros j Hj. apply Hag. lia.
  - destruct (Hwf i s Hr) as [_ Hpar]. specialize (Hpar p Hp).
    apply owns_up with s p; [by rewrite Hag by lia|done..|]. apply IH. intros j Hj. apply Hag. lia.
Qed.

(** Replacing one scope. *)
Lemma put_scope_ok scs i s s' : rd scs i = Ret s -> exists scs', put_scope scs i s' = Ret scs' /\
  length scs' = length scs /\ rd scs' i = Ret s' /\ forall j, j <> i -> rd scs' j = rd scs j.
Proof.
  intros Hr. apply rd_inv in Hr as [H0 Hr]. pose proof (lookup_lt_Some _ _ _ Hr) as Hlt.
  unfold put_scope. rewrite wr_Ret by lia. eexists. split; [reflexivity|]. rewrite length_insert. split; [done|].
  split; [apply rd_Ret; [done|by rewrite list_lookup_insert_eq by lia]|].
  intros j Hj. unfold rd. destruct (Z.ltb_spec j 0); [done|]. by rewrite list_lookup_insert_ne by lia.
Qed.

Lemma step_put q scs i s s' scs' : wf_scopes scs -> rd scs i = Ret s -> step_scope q s s' -> rd scs' i = Ret s' ->
  length scs' = length scs -> (forall j, j <> i -> rd scs' j = rd scs j) -> step_scopes q scs scs'.
Proof.
  intros Hwf Hr Hst Hr' Hl Ho. split; [done|]. intros j sj Hj. destruct (Z.eq_dec j i) as [->|Hne].
  - exists s'. split; [done|]. congruence.
  - exists sj. rewrite Ho by done. split; [done|]. apply step_scope_refl. by apply (Hwf j).
Qed.

Lemma step_wf q scs scs' : wf_scopes scs -> step_scopes q scs scs' -> wf_scopes scs'.
Proof.
  intros Hwf Hst i s' Hr. destruct (step_scopes_inv _ _ _ _ _ Hst Hr) as (s & Hs & Hwf' & Hsame & _).
  destruct (Hwf i s Hs) as [_ Hp]. split; [done|]. by rewrite (same_scope_parent _ _ Hsame).
Qed.

Section Spec.
Context {allocator : Allocator id_info_t}.

(** A name that is there is found; otherwise it is appended, and nothing else changes. *)
Lemma scope_find_or_add_ok s q k : wf_scope s -> few s ->
  (exists i id, scope_find_or_add_id s q k = Ret (s, Z.of_nat i) /\ ids s !! i = Some id /\ qst id = q /\ kinds s !! q = Some (kind id)) \/
  kinds s !! q = None /\
  (scope_find_or_add_id s q k = Raise MemoryError \/
   exists s' i, scope_find_or_add_id s q k = Ret (s', Z.of_nat i) /\ wf_scope s' /\ same_scope s s' /\
     ids s' !! i = Some {| kind := k; flags := 0; local_num := 0; qst := q |} /\
     ids s' = ids s ++ [{| kind := k; flags := 0; local_num := 0; qst := q |}] /\
     kinds s' = <[q := k]> (kinds s) /\ id_info_len s' = id_info_len s + 1).
Proof.
  intros Hwf Hfew. unfold scope_find_or_add_id.
  destruct (scope_find_ok s q Hwf) as [(i & id & -> & Hi & Hq & Hk)|[-> Hn]]; cbn [obind]; [left; eauto 10|right].
  split; [done|]. pose proof Hwf as (Hl & Ha & Hal & H0 & Hnd). unfold few in Hfew.
  set (new := {| kind := k; flags := 0; local_num := 0; qst := q |}).
  (* the array once there is room *)
  assert (Hroom : forall alloc arr, length arr = Z.to_nat alloc -> id_info_len s < alloc <= id_info_len s + 6 ->
    take (Z.to_nat (id_info_len s)) arr = ids s ->
    exists s' i, (let! s' := set_id (with_ids (with_ids s alloc (id_info_len s) arr) alloc (wrap 16 (id_info_len s + 1)) arr)
                    (id_info_len s) new in Ret (s', id_info_len s)) = Ret (s', Z.of_nat i) /\
      wf_scope s' /\ same_scope s s' /\ ids s' !! i = Some new /\ ids s' = ids s ++ [new] /\
      kinds s' = <[q := k]> (kinds s) /\ id_info_len s' = id_info_len s + 1).
  { intros alloc arr Harr Halloc Htake. rewrite wrap_small by lia. unfold set_id. cbn [with_ids id_info].
    rewrite wr_Ret by lia. cbn [obind]. eexists _, (Z.to_nat (id_info_len s)). rewrite Z2Nat.id by lia.
    split; [reflexivity|]. set (s' := with_ids _ _ _ _).
    assert (Hids : ids s' = ids s ++ [new]).
    { unfold ids, s'. cbn. replace (Z.to_nat (id_info_len s + 1)) with (S (Z.to_nat (id_info_len s))) by lia.
      rewrite (take_S_r _ _ new) by (rewrite list_lookup_insert_eq; [done|lia]).
      by rewrite take_insert_ge, Htake by lia. }
    assert (Hwf' : wf_scope s').
    { unfold wf_scope. rewrite Hids. cbn. rewrite length_insert. repeat split; [lia..|].
      rewrite fmap_app. apply list.NoDup_app. repeat split; [done| |by apply list.NoDup_singleton].
      intros x Hx Hx'. apply list_elem_of_singleton in Hx' as ->. cbn in Hx.
      apply list_elem_of_fmap in Hx as (id & Eid & Hin). apply list_elem_of_lookup in Hin as [j Hj].
      rewrite kinds_None in Hn by done. by destruct (Hn j id Hj). }
    assert (Hi : ids s' !! Z.to_nat (id_info_len s) = Some new).
    { rewrite Hids, lookup_app_r; rewrite length_ids by done; [|done]. by rewrite Nat.sub_diag. }
    split; [done|]. split; [done|]. split; [done|]. split; [done|]. split; [|done]. apply map_eq. intros q'.
    apply option_eq. intros k'. rewrite kinds_Some by done. destruct (decide (q = q')) as [<-|Hne].
    - rewrite lookup_insert_eq. split; [|intros [= <-]; eauto].
      intros (j & id & Hj & Hq & Hk). rewrite Hids in Hj. apply lookup_app_Some in Hj as [Hj|[_ Hj]].
      + rewrite kinds_None in Hn by done. by destruct (Hn j id Hj).
      + apply list_lookup_singleton_Some in Hj as [_ <-]. by rewrite <- Hk.
    - rewrite lookup_insert_ne, kinds_Some by done. rewrite Hids. split; intros (j & id & Hj & Hq & Hk); exists j, id.
      + apply lookup_app_Some in Hj as [Hj|[_ Hj]]; [done|]. apply list_lookup_singleton_Some in Hj as [_ <-]. done.
      + split; [|done]. by apply lookup_app_l_Some. }
  destruct (Z.leb_spec (id_info_alloc s) (id_info_len s)) as [Hf|Hf].
  - unfold sizeof_id_info_t, MICROPY_ALLOC_SCOPE_ID_INC.
    rewrite m_renew_grow by lia. destruct (m_renew_ok _); [right|by left]. cbn [obind].
    rewrite wrap_small by lia.
    apply (Hroom (id_info_alloc s + 6) (id_info s ++ replicate (Z.to_nat (id_info_alloc s + 6) - length (id_info s)) fresh));
      [rewrite length_app, length_replicate; lia|lia|].
    rewrite take_app_le by lia. unfold ids. done.
  - right. cbn [obind]. destruct (Hroom (id_info_alloc s) (id_info s)) as (s' & i & H & Hs'); [done|lia|done|].
    exists s', i. split; [|done]. rewrite <- H. by destruct s.
Qed.

Lemma check_loop_ok fuel scs i q s : wf_scopes scs -> closed_ok scs -> rd scs i = Ret s -> i < Z.of_nat fuel ->
  (check_loop fuel scs i q = Ret true /\ exists a, owns scs q i a) \/
  (check_loop fuel scs i q = Ret false /\ forall a, owns scs q i a -> False).
Proof.
  intros Hwf Hcl. revert i s. induction fuel as [|fuel IH]; intros i s Hr Hf; [apply rd_inv in Hr; lia|].
  cbn [check_loop]. rewrite Hr. cbn [obind]. destruct (Hwf i s Hr) as [Hws Hpar].
  destruct (parent s) as [p|] eqn:Ep.
  2: { right. split; [done|]. intros a Ha. inversion Ha; subst; simplify_eq; congruence. }
  destruct (scope_find_ok s q Hws) as [(k & id & -> & Hk & Hq & Hkind)|[-> Hn]]; cbn [obind].
  - rewrite (rd_ids _ _ _ Hk). cbn [obind].
    destruct (kind id) eqn:Ek;
      try (right; split; [done|]; intros a Ha; inversion Ha as [? ? ? ? Hor|? ? ? ? ? ? ?|]; subst;
        [destruct Hor|..]; same_rd; simplify_eq; congruence); left; (split; [done|]).
    + exists i. apply owns_here with s; [done|congruence|by left].
    + exists i. apply owns_here with s; [done|congruence|by right].
    + destruct (Hcl i s q Hr Hkind) as [a Ha]. exists a.
      inversion Ha; subst; simplify_eq; [congruence|]. eapply owns_free; eassumption.
  - specialize (Hpar p eq_refl). destruct (rd_in_bounds scs p) as (sp & Hsp & _).
    { apply rd_inv in Hr as [_ Hr]. apply lookup_lt_Some in Hr. lia. }
    destruct (IH p sp Hsp) as [[-> [a Ha]]|[-> Hno]]; [lia|left|right]; (split; [done|]).
    + exists a. by apply owns_up with s p.
    + intros a Ha. inversion Ha as [? ? ? ? Hor|? ? ? ? ? ? ?|]; subst; [destruct Hor|..]; same_rd; simplify_eq; try congruence. eapply Hno; eassumption.
Qed.

Lemma step_compose q scs scs1 scs' i : step_scopes q scs scs1 -> (forall j, j <> i -> rd scs1 j = rd scs j) ->
  step_scopes q scs1 scs' -> (forall j, i <= j -> rd scs' j = rd scs1 j) -> step_scopes q scs scs'.
Proof.
  intros [Hl1 H1] Ho1 [Hl2 H2] Ho2. split; [congruence|]. intros j s Hs.
  destruct (Z.le_gt_cases i j).
  - destruct (H1 j s Hs) as (s1 & Hs1 & Hst). exists s1. by rewrite Ho2.
  - apply H2. rewrite Ho1 by lia. done.
Qed.

(** Closing over a name that an enclosing function owns: every scope on the way gets the name as free. *)
Lemma close_over_loop_ok fuel scs i q a : wf_scopes scs -> (forall j s, j <= i -> rd scs j = Ret s -> few s) ->
  owns scs q i a -> i < Z.of_nat fuel ->
  close_over_loop fuel scs (Some i) q = Raise MemoryError \/
  exists scs', close_over_loop fuel scs (Some i) q = Ret scs' /\ step_scopes q scs scs' /\
    (forall j, i < j -> rd scs' j = rd scs j) /\ resolves scs' q i a /\
    (forall j s s', rd scs j = Ret s -> rd scs' j = Ret s' -> kinds s !! q <> Some ID_INFO_KIND_FREE ->
       kinds s' !! q = Some ID_INFO_KIND_FREE -> resolves scs' q j a).
Proof.
  revert scs i. induction fuel as [|fuel IH]; intros scs i Hwf Hfew Hown Hf.
  { inversion Hown as [? ? Hr|? ? ? ? Hr|? ? ? ? Hr]; apply rd_inv in Hr; lia. }
  assert (exists s, rd scs i = Ret s /\ parent s <> None /\
    (kinds s !! q = Some ID_INFO_KIND_LOCAL /\ a = i \/ kinds s !! q = Some ID_INFO_KIND_CELL /\ a = i \/
     kinds s !! q = Some ID_INFO_KIND_FREE /\ resolves scs q i a \/
     exists p, kinds s !! q = None /\ parent s = Some p /\ owns scs q p a)) as (s & Hr & Hpn & Hcase).
  { inversion Hown as [? s Hr Hp [Hk|Hk]|? s p ? Hr Hk Hp Hres|? s p ? Hr Hk Hp Ho]; subst; exists s;
      (split; [done|]); (split; [congruence|]); eauto 8 using resolves_free. }
  cbn [close_over_loop]. rewrite Hr. cbn [obind]. destruct (Hwf i s Hr) as [Hws Hpar].
  destruct (parent s) as [p|] eqn:Ep; [|done]. clear Hpn.
  destruct (scope_find_or_add_ok s q ID_INFO_KIND_UNDECIDED Hws ltac:(apply (Hfew i); [lia|done]))
    as [(k & id & -> & Hk & Hq & Hkind)|[Hn [->|(s1 & k & -> & Hw1 & Hsame1 & Hk1 & _ & Hkinds1 & _)]]];
    cbn [obind]; [|by left|].
  - (* the name is there *)
    rewrite (rd_ids _ _ _ Hk). cbn [obind].
    assert (Hkeep : a = i /\ kind id = ID_INFO_KIND_CELL \/ kind id = ID_INFO_KIND_FREE /\ resolves scs q i a ->
      put_scope scs i s = Ret scs /\ resolves scs q i a).
    { intros Hc. split.
      - unfold put_scope. apply rd_inv in Hr as [H0 Hr]. rewrite wr_Ret by (apply lookup_lt_Some in Hr; lia).
        by rewrite list_insert_id.
      - destruct Hc as [[-> Hc]|[_ Hc]]; [|done]. apply resolves_cell with s; [done|congruence|congruence]. }
    destruct Hcase as [[Hc ->]|[[Hc ->]|[[Hc Hres]|(p' & Hc & _)]]]; rewrite Hkind in Hc; [injection Hc as Hc..|done];
      rewrite Hc; right.
    + subst q. destruct (set_id_ok s k id (set_kind id ID_INFO_KIND_CELL) Hws Hk eq_refl) as (s1 & -> & Hw1 & Hsame1 & _ & Hkinds1 & _).
      cbn [obind]. destruct (put_scope_ok scs i s s1 Hr) as (scs' & -> & Hl & Hr' & Ho). exists scs'.
      split; [done|]. assert (Hst : step_scopes (qst id) scs scs').
      { apply (step_put _ scs i s s1); [done..| |done|done|done]. split; [done|]. split; [done|].
        right; right. split; [congruence|done]. }
      split; [done|]. split; [intros j Hj; apply Ho; lia|]. split.
      * apply resolves_cell with s1; [done|rewrite (same_scope_parent _ _ Hsame1); congruence|].
        rewrite Hkinds1. apply lookup_insert_eq.
      * intros j s2 s2' H2 H2' Hn2 Hk2. destruct (Z.eq_dec j i) as [->|Hne].
        { same_rd. by rewrite Hkinds1, lookup_insert_eq in Hk2. }
        rewrite Ho in H2' by done. same_rd. congruence.
    + destruct Hkeep as [-> Hres]; [by left|]. exists scs. split; [done|]. split.
      { split; [done|]. intros j sj Hj. exists sj. split; [done|]. apply step_scope_refl. by apply (Hwf j). }
      split; [done|]. split; [done|]. intros j s2 s2' H2 H2' Hn2 Hk2. same_rd. congruence.
    + destruct Hkeep as [-> _]; [by right|]. exists scs. split; [done|]. split.
      { split; [done|]. intros j sj Hj. exists sj. split; [done|]. apply step_scope_refl. by apply (Hwf j). }
      split; [done|]. split; [done|]. intros j s2 s2' H2 H2' Hn2 Hk2. same_rd. congruence.
  - (* a new free name *)
    destruct Hcase as [[Hc _]|[[Hc _]|[[Hc _]|(p' & _ & [= <-] & Hown')]]]; [congruence..|].
    rewrite (rd_ids _ _ _ Hk1). cbn [obind kind].
    destruct (set_id_ok s1 k _ (set_kind {| kind := ID_INFO_KIND_UNDECIDED; flags := 0; local_num := 0; qst := q |} ID_INFO_KIND_FREE)
      Hw1 Hk1 eq_refl) as (s2 & -> & Hw2 & Hsame2 & _ & Hkinds2 & _). cbn [obind].
    destruct (put_scope_ok scs i s s2 Hr) as (scs1 & -> & Hl & Hr' & Ho). cbn [obind].
    assert (Hsame : same_scope s s2) by (rewrite Hsame2, Hsame1; by destruct s, s2).
    assert (Hkinds : kinds s2 = <[q := ID_INFO_KIND_FREE]> (kinds s)).
    { rewrite Hkinds2, Hkinds1. cbn. by rewrite insert_insert_eq. }
    assert (Hst : step_scopes q scs scs1).
    { apply (step_put _ scs i s s2); [done..| |done|done|done]. split; [done|]. split; [done|]. right; left. auto. }
    assert (parent s2 = Some p) as Ep2 by (by rewrite (same_scope_parent _ _ Hsame)).
    specialize (Hpar p eq_refl). rewrite Ep2.
    destruct (IH scs1 p) as [->|(scs' & -> & Hst' & Ho' & Hres & Hnew)]; [by eapply step_wf| | |lia|by left|].
    { intros j sj Hj Hsj. apply (Hfew j); [lia|]. by rewrite <- Ho by lia. }
    { apply (owns_agree scs); [done| |done]. intros j Hj. apply Ho. lia. }
    right. exists scs'. split; [done|]. assert (Hst'' : step_scopes q scs scs').
    { apply (step_compose q scs scs1 scs' i); [done..|]. intros j Hj. apply Ho'. lia. }
    assert (Hres' : resolves scs' q i a).
    { apply resolves_free with s2 p; [rewrite Ho' by lia; done|rewrite Hkinds; apply lookup_insert_eq|done|done]. }
    split; [done|]. split; [intros j Hj; rewrite Ho', Ho by lia; done|]. split; [done|].
    intros j sj sj' Hj Hj' Hnj Hkj. destruct (Z.eq_dec j i) as [->|Hne]; [done|].
    apply (Hnew j sj sj'); [by rewrite Ho by done|done..].
Qed.

(** Using a name of an enclosing function, or not. *)
Lemma check_to_close_over_ok scs i k s id p : wf_scopes scs -> closed_ok scs -> (forall j s, rd scs j = Ret s -> few s) ->
  rd scs i = Ret s -> ids s !! k = Some id -> kind id = ID_INFO_KIND_GLOBAL_IMPLICIT -> parent s = Some p ->
  (exists a, owns scs (qst id) p a /\
    (scope_check_to_close_over scs i (Z.of_nat k) = Raise MemoryError \/
     exists scs', scope_check_to_close_over scs i (Z.of_nat k) = Ret scs' /\ step_scopes (qst id) scs scs' /\
       closed_ok scs' /\ resolves scs' (qst id) i a)) \/
  (forall a, owns scs (qst id) p a -> False) /\ scope_check_to_close_over scs i (Z.of_nat k) = Ret scs.
Proof.
  intros Hwf Hcl Hfew Hr Hk Hkind Ep. destruct (Hwf i s Hr) as [Hws Hpar]. specialize (Hpar p Ep).
  assert (Hlt : i < Z.of_nat (length scs)).
  { apply rd_inv in Hr as [? Hr]. apply lookup_lt_Some in Hr. lia. }
  destruct (rd_in_bounds scs p) as (sp & Hsp & _); [lia|].
  unfold scope_check_to_close_over. rewrite Hr. cbn [obind]. rewrite Ep, (rd_ids _ _ _ Hk). cbn [obind].
  destruct (check_loop_ok (S (length scs)) scs p (qst id) sp) as [[-> [a Ha]]|[-> Hno]]; [done..|lia| |by right].
  left. exists a. split; [done|]. cbn [obind].
  destruct (set_id_ok s k id (set_kind id ID_INFO_KIND_FREE) Hws Hk eq_refl) as (s1 & -> & Hw1 & Hsame1 & _ & Hkinds1 & _).
  cbn [obind]. destruct (put_scope_ok scs i s s1 Hr) as (scs1 & -> & Hl & Hr1 & Ho). cbn [obind].
  assert (Ekind : kinds s !! qst id = Some ID_INFO_KIND_GLOBAL_IMPLICIT) by (apply kinds_Some; eauto).
  assert (Hst1 : step_scopes (qst id) scs scs1).
  { apply (step_put _ scs i s s1); [done..| |done|done|done]. split; [done|]. split; [done|]. right; left. auto. }
  unfold scope_close_over_in_parents. rewrite Hr1. cbn [obind]. rewrite (same_scope_parent _ _ Hsame1), Ep.
  destruct (close_over_loop_ok (S (length scs1)) scs1 p (qst id) a) as [->|(scs' & -> & Hst' & Ho' & Hres & Hnew)];
    [by eapply step_wf| | |lia|by left|right].
  { intros j sj Hj Hsj. apply (Hfew j). by rewrite <- Ho by lia. }
  { apply (owns_agree scs); [done| |done]. intros j Hj. apply Ho. lia. }
  exists scs'. split; [done|].
  assert (Hst : step_scopes (qst id) scs scs').
  { apply (step_compose _ scs scs1 scs' i); [done..|]. intros j Hj. apply Ho'. lia. }
  assert (Hresi : resolves scs' (qst id) i a).
  { apply resolves_free with s1 p; [rewrite Ho' by lia; done|rewrite Hkinds1; apply lookup_insert_eq|
      by rewrite (same_scope_parent _ _ Hsame1)|done]. }
  split; [done|]. split; [|done]. intros j sj q Hj Hfree.
  destruct (step_scopes_inv _ _ _ _ _ Hst Hj) as (s0 & Hs0 & Hw0 & Hsame0 & Hcase).
  destruct (decide (kinds s0 !! q = Some ID_INFO_KIND_FREE)) as [H0|H0].
  { destruct (Hcl j s0 q Hs0 H0) as [b Hb]. exists b. by eapply resolves_step. }
  assert (q = qst id) as ->.
  { destruct (decide (q = qst id)) as [|Hne]; [done|exfalso].
    destruct Hcase as [E|[[_ E]|[_ E]]]; rewrite E in Hfree; rewrite ?lookup_insert_ne in Hfree by done; done. }
  destruct (Z.eq_dec j i) as [->|Hne]; [by exists a|]. exists a. apply (Hnew j s0 sj); [by rewrite Ho|done..].
Qed.

(** C13. Whether a name that a function uses without binding it is closed over.  If an enclosing function has the name as its own,
    or free, the name becomes free, a chain of free names leads from here to the cell of that function, and the only
    names that change on the way are those of this name: a local becomes a cell, and a function in between that did not have it
    gets it as free.  Otherwise nothing changes.  Every chain that was there is kept, every free name still leads to a
    cell, and no [assert] fails; the only exception is [MemoryError]. *)
Theorem scope_check_to_close_over_spec scs i k s id p : wf_scopes scs -> closed_ok scs -> (forall j s, rd scs j = Ret s -> few s) ->
  rd scs i = Ret s -> ids s !! k = Some id -> kind id = ID_INFO_KIND_GLOBAL_IMPLICIT -> parent s = Some p ->
  (exists a, owns scs (qst id) p a /\
    (scope_check_to_close_over scs i (Z.of_nat k) = Raise MemoryError \/
     exists scs', scope_check_to_close_over scs i (Z.of_nat k) = Ret scs' /\ wf_scopes scs' /\ closed_ok scs' /\
       resolves scs' (qst id) i a /\ (forall b, resolves scs' (qst id) i b -> b = a) /\
       (forall q j b, resolves scs q j b -> resolves scs' q j b) /\
       (forall j sj, rd scs j = Ret sj -> exists sj', rd scs' j = Ret sj' /\ same_scope sj sj' /\
          (forall q, q <> qst id -> kinds sj' !! q = kinds sj !! q)))) \/
  (forall a, owns scs (qst id) p a -> False) /\ scope_check_to_close_over scs i (Z.of_nat k) = Ret scs.
Proof.
  intros Hwf Hcl Hfew Hr Hk Hkind Ep.
  destruct (check_to_close_over_ok scs i k s id p) as [(a & Ha & [->|(scs' & -> & Hst & Hcl' & Hres)])|H]; [done..| | |by right];
    left; exists a; (split; [done|]); [by left|right].
  exists scs'. split; [done|]. split; [by eapply step_wf|]. split; [done|]. split; [done|].
  split; [intros b Hb; by eapply resolves_unique|]. split; [intros q j b; by apply resolves_step with (qst id)|].
  intros j sj Hj. destruct (proj2 Hst j sj Hj) as (sj' & Hj' & _ & Hsame & Hcase). exists sj'. split; [done|]. split; [done|].
  intros q Hq. destruct Hcase as [-> | [[_ ->]|[_ ->]]]; [done|..]; by rewrite lookup_insert_ne.
Qed.
End Spec.

(** [def f(): x = 1; def g(): def h(): ... x ...] after the first pass of [h], in the module 0. *)
Definition demo_id0 (k : id_info_kind_t) (q : Z) : id_info_t := {| kind := k; flags := 0; local_num := 0; qst := q |}.
Definition demo_scope0 (par : option Z) (l : list id_info_t) : scope_t :=
  {| s_kind := SCOPE_FUNCTION; parent := par; raw_code := 0; simple_name := 0; scope_flags := 0; num_pos_args := 0; num_kwonly_args := 0;
     num_def_pos_args := 0; num_locals := 0; stack_size := 0; exc_stack_size := 0; id_info_alloc := 4;
     id_info_len := Z.of_nat (length l); id_info := l ++ replicate (4 - length l) (demo_id0 ID_INFO_KIND_UNDECIDED 0) |}.

Definition demo_scopes : list scope_t :=
  [demo_scope0 None []; demo_scope0 (Some 0) [demo_id0 ID_INFO_KIND_LOCAL 50]; demo_scope0 (Some 1) [];
   demo_scope0 (Some 2) [demo_id0 ID_INFO_KIND_GLOBAL_IMPLICIT 50]].

Definition demo_ids_allocator : Allocator id_info_t := {| m_renew_ok := fun _ => true; fresh := demo_id0 ID_INFO_KIND_UNDECIDED 0 |}.

Lemma demo_rd_cases i s (P : Z -> scope_t -> Prop) : rd demo_scopes i = Ret s ->
  (forall n : nat, (n < 4)%nat -> match demo_scopes !! n with Some s => P (Z.of_nat n) s | None => True end) -> P i s.
Proof.
  intros H HP. apply rd_inv in H as [Hi H]. pose proof (lookup_lt_Some _ _ _ H) as Hlt. specialize (HP (Z.to_nat i) Hlt).
  rewrite H, Z2Nat.id in HP by done. done.
Qed.

Lemma demo_wf0 s : bool_decide (0 <= id_info_len s <= id_info_alloc s /\ length (id_info s) = Z.to_nat (id_info_alloc s) /\
  id_info_alloc s <= id_info_len s + 6 /\ 0 < id_info_alloc s /\ NoDup (qst <$> ids s)) = true -> wf_scope s.
Proof. by rewrite bool_decide_eq_true. Qed.

Lemma demo_no_free s q : forallb (fun id => negb (bool_decide (kind id = ID_INFO_KIND_FREE))) (ids s) = true ->
  wf_scope s -> kinds s !! q = Some ID_INFO_KIND_FREE -> False.
Proof.
  rewrite forallb_forall. intros H Hwf Hk. apply kinds_Some in Hk as (i & id & Hi & _ & Hk); [|done].
  specialize (H id (proj1 (list_elem_of_In _ _) (list_elem_of_lookup_2 _ _ _ Hi))). by rewrite bool_decide_true in H.
Qed.

Lemma demo_owns : owns demo_scopes 50 2 1.
Proof.
  apply (owns_up _ _ 2 (demo_scope0 (Some 1) []) 1); [reflexivity|reflexivity|reflexivity|].
  apply (owns_here _ _ 1 (demo_scope0 (Some 0) [demo_id0 ID_INFO_KIND_LOCAL 50])); [reflexivity|done|left; reflexivity].
Qed.

Lemma scope_check_to_close_over_spec_witness :
  exists scs' a, scope_check_to_close_over (allocator := demo_ids_allocator) demo_scopes 3 0 = Ret scs' /\
    owns demo_scopes 50 2 a /\ resolves scs' 50 3 a.
Proof.
  destruct (scope_check_to_close_over_spec (allocator := demo_ids_allocator) demo_scopes 3 0
    (demo_scope0 (Some 2) [demo_id0 ID_INFO_KIND_GLOBAL_IMPLICIT 50]) (demo_id0 ID_INFO_KIND_GLOBAL_IMPLICIT 50) 2)
    as [(a & Ha & [H|(scs' & H & _ & _ & Hres & _)])|[Hno _]].
  - intros i s H. apply (demo_rd_cases i s (fun i s => wf_scope s /\ forall p, parent s = Some p -> 0 <= p < i) H).
    intros n Hn. do 4 (destruct n as [|n]; [split; [apply demo_wf0; reflexivity|intros p Hp; cbn in Hp; (discriminate Hp || (injection Hp as <-; lia))]|]). lia.
  - intros i s q H. apply (demo_rd_cases i s (fun i s => kinds s !! q = Some ID_INFO_KIND_FREE -> exists a, resolves demo_scopes q i a) H).
    intros n Hn. do 4 (destruct n as [|n]; [intros Hk; exfalso; revert Hk; apply demo_no_free; [reflexivity|apply demo_wf0; reflexivity]|]). lia.
  - intros i s H. apply (demo_rd_cases i s (fun i s => few s) H). intros n Hn. do 4 (destruct n as [|n]; [reflexivity|]). lia.
  - reflexivity.
  - reflexivity.
  - reflexivity.
  - reflexivity.
  - exfalso. vm_compute in H. discriminate H.
  - exists scs', a. done.
  - exfalso. exact (Hno 1 demo_owns).
Defined.
