(* ===== verification/ScopeNumber.v ===== *)
(** * Numbering the locals of a scope: lemmas

    The loops of [scope_compute_things] as functions on the list of names ([number], [number_free]), and the
    numbers that they give. *)

From stdpp Require Import gmap.
From S2P Require Import Prelude Malloc Scope ScopeSpec.
Local Open Scope Z_scope.

(** How many of [l] satisfy [P]. *)
Fixpoint count (P : id_info_t -> bool) (l : list id_info_t) : Z :=
  match l with [] => 0 | x :: l => b2z (P x) + count P l end.

(** Consecutive numbers from [num] on for the names that satisfy [P]. *)
Fixpoint number (P : id_info_t -> bool) (g : id_info_t -> id_info_t) (num : Z) (l : list id_info_t) : list id_info_t :=
  match l with
  | [] => []
  | x :: l => (if P x then set_local_num (g x) num else g x) :: number P g (num + b2z (P x)) l
  end.

Lemma count_bound P l : 0 <= count P l <= Z.of_nat (length l).
Proof. induction l as [|x l IH]; cbn; [lia|]. destruct (P x); cbn [b2z]; lia. Qed.

Lemma count_app P l l' : count P (l ++ l') = count P l + count P l'.
Proof. induction l as [|x l IH]; cbn; [done|]. lia. Qed.

Lemma length_number P g num l : length (number P g num l) = length l.
Proof. revert num. induction l as [|x l IH]; intros num; cbn; [done|]. by rewrite IH. Qed.

Lemma number_lookup P g num l i : number P g num l !! i =
  (fun x => if P x then set_local_num (g x) (num + count P (take i l)) else g x) <$> l !! i.
Proof.
  revert num i. induction l as [|x l IH]; intros num [|i]; cbn; [done..| |].
  - by rewrite Z.add_0_r.
  - rewrite IH. destruct (l !! i); [|done]. cbn. by rewrite Z.add_assoc.
Qed.

(** Numbers of different names that satisfy [P] differ, in their order. *)
Lemma count_take_lt P l i j x : l !! i = Some x -> P x = true -> (i < j)%nat -> count P (take i l) < count P (take j l).
Proof.
  intros Hx HP Hij. rewrite <- (take_drop (S i) (take j l)), count_app, take_take, Nat.min_l by lia.
  rewrite (take_S_r _ _ _ Hx), count_app. cbn. rewrite HP. cbn [b2z].
  pose proof (count_bound P (drop (S i) (take j l))). lia.
Qed.

Lemma count_take_total P l i x : l !! i = Some x -> P x = true -> count P (take i l) < count P l.
Proof.
  intros Hx HP. rewrite <- (take_ge l (length l)) at 2 by done. eapply count_take_lt; [done..|].
  by eapply lookup_lt_Some.
Qed.

Section Loops.
Context (cls : Z).

(** The tests of the loops. *)
Definition local_slot (k : scope_kind_t) (id : id_info_t) : bool :=
  negb (bool_decide (k = SCOPE_CLASS) && (qst id =? cls)) && (bool_decide (kind id = ID_INFO_KIND_LOCAL) || is_param id).
Definition cell_slot (id : id_info_t) : bool := bool_decide (kind id = ID_INFO_KIND_CELL) && negb (is_param id).

Definition globals_explicit (k : scope_kind_t) (id : id_info_t) : id_info_t :=
  if negb (bool_decide (k = SCOPE_CLASS) && (qst id =? cls)) &&
     SCOPE_IS_FUNC_LIKE k && bool_decide (kind id = ID_INFO_KIND_GLOBAL_IMPLICIT)
  then set_kind id ID_INFO_KIND_GLOBAL_EXPLICIT else id.

Lemma locals_loop_ok k pre l num rest : num + Z.of_nat (length l) < 2 ^ 16 -> 0 <= num ->
  locals_loop cls (length l) k (pre ++ l ++ rest) (Z.of_nat (length pre)) num =
  Ret (pre ++ number (local_slot k) (globals_explicit k) num l ++ rest, num + count (local_slot k) l).
Proof.
  revert pre num. induction l as [|x l IH]; intros pre num Hb Hn; cbn [locals_loop length number count app].
  { by rewrite Z.add_0_r. }
  cbn [length] in Hb. rewrite rd_middle. cbn [obind].
  assert (Hnext : forall y num, 0 <= num -> num + Z.of_nat (length l) < 2 ^ 16 ->
    locals_loop cls (length l) k (pre ++ y :: l ++ rest) (Z.of_nat (length pre) + 1) num =
    Ret (pre ++ y :: number (local_slot k) (globals_explicit k) num l ++ rest, num + count (local_slot k) l)).
  { intros y num' Hn' Hb'. rewrite (cons_middle y pre (l ++ rest)), (app_assoc pre [y]).
    replace (Z.of_nat (length pre) + 1) with (Z.of_nat (length (pre ++ [y]))) by lens.
    rewrite IH by done. by rewrite <- app_assoc. }
  destruct (bool_decide (k = SCOPE_CLASS) && (qst x =? cls)) eqn:Ec.
  { assert (local_slot k x = false) as -> by (unfold local_slot; by rewrite Ec).
    assert (globals_explicit k x = x) as -> by (unfold globals_explicit; by rewrite Ec).
    cbn [b2z]. rewrite Hnext, Z.add_0_r, Z.add_0_l by lia. done. }
  assert (globals_explicit k x = if SCOPE_IS_FUNC_LIKE k && bool_decide (kind x = ID_INFO_KIND_GLOBAL_IMPLICIT)
    then set_kind x ID_INFO_KIND_GLOBAL_EXPLICIT else x) as <- by (unfold globals_explicit; by rewrite Ec).
  assert (bool_decide (kind (globals_explicit k x) = ID_INFO_KIND_LOCAL) || is_param (globals_explicit k x) = local_slot k x) as ->.
  { unfold local_slot, globals_explicit. rewrite Ec. destruct (SCOPE_IS_FUNC_LIKE k); cbn [andb negb]; [|done].
    destruct (decide (kind x = ID_INFO_KIND_GLOBAL_IMPLICIT)) as [E|E].
    - rewrite (bool_decide_true (kind x = ID_INFO_KIND_GLOBAL_IMPLICIT)) by done. unfold is_param. by rewrite !bool_decide_false by (cbn; congruence).
    - by rewrite (bool_decide_false (kind x = ID_INFO_KIND_GLOBAL_IMPLICIT)) by done. }
  destruct (local_slot k x); cbn [b2z]; rewrite wr_middle; cbn [obind].
  - rewrite wrap_small, Hnext by lia. by rewrite Z.add_assoc.
  - rewrite Hnext, Z.add_0_r, Z.add_0_l by lia. done.
Qed.

Lemma cells_loop_ok pre l num rest : num + count cell_slot l < 2 ^ 16 -> 0 <= num ->
  cells_loop (length l) (pre ++ l ++ rest) (Z.of_nat (length pre)) num =
  Ret (pre ++ number cell_slot id num l ++ rest, num + count cell_slot l).
Proof.
  revert pre num. induction l as [|x l IH]; intros pre num Hb Hn; cbn [cells_loop length number count app].
  { by rewrite Z.add_0_r. }
  cbn [count] in Hb. pose proof (count_bound cell_slot l). rewrite rd_middle. cbn [obind].
  assert (Hnext : forall y num, 0 <= num -> num + count cell_slot l < 2 ^ 16 ->
    cells_loop (length l) (pre ++ y :: l ++ rest) (Z.of_nat (length pre) + 1) num =
    Ret (pre ++ y :: number cell_slot id num l ++ rest, num + count cell_slot l)).
  { intros y num' Hn' Hb'. rewrite (cons_middle y pre (l ++ rest)), (app_assoc pre [y]).
    replace (Z.of_nat (length pre) + 1) with (Z.of_nat (length (pre ++ [y]))) by lens.
    rewrite IH by done. by rewrite <- app_assoc. }
  change (bool_decide (kind x = ID_INFO_KIND_CELL) && negb (is_param x)) with (cell_slot x).
  destruct (cell_slot x); cbn [b2z] in *.
  - rewrite wr_middle. cbn [obind]. rewrite wrap_small, Hnext by lia. by rewrite Z.add_assoc.
  - rewrite Hnext, Z.add_0_r, Z.add_0_l by lia. done.
Qed.
End Loops.

(** ** Free names *)

Definition is_free (q : Z) (id : id_info_t) : bool := bool_decide (kind id = ID_INFO_KIND_FREE) && (q =? qst id).

Definition set_free (q nf : Z) (l : list id_info_t) : list id_info_t :=
  (fun x => if is_free q x then set_local_num x nf else x) <$> l.

Definition has_free (q : Z) (l : list id_info_t) : bool := existsb (is_free q) l.

Fixpoint number_free (qs : list Z) (l : list id_info_t) (nf : Z) : list id_info_t * Z :=
  match qs with
  | [] => (l, nf)
  | q :: qs => number_free qs (set_free q nf l) (nf + b2z (has_free q l))
  end.

(** The closed over names of the parent, in its order. *)
Definition closed_names (pids : list id_info_t) : list Z :=
  qst <$> filter (fun id => kind id = ID_INFO_KIND_CELL \/ kind id = ID_INFO_KIND_FREE) pids.

(** How many free names come before [q]. *)
Fixpoint rank (qs : list Z) (l : list id_info_t) (q : Z) : Z :=
  match qs with
  | [] => 0
  | q' :: qs => if q' =? q then 0 else b2z (has_free q' l) + rank qs l q
  end.

Definition no_free_param (l : list id_info_t) : Prop :=
  forall x, x ∈ l -> kind x = ID_INFO_KIND_FREE -> is_param x = false.

Lemma free_absent q l : q ∉ qst <$> l -> has_free q l = false /\ forall nf, set_free q nf l = l.
Proof.
  intros Hq. induction l as [|x l IH]; [done|]. rewrite fmap_cons, not_elem_of_cons in Hq. destruct Hq as [Hx Hq].
  destruct (IH Hq) as [H1 H2]. assert (is_free q x = false) as E.
  { unfold is_free. rewrite (proj2 (Z.eqb_neq _ _)) by done. apply andb_false_r. }
  split; [|intros nf]; [unfold has_free in *|unfold set_free in *]; cbn; rewrite E; [done|]. f_equal. apply H2.
Qed.

Lemma free_cons q nf x l : set_free q nf (x :: l) = (if is_free q x then set_local_num x nf else x) :: set_free q nf l /\
  has_free q (x :: l) = is_free q x || has_free q l.
Proof. done. Qed.

Lemma free_loop_ok pre l q nf rest : NoDup (qst <$> l) -> no_free_param l -> 0 <= nf < 2 ^ 16 ->
  free_loop (length l) (pre ++ l ++ rest) (Z.of_nat (length pre)) q nf =
  Ret (pre ++ set_free q nf l ++ rest, nf + b2z (has_free q l)).
Proof.
  intros Hnd Hnp Hnf. revert pre. induction l as [|x l IH]; intros pre; cbn [free_loop length app].
  { cbn. by rewrite Z.add_0_r. }
  rewrite fmap_cons in Hnd. apply list.NoDup_cons in Hnd as [Hx Hnd].
  assert (Hnp' : no_free_param l) by (intros y Hy; apply Hnp; by right).
  assert (Hnext : forall y, free_loop (length l) (pre ++ y :: l ++ rest) (Z.of_nat (length pre) + 1) q nf =
    Ret (pre ++ y :: set_free q nf l ++ rest, nf + b2z (has_free q l))).
  { intros y. rewrite (cons_middle y pre (l ++ rest)), (app_assoc pre [y]).
    replace (Z.of_nat (length pre) + 1) with (Z.of_nat (length (pre ++ [y]))) by lens.
    rewrite IH by done. by rewrite <- app_assoc. }
  rewrite rd_middle. cbn [obind].
  change (bool_decide (kind x = ID_INFO_KIND_FREE) && (q =? qst x)) with (is_free q x).
  destruct (free_cons q nf x l) as [-> ->]. destruct (is_free q x) eqn:E; cbn [orb].
  - unfold is_free in E. rewrite andb_true_iff, bool_decide_eq_true, Z.eqb_eq in E. destruct E as [Ef ->].
    rewrite (Hnp x) by (done || by left). rewrite wr_middle. cbn [obind]. rewrite wrap_small by lia.
    destruct (free_absent _ _ Hx) as [Hh Hs]. rewrite Hs.
    specialize (Hnext (set_local_num x nf)). rewrite Hs, Hh in Hnext.
    (* nothing left to find *)
    clear -Hx Hnf. revert pre. generalize (set_local_num x nf) as y. cbn [b2z].
    assert (forall l pre y nf, qst x ∉ qst <$> l -> free_loop (length l) (pre ++ y :: l ++ rest) (Z.of_nat (length pre) + 1) (qst x) nf =
      Ret (pre ++ y :: l ++ rest, nf)) as H; [|intros; by apply H].
    clear. induction l as [|z l IH]; intros pre y nf Hx; [done|]. cbn [free_loop length app].
    rewrite fmap_cons, not_elem_of_cons in Hx. destruct Hx as [Hz Hx].
    rewrite (cons_middle y pre), (app_assoc pre [y]).
    replace (Z.of_nat (length pre) + 1) with (Z.of_nat (length (pre ++ [y]))) by lens.
    rewrite rd_middle. cbn [obind]. rewrite (proj2 (Z.eqb_neq (qst x) (qst z))), andb_false_r by done.
    by rewrite IH.
  - apply Hnext.
Qed.

(** Renumbering changes nothing else. *)
Definition same_names (l l' : list id_info_t) : Prop :=
  (fun x => (qst x, kind x, flags x)) <$> l' = (fun x => (qst x, kind x, flags x)) <$> l.

Lemma set_free_same q nf l : same_names l (set_free q nf l).
Proof.
  unfold same_names, set_free. rewrite <- list_fmap_compose. apply list_fmap_ext. intros i x _. cbn.
  by destruct (is_free q x).
Qed.

Lemma same_names_fmap {B} (f : id_info_t -> B) l l' : same_names l l' -> (forall x y, qst x = qst y -> kind x = kind y -> flags x = flags y -> f x = f y) ->
  f <$> l' = f <$> l.
Proof.
  unfold same_names. revert l'. induction l as [|x l IH]; intros [|y l'] H Hf; try done. cbn in *.
  injection H as H1 H2 H3 H. f_equal; [by apply Hf|by apply IH].
Qed.

Lemma same_names_trans l1 l2 l3 : same_names l1 l2 -> same_names l2 l3 -> same_names l1 l3.
Proof. unfold same_names. congruence. Qed.

Lemma same_names_qst l l' : same_names l l' -> qst <$> l' = qst <$> l.
Proof. intros H. by apply same_names_fmap. Qed.

Lemma same_names_length l l' : same_names l l' -> length l' = length l.
Proof. intros H. apply (f_equal length) in H. by rewrite !length_fmap in H. Qed.

Lemma same_names_has_free q l l' : same_names l l' -> has_free q l' = has_free q l.
Proof.
  intros H. assert (E : is_free q <$> l' = is_free q <$> l).
  { apply same_names_fmap; [done|]. intros x y E1 E2 _. unfold is_free. by rewrite E1, E2. }
  unfold has_free. revert E. clear. revert l'. induction l as [|x l IH]; intros [|y l'] E; try done.
  injection E as E1 E. cbn. rewrite E1. f_equal. by apply IH.
Qed.

Lemma same_names_free_param l l' : same_names l l' -> no_free_param l -> no_free_param l'.
Proof.
  intros H Hn y Hy Hk. apply list_elem_of_lookup in Hy as [i Hi].
  assert (E := f_equal (.!! i) H). rewrite !list_lookup_fmap, Hi in E. destruct (l !! i) as [x|] eqn:Ex; [|done].
  injection E as E1 E2 E3. unfold is_param. rewrite E3. apply (Hn x); [by eapply list_elem_of_lookup_2|congruence].
Qed.

Lemma number_free_same qs l nf : same_names l (number_free qs l nf).1.
Proof.
  revert l nf. induction qs as [|q qs IH]; intros l nf; [done|]. cbn.
  eapply same_names_trans; [apply set_free_same|apply IH].
Qed.

Lemma rank_same qs l l' q : same_names l l' -> rank qs l' q = rank qs l q.
Proof. intros H. induction qs as [|q' qs IH]; [done|]. cbn. by rewrite (same_names_has_free _ _ _ H), IH. Qed.

(** The number of free names among [qs]. *)
Fixpoint num_free (qs : list Z) (l : list id_info_t) : Z :=
  match qs with [] => 0 | q :: qs => b2z (has_free q l) + num_free qs l end.

Lemma num_free_same qs l l' : same_names l l' -> num_free qs l' = num_free qs l.
Proof. intros H. induction qs as [|q qs IH]; [done|]. cbn. by rewrite (same_names_has_free _ _ _ H), IH. Qed.

Lemma num_free_bound qs l : 0 <= num_free qs l <= Z.of_nat (length qs).
Proof. induction qs as [|q qs IH]; cbn; [lia|]. destruct (has_free q l); cbn; lia. Qed.

Lemma number_free_total qs l nf : (number_free qs l nf).2 = nf + num_free qs l.
Proof.
  revert l nf. induction qs as [|q qs IH]; intros l nf; cbn [number_free num_free]; [cbn; lia|].
  rewrite IH, (num_free_same _ l) by apply set_free_same. lia.
Qed.

(** The free names get the numbers of their place in [qs]; the others keep theirs. *)
Lemma number_free_lookup qs l nf i : NoDup qs -> (number_free qs l nf).1 !! i =
  (fun x => if bool_decide (kind x = ID_INFO_KIND_FREE) && bool_decide (qst x ∈ qs)
            then set_local_num x (nf + rank qs l (qst x)) else x) <$> l !! i.
Proof.
  revert l nf. induction qs as [|q qs IH]; intros l nf Hnd; cbn [number_free fst].
  { destruct (l !! i) as [x|]; [|done]. cbn. rewrite (bool_decide_false (_ ∈ [])), andb_false_r by set_solver. done. }
  apply list.NoDup_cons in Hnd as [Hq Hnd]. rewrite IH by done.
  assert (set_free q nf l !! i = (fun x => if is_free q x then set_local_num x nf else x) <$> l !! i) as -> by apply list_lookup_fmap.
  destruct (l !! i) as [x|]; [|done]. cbn [fmap option_fmap option_map]. f_equal. unfold is_free.
  destruct (decide (kind x = ID_INFO_KIND_FREE)) as [Ek|Ek].
  2: { rewrite (bool_decide_false (kind x = _)) by done. cbn [andb]. by rewrite bool_decide_false by done. }
  rewrite (bool_decide_true (kind x = _)) by done. cbn [andb rank]. destruct (Z.eqb_spec q (qst x)) as [E|Hne].
  - cbn [set_local_num kind qst]. rewrite (bool_decide_true (kind x = _)) by done.
    rewrite (bool_decide_false (qst x ∈ qs)), (bool_decide_true (qst x ∈ q :: qs)) by (rewrite <- E; done || by left).
    cbn [andb]. by rewrite Z.add_0_r.
  - rewrite (bool_decide_true (kind x = _)) by done. cbn [andb].
    rewrite (rank_same _ l) by apply set_free_same.
    destruct (decide (qst x ∈ qs)) as [Hin|Hin].
    + rewrite !bool_decide_true by (done || by right). by rewrite Z.add_assoc.
    + rewrite !bool_decide_false; [done|set_solver|done].
Qed.

Lemma free_rank_bound qs l q : 0 <= rank qs l q /\ (has_free q l = true -> q ∈ qs -> rank qs l q < num_free qs l).
Proof.
  induction qs as [|q' qs [IH1 IH2]]; cbn [rank num_free]; [split; [done|set_solver]|].
  destruct (Z.eqb_spec q' q) as [->|Hne].
  - split; [done|]. intros -> _. pose proof (num_free_bound qs l). cbn. lia.
  - split; [destruct (has_free q' l); cbn; lia|]. intros Hf Hin. specialize (IH2 Hf ltac:(set_solver)). lia.
Qed.

Lemma rank_inj qs l q1 q2 : has_free q1 l = true -> has_free q2 l = true -> q1 ∈ qs -> q2 ∈ qs ->
  rank qs l q1 = rank qs l q2 -> q1 = q2.
Proof.
  intros H1 H2. induction qs as [|q qs IH]; [set_solver|]. cbn [rank]. intros Hq1 Hq2.
  destruct (free_rank_bound qs l q1) as [B1 _], (free_rank_bound qs l q2) as [B2 _].
  destruct (Z.eqb_spec q q1) as [E1|Hn1], (Z.eqb_spec q q2) as [E2|Hn2]; subst; rewrite ?H1, ?H2; cbn [b2z]; [done|lia|lia|].
  intros E. apply IH; [set_solver|set_solver|lia].
Qed.

Lemma parent_loop_ok pre pl rest l r nf : NoDup (qst <$> l) -> no_free_param l -> 0 <= nf -> nf + Z.of_nat (length pl) < 2 ^ 16 ->
  parent_loop (length pl) (pre ++ pl ++ rest) (Z.of_nat (length pre)) (length l) (l ++ r) nf =
  Ret ((number_free (closed_names pl) l nf).1 ++ r, (number_free (closed_names pl) l nf).2).
Proof.
  revert pre l nf. induction pl as [|x pl IH]; intros pre l nf Hnd Hnp Hnf Hb; [done|].
  cbn [parent_loop length app] in *. rewrite rd_middle. cbn [obind].
  rewrite (cons_middle x pre (pl ++ rest)), (app_assoc pre [x]).
  replace (Z.of_nat (length pre) + 1) with (Z.of_nat (length (pre ++ [x]))) by lens.
  unfold closed_names. rewrite filter_cons. destruct (decide _) as [Hc|Hc].
  - cbn [fmap list_fmap number_free]. fold (closed_names pl).
    assert (free_loop (length l) (l ++ r) 0 (qst x) nf = Ret (set_free (qst x) nf l ++ r, nf + b2z (has_free (qst x) l))) as E.
    { apply (free_loop_ok [] l); [done|done|lia]. }
    pose proof (set_free_same (qst x) nf l) as Hs.
    assert (forall P : outcome _, (P = free_loop (length l) (l ++ r) 0 (qst x) nf) -> (let! '(ids, nf') := P in
      parent_loop (length pl) ((pre ++ [x]) ++ pl ++ rest) (Z.of_nat (length (pre ++ [x]))) (length l) ids nf') =
      Ret ((number_free (closed_names pl) (set_free (qst x) nf l) (nf + b2z (has_free (qst x) l))).1 ++ r,
        (number_free (closed_names pl) (set_free (qst x) nf l) (nf + b2z (has_free (qst x) l))).2)) as H.
    { intros P ->. rewrite E. cbn [obind]. rewrite <- (same_names_length _ _ Hs). apply IH.
      - by rewrite (same_names_qst _ _ Hs).
      - by eapply same_names_free_param.
      - destruct (has_free _ _); cbn; lia.
      - destruct (has_free _ _); cbn; lia. }
    apply H. destruct Hc as [-> | ->]; done.
  - fold (closed_names pl). destruct (kind x) eqn:Ek; try (exfalso; apply Hc; by auto); cbn [obind]; apply IH; (done || lia).
Qed.

Definition shift_id (nf : Z) (x : id_info_t) : id_info_t :=
  if negb (bool_decide (kind x = ID_INFO_KIND_FREE)) || is_param x then set_local_num x (wrap 16 (local_num x + nf)) else x.

Lemma shift_loop_ok pre l nf rest :
  shift_loop (length l) (pre ++ l ++ rest) (Z.of_nat (length pre)) nf = Ret (pre ++ (shift_id nf <$> l) ++ rest).
Proof.
  revert pre. induction l as [|x l IH]; intros pre; [done|]. cbn [shift_loop length app fmap list_fmap].
  rewrite rd_middle. cbn [obind].
  assert (Hnext : forall y, shift_loop (length l) (pre ++ y :: l ++ rest) (Z.of_nat (length pre) + 1) nf =
    Ret (pre ++ y :: (shift_id nf <$> l) ++ rest)).
  { intros y. rewrite (cons_middle y pre (l ++ rest)), (app_assoc pre [y]).
    replace (Z.of_nat (length pre) + 1) with (Z.of_nat (length (pre ++ [y]))) by lens.
    rewrite IH. by rewrite <- app_assoc. }
  unfold shift_id at 1. destruct (negb _ || _); [rewrite wr_middle|]; cbn [obind]; apply Hnext.
Qed.

(** ** The star parameter *)

Definition is_star (id : id_info_t) : bool := negb (Z.land (flags id) ID_FLAG_IS_STAR_PARAM =? 0).

Definition not_plain (id : id_info_t) : Prop := flags id <> ID_FLAG_IS_PARAM.

(** What the first loop makes of the names, when the function has [*args] ([varargs]): the last star parameter changes
    places with the last plain parameter, if that one is behind it. *)
Definition star_moved (varargs : bool) (l l' : list id_info_t) : Prop :=
  (l' = l /\ (varargs = true -> forall a x c, l = a ++ x :: c -> is_star x = true ->
     Forall (fun z => is_star z = false) c -> Forall not_plain c)) \/
  exists a x m y b, varargs = true /\ l = a ++ x :: m ++ y :: b /\ l' = a ++ y :: m ++ x :: b /\ is_star x = true /\
    flags y = ID_FLAG_IS_PARAM /\ Forall not_plain b /\ Forall (fun z => is_star z = false) (m ++ y :: b).

(** There is one star parameter at most. *)
Definition one_star (l : list id_info_t) : Prop :=
  forall i j x y, l !! i = Some x -> l !! j = Some y -> is_star x = true -> is_star y = true -> i = j.

Lemma plain_no_star y : flags y = ID_FLAG_IS_PARAM -> is_star y = false.
Proof. intros E. unfold is_star. by rewrite E. Qed.

(** Every plain parameter comes before the star parameter. *)
Lemma star_moved_behind l l' i j x y : star_moved true l l' -> one_star l -> l' !! i = Some x -> l' !! j = Some y ->
  is_star x = true -> flags y = ID_FLAG_IS_PARAM -> (j < i)%nat.
Proof.
  intros Hm Hone Hi Hj Hx Hy. pose proof (plain_no_star y Hy) as Hys.
  destruct (decide (j < i)%nat) as [?|Hge]; [done|exfalso]. assert (Hne : i <> j) by (intros ->; simplify_eq; congruence).
  destruct Hm as [[-> Hm]|(a & z & m & w & b & _ & -> & -> & Hz & Hw & Hb & Hns)].
  - specialize (Hm eq_refl (take i l) x (drop (S i) l)). assert (Forall not_plain (drop (S i) l)) as H.
    { apply Hm; [by rewrite take_drop_middle|done|]. apply Forall_lookup. intros k u Hu. rewrite lookup_drop in Hu.
      destruct (is_star u) eqn:Eu; [|done]. pose proof (Hone i (S i + k)%nat x u Hi Hu Hx Eu). lia. }
    rewrite Forall_lookup in H. apply (H (j - S i)%nat y); [|done]. rewrite lookup_drop. rewrite <- Hj. f_equal. lia.
  - assert (Hoth : forall k u, (a ++ z :: m ++ w :: b) !! k = Some u -> is_star u = true -> k = length a).
    { intros k u Hk Hu. eapply (Hone k (length a) u z Hk); [by apply list_lookup_middle|done|done]. }
    set (pre := a ++ w :: m). assert (El : a ++ w :: m ++ z :: b = pre ++ z :: b) by (unfold pre; by rewrite <- app_assoc).
    rewrite El in Hi, Hj. assert (Hin : i = length pre).
    { destruct (Nat.lt_total i (length pre)) as [H|[H|H]]; [exfalso|done|exfalso].
      - rewrite lookup_app_l in Hi by done. unfold pre in Hi. apply lookup_app_Some in Hi as [Hi|[H1 Hi]].
        + pose proof (lookup_lt_Some _ _ _ Hi). specialize (Hoth i x). rewrite lookup_app_l in Hoth by done. specialize (Hoth Hi Hx). lia.
        + apply list_elem_of_lookup_2 in Hi as Hel. apply elem_of_cons in Hel as [->|Hel]; [by rewrite (plain_no_star w Hw) in Hx|].
          rewrite list.Forall_forall in Hns. rewrite Hns in Hx; [done|]. apply elem_of_app. by left.
      - rewrite lookup_app_r in Hi by lia. destruct (i - length pre)%nat as [|k] eqn:Ek; [lia|]. cbn in Hi.
        apply list_elem_of_lookup_2 in Hi. rewrite list.Forall_forall in Hns. rewrite Hns in Hx; [done|]. apply elem_of_app. right. by right. }
    subst i. rewrite lookup_app_r in Hj by lia. destruct (j - length pre)%nat as [|k] eqn:Ek; [lia|]. cbn in Hj.
    rewrite Forall_lookup in Hb. by apply (Hb k y).
Qed.

Lemma swap_ids_ok (a m b : list id_info_t) (x y : id_info_t) : let ids := a ++ x :: m ++ y :: b in
  (let! temp := rd ids (Z.of_nat (length (a ++ x :: m))) in
   let! ids := wr ids (Z.of_nat (length (a ++ x :: m))) x in wr ids (Z.of_nat (length a)) temp) =
  Ret (a ++ y :: m ++ x :: b).
Proof.
  intros ids. subst ids. replace (a ++ x :: m ++ y :: b) with ((a ++ x :: m) ++ y :: b) by (by rewrite <- app_assoc).
  rewrite rd_middle. cbn [obind]. rewrite wr_middle. cbn [obind]. rewrite <- app_assoc. cbn [app].
  by rewrite wr_middle.
Qed.

Lemma star_loop_found l m y b r : flags y = ID_FLAG_IS_PARAM -> Forall not_plain b ->
  Forall (fun z => is_star z = false) (m ++ y :: b) ->
  exists l', star_loop (length l) (l ++ m ++ y :: b ++ r) (Some (Z.of_nat (length (l ++ m)))) = Ret (l' ++ r) /\
    star_moved true (l ++ m ++ y :: b) l'.
Proof.
  intros Hy Hb. revert m. induction l as [|x l IH] using rev_ind; intros m Hm.
  { exists (m ++ y :: b). cbn. rewrite <- app_assoc. split; [done|]. left. split; [done|]. intros _ a x c E Hx _.
    rewrite E in Hm. apply list.Forall_app in Hm as [_ Hm]. apply list.Forall_cons in Hm as [Hm _]. congruence. }
  rewrite length_app. cbn [length]. rewrite Nat.add_1_r. cbn [star_loop].
  rewrite <- !(app_assoc l [x]). cbn [app]. rewrite rd_middle. cbn [obind].
  fold (is_star x). destruct (is_star x) eqn:Es.
  - rewrite swap_ids_ok. exists (l ++ y :: m ++ x :: b). rewrite <- !app_assoc. cbn [app]. rewrite <- app_assoc.
    split; [done|]. right. by exists l, x, m, y, b.
  - rewrite bool_decide_false by done. cbn [andb]. apply (IH (x :: m)). cbn [app]. by constructor.
Qed.

Lemma star_loop_ok l b r : Forall not_plain b -> Forall (fun z => is_star z = false) b ->
  exists l', star_loop (length l) (l ++ b ++ r) None = Ret (l' ++ r) /\ star_moved true (l ++ b) l'.
Proof.
  revert b. induction l as [|x l IH] using rev_ind; intros b Hb Hs.
  { exists b. split; [done|]. left. split; [done|]. intros _ a x c E _ _. cbn [app] in E. rewrite E in Hb. apply list.Forall_app in Hb as [_ Hb].
    by apply list.Forall_cons in Hb as [_ Hb]. }
  rewrite length_app. cbn [length]. rewrite Nat.add_1_r. cbn [star_loop].
  rewrite <- !app_assoc. cbn [app]. rewrite rd_middle. cbn [obind].
  fold (is_star x). destruct (is_star x) eqn:Es.
  { exists (l ++ x :: b). rewrite <- app_assoc. split; [done|]. left. split; [done|]. intros _ a z c E Hz Hc.
    (* the last star is [x] *)
    destruct (Nat.lt_total (length a) (length l)) as [H|[H|H]].
    - exfalso. assert (c !! (length l - S (length a))%nat = Some x) as Hcx.
      { assert ((a ++ z :: c) !! length l = Some x) as Hlk by (rewrite <- E; by apply list_lookup_middle).
        rewrite lookup_app_r in Hlk by lia. replace (length l - length a)%nat with (S (length l - S (length a))) in Hlk by lia. exact Hlk. }
      apply list_elem_of_lookup_2 in Hcx. rewrite list.Forall_forall in Hc. rewrite Hc in Es; done.
    - apply app_inj_1 in E as [_ E]; [|done]. by injection E as _ <-.
    - exfalso. assert (b !! (length a - S (length l))%nat = Some z) as Hbz.
      { assert ((l ++ x :: b) !! length a = Some z) as Hlk by (rewrite E; by apply list_lookup_middle).
        rewrite lookup_app_r in Hlk by lia. replace (length a - length l)%nat with (S (length a - S (length l))) in Hlk by lia. exact Hlk. }
      apply list_elem_of_lookup_2 in Hbz. rewrite list.Forall_forall in Hs. rewrite Hs in Hz; done. }
  rewrite bool_decide_true by done. cbn [andb]. destruct (Z.eqb_spec (flags x) ID_FLAG_IS_PARAM) as [Ex|Ex].
  - destruct (star_loop_found l [] x b r Ex Hb) as (l' & H & Hm); [by constructor|]. rewrite app_nil_r in H. cbn [app] in *. eauto.
  - apply (IH (x :: b)); by constructor.
Qed.

(** ** All loops together *)

(** The local number that a name gets: free names first, in the order of the parent [qs]; then the locals and
    parameters, then the cells that are no parameters. *)
Definition local_num_of (cls : Z) (k : scope_kind_t) (qs : list Z) (l : list id_info_t) (i : nat) (x : id_info_t) : Z :=
  let nf := num_free qs l in
  if bool_decide (kind x = ID_INFO_KIND_FREE) then rank qs l (qst x)
  else if local_slot cls k x then nf + count (local_slot cls k) (take i l)
  else nf + count (local_slot cls k) l + count cell_slot (take i l).

(** The names that have a slot in the state of the function. *)
Definition has_slot (cls : Z) (k : scope_kind_t) (x : id_info_t) : bool :=
  bool_decide (kind x = ID_INFO_KIND_FREE) || local_slot cls k x || cell_slot x.

Definition parent_names (par : option scope_t) : list Z := match par with Some p => closed_names (ids p) | None => [] end.

Lemma ids_split s : wf_scope s -> exists r, id_info s = ids s ++ r /\ length (ids s) = Z.to_nat (id_info_len s).
Proof.
  intros Hwf. exists (drop (Z.to_nat (id_info_len s)) (id_info s)). split; [|by apply length_ids].
  unfold ids. by rewrite take_drop.
Qed.

Lemma ids_with_ids s l r : Z.of_nat (length l) = id_info_len s -> ids (with_ids s (id_info_alloc s) (id_info_len s) (l ++ r)) = l.
Proof. intros Hl. unfold ids. cbn. rewrite <- Hl, Nat2Z.id. apply take_app_length. Qed.

Lemma count_ext P l l' : P <$> l' = P <$> l -> forall i, count P (take i l') = count P (take i l).
Proof.
  revert l'. induction l as [|x l IH]; intros [|y l'] H [|i]; try done.
  injection H as H1 H. cbn. rewrite H1. f_equal. by apply IH.
Qed.

Lemma has_free_ext q l l' : is_free q <$> l' = is_free q <$> l -> has_free q l' = has_free q l.
Proof.
  revert l'. induction l as [|x l IH]; intros [|y l'] H; try done. injection H as H1 H.
  unfold has_free in *. cbn. rewrite H1. f_equal. by apply IH.
Qed.

Lemma free_counts_ext qs l l' : (forall q, has_free q l' = has_free q l) ->
  num_free qs l' = num_free qs l /\ forall q, rank qs l' q = rank qs l q.
Proof.
  intros H. induction qs as [|q qs [IH1 IH2]]; [done|]. cbn. rewrite H, IH1. split; [done|]. intros q'. by rewrite IH2.
Qed.

Lemma number_fmap {B} (f : id_info_t -> B) P g num l : (forall x n, f (set_local_num x n) = f x) -> (forall x, f (g x) = f x) ->
  f <$> number P g num l = f <$> l.
Proof.
  intros Hf Hg. revert num. induction l as [|x l IH]; intros num; [done|]. cbn. rewrite IH. f_equal.
  destruct (P x); by rewrite ?Hf, Hg.
Qed.

Lemma ge_facts cls k x : qst (globals_explicit cls k x) = qst x /\ flags (globals_explicit cls k x) = flags x /\
  is_free (qst x) (globals_explicit cls k x) = is_free (qst x) x /\ cell_slot (globals_explicit cls k x) = cell_slot x /\
  (kind x <> ID_INFO_KIND_GLOBAL_IMPLICIT -> globals_explicit cls k x = x).
Proof.
  unfold globals_explicit. destruct (negb _); cbn [andb]; [|done]. destruct (SCOPE_IS_FUNC_LIKE k); cbn [andb]; [|done].
  destruct (decide (kind x = ID_INFO_KIND_GLOBAL_IMPLICIT)) as [E|E].
  - rewrite bool_decide_true by done. repeat split; [..|done]; unfold is_free, cell_slot; cbn; by rewrite E.
  - by rewrite bool_decide_false by done.
Qed.

Lemma ge_free cls k q x : is_free q (globals_explicit cls k x) = is_free q x.
Proof.
  unfold globals_explicit. destruct (negb _ && _ && _) eqn:E; [|done].
  rewrite andb_true_iff, bool_decide_eq_true in E. destruct E as [_ E]. unfold is_free. cbn. by rewrite E.
Qed.

(** The names after the first two loops. *)
Section Numbered.
Context (cls : Z) (k : scope_kind_t) (l : list id_info_t).
Let l1 := number (local_slot cls k) (globals_explicit cls k) 0 l.
Let l2 := number cell_slot id (count (local_slot cls k) l) l1.

Lemma numbered_cells i : count cell_slot (take i l1) = count cell_slot (take i l).
Proof. apply count_ext, number_fmap; [done|]. intros x. apply ge_facts. Qed.

Lemma numbered_qst : qst <$> l2 = qst <$> l.
Proof.
  unfold l2, l1. rewrite (number_fmap qst), (number_fmap qst); [done|done| |done|done]. intros x. apply ge_facts.
Qed.

Lemma numbered_free q : is_free q <$> l2 = is_free q <$> l.
Proof.
  unfold l2, l1. rewrite (number_fmap (is_free q)), (number_fmap (is_free q)); [done|done| |done|done]. apply ge_free.
Qed.

Lemma numbered_lookup i x : l !! i = Some x -> exists x2, l2 !! i = Some x2 /\ qst x2 = qst x /\ flags x2 = flags x /\
  kind x2 = kind (globals_explicit cls k x) /\
  (local_slot cls k x = true -> cell_slot x = false -> local_num x2 = count (local_slot cls k) (take i l)) /\
  (cell_slot x = true -> local_num x2 = count (local_slot cls k) l + count cell_slot (take i l)).
Proof.
  intros Hi. destruct (ge_facts cls k x) as (Hq & Hf & _ & Hc & _). unfold l2, l1. rewrite !number_lookup, Hi. cbn.
  fold l1. rewrite numbered_cells.
  assert (cell_slot (if local_slot cls k x then set_local_num (globals_explicit cls k x) (0 + count (local_slot cls k) (take i l))
    else globals_explicit cls k x) = cell_slot x) as -> by (destruct (local_slot cls k x); exact Hc).
  eexists. split; [reflexivity|]. destruct (cell_slot x), (local_slot cls k x); cbn; rewrite ?Hq, ?Hf; repeat split; intros; (done || lia).
Qed.
End Numbered.

Lemma closed_names_NoDup s : wf_scope s -> NoDup (closed_names (ids s)).
Proof.
  intros (_ & _ & _ & _ & H). unfold closed_names. revert H. generalize (ids s). intros l.
  induction l as [|x l IH]; [done|]. rewrite fmap_cons, list.NoDup_cons. intros [Hx Hnd]. rewrite filter_cons.
  destruct (decide _); [|by apply IH]. rewrite fmap_cons, list.NoDup_cons. split; [|by apply IH].
  intros Hin. apply Hx. apply list_elem_of_fmap in Hin as (y & -> & Hy). apply list_elem_of_filter in Hy as [_ Hy].
  apply list_elem_of_fmap. eauto.
Qed.

Lemma star_moved_perm va l l' : star_moved va l l' -> l' ≡ₚ l.
Proof. intros [[-> _] | (a & x & m & y & b & _ & -> & -> & _)]; [done|]. solve_Permutation. Qed.

(** Whether the scope has [*args]. *)
Definition has_varargs (s : scope_t) : bool := negb (Z.land (scope_flags s) MP_SCOPE_FLAG_VARARGS =? 0).

Lemma num_free_le qs l : NoDup qs -> NoDup (qst <$> l) -> num_free qs l + count (fun x => negb (bool_decide (kind x = ID_INFO_KIND_FREE))) l <= Z.of_nat (length l).
Proof.
  intros Hqs. revert qs Hqs. induction l as [|x l IH]; intros qs Hqs Hnd.
  { cbn. assert (num_free qs [] = 0) as ->; [|lia]. clear. induction qs; [done|]. cbn. lia. }
  rewrite fmap_cons, list.NoDup_cons in Hnd. destruct Hnd as [Hx Hnd]. specialize (IH qs Hqs Hnd).
  assert (num_free qs (x :: l) <= num_free qs l + b2z (bool_decide (kind x = ID_INFO_KIND_FREE))) as H.
  { clear IH. induction qs as [|q qs IHq]; cbn [num_free]; [destruct (bool_decide _); cbn; lia|].
    apply list.NoDup_cons in Hqs as [Hq Hqs]. specialize (IHq Hqs).
    unfold has_free in *. cbn [existsb]. unfold is_free at 1. destruct (bool_decide (kind x = _)); cbn [andb orb b2z] in *; [|lia].
    destruct (Z.eqb_spec q (qst x)) as [->|Hne]; cbn [orb b2z]; [|lia].
    assert (num_free qs (x :: l) = num_free qs l) as ->.
    { clear - Hq. induction qs as [|q qs IH]; [done|]. apply not_elem_of_cons in Hq as [Hq Hqs]. cbn [num_free].
      rewrite IH by done. unfold has_free. cbn [existsb]. unfold is_free at 1.
      by rewrite (proj2 (Z.eqb_neq q (qst x))), andb_false_r by done. }
    destruct (existsb _ l); cbn [b2z]; lia. }
  cbn [count length]. destruct (bool_decide _); cbn [negb b2z] in *; lia.
Qed.

Lemma slots_bound cls k l : count (local_slot cls k) l + count cell_slot l <= count (fun x => negb (bool_decide (kind x = ID_INFO_KIND_FREE))) l
  \/ exists x, x ∈ l /\ kind x = ID_INFO_KIND_FREE /\ is_param x = true.
Proof.
  induction l as [|x l [IH|(y & Hy & H)]]; [left; cbn; lia| |right; exists y; split; [by right|done]].
  destruct (decide (kind x = ID_INFO_KIND_FREE /\ is_param x = true)) as [H|H]; [right; exists x; split; [by left|done]|left].
  assert (b2z (local_slot cls k x) + b2z (cell_slot x) <= b2z (negb (bool_decide (kind x = ID_INFO_KIND_FREE)))); [|cbn [count]; lia].
  unfold local_slot, cell_slot. destruct (negb _), (is_param x) eqn:Ep; repeat case_bool_decide; cbn; (lia || congruence || tauto).
Qed.

(** The parents' loop over the numbered names, from the whole arrays. *)
Lemma parent_step par l2 r : match par with Some p => wf_scope p | None => True end -> NoDup (qst <$> l2) -> no_free_param l2 ->
  match par with Some p => id_info_len p < 2 ^ 16 | None => True end ->
  match par with
  | None => Ret (l2 ++ r, 0)
  | Some p => parent_loop (Z.to_nat (id_info_len p)) (id_info p) 0 (length l2) (l2 ++ r) 0
  end = Ret ((number_free (parent_names par) l2 0).1 ++ r, (number_free (parent_names par) l2 0).2).
Proof.
  intros Hwf Hnd Hnp Hb. destruct par as [p|]; [|done]. destruct (ids_split p Hwf) as (rp & -> & Hl). rewrite <- Hl.
  apply (parent_loop_ok [] (ids p)); [done|done|lia|rewrite Hl; pose proof Hwf as (? & _); lia].
Qed.

(** What a name is after all loops but the last, and after the last. *)
Lemma names_ok cls k qs l i x :
  let n1 := count (local_slot cls k) l in
  let l1 := number (local_slot cls k) (globals_explicit cls k) 0 l in
  let l2 := number cell_slot id n1 l1 in
  NoDup qs -> NoDup (qst <$> l) -> no_free_param l -> (forall y, y ∈ l -> kind y = ID_INFO_KIND_FREE -> qst y ∈ qs) ->
  Z.of_nat (length l) < 2 ^ 16 -> l !! i = Some x ->
  exists x3, (number_free qs l2 0).1 !! i = Some x3 /\ qst x3 = qst x /\ flags x3 = flags x /\
    kind x3 = kind (globals_explicit cls k x) /\
    (has_slot cls k x = true -> local_num (shift_id (num_free qs l) x3) = local_num_of cls k qs l i x) /\
    (num_free qs l = 0 -> has_slot cls k x = true -> local_num x3 = local_num_of cls k qs l i x).
Proof.
  intros n1 l1 l2 Hqs Hnd Hnp Hin Hb Hi.
  destruct (numbered_lookup cls k l i x Hi) as (x2 & Hx2 & Hq & Hf & Hk & Hloc & Hcell). fold n1 l1 l2 in Hx2.
  assert (Hfree : forall q, has_free q l2 = has_free q l) by (intros q; apply has_free_ext, numbered_free).
  destruct (free_counts_ext qs l l2 Hfree) as [_ Erank].
  rewrite number_free_lookup, Hx2 by done. cbn [fmap option_fmap option_map]. rewrite Erank, Hq.
  pose proof (num_free_le qs l Hqs Hnd) as Hsum. pose proof (num_free_bound qs l) as Hnf0.
  destruct (slots_bound cls k l) as [Hslots|(y & Hy & Hyk & Hp)]; [|by rewrite (Hnp y Hy Hyk) in Hp].
  pose proof (count_bound (local_slot cls k) l) as Hn1. pose proof (count_bound cell_slot l) as Hn2.
  assert (Hxin : x ∈ l) by (by eapply list_elem_of_lookup_2).
  destruct (decide (kind x = ID_INFO_KIND_FREE)) as [Ek|Ek].
  - assert (kind x2 = ID_INFO_KIND_FREE) as Ek2.
    { rewrite Hk. destruct (ge_facts cls k x) as (_ & _ & _ & _ & ->); congruence. }
    rewrite (bool_decide_true (kind x2 = _)), (bool_decide_true (qst x ∈ qs)) by auto. cbn [andb].
    eexists. split; [reflexivity|]. cbn. do 3 (split; [done|]).
    assert (is_param (set_local_num x2 (0 + rank qs l (qst x))) = false) as Ep.
    { unfold is_param. cbn. rewrite Hf. by apply Hnp. }
    unfold shift_id, local_num_of. rewrite Ep. cbn. rewrite Ek2, !bool_decide_true by done. done.
  - assert (kind x2 <> ID_INFO_KIND_FREE) as Ek2.
    { rewrite Hk. unfold globals_explicit. by destruct (_ && _ && _). }
    rewrite (bool_decide_false (kind x2 = _)) by done. cbn [andb].
    exists x2. do 4 (split; [done|]). unfold shift_id, local_num_of, has_slot.
    rewrite !bool_decide_false by done. cbn [negb orb local_num set_local_num].
    assert (forall P, 0 <= count P (take i l) <= Z.of_nat (length l)) as Hct.
    { intros P. pose proof (count_bound P (take i l)). rewrite length_take in *. lia. }
    destruct (local_slot cls k x) eqn:El; cbn [orb].
    + assert (cell_slot x = false) as Ec.
      { unfold local_slot in El. unfold cell_slot. destruct (is_param x); cbn; [apply andb_false_r|].
        rewrite andb_true_iff, orb_false_r, bool_decide_eq_true in El. destruct El as [_ ->]. done. }
      rewrite (Hloc eq_refl Ec). pose proof (count_take_total _ _ _ _ Hi El).
      pose proof (Hct (local_slot cls k)). split; intros; [rewrite wrap_small; lia|lia].
    + split; [intros Hc|intros Hz Hc]; rewrite (Hcell Hc); pose proof (count_take_total _ _ _ _ Hi Hc); pose proof (Hct cell_slot);
        [rewrite wrap_small; lia|lia].
Qed.

Lemma scope_compute_things_ok cls s par : wf_scope s -> match par with Some p => wf_scope p | None => True end ->
  no_free_param (ids s) -> (forall q, kinds s !! q = Some ID_INFO_KIND_FREE -> q ∈ parent_names par) ->
  id_info_len s < 2 ^ 16 -> match par with Some p => id_info_len p < 2 ^ 16 | None => True end ->
  0 <= num_pos_args s -> num_pos_args s + id_info_len s < 2 ^ 16 ->
  exists s' l, scope_compute_things cls s par = Ret s' /\ star_moved (has_varargs s) (ids s) l /\ length (ids s') = length l /\ wf_scope s' /\
    num_locals s' = num_free (parent_names par) l + count (local_slot cls (s_kind s)) l + count cell_slot l /\
    num_pos_args s' = num_pos_args s + num_free (parent_names par) l /\
    forall i x, l !! i = Some x -> exists x', ids s' !! i = Some x' /\ qst x' = qst x /\ flags x' = flags x /\
      kind x' = kind (globals_explicit cls (s_kind s) x) /\
      (has_slot cls (s_kind s) x = true -> local_num x' = local_num_of cls (s_kind s) (parent_names par) l i x).
Proof.
  intros Hwf Hwfp Hnp Hcl Hb Hbp Hpa Hpb. set (k := s_kind s). set (qs := parent_names par).
  destruct (ids_split s Hwf) as (r & Harr & Hlen). pose proof Hwf as (Hl0 & Hal & Hal2 & Hpos & Hnd).
  (* the star parameter *)
  assert (exists l, (if negb (Z.land (scope_flags s) MP_SCOPE_FLAG_VARARGS =? 0)
    then star_loop (Z.to_nat (id_info_len s)) (id_info s) None else Ret (id_info s)) = Ret (l ++ r) /\ star_moved (has_varargs s) (ids s) l)
    as (l & Estar & Hstar).
  { unfold has_varargs. destruct (negb _); [|exists (ids s); rewrite Harr; split; [done|by left]].
    destruct (star_loop_ok (ids s) [] r) as (l & H & Hm); [constructor..|]. rewrite app_nil_r in Hm. exists l.
    rewrite Harr, <- Hlen. done. }
  pose proof (star_moved_perm _ _ _ Hstar) as Hperm.
  assert (Hlenl : length l = length (ids s)) by (by apply Permutation_length).
  assert (Hndl : NoDup (qst <$> l)) by (by rewrite Hperm).
  assert (Hnpl : no_free_param l) by (intros x Hx; apply Hnp; by rewrite <- Hperm).
  (* the loops *)
  set (n1 := count (local_slot cls k) l). set (l1 := number (local_slot cls k) (globals_explicit cls k) 0 l).
  set (l2 := number cell_slot id n1 l1).
  assert (Hqs : NoDup qs). { unfold qs. destruct par as [p|]; [by apply closed_names_NoDup|constructor]. }
  assert (Hfree : forall q, has_free q l2 = has_free q l) by (intros q; apply has_free_ext, numbered_free).
  destruct (free_counts_ext qs l l2 Hfree) as [Enf Erank].
  pose proof (num_free_le qs l Hqs Hndl) as Hsum. pose proof (num_free_bound qs l) as Hnf0.
  destruct (slots_bound cls k l) as [Hslots|(x & Hx & Hk & Hp)]; [|by rewrite (Hnpl x Hx Hk) in Hp].
  pose proof (count_bound (local_slot cls k) l) as Hn1. pose proof (count_bound cell_slot l) as Hn2. fold n1 in Hn1, Hslots.
  assert (Ec2 : count cell_slot l1 = count cell_slot l).
  { pose proof (numbered_cells cls k l (length l)) as H. fold l1 in H. rewrite !take_ge in H; [done|done|by unfold l1; rewrite length_number]. }
  assert (Hl1 : length l1 = length l) by apply length_number.
  assert (Hl2 : length l2 = length l) by (unfold l2; by rewrite length_number).
  assert (Hnd2 : NoDup (qst <$> l2)) by (unfold l2, l1, n1; by rewrite numbered_qst).
  assert (Hnp2 : no_free_param l2).
  { intros y Hy Hyk. apply list_elem_of_lookup in Hy as [i Hi].
    destruct (lookup_lt_is_Some_2 l i) as [x Hx]; [rewrite <- Hl2; by eapply lookup_lt_Some|].
    destruct (numbered_lookup cls k l i x Hx) as (y' & Hy' & _ & Hf & Hk & _). fold l1 n1 l2 in Hy'. simplify_eq.
    unfold is_param. rewrite Hf. apply (Hnpl x); [by eapply list_elem_of_lookup_2|]. rewrite Hyk in Hk.
    destruct (ge_facts cls k x) as (_ & _ & Hfr & _). unfold is_free in Hfr. rewrite <- Hk in Hfr.
    rewrite !Z.eqb_refl, (proj1 (ge_facts cls k x)), Z.eqb_refl in Hfr. symmetry in Hfr. rewrite andb_true_r in Hfr.
    by apply bool_decide_eq_true in Hfr. }
  unfold scope_compute_things. rewrite Estar. cbn [obind]. rewrite <- Hlen, <- Hlenl.
  pose proof (locals_loop_ok cls k [] l 0 r ltac:(lia) ltac:(lia)) as E1. cbn [app length] in E1. change (Z.of_nat 0) with 0 in E1. fold k. rewrite E1. clear E1. cbn [obind].
  fold l1. pose proof (cells_loop_ok [] l1 n1 r ltac:(rewrite Ec2; lia) ltac:(lia)) as E1. cbn [app length] in E1. change (Z.of_nat 0) with 0 in E1. rewrite Hl1 in E1.
  rewrite Z.add_0_l. fold n1. rewrite E1. clear E1. cbn [obind]. fold l2. rewrite Ec2.
  pose proof (parent_step par l2 r Hwfp Hnd2 Hnp2 Hbp) as E2. fold qs in E2. rewrite Hl2 in E2.
  set (l3 := (number_free qs l2 0).1) in *.
  assert (Hnum : (number_free qs l2 0).2 = num_free qs l) by (rewrite number_free_total, Enf; lia). rewrite Hnum in E2.
  pose proof (number_free_same qs l2 0) as Hs3. fold l3 in Hs3.
  assert (Hl3 : length l3 = length l) by (rewrite <- Hl2; by apply same_names_length).
  assert (Hnames : forall i x, l !! i = Some x -> exists x3, l3 !! i = Some x3 /\ qst x3 = qst x /\ flags x3 = flags x /\
    kind x3 = kind (globals_explicit cls k x) /\
    (has_slot cls k x = true -> local_num (shift_id (num_free qs l) x3) = local_num_of cls k qs l i x) /\
    (num_free qs l = 0 -> has_slot cls k x = true -> local_num x3 = local_num_of cls k qs l i x)).
  { intros i x Hi. apply (names_ok cls k qs l i x); [done..| |lia|done].
    intros y Hy Hyk. rewrite Hperm in Hy. apply Hcl. apply list_elem_of_lookup in Hy as [j Hj].
    apply kinds_Some; [done|]. eauto. }
  assert (Hq3 : qst <$> l3 = qst <$> l).
  { rewrite (same_names_qst _ _ Hs3). apply numbered_qst. }
  assert (Hfin : forall s' lf, id_info s' = lf ++ r -> id_info_len s' = id_info_len s -> id_info_alloc s' = id_info_alloc s ->
    qst <$> lf = qst <$> l -> ids s' = lf /\ length (ids s') = length l /\ wf_scope s').
  { intros s' lf E E' E'' Eq. assert (length lf = length l) as Elen by (by rewrite <- (length_fmap qst), Eq, length_fmap).
    assert (ids s' = lf) as Ei by (unfold ids; rewrite E, E', <- Hlen, <- Hlenl, <- Elen; apply take_app_length).
    rewrite Ei. split; [done|]. split; [done|]. unfold wf_scope. rewrite Ei, Eq, E', E'', E, length_app.
    rewrite Harr, length_app in Hal. repeat split; (done || lia). }
  assert (Hzero : forall s', num_free qs l = 0 -> id_info s' = l3 ++ r -> id_info_len s' = id_info_len s ->
    id_info_alloc s' = id_info_alloc s -> num_locals s' = n1 + count cell_slot l -> num_pos_args s' = num_pos_args s ->
    exists s0 l', Ret s' = Ret s0 /\ star_moved (has_varargs s) (ids s) l' /\ length (ids s0) = length l' /\ wf_scope s0 /\
      num_locals s0 = num_free qs l' + count (local_slot cls k) l' + count cell_slot l' /\
      num_pos_args s0 = num_pos_args s + num_free qs l' /\
      forall i x, l' !! i = Some x -> exists x', ids s0 !! i = Some x' /\ qst x' = qst x /\ flags x' = flags x /\
        kind x' = kind (globals_explicit cls k x) /\
        (has_slot cls k x = true -> local_num x' = local_num_of cls k qs l' i x)).
  { intros s' Hz E1 E2' E3 E4 E5. exists s', l. split; [done|]. split; [done|].
    destruct (Hfin s' l3 E1 E2' E3 Hq3) as (-> & -> & Hw). do 2 (split; [done|]). rewrite E4, E5, Hz.
    split; [unfold n1; lia|]. split; [lia|]. intros i x Hi. destruct (Hnames i x Hi) as (x3 & Hx3 & ? & ? & ? & _ & Hn).
    exists x3. do 4 (split; [done|]). by apply Hn. }
  destruct par as [p|].
  2: { apply Hzero; done. }
  rewrite E2. cbn [obind]. destruct (Z.ltb_spec 0 (num_free qs l)) as [Hpos'|Hz].
  2: { apply Hzero; [lia|done..]. }
  pose proof (shift_loop_ok [] l3 (num_free qs l) r) as E1. cbn [app length] in E1.
  change (Z.of_nat 0) with 0 in E1. rewrite Hl3 in E1. rewrite E1. cbn [obind].
  cbn [num_pos_args num_locals with_locals with_ids]. rewrite !wrap_small by lia. eexists _, l. split; [reflexivity|].
  split; [done|].
  assert (Hq4 : qst <$> (shift_id (num_free qs l) <$> l3) = qst <$> l).
  { rewrite <- Hq3, <- list_fmap_compose. apply list_fmap_ext. intros i x _. unfold shift_id. cbn. by destruct (_ || _). }
  match goal with |- context [ids ?s1] => destruct (Hfin s1 (shift_id (num_free qs l) <$> l3)) as (-> & -> & Hw) end; [done..|].
  do 2 (split; [done|]). cbn. split; [lia|]. split; [done|].
  intros i x Hi. destruct (Hnames i x Hi) as (x3 & Hx3 & Hq & Hf & Hk & Hn & _). exists (shift_id (num_free qs l) x3).
  rewrite list_lookup_fmap, Hx3. split; [done|]. split; [|split; [|split; [|done]]]; unfold shift_id; by destruct (_ || _).
Qed.

Lemma has_free_in l x : x ∈ l -> kind x = ID_INFO_KIND_FREE -> has_free (qst x) l = true.
Proof.
  intros Hx Hk. unfold has_free. apply existsb_exists. exists x. split; [by apply list_elem_of_In|].
  unfold is_free. by rewrite bool_decide_true, Z.eqb_refl.
Qed.

Lemma count_order P l i j x : l !! i = Some x -> P x = true -> i <> j -> count P (take i l) = count P (take j l) ->
  (exists y, l !! j = Some y /\ P y = true) -> False.
Proof.
  intros Hx HP Hij E (y & Hy & HPy). destruct (Nat.lt_total i j) as [H|[H|H]]; [|done|].
  - pose proof (count_take_lt P l i j x Hx HP H). lia.
  - pose proof (count_take_lt P l j i y Hy HPy H). lia.
Qed.

(** The numbers are different and below the number of locals. *)
Lemma local_num_of_range cls k qs l i x : (forall y, y ∈ l -> kind y = ID_INFO_KIND_FREE -> qst y ∈ qs) ->
  l !! i = Some x -> has_slot cls k x = true ->
  0 <= local_num_of cls k qs l i x < num_free qs l + count (local_slot cls k) l + count cell_slot l.
Proof.
  intros Hin Hi Hs. assert (Hx : x ∈ l) by (by eapply list_elem_of_lookup_2).
  pose proof (num_free_bound qs l). pose proof (count_bound (local_slot cls k) l). pose proof (count_bound cell_slot l).
  pose proof (count_bound (local_slot cls k) (take i l)). pose proof (count_bound cell_slot (take i l)).
  unfold local_num_of, has_slot in *. destruct (decide (kind x = ID_INFO_KIND_FREE)) as [Ek|Ek].
  - rewrite bool_decide_true by done. destruct (free_rank_bound qs l (qst x)) as [? Hr].
    specialize (Hr (has_free_in _ _ Hx Ek) (Hin x Hx Ek)). lia.
  - rewrite bool_decide_false in * by done. cbn [orb] in Hs. destruct (local_slot cls k x) eqn:El; cbn [orb] in Hs.
    + pose proof (count_take_total _ _ _ _ Hi El). lia.
    + pose proof (count_take_total _ _ _ _ Hi Hs). lia.
Qed.

Lemma local_num_of_inj cls k qs l i j x y : NoDup (qst <$> l) -> (forall y, y ∈ l -> kind y = ID_INFO_KIND_FREE -> qst y ∈ qs) ->
  l !! i = Some x -> l !! j = Some y -> has_slot cls k x = true -> has_slot cls k y = true -> i <> j ->
  local_num_of cls k qs l i x <> local_num_of cls k qs l j y.
Proof.
  intros Hnd Hin Hi Hj Hsx Hsy Hij E.
  assert (Hx : x ∈ l) by (by eapply list_elem_of_lookup_2). assert (Hy : y ∈ l) by (by eapply list_elem_of_lookup_2).
  pose proof (count_bound (local_slot cls k) (take i l)). pose proof (count_bound cell_slot (take i l)).
  pose proof (count_bound (local_slot cls k) (take j l)). pose proof (count_bound cell_slot (take j l)).
  unfold local_num_of, has_slot in *.
  destruct (free_rank_bound qs l (qst x)) as [? Hrx], (free_rank_bound qs l (qst y)) as [? Hry].
  destruct (decide (kind x = ID_INFO_KIND_FREE)) as [Ek|Ek], (decide (kind y = ID_INFO_KIND_FREE)) as [Ek'|Ek'];
    rewrite ?(bool_decide_true (kind x = _)), ?(bool_decide_true (kind y = _)), ?(bool_decide_false (kind x = _)),
      ?(bool_decide_false (kind y = _)) in * by done; cbn [orb] in *.
  - apply rank_inj in E; [|by apply has_free_in..|by apply Hin|by apply Hin].
    apply Hij. eapply (NoDup_lookup (qst <$> l)); [done|by rewrite list_lookup_fmap, Hi|by rewrite list_lookup_fmap, Hj, E].
  - specialize (Hrx (has_free_in _ _ Hx Ek) (Hin x Hx Ek)). destruct (local_slot cls k y) eqn:El.
    + pose proof (count_bound (local_slot cls k) l). lia.
    + pose proof (count_bound (local_slot cls k) l). lia.
  - specialize (Hry (has_free_in _ _ Hy Ek') (Hin y Hy Ek')). destruct (local_slot cls k x) eqn:El.
    + pose proof (count_bound (local_slot cls k) l). lia.
    + pose proof (count_bound (local_slot cls k) l). lia.
  - destruct (local_slot cls k x) eqn:Ex, (local_slot cls k y) eqn:Ey; cbn [orb] in *.
    + apply (count_order _ _ i j x Hi Ex Hij); [lia|eauto].
    + pose proof (count_take_total _ _ _ _ Hi Ex). lia.
    + pose proof (count_take_total _ _ _ _ Hj Ey). lia.
    + apply (count_order _ _ i j x Hi Hsx Hij); [lia|eauto].
Qed.

Lemma count_prefix P l i : (forall j, (j < i)%nat -> exists y, l !! j = Some y /\ P y = true) -> count P (take i l) = Z.of_nat i.
Proof.
  induction i as [|i IH]; intros H; [done|]. destruct (H i ltac:(lia)) as (y & Hy & HP).
  rewrite (take_S_r _ _ _ Hy), count_app, IH by (intros; apply H; lia). cbn. rewrite HP. cbn. lia.
Qed.

(** C14. [scope_compute_things] gives every variable of a scope, whether local, parameter, cell or free, a number of its own below
    the number of locals.  The free variables come first, in the order in which the enclosing function has its cells and
    free names, which is the order in which it passes them when it makes the closure; the parameters follow in their order,
    except that [*args] has changed places with the last plain parameter if that one is behind it (a keyword-only
    parameter), so that no plain parameter is behind [*args].  No [assert] fails. *)
Theorem scope_compute_things_spec cls s par : wf_scope s -> match par with Some p => wf_scope p | None => True end ->
  no_free_param (ids s) -> (forall q, kinds s !! q = Some ID_INFO_KIND_FREE -> q ∈ parent_names par) ->
  id_info_len s < 2 ^ 16 -> match par with Some p => id_info_len p < 2 ^ 16 | None => True end ->
  0 <= num_pos_args s -> num_pos_args s + id_info_len s < 2 ^ 16 ->
  let slot x := has_slot cls (s_kind s) x = true in
  exists s' l nums, scope_compute_things cls s par = Ret s' /\ star_moved (has_varargs s) (ids s) l /\
    local_num <$> ids s' = nums /\ qst <$> ids s' = qst <$> l /\ flags <$> ids s' = flags <$> l /\
    (forall i x, l !! i = Some x -> slot x -> exists n, nums !! i = Some n /\ 0 <= n < num_locals s') /\
    (forall i j x y, l !! i = Some x -> l !! j = Some y -> slot x -> slot y -> i <> j -> nums !! i <> nums !! j) /\
    (forall i x, l !! i = Some x -> kind x = ID_INFO_KIND_FREE -> nums !! i = Some (rank (parent_names par) l (qst x))) /\
    (forall i, (forall j, (j <= i)%nat -> exists y, l !! j = Some y /\ local_slot cls (s_kind s) y = true) ->
       nums !! i = Some (num_free (parent_names par) l + Z.of_nat i)) /\
    (has_varargs s = true -> one_star (ids s) -> forall i j x y, l !! i = Some x -> l !! j = Some y ->
       is_star x = true -> flags y = ID_FLAG_IS_PARAM -> (j < i)%nat).
Proof.
  intros Hwf Hwfp Hnp Hcl Hb Hbp Hpa Hpb slot.
  destruct (scope_compute_things_ok cls s par) as (s' & l & H & Hm & Hl & _ & Hn & _ & Hall); [done..|].
  pose proof (star_moved_perm _ _ _ Hm) as Hperm. pose proof Hwf as (_ & _ & _ & _ & Hnd).
  assert (Hnd' : NoDup (qst <$> l)) by (by rewrite Hperm).
  assert (Hin : forall y, y ∈ l -> kind y = ID_INFO_KIND_FREE -> qst y ∈ parent_names par).
  { intros y Hy Hyk. rewrite Hperm in Hy. apply Hcl. apply list_elem_of_lookup in Hy as [j Hj]. apply kinds_Some; eauto. }
  exists s', l, (local_num <$> ids s'). split; [done|]. split; [done|]. split; [done|].
  assert (Hmap : forall B (f : id_info_t -> B), (forall i x x', l !! i = Some x -> ids s' !! i = Some x' -> f x' = f x) -> f <$> ids s' = f <$> l).
  { intros B f Hf. apply list_eq_same_length with (length l); rewrite ?length_fmap; [done|done|].
    intros i u v _ Hu Hv. rewrite list_lookup_fmap in Hu, Hv. apply fmap_Some in Hu as (x' & Hx' & ->), Hv as (x & Hx & ->).
    by apply (Hf i). }
  assert (Hnum : forall i x, l !! i = Some x -> slot x -> (local_num <$> ids s') !! i = Some (local_num_of cls (s_kind s) (parent_names par) l i x)).
  { intros i x Hi Hs. destruct (Hall i x Hi) as (x' & Hx' & _ & _ & _ & E). rewrite list_lookup_fmap, Hx'. cbn. by rewrite (E Hs). }
  split; [|split; [|split; [|split; [|split; [|split]]]]].
  - apply Hmap. intros i x x' Hi Hi'. destruct (Hall i x Hi) as (x2 & Hx2 & E & _). by simplify_eq.
  - apply Hmap. intros i x x' Hi Hi'. destruct (Hall i x Hi) as (x2 & Hx2 & _ & E & _). by simplify_eq.
  - intros i x Hi Hs. rewrite (Hnum i x Hi Hs). eexists. split; [done|]. rewrite Hn. by apply local_num_of_range.
  - intros i j x y Hi Hj Hsx Hsy Hij. rewrite (Hnum i x), (Hnum j y) by done. intros [= E]. by eapply local_num_of_inj in E.
  - intros i x Hi Hk. rewrite (Hnum i x Hi). 2: { unfold slot, has_slot. by rewrite bool_decide_true. }
    unfold local_num_of. by rewrite bool_decide_true.
  - intros i Hpre. destruct (Hpre i ltac:(lia)) as (x & Hi & Hx). rewrite (Hnum i x Hi).
    2: { unfold slot, has_slot. rewrite Hx. by destruct (bool_decide _). }
    unfold local_num_of. rewrite bool_decide_false, Hx, count_prefix; [done| |].
    + intros j Hj. apply Hpre. lia.
    + intros Hk. pose proof (Hnp x) as Hp. rewrite <- Hperm in Hp. specialize (Hp ltac:(by eapply list_elem_of_lookup_2) Hk).
      unfold local_slot in Hx. by rewrite Hk, Hp, andb_false_r in Hx.
  - intros Hv Hone i j x y Hi Hj Hsx Hsy. rewrite Hv in Hm. by eapply star_moved_behind.
Qed.

(** [def f(a): def g(x, *rest, k): ... a ...]: the free [a] is local 0 of [g], then [x], [k] and [rest]. *)
Definition demo_id (k : id_info_kind_t) (fl q : Z) : id_info_t := {| kind := k; flags := fl; local_num := 0; qst := q |}.
Definition demo_scope (k : scope_kind_t) (par : option Z) (fl npos : Z) (l : list id_info_t) : scope_t :=
  {| s_kind := k; parent := par; raw_code := 0; simple_name := 0; scope_flags := fl; num_pos_args := npos; num_kwonly_args := 0;
     num_def_pos_args := 0; num_locals := 0; stack_size := 0; exc_stack_size := 0; id_info_alloc := Z.of_nat (length l);
     id_info_len := Z.of_nat (length l); id_info := l |}.

Definition demo_f : scope_t := demo_scope SCOPE_FUNCTION (Some 0) 0 1 [demo_id ID_INFO_KIND_CELL 1 100; demo_id ID_INFO_KIND_LOCAL 0 101].
Definition demo_g : scope_t := demo_scope SCOPE_FUNCTION (Some 1) 4 1
  [demo_id ID_INFO_KIND_LOCAL 1 102; demo_id ID_INFO_KIND_LOCAL 3 103; demo_id ID_INFO_KIND_LOCAL 1 104; demo_id ID_INFO_KIND_FREE 0 100].

Lemma scope_compute_things_spec_witness :
  exists s', scope_compute_things 7 demo_g (Some demo_f) = Ret s' /\ num_locals s' = 4 /\ local_num <$> ids s' = [1; 2; 3; 0] /\
    qst <$> ids s' = [102; 104; 103; 100].
Proof.
  destruct (scope_compute_things_spec 7 demo_g (Some demo_f)) as (s' & l & nums & H & _).
  - by apply demo_wf0.
  - by apply demo_wf0.
  - intros x Hx Hk. repeat (apply elem_of_cons in Hx as [->|Hx]; [done|]). by apply not_elem_of_nil in Hx.
  - intros q Hq. apply kinds_Some in Hq as (i & id & Hi & <- & Hk); [|by apply demo_wf0].
    do 4 (destruct i as [|i]; [injection Hi as <-; try discriminate Hk|]); [apply list_elem_of_here|]. done.
  - done.
  - done.
  - done.
  - done.
  - exists s'. split; [exact H|]. vm_compute in H. injection H as <-. split; [reflexivity|]. split; reflexivity.
Defined.
