(* ===== verification/EmitBc.v ===== *)
(** * The bytecode emitter ([py/emitbc.c], [py/emit.h], [py/emitcommon.c])

    The compiler calls the methods of the emitter in the same order in four passes: the first finds the names, the
    second the depth of the stack, the third the size of the code and the offsets of the labels, the fourth writes the
    code.  The methods have the same bodies in all passes: before the last one they write to a small buffer in the
    emitter, and count.  This file has the state of the emitter, every method, and the interface of the compiler's
    constants ([mp_emit_common_t]). *)

From S2P Require Import Prelude Malloc SmallInt Token Bytecode Scope.
Local Open Scope Z_scope.

(** ** Constants *)

Inductive pass_kind_t := MP_PASS_SCOPE | MP_PASS_STACK_SIZE | MP_PASS_CODE_SIZE | MP_PASS_EMIT.

#[export] Instance pass_kind_eq_dec : EqDecision pass_kind_t.
Proof. solve_decision. Defined.

Definition pass_code (p : pass_kind_t) : Z :=
  match p with MP_PASS_SCOPE => 1 | MP_PASS_STACK_SIZE => 2 | MP_PASS_CODE_SIZE => 3 | MP_PASS_EMIT => 4 end.

Definition MP_EMIT_BREAK_FROM_FOR : Z := 0x8000.
Definition MP_EMIT_IDOP_LOCAL_FAST : Z := 0.
Definition MP_EMIT_IDOP_LOCAL_DEREF : Z := 1.
Definition MP_EMIT_IDOP_GLOBAL_NAME : Z := 0.
Definition MP_EMIT_IDOP_GLOBAL_GLOBAL : Z := 1.
Definition MP_EMIT_IMPORT_NAME : Z := 0.
Definition MP_EMIT_IMPORT_FROM : Z := 1.
Definition MP_EMIT_IMPORT_STAR : Z := 2.
Definition MP_EMIT_SUBSCR_LOAD : Z := 0.
Definition MP_EMIT_SUBSCR_STORE : Z := 1.
Definition MP_EMIT_SUBSCR_DELETE : Z := 2.
Definition MP_EMIT_ATTR_LOAD : Z := 0.
Definition MP_EMIT_ATTR_STORE : Z := 1.
Definition MP_EMIT_ATTR_DELETE : Z := 2.
Definition MP_EMIT_SETUP_BLOCK_WITH : Z := 0.
Definition MP_EMIT_SETUP_BLOCK_EXCEPT : Z := 1.
Definition MP_EMIT_SETUP_BLOCK_FINALLY : Z := 2.
Definition MP_EMIT_BUILD_TUPLE : Z := 0.
Definition MP_EMIT_BUILD_LIST : Z := 1.
Definition MP_EMIT_BUILD_MAP : Z := 2.
Definition MP_EMIT_BUILD_SET : Z := 3.
Definition MP_EMIT_BUILD_SLICE : Z := 4.
Definition MP_EMIT_YIELD_VALUE : Z := 0.
Definition MP_EMIT_YIELD_FROM : Z := 1.
Definition MP_OBJ_ITER_BUF_NSLOTS : Z := 4.
Definition MP_SCOPE_FLAG_GENERATOR : Z := 0x01.
Definition MP_UNARY_OP_NOT : Z := 3.
Definition MP_BINARY_OP_IN : Z := 6.
Definition MP_BINARY_OP_IS : Z := 7.
Definition MP_BINARY_OP_NOT_IN : Z := 50.
Definition MP_BINARY_OP_IS_NOT : Z := 51.

(** ** The constants of a module *)

(** [const_table] holds the constant objects and [children] the code objects of the functions inside. *)
Record mp_emit_common_t := {
  ec_pass : pass_kind_t;
  ct_cur_obj_base : Z;
  ct_cur_obj : Z;
  ct_cur_child : Z;
  const_table : list Z;
  children : list Z
}.

(** A build without a table of strings: the number itself, in 16 bits. *)
Definition mp_emit_common_use_qstr (qst : Z) : Z := wrap 16 qst.

Definition mp_emit_common_alloc_const_obj (c : mp_emit_common_t) (obj : Z) : outcome (mp_emit_common_t * Z) :=
  let! table := if bool_decide (ec_pass c = MP_PASS_EMIT) then wr (const_table c) (ct_cur_obj c) obj else Ret (const_table c) in
  Ret ({| ec_pass := ec_pass c; ct_cur_obj_base := ct_cur_obj_base c; ct_cur_obj := wrap 16 (ct_cur_obj c + 1);
          ct_cur_child := ct_cur_child c; const_table := table; children := children c |}, ct_cur_obj c).

Definition mp_emit_common_alloc_const_child (c : mp_emit_common_t) (rc : Z) : outcome (mp_emit_common_t * Z) :=
  let! table := if bool_decide (ec_pass c = MP_PASS_EMIT) then wr (children c) (ct_cur_child c) rc else Ret (children c) in
  Ret ({| ec_pass := ec_pass c; ct_cur_obj_base := ct_cur_obj_base c; ct_cur_obj := ct_cur_obj c;
          ct_cur_child := wrap 16 (ct_cur_child c + 1); const_table := const_table c; children := table |}, ct_cur_child c).

Section Common.
Context {allocator : Allocator Z}.

(** [m_new0]: new memory, cleared. *)
Definition m_new0 (sz num : Z) : outcome (list Z) :=
  let! m := m_new sz num in Ret (replicate (length m) 0).

Definition mp_emit_common_start_pass (c : mp_emit_common_t) (pass : pass_kind_t) : outcome mp_emit_common_t :=
  let base := if bool_decide (pass = MP_PASS_STACK_SIZE) then ct_cur_obj c else ct_cur_obj_base c in
  let obj := if pass_code MP_PASS_STACK_SIZE <? pass_code pass then ct_cur_obj_base c else ct_cur_obj c in
  let! ch :=
    if bool_decide (pass = MP_PASS_EMIT) then
      if ct_cur_child c =? 0 then Ret [] else m_new0 4 (ct_cur_child c)
    else Ret (children c) in
  Ret {| ec_pass := pass; ct_cur_obj_base := base; ct_cur_obj := obj; ct_cur_child := 0; const_table := const_table c;
         children := ch |}.

(** Without native code. *)
Definition mp_emit_common_finalise (c : mp_emit_common_t) : outcome mp_emit_common_t :=
  let! table := m_new0 4 (ct_cur_obj c) in
  Ret {| ec_pass := ec_pass c; ct_cur_obj_base := ct_cur_obj_base c; ct_cur_obj := 0; ct_cur_child := ct_cur_child c;
         const_table := table; children := children c |}.
End Common.

(** ** The state of the emitter *)

Definition DUMMY_DATA_SIZE : Z := MP_ENCODE_UINT_MAX_BYTES.

(** [label_offsets] is [None] before [emit_bc_set_max_num_labels]. *)
Record emit_t := {
  dummy_data : list Z;
  e_pass : pass_kind_t;
  last_emit_was_return_value : bool;
  e_stack_size : Z;
  emit_common : mp_emit_common_t;
  e_scope : scope_t;
  last_source_line_offset : Z;
  last_source_line : Z;
  max_num_labels : Z;
  label_offsets : option (list Z);
  code_info_offset : Z;
  code_info_size : Z;
  bytecode_offset : Z;
  bytecode_size : Z;
  code_base : list Z;
  n_info : Z;
  n_cell : Z
}.

Definition with_dummy (e : emit_t) (d : list Z) : emit_t :=
  {| dummy_data := d; e_pass := e_pass e; last_emit_was_return_value := last_emit_was_return_value e;
     e_stack_size := e_stack_size e; emit_common := emit_common e; e_scope := e_scope e; last_source_line_offset
     := last_source_line_offset e; last_source_line := last_source_line e; max_num_labels := max_num_labels e;
     label_offsets := label_offsets e; code_info_offset := code_info_offset e; code_info_size := code_info_size
     e; bytecode_offset := bytecode_offset e; bytecode_size := bytecode_size e; code_base := code_base e; n_info
     := n_info e; n_cell := n_cell e |}.
Definition with_stack (e : emit_t) (n : Z) (s : scope_t) : emit_t :=
  {| dummy_data := dummy_data e; e_pass := e_pass e; last_emit_was_return_value := false; e_stack_size := n;
     emit_common := emit_common e; e_scope := s; last_source_line_offset := last_source_line_offset e;
     last_source_line := last_source_line e; max_num_labels := max_num_labels e; label_offsets := label_offsets
     e; code_info_offset := code_info_offset e; code_info_size := code_info_size e; bytecode_offset :=
     bytecode_offset e; bytecode_size := bytecode_size e; code_base := code_base e; n_info := n_info e; n_cell
     := n_cell e |}.
Definition with_return (e : emit_t) (b : bool) : emit_t :=
  {| dummy_data := dummy_data e; e_pass := e_pass e; last_emit_was_return_value := b; e_stack_size :=
     e_stack_size e; emit_common := emit_common e; e_scope := e_scope e; last_source_line_offset :=
     last_source_line_offset e; last_source_line := last_source_line e; max_num_labels := max_num_labels e;
     label_offsets := label_offsets e; code_info_offset := code_info_offset e; code_info_size := code_info_size
     e; bytecode_offset := bytecode_offset e; bytecode_size := bytecode_size e; code_base := code_base e; n_info
     := n_info e; n_cell := n_cell e |}.
Definition with_common (e : emit_t) (c : mp_emit_common_t) : emit_t :=
  {| dummy_data := dummy_data e; e_pass := e_pass e; last_emit_was_return_value := last_emit_was_return_value e;
     e_stack_size := e_stack_size e; emit_common := c; e_scope := e_scope e; last_source_line_offset :=
     last_source_line_offset e; last_source_line := last_source_line e; max_num_labels := max_num_labels e;
     label_offsets := label_offsets e; code_info_offset := code_info_offset e; code_info_size := code_info_size
     e; bytecode_offset := bytecode_offset e; bytecode_size := bytecode_size e; code_base := code_base e; n_info
     := n_info e; n_cell := n_cell e |}.
Definition with_scope (e : emit_t) (s : scope_t) : emit_t :=
  {| dummy_data := dummy_data e; e_pass := e_pass e; last_emit_was_return_value := last_emit_was_return_value e;
     e_stack_size := e_stack_size e; emit_common := emit_common e; e_scope := s; last_source_line_offset :=
     last_source_line_offset e; last_source_line := last_source_line e; max_num_labels := max_num_labels e;
     label_offsets := label_offsets e; code_info_offset := code_info_offset e; code_info_size := code_info_size
     e; bytecode_offset := bytecode_offset e; bytecode_size := bytecode_size e; code_base := code_base e; n_info
     := n_info e; n_cell := n_cell e |}.
Definition with_labels (e : emit_t) (l : option (list Z)) : emit_t :=
  {| dummy_data := dummy_data e; e_pass := e_pass e; last_emit_was_return_value := last_emit_was_return_value e;
     e_stack_size := e_stack_size e; emit_common := emit_common e; e_scope := e_scope e; last_source_line_offset
     := last_source_line_offset e; last_source_line := last_source_line e; max_num_labels := max_num_labels e;
     label_offsets := l; code_info_offset := code_info_offset e; code_info_size := code_info_size e;
     bytecode_offset := bytecode_offset e; bytecode_size := bytecode_size e; code_base := code_base e; n_info :=
     n_info e; n_cell := n_cell e |}.
Definition with_max_labels (e : emit_t) (n : Z) (l : option (list Z)) : emit_t :=
  {| dummy_data := dummy_data e; e_pass := e_pass e; last_emit_was_return_value := last_emit_was_return_value e;
     e_stack_size := e_stack_size e; emit_common := emit_common e; e_scope := e_scope e; last_source_line_offset
     := last_source_line_offset e; last_source_line := last_source_line e; max_num_labels := n; label_offsets :=
     l; code_info_offset := code_info_offset e; code_info_size := code_info_size e; bytecode_offset :=
     bytecode_offset e; bytecode_size := bytecode_size e; code_base := code_base e; n_info := n_info e; n_cell
     := n_cell e |}.
Definition with_code_info_offset (e : emit_t) (n : Z) : emit_t :=
  {| dummy_data := dummy_data e; e_pass := e_pass e; last_emit_was_return_value := last_emit_was_return_value e;
     e_stack_size := e_stack_size e; emit_common := emit_common e; e_scope := e_scope e; last_source_line_offset
     := last_source_line_offset e; last_source_line := last_source_line e; max_num_labels := max_num_labels e;
     label_offsets := label_offsets e; code_info_offset := n; code_info_size := code_info_size e;
     bytecode_offset := bytecode_offset e; bytecode_size := bytecode_size e; code_base := code_base e; n_info :=
     n_info e; n_cell := n_cell e |}.
Definition with_bytecode_offset (e : emit_t) (n : Z) : emit_t :=
  {| dummy_data := dummy_data e; e_pass := e_pass e; last_emit_was_return_value := last_emit_was_return_value e;
     e_stack_size := e_stack_size e; emit_common := emit_common e; e_scope := e_scope e; last_source_line_offset
     := last_source_line_offset e; last_source_line := last_source_line e; max_num_labels := max_num_labels e;
     label_offsets := label_offsets e; code_info_offset := code_info_offset e; code_info_size := code_info_size
     e; bytecode_offset := n; bytecode_size := bytecode_size e; code_base := code_base e; n_info := n_info e;
     n_cell := n_cell e |}.
Definition with_code_base (e : emit_t) (c : list Z) : emit_t :=
  {| dummy_data := dummy_data e; e_pass := e_pass e; last_emit_was_return_value := last_emit_was_return_value e;
     e_stack_size := e_stack_size e; emit_common := emit_common e; e_scope := e_scope e; last_source_line_offset
     := last_source_line_offset e; last_source_line := last_source_line e; max_num_labels := max_num_labels e;
     label_offsets := label_offsets e; code_info_offset := code_info_offset e; code_info_size := code_info_size
     e; bytecode_offset := bytecode_offset e; bytecode_size := bytecode_size e; code_base := c; n_info := n_info
     e; n_cell := n_cell e |}.
Definition with_sizes (e : emit_t) (ci bc : Z) (c : list Z) : emit_t :=
  {| dummy_data := dummy_data e; e_pass := e_pass e; last_emit_was_return_value := last_emit_was_return_value e;
     e_stack_size := e_stack_size e; emit_common := emit_common e; e_scope := e_scope e; last_source_line_offset
     := last_source_line_offset e; last_source_line := last_source_line e; max_num_labels := max_num_labels e;
     label_offsets := label_offsets e; code_info_offset := code_info_offset e; code_info_size := ci;
     bytecode_offset := bytecode_offset e; bytecode_size := bc; code_base := c; n_info := n_info e; n_cell :=
     n_cell e |}.
Definition with_n (e : emit_t) (i c : Z) : emit_t :=
  {| dummy_data := dummy_data e; e_pass := e_pass e; last_emit_was_return_value := last_emit_was_return_value e;
     e_stack_size := e_stack_size e; emit_common := emit_common e; e_scope := e_scope e; last_source_line_offset
     := last_source_line_offset e; last_source_line := last_source_line e; max_num_labels := max_num_labels e;
     label_offsets := label_offsets e; code_info_offset := code_info_offset e; code_info_size := code_info_size
     e; bytecode_offset := bytecode_offset e; bytecode_size := bytecode_size e; code_base := code_base e; n_info
     := i; n_cell := c |}.
Definition with_pass (e : emit_t) (p : pass_kind_t) (s : scope_t) : emit_t :=
  {| dummy_data := dummy_data e; e_pass := p; last_emit_was_return_value := false; e_stack_size := 0;
     emit_common := emit_common e; e_scope := s; last_source_line_offset := 0; last_source_line := 1;
     max_num_labels := max_num_labels e; label_offsets := label_offsets e; code_info_offset := code_info_offset
     e; code_info_size := code_info_size e; bytecode_offset := bytecode_offset e; bytecode_size := bytecode_size
     e; code_base := code_base e; n_info := n_info e; n_cell := n_cell e |}.

(** Where a byte is written: the buffer of the emitter, or the code from an offset on. *)
Inductive code_ptr := P_dummy | P_code (off : Z).

(** [c[i] = v] of a [byte *]. *)
Definition emit_store (e : emit_t) (c : code_ptr) (i v : Z) : outcome emit_t :=
  match c with
  | P_dummy => let! d := wr (dummy_data e) i (wrap 8 v) in Ret (with_dummy e d)
  | P_code off => let! b := wr (code_base e) (off + i) (wrap 8 v) in Ret (with_code_base e b)
  end.

Definition emit_get_cur_to_write_code_info (e : emit_t) (n : Z) : outcome (emit_t * option code_ptr) :=
  if pass_code (e_pass e) <? pass_code MP_PASS_EMIT then
    Ret (with_code_info_offset e (wrap 32 (code_info_offset e + n)), Some P_dummy)
  else if wrap 32 (code_info_offset e + n) <=? code_info_size e then
    Ret (with_code_info_offset e (wrap 32 (code_info_offset e + n)), Some (P_code (code_info_offset e)))
  else Undef.

Definition emit_write_code_info_byte (e : emit_t) (val : Z) : outcome emit_t :=
  let! '(e, c) := emit_get_cur_to_write_code_info e 1 in
  match c with None => Undef | Some c => emit_store e c 0 val end.

Definition emit_write_code_info_qstr (e : emit_t) (qst : Z) : outcome emit_t :=
  mp_encode_uint emit_get_cur_to_write_code_info emit_store e (mp_emit_common_use_qstr qst).

Definition emit_get_cur_to_write_bytecode (e : emit_t) (n : Z) : outcome (emit_t * option code_ptr) :=
  if pass_code (e_pass e) <? pass_code MP_PASS_EMIT then
    Ret (with_bytecode_offset e (wrap 32 (bytecode_offset e + n)), Some P_dummy)
  else if wrap 32 (bytecode_offset e + n) <=? bytecode_size e then
    Ret (with_bytecode_offset e (wrap 32 (bytecode_offset e + n)), Some (P_code (code_info_size e + bytecode_offset e)))
  else Undef.

(** [emit_get_cur_to_write_bytecode(emit, n)], and the bytes [bs] to [c[0], c[1], ...]. *)
Fixpoint emit_store_all (e : emit_t) (c : code_ptr) (i : Z) (bs : list Z) : outcome emit_t :=
  match bs with
  | [] => Ret e
  | b :: bs => let! e := emit_store e c i b in emit_store_all e c (i + 1) bs
  end.

Definition emit_bytes (e : emit_t) (bs : list Z) : outcome emit_t :=
  let! '(e, c) := emit_get_cur_to_write_bytecode e (Z.of_nat (length bs)) in
  match c with None => Undef | Some c => emit_store_all e c 0 bs end.

Definition emit_write_bytecode_raw_byte (e : emit_t) (b1 : Z) : outcome emit_t := emit_bytes e [b1].

(** [stack_size] is an [int], [delta] an [mp_int_t]; the scope keeps the maximum in a [uint16_t]. *)
Definition mp_emit_bc_adjust_stack_size (e : emit_t) (delta : Z) : outcome emit_t :=
  if bool_decide (e_pass e = MP_PASS_SCOPE) then Ret e
  else
    let! n := sint (e_stack_size e + delta) in
    if 0 <=? n then
      let s := if stack_size (e_scope e) <? n then with_stack_size (e_scope e) (wrap 16 n) else e_scope e in
      Ret (with_stack e n s)
    else Undef.

Definition emit_write_bytecode_byte (e : emit_t) (stack_adj b1 : Z) : outcome emit_t :=
  let! e := mp_emit_bc_adjust_stack_size e stack_adj in emit_bytes e [b1].

Definition emit_write_bytecode_byte_int (e : emit_t) (stack_adj b1 num : Z) : outcome emit_t :=
  let! e := emit_write_bytecode_byte e stack_adj b1 in
  encode_int emit_get_cur_to_write_bytecode emit_store e num.

Definition emit_write_bytecode_byte_uint (e : emit_t) (stack_adj b val : Z) : outcome emit_t :=
  let! e := emit_write_bytecode_byte e stack_adj b in
  mp_encode_uint emit_get_cur_to_write_bytecode emit_store e val.

Definition emit_write_bytecode_byte_const (e : emit_t) (stack_adj b n : Z) : outcome emit_t :=
  emit_write_bytecode_byte_uint e stack_adj b n.

Definition emit_write_bytecode_byte_qstr (e : emit_t) (stack_adj b qst : Z) : outcome emit_t :=
  emit_write_bytecode_byte_uint e stack_adj b (mp_emit_common_use_qstr qst).

Definition emit_write_bytecode_byte_obj (e : emit_t) (stack_adj b obj : Z) : outcome emit_t :=
  let! '(c, n) := mp_emit_common_alloc_const_obj (emit_common e) obj in
  emit_write_bytecode_byte_const (with_common e c) stack_adj b n.

Definition emit_write_bytecode_byte_child (e : emit_t) (stack_adj b rc : Z) : outcome emit_t :=
  let! '(c, n) := mp_emit_common_alloc_const_child (emit_common e) rc in
  emit_write_bytecode_byte_const (with_common e c) stack_adj b n.

(** [emit->label_offsets[label]]. *)
Definition label_offset (e : emit_t) (label : Z) : outcome Z :=
  match label_offsets e with None => Undef | Some l => rd l label end.

Definition emit_write_bytecode_byte_unsigned_label (e : emit_t) (stack_adj b1 label : Z) : outcome emit_t :=
  let! e := mp_emit_bc_adjust_stack_size e stack_adj in
  let! off :=
    if pass_code (e_pass e) <? pass_code MP_PASS_EMIT then Ret 0
    else let! l := label_offset e label in Ret (wrap 32 (l - bytecode_offset e - 3)) in
  emit_bytes e [b1; off; Z.shiftr off 8].

Definition emit_write_bytecode_byte_signed_label (e : emit_t) (stack_adj b1 label : Z) : outcome emit_t :=
  let! e := mp_emit_bc_adjust_stack_size e stack_adj in
  let! off :=
    if pass_code (e_pass e) <? pass_code MP_PASS_EMIT then Ret 0
    else let! l := label_offset e label in Ret (swrap 32 (l - bytecode_offset e - 3 + 0x8000)) in
  emit_bytes e [b1; off; Z.shiftr off 8].
