(* ===== verification/EmitMethods.v ===== *)
(** * The methods of the bytecode emitter ([py/emitbc.c])

    One definition for every method that the compiler calls, the start and the end of a pass, and a type of calls
    ([emit_call]) with their execution: the compiler makes the same sequence of calls in each of its passes over a scope.
    The asserts are those of a build without [NDEBUG]. *)

From S2P Require Import Prelude Malloc SmallInt Token Bytecode Scope EmitBc.
Local Open Scope Z_scope.

(** ** Labels *)

Definition mp_emit_bc_last_emit_was_return_value (e : emit_t) : bool := last_emit_was_return_value e.

(** A build without line numbers. *)
Definition mp_emit_bc_set_source_line (e : emit_t) (source_line : Z) : outcome emit_t := Ret e.

Definition mp_emit_bc_label_assign (e : emit_t) (l : Z) : outcome emit_t :=
  let! e := mp_emit_bc_adjust_stack_size e 0 in
  if bool_decide (e_pass e = MP_PASS_SCOPE) then Ret e
  else if l <? max_num_labels e then
    match label_offsets e with
    | None => Undef
    | Some offs =>
      let! off := rd offs l in
      if pass_code (e_pass e) <? pass_code MP_PASS_EMIT then
        if off =? wrap 32 (-1) then let! offs := wr offs l (bytecode_offset e) in Ret (with_labels e (Some offs))
        else Undef
      else if off =? bytecode_offset e then Ret e else Undef
    end
  else Undef.

(** ** Instructions *)

Section Methods.
(** The object [...]. *)
Context (mp_const_ellipsis_obj : Z).

Definition mp_emit_bc_import (e : emit_t) (qst kind : Z) : outcome emit_t :=
  let stack_adj := if kind =? MP_EMIT_IMPORT_FROM then 1 else -1 in
  if kind =? MP_EMIT_IMPORT_STAR then emit_write_bytecode_byte e stack_adj MP_BC_IMPORT_STAR
  else emit_write_bytecode_byte_qstr e stack_adj (MP_BC_IMPORT_NAME + kind) qst.

Definition mp_emit_bc_load_const_tok (e : emit_t) (tok : mp_token_kind_t) : outcome emit_t :=
  if bool_decide (tok = MP_TOKEN_ELLIPSIS) then emit_write_bytecode_byte_obj e 1 MP_BC_LOAD_CONST_OBJ mp_const_ellipsis_obj
  else emit_write_bytecode_byte e 1 (MP_BC_LOAD_CONST_FALSE + (Z.of_nat (token_code tok) - Z.of_nat (token_code MP_TOKEN_KW_FALSE))).

Definition mp_emit_bc_load_const_small_int (e : emit_t) (arg : Z) : outcome emit_t :=
  if (- MP_BC_LOAD_CONST_SMALL_INT_MULTI_EXCESS <=? arg) &&
     (arg <? MP_BC_LOAD_CONST_SMALL_INT_MULTI_NUM - MP_BC_LOAD_CONST_SMALL_INT_MULTI_EXCESS) then
    emit_write_bytecode_byte e 1 (MP_BC_LOAD_CONST_SMALL_INT_MULTI + MP_BC_LOAD_CONST_SMALL_INT_MULTI_EXCESS + arg)
  else emit_write_bytecode_byte_int e 1 MP_BC_LOAD_CONST_SMALL_INT arg.

Definition mp_emit_bc_load_const_str (e : emit_t) (qst : Z) : outcome emit_t :=
  emit_write_bytecode_byte_qstr e 1 MP_BC_LOAD_CONST_STRING qst.

Definition mp_emit_bc_load_const_obj (e : emit_t) (obj : Z) : outcome emit_t :=
  emit_write_bytecode_byte_obj e 1 MP_BC_LOAD_CONST_OBJ obj.

Definition mp_emit_bc_load_null (e : emit_t) : outcome emit_t := emit_write_bytecode_byte e 1 MP_BC_LOAD_NULL.

Definition mp_emit_bc_load_local (e : emit_t) (local_num kind : Z) : outcome emit_t :=
  if (kind =? MP_EMIT_IDOP_LOCAL_FAST) && (local_num <=? 15) then
    emit_write_bytecode_byte e 1 (MP_BC_LOAD_FAST_MULTI + local_num)
  else emit_write_bytecode_byte_uint e 1 (MP_BC_LOAD_FAST_N + kind) local_num.

Definition mp_emit_bc_load_global (e : emit_t) (qst kind : Z) : outcome emit_t :=
  emit_write_bytecode_byte_qstr e 1 (MP_BC_LOAD_NAME + kind) qst.

Definition mp_emit_bc_load_method (e : emit_t) (qst : Z) (is_super : bool) : outcome emit_t :=
  let stack_adj := 1 - 2 * b2z is_super in
  emit_write_bytecode_byte_qstr e stack_adj (if is_super then MP_BC_LOAD_SUPER_METHOD else MP_BC_LOAD_METHOD) qst.

Definition mp_emit_bc_load_build_class (e : emit_t) : outcome emit_t := emit_write_bytecode_byte e 1 MP_BC_LOAD_BUILD_CLASS.

Definition mp_emit_bc_dup_top (e : emit_t) : outcome emit_t := emit_write_bytecode_byte e 1 MP_BC_DUP_TOP.
Definition mp_emit_bc_dup_top_two (e : emit_t) : outcome emit_t := emit_write_bytecode_byte e 2 MP_BC_DUP_TOP_TWO.
Definition mp_emit_bc_pop_top (e : emit_t) : outcome emit_t := emit_write_bytecode_byte e (-1) MP_BC_POP_TOP.
Definition mp_emit_bc_longyield (e : emit_t) : outcome emit_t := emit_write_bytecode_byte e 0 MP_BC_LONGYIELD.
Definition mp_emit_bc_ipusyscall (e : emit_t) : outcome emit_t := emit_write_bytecode_byte e 0 MP_BC_IPUSYSCALL.
Definition mp_emit_bc_rot_two (e : emit_t) : outcome emit_t := emit_write_bytecode_byte e 0 MP_BC_ROT_TWO.
Definition mp_emit_bc_rot_three (e : emit_t) : outcome emit_t := emit_write_bytecode_byte e 0 MP_BC_ROT_THREE.

Definition mp_emit_bc_subscr (e : emit_t) (kind : Z) : outcome emit_t :=
  if kind =? MP_EMIT_SUBSCR_LOAD then emit_write_bytecode_byte e (-1) MP_BC_LOAD_SUBSCR
  else
    let! e :=
      if kind =? MP_EMIT_SUBSCR_DELETE then let! e := mp_emit_bc_load_null e in mp_emit_bc_rot_three e else Ret e in
    emit_write_bytecode_byte e (-3) MP_BC_STORE_SUBSCR.

Definition mp_emit_bc_attr (e : emit_t) (qst kind : Z) : outcome emit_t :=
  if kind =? MP_EMIT_ATTR_LOAD then emit_write_bytecode_byte_qstr e 0 MP_BC_LOAD_ATTR qst
  else
    let! e :=
      if kind =? MP_EMIT_ATTR_DELETE then let! e := mp_emit_bc_load_null e in mp_emit_bc_rot_two e else Ret e in
    emit_write_bytecode_byte_qstr e (-2) MP_BC_STORE_ATTR qst.

Definition mp_emit_bc_store_local (e : emit_t) (local_num kind : Z) : outcome emit_t :=
  if (kind =? MP_EMIT_IDOP_LOCAL_FAST) && (local_num <=? 15) then
    emit_write_bytecode_byte e (-1) (MP_BC_STORE_FAST_MULTI + local_num)
  else emit_write_bytecode_byte_uint e (-1) (MP_BC_STORE_FAST_N + kind) local_num.

Definition mp_emit_bc_store_global (e : emit_t) (qst kind : Z) : outcome emit_t :=
  emit_write_bytecode_byte_qstr e (-1) (MP_BC_STORE_NAME + kind) qst.

Definition mp_emit_bc_delete_local (e : emit_t) (local_num kind : Z) : outcome emit_t :=
  emit_write_bytecode_byte_uint e 0 (MP_BC_DELETE_FAST + kind) local_num.

Definition mp_emit_bc_delete_global (e : emit_t) (qst kind : Z) : outcome emit_t :=
  emit_write_bytecode_byte_qstr e 0 (MP_BC_DELETE_NAME + kind) qst.

Definition mp_emit_bc_jump (e : emit_t) (label : Z) : outcome emit_t :=
  emit_write_bytecode_byte_signed_label e 0 MP_BC_JUMP label.

Definition mp_emit_bc_pop_jump_if (e : emit_t) (cond : bool) (label : Z) : outcome emit_t :=
  if cond then emit_write_bytecode_byte_signed_label e (-1) MP_BC_POP_JUMP_IF_TRUE label
  else emit_write_bytecode_byte_signed_label e (-1) MP_BC_POP_JUMP_IF_FALSE label.

Definition mp_emit_bc_jump_if_or_pop (e : emit_t) (cond : bool) (label : Z) : outcome emit_t :=
  if cond then emit_write_bytecode_byte_signed_label e (-1) MP_BC_JUMP_IF_TRUE_OR_POP label
  else emit_write_bytecode_byte_signed_label e (-1) MP_BC_JUMP_IF_FALSE_OR_POP label.

(** [label & ~MP_EMIT_BREAK_FROM_FOR], and the loop that pops the buffer of the iterator. *)
Definition break_label (label : Z) : Z := Z.ldiff label MP_EMIT_BREAK_FROM_FOR.

Fixpoint pop_iter_buf (n : nat) (e : emit_t) : outcome emit_t :=
  match n with
  | O => Ret e
  | S n => let! e := emit_write_bytecode_raw_byte e MP_BC_POP_TOP in pop_iter_buf n e
  end.

Definition mp_emit_bc_unwind_jump (e : emit_t) (label except_depth : Z) : outcome emit_t :=
  let from_for := negb (Z.land label MP_EMIT_BREAK_FROM_FOR =? 0) in
  if except_depth =? 0 then
    let! e :=
      if from_for then
        let! e := emit_write_bytecode_raw_byte e MP_BC_POP_TOP in
        pop_iter_buf (Z.to_nat (MP_OBJ_ITER_BUF_NSLOTS - 1)) e
      else Ret e in
    emit_write_bytecode_byte_signed_label e 0 MP_BC_JUMP (break_label label)
  else
    let! e := emit_write_bytecode_byte_signed_label e 0 MP_BC_UNWIND_JUMP (break_label label) in
    emit_write_bytecode_raw_byte e (Z.lor (if from_for then 0x80 else 0) except_depth).

Definition mp_emit_bc_setup_block (e : emit_t) (label kind : Z) : outcome emit_t :=
  let stack_adj := if kind =? MP_EMIT_SETUP_BLOCK_WITH then 2 else 0 in
  emit_write_bytecode_byte_unsigned_label e stack_adj (MP_BC_SETUP_WITH + kind) label.

Definition mp_emit_bc_with_cleanup (e : emit_t) (label : Z) : outcome emit_t :=
  let! e := mp_emit_bc_load_const_tok e MP_TOKEN_KW_NONE in
  let! e := mp_emit_bc_label_assign e label in
  let! e := emit_write_bytecode_byte e 2 MP_BC_WITH_CLEANUP in
  mp_emit_bc_adjust_stack_size e (-4).

Definition mp_emit_bc_end_finally (e : emit_t) : outcome emit_t := emit_write_bytecode_byte e (-1) MP_BC_END_FINALLY.

Definition mp_emit_bc_get_iter (e : emit_t) (use_stack : bool) : outcome emit_t :=
  let stack_adj := if use_stack then MP_OBJ_ITER_BUF_NSLOTS - 1 else 0 in
  emit_write_bytecode_byte e stack_adj (if use_stack then MP_BC_GET_ITER_STACK else MP_BC_GET_ITER).

Definition mp_emit_bc_for_iter (e : emit_t) (label : Z) : outcome emit_t :=
  emit_write_bytecode_byte_unsigned_label e 1 MP_BC_FOR_ITER label.

Definition mp_emit_bc_for_iter_end (e : emit_t) : outcome emit_t :=
  mp_emit_bc_adjust_stack_size e (- MP_OBJ_ITER_BUF_NSLOTS).

Definition mp_emit_bc_pop_except_jump (e : emit_t) (label : Z) : outcome emit_t :=
  emit_write_bytecode_byte_unsigned_label e 0 MP_BC_POP_EXCEPT_JUMP label.

Definition mp_emit_bc_unary_op (e : emit_t) (op : Z) : outcome emit_t :=
  emit_write_bytecode_byte e 0 (MP_BC_UNARY_OP_MULTI + op).

Definition mp_emit_bc_binary_op (e : emit_t) (op : Z) : outcome emit_t :=
  let '(invert, op) :=
    if op =? MP_BINARY_OP_NOT_IN then (true, MP_BINARY_OP_IN)
    else if op =? MP_BINARY_OP_IS_NOT then (true, MP_BINARY_OP_IS) else (false, op) in
  let! e := emit_write_bytecode_byte e (-1) (MP_BC_BINARY_OP_MULTI + op) in
  if invert : bool then emit_write_bytecode_byte e 0 (MP_BC_UNARY_OP_MULTI + MP_UNARY_OP_NOT) else Ret e.

(** [n_args] is unsigned, and so is [1 - n_args] before it becomes an [int]. *)
Definition mp_emit_bc_build (e : emit_t) (n_args kind : Z) : outcome emit_t :=
  let stack_adj := if kind =? MP_EMIT_BUILD_MAP then 1 else swrap 32 (1 - n_args) in
  emit_write_bytecode_byte_uint e stack_adj (MP_BC_BUILD_TUPLE + kind) n_args.

Definition mp_emit_bc_store_map (e : emit_t) : outcome emit_t := emit_write_bytecode_byte e (-2) MP_BC_STORE_MAP.

Definition mp_emit_bc_store_comp (e : emit_t) (kind : scope_kind_t) (collection_stack_index : Z) : outcome emit_t :=
  let '(n, t) :=
    if bool_decide (kind = SCOPE_LIST_COMP) then (0, 0) else if bool_decide (kind = SCOPE_DICT_COMP) then (1, 1) else (0, 2) in
  emit_write_bytecode_byte_uint e (-1 - n) MP_BC_STORE_COMP
    (Z.lor (wrap 32 (Z.shiftl (wrap 32 (collection_stack_index + n)) 2)) t).

Definition mp_emit_bc_unpack_sequence (e : emit_t) (n_args : Z) : outcome emit_t :=
  emit_write_bytecode_byte_uint e (swrap 32 (-1 + n_args)) MP_BC_UNPACK_SEQUENCE n_args.

Definition mp_emit_bc_unpack_ex (e : emit_t) (n_left n_right : Z) : outcome emit_t :=
  emit_write_bytecode_byte_uint e (swrap 32 (-1 + n_left + n_right + 1)) MP_BC_UNPACK_EX
    (Z.lor n_left (wrap 32 (Z.shiftl n_right 8))).

(** [s] is the scope of the function that is made. *)
Definition mp_emit_bc_make_function (e : emit_t) (s : scope_t) (n_pos_defaults n_kw_defaults : Z) : outcome emit_t :=
  if (n_pos_defaults =? 0) && (n_kw_defaults =? 0) then emit_write_bytecode_byte_child e 1 MP_BC_MAKE_FUNCTION (raw_code s)
  else emit_write_bytecode_byte_child e (-1) MP_BC_MAKE_FUNCTION_DEFARGS (raw_code s).

Definition mp_emit_bc_make_closure (e : emit_t) (s : scope_t) (n_closed_over n_pos_defaults n_kw_defaults : Z) :
  outcome emit_t :=
  if (n_pos_defaults =? 0) && (n_kw_defaults =? 0) then
    let stack_adj := swrap 32 (- n_closed_over + 1) in
    let! e := emit_write_bytecode_byte_child e stack_adj MP_BC_MAKE_CLOSURE (raw_code s) in
    emit_write_bytecode_raw_byte e n_closed_over
  else if n_closed_over <=? 255 then
    let stack_adj := -2 - n_closed_over + 1 in
    let! e := emit_write_bytecode_byte_child e stack_adj MP_BC_MAKE_CLOSURE_DEFARGS (raw_code s) in
    emit_write_bytecode_raw_byte e n_closed_over
  else Undef.

Definition emit_bc_call_function_method_helper (e : emit_t) (stack_adj bytecode_base n_positional n_keyword star_flags : Z) :
  outcome emit_t :=
  let! kw := sint (2 * swrap 32 n_keyword) in
  let! n := sint (swrap 32 n_positional + kw) in
  let operand := Z.lor (wrap 32 (Z.shiftl n_keyword 8)) n_positional in
  if negb (star_flags =? 0) then
    let! n := sint (n + 2) in
    let! stack_adj := sint (stack_adj - n) in
    emit_write_bytecode_byte_uint e stack_adj (bytecode_base + 1) operand
  else
    let! stack_adj := sint (stack_adj - n) in
    emit_write_bytecode_byte_uint e stack_adj bytecode_base operand.

Definition mp_emit_bc_call_function (e : emit_t) (n_positional n_keyword star_flags : Z) : outcome emit_t :=
  emit_bc_call_function_method_helper e 0 MP_BC_CALL_FUNCTION n_positional n_keyword star_flags.

Definition mp_emit_bc_call_method (e : emit_t) (n_positional n_keyword star_flags : Z) : outcome emit_t :=
  emit_bc_call_function_method_helper e (-1) MP_BC_CALL_METHOD n_positional n_keyword star_flags.

Definition mp_emit_bc_return_value (e : emit_t) : outcome emit_t :=
  let! e := emit_write_bytecode_byte e (-1) MP_BC_RETURN_VALUE in Ret (with_return e true).

Definition mp_emit_bc_raise_varargs (e : emit_t) (n_args : Z) : outcome emit_t :=
  if n_args <=? 2 then emit_write_bytecode_byte e (swrap 32 (- n_args)) (MP_BC_RAISE_LAST + n_args) else Undef.

Definition mp_emit_bc_yield (e : emit_t) (kind : Z) : outcome emit_t :=
  let! e := emit_write_bytecode_byte e (- kind) (MP_BC_YIELD_VALUE + kind) in
  Ret (with_scope e (with_scope_flags (e_scope e) (Z.lor (scope_flags (e_scope e)) MP_SCOPE_FLAG_GENERATOR))).

Definition mp_emit_bc_start_except_handler (e : emit_t) : outcome emit_t := mp_emit_bc_adjust_stack_size e 4.
Definition mp_emit_bc_end_except_handler (e : emit_t) : outcome emit_t := mp_emit_bc_adjust_stack_size e (-3).

(** ** Calls *)

Inductive emit_call :=
| C_adjust_stack_size (delta : Z) | C_set_source_line (line : Z) | C_label_assign (l : Z)
| C_import (qst kind : Z) | C_load_const_tok (tok : mp_token_kind_t) | C_load_const_small_int (arg : Z)
| C_load_const_str (qst : Z) | C_load_const_obj (obj : Z) | C_load_null
| C_load_local (local_num kind : Z) | C_load_global (qst kind : Z) | C_load_method (qst : Z) (is_super : bool)
| C_load_build_class | C_subscr (kind : Z) | C_attr (qst kind : Z)
| C_store_local (local_num kind : Z) | C_store_global (qst kind : Z)
| C_delete_local (local_num kind : Z) | C_delete_global (qst kind : Z)
| C_dup_top | C_dup_top_two | C_pop_top | C_rot_two | C_rot_three | C_longyield | C_ipusyscall
| C_jump (label : Z) | C_pop_jump_if (cond : bool) (label : Z) | C_jump_if_or_pop (cond : bool) (label : Z)
| C_unwind_jump (label except_depth : Z) | C_setup_block (label kind : Z) | C_with_cleanup (label : Z) | C_end_finally
| C_get_iter (use_stack : bool) | C_for_iter (label : Z) | C_for_iter_end | C_pop_except_jump (label : Z)
| C_unary_op (op : Z) | C_binary_op (op : Z) | C_build (n_args kind : Z) | C_store_map
| C_store_comp (kind : scope_kind_t) (collection_stack_index : Z) | C_unpack_sequence (n_args : Z)
| C_unpack_ex (n_left n_right : Z) | C_make_function (s : scope_t) (n_pos_defaults n_kw_defaults : Z)
| C_make_closure (s : scope_t) (n_closed_over n_pos_defaults n_kw_defaults : Z)
| C_call_function (n_positional n_keyword star_flags : Z) | C_call_method (n_positional n_keyword star_flags : Z)
| C_return_value | C_raise_varargs (n_args : Z) | C_yield (kind : Z) | C_start_except_handler | C_end_except_handler.

Definition exec_call (e : emit_t) (c : emit_call) : outcome emit_t :=
  match c with
  | C_adjust_stack_size d => mp_emit_bc_adjust_stack_size e d
  | C_set_source_line l => mp_emit_bc_set_source_line e l
  | C_label_assign l => mp_emit_bc_label_assign e l
  | C_import q k => mp_emit_bc_import e q k
  | C_load_const_tok t => mp_emit_bc_load_const_tok e t
  | C_load_const_small_int n => mp_emit_bc_load_const_small_int e n
  | C_load_const_str q => mp_emit_bc_load_const_str e q
  | C_load_const_obj o => mp_emit_bc_load_const_obj e o
  | C_load_null => mp_emit_bc_load_null e
  | C_load_local n k => mp_emit_bc_load_local e n k
  | C_load_global q k => mp_emit_bc_load_global e q k
  | C_load_method q s => mp_emit_bc_load_method e q s
  | C_load_build_class => mp_emit_bc_load_build_class e
  | C_subscr k => mp_emit_bc_subscr e k
  | C_attr q k => mp_emit_bc_attr e q k
  | C_store_local n k => mp_emit_bc_store_local e n k
  | C_store_global q k => mp_emit_bc_store_global e q k
  | C_delete_local n k => mp_emit_bc_delete_local e n k
  | C_delete_global q k => mp_emit_bc_delete_global e q k
  | C_dup_top => mp_emit_bc_dup_top e
  | C_dup_top_two => mp_emit_bc_dup_top_two e
  | C_pop_top => mp_emit_bc_pop_top e
  | C_rot_two => mp_emit_bc_rot_two e
  | C_rot_three => mp_emit_bc_rot_three e
  | C_longyield => mp_emit_bc_longyield e
  | C_ipusyscall => mp_emit_bc_ipusyscall e
  | C_jump l => mp_emit_bc_jump e l
  | C_pop_jump_if c l => mp_emit_bc_pop_jump_if e c l
  | C_jump_if_or_pop c l => mp_emit_bc_jump_if_or_pop e c l
  | C_unwind_jump l d => mp_emit_bc_unwind_jump e l d
  | C_setup_block l k => mp_emit_bc_setup_block e l k
  | C_with_cleanup l => mp_emit_bc_with_cleanup e l
  | C_end_finally => mp_emit_bc_end_finally e
  | C_get_iter s => mp_emit_bc_get_iter e s
  | C_for_iter l => mp_emit_bc_for_iter e l
  | C_for_iter_end => mp_emit_bc_for_iter_end e
  | C_pop_except_jump l => mp_emit_bc_pop_except_jump e l
  | C_unary_op op => mp_emit_bc_unary_op e op
  | C_binary_op op => mp_emit_bc_binary_op e op
  | C_build n k => mp_emit_bc_build e n k
  | C_store_map => mp_emit_bc_store_map e
  | C_store_comp k i => mp_emit_bc_store_comp e k i
  | C_unpack_sequence n => mp_emit_bc_unpack_sequence e n
  | C_unpack_ex l r => mp_emit_bc_unpack_ex e l r
  | C_make_function s p k => mp_emit_bc_make_function e s p k
  | C_make_closure s n p k => mp_emit_bc_make_closure e s n p k
  | C_call_function p k s => mp_emit_bc_call_function e p k s
  | C_call_method p k s => mp_emit_bc_call_method e p k s
  | C_return_value => mp_emit_bc_return_value e
  | C_raise_varargs n => mp_emit_bc_raise_varargs e n
  | C_yield k => mp_emit_bc_yield e k
  | C_start_except_handler => mp_emit_bc_start_except_handler e
  | C_end_except_handler => mp_emit_bc_end_except_handler e
  end.

Fixpoint exec_calls (e : emit_t) (cs : list emit_call) : outcome emit_t :=
  match cs with
  | [] => Ret e
  | c :: cs => let! e := exec_call e c in exec_calls e cs
  end.
End Methods.
