(* ===== verification/EmitPass.v ===== *)
(** * Passes of the compiler over a scope ([py/emitbc.c], [py/compile.c], [py/emitglue.c])

    The start of a pass writes the prelude of the function into the code information, the end of a pass the numbers of the
    cells, and it allocates the code after the third pass.  [compile_scope] is a pass: its start, the calls that the
    compiler makes, its end. *)

From S2P Require Import Prelude Malloc SmallInt Token Bytecode Scope EmitBc EmitMethods.
Local Open Scope Z_scope.

Section Pass.
Context {words : Allocator Z} (MP_QSTR__star_ : Z).

(** The memory of the emitter is cleared. *)
Definition emit_bc_new (c : mp_emit_common_t) (s : scope_t) : emit_t :=
  {| dummy_data := replicate (Z.to_nat DUMMY_DATA_SIZE) 0; e_pass := MP_PASS_SCOPE; last_emit_was_return_value := false;
     e_stack_size := 0; emit_common := c; e_scope := s; last_source_line_offset := 0; last_source_line := 0;
     max_num_labels := 0; label_offsets := None; code_info_offset := 0; code_info_size := 0; bytecode_offset := 0;
     bytecode_size := 0; code_base := []; n_info := 0; n_cell := 0 |}.

Definition emit_bc_set_max_num_labels (e : emit_t) (n : Z) : outcome emit_t :=
  let! l := m_new 4 n in Ret (with_max_labels e n (Some l)).

(** The name of the [i]-th argument. *)
Fixpoint argument_name (n : nat) (ids : list id_info_t) (j i : Z) : outcome Z :=
  match n with
  | O => Ret MP_QSTR__star_
  | S n =>
    let! id := rd ids j in
    if is_param id && (local_num id =? i) then Ret (qst id) else argument_name n ids (j + 1) i
  end.

Fixpoint argument_names (n : nat) (e : emit_t) (i : Z) : outcome emit_t :=
  match n with
  | O => Ret e
  | S n =>
    let! q := argument_name (Z.to_nat (id_info_len (e_scope e))) (id_info (e_scope e)) 0 i in
    let! e := emit_write_code_info_qstr e q in
    argument_names n e (i + 1)
  end.

(** [memset(label_offsets, -1, ...)]. *)
Definition unassigned (e : emit_t) : option (list Z) :=
  match label_offsets e with
  | None => None
  | Some l => Some (replicate (Z.to_nat (max_num_labels e)) (wrap 32 (-1)) ++ drop (Z.to_nat (max_num_labels e)) l)
  end.

Definition mp_emit_bc_start_pass (e : emit_t) (pass : pass_kind_t) (s : scope_t) : outcome emit_t :=
  let e := with_pass e pass s in
  let e := if pass_code pass <? pass_code MP_PASS_EMIT then with_labels e (unassigned e) else e in
  let e := with_bytecode_offset e 0 in
  let e := with_code_info_offset e 0 in
  let n_state := num_locals s + stack_size s in
  let n_state := if n_state =? 0 then 1 else n_state in
  let! e := MP_BC_PRELUDE_SIG_ENCODE emit_write_code_info_byte e n_state (exc_stack_size s) (scope_flags s)
              (num_pos_args s) (num_kwonly_args s) (num_def_pos_args s) in
  let! e :=
    if pass_code MP_PASS_CODE_SIZE <=? pass_code (e_pass e) then
      MP_BC_PRELUDE_SIZE_ENCODE emit_write_code_info_byte e (n_info e) (n_cell e)
    else Ret e in
  let e := with_n e (code_info_offset e) (n_cell e) in
  let! e := emit_write_code_info_qstr e (simple_name s) in
  argument_names (Z.to_nat (num_pos_args s + num_kwonly_args s)) e 0.

Fixpoint closure_section (n : nat) (e : emit_t) (i : Z) : outcome emit_t :=
  match n with
  | O => Ret e
  | S n =>
    let! id := rd (id_info (e_scope e)) i in
    if bool_decide (kind id = ID_INFO_KIND_CELL) then
      if local_num id <=? 255 then
        let! e := emit_write_code_info_byte e (local_num id) in
        closure_section n (with_n e (n_info e) (wrap 32 (n_cell e + 1))) (i + 1)
      else Undef
    else closure_section n e (i + 1)
  end.

Inductive mp_raw_code_kind_t :=
| MP_CODE_UNUSED | MP_CODE_RESERVED | MP_CODE_BYTECODE | MP_CODE_NATIVE_PY | MP_CODE_NATIVE_VIPER | MP_CODE_NATIVE_ASM.

(** The fields that the emitter of bytecode sets. *)
Record mp_raw_code_t := {
  rc_kind : mp_raw_code_kind_t;
  rc_scope_flags : Z;
  rc_fun_data : list Z;
  rc_children : list Z
}.

(** [scope_flags] is a field of seven bits. *)
Definition mp_emit_glue_assign_bytecode (code : list Z) (children : list Z) (scope_flags : Z) : mp_raw_code_t :=
  {| rc_kind := MP_CODE_BYTECODE; rc_scope_flags := wrap 7 scope_flags; rc_fun_data := code; rc_children := children |}.

(** The code object of the scope too, when the pass fills it in. *)
Definition mp_emit_bc_end_pass (e : emit_t) : outcome (emit_t * option mp_raw_code_t) :=
  if bool_decide (e_pass e = MP_PASS_SCOPE) then Ret (e, None)
  else if e_stack_size e =? 0 then
    let e := with_n e (wrap 32 (code_info_offset e - n_info e)) 0 in
    let! e := closure_section (Z.to_nat (id_info_len (e_scope e))) e 0 in
    match e_pass e with
    | MP_PASS_CODE_SIZE =>
      let! code := m_new0 1 (wrap 32 (code_info_offset e + bytecode_offset e)) in
      Ret (with_sizes e (code_info_offset e) (bytecode_offset e) code, None)
    | MP_PASS_EMIT =>
      Ret (e, Some (mp_emit_glue_assign_bytecode (code_base e) (children (emit_common e)) (scope_flags (e_scope e))))
    | _ => Ret (e, None)
    end
  else Undef.

(** A pass of [compile_scope] after the first, in which the compiler makes the calls [cs]. *)
Definition compile_scope (mp_const_ellipsis_obj : Z) (e : emit_t) (s : scope_t) (pass : pass_kind_t) (cs : list emit_call) :
  outcome (emit_t * option mp_raw_code_t) :=
  let! c := mp_emit_common_start_pass (emit_common e) pass in
  let! e := mp_emit_bc_start_pass (with_common e c) pass s in
  let! e := exec_calls mp_const_ellipsis_obj e cs in
  mp_emit_bc_end_pass e.

(** The last three passes over a scope. *)
Definition compile_passes (mp_const_ellipsis_obj : Z) (e : emit_t) (s : scope_t) (cs : list emit_call) :
  outcome (emit_t * option mp_raw_code_t) :=
  let! '(e, _) := compile_scope mp_const_ellipsis_obj e s MP_PASS_STACK_SIZE cs in
  let! '(e, _) := compile_scope mp_const_ellipsis_obj e (e_scope e) MP_PASS_CODE_SIZE cs in
  compile_scope mp_const_ellipsis_obj e (e_scope e) MP_PASS_EMIT cs.

(** The last passes over the scopes of a module, with the calls of each: the code objects in the order of the scopes. *)
Fixpoint compile_scopes (mp_const_ellipsis_obj : Z) (e : emit_t) (scs : list (scope_t * list emit_call)) :
  outcome (emit_t * list (option mp_raw_code_t)) :=
  match scs with
  | [] => Ret (e, [])
  | (s, cs) :: scs =>
    let! '(e, rc) := compile_passes mp_const_ellipsis_obj e s cs in
    let! '(e, rcs) := compile_scopes mp_const_ellipsis_obj e scs in
    Ret (e, rc :: rcs)
  end.

(** The part of [mp_compile_to_raw_code] after the first pass over all scopes. *)
Definition compile_module (mp_const_ellipsis_obj : Z) (e : emit_t) (max_num_labels : Z) (scs : list (scope_t * list emit_call)) :
  outcome (emit_t * list (option mp_raw_code_t)) :=
  let! e := emit_bc_set_max_num_labels e max_num_labels in
  let! c := mp_emit_common_finalise (emit_common e) in
  compile_scopes mp_const_ellipsis_obj (with_common e c) scs.
End Pass.
