(* ===== verification/EmitItems.v ===== *)
(** * What the calls of the emitter mean

    Every call is a short list of items ([items_of]): instructions with the change of the depth of the stack that the
    emitter assumes, labels, corrections of the depth.  [exec_call_items] shows that the methods of the emitter do what
    these lists say. *)

From S2P Require Import Prelude Malloc SmallInt Token Bytecode BytecodeNum Scope EmitBc EmitMethods.
Local Open Scope Z_scope.

(** The operand of an instruction as the compiler means it: a number, a constant, the code of a function, a label. *)
Inductive meaning := M_none | M_uint (n : Z) | M_int (n : Z) | M_obj (obj : Z) | M_child (rc : Z) | M_ulabel (l : Z) | M_slabel (l : Z).

(** [I_op adj op m extra] is an instruction with the change of depth [adj], and a byte after its operand;
    [I_pop] is a [POP_TOP] that the depth does not count. *)
Inductive item :=
| I_op (adj op : Z) (m : meaning) (extra : option Z)
| I_pop
| I_adjust (d : Z)
| I_label (l : Z)
| I_return
| I_generator.

Definition run_item (e : emit_t) (w : item) : outcome emit_t :=
  match w with
  | I_op adj op m extra =>
    let! e :=
      match m with
      | M_none => emit_write_bytecode_byte e adj op
      | M_uint n => emit_write_bytecode_byte_uint e adj op n
      | M_int n => emit_write_bytecode_byte_int e adj op n
      | M_obj o => emit_write_bytecode_byte_obj e adj op o
      | M_child rc => emit_write_bytecode_byte_child e adj op rc
      | M_ulabel l => emit_write_bytecode_byte_unsigned_label e adj op l
      | M_slabel l => emit_write_bytecode_byte_signed_label e adj op l
      end in
    match extra with None => Ret e | Some b => emit_write_bytecode_raw_byte e b end
  | I_pop => emit_write_bytecode_raw_byte e MP_BC_POP_TOP
  | I_adjust d => mp_emit_bc_adjust_stack_size e d
  | I_label l => mp_emit_bc_label_assign e l
  | I_return => Ret (with_return e true)
  | I_generator => Ret (with_scope e (with_scope_flags (e_scope e) (Z.lor (scope_flags (e_scope e)) MP_SCOPE_FLAG_GENERATOR)))
  end.

Fixpoint run_items (e : emit_t) (ws : list item) : outcome emit_t :=
  match ws with
  | [] => Ret e
  | w :: ws => let! e := run_item e w in run_items e ws
  end.

Section Items.
Context (ellipsis : Z).

Definition op (adj o : Z) : item := I_op adj o M_none None.
Definition op_uint (adj o n : Z) : item := I_op adj o (M_uint n) None.
Definition op_qstr (adj o q : Z) : item := I_op adj o (M_uint (wrap 16 q)) None.

Definition call_items (method : bool) (n_pos n_kw star : Z) : list item :=
  let o := if method then MP_BC_CALL_METHOD else MP_BC_CALL_FUNCTION in
  let m := Z.lor (wrap 32 (Z.shiftl n_kw 8)) n_pos in
  let n := n_pos + 2 * n_kw + b2z method in
  [if star =? 0 then op_uint (- n) o m else op_uint (- n - 2) (o + 1) m].

Definition items_of (c : emit_call) : list item :=
  match c with
  | C_adjust_stack_size d => [I_adjust d]
  | C_set_source_line _ => []
  | C_label_assign l => [I_label l]
  | C_import q k => if k =? 2 then [op (-1) MP_BC_IMPORT_STAR] else [op_qstr (if k =? 1 then 1 else -1) (MP_BC_IMPORT_NAME + k) q]
  | C_load_const_tok t =>
    [match t with
     | MP_TOKEN_ELLIPSIS => I_op 1 MP_BC_LOAD_CONST_OBJ (M_obj ellipsis) None
     | MP_TOKEN_KW_FALSE => op 1 MP_BC_LOAD_CONST_FALSE
     | MP_TOKEN_KW_NONE => op 1 MP_BC_LOAD_CONST_NONE
     | _ => op 1 MP_BC_LOAD_CONST_TRUE
     end]
  | C_load_const_small_int n =>
    [if (-16 <=? n) && (n <=? 47) then op 1 (MP_BC_LOAD_CONST_SMALL_INT_MULTI + 16 + n) else I_op 1 MP_BC_LOAD_CONST_SMALL_INT (M_int n) None]
  | C_load_const_str q => [op_qstr 1 MP_BC_LOAD_CONST_STRING q]
  | C_load_const_obj o => [I_op 1 MP_BC_LOAD_CONST_OBJ (M_obj o) None]
  | C_load_null => [op 1 MP_BC_LOAD_NULL]
  | C_load_local n k =>
    [if (k =? 0) && (n <=? 15) then op 1 (MP_BC_LOAD_FAST_MULTI + n) else op_uint 1 (MP_BC_LOAD_FAST_N + k) n]
  | C_load_global q k => [op_qstr 1 (MP_BC_LOAD_NAME + k) q]
  | C_load_method q s => [if s : bool then op_qstr (-1) MP_BC_LOAD_SUPER_METHOD q else op_qstr 1 MP_BC_LOAD_METHOD q]
  | C_load_build_class => [op 1 MP_BC_LOAD_BUILD_CLASS]
  | C_subscr k =>
    if k =? 0 then [op (-1) MP_BC_LOAD_SUBSCR]
    else (if k =? 2 then [op 1 MP_BC_LOAD_NULL; op 0 MP_BC_ROT_THREE] else []) ++ [op (-3) MP_BC_STORE_SUBSCR]
  | C_attr q k =>
    if k =? 0 then [op_qstr 0 MP_BC_LOAD_ATTR q]
    else (if k =? 2 then [op 1 MP_BC_LOAD_NULL; op 0 MP_BC_ROT_TWO] else []) ++ [op_qstr (-2) MP_BC_STORE_ATTR q]
  | C_store_local n k =>
    [if (k =? 0) && (n <=? 15) then op (-1) (MP_BC_STORE_FAST_MULTI + n) else op_uint (-1) (MP_BC_STORE_FAST_N + k) n]
  | C_store_global q k => [op_qstr (-1) (MP_BC_STORE_NAME + k) q]
  | C_delete_local n k => [op_uint 0 (MP_BC_DELETE_FAST + k) n]
  | C_delete_global q k => [op_qstr 0 (MP_BC_DELETE_NAME + k) q]
  | C_dup_top => [op 1 MP_BC_DUP_TOP]
  | C_dup_top_two => [op 2 MP_BC_DUP_TOP_TWO]
  | C_pop_top => [op (-1) MP_BC_POP_TOP]
  | C_rot_two => [op 0 MP_BC_ROT_TWO]
  | C_rot_three => [op 0 MP_BC_ROT_THREE]
  | C_longyield => [op 0 MP_BC_LONGYIELD]
  | C_ipusyscall => [op 0 MP_BC_IPUSYSCALL]
  | C_jump l => [I_op 0 MP_BC_JUMP (M_slabel l) None]
  | C_pop_jump_if b l => [I_op (-1) (if b : bool then MP_BC_POP_JUMP_IF_TRUE else MP_BC_POP_JUMP_IF_FALSE) (M_slabel l) None]
  | C_jump_if_or_pop b l => [I_op (-1) (if b : bool then MP_BC_JUMP_IF_TRUE_OR_POP else MP_BC_JUMP_IF_FALSE_OR_POP) (M_slabel l) None]
  | C_unwind_jump l d =>
    let from_for := negb (Z.land l MP_EMIT_BREAK_FROM_FOR =? 0) in
    if d =? 0 then (if from_for then [I_pop; I_pop; I_pop; I_pop] else []) ++ [I_op 0 MP_BC_JUMP (M_slabel (break_label l)) None]
    else [I_op 0 MP_BC_UNWIND_JUMP (M_slabel (break_label l)) (Some (Z.lor (if from_for then 0x80 else 0) d))]
  | C_setup_block l k => [I_op (if k =? 0 then 2 else 0) (MP_BC_SETUP_WITH + k) (M_ulabel l) None]
  | C_with_cleanup l => [op 1 MP_BC_LOAD_CONST_NONE; I_label l; op 2 MP_BC_WITH_CLEANUP; I_adjust (-4)]
  | C_end_finally => [op (-1) MP_BC_END_FINALLY]
  | C_get_iter s => [if s : bool then op 3 MP_BC_GET_ITER_STACK else op 0 MP_BC_GET_ITER]
  | C_for_iter l => [I_op 1 MP_BC_FOR_ITER (M_ulabel l) None]
  | C_for_iter_end => [I_adjust (-4)]
  | C_pop_except_jump l => [I_op 0 MP_BC_POP_EXCEPT_JUMP (M_ulabel l) None]
  | C_unary_op o => [op 0 (MP_BC_UNARY_OP_MULTI + o)]
  | C_binary_op o =>
    if o =? MP_BINARY_OP_NOT_IN then [op (-1) (MP_BC_BINARY_OP_MULTI + MP_BINARY_OP_IN); op 0 (MP_BC_UNARY_OP_MULTI + MP_UNARY_OP_NOT)]
    else if o =? MP_BINARY_OP_IS_NOT then [op (-1) (MP_BC_BINARY_OP_MULTI + MP_BINARY_OP_IS); op 0 (MP_BC_UNARY_OP_MULTI + MP_UNARY_OP_NOT)]
    else [op (-1) (MP_BC_BINARY_OP_MULTI + o)]
  | C_build n k => [op_uint (if k =? 2 then 1 else 1 - n) (MP_BC_BUILD_TUPLE + k) n]
  | C_store_map => [op (-2) MP_BC_STORE_MAP]
  | C_store_comp k i =>
    [match k with
     | SCOPE_LIST_COMP => op_uint (-1) MP_BC_STORE_COMP (4 * i)
     | SCOPE_DICT_COMP => op_uint (-2) MP_BC_STORE_COMP (4 * (i + 1) + 1)
     | _ => op_uint (-1) MP_BC_STORE_COMP (4 * i + 2)
     end]
  | C_unpack_sequence n => [op_uint (n - 1) MP_BC_UNPACK_SEQUENCE n]
  | C_unpack_ex l r => [op_uint (l + r) MP_BC_UNPACK_EX (Z.lor l (wrap 32 (Z.shiftl r 8)))]
  | C_make_function s p k =>
    [if (p =? 0) && (k =? 0) then I_op 1 MP_BC_MAKE_FUNCTION (M_child (raw_code s)) None
     else I_op (-1) MP_BC_MAKE_FUNCTION_DEFARGS (M_child (raw_code s)) None]
  | C_make_closure s n p k =>
    [if (p =? 0) && (k =? 0) then I_op (1 - n) MP_BC_MAKE_CLOSURE (M_child (raw_code s)) (Some n)
     else I_op (- 1 - n) MP_BC_MAKE_CLOSURE_DEFARGS (M_child (raw_code s)) (Some n)]
  | C_call_function p k s => call_items false p k s
  | C_call_method p k s => call_items true p k s
  | C_return_value => [op (-1) MP_BC_RETURN_VALUE; I_return]
  | C_raise_varargs n => [op (- n) (MP_BC_RAISE_LAST + n)]
  | C_yield k => [op (- k) (MP_BC_YIELD_VALUE + k); I_generator]
  | C_start_except_handler => [I_adjust 4]
  | C_end_except_handler => [I_adjust (-3)]
  end.

(** The arguments that the methods are for: kinds of the enumerations, counts of 16 bits, numbers of a machine word. *)
Definition call_ok (c : emit_call) : bool :=
  let count n := (0 <=? n) && (n <? 2 ^ 16) in
  let two k := (k =? 0) || (k =? 1) in
  match c with
  | C_import _ k | C_subscr k | C_attr _ k | C_setup_block _ k | C_raise_varargs k => two k || (k =? 2)
  | C_load_global _ k | C_store_global _ k | C_delete_global _ k | C_yield k => two k
  | C_load_const_tok t => bool_decide (t ∈ [MP_TOKEN_ELLIPSIS; MP_TOKEN_KW_FALSE; MP_TOKEN_KW_NONE; MP_TOKEN_KW_TRUE])
  | C_load_const_small_int n => (- 2 ^ 30 <=? n) && (n <? 2 ^ 30)
  | C_load_local n k | C_store_local n k | C_delete_local n k => count n && two k
  | C_unwind_jump _ d => (0 <=? d) && (d <? 128)
  | C_unary_op o => (0 <=? o) && (o <? MP_UNARY_OP_NUM_BYTECODE)
  | C_binary_op o => (0 <=? o) && (o <? MP_BINARY_OP_NUM_BYTECODE) || (o =? MP_BINARY_OP_NOT_IN) || (o =? MP_BINARY_OP_IS_NOT)
  | C_build n k => count n && (0 <=? k) && (k <=? 4) && ((k <? 4) || (n <? 128))
  | C_store_comp _ i => count i
  | C_unpack_sequence n => count n
  | C_unpack_ex l r => count l && count r
  | C_make_closure _ n _ _ => (0 <=? n) && (n <=? 255)
  | C_call_function p k _ | C_call_method p k _ => count p && count k
  | C_adjust_stack_size d => (- 2 ^ 16 <? d) && (d <? 2 ^ 16)
  | _ => true
  end.

Lemma run_items_app e ws1 ws2 : run_items e (ws1 ++ ws2) = let! e := run_items e ws1 in run_items e ws2.
Proof.
  revert e. induction ws1 as [|w ws1 IH]; intros e; [done|]. cbn [run_items app].
  destruct (run_item e w); cbn; [apply IH|done..].
Qed.

Lemma run_one e w : run_items e [w] = run_item e w.
Proof. cbn. by destruct (run_item e w). Qed.

Lemma run_op e adj o : run_item e (op adj o) = emit_write_bytecode_byte e adj o.
Proof. cbn. apply bind_Ret. Qed.

Lemma run_op_uint e adj o n : run_item e (op_uint adj o n) = emit_write_bytecode_byte_uint e adj o n.
Proof. cbn. apply bind_Ret. Qed.

Lemma run_op_qstr e adj o n : run_item e (op_qstr adj o n) = emit_write_bytecode_byte_qstr e adj o n.
Proof. cbn. apply bind_Ret. Qed.

Lemma two_kinds k : (k =? 0) || (k =? 1) = true -> k = 0 \/ k = 1.
Proof. lia. Qed.

Lemma three_kinds k : (k =? 0) || (k =? 1) || (k =? 2) = true -> k = 0 \/ k = 1 \/ k = 2.
Proof. lia. Qed.

Lemma call_helper_ok e method n_pos n_kw star : 0 <= n_pos < 2 ^ 16 -> 0 <= n_kw < 2 ^ 16 ->
  emit_bc_call_function_method_helper e (- b2z method) (if method then MP_BC_CALL_METHOD else MP_BC_CALL_FUNCTION) n_pos n_kw star =
  run_items e (call_items method n_pos n_kw star).
Proof.
  intros Hp Hk. unfold call_items. rewrite run_one. unfold emit_bc_call_function_method_helper.
  rewrite !swrap_small by lia. unfold sint. assert (0 <= b2z method <= 1) by (destruct method; cbn; lia).
  rewrite (proj2 (andb_true_iff _ _)) by lia. cbn [obind]. rewrite (proj2 (andb_true_iff _ _)) by lia. cbn [obind].
  destruct (star =? 0); cbn [negb]; (rewrite (proj2 (andb_true_iff _ _)) by lia; cbn [obind]).
  - rewrite run_op_uint. f_equal; lia.
  - rewrite (proj2 (andb_true_iff _ _)) by lia. cbn [obind]. rewrite run_op_uint. f_equal; lia.
Qed.

Lemma store_comp_operand i n t : 0 <= i < 2 ^ 16 -> 0 <= n <= 1 -> 0 <= t < 4 ->
  Z.lor (wrap 32 (Z.shiftl (wrap 32 (i + n)) 2)) t = 4 * (i + n) + t.
Proof.
  intros Hi Hn Ht. rewrite (wrap_small 32 (i + n)) by lia. rewrite wrap_small by (rewrite Z.shiftl_mul_pow2 by lia; lia).
  rewrite lor_shiftl_low by lia. lia.
Qed.

Lemma run_I_op e adj o m : run_item e (I_op adj o m None) =
  match m with
  | M_none => emit_write_bytecode_byte e adj o
  | M_uint n => emit_write_bytecode_byte_uint e adj o n
  | M_int n => emit_write_bytecode_byte_int e adj o n
  | M_obj o' => emit_write_bytecode_byte_obj e adj o o'
  | M_child rc => emit_write_bytecode_byte_child e adj o rc
  | M_ulabel l => emit_write_bytecode_byte_unsigned_label e adj o l
  | M_slabel l => emit_write_bytecode_byte_signed_label e adj o l
  end.
Proof. apply bind_Ret. Qed.

Lemma run_I_extra e adj o m b : run_item e (I_op adj o m (Some b)) =
  let! e := run_item e (I_op adj o m None) in emit_write_bytecode_raw_byte e b.
Proof. cbn [run_item]. by rewrite bind_Ret. Qed.

Ltac run_tac := rewrite ?run_one, ?run_op, ?run_op_uint, ?run_op_qstr, ?run_I_op; try reflexivity.
(** Several items one after the other. *)
Ltac run_seq :=
  cbn [run_items app]; rewrite ?obind_assoc, ?bind_Ret, ?run_op, ?run_op_uint, ?run_op_qstr, ?run_I_op;
  first [reflexivity | apply obind_ext; intros ?; run_seq | idtac].

Lemma run_local op1 op2 e adj n k : (0 <=? n) && (n <? 2 ^ 16) && ((k =? 0) || (k =? 1)) = true ->
  (if (k =? MP_EMIT_IDOP_LOCAL_FAST) && (n <=? 15) then emit_write_bytecode_byte e adj (op1 + n)
   else emit_write_bytecode_byte_uint e adj (op2 + k) n) =
  run_items e [if (k =? 0) && (n <=? 15) then op adj (op1 + n) else op_uint adj (op2 + k) n].
Proof. intros H. unfold MP_EMIT_IDOP_LOCAL_FAST. destruct (_ && (n <=? 15)); run_tac. Qed.

(** Every method does what its items say. *)
Lemma exec_call_items e c : call_ok c = true -> exec_call ellipsis e c = run_items e (items_of c).
Proof.
  intros Hok. destruct c; cbn [exec_call items_of call_ok] in *;
    try (run_tac; fail); try by apply run_local.
  - apply three_kinds in Hok as [->|[->| ->]]; cbn [Z.eqb Pos.eqb]; run_tac.
  - apply bool_decide_eq_true in Hok. rewrite !list.elem_of_cons in Hok. destruct Hok as [->|[->|[->|[->|Hok]]]]; [run_tac..|].
    by apply not_elem_of_nil in Hok.
  - unfold mp_emit_bc_load_const_small_int, MP_BC_LOAD_CONST_SMALL_INT_MULTI_EXCESS, MP_BC_LOAD_CONST_SMALL_INT_MULTI_NUM.
    replace (arg <? 64 - 16) with (arg <=? 47) by lia. change (- (16)) with (-16). clear Hok. destruct (_ && _); run_tac.
  - destruct is_super; run_tac.
  - apply three_kinds in Hok as [->|[->| ->]]; unfold mp_emit_bc_subscr, mp_emit_bc_load_null, mp_emit_bc_rot_three;
    cbn [Z.eqb MP_EMIT_SUBSCR_LOAD MP_EMIT_SUBSCR_DELETE Pos.eqb]; run_seq.
  - apply three_kinds in Hok as [->|[->| ->]]; unfold mp_emit_bc_attr, mp_emit_bc_load_null, mp_emit_bc_rot_two;
    cbn [Z.eqb MP_EMIT_ATTR_LOAD MP_EMIT_ATTR_DELETE Pos.eqb]; run_seq.
  - destruct cond; run_tac.
  - destruct cond; run_tac.
  - unfold mp_emit_bc_unwind_jump. destruct (except_depth =? 0).
    + destruct (negb _); [|cbn [app obind]; run_tac]. change (Z.to_nat _) with 3%nat. cbn [pop_iter_buf]. run_seq.
    + rewrite run_one, run_I_extra. run_seq.
  - unfold mp_emit_bc_with_cleanup. run_seq.
  - destruct use_stack; run_tac.
  - unfold mp_emit_bc_binary_op. destruct (op0 =? _); [run_seq|]. destruct (op0 =? _); run_seq.
  - unfold mp_emit_bc_build. change (kind =? MP_EMIT_BUILD_MAP) with (kind =? 2). rewrite swrap_small by lia. run_tac.
  - unfold mp_emit_bc_store_comp. destruct kind; repeat case_bool_decide; try done;
      cbv beta iota; rewrite store_comp_operand by lia; run_tac; f_equal; lia.
  - unfold mp_emit_bc_unpack_sequence. rewrite swrap_small by lia. run_tac. f_equal; lia.
  - unfold mp_emit_bc_unpack_ex. rewrite swrap_small by lia. run_tac. f_equal; lia.
  - unfold mp_emit_bc_make_function. destruct (_ && _); run_tac.
  - unfold mp_emit_bc_make_closure. destruct ((n_pos_defaults =? 0) && _); rewrite run_one, run_I_extra, run_I_op.
    + rewrite swrap_small by lia. by replace (- n_closed_over + 1) with (1 - n_closed_over) by lia.
    + rewrite (proj2 (Z.leb_le _ _)) by lia. by replace (-2 - n_closed_over + 1) with (-1 - n_closed_over) by lia.
  - apply (call_helper_ok e false); lia.
  - apply (call_helper_ok e true); lia.
  - unfold mp_emit_bc_return_value. run_seq.
  - unfold mp_emit_bc_raise_varargs. rewrite (proj2 (Z.leb_le _ _)) by lia. rewrite swrap_small by lia. run_tac.
  - unfold mp_emit_bc_yield. run_seq.
Qed.

Lemma exec_calls_items e cs : Forall (fun c => call_ok c = true) cs -> exec_calls ellipsis e cs = run_items e (cs ≫= items_of).
Proof.
  intros H. revert e. induction H as [|c cs Hc _ IH]; intros e; [done|]. cbn [exec_calls mbind list_bind].
  rewrite run_items_app, exec_call_items by done. destruct (run_items e (items_of c)); cbn; [apply IH|done..].
Qed.
End Items.
