(* ===== verification/EmitRun.v ===== *)
(** * Running items in a pass

    Between its start and its end a pass changes only some fields of the emitter: its depth and the depth of its scope,
    the counters, the labels, the code ([view]).  [view_next] is what an item does to them, in any pass; [run_items_ok]
    shows that the emitter does that, that no assert fails and nothing is written outside a buffer, under conditions on
    the whole list of items. *)

From S2P Require Import Prelude Malloc SmallInt Token Bytecode BytecodeNum BytecodeSpec Scope EmitBc EmitMethods EmitItems.
Local Open Scope Z_scope.

(** ** Views *)

Record view := { v_stack : Z; v_scope : scope_t; v_ret : bool; v_common : mp_emit_common_t; v_labels : list Z; v_off : Z; v_code : list Z }.

Definition show (e : emit_t) (d : list Z) (v : view) : emit_t :=
  {| dummy_data := d; e_pass := e_pass e; last_emit_was_return_value := v_ret v; e_stack_size := v_stack v;
     emit_common := v_common v; e_scope := v_scope v; last_source_line_offset := last_source_line_offset e;
     last_source_line := last_source_line e; max_num_labels := max_num_labels e; label_offsets := Some (v_labels v);
     code_info_offset := code_info_offset e; code_info_size := code_info_size e; bytecode_offset := v_off v;
     bytecode_size := bytecode_size e; code_base := v_code v; n_info := n_info e; n_cell := n_cell e |}.

Definition emitting (e : emit_t) : bool := bool_decide (e_pass e = MP_PASS_EMIT).

Lemma emitting_spec e : e_pass e <> MP_PASS_SCOPE -> (pass_code (e_pass e) <? pass_code MP_PASS_EMIT) = negb (emitting e).
Proof. unfold emitting. by destruct (e_pass e). Qed.

(** [bs] written over [l] from [k] on. *)
Definition splice {A} (l : list A) (k : Z) (bs : list A) : list A := take (Z.to_nat k) l ++ bs ++ drop (Z.to_nat k + length bs) l.

Lemma length_splice {A} (l : list A) k bs : 0 <= k -> k + Z.of_nat (length bs) <= Z.of_nat (length l) -> length (splice l k bs) = length l.
Proof. intros. unfold splice. lens. Qed.

Lemma splice_nil {A} (l : list A) k : splice l k [] = l.
Proof. unfold splice. cbn. by rewrite Nat.add_0_r, take_drop. Qed.

Lemma splice_app {A} (l : list A) k b1 b2 : 0 <= k -> k + Z.of_nat (length b1) + Z.of_nat (length b2) <= Z.of_nat (length l) ->
  splice (splice l k b1) (k + Z.of_nat (length b1)) b2 = splice l k (b1 ++ b2).
Proof.
  intros Hk Hl. unfold splice. assert (length (take (Z.to_nat k) l) = Z.to_nat k) as E by (rewrite length_take; lia).
  replace (Z.to_nat (k + Z.of_nat (length b1))) with (Z.to_nat k + length b1)%nat by lia.
  rewrite (app_assoc (take _ l)). assert (length (take (Z.to_nat k) l ++ b1) = (Z.to_nat k + length b1)%nat) as E2 by (rewrite length_app; lia).
  rewrite <- E2 at 1. rewrite take_app_length, drop_app_ge by lia. rewrite E2, drop_drop, <- !app_assoc, length_app. do 4 f_equal. lia.

Qed.

Definition after_bytes (e : emit_t) (v : view) (bs : list Z) : view :=
  {| v_stack := v_stack v; v_scope := v_scope v; v_ret := v_ret v; v_common := v_common v; v_labels := v_labels v;
     v_off := v_off v + Z.of_nat (length bs);
     v_code := if emitting e then splice (v_code v) (code_info_size e + v_off v) bs else v_code v |}.

(** Room for [n] bytes. *)
Definition room (e : emit_t) (v : view) (n : Z) : Prop :=
  e_pass e <> MP_PASS_SCOPE /\ 0 <= v_off v /\ v_off v + n < 2 ^ 30 /\
  (emitting e = true -> 0 <= code_info_size e /\ v_off v + n <= bytecode_size e /\ Z.of_nat (length (v_code v)) = code_info_size e + bytecode_size e).

Lemma after_bytes_app e v b1 b2 : room e v (Z.of_nat (length b1 + length b2)) ->
  after_bytes e (after_bytes e v b1) b2 = after_bytes e v (b1 ++ b2).
Proof.
  intros (_ & H0 & _ & He). unfold after_bytes. cbn. f_equal; [lens|]. destruct (emitting e); [|done].
  destruct He as (Hc & H1 & H2); [done|]. rewrite Z.add_assoc, splice_app by lia. done.
Qed.

Lemma room_le e v n m : room e v n -> m <= n -> room e v m.
Proof. intros (? & ? & ? & H) Hm. split_and!; [done..|lia|]. intros E. apply H in E. lia. Qed.

Lemma room_after e v bs n : room e v (Z.of_nat (length bs) + n) -> 0 <= n -> room e (after_bytes e v bs) n.
Proof.
  intros (? & ? & ? & H) Hn. unfold room. cbn. split_and!; [done|lia..|]. intros E. rewrite E.
  apply H in E as (E0 & E1 & E2). rewrite length_splice by lia. lia.
Qed.

(** Writing bytes to the buffer of the emitter, and to the code. *)
Lemma emit_store_all_dummy e i bs : length (dummy_data e) = 5%nat -> 0 <= i -> i + Z.of_nat (length bs) <= 5 ->
  exists d', emit_store_all e P_dummy i bs = Ret (with_dummy e d') /\ length d' = 5%nat.
Proof.
  revert e i. induction bs as [|b bs IH]; intros e i Hd Hi Hl; cbn [emit_store_all].
  - exists (dummy_data e). by destruct e.
  - cbn [length] in Hl. cbn [emit_store]. rewrite wr_Ret by lia. cbn [obind].
    destruct (IH (with_dummy e (<[Z.to_nat i := wrap 8 b]> (dummy_data e))) (i + 1)) as (d' & -> & Hd'); [by cbn; rewrite length_insert|lia..|].
    by exists d'.
Qed.

Lemma emit_store_all_code e off i bs : 0 <= off -> 0 <= i -> off + i + Z.of_nat (length bs) <= Z.of_nat (length (code_base e)) ->
  emit_store_all e (P_code off) i bs = Ret (with_code_base e (splice (code_base e) (off + i) (wrap 8 <$> bs))).
Proof.
  revert e i. induction bs as [|b bs IH]; intros e i Ho Hi Hl; cbn [emit_store_all].
  - cbn. rewrite splice_nil. by destruct e.
  - cbn [length] in Hl. cbn [emit_store]. rewrite wr_Ret by lia. cbn [obind].
    assert (<[Z.to_nat (off + i) := wrap 8 b]> (code_base e) = splice (code_base e) (off + i) [wrap 8 b]) as ->.
    { unfold splice. cbn. rewrite insert_take_drop by lia. by rewrite Nat.add_1_r. }
    assert (length (splice (code_base e) (off + i) [wrap 8 b]) = length (code_base e)) as Hlen by (apply length_splice; cbn [length]; lia).
    rewrite (IH _ (i + 1)) by (cbn [with_code_base code_base]; lia). cbn. do 2 f_equal.
    replace (off + (i + 1)) with (off + i + Z.of_nat (length [wrap 8 b])) by (cbn; lia).
    rewrite splice_app by (cbn [length]; rewrite ?length_fmap; lia). done.
Qed.

(** [emit_bytes] in any pass. *)
Lemma emit_bytes_ok e d v bs : length d = 5%nat -> (length bs <= 5)%nat -> room e v (Z.of_nat (length bs)) ->
  exists d', emit_bytes (show e d v) bs = Ret (show e d' (after_bytes e v (wrap 8 <$> bs))) /\ length d' = 5%nat.
Proof.
  intros Hd Hl (Hp & H0 & H1 & He). unfold emit_bytes, emit_get_cur_to_write_bytecode. cbn [show e_pass bytecode_offset].
  rewrite emitting_spec by done. unfold after_bytes. rewrite length_fmap. destruct (emitting e) eqn:E; cbn [negb].
  - destruct He as (Hc & H2 & H3); [done|]. rewrite wrap_small by lia. cbn [show bytecode_size code_info_size]. rewrite (proj2 (Z.leb_le _ _)) by lia. cbn [obind].
    exists d. split; [|done].
    set (v' := {| v_stack := v_stack v; v_scope := v_scope v; v_ret := v_ret v; v_common := v_common v; v_labels := v_labels v;
                  v_off := v_off v + Z.of_nat (length bs); v_code := v_code v |}).
    change (with_bytecode_offset _ _) with (show e d v'). rewrite emit_store_all_code by (cbn [show code_base v_code v']; lia). cbn. by rewrite Z.add_0_r.
  - cbn [obind]. rewrite wrap_small by lia.
    set (v' := {| v_stack := v_stack v; v_scope := v_scope v; v_ret := v_ret v; v_common := v_common v; v_labels := v_labels v;
                  v_off := v_off v + Z.of_nat (length bs); v_code := v_code v |}).
    change (with_bytecode_offset _ _) with (show e d v').
    destruct (emit_store_all_dummy (show e d v') 0 bs) as (d' & -> & Hd'); [done|lia..|]. by exists d'.
Qed.

Lemma put_bytes_emit e c i bs : put_bytes emit_store e c i bs = emit_store_all e c i bs.
Proof. revert e i. induction bs as [|b bs IH]; intros e i; [done|]. cbn. destruct (emit_store e c i b); cbn; auto. Qed.

Lemma write_bytes_emit e bs : write_bytes emit_get_cur_to_write_bytecode emit_store e bs = emit_bytes e bs.
Proof.
  unfold write_bytes, emit_bytes, emit_get_cur_to_write_bytecode.
  destruct (_ <? _); cbn [obind]; [apply put_bytes_emit|]. destruct (_ <=? _); cbn [obind]; [apply put_bytes_emit|done].
Qed.

Lemma bytecode_not_null e n e' : emit_get_cur_to_write_bytecode e n = Ret (e', None) -> False.
Proof. unfold emit_get_cur_to_write_bytecode. repeat destruct (_ : bool); discriminate. Qed.

(** ** The effect of an item *)

Definition item_objs (w : item) : list Z := match w with I_op _ _ (M_obj o) _ => [o] | _ => [] end.
Definition item_children (w : item) : list Z := match w with I_op _ _ (M_child rc) _ => [rc] | _ => [] end.

(** The labels that an item jumps to. *)
Definition item_uses (w : item) : list Z := match w with I_op _ _ (M_ulabel l) _ | I_op _ _ (M_slabel l) _ => [l] | _ => [] end.

(** The offset of a label. *)
Definition target (labs : list Z) (l : Z) : Z := nth (Z.to_nat l) labs 0.

(** The two bytes of a label. *)
Definition label_bytes (r : Z) : list Z := [wrap 8 r; wrap 8 (Z.shiftr r 8)].

(** The bytes of an operand that ends before [after] when it is a label; [obj] and [child] are the numbers of the next
    constant and the next function. *)
Definition meaning_bytes (labs : list Z) (after obj child : Z) (m : meaning) : list Z :=
  match m with
  | M_none => []
  | M_uint n => var_uint n
  | M_int n => var_int n
  | M_obj _ => var_uint obj
  | M_child _ => var_uint child
  | M_ulabel l => label_bytes (target labs l - after)
  | M_slabel l => label_bytes (target labs l - after + 0x8000)
  end.

Definition item_bytes (labs : list Z) (off obj child : Z) (w : item) : list Z :=
  match w with
  | I_op _ op m x => wrap 8 op :: meaning_bytes labs (off + 3) obj child m ++ match x with Some b => [wrap 8 b] | None => [] end
  | I_pop => [MP_BC_POP_TOP]
  | _ => []
  end.

Definition adj_of (w : item) : option Z :=
  match w with I_op adj _ _ _ => Some adj | I_adjust d => Some d | I_label _ => Some 0 | _ => None end.

Definition grow (s : scope_t) (n : Z) : scope_t := if stack_size s <? n then with_stack_size s n else s.

Definition view_adjust (v : view) (d : Z) : view :=
  {| v_stack := v_stack v + d; v_scope := grow (v_scope v) (v_stack v + d); v_ret := false; v_common := v_common v;
     v_labels := v_labels v; v_off := v_off v; v_code := v_code v |}.

Definition put {A} (l : list A) (k : Z) (xs : list A) : list A := match xs with x :: _ => <[Z.to_nat k := x]> l | [] => l end.

Definition common_next (emit : bool) (c : mp_emit_common_t) (w : item) : mp_emit_common_t :=
  {| ec_pass := ec_pass c; ct_cur_obj_base := ct_cur_obj_base c;
     ct_cur_obj := ct_cur_obj c + Z.of_nat (length (item_objs w)); ct_cur_child := ct_cur_child c + Z.of_nat (length (item_children w));
     const_table := if emit then put (const_table c) (ct_cur_obj c) (item_objs w) else const_table c;
     children := if emit then put (children c) (ct_cur_child c) (item_children w) else children c |}.

Definition with_v_common (v : view) (c : mp_emit_common_t) : view :=
  {| v_stack := v_stack v; v_scope := v_scope v; v_ret := v_ret v; v_common := c; v_labels := v_labels v; v_off := v_off v;
     v_code := v_code v |}.

Definition view_bytes (e : emit_t) (v : view) (w : item) : list Z :=
  item_bytes (v_labels v) (v_off v) (ct_cur_obj (v_common v)) (ct_cur_child (v_common v)) w.

Definition view_next (e : emit_t) (v : view) (w : item) : view :=
  let a := match adj_of w with Some d => view_adjust v d | None => v end in
  let b := after_bytes e (with_v_common a (common_next (emitting e) (v_common v) w)) (view_bytes e v w) in
  match w with
  | I_label l =>
    {| v_stack := v_stack b; v_scope := v_scope b; v_ret := v_ret b; v_common := v_common b;
       v_labels := if emitting e then v_labels b else <[Z.to_nat l := v_off b]> (v_labels b); v_off := v_off b; v_code := v_code b |}
  | I_return =>
    {| v_stack := v_stack b; v_scope := v_scope b; v_ret := true; v_common := v_common b;
       v_labels := v_labels b; v_off := v_off b; v_code := v_code b |}
  | I_generator =>
    {| v_stack := v_stack b; v_scope := with_scope_flags (v_scope b) (Z.lor (scope_flags (v_scope b)) MP_SCOPE_FLAG_GENERATOR);
       v_ret := v_ret b; v_common := v_common b; v_labels := v_labels b; v_off := v_off b; v_code := v_code b |}
  | _ => b
  end.

(** Operands in range, labels below [n]. *)
Definition meaning_ok (n : Z) (m : meaning) : Prop :=
  match m with
  | M_uint k => 0 <= k < 2 ^ 32
  | M_int k => - 2 ^ 31 <= k < 2 ^ 31
  | M_ulabel l | M_slabel l => 0 <= l < n
  | _ => True
  end.

Definition item_ok (n : Z) (w : item) : Prop :=
  match w with I_op _ _ m _ => meaning_ok n m | I_label l => 0 <= l < n | _ => True end.

(** What an item needs in a state. *)
Definition can_run (e : emit_t) (v : view) (w : item) : Prop :=
  item_ok (max_num_labels e) w /\ (forall d, adj_of w = Some d -> 0 <= v_stack v + d < 2 ^ 16) /\
  room e v (Z.of_nat (length (view_bytes e v w))) /\ ec_pass (v_common v) = e_pass e /\
  Z.of_nat (length (v_labels v)) = max_num_labels e /\
  0 <= ct_cur_obj (v_common v) /\ ct_cur_obj (v_common v) + Z.of_nat (length (item_objs w)) < 2 ^ 16 /\
  0 <= ct_cur_child (v_common v) /\ ct_cur_child (v_common v) + Z.of_nat (length (item_children w)) < 2 ^ 16 /\
  (emitting e = true -> ct_cur_obj (v_common v) + Z.of_nat (length (item_objs w)) <= Z.of_nat (length (const_table (v_common v))) /\
                        ct_cur_child (v_common v) + Z.of_nat (length (item_children w)) <= Z.of_nat (length (children (v_common v)))) /\
  (emitting e = true -> Forall (fun l => 0 <= target (v_labels v) l < 2 ^ 30) (item_uses w)) /\
  (forall l, w = I_label l -> v_labels v !! Z.to_nat l = Some (if emitting e then v_off v else wrap 32 (-1))).

Lemma adjust_ok e d v n : e_pass e <> MP_PASS_SCOPE -> 0 <= v_stack v + n < 2 ^ 16 ->
  mp_emit_bc_adjust_stack_size (show e d v) n = Ret (show e d (view_adjust v n)).
Proof.
  intros Hp Hn. unfold mp_emit_bc_adjust_stack_size. cbn [show e_pass e_stack_size e_scope]. rewrite bool_decide_false by done.
  unfold sint. rewrite (proj2 (andb_true_iff _ _)) by lia. cbn [obind]. rewrite (proj2 (Z.leb_le _ _)) by lia.
  rewrite wrap_small by lia. done.
Qed.

Lemma alloc_obj_ok e c o : ec_pass c = e_pass e -> 0 <= ct_cur_obj c -> ct_cur_obj c + 1 < 2 ^ 16 ->
  (emitting e = true -> ct_cur_obj c + 1 <= Z.of_nat (length (const_table c))) ->
  mp_emit_common_alloc_const_obj c o = Ret (common_next (emitting e) c (I_op 0 0 (M_obj o) None), ct_cur_obj c).
Proof.
  intros Hp H0 H1 He. unfold mp_emit_common_alloc_const_obj, common_next. rewrite Hp. change (bool_decide _) with (emitting e).
  cbn. rewrite wrap_small by lia. rewrite Z.add_0_r. destruct (emitting e); [|done]. rewrite wr_Ret by lia. done.
Qed.

Lemma alloc_child_ok e c o : ec_pass c = e_pass e -> 0 <= ct_cur_child c -> ct_cur_child c + 1 < 2 ^ 16 ->
  (emitting e = true -> ct_cur_child c + 1 <= Z.of_nat (length (children c))) ->
  mp_emit_common_alloc_const_child c o = Ret (common_next (emitting e) c (I_op 0 0 (M_child o) None), ct_cur_child c).
Proof.
  intros Hp H0 H1 He. unfold mp_emit_common_alloc_const_child, common_next. rewrite Hp. change (bool_decide _) with (emitting e).
  cbn. rewrite wrap_small by lia. rewrite Z.add_0_r. destruct (emitting e); [|done]. rewrite wr_Ret by lia. done.
Qed.

Lemma after_bytes_count e v b1 b2 : emitting e = false -> length b1 = length b2 -> after_bytes e v b1 = after_bytes e v b2.
Proof. intros E Hl. unfold after_bytes. by rewrite E, Hl. Qed.

Lemma wrap8_byte l : Forall byte l -> wrap 8 <$> l = l.
Proof. induction 1 as [|b l Hb _ IH]; [done|]. cbn. rewrite IH. f_equal. apply wrap_small. unfold byte in Hb; lia. Qed.

Lemma length_view_bytes_op labs off obj child adj o m x :
  length (item_bytes labs off obj child (I_op adj o m x)) =
  (1 + length (meaning_bytes labs (off + 3) obj child m) + match x with Some _ => 1 | None => 0 end)%nat.
Proof. unfold item_bytes. cbn [length]. rewrite length_app. destruct x; cbn; lia. Qed.

(** The opcode, and a number or nothing. *)
Lemma write_byte_ok e d v adj o : length d = 5%nat -> 0 <= v_stack v + adj < 2 ^ 16 -> room e v 1 ->
  exists d', emit_write_bytecode_byte (show e d v) adj o = Ret (show e d' (after_bytes e (view_adjust v adj) [wrap 8 o])) /\ length d' = 5%nat.
Proof.
  intros Hd Hs Hr. unfold emit_write_bytecode_byte. rewrite adjust_ok by (done || apply Hr). cbn [obind].
  apply (emit_bytes_ok e d (view_adjust v adj) [o]); [done|cbn; lia|exact Hr].
Qed.

Lemma write_uint_ok e d v adj o n : length d = 5%nat -> 0 <= v_stack v + adj < 2 ^ 16 -> 0 <= n < 2 ^ 32 ->
  room e v (1 + Z.of_nat (length (var_uint n))) ->
  exists d', emit_write_bytecode_byte_uint (show e d v) adj o n =
    Ret (show e d' (after_bytes e (view_adjust v adj) (wrap 8 o :: var_uint n))) /\ length d' = 5%nat.
Proof.
  intros Hd Hs Hn Hr. unfold emit_write_bytecode_byte_uint.
  destruct (write_byte_ok e d v adj o) as (d1 & -> & Hd1); [done..|by eapply room_le; [exact Hr|lia]|]. cbn [obind].
  rewrite mp_encode_uint_ok, write_bytes_emit by done.
  destruct (emit_bytes_ok e d1 (after_bytes e (view_adjust v adj) [wrap 8 o]) (var_uint n)) as (d2 & -> & Hd2); [done| | |].
  - rewrite length_var_uint. pose proof (uint_len_bound n Hn). lia.
  - apply room_after; [|lia]. exact Hr.
  - exists d2. split; [|done]. rewrite wrap8_byte by apply var_uint_byte. rewrite after_bytes_app; [done|].
    eapply room_le; [exact Hr|cbn; lia].
Qed.

Lemma write_int_ok e d v adj o n : length d = 5%nat -> 0 <= v_stack v + adj < 2 ^ 16 -> - 2 ^ 31 <= n < 2 ^ 31 ->
  room e v (1 + Z.of_nat (length (var_int n))) ->
  exists d', emit_write_bytecode_byte_int (show e d v) adj o n =
    Ret (show e d' (after_bytes e (view_adjust v adj) (wrap 8 o :: var_int n))) /\ length d' = 5%nat.
Proof.
  intros Hd Hs Hn Hr. unfold emit_write_bytecode_byte_int.
  destruct (write_byte_ok e d v adj o) as (d1 & -> & Hd1); [done..|by eapply room_le; [exact Hr|lia]|]. cbn [obind].
  rewrite encode_int_ok, write_bytes_emit by (done || apply bytecode_not_null).
  destruct (emit_bytes_ok e d1 (after_bytes e (view_adjust v adj) [wrap 8 o]) (var_int n)) as (d2 & -> & Hd2); [done| | |].
  - rewrite length_var_int. pose proof (int_len_bound n Hn). lia.
  - apply room_after; [|lia]. exact Hr.
  - exists d2. split; [|done]. rewrite wrap8_byte by apply var_int_byte. rewrite after_bytes_app; [done|].
    eapply room_le; [exact Hr|cbn; lia].
Qed.

Lemma label_wrap r : - 2 ^ 31 <= r < 2 ^ 31 -> label_bytes (wrap 32 r) = label_bytes r.
Proof.
  intros Hr. assert (exists k, wrap 32 r = r + k * 2 ^ 32) as [k ->].
  { exists (- (r / 2 ^ 32)). unfold wrap. rewrite Z.mod_eq by lia. lia. }
  unfold label_bytes. rewrite !Z.shiftr_div_pow2 by lia.
  replace (r + k * 2 ^ 32) with (r + k * 2 ^ 24 * 2 ^ 8) by lia. rewrite Z.div_add by lia. unfold wrap.
  rewrite Z.mod_add by lia. replace (k * 2 ^ 24) with (k * 2 ^ 16 * 2 ^ 8) by lia. by rewrite Z.mod_add by lia.
Qed.

Lemma label_offset_ok e d v l : 0 <= l < Z.of_nat (length (v_labels v)) -> label_offset (show e d v) l = Ret (target (v_labels v) l).
Proof.
  intros Hl. unfold label_offset. cbn [show label_offsets]. apply rd_Ret; [lia|]. unfold target.
  destruct (lookup_lt_is_Some_2 (v_labels v) (Z.to_nat l)) as [x Hx]; [lia|]. rewrite Hx. f_equal. symmetry. by apply nth_lookup_Some.
Qed.

(** A label: two bytes of zeros before the last pass, the distance in the last. *)
Section Labels.
Context (e : emit_t) (d : list Z) (v : view) (adj o l : Z).
Context (Hd : length d = 5%nat) (Hs : 0 <= v_stack v + adj < 2 ^ 16) (Hl : 0 <= l < Z.of_nat (length (v_labels v))).
Context (Ht : emitting e = true -> 0 <= target (v_labels v) l < 2 ^ 30) (Hr : room e v 3).

Lemma write_label_bytes off r : (emitting e = true -> label_bytes off = label_bytes r) ->
  exists d', emit_bytes (show e d (view_adjust v adj)) [o; off; Z.shiftr off 8] =
    Ret (show e d' (after_bytes e (view_adjust v adj) (wrap 8 o :: label_bytes r))) /\ length d' = 5%nat.
Proof.
  clear Ht. intros Hoff. destruct (emit_bytes_ok e d (view_adjust v adj) [o; off; Z.shiftr off 8]) as (d' & -> & Hd'); [done|cbn; lia|exact Hr|].
  exists d'. split; [|done]. do 2 f_equal. destruct (emitting e) eqn:E.
  - specialize (Hoff eq_refl). unfold label_bytes in *. cbn. by rewrite Hoff.
  - by apply after_bytes_count.
Qed.

Lemma write_ulabel_ok : exists d', emit_write_bytecode_byte_unsigned_label (show e d v) adj o l =
  Ret (show e d' (after_bytes e (view_adjust v adj) (wrap 8 o :: label_bytes (target (v_labels v) l - (v_off v + 3))))) /\ length d' = 5%nat.
Proof.
  pose proof Hr as (Hp & H0 & H1 & _). unfold emit_write_bytecode_byte_unsigned_label.
  rewrite adjust_ok by done. cbn [obind]. change (e_pass (show _ _ _)) with (e_pass e). rewrite emitting_spec by done.
  destruct (emitting e) eqn:E; cbn [negb obind].
  - rewrite label_offset_ok by done. cbn [obind]. apply write_label_bytes. intros _.
    change (v_labels (view_adjust v adj)) with (v_labels v). change (bytecode_offset _) with (v_off v). specialize (Ht eq_refl).
    rewrite label_wrap by lia. f_equal. lia.
  - apply write_label_bytes. by rewrite E.
Qed.

Lemma write_slabel_ok : exists d', emit_write_bytecode_byte_signed_label (show e d v) adj o l =
  Ret (show e d' (after_bytes e (view_adjust v adj) (wrap 8 o :: label_bytes (target (v_labels v) l - (v_off v + 3) + 0x8000)))) /\ length d' = 5%nat.
Proof.
  pose proof Hr as (Hp & H0 & H1 & _). unfold emit_write_bytecode_byte_signed_label.
  rewrite adjust_ok by done. cbn [obind]. change (e_pass (show _ _ _)) with (e_pass e). rewrite emitting_spec by done.
  destruct (emitting e) eqn:E; cbn [negb obind].
  - rewrite label_offset_ok by done. cbn [obind]. apply write_label_bytes. intros _.
    change (v_labels (view_adjust v adj)) with (v_labels v). change (bytecode_offset _) with (v_off v). specialize (Ht eq_refl).
    rewrite swrap_small by lia. f_equal. lia.
  - apply write_label_bytes. by rewrite E.
Qed.
End Labels.

Lemma write_raw_ok e d v b : length d = 5%nat -> room e v 1 ->
  exists d', emit_write_bytecode_raw_byte (show e d v) b = Ret (show e d' (after_bytes e v [wrap 8 b])) /\ length d' = 5%nat.
Proof. intros Hd Hr. by apply (emit_bytes_ok e d v [b]); [|cbn; lia|]. Qed.

Lemma label_assign_ok e d v l : e_pass e <> MP_PASS_SCOPE -> 0 <= v_stack v < 2 ^ 16 -> 0 <= l < max_num_labels e ->
  v_labels v !! Z.to_nat l = Some (if emitting e then v_off v else wrap 32 (-1)) ->
  mp_emit_bc_label_assign (show e d v) l = Ret (show e d (view_next e v (I_label l))).
Proof.
  intros Hp Hs Hl Hv. unfold mp_emit_bc_label_assign. rewrite adjust_ok by lia || done. cbn [obind].
  change (e_pass (show _ _ _)) with (e_pass e). rewrite bool_decide_false by done. change (max_num_labels (show _ _ _)) with (max_num_labels e).
  rewrite (proj2 (Z.ltb_lt _ _)) by lia. cbn [label_offsets show v_labels view_adjust]. rewrite (rd_Ret _ _ _ (proj1 Hl) Hv). cbn [obind].
  rewrite emitting_spec by done. unfold view_next. cbn [adj_of view_bytes item_bytes]. unfold after_bytes, common_next. cbn -[splice].
  rewrite Z.add_0_r. destruct (emitting e) eqn:E; cbn [negb].
  - rewrite Z.eqb_refl, splice_nil. unfold show. cbn. by rewrite !Z.add_0_r; destruct (v_common v).
  - rewrite Z.eqb_refl. rewrite wr_Ret by (apply lookup_lt_Some in Hv; lia). unfold show. cbn. rewrite !Z.add_0_r. by destruct (v_common v).
Qed.

Lemma common_next_nil em c w : item_objs w = [] -> item_children w = [] -> common_next em c w = c.
Proof. intros Ho Hc. unfold common_next. rewrite Ho, Hc. cbn. rewrite !Z.add_0_r. destruct c, em; done. Qed.

Lemma with_v_common_id v : with_v_common v (v_common v) = v.
Proof. by destruct v. Qed.

Lemma with_v_common_adjust v d : with_v_common (view_adjust v d) (v_common v) = view_adjust v d.
Proof. done. Qed.

(** The writer of an instruction, without the byte after it. *)
Lemma run_op_ok e d v adj o m : length d = 5%nat -> can_run e v (I_op adj o m None) ->
  exists d', run_item (show e d v) (I_op adj o m None) = Ret (show e d' (view_next e v (I_op adj o m None))) /\ length d' = 5%nat.
Proof.
  intros Hd (Hok & Hs & Hr & Hp & Hl & Ho0 & Ho1 & Hc0 & Hc1 & He & Hu & _). specialize (Hs adj eq_refl).
  rewrite run_I_op. unfold view_next, view_bytes in *. cbn [adj_of] in *. rewrite length_view_bytes_op in Hr. cbn [item_bytes].
  rewrite app_nil_r. destruct m; cbn [meaning_bytes item_ok meaning_ok item_uses item_objs item_children length] in *.
  - rewrite common_next_nil, with_v_common_adjust by done. apply write_byte_ok; [done..|by eapply room_le; [exact Hr|lia]].
  - rewrite common_next_nil, with_v_common_adjust by done. apply write_uint_ok; [done..|by eapply room_le; [exact Hr|lia]].
  - rewrite common_next_nil, with_v_common_adjust by done. apply write_int_ok; [done..|by eapply room_le; [exact Hr|lia]].
  - unfold emit_write_bytecode_byte_obj, emit_write_bytecode_byte_const. change (emit_common (show e d v)) with (v_common v).
    rewrite (alloc_obj_ok e) by (done || lia || (intros E; apply He in E; lia)). cbn [obind].
    apply (write_uint_ok e d (with_v_common v _)); [done..|lia|by eapply room_le; [exact Hr|lia]].
  - unfold emit_write_bytecode_byte_child, emit_write_bytecode_byte_const. change (emit_common (show e d v)) with (v_common v).
    rewrite (alloc_child_ok e) by (done || lia || (intros E; apply He in E; lia)). cbn [obind].
    apply (write_uint_ok e d (with_v_common v _)); [done..|lia|by eapply room_le; [exact Hr|lia]].
  - rewrite common_next_nil, with_v_common_adjust by done. apply write_ulabel_ok; [done..|lia| |exact Hr].
    intros E. exact (proj1 (list.Forall_singleton _ _) (Hu E)).
  - rewrite common_next_nil, with_v_common_adjust by done. apply write_slabel_ok; [done..|lia| |exact Hr].
    intros E. exact (proj1 (list.Forall_singleton _ _) (Hu E)).
Qed.

Lemma view_next_extra e v adj o m b : can_run e v (I_op adj o m (Some b)) ->
  can_run e v (I_op adj o m None) /\ room e (view_next e v (I_op adj o m None)) 1 /\
  view_next e v (I_op adj o m (Some b)) = after_bytes e (view_next e v (I_op adj o m None)) [wrap 8 b].
Proof.
  intros (Hok & Hs & Hr & A1 & A2 & A3 & A4 & A5 & A6 & A7 & A8 & _). unfold view_bytes in Hr. rewrite length_view_bytes_op in Hr.
  split; [|split].
  - split; [exact Hok|]. split; [exact Hs|]. split; [|by split_and!]. unfold view_bytes. rewrite length_view_bytes_op. eapply room_le; [exact Hr|lia].
  - unfold view_next. cbn [adj_of]. apply room_after; [|lia]. unfold view_bytes. rewrite length_view_bytes_op. eapply room_le; [exact Hr|lia].
  - unfold view_next. cbn [adj_of]. change (common_next (emitting e) (v_common v) (I_op adj o m (Some b))) with (common_next (emitting e) (v_common v) (I_op adj o m None)).
    rewrite after_bytes_app.
    + unfold view_bytes, item_bytes. cbn [app]. by rewrite app_nil_r.
    + unfold view_bytes. rewrite length_view_bytes_op. eapply room_le; [exact Hr|cbn [length]; lia].
Qed.

Lemma run_item_ok e d v w : length d = 5%nat -> 0 <= v_stack v < 2 ^ 16 -> can_run e v w ->
  exists d', run_item (show e d v) w = Ret (show e d' (view_next e v w)) /\ length d' = 5%nat.
Proof.
  intros Hd H0 Hc. pose proof Hc as (Hok & Hs & Hr & Hp & Hl & _ & _ & _ & _ & _ & _ & Ha). destruct w as [adj o m [b|]| | | | |].
  - destruct (view_next_extra _ _ _ _ _ _ Hc) as (Hc' & Hr' & ->). rewrite run_I_extra.
    destruct (run_op_ok e d v adj o m Hd Hc') as (d1 & -> & Hd1). cbn [obind]. by apply write_raw_ok.
  - by apply run_op_ok.
  - cbn [run_item]. unfold view_next. cbn [adj_of]. rewrite common_next_nil, with_v_common_id by done.
    by apply (write_raw_ok e d v MP_BC_POP_TOP).
  - cbn [run_item]. rewrite adjust_ok by (apply Hr || by apply Hs). exists d. split; [|done]. unfold view_next. cbn [adj_of].
    rewrite common_next_nil by done. change (with_v_common _ _) with (view_adjust v d0).
    unfold after_bytes. cbn -[splice]. by rewrite splice_nil, Z.add_0_r; destruct (emitting e).
  - cbn [run_item]. rewrite label_assign_ok by (apply Hr || done || by apply Ha). by exists d.
  - exists d. split; [|done]. cbn [run_item]. unfold view_next. cbn [adj_of]. rewrite common_next_nil, with_v_common_id by done.
    unfold after_bytes. cbn -[splice]. by rewrite splice_nil, Z.add_0_r; destruct (emitting e).
  - exists d. split; [|done]. cbn [run_item]. unfold view_next. cbn [adj_of]. rewrite common_next_nil, with_v_common_id by done.
    unfold after_bytes. cbn -[splice]. by rewrite splice_nil, Z.add_0_r; destruct (emitting e).
Qed.

(** The conditions on a list of items, in the states that they go through. *)
Fixpoint can_run_all (e : emit_t) (v : view) (ws : list item) : Prop :=
  match ws with [] => True | w :: ws => can_run e v w /\ can_run_all e (view_next e v w) ws end.

Lemma view_next_stack e v w : v_stack (view_next e v w) = v_stack v + default 0 (adj_of w).
Proof. destruct w; cbn; lia. Qed.

Lemma run_items_ok e d v ws : length d = 5%nat -> 0 <= v_stack v < 2 ^ 16 -> can_run_all e v ws ->
  exists d', run_items (show e d v) ws = Ret (show e d' (foldl (view_next e) v ws)) /\ length d' = 5%nat.
Proof.
  revert d v. induction ws as [|w ws IH]; intros d v Hd H0 Hc; [by exists d|]. destruct Hc as [Hw Hws]. cbn [run_items foldl].
  destruct (run_item_ok e d v w Hd H0 Hw) as (d1 & -> & Hd1). cbn [obind]. apply IH; [done| |done].
  rewrite view_next_stack. destruct Hw as (_ & Hs & _). destruct (adj_of w) as [x|] eqn:E; cbn; [by apply Hs|lia].
Qed.
