(* ===== verification/EmitCode.v ===== *)
(** * The code of a list of items

    [assemble] is the code that a list of items stands for, [label_map] the offsets of its labels, [peak] its depth.
    [ready] collects what a pass needs at its start; [pass_ok] is the state at its end: the counters and labels before the
    last pass, the code in the last. *)

From S2P Require Import Prelude Malloc SmallInt Token Bytecode BytecodeNum BytecodeSpec Scope EmitBc EmitMethods EmitItems EmitRun.
Local Open Scope Z_scope.

Definition size_of (obj child : Z) (w : item) : Z := Z.of_nat (length (item_bytes [] 0 obj child w)).

Fixpoint assemble (labs : list Z) (off obj child : Z) (ws : list item) : list Z :=
  match ws with
  | [] => []
  | w :: ws =>
    item_bytes labs off obj child w ++
    assemble labs (off + size_of obj child w) (obj + Z.of_nat (length (item_objs w))) (child + Z.of_nat (length (item_children w))) ws
  end.

Definition label_of (off : Z) (w : item) : list (Z * Z) := match w with I_label l => [(l, off)] | _ => [] end.

Fixpoint label_map (off obj child : Z) (ws : list item) : list (Z * Z) :=
  match ws with
  | [] => []
  | w :: ws =>
    label_of off w ++
    label_map (off + size_of obj child w) (obj + Z.of_nat (length (item_objs w))) (child + Z.of_nat (length (item_children w))) ws
  end.

Fixpoint code_size (obj child : Z) (ws : list item) : Z :=
  match ws with
  | [] => 0
  | w :: ws => size_of obj child w + code_size (obj + Z.of_nat (length (item_objs w))) (child + Z.of_nat (length (item_children w))) ws
  end.

Definition labels_of (ws : list item) : list Z := ws ≫= (fun w => match w with I_label l => [l] | _ => [] end).
Definition uses_of (ws : list item) : list Z := ws ≫= item_uses.
Definition objs_of (ws : list item) : list Z := ws ≫= item_objs.
Definition children_of (ws : list item) : list Z := ws ≫= item_children.

Definition depth_next (st : Z) (w : item) : Z := st + default 0 (adj_of w).

(** The depth is never negative, and fits in the [uint16_t] of the scope. *)
Fixpoint depth_ok (st : Z) (ws : list item) : bool :=
  match ws with
  | [] => true
  | w :: ws => (0 <=? depth_next st w) && (depth_next st w <? 2 ^ 16) && depth_ok (depth_next st w) ws
  end.

Fixpoint peak (st : Z) (ws : list item) : Z :=
  match ws with
  | [] => 0
  | w :: ws => match adj_of w with Some d => Z.max (st + d) (peak (st + d) ws) | None => peak st ws end
  end.

Definition is_generator (ws : list item) : bool := existsb (fun w => match w with I_generator => true | _ => false end) ws.

(** What a pass does to the scope. *)
Definition scope_after (s : scope_t) (ws : list item) (st : Z) : scope_t :=
  let s := with_stack_size s (Z.max (stack_size s) (peak st ws)) in
  if is_generator ws then with_scope_flags s (Z.lor (scope_flags s) MP_SCOPE_FLAG_GENERATOR) else s.

Lemma length_item_bytes labs off labs' off' obj child w :
  length (item_bytes labs off obj child w) = length (item_bytes labs' off' obj child w).
Proof. destruct w as [? ? m x| | | | |]; [|done..]. rewrite !length_view_bytes_op. by destruct m. Qed.

Lemma size_item labs off obj child w : Z.of_nat (length (item_bytes labs off obj child w)) = size_of obj child w.
Proof. unfold size_of. by rewrite (length_item_bytes labs off [] 0). Qed.

Lemma size_of_nonneg obj child w : 0 <= size_of obj child w.
Proof. unfold size_of. lia. Qed.

Lemma code_size_nonneg obj child ws : 0 <= code_size obj child ws.
Proof.
  revert obj child. induction ws as [|w ws IH]; intros obj child; cbn [code_size]; [lia|].
  pose proof (size_of_nonneg obj child w). pose proof (IH (obj + Z.of_nat (length (item_objs w))) (child + Z.of_nat (length (item_children w)))). lia.
Qed.

Lemma length_assemble labs off obj child ws : Z.of_nat (length (assemble labs off obj child ws)) = code_size obj child ws.
Proof.
  revert off obj child. induction ws as [|w ws IH]; intros off obj child; [done|]. cbn [assemble code_size].
  rewrite length_app, Nat2Z.inj_add, size_item, IH. done.
Qed.

Lemma peak_nonneg st ws : depth_ok st ws = true -> 0 <= peak st ws < 2 ^ 16.
Proof.
  revert st. induction ws as [|w ws IH]; intros st; cbn [peak depth_ok]; [lia|]. unfold depth_next.
  intros [Hd%andb_true_iff Hws]%andb_true_iff. specialize (IH _ Hws). destruct (adj_of w); cbn in *; [lia|].
  by rewrite Z.add_0_r in IH.
Qed.

Lemma scope_after_eta s : 0 <= stack_size s -> scope_after s [] 0 = s.
Proof. intros H. unfold scope_after. cbn. rewrite Z.max_l by lia. by destruct s. Qed.

(** ** Projections of the state after a list of items *)

Lemma view_next_common e v w : v_common (view_next e v w) = common_next (emitting e) (v_common v) w.
Proof. destruct w; cbn; done. Qed.

Lemma view_next_off e v w : v_off (view_next e v w) = v_off v + size_of (ct_cur_obj (v_common v)) (ct_cur_child (v_common v)) w.
Proof. rewrite <- (size_item (v_labels v) (v_off v)). destruct w as [? ? ? ?| | | | |]; done. Qed.

Lemma view_next_code e v w : v_code (view_next e v w) =
  if emitting e then splice (v_code v) (code_info_size e + v_off v) (view_bytes e v w) else v_code v.
Proof. destruct w as [? ? ? ?| | | | |]; done. Qed.

Lemma view_next_labels e v w : v_labels (view_next e v w) =
  match w with I_label l => if emitting e then v_labels v else <[Z.to_nat l := v_off v]> (v_labels v) | _ => v_labels v end.
Proof. destruct w as [? ? ? ?| | | | |]; try done. cbn. by rewrite Z.add_0_r. Qed.

Lemma foldl_stack e v ws : v_stack (foldl (view_next e) v ws) = foldl depth_next (v_stack v) ws.
Proof. revert v. induction ws as [|w ws IH]; intros v; [done|]. cbn. by rewrite IH, view_next_stack. Qed.

Lemma foldl_off e v ws : v_off (foldl (view_next e) v ws) = v_off v + code_size (ct_cur_obj (v_common v)) (ct_cur_child (v_common v)) ws.
Proof.
  revert v. induction ws as [|w ws IH]; intros v; cbn [foldl code_size]; [lia|].
  rewrite IH, view_next_off, view_next_common. cbn [common_next ct_cur_obj ct_cur_child]. lia.
Qed.

Lemma foldl_labels_emit e v ws : emitting e = true -> v_labels (foldl (view_next e) v ws) = v_labels v.
Proof.
  intros E. revert v. induction ws as [|w ws IH]; intros v; [done|]. cbn [foldl]. rewrite IH, view_next_labels, E. by destruct w.
Qed.

Lemma foldl_labels_count e v ws : emitting e = false -> v_labels (foldl (view_next e) v ws) =
  foldl (fun ls '(l, o) => <[Z.to_nat l := o]> ls) (v_labels v) (label_map (v_off v) (ct_cur_obj (v_common v)) (ct_cur_child (v_common v)) ws).
Proof.
  intros E. revert v. induction ws as [|w ws IH]; intros v; [done|]. cbn [foldl label_map].
  rewrite IH, view_next_labels, view_next_off, view_next_common, foldl_app, E. cbn [common_next ct_cur_obj ct_cur_child]. by destruct w.
Qed.

Lemma foldl_common_count e v ws : emitting e = false -> v_common (foldl (view_next e) v ws) =
  {| ec_pass := ec_pass (v_common v); ct_cur_obj_base := ct_cur_obj_base (v_common v);
     ct_cur_obj := ct_cur_obj (v_common v) + Z.of_nat (length (objs_of ws));
     ct_cur_child := ct_cur_child (v_common v) + Z.of_nat (length (children_of ws));
     const_table := const_table (v_common v); children := children (v_common v) |}.
Proof.
  intros E. revert v. induction ws as [|w ws IH]; intros v; cbn [foldl objs_of children_of mbind list_bind].
  - cbn. rewrite !Z.add_0_r. by destruct (v_common v).
  - rewrite IH, view_next_common, E. cbn [common_next ec_pass ct_cur_obj_base ct_cur_obj ct_cur_child const_table children].
    unfold objs_of, children_of. cbn [mbind list_bind]. rewrite !length_app. f_equal; lia.
Qed.

Lemma foldl_cur_obj e v ws : ct_cur_obj (v_common (foldl (view_next e) v ws)) = ct_cur_obj (v_common v) + Z.of_nat (length (objs_of ws)).
Proof.
  revert v. induction ws as [|w ws IH]; intros v; cbn [foldl objs_of mbind list_bind]; [cbn; lia|].
  rewrite IH, view_next_common. cbn [common_next ct_cur_obj]. unfold objs_of. cbn [mbind list_bind]. rewrite length_app. lia.
Qed.

Lemma scope_step e v w ws : depth_ok (v_stack v) (w :: ws) = true -> 0 <= stack_size (v_scope v) ->
  scope_after (v_scope (view_next e v w)) ws (v_stack (view_next e v w)) = scope_after (v_scope v) (w :: ws) (v_stack v).
Proof.
  intros Hd Hs. rewrite view_next_stack. cbn [depth_ok] in Hd. apply andb_true_iff in Hd as [Hd1 Hd2].
  apply peak_nonneg in Hd2. unfold depth_next in *. unfold scope_after. cbn [peak is_generator existsb].
  assert (Hg : forall n, 0 <= n -> with_stack_size (grow (v_scope v) n) (Z.max (stack_size (grow (v_scope v) n)) (peak n ws)) =
    with_stack_size (v_scope v) (Z.max (stack_size (v_scope v)) (Z.max n (peak n ws)))).
  { intros n Hn. unfold grow. destruct (Z.ltb_spec (stack_size (v_scope v)) n); cbn [stack_size with_stack_size]; unfold with_stack_size;
      cbn; f_equal; lia. }
  destruct w as [adj ? ? ?| | d | l | |]; cbn [adj_of default orb] in *; unfold view_next; cbn [adj_of v_scope after_bytes with_v_common view_adjust];
    rewrite ?Z.add_0_r in *; rewrite ?Hg by lia; try done.
  fold (is_generator ws). destruct (is_generator ws); [|done]. unfold with_scope_flags, with_defaults, with_stack_size. cbn. f_equal.
  rewrite <- Z.lor_assoc. by rewrite Z.lor_diag.
Qed.

Lemma stack_size_next e v w : (forall d, adj_of w = Some d -> 0 <= v_stack v + d) -> 0 <= stack_size (v_scope v) -> 0 <= stack_size (v_scope (view_next e v w)).
Proof.
  intros Hd Hs. assert (forall n, 0 <= n -> 0 <= stack_size (grow (v_scope v) n)) as Hg.
  { intros n Hn. unfold grow. destruct (_ <? _); cbn; lia. }
  destruct w as [adj ? ? ?| | d | l | |]; cbn in *; try done; apply Hg; by apply Hd.
Qed.

Lemma foldl_scope e v ws : depth_ok (v_stack v) ws = true -> 0 <= stack_size (v_scope v) ->
  v_scope (foldl (view_next e) v ws) = scope_after (v_scope v) ws (v_stack v).
Proof.
  revert v. induction ws as [|w ws IH]; intros v Hd Hs.
  - cbn [foldl]. unfold scope_after. cbn. rewrite Z.max_l by lia. by destruct (v_scope v).
  - cbn [foldl]. pose proof Hd as Hd'. cbn [depth_ok] in Hd. apply andb_true_iff in Hd as [Hd1 Hd2]. rewrite IH.
    + by apply scope_step.
    + rewrite view_next_stack. exact Hd2.
    + apply stack_size_next; [|done]. intros d E. unfold depth_next in Hd1. rewrite E in Hd1. cbn in Hd1. lia.
Qed.

(** ** A pass *)

Section Ready.
Context (e : emit_t).

Record ready (v : view) (ws : list item) : Prop := {
  r_pass : e_pass e <> MP_PASS_SCOPE;
  r_common : ec_pass (v_common v) = e_pass e;
  r_items : Forall (item_ok (max_num_labels e)) ws;
  r_depth : depth_ok (v_stack v) ws = true;
  r_off : 0 <= v_off v /\ v_off v + code_size (ct_cur_obj (v_common v)) (ct_cur_child (v_common v)) ws < 2 ^ 30;
  r_obj : 0 <= ct_cur_obj (v_common v) /\ ct_cur_obj (v_common v) + Z.of_nat (length (objs_of ws)) < 2 ^ 16;
  r_child : 0 <= ct_cur_child (v_common v) /\ ct_cur_child (v_common v) + Z.of_nat (length (children_of ws)) < 2 ^ 16;
  r_len : Z.of_nat (length (v_labels v)) = max_num_labels e;
  r_count : emitting e = false -> NoDup (labels_of ws) /\ forall l, l ∈ labels_of ws -> v_labels v !! Z.to_nat l = Some (wrap 32 (-1));
  r_emit : emitting e = true ->
    (forall l o, (l, o) ∈ label_map (v_off v) (ct_cur_obj (v_common v)) (ct_cur_child (v_common v)) ws -> v_labels v !! Z.to_nat l = Some o) /\
    Forall (fun l => 0 <= target (v_labels v) l < 2 ^ 30) (uses_of ws) /\
    0 <= code_info_size e /\
    v_off v + code_size (ct_cur_obj (v_common v)) (ct_cur_child (v_common v)) ws <= bytecode_size e /\
    Z.of_nat (length (v_code v)) = code_info_size e + bytecode_size e /\
    ct_cur_obj (v_common v) + Z.of_nat (length (objs_of ws)) <= Z.of_nat (length (const_table (v_common v))) /\
    ct_cur_child (v_common v) + Z.of_nat (length (children_of ws)) <= Z.of_nat (length (children (v_common v)))
}.

Lemma length_put {A} (l : list A) k xs : length (put l k xs) = length l.
Proof. destruct xs; [done|apply length_insert]. Qed.

Lemma ready_room v w ws : ready v (w :: ws) -> room e v (size_of (ct_cur_obj (v_common v)) (ct_cur_child (v_common v)) w).
Proof.
  intros H. pose proof (r_off _ _ H) as [H0 H1]. cbn [code_size] in H1.
  match type of H1 with context [code_size ?a ?b ws] => pose proof (code_size_nonneg a b ws) end.
  split; [by eapply r_pass|]. split; [done|]. split; [lia|]. intros E. apply (r_emit _ _ H) in E as (_ & _ & Hc & Hb & Hl & _).
  cbn [code_size] in Hb. lia.
Qed.

Lemma ready_can_run v w ws : ready v (w :: ws) -> can_run e v w.
Proof.
  intros H. pose proof (ready_room _ _ _ H) as Hr. destruct H as [Hp Hcm Hi Hd Ho Hob Hch Hl Hcn He].
  apply list.Forall_cons in Hi as [Hi _]. unfold objs_of, children_of in *. cbn [mbind list_bind] in *. rewrite length_app in *.
  split; [done|]. split.
  { intros d Ew. cbn [depth_ok] in Hd. apply andb_true_iff in Hd as [Hd _]. unfold depth_next in Hd. rewrite Ew in Hd. cbn in Hd. lia. }
  split; [unfold view_bytes; by rewrite size_item|]. split; [done|]. split; [done|]. split; [lia|]. split; [lia|]. split; [lia|]. split; [lia|].
  split.
  { intros E. apply He in E as (_ & _ & _ & _ & _ & H1 & H2). rewrite !length_app in *. lia. }
  split.
  { intros E. apply He in E as (_ & Hu & _). unfold uses_of in Hu. cbn [mbind list_bind] in Hu. by apply list.Forall_app in Hu as [Hu _]. }
  intros l ->. destruct (emitting e).
  - destruct (He eq_refl) as (Hm & _). apply Hm. cbn [label_map label_of app]. by left.
  - destruct (Hcn eq_refl) as (_ & Hm). apply Hm. cbn. by left.
Qed.

Lemma ready_next v w ws : ready v (w :: ws) -> ready (view_next e v w) ws.
Proof.
  intros H. pose proof (ready_can_run _ _ _ H) as Hr. destruct H as [Hp Hcm Hi Hd Ho Hob Hch Hl Hcn He].
  assert (Hlen : length (v_labels (view_next e v w)) = length (v_labels v)).
  { rewrite view_next_labels. destruct w; try done. destruct (emitting e); [done|apply length_insert]. }
  assert (Hm : forall off obj child, label_map off obj child (w :: ws) = label_of off w ++ label_map (off + size_of obj child w)
    (obj + Z.of_nat (length (item_objs w))) (child + Z.of_nat (length (item_children w))) ws) by done.
  apply list.Forall_cons in Hi as [_ Hi]. pose proof (size_of_nonneg (ct_cur_obj (v_common v)) (ct_cur_child (v_common v)) w).
  unfold objs_of, children_of, labels_of, uses_of in *. cbn [mbind list_bind code_size] in *. rewrite length_app in *.
  constructor; rewrite ?view_next_stack, ?view_next_off, ?view_next_common, ?Hlen; cbn [common_next ec_pass ct_cur_obj ct_cur_child];
    unfold objs_of, children_of, labels_of, uses_of; try done.
  - cbn [depth_ok] in Hd. by apply andb_true_iff in Hd as [_ Hd].
  - lia.
  - lia.
  - lia.
  - intros E. destruct (Hcn E) as (Hnd & Hun). apply list.NoDup_app in Hnd as (_ & Hdis & Hnd). split; [done|].
    intros l Hl'. assert (Hne : forall l0, w = I_label l0 -> l0 <> l).
    { intros l0 -> ->. by apply (Hdis l); [left|]. }
    rewrite view_next_labels, E. rewrite <- (Hun l) by (apply elem_of_app; by right).
    destruct w; try done. apply list_lookup_insert_ne. intros Heq. apply (Hne l0); [done|].
    destruct Hr as (Hok & _). cbn in Hok. assert (0 <= l); [|lia].
    clear - Hi Hl'. apply list_elem_of_bind in Hl' as (w & Hlw & Hw). rewrite list.Forall_forall in Hi. specialize (Hi w Hw).
    destruct w; try by apply not_elem_of_nil in Hlw. apply list_elem_of_singleton in Hlw as ->. cbn in Hi. lia.
  - intros E. destruct (He E) as (H1 & H2 & H3 & H4 & H5 & H6 & H7). rewrite view_next_labels, view_next_code, E.
    rewrite !length_app in *. replace (match w with I_label _ => v_labels v | _ => v_labels v end) with (v_labels v) by by destruct w.
    split; [|split; [|split; [done|split; [lia|split]]]].
    + intros l o Hin. apply H1. rewrite Hm. apply elem_of_app. by right.
    + by apply list.Forall_app in H2 as [_ H2].
    + rewrite length_splice; [done|lia|]. unfold view_bytes. rewrite size_item.
      match type of H4 with context [code_size ?a ?b ws] => pose proof (code_size_nonneg a b ws) end. lia.
    + cbn [common_next const_table children]. rewrite !length_put. lia.
Qed.

Lemma ready_all v ws : ready v ws -> can_run_all e v ws.
Proof.
  revert v. induction ws as [|w ws IH]; intros v H; [done|]. split; [by eapply ready_can_run|]. by apply IH, ready_next.
Qed.

(** The code after the last pass. *)
Lemma foldl_code v ws : ready v ws -> emitting e = true ->
  v_code (foldl (view_next e) v ws) = splice (v_code v) (code_info_size e + v_off v)
    (assemble (v_labels v) (v_off v) (ct_cur_obj (v_common v)) (ct_cur_child (v_common v)) ws).
Proof.
  intros H E. revert v H. induction ws as [|w ws IH]; intros v H; cbn [foldl assemble].
  - by rewrite splice_nil.
  - pose proof (ready_next _ _ _ H) as Hn. rewrite IH by done.
    pose proof (r_off _ _ Hn) as [Hn0 _]. destruct (r_emit _ _ Hn E) as (_ & _ & Hci & Hb & Hl & _).
    rewrite view_next_code, view_next_off, view_next_common, view_next_labels, E in *. cbn [common_next ct_cur_obj ct_cur_child] in *.
    replace (match w with I_label _ => v_labels v | _ => v_labels v end) with (v_labels v) by by destruct w.
    pose proof (r_off _ _ H) as [H0 _]. destruct (r_emit _ _ H E) as (_ & _ & _ & Hb0 & Hl0 & _). cbn [code_size] in Hb0.
    rewrite <- (size_item (v_labels v) (v_off v)) at 1. fold (view_bytes e v w). rewrite Z.add_assoc, splice_app.
    + done.
    + lia.
    + rewrite length_assemble. unfold view_bytes. rewrite size_item. lia.
Qed.

Lemma foldl_code_count v ws : emitting e = false -> v_code (foldl (view_next e) v ws) = v_code v.
Proof. intros E. revert v. induction ws as [|w ws IH]; intros v; [done|]. cbn. by rewrite IH, view_next_code, E. Qed.

Lemma length_foldl_code v ws : ready v ws -> length (v_code (foldl (view_next e) v ws)) = length (v_code v).
Proof.
  intros H. destruct (emitting e) eqn:E; [|by rewrite foldl_code_count].
  rewrite foldl_code by done. destruct (r_emit _ _ H E) as (_ & _ & Hz & Hz2 & Hz3 & _). destruct (r_off _ _ H) as [Hz4 _].
  apply length_splice; [lia|]. rewrite length_assemble. lia.
Qed.

(** The tables of constants and functions after the last pass. *)
Lemma splice_put {A} (l : list A) k (xs : list A) : 0 <= k -> (length xs <= 1)%nat -> k + Z.of_nat (length xs) <= Z.of_nat (length l) ->
  put l k xs = splice l k xs.
Proof.
  intros Hk Hx Hl. destruct xs as [|x [|y xs]]; cbn [put length] in *; [by rewrite splice_nil| |lia].
  unfold splice. rewrite insert_take_drop by lia. cbn. by rewrite Nat.add_1_r.
Qed.

Lemma foldl_tables v ws : ready v ws -> emitting e = true -> let c := v_common (foldl (view_next e) v ws) in
  const_table c = splice (const_table (v_common v)) (ct_cur_obj (v_common v)) (objs_of ws) /\
  children c = splice (children (v_common v)) (ct_cur_child (v_common v)) (children_of ws).
Proof.
  intros H E. revert v H. induction ws as [|w ws IH]; intros v H; cbn [foldl].
  - unfold objs_of, children_of. cbn. by rewrite !splice_nil.
  - destruct (IH _ (ready_next _ _ _ H)) as [-> ->]. destruct (r_obj _ _ H) as [Ho _]. destruct (r_child _ _ H) as [Hc _].
    destruct (r_emit _ _ H E) as (_ & _ & _ & _ & _ & H1 & H2). unfold objs_of, children_of in *. cbn [mbind list_bind] in *.
    rewrite !length_app in *. rewrite view_next_common, E. cbn [common_next const_table children ct_cur_obj ct_cur_child].
    rewrite !splice_put by (lia || by destruct w as [? ? []| | | | |]; cbn; lia).
    by rewrite !splice_app by lia.
Qed.
End Ready.

(** ** Offsets of labels *)

Lemma label_map_labels off obj child ws : (label_map off obj child ws).*1 = labels_of ws.
Proof.
  revert off obj child. induction ws as [|w ws IH]; intros off obj child; [done|]. unfold labels_of. cbn [label_map mbind list_bind].
  rewrite fmap_app, IH. by destruct w.
Qed.

Lemma label_map_range off obj child ws l o : (l, o) ∈ label_map off obj child ws -> off <= o <= off + code_size obj child ws.
Proof.
  revert off obj child. induction ws as [|w ws IH]; intros off obj child; cbn [label_map code_size].
  - intros H. by apply not_elem_of_nil in H.
  - pose proof (size_of_nonneg obj child w).
    match goal with |- context [code_size ?a ?b ws] => pose proof (code_size_nonneg a b ws) end.
    intros [H1|H1]%elem_of_app; [|apply IH in H1; lia].
    destruct w; cbn in H1; try by apply not_elem_of_nil in H1. apply list_elem_of_singleton in H1 as [= _ ->]. lia.
Qed.

Lemma label_map_has off obj child ws l : l ∈ labels_of ws -> exists o, (l, o) ∈ label_map off obj child ws.
Proof.
  rewrite <- (label_map_labels off obj child). intros ([l' o] & -> & H)%list_elem_of_fmap. by exists o.
Qed.

Definition set_labels (ls : list Z) (m : list (Z * Z)) : list Z := foldl (fun ls '(l, o) => <[Z.to_nat l := o]> ls) ls m.

Lemma length_set_labels ls m : length (set_labels ls m) = length ls.
Proof. revert ls. induction m as [|[l o] m IH]; intros ls; [done|]. unfold set_labels in *. cbn. by rewrite IH, length_insert. Qed.

Lemma set_labels_other ls m k : Forall (fun l => 0 <= l) m.*1 -> 0 <= k -> k ∉ m.*1 -> set_labels ls m !! Z.to_nat k = ls !! Z.to_nat k.
Proof.
  revert ls. induction m as [|[l o] m IH]; intros ls Hm Hk Hn; [done|]. apply list.Forall_cons in Hm as [Hl Hm]. cbn in Hl.
  apply not_elem_of_cons in Hn as [Hne Hn]. unfold set_labels in *. cbn in *. rewrite IH by done. apply list_lookup_insert_ne. lia.
Qed.

Lemma set_labels_lookup ls m l o : NoDup m.*1 -> Forall (fun l => 0 <= l < Z.of_nat (length ls)) m.*1 -> (l, o) ∈ m ->
  set_labels ls m !! Z.to_nat l = Some o.
Proof.
  revert ls. induction m as [|[l' o'] m IH]; intros ls Hnd Hr Hin; [by apply not_elem_of_nil in Hin|].
  apply list.NoDup_cons in Hnd as [Hn Hnd]. apply list.Forall_cons in Hr as [Hl Hr]. cbn in Hl, Hn.
  apply list.elem_of_cons in Hin as [[= -> ->]|Hin].
  - change (set_labels ls ((l', o') :: m)) with (set_labels (<[Z.to_nat l' := o']> ls) m).
    rewrite set_labels_other; [apply list_lookup_insert_eq; lia| |lia|done]. eapply list.Forall_impl; [exact Hr|]. cbn. lia.
  - apply (IH (<[Z.to_nat l' := o']> ls)); [done| |done]. rewrite length_insert. done.
Qed.

(** A list of items whose labels are below [n], each once. *)
Lemma set_labels_items n ls off obj child ws : NoDup (labels_of ws) -> Forall (item_ok n) ws -> Z.of_nat (length ls) = n ->
  forall l o, (l, o) ∈ label_map off obj child ws -> set_labels ls (label_map off obj child ws) !! Z.to_nat l = Some o.
Proof.
  intros Hnd Hi Hl l o. apply set_labels_lookup; rewrite label_map_labels; [done|]. rewrite Hl.
  apply list.Forall_forall. intros k Hk. unfold labels_of in Hk. apply list_elem_of_bind in Hk as (w & Hlw & Hw).
  rewrite list.Forall_forall in Hi. specialize (Hi w Hw).
  destruct w; try by apply not_elem_of_nil in Hlw. apply list_elem_of_singleton in Hlw as ->. exact Hi.
Qed.

Lemma set_labels_target n ls off obj child ws l : NoDup (labels_of ws) -> Forall (item_ok n) ws -> Z.of_nat (length ls) = n ->
  l ∈ labels_of ws -> 0 <= off -> off <= target (set_labels ls (label_map off obj child ws)) l <= off + code_size obj child ws.
Proof.
  intros Hnd Hi Hl Hin Ho. destruct (label_map_has off obj child ws l Hin) as [o Hm].
  pose proof (set_labels_items n ls off obj child ws Hnd Hi Hl l o Hm) as Hs. unfold target.
  rewrite (nth_lookup_Some _ _ _ _ Hs). by eapply label_map_range.
Qed.
