(* ===== verification/EmitPrelude.v ===== *)
(** * The prelude and the information of a function in a pass

    The start of a pass writes the signature, the sizes, the name and the argument names, the end of a pass the numbers of
    the cells ([start_pass_ok], [end_pass_ok]). *)

From S2P Require Import Prelude Malloc SmallInt Token Bytecode BytecodeNum BytecodePrelude BytecodeSpec Scope ScopeSpec EmitBc EmitMethods EmitPass EmitItems EmitRun EmitCode.
Local Open Scope Z_scope.

(** ** Writing code information *)

Definition cshow (e : emit_t) (d : list Z) (off : Z) (code : list Z) : emit_t :=
  with_code_base (with_code_info_offset (with_dummy e d) off) code.

Definition info_room (e : emit_t) (off n : Z) (code : list Z) : Prop :=
  0 <= off /\ off + n < 2 ^ 30 /\ e_pass e <> MP_PASS_SCOPE /\
  (emitting e = true -> off + n <= code_info_size e /\ code_info_size e <= Z.of_nat (length code)).

(** What writing [bs] makes of the code. *)
Definition written (e : emit_t) (off : Z) (code bs : list Z) : list Z := if emitting e then splice code off bs else code.

Lemma written_app e off code b1 b2 : info_room e off (Z.of_nat (length b1 + length b2)) code ->
  written e (off + Z.of_nat (length b1)) (written e off code b1) b2 = written e off code (b1 ++ b2).
Proof. intros (H0 & _ & _ & H). unfold written. destruct (emitting e); [|done]. apply splice_app; lia. Qed.

Lemma info_room_le e off n m code : info_room e off n code -> m <= n -> info_room e off m code.
Proof. intros (? & ? & ? & H) Hm. split_and!; [done|lia|done|]. intros E. specialize (H E). lia. Qed.

Lemma info_room_next e off n code bs : info_room e off (Z.of_nat (length bs) + n) code -> 0 <= n ->
  info_room e (off + Z.of_nat (length bs)) n (written e off code bs).
Proof.
  intros (? & ? & ? & H) Hn. split_and!; [lia|lia|done|]. intros E. specialize (H E). unfold written. rewrite E.
  rewrite length_splice by lia. lia.
Qed.

Lemma written_app0 e code b1 b2 : info_room e 0 (Z.of_nat (length b1 + length b2)) code ->
  written e (Z.of_nat (length b1)) (written e 0 code b1) b2 = written e 0 code (b1 ++ b2).
Proof. apply written_app. Qed.

Definition info_bytes (e : emit_t) (bs : list Z) : outcome emit_t :=
  let! '(e, c) := emit_get_cur_to_write_code_info e (Z.of_nat (length bs)) in
  match c with None => Undef | Some c => emit_store_all e c 0 bs end.

Lemma info_bytes_ok e d off code bs : length d = 5%nat -> (length bs <= 5)%nat -> info_room e off (Z.of_nat (length bs)) code ->
  exists d', info_bytes (cshow e d off code) bs =
    Ret (cshow e d' (off + Z.of_nat (length bs)) (written e off code (wrap 8 <$> bs))) /\ length d' = 5%nat.
Proof.
  intros Hd Hl (H0 & H1 & Hp & He). unfold info_bytes, emit_get_cur_to_write_code_info.
  change (e_pass (cshow _ _ _ _)) with (e_pass e). rewrite emitting_spec by done. unfold written.
  change (code_info_offset (cshow _ _ _ _)) with off. rewrite wrap_small by lia. destruct (emitting e); cbn [negb].
  - change (code_info_size (cshow _ _ _ _)) with (code_info_size e). specialize (He eq_refl).
    rewrite (proj2 (Z.leb_le _ _)) by lia. cbn [obind]. exists d. split; [|done].
    change (with_code_info_offset (cshow e d off code) (off + Z.of_nat (length bs))) with (cshow e d (off + Z.of_nat (length bs)) code).
    rewrite emit_store_all_code by (cbn [cshow with_code_base code_base]; lia). by rewrite Z.add_0_r.
  - cbn [obind]. change (with_code_info_offset (cshow e d off code) (off + Z.of_nat (length bs))) with (cshow e d (off + Z.of_nat (length bs)) code).
    destruct (emit_store_all_dummy (cshow e d (off + Z.of_nat (length bs)) code) 0 bs) as (d' & -> & Hd'); [done|lia..|]. by exists d'.
Qed.

Lemma code_info_byte_eq e b : emit_write_code_info_byte e b = info_bytes e [b].
Proof.
  unfold emit_write_code_info_byte, info_bytes. change (Z.of_nat (length [b])) with 1.
  destruct (emit_get_cur_to_write_code_info e 1) as [[e' [c|]]| | |]; try done. cbn. by destruct (emit_store e' c 0 b).
Qed.

Lemma code_info_all_ok e d off code bs : length d = 5%nat -> Forall byte bs -> info_room e off (Z.of_nat (length bs)) code ->
  exists d', out_all emit_write_code_info_byte (cshow e d off code) bs =
    Ret (cshow e d' (off + Z.of_nat (length bs)) (written e off code bs)) /\ length d' = 5%nat.
Proof.
  intros Hd Hb. revert d off code Hd. induction Hb as [|b bs Hb _ IH]; intros d off code Hd Hr.
  - exists d. cbn. unfold written. rewrite splice_nil, Z.add_0_r. by destruct (emitting e).
  - cbn [out_all]. rewrite code_info_byte_eq. cbn [length] in Hr.
    destruct (info_bytes_ok e d off code [b]) as (d1 & -> & Hd1); [done|cbn; lia|eapply info_room_le; [exact Hr|cbn; lia]|].
    cbn [obind]. rewrite wrap8_byte by by apply list.Forall_singleton.
    destruct (IH d1 (off + Z.of_nat (length [b])) (written e off code [b]) Hd1) as (d2 & -> & Hd2).
    { apply info_room_next; [|lia]. eapply info_room_le; [exact Hr|cbn; lia]. }
    exists d2. split; [|done]. f_equal. rewrite written_app by (eapply info_room_le; [exact Hr|cbn; lia]).
    cbn [app length]. f_equal. lia.
Qed.

Lemma code_info_qstr_ok e d off code q : length d = 5%nat -> info_room e off (Z.of_nat (length (var_uint (wrap 16 q)))) code ->
  exists d', emit_write_code_info_qstr (cshow e d off code) q =
    Ret (cshow e d' (off + Z.of_nat (length (var_uint (wrap 16 q)))) (written e off code (var_uint (wrap 16 q)))) /\ length d' = 5%nat.
Proof.
  intros Hd Hr. pose proof (wrap_range 16 q ltac:(lia)) as Hq. unfold emit_write_code_info_qstr, mp_emit_common_use_qstr.
  rewrite mp_encode_uint_ok by lia. assert (Heq : forall e bs, write_bytes emit_get_cur_to_write_code_info emit_store e bs = info_bytes e bs).
  { intros e' bs. unfold write_bytes, info_bytes, emit_get_cur_to_write_code_info.
    destruct (_ <? _); cbn [obind]; [apply put_bytes_emit|]. destruct (_ <=? _); cbn [obind]; [apply put_bytes_emit|done]. }
  rewrite Heq. destruct (info_bytes_ok e d off code (var_uint (wrap 16 q))) as (d' & -> & Hd'); [done| |done|].
  - rewrite length_var_uint. pose proof (uint_len_bound (wrap 16 q) ltac:(lia)). lia.
  - exists d'. split; [|done]. by rewrite wrap8_byte by apply var_uint_byte.
Qed.

(** ** Names of arguments *)

Section Names.
Context (star : Z).

(** The parameter whose number is [i], or [star]. *)
Definition arg_name (l : list id_info_t) (i : Z) : Z :=
  match filter (fun id => is_param id = true /\ local_num id = i) l with id :: _ => qst id | [] => star end.

Lemma argument_name_ok l r n j i : (j + n = length l)%nat ->
  argument_name star n (l ++ r) (Z.of_nat j) i = Ret (arg_name (drop j l) i).
Proof.
  revert j. induction n as [|n IH]; intros j Hj; cbn [argument_name].
  - rewrite drop_ge by lia. done.
  - destruct (lookup_lt_is_Some_2 l j) as [id Hid]; [lia|]. rewrite (rd_Ret _ _ id) by (lia || (rewrite Nat2Z.id, lookup_app_l by lia; done)).
    cbn [obind]. rewrite (drop_S l id j Hid). unfold arg_name. rewrite filter_cons.
    destruct (decide (is_param id = true /\ local_num id = i)) as [[E1 E2]|E].
    + by rewrite E1, (proj2 (Z.eqb_eq _ _) E2).
    + replace (is_param id && (local_num id =? i)) with false.
      * replace (Z.of_nat j + 1) with (Z.of_nat (S j)) by lia. apply IH. lia.
      * destruct (is_param id); [|done]. symmetry. apply Z.eqb_neq. intros Ei. by apply E.
Qed.

Definition names_bytes (s : scope_t) (i n : nat) : list Z :=
  seq i n ≫= (fun k => var_uint (wrap 16 (arg_name (ids s) (Z.of_nat k)))).

Lemma argument_names_ok e d off code n i : wf_scope (e_scope e) -> length d = 5%nat ->
  info_room e off (Z.of_nat (length (names_bytes (e_scope e) i n))) code ->
  exists d', argument_names star n (cshow e d off code) (Z.of_nat i) =
    Ret (cshow e d' (off + Z.of_nat (length (names_bytes (e_scope e) i n))) (written e off code (names_bytes (e_scope e) i n))) /\ length d' = 5%nat.
Proof.
  intros Hwf. revert d off code i. induction n as [|n IH]; intros d off code i Hd Hr; cbn [argument_names].
  - exists d. cbn. unfold written. rewrite splice_nil, Z.add_0_r. by destruct (emitting e).
  - change (e_scope (cshow e d off code)) with (e_scope e).
    assert (Hn : argument_name star (Z.to_nat (id_info_len (e_scope e))) (id_info (e_scope e)) 0 (Z.of_nat i) = Ret (arg_name (ids (e_scope e)) (Z.of_nat i))).
    { rewrite <- (take_drop (Z.to_nat (id_info_len (e_scope e))) (id_info (e_scope e))). fold (ids (e_scope e)).
      apply (argument_name_ok (ids (e_scope e)) _ _ 0). by rewrite length_ids. }
    rewrite Hn. cbn [obind]. unfold names_bytes in *. cbn [seq mbind list_bind] in *. rewrite length_app, Nat2Z.inj_add in *.
    destruct (code_info_qstr_ok e d off code (arg_name (ids (e_scope e)) (Z.of_nat i)) Hd) as (d1 & -> & Hd1).
    { eapply info_room_le; [exact Hr|lia]. }
    cbn [obind]. replace (Z.of_nat i + 1) with (Z.of_nat (S i)) by lia.
    edestruct (IH d1) as (d2 & -> & Hd2); [done|by apply info_room_next; [exact Hr|lia]|].
    exists d2. split; [|done]. f_equal. rewrite written_app by (eapply info_room_le; [exact Hr|lia]). f_equal. lia.
Qed.
End Names.

(** ** The start of a pass *)

Definition sig_of (s : scope_t) : prelude_sig :=
  {| n_state := (let n := num_locals s + stack_size s in if n =? 0 then 1 else n); n_exc_stack := exc_stack_size s;
     sig_flags := Z.land (scope_flags s) MP_SCOPE_FLAG_ALL_SIG; n_pos_args := num_pos_args s;
     n_kwonly_args := num_kwonly_args s; n_def_pos_args := num_def_pos_args s |}.

(** The fields of a scope are [uint16_t]. *)
Definition scope_small (s : scope_t) : Prop :=
  0 <= num_locals s < 2 ^ 16 /\ 0 <= stack_size s < 2 ^ 16 /\ 0 <= exc_stack_size s < 2 ^ 16 /\ 0 <= scope_flags s < 2 ^ 16 /\
  0 <= num_pos_args s < 2 ^ 16 /\ 0 <= num_kwonly_args s < 2 ^ 16 /\ 0 <= num_def_pos_args s < 2 ^ 16 /\ 0 <= id_info_len s < 2 ^ 16.

Lemma sig_of_ok s : scope_small s -> sig_ok (sig_of s).
Proof.
  intros (H1 & H2 & H3 & H4 & H5 & H6 & H7 & _). unfold sig_ok, sig_of, MP_SCOPE_FLAG_ALL_SIG. cbn -[Z.land].
  rewrite (land_mod 4 (scope_flags s)) by done. pose proof (Z.mod_pos_bound (scope_flags s) (2 ^ 4)).
  destruct (Z.eqb_spec (num_locals s + stack_size s) 0); lia.
Qed.

Lemma sig_encode_scope {Env} (out : Env -> Z -> outcome Env) env s : scope_small s ->
  (let n := num_locals s + stack_size s in
   MP_BC_PRELUDE_SIG_ENCODE out env (if n =? 0 then 1 else n) (exc_stack_size s) (scope_flags s) (num_pos_args s)
     (num_kwonly_args s) (num_def_pos_args s)) = out_all out env (sig_bytes (sig_of s)).
Proof.
  intros Hs. rewrite <- (sig_encode_ok out env (sig_of s)) by by apply sig_of_ok. unfold MP_BC_PRELUDE_SIG_ENCODE.
  cbn [sig_of n_state n_exc_stack sig_flags n_pos_args n_kwonly_args n_def_pos_args]. by rewrite <- Z.land_assoc, Z.land_diag.
Qed.

Section Start.
Context (star : Z).

Definition head_bytes (pass : pass_kind_t) (s : scope_t) (n_info n_cell : Z) : list Z :=
  sig_bytes (sig_of s) ++ (if pass_code MP_PASS_CODE_SIZE <=? pass_code pass then size_bytes n_info n_cell else []).

Definition name_bytes (s : scope_t) : list Z :=
  var_uint (wrap 16 (simple_name s)) ++ names_bytes star s 0 (Z.to_nat (num_pos_args s + num_kwonly_args s)).

(** The emitter when a pass starts. *)
Definition fresh_pass (e : emit_t) (pass : pass_kind_t) (s : scope_t) : emit_t :=
  let e := with_pass e pass s in
  with_code_info_offset (with_bytecode_offset (if pass_code pass <? pass_code MP_PASS_EMIT then with_labels e (unassigned e) else e) 0) 0.

Definition started (e : emit_t) (pass : pass_kind_t) (s : scope_t) (d : list Z) : emit_t :=
  let h := head_bytes pass s (n_info e) (n_cell e) in
  cshow (with_n (fresh_pass e pass s) (Z.of_nat (length h)) (n_cell e)) d (Z.of_nat (length (h ++ name_bytes s)))
    (written (fresh_pass e pass s) 0 (code_base e) (h ++ name_bytes s)).

Lemma obind_cut {A B C} (m : outcome A) (f : A -> outcome B) (g : B -> outcome C) r :
  obind m f = Ret r -> (let! x := m in let! y := f x in g y) = g r.
Proof. intros H. by rewrite <- obind_assoc, H. Qed.

Lemma fresh_pass_fields e pass s : let f := fresh_pass e pass s in
  e_pass f = pass /\ n_info f = n_info e /\ n_cell f = n_cell e /\ e_scope f = s /\ f = cshow f (dummy_data e) 0 (code_base e).
Proof. unfold fresh_pass. by destruct (pass_code pass <? pass_code MP_PASS_EMIT). Qed.

(** The signature and the sizes. *)
Lemma head_ok e pass s : scope_small s -> length (dummy_data e) = 5%nat -> 0 <= n_info e < 2 ^ 30 -> 0 <= n_cell e < 2 ^ 16 ->
  let f := fresh_pass e pass s in
  let h := head_bytes pass s (n_info e) (n_cell e) in
  info_room f 0 (Z.of_nat (length h)) (code_base e) ->
  exists d',
    (let! e1 := out_all emit_write_code_info_byte f (sig_bytes (sig_of s)) in
     if pass_code MP_PASS_CODE_SIZE <=? pass_code (e_pass e1) then
       MP_BC_PRELUDE_SIZE_ENCODE emit_write_code_info_byte e1 (n_info e1) (n_cell e1)
     else Ret e1) = Ret (cshow f d' (Z.of_nat (length h)) (written f 0 (code_base e) h)) /\ length d' = 5%nat.
Proof.
  intros Hs Hd Hi Hc f h Hr. unfold h, head_bytes in *. clear h. rewrite length_app in Hr.
  destruct (fresh_pass_fields e pass s) as (Fp & Fi & Fc & Fs & Hf). fold f in Fp, Fi, Fc, Fs, Hf.
  assert (out_all emit_write_code_info_byte f (sig_bytes (sig_of s)) =
    out_all emit_write_code_info_byte (cshow f (dummy_data e) 0 (code_base e)) (sig_bytes (sig_of s))) as -> by by rewrite <- Hf.
  destruct (code_info_all_ok f (dummy_data e) 0 (code_base e) (sig_bytes (sig_of s)) Hd) as (d1 & -> & Hd1).
  { by apply sig_bytes_byte, sig_of_ok. }
  { eapply info_room_le; [exact Hr|lia]. }
  cbn [obind]. change (e_pass (cshow f _ _ _)) with (e_pass f). rewrite Fp.
  change (n_info (cshow f _ _ _)) with (n_info f). change (n_cell (cshow f _ _ _)) with (n_cell f). rewrite Fi, Fc.
  set (sz := if pass_code MP_PASS_CODE_SIZE <=? pass_code pass then size_bytes (n_info e) (n_cell e) else []) in *.
  assert (Hsz : forall x, (if pass_code MP_PASS_CODE_SIZE <=? pass_code pass then
      MP_BC_PRELUDE_SIZE_ENCODE emit_write_code_info_byte x (n_info e) (n_cell e) else Ret x) = out_all emit_write_code_info_byte x sz).
  { intros x. unfold sz. destruct (_ <=? _); [by apply size_encode_ok|done]. }
  rewrite Hsz. destruct (code_info_all_ok f d1 (0 + Z.of_nat (length (sig_bytes (sig_of s))))
    (written f 0 (code_base e) (sig_bytes (sig_of s))) sz Hd1) as (d2 & -> & Hd2).
  { unfold sz. destruct (_ <=? _); [apply size_ext_byte|constructor]. }
  { apply info_room_next; [|lia]. eapply info_room_le; [exact Hr|lia]. }
  rewrite written_app by (eapply info_room_le; [exact Hr|lia]). exists d2. split; [|done]. do 2 f_equal. rewrite length_app. lia.
Qed.

Lemma start_pass_ok e pass s : wf_scope s -> scope_small s -> length (dummy_data e) = 5%nat -> 0 <= n_info e < 2 ^ 30 ->
  0 <= n_cell e < 2 ^ 16 ->
  info_room (fresh_pass e pass s) 0 (Z.of_nat (length (head_bytes pass s (n_info e) (n_cell e) ++ name_bytes s))) (code_base e) ->
  exists d', mp_emit_bc_start_pass star e pass s = Ret (started e pass s d') /\ length d' = 5%nat.
Proof.
  intros Hwf Hs Hd Hi Hc Hr. unfold mp_emit_bc_start_pass. cbv zeta.
  change (with_code_info_offset (with_bytecode_offset _ 0) 0) with (fresh_pass e pass s).
  destruct (fresh_pass_fields e pass s) as (Fp & Fi & Fc & Fs & _).
  rewrite (sig_encode_scope _ (fresh_pass e pass s) s Hs). unfold started.
  set (h := head_bytes pass s (n_info e) (n_cell e)) in *. set (f := fresh_pass e pass s) in *.
  unfold name_bytes in *. rewrite !length_app in Hr.
  destruct (head_ok e pass s Hs Hd Hi Hc) as (d1 & Hh & Hd1);
    [apply (info_room_le _ _ _ (Z.of_nat (length h)) _ Hr); lia|]. fold f h in Hh.
  rewrite (obind_cut _ _ _ _ Hh).
  change (n_cell (cshow f _ _ _)) with (n_cell f). change (code_info_offset (cshow f _ _ _)) with (Z.of_nat (length h)). rewrite Fc.
  set (g := with_n f (Z.of_nat (length h)) (n_cell e)). change (with_n (cshow f ?d ?o ?c) _ _) with (cshow g d o c).
  assert (Hw : forall k c b, written f k c b = written g k c b) by done.
  assert (Hrg : forall k n c, info_room f k n c -> info_room g k n c) by done. assert (Fg : e_scope g = s) by done.
  rewrite !Hw. apply Hrg in Hr. clearbody f g. clear Hw Hrg.
  destruct (code_info_qstr_ok g d1 (Z.of_nat (length h)) (written g 0 (code_base e) h) (simple_name s) Hd1) as (d2 & -> & Hd2).
  { apply (info_room_next g 0 _ _ h); [eapply info_room_le; [exact Hr|lia]|lia]. }
  cbn [obind]. rewrite (written_app0 g) by (eapply info_room_le; [exact Hr|lia]).
  destruct (argument_names_ok star g d2 (Z.of_nat (length h) + Z.of_nat (length (var_uint (wrap 16 (simple_name s)))))
    (written g 0 (code_base e) (h ++ var_uint (wrap 16 (simple_name s)))) (Z.to_nat (num_pos_args s + num_kwonly_args s)) 0) as (d3 & He & Hd3);
    rewrite ?Fg; [done|done| |].
  { rewrite <- Nat2Z.inj_add, <- length_app. apply (info_room_next g 0 _ _ (h ++ _)); [eapply info_room_le; [exact Hr|]|]; lens. }
  rewrite Fg in He. change (Z.of_nat 0) with 0 in He. rewrite He. exists d3. split; [|done]. rewrite <- Nat2Z.inj_add, <- length_app.
  rewrite (written_app0 g) by (eapply info_room_le; [exact Hr|lens]). rewrite <- app_assoc. do 2 f_equal. lens.
Qed.
End Start.

(** ** The end of a pass *)

(** The numbers of the cells, in the order of the names. *)
Definition cells_of (l : list id_info_t) : list Z := local_num <$> filter (fun id => kind id = ID_INFO_KIND_CELL) l.

Definition cells_small (l : list id_info_t) : Prop := Forall byte (cells_of l).

Lemma with_n_cshow e d off code a b : with_n (cshow e d off code) a b = cshow (with_n e a b) d off code.
Proof. done. Qed.

Lemma written_with_n e a b off code bs : written (with_n e a b) off code bs = written e off code bs.
Proof. done. Qed.

Lemma closure_section_ok e d off code l r n i : id_info (e_scope e) = l ++ r -> (i + n = length l)%nat -> cells_small (drop i l) ->
  length d = 5%nat -> info_room e off (Z.of_nat (length (cells_of (drop i l)))) code ->
  0 <= n_cell e -> n_cell e + Z.of_nat (length (cells_of (drop i l))) < 2 ^ 16 ->
  exists d', closure_section n (cshow e d off code) (Z.of_nat i) =
    Ret (cshow (with_n e (n_info e) (n_cell e + Z.of_nat (length (cells_of (drop i l))))) d'
           (off + Z.of_nat (length (cells_of (drop i l)))) (written e off code (cells_of (drop i l)))) /\ length d' = 5%nat.
Proof.
  revert e d off code i. induction n as [|n IH]; intros e d off code i Hids Hi Hc Hd Hr H0 H1; cbn [closure_section].
  - rewrite drop_ge by lia. exists d. cbn. rewrite !Z.add_0_r. unfold written. rewrite splice_nil.
    split; [|done]. destruct (emitting e); by destruct e.
  - change (e_scope (cshow e d off code)) with (e_scope e). rewrite Hids.
    destruct (lookup_lt_is_Some_2 l i) as [id Hid]; [lia|]. rewrite (rd_Ret _ _ id) by (lia || (rewrite Nat2Z.id, lookup_app_l by lia; done)).
    cbn [obind]. rewrite (drop_S l id i Hid) in *. unfold cells_small, cells_of in *. rewrite filter_cons in *.
    replace (Z.of_nat i + 1) with (Z.of_nat (S i)) by lia.
    destruct (decide (kind id = ID_INFO_KIND_CELL)) as [E|E].
    + rewrite fmap_cons in *. apply list.Forall_cons in Hc as [Hb Hc]. unfold byte in Hb. cbn [length] in *.
      rewrite bool_decide_true by done. rewrite (proj2 (Z.leb_le _ _)) by lia. rewrite code_info_byte_eq.
      destruct (info_bytes_ok e d off code [local_num id]) as (d1 & -> & Hd1); [done|cbn; lia|eapply info_room_le; [exact Hr|cbn; lia]|].
      cbn [obind]. rewrite wrap8_byte by by apply list.Forall_singleton. rewrite with_n_cshow.
      change (n_info (cshow e _ _ _)) with (n_info e). change (n_cell (cshow e _ _ _)) with (n_cell e).
      rewrite wrap_small by lia.
      edestruct (IH (with_n e (n_info e) (n_cell e + 1)) d1 (off + Z.of_nat (length [local_num id])) (written e off code [local_num id]) (S i))
        as (d2 & -> & Hd2); [done|lia|done|done| |cbn; lia|cbn; lia|].
      { apply (info_room_next e off _ _ [local_num id]); [eapply info_room_le; [exact Hr|cbn; lia]|lia]. }
      exists d2. split; [|done]. f_equal. rewrite written_with_n, written_app by (eapply info_room_le; [exact Hr|cbn; lia]).
      cbn [with_n n_info n_cell app length]. unfold with_n. cbn. f_equal; [f_equal; lia|lia].
    + rewrite bool_decide_false by done. by apply IH; [|lia|..].
Qed.
