(* ===== verification/EmitSpec.v ===== *)
(** * Three passes of the emitter: theorems

    The compiler makes the same calls in the last three passes over a scope.  [compile_passes_spec]: under conditions on the
    calls alone no assert of the last passes fails, the last one fills exactly the memory that the one before it measured,
    and the virtual machine reads in this memory what the calls mean. *)

From S2P Require Import Prelude Malloc SmallInt Token Bytecode BytecodeNum BytecodePrelude BytecodeSpec Scope ScopeSpec EmitBc EmitMethods EmitPass EmitItems EmitRun EmitCode EmitPrelude.
Local Open Scope Z_scope.

(** ** Sizes *)

Lemma length_var_uint_le q : (length (var_uint (wrap 16 q)) <= 5)%nat.
Proof.
  rewrite length_var_uint. pose proof (wrap_range 16 q ltac:(lia)). pose proof (uint_len_bound (wrap 16 q) ltac:(lia)). lia.
Qed.

Lemma length_names star s i n : (length (names_bytes star s i n) <= 5 * n)%nat.
Proof.
  revert i. induction n as [|n IH]; intros i; unfold names_bytes in *; cbn [seq mbind list_bind length]; [lia|].
  rewrite length_app. pose proof (length_var_uint_le (arg_name star (ids s) (Z.of_nat i))). specialize (IH (S i)). lia.
Qed.

Lemma length_size_ext fuel i c : (length (size_ext fuel i c) <= fuel)%nat.
Proof. revert i c. induction fuel as [|n IH]; intros i c; cbn; [lia|]. case_bool_decide; cbn; [lia|]. specialize (IH (i / 64) (c / 2)). lia. Qed.

Lemma length_cells s : wf_scope s -> (length (cells_of (ids s)) <= Z.to_nat (id_info_len s))%nat.
Proof.
  intros Hwf. unfold cells_of. rewrite length_fmap, <- (length_ids s) by done. apply length_filter.
Qed.

Lemma info_bound star pass s ni nc : wf_scope s -> scope_small s ->
  Z.of_nat (length (head_bytes pass s ni nc ++ name_bytes star s) + length (cells_of (ids s))) < 2 ^ 21.
Proof.
  intros Hwf Hs. pose proof (length_cells s Hwf). pose proof (sig_bytes_length _ (sig_of_ok s Hs)).
  unfold head_bytes, name_bytes. rewrite !length_app.
  pose proof (length_var_uint_le (simple_name s)). pose proof (length_names star s 0 (Z.to_nat (num_pos_args s + num_kwonly_args s))).
  assert (Z.of_nat (length (if pass_code MP_PASS_CODE_SIZE <=? pass_code pass then size_bytes ni nc else [])) <= 32).
  { destruct (_ <=? _); [|cbn; lia]. pose proof (length_size_ext 32 ni nc). unfold size_bytes. lia. }
  unfold scope_small in Hs. lia.
Qed.

(** A memory filled from the front, from behind, and in the middle. *)
Lemma splice_three (z A B C : list Z) : length z = (length A + length C + length B)%nat ->
  splice (splice (splice z 0 A) (Z.of_nat (length A + length C)) B) (Z.of_nat (length A)) C = A ++ C ++ B.
Proof.
  intros Hz. assert (splice z 0 A = A ++ drop (length A) z) as -> by done.
  assert (splice (A ++ drop (length A) z) (Z.of_nat (length A + length C)) B = A ++ take (length C) (drop (length A) z) ++ B) as ->.
  { unfold splice. rewrite Nat2Z.id, take_app_ge by lia. rewrite <- app_assoc. f_equal. replace (length A + length C - length A)%nat with (length C) by lia.
    f_equal. rewrite drop_ge by lens. apply app_nil_r. }
  unfold splice. rewrite Nat2Z.id, take_app_length. f_equal. f_equal.
  rewrite drop_app_ge by lia. replace (length A + length C - length A)%nat with (length C) by lia.
  rewrite drop_app_ge by lens. rewrite length_take, length_drop. replace (length C - length C `min` (length z - length A))%nat with 0%nat by lia. done.
Qed.

(** ** The scope stays the same after the first of the passes *)

Lemma scope_after_names s ws : id_info (scope_after s ws 0) = id_info s /\ id_info_len (scope_after s ws 0) = id_info_len s /\
  ids (scope_after s ws 0) = ids s /\ forall star, name_bytes star (scope_after s ws 0) = name_bytes star s.
Proof. unfold scope_after. by destruct (is_generator ws). Qed.

Lemma scope_after_wf s ws : wf_scope s -> wf_scope (scope_after s ws 0).
Proof. unfold scope_after. by destruct (is_generator ws). Qed.

Lemma scope_after_small s ws : scope_small s -> depth_ok 0 ws = true -> scope_small (scope_after s ws 0).
Proof.
  intros Hs Hd. apply peak_nonneg in Hd. unfold scope_small, scope_after in *. destruct Hs as (H1 & H2 & H3 & Hf & H5).
  assert (0 <= Z.lor (scope_flags s) MP_SCOPE_FLAG_GENERATOR < 2 ^ 16).
  { unfold MP_SCOPE_FLAG_GENERATOR. split; [apply Z.lor_nonneg; lia|]. apply Z.log2_lt_cancel. rewrite Z.log2_lor by lia.
    change (Z.log2 (2 ^ 16)) with 16. change (Z.log2 1) with 0.
    destruct (Z.eq_dec (scope_flags s) 0) as [->|]; [cbn; lia|]. assert (Z.log2 (scope_flags s) < 16) by (apply Z.log2_lt_pow2; lia).
    pose proof (Z.log2_nonneg (scope_flags s)). lia. }
  destruct (is_generator ws); cbn -[Z.lor Z.max MP_SCOPE_FLAG_GENERATOR Z.pow]; lia.
Qed.

Lemma scope_after_twice s ws : scope_after (scope_after s ws 0) ws 0 = scope_after s ws 0.
Proof.
  unfold scope_after. destruct (is_generator ws); unfold with_scope_flags, with_defaults, with_stack_size; cbn; f_equal; try lia.
  by rewrite <- Z.lor_assoc, Z.lor_diag.
Qed.

(** ** The body and the end of a pass *)

Definition view_of (x : emit_t) : view :=
  {| v_stack := e_stack_size x; v_scope := e_scope x; v_ret := last_emit_was_return_value x; v_common := emit_common x;
     v_labels := default [] (label_offsets x); v_off := bytecode_offset x; v_code := code_base x |}.

Lemma show_view_of x l : label_offsets x = Some l -> x = show x (dummy_data x) (view_of x).
Proof. intros H. unfold show, view_of. cbn. rewrite H. cbn. rewrite <- H. by destruct x. Qed.

(** What the end of a pass does after the numbers of the cells. *)
Definition finish {words : Allocator Z} (e : emit_t) : outcome (emit_t * option mp_raw_code_t) :=
  match e_pass e with
  | MP_PASS_CODE_SIZE =>
    let! code := m_new0 1 (wrap 32 (code_info_offset e + bytecode_offset e)) in
    Ret (with_sizes e (code_info_offset e) (bytecode_offset e) code, None)
  | MP_PASS_EMIT =>
    Ret (e, Some (mp_emit_glue_assign_bytecode (code_base e) (children (emit_common e)) (scope_flags (e_scope e))))
  | _ => Ret (e, None)
  end.

Section Passes.
Context {words : Allocator Z} (star ellipsis : Z).
Context (cs : list emit_call).

Definition items : list item := cs ≫= items_of ellipsis.

(** The emitter at the end of a pass that started in [x], before [finish]. *)
Definition ended (x : emit_t) (d : list Z) : emit_t :=
  let v := foldl (view_next x) (view_of x) items in
  let cells := cells_of (ids (e_scope x)) in
  cshow (with_n (show x d v) (code_info_offset x - n_info x) (Z.of_nat (length cells))) d
    (code_info_offset x + Z.of_nat (length cells)) (written x (code_info_offset x) (v_code v) cells).

Lemma ended_fields x d : let v := foldl (view_next x) (view_of x) items in let cells := cells_of (ids (e_scope x)) in
  e_pass (ended x d) = e_pass x /\ dummy_data (ended x d) = d /\ label_offsets (ended x d) = Some (v_labels v) /\
  max_num_labels (ended x d) = max_num_labels x /\ e_scope (ended x d) = v_scope v /\ emit_common (ended x d) = v_common v /\
  n_info (ended x d) = code_info_offset x - n_info x /\ n_cell (ended x d) = Z.of_nat (length cells) /\
  code_info_offset (ended x d) = code_info_offset x + Z.of_nat (length cells) /\ bytecode_offset (ended x d) = v_off v /\
  code_base (ended x d) = written x (code_info_offset x) (v_code v) cells.
Proof. by split_and!. Qed.

Lemma body_ok x l : Forall (fun c => call_ok c = true) cs -> label_offsets x = Some l -> length (dummy_data x) = 5%nat ->
  ready x (view_of x) items -> e_stack_size x = 0 -> foldl depth_next 0 items = 0 -> wf_scope (e_scope x) ->
  scope_small (e_scope x) -> cells_small (ids (e_scope x)) -> 0 <= n_info x <= code_info_offset x ->
  info_room x (code_info_offset x) (Z.of_nat (length (cells_of (ids (e_scope x))))) (code_base x) ->
  exists d, (let! e := exec_calls ellipsis x cs in mp_emit_bc_end_pass e) = finish (ended x d) /\ length d = 5%nat.
Proof.
  intros Hcs Hl Hd Hr Hs0 Hs1 Hwf Hsm Hcl Hni Hir. pose proof (ready_all _ _ _ Hr) as Hall.
  rewrite exec_calls_items by done. fold items. 
  assert (run_items x items = run_items (show x (dummy_data x) (view_of x)) items) as -> by (f_equal; by eapply show_view_of).
  destruct (run_items_ok x (dummy_data x) (view_of x) items) as (d1 & -> & Hd1); [done|cbn; lia|done|]. cbn [obind].
  set (v := foldl (view_next x) (view_of x) items).
  pose proof (foldl_scope x (view_of x) items (r_depth _ _ _ Hr)) as Hsc. cbn [v_scope v_stack view_of] in Hsc.
  rewrite Hs0 in Hsc. specialize (Hsc ltac:(unfold scope_small in Hsm; lia)). fold v in Hsc.
  pose proof (foldl_stack x (view_of x) items) as Hst. cbn [v_stack view_of] in Hst. rewrite Hs0, Hs1 in Hst. fold v in Hst.
  destruct (scope_after_names (e_scope x) items) as (Hi1 & Hi2 & Hi3 & _).
  unfold mp_emit_bc_end_pass. change (e_pass (show x d1 v)) with (e_pass x). rewrite bool_decide_false by apply Hr.
  change (e_stack_size (show x d1 v)) with (v_stack v). rewrite Hst. cbn [Z.eqb].
  change (code_info_offset (show x d1 v) - n_info (show x d1 v)) with (code_info_offset x - n_info x).
  destruct Hir as (H0 & H1 & H2 & H3). rewrite wrap_small by lia.
  set (y := with_n (show x d1 v) (code_info_offset x - n_info x) 0).
  assert (Hy : e_scope y = scope_after (e_scope x) items 0) by exact Hsc.
  assert (Hcode : length (v_code v) = length (code_base x)) by exact (length_foldl_code x _ _ Hr).
  destruct (closure_section_ok y d1 (code_info_offset x) (v_code v) (ids (e_scope x)) (drop (Z.to_nat (id_info_len (e_scope x))) (id_info (e_scope x)))
    (Z.to_nat (id_info_len (e_scope x))) 0) as (d2 & Hc & Hd2).
  { rewrite Hy, Hi1. unfold ids. by rewrite take_drop. }
  { by rewrite length_ids. }
  { done. }
  { done. }
  { split_and!; [done|done|done|]. rewrite Hcode. done. }
  { done. }
  { cbn. pose proof (length_cells _ Hwf). unfold scope_small in Hsm. rewrite drop_0. lia. }
  change (e_scope (with_n _ _ _)) with (e_scope y). rewrite Hy, Hi2. change (Z.of_nat 0) with 0 in Hc. rewrite drop_0 in Hc.
  change y with (cshow y d1 (code_info_offset x) (v_code v)) at 1. rewrite Hc. cbn [obind].
  exists d2. split; [|done]. unfold ended. cbn zeta. fold v. unfold finish, y. done.
Qed.

(** ** Passes that measure *)

(** What the calls and the scope have to satisfy, for an emitter with [n] labels and [b] constants in use. *)
Record compilable (n b : Z) (s : scope_t) : Prop := {
  c_calls : Forall (fun c => call_ok c = true) cs;
  c_items : Forall (item_ok n) items;
  c_labels : NoDup (labels_of items);
  c_uses : Forall (fun l => l ∈ labels_of items) (uses_of items);
  c_depth : depth_ok 0 items = true;
  c_final : foldl depth_next 0 items = 0;
  c_wf : wf_scope s;
  c_small : scope_small s;
  c_cells : cells_small (ids s);
  c_obj : 0 <= b /\ b + Z.of_nat (length (objs_of items)) < 2 ^ 16;
  c_child : Z.of_nat (length (children_of items)) < 2 ^ 16;
  c_size : code_size b 0 items < 2 ^ 29
}.

(** An emitter between passes. *)
Record idle (e : emit_t) : Prop := {
  i_dummy : length (dummy_data e) = 5%nat;
  i_labels : exists l, label_offsets e = Some l /\ Z.of_nat (length l) = max_num_labels e;
  i_info : 0 <= n_info e < 2 ^ 30;
  i_cell : 0 <= n_cell e < 2 ^ 16
}.

Lemma compilable_after n b s : compilable n b s -> compilable n b (scope_after s items 0).
Proof.
  intros [? ? ? ? ? ? Hwf Hs Hc ? ? ?]. destruct (scope_after_names s items) as (_ & _ & Hi & _).
  constructor; try done; [by apply scope_after_wf|by apply scope_after_small|by rewrite Hi].
Qed.

(** The constants when a pass starts. *)
Definition common_start (c : mp_emit_common_t) (pass : pass_kind_t) (ch : list Z) : mp_emit_common_t :=
  {| ec_pass := pass; ct_cur_obj_base := if bool_decide (pass = MP_PASS_STACK_SIZE) then ct_cur_obj c else ct_cur_obj_base c;
     ct_cur_obj := if bool_decide (pass = MP_PASS_STACK_SIZE) then ct_cur_obj c else ct_cur_obj_base c;
     ct_cur_child := 0; const_table := const_table c; children := ch |}.

(** The emitter when the calls of a pass begin. *)
Definition pass_start (e : emit_t) (s : scope_t) (pass : pass_kind_t) (ch : list Z) (d : list Z) : emit_t :=
  started star (with_common e (common_start (emit_common e) pass ch)) pass s d.

Definition unset (n : Z) : list Z := replicate (Z.to_nat n) (wrap 32 (-1)).

(** The offsets of the labels after a pass. *)
Definition labels_found (n b : Z) : list Z := set_labels (unset n) (label_map 0 b 0 items).

Lemma start_offsets e s pass ch d : let h := head_bytes pass s (n_info e) (n_cell e) in
  n_info (pass_start e s pass ch d) = Z.of_nat (length h) /\
  code_info_offset (pass_start e s pass ch d) = Z.of_nat (length (h ++ name_bytes star s)).
Proof. done. Qed.

Section Measure.
Context (e : emit_t) (s : scope_t) (pass : pass_kind_t).
Context (Hpass : pass = MP_PASS_STACK_SIZE \/ pass = MP_PASS_CODE_SIZE) (Hidle : idle e).
Local Notation c := (common_start (emit_common e) pass (children (emit_common e))).
Local Notation b := (ct_cur_obj (common_start (emit_common e) pass (children (emit_common e)))).
Context (Hc : compilable (max_num_labels e) b s).

Lemma start_common : mp_emit_common_start_pass (emit_common e) pass = Ret c.
Proof. unfold mp_emit_common_start_pass, common_start. by destruct Hpass as [->| ->]. Qed.

Lemma unassigned_unset : unassigned e = Some (unset (max_num_labels e)).
Proof.
  destruct (i_labels _ Hidle) as (l & E & Hl). unfold unassigned. rewrite E. f_equal. rewrite drop_ge by lia. apply app_nil_r.
Qed.

Local Notation x := (pass_start e s pass (children (emit_common e))).

Lemma x_fields d : e_pass (x d) = pass /\ emitting (x d) = false /\ label_offsets (x d) = Some (unset (max_num_labels e)) /\
  max_num_labels (x d) = max_num_labels e /\ emit_common (x d) = c /\ e_scope (x d) = s /\ e_stack_size (x d) = 0 /\
  bytecode_offset (x d) = 0 /\ dummy_data (x d) = d.
Proof.
  rewrite <- unassigned_unset. unfold pass_start, started, fresh_pass, emitting. by destruct Hpass as [->| ->].
Qed.

Lemma measure_ready d : ready (x d) (view_of (x d)) items.
Proof.
  destruct (x_fields d) as (F1 & F2 & F3 & F4 & F5 & F6 & F7 & F8 & F9). destruct Hc.
  constructor; cbn [view_of v_stack v_scope v_common v_labels v_off v_code]; rewrite ?F1, ?F2, ?F3, ?F4, ?F5, ?F7, ?F8; cbn [default]; try done.
  - by destruct Hpass as [->| ->].
  - change (ct_cur_child c) with 0. lia.
  - cbn [id]. unfold unset. rewrite length_replicate. destruct (i_labels _ Hidle) as (l & _ & Hl). lia.
  - intros _. split; [done|]. intros l Hl. unfold unset. apply lookup_replicate. split; [done|].
    unfold labels_of in Hl. apply list_elem_of_bind in Hl as (w & Hlw & Hw). rewrite list.Forall_forall in c_items0. specialize (c_items0 w Hw).
    destruct w; try by apply not_elem_of_nil in Hlw. apply list_elem_of_singleton in Hlw as ->. cbn in c_items0. lia.
Qed.

Lemma measure_pass : exists d d0,
  compile_scope star ellipsis e s pass cs = finish (ended (x d0) d) /\ length d = 5%nat.
Proof.
  unfold compile_scope. rewrite start_common. cbn [obind].
  destruct (start_pass_ok star (with_common e c) pass s) as (d0 & -> & Hd0); try apply Hc; try apply Hidle.
  { pose proof (info_bound star pass s (n_info e) (n_cell e) (c_wf _ _ _ Hc) (c_small _ _ _ Hc)).
    change (n_info (with_common e c)) with (n_info e). change (n_cell (with_common e c)) with (n_cell e).
    split_and!; [lia|lia| |]; destruct (fresh_pass_fields (with_common e c) pass s) as (Fp & _); rewrite ?Fp; [by destruct Hpass as [->| ->]|].
    unfold emitting. rewrite Fp. by destruct Hpass as [->| ->]. }
  cbn [obind]. fold (pass_start e s pass (children (emit_common e)) d0). destruct (x_fields d0) as (F1 & F2 & F3 & F4 & F5 & F6 & F7 & F8 & F9).
  destruct (body_ok (x d0) (unset (max_num_labels e))) as (d & Hx & Hd); rewrite ?F6, ?F9; try done; try apply Hc.
  - apply measure_ready.
  - change (n_info (x d0)) with (Z.of_nat (length (head_bytes pass s (n_info e) (n_cell e)))).
    change (code_info_offset (x d0)) with (Z.of_nat (length (head_bytes pass s (n_info e) (n_cell e) ++ name_bytes star s))). lens.
  - change (code_info_offset (x d0)) with (Z.of_nat (length (head_bytes pass s (n_info e) (n_cell e) ++ name_bytes star s))).
    pose proof (info_bound star pass s (n_info e) (n_cell e) (c_wf _ _ _ Hc) (c_small _ _ _ Hc)).
    split_and!; [lia|lia|rewrite F1; by destruct Hpass as [->| ->]|by rewrite F2].
  - exists d, d0. done.
Qed.

(** The emitter after the calls of a pass that measures. *)
Lemma measured d0 d : let y := ended (x d0) d in
  e_pass y = pass /\ length (dummy_data y) = length d /\ label_offsets y = Some (labels_found (max_num_labels e) b) /\ max_num_labels y = max_num_labels e /\
  e_scope y = scope_after s items 0 /\
  emit_common y = {| ec_pass := pass; ct_cur_obj_base := b; ct_cur_obj := b + Z.of_nat (length (objs_of items));
    ct_cur_child := Z.of_nat (length (children_of items)); const_table := const_table (emit_common e); children := children (emit_common e) |} /\
  n_info y = Z.of_nat (length (name_bytes star s)) /\ n_cell y = Z.of_nat (length (cells_of (ids s))) /\
  code_info_offset y = Z.of_nat (length (head_bytes pass s (n_info e) (n_cell e) ++ name_bytes star s ++ cells_of (ids s))) /\
  bytecode_offset y = code_size b 0 items.
Proof.
  destruct (x_fields d0) as (F1 & F2 & F3 & F4 & F5 & F6 & F7 & F8 & F9).
  destruct (start_offsets e s pass (children (emit_common e)) d0) as [F10 F11].
  cbv zeta. destruct (ended_fields (x d0) d) as (-> & -> & -> & -> & -> & -> & -> & -> & -> & -> & _).
  rewrite foldl_labels_count, foldl_common_count, foldl_off, foldl_scope by
    (done || (cbn [view_of v_stack v_scope]; rewrite ?F6, ?F7; pose proof (c_small _ _ _ Hc) as Hs; unfold scope_small in Hs; first [lia|apply Hc])).
  cbn [view_of v_labels v_off v_common v_scope v_stack]. rewrite F1, F3, F4, F5, F6, F7, F8, F10, F11.
  split; [done|]. split; [done|]. split; [done|]. split; [done|]. split; [done|]. split; [done|]. split; [lens|]. split; [done|].
  split; [lens|done].
Qed.
End Measure.

(** ** The pass that emits *)

Definition info_of (s : scope_t) : list Z :=
  sig_bytes (sig_of s) ++ size_bytes (Z.of_nat (length (name_bytes star s))) (Z.of_nat (length (cells_of (ids s)))) ++
  name_bytes star s ++ cells_of (ids s).

(** The emitter after the pass before the last. *)
Record measured_for (e : emit_t) (s : scope_t) (b : Z) : Prop := {
  m_idle : idle e;
  m_labels : label_offsets e = Some (labels_found (max_num_labels e) b);
  m_info : n_info e = Z.of_nat (length (name_bytes star s));
  m_cell : n_cell e = Z.of_nat (length (cells_of (ids s)));
  m_info_size : code_info_size e = Z.of_nat (length (info_of s));
  m_code_size : bytecode_size e = code_size b 0 items;
  m_code : length (code_base e) = (length (info_of s) + Z.to_nat (code_size b 0 items))%nat;
  m_base : ct_cur_obj_base (emit_common e) = b;
  m_child : ct_cur_child (emit_common e) = Z.of_nat (length (children_of items));
  m_table : b + Z.of_nat (length (objs_of items)) <= Z.of_nat (length (const_table (emit_common e)))
}.

Section Emit.
Context (e : emit_t) (s : scope_t) (b : Z) (Hm : measured_for e s b) (Hc : compilable (max_num_labels e) b s).
Context (ch : list Z) (Hch : length ch = length (children_of items)).
Local Notation c := (common_start (emit_common e) MP_PASS_EMIT ch).
Local Notation x := (pass_start e s MP_PASS_EMIT ch).
Local Notation labs := (labels_found (max_num_labels e) b).

Lemma emit_fields d : e_pass (x d) = MP_PASS_EMIT /\ emitting (x d) = true /\ label_offsets (x d) = Some labs /\
  max_num_labels (x d) = max_num_labels e /\ emit_common (x d) = c /\ e_scope (x d) = s /\ e_stack_size (x d) = 0 /\
  bytecode_offset (x d) = 0 /\ dummy_data (x d) = d /\ code_info_size (x d) = code_info_size e /\ bytecode_size (x d) = bytecode_size e.
Proof. rewrite <- (m_labels _ _ _ Hm). done. Qed.

Lemma head_emit : head_bytes MP_PASS_EMIT s (n_info e) (n_cell e) =
  sig_bytes (sig_of s) ++ size_bytes (Z.of_nat (length (name_bytes star s))) (Z.of_nat (length (cells_of (ids s)))).
Proof. unfold head_bytes. by rewrite (m_info _ _ _ Hm), (m_cell _ _ _ Hm). Qed.

Lemma emit_code_base d : length (code_base (x d)) = length (code_base e).
Proof.
  change (length (splice (code_base e) 0 (head_bytes MP_PASS_EMIT s (n_info e) (n_cell e) ++ name_bytes star s)) = length (code_base e)).
  apply length_splice; [lia|]. rewrite head_emit. rewrite (m_code _ _ _ Hm). unfold info_of. lens.
Qed.

Lemma emit_ready d : ready (x d) (view_of (x d)) items.
Proof.
  destruct (emit_fields d) as (F1 & F2 & F3 & F4 & F5 & F6 & F7 & F8 & F9 & F10 & F11). pose proof (emit_code_base d) as Fcb. destruct Hc.
  constructor; cbn [view_of v_stack v_scope v_common v_labels v_off v_code]; rewrite ?F1, ?F2, ?F3, ?F4, ?F5, ?F7, ?F8, ?F10, ?F11, ?Fcb; cbn [default id]; try done;
    change (ct_cur_child c) with 0; change (ct_cur_obj c) with (ct_cur_obj_base (emit_common e)); rewrite ?(m_base _ _ _ Hm).
  - lia.
  - lia.
  - unfold labels_found. rewrite length_set_labels. unfold unset. rewrite length_replicate. destruct (i_labels _ (m_idle _ _ _ Hm)) as (l & _ & Hl). lia.
  - intros _. assert (Z.of_nat (length (unset (max_num_labels e))) = max_num_labels e) as Hu.
    { unfold unset. rewrite length_replicate. destruct (i_labels _ (m_idle _ _ _ Hm)) as (l & _ & Hl). lia. }
    rewrite (m_info_size _ _ _ Hm), (m_code_size _ _ _ Hm), (m_code _ _ _ Hm). split_and!.
    + by apply (set_labels_items (max_num_labels e)).
    + eapply list.Forall_impl; [exact c_uses0|]. cbn. intros l Hl.
      pose proof (set_labels_target (max_num_labels e) (unset (max_num_labels e)) 0 b 0 items l c_labels0 c_items0 Hu Hl ltac:(lia)) as Ht.
      unfold labels_found. lia.
    + lia.
    + lia.
    + pose proof (code_size_nonneg b 0 items). lia.
    + exact (m_table _ _ _ Hm).
    + change (children c) with ch. lia.
Qed.

Lemma emit_pass : exists d d0,
  (let! y := mp_emit_bc_start_pass star (with_common e c) MP_PASS_EMIT s in
   let! y := exec_calls ellipsis y cs in mp_emit_bc_end_pass y) = finish (ended (x d0) d) /\ length d = 5%nat.
Proof.
  assert (Hroom : forall d, length (code_base (x d)) = length (code_base e)) by apply emit_code_base.
  destruct (start_pass_ok star (with_common e c) MP_PASS_EMIT s) as (d0 & -> & Hd0); try apply Hc; try apply (m_idle _ _ _ Hm).
  { pose proof (info_bound star MP_PASS_EMIT s (n_info e) (n_cell e) (c_wf _ _ _ Hc) (c_small _ _ _ Hc)) as Hb.
    change (n_info (with_common e c)) with (n_info e). change (n_cell (with_common e c)) with (n_cell e).
    split_and!; [lia|lia|done|]. intros _. change (code_info_size (fresh_pass _ _ _)) with (code_info_size e).
    change (code_base (with_common e c)) with (code_base e).
    rewrite (m_info_size _ _ _ Hm), (m_code _ _ _ Hm), head_emit. unfold info_of. lens. }
  cbn [obind]. fold (pass_start e s MP_PASS_EMIT ch d0). destruct (emit_fields d0) as (F1 & F2 & F3 & F4 & F5 & F6 & F7 & F8 & F9 & F10 & F11).
  destruct (body_ok (x d0) labs) as (d & Hx & Hd); rewrite ?F6, ?F9; try done; try apply Hc.
  - apply emit_ready.
  - change (n_info (x d0)) with (Z.of_nat (length (head_bytes MP_PASS_EMIT s (n_info e) (n_cell e)))).
    change (code_info_offset (x d0)) with (Z.of_nat (length (head_bytes MP_PASS_EMIT s (n_info e) (n_cell e) ++ name_bytes star s))). lens.
  - change (code_info_offset (x d0)) with (Z.of_nat (length (head_bytes MP_PASS_EMIT s (n_info e) (n_cell e) ++ name_bytes star s))).
    pose proof (info_bound star MP_PASS_EMIT s (n_info e) (n_cell e) (c_wf _ _ _ Hc) (c_small _ _ _ Hc)).
    split_and!; [lia|lia|by rewrite F1|]. intros _. rewrite F10, Hroom, (m_info_size _ _ _ Hm), (m_code _ _ _ Hm), head_emit. unfold info_of. lens.
  - by exists d, d0.
Qed.

Lemma emit_idle d0 d : length d = 5%nat -> idle (ended (x d0) d).
Proof.
  intros Hd. destruct (emit_fields d0) as (F1 & F2 & F3 & F4 & F5 & F6 & F7 & F8 & F9 & F10 & F11).
  destruct (start_offsets e s MP_PASS_EMIT ch d0) as [F12 F13].
  destruct (ended_fields (x d0) d) as (_ & G2 & G3 & G4 & _ & _ & G7 & G8 & _).
  pose proof (info_bound star MP_PASS_EMIT s (n_info e) (n_cell e) (c_wf _ _ _ Hc) (c_small _ _ _ Hc)) as Hb. rewrite !length_app in Hb.
  pose proof (length_cells s (c_wf _ _ _ Hc)) as Hb2. pose proof (c_small _ _ _ Hc) as Hs. unfold scope_small in Hs.
  rewrite F12, F13 in G7. rewrite F6 in G8. rewrite !length_app in G7.
  constructor; [by rewrite G2| |rewrite G7; lia|rewrite G8; lia].
  eexists. split; [exact G3|]. rewrite G4, F4, foldl_labels_emit by done. cbn [view_of v_labels]. rewrite F3. cbn [default id].
  unfold labels_found. rewrite length_set_labels. unfold unset. rewrite length_replicate.
  destruct (i_labels _ (m_idle _ _ _ Hm)) as (l & _ & Hl). lia.
Qed.

(** The memory of the code, and the tables, after the pass. *)
Lemma emitted d0 d : length d = 5%nat -> let y := ended (x d0) d in
  e_pass y = MP_PASS_EMIT /\ code_base y = info_of s ++ assemble labs 0 b 0 items /\
  e_scope y = scope_after s items 0 /\ children (emit_common y) = children_of items /\
  const_table (emit_common y) = splice (const_table (emit_common e)) b (objs_of items) /\
  idle y /\ max_num_labels y = max_num_labels e /\ ct_cur_obj (emit_common y) = b + Z.of_nat (length (objs_of items)).
Proof.
  destruct (emit_fields d0) as (F1 & F2 & F3 & F4 & F5 & F6 & F7 & F8 & F9 & F10 & F11).
  destruct (start_offsets e s MP_PASS_EMIT ch d0) as [F12 F13].
  intros Hd. cbv zeta. pose proof (emit_idle d0 d Hd) as Hidle.
  destruct (ended_fields (x d0) d) as (-> & _ & _ & -> & -> & -> & _ & _ & _ & _ & ->). rewrite foldl_cur_obj.
  destruct (foldl_tables (x d0) (view_of (x d0)) items (emit_ready d0) F2) as [-> ->].
  rewrite (foldl_code _ _ _ (emit_ready d0)), foldl_scope by
    (done || (cbn [view_of v_stack v_scope]; rewrite ?F6, ?F7; pose proof (c_small _ _ _ Hc) as Hs; unfold scope_small in Hs; first [lia|apply Hc])).
  cbn [view_of v_labels v_off v_common v_code v_scope v_stack]. rewrite F1, F3, F4, F5, F6, F7, F8, F10, F13. cbn [default].
  change (ct_cur_child c) with 0. change (ct_cur_obj c) with (ct_cur_obj_base (emit_common e)). rewrite (m_base _ _ _ Hm).
  split_and!; try done.
  - unfold written. rewrite F2. rewrite Z.add_0_r, (m_info_size _ _ _ Hm).
    change (code_base (x d0)) with (splice (code_base e) 0 (head_bytes MP_PASS_EMIT s (n_info e) (n_cell e) ++ name_bytes star s)).
    set (h := head_bytes MP_PASS_EMIT s (n_info e) (n_cell e) ++ name_bytes star s).
    assert (info_of s = h ++ cells_of (ids s)) as -> by (unfold h, info_of; rewrite head_emit; by rewrite <- !app_assoc).
    cbn [id]. rewrite length_app, splice_three, <- app_assoc; [done|].
    pose proof (length_assemble labs 0 b 0 items). rewrite (m_code _ _ _ Hm).
    assert (length (info_of s) = (length h + length (cells_of (ids s)))%nat) by (unfold h, info_of; rewrite head_emit; lens). lia.
  - change (children c) with ch. unfold splice. cbn. rewrite drop_ge by lia. apply app_nil_r.
Qed.
End Emit.

(** ** The three passes *)

Lemma m_new0_cases sz n : 0 < sz -> 0 <= n -> sz * n < 2 ^ 32 ->
  m_new0 sz n = Raise MemoryError \/ m_new0 sz n = Ret (replicate (Z.to_nat n) 0).
Proof.
  intros Hsz Hn Hb. unfold m_new0. destruct (Z.eq_dec n 0) as [->|].
  - right. unfold m_new, m_malloc. rewrite Z.mul_0_r. done.
  - rewrite m_new_ok by lia. destruct (m_renew_ok _); [right|by left]. cbn. by rewrite length_replicate.
Qed.

Lemma ended_idle e s pass d0 d : pass = MP_PASS_STACK_SIZE \/ pass = MP_PASS_CODE_SIZE -> idle e ->
  let c := common_start (emit_common e) pass (children (emit_common e)) in
  compilable (max_num_labels e) (ct_cur_obj c) s -> length d = 5%nat -> idle (ended (pass_start e s pass (children (emit_common e)) d0) d).
Proof.
  intros Hp Hi c; subst c; intros Hc Hd. destruct (measured e s pass Hp Hi Hc d0 d) as (_ & G2 & G3 & G4 & _ & _ & G7 & G8 & _).
  pose proof (info_bound star pass s (n_info e) (n_cell e) (c_wf _ _ _ Hc) (c_small _ _ _ Hc)) as Hb. rewrite !length_app in Hb.
  pose proof (length_cells s (c_wf _ _ _ Hc)) as Hb2. pose proof (c_small _ _ _ Hc) as Hs. unfold scope_small in Hs.
  constructor; [by rewrite G2| |rewrite G7; lia|rewrite G8; lia].
  eexists. split; [exact G3|]. rewrite G4. unfold labels_found. rewrite length_set_labels. unfold unset. rewrite length_replicate.
  destruct (i_labels _ Hi) as (l & _ & Hl). lia.
Qed.

Lemma with_sizes_fields y ci bc code : let y' := with_sizes y ci bc code in
  e_scope y' = e_scope y /\ max_num_labels y' = max_num_labels y /\ emit_common y' = emit_common y /\ label_offsets y' = label_offsets y /\
  n_info y' = n_info y /\ n_cell y' = n_cell y /\ code_info_size y' = ci /\ bytecode_size y' = bc /\ code_base y' = code /\ (idle y -> idle y').
Proof. repeat (split; [done|]). by intros []. Qed.

Definition measure_both (e : emit_t) (s : scope_t) : outcome (emit_t * option mp_raw_code_t) :=
  let! '(e, _) := compile_scope star ellipsis e s MP_PASS_STACK_SIZE cs in
  compile_scope star ellipsis e (e_scope e) MP_PASS_CODE_SIZE cs.

(** The first two of the passes: an emitter that has measured everything, or no memory for the code. *)
Lemma measure_passes e s : idle e -> let b := ct_cur_obj (emit_common e) in compilable (max_num_labels e) b s ->
  b + Z.of_nat (length (objs_of items)) <= Z.of_nat (length (const_table (emit_common e))) ->
  let s' := scope_after s items 0 in
  measure_both e s = Raise MemoryError \/
  exists e', measure_both e s = Ret (e', None) /\ e_scope e' = s' /\ measured_for e' s' b /\ max_num_labels e' = max_num_labels e /\
    const_table (emit_common e') = const_table (emit_common e).
Proof.
  intros Hi b Hc Ht s'. unfold measure_both.
  pose proof (scope_after_names s items) as (_ & _ & Hids & Hnames).
  destruct (measure_pass e s MP_PASS_STACK_SIZE (or_introl eq_refl) Hi Hc) as (d & d0 & -> & Hd).
  destruct (measured e s MP_PASS_STACK_SIZE (or_introl eq_refl) Hi Hc d0 d) as (G1 & _ & _ & G4 & G5 & G6 & G7 & G8 & _).
  pose proof (ended_idle e s MP_PASS_STACK_SIZE d0 d (or_introl eq_refl) Hi Hc Hd) as Hi1.
  set (e1 := ended _ d) in *. clearbody e1.
  assert (finish e1 = Ret (e1, None)) as -> by (unfold finish; by rewrite G1). cbn [obind]. rewrite G5. fold s'.
  assert (Hb1 : ct_cur_obj (common_start (emit_common e1) MP_PASS_CODE_SIZE (children (emit_common e1))) = b) by (cbn; by rewrite G6).
  assert (Hc1 : compilable (max_num_labels e1) (ct_cur_obj (common_start (emit_common e1) MP_PASS_CODE_SIZE (children (emit_common e1)))) s').
  { rewrite Hb1, G4. by apply compilable_after. }
  destruct (measure_pass e1 s' MP_PASS_CODE_SIZE (or_intror eq_refl) Hi1 Hc1) as (d2 & d3 & -> & Hd2).
  destruct (measured e1 s' MP_PASS_CODE_SIZE (or_intror eq_refl) Hi1 Hc1 d3 d2) as (K1 & K2 & K3 & K4 & K5 & K6 & K7 & K8 & K9 & K10).
  pose proof (ended_idle e1 s' MP_PASS_CODE_SIZE d3 d2 (or_intror eq_refl) Hi1 Hc1 Hd2) as Hi2.
  pose proof (info_bound star MP_PASS_CODE_SIZE s' (n_info e1) (n_cell e1) (c_wf _ _ _ Hc1) (c_small _ _ _ Hc1)) as Hb.
  set (e2 := ended _ d2) in *. clearbody e2. unfold finish. rewrite K1.
  assert (Hinfo : length (info_of s') = length (head_bytes MP_PASS_CODE_SIZE s' (n_info e1) (n_cell e1) ++ name_bytes star s' ++ cells_of (ids s'))).
  { unfold info_of, head_bytes. rewrite G7, G8. unfold s'. rewrite Hids, Hnames. cbn [pass_code Z.leb Z.compare]. by rewrite <- !app_assoc. }
  rewrite <- Hinfo in K9. rewrite app_assoc, length_app in Hinfo. rewrite <- Hinfo in Hb. rewrite Hb1 in K6, K10.
  pose proof (code_size_nonneg b 0 items). pose proof (c_size _ _ _ Hc). rewrite K9, K10. rewrite wrap_small by lia.
  destruct (m_new0_cases 1 (Z.of_nat (length (info_of s')) + code_size b 0 items)) as [->| ->]; [lia..|by left|].
  right. cbn [obind]. set (code := replicate _ 0).
  assert (Hcode : length code = (length (info_of s') + Z.to_nat (code_size b 0 items))%nat) by (unfold code; rewrite length_replicate; lia).
  clearbody code. destruct (with_sizes_fields e2 (Z.of_nat (length (info_of s'))) (code_size b 0 items) code) as (W1 & W2 & W3 & W4 & W5 & W6 & W7 & W8 & W9 & W10).
  set (e3 := with_sizes e2 _ _ code) in *. clearbody e3. exists e3. split; [done|].
  assert (scope_after s' items 0 = s') as Htw by apply scope_after_twice.
  rewrite W1, W2, W3, K4, K5, K6, G6, G4, Htw. cbn [const_table]. split; [done|]. split; [|done].
  constructor; rewrite ?W2, ?W3, ?W4, ?W5, ?W6, ?W7, ?W8, ?W9, ?K3, ?K6, ?K7, ?K8; cbn [ct_cur_obj_base ct_cur_child const_table]; try done.
  - by apply W10.
  - by rewrite Hb1, K4.
  - by rewrite G6.
Qed.

(** What the last pass leaves. *)
Record result (e e' : emit_t) (rc : mp_raw_code_t) (s : scope_t) (b : Z) : Prop := {
  o_kind : rc_kind rc = MP_CODE_BYTECODE;
  o_flags : rc_scope_flags rc = wrap 7 (scope_flags s);
  o_code : rc_fun_data rc = info_of s ++ assemble (labels_found (max_num_labels e) b) 0 b 0 items;
  o_children : rc_children rc = children_of items;
  o_scope : e_scope e' = s;
  o_table : const_table (emit_common e') = splice (const_table (emit_common e)) b (objs_of items);
  o_idle : idle e';
  o_max : max_num_labels e' = max_num_labels e;
  o_obj : ct_cur_obj (emit_common e') = b + Z.of_nat (length (objs_of items))
}.

Lemma emit_last e s b : measured_for e s b -> compilable (max_num_labels e) b s -> scope_after s items 0 = s ->
  compile_scope star ellipsis e s MP_PASS_EMIT cs = Raise MemoryError \/
  exists e' rc, compile_scope star ellipsis e s MP_PASS_EMIT cs = Ret (e', Some rc) /\ result e e' rc s b.
Proof.
  intros Hm Hc Hs. unfold compile_scope.
  assert (mp_emit_common_start_pass (emit_common e) MP_PASS_EMIT = Raise MemoryError \/
    exists ch, length ch = length (children_of items) /\
      mp_emit_common_start_pass (emit_common e) MP_PASS_EMIT = Ret (common_start (emit_common e) MP_PASS_EMIT ch)) as [->|(ch & Hch & ->)].
  { unfold mp_emit_common_start_pass. cbn [pass_code]. pose proof (c_child _ _ _ Hc). rewrite (m_child _ _ _ Hm).
    destruct (Z.eqb_spec (Z.of_nat (length (children_of items))) 0) as [E|E].
    - right. exists []. split; [cbn; lia|done].
    - destruct (m_new0_cases 4 (Z.of_nat (length (children_of items)))) as [Hn|Hn]; try lia; cbn; rewrite Hn; [by left|right].
      eexists. split; [|reflexivity]. rewrite length_replicate. lia. }
  { by left. }
  right. cbn [obind]. destruct (emit_pass e s b Hm Hc ch Hch) as (d & d0 & -> & Hd).
  destruct (emitted e s b Hm Hc ch Hch d0 d Hd) as (G1 & G2 & G3 & G4 & G5 & G6 & G7 & G8). rewrite Hs in G3.
  set (y := ended _ d) in *. clearbody y. unfold finish. rewrite G1, G2, G3, G4.
  eexists _, _. split; [done|]. by constructor.
Qed.

Lemma compile_passes_both e s : compile_passes star ellipsis e s cs =
  let! '(e', _) := measure_both e s in compile_scope star ellipsis e' (e_scope e') MP_PASS_EMIT cs.
Proof.
  unfold compile_passes, measure_both. destruct (compile_scope star ellipsis e s MP_PASS_STACK_SIZE cs) as [[? ?]| | |]; [|done..].
  cbn [obind]. reflexivity.
Qed.

(** The three passes. *)
Lemma compile_passes_result e s : idle e -> let b := ct_cur_obj (emit_common e) in compilable (max_num_labels e) b s ->
  b + Z.of_nat (length (objs_of items)) <= Z.of_nat (length (const_table (emit_common e))) ->
  compile_passes star ellipsis e s cs = Raise MemoryError \/
  exists e' rc, compile_passes star ellipsis e s cs = Ret (e', Some rc) /\ result e e' rc (scope_after s items 0) b.
Proof.
  intros Hi b Hc Ht. rewrite compile_passes_both. destruct (measure_passes e s Hi Hc Ht) as [->|(e1 & -> & Hs & Hm & Hn & Hk)]; [by left|].
  cbn [obind]. rewrite Hs. fold b in Hm.
  destruct (emit_last e1 (scope_after s items 0) b Hm) as [->|(e' & rc & -> & [])]; [rewrite Hn; by apply compilable_after|apply scope_after_twice|by left|].
  right. exists e', rc. split; [done|]. constructor; try done; [by rewrite <- Hn|by rewrite <- Hk|by rewrite <- Hn].
Qed.
End Passes.
