(* ===== verification/EmitRead.v ===== *)
(** * Reading what the emitter wrote

    [reads] says that the virtual machine finds the instructions that a list of items means: the opcodes, the operands with
    the constants and functions that they number, the jumps with the offsets of their labels.  [reads_assemble] shows it of
    the code that the passes of [EmitSpec] produce. *)

From S2P Require Import Prelude Malloc SmallInt Token Bytecode BytecodeNum BytecodePrelude BytecodeSpec Scope ScopeSpec EmitBc EmitMethods EmitPass EmitItems EmitRun EmitCode EmitPrelude EmitSpec.
Local Open Scope Z_scope.

(** ** What an operand means *)

Section Reads.
Context (table children : list Z) (labs : list Z).

(** The operand of an instruction, with the byte after it, when [after] is the offset behind a label. *)
Inductive operand_means (after : Z) : meaning -> option Z -> operand -> Prop :=
| means_none : operand_means after M_none None O_none
| means_uint n : operand_means after (M_uint n) None (O_uint n)
| means_int n : operand_means after (M_int n) None (O_int n)
| means_obj o k : 0 <= k -> table !! Z.to_nat k = Some o -> operand_means after (M_obj o) None (O_uint k)
| means_child rc k : 0 <= k -> children !! Z.to_nat k = Some rc -> operand_means after (M_child rc) None (O_uint k)
| means_closure rc k n : 0 <= k -> children !! Z.to_nat k = Some rc -> operand_means after (M_child rc) (Some n) (O_uint_byte k n)
| means_ulabel l rel : after + rel = target labs l -> operand_means after (M_ulabel l) None (O_label rel)
| means_slabel l rel : after + rel = target labs l -> operand_means after (M_slabel l) None (O_label rel)
| means_unwind l rel b : after + rel = target labs l -> operand_means after (M_slabel l) (Some b) (O_label_byte rel b).

(** The virtual machine reads the items from [code], which is at the offset [off]. *)
Inductive reads (off : Z) (code : list Z) : list item -> Prop :=
| reads_nil : reads off code []
| reads_op adj o m x p rest ws :
    vm_fetch code = Ret (o, p, rest) -> operand_means (off + 3) m x p ->
    reads (off + (Z.of_nat (length code) - Z.of_nat (length rest))) rest ws -> reads off code (I_op adj o m x :: ws)
| reads_pop rest ws : vm_fetch code = Ret (MP_BC_POP_TOP, O_none, rest) -> reads (off + 1) rest ws -> reads off code (I_pop :: ws)
| reads_label l ws : target labs l = off -> reads off code ws -> reads off code (I_label l :: ws)
| reads_adjust d ws : reads off code ws -> reads off code (I_adjust d :: ws)
| reads_return ws : reads off code ws -> reads off code (I_return :: ws)
| reads_generator ws : reads off code ws -> reads off code (I_generator :: ws).
End Reads.

(** ** Opcodes and their operands *)

(** The operand is one that the virtual machine reads after the opcode. *)
Definition kind_ok (o : Z) (m : meaning) (x : option Z) : bool :=
  (0 <=? o) && (o <? 256) &&
  match m, x, vm_operand o with
  | M_none, None, Some K_none => true
  | M_uint n, None, Some K_uint => true
  | M_uint n, None, Some K_byte => (0 <=? n) && (n <? 128)
  | M_int _, None, Some K_int => true
  | (M_obj _ | M_child _), None, Some K_uint => true
  | M_child _, Some b, Some K_uint_byte => (0 <=? b) && (b <? 256)
  | M_ulabel _, None, Some K_ulabel => true
  | M_slabel _, None, Some K_slabel => true
  | M_slabel _, Some b, Some K_slabel_byte => (0 <=? b) && (b <? 256)
  | _, _, _ => false
  end.

Definition readable (w : item) : bool := match w with I_op _ o m x => kind_ok o m x | _ => true end.

Lemma multi_ok o : 0x70 <= o < 0xfa -> kind_ok o M_none None = true.
Proof.
  intros Ho. pose proof (byte_cases (fun o => implb ((0x70 <=? o) && (o <? 0xfa)) (kind_ok o M_none None)) 256 o) as H.
  cbv beta in H. rewrite (proj2 (andb_true_iff _ _)) in H by lia. apply H; [vm_compute; reflexivity|lia].
Qed.

Lemma kind_uint o n : kind_ok o (M_uint 0) None = true -> vm_operand o = Some K_uint -> kind_ok o (M_uint n) None = true.
Proof. unfold kind_ok. intros H E. by rewrite E in *. Qed.

Lemma readable_op adj o : 0x70 <= o < 0xfa -> forallb readable [op adj o] = true.
Proof. intros Ho. cbn [forallb readable op]. by rewrite multi_ok. Qed.

Lemma unwind_byte d (b : bool) : 0 <= d < 128 -> 0 <= Z.lor (if b then 0x80 else 0) d < 256.
Proof.
  intros Hd. destruct b; [|rewrite Z.lor_0_l; lia]. change 0x80 with (Z.shiftl 1 7). rewrite lor_shiftl_low by lia. lia.
Qed.

(** Every instruction of an allowed call. *)
Lemma items_readable ellipsis c : call_ok c = true -> forallb readable (items_of ellipsis c) = true.
Proof.
  intros Hok. destruct c; cbn [items_of call_ok] in *; try reflexivity.
  all: repeat match goal with
    | H : (?k =? 0) || (?k =? 1) || (?k =? 2) = true |- _ => apply three_kinds in H as [->|[->| ->]]; try reflexivity
    | H : (?k =? 0) || (?k =? 1) = true |- _ => apply two_kinds in H as [->| ->]; try reflexivity
    | b : bool |- _ => destruct b; try reflexivity
    end.
  - by destruct tok.
  - destruct (Z.leb_spec (-16) arg), (Z.leb_spec arg 47); try reflexivity. apply readable_op. unfold MP_BC_LOAD_CONST_SMALL_INT_MULTI. lia.
  - apply andb_true_iff in Hok as [Hn Hk]. apply two_kinds in Hk as [->| ->]; [|reflexivity].
    destruct (Z.leb_spec local_num 15); [|reflexivity]. apply readable_op. unfold MP_BC_LOAD_FAST_MULTI. lia.
  - apply andb_true_iff in Hok as [Hn Hk]. apply two_kinds in Hk as [->| ->]; [|reflexivity].
    destruct (Z.leb_spec local_num 15); [|reflexivity]. apply readable_op. unfold MP_BC_STORE_FAST_MULTI. lia.
  - apply andb_true_iff in Hok as [Hn Hk]. by apply two_kinds in Hk as [->| ->].
  - destruct (except_depth =? 0).
    + by destruct (negb _).
    + pose proof (unwind_byte except_depth (negb (Z.land label MP_EMIT_BREAK_FROM_FOR =? 0)) ltac:(lia)) as Hb.
      set (x := Z.lor _ _) in *. clearbody x. cbn [forallb readable]. unfold kind_ok. cbn -[Z.leb Z.ltb].
      rewrite (proj2 (andb_true_iff (0 <=? x) (x <? 256))) by lia. done.
  - apply readable_op. unfold MP_UNARY_OP_NUM_BYTECODE, MP_BC_UNARY_OP_MULTI in *. lia.
  - destruct (Z.eqb_spec op MP_BINARY_OP_NOT_IN); [reflexivity|]. destruct (Z.eqb_spec op MP_BINARY_OP_IS_NOT); [reflexivity|].
    apply readable_op. unfold MP_BINARY_OP_NUM_BYTECODE, MP_BC_BINARY_OP_MULTI in *. lia.
  - assert (kind = 0 \/ kind = 1 \/ kind = 2 \/ kind = 3 \/ kind = 4 /\ 0 <= n_args < 128) as [->|[->|[->|[->|[-> Hn]]]]] by lia; try reflexivity.
    unfold op_uint. cbn [forallb readable]. unfold kind_ok. cbn -[Z.leb Z.ltb].
    rewrite (proj2 (andb_true_iff (0 <=? n_args) (n_args <? 128))) by lia. done.
  - by destruct kind.
  - by destruct (_ && _).
  - destruct ((n_pos_defaults =? 0) && _); cbn [forallb readable]; unfold kind_ok; cbn -[Z.leb Z.ltb];
      rewrite (proj2 (andb_true_iff (0 <=? n_closed_over) (n_closed_over <? 256))) by lia; done.
  - unfold call_items. by destruct (star_flags =? 0).
  - unfold call_items. by destruct (star_flags =? 0).
Qed.

Lemma calls_readable ellipsis cs : Forall (fun c => call_ok c = true) cs -> Forall (fun w => readable w = true) (items ellipsis cs).
Proof.
  intros H. unfold items. induction H as [|c cs Hc _ IH]; [constructor|]. cbn [mbind list_bind]. apply list.Forall_app. split; [|done].
  apply list.Forall_forall. intros w Hw. pose proof (items_readable ellipsis c Hc) as Hr. rewrite forallb_forall in Hr. apply Hr. by apply list_elem_of_In.
Qed.

(** ** One instruction *)

(** The label is near enough for the two bytes of its offset. *)
Definition label_fits (labs : list Z) (after : Z) (m : meaning) : bool :=
  match m with
  | M_ulabel l => (0 <=? target labs l - after) && (target labs l - after <? 2 ^ 16)
  | M_slabel l => (- 2 ^ 15 <=? target labs l - after) && (target labs l - after <? 2 ^ 15)
  | _ => true
  end.

Lemma read_label r rest : 0 <= r < 2 ^ 16 -> DECODE_ULABEL (label_bytes r ++ rest) = Ret (r, rest).
Proof.
  intros Hr. unfold DECODE_ULABEL, label_bytes. change (rd ([_; _] ++ rest) 0) with (Ret (wrap 8 r)).
  change (rd ([_; _] ++ rest) 1) with (Ret (wrap 8 (Z.shiftr r 8))). cbn [obind]. f_equal. f_equal.
  rewrite Z.shiftr_div_pow2 by lia. change (2 ^ 8) with 256. assert (0 <= r / 256 < 256) by (split; [apply Z.div_pos; lia|apply Z.div_lt_upper_bound; lia]).
  rewrite (wrap_small 8 (r / 256)) by done.
  rewrite Z.lor_comm, lor_shiftl_low by (lia || apply wrap_range; lia). unfold wrap. change (2 ^ 8) with 256. pose proof (Z.div_mod r 256). lia.
Qed.

Lemma read_slabel r rest : - 2 ^ 15 <= r < 2 ^ 15 -> DECODE_SLABEL (label_bytes (r + 0x8000) ++ rest) = Ret (r, rest).
Proof. intros Hr. unfold DECODE_SLABEL. rewrite read_label by lia. cbn. f_equal. f_equal. lia. Qed.

Lemma read_var n rest : 0 <= n < 2 ^ 32 -> DECODE_UINT (var_uint n ++ rest) = Ret (n, rest).
Proof. intros. rewrite DECODE_UINT_eq. by apply mp_decode_uint_var. Qed.

Lemma var_uint_small n : 0 <= n < 128 -> var_uint n = [n].
Proof.
  intros Hn. pose proof (byte_cases (fun n => implb (n <? 128) (bool_decide (var_uint n = [n]))) 256 n) as H. cbv beta in H.
  rewrite (proj2 (Z.ltb_lt _ _)) in H by lia. eapply bool_decide_eq_true, H; [vm_compute; reflexivity|lia].
Qed.

(** Nothing checks that a label is near enough: a jump of 32 KiB or more goes somewhere else. *)
Lemma far_slabel r rest : 2 ^ 15 <= r < 2 ^ 15 + 2 ^ 16 -> DECODE_SLABEL (label_bytes (r + 0x8000) ++ rest) = Ret (r - 2 ^ 16, rest).
Proof.
  intros Hr. rewrite <- (read_slabel (r - 2 ^ 16) rest) by lia. f_equal. f_equal. unfold label_bytes, wrap. rewrite !Z.shiftr_div_pow2 by lia.
  replace (r + 0x8000) with (r - 2 ^ 16 + 0x8000 + 256 * 2 ^ 8) by lia. rewrite Z.div_add, Z.mod_add by lia.
  replace ((r - 2 ^ 16 + 0x8000) / 2 ^ 8 + 256) with ((r - 2 ^ 16 + 0x8000) / 2 ^ 8 + 1 * 2 ^ 8) by lia. by rewrite Z.mod_add by lia.
Qed.

(** Nor that the numbers of arguments are below 256: a call with 256 arguments has the operand of one with a keyword. *)
Lemma call_operand_wide ellipsis : items_of ellipsis (C_call_function 256 0 0) = [op_uint (-256) MP_BC_CALL_FUNCTION 256] /\
  items_of ellipsis (C_call_function 0 1 0) = [op_uint (-2) MP_BC_CALL_FUNCTION 256].
Proof. done. Qed.

Section Fetch.
Context (table children labs : list Z) (n : Z).

Lemma fetch_op off obj child adj o m x rest : kind_ok o m x = true -> meaning_ok n m -> 0 <= obj < 2 ^ 16 -> 0 <= child < 2 ^ 16 ->
  label_fits labs (off + 3) m = true ->
  (forall c, m = M_obj c -> table !! Z.to_nat obj = Some c) -> (forall c, m = M_child c -> children !! Z.to_nat child = Some c) ->
  exists p, vm_fetch (item_bytes labs off obj child (I_op adj o m x) ++ rest) = Ret (o, p, rest) /\
            operand_means table children labs (off + 3) m x p.
Proof.
  unfold kind_ok. intros [Ho Hk]%andb_true_iff Hm Hobj Hch Hf Ht Hc. cbn [item_bytes]. rewrite wrap_small by lia. cbn [app vm_fetch].
  destruct m, x as [x|], (vm_operand o) as [[]|]; try discriminate Hk; cbn [meaning_bytes meaning_ok label_fits app] in *;
    rewrite ?app_nil_r, <- ?app_assoc; rewrite ?read_var, ?decode_int_var, ?read_label, ?read_slabel by lia; cbn [obind];
    try match goal with |- context [rd (?b :: rest) 0] => change (rd (b :: rest) 0) with (Ret b) end; cbn [obind]; rewrite ?(wrap_small 8) by lia;
    try (eexists; split; [reflexivity|]; constructor; first [lia|auto]; fail).
  rewrite var_uint_small by lia. eexists. split; [reflexivity|]. constructor.
Qed.

(** ** The code *)

Fixpoint jumps_ok (off obj child : Z) (ws : list item) : bool :=
  match ws with
  | [] => true
  | w :: ws =>
    match w with I_op _ _ m _ => label_fits labs (off + 3) m | _ => true end &&
    jumps_ok (off + size_of obj child w) (obj + Z.of_nat (length (item_objs w))) (child + Z.of_nat (length (item_children w))) ws
  end.

(** The elements of [xs] are in the table from [k] on. *)
Definition at_table (t : list Z) (k : Z) (xs : list Z) : Prop := forall i x, xs !! i = Some x -> t !! (Z.to_nat k + i)%nat = Some x.

Lemma at_table_app t k xs ys : 0 <= k -> at_table t k (xs ++ ys) -> at_table t k xs /\ at_table t (k + Z.of_nat (length xs)) ys.
Proof.
  intros Hk H. split; intros i x Hi.
  - apply H. rewrite lookup_app_l; [done|]. by eapply lookup_lt_Some.
  - replace (Z.to_nat (k + Z.of_nat (length xs)) + i)%nat with (Z.to_nat k + (length xs + i))%nat by lia. apply H.
    by rewrite lookup_app_r, Nat.add_comm, Nat.add_sub by lia.
Qed.

Lemma at_table_splice l k xs : 0 <= k -> k + Z.of_nat (length xs) <= Z.of_nat (length l) -> at_table (splice l k xs) k xs.
Proof.
  intros Hk Hl i x Hi. pose proof (lookup_lt_Some _ _ _ Hi). unfold splice.
  rewrite lookup_app_r by lens. rewrite length_take, lookup_app_l by lens. rewrite <- Hi. f_equal. lia.
Qed.

Lemma reads_assemble ws off obj child rest : Forall (fun w => readable w = true) ws -> Forall (item_ok n) ws ->
  0 <= obj -> obj + Z.of_nat (length (objs_of ws)) < 2 ^ 16 -> 0 <= child -> child + Z.of_nat (length (children_of ws)) < 2 ^ 16 ->
  jumps_ok off obj child ws = true -> (forall l o, (l, o) ∈ label_map off obj child ws -> target labs l = o) ->
  at_table table obj (objs_of ws) -> at_table children child (children_of ws) ->
  reads table children labs off (assemble labs off obj child ws ++ rest) ws.
Proof.
  revert off obj child. induction ws as [|w ws IH]; intros off obj child Hr Hi Ho Ho' Hc Hc' Hj Hm Ht Hch; [constructor|].
  apply list.Forall_cons in Hr as [Hrw Hr]. apply list.Forall_cons in Hi as [Hiw Hi]. cbn [jumps_ok] in Hj. apply andb_true_iff in Hj as [Hjw Hj].
  unfold objs_of, children_of in *. cbn [mbind list_bind] in *. rewrite length_app in *.
  apply at_table_app in Ht as [Htw Ht]; [|done]. apply at_table_app in Hch as [Hcw Hch]; [|done].
  cbn [label_map] in Hm. cbn [assemble]. rewrite <- app_assoc.
  specialize (IH (off + size_of obj child w) (obj + Z.of_nat (length (item_objs w))) (child + Z.of_nat (length (item_children w))) Hr Hi).
  specialize (IH ltac:(lia) ltac:(lia) ltac:(lia) ltac:(lia) Hj). specialize (IH ltac:(intros l o Hlo; apply Hm, elem_of_app; by right) Ht Hch).
  destruct w as [adj o m x| | d | l | |]; try (constructor; cbn in IH |- *; rewrite Z.add_0_r in IH; rewrite !Z.add_0_r in *; done).
  - destruct (fetch_op off obj child adj o m x (assemble labs (off + size_of obj child (I_op adj o m x)) (obj + Z.of_nat (length (item_objs (I_op adj o m x))))
      (child + Z.of_nat (length (item_children (I_op adj o m x)))) ws ++ rest)) as (p & Hf & Hp); try done; try (cbn in *; lia).
    + intros c ->. specialize (Htw 0%nat c eq_refl). by rewrite Nat.add_0_r in Htw.
    + intros c ->. specialize (Hcw 0%nat c eq_refl). by rewrite Nat.add_0_r in Hcw.
    + econstructor; [exact Hf|exact Hp|]. rewrite (length_app (item_bytes _ _ _ _ _)), Nat2Z.inj_add, size_item.
      match goal with |- reads _ _ _ ?a _ _ => replace a with (off + size_of obj child (I_op adj o m x)) by lia end. exact IH.
  - eapply reads_pop; [reflexivity|]. cbn [item_objs item_children length] in IH |- *. change (size_of obj child I_pop) with 1 in *. exact IH.
  - cbn in IH |- *. change (size_of obj child (I_label l)) with 0 in *. rewrite !Z.add_0_r in *. constructor; [|done]. apply Hm. cbn. by left.
Qed.
End Fetch.

(** ** The stack *)

Lemma peak_prefix st ws k : depth_ok st ws = true -> foldl depth_next st (take k ws) <= Z.max st (peak st ws).
Proof.
  revert st k. induction ws as [|w ws IH]; intros st k Hd; [rewrite take_nil; cbn; lia|]. destruct k as [|k]; [cbn; lia|].
  cbn [depth_ok] in Hd. apply andb_true_iff in Hd as [Hd1 Hd]. cbn [take foldl]. specialize (IH (depth_next st w) k Hd).
  cbn [peak]. unfold depth_next in *. destruct (adj_of w) as [d|]; cbn in *; [lia|]. by rewrite Z.add_0_r in *.
Qed.

(** ** Functions *)

(** The code object [rc] of a scope [s], for which the compiler makes the calls that mean [ws]: its prelude has the
    signature and the sizes, and behind the names and the numbers of the cells there are the instructions.  The
    frame of the function has room for the locals and the stack at every point. *)
Definition runs_as (star : Z) (table : list Z) (s : scope_t) (ws : list item) (rc : mp_raw_code_t) : Prop :=
  let s' := scope_after s ws 0 in
  rc_kind rc = MP_CODE_BYTECODE /\ rc_scope_flags rc = wrap 7 (scope_flags s') /\
  (exists p code labs,
    MP_BC_PRELUDE_SIG_DECODE (rc_fun_data rc) = Ret (sig_of s', p) /\
    MP_BC_PRELUDE_SIZE_DECODE p = Ret (Z.of_nat (length (name_bytes star s)), Z.of_nat (length (cells_of (ids s))),
      name_bytes star s ++ cells_of (ids s) ++ code) /\
    reads table (rc_children rc) labs 0 code ws) /\
  forall k, num_locals s + foldl depth_next 0 (take k ws) <= n_state (sig_of s').

(** The jumps of a function are near, and its prelude can be read. *)
Definition readable_scope (n b : Z) (s : scope_t) (ws : list item) : Prop :=
  jumps_ok (set_labels (unset n) (label_map 0 b 0 ws)) 0 b 0 ws = true /\ (length (cells_of (ids s)) < 64)%nat.

Section Module.
Context {words : Allocator Z} (star ellipsis : Z).

Lemma result_runs cs e e' rc s b table : let ws := items ellipsis cs in
  result star ellipsis cs e e' rc (scope_after s ws 0) b -> compilable ellipsis cs (max_num_labels e) b s -> 0 <= max_num_labels e ->
  readable_scope (max_num_labels e) b s ws -> at_table table b (objs_of ws) -> runs_as star table s ws rc.
Proof.
  intros ws Hr Hc Hn [Hj Hcell] Ht. pose proof (compilable_after _ _ _ _ _ Hc) as Hc'. fold ws in Hc'.
  destruct (scope_after_names s ws) as (_ & _ & Hids & Hnames).
  pose proof (info_bound star MP_PASS_EMIT s 0 0 (c_wf _ _ _ _ _ Hc) (c_small _ _ _ _ _ Hc)) as Hb. rewrite !length_app in Hb.
  split; [apply Hr|]. split; [apply Hr|]. split.
  - eexists _, (assemble (labels_found ellipsis cs (max_num_labels e) b) 0 b 0 ws), (labels_found ellipsis cs (max_num_labels e) b).
    rewrite (o_code _ _ _ _ _ _ _ _ Hr). unfold info_of. rewrite <- !app_assoc, Hids, Hnames. split; [apply sig_decode_ok, sig_of_ok, Hc'|]. split.
    { apply size_decode_ok; lia. }
    rewrite <- (app_nil_r (assemble _ _ _ _ _)). pose proof (c_obj _ _ _ _ _ Hc). pose proof (c_child _ _ _ _ _ Hc). pose proof (c_labels _ _ _ _ _ Hc).
    apply (reads_assemble _ _ _ (max_num_labels e)); try done; try (apply Hc).
    + apply calls_readable, Hc.
    + intros l o Hlo. unfold target. apply nth_lookup_Some. unfold labels_found. fold ws.
      apply (set_labels_items (max_num_labels e)); try done; [apply Hc|]. unfold unset. rewrite length_replicate. lia.
    + rewrite (o_children _ _ _ _ _ _ _ _ Hr). fold ws. intros i x Hi. exact Hi.
  - intros k. pose proof (peak_prefix 0 ws k (c_depth _ _ _ _ _ Hc)) as Hp. pose proof (peak_nonneg 0 ws (c_depth _ _ _ _ _ Hc)).
    pose proof (c_small _ _ _ _ _ Hc) as Hsm. unfold scope_small in Hsm. unfold sig_of, scope_after. cbv zeta.
    destruct (is_generator ws); cbn -[Z.max Z.eqb]; destruct (Z.eqb_spec (num_locals s + Z.max (stack_size s) (peak 0 ws)) 0); lia.
Qed.

(** ** Modules *)

(** The conditions on every scope, when [b] constants precede. *)
Fixpoint scopes_ok (n b : Z) (scs : list (scope_t * list emit_call)) : Prop :=
  match scs with
  | [] => True
  | (s, cs) :: scs =>
    compilable ellipsis cs n b s /\ readable_scope n b s (items ellipsis cs) /\
    scopes_ok n (b + Z.of_nat (length (objs_of (items ellipsis cs)))) scs
  end.

(** The constants of a module. *)
Definition constants (scs : list (scope_t * list emit_call)) : list Z := scs ≫= (fun sc => objs_of (items ellipsis sc.2)).

Definition all_run (table : list Z) (scs : list (scope_t * list emit_call)) (rcs : list mp_raw_code_t) : Prop :=
  Forall2 (fun sc rc => runs_as star table sc.1 (items ellipsis sc.2) rc) scs rcs.

Lemma idle_labels e : idle e -> 0 <= max_num_labels e.
Proof. intros [_ (l & _ & H) _ _]. lia. Qed.

Lemma compile_scopes_ok scs e : idle e -> let b := ct_cur_obj (emit_common e) in 0 <= b -> scopes_ok (max_num_labels e) b scs ->
  b + Z.of_nat (length (constants scs)) <= Z.of_nat (length (const_table (emit_common e))) ->
  compile_scopes star ellipsis e scs = Raise MemoryError \/
  exists e' rcs, compile_scopes star ellipsis e scs = Ret (e', Some <$> rcs) /\
    const_table (emit_common e') = splice (const_table (emit_common e)) b (constants scs) /\ all_run (const_table (emit_common e')) scs rcs.
Proof.
  revert e. induction scs as [|[s cs] scs IH]; intros e Hi b Hb Hok Ht; cbn [compile_scopes].
  { right. exists e, []. split; [done|]. split; [|constructor]. unfold constants. cbn. by rewrite splice_nil. }
  destruct Hok as (Hc & Hr & Hok). unfold constants in Ht |- *. cbn [mbind list_bind] in Ht |- *. fold (constants scs) in Ht |- *.
  cbn [snd] in *. rewrite length_app in Ht.
  destruct (compile_passes_result star ellipsis cs e s Hi Hc) as [->|(e1 & rc & -> & Hres)]; [fold b; lia|by left|]. cbn [obind]. fold b in Hres.
  destruct Hres as [R1 R2 R3 R4 R5 R6 R7 R8 R9] eqn:E. clear E.
  assert (length (const_table (emit_common e1)) = length (const_table (emit_common e))) as Hlen by (rewrite R6; apply length_splice; lia).
  destruct (IH e1 R7) as [->|(e' & rcs & -> & Hk & Hall)]; [lia|by rewrite R8, R9|rewrite R9, Hlen; lia|by left|].
  right. cbn [obind]. exists e', (rc :: rcs). split; [done|]. rewrite Hk, R6, R9, splice_app by lia. split; [done|].
  constructor; [|by rewrite <- splice_app, <- R9, <- R6, <- Hk by lia]. cbn [fst snd].
  eapply (result_runs cs e e1 rc s b); try done; [by apply idle_labels|].
  refine (proj1 (at_table_app _ _ _ (constants scs) Hb _)). apply at_table_splice; [done|]. rewrite length_app. lia.
Qed.

Lemma m_new_cases sz n : 0 < sz -> 0 <= n -> sz * n < 2 ^ 32 ->
  m_new sz n = Raise MemoryError \/ exists l : list Z, m_new sz n = Ret l /\ Z.of_nat (length l) = n.
Proof.
  intros Hsz Hn Hb. destruct (Z.eq_dec n 0) as [->|].
  - right. exists []. unfold m_new, m_malloc. by rewrite Z.mul_0_r.
  - rewrite m_new_ok by lia. destruct (m_renew_ok _); [right|by left]. eexists. split; [done|]. rewrite length_replicate. lia.
Qed.

(** C10. The three last passes over a scope give the code of a reference that assembles the meaning of the calls at once:
    no assert fails and no write leaves the memory that the pass before the last one measured; the code is the prelude
    and the instructions with the offsets of the labels, the children and the constants are those of the calls, in their
    order, behind the constants of the functions before; and the scope has the depth of the stack and the flags that the
    calls give it.  The only other outcome is that there is no memory. *)
Theorem compile_passes_code cs e s : idle e -> let b := ct_cur_obj (emit_common e) in let ws := items ellipsis cs in
  compilable ellipsis cs (max_num_labels e) b s ->
  b + Z.of_nat (length (objs_of ws)) <= Z.of_nat (length (const_table (emit_common e))) ->
  compile_passes star ellipsis e s cs = Raise MemoryError \/
  exists e' rc, compile_passes star ellipsis e s cs = Ret (e', Some rc) /\
    rc_fun_data rc = info_of star (scope_after s ws 0) ++ assemble (labels_found ellipsis cs (max_num_labels e) b) 0 b 0 ws /\
    rc_children rc = children_of ws /\ rc_scope_flags rc = wrap 7 (scope_flags (scope_after s ws 0)) /\
    const_table (emit_common e') = splice (const_table (emit_common e)) b (objs_of ws) /\ e_scope e' = scope_after s ws 0.
Proof.
  intros Hi b ws Hc Ht. destruct (compile_passes_result star ellipsis cs e s Hi Hc Ht) as [H|(e' & rc & H & Hr)]; [by left|right].
  exists e', rc. split; [done|]. fold b in Hr. fold ws in Hr. split_and!; apply Hr.
Qed.

(** C9. The passes over all scopes of a module, when the first pass has counted the constants: every function gets a code
    object in which the virtual machine reads, with its own decoders, the signature and the sizes of the scope and then the
    instructions that the calls mean: the same opcodes; operands that are the numbers of the calls, or number the constants
    and functions of the calls in the tables of the module and of the function; jumps that lead to where their labels are
    assigned.  The frame that the signature asks for has room for the locals and for the stack at every point. *)
Theorem compile_module_reads e n scs : length (dummy_data e) = 5%nat -> 0 <= n_info e < 2 ^ 30 -> 0 <= n_cell e < 2 ^ 16 ->
  0 <= n < 2 ^ 16 -> ct_cur_obj (emit_common e) = Z.of_nat (length (constants scs)) -> Z.of_nat (length (constants scs)) < 2 ^ 16 ->
  scopes_ok n 0 scs ->
  compile_module star ellipsis e n scs = Raise MemoryError \/
  exists e' rcs, compile_module star ellipsis e n scs = Ret (e', Some <$> rcs) /\ const_table (emit_common e') = constants scs /\
    all_run (constants scs) scs rcs.
Proof.
  intros Hd Hi Hcell Hn Hct Hk Hok. unfold compile_module, emit_bc_set_max_num_labels.
  destruct (m_new_cases 4 n) as [->|(l & -> & Hl)]; [lia..|by left|]. cbn [obind]. unfold mp_emit_common_finalise.
  change (emit_common (with_max_labels e n (Some l))) with (emit_common e). rewrite Hct.
  destruct (m_new0_cases 4 (Z.of_nat (length (constants scs)))) as [->| ->]; [lia..|by left|]. cbn [obind].
  match goal with |- context [compile_scopes _ _ ?x _] => set (e1 := x) end.
  assert (idle e1) as Hi1 by (constructor; [done|by exists l|done|done]).
  destruct (compile_scopes_ok scs e1 Hi1) as [->|(e' & rcs & -> & Ht & Hall)]; [cbn; lia|exact Hok|cbn; rewrite length_replicate; lia|by left|].
  right. assert (const_table (emit_common e') = constants scs) as Ec.
  { rewrite Ht. cbn. unfold splice. cbn. rewrite drop_ge by (rewrite length_replicate; lia). apply app_nil_r. }
  rewrite Ec in Hall. by exists e', rcs.
Qed.
End Module.

(** ** A module *)

(** A module with a function whose parameter is a cell: it stores a number in it while it is true, then returns. *)
Definition demo_function : scope_t :=
  {| s_kind := SCOPE_FUNCTION; parent := Some 0; raw_code := 501; simple_name := 130; scope_flags := 0; num_pos_args := 1;
     num_kwonly_args := 0; num_def_pos_args := 0; num_locals := 1; stack_size := 0; exc_stack_size := 0; id_info_alloc := 2;
     id_info_len := 1;
     id_info := [ {| kind := ID_INFO_KIND_CELL; flags := ID_FLAG_IS_PARAM; local_num := 0; qst := 44 |};
                  {| kind := ID_INFO_KIND_UNDECIDED; flags := 0; local_num := 0; qst := 0 |} ] |}.

Definition demo_function_calls : list emit_call :=
  [C_label_assign 0; C_load_local 0 1; C_pop_jump_if false 1; C_load_const_small_int 1000; C_store_local 0 1;
   C_load_const_tok MP_TOKEN_ELLIPSIS; C_pop_top; C_jump 0; C_label_assign 1; C_load_const_tok MP_TOKEN_KW_NONE; C_return_value].

Definition demo_module : scope_t :=
  {| s_kind := SCOPE_MODULE; parent := None; raw_code := 500; simple_name := 7; scope_flags := 0; num_pos_args := 0;
     num_kwonly_args := 0; num_def_pos_args := 0; num_locals := 0; stack_size := 0; exc_stack_size := 0; id_info_alloc := 1;
     id_info_len := 0; id_info := [ {| kind := ID_INFO_KIND_UNDECIDED; flags := 0; local_num := 0; qst := 0 |} ] |}.

Definition demo_module_calls : list emit_call :=
  [C_load_const_obj 888; C_make_function demo_function 0 0; C_call_function 1 0 0; C_pop_top;
   C_load_const_tok MP_TOKEN_KW_NONE; C_return_value].

Definition demo_scopes : list (scope_t * list emit_call) := [(demo_module, demo_module_calls); (demo_function, demo_function_calls)].

#[local] Instance sample_words : Allocator Z := {| m_renew_ok n := n <=? 4096; fresh := 170 |}.

(** The emitter after the first pass, which has counted two constants. *)
Definition demo_emit : emit_t :=
  emit_bc_new {| ec_pass := MP_PASS_SCOPE; ct_cur_obj_base := 0; ct_cur_obj := 2; ct_cur_child := 0; const_table := []; children := [] |} demo_module.

Definition demo_ready : emit_t := with_max_labels
  (with_common demo_emit {| ec_pass := MP_PASS_SCOPE; ct_cur_obj_base := 0; ct_cur_obj := 0; ct_cur_child := 0; const_table := [0; 0]; children := [] |})
  2 (Some [170; 170]).

Lemma demo_module_code : (let! '(e, rcs) := compile_module 77 999 demo_emit 2 demo_scopes in
    Ret (const_table (emit_common e), (fun rc => (rc_fun_data rc, rc_children rc)) <$> omap id rcs)) =
  Ret ([888; 999], [([8; 2; 7; 35; 0; 50; 0; 52; 1; 89; 81; 99], [501]);
    ([9; 7; 129; 2; 44; 0; 37; 0; 68; 11; 128; 34; 135; 104; 39; 0; 35; 1; 89; 66; 240; 127; 81; 99], [])]).
Proof. vm_compute. reflexivity. Qed.

(** The conditions of a concrete scope. *)
Ltac demo_ok :=
  constructor;
  [ by apply (bool_decide_eq_true_1 _)
  | repeat (apply list.Forall_cons; split; [first [exact I|split; by vm_compute]|]); by constructor
  | by apply (bool_decide_eq_true_1 _)
  | by apply (bool_decide_eq_true_1 _)
  | reflexivity
  | reflexivity
  | split_and!; [cbn; lia|cbn; lia|cbn; lia|cbn; lia|cbn; lia|by apply (bool_decide_eq_true_1 _)]
  | unfold scope_small; cbn; lia
  | by apply (bool_decide_eq_true_1 _)
  | cbn; lia
  | cbn; lia
  | vm_compute; reflexivity ].

Lemma demo_function_ok : compilable 999 demo_function_calls 2 1 demo_function.
Proof. demo_ok. Qed.

Lemma demo_function_ok_alone : compilable 999 demo_function_calls 2 0 demo_function.
Proof. demo_ok. Qed.

Lemma demo_module_ok : compilable 999 demo_module_calls 2 0 demo_module.
Proof. demo_ok. Qed.

Lemma demo_idle : idle demo_ready.
Proof. constructor; [done|by exists [170; 170]|cbn; lia|cbn; lia]. Qed.

Lemma compile_passes_code_witness : exists e' rc, compile_passes 77 999 demo_ready demo_function demo_function_calls = Ret (e', Some rc) /\
  rc_fun_data rc = info_of 77 (scope_after demo_function (items 999 demo_function_calls) 0) ++
    assemble (labels_found 999 demo_function_calls 2 0) 0 0 0 (items 999 demo_function_calls) /\
  rc_children rc = [] /\ rc_scope_flags rc = 0 /\ const_table (emit_common e') = [999; 0] /\
  e_scope e' = scope_after demo_function (items 999 demo_function_calls) 0.
Proof.
  destruct (compile_passes_code 77 999 demo_function_calls demo_ready demo_function demo_idle demo_function_ok_alone) as [H|H].
  - cbn. lia.
  - vm_compute in H. discriminate H.
  - exact H.
Defined.

Lemma demo_scopes_ok : scopes_ok 999 2 0 demo_scopes.
Proof.
  split; [exact demo_module_ok|]. split; [split; [vm_compute; reflexivity|by apply Nat.ltb_lt]|].
  split; [exact demo_function_ok|]. split; [split; [vm_compute; reflexivity|by apply Nat.ltb_lt]|]. done.
Qed.

Lemma compile_module_reads_witness : exists e' rcs, compile_module 77 999 demo_emit 2 demo_scopes = Ret (e', Some <$> rcs) /\
  const_table (emit_common e') = [888; 999] /\ all_run 77 999 [888; 999] demo_scopes rcs.
Proof.
  destruct (compile_module_reads 77 999 demo_emit 2 demo_scopes) as [H|H];
    [reflexivity|cbn; lia|cbn; lia|lia|reflexivity|cbn; lia|exact demo_scopes_ok| |exact H].
  vm_compute in H. discriminate H.
Defined.
