(* ===== verification/Args.v ===== *)
(** * Binding of arguments ([mp_setup_code_state] of [py/bc.c])

    A call of a function that was compiled to bytecode starts with the binding of its arguments: the prelude of the code
    says how many parameters there are and how they are named; the values given by position and by keyword, and the
    defaults, are put into the array of local variables from its end on (local [i] is [state[n_state - 1 - i]]); a tuple
    takes the positional arguments that are left over and a dictionary the keywords; then some locals become cells.
    The tuple, the dictionary and the cells are allocated, which can raise [MemoryError]. *)

From S2P Require Import Prelude Malloc MpObj HashKeys Map ObjDict SmallInt Bytecode Scope.
Local Open Scope Z_scope.

Definition MP_SCOPE_FLAG_VARKEYWORDS : Z := 0x02.
Definition MP_SCOPE_FLAG_DEFKWARGS : Z := 0x08.

Section Args.
(** [MP_OBJ_NEW_QSTR] makes the object of an interned string. *)
Context {obj : Type} `{!EqDecision obj, !MpObjOps obj, !Allocator obj} (MP_OBJ_NEW_QSTR : Z -> obj).

(** An entry of the array: [MP_OBJ_NULL], an object, or one of the objects that the binding makes (or finds among the
    defaults): a tuple, a dictionary, a cell with its contents. *)
Inductive slot := S_null | S_obj (o : obj) | S_tuple (items : list obj) | S_dict (d : mp_map_t obj) | S_cell (contents : slot).

Definition is_null (s : slot) : bool := match s with S_null => true | _ => false end.

(** [ip] is the rest of the code; [sp] is an index in [state]. *)
Record mp_code_state_t := {
  ip : list Z;
  sp : Z;
  cs_n_state : Z;
  exc_sp_idx : Z;
  state : list slot
}.

(** The object is two words and the items. *)
Definition mp_obj_new_tuple (n : Z) (items : list obj) : outcome slot :=
  if n =? 0 then Ret (S_tuple [])
  else
    let! _ := m_new_obj_var (A := obj) 8 4 n in
    if Z.of_nat (length items) <? n then Undef else Ret (S_tuple (take (Z.to_nat n) items)).

Definition mp_obj_new_cell (contents : slot) : outcome slot :=
  let! _ := m_new_obj (A := obj) 8 in Ret (S_cell contents).

(** Defaults for the arguments from [i] on; [first] is the first argument that has one. *)
Fixpoint default_loop (n : nat) (st : list slot) (n_state i first : Z) (extra_args : list slot) : outcome (list slot) :=
  match n with
  | O => Ret st
  | S n =>
    let! v := rd extra_args (i - first) in
    let! st := wr st (n_state - 1 - i) v in
    default_loop n st n_state (i + 1) first extra_args
  end.

(** Positional arguments from [i] on. *)
Fixpoint copy_args (n : nat) (st : list slot) (n_state i : Z) (args : list obj) : outcome (list slot) :=
  match n with
  | O => Ret st
  | S n =>
    let! v := rd args i in
    let! st := wr st (n_state - 1 - i) (S_obj v) in
    copy_args n st n_state (i + 1) args
  end.

(** The search for the name of a keyword among the names of the arguments from [j] on: the array with the value
    in it, or [None] when there is no such name. *)
Fixpoint find_name (n : nat) (st : list slot) (n_state j : Z) (arg_names : list Z) (wanted value : obj) : outcome (option (list slot)) :=
  match n with
  | O => Ret None
  | S n =>
    let! '(arg_qstr, arg_names) := mp_decode_uint arg_names in
    if bool_decide (wanted = MP_OBJ_NEW_QSTR arg_qstr) then
      let! old := rd st (n_state - 1 - j) in
      if is_null old then let! st := wr st (n_state - 1 - j) (S_obj value) in Ret (Some st) else Raise TypeError
    else find_name n st n_state (j + 1) arg_names wanted value
  end.

(** [mp_obj_dict_store(dict, key, value)] of the dictionary in [state[k]]. *)
Definition dict_store_at (st : list slot) (k : Z) (key value : obj) : outcome (list slot) :=
  let! s := rd st k in
  match s with
  | S_dict d => let! d := mp_obj_dict_store d key value in wr st k (S_dict d)
  | _ => Undef
  end.

(** Keyword arguments from [kwargs[2 * i]] on; [names] points to the names in the code, [var_kw] to the dictionary. *)
Fixpoint keyword_loop (n : nat) (st : list slot) (n_state i : Z) (kwargs : list obj) (names : list Z) (n_names : nat)
    (scope_flags var_kw : Z) : outcome (list slot) :=
  match n with
  | O => Ret st
  | S n =>
    let! wanted_arg_name := rd kwargs (2 * i) in
    let! arg_names := mp_decode_uint_skip names in
    let! value := rd kwargs (2 * i + 1) in
    let! found := find_name n_names st n_state 0 arg_names wanted_arg_name value in
    let! st :=
      match found with
      | Some st => Ret st
      | None =>
        if Z.land scope_flags MP_SCOPE_FLAG_VARKEYWORDS =? 0 then Raise TypeError
        else dict_store_at st var_kw wanted_arg_name value
      end in
    keyword_loop n st n_state (i + 1) kwargs names n_names scope_flags var_kw
  end.

(** [d] and [s] are indices in [state] and [extra_args]. *)
Fixpoint fill_defaults (n : nat) (st : list slot) (d s : Z) (extra_args : list slot) : outcome (list slot) :=
  match n with
  | O => Ret st
  | S n =>
    let! v := rd st d in
    let! st := if is_null v then let! x := rd extra_args s in wr st d x else Ret st in
    fill_defaults n st (d + 1) (s - 1) extra_args
  end.

Fixpoint check_positional (n : nat) (st : list slot) (d : Z) : outcome unit :=
  match n with
  | O => Ret tt
  | S n => let! v := rd st d in if is_null v then Raise TypeError else check_positional n st (d + 1)
  end.

Fixpoint skip_names (n : nat) (arg_names : list Z) : outcome (list Z) :=
  match n with
  | O => Ret arg_names
  | S n => let! arg_names := mp_decode_uint_skip arg_names in skip_names n arg_names
  end.

(** The value of a default of a keyword-only argument. *)
Definition default_kw (scope_flags n_def_pos_args : Z) (extra_args : list slot) (arg_qstr : Z) : outcome (option slot) :=
  if Z.land scope_flags MP_SCOPE_FLAG_DEFKWARGS =? 0 then Ret None
  else
    let! x := rd extra_args n_def_pos_args in
    match x with
    | S_dict d =>
      let! '(d, elem) := mp_map_lookup d (MP_OBJ_NEW_QSTR arg_qstr) MP_MAP_LOOKUP in
      match elem with
      | None => Ret None
      | Some pos => let! v := get_value d pos in Ret (Some (match v with Some o => S_obj o | None => S_null end))
      end
    | _ => Undef
    end.

Fixpoint kwonly_loop (n : nat) (st : list slot) (n_state n_pos_args i : Z) (arg_names : list Z) (scope_flags n_def_pos_args : Z)
    (extra_args : list slot) : outcome (list slot) :=
  match n with
  | O => Ret st
  | S n =>
    let! '(arg_qstr, arg_names) := mp_decode_uint arg_names in
    let! v := rd st (n_state - 1 - n_pos_args - i) in
    let! st :=
      if is_null v then
        let! elem := default_kw scope_flags n_def_pos_args extra_args arg_qstr in
        match elem with
        | Some x => wr st (n_state - 1 - n_pos_args - i) x
        | None => Raise TypeError
        end
      else Ret st in
    kwonly_loop n st n_state n_pos_args (i + 1) arg_names scope_flags n_def_pos_args extra_args
  end.

(** The cells; also where the code begins. *)
Fixpoint cell_loop (n : nat) (st : list slot) (n_state : Z) (ip : list Z) : outcome (list slot * list Z) :=
  match n with
  | O => Ret (st, ip)
  | S n =>
    match ip with
    | [] => Undef
    | local_num :: ip =>
      let! v := rd st (n_state - 1 - local_num) in
      let! c := mp_obj_new_cell v in
      let! st := wr st (n_state - 1 - local_num) c in
      cell_loop n st n_state ip
    end
  end.

(** The positional arguments: the array, the number of them that are copied, and the index where the dictionary goes. *)
Definition setup_positional (st : list slot) (n_state : Z) (p : prelude_sig) (extra_args : list slot) (n_args n_kw : Z) (args : list obj) :
  outcome (list slot * Z * Z) :=
  let var_pos_kw_args := n_state - 1 - n_pos_args p - n_kwonly_args p in
  let! '(st, n_args, var_pos_kw_args) :=
    if n_pos_args p <? n_args then
      if Z.land (sig_flags p) MP_SCOPE_FLAG_VARARGS =? 0 then Raise TypeError
      else
        let! t := mp_obj_new_tuple (n_args - n_pos_args p) (drop (Z.to_nat (n_pos_args p)) args) in
        let! st := wr st var_pos_kw_args t in
        Ret (st, n_pos_args p, var_pos_kw_args - 1)
    else
      let! '(st, var_pos_kw_args) :=
        if Z.land (sig_flags p) MP_SCOPE_FLAG_VARARGS =? 0 then Ret (st, var_pos_kw_args)
        else let! st := wr st var_pos_kw_args (S_tuple []) in Ret (st, var_pos_kw_args - 1) in
      let! st :=
        if (n_kw =? 0) && (Z.land (sig_flags p) MP_SCOPE_FLAG_DEFKWARGS =? 0) then
          let first := wrap 32 (n_pos_args p - n_def_pos_args p) in
          if first <=? n_args then default_loop (Z.to_nat (n_pos_args p - n_args)) st n_state n_args first extra_args
          else Raise TypeError
        else Ret st in
      Ret (st, n_args, var_pos_kw_args) in
  let! st := copy_args (Z.to_nat n_args) st n_state 0 args in
  Ret (st, n_args, var_pos_kw_args).

(** The keyword arguments, given the code after the prelude's numbers. *)
Definition setup_keywords (st : list slot) (n_state : Z) (p : prelude_sig) (extra_args : list slot) (n_kw : Z) (kwargs : list obj)
    (names : list Z) (var_kw : Z) : outcome (list slot) :=
  let n_names := Z.to_nat (n_pos_args p + n_kwonly_args p) in
  if negb (n_kw =? 0) || negb (Z.land (sig_flags p) MP_SCOPE_FLAG_DEFKWARGS =? 0) then
    let! st :=
      if Z.land (sig_flags p) MP_SCOPE_FLAG_VARKEYWORDS =? 0 then Ret st
      else let! dict := mp_obj_new_dict (Z.to_nat n_kw) in wr st var_kw (S_dict dict) in
    let! st := keyword_loop (Z.to_nat n_kw) st n_state 0 kwargs names n_names (sig_flags p) var_kw in
    let! st := fill_defaults (Z.to_nat (n_def_pos_args p)) st (n_state - n_pos_args p) (n_def_pos_args p - 1) extra_args in
    let! _ := check_positional (Z.to_nat (n_pos_args p - n_def_pos_args p)) st (n_state - n_pos_args p + n_def_pos_args p) in
    let! arg_names := mp_decode_uint_skip names in
    let! arg_names := skip_names (Z.to_nat (n_pos_args p)) arg_names in
    kwonly_loop (Z.to_nat (n_kwonly_args p)) st n_state (n_pos_args p) 0 arg_names (sig_flags p) (n_def_pos_args p) extra_args
  else if negb (n_kwonly_args p =? 0) then Raise TypeError
  else if Z.land (sig_flags p) MP_SCOPE_FLAG_VARKEYWORDS =? 0 then Ret st
  else let! dict := mp_obj_new_dict 0 in wr st var_kw (S_dict dict).

(** [extra_args] are those of the function object: the defaults of the last positional parameters, and behind them the
    dictionary of the defaults of keyword-only ones, if there are any.  [args] are [n_args] positional arguments and
    [n_kw] pairs of a name and a value. *)
Definition mp_setup_code_state (code_state : mp_code_state_t) (extra_args : list slot) (n_args n_kw : Z) (args : list obj) :
  outcome mp_code_state_t :=
  let n_state := cs_n_state code_state in
  let! '(p, ip) := MP_BC_PRELUDE_SIG_DECODE (ip code_state) in
  let! '(n_info, n_cell, ip) := MP_BC_PRELUDE_SIZE_DECODE ip in
  let st := replicate (Z.to_nat n_state) S_null in
  let kwargs := drop (Z.to_nat n_args) args in
  let! '(st, n_args, var_kw) := setup_positional st n_state p extra_args n_args n_kw args in
  let! st := setup_keywords st n_state p extra_args n_kw kwargs ip var_kw in
  let! '(st, ip) := cell_loop (Z.to_nat n_cell) st n_state (drop (Z.to_nat n_info) ip) in
  Ret {| ip := ip; sp := -1; cs_n_state := n_state; exc_sp_idx := 0; state := st |}.
End Args.
Arguments slot : clear implicits.
Arguments mp_code_state_t : clear implicits.
