(* ===== verification/ArgsRule.v ===== *)
(** * Binding of arguments: the rule, and the loops

    [binding] is the value of a parameter by Python's rule: the positional argument, else the keyword argument, else the
    default; [accepts] says which calls fit a function.  The lemmas show what each loop of [mp_setup_code_state] does to the
    array of locals, seen from its end ([frame]). *)

From S2P Require Import Prelude Malloc MpObj HashKeys Map MapSpec ObjDict SmallInt Bytecode BytecodeNum BytecodePrelude BytecodeSpec Scope Args.
Local Open Scope Z_scope.

(** ** Arrays that are filled from the end *)

Definition tab {A} (f : nat -> A) (n : nat) : list A := f <$> seq 0 n.

Section Tab.
Context {A : Type}.
Implicit Types (f g : nat -> A) (l : list A).

Lemma length_tab f n : length (tab f n) = n.
Proof. unfold tab. by rewrite length_fmap, length_seq. Qed.

Lemma lookup_tab f n j : (j < n)%nat -> tab f n !! j = Some (f j).
Proof. intros Hj. unfold tab. rewrite list_lookup_fmap, lookup_seq_lt by done. done. Qed.

Lemma tab_ext f g n : (forall j, (j < n)%nat -> f j = g j) -> tab f n = tab g n.
Proof. intros H. apply list_fmap_ext. intros i j Hi. apply lookup_seq in Hi as [-> Hi]. by apply H. Qed.

Lemma tab_const (x : A) n : tab (fun _ => x) n = replicate n x.
Proof.
  apply list_eq_same_length with n; [by rewrite ?length_replicate, ?length_tab..|]. intros i a b Hi Ha Hb.
  rewrite lookup_tab in Ha by done. rewrite lookup_replicate_2 in Hb by done. congruence.
Qed.

Definition set_at f j v : nat -> A := fun i => if decide (i = j) then v else f i.

Lemma insert_tab f n j v : (j < n)%nat -> <[j := v]> (tab f n) = tab (set_at f j v) n.
Proof.
  intros Hj. apply list_eq_same_length with n; [by rewrite ?length_insert, length_tab..|]. intros i x y Hi Hx Hy.
  rewrite lookup_tab in Hy by done. injection Hy as <-. unfold set_at. destruct (decide (i = j)) as [->|Hne].
  - rewrite list_lookup_insert_eq in Hx by (by rewrite length_tab). by injection Hx.
  - rewrite list_lookup_insert_ne, lookup_tab in Hx by done. by injection Hx.
Qed.

Lemma rd_reverse l j v : l !! j = Some v -> rd (reverse l) (Z.of_nat (length l) - 1 - Z.of_nat j) = Ret v.
Proof.
  intros Hj. pose proof (lookup_lt_Some _ _ _ Hj). apply rd_Ret; [lia|]. rewrite reverse_lookup by lia. rewrite <- Hj. f_equal. lia.
Qed.

Lemma wr_reverse l j v : (j < length l)%nat -> wr (reverse l) (Z.of_nat (length l) - 1 - Z.of_nat j) v = Ret (reverse (<[j := v]> l)).
Proof.
  intros Hj. rewrite wr_Ret by (rewrite length_reverse; lia). f_equal. apply list_eq. intros i.
  destruct (decide (i < length l)%nat) as [Hi|Hi].
  - rewrite (reverse_lookup _ _ ltac:(by rewrite length_insert)), length_insert. destruct (decide (i = length l - S j)%nat) as [->|Hne].
    + replace (Z.to_nat (Z.of_nat (length l) - 1 - Z.of_nat j)) with (length l - S j)%nat by lia.
      rewrite list_lookup_insert_eq by (rewrite length_reverse; lia).
      replace (length l - S (length l - S j))%nat with j by lia. by rewrite list_lookup_insert_eq.
    + rewrite !list_lookup_insert_ne by lia. by apply reverse_lookup.
  - rewrite !lookup_ge_None_2 by (rewrite ?length_insert, ?length_reverse, ?length_insert; lia). done.
Qed.
End Tab.

Lemma forallb_seq_ext (f g : nat -> bool) a n : (forall k, (a <= k < a + n)%nat -> f k = g k) -> forallb f (seq a n) = forallb g (seq a n).
Proof.
  revert a. induction n as [|n IH]; intros a H; [done|]. cbn. rewrite H by lia. f_equal. apply IH. intros k Hk. apply H. lia.
Qed.

(** ** The rule *)

(** The first parameter that has the name [q]. *)
Fixpoint param_of (names : list Z) (q : Z) : option nat :=
  match names with
  | [] => None
  | x :: names => if x =? q then Some 0%nat else S <$> param_of names q
  end.

Definition flag (p : prelude_sig) (f : Z) : bool := negb (Z.land (sig_flags p) f =? 0).

Section Rule.
Context {obj : Type} `{!EqDecision obj, !MpObjOps obj} (qstr : Z -> obj).
Context (p : prelude_sig) (names : list Z) (defs : list obj) (kwd : option (mp_map_t obj)).
Context (pos : list obj) (kws : list (Z * obj)).

Definition n_pos : nat := Z.to_nat (n_pos_args p).
Definition n_def : nat := Z.to_nat (n_def_pos_args p).
Definition n_kwonly : nat := Z.to_nat (n_kwonly_args p).
Definition n_params : nat := (n_pos + n_kwonly)%nat.

(** The parameters that keywords name, and the keyword arguments of a parameter. *)
Definition named (done : list (Z * obj)) : list nat := omap (fun kv => param_of names kv.1) done.
Definition kw_for (done : list (Z * obj)) (j : nat) : list (Z * obj) := filter (fun kv => param_of names kv.1 = Some j) done.

(** The value that the arguments give to a parameter. *)
Definition given (done : list (Z * obj)) (j : nat) : slot obj :=
  match take n_pos pos !! j with
  | Some o => S_obj o
  | None => match kw_for done j with kv :: _ => S_obj kv.2 | [] => S_null end
  end.

(** The default of a parameter: of the last positional ones, or in the dictionary of the keyword-only ones. *)
Definition default_of (j : nat) : slot obj :=
  if (j <? n_pos)%nat then
    if (j <? n_pos - n_def)%nat then S_null else match defs !! (j - (n_pos - n_def))%nat with Some o => S_obj o | None => S_null end
  else
    match kwd, names !! j with
    | Some d, Some q => match assoc (table d) (qstr q) with Some (Some o) => S_obj o | _ => S_null end
    | _, _ => S_null
    end.

Definition binding (j : nat) : slot obj := if is_null (given kws j) then default_of j else given kws j.

(** Keywords name parameters without a positional argument, each at most once; others need a [**] parameter. *)
Definition keywords_fit (done : list (Z * obj)) : Prop :=
  NoDup (named done) /\ Forall (fun j => length (take n_pos pos) <= j)%nat (named done) /\
  (flag p MP_SCOPE_FLAG_VARKEYWORDS = true \/ Forall (fun kv => param_of names kv.1 <> None) done).

(** The call fits the function. *)
Definition accepts : Prop :=
  ((length pos <= n_pos)%nat \/ flag p MP_SCOPE_FLAG_VARARGS = true) /\ keywords_fit kws /\
  forall j, (j < n_params)%nat -> is_null (binding j) = false.

(** The keyword arguments that name no parameter, the later of two with the same name. *)
Definition others (done : list (Z * obj)) : list (Z * obj) := filter (fun kv => param_of names kv.1 = None) done.
Definition collected (done : list (Z * obj)) (q : Z) : option obj :=
  foldl (fun found kv => if kv.1 =? q then Some kv.2 else found) None (others done).
End Rule.

(** ** The loops *)

Section Loops.
Context {obj : Type} `{!EqDecision obj, !MpObjOps obj, !MpObjLaws obj, !Allocator obj, !SmallHeap obj} (qstr : Z -> obj).
Context (Hqstr : forall q, mp_obj_is_qstr (qstr q) = true) (Hinj : Inj (=) (=) qstr).
Context (Hhash : forall q, exists h, mp_hash (qstr q) = Ret h).

Implicit Types (f : nat -> slot obj) (T : list (slot obj)) (done : list (Z * obj)) (kv : Z * obj) (d : mp_map_t obj).

(** The array: the parameters, and what is behind them. *)
Definition frame f n T : list (slot obj) := reverse (tab f n ++ T).

Lemma length_frame f n T : length (frame f n T) = (n + length T)%nat.
Proof. unfold frame. by rewrite length_reverse, length_app, length_tab. Qed.

Lemma rd_frame f n T j : (j < n)%nat -> rd (frame f n T) (Z.of_nat (n + length T) - 1 - Z.of_nat j) = Ret (f j).
Proof.
  intros Hj. unfold frame. rewrite <- (rd_reverse (tab f n ++ T) j (f j)).
  - by rewrite length_app, length_tab.
  - rewrite lookup_app_l by (by rewrite length_tab). by apply lookup_tab.
Qed.

Lemma wr_frame f n T j v : (j < n)%nat -> wr (frame f n T) (Z.of_nat (n + length T) - 1 - Z.of_nat j) v = Ret (frame (set_at f j v) n T).
Proof.
  intros Hj. unfold frame. pose proof (wr_reverse (tab f n ++ T) j v) as H. rewrite length_app, length_tab in H. rewrite H by lia.
  by rewrite insert_app_l, insert_tab by (rewrite ?length_tab; lia).
Qed.

Lemma rd_tail f n T j v : T !! j = Some v -> rd (frame f n T) (Z.of_nat (n + length T) - 1 - Z.of_nat (n + j)) = Ret v.
Proof.
  intros Hj. unfold frame. rewrite <- (rd_reverse (tab f n ++ T) (n + j) v); [by rewrite length_app, length_tab|].
  rewrite lookup_app_r by (rewrite length_tab; lia). rewrite length_tab. by replace (n + j - n)%nat with j by lia.
Qed.

Lemma wr_tail f n T j v : (j < length T)%nat -> wr (frame f n T) (Z.of_nat (n + length T) - 1 - Z.of_nat (n + j)) v = Ret (frame f n (<[j := v]> T)).
Proof.
  intros Hj. unfold frame. pose proof (wr_reverse (tab f n ++ T) (n + j) v) as H. rewrite length_app, length_tab in H. rewrite H by lia.
  rewrite insert_app_r_alt by (rewrite length_tab; lia). rewrite length_tab. by replace (n + j - n)%nat with j by lia.
Qed.

Lemma frame_ext f g n T : (forall j, (j < n)%nat -> f j = g j) -> frame f n T = frame g n T.
Proof. intros H. unfold frame. by rewrite (tab_ext f g). Qed.

(** Positional arguments. *)
Lemma copy_args_ok k i f n T args : (i + k <= n)%nat -> (i + k <= length args)%nat ->
  copy_args k (frame f n T) (Z.of_nat (n + length T)) (Z.of_nat i) args =
  Ret (frame (fun j => if decide (i <= j < i + k)%nat then match args !! j with Some o => S_obj o | None => S_null end else f j) n T).
Proof.
  revert i f. induction k as [|k IH]; intros i f Hn Ha; cbn [copy_args].
  - f_equal. apply frame_ext. intros j _. by rewrite decide_False by lia.
  - destruct (lookup_lt_is_Some_2 args i) as [o Ho]; [lia|]. rewrite (rd_Ret _ _ o) by (rewrite ?Nat2Z.id; first [lia|done]). cbn [obind].
    rewrite wr_frame by lia. cbn [obind]. replace (Z.of_nat i + 1) with (Z.of_nat (S i)) by lia. rewrite IH by lia.
    f_equal. apply frame_ext. intros j _. unfold set_at. destruct (decide (j = i)) as [->|Hne].
    + rewrite decide_False, decide_True by lia. by rewrite Ho.
    + destruct (decide (S i <= j < S i + k)%nat); [by rewrite decide_True by lia|by rewrite decide_False by lia].
Qed.

(** Defaults when there are no keywords. *)
Lemma default_loop_ok k i first f n T extra : (i + k <= n)%nat -> (first <= i)%nat -> (i + k - first <= length extra)%nat ->
  default_loop k (frame f n T) (Z.of_nat (n + length T)) (Z.of_nat i) (Z.of_nat first) extra =
  Ret (frame (fun j => if decide (i <= j < i + k)%nat then default S_null (extra !! (j - first)%nat) else f j) n T).
Proof.
  revert i f. induction k as [|k IH]; intros i f Hn Hf Ha; cbn [default_loop].
  - f_equal. apply frame_ext. intros j _. by rewrite decide_False by lia.
  - destruct (lookup_lt_is_Some_2 extra (i - first)) as [o Ho]; [lia|].
    rewrite (rd_Ret _ _ o) by (lia || (rewrite <- Ho; f_equal; lia)). cbn [obind].
    rewrite wr_frame by lia. cbn [obind]. replace (Z.of_nat i + 1) with (Z.of_nat (S i)) by lia. rewrite IH by lia.
    f_equal. apply frame_ext. intros j _. unfold set_at. destruct (decide (j = i)) as [->|Hne].
    + rewrite decide_False, decide_True by lia. by rewrite Ho.
    + destruct (decide (S i <= j < S i + k)%nat); [by rewrite decide_True by lia|by rewrite decide_False by lia].
Qed.

(** The names in the code. *)
Definition name_code (l : list Z) : list Z := l ≫= var_uint.

Lemma find_name_ok l j0 f n T q v rest : (j0 + length l <= n)%nat -> Forall (fun x => 0 <= x < 2 ^ 32) l ->
  find_name qstr (length l) (frame f n T) (Z.of_nat (n + length T)) (Z.of_nat j0) (name_code l ++ rest) (qstr q) v =
  match param_of l q with
  | None => Ret None
  | Some k => if is_null (f (j0 + k)%nat) then Ret (Some (frame (set_at f (j0 + k)%nat (S_obj v)) n T)) else Raise TypeError
  end.
Proof.
  revert j0. induction l as [|x l IH]; intros j0 Hn Hl; [done|]. apply list.Forall_cons in Hl as [Hx Hl].
  cbn [length find_name param_of name_code mbind list_bind]. cbn [length] in Hn. rewrite <- app_assoc, mp_decode_uint_var by done. cbn [obind].
  destruct (Z.eqb_spec x q) as [->|Hne].
  - rewrite bool_decide_true by done. rewrite rd_frame by lia. cbn [obind]. rewrite Nat.add_0_r.
    destruct (is_null (f j0)); [|done]. by rewrite wr_frame by lia.
  - rewrite bool_decide_false by (intros E; by apply Hinj in E). replace (Z.of_nat j0 + 1) with (Z.of_nat (S j0)) by lia.
    change (list_bind _ _ var_uint l) with (name_code l). rewrite IH by (done || lia). destruct (param_of l q) as [k|]; cbn; [|done].
    by replace (j0 + S k)%nat with (S (j0 + k)) by lia.
Qed.

Lemma skip_var v rest : 0 <= v < 2 ^ 32 -> mp_decode_uint_skip (var_uint v ++ rest) = Ret rest.
Proof. intros Hv. rewrite (skip_decode 0). change (decode_uint_loop 0) with mp_decode_uint. by rewrite mp_decode_uint_var. Qed.

Lemma qstr_eq a b : mp_obj_equal (qstr a) (qstr b) = (a =? b).
Proof.
  destruct (Z.eqb_spec a b) as [->|Hne]; [apply equal_refl|]. destruct (mp_obj_equal _ _) eqn:E; [|done].
  apply qstr_equal in E; [|done..]. by apply Hinj in E.
Qed.

(** ** Keyword arguments *)

Definition kw_objs (kws : list (Z * obj)) : list obj := kws ≫= (fun kv => [qstr kv.1; kv.2]).

Lemma kw_objs_lookup done kv rest : let l := kw_objs (done ++ kv :: rest) in let i := Z.of_nat (length done) in
  rd l (2 * i) = Ret (qstr kv.1) /\ rd l (2 * i + 1) = Ret kv.2.
Proof.
  assert (forall x : list (Z * obj), length (kw_objs x) = (2 * length x)%nat) as Hl.
  { induction x as [|? x IH]; [done|]. unfold kw_objs in *. cbn. rewrite IH. lia. }
  cbv zeta. unfold kw_objs. rewrite bind_app. fold (kw_objs done). cbn [mbind list_bind app]. pose proof (Hl done).
  split; apply rd_Ret; try lia; rewrite lookup_app_r by lia.
  - by replace (Z.to_nat (2 * Z.of_nat (length done)) - length (kw_objs done))%nat with 0%nat by lia.
  - by replace (Z.to_nat (2 * Z.of_nat (length done) + 1) - length (kw_objs done))%nat with 1%nat by lia.
Qed.

Lemma param_of_lt l q k : param_of l q = Some k -> (k < length l)%nat.
Proof.
  revert k. induction l as [|x l IH]; intros k; cbn; [done|]. destruct (x =? q); [intros [= <-]; lia|].
  destruct (param_of l q) as [k'|]; cbn; [|done]. intros [= <-]. specialize (IH k' eq_refl). lia.
Qed.

Section Keywords.
Context (p : prelude_sig) (names : list Z) (pos : list obj).
Local Notation N := (length names).
Local Notation given := (given p names pos).
Local Notation keywords_fit := (keywords_fit p names pos).

Lemma named_snoc done (kv : Z * obj) : named names (done ++ [kv]) = named names done ++ option_list (param_of names kv.1).
Proof. unfold named. rewrite omap_app. cbn. by destruct (param_of names kv.1). Qed.

Lemma kw_for_snoc done (kv : Z * obj) j : kw_for names (done ++ [kv]) j = kw_for names done j ++ (if decide (param_of names kv.1 = Some j) then [kv] else []).
Proof. unfold kw_for. rewrite list.filter_app, list.filter_cons, list.filter_nil. by destruct (decide _). Qed.

Lemma kw_for_nil (done : list (Z * obj)) j : kw_for names done j = [] <-> j ∉ named names done.
Proof.
  unfold kw_for, named. induction done as [|kv done IH]; [by split; intros; [apply not_elem_of_nil|]|].
  rewrite list.filter_cons. cbn [omap list_omap]. destruct (decide _) as [E|E].
  - rewrite E. split; [done|]. intros H. destruct H. by left.
  - rewrite IH. destruct (param_of names kv.1) as [k|]; [|done]. rewrite not_elem_of_cons. split; [|by intros []].
    intros H. split; [|done]. by intros ->.
Qed.

Lemma given_null done k : is_null (given done k) = true <-> (length (take (n_pos p) pos) <= k)%nat /\ k ∉ named names done.
Proof.
  unfold ArgsRule.given. rewrite <- kw_for_nil. destruct (take (n_pos p) pos !! k) eqn:E.
  - apply lookup_lt_Some in E. split; [done|]. lia.
  - apply lookup_ge_None in E. destruct (kw_for names done k); cbn; [split; done|]. split; [done|]. by intros [_ ?].
Qed.

Lemma given_snoc done kv j : is_null (given done j) = true \/ param_of names kv.1 <> Some j ->
  given (done ++ [kv]) j = if decide (param_of names kv.1 = Some j) then S_obj kv.2 else given done j.
Proof.
  intros H. unfold ArgsRule.given in *. rewrite kw_for_snoc. destruct (decide _) as [E|E].
  - destruct H as [H|H]; [|done]. destruct (take (n_pos p) pos !! j); [done|]. by destruct (kw_for names done j).
  - by rewrite app_nil_r.
Qed.

Lemma fit_prefix done rest : keywords_fit (done ++ rest) -> keywords_fit done.
Proof.
  intros (H1 & H2 & H3). unfold named in *. rewrite omap_app in *. apply list.NoDup_app in H1 as (H1 & _). apply list.Forall_app in H2 as [H2 _].
  split; [done|]. split; [done|]. destruct H3 as [H3|H3]; [by left|right]. by apply list.Forall_app in H3 as [H3 _].
Qed.

Lemma fit_snoc done kv : keywords_fit done -> keywords_fit (done ++ [kv]) <->
  match param_of names kv.1 with Some k => is_null (given done k) = true | None => flag p MP_SCOPE_FLAG_VARKEYWORDS = true end.
Proof.
  intros (H1 & H2 & H3). unfold ArgsRule.keywords_fit. rewrite named_snoc, list.NoDup_app, list.Forall_app, list.Forall_app, list.Forall_singleton.
  destruct (param_of names kv.1) as [k|]; cbn [option_list option_rect].
  - rewrite given_null, list.Forall_singleton. split.
    + intros ((_ & Hd & _) & (_ & Hk) & _). split; [done|]. intros Hin. apply (Hd k Hin). by left.
    + intros [Hk Hd]. split_and!; try done; [|apply NoDup_singleton|]; [|by destruct H3; [left|right]].
      intros x Hx Hin. by apply list_elem_of_singleton in Hin as ->.
  - split; [by intros (_ & _ & [?|[_ ?]])|]. intros Hf. split_and!; try done; [|constructor|by left].
    intros x _ Hin. by apply not_elem_of_nil in Hin.
Qed.

(** The dictionary of the keywords that name no parameter. *)
Definition collects (done : list (Z * obj)) (d : mp_map_t obj) : Prop :=
  dict_wf d /\ forall q, assoc (table d) (qstr q) = Some <$> collected names done q.

Lemma collected_snoc done kv q : collected names (done ++ [kv]) q =
  if decide (param_of names kv.1 = None /\ kv.1 = q) then Some kv.2 else collected names done q.
Proof.
  unfold collected, others. rewrite list.filter_app, list.filter_cons, list.filter_nil, foldl_app.
  destruct (decide (param_of names kv.1 = None)) as [E|E]; cbn [foldl].
  - destruct (Z.eqb_spec kv.1 q); [by rewrite decide_True|by rewrite decide_False by (by intros [])].
  - by rewrite decide_False by (by intros []).
Qed.

Lemma collects_named done kv d k : param_of names kv.1 = Some k -> collects done d -> collects (done ++ [kv]) d.
Proof. intros E [Hd H]. split; [done|]. intros q. rewrite H, collected_snoc, decide_False; [done|]. rewrite E. by intros []. Qed.

Lemma collects_store done kv d : param_of names kv.1 = None -> collects done d ->
  oom obj (mp_obj_dict_store d (qstr kv.1) kv.2) (collects (done ++ [kv])).
Proof.
  intros E [Hd H]. destruct (Hhash kv.1) as [h Hh]. unfold mp_obj_dict_store. rewrite not_fixed by apply Hd. cbn [obind].
  eapply oom_mono; [|exact (lookup_store_ok d (qstr kv.1) kv.2 h Hd Hh)]. intros d' [Hd' Ha]. split; [done|].
  intros q. rewrite Ha, qstr_eq, collected_snoc, H. destruct (Z.eqb_spec kv.1 q); [by rewrite decide_True|by rewrite decide_False by (by intros [])].
Qed.

Section Loop.
Context (va rest : list (slot obj)) (fname : Z) (code : list Z).
Context (Hfname : 0 <= fname < 2 ^ 32) (Hnames : Forall (fun x => 0 <= x < 2 ^ 32) names).

(** What is behind the parameters: the tuple, the dictionary, the other locals and the stack. *)
Definition tail (d : mp_map_t obj) : list (slot obj) := va ++ (if flag p MP_SCOPE_FLAG_VARKEYWORDS then [S_dict d] else []) ++ rest.

Lemma length_tail d d' : length (tail d) = length (tail d').
Proof. unfold tail. rewrite !length_app. by destruct (flag _ _). Qed.

Lemma store_at done kv d f : flag p MP_SCOPE_FLAG_VARKEYWORDS = true -> param_of names kv.1 = None -> collects done d ->
  oom obj (dict_store_at (frame f N (tail d)) (Z.of_nat (N + length (tail d)) - 1 - Z.of_nat (N + length va)) (qstr kv.1) kv.2)
    (fun st => exists d', st = frame f N (tail d') /\ collects (done ++ [kv]) d').
Proof.
  intros Hf E Hc.
  assert (tail d !! length va = Some (S_dict d)) as Hl by (unfold tail; rewrite Hf, lookup_app_r, Nat.sub_diag by lia; done).
  unfold dict_store_at. rewrite (rd_tail f N (tail d) (length va) (S_dict d) Hl). cbn [obind].
  eapply oom_bind; [by apply (collects_store done kv d)|]. intros d' Hc'.
  rewrite wr_tail by (by apply lookup_lt_Some in Hl). apply oom_Ret. exists d'. split; [|done]. f_equal. unfold tail. rewrite Hf. cbn [app].
  by rewrite insert_app_r_alt, Nat.sub_diag by lia.
Qed.

Lemma keyword_loop_ok todo done d : keywords_fit done -> (flag p MP_SCOPE_FLAG_VARKEYWORDS = true -> collects done d) ->
  let run := keyword_loop qstr (length todo) (frame (given done) N (tail d)) (Z.of_nat (N + length (tail d))) (Z.of_nat (length done))
    (kw_objs (done ++ todo)) (var_uint fname ++ name_code names ++ code) N (sig_flags p)
    (Z.of_nat (N + length (tail d)) - 1 - Z.of_nat (N + length va)) in
  (keywords_fit (done ++ todo) /\ exists d', run = Ret (frame (given (done ++ todo)) N (tail d')) /\
     (flag p MP_SCOPE_FLAG_VARKEYWORDS = true -> collects (done ++ todo) d')) \/
  (~ keywords_fit (done ++ todo) /\ run = Raise TypeError) \/ (run = Raise MemoryError /\ refuses obj).
Proof.
  revert done d. induction todo as [|kv todo IH]; intros done d Hfit Hd run.
  { left. rewrite app_nil_r. split; [done|]. by exists d. }
  subst run. cbn [length keyword_loop]. destruct (kw_objs_lookup done kv todo) as [-> ->]. cbn [obind].
  rewrite skip_var by done. cbn [obind]. pose proof (find_name_ok names 0 (given done) N (tail d) kv.1 kv.2 code) as Hfn.
  change (Z.of_nat 0) with 0 in Hfn. rewrite Hfn by (done || lia). clear Hfn. cbn [plus].
  pose proof (fit_snoc done kv Hfit) as Hsnoc. assert (forall x, done ++ kv :: x = (done ++ [kv]) ++ x) as Happ by (intros; by rewrite <- app_assoc).
  assert (Hi : Z.of_nat (length done) + 1 = Z.of_nat (length (done ++ [kv]))) by (rewrite length_app; cbn; lia).
  assert (Hneg : ~ keywords_fit (done ++ [kv]) -> ~ keywords_fit (done ++ kv :: todo)) by (rewrite (Happ todo); intros H1 H2; by apply H1, (fit_prefix _ todo)).
  destruct (param_of names kv.1) as [k|] eqn:E.
  - destruct (is_null (given done k)) eqn:En.
    + cbn [obind]. rewrite Hi, Happ. pose proof (param_of_lt _ _ _ E).
      rewrite (frame_ext _ (given (done ++ [kv]))).
      * apply IH; [by apply Hsnoc|]. intros Hf. eapply collects_named; [done|by apply Hd].
      * intros j Hj. unfold set_at. destruct (decide (j = k)) as [->|Hne].
        -- by rewrite given_snoc, decide_True by (done || by left).
        -- assert (param_of names kv.1 <> Some j) by congruence. by rewrite given_snoc, decide_False by (done || by right).
    + right. left. split; [|done]. apply Hneg. rewrite Hsnoc. done.
  - cbn [obind]. destruct (Z.land (sig_flags p) MP_SCOPE_FLAG_VARKEYWORDS =? 0) eqn:Ef.
    + right. left. split; [|done]. apply Hneg. rewrite Hsnoc. unfold flag. by rewrite Ef.
    + assert (flag p MP_SCOPE_FLAG_VARKEYWORDS = true) as Hf by (unfold flag; by rewrite Ef).
      destruct (store_at done kv d (given done) Hf E (Hd Hf)) as [[-> ?]|(? & -> & d' & -> & Hd')]; [by right; right|]. cbn [obind].
      rewrite Hi, Happ, (length_tail d d'). rewrite (frame_ext _ (given (done ++ [kv]))).
      * apply IH; [by apply Hsnoc|done].
      * intros j _. rewrite given_snoc by (right; congruence). rewrite decide_False; [done|congruence].
Qed.
End Loop.
End Keywords.

(** ** Defaults *)

Lemma check_positional_ok m f n T : (m <= n)%nat ->
  check_positional m (frame f n T) (Z.of_nat (n + length T) - Z.of_nat m) =
  if forallb (fun j => negb (is_null (f j))) (seq 0 m) then Ret tt else Raise TypeError.
Proof.
  intros Hm. induction m as [|m IH]; [done|]. cbn [check_positional]. rewrite seq_S, forallb_app. cbn [forallb].
  replace (Z.of_nat (n + length T) - Z.of_nat (S m)) with (Z.of_nat (n + length T) - 1 - Z.of_nat m) by lia.
  rewrite rd_frame by lia. cbn [obind Nat.add]. destruct (is_null (f m)); cbn [negb andb].
  - by rewrite andb_false_r.
  - rewrite !andb_true_r. replace (Z.of_nat (n + length T) - 1 - Z.of_nat m + 1) with (Z.of_nat (n + length T) - Z.of_nat m) by lia. apply IH. lia.
Qed.

Section Defaults.
Context (p : prelude_sig) (names : list Z) (defs : list obj) (kwd : option (mp_map_t obj)).
Local Notation N := (length names).
Local Notation default_of := (default_of qstr p names defs kwd).

(** The defaults that the function object keeps. *)
Definition extra_args : list (slot obj) := (S_obj <$> defs) ++ match kwd with Some d => [S_dict d] | None => [] end.

Context (HN : N = n_params p) (Hdef : length defs = n_def p) (Hle : (n_def p <= n_pos p)%nat).
Context (Hkwd : match kwd with Some d => flag p MP_SCOPE_FLAG_DEFKWARGS = true /\ dict_wf d | None => flag p MP_SCOPE_FLAG_DEFKWARGS = false end).

Definition filled f (j : nat) : slot obj := if is_null (f j) then default_of j else f j.

Lemma extra_default j : (n_pos p - n_def p <= j < n_pos p)%nat ->
  exists o, extra_args !! (j - (n_pos p - n_def p))%nat = Some (S_obj o) /\ default_of j = S_obj o.
Proof.
  intros Hj. destruct (lookup_lt_is_Some_2 defs (j - (n_pos p - n_def p))) as [o Ho]; [lia|]. exists o. split.
  - unfold extra_args. rewrite lookup_app_l by (rewrite length_fmap; lia). by rewrite list_lookup_fmap, Ho.
  - unfold ArgsRule.default_of. destruct (Nat.ltb_spec j (n_pos p)); [|lia]. destruct (Nat.ltb_spec j (n_pos p - n_def p)); [lia|]. by rewrite Ho.
Qed.

Lemma no_default j : (j < n_pos p - n_def p)%nat -> default_of j = S_null.
Proof.
  intros Hj. unfold ArgsRule.default_of. destruct (Nat.ltb_spec j (n_pos p)); [|lia]. destruct (Nat.ltb_spec j (n_pos p - n_def p)); [done|lia].
Qed.

Lemma length_extra : (n_def p <= length extra_args)%nat.
Proof. unfold extra_args. rewrite length_app, length_fmap. lia. Qed.

Lemma fill_defaults_ok m i f T : (i + m <= n_def p)%nat ->
  fill_defaults m (frame f N T) (Z.of_nat (N + length T) - Z.of_nat (n_pos p) + Z.of_nat i) (Z.of_nat (n_def p) - 1 - Z.of_nat i) extra_args =
  Ret (frame (fun j => if decide (n_pos p - (i + m) <= j < n_pos p - i)%nat then filled f j else f j) N T).
Proof.
  revert i f. induction m as [|m IH]; intros i f Hi; cbn [fill_defaults].
  - f_equal. apply frame_ext. intros j _. by rewrite decide_False by lia.
  - set (k := (n_pos p - 1 - i)%nat). assert (Hk : (k < N)%nat) by (unfold k, n_params in *; lia).
    replace (Z.of_nat (N + length T) - Z.of_nat (n_pos p) + Z.of_nat i) with (Z.of_nat (N + length T) - 1 - Z.of_nat k) by (unfold k; lia).
    rewrite rd_frame by done. cbn [obind]. destruct (extra_default k) as (o & Ho & Hd); [unfold k; lia|].
    assert ((if is_null (f k) then let! x := rd extra_args (Z.of_nat (n_def p) - 1 - Z.of_nat i) in
        wr (frame f N T) (Z.of_nat (N + length T) - 1 - Z.of_nat k) x else Ret (frame f N T)) = Ret (frame (set_at f k (filled f k)) N T)) as ->.
    { unfold filled. destruct (is_null (f k)).
      - rewrite (rd_Ret _ _ (S_obj o)) by (lia || (rewrite <- Ho; f_equal; unfold k; lia)). cbn [obind]. rewrite wr_frame by done. by rewrite Hd.
      - f_equal. apply frame_ext. intros j _. unfold set_at. by destruct (decide (j = k)) as [->|]. }
    cbn [obind]. replace (Z.of_nat (N + length T) - 1 - Z.of_nat k + 1) with (Z.of_nat (N + length T) - Z.of_nat (n_pos p) + Z.of_nat (S i)) by (unfold k; lia).
    replace (Z.of_nat (n_def p) - 1 - Z.of_nat i - 1) with (Z.of_nat (n_def p) - 1 - Z.of_nat (S i)) by lia.
    rewrite IH by lia. f_equal. apply frame_ext. intros j _. unfold filled, set_at. destruct (decide (j = k)) as [->|Hne].
    + rewrite decide_False by (unfold k; lia). rewrite decide_True by (unfold k; lia). done.
    + destruct (decide (n_pos p - (S i + m) <= j < n_pos p - S i)%nat); [by rewrite decide_True by lia|]. rewrite decide_False; [done|unfold k in Hne; lia].
Qed.

Lemma skip_names_ok l1 l2 code : Forall (fun x => 0 <= x < 2 ^ 32) l1 ->
  skip_names (length l1) (name_code (l1 ++ l2) ++ code) = Ret (name_code l2 ++ code).
Proof.
  intros H. induction H as [|x l1 Hx _ IH]; [done|]. unfold name_code in *. cbn [app mbind list_bind length skip_names].
  rewrite <- app_assoc, skip_var by done. exact IH.
Qed.

Lemma default_kw_ok j q : (n_pos p <= j)%nat -> names !! j = Some q ->
  default_kw qstr (sig_flags p) (Z.of_nat (n_def p)) extra_args q = Ret (if is_null (default_of j) then None else Some (default_of j)).
Proof.
  intros Hj Hq. unfold default_kw, ArgsRule.default_of. destruct (Nat.ltb_spec j (n_pos p)); [lia|]. rewrite Hq. unfold flag in Hkwd.
  destruct kwd as [d|] eqn:Ekwd.
  - destruct Hkwd as [Hf Hd]. apply negb_true_iff in Hf. rewrite Hf.
    rewrite (rd_Ret _ _ (S_dict d)).
    2: lia.
    2: { unfold extra_args. rewrite Ekwd, Nat2Z.id, <- Hdef, <- (length_fmap S_obj defs). by apply list_lookup_middle. }
    cbn [obind]. destruct (Hhash q) as [h Hh].
    destruct (find_spec d (qstr q) MP_MAP_LOOKUP h (dw_map _ Hd) Hh ltac:(done)) as (d' & sl & -> & _ & _ & Hres). cbn [obind].
    destruct (assoc (table d) (qstr q)) as [v|] eqn:Ea.
    + destruct Hres as (pp & k & -> & Hp & _ & Hm). cbn in Hm. subst d'. destruct (dw_values _ Hd _ _ _ Hp) as [o ->].
      by rewrite (get_value_ok _ _ _ _ Hp).
    + cbn in Hres. by destruct Hres as [_ ->].
  - apply negb_false_iff in Hkwd. by rewrite Hkwd.
Qed.

Lemma kwonly_loop_ok l pre i f T code : names = pre ++ l -> length pre = (n_pos p + i)%nat -> Forall (fun x => 0 <= x < 2 ^ 32) l ->
  kwonly_loop qstr (length l) (frame f N T) (Z.of_nat (N + length T)) (Z.of_nat (n_pos p)) (Z.of_nat i) (name_code l ++ code)
    (sig_flags p) (Z.of_nat (n_def p)) extra_args =
  if forallb (fun j => negb (is_null (filled f j))) (seq (n_pos p + i) (length l))
  then Ret (frame (fun j => if decide (n_pos p + i <= j)%nat then filled f j else f j) N T) else Raise TypeError.
Proof.
  revert pre i f. induction l as [|q l IH]; intros pre i f Hn Hpre Hl; cbn [kwonly_loop length seq forallb].
  - f_equal. apply frame_ext. intros j Hj. rewrite decide_False; [done|]. rewrite Hn, app_nil_r in Hj. lia.
  - apply list.Forall_cons in Hl as [Hq Hl]. set (j := (n_pos p + i)%nat).
    assert (Hj : (j < N)%nat) by (unfold j; rewrite Hn, length_app; cbn; lia).
    assert (Hname : names !! j = Some q) by (rewrite Hn; apply list_lookup_middle; unfold j; lia).
    unfold name_code. cbn [mbind list_bind]. rewrite <- app_assoc, mp_decode_uint_var by done. cbn [obind].
    replace (Z.of_nat (N + length T) - 1 - Z.of_nat (n_pos p) - Z.of_nat i) with (Z.of_nat (N + length T) - 1 - Z.of_nat j) by (unfold j; lia).
    rewrite rd_frame by done. cbn [obind].
    assert ((if is_null (f j) then let! elem := default_kw qstr (sig_flags p) (Z.of_nat (n_def p)) extra_args q in
        match elem with Some x => wr (frame f N T) (Z.of_nat (N + length T) - 1 - Z.of_nat j) x | None => Raise TypeError end
        else Ret (frame f N T)) = if is_null (filled f j) then Raise TypeError else Ret (frame (set_at f j (filled f j)) N T)) as ->.
    { rewrite (default_kw_ok j q) by (done || (unfold j; lia)). unfold filled. destruct (is_null (f j)) eqn:En; cbn [obind].
      - destruct (is_null (default_of j)); [done|]. by rewrite wr_frame.
      - rewrite En. f_equal. apply frame_ext. intros j' _. unfold set_at. by destruct (decide (j' = j)) as [->|]. }
    destruct (is_null (filled f j)) eqn:En; [done|]. cbn [obind negb andb].
    replace (Z.of_nat i + 1) with (Z.of_nat (S i)) by lia. fold (name_code l). change (list_bind _ _ var_uint l) with (name_code l).
    rewrite (IH (pre ++ [q]) (S i)) by (done || (rewrite <- app_assoc; done) || (rewrite length_app; cbn; lia)).
    assert (Hlater : forall k, (S j <= k)%nat -> filled (set_at f j (filled f j)) k = filled f k).
    { intros k Hk. unfold filled, set_at. by rewrite decide_False by lia. }
    replace (n_pos p + S i)%nat with (S j) by (unfold j; lia).
    rewrite (forallb_seq_ext _ (fun j => negb (is_null (filled f j)))).
    + destruct (forallb _ _); [|done]. f_equal. apply frame_ext. intros k _. destruct (decide (S j <= k)%nat) as [Hk|Hk].
      * rewrite Hlater by done. by rewrite decide_True by lia.
      * unfold set_at. destruct (decide (k = j)) as [->|Hne]; [by rewrite decide_True by lia|]. by rewrite decide_False by lia.
    + intros k Hk. by rewrite Hlater by lia.
Qed.
End Defaults.

(** ** Cells *)

Definition make_cell (l : list (slot obj)) (c : Z) : list (slot obj) :=
  match l !! Z.to_nat c with Some v => <[Z.to_nat c := S_cell v]> l | None => l end.

Lemma length_make_cell l c : length (make_cell l c) = length l.
Proof. unfold make_cell. destruct (l !! Z.to_nat c); [apply length_insert|done]. Qed.

Lemma cell_loop_ok cells l code : Forall (fun c => 0 <= c < Z.of_nat (length l)) cells ->
  oom obj (cell_loop (length cells) (reverse l) (Z.of_nat (length l)) (cells ++ code))
    (eq (reverse (foldl make_cell l cells), code)).
Proof.
  revert l. induction cells as [|c cells IH]; intros l Hc; [by apply oom_Ret|]. apply list.Forall_cons in Hc as [Hc Hcs].
  cbn [length cell_loop app foldl]. destruct (lookup_lt_is_Some_2 l (Z.to_nat c)) as [v Hv]; [lia|].
  replace (Z.of_nat (length l) - 1 - c) with (Z.of_nat (length l) - 1 - Z.of_nat (Z.to_nat c)) by lia.
  rewrite (rd_reverse l _ v Hv). cbn [obind]. unfold mp_obj_new_cell.
  destruct (m_new_obj_oom (H := obj) 8) as [[-> ?]|(? & -> & _)]; [by apply oom_Raise|]. cbn [obind].
  rewrite wr_reverse by lia. cbn [obind].
  assert (make_cell l c = <[Z.to_nat c := S_cell v]> l) as E by (unfold make_cell; by rewrite Hv). rewrite <- E.
  rewrite <- (length_make_cell l c). apply IH. by rewrite length_make_cell.
Qed.
End Loops.
