(* ===== verification/ArgsSpec.v ===== *)
(** * Binding of arguments: theorems

    [mp_setup_code_state_spec]: a call is bound as [binding] says, or it is a [TypeError] exactly when the rule gives no
    value to some parameter or leaves an argument over; either can turn into a [MemoryError] when the heap refuses the
    tuple, the dictionary, an entry of it or a cell. *)

From S2P Require Import Prelude Malloc MpObj HashKeys Map MapSpec ObjDict SmallInt Bytecode BytecodeNum BytecodePrelude BytecodeSpec Scope Args ArgsRule.
Local Open Scope Z_scope.

Section Bind.
Context {obj : Type} `{!EqDecision obj, !MpObjOps obj, !MpObjLaws obj, !Allocator obj, !SmallHeap obj} (qstr : Z -> obj).
Context (Hqstr : forall q, mp_obj_is_qstr (qstr q) = true) (Hinj : Inj (=) (=) qstr).
Context (Hhash : forall q, exists h, mp_hash (qstr q) = Ret h).
Context (p : prelude_sig) (names : list Z) (defs : list obj) (kwd : option (mp_map_t obj)).
Context (pos : list obj) (kws : list (Z * obj)).

Local Notation N := (length names).
Local Notation args := (pos ++ kw_objs qstr kws).
Local Notation extra := (extra_args defs kwd).
Local Notation given := (given p names pos).
Local Notation binding := (binding qstr p names defs kwd pos kws).
Local Notation filled := (filled qstr p names defs kwd).
Local Notation varargs := (flag p MP_SCOPE_FLAG_VARARGS).
Local Notation varkw := (flag p MP_SCOPE_FLAG_VARKEYWORDS).

(** A function object, and the room in its array of locals. *)
Record bindable (cells : list Z) (room : nat) : Prop := {
  b_sig : sig_ok p;
  b_names : N = n_params p;
  b_range : Forall (fun x => 0 <= x < 2 ^ 32) names;
  b_def : length defs = n_def p;
  b_le : (n_def p <= n_pos p)%nat;
  b_kwd : match kwd with Some d => flag p MP_SCOPE_FLAG_DEFKWARGS = true /\ dict_wf d | None => flag p MP_SCOPE_FLAG_DEFKWARGS = false end;
  b_cells : Forall (fun c => 0 <= c < Z.of_nat (N + room)) cells /\ (length cells < 64)%nat;
  b_room : (Nat.b2n varargs + Nat.b2n varkw <= room)%nat
}.

Context (cells : list Z) (room : nat) (Hb : bindable cells room) (Hkws : Z.of_nat (length kws) < 2 ^ 28).

(** The tuple of the positional arguments that are left over. *)
Definition rest_tuple : list (slot obj) := if varargs then [S_tuple (drop (n_pos p) pos)] else [].

(** Whether the keywords are looked at. *)
Definition keyword_mode : bool := negb (length kws =? 0)%nat || flag p MP_SCOPE_FLAG_DEFKWARGS.

Lemma sig_nat : n_pos_args p = Z.of_nat (n_pos p) /\ n_kwonly_args p = Z.of_nat (n_kwonly p) /\ n_def_pos_args p = Z.of_nat (n_def p) /\
  n_pos_args p < 2 ^ 16.
Proof. pose proof (b_sig _ _ Hb) as H. unfold sig_ok in H. unfold n_pos, n_kwonly, n_def. lia. Qed.

Lemma initial_frame : replicate (N + room) S_null = frame (fun _ => S_null) N (replicate room (S_null (obj := obj))).
Proof. unfold frame. by rewrite reverse_app, reverse_replicate, tab_const, reverse_replicate, Nat.add_comm, replicate_add. Qed.

Lemma args_take : take (length pos) args = pos.
Proof. apply take_app_length. Qed.

Lemma tuple_ok : (n_pos p < length pos)%nat ->
  oom obj (mp_obj_new_tuple (Z.of_nat (length pos) - Z.of_nat (n_pos p)) (drop (n_pos p) args)) (eq (S_tuple (drop (n_pos p) pos))).
Proof.
  intros Hp. unfold mp_obj_new_tuple. rewrite (proj2 (Z.eqb_neq _ 0)) by lia. eapply oom_bind; [apply m_new_obj_var_oom|]. intros _ _.
  rewrite length_drop, length_app. rewrite (proj2 (Z.ltb_ge _ _)) by lia. apply oom_Ret. f_equal.
  rewrite drop_app_le by lia. replace (Z.to_nat _) with (length (drop (n_pos p) pos)) by (rewrite length_drop; lia). by rewrite take_app_length.
Qed.

(** The array behind the parameters when the positional arguments are bound. *)
Definition rest_room : list (slot obj) := replicate (room - Nat.b2n varargs) S_null.

Lemma wr_rest v : varargs = true ->
  wr (replicate (N + room) S_null) (Z.of_nat (N + room) - 1 - Z.of_nat N) v = Ret (frame (fun _ => S_null) N (v :: rest_room)).
Proof.
  intros Hv. pose proof (b_room _ _ Hb) as Hr. unfold rest_room. rewrite Hv in *. cbn [Nat.b2n] in *. rewrite initial_frame.
  pose proof (wr_tail (fun _ => S_null) N (replicate room S_null) 0 v) as H. rewrite length_replicate, Nat.add_0_r in H. rewrite H by lia.
  destruct room as [|r]; [cbn in *; lia|]. cbn [replicate list_insert]. by replace (S r - 1)%nat with r by lia.
Qed.

Lemma keyword_mode_test : (Z.of_nat (length kws) =? 0) && (Z.land (sig_flags p) MP_SCOPE_FLAG_DEFKWARGS =? 0) = negb keyword_mode.
Proof.
  unfold keyword_mode, flag. destruct kws; cbn; [|done]. by destruct (Z.land (sig_flags p) MP_SCOPE_FLAG_DEFKWARGS =? 0).
Qed.

(** The tail and the frame after the positional arguments. *)
Lemma copy_given (g : nat -> slot obj) n T : n = length (take (n_pos p) pos) ->
  copy_args n (frame g N T) (Z.of_nat (N + length T)) 0 args =
  Ret (frame (fun j => match take (n_pos p) pos !! j with Some o => S_obj o | None => g j end) N T).
Proof.
  intros ->. pose proof (b_names _ _ Hb) as HN. unfold n_params in HN.
  assert (Hle : (length (take (n_pos p) pos) <= n_pos p /\ length (take (n_pos p) pos) <= length pos)%nat) by (rewrite length_take; lia).
  change 0 with (Z.of_nat 0). rewrite copy_args_ok by (rewrite ?length_app; lia). f_equal. apply frame_ext. intros j _.
  destruct (decide (0 <= j < 0 + length (take (n_pos p) pos))%nat) as [Hj|Hj].
  - rewrite lookup_take_lt by lia. rewrite lookup_app_l by lia. destruct (lookup_lt_is_Some_2 pos j) as [o ->]; [lia|done].
  - by rewrite (lookup_ge_None_2 (take _ _)) by lia.
Qed.

Lemma length_rest : length (rest_tuple ++ rest_room) = room.
Proof.
  pose proof (b_room _ _ Hb) as Hr. unfold rest_tuple, rest_room. rewrite length_app, length_replicate. destruct varargs; cbn in *; lia.
Qed.

(** A parameter without an argument, when there are no keywords, has its default. *)
Lemma filled_positional j : keyword_mode = false -> (j < N)%nat ->
  filled (given []) j = match take (n_pos p) pos !! j with
    | Some o => S_obj o
    | None => if decide (n_pos p - n_def p <= j < n_pos p)%nat then default S_null (extra !! (j - (n_pos p - n_def p))%nat) else S_null
    end.
Proof.
  intros Hk Hj. unfold keyword_mode in Hk. apply orb_false_iff in Hk as [_ Hk].
  unfold ArgsRule.filled, ArgsRule.given. destruct (take (n_pos p) pos !! j); [done|]. cbn [kw_for filter list_filter is_null].
  destruct (decide _) as [Hd|Hd].
  - destruct (extra_default qstr p names defs kwd (b_names _ _ Hb) (b_def _ _ Hb) (b_le _ _ Hb) j Hd) as (o & -> & ->). done.
  - pose proof (b_kwd _ _ Hb) as Hkw. destruct (decide (j < n_pos p)%nat); [rewrite no_default by (apply Hb || lia); done|].
    unfold ArgsRule.default_of. destruct (Nat.ltb_spec j (n_pos p)); [lia|]. destruct kwd; [|done]. destruct Hkw. congruence.
Qed.

Lemma copy_positional (g : nat -> slot obj) : (forall j, (j < N)%nat -> match take (n_pos p) pos !! j with Some o => S_obj o | None => g j end =
    (if keyword_mode then given [] else filled (given [])) j) ->
  copy_args (length (take (n_pos p) pos)) (frame g N (rest_tuple ++ rest_room)) (Z.of_nat (N + room)) 0 args =
  Ret (frame (if keyword_mode then given [] else filled (given [])) N (rest_tuple ++ rest_room)).
Proof.
  intros H. rewrite <- length_rest. rewrite copy_given by done. f_equal. by apply frame_ext.
Qed.

Lemma given_nil j : given [] j = match take (n_pos p) pos !! j with Some o => S_obj o | None => S_null end.
Proof. done. Qed.

Lemma setup_positional_ok : let r := setup_positional (replicate (N + room) S_null) (Z.of_nat (N + room)) p extra (Z.of_nat (length pos))
    (Z.of_nat (length kws)) args in
  if decide (((length pos <= n_pos p)%nat \/ varargs = true) /\ (keyword_mode = true \/ (n_pos p - n_def p <= length pos)%nat))
  then oom obj r (eq (frame (if keyword_mode then given [] else filled (given [])) N (rest_tuple ++ rest_room),
                      Z.of_nat (length (take (n_pos p) pos)), Z.of_nat (N + room) - 1 - Z.of_nat (N + length rest_tuple)))
  else r = Raise TypeError.
Proof.
  pose proof (b_names _ _ Hb) as HN. unfold n_params in HN. pose proof (b_le _ _ Hb) as Hle.
  cbv zeta. unfold setup_positional. destruct sig_nat as (-> & -> & -> & Hsm). rewrite keyword_mode_test.
  replace (Z.of_nat (N + room) - 1 - Z.of_nat (n_pos p) - Z.of_nat (n_kwonly p)) with (Z.of_nat (N + room) - 1 - Z.of_nat N) by lia.
  assert (Hv : (Z.land (sig_flags p) MP_SCOPE_FLAG_VARARGS =? 0) = negb varargs) by (unfold flag; by rewrite negb_involutive).
  rewrite Hv. destruct (Z.ltb_spec (Z.of_nat (n_pos p)) (Z.of_nat (length pos))) as [Hmany|Hmany].
  1: assert (Hmany' : (n_pos p < length pos)%nat) by lia.
  - destruct varargs eqn:Ev; cbn [negb]; [|rewrite decide_False by (intros [[?|?] _]; [lia|done]); done].
    rewrite decide_True by (split; [by right|right; lia]). rewrite Nat2Z.id.
    destruct (tuple_ok Hmany') as [[-> ?]|(? & -> & <-)]; [by apply oom_Raise|]. cbn [obind]. rewrite wr_rest by done. cbn [obind].
    assert (Hl : length (take (n_pos p) pos) = n_pos p) by (rewrite length_take; lia). rewrite Nat2Z.id. rewrite <- Hl at 1.
    assert (rest_tuple = [S_tuple (drop (n_pos p) pos)]) as Et by (unfold rest_tuple; by rewrite Ev).
    change (S_tuple (drop (n_pos p) pos) :: rest_room) with ([S_tuple (drop (n_pos p) pos)] ++ rest_room). rewrite <- Et.
    rewrite copy_positional.
    + cbn [obind]. rewrite Hl, Et. cbn [length]. apply oom_Ret. f_equal. lia.
    + intros j Hj. destruct keyword_mode eqn:Ek; [done|]. rewrite filled_positional by done.
      destruct (take (n_pos p) pos !! j) eqn:Ej; [done|]. apply lookup_ge_None in Ej. by rewrite decide_False by lia.
  - assert (Hl : take (n_pos p) pos = pos) by (apply take_ge; lia). rewrite Hl.
    assert ((if negb varargs then Ret (replicate (N + room) S_null, Z.of_nat (N + room) - 1 - Z.of_nat N)
      else let! st := wr (replicate (N + room) S_null) (Z.of_nat (N + room) - 1 - Z.of_nat N) (S_tuple []) in
           Ret (st, Z.of_nat (N + room) - 1 - Z.of_nat N - 1)) =
      Ret (frame (fun _ => S_null) N (rest_tuple ++ rest_room), Z.of_nat (N + room) - 1 - Z.of_nat (N + length rest_tuple))) as ->.
    { unfold rest_tuple. destruct varargs eqn:Ev; cbn [negb].
      - rewrite wr_rest by done. cbn [obind app length]. rewrite drop_ge by lia. f_equal. f_equal. lia.
      - rewrite initial_frame. cbn [app length]. unfold rest_room. rewrite Ev. cbn [Nat.b2n]. rewrite Nat.sub_0_r, Nat.add_0_r. done. }
    cbn [obind]. rewrite wrap_small by lia.
    destruct keyword_mode eqn:Ek; cbn [negb].
    + rewrite decide_True by (split; [left; lia|by left]). cbn [obind]. rewrite Nat2Z.id.
      pose proof (copy_positional (fun _ => S_null)) as Hc. rewrite Ek, Hl in Hc. rewrite Hc; [by apply oom_Ret|]. intros j _. by rewrite given_nil, Hl.
    + destruct (Z.leb_spec (Z.of_nat (n_pos p) - Z.of_nat (n_def p)) (Z.of_nat (length pos))) as [Hen|Hen];
        [|rewrite decide_False by (intros [_ [?|?]]; [done|lia]); done].
      rewrite decide_True by (split; [left; lia|right; lia]).
      replace (Z.of_nat (n_pos p) - Z.of_nat (n_def p)) with (Z.of_nat (n_pos p - n_def p)) by lia.
      replace (Z.to_nat (Z.of_nat (n_pos p) - Z.of_nat (length pos))) with (n_pos p - length pos)%nat by lia.
      pose proof (length_extra p names defs kwd (b_names _ _ Hb) (b_def _ _ Hb) (b_le _ _ Hb)).
      rewrite <- length_rest at 1. rewrite default_loop_ok by (rewrite ?length_rest; lia). cbn [obind]. rewrite Nat2Z.id.
      match goal with |- context [copy_args _ (frame ?g _ _)] => pose proof (copy_positional g) as Hc end. rewrite Ek, Hl in Hc. rewrite Hc; [by apply oom_Ret|].
      intros j Hj. rewrite filled_positional by done. rewrite Hl. destruct (pos !! j) eqn:Ej; [done|]. apply lookup_ge_None in Ej.
      destruct (decide (n_pos p - n_def p <= j < n_pos p)%nat); [by rewrite decide_True by lia|by rewrite decide_False by lia].
Qed.

(** ** Keywords *)

Lemma empty_collects d : empty_map d -> collects qstr names [] d.
Proof.
  intros [Hwf Ha]. split; [split; [exact Hwf|]|intros q; apply Ha].
  intros i k v Hi. exfalso. assert (assoc (table d) k = Some v) as E.
  { eapply assoc_Some; [apply Hwf|exact Hi|apply equal_refl]. }
  by rewrite Ha in E.
Qed.

Lemma new_dict_collects n : Z.of_nat n < 2 ^ 28 -> oom obj (mp_obj_new_dict n) (collects qstr names []).
Proof.
  intros Hn. unfold mp_obj_new_dict. eapply oom_bind; [apply m_new_obj_oom|]. intros _ _.
  eapply oom_mono; [apply empty_collects|]. by apply mp_map_init_ok.
Qed.

(** The array behind the parameters at the end: the tuple, the dictionary and the rest. *)
Definition after_params (d : mp_map_t obj) : list (slot obj) :=
  tail p rest_tuple (replicate (room - Nat.b2n varargs - Nat.b2n varkw) S_null) d.

Lemma length_after d : length (after_params d) = room.
Proof.
  pose proof (b_room _ _ Hb) as Hr. unfold after_params, tail, rest_tuple. rewrite !length_app, length_replicate.
  destruct varargs, varkw; cbn in *; lia.
Qed.

Lemma after_no_dict d : varkw = false -> rest_tuple ++ rest_room = after_params d.
Proof. intros E. unfold after_params, tail, rest_room. rewrite E. cbn [app Nat.b2n]. by rewrite Nat.sub_0_r. Qed.

Lemma wr_dict f d : varkw = true ->
  wr (frame f N (rest_tuple ++ rest_room)) (Z.of_nat (N + room) - 1 - Z.of_nat (N + length rest_tuple)) (S_dict d) = Ret (frame f N (after_params d)).
Proof.
  intros E. pose proof (b_room _ _ Hb) as Hr. rewrite E in Hr. rewrite <- length_rest at 1. rewrite wr_tail.
  - f_equal. f_equal. rewrite insert_app_r_alt, Nat.sub_diag by lia. unfold after_params, tail, rest_room. rewrite E. cbn [app Nat.b2n] in *.
    destruct (room - Nat.b2n varargs)%nat as [|r] eqn:Er; [lia|]. cbn. by rewrite Nat.sub_0_r.
  - rewrite length_app. unfold rest_room. rewrite length_replicate. cbn [Nat.b2n] in Hr. lia.
Qed.

(** A new dictionary behind the tuple, if the function has one. *)
Lemma new_dict_ok f n : Z.of_nat n < 2 ^ 28 ->
  oom obj (if negb varkw then Ret (frame f N (rest_tuple ++ rest_room))
           else let! dict := mp_obj_new_dict n in
             wr (frame f N (rest_tuple ++ rest_room)) (Z.of_nat (N + room) - 1 - Z.of_nat (N + length rest_tuple)) (S_dict dict))
    (fun st => exists d, st = frame f N (after_params d) /\ (varkw = true -> collects qstr names [] d)).
Proof.
  intros Hn. destruct varkw eqn:Ev; cbn [negb].
  - eapply oom_bind; [by apply new_dict_collects|]. intros d Hd. rewrite wr_dict by done. apply oom_Ret. eauto.
  - apply oom_Ret. exists (mk_map true false false 0 0 []). split; [|done]. by rewrite <- after_no_dict.
Qed.

(** The keywords fit, and every parameter has a value. *)
Definition bound : Prop := keywords_fit p names pos kws /\ forall j, (j < N)%nat -> is_null (binding j) = false.

Lemma binding_middle j : (n_pos p - n_def p <= j < n_pos p)%nat -> is_null (binding j) = false.
Proof.
  intros Hj. unfold ArgsRule.binding. destruct (is_null (given kws j)) eqn:E; [|done].
  by destruct (extra_default qstr p names defs kwd (b_names _ _ Hb) (b_def _ _ Hb) (b_le _ _ Hb) j Hj) as (o & _ & ->).
Qed.

Lemma binding_first j : (j < n_pos p - n_def p)%nat -> is_null (binding j) = is_null (given kws j).
Proof.
  intros Hj. unfold ArgsRule.binding. destruct (is_null (given kws j)) eqn:E; [|done]. by rewrite no_default by (apply Hb || lia).
Qed.

(** The defaults, and the checks that nothing is missing. *)
Lemma defaults_ok T fname code : 0 <= fname < 2 ^ 32 -> let F := frame (given kws) N T in let n_state := Z.of_nat (N + length T) in
  let r := let! st := fill_defaults (n_def p) F (n_state - Z.of_nat (n_pos p)) (Z.of_nat (n_def p) - 1) extra in
    let! _ := check_positional (n_pos p - n_def p) st (n_state - Z.of_nat (n_pos p) + Z.of_nat (n_def p)) in
    let! arg_names := mp_decode_uint_skip (var_uint fname ++ name_code names ++ code) in
    let! arg_names := skip_names (n_pos p) arg_names in
    kwonly_loop qstr (n_kwonly p) st n_state (Z.of_nat (n_pos p)) 0 arg_names (sig_flags p) (Z.of_nat (n_def p)) extra in
  (r = Ret (frame binding N T) /\ forall j, (j < N)%nat -> is_null (binding j) = false) \/
  (r = Raise TypeError /\ exists j, (j < N)%nat /\ is_null (binding j) = true).
Proof.
  intros Hfn. pose proof (b_names _ _ Hb) as HN. unfold n_params in HN. pose proof (b_le _ _ Hb) as Hle. cbv zeta.
  pose proof (fill_defaults_ok qstr p names defs kwd (b_names _ _ Hb) (b_def _ _ Hb) Hle (n_def p) 0 (given kws) T ltac:(lia)) as Hfill.
  change (Z.of_nat 0) with 0 in Hfill. rewrite Z.add_0_r, Z.sub_0_r in Hfill. rewrite Hfill. clear Hfill. cbn [obind].
  set (f1 := fun j => if decide _ then _ else _).
  replace (Z.of_nat (N + length T) - Z.of_nat (n_pos p) + Z.of_nat (n_def p)) with (Z.of_nat (N + length T) - Z.of_nat (n_pos p - n_def p)) by lia.
  rewrite check_positional_ok by lia.
  assert (Hf1 : forall j, (j < n_pos p - n_def p)%nat -> f1 j = given kws j) by (intros j Hj; unfold f1; by rewrite decide_False by lia).
  assert (Hf2 : forall j, (n_pos p - n_def p <= j)%nat -> filled f1 j = binding j).
  { intros j Hj. unfold f1, ArgsRule.filled, ArgsRule.binding. destruct (decide _); [|done]. destruct (is_null (given kws j)) eqn:E; [|by rewrite E].
    by destruct (is_null (default_of qstr p names defs kwd j)). }
  destruct (forallb _ (seq 0 (n_pos p - n_def p))) eqn:E1.
  2: { right. split; [done|]. apply not_true_iff_false in E1. rewrite forallb_forall in E1.
       destruct (decide (Forall (fun j => is_null (f1 j) = false) (seq 0 (n_pos p - n_def p)))) as [Hall|Hex].
       - destruct E1. intros j Hj. rewrite list.Forall_forall in Hall. rewrite Hall; [done|]. by apply list_elem_of_In.
       - apply not_Forall_Exists in Hex; [|apply _]. apply Exists_exists in Hex as (j & Hj & Hn). apply in_seq in Hj.
         exists j. split; [lia|]. rewrite binding_first, <- Hf1 by lia. by apply not_false_iff_true. }
  cbn [obind]. rewrite skip_var by done. cbn [obind].
  rewrite forallb_forall in E1. pose proof (b_range _ _ Hb) as Hrange. rewrite <- (take_drop (n_pos p) names) in Hrange. apply list.Forall_app in Hrange as [Hr1 Hr2].
  assert (Hl1 : length (take (n_pos p) names) = n_pos p) by (rewrite length_take; lia).
  assert (Hl2 : length (drop (n_pos p) names) = n_kwonly p) by (rewrite length_drop; lia).
  pose proof (skip_names_ok (take (n_pos p) names) (drop (n_pos p) names) code Hr1) as Hsk. rewrite take_drop, Hl1 in Hsk. rewrite Hsk. cbn [obind].
  pose proof (kwonly_loop_ok qstr Hhash p names defs kwd (b_names _ _ Hb) (b_def _ _ Hb) Hle (b_kwd _ _ Hb) (drop (n_pos p) names) (take (n_pos p) names) 0 f1 T code) as Hkw.
  change (Z.of_nat 0) with 0 in Hkw. rewrite Hl2, Nat.add_0_r in Hkw. rewrite Hkw by (done || lia || by rewrite take_drop). clear Hkw.
  destruct (forallb _ (seq (n_pos p) (n_kwonly p))) eqn:E2.
  - left. rewrite forallb_forall in E2. assert (Hall : forall j, (j < N)%nat -> is_null (binding j) = false).
    { intros j Hj. destruct (decide (j < n_pos p - n_def p)%nat) as [H1|H1].
      - rewrite binding_first, <- Hf1 by lia. apply negb_true_iff, E1, list_elem_of_In, elem_of_seq. lia.
      - destruct (decide (j < n_pos p)%nat); [apply binding_middle; lia|]. rewrite <- Hf2 by lia. apply negb_true_iff, E2, list_elem_of_In, elem_of_seq. lia. }
    split; [|done]. f_equal. apply frame_ext. intros j Hj. destruct (decide (n_pos p <= j)%nat) as [H1|H1]; [by apply Hf2; lia|].
    destruct (decide (j < n_pos p - n_def p)%nat) as [H2|H2].
    + rewrite Hf1 by lia. specialize (Hall j Hj). rewrite binding_first in Hall by lia. unfold ArgsRule.binding. by rewrite Hall.
    + unfold f1. rewrite decide_True by lia. done.
  - right. split; [done|]. apply not_true_iff_false in E2. rewrite forallb_forall in E2.
    destruct (decide (Forall (fun j => is_null (filled f1 j) = false) (seq (n_pos p) (n_kwonly p)))) as [Hall|Hex].
    + destruct E2. intros j Hj. rewrite list.Forall_forall in Hall. rewrite Hall; [done|]. by apply list_elem_of_In.
    + apply not_Forall_Exists in Hex; [|apply _]. apply Exists_exists in Hex as (j & Hj & Hn). apply in_seq in Hj.
      exists j. split; [lia|]. rewrite <- Hf2 by lia. by apply not_false_iff_true.
Qed.

(** Without keywords every keyword-only parameter is missing. *)
Lemma no_keywords : keyword_mode = false -> kws = [] /\ flag p MP_SCOPE_FLAG_DEFKWARGS = false /\ kwd = None.
Proof.
  intros Hk. unfold keyword_mode in Hk. apply orb_false_iff in Hk as [H1 H2]. pose proof (b_kwd _ _ Hb) as H.
  split_and!; [by destruct kws|done|]. destruct kwd as [d|]; [|done]. destruct H; congruence.
Qed.

Lemma kwonly_null j : keyword_mode = false -> (n_pos p <= j)%nat -> is_null (binding j) = true.
Proof.
  intros Hk Hj. destruct (no_keywords Hk) as (-> & _ & ->). unfold ArgsRule.binding. rewrite given_nil.
  rewrite lookup_ge_None_2 by (rewrite length_take; lia). cbn [is_null]. unfold ArgsRule.default_of. by destruct (Nat.ltb_spec j (n_pos p)); [lia|].
Qed.

(** Enough positional arguments, when there are no keywords. *)
Lemma positional_bound j : (n_pos p - n_def p <= length pos)%nat -> (j < n_pos p)%nat -> is_null (binding j) = false.
Proof.
  intros Hen Hj. destruct (decide (n_pos p - n_def p <= j)%nat); [by apply binding_middle; lia|]. rewrite binding_first by lia.
  unfold ArgsRule.given. rewrite lookup_take_lt by lia. by destruct (lookup_lt_is_Some_2 pos j) as [o ->]; [lia|].
Qed.

Lemma fit_nil : keywords_fit p names pos [].
Proof. split_and!; [constructor..|]. right. constructor. Qed.

(** The dictionary that the call leaves. *)
Definition kw_dict (d : mp_map_t obj) : Prop := varkw = true -> collects qstr names kws d.

Lemma setup_keywords_ok fname code : 0 <= fname < 2 ^ 32 ->
  keyword_mode = true \/ (n_pos p - n_def p <= length pos)%nat ->
  let r := setup_keywords qstr (frame (if keyword_mode then given [] else filled (given [])) N (rest_tuple ++ rest_room)) (Z.of_nat (N + room)) p extra
    (Z.of_nat (length kws)) (kw_objs qstr kws) (var_uint fname ++ name_code names ++ code) (Z.of_nat (N + room) - 1 - Z.of_nat (N + length rest_tuple)) in
  (bound /\ exists d, r = Ret (frame binding N (after_params d)) /\ kw_dict d) \/ (~ bound /\ r = Raise TypeError) \/
  (r = Raise MemoryError /\ refuses obj).
Proof.
  intros Hfn Hen. pose proof (b_names _ _ Hb) as HN. unfold n_params in HN. cbv zeta. unfold setup_keywords.
  destruct sig_nat as (-> & -> & -> & Hsm).
  replace (Z.to_nat (Z.of_nat (n_pos p) + Z.of_nat (n_kwonly p))) with N by lia.
  assert (Hvk : (Z.land (sig_flags p) MP_SCOPE_FLAG_VARKEYWORDS =? 0) = negb varkw) by (unfold flag; by rewrite negb_involutive).
  rewrite <- negb_andb, keyword_mode_test, negb_involutive, Hvk.
  destruct keyword_mode eqn:Ek.
  - rewrite !Nat2Z.id. destruct (new_dict_ok (given []) (length kws) Hkws) as [[-> ?]|(? & -> & d0 & -> & Hd0)]; [by right; right|].
    cbn [obind]. replace (Z.of_nat (n_pos p) - Z.of_nat (n_def p)) with (Z.of_nat (n_pos p - n_def p)) by (pose proof (b_le _ _ Hb); lia). rewrite Nat2Z.id.
    pose proof (keyword_loop_ok qstr Hqstr Hinj Hhash p names pos rest_tuple (replicate (room - Nat.b2n varargs - Nat.b2n varkw) S_null) fname code
      Hfn (b_range _ _ Hb) kws [] d0 fit_nil Hd0) as Hkl. cbv zeta in Hkl.
    fold (after_params d0) in Hkl. rewrite (length_after d0) in Hkl. cbn [app] in Hkl. change (Z.of_nat (length [])) with 0 in Hkl.
    destruct Hkl as [(Hfit & d & Hrun & Hd)|[(Hfit & Hrun)|[Hrun ?]]].
    + rewrite Hrun. cbn [obind]. fold (after_params d). pose proof (defaults_ok (after_params d) fname code Hfn) as Hdef. cbv zeta in Hdef.
      rewrite (length_after d) in Hdef. destruct Hdef as [(-> & Hall)|(-> & j & Hj & Hn)].
      * left. split; [done|]. by exists d.
      * right. left. split; [|done]. intros [_ Hall]. rewrite Hall in Hn by done. done.
    + right. left. split; [by intros [? _]|]. by rewrite Hrun.
    + right. right. by rewrite Hrun.
  - destruct Hen as [?|Hen]; [done|]. destruct (no_keywords Ek) as (Ekws & _ & _).
    destruct (Z.eqb_spec (Z.of_nat (n_kwonly p)) 0) as [H0|H0]; cbn [negb].
    + assert (Hb0 : forall j, filled (given []) j = binding j) by (intros j; unfold ArgsRule.filled, ArgsRule.binding; by rewrite Ekws).
      rewrite (frame_ext _ binding) by (intros; apply Hb0).
      destruct (new_dict_ok binding 0 ltac:(done)) as [[-> ?]|(? & -> & d & -> & Hd)]; [by right; right|]. left. split.
      { split; [rewrite Ekws; apply fit_nil|]. intros j Hj. apply positional_bound; lia. }
      exists d. split; [done|]. intros Hv. rewrite Ekws. by apply Hd.
    + right. left. split; [|done]. intros [_ Hall]. specialize (Hall (n_pos p)). rewrite kwonly_null in Hall by done. discriminate Hall. lia.
Qed.

(** ** The call *)

Lemma too_few : keyword_mode = false -> (length pos < n_pos p - n_def p)%nat -> is_null (binding (length pos)) = true.
Proof.
  intros Hk Hl. rewrite binding_first by done. destruct (no_keywords Hk) as (-> & _ & _). rewrite given_nil.
  by rewrite lookup_ge_None_2 by (rewrite length_take; lia).
Qed.

(** What a call leaves, when the code begins at [code]: the bound arguments and the cells, or the error; or there is no
    memory. *)
Definition call_outcome (code : list Z) (r : outcome (mp_code_state_t obj)) : Prop :=
  (accepts qstr p names defs kwd pos kws /\ exists d, (varkw = true -> collects qstr names kws d) /\
     r = Ret {| ip := code; sp := -1; cs_n_state := Z.of_nat (N + room); exc_sp_idx := 0;
                state := reverse (foldl make_cell (tab binding N ++ after_params d) cells) |}) \/
  (~ accepts qstr p names defs kwd pos kws /\ r = Raise TypeError) \/
  (r = Raise MemoryError /\ refuses obj).

Lemma setup_outcome fname lines code rest (cs : mp_code_state_t obj) : 0 <= fname < 2 ^ 32 ->
  let info := var_uint fname ++ name_code names ++ lines in MP_BC_PRELUDE_SIG_DECODE (ip cs) = Ret (p, rest) ->
  MP_BC_PRELUDE_SIZE_DECODE rest = Ret (Z.of_nat (length info), Z.of_nat (length cells), info ++ cells ++ code) ->
  cs_n_state cs = Z.of_nat (N + room) ->
  call_outcome code (mp_setup_code_state qstr cs extra (Z.of_nat (length pos)) (Z.of_nat (length kws)) args).
Proof.
  intros Hfn info Hsig Hsize Hns. pose proof (b_names _ _ Hb) as HN. destruct (b_cells _ _ Hb) as [Hcells Hcl].
  assert (Hacc : accepts qstr p names defs kwd pos kws <-> ((length pos <= n_pos p)%nat \/ varargs = true) /\ bound).
  { unfold accepts, bound. by rewrite HN. }
  unfold call_outcome, mp_setup_code_state. rewrite Hns, Hsig. cbn [obind]. rewrite Hsize. cbn [obind]. rewrite !Nat2Z.id, drop_app_length.
  pose proof setup_positional_ok as Hpos. cbv zeta in Hpos. destruct (decide _) as [[Hmany Hen]|Hbad].
  - destruct Hpos as [[-> ?]|(? & -> & <-)]; [by right; right|]. cbn [obind]. pose proof (setup_keywords_ok fname (lines ++ cells ++ code) Hfn Hen) as Hkw. cbv zeta in Hkw.
    assert (info ++ cells ++ code = var_uint fname ++ name_code names ++ lines ++ cells ++ code) as Einfo by (unfold info; by rewrite <- !app_assoc).
    rewrite <- Einfo in Hkw. destruct Hkw as [(Hbd & d & -> & Hd)|[(Hbd & ->)|[-> ?]]]; [|right; left|by right; right].
    + cbn [obind]. rewrite drop_app_length. unfold frame.
      assert (Hlen : Z.of_nat (N + room) = Z.of_nat (length (tab binding N ++ after_params d))) by (rewrite length_app, length_tab, length_after; lia).
      rewrite Hlen. destruct (cell_loop_ok cells (tab binding N ++ after_params d) code) as [[-> ?]|(? & -> & <-)];
        [by rewrite <- Hlen|by right; right|].
      left. split; [by apply Hacc|]. exists d. split; [done|]. done.
    + split; [|done]. intros H. by apply Hacc in H as [_ H].
  - right. left. rewrite Hpos. split; [|done]. intros H. apply Hacc in H as [Hmany [_ Hall]]. apply Hbad. split; [done|].
    destruct keyword_mode eqn:Ek; [by left|]. right. destruct (decide (n_pos p - n_def p <= length pos)%nat); [done|exfalso].
    specialize (Hall (length pos)). rewrite too_few in Hall by (done || lia). unfold n_params in HN. discriminate Hall. lia.
Qed.

(** C12. A call of a function that was compiled to bytecode binds its arguments by Python's rule: given the prelude of the
    function (its numbers, its flags, the names of its parameters and the locals that are cells), its defaults, the
    positional arguments and the keyword arguments, [mp_setup_code_state] leaves in the array of locals, from its end
    on, the value of every parameter (the positional argument, else the keyword argument, else the default), the tuple of
    the positional arguments that are left over, the dictionary of exactly the keywords that name no parameter, and
    null in the others, with the cells made, and [ip] where the code begins; and it raises a [TypeError] when
    the call does not fit: too many positional arguments, a keyword that is unknown or names a parameter that has a
    value already, or a parameter without a value.  The tuple, the dictionary, its entries and the cells are allocated:
    on a heap that refuses some request, and only then, the call can raise [MemoryError] instead. *)
Theorem mp_setup_code_state_spec fname lines code (cs : mp_code_state_t obj) :
  0 <= fname < 2 ^ 32 -> let info := var_uint fname ++ name_code names ++ lines in Z.of_nat (length info) < 2 ^ 30 ->
  ip cs = sig_bytes p ++ size_bytes (Z.of_nat (length info)) (Z.of_nat (length cells)) ++ info ++ cells ++ code ->
  cs_n_state cs = Z.of_nat (N + room) ->
  let r := mp_setup_code_state qstr cs extra (Z.of_nat (length pos)) (Z.of_nat (length kws)) args in
  (accepts qstr p names defs kwd pos kws /\ exists d, (varkw = true -> collects qstr names kws d) /\
     r = Ret {| ip := code; sp := -1; cs_n_state := Z.of_nat (N + room); exc_sp_idx := 0;
                state := reverse (foldl make_cell (tab binding N ++ after_params d) cells) |}) \/
  (~ accepts qstr p names defs kwd pos kws /\ r = Raise TypeError) \/
  (r = Raise MemoryError /\ exists n, m_renew_ok (A := obj) n = false).
Proof.
  intros Hfn info Hinfo Hip Hns. destruct (b_cells _ _ Hb) as [_ Hcl].
  apply (setup_outcome fname lines code (size_bytes (Z.of_nat (length info)) (Z.of_nat (length cells)) ++ info ++ cells ++ code)); try done.
  - rewrite Hip. apply sig_decode_ok, Hb.
  - apply size_decode_ok; [split; [lia|exact Hinfo]|lia].
Qed.
End Bind.

(** [def f(a, b=100, *rest, c, d=7, **kw)], with [b] in a cell, called as [f(1, 2, 3, 4, c=5, z=9)]; the names are 10 to 13 and 99. *)
Definition sample_sig : prelude_sig :=
  {| n_state := 8; n_exc_stack := 0; sig_flags := 14; n_pos_args := 2; n_kwonly_args := 2; n_def_pos_args := 1 |}.
Definition sample_defaults : mp_map_t sample_obj :=
  match let! d := mp_obj_new_dict 1 in mp_obj_dict_store d (Qstr 13) (Int 7) with Ret d => d | _ => mk_map true false false 0 0 [] end.
Definition sample_code : list Z :=
  sig_bytes sample_sig ++ size_bytes 5 1 ++ (var_uint 50 ++ name_code [10; 11; 12; 13] ++ []) ++ [1] ++ [99].

Lemma sample_hash q : exists h, mp_hash (Qstr q) = Ret h.
Proof. by eexists. Qed.

Lemma sample_qstr q : mp_obj_is_qstr (Qstr q) = true.
Proof. done. Qed.

Lemma sample_inj : Inj (=) (=) Qstr.
Proof. by intros ?? [=]. Qed.

Lemma sample_bindable : bindable sample_sig [10; 11; 12; 13] [Int 100] (Some sample_defaults) [1] 4.
Proof.
  assert (sig_ok sample_sig) by (unfold sig_ok; cbn; lia). split; try done.
  - by repeat constructor.
  - vm_compute. lia.
  - split; [done|]. unfold sample_defaults. destruct (new_dict_collects Qstr [] 1 ltac:(done)) as [[E _]|(d0 & E & Hd0)].
    { vm_compute in E. discriminate E. }
    rewrite E. cbn [obind].
    destruct (collects_store Qstr sample_qstr sample_inj sample_hash [] [] (13, Int 7) d0 eq_refl Hd0) as [[F _]|(d & F & [Hwf _])].
    { vm_compute in E. injection E as <-. vm_compute in F. discriminate F. }
    cbn [fst snd] in F. by rewrite F.
  - split; [repeat constructor; cbn; lia|cbn; lia].
  - vm_compute. lia.
Qed.

Lemma mp_setup_code_state_spec_witness :
  let kws := [(12, Int 5); (99, Int 9)] in
  exists d, mp_setup_code_state Qstr {| ip := sample_code; sp := 0; cs_n_state := 8; exc_sp_idx := 0; state := [] |}
      [S_obj (Int 100); S_dict sample_defaults] 4 2 ([Int 1; Int 2; Int 3; Int 4] ++ kw_objs Qstr kws) =
    Ret {| ip := [99]; sp := -1; cs_n_state := 8; exc_sp_idx := 0;
           state := reverse [S_obj (Int 1); S_cell (S_obj (Int 2)); S_obj (Int 5); S_obj (Int 7); S_tuple [Int 3; Int 4]; S_dict d; S_null; S_null] |} /\
    assoc (table d) (Qstr 99) = Some (Some (Int 9)) /\ assoc (table d) (Qstr 12) = None.
Proof.
  intros kws.
  destruct (mp_setup_code_state_spec Qstr sample_qstr sample_inj sample_hash sample_sig [10; 11; 12; 13] [Int 100] (Some sample_defaults)
    [Int 1; Int 2; Int 3; Int 4] kws [1] 4 sample_bindable ltac:(cbn; lia) 50 [] [99]
    {| ip := sample_code; sp := 0; cs_n_state := 8; exc_sp_idx := 0; state := [] |} ltac:(lia) ltac:(vm_compute; reflexivity) eq_refl eq_refl)
    as [(_ & d & Hd & Hr)|[(_ & Hr)|[Hr _]]]; [|vm_compute in Hr; discriminate Hr..].
  destruct (Hd eq_refl) as [_ Hc]. exists d. split; [exact Hr|]. rewrite (Hc 99), (Hc 12). vm_compute. by split.
Defined.
