(* ===== verification/ArgsCall.v ===== *)
(** * Calls of compiled functions

    The compiler and the binding of arguments meet here: a function that the passes of the emitter compiled is called.
    The names of the parameters and the cells are those of the scope, and the instructions that are left to run are those
    that the calls of the compiler mean. *)

From S2P Require Import Prelude MpObj HashKeys Map MapSpec ObjDict Malloc SmallInt Token Bytecode BytecodeNum BytecodePrelude BytecodeSpec Scope ScopeSpec EmitBc EmitMethods EmitPass EmitItems EmitRun EmitCode EmitPrelude EmitSpec EmitRead Args ArgsRule ArgsSpec.
Local Open Scope Z_scope.

(** The names of the parameters of a scope, as its code has them. *)
Definition param_names (star : Z) (s : scope_t) : list Z :=
  (fun k => wrap 16 (arg_name star (ids s) (Z.of_nat k))) <$> seq 0 (Z.to_nat (num_pos_args s + num_kwonly_args s)).

Lemma name_bytes_code star s : name_bytes star s = var_uint (wrap 16 (simple_name s)) ++ name_code (param_names star s).
Proof.
  unfold name_bytes, names_bytes, name_code, param_names. f_equal. by rewrite list_fmap_bind.
Qed.

Lemma length_param_names star s : scope_small s -> length (param_names star s) = n_params (sig_of s).
Proof. intros (_ & _ & _ & _ & H1 & H2 & _). unfold param_names, n_params, n_pos, n_kwonly. rewrite length_fmap, length_seq. cbn. lia. Qed.

Lemma param_names_range star s : Forall (fun x => 0 <= x < 2 ^ 32) (param_names star s).
Proof.
  unfold param_names. apply Forall_fmap, list.Forall_forall. intros k _. cbn. pose proof (wrap_range 16 (arg_name star (ids s) (Z.of_nat k)) ltac:(lia)). lia.
Qed.

Section Call.
Context {words : Allocator Z} (star ellipsis : Z).
Context {obj : Type} `{!EqDecision obj, !MpObjOps obj, !MpObjLaws obj, !Allocator obj, !SmallHeap obj} (qstr : Z -> obj).
Context (Hqstr : forall q, mp_obj_is_qstr (qstr q) = true) (Hinj : Inj (=) (=) qstr).
Context (Hhash : forall q, exists h, mp_hash (qstr q) = Ret h).

(** A scope whose locals are numbered, and the defaults that a function object of it has. *)
Record callable (s : scope_t) (defs : list obj) (kwd : option (mp_map_t obj)) : Prop := {
  f_def : Z.of_nat (length defs) = num_def_pos_args s;
  f_le : num_def_pos_args s <= num_pos_args s;
  f_kwd : match kwd with
          | Some d => flag (sig_of s) MP_SCOPE_FLAG_DEFKWARGS = true /\ dict_wf d
          | None => flag (sig_of s) MP_SCOPE_FLAG_DEFKWARGS = false
          end;
  f_cells : Forall (fun c => 0 <= c < num_locals s) (cells_of (ids s));
  f_locals : num_pos_args s + num_kwonly_args s + Z.b2z (flag (sig_of s) MP_SCOPE_FLAG_VARARGS) +
             Z.b2z (flag (sig_of s) MP_SCOPE_FLAG_VARKEYWORDS) <= num_locals s
}.

(** The locals behind the parameters, and the stack. *)
Definition frame_room (s : scope_t) : nat := Z.to_nat (n_state (sig_of s) - num_pos_args s - num_kwonly_args s).

Lemma frame_split s defs kwd : scope_small s -> callable s defs kwd ->
  Z.of_nat (length (param_names star s) + frame_room s) = n_state (sig_of s) /\ num_locals s <= n_state (sig_of s).
Proof.
  intros Hs Hf. pose proof (f_locals _ _ _ Hf). unfold frame_room. rewrite length_param_names by done. unfold scope_small in Hs.
  unfold n_params, n_pos, n_kwonly. cbn -[Z.eqb flag] in *. destruct (Z.eqb_spec (num_locals s + stack_size s) 0), (flag _ MP_SCOPE_FLAG_VARARGS),
    (flag _ MP_SCOPE_FLAG_VARKEYWORDS); cbn in *; lia.
Qed.

Lemma callable_bindable s defs kwd : scope_small s -> callable s defs kwd -> (length (cells_of (ids s)) < 64)%nat ->
  bindable (sig_of s) (param_names star s) defs kwd (cells_of (ids s)) (frame_room s).
Proof.
  intros Hs Hf Hc. destruct (frame_split s defs kwd Hs Hf) as [Hn Hl].
  pose proof (f_def _ _ _ Hf). pose proof (f_le _ _ _ Hf). pose proof (f_locals _ _ _ Hf). pose proof (length_param_names star s Hs) as HN.
  constructor; [by apply sig_of_ok|done|apply param_names_range| | |apply Hf| |].
  - unfold n_def. cbn. lia.
  - unfold n_def, n_pos. cbn. lia.
  - split; [|done]. rewrite Hn. eapply list.Forall_impl; [apply Hf|]. cbv beta. lia.
  - unfold n_params, n_pos, n_kwonly, scope_small in *. cbn -[flag n_state] in *.
    destruct (flag _ MP_SCOPE_FLAG_VARARGS), (flag _ MP_SCOPE_FLAG_VARKEYWORDS); cbn -[n_state] in *; lia.
Qed.

(** C11. A function that the passes of the emitter compiled can be called: for every call with positional and keyword
    arguments, either the call fits the parameters that the scope of the function has, and then the array of locals has
    the arguments and defaults of the parameters by Python's rule, the tuple and the dictionary of the rest, and the cells
    that the scope asks for, and what is left at [ip] are the instructions that the calls of the compiler mean; or the call
    does not fit and is a [TypeError].  Both the compilation and the call allocate: the passes can raise [MemoryError]
    (see [EmitRead.compile_module_reads]), and so can the call, on a heap that refuses some request, in place of its
    result. *)
Theorem compiled_function_call cs e s defs kwd pos kws : idle e -> Z.of_nat (length kws) < 2 ^ 28 ->
  let b := ct_cur_obj (emit_common e) in let ws := items ellipsis cs in let s' := scope_after s ws 0 in
  compilable ellipsis cs (max_num_labels e) b s -> readable_scope (max_num_labels e) b s ws ->
  b + Z.of_nat (length (objs_of ws)) <= Z.of_nat (length (const_table (emit_common e))) ->
  callable s' defs kwd ->
  compile_passes star ellipsis e s cs = Raise MemoryError \/
  exists e' rc code labs, compile_passes star ellipsis e s cs = Ret (e', Some rc) /\
    reads (const_table (emit_common e')) (rc_children rc) labs 0 code ws /\
    forall old_sp old_exc old_state,
      call_outcome qstr (sig_of s') (param_names star s') defs kwd pos kws (cells_of (ids s')) (frame_room s') code
        (mp_setup_code_state qstr
           {| ip := rc_fun_data rc; sp := old_sp; cs_n_state := n_state (sig_of s'); exc_sp_idx := old_exc; state := old_state |}
           (extra_args defs kwd) (Z.of_nat (length pos)) (Z.of_nat (length kws)) (pos ++ kw_objs qstr kws)).
Proof.
  intros Hi Hkws b ws s' Hc Hr Ht Hf. pose proof (compilable_after _ _ _ _ _ Hc) as Hc'. destruct (scope_after_names s ws) as (_ & _ & Hids & Hnames).
  destruct (compile_passes_result star ellipsis cs e s Hi Hc Ht) as [H|(e' & rc & H & Hres)]; [by left|right].
  fold b ws in Hres. pose proof (o_table _ _ _ _ _ _ _ _ Hres) as Hk. pose proof (c_obj _ _ _ _ _ Hc) as Hobj.
  destruct (result_runs star ellipsis cs e e' rc s b (const_table (emit_common e')) Hres Hc (idle_labels e Hi) Hr) as (_ & _ & (p & code & labs & Hsig & Hsize & Hreads) & _).
  { rewrite Hk. apply at_table_splice; [apply Hobj|done]. }
  exists e', rc, code, labs. split; [done|]. split; [done|]. intros old_sp old_exc old_state.
  assert (Hs' : scope_small s') by apply Hc'. fold ws s' in Hsig.
  assert (Hcells : (length (cells_of (ids s')) < 64)%nat) by (unfold s'; rewrite Hids; apply Hr).
  apply (setup_outcome qstr Hqstr Hinj Hhash _ _ _ _ _ _ _ _ (callable_bindable s' defs kwd Hs' Hf Hcells) Hkws (wrap 16 (simple_name s')) [] code p).
  - pose proof (wrap_range 16 (simple_name s') ltac:(lia)). lia.
  - exact Hsig.
  - rewrite app_nil_r, <- name_bytes_code. unfold s' at 1 2 3 4. rewrite Hids, Hnames. exact Hsize.
  - symmetry. by apply (frame_split s' defs kwd).
Qed.
End Call.

(** The function of [EmitRead], whose parameter has the name 44 and is a cell, called as [f(a=5)]. *)
#[local] Instance sample_words : Allocator Z := {| m_renew_ok n := n <=? 4096; fresh := 170 |}.

Lemma demo_readable : readable_scope 2 0 demo_function (items 999 demo_function_calls).
Proof. split; [vm_compute; reflexivity|by apply Nat.ltb_lt]. Qed.

Lemma demo_callable : callable (obj := sample_obj) (scope_after demo_function (items 999 demo_function_calls) 0) [] None.
Proof. constructor; [done|cbn; lia|done|repeat constructor; cbn; lia|vm_compute; discriminate]. Qed.

Lemma compiled_function_call_witness : exists e' rc code labs,
  compile_passes 77 999 demo_ready demo_function demo_function_calls = Ret (e', Some rc) /\
  reads (const_table (emit_common e')) (rc_children rc) labs 0 code (items 999 demo_function_calls) /\
  mp_setup_code_state Qstr {| ip := rc_fun_data rc; sp := 0; cs_n_state := 2; exc_sp_idx := 0; state := [] |} [] 0 1 [Qstr 44; Int 5] =
    Ret {| ip := code; sp := -1; cs_n_state := 2; exc_sp_idx := 0; state := reverse [S_cell (S_obj (Int 5)); S_null] |}.
Proof.
  destruct (compiled_function_call 77 999 Qstr sample_qstr sample_inj sample_hash demo_function_calls demo_ready demo_function [] None [] [(44, Int 5)]
    demo_idle ltac:(cbn; lia) demo_function_ok_alone demo_readable ltac:(cbn; lia) demo_callable) as [H|(e' & rc & code & labs & H & Hreads & Hcall)].
  - vm_compute in H. discriminate H.
  - exists e', rc, code, labs. split; [exact H|]. split; [exact Hreads|].
    destruct (Hcall 0 0 []) as [(_ & d & _ & Hr)|[(Hno & _)|[Hr _]]]; [exact Hr|exfalso|exfalso].
    2: { clear Hcall Hreads. vm_compute in H. injection H as _ <-. vm_compute in Hr. discriminate Hr. }
    apply Hno. split; [by left; cbn; lia|]. split.
    + split; [|split; [|right]]; vm_compute; repeat constructor; [apply not_elem_of_nil|discriminate].
    + intros j Hj. vm_compute in Hj. destruct j; [reflexivity|lia].
Defined.
